(* ===== verification/_CoqProject ===== *)
-Q . S2P
Prelude.v
DispatchTypes.v
VtUtils.v
StateMachine.v
StateMachineInv.v
StateMachineTotal.v
StateMachineStream.v
StateMachineGrammar.v
StateMachineSubParams.v
ParserTheorems.v
Base64.v
Strings.v
ColorTable.v
Colors.v
LineRenditions.v
ITermDispatch.v
OutputEngine.v
OutputTheorems.v
Utf8Stream.v
ShimProtocol.v
ShimHost.v
ShimQuote.v
ShimEnvironment.v
SshShim.v
ShimTheorems.v
Rle.v
RleTheorems.v
RleIterator.v
RleRefinement.v
InputEvents.v
InputEngine.v
TerminalInput.v
InputInvariant.v
InputTheorems.v
TextColors.v
TextAttributes.v
Graphics.v
GraphicsTheorems.v
GraphicsInvariant.v
Macros.v
MacroTheorems.v
MacroDefinitions.v
GraphemeTables.v
Graphemes.v
GraphemeTheorems.v
ImageSlice.v
Row.v
RowSpec.v
RowWrite.v
RowInit.v
RowReplace.v
RowText.v
RowJoin.v
RowCopy.v
RowQueries.v
RowInvariant.v
RowExamples.v
RowImages.v
CharSets.v
TerminalOutput.v
CharsetTheorems.v
Cursor.v
TextBuffer.v
BufferStore.v
BufferRefinement.v
BufferFill.v
BufferExamples.v
BufferFrame.v
Pages.v
AdaptDispatch.v
AdaptScreen.v
AdaptModes.v
PageTheorems.v
AdaptCursor.v
AdaptTheorems.v
AdaptFeeds.v
AdaptCalls.v
AdaptReports.v
AdaptExamples.v
