(* ===== verification/Prelude.v ===== *)
(** * VT7: the terminal engine, modelled and verified

    VT7 is a terminal for Windows 7 built on the terminal core of Windows Terminal.
    The core of that program is the path from the bytes an application writes to the
    calls that change the screen:

    - [StateMachine] ([src/terminal/parser/stateMachine.cpp]) parses the character
      stream: plain text, control characters, escape, CSI, OSC, DCS, SS3 and VT52
      sequences. It calls an [IStateMachineEngine].
    - [OutputStateMachineEngine] ([src/terminal/parser/OutputStateMachineEngine.cpp])
      is the engine on the terminal side. It decides what each sequence means and
      calls a dispatcher, [ITermDispatch].
    - On the way the two use the packed identifiers and parameter lists of
      [src/terminal/adapter/DispatchTypes.hpp], the base 64 decoder
      ([src/terminal/parser/base64.cpp]), the string and colour parsers of
      [src/types/utils.cpp] and [src/inc/til/string.h], and the colour tables of
      [src/types/colorTable.cpp].

    The other way, keys and mouse messages become sequences, and sequences input records:

    - [TerminalInput] ([src/terminal/input/terminalInput.cpp], [mouseInput.cpp]) encodes
      key, mouse and focus events, in the modes an application has set.
    - [InputStateMachineEngine] ([src/terminal/parser/InputStateMachineEngine.cpp]) is the
      engine on the console side: the same parser with it turns sequences into input
      records for an [IInteractDispatch].

    Around this core the application has

    - the UTF-8 stream of a session ([src/vt7/VT7.Native/utf8_terminal_stream.hpp] over
      [src/inc/til/u8u16convert.h]), which feeds the parser;
    - the SSH shim ([src/vt7/VT7.SshShim/main.cpp]), a program that asks the terminal whether
      an ssh command may be embedded and otherwise launches the real client, with the host's
      side of its protocol ([src/vt7/VT7.Host/SshShimProtocol.cs]);
    - run-length encoded vectors ([src/inc/til/rle.h]), in which rows keep their attributes;
    - the colours and attributes of cells ([src/buffer/out/TextColor.cpp],
      [TextAttribute.cpp]), and the part of the dispatcher that changes the current ones
      ([src/terminal/adapter/adaptDispatchGraphics.cpp], [src/types/sgrStack.cpp]);
    - the macros that an application defines and invokes
      ([src/terminal/adapter/MacroBuffer.cpp]);
    - the rows of the text buffer ([src/buffer/out/Row.cpp]), which keep the text of a line
      with the columns of its glyphs, its attributes and the part of an image that covers it
      ([src/buffer/out/ImageSlice.cpp]). What a glyph is and how many columns it takes
      the grapheme detector decides ([src/types/CodepointWidthDetector.cpp]);
    - the text buffer around them ([src/buffer/out/textBuffer.cpp]): the rows in a circle that
      advances when the screen scrolls, in memory that is committed on demand, the cursor
      ([src/buffer/out/cursor.cpp]), the hyperlinks;
    - the dispatcher behind [ITermDispatch] ([src/terminal/adapter/adaptDispatch.cpp]), which
      turns the calls of the output engine into changes of the text buffer: it prints, moves
      the cursor, scrolls, erases, and keeps margins, tabs, modes and saved state. It uses the
      pages of the terminal ([src/terminal/adapter/PageManager.cpp]), the character sets
      ([src/terminal/adapter/terminalOutput.cpp], [charsets.hpp]) and, for buffers and viewport,
      the terminal that owns it ([src/cascadia/TerminalCore/TerminalApi.cpp]).

    ** How the code is modelled

    A class is a record of its members; a member function is a function of the
    object, written in the state and exception monad [M] of this file ([Ret], [Throw]
    for a C++ exception, [UB] for undefined behaviour, [OutOfFuel] for a recursion
    cut short). Integers are [Z]; every place where the C++ type can wrap applies
    [wrap]. [wchar_t] is a 16-bit unit, strings are lists of units. Iterators and
    [string_view]s are list suffixes or positions. Interfaces are type classes, so a
    client is proved against the interface and an implementation is an instance:
    [IStateMachineEngine] between parser and engine, [TermDispatch] between engine
    and dispatcher, [GraphemeDetector] with its laws between a row and the detector. What an engine may ask of the parser while it runs
    ([SetParserMode], [InjectSequence], [OnCsiComplete]) are the [Request]s of the
    interface. The shim is a program over system calls, an indexed family of events;
    what the operating system and the host answer is arbitrary. Code outside the
    repository is a parameter: the conversions and cryptography of Windows, the
    keyboard layout, the clock, the heap ([Allocator]), the memory of the system ([VirtualMemory]),
    and the dispatchers behind [ITermDispatch] and
    [IInteractDispatch].

    ** The files

    - [Prelude]: machine integers, the monad [M] with its partial ([wp]) and total
      ([twp]) program logics, [switch], list lemmas and tactics.
    - [DispatchTypes]: [VTID], [VTIDBuilder], [VTParameter], [VTParameters]; that
      identifiers are little-endian strings.
    - [VtUtils]: [FindActionableControlCharacter], scalar and SSE2.
    - [StateMachine]: the whole parser, with one definition per action, state entry,
      event and public function of the class.
    - [StateMachineInv]: the well-formedness invariant of the parser's registers and
      its preservation by every step; there is no undefined behaviour but for one case ([front_of_empty]).
    - [StateMachineTotal]: termination, for engines that bound the nesting of
      callbacks ([BoundedEngine]).
    - [StateMachineStream]: runs versus characters, for engines that print strings
      character-wise ([StreamingEngine]); an equivalence up to bookkeeping.
    - [StateMachineGrammar]: what CSI and OSC sequences make the parser do.
    - [StateMachineSubParams]: the same for CSI sequences with sub parameters.
    - [ParserTheorems]: the theorems about the parser, and two small engines that log
      what they are asked, with example transcripts; they instantiate the theorems on
      concrete input.
    - [Base64]: the decoder, the encoding of RFC 4648, and that one inverts the other.
    - [Strings]: numbers, splitting, the paste filters, [til::split_iterator],
      [til::parse_unsigned].
    - [ColorTable], [Colors]: [til::color], palettes, X.Org names, XParseColor
      specifications, percentages and hexadecimal strings.
    - [LineRenditions]: single and double width lines and their coordinates.
    - [ITermDispatch]: the dispatch interface and the sequencing of engine actions.
    - [OutputEngine]: the output engine, its action codes and the calls each makes.
    - [OutputTheorems]: the theorems about the output engine and about parser and
      engine together, with a logging dispatcher as their instance. That runs and characters make the
      same calls is shown for an [observed_dispatch], whose answers depend on the calls before.
    - [Utf8Stream]: the stream of a session with its partial sequences, and that cutting
      the bytes anywhere does not change the text.
    - [ShimProtocol], [ShimHost]: the frames of the shim's protocol, from both ends.
    - [ShimQuote], [ShimEnvironment]: the command line and the environment of the client.
    - [SshShim], [ShimTheorems]: programs over system calls, the shim as one,
      and what holds of all its runs.
    - [Rle], [RleTheorems], [RleIterator], [RleRefinement]: the run-length encoded vector,
      its splice, its iterators, and the refinement of plain vectors.
    - [InputEvents], [InputEngine]: input records and the input engine.
    - [TerminalInput]: the encoders of keys and mouse messages.
    - [InputInvariant]: that the numbers in sequences are the parameters they denote; the
      invariant of the encoders' state and the stacks of kitty flags.
    - [InputTheorems]: that what the encoders send, parsed, is what was typed or clicked.
    - [TextColors], [TextAttributes]: the colours and attributes of cells, and the
      attributes of the console API.
    - [Graphics]: SGR, DECSCA, the stack of attributes and the report of the attributes.
    - [GraphicsTheorems], [GraphicsInvariant]: the stack, the report as
      parameters with sub parameters, and what holds of all attributes that can be set.
    - [Macros], [MacroTheorems], [MacroDefinitions]: the buffer of macros, its limits, and
      the language of definitions.
    - [GraphemeTables], [Graphemes]: the tables of Unicode properties and the three ways to
      measure text; [GraphemeTheorems]: that they divide every text.
    - [ImageSlice], [RowImages]: the pixels over a row, and copying them.
    - [Row]: the row, with the vectorized initialization, the write helper and the mapping
      between characters and columns.
    - [RowSpec]: what a row means, a list of glyphs that fill its columns ([shows]).
    - [RowInit], [RowWrite], [RowReplace], [RowText], [RowJoin], [RowCopy]:
      what construction, replacing glyphs, writing text and copying do to that list; [RowJoin] has
      the detector as the instance that rows use.
    - [RowQueries]: what the queries read from it. [RowInvariant]: all calls in any order. [RowExamples]:
      text laid out by its grapheme clusters ([laid_out]), concrete rows, and behaviour worth knowing.
    - [Cursor], [TextBuffer]: the cursor and the text buffer, its cells and rectangles.
    - [BufferStore], [BufferRefinement]: the rows a buffer stands for, and that it is that list;
      where the memory of a row lies does not matter for copies.
    - [BufferFill]: rectangles. [BufferExamples]: concrete buffers, and behaviour worth knowing.
    - [CharSets], [TerminalOutput], [CharsetTheorems]: the tables of character sets, their designation
      and shifts, an independent machine of ISO 2022 ([Iso2022]), and that text is translated as it says.
    - [BufferFrame]: which functions of a buffer keep its size and its cursor.
    - [Pages]: the buffers and the viewport of the terminal, and its pages. [PageTheorems]: their invariant.
    - [AdaptDispatch], [AdaptScreen], [AdaptModes]: the dispatcher: the cursor, margins, tabs, pages and saved
      state; text, line feeds, scrolling, erasure and areas; modes, resets and reports. A function runs on the
      state of the dispatcher with its pages, and on that of the grapheme detector; a page is a reference to
      a buffer and an extent, so that functions of one page see each other's changes. A function that has cases
      outside of the model (of the parser, the renderer, the alternate buffer) is an [option].
    - [AdaptCursor], [AdaptFeeds]: a program logic for the dispatcher ([ensures], and [leads]
      where the page moves), and what each function keeps. [AdaptTheorems]: what cursor functions do exactly.
    - [AdaptCalls]: which function a call of [ITermDispatch] executes, and what any sequence of calls keeps that return or throw.
    - [AdaptReports]: reports of tab stops and modes. [AdaptExamples]: concrete terminals, and behaviour worth knowing.

    ** What is shown

    - Safety: no string, state or engine makes the parser read or write out of
      bounds, except that the input side reads the front of an empty string that it is given in the middle of a sequence; its registers stay within their limits; base 64 decoding stays within
      its buffer; a UTF-8 write stays within its array of partial bytes; operations on
      run-length encoded vectors stay within the runs; calls of a row stay within its arrays.
    - Invariants: the registers of the parser, the partial bytes of the stream, the runs
      of a vector, the modes and stacks of the input encoder, the attributes set by SGR and
      those saved on its stack, the space and the nesting of macros, the glyphs and
      attributes of a row, for any sequence of calls (that give attributes to at least one column, and text of at most 15 bits); that
      the cursor is on the active page and the page in its buffer, whatever is printed and whatever calls are
      made, as long as they return or throw.
    - Refinement: every run of the shim is one its contract allows (it exits, launches at
      most one verified client, none after the barrier), with the one check assumed of the host that the shim does not make,
      that the client it names is that of the session; a run-length encoded vector has
      the outcome of the plain vector for any sequence of operations; the ring buffer of
      saved attributes is a stack of the last ten; writing text into a row lays out its grapheme clusters
      in the list of glyphs the row stands for; a text buffer is the list of its rows, whatever is
      done to it; the character sets are those of ISO 2022.
    - Termination: every string is processed to its end. The fuel of [_SafeExecute]
      and [FlushToTerminal] is two, because a flush that fails is not flushed again;
      the depth of [ProcessString] is the nesting the callbacks are allowed plus one
      (one for the input engine, which has none). The fuel of the loops over a row is one
      more than its columns, that of a grapheme cluster the length of the text. The loops
      of the dispatcher over text and over cells of areas have any number of turns ([Turns]): what is shown of calls that end is shown
      for each. That they end is shown of filling rectangles with ASCII and of tabs, not of printing.
    - Equivalences: processing a string makes the calls that its characters make, and cutting the input
      differently changes no call (text printed taken character by character), the vectorized search equals the scalar one, the
      paste filter equals its character-wise definition, the vectorized look-ups of a
      bright default colour equal the loop; tabs equal counting in the list of stops; a grapheme cluster cut between two strings is
      the one of their concatenation.
    - Functional behaviour: which dispatch a CSI or OSC sequence leads to, with which
      parameters, and which calls the output engine then makes; REP; CAN and SUB;
      colours, clipboard and hyperlinks of the OSC sequences; the exact language of
      colour specifications and numbers; what the queries of a row say of the glyph at a
      column or of a character of its text; what copying rows and images copies;
      which columns of which rows filling a rectangle changes.
    - Round trips: base 64, split and join, hexadecimal and percentage colours; the
      messages of the shim and the host; the client's command line; key events in win32
      mode, cursor, editing and function keys in the classic encoding, and mouse events
      in the SGR encoding, through the encoder, the parser and the input engine; the
      attributes of the console API; the report of the graphic rendition, sent back through
      the parser, the output engine and SGR; definitions of macros in hexadecimal; the position
      of the cursor and its report; the saved state of the cursor; tab stops and modes and their reports.

    ** What is not modelled

    Of the dispatcher: copies and checksums of rectangular areas, the alternate buffer, the
    number of columns (DECCOLM), hard reset, colours, titles, hyperlinks, the clipboard, sixels and soft fonts, the
    private sequences of other terminals and the remaining reports; of the terminal core selection, resizing,
    scrollbars and patterns. Theorems about the dispatcher hold while the window keeps its size, and need pages of at least
    two columns and two rows. Of the text buffer the navigation by words and selections, the
    export of text, reflow, search and the extents of marks, rendering, windows, the settings
    model and the user interface. Tracing calls are left out. The floating point colour conversions (HLS) are left out. Of the shim,
    HMAC and SHA-256 are parameters. *)
From stdpp Require Export base list numbers option strings.
From Stdlib Require Export ZArith Lia.

#[global] Open Scope Z_scope.

(** * Shared vocabulary *)

(** ** Machine integers

    A [w]-bit unsigned C++ integer is a [Z]; every place where the source can
    wrap around applies [wrap]. *)
Definition wrap (w z : Z) : Z := z mod 2 ^ w.

Abbreviation u8 := (wrap 8).
Abbreviation u16 := (wrap 16).
Abbreviation u32 := (wrap 32).
Abbreviation u64 := (wrap 64).

Lemma wrap_bound w z : 0 <= w -> 0 <= wrap w z < 2 ^ w.
Proof. intros Hw. apply Z.mod_pos_bound, Z.pow_pos_nonneg; lia. Qed.

Lemma wrap_small w z : 0 <= z < 2 ^ w -> wrap w z = z.
Proof. apply Z.mod_small. Qed.

(** A value converted to [int]. *)
Definition int32 (z : Z) : Z := let u := u32 z in if u <? 2 ^ 31 then u else u - 2 ^ 32.

Lemma int32_small z : - 2 ^ 31 <= z < 2 ^ 31 -> int32 z = z.
Proof.
  intros Hz. unfold int32, wrap. destruct (Z.ltb_spec (z mod 2 ^ 32) (2 ^ 31)); destruct (Z.le_gt_cases 0 z);
    try (rewrite Z.mod_small by lia; lia); try (rewrite Z.mod_small in * by lia; lia);
    rewrite <- (Z.mod_add z 1) in * by lia; rewrite Z.mod_small in * by lia; lia.
Qed.

(** ** Code units

    [wchar_t] is a 16-bit unit on Windows and [char] a byte; both are [Z].
    A [std::wstring], [std::wstring_view], [std::string] or byte vector is a
    list of them. *)
Abbreviation wchar_t := Z.
Abbreviation wstring := (list Z).
Abbreviation bytes := (list Z).

Definition is_wchar (c : wchar_t) : Prop := 0 <= c < 65536.
Definition is_byte (b : Z) : Prop := 0 <= b < 256.

#[global] Instance is_wchar_dec c : Decision (is_wchar c).
Proof. unfold is_wchar. apply _. Defined.
#[global] Instance is_byte_dec b : Decision (is_byte b).
Proof. unfold is_byte. apply _. Defined.

(** Proves a closed decidable proposition by evaluating its decision procedure. *)
Ltac by_decide := apply (bool_decide_unpack _); vm_compute; exact I.

(** The code units of an ASCII literal, [L"..."] or ["..."] in the source. *)
Definition L (s : string) : wstring :=
  map (fun a => Z.of_N (Ascii.N_of_ascii a)) (String.list_ascii_of_string s).
Arguments L s%_string.

(** A C++ [switch] over integer labels: the first matching label wins. *)
Fixpoint switch {A : Type} (v : Z) (cases : list (Z * A)) (default : A) : A :=
  match cases with
  | [] => default
  | (label, body) :: rest => if v =? label then body else switch v rest default
  end.

Lemma switch_in {A} v (body : A) cases default :
  NoDup (map fst cases) -> In (v, body) cases -> switch v cases default = body.
Proof.
  induction cases as [|[label b] cases IH]; [done|]. cbn. intros [Hl Hn]%NoDup_cons [Heq|Hin].
  - injection Heq as -> ->. by rewrite Z.eqb_refl.
  - destruct (Z.eqb_spec v label) as [->|]; [|by apply IH].
    exfalso. apply Hl, list_elem_of_In, (in_map fst _ _ Hin).
Qed.

Lemma switch_default {A} v (cases : list (Z * A)) default :
  ~ In v (map fst cases) -> switch v cases default = default.
Proof.
  induction cases as [|[label b] cases IH]; [done|]. cbn. intros Hn.
  destruct (Z.eqb_spec v label) as [->|]; tauto.
Qed.

(** ** Outcomes of a C++ call

    A call returns a value, leaves by an exception, has undefined behaviour
    (reading past a buffer, calling [back()] on an empty vector, ...), or, in
    the model only, exhausts the fuel given to a recursion that is not
    structural. *)
Inductive Outcome (A : Type) : Type :=
| Ret (a : A)
| Throw
| UB
| OutOfFuel.
Arguments Ret {A} a.
Arguments Throw {A}.
Arguments UB {A}.
Arguments OutOfFuel {A}.

(** Code that mutates an object of type [S]: the object keeps the changes made
    before an exception. *)
Definition M (S A : Type) : Type := S -> S * Outcome A.

#[global] Instance M_ret {S} : MRet (M S) := fun A a s => (s, Ret a).
#[global] Instance M_bind {S} : MBind (M S) := fun A B f m s =>
  match m s with
  | (s', Ret a) => f a s'
  | (s', Throw) => (s', Throw)
  | (s', UB) => (s', UB)
  | (s', OutOfFuel) => (s', OutOfFuel)
  end.

Definition throw {S A} : M S A := fun s => (s, Throw).
Definition ub {S A} : M S A := fun s => (s, UB).
Definition outOfFuel {S A} : M S A := fun s => (s, OutOfFuel).
Definition gets {S A} (f : S -> A) : M S A := fun s => (s, Ret (f s)).
Definition modify {S} (f : S -> S) : M S unit := fun s => (f s, Ret tt).

(** [try { m } catch (...) { h }]. *)
Definition try_catch {S A} (m h : M S A) : M S A := fun s =>
  match m s with
  | (s', Throw) => h s'
  | r => r
  end.

(** Running a computation step by step. *)
Section run.
Context {S A B : Type}.
Implicit Types (s : S).

Lemma run_modify f (k : unit -> M S B) s : mbind k (modify f) s = k tt (f s).
Proof. done. Qed.

Lemma run_gets (f : S -> A) (k : A -> M S B) s : mbind k (gets f) s = k (f s) s.
Proof. done. Qed.

Lemma run_ret (a : A) (k : A -> M S B) s : mbind k (mret a) s = k a s.
Proof. done. Qed.

Lemma run_bind (m : M S A) (k : A -> M S B) s s' a :
  m s = (s', Ret a) -> mbind k m s = k a s'.
Proof. intros Hm. unfold mbind, M_bind. by rewrite Hm. Qed.
End run.

(** ** A small program logic for [M]

    [wp m Q X s]: run from [s], [m] has no undefined behaviour, a normal return
    satisfies [Q] and an exception leaves a state in [X]. *)
Definition wp {S A} (m : M S A) (Q : A -> S -> Prop) (X : S -> Prop) (s : S) : Prop :=
  match m s with
  | (s', Ret a) => Q a s'
  | (s', Throw) => X s'
  | (_, UB) => False
  | (_, OutOfFuel) => True
  end.

Section wp_rules.
Context {S : Type}.
Implicit Types (s : S) (X : S -> Prop).

Lemma wp_ret {A} (a : A) Q X s : Q a s -> wp (mret a) Q X s.
Proof. done. Qed.

Lemma wp_bind {A B} (m : M S A) (f : A -> M S B) Q X s :
  wp m (fun a => wp (f a) Q X) X s -> wp (mbind f m) Q X s.
Proof. unfold wp, mbind, M_bind. destruct (m s) as [s' []]; done. Qed.

Lemma wp_gets {A} (f : S -> A) Q X s : Q (f s) s -> wp (gets f) Q X s.
Proof. done. Qed.

Lemma wp_modify (f : S -> S) Q X s : Q tt (f s) -> wp (modify f) Q X s.
Proof. done. Qed.

Lemma wp_throw {A} (Q : A -> S -> Prop) X s : X s -> wp throw Q X s.
Proof. done. Qed.

Lemma wp_outOfFuel {A} (Q : A -> S -> Prop) X s : wp outOfFuel Q X s.
Proof. done. Qed.

Lemma wp_try_catch {A} (m h : M S A) Q X s :
  wp m Q (fun s' => wp h Q X s') s -> wp (try_catch m h) Q X s.
Proof. unfold wp, try_catch. destruct (m s) as [s' []]; done. Qed.

Lemma wp_mono {A} (m : M S A) (Q Q' : A -> S -> Prop) (X X' : S -> Prop) s :
  wp m Q X s ->
  (forall a s', Q a s' -> Q' a s') ->
  (forall s', X s' -> X' s') ->
  wp m Q' X' s.
Proof. unfold wp. destruct (m s) as [s' []]; auto. Qed.
End wp_rules.

(** Total correctness: [m] returns normally and its result satisfies [Q]. *)
Definition twp {S A} (m : M S A) (Q : A -> S -> Prop) (s : S) : Prop :=
  exists s' a, m s = (s', Ret a) /\ Q a s'.

Section twp_rules.
Context {S : Type}.
Implicit Types (s : S).

Lemma twp_ret {A} (a : A) Q s : Q a s -> twp (mret a) Q s.
Proof. by eexists _, _. Qed.

Lemma twp_bind {A B} (m : M S A) (f : A -> M S B) Q s :
  twp m (fun a => twp (f a) Q) s -> twp (mbind f m) Q s.
Proof.
  intros (s1 & a & Hm & s2 & b & Hf & HQ). exists s2, b. split; [|done].
  by rewrite (run_bind m f s s1 a).
Qed.

Lemma twp_gets {A} (f : S -> A) Q s : Q (f s) s -> twp (gets f) Q s.
Proof. by eexists _, _. Qed.

Lemma twp_modify (f : S -> S) Q s : Q tt (f s) -> twp (modify f) Q s.
Proof. by eexists _, _. Qed.

Lemma twp_mono {A} (m : M S A) (Q Q' : A -> S -> Prop) s :
  twp m Q s -> (forall a s', Q a s' -> Q' a s') -> twp m Q' s.
Proof. intros (s' & a & ? & ?) ?. exists s', a. auto. Qed.
End twp_rules.

Create HintDb vt7.
#[export] Hint Resolve wp_ret wp_gets wp_modify wp_throw wp_outOfFuel : vt7.

(** Steps through a monadic body: the rule for the head of the program. *)
Ltac wp_step :=
  match goal with
  | |- wp (mret _) _ _ _ => apply wp_ret
  | |- wp (gets _) _ _ _ => apply wp_gets
  | |- wp (modify _) _ _ _ => apply wp_modify
  | |- wp throw _ _ _ => apply wp_throw
  | |- wp outOfFuel _ _ _ => apply wp_outOfFuel
  | |- wp (mbind _ _) _ _ _ => apply wp_bind
  | |- wp (try_catch _ _) _ _ _ => apply wp_try_catch
  | |- wp (if ?b then _ else _) _ _ _ => destruct b eqn:?
  end; cbv beta.
Ltac wp_steps := repeat wp_step.

Ltac twp_step :=
  match goal with
  | |- twp (mret _) _ _ => apply twp_ret
  | |- twp (gets _) _ _ => apply twp_gets
  | |- twp (modify _) _ _ => apply twp_modify
  | |- twp (mbind _ _) _ _ => apply twp_bind
  end; cbv beta.
Ltac twp_steps := repeat twp_step.

(** ** Memory

    An array or buffer is the list of its elements, a pointer into it an index; reading or
    writing outside of it is [None]. *)
Definition load {A} (l : list A) (i : Z) : option A := if i <? 0 then None else l !! Z.to_nat i.
Definition store {A} (l : list A) (i : Z) (vs : list A) : option (list A) :=
  if (0 <=? i) && (i + Z.of_nat (length vs) <=? Z.of_nat (length l))
  then Some (take (Z.to_nat i) l ++ vs ++ drop (Z.to_nat i + length vs) l) else None.

Definition loads {A} (l : list A) (i n : Z) : option (list A) :=
  if (0 <=? i) && (0 <=? n) && (i + n <=? Z.of_nat (length l)) then Some (take (Z.to_nat n) (drop (Z.to_nat i) l)) else None.

Lemma load_lookup {A} (l : list A) i : 0 <= i -> load l i = l !! Z.to_nat i.
Proof. intros Hi. unfold load. by rewrite (proj2 (Z.ltb_ge _ _)). Qed.

Lemma load_bound {A} (l : list A) i : 0 <= i < Z.of_nat (length l) -> is_Some (load l i).
Proof. intros Hi. rewrite load_lookup by lia. apply lookup_lt_is_Some. lia. Qed.

Lemma load_app_l {A} (l l' : list A) i : i < Z.of_nat (length l) -> load (l ++ l') i = load l i.
Proof. intros Hi. unfold load. destruct (Z.ltb_spec i 0); [done|]. apply lookup_app_l. lia. Qed.

Lemma load_app_r {A} (l l' : list A) i : Z.of_nat (length l) <= i -> load (l ++ l') i = load l' (i - Z.of_nat (length l)).
Proof.
  intros Hi. rewrite !load_lookup by lia. rewrite lookup_app_r by lia. f_equal. lia.
Qed.

Lemma store_app {A} (a b c vs : list A) i : i = Z.of_nat (length a) -> length b = length vs -> store (a ++ b ++ c) i vs = Some (a ++ vs ++ c).
Proof.
  intros -> Hb. unfold store. rewrite !length_app, Hb. rewrite (proj2 (Z.leb_le _ _)), (proj2 (Z.leb_le _ _)) by lia. cbn.
  rewrite Nat2Z.id, take_app_length, drop_app_ge by lia. rewrite drop_app_ge by lia. do 3 f_equal.
  replace (length a + length vs - length a - length b)%nat with 0%nat by lia. apply drop_0.
Qed.

Lemma loads_app {A} (a b c : list A) i n : i = Z.of_nat (length a) -> n = Z.of_nat (length b) -> loads (a ++ b ++ c) i n = Some b.
Proof.
  intros -> ->. unfold loads. rewrite !length_app. rewrite !(proj2 (Z.leb_le _ _)) by lia. cbn.
  by rewrite !Nat2Z.id, drop_app_length, take_app_length.
Qed.

Lemma loads_end {A} (a b : list A) i n : i = Z.of_nat (length a) -> n = Z.of_nat (length b) -> loads (a ++ b) i n = Some b.
Proof. intros Hi Hn. rewrite <- (app_nil_r b) at 1. by apply loads_app. Qed.

Lemma store_end {A} (a b vs : list A) i : i = Z.of_nat (length a) -> length b = length vs -> store (a ++ b) i vs = Some (a ++ vs).
Proof. intros Hi Hb. pose proof (store_app a b [] vs i Hi Hb) as H. by rewrite !app_nil_r in H. Qed.

Lemma length_store {A} (l l' vs : list A) i : store l i vs = Some l' -> length l' = length l.
Proof.
  unfold store. destruct (Z.leb_spec 0 i), (Z.leb_spec (i + Z.of_nat (length vs)) (Z.of_nat (length l))); cbn; try done.
  intros [= <-]. rewrite !length_app, length_take, length_drop. lia.
Qed.

(** ** Booleans as the source writes them *)

(** Turns boolean comparisons of hypotheses and goal into arithmetic and
    finishes with [lia]. *)
Ltac blia := unfold is_wchar, is_byte in *; lia.

(** ** Lists *)
Lemma last_snoc_default {A} (l : list A) x d : List.last (l ++ [x]) d = x.
Proof. apply List.last_last. Qed.

Lemma length_removelast {A} (l : list A) :
  l <> [] -> length (removelast l) = (length l - 1)%nat.
Proof.
  intros Hl. destruct (exists_last Hl) as (l' & x & ->).
  rewrite removelast_last, length_app. simpl. lia.
Qed.

(** [v.back() = x] on a vector. *)
Definition set_back {A} (x : A) (l : list A) : list A := removelast l ++ [x].

Lemma length_set_back {A} (x : A) l : l <> [] -> length (set_back x l) = length l.
Proof.
  intros Hl. unfold set_back. rewrite length_app, length_removelast by done.
  destruct l; [done|]. simpl. lia.
Qed.

Lemma set_back_snoc {A} (x y : A) l : set_back x (l ++ [y]) = l ++ [x].
Proof. unfold set_back. by rewrite removelast_last. Qed.

Lemma Forall_set_back {A} (P : A -> Prop) x l :
  Forall P l -> P x -> Forall P (set_back x l).
Proof.
  intros Hl Hx. unfold set_back. apply Forall_app. split; [|by constructor].
  destruct (decide (l = [])) as [->|Hne]; [constructor|].
  destruct (exists_last Hne) as (l' & y & ->).
  rewrite removelast_last. by apply Forall_app in Hl as [??].
Qed.

Lemma Forall_snoc_last {A} (P : A -> Prop) l l' x : Forall P l -> l = l' ++ [x] -> P x.
Proof. intros Hl ->. apply Forall_app in Hl as [_ Hl]. by inversion Hl. Qed.

Lemma forallb_Forall {A} (f : A -> bool) l : forallb f l = true <-> Forall (fun x => f x = true) l.
Proof. by rewrite forallb_forall, List.Forall_forall. Qed.
