(* ===== verification/DispatchTypes.v ===== *)
(** * Types shared by the parser and the dispatchers

    Models [src/terminal/adapter/DispatchTypes.hpp]: the packed sequence
    identifiers [VTID] with their builder, numeric parameters with an "omitted"
    value, and the views of parameters and sub parameters that the parser hands
    to an engine. *)
From S2P Require Import Prelude.

(** ** Sequence identifiers: [union VTID] *)
Module VTID.

(** The [uint64_t] constructor keeps 56 bits. *)
Definition of_uint64 (value : Z) : Z := Z.land value 0x00FFFFFFFFFFFFFF.

(** [_FromString]: the characters are packed from the last to the first. *)
Definition _FromString (s : wstring) : Z :=
  fold_left (fun value c => u64 (u64 (Z.shiftl value 8) + c)) (rev s) 0.

Definition SubSequence (value offset : Z) : Z := of_uint64 (Z.shiftr value (8 * offset)).

(** [operator[]]. *)
Definition at_ (value offset : Z) : Z := Z.land (SubSequence value offset) 0xFF.

End VTID.

(** The [VTID("...")] literals of the source. *)
Definition vtid (s : string) : Z := VTID._FromString (L s).
Arguments vtid s%_string.

(** ** [class VTIDBuilder] *)
Record VTIDBuilder := { _idAccumulator : Z; _idShift : Z }.

Module VTIDBuilder.

Definition Clear : VTIDBuilder := {| _idAccumulator := 0; _idShift := 0 |}.

Definition AddIntermediate (intermediateChar : wchar_t) (b : VTIDBuilder) : VTIDBuilder :=
  if _idShift b + 8 * 2 >=? 64
  then {| _idAccumulator := 0; _idShift := _idShift b |}
  else {| _idAccumulator :=
            u64 (_idAccumulator b + u64 (Z.shiftl intermediateChar (_idShift b)));
          _idShift := _idShift b + 8 |}.

Definition Finalize (finalChar : wchar_t) (b : VTIDBuilder) : Z :=
  VTID.of_uint64 (u64 (_idAccumulator b + u64 (Z.shiftl finalChar (_idShift b)))).

(** The builder after a run of [AddIntermediate] calls on a cleared builder. *)
Definition collect (intermediates : wstring) : VTIDBuilder :=
  fold_left (fun b c => AddIntermediate c b) intermediates Clear.

End VTIDBuilder.

(** ** Identifiers are little-endian strings

    An identifier of at most seven nonzero bytes is the little-endian number of
    its characters, so it determines them. *)
Fixpoint littleEndian (s : wstring) : Z :=
  match s with
  | [] => 0
  | c :: s => c + 256 * littleEndian s
  end.

Definition is_idChar (c : wchar_t) : Prop := 0 < c < 256.

#[global] Instance is_idChar_dec c : Decision (is_idChar c).
Proof. unfold is_idChar. apply _. Defined.

Lemma littleEndian_bound s :
  Forall is_idChar s -> 0 <= littleEndian s < 256 ^ Z.of_nat (length s).
Proof.
  induction 1 as [|c s Hc Hs IH]; cbn [littleEndian length]; [done|].
  rewrite Nat2Z.inj_succ, Z.pow_succ_r by lia. unfold is_idChar in Hc. lia.
Qed.

Lemma littleEndian_inj s t :
  Forall is_idChar s -> Forall is_idChar t -> littleEndian s = littleEndian t -> s = t.
Proof.
  unfold is_idChar. intros Hs. revert t.
  induction Hs as [|c s Hc Hs IH]; intros t Ht Heq; destruct Ht as [|d t Hd Ht]; cbn [littleEndian] in Heq.
  - done.
  - pose proof (littleEndian_bound t Ht). lia.
  - pose proof (littleEndian_bound s Hs). lia.
  - assert (c = d) as -> by lia. f_equal. apply IH; [done|lia].
Qed.

Lemma littleEndian_app s t :
  littleEndian (s ++ t) = littleEndian s + 256 ^ Z.of_nat (length s) * littleEndian t.
Proof.
  induction s as [|c s IH]; cbn [app littleEndian length]; [lia|].
  rewrite IH, Nat2Z.inj_succ, Z.pow_succ_r by lia. lia.
Qed.

Lemma pow256 n : 0 <= n -> 256 ^ n = 2 ^ (8 * n).
Proof. intros Hn. change 256 with (2 ^ 8). by rewrite <- Z.pow_mul_r by lia. Qed.

Lemma littleEndian_small s n :
  Forall is_idChar s -> Z.of_nat (length s) <= n -> littleEndian s < 2 ^ (8 * n).
Proof.
  intros Hs Hn. pose proof (littleEndian_bound s Hs) as Hb. rewrite pow256 in Hb by lia.
  eapply Z.lt_le_trans; [apply Hb|]. apply Z.pow_le_mono_r; lia.
Qed.

Lemma FromString_littleEndian s :
  Forall is_idChar s -> (length s <= 7)%nat -> VTID._FromString s = littleEndian s.
Proof.
  unfold VTID._FromString. induction s as [|c s IH]; intros Hs Hlen; [done|].
  apply Forall_cons in Hs as [Hc Hs]. cbn [rev length] in *. rewrite fold_left_app.
  cbn [fold_left littleEndian]. rewrite IH by (try done; lia). unfold is_idChar in Hc.
  pose proof (littleEndian_bound s Hs). pose proof (littleEndian_small s 6 Hs ltac:(lia)) as Hsm.
  change (2 ^ (8 * 6)) with 281474976710656 in Hsm.
  rewrite Z.shiftl_mul_pow2 by lia. change (2 ^ 8) with 256.
  rewrite (wrap_small 64 (_ * 256)) by (change (2 ^ 64) with 18446744073709551616; lia).
  rewrite wrap_small by (change (2 ^ 64) with 18446744073709551616; lia). lia.
Qed.

(** Collecting up to six intermediates. *)
Lemma collect_littleEndian s :
  Forall is_idChar s -> (length s <= 6)%nat ->
  VTIDBuilder.collect s
  = {| _idAccumulator := littleEndian s; _idShift := 8 * Z.of_nat (length s) |}.
Proof.
  unfold VTIDBuilder.collect. induction s as [|c s IH] using rev_ind; intros Hs Hlen; [done|].
  apply Forall_app in Hs as [Hs Hc]. apply Forall_cons in Hc as [Hc _]. unfold is_idChar in Hc.
  rewrite length_app in Hlen. cbn in Hlen. rewrite fold_left_app. cbn [fold_left].
  rewrite IH by (try done; lia). unfold VTIDBuilder.AddIntermediate. cbn [_idShift _idAccumulator].
  destruct (_ >=? 64) eqn:Hge; [lia|]. rewrite length_app, littleEndian_app. cbn [length littleEndian].
  pose proof (littleEndian_bound s Hs) as Hb. rewrite pow256 in * by lia.
  rewrite Z.shiftl_mul_pow2 by lia.
  assert (2 ^ (8 * Z.of_nat (length s)) <= 2 ^ 40) by (apply Z.pow_le_mono_r; lia).
  change (2 ^ 40) with 1099511627776 in *.
  f_equal; [|lia]. rewrite (wrap_small 64 (c * _)) by (change (2 ^ 64) with 18446744073709551616; nia).
  rewrite wrap_small by (change (2 ^ 64) with 18446744073709551616; nia). lia.
Qed.

Lemma Finalize_littleEndian s final :
  Forall is_idChar (s ++ [final]) -> (length s <= 6)%nat ->
  VTIDBuilder.Finalize final (VTIDBuilder.collect s) = littleEndian (s ++ [final]).
Proof.
  intros Hall Hlen. pose proof Hall as [Hs Hf]%Forall_app. apply Forall_cons in Hf as [Hf _].
  rewrite collect_littleEndian by done. unfold VTIDBuilder.Finalize, VTID.of_uint64.
  cbn [_idShift _idAccumulator]. rewrite Z.shiftl_mul_pow2 by lia.
  pose proof (littleEndian_bound _ Hall) as Hb.
  assert (littleEndian (s ++ [final]) < 2 ^ (8 * 7)) as Hsm.
  { apply littleEndian_small; [done|]. rewrite length_app. cbn. lia. }
  rewrite littleEndian_app in *. cbn [littleEndian] in *. rewrite pow256 in * by lia.
  rewrite Z.add_0_r in *. rewrite (Z.mul_comm final).
  pose proof (littleEndian_bound s Hs). unfold is_idChar in Hf.
  assert (0 < 2 ^ (8 * Z.of_nat (length s))) by (apply Z.pow_pos_nonneg; lia).
  change (2 ^ (8 * 7)) with 72057594037927936 in Hsm.
  rewrite (wrap_small 64 (_ * final)) by (change (2 ^ 64) with 18446744073709551616; nia).
  rewrite wrap_small by (change (2 ^ 64) with 18446744073709551616; nia).
  change 0xFFFFFFFFFFFFFF with (Z.ones 56). rewrite Z.land_ones by lia.
  apply Z.mod_small. change (2 ^ 56) with 72057594037927936. nia.
Qed.

(** More than six intermediates leave nothing but the final character. *)
Lemma collect_snoc s c :
  VTIDBuilder.collect (s ++ [c]) = VTIDBuilder.AddIntermediate c (VTIDBuilder.collect s).
Proof. unfold VTIDBuilder.collect. by rewrite fold_left_app. Qed.

Lemma collect_shift s : _idShift (VTIDBuilder.collect s) = 8 * Z.of_nat (Nat.min 6 (length s)).
Proof.
  induction s as [|c s IH] using rev_ind; [done|].
  rewrite collect_snoc, length_app. cbn [length]. unfold VTIDBuilder.AddIntermediate.
  rewrite IH. destruct (Nat.le_gt_cases 6 (length s)).
  - rewrite !Nat.min_l by lia. done.
  - rewrite !Nat.min_r by lia. destruct (_ >=? 64) eqn:Hge; cbn [_idShift]; lia.
Qed.

Lemma collect_overlong s :
  (6 < length s)%nat -> VTIDBuilder.collect s = {| _idAccumulator := 0; _idShift := 48 |}.
Proof.
  destruct s as [|c s _] using rev_ind; [cbn; lia|]. rewrite length_app. cbn [length]. intros Hlen.
  pose proof (collect_shift s) as Hs. rewrite Nat.min_l in Hs by lia.
  rewrite collect_snoc. unfold VTIDBuilder.AddIntermediate. rewrite Hs.
  done.
Qed.

(** ** [class VTParameter]: an [int32_t] in which a negative value means omitted *)
Definition VTParameter : Type := Z.

Module VTParameter.

(** The default constructor. *)
Definition omitted : VTParameter := -1.

Definition has_value (p : VTParameter) : bool := p >=? 0.
Definition value (p : VTParameter) : Z := p.
Definition value_or (p : VTParameter) (defaultValue : Z) : Z :=
  if p <? 0 then defaultValue else p.

(** [operator T()] for an enumeration [T]. *)
Definition to_enum (p : VTParameter) : Z := value_or p 0.

(** [operator VTInt()]: both 0 and omitted values default to 1. *)
Definition to_VTInt (p : VTParameter) : Z := if p <=? 0 then 1 else p.

End VTParameter.

(** ** [class VTSubParameters] and [class VTParameters] *)
Definition VTSubParameters : Type := list VTParameter.

Module VTSubParameters.

Definition at_ (sp : VTSubParameters) (index : nat) : VTParameter :=
  default VTParameter.omitted (sp !! index).

(** [std::span::subspan(offset, count)]. *)
Definition subspan (sp : VTSubParameters) (offset count : nat) : VTSubParameters :=
  take count (drop offset sp).

Definition empty (sp : VTSubParameters) : bool := bool_decide (sp = []).

Definition size (sp : VTSubParameters) : nat := length sp.

End VTSubParameters.

Record VTParameters := mkVTParameters {
  _params : list VTParameter;
  _subParams : VTSubParameters;
  _subParamRanges : list (Z * Z) }.

Module VTParameters.

(** The constructor from a pointer and a count: no sub parameters. *)
Definition of_params (params : list VTParameter) : VTParameters :=
  mkVTParameters params [] [].

Definition at_ (p : VTParameters) (index : nat) : VTParameter :=
  default VTParameter.omitted (_params p !! index).

Definition empty (p : VTParameters) : bool := bool_decide (_params p = []).

(** At least 1: an empty list is a single "default" parameter. *)
Definition size (p : VTParameters) : nat := Nat.max (length (_params p)) 1.

Definition subspan (p : VTParameters) (offset : nat) : VTParameters :=
  mkVTParameters (drop (Nat.min offset (length (_params p))) (_params p))
                 (_subParams p)
                 (drop (Nat.min offset (length (_subParamRanges p))) (_subParamRanges p)).

Definition subParamsFor (p : VTParameters) (index : nat) : VTSubParameters :=
  match _subParamRanges p !! index with
  | Some (first, second) =>
      VTSubParameters.subspan (_subParams p) (Z.to_nat first) (Z.to_nat (second - first))
  | None => []
  end.

Definition hasSubParams (p : VTParameters) : bool := negb (VTSubParameters.empty (_subParams p)).

Definition hasSubParamsFor (p : VTParameters) (index : nat) : bool :=
  match _subParamRanges p !! index with
  | Some (first, second) => second >? first
  | None => false
  end.

(** The values [for_each] visits, in order. *)
Definition for_each (p : VTParameters) : list VTParameter :=
  match _params p with
  | [] => [VTParameter.omitted]
  | ps => ps
  end.

End VTParameters.

(** [FlaggedEnumValue<Flag>]: the value with the flag embedded; it is built from
    a parameter through [operator VTInt()]. *)
Definition FlaggedEnumValue (Flag : Z) (p : VTParameter) : Z :=
  Z.lor (VTParameter.to_VTInt p) Flag.
Definition ANSIStandardMode := FlaggedEnumValue 0x00000000.
Definition DECPrivateMode := FlaggedEnumValue 0x01000000.
Definition ANSIStandardStatus := FlaggedEnumValue 0x00000000.
Definition DECPrivateStatus := FlaggedEnumValue 0x01000000.
