(* ===== verification/VtUtils.v ===== *)
(** * String and character helpers

    Models the pure helpers of [src/types/utils.cpp] the parser, the dispatchers
    and the paste path are built on. *)
From S2P Require Import Prelude.

(** ** [FindActionableControlCharacter] *)
Module FindActionable.

(** [(wch <= 0x1f) | (static_cast<wchar_t>(wch - 0x7f) <= 0x20)] *)
Definition isActionableFromGround (wch : wchar_t) : bool :=
  (wch <=? 0x1f) || (u16 (wch - 0x7f) <=? 0x20).

(** The scalar loop over what is left. *)
Fixpoint plainSearch (s : wstring) : nat :=
  match s with
  | [] => 0%nat
  | c :: rest => if isActionableFromGround c then 0%nat else S (plainSearch rest)
  end.

(** One 16-bit lane of the SSE2 intrinsics the vectorized loop uses. *)
Definition subs_epu16 (a b : Z) : Z := Z.max 0 (a - b).
Definition add_epi16 (a b : Z) : Z := u16 (a + b).
Definition cmpeq_epi16 (a b : Z) : Z := if a =? b then 0xffff else 0.

Definition sse_lane (wch : wchar_t) : Z :=
  let a := subs_epu16 wch 0x1f in
  let b := subs_epu16 (add_epi16 wch 0xff81) 0x20 in
  Z.lor (cmpeq_epi16 a 0) (cmpeq_epi16 b 0).

(** [_mm_movemask_epi8]: one bit per byte, the byte's most significant bit. *)
Fixpoint movemask_epi8 (lanes : list Z) : Z :=
  match lanes with
  | [] => 0
  | lane :: rest =>
      Z.b2z (Z.testbit lane 7) + 2 * Z.b2z (Z.testbit lane 15) + 4 * movemask_epi8 rest
  end.

(** [_BitScanForward]: the position of the lowest set bit, [None] for 0. *)
Fixpoint BitScanForward_from (fuel : nat) (pos mask : Z) : option Z :=
  match fuel with
  | O => None
  | S fuel => if Z.testbit mask pos then Some pos else BitScanForward_from fuel (pos + 1) mask
  end.
Definition BitScanForward (mask : Z) : option Z := BitScanForward_from 32 0 mask.

(** The vectorized loop over blocks of 8 units, then the scalar loop. *)
Fixpoint sseSearch (blocks : nat) (s : wstring) : nat :=
  match blocks with
  | O => plainSearch s
  | S blocks =>
      let mask := movemask_epi8 (map sse_lane (take 8 s)) in
      if mask =? 0 then (8 + sseSearch blocks (drop 8 s))%nat
      else match BitScanForward mask with
           | Some offset => Z.to_nat (offset / 2)
           | None => 0%nat
           end
  end.

(** [it - beg]: how many units precede the first actionable one. *)
Definition FindActionableControlCharacter (s : wstring) : nat :=
  sseSearch (Nat.div (length s) 8) s.

Lemma isActionable_spec c :
  is_wchar c ->
  isActionableFromGround c = ((c <=? 0x1f) || ((0x7f <=? c) && (c <=? 0x9f))).
Proof.
  unfold is_wchar, isActionableFromGround, wrap. intros Hc.
  destruct (Z.le_gt_cases 0x7f c).
  - rewrite Z.mod_small by lia. lia.
  - replace ((c - 127) mod 2 ^ 16) with (c - 127 + 65536); [lia|].
    apply Z.mod_unique with (-1); lia.
Qed.

Lemma sse_lane_spec c :
  is_wchar c -> sse_lane c = if isActionableFromGround c then 0xffff else 0.
Proof.
  intros Hc. rewrite isActionable_spec by done. unfold is_wchar in Hc.
  unfold sse_lane, subs_epu16, add_epi16, wrap, cmpeq_epi16.
  assert ((c + 65409) mod 2 ^ 16 = if c <? 127 then c + 65409 else c - 127) as ->.
  { destruct (Z.ltb_spec c 127); [apply Z.mod_small; lia|].
    symmetry. apply Z.mod_unique with 1; lia. }
  destruct (Z.leb_spec c 0x1f), (Z.leb_spec 0x7f c), (Z.leb_spec c 0x9f),
    (Z.ltb_spec c 127), (Z.eqb_spec (Z.max 0 (c - 0x1f)) 0); simpl; try lia;
    repeat case_match; simpl; try done; lia.
Qed.

Lemma plainSearch_le s : (plainSearch s <= length s)%nat.
Proof. induction s; simpl; [lia|]. case_match; lia. Qed.

Lemma plainSearch_take s :
  Forall (fun c => isActionableFromGround c = false) (take (plainSearch s) s).
Proof.
  induction s as [|c s IH]; simpl; [constructor|].
  destruct (isActionableFromGround c) eqn:E; constructor; done.
Qed.

Lemma plainSearch_hit s c rest :
  drop (plainSearch s) s = c :: rest -> isActionableFromGround c = true.
Proof.
  induction s as [|d s IH]; simpl; [done|].
  destruct (isActionableFromGround d) eqn:E; simpl; [by intros [= -> ->]|done].
Qed.

(** What the mask of a block says: two bits per lane, both set or both clear. *)
Lemma movemask_cons (b : bool) lanes :
  movemask_epi8 ((if b then 0xffff else 0) :: lanes) = (if b then 3 else 0) + 4 * movemask_epi8 lanes.
Proof. by destruct b. Qed.

Lemma movemask_nonneg lanes : 0 <= movemask_epi8 lanes.
Proof.
  induction lanes as [|l ls IH]; cbn [movemask_epi8]; [lia|].
  destruct (Z.testbit l 7), (Z.testbit l 15); cbn [Z.b2z]; lia.
Qed.

Lemma testbit_4_low r pos : 0 <= pos < 2 -> Z.testbit (4 * r) pos = false.
Proof.
  intros H. replace (4 * r) with (r * 2 ^ 2) by lia. apply Z.mul_pow2_bits_low; lia.
Qed.

Lemma testbit_4_high r pos : 0 <= pos -> Z.testbit (4 * r) (pos + 2) = Z.testbit r pos.
Proof.
  intros H. replace (4 * r) with (r * 2 ^ 2) by lia.
  rewrite Z.mul_pow2_bits by lia. f_equal. lia.
Qed.

Lemma BitScanForward_shift fuel pos r :
  0 <= pos ->
  BitScanForward_from fuel (pos + 2) (4 * r)
  = (fun p => p + 2) <$> BitScanForward_from fuel pos r.
Proof.
  revert pos. induction fuel as [|fuel IH]; intros pos Hpos; simpl; [done|].
  rewrite testbit_4_high by lia. case_match; [done|].
  replace (pos + 2 + 1) with ((pos + 1) + 2) by lia. apply IH. lia.
Qed.

(** The block step agrees with the scalar loop on that block. *)
Lemma block_spec cs n :
  Forall is_wchar cs -> (2 * length cs <= n)%nat ->
  let mask := movemask_epi8 (map sse_lane cs) in
  (mask = 0 -> plainSearch cs = length cs) /\
  (mask <> 0 -> exists offset, BitScanForward_from n 0 mask = Some offset /\ 0 <= offset /\
                plainSearch cs = Z.to_nat (offset / 2) /\ (plainSearch cs < length cs)%nat).
Proof.
  intros Hcs. revert n. induction Hcs as [|c cs Hc Hcs IH]; intros n Hn; cbn [map plainSearch length].
  { split; [done|intros []; done]. }
  rewrite sse_lane_spec by done. cbv zeta. rewrite movemask_cons.
  pose proof (movemask_nonneg (map sse_lane cs)) as Hnn.
  destruct (isActionableFromGround c); cbn [length].
  - split; [lia|]. intros _. destruct n as [|n]; [simpl in Hn; lia|]. exists 0. cbn [BitScanForward_from].
    set (m := movemask_epi8 (map sse_lane cs)) in *.
    replace (3 + 4 * m) with (2 * (1 + 2 * m) + 1) by lia.
    rewrite Z.testbit_odd_0. repeat split; try done; simpl; lia.
  - rewrite Z.add_0_l. simpl in Hn.
    destruct n as [|[|n]]; [lia|lia|].
    specialize (IH n ltac:(lia)) as [IH0 IH1]. split.
    + intros Hz. rewrite IH0; lia.
    + intros Hz. destruct IH1 as (off & Hoff & Hpos & Hps & Hlt); [lia|].
      exists (off + 2). cbn [BitScanForward_from].
      rewrite !testbit_4_low by lia.
      change (0 + 1 + 1) with (0 + 2). rewrite (BitScanForward_shift n 0) by lia. rewrite Hoff. simpl.
      split; [done|]. split; [lia|]. split; [|lia].
      rewrite Hps. pose proof (Z.div_pos off 2 Hpos ltac:(lia)).
      replace ((off + 2) / 2) with (off / 2 + 1); [lia|].
      replace (off + 2) with (off + 1 * 2) by lia. rewrite Z.div_add; lia.
Qed.

Lemma plainSearch_app_none a b :
  plainSearch a = length a -> plainSearch (a ++ b) = (length a + plainSearch b)%nat.
Proof.
  induction a as [|c a IH]; simpl; [done|]. case_match; [done|].
  intros [= Ha]. by rewrite IH.
Qed.

Lemma plainSearch_app_hit a b :
  (plainSearch a < length a)%nat -> plainSearch (a ++ b) = plainSearch a.
Proof.
  induction a as [|c a IH]; simpl; [lia|]. case_match; [done|]. intros. rewrite IH; lia.
Qed.

Lemma sseSearch_spec blocks s :
  Forall is_wchar s -> (8 * blocks <= length s)%nat -> sseSearch blocks s = plainSearch s.
Proof.
  revert s. induction blocks as [|blocks IH]; intros s Hs Hlen; [done|].
  cbn [sseSearch].
  assert (Hb : length (take 8 s) = 8%nat) by (rewrite length_take; lia).
  destruct (block_spec (take 8 s) 32) as [H0 H1]; [by apply Forall_take|lia|].
  transitivity (plainSearch (take 8 s ++ drop 8 s)); [|by rewrite take_drop].
  destruct (Z.eqb_spec (movemask_epi8 (map sse_lane (take 8 s))) 0) as [E|E].
  - rewrite plainSearch_app_none by auto. rewrite Hb. f_equal.
    apply IH; [by apply Forall_drop|]. rewrite length_drop. lia.
  - destruct (H1 E) as (off & Hoff & _ & Hps & Hlt).
    unfold BitScanForward. rewrite Hoff, plainSearch_app_hit by done. done.
Qed.

(** The vectorized search returns exactly what the scalar loop returns. *)
(** The result is an index of the string or its length, for any lanes. *)
Lemma movemask_lt lanes : movemask_epi8 lanes < 4 ^ Z.of_nat (length lanes).
Proof.
  induction lanes as [|l lanes IH]; cbn [movemask_epi8 length]; [done|].
  rewrite Nat2Z.inj_succ, Z.pow_succ_r by lia.
  destruct (Z.testbit l 7), (Z.testbit l 15); cbn [Z.b2z]; lia.
Qed.

Lemma BitScanForward_testbit fuel pos mask i :
  BitScanForward_from fuel pos mask = Some i -> Z.testbit mask i = true.
Proof.
  revert pos. induction fuel as [|fuel IH]; intros pos; cbn; [done|].
  destruct (Z.testbit mask pos) eqn:Hb; [by intros [= <-]|apply IH].
Qed.

Lemma testbit_bound mask i n : 0 <= mask < 2 ^ n -> 0 <= n -> Z.testbit mask i = true -> i < n.
Proof.
  intros Hm Hn Hb. destruct (Z.lt_ge_cases i n) as [|Hge]; [done|].
  rewrite Z.bits_above_log2 in Hb; [done|lia|].
  destruct (Z.eq_dec mask 0) as [->|Hz]; [by rewrite Z.bits_0 in Hb|].
  assert (Z.log2 mask < n) by (apply Z.log2_lt_pow2; lia). lia.
Qed.

Lemma sseSearch_le blocks s : (8 * blocks <= length s)%nat -> (sseSearch blocks s <= length s)%nat.
Proof.
  revert s. induction blocks as [|blocks IH]; intros s Hs; cbn [sseSearch]; [apply plainSearch_le|].
  pose proof (movemask_lt (map sse_lane (take 8 s))) as Hlt.
  pose proof (movemask_nonneg (map sse_lane (take 8 s))) as Hnn.
  set (mask := movemask_epi8 _) in *. destruct (mask =? 0).
  - assert (sseSearch blocks (drop 8 s) <= length (drop 8 s))%nat as Hr.
    { apply IH. rewrite length_drop. lia. }
    rewrite length_drop in Hr. lia.
  - destruct (BitScanForward mask) as [i|] eqn:Hscan; [|lia].
    apply BitScanForward_testbit in Hscan.
    rewrite length_map, length_take, Nat.min_l in Hlt by lia.
    pose proof (testbit_bound mask i 16 (conj Hnn Hlt) ltac:(lia) Hscan) as Hi.
    assert (i / 2 < 8) by (apply Z.div_lt_upper_bound; lia). lia.
Qed.

Lemma FindActionable_le s : (FindActionableControlCharacter s <= length s)%nat.
Proof. apply sseSearch_le. pose proof (Nat.Div0.div_mod (length s) 8). lia. Qed.

Lemma FindActionable_plain s :
  Forall is_wchar s -> FindActionableControlCharacter s = plainSearch s.
Proof.
  intros Hs. apply sseSearch_spec; [done|].
  pose proof (Nat.Div0.div_mod (length s) 8). lia.
Qed.

End FindActionable.
