(* ===== verification/StateMachine.v ===== *)
(** * The VT parser state machine

    Models [src/terminal/parser/stateMachine.cpp] and [stateMachine.hpp]: the
    whole of [class StateMachine], over an arbitrary engine.

    - The object is the record [StateMachine]; its member functions are
      computations of [M StateMachine]. Trace calls only feed the debugger and
      are left out.
    - [IStateMachineEngine] is a type class: an engine of type [E], whose DCS
      string handlers ([std::function<bool(wchar_t)>]) have type [H] and whose
      CSI-complete callbacks have type [CB]. While an engine action runs it may
      call back into the machine ([SetParserMode], [InjectSequence],
      [OnCsiComplete]) and read [GetParserMode] and [IsProcessingLastCharacter];
      these calls are the [Request]s and the [EngineView] of the interface.
    - [_SafeExecute] and [FlushToTerminal] call each other; the recursion is
      bounded by [fuel]. [ProcessString] can be re-entered from the CSI-complete
      callback; that recursion is bounded by a depth. *)
From S2P Require Import Prelude DispatchTypes VtUtils.

(** ** [til::enumset] over its [uintptr_t]: [src/inc/til/enumset.h] *)
Module enumset.

Definition t : Type := Z.

Definition to_underlying (pos : Z) : Z := Z.shiftl 1 pos.
Definition of_pos (pos : Z) : t := to_underlying pos.
Definition test (data : t) (pos : Z) : bool := negb (Z.land data (to_underlying pos) =? 0).
Definition set (data : t) (pos : Z) (val : bool) : t :=
  let mask := to_underlying pos in
  Z.lor (Z.ldiff data mask) (if val then mask else 0).

End enumset.

Definition MAX_PARAMETER_VALUE : Z := 65535.
Definition MAX_PARAMETER_COUNT : nat := 32.
Definition MAX_SUBPARAMETER_COUNT : Z := 6.

Inductive InjectionType := RIS | DECSET_FOCUS | W32IM.
Record Injection := mkInjection { injection_type : InjectionType; injection_offset : nat }.

Inductive Mode := AcceptC1 | Ansi.
Definition Mode_bit (m : Mode) : Z := match m with AcceptC1 => 0 | Ansi => 1 end.

Inductive VTStates :=
| Ground | Escape | EscapeIntermediate
| CsiEntry | CsiIntermediate | CsiIgnore | CsiParam | CsiSubParam
| OscParam | OscString | OscTermination
| Ss3Entry | Ss3Param | Vt52Param
| DcsEntry | DcsIgnore | DcsIntermediate | DcsParam | DcsPassThrough
| SosPmApcString.

#[global] Instance VTStates_eq_dec : EqDecision VTStates.
Proof. solve_decision. Defined.
#[global] Instance InjectionType_eq_dec : EqDecision InjectionType.
Proof. solve_decision. Defined.

(** ** Control characters: [ascii.hpp] *)
Module AsciiChars.
Definition NUL := 0x00.
Definition ENQ := 0x05.
Definition BEL := 0x07.
Definition BS := 0x08.
Definition TAB := 0x09.
Definition LF := 0x0A.
Definition VT := 0x0B.
Definition FF := 0x0C.
Definition CR := 0x0D.
Definition SO := 0x0E.
Definition SI := 0x0F.
Definition ETB := 0x17.
Definition CAN := 0x18.
Definition EM := 0x19.
Definition SUB := 0x1A.
Definition ESC := 0x1B.
Definition FS := 0x1C.
Definition US := 0x1F.
Definition SPC := 0x20.
Definition DEL := 0x7F.
End AsciiChars.

(** ** Character classes *)
Definition _isNumericParamValue (wch : wchar_t) : bool := (0x30 <=? wch) && (wch <=? 0x39).
Definition _isC0Code (wch : wchar_t) : bool :=
  ((AsciiChars.NUL <=? wch) && (wch <=? AsciiChars.ETB)) || (wch =? AsciiChars.EM)
  || ((AsciiChars.FS <=? wch) && (wch <=? AsciiChars.US)).
Definition _isC1ControlCharacter (wch : wchar_t) : bool := (0x80 <=? wch) && (wch <=? 0x9F).
Definition _c1To7Bit (wch : wchar_t) : wchar_t := u16 (wch - 0x40).
Definition _isIntermediate (wch : wchar_t) : bool := (0x20 <=? wch) && (wch <=? 0x2F).
Definition _isDelete (wch : wchar_t) : bool := wch =? AsciiChars.DEL.
Definition _isEscape (wch : wchar_t) : bool := wch =? AsciiChars.ESC.
Definition _isParameterDelimiter (wch : wchar_t) : bool := wch =? 0x3B.
Definition _isSubParameterDelimiter (wch : wchar_t) : bool := wch =? 0x3A.
Definition _isCsiIndicator (wch : wchar_t) : bool := wch =? 0x5B.
Definition _isCsiPrivateMarker (wch : wchar_t) : bool :=
  (wch =? 0x3C) || (wch =? 0x3D) || (wch =? 0x3E) || (wch =? 0x3F).
Definition _isIntermediateInvalid (wch : wchar_t) : bool :=
  _isNumericParamValue wch || _isSubParameterDelimiter wch || _isParameterDelimiter wch
  || _isCsiPrivateMarker wch.
Definition _isParameterInvalid (wch : wchar_t) : bool := _isCsiPrivateMarker wch.
Definition _isStringTerminatorIndicator (wch : wchar_t) : bool := wch =? 0x5C.
Definition _isSs3Indicator (wch : wchar_t) : bool := wch =? 0x4F.
Definition _isVt52CursorAddress (wch : wchar_t) : bool := wch =? 0x59.
Definition _isOscIndicator (wch : wchar_t) : bool := wch =? 0x5D.
Definition _isOscDelimiter (wch : wchar_t) : bool := wch =? 0x3B.
Definition _isOscInvalid (wch : wchar_t) : bool :=
  (wch <=? 0x17) || (wch =? 0x19) || ((0x1c <=? wch) && (wch <=? 0x1f)).
Definition _isOscTerminator (wch : wchar_t) : bool := wch =? AsciiChars.BEL.
Definition _isDcsIndicator (wch : wchar_t) : bool := wch =? 0x50.
Definition _isDcsPassThroughValid (wch : wchar_t) : bool :=
  (AsciiChars.SPC <=? wch) && (wch <? AsciiChars.DEL).
Definition _isSosIndicator (wch : wchar_t) : bool := wch =? 0x58.
Definition _isPmIndicator (wch : wchar_t) : bool := wch =? 0x5E.
Definition _isApcIndicator (wch : wchar_t) : bool := wch =? 0x5F.

(** ** The engine interface: [IStateMachineEngine.hpp] *)

(** What an engine can ask of the machine while one of its actions runs. *)
Inductive Request (CB : Type) : Type :=
| SetParserModeRequest (mode : Mode) (enabled : bool)
| InjectSequenceRequest (type : InjectionType)
| OnCsiCompleteRequest (callback : CB).
Arguments SetParserModeRequest {CB} mode enabled.
Arguments InjectSequenceRequest {CB} type.
Arguments OnCsiCompleteRequest {CB} callback.

(** What an engine can read of the machine while one of its actions runs. *)
Record EngineView := mkEngineView { ev_parserMode : enumset.t; ev_processingLastCharacter : bool }.

(** An engine action returns or throws. *)
Inductive EngineOutcome (A : Type) : Type := Returned (a : A) | Threw.
Arguments Returned {A} a.
Arguments Threw {A}.

Definition EngineAction (E CB A : Type) : Type :=
  EngineView -> E -> E * list (Request CB) * EngineOutcome A.

Class IStateMachineEngine (E H CB : Type) : Type := {
  UnknownSequence : E -> E;
  EncounteredWin32InputModeSequence : E -> bool;
  ActionExecute : wchar_t -> EngineAction E CB bool;
  ActionExecuteFromEscape : wchar_t -> EngineAction E CB bool;
  ActionPrint : wchar_t -> EngineAction E CB bool;
  ActionPrintString : wstring -> EngineAction E CB bool;
  ActionPassThroughString : wstring -> EngineAction E CB bool;
  ActionEscDispatch : Z -> EngineAction E CB bool;
  ActionVt52EscDispatch : Z -> VTParameters -> EngineAction E CB bool;
  ActionCsiDispatch : Z -> VTParameters -> EngineAction E CB bool;
  ActionDcsDispatch : Z -> VTParameters -> EngineAction E CB (option H);
  ActionOscDispatch : Z -> wstring -> EngineAction E CB bool;
  ActionSs3Dispatch : wchar_t -> VTParameters -> EngineAction E CB bool;
  (** A call of a [StringHandler]; what the closure captured and updates is part
      of the engine's state. *)
  StringHandler_call : H -> wchar_t -> EngineAction E CB bool;
  (** A call of a CSI-complete callback: the string it feeds back through
      [ProcessString], if any, and what it does when that call is over. *)
  Callback_call : CB -> E -> E * option wstring;
  Callback_exit : CB -> E -> E
}.

(** ** The object *)
Section StateMachine.
Context {E H CB : Type} {engine : IStateMachineEngine E H CB}.

Record StateMachine := mkStateMachine {
  _engine : E;
  _isEngineForInput : bool;
  _state : VTStates;
  _parserMode : enumset.t;
  _currentString : wstring;
  _runOffset : nat;
  _runSize : nat;
  _identifier : VTIDBuilder;
  _parameters : list VTParameter;
  _parameterLimitOverflowed : bool;
  _subParameters : list VTParameter;
  _subParameterRanges : list (Z * Z);
  _subParameterLimitOverflowed : bool;
  _subParameterCounter : Z;
  _oscString : wstring;
  _oscParameter : Z;
  _dcsStringHandler : option H;
  _cachedSequence : option wstring;
  _injections : list Injection;
  _processingLastCharacter : bool;
  _onCsiCompleteCallback : option CB }.

Definition set_engine (v : E) (s : StateMachine) : StateMachine :=
  mkStateMachine v (_isEngineForInput s) (_state s) (_parserMode s) (_currentString s)
    (_runOffset s) (_runSize s) (_identifier s) (_parameters s) (_parameterLimitOverflowed
    s) (_subParameters s) (_subParameterRanges s) (_subParameterLimitOverflowed s)
    (_subParameterCounter s) (_oscString s) (_oscParameter s) (_dcsStringHandler s)
    (_cachedSequence s) (_injections s) (_processingLastCharacter s) (_onCsiCompleteCallback
    s).
Definition set_state (v : VTStates) (s : StateMachine) : StateMachine :=
  mkStateMachine (_engine s) (_isEngineForInput s) v (_parserMode s) (_currentString s)
    (_runOffset s) (_runSize s) (_identifier s) (_parameters s) (_parameterLimitOverflowed
    s) (_subParameters s) (_subParameterRanges s) (_subParameterLimitOverflowed s)
    (_subParameterCounter s) (_oscString s) (_oscParameter s) (_dcsStringHandler s)
    (_cachedSequence s) (_injections s) (_processingLastCharacter s) (_onCsiCompleteCallback
    s).
Definition set_parserMode (v : enumset.t) (s : StateMachine) : StateMachine :=
  mkStateMachine (_engine s) (_isEngineForInput s) (_state s) v (_currentString s)
    (_runOffset s) (_runSize s) (_identifier s) (_parameters s) (_parameterLimitOverflowed
    s) (_subParameters s) (_subParameterRanges s) (_subParameterLimitOverflowed s)
    (_subParameterCounter s) (_oscString s) (_oscParameter s) (_dcsStringHandler s)
    (_cachedSequence s) (_injections s) (_processingLastCharacter s) (_onCsiCompleteCallback
    s).
Definition set_currentString (v : wstring) (s : StateMachine) : StateMachine :=
  mkStateMachine (_engine s) (_isEngineForInput s) (_state s) (_parserMode s) v (_runOffset
    s) (_runSize s) (_identifier s) (_parameters s) (_parameterLimitOverflowed s)
    (_subParameters s) (_subParameterRanges s) (_subParameterLimitOverflowed s)
    (_subParameterCounter s) (_oscString s) (_oscParameter s) (_dcsStringHandler s)
    (_cachedSequence s) (_injections s) (_processingLastCharacter s) (_onCsiCompleteCallback
    s).
Definition set_runOffset (v : nat) (s : StateMachine) : StateMachine :=
  mkStateMachine (_engine s) (_isEngineForInput s) (_state s) (_parserMode s)
    (_currentString s) v (_runSize s) (_identifier s) (_parameters s)
    (_parameterLimitOverflowed s) (_subParameters s) (_subParameterRanges s)
    (_subParameterLimitOverflowed s) (_subParameterCounter s) (_oscString s) (_oscParameter
    s) (_dcsStringHandler s) (_cachedSequence s) (_injections s) (_processingLastCharacter
    s) (_onCsiCompleteCallback s).
Definition set_runSize (v : nat) (s : StateMachine) : StateMachine :=
  mkStateMachine (_engine s) (_isEngineForInput s) (_state s) (_parserMode s)
    (_currentString s) (_runOffset s) v (_identifier s) (_parameters s)
    (_parameterLimitOverflowed s) (_subParameters s) (_subParameterRanges s)
    (_subParameterLimitOverflowed s) (_subParameterCounter s) (_oscString s) (_oscParameter
    s) (_dcsStringHandler s) (_cachedSequence s) (_injections s) (_processingLastCharacter
    s) (_onCsiCompleteCallback s).
Definition set_identifier (v : VTIDBuilder) (s : StateMachine) : StateMachine :=
  mkStateMachine (_engine s) (_isEngineForInput s) (_state s) (_parserMode s)
    (_currentString s) (_runOffset s) (_runSize s) v (_parameters s)
    (_parameterLimitOverflowed s) (_subParameters s) (_subParameterRanges s)
    (_subParameterLimitOverflowed s) (_subParameterCounter s) (_oscString s) (_oscParameter
    s) (_dcsStringHandler s) (_cachedSequence s) (_injections s) (_processingLastCharacter
    s) (_onCsiCompleteCallback s).
Definition set_parameters (v : list VTParameter) (s : StateMachine) : StateMachine :=
  mkStateMachine (_engine s) (_isEngineForInput s) (_state s) (_parserMode s)
    (_currentString s) (_runOffset s) (_runSize s) (_identifier s) v
    (_parameterLimitOverflowed s) (_subParameters s) (_subParameterRanges s)
    (_subParameterLimitOverflowed s) (_subParameterCounter s) (_oscString s) (_oscParameter
    s) (_dcsStringHandler s) (_cachedSequence s) (_injections s) (_processingLastCharacter
    s) (_onCsiCompleteCallback s).
Definition set_parameterLimitOverflowed (v : bool) (s : StateMachine) : StateMachine :=
  mkStateMachine (_engine s) (_isEngineForInput s) (_state s) (_parserMode s)
    (_currentString s) (_runOffset s) (_runSize s) (_identifier s) (_parameters s) v
    (_subParameters s) (_subParameterRanges s) (_subParameterLimitOverflowed s)
    (_subParameterCounter s) (_oscString s) (_oscParameter s) (_dcsStringHandler s)
    (_cachedSequence s) (_injections s) (_processingLastCharacter s) (_onCsiCompleteCallback
    s).
Definition set_subParameters (v : list VTParameter) (s : StateMachine) : StateMachine :=
  mkStateMachine (_engine s) (_isEngineForInput s) (_state s) (_parserMode s)
    (_currentString s) (_runOffset s) (_runSize s) (_identifier s) (_parameters s)
    (_parameterLimitOverflowed s) v (_subParameterRanges s) (_subParameterLimitOverflowed s)
    (_subParameterCounter s) (_oscString s) (_oscParameter s) (_dcsStringHandler s)
    (_cachedSequence s) (_injections s) (_processingLastCharacter s) (_onCsiCompleteCallback
    s).
Definition set_subParameterRanges (v : list (Z * Z)) (s : StateMachine) : StateMachine :=
  mkStateMachine (_engine s) (_isEngineForInput s) (_state s) (_parserMode s)
    (_currentString s) (_runOffset s) (_runSize s) (_identifier s) (_parameters s)
    (_parameterLimitOverflowed s) (_subParameters s) v (_subParameterLimitOverflowed s)
    (_subParameterCounter s) (_oscString s) (_oscParameter s) (_dcsStringHandler s)
    (_cachedSequence s) (_injections s) (_processingLastCharacter s) (_onCsiCompleteCallback
    s).
Definition set_subParameterLimitOverflowed (v : bool) (s : StateMachine) : StateMachine :=
  mkStateMachine (_engine s) (_isEngineForInput s) (_state s) (_parserMode s)
    (_currentString s) (_runOffset s) (_runSize s) (_identifier s) (_parameters s)
    (_parameterLimitOverflowed s) (_subParameters s) (_subParameterRanges s) v
    (_subParameterCounter s) (_oscString s) (_oscParameter s) (_dcsStringHandler s)
    (_cachedSequence s) (_injections s) (_processingLastCharacter s) (_onCsiCompleteCallback
    s).
Definition set_subParameterCounter (v : Z) (s : StateMachine) : StateMachine :=
  mkStateMachine (_engine s) (_isEngineForInput s) (_state s) (_parserMode s)
    (_currentString s) (_runOffset s) (_runSize s) (_identifier s) (_parameters s)
    (_parameterLimitOverflowed s) (_subParameters s) (_subParameterRanges s)
    (_subParameterLimitOverflowed s) v (_oscString s) (_oscParameter s) (_dcsStringHandler
    s) (_cachedSequence s) (_injections s) (_processingLastCharacter s)
    (_onCsiCompleteCallback s).
Definition set_oscString (v : wstring) (s : StateMachine) : StateMachine :=
  mkStateMachine (_engine s) (_isEngineForInput s) (_state s) (_parserMode s)
    (_currentString s) (_runOffset s) (_runSize s) (_identifier s) (_parameters s)
    (_parameterLimitOverflowed s) (_subParameters s) (_subParameterRanges s)
    (_subParameterLimitOverflowed s) (_subParameterCounter s) v (_oscParameter s)
    (_dcsStringHandler s) (_cachedSequence s) (_injections s) (_processingLastCharacter s)
    (_onCsiCompleteCallback s).
Definition set_oscParameter (v : Z) (s : StateMachine) : StateMachine :=
  mkStateMachine (_engine s) (_isEngineForInput s) (_state s) (_parserMode s)
    (_currentString s) (_runOffset s) (_runSize s) (_identifier s) (_parameters s)
    (_parameterLimitOverflowed s) (_subParameters s) (_subParameterRanges s)
    (_subParameterLimitOverflowed s) (_subParameterCounter s) (_oscString s) v
    (_dcsStringHandler s) (_cachedSequence s) (_injections s) (_processingLastCharacter s)
    (_onCsiCompleteCallback s).
Definition set_dcsStringHandler (v : option H) (s : StateMachine) : StateMachine :=
  mkStateMachine (_engine s) (_isEngineForInput s) (_state s) (_parserMode s)
    (_currentString s) (_runOffset s) (_runSize s) (_identifier s) (_parameters s)
    (_parameterLimitOverflowed s) (_subParameters s) (_subParameterRanges s)
    (_subParameterLimitOverflowed s) (_subParameterCounter s) (_oscString s) (_oscParameter
    s) v (_cachedSequence s) (_injections s) (_processingLastCharacter s)
    (_onCsiCompleteCallback s).
Definition set_cachedSequence (v : option wstring) (s : StateMachine) : StateMachine :=
  mkStateMachine (_engine s) (_isEngineForInput s) (_state s) (_parserMode s)
    (_currentString s) (_runOffset s) (_runSize s) (_identifier s) (_parameters s)
    (_parameterLimitOverflowed s) (_subParameters s) (_subParameterRanges s)
    (_subParameterLimitOverflowed s) (_subParameterCounter s) (_oscString s) (_oscParameter
    s) (_dcsStringHandler s) v (_injections s) (_processingLastCharacter s)
    (_onCsiCompleteCallback s).
Definition set_injections (v : list Injection) (s : StateMachine) : StateMachine :=
  mkStateMachine (_engine s) (_isEngineForInput s) (_state s) (_parserMode s)
    (_currentString s) (_runOffset s) (_runSize s) (_identifier s) (_parameters s)
    (_parameterLimitOverflowed s) (_subParameters s) (_subParameterRanges s)
    (_subParameterLimitOverflowed s) (_subParameterCounter s) (_oscString s) (_oscParameter
    s) (_dcsStringHandler s) (_cachedSequence s) v (_processingLastCharacter s)
    (_onCsiCompleteCallback s).
Definition set_processingLastCharacter (v : bool) (s : StateMachine) : StateMachine :=
  mkStateMachine (_engine s) (_isEngineForInput s) (_state s) (_parserMode s)
    (_currentString s) (_runOffset s) (_runSize s) (_identifier s) (_parameters s)
    (_parameterLimitOverflowed s) (_subParameters s) (_subParameterRanges s)
    (_subParameterLimitOverflowed s) (_subParameterCounter s) (_oscString s) (_oscParameter
    s) (_dcsStringHandler s) (_cachedSequence s) (_injections s) v (_onCsiCompleteCallback
    s).
Definition set_onCsiCompleteCallback (v : option CB) (s : StateMachine) : StateMachine :=
  mkStateMachine (_engine s) (_isEngineForInput s) (_state s) (_parserMode s)
    (_currentString s) (_runOffset s) (_runSize s) (_identifier s) (_parameters s)
    (_parameterLimitOverflowed s) (_subParameters s) (_subParameterRanges s)
    (_subParameterLimitOverflowed s) (_subParameterCounter s) (_oscString s) (_oscParameter
    s) (_dcsStringHandler s) (_cachedSequence s) (_injections s) (_processingLastCharacter
    s) v.

Implicit Types (s : StateMachine).
Abbreviation SM := (M StateMachine).

(** ** Modes *)
Definition SetParserMode (mode : Mode) (enabled : bool) s : StateMachine :=
  set_parserMode (enumset.set (_parserMode s) (Mode_bit mode) enabled) s.
Definition GetParserMode (mode : Mode) s : bool := enumset.test (_parserMode s) (Mode_bit mode).
Definition IsProcessingLastCharacter s : bool := _processingLastCharacter s.
Definition InjectSequence (type : InjectionType) s : StateMachine :=
  set_injections (_injections s ++ [mkInjection type (_runOffset s + _runSize s)]) s.
Definition GetInjections s : list Injection := _injections s.
Definition OnCsiComplete (callback : CB) s : StateMachine :=
  set_onCsiCompleteCallback (Some callback) s.

(** ** Calling the engine *)
Definition applyRequest (r : Request CB) s : StateMachine :=
  match r with
  | SetParserModeRequest mode enabled => SetParserMode mode enabled s
  | InjectSequenceRequest type => InjectSequence type s
  | OnCsiCompleteRequest callback => OnCsiComplete callback s
  end.

Definition engineView s : EngineView :=
  mkEngineView (_parserMode s) (IsProcessingLastCharacter s).

Definition callEngine {A} (action : EngineAction E CB A) : SM A := fun s =>
  let '(e, requests, outcome) := action (engineView s) (_engine s) in
  let s' := fold_left (fun s r => applyRequest r s) requests (set_engine e s) in
  match outcome with
  | Returned a => (s', Ret a)
  | Threw => (s', Throw)
  end.

(** [_currentString.substr(_runOffset, _runSize)]; [substr] throws when the
    offset is past the end. *)
Definition _CurrentRun : SM wstring := fun s =>
  if (length (_currentString s) <? _runOffset s)%nat then (s, Throw)
  else (s, Ret (take (_runSize s) (drop (_runOffset s) (_currentString s)))).

(** The body of [FlushToTerminal], given the [_SafeExecute] it calls. *)
Definition FlushToTerminal_with (safeExecute : SM bool -> SM bool) : SM bool :=
  cached ← gets _cachedSequence;
  success ← match cached with
            | Some sequence =>
                success ← safeExecute (callEngine (ActionPassThroughString sequence));
                modify (set_cachedSequence None) ;;
                mret success
            | None => mret true
            end;
  if (success : bool)
  then safeExecute (run ← _CurrentRun; callEngine (ActionPassThroughString run))
  else mret success.

Fixpoint _SafeExecute (fuel : nat) (lambda : SM bool) : SM bool :=
  match fuel with
  | O => outOfFuel
  | S fuel =>
      try_catch
        (ok ← lambda;
         (if (ok : bool) then mret true else FlushToTerminal_with (_SafeExecute fuel)) ;;
         mret ok)
        (mret false)
  end.

Definition FlushToTerminal (fuel : nat) : SM bool := FlushToTerminal_with (_SafeExecute fuel).

(** The depth the mutual recursion of the actions below is run at. *)
Context (fuel : nat).

(** ** Actions *)
Definition _ActionExecute (wch : wchar_t) : SM unit :=
  _SafeExecute fuel (callEngine (ActionExecute wch)) ;; mret tt.
Definition _ActionExecuteFromEscape (wch : wchar_t) : SM unit :=
  _SafeExecute fuel (callEngine (ActionExecuteFromEscape wch)) ;; mret tt.
Definition _ActionPrint (wch : wchar_t) : SM unit :=
  _SafeExecute fuel (callEngine (ActionPrint wch)) ;; mret tt.
Definition _ActionPrintString (string : wstring) : SM unit :=
  _SafeExecute fuel (callEngine (ActionPrintString string)) ;; mret tt.
Definition _ActionEscDispatch (wch : wchar_t) : SM unit :=
  _SafeExecute fuel
    (id ← gets (fun s => VTIDBuilder.Finalize wch (_identifier s));
     callEngine (ActionEscDispatch id)) ;;
  mret tt.
Definition _ActionVt52EscDispatch (wch : wchar_t) : SM unit :=
  _SafeExecute fuel
    (id ← gets (fun s => VTIDBuilder.Finalize wch (_identifier s));
     params ← gets (fun s => VTParameters.of_params (_parameters s));
     callEngine (ActionVt52EscDispatch id params)) ;;
  mret tt.
Definition _ActionCsiDispatch (wch : wchar_t) : SM unit :=
  _SafeExecute fuel
    (id ← gets (fun s => VTIDBuilder.Finalize wch (_identifier s));
     params ← gets (fun s =>
       mkVTParameters (_parameters s) (_subParameters s) (_subParameterRanges s));
     callEngine (ActionCsiDispatch id params)) ;;
  mret tt.
Definition _ActionCollect (wch : wchar_t) : SM unit :=
  modify (fun s => set_identifier (VTIDBuilder.AddIntermediate wch (_identifier s)) s).

(** Signed 32-bit arithmetic: leaving the range is undefined behaviour. *)
Definition _AccumulateTo (wch : wchar_t) (value : Z) : SM Z :=
  let digit := wch - 0x30 in
  let value := value * 10 + digit in
  if (value <? - 2 ^ 31) || (2 ^ 31 <=? value) then ub
  else mret (if value >? MAX_PARAMETER_VALUE then MAX_PARAMETER_VALUE else value).

(** [_parameters.push_back({})] together with its empty sub parameter range. *)
Definition pushParameter s : StateMachine :=
  let rangeStart := u8 (Z.of_nat (length (_subParameters s))) in
  set_subParameterRanges (_subParameterRanges s ++ [(rangeStart, rangeStart)])
    (set_parameters (_parameters s ++ [VTParameter.omitted]) s).

(** [v.back()]: undefined on an empty vector. *)
Definition back {A} (v : list A) : SM A :=
  match last v with
  | Some x => mret x
  | None => ub
  end.

Definition _ActionParam (wch : wchar_t) : SM unit :=
  overflowed ← gets _parameterLimitOverflowed;
  if (overflowed : bool) then mret tt
  else
    params ← gets _parameters;
    (if bool_decide (params = []) then modify pushParameter else mret tt) ;;
    if _isParameterDelimiter wch then
      params ← gets _parameters;
      if (MAX_PARAMETER_COUNT <=? length params)%nat
      then modify (set_parameterLimitOverflowed true)
      else modify (fun s =>
             let s := set_subParameterLimitOverflowed false (set_subParameterCounter 0 s) in
             pushParameter s)
    else
      params ← gets _parameters;
      last ← back params;
      currentParameter ← _AccumulateTo wch (VTParameter.value_or last 0);
      modify (fun s => set_parameters (set_back currentParameter (_parameters s)) s).

Definition _ActionSubParam (wch : wchar_t) : SM unit :=
  overflowed ← gets _subParameterLimitOverflowed;
  if (overflowed : bool) then mret tt
  else
    params ← gets _parameters;
    (if bool_decide (params = []) then modify pushParameter else mret tt) ;;
    if _isSubParameterDelimiter wch then
      counter ← gets _subParameterCounter;
      if counter >=? MAX_SUBPARAMETER_COUNT
      then modify (set_subParameterLimitOverflowed true)
      else
        modify (fun s => set_subParameters (_subParameters s ++ [VTParameter.omitted]) s) ;;
        ranges ← gets _subParameterRanges;
        range ← back ranges;
        modify (set_subParameterRanges (set_back (range.1, u8 (range.2 + 1)) ranges)) ;;
        modify (set_subParameterCounter (u8 (counter + 1)))
    else
      subParams ← gets _subParameters;
      last ← back subParams;
      currentSubParameter ← _AccumulateTo wch (VTParameter.value_or last 0);
      modify (fun s => set_subParameters (set_back currentSubParameter (_subParameters s)) s).

Definition clear s : StateMachine :=
  set_dcsStringHandler None (set_oscParameter 0 (set_oscString []
    (set_subParameterLimitOverflowed false (set_subParameterCounter 0
      (set_subParameterRanges [] (set_subParameters []
        (set_parameterLimitOverflowed false (set_parameters []
          (set_identifier VTIDBuilder.Clear s))))))))).
Definition _ActionClear : SM unit := modify clear.
Definition _ActionIgnore : SM unit := mret tt.

(** A call of the [std::function] member: an empty one throws. *)
Definition dcsStringHandler (wch : wchar_t) : SM bool :=
  handler ← gets _dcsStringHandler;
  match handler with
  | None => throw
  | Some h => callEngine (StringHandler_call h wch)
  end.

Definition _ActionInterrupt : SM unit :=
  state ← gets _state;
  if bool_decide (state = DcsPassThrough) then
    dcsStringHandler AsciiChars.ESC ;;
    modify (set_dcsStringHandler None)
  else mret tt.

Definition _ActionOscParam (wch : wchar_t) : SM unit :=
  param ← gets _oscParameter;
  param ← _AccumulateTo wch param;
  modify (set_oscParameter param).
Definition _ActionOscPut (wch : wchar_t) : SM unit :=
  modify (fun s => set_oscString (_oscString s ++ [wch]) s).
Definition _ActionOscDispatch : SM unit :=
  _SafeExecute fuel
    (param ← gets _oscParameter;
     string ← gets _oscString;
     callEngine (ActionOscDispatch param string)) ;;
  mret tt.
Definition _ActionSs3Dispatch (wch : wchar_t) : SM unit :=
  _SafeExecute fuel
    (params ← gets (fun s => VTParameters.of_params (_parameters s));
     callEngine (ActionSs3Dispatch wch params)) ;;
  mret tt.

(** ** State changes *)
Definition enterGround s : StateMachine := set_cachedSequence None (set_state Ground s).
Definition _EnterGround : SM unit := modify enterGround.
Definition _EnterEscape : SM unit := modify (set_state Escape) ;; _ActionClear.
Definition _EnterEscapeIntermediate : SM unit := modify (set_state EscapeIntermediate).
Definition _EnterCsiEntry : SM unit := modify (set_state CsiEntry) ;; _ActionClear.
Definition _EnterCsiParam : SM unit := modify (set_state CsiParam).
Definition _EnterCsiSubParam : SM unit := modify (set_state CsiSubParam).
Definition _EnterCsiIgnore : SM unit := modify (set_state CsiIgnore).
Definition _EnterCsiIntermediate : SM unit := modify (set_state CsiIntermediate).
Definition _EnterOscParam : SM unit := modify (set_state OscParam).
Definition _EnterOscString : SM unit := modify (set_state OscString).
Definition _EnterOscTermination : SM unit := modify (set_state OscTermination).
Definition _EnterSs3Entry : SM unit := modify (set_state Ss3Entry) ;; _ActionClear.
Definition _EnterSs3Param : SM unit := modify (set_state Ss3Param).
Definition _EnterVt52Param : SM unit := modify (set_state Vt52Param).
Definition _EnterDcsEntry : SM unit := modify (set_state DcsEntry) ;; _ActionClear.
Definition _EnterDcsParam : SM unit := modify (set_state DcsParam).
Definition _EnterDcsIgnore : SM unit :=
  modify (set_state DcsIgnore) ;; modify (set_cachedSequence None).
Definition _EnterDcsIntermediate : SM unit := modify (set_state DcsIntermediate).
Definition _EnterDcsPassThrough : SM unit :=
  modify (set_state DcsPassThrough) ;; modify (set_cachedSequence None).
Definition _EnterSosPmApcString : SM unit :=
  modify (set_state SosPmApcString) ;; modify (set_cachedSequence None) ;;
  modify (fun s => set_engine (UnknownSequence (_engine s)) s).

Definition _ActionDcsDispatch (wch : wchar_t) : SM unit :=
  _SafeExecute fuel
    (id ← gets (fun s => VTIDBuilder.Finalize wch (_identifier s));
     params ← gets (fun s => VTParameters.of_params (_parameters s));
     handler ← callEngine (ActionDcsDispatch id params);
     modify (set_dcsStringHandler handler) ;;
     mret true) ;;
  handler ← gets _dcsStringHandler;
  match handler with
  | Some _ => _EnterDcsPassThrough
  | None => _EnterDcsIgnore
  end.

(** ** Events, one per state *)
Definition _EventGround (wch : wchar_t) : SM unit :=
  if _isC0Code wch || _isDelete wch then _ActionExecute wch else _ActionPrint wch.

Definition _EventEscape (wch : wchar_t) : SM unit :=
  isEngineForInput ← gets _isEngineForInput;
  ansi ← gets (GetParserMode Ansi);
  if _isC0Code wch then
    if (isEngineForInput : bool)
    then _ActionExecuteFromEscape wch ;; _EnterGround
    else _ActionExecute wch
  else if _isDelete wch then _ActionIgnore
  else if _isIntermediate wch then
    if (isEngineForInput : bool)
    then _ActionEscDispatch wch ;; _EnterGround
    else _ActionCollect wch ;; _EnterEscapeIntermediate
  else if (ansi : bool) then
    if _isCsiIndicator wch then _EnterCsiEntry
    else if _isOscIndicator wch then _EnterOscParam
    else if _isSs3Indicator wch && isEngineForInput then _EnterSs3Entry
    else if _isDcsIndicator wch then _EnterDcsEntry
    else if _isSosIndicator wch || _isPmIndicator wch || _isApcIndicator wch
    then _EnterSosPmApcString
    else _ActionEscDispatch wch ;; _EnterGround
  else if _isVt52CursorAddress wch then _EnterVt52Param
  else _ActionVt52EscDispatch wch ;; _EnterGround.

Definition _EventEscapeIntermediate (wch : wchar_t) : SM unit :=
  ansi ← gets (GetParserMode Ansi);
  if _isC0Code wch then _ActionExecute wch
  else if _isIntermediate wch then _ActionCollect wch
  else if _isDelete wch then _ActionIgnore
  else if (ansi : bool) then _ActionEscDispatch wch ;; _EnterGround
  else if _isVt52CursorAddress wch then _EnterVt52Param
  else _ActionVt52EscDispatch wch ;; _EnterGround.

(** The string loop a CSI-complete callback re-enters. *)
Context (processString : wstring -> SM unit).

(** [callback()]: the callback may feed a string back to the machine; what it
    does on scope exit happens also when that throws. *)
Definition runCallback (callback : CB) : SM unit := fun s =>
  let '(e, string) := Callback_call callback (_engine s) in
  let s := set_engine e s in
  match string with
  | None => (s, Ret tt)
  | Some string =>
      let '(s, outcome) := processString string s in
      (set_engine (Callback_exit callback (_engine s)) s, outcome)
  end.

Definition _ExecuteCsiCompleteCallback : SM unit :=
  callback ← gets _onCsiCompleteCallback;
  match callback with
  | None => mret tt
  | Some callback =>
      savedCurrentString ← gets _currentString;
      savedRunOffset ← gets _runOffset;
      savedRunSize ← gets _runSize;
      modify (set_onCsiCompleteCallback None) ;;
      runCallback callback ;;
      modify (set_currentString savedCurrentString) ;;
      modify (set_runOffset savedRunOffset) ;;
      modify (set_runSize savedRunSize)
  end.

Definition _EventCsiEntry (wch : wchar_t) : SM unit :=
  if _isC0Code wch then _ActionExecute wch
  else if _isDelete wch then _ActionIgnore
  else if _isIntermediate wch then _ActionCollect wch ;; _EnterCsiIntermediate
  else if _isNumericParamValue wch || _isParameterDelimiter wch
  then _ActionParam wch ;; _EnterCsiParam
  else if _isSubParameterDelimiter wch then _ActionSubParam wch ;; _EnterCsiSubParam
  else if _isCsiPrivateMarker wch then _ActionCollect wch ;; _EnterCsiParam
  else _ActionCsiDispatch wch ;; _EnterGround ;; _ExecuteCsiCompleteCallback.

Definition _EventCsiIntermediate (wch : wchar_t) : SM unit :=
  if _isC0Code wch then _ActionExecute wch
  else if _isIntermediate wch then _ActionCollect wch
  else if _isDelete wch then _ActionIgnore
  else if _isIntermediateInvalid wch then _EnterCsiIgnore
  else _ActionCsiDispatch wch ;; _EnterGround ;; _ExecuteCsiCompleteCallback.

Definition _EventCsiIgnore (wch : wchar_t) : SM unit :=
  if _isC0Code wch then _ActionExecute wch
  else if _isDelete wch then _ActionIgnore
  else if _isIntermediate wch then _ActionIgnore
  else if _isIntermediateInvalid wch then _ActionIgnore
  else _EnterGround.

Definition _EventCsiParam (wch : wchar_t) : SM unit :=
  if _isC0Code wch then _ActionExecute wch
  else if _isDelete wch then _ActionIgnore
  else if _isNumericParamValue wch || _isParameterDelimiter wch then _ActionParam wch
  else if _isSubParameterDelimiter wch then _ActionSubParam wch ;; _EnterCsiSubParam
  else if _isIntermediate wch then _ActionCollect wch ;; _EnterCsiIntermediate
  else if _isParameterInvalid wch then _EnterCsiIgnore
  else _ActionCsiDispatch wch ;; _EnterGround ;; _ExecuteCsiCompleteCallback.

Definition _EventCsiSubParam (wch : wchar_t) : SM unit :=
  if _isC0Code wch then _ActionExecute wch
  else if _isDelete wch then _ActionIgnore
  else if _isNumericParamValue wch || _isSubParameterDelimiter wch then _ActionSubParam wch
  else if _isParameterDelimiter wch then _ActionParam wch ;; _EnterCsiParam
  else if _isIntermediate wch then _ActionCollect wch ;; _EnterCsiIntermediate
  else if _isParameterInvalid wch then _EnterCsiIgnore
  else _ActionCsiDispatch wch ;; _EnterGround ;; _ExecuteCsiCompleteCallback.

Definition _EventOscParam (wch : wchar_t) : SM unit :=
  if _isOscTerminator wch then _ActionOscDispatch ;; _EnterGround
  else if _isEscape wch then _EnterOscTermination
  else if _isNumericParamValue wch then _ActionOscParam wch
  else if _isOscDelimiter wch then _EnterOscString
  else _ActionIgnore.

Definition _EventOscString (wch : wchar_t) : SM unit :=
  if _isOscTerminator wch then _ActionOscDispatch ;; _EnterGround
  else if _isEscape wch then _EnterOscTermination
  else if _isOscInvalid wch then _ActionIgnore
  else _ActionOscPut wch.

Definition _EventOscTermination (wch : wchar_t) : SM unit :=
  if _isStringTerminatorIndicator wch then _ActionOscDispatch ;; _EnterGround
  else _EnterEscape ;; _EventEscape wch.

Definition _EventSs3Entry (wch : wchar_t) : SM unit :=
  if _isC0Code wch then _ActionExecute wch
  else if _isDelete wch then _ActionIgnore
  else if _isSubParameterDelimiter wch then _EnterCsiIgnore
  else if _isNumericParamValue wch || _isParameterDelimiter wch
  then _ActionParam wch ;; _EnterSs3Param
  else _ActionSs3Dispatch wch ;; _EnterGround.

Definition _EventSs3Param (wch : wchar_t) : SM unit :=
  if _isC0Code wch then _ActionExecute wch
  else if _isDelete wch then _ActionIgnore
  else if _isNumericParamValue wch || _isParameterDelimiter wch then _ActionParam wch
  else if _isParameterInvalid wch || _isSubParameterDelimiter wch then _EnterCsiIgnore
  else _ActionSs3Dispatch wch ;; _EnterGround.

Definition _EventVt52Param (wch : wchar_t) : SM unit :=
  if _isC0Code wch then _ActionExecute wch
  else if _isDelete wch then _ActionIgnore
  else
    modify (fun s => set_parameters (_parameters s ++ [wch]) s) ;;
    params ← gets _parameters;
    if (length params =? 2)%nat
    then _ActionVt52EscDispatch 0x59 ;; _EnterGround
    else mret tt.

Definition _EventDcsEntry (wch : wchar_t) : SM unit :=
  if _isC0Code wch then _ActionIgnore
  else if _isDelete wch then _ActionIgnore
  else if _isSubParameterDelimiter wch then _EnterDcsIgnore
  else if _isNumericParamValue wch || _isParameterDelimiter wch
  then _ActionParam wch ;; _EnterDcsParam
  else if _isIntermediate wch then _ActionCollect wch ;; _EnterDcsIntermediate
  else _ActionDcsDispatch wch.

Definition _EventDcsIgnore : SM unit := _ActionIgnore.

Definition _EventDcsIntermediate (wch : wchar_t) : SM unit :=
  if _isC0Code wch then _ActionIgnore
  else if _isDelete wch then _ActionIgnore
  else if _isIntermediate wch then _ActionCollect wch
  else if _isIntermediateInvalid wch then _EnterDcsIgnore
  else _ActionDcsDispatch wch.

(** The second [if] of the source does not follow an [else]: a C0 or delete
    character is ignored and then falls into the chain that dispatches it. *)
Definition _EventDcsParam (wch : wchar_t) : SM unit :=
  (if _isC0Code wch then _ActionIgnore
   else if _isDelete wch then _ActionIgnore
   else mret tt) ;;
  if _isNumericParamValue wch || _isParameterDelimiter wch then _ActionParam wch
  else if _isIntermediate wch then _ActionCollect wch ;; _EnterDcsIntermediate
  else if _isParameterInvalid wch || _isSubParameterDelimiter wch then _EnterDcsIgnore
  else _ActionDcsDispatch wch.

Definition _EventDcsPassThrough (wch : wchar_t) : SM unit :=
  if _isC0Code wch || _isDcsPassThroughValid wch then
    more ← dcsStringHandler wch;
    if (more : bool) then mret tt else _EnterDcsIgnore
  else _ActionIgnore.

Definition _EventSosPmApcString (wch : wchar_t) : SM unit := _ActionIgnore.

(** The [switch] over [_state]. *)
Definition dispatchEvent (state : VTStates) (wch : wchar_t) : SM unit :=
  match state with
  | Ground => _EventGround wch
  | Escape => _EventEscape wch
  | EscapeIntermediate => _EventEscapeIntermediate wch
  | CsiEntry => _EventCsiEntry wch
  | CsiIntermediate => _EventCsiIntermediate wch
  | CsiIgnore => _EventCsiIgnore wch
  | CsiParam => _EventCsiParam wch
  | CsiSubParam => _EventCsiSubParam wch
  | OscParam => _EventOscParam wch
  | OscString => _EventOscString wch
  | OscTermination => _EventOscTermination wch
  | Ss3Entry => _EventSs3Entry wch
  | Ss3Param => _EventSs3Param wch
  | Vt52Param => _EventVt52Param wch
  | DcsEntry => _EventDcsEntry wch
  | DcsIgnore => _EventDcsIgnore
  | DcsIntermediate => _EventDcsIntermediate wch
  | DcsParam => _EventDcsParam wch
  | DcsPassThrough => _EventDcsPassThrough wch
  | SosPmApcString => _EventSosPmApcString wch
  end.

(** ** [ProcessCharacter]

    The recursive calls of the source are on ESC and on a 7-bit character, for
    which the C1 branch is not taken again: two levels are enough (see
    [ProcessCharacter_rec_fuel]). *)
Fixpoint ProcessCharacter_rec (levels : nat) (wch : wchar_t) : SM unit :=
  match levels with
  | O => outOfFuel
  | S levels =>
      let isFromAnywhereChar := (wch =? AsciiChars.CAN) || (wch =? AsciiChars.SUB) in
      state ← gets _state;
      isEngineForInput ← gets _isEngineForInput;
      if isFromAnywhereChar && negb (bool_decide (state = Escape) && isEngineForInput) then
        _ActionInterrupt ;; _ActionExecute wch ;; _EnterGround
      else if _isC1ControlCharacter wch then
        acceptC1 ← gets (GetParserMode AcceptC1);
        if (acceptC1 : bool) then
          ProcessCharacter_rec levels AsciiChars.ESC ;;
          ProcessCharacter_rec levels (_c1To7Bit wch)
        else mret tt
      else if _isEscape wch && negb (bool_decide (state = OscString))
              && negb (bool_decide (state = OscParam)) then
        _ActionInterrupt ;; _EnterEscape
      else dispatchEvent state wch
  end.

Definition ProcessCharacter (wch : wchar_t) : SM unit := ProcessCharacter_rec 2 wch.

(** ** [ProcessString] *)

(** The [do ... while] loop; [rest] is what [string] holds from index [i] on,
    so [til::at(string, i)] is its head. *)
Fixpoint vtLoop (size : nat) (rest : wstring) (i : nat) : SM nat :=
  match rest with
  | [] => ub
  | wch :: rest =>
      modify (fun s => set_runSize (_runSize s + 1)%nat s) ;;
      modify (set_processingLastCharacter (size <=? i + 1)%nat) ;;
      ProcessCharacter wch ;;
      state ← gets _state;
      if (S i <? size)%nat && negb (bool_decide (state = Ground))
      then vtLoop size rest (S i)
      else mret (S i)
  end.

(** The head of the [while] body: print everything up to the next actionable
    character. *)
Definition printRun (string : wstring) (i : nat) : SM nat :=
  modify (set_runOffset i) ;;
  modify (set_runSize (FindActionable.FindActionableControlCharacter (drop i string))) ;;
  runSize ← gets _runSize;
  if (runSize =? 0)%nat then mret i
  else
    run ← _CurrentRun;
    _ActionPrintString run ;;
    runSize ← gets _runSize;
    modify (set_runOffset (i + runSize)%nat) ;;
    modify (set_runSize 0) ;;
    mret (i + runSize)%nat.

(** The [while] loop; [vtStart] enters it at the label [processStringLoopVtStart]. *)
Fixpoint stringLoop (iterations : nat) (string : wstring) (vtStart : bool) (i : nat) : SM unit :=
  match iterations with
  | O => outOfFuel
  | S iterations =>
      if negb vtStart && (length string <=? i)%nat then mret tt
      else
        i ← (if vtStart then mret i else printRun string i);
        if (length string <=? i)%nat then mret tt
        else
          i ← vtLoop (length string) (drop i string) i;
          stringLoop iterations string false i
  end.

(** What is left at the end of the string. *)
Definition endOfString : SM unit :=
  state ← gets _state;
  if bool_decide (state = Ground) then mret tt
  else
    run ← _CurrentRun;
    isEngineForInput ← gets _isEngineForInput;
    cacheUnusedRun ←
      (if (isEngineForInput : bool) then
         win32 ← gets (fun s => EncounteredWin32InputModeSequence (_engine s));
         if negb win32 && (length run <=? 2)%nat then
           match head run, last run with
           | Some front, Some final =>
               if front =? 0x1b then
                 _EnterGround ;;
                 (if (length run =? 1)%nat then _ActionExecute 0x1b
                  else _EnterEscape ;; _ActionEscDispatch final) ;;
                 _EnterGround ;;
                 mret false
               else mret true
           | _, _ => ub
           end
         else mret true
       else
         mret (negb (bool_decide (state = SosPmApcString) || bool_decide (state = DcsPassThrough)
                     || bool_decide (state = DcsIgnore))));
    if (cacheUnusedRun : bool)
    then modify (fun s => set_cachedSequence (Some (default [] (_cachedSequence s) ++ run)) s)
    else mret tt.

Definition ProcessString_with (string : wstring) : SM unit :=
  modify (fun s => set_injections [] (set_runSize 0 (set_runOffset 0 (set_currentString string s)))) ;;
  state ← gets _state;
  stringLoop (S (length string)) string (negb (bool_decide (state = Ground))) 0 ;;
  endOfString.

Definition ResetState : SM unit := _EnterGround.

End StateMachine.

Arguments StateMachine : clear implicits.
Arguments mkStateMachine {E H CB}.

(** [ProcessString], re-entered by CSI-complete callbacks at most [depth] deep. *)
Fixpoint ProcessString {E H CB} {engine : IStateMachineEngine E H CB} (fuel depth : nat)
    (string : wstring) : M (StateMachine E H CB) unit :=
  match depth with
  | O => outOfFuel
  | S depth => ProcessString_with fuel (ProcessString fuel depth) string
  end.

(** The constructor. The members it does not initialise ([_runOffset], [_runSize],
    [_processingLastCharacter]) and the default-constructed string view are
    arguments. *)
Definition StateMachine_ctor {E H CB} (e : E) (isEngineForInput : bool)
    (runOffset runSize : nat) (processingLastCharacter : bool) : StateMachine E H CB :=
  clear
    {| _engine := e;
       _isEngineForInput := isEngineForInput;
       _state := Ground;
       _parserMode := enumset.set (enumset.of_pos (Mode_bit Ansi)) (Mode_bit AcceptC1) isEngineForInput;
       _currentString := [];
       _runOffset := runOffset;
       _runSize := runSize;
       _identifier := VTIDBuilder.Clear;
       _parameters := [];
       _parameterLimitOverflowed := false;
       _subParameters := [];
       _subParameterRanges := [];
       _subParameterLimitOverflowed := false;
       _subParameterCounter := 0;
       _oscString := [];
       _oscParameter := 0;
       _dcsStringHandler := None;
       _cachedSequence := None;
       _injections := [];
       _processingLastCharacter := processingLastCharacter;
       _onCsiCompleteCallback := None |}.
