(* ===== verification/StateMachineInv.v ===== *)
(** * Well-formedness of the parser state

    The parser's collected registers (identifier, parameters, sub parameters,
    OSC parameter, DCS handler) satisfy an invariant in every state, whatever
    engine is attached: every entry point preserves it, and no entry point has
    undefined behaviour (no [back()] of an empty vector, no signed overflow, no
    [front()] of an empty view). *)
From S2P Require Import Prelude DispatchTypes VtUtils StateMachine.

(** The sub parameter ranges partition the sub parameters: they start at
    [start], each begins where the previous one ends, none is longer than the
    per-parameter limit, and the last one ends at [finish]. *)
Fixpoint ranges_ok (start : Z) (ranges : list (Z * Z)) (finish : Z) : Prop :=
  match ranges with
  | [] => start = finish
  | (first, second) :: rest =>
      first = start /\ first <= second <= first + MAX_SUBPARAMETER_COUNT
      /\ ranges_ok second rest finish
  end.

(** How many sub parameters the last range holds. *)
Definition last_range_size (ranges : list (Z * Z)) : Z :=
  match last ranges with
  | Some (first, second) => second - first
  | None => 0
  end.

Definition param_ok (p : VTParameter) : Prop := -1 <= p <= MAX_PARAMETER_VALUE.

Lemma ranges_ok_bounds start ranges finish :
  ranges_ok start ranges finish ->
  start <= finish <= start + MAX_SUBPARAMETER_COUNT * Z.of_nat (length ranges).
Proof.
  revert start. induction ranges as [|[a b] ranges IH]; intros start; cbn [ranges_ok].
  - intros ->. cbn. lia.
  - intros (-> & Hab & Hr). apply IH in Hr. cbn [length]. unfold MAX_SUBPARAMETER_COUNT in *. lia.
Qed.

Lemma ranges_ok_push start ranges finish :
  ranges_ok start ranges finish -> ranges_ok start (ranges ++ [(finish, finish)]) finish.
Proof.
  revert start. induction ranges as [|[a b] ranges IH]; intros start; cbn.
  - intros ->. unfold MAX_SUBPARAMETER_COUNT. lia.
  - intros (-> & Hab & Hr). auto.
Qed.

Lemma ranges_ok_bump start ranges a b finish :
  ranges_ok start (ranges ++ [(a, b)]) finish -> b - a < MAX_SUBPARAMETER_COUNT ->
  ranges_ok start (ranges ++ [(a, b + 1)]) (finish + 1) /\ b = finish /\ a <= b.
Proof.
  revert start. induction ranges as [|[c d] ranges IH]; intros start; cbn.
  - unfold MAX_SUBPARAMETER_COUNT. lia.
  - intros (-> & Hcd & Hr) Hlt. destruct (IH d Hr Hlt). auto.
Qed.

Lemma last_range_size_snoc ranges a b : last_range_size (ranges ++ [(a, b)]) = b - a.
Proof. unfold last_range_size. by rewrite last_snoc. Qed.

(** Every range the parser hands out lies inside the sub parameters. *)
Lemma ranges_ok_lookup start ranges finish i a b :
  ranges_ok start ranges finish -> ranges !! i = Some (a, b) ->
  start <= a /\ a <= b <= a + MAX_SUBPARAMETER_COUNT /\ b <= finish.
Proof.
  revert start i. induction ranges as [|[c d] ranges IH]; intros start i; cbn [ranges_ok]; [done|].
  intros (-> & Hcd & Hr) Hi. pose proof (ranges_ok_bounds _ _ _ Hr).
  destruct i as [|i]; cbn in Hi; [simplify_eq; lia|].
  specialize (IH d i Hr Hi). lia.
Qed.

Section Invariant.
Context {E H CB : Type} {engine : IStateMachineEngine E H CB}.
Implicit Types (s : StateMachine E H CB).

(** The part that holds in every state. *)
Record registers_ok s : Prop := {
  params_count : (length (_parameters s) <= MAX_PARAMETER_COUNT)%nat;
  counter_bounds : 0 <= _subParameterCounter s <= MAX_SUBPARAMETER_COUNT;
  counter_overflow :
    _subParameterLimitOverflowed s = true -> _subParameterCounter s = MAX_SUBPARAMETER_COUNT;
  oscParameter_bounds : 0 <= _oscParameter s <= MAX_PARAMETER_VALUE }.

(** The part that holds while parameters are collected: the values are in
    range or omitted, there is one range per parameter, the ranges cover exactly the sub parameters, and the counter is
    the size of the last range. *)
Record ranges_wf s : Prop := {
  params_values : Forall param_ok (_parameters s);
  subParams_values : Forall param_ok (_subParameters s);
  ranges_count : length (_subParameterRanges s) = length (_parameters s);
  ranges_partition :
    ranges_ok 0 (_subParameterRanges s) (Z.of_nat (length (_subParameters s)));
  ranges_counter : last_range_size (_subParameterRanges s) = _subParameterCounter s }.

Definition state_ok (state : VTStates) s : Prop :=
  match state with
  | CsiEntry | CsiIntermediate | CsiParam | Ss3Entry | Ss3Param
  | DcsEntry | DcsIntermediate | DcsParam => ranges_wf s
  | CsiSubParam => ranges_wf s /\ 1 <= _subParameterCounter s
  | Escape | EscapeIntermediate => _parameters s = []
  | Vt52Param => (length (_parameters s) < 2)%nat
  | DcsPassThrough => is_Some (_dcsStringHandler s)
  | Ground | CsiIgnore | OscParam | OscString | OscTermination | DcsIgnore
  | SosPmApcString => True
  end.

Definition wf s : Prop := registers_ok s /\ state_ok (_state s) s.

(** ** What an engine call can change *)
Definition upd (e : E) (pm : enumset.t) (cached : option wstring) (inj : list Injection)
    (cb : option CB) s : StateMachine E H CB :=
  set_engine e (set_parserMode pm (set_cachedSequence cached (set_injections inj
    (set_onCsiCompleteCallback cb s)))).

Definition frame s s' : Prop := exists e pm cached inj cb, s' = upd e pm cached inj cb s.

Lemma frame_refl s : frame s s.
Proof. destruct s. eexists _, _, _, _, _. reflexivity. Qed.

Lemma frame_trans s1 s2 s3 : frame s1 s2 -> frame s2 s3 -> frame s1 s3.
Proof.
  intros (e1 & p1 & c1 & i1 & b1 & ->) (e2 & p2 & c2 & i2 & b2 & ->).
  exists e2, p2, c2, i2, b2. reflexivity.
Qed.

Lemma frame_cached s c : frame s (set_cachedSequence c s).
Proof.
  exists (_engine s), (_parserMode s), c, (_injections s), (_onCsiCompleteCallback s).
  by destruct s.
Qed.

Lemma applyRequest_frame (r : Request CB) s : frame s (applyRequest r s).
Proof.
  destruct r as [mode enabled|type|callback].
  - exists (_engine s), (enumset.set (_parserMode s) (Mode_bit mode) enabled),
      (_cachedSequence s), (_injections s), (_onCsiCompleteCallback s). by destruct s.
  - exists (_engine s), (_parserMode s), (_cachedSequence s), (_injections (InjectSequence type s)),
      (_onCsiCompleteCallback s). by destruct s.
  - exists (_engine s), (_parserMode s), (_cachedSequence s), (_injections s), (Some callback).
    by destruct s.
Qed.

Lemma applyRequests_frame (rs : list (Request CB)) s :
  frame s (fold_left (fun s r => applyRequest r s) rs s).
Proof.
  revert s. induction rs as [|r rs IH]; intros s; [apply frame_refl|].
  eapply frame_trans; [apply (applyRequest_frame r)|apply IH].
Qed.

Lemma set_engine_frame e s : frame s (set_engine e s).
Proof.
  exists e, (_parserMode s), (_cachedSequence s), (_injections s), (_onCsiCompleteCallback s).
  by destruct s.
Qed.

Lemma wp_callEngine {A} (action : EngineAction E CB A) Q X s :
  (forall a s', frame s s' -> Q a s') -> (forall s', frame s s' -> X s') ->
  wp (callEngine action) Q X s.
Proof.
  intros HQ HX. unfold wp, callEngine.
  destruct (action (engineView s) (_engine s)) as [[e rs] o].
  assert (frame s (fold_left (fun s r => applyRequest r s) rs (set_engine e s))) as Hf.
  { eapply frame_trans; [apply set_engine_frame|apply applyRequests_frame]. }
  destruct o; auto.
Qed.

Lemma wp_CurrentRun Q X s :
  ((_runOffset s <= length (_currentString s))%nat ->
   Q (take (_runSize s) (drop (_runOffset s) (_currentString s))) s) ->
  X s -> wp _CurrentRun Q X s.
Proof.
  intros HQ HX. unfold wp, _CurrentRun. destruct (Nat.ltb_spec (length (_currentString s)) (_runOffset s)); [done|].
  apply HQ. lia.
Qed.

(** A predicate that engine calls cannot falsify. *)
Definition framed (P : StateMachine E H CB -> Prop) : Prop :=
  forall s s', frame s s' -> P s -> P s'.

Lemma wp_FlushToTerminal_with safeExecute P s :
  framed P ->
  (forall lambda s, (forall s, P s -> wp lambda (fun _ => P) P s) -> P s ->
     wp (safeExecute lambda) (fun _ => P) P s) ->
  P s -> wp (FlushToTerminal_with safeExecute) (fun _ => P) P s.
Proof.
  intros HP Hsafe Hs. unfold FlushToTerminal_with.
  assert (forall str s, P s -> wp (callEngine (ActionPassThroughString str)) (fun _ => P) P s) as Hpass.
  { intros str s0 Hs0. apply wp_callEngine; intros; eapply HP; eauto. }
  apply wp_bind, wp_gets, wp_bind.
  eapply (wp_mono _ (fun _ => P) _ P P).
  - destruct (_cachedSequence s) as [str|]; [|by apply wp_ret].
    apply wp_bind. eapply wp_mono; [apply Hsafe; [apply Hpass|done]| |done].
    intros a s' Hs'. apply wp_bind, wp_modify, wp_ret. eapply HP; [apply frame_cached|done].
  - intros a s' Hs'. destruct a; [|by apply wp_ret].
    apply Hsafe; [|done]. intros s0 Hs0.
    apply wp_bind, wp_CurrentRun; [intros _; by apply Hpass|done].
  - done.
Qed.

Lemma wp_SafeExecute fuel lambda P s :
  framed P ->
  (forall s, P s -> wp lambda (fun _ => P) P s) -> P s ->
  wp (_SafeExecute fuel lambda) (fun _ => P) (fun _ => False) s.
Proof.
  intros HP. revert lambda s. induction fuel as [|fuel IH]; intros lambda s Hl Hs; [done|].
  cbn [_SafeExecute]. apply wp_try_catch, wp_bind.
  eapply wp_mono; [by apply Hl| |by intros s' ?; apply wp_ret].
  intros a s' Hs'. apply wp_bind. destruct a; [by repeat apply wp_ret|].
  apply (wp_mono _ (fun _ => P) _ P); [|by intros ???; apply wp_ret|by intros ??; apply wp_ret].
  apply wp_FlushToTerminal_with; [done| |done].
  intros l0 s0 Hl0 Hs0. eapply wp_mono; [by apply IH| |]; done.
Qed.

(** The rule for the actions that only run an engine call. *)
Lemma wp_safe fuel lambda Q X s :
  (forall s0, frame s s0 -> wp lambda (fun _ => frame s) (frame s) s0) ->
  (forall s', frame s s' -> Q tt s') ->
  wp (_SafeExecute fuel lambda ;; mret tt) Q X s.
Proof.
  intros Hl HQ. apply wp_bind.
  eapply (wp_mono _ (fun _ => frame s) _ (fun _ => False)); [apply wp_SafeExecute| |done].
  - intros s1 s2 H12 H1. by eapply frame_trans.
  - done.
  - apply frame_refl.
  - intros a s' Hf. apply wp_ret, HQ, Hf.
Qed.

Lemma wp_engine_frame {A} (action : EngineAction E CB A) s0 s :
  frame s0 s -> wp (callEngine action) (fun _ => frame s0) (frame s0) s.
Proof. intros Hf. apply wp_callEngine; intros; by eapply frame_trans. Qed.

(** ** Collecting parameters *)
Definition param_frame s s' : Prop := exists ps po sps rs spo c,
  s' = set_parameters ps (set_parameterLimitOverflowed po (set_subParameters sps
         (set_subParameterRanges rs (set_subParameterLimitOverflowed spo
           (set_subParameterCounter c s))))).

Lemma param_frame_mk s s' ps po sps rs spo c :
  s' = set_parameters ps (set_parameterLimitOverflowed po (set_subParameters sps
         (set_subParameterRanges rs (set_subParameterLimitOverflowed spo
           (set_subParameterCounter c s))))) -> param_frame s s'.
Proof. intros ->. eexists _, _, _, _, _, _. reflexivity. Qed.

Lemma param_frame_trans s1 s2 s3 : param_frame s1 s2 -> param_frame s2 s3 -> param_frame s1 s3.
Proof.
  intros (?&?&?&?&?&?&->) (ps & po & sps & rs & spo & c &->).
  by apply (param_frame_mk _ _ ps po sps rs spo c).
Qed.

(** Closes a [param_frame s (set_... s)] goal: each field of the right-hand side is
    the witness. *)
Ltac solve_param_frame :=
  match goal with
  | |- param_frame ?s ?s' =>
      apply (param_frame_mk s s' (_parameters s') (_parameterLimitOverflowed s')
               (_subParameters s') (_subParameterRanges s') (_subParameterLimitOverflowed s')
               (_subParameterCounter s')); destruct s; reflexivity
  end.

Lemma subParams_bound s :
  registers_ok s -> ranges_wf s -> Z.of_nat (length (_subParameters s)) < 256.
Proof.
  intros [Hc _ _ _] [_ _ Hl Hr _]. apply ranges_ok_bounds in Hr. rewrite Hl in Hr.
  unfold MAX_PARAMETER_COUNT, MAX_SUBPARAMETER_COUNT in *. lia.
Qed.

Lemma pushParameter_ok s :
  registers_ok s -> ranges_wf s -> (length (_parameters s) < MAX_PARAMETER_COUNT)%nat ->
  let s' := pushParameter (set_subParameterLimitOverflowed false (set_subParameterCounter 0 s)) in
  registers_ok s' /\ ranges_wf s'.
Proof.
  intros Hreg Hrng Hlt. pose proof (subParams_bound s Hreg Hrng) as Hb.
  destruct Hreg as [Hc Hk Ho Hosc], Hrng as [Hp Hs Hl Hr Hn].
  unfold pushParameter. cbn. rewrite wrap_small by lia.
  split; split; cbn; rewrite ?length_app; cbn; try done; try lia.
  - apply Forall_app; split; [done|]. repeat constructor; done.
  - by apply ranges_ok_push.
  - rewrite last_range_size_snoc. lia.
Qed.

(** Before the first parameter the counter is 0 and nothing overflowed, so the
    implicit first push resets nothing. *)
Lemma pushFirst_ok s :
  registers_ok s -> ranges_wf s -> _parameters s = [] ->
  registers_ok (pushParameter s) /\ ranges_wf (pushParameter s).
Proof.
  intros Hreg Hrng Hnil. assert (_subParameterCounter s = 0) as Hz.
  { destruct Hrng as [_ _ Hl _ Hn]. rewrite Hnil in Hl. destruct (_subParameterRanges s); done. }
  assert (_subParameterLimitOverflowed s = false) as Hf.
  { destruct (_subParameterLimitOverflowed s) eqn:He; [|done].
    apply (counter_overflow _ Hreg) in He. rewrite Hz in He. done. }
  assert (set_subParameterLimitOverflowed false (set_subParameterCounter 0 s) = s) as Heq.
  { destruct s. cbn in *. by subst. }
  rewrite <- Heq. apply pushParameter_ok; [done..|]. rewrite Hnil. cbn. unfold MAX_PARAMETER_COUNT. lia.
Qed.

Lemma wp_AccumulateTo wch value Q X s :
  _isNumericParamValue wch = true -> 0 <= value <= MAX_PARAMETER_VALUE ->
  (forall v, 0 <= v <= MAX_PARAMETER_VALUE -> Q v s) ->
  wp (_AccumulateTo wch value) Q X s.
Proof.
  unfold _isNumericParamValue, _AccumulateTo, MAX_PARAMETER_VALUE. intros Hw Hv HQ.
  set (v := value * 10 + (wch - 48)) in *. assert (0 <= v <= 655359) by lia.
  destruct (_ || _) eqn:Hov; [lia|]. apply wp_ret. destruct (v >? 65535) eqn:?; apply HQ; lia.
Qed.

Lemma wp_back {A} (v : list A) Q X s :
  v <> [] -> (forall l x, v = l ++ [x] -> Q x s) -> wp (back v) Q X s.
Proof.
  intros Hv HQ. unfold back. destruct (exists_last Hv) as (l & x & ->).
  rewrite last_snoc. by eapply wp_ret, HQ.
Qed.

Lemma value_or_bounds p : param_ok p -> 0 <= VTParameter.value_or p 0 <= MAX_PARAMETER_VALUE.
Proof. unfold param_ok, VTParameter.value_or, MAX_PARAMETER_VALUE. destruct (p <? 0) eqn:?; lia. Qed.

(** The registers after an implicit first parameter. *)
Lemma wp_ensureParameter Q X s :
  registers_ok s -> ranges_wf s ->
  (forall s', registers_ok s' -> ranges_wf s' -> param_frame s s' -> _parameters s' <> [] ->
     _subParameterCounter s' = _subParameterCounter s -> Q tt s') ->
  wp (if bool_decide (_parameters s = []) then modify pushParameter else mret tt) Q X s.
Proof.
  intros Hreg Hrng HQ. case_bool_decide as Hnil.
  - apply wp_modify. destruct (pushFirst_ok s Hreg Hrng Hnil). apply HQ; [done..| | |done].
    + solve_param_frame.
    + unfold pushParameter. cbn. intros Hc. by apply app_eq_nil in Hc as [_ ?].
  - apply wp_ret, HQ; [done..| |done|done]. solve_param_frame.
Qed.

Lemma setParameters_ok s v :
  registers_ok s -> ranges_wf s -> _parameters s <> [] -> 0 <= v <= MAX_PARAMETER_VALUE ->
  registers_ok (set_parameters (set_back v (_parameters s)) s)
  /\ ranges_wf (set_parameters (set_back v (_parameters s)) s).
Proof.
  intros [] [] Hne Hv. split; split; cbn; rewrite ?length_set_back by done; try done.
  apply Forall_set_back; [done|]. unfold param_ok. lia.
Qed.

Lemma wp_ActionParam wch Q X s :
  _isNumericParamValue wch || _isParameterDelimiter wch = true ->
  registers_ok s -> ranges_wf s ->
  (forall s', registers_ok s' -> ranges_wf s' -> param_frame s s' -> Q tt s') ->
  wp (_ActionParam wch) Q X s.
Proof.
  intros Hw Hreg Hrng HQ. unfold _ActionParam. apply wp_bind, wp_gets.
  destruct (_parameterLimitOverflowed s) eqn:Hov.
  { apply wp_ret, HQ; [done..|solve_param_frame]. }
  apply wp_bind, wp_gets, wp_bind, wp_ensureParameter; [done..|].
  clear Hreg Hrng. intros s1 Hreg Hrng Hf Hne _.
  destruct (_isParameterDelimiter wch) eqn:Hd.
  - apply wp_bind, wp_gets. destruct (Nat.leb_spec MAX_PARAMETER_COUNT (length (_parameters s1))).
    + apply wp_modify, HQ; [by destruct Hreg; split..|by destruct Hrng; split|].
      eapply param_frame_trans; [exact Hf|solve_param_frame].
    + apply wp_modify. destruct (pushParameter_ok s1) as [??]; [done..|].
      apply HQ; [done..|]. eapply param_frame_trans; [exact Hf|solve_param_frame].
  - apply wp_bind, wp_gets, wp_bind, wp_back; [done|]. intros l x Hx.
    assert (param_ok x) as Hok.
    { by eapply Forall_snoc_last; [apply (params_values _ Hrng)|]. }
    apply wp_bind, wp_AccumulateTo; [by rewrite orb_false_r in Hw|by apply value_or_bounds|].
    intros v Hv. apply wp_modify. destruct (setParameters_ok s1 v) as [??]; [done..|].
    apply HQ; [done..|]. eapply param_frame_trans; [exact Hf|solve_param_frame].
Qed.

Lemma bumpRange_ok s rs a b :
  registers_ok s -> ranges_wf s -> _subParameterRanges s = rs ++ [(a, b)] ->
  _subParameterCounter s < MAX_SUBPARAMETER_COUNT ->
  let s' := set_subParameterCounter (u8 (_subParameterCounter s + 1))
             (set_subParameterRanges (set_back (a, u8 (b + 1)) (_subParameterRanges s))
               (set_subParameters (_subParameters s ++ [VTParameter.omitted]) s)) in
  registers_ok s' /\ ranges_wf s' /\ 1 <= _subParameterCounter s'.
Proof.
  intros Hreg Hrng Heq Hlt. pose proof (subParams_bound s Hreg Hrng) as Hb.
  destruct Hreg as [Hc Hk Ho Hosc], Hrng as [Hp Hs Hl Hr Hn].
  rewrite Heq in *. rewrite last_range_size_snoc in Hn.
  destruct (ranges_ok_bump 0 rs a b _ Hr) as (Hr' & Hbn & Hab); [lia|].
  assert (b + 1 < 256) as Hb'.
  { apply ranges_ok_bounds in Hr. rewrite Hl in Hr.
    unfold MAX_PARAMETER_COUNT, MAX_SUBPARAMETER_COUNT in *. lia. }
  unfold MAX_SUBPARAMETER_COUNT in *.
  cbn. rewrite !wrap_small by lia. rewrite set_back_snoc.
  split; [|split; [|lia]]; split; cbn; rewrite ?length_app in *; cbn in *; try done; try lia.
  - unfold MAX_SUBPARAMETER_COUNT. lia.
  - intros Hov. apply Ho in Hov. lia.
  - apply Forall_app; split; [done|]. by repeat constructor.
  - by rewrite Nat2Z.inj_add.
  - rewrite last_range_size_snoc. lia.
Qed.

Lemma subParams_nonempty s :
  registers_ok s -> ranges_wf s -> 1 <= _subParameterCounter s -> _subParameters s <> [].
Proof.
  intros _ [_ _ Hl Hr Hn] Hc Hnil. rewrite Hnil in Hr. cbn in Hr.
  destruct (decide (_subParameterRanges s = [])) as [Hrs|Hrs].
  - rewrite Hrs in Hn. unfold last_range_size in Hn. cbn in Hn. lia.
  - destruct (exists_last Hrs) as (rs & [a b] & Heq). rewrite Heq in *. rewrite last_range_size_snoc in Hn.
    pose proof (ranges_ok_lookup 0 _ _ (length rs) a b Hr) as Hlk.
    rewrite lookup_app_r, Nat.sub_diag in Hlk by lia. specialize (Hlk eq_refl). lia.
Qed.

Lemma setSubParameters_ok s v :
  registers_ok s -> ranges_wf s -> _subParameters s <> [] -> 0 <= v <= MAX_PARAMETER_VALUE ->
  registers_ok (set_subParameters (set_back v (_subParameters s)) s)
  /\ ranges_wf (set_subParameters (set_back v (_subParameters s)) s).
Proof.
  intros [] [] Hne Hv. split; split; cbn; rewrite ?length_set_back by done; try done.
  apply Forall_set_back; [done|]. unfold param_ok. lia.
Qed.

Lemma wp_ActionSubParam wch Q X s :
  _isSubParameterDelimiter wch = true
  \/ _isNumericParamValue wch = true /\ 1 <= _subParameterCounter s ->
  registers_ok s -> ranges_wf s ->
  (forall s', registers_ok s' -> ranges_wf s' -> 1 <= _subParameterCounter s' ->
     param_frame s s' -> Q tt s') ->
  wp (_ActionSubParam wch) Q X s.
Proof.
  intros Hw Hreg Hrng HQ. unfold _ActionSubParam. apply wp_bind, wp_gets.
  destruct (_subParameterLimitOverflowed s) eqn:Hov.
  { apply wp_ret, HQ; [done..| |solve_param_frame]. rewrite (counter_overflow _ Hreg Hov). done. }
  apply wp_bind, wp_gets, wp_bind, wp_ensureParameter; [done..|].
  clear Hreg Hrng. intros s1 Hreg Hrng Hf Hne Hcnt. rewrite <- Hcnt in Hw.
  destruct (_isSubParameterDelimiter wch) eqn:Hd.
  - apply wp_bind, wp_gets. destruct (_ >=? _) eqn:Hge.
    + assert (_subParameterCounter s1 = MAX_SUBPARAMETER_COUNT) as Hmax.
      { pose proof (counter_bounds _ Hreg). lia. }
      apply wp_modify, HQ; [by destruct Hreg; split..|by destruct Hrng; split| |].
      * cbn. by rewrite Hmax.
      * eapply param_frame_trans; [exact Hf|solve_param_frame].
    + apply wp_bind, wp_modify, wp_bind, wp_gets, wp_bind, wp_back.
      { cbn. intros Hnil. apply (f_equal length) in Hnil. rewrite (ranges_count _ Hrng) in Hnil.
        by destruct (_parameters s1). }
      intros rs [a b] Hrs. cbn in Hrs. apply wp_bind, wp_modify, wp_modify.
      destruct (bumpRange_ok s1 rs a b Hreg Hrng Hrs) as (?&?&?); [lia|].
      apply HQ; [done..|]. eapply param_frame_trans; [exact Hf|solve_param_frame].
  - destruct Hw as [?|[Hw Hc]]; [done|].
    apply wp_bind, wp_gets, wp_bind, wp_back; [by apply subParams_nonempty|]. intros l x Hx.
    assert (param_ok x) as Hok.
    { by eapply Forall_snoc_last; [apply (subParams_values _ Hrng)|]. }
    apply wp_bind, wp_AccumulateTo; [done|by apply value_or_bounds|].
    intros v Hv. apply wp_modify.
    destruct (setSubParameters_ok s1 v) as [??]; [done..|by apply subParams_nonempty|done|].
    apply HQ; [done..|]. eapply param_frame_trans; [exact Hf|solve_param_frame].
Qed.

(** ** Events *)
Definition same_run s s' : Prop :=
  _currentString s' = _currentString s /\ _runOffset s' = _runOffset s
  /\ _runSize s' = _runSize s /\ _isEngineForInput s' = _isEngineForInput s.

(** After a normal return the state is well formed and the bookkeeping of the
    current run is untouched; after an exception the state is well formed. *)
Definition post s s' : Prop := wf s' /\ same_run s s'.
Definition exc s s' : Prop := wf s' /\ _isEngineForInput s' = _isEngineForInput s.

Context (fuel : nat) (processString : wstring -> M (StateMachine E H CB) unit).
Hypothesis processString_ok : forall string s,
  wf s -> _state s = Ground -> wp (processString string) (fun _ => exc s) (exc s) s.

Lemma registers_clear s : registers_ok (clear s).
Proof. split; cbn; try done; lia. Qed.

Lemma ranges_clear s : ranges_wf (clear s).
Proof. by split. Qed.

Lemma wp_ActionInterrupt Q X s :
  (_state s = DcsPassThrough -> is_Some (_dcsStringHandler s)) ->
  (forall s', frame s s' \/ _state s = DcsPassThrough /\ frame (set_dcsStringHandler None s) s' ->
     Q tt s') ->
  (forall s', frame s s' -> X s') -> wp _ActionInterrupt Q X s.
Proof.
  intros Hh HQ HX. unfold _ActionInterrupt. apply wp_bind, wp_gets. case_bool_decide as Hst.
  - destruct (Hh Hst) as [h Hsome]. unfold dcsStringHandler.
    apply wp_bind, wp_bind, wp_gets. rewrite Hsome.
    apply wp_callEngine; [|done]. intros a s' (e & pm & c & inj & cb & ->). apply wp_modify, HQ.
    right. split; [done|]. by exists e, pm, c, inj, cb.
  - apply wp_ret, HQ. left. apply frame_refl.
Qed.

(** The registers the invariant reads. *)
Definition core s :=
  (_parameters s, _subParameters s, _subParameterRanges s, _subParameterCounter s,
   _subParameterLimitOverflowed s, _oscParameter s, _dcsStringHandler s).

Lemma registers_core s s' : core s' = core s -> registers_ok s -> registers_ok s'.
Proof.
  intros [= Hp Hs Hr Hk Ho Hosc Hh] []. split; by rewrite ?Hp, ?Hs, ?Hk, ?Ho, ?Hosc.
Qed.

Lemma ranges_core s s' : core s' = core s -> ranges_wf s -> ranges_wf s'.
Proof. intros [= Hp Hs Hr Hk Ho Hosc Hh] []. split; by rewrite ?Hp, ?Hs, ?Hr, ?Hk. Qed.

Lemma state_core st s s' : core s' = core s -> state_ok st s -> state_ok st s'.
Proof.
  intros Hc. pose proof (ranges_core s s' Hc) as Hr. injection Hc as Hp _ _ Hk _ _ Hh.
  destruct st; cbn; rewrite ?Hp, ?Hk, ?Hh; auto. intros []; auto.
Qed.

Lemma wf_core s s' : core s' = core s -> _state s' = _state s -> wf s -> wf s'.
Proof.
  intros Hc Hst [Hr Hs]. split; [by eapply registers_core|]. rewrite Hst. by eapply state_core.
Qed.

Lemma core_frame s s' : frame s s' -> core s' = core s /\ _state s' = _state s.
Proof. by intros (?&?&?&?&?&->). Qed.

Lemma wf_frame s s' : frame s s' -> wf s -> wf s'.
Proof. intros [??]%core_frame. by apply wf_core. Qed.

Lemma run_frame s s' : frame s s' -> same_run s s'.
Proof. by intros (?&?&?&?&?&->). Qed.

(** What follows from a frame, without keeping the engine call's changes in view. *)
Lemma frame_facts s s' :
  frame s s' -> core s' = core s /\ _state s' = _state s /\ same_run s s'.
Proof. by intros (?&?&?&?&?&->). Qed.

Lemma param_frame_facts s s' : param_frame s s' -> _state s' = _state s /\ same_run s s'.
Proof. by intros (?&?&?&?&?&?&->). Qed.

Lemma same_run_trans s1 s2 s3 : same_run s1 s2 -> same_run s2 s3 -> same_run s1 s3.
Proof. unfold same_run. intuition congruence. Qed.

Lemma wp_ActionDcsDispatch wch Q X s :
  registers_ok s -> (forall s', post s s' -> Q tt s') ->
  wp (_ActionDcsDispatch fuel wch) Q X s.
Proof.
  intros Hreg HQ. unfold _ActionDcsDispatch. apply wp_bind.
  apply (wp_mono _ (fun _ s' => exists h, frame (set_dcsStringHandler h s) s') _ (fun _ => False)).
  - apply (wp_SafeExecute _ _ (fun s' => exists h, frame (set_dcsStringHandler h s) s')).
    + intros s1 s2 Hf [h Hh]. exists h. by eapply frame_trans.
    + intros s1 [h Hh]. wp_steps. apply wp_callEngine.
      * intros a s2 Hs2. wp_steps. exists a.
        destruct Hh as (?&?&?&?&?&->), Hs2 as (e & pm & c & inj & cb & ->).
        by exists e, pm, c, inj, cb.
      * intros s2 Hs2. exists h. by eapply frame_trans.
    + exists (_dcsStringHandler s). destruct s; apply frame_refl.
  - intros a s' [h Hh]. apply wp_bind, wp_gets.
    assert (_dcsStringHandler s' = h) as -> by (by destruct Hh as (?&?&?&?&?&->)).
    assert (registers_ok s' /\ same_run s s' /\ _dcsStringHandler s' = h) as (Hreg' & Hrun & Hh').
    { destruct Hh as (?&?&?&?&?&->). by destruct Hreg. }
    destruct h as [h|]; unfold _EnterDcsPassThrough, _EnterDcsIgnore; wp_steps; apply HQ;
      (split; [split; [by eapply registers_core; [|exact Hreg']|]|done]); [|done].
    by exists h.
  - done.
Qed.

Lemma wp_Callback Q X s :
  wf s -> _state s = Ground ->
  (forall s', post s s' -> Q tt s') -> (forall s', exc s s' -> X s') ->
  wp (_ExecuteCsiCompleteCallback processString) Q X s.
Proof.
  intros Hwf Hst HQ HX. unfold _ExecuteCsiCompleteCallback. apply wp_bind, wp_gets.
  destruct (_onCsiCompleteCallback s) as [cb|]; [|by apply wp_ret, HQ].
  apply wp_bind, wp_gets, wp_bind, wp_gets, wp_bind, wp_gets, wp_bind, wp_modify, wp_bind.
  set (s0 := set_onCsiCompleteCallback None s).
  assert (forall s', exc s s' -> wp (modify (set_currentString (_currentString s)) ;;
    modify (set_runOffset (_runOffset s)) ;; modify (set_runSize (_runSize s))) Q X s') as Hrest.
  { intros s' [Hwf' Hi]. wp_steps. apply HQ. split; [|by repeat split; try apply Hi].
    by eapply wf_core; [| |exact Hwf']. }
  assert (forall s' s'', frame s' s'' -> exc s s' -> exc s s'') as Hfr.
  { intros s' s'' Hf [? Hi]. split; [by eapply wf_frame|].
    destruct (run_frame _ _ Hf) as (?&?&?&->). done. }
  assert (exc s s0) as H0 by (split; [by eapply wf_core; [| |exact Hwf]|done]).
  unfold runCallback. unfold wp at 1. destruct (Callback_call cb (_engine s0)) as [e [str|]].
  - pose proof (processString_ok str (set_engine e s0)) as Hps.
    assert (exc s (set_engine e s0)) as [H1 Hi1] by (eapply Hfr; [apply set_engine_frame|done]).
    specialize (Hps H1 Hst). unfold wp in Hps. destruct (processString str _) as [s2 o].
    assert (forall s2, exc (set_engine e s0) s2 ->
      exc s (set_engine (Callback_exit cb (_engine s2)) s2)) as Hexit.
    { intros s3 H3. eapply Hfr; [apply set_engine_frame|]. destruct H3 as [? Hi3].
      split; [done|]. by rewrite Hi3. }
    destruct o; try done; [apply Hrest|apply HX]; by apply Hexit.
  - apply Hrest. eapply Hfr; [apply set_engine_frame|done].
Qed.

Lemma same_run_refl s : same_run s s.
Proof. done. Qed.

Lemma post_frame s s' : wf s -> frame s s' -> post s s'.
Proof. intros Hwf Hf. split; [by eapply wf_frame|by apply frame_facts]. Qed.

Lemma post_ground s s' : registers_ok s -> frame s s' -> post s (enterGround s').
Proof.
  intros Hreg (Hc & Hst & Hrun)%frame_facts. split; [split; [|done]|done].
  apply (registers_core s'); [done|]. by apply (registers_core s).
Qed.

Lemma exc_trans s1 s2 s3 : same_run s1 s2 -> exc s2 s3 -> exc s1 s3.
Proof. intros (?&?&?&Hi) [Hwf Hi']. split; [done|]. congruence. Qed.

(** The state is entered through a modification that leaves the registers alone. *)
Lemma post_enter s s1 s' :
  registers_ok s1 -> core s' = core s1 -> state_ok (_state s') s1 -> same_run s s1 ->
  same_run s1 s' -> post s s'.
Proof.
  intros Hreg Hc Hst ??. split; [split|by eapply same_run_trans].
  - by eapply registers_core.
  - by eapply state_core.
Qed.

(** The end of every dispatched control sequence. *)
Lemma wp_Callback_ground s s' :
  registers_ok s -> frame s s' ->
  wp (_ExecuteCsiCompleteCallback processString) (fun _ => post s) (exc s) (enterGround s').
Proof.
  intros Hreg Hf. destruct (post_ground s s' Hreg Hf) as [Hwf Hrun].
  apply wp_Callback; [done..| |].
  - intros s'' [Hwf' Hrun']. split; [done|]. by eapply same_run_trans.
  - intros s'' Hx. by eapply exc_trans.
Qed.

(** Steps through an event: the rules above for the actions, then the effect of
    the state change; the remaining goals are about the invariant of the new
    state. *)
Ltac ev_action :=
  lazymatch goal with
  | |- wp _ActionIgnore _ _ _ => unfold _ActionIgnore
  | |- wp (_ActionOscPut _) _ _ _ => unfold _ActionOscPut
  | |- wp (_ActionCollect _) _ _ _ => unfold _ActionCollect
  | |- wp (_ActionDcsDispatch _ _) _ _ _ => apply wp_ActionDcsDispatch; [done|by auto]
  | |- wp (_ActionParam _) _ _ _ =>
      apply wp_ActionParam; [first [done|apply orb_true_intro; by auto]|done|done|];
      intros ? ?Hreg ?Hrng [?Hst ?Hrun]%param_frame_facts
  | |- wp (_ActionSubParam _) _ _ _ =>
      apply wp_ActionSubParam;
      [first [by left|match goal with Hb : _ || _ = true |- _ => apply orb_true_iff in Hb as []; by auto end]
      |done|done|];
      intros ? ?Hreg ?Hrng ?Hcnt [?Hst ?Hrun]%param_frame_facts
  | |- wp (_ExecuteCsiCompleteCallback _) _ _ _ => by apply wp_Callback_ground
  | |- wp _ _ _ _ =>
      first
      [ progress unfold _EnterGround, _EnterEscape, _EnterEscapeIntermediate, _EnterCsiEntry,
          _EnterCsiParam, _EnterCsiSubParam, _EnterCsiIgnore, _EnterCsiIntermediate,
          _EnterOscParam, _EnterOscString, _EnterOscTermination, _EnterSs3Entry, _EnterSs3Param,
          _EnterVt52Param, _EnterDcsEntry, _EnterDcsParam, _EnterDcsIgnore,
          _EnterDcsIntermediate, _EnterSosPmApcString, _ActionClear
      | unfold _ActionExecute, _ActionExecuteFromEscape, _ActionPrint, _ActionEscDispatch,
          _ActionVt52EscDispatch, _ActionCsiDispatch, _ActionOscDispatch, _ActionSs3Dispatch,
          _ActionPrintString;
        apply wp_safe; [intros; wp_steps; by apply wp_engine_frame|intros ? ?Hf] ]
  end; cbv beta.
Ltac ev_finish :=
  lazymatch goal with
  | Hwf : wf ?s |- post ?s ?s => by apply post_frame, frame_refl
  | Hf : frame ?s ?s' |- post ?s ?s' => by apply post_frame
  | Hf : frame ?s ?s' |- post ?s (enterGround ?s') => by apply post_ground
  | Hrun : same_run ?s ?s1 |- post ?s ?s' => apply (post_enter s s1 s')
  | |- post ?s (clear ?s') =>
      apply (post_enter s (clear s') _ (registers_clear s')); [done| |done|done]
  | |- post ?s ?s' => apply (post_enter s s s')
  end; auto using same_run_refl; try done;
  try (cbn; repeat match goal with Hst : _state _ = _ |- _ => rewrite Hst end; done).
Ltac ev_start :=
  let Hreg := fresh "Hreg" in let Hs := fresh "Hs" in let Hst := fresh "Hst" in
  intros Hwf Hst; pose proof Hwf as [Hreg Hs]; rewrite Hst in Hs; cbn in Hs.
Ltac ev := repeat first [wp_step | progress ev_action]; try ev_finish.

Lemma wp_EventGround wch s :
  wf s -> _state s = Ground -> wp (_EventGround fuel wch) (fun _ => post s) (exc s) s.
Proof. ev_start. unfold _EventGround. ev. Qed.

Lemma wp_EventEscape wch s :
  wf s -> _state s = Escape -> wp (_EventEscape fuel wch) (fun _ => post s) (exc s) s.
Proof. ev_start. unfold _EventEscape. ev. cbn. rewrite Hs. cbn. lia. Qed.

Lemma wp_EventEscapeIntermediate wch s :
  wf s -> _state s = EscapeIntermediate -> wp (_EventEscapeIntermediate fuel wch) (fun _ => post s) (exc s) s.
Proof. ev_start. unfold _EventEscapeIntermediate. ev. cbn. rewrite Hs. cbn. lia. Qed.

Lemma wp_EventCsiEntry wch s :
  wf s -> _state s = CsiEntry -> wp (_EventCsiEntry fuel processString wch) (fun _ => post s) (exc s) s.
Proof. ev_start. unfold _EventCsiEntry. ev. Qed.

Lemma wp_EventCsiIntermediate wch s :
  wf s -> _state s = CsiIntermediate -> wp (_EventCsiIntermediate fuel processString wch) (fun _ => post s) (exc s) s.
Proof. ev_start. unfold _EventCsiIntermediate. ev. Qed.

Lemma wp_EventCsiIgnore wch s :
  wf s -> _state s = CsiIgnore -> wp (_EventCsiIgnore fuel wch) (fun _ => post s) (exc s) s.
Proof. ev_start. unfold _EventCsiIgnore. ev. Qed.

Lemma wp_EventCsiParam wch s :
  wf s -> _state s = CsiParam -> wp (_EventCsiParam fuel processString wch) (fun _ => post s) (exc s) s.
Proof. ev_start. unfold _EventCsiParam. ev. Qed.

Lemma wp_EventCsiSubParam wch s :
  wf s -> _state s = CsiSubParam -> wp (_EventCsiSubParam fuel processString wch) (fun _ => post s) (exc s) s.
Proof. ev_start. destruct Hs as [Hrng Hc]. unfold _EventCsiSubParam. ev. Qed.

Lemma wp_EventOscParam wch s :
  wf s -> _state s = OscParam -> wp (_EventOscParam fuel wch) (fun _ => post s) (exc s) s.
Proof.
  ev_start. unfold _EventOscParam. ev. unfold _ActionOscParam. wp_steps.
  apply wp_AccumulateTo; [done|apply Hreg|]. intros v Hv. wp_steps.
  split; [split|by repeat split]; [by destruct Hreg; split|]. cbn. by rewrite Hst.
Qed.

Lemma wp_EventOscString wch s :
  wf s -> _state s = OscString -> wp (_EventOscString fuel wch) (fun _ => post s) (exc s) s.
Proof. ev_start. unfold _EventOscString. ev. Qed.

Lemma wp_EventOscTermination wch s :
  wf s -> _state s = OscTermination -> wp (_EventOscTermination fuel wch) (fun _ => post s) (exc s) s.
Proof.
  ev_start. unfold _EventOscTermination. ev.
  eapply wp_mono; [apply wp_EventEscape; [by split; [apply registers_clear|]|done]| |].
  - intros _ s' [Hwf' Hrun]. by split.
  - intros s' [Hwf' Hi]. by split.
Qed.

Lemma wp_EventSs3Entry wch s :
  wf s -> _state s = Ss3Entry -> wp (_EventSs3Entry fuel wch) (fun _ => post s) (exc s) s.
Proof. ev_start. unfold _EventSs3Entry. ev. Qed.

Lemma wp_EventSs3Param wch s :
  wf s -> _state s = Ss3Param -> wp (_EventSs3Param fuel wch) (fun _ => post s) (exc s) s.
Proof. ev_start. unfold _EventSs3Param. ev. Qed.

Lemma wp_EventVt52Param wch s :
  wf s -> _state s = Vt52Param -> wp (_EventVt52Param fuel wch) (fun _ => post s) (exc s) s.
Proof.
  ev_start. unfold _EventVt52Param. wp_step; [ev|]. wp_step; [ev|].
  wp_step. wp_step. wp_step. wp_step.
  set (s1 := set_parameters (_parameters s ++ [wch]) s) in *.
  assert (registers_ok s1) as Hreg1.
  { destruct Hreg. split; [|done..]. cbn. rewrite length_app. cbn. unfold MAX_PARAMETER_COUNT. lia. }
  assert (same_run s s1 /\ _state s1 = Vt52Param /\ (length (_parameters s1) <= 2)%nat)
    as (Hrun & Hst1 & Hlen).
  { split; [done|split; [done|]]. cbn. rewrite length_app. cbn. lia. }
  clearbody s1. wp_step.
  - repeat first [wp_step | progress ev_action].
    destruct (post_ground s1 _ Hreg1 Hf) as [??]. split; [done|]. by eapply same_run_trans.
  - apply wp_ret. split; [split; [done|]|done]. rewrite Hst1. cbn.
    apply Nat.eqb_neq in Heqb1. lia.
Qed.

Lemma wp_EventDcsEntry wch s :
  wf s -> _state s = DcsEntry -> wp (_EventDcsEntry fuel wch) (fun _ => post s) (exc s) s.
Proof. ev_start. unfold _EventDcsEntry. ev. Qed.

Lemma wp_EventDcsIntermediate wch s :
  wf s -> _state s = DcsIntermediate -> wp (_EventDcsIntermediate fuel wch) (fun _ => post s) (exc s) s.
Proof. ev_start. unfold _EventDcsIntermediate. ev. Qed.

Lemma wp_EventDcsParam wch s :
  wf s -> _state s = DcsParam -> wp (_EventDcsParam fuel wch) (fun _ => post s) (exc s) s.
Proof. ev_start. unfold _EventDcsParam. ev. Qed.

Lemma wp_EventDcsPassThrough wch s :
  wf s -> _state s = DcsPassThrough -> wp (_EventDcsPassThrough wch) (fun _ => post s) (exc s) s.
Proof.
  ev_start. destruct Hs as [h Hh]. unfold _EventDcsPassThrough, dcsStringHandler.
  wp_step; [|ev]. wp_step. wp_step. wp_step. rewrite Hh.
  apply wp_callEngine.
  - intros more s' Hf. destruct (post_frame _ _ Hwf Hf) as [Hwf' Hrun].
    destruct more; [by apply wp_ret|]. destruct Hwf' as [Hreg' _]. ev.
  - intros s' Hf. destruct (post_frame _ _ Hwf Hf) as [Hwf' (?&?&?&?)]. done.
Qed.

Lemma wp_dispatchEvent wch s :
  wf s -> wp (dispatchEvent fuel processString (_state s) wch) (fun _ => post s) (exc s) s.
Proof.
  intros Hwf. destruct (_state s) eqn:Hst; cbn [dispatchEvent];
    first [ by apply wp_EventGround | by apply wp_EventEscape
          | by apply wp_EventEscapeIntermediate | by apply wp_EventCsiEntry
          | by apply wp_EventCsiIntermediate | by apply wp_EventCsiIgnore
          | by apply wp_EventCsiParam | by apply wp_EventCsiSubParam | by apply wp_EventOscParam
          | by apply wp_EventOscString | by apply wp_EventOscTermination
          | by apply wp_EventSs3Entry | by apply wp_EventSs3Param | by apply wp_EventVt52Param
          | by apply wp_EventDcsEntry | by apply wp_EventDcsIntermediate
          | by apply wp_EventDcsParam | by apply wp_EventDcsPassThrough
          | by apply wp_ret, post_frame, frame_refl ].
Qed.

Lemma wf_handler s : wf s -> _state s = DcsPassThrough -> is_Some (_dcsStringHandler s).
Proof. intros [_ Hs] Hst. by rewrite Hst in Hs. Qed.

(** The registers survive an interrupt, which may drop the DCS handler. *)
Lemma wp_Interrupt s Q :
  wf s -> (forall s', registers_ok s' -> same_run s s' -> Q tt s') ->
  wp _ActionInterrupt Q (exc s) s.
Proof.
  intros Hwf HQ. apply wp_ActionInterrupt; [by apply wf_handler| |].
  - intros s' [Hf|[_ Hf]]; destruct (frame_facts _ _ Hf) as (Hc & _ & Hrun); apply HQ; try done.
    + apply (registers_core s); [done|apply Hwf].
    + apply (registers_core (set_dcsStringHandler None s)); [done|].
      by destruct Hwf as [[] _]; split.
  - intros s' Hf. destruct (post_frame _ _ Hwf Hf) as [? (?&?&?&?)]. done.
Qed.

Lemma wp_ProcessCharacter_rec levels wch s :
  wf s -> wp (ProcessCharacter_rec fuel processString levels wch) (fun _ => post s) (exc s) s.
Proof.
  revert wch s. induction levels as [|levels IH]; intros wch s Hwf; [done|].
  cbn [ProcessCharacter_rec]. wp_step. wp_step. wp_step. wp_step. wp_step.
  - wp_step. apply wp_Interrupt; [done|]. intros s1 Hreg Hrun. wp_step.
    ev_action. ev_action. wp_step. destruct (post_ground s1 s' Hreg Hf) as [??].
    split; [done|]. by eapply same_run_trans.
  - wp_step.
    + wp_step. wp_step. wp_step; [|by apply wp_ret, post_frame, frame_refl].
      wp_step. eapply wp_mono; [by apply IH| |done].
      intros _ s1 [Hwf1 Hrun1]. eapply wp_mono; [by apply IH| |].
      * intros _ s2 [Hwf2 Hrun2]. split; [done|]. by eapply same_run_trans.
      * intros s2 Hx. by eapply exc_trans.
    + wp_step; [|by apply wp_dispatchEvent]. wp_step. apply wp_Interrupt; [done|].
      intros s1 Hreg Hrun. unfold _EnterEscape, _ActionClear. wp_steps.
      split; [split; [apply registers_clear|done]|by eapply same_run_trans].
Qed.

Lemma wp_ProcessCharacter wch s :
  wf s -> wp (ProcessCharacter fuel processString wch) (fun _ => post s) (exc s) s.
Proof. apply wp_ProcessCharacter_rec. Qed.

(** ** The string loop *)

(** The run inside the string: [_CurrentRun] is what has been consumed since the
    last ground state. *)
Definition run_at (string : wstring) (i : nat) (input : bool) s : Prop :=
  wf s /\ _currentString s = string /\ (_runOffset s + _runSize s = i)%nat
  /\ _isEngineForInput s = input.

(** At the end of the loop either the machine is in the ground state, or the
    run reaches the end of the string and, unless the string was empty, is not
    empty. *)
Definition loop_done (string : wstring) (input : bool) s : Prop :=
  wf s /\ _isEngineForInput s = input /\
  (_state s = Ground \/
   _currentString s = string /\ (_runOffset s + _runSize s = length string)%nat
   /\ (string = [] \/ (1 <= _runSize s)%nat)).

Lemma wp_vtLoop string rest i input s :
  rest <> [] -> (i + length rest)%nat = length string -> run_at string i input s ->
  wp (vtLoop fuel processString (length string) rest i)
    (fun i' s' => (i < i' <= length string)%nat /\ run_at string i' input s'
                  /\ (_state s' = Ground \/ i' = length string /\ (1 <= _runSize s')%nat))
    (fun s' => wf s' /\ _isEngineForInput s' = input) s.
Proof.
  revert i s. induction rest as [|c rest IH]; intros i s Hne Hlen (Hwf & Hstr & Hrun & Hin); [done|].
  cbn [vtLoop length] in *. wp_step. wp_step. wp_step. wp_step. wp_step.
  set (s1 := set_processingLastCharacter _ _).
  assert (wf s1) as Hwf1 by (by eapply wf_core; [| |exact Hwf]).
  eapply wp_mono; [by apply wp_ProcessCharacter| |].
  - intros _ s2 [Hwf2 (Hs2 & Ho2 & Hz2 & Hi2)]. cbn in Hs2, Ho2, Hz2, Hi2.
    assert (run_at string (S i) input s2) as Hat.
    { split; [done|]. split; [congruence|]. split; [lia|congruence]. }
    wp_step. wp_step. destruct (_ && _) eqn:Hcond.
    + apply andb_true_iff in Hcond as [Hlt _]. apply Nat.ltb_lt in Hlt.
      eapply wp_mono; [apply IH; [|lia|done]| |done].
      * intros ->. cbn in Hlen. lia.
      * intros i' s3 (?&?&?). split; [lia|done].
    + apply wp_ret. split; [lia|]. split; [done|].
      apply andb_false_iff in Hcond as [Hge|Hg].
      * apply Nat.ltb_ge in Hge. right. lia.
      * apply negb_false_iff, bool_decide_eq_true in Hg. by left.
  - intros s2 [Hwf2 Hi2]. split; [done|]. by rewrite Hi2.
Qed.

Lemma wp_printRun string i input s :
  (i <= length string)%nat -> wf s -> _currentString s = string -> _isEngineForInput s = input ->
  wp (printRun fuel string i)
    (fun i' s' => (i <= i' <= length string)%nat /\ run_at string i' input s'
                  /\ _state s' = _state s)
    (fun s' => wf s' /\ _isEngineForInput s' = input) s.
Proof.
  intros Hi Hwf Hstr Hin. unfold printRun.
  pose proof (FindActionable.FindActionable_le (drop i string)) as Hle. rewrite length_drop in Hle.
  set (n := FindActionable.FindActionableControlCharacter _) in *. clearbody n.
  wp_step. wp_step. wp_step. wp_step. wp_step. wp_step.
  set (s1 := set_runSize n (set_runOffset i s)).
  assert (wf s1) as Hwf1 by (by eapply wf_core; [| |exact Hwf]).
  change (_runSize s1) with n. wp_step; [|wp_step; apply wp_CurrentRun].
  - apply Nat.eqb_eq in Heqb. wp_step. split; [lia|]. split; [|done]. split; [done|]. cbn. split; [done|]. split; [lia|done].
  - intros _. wp_step. ev_action. destruct (frame_facts _ _ Hf) as (_ & Hst2 & _).
    destruct (post_frame _ _ Hwf1 Hf) as [Hwf2 (Hs2&Ho2&Hz2&Hi2)].
    cbn in Hs2, Ho2, Hz2, Hi2. wp_steps. rewrite Hz2. split; [lia|]. split; [|done].
    split; [by eapply wf_core; [| |exact Hwf2]|]. cbn. split; [congruence|]. split; [lia|congruence].
  - done.
Qed.

Lemma wp_stringLoop iterations string (vtStart : bool) i input s :
  run_at string i input s -> (i <= length string)%nat ->
  (if vtStart then i = 0%nat
   else _state s = Ground \/ i = length string /\ (1 <= _runSize s)%nat) ->
  wp (stringLoop fuel processString iterations string vtStart i)
    (fun _ => loop_done string input) (fun s' => wf s' /\ _isEngineForInput s' = input) s.
Proof.
  revert vtStart i s. induction iterations as [|iterations IH]; intros vtStart i s Hat Hi Hpre; [done|].
  cbn [stringLoop]. destruct (negb vtStart && _) eqn:Hend.
  { apply wp_ret. destruct vtStart; [done|]. apply Nat.leb_le in Hend.
    destruct Hat as (Hwf & Hstr & Hrun & Hin). split; [done|]. split; [done|].
    destruct Hpre as [Hg|[-> Hsz]]; [by left|]. right. auto. }
  apply wp_bind.
  apply (wp_mono _ (fun i' s' => (i' <= length string)%nat /\ run_at string i' input s'
                      /\ (_state s' = Ground \/ i' = 0%nat)) _
                   (fun s' => wf s' /\ _isEngineForInput s' = input)); [| |done].
  { destruct vtStart; [apply wp_ret; auto|].
    apply Nat.leb_gt in Hend. destruct Hpre as [Hg|[-> _]]; [|lia].
    destruct Hat as (Hwf & Hstr & Hrun & Hin).
    eapply wp_mono; [by apply wp_printRun| |done].
    intros i' s' (Hb & Hat' & Hst'). split; [lia|]. split; [done|]. left. congruence. }
  clear s vtStart Hat Hpre Hend i Hi. intros i s (Hi & Hat & Hg).
  destruct (Nat.leb_spec (length string) i) as [Hle|Hlt].
  { apply wp_ret. destruct Hat as (Hwf & Hstr & Hrun & Hin). split; [done|]. split; [done|].
    destruct Hg as [Hg|Hz]; [by left|]. right. split; [done|]. split; [lia|].
    left. destruct string; [done|cbn in Hle; lia]. }
  apply wp_bind. eapply wp_mono; [apply wp_vtLoop; [| |exact Hat]| |done].
  - intros Hnil. apply (f_equal length) in Hnil. rewrite length_drop in Hnil. cbn in Hnil. lia.
  - rewrite length_drop. lia.
  - intros i' s' (Hb & Hat' & Hst'). apply IH; [done|lia|]. cbn. done.
Qed.

Lemma exc_ground s s1 s' :
  registers_ok s1 -> _isEngineForInput s1 = _isEngineForInput s -> frame s1 s' ->
  exc s (enterGround s').
Proof.
  intros Hreg Hi Hf. destruct (post_ground s1 s' Hreg Hf) as [? (_&_&_&Hi')].
  split; [done|]. congruence.
Qed.

(** The end of a string reads the first character of an empty run in one case only: an empty string for the
    input side in the middle of a sequence, before any win32 sequence. *)
Definition front_of_empty (string : wstring) s : Prop :=
  _isEngineForInput s = true /\ string = [] /\ _state s <> Ground /\ EncounteredWin32InputModeSequence (_engine s) = false.

Lemma wp_endOfString string s :
  loop_done string (_isEngineForInput s) s ->
  ~ front_of_empty string s ->
  wp (endOfString fuel) (fun _ => exc s) (exc s) s.
Proof.
  intros (Hwf & _ & Hdone) Hempty. unfold endOfString. wp_step. wp_step.
  case_bool_decide as Hg; [by apply wp_ret|].
  destruct Hdone as [?|(Hstr & Hlen & Hsz)]; [done|].
  wp_step. apply wp_CurrentRun; [intros Hoff|done].
  set (run := take _ _). assert (length run = _runSize s) as Hrun.
  { unfold run. rewrite length_take, length_drop, Hstr. lia. }
  wp_step. wp_step. wp_step.
  apply (wp_mono _ (fun _ => exc s) _ (exc s)); [| |done].
  - destruct (_isEngineForInput s) eqn:Hin; [|by apply wp_ret].
    wp_step. wp_step. destruct (_ && _) eqn:Hcond; [|by apply wp_ret].
    assert (run <> []) as Hne.
    { intros Hnil. apply (f_equal length) in Hnil. cbn in Hnil.
      destruct Hsz as [Hz|Hz]; [|lia]. apply andb_true_iff in Hcond as [Hw%negb_true_iff _]. by destruct Hempty. }
    destruct (exists_last Hne) as (l & x & Hl). rewrite Hl, last_snoc. clear Hl.
    destruct (head (l ++ [x])) as [front|] eqn:Hhd; [|by destruct l].
    destruct (front =? 27); [|by apply wp_ret].
    repeat first [wp_step | progress ev_action]; (eapply exc_ground; [| |exact Hf]); try done.
    + by apply (registers_core s), Hwf.
    + apply registers_clear.
  - intros cache s' [Hwf' Hi]. destruct cache; [|by apply wp_ret]. apply wp_modify.
    split; [by eapply wf_core; [| |exact Hwf']|done].
Qed.

Lemma wp_ProcessString_with string s :
  wf s -> ~ front_of_empty string s ->
  wp (ProcessString_with fuel processString string) (fun _ => exc s) (exc s) s.
Proof.
  intros Hwf Hempty. unfold ProcessString_with. wp_step. wp_step.
  set (s0 := set_injections [] _).
  assert (wf s0) as Hwf0 by (by eapply wf_core; [| |exact Hwf]).
  wp_step. wp_step. wp_step.
  destruct string as [|c string'] eqn:Hstring.
  - assert (loop_done [] (_isEngineForInput s0) s0) as Hdone.
    { split; [done|]. split; [done|]. right. auto. }
    apply (wp_mono _ (fun _ s' => s' = s0) _ (exc s)); [| |done].
    + cbn. by destruct (bool_decide _).
    + intros _ ? ->. by eapply wp_mono; [apply (wp_endOfString [] s0)| |].
  - rewrite <- Hstring in *. eapply wp_mono; [apply wp_stringLoop| |done].
    + split; [exact Hwf0|]. done.
    + lia.
    + case_bool_decide; [by left|done].
    + intros _ s' (Hwf' & Hi & Hrest). eapply wp_mono; [apply (wp_endOfString string)| |].
      * by rewrite Hi.
      * intros (_ & Hnil & _). by rewrite Hstring in Hnil.
      * intros _ s'' [? Hi']. split; [done|]. congruence.
      * intros s'' [? Hi']. split; [done|]. congruence.
Qed.

End Invariant.

Section Entry.
Context {E H CB : Type} {engine : IStateMachineEngine E H CB}.
Implicit Types (s : StateMachine E H CB).

Lemma wp_ProcessString fuel depth string s :
  wf s -> ~ front_of_empty string s ->
  wp (ProcessString fuel depth string) (fun _ => exc s) (exc s) s.
Proof.
  revert string s. induction depth as [|depth IH]; intros string s Hwf Hempty; [done|].
  cbn [ProcessString]. apply wp_ProcessString_with; [|done..].
  intros string' s' Hwf' Hg. apply IH; [done|]. by intros (_ & _ & ? & _).
Qed.

Lemma wf_ctor e input offset size lastCharacter :
  wf (StateMachine_ctor e input offset size lastCharacter : StateMachine E H CB).
Proof. by split; [apply registers_clear|]. Qed.

End Entry.
