(* ===== verification/StateMachineTotal.v ===== *)
(** * Termination of the parser

    The recursions of the parser that are not structural all end: the mutual
    recursion of [_SafeExecute] and [FlushToTerminal], the C1 recursion of
    [ProcessCharacter], the [while] loop of [ProcessString], and the re-entrance
    of [ProcessString] through CSI-complete callbacks. The hypotheses on the
    engine are collected in [BoundedEngine]: it accepts pass-through strings, and
    it lets callbacks feed strings back only [room] levels deep. *)
From S2P Require Import Prelude DispatchTypes VtUtils StateMachine.

Section Bounded.
Context {E H CB : Type} {engine : IStateMachineEngine E H CB}.

(** An action that does not change how deep callbacks may still nest. *)
Definition keeps {A} (room : E -> nat) (action : EngineAction E CB A) : Prop :=
  forall v e, room (action v e).1.1 = room e.

Class BoundedEngine (room : E -> nat) : Prop := {
  passThrough_accepted : forall string v e,
    (ActionPassThroughString string v e).2 <> Returned false;
  keeps_UnknownSequence : forall e, room (UnknownSequence e) = room e;
  keeps_Execute : forall wch, keeps room (ActionExecute wch);
  keeps_ExecuteFromEscape : forall wch, keeps room (ActionExecuteFromEscape wch);
  keeps_Print : forall wch, keeps room (ActionPrint wch);
  keeps_PrintString : forall string, keeps room (ActionPrintString string);
  keeps_PassThroughString : forall string, keeps room (ActionPassThroughString string);
  keeps_EscDispatch : forall id, keeps room (ActionEscDispatch id);
  keeps_Vt52EscDispatch : forall id params, keeps room (ActionVt52EscDispatch id params);
  keeps_CsiDispatch : forall id params, keeps room (ActionCsiDispatch id params);
  keeps_DcsDispatch : forall id params, keeps room (ActionDcsDispatch id params);
  keeps_OscDispatch : forall param string, keeps room (ActionOscDispatch param string);
  keeps_Ss3Dispatch : forall wch params, keeps room (ActionSs3Dispatch wch params);
  keeps_StringHandler : forall h wch, keeps room (StringHandler_call h wch);
  callback_idle : forall cb e e', Callback_call cb e = (e', None) -> room e' = room e;
  callback_nests : forall cb e e' string,
    Callback_call cb e = (e', Some string) -> room e = S (room e');
  callback_unnests : forall cb e, room (Callback_exit cb e) = S (room e)
}.

Context (room : E -> nat) {bounded : BoundedEngine room}.
Implicit Types (s : StateMachine E H CB).

(** [tot r m P]: from a state with [r] levels of nesting left, [m] does not run
    out of fuel and leaves [r] levels; a value it returns satisfies [P]. *)
Definition tot {A} (r : nat) (m : M (StateMachine E H CB) A) (P : A -> Prop) : Prop :=
  forall s, room (_engine s) = r ->
  match m s with
  | (s', Ret a) => P a /\ room (_engine s') = r
  | (s', Throw) | (s', UB) => room (_engine s') = r
  | (_, OutOfFuel) => False
  end.

Definition any {A} (_ : A) : Prop := True.

Lemma tot_ret {A} r (a : A) (P : A -> Prop) : P a -> tot r (mret a) P.
Proof. by intros HP s. Qed.

Lemma tot_bind {A B} r (m : M _ A) (f : A -> M _ B) P Q :
  tot r m P -> (forall a, P a -> tot r (f a) Q) -> tot r (mbind f m) Q.
Proof.
  intros Hm Hf s Hs. specialize (Hm s Hs). unfold mbind, M_bind.
  destruct (m s) as [s' [a| | |]]; [|done..]. destruct Hm. by apply Hf.
Qed.

Lemma tot_gets {A} r (f : StateMachine E H CB -> A) : tot r (gets f) any.
Proof. by intros s Hs. Qed.

Lemma tot_modify r f :
  (forall s, room (_engine (f s)) = room (_engine s)) -> tot r (modify f) any.
Proof. intros Hf s Hs. cbn. by rewrite Hf. Qed.

Lemma tot_throw {A} r (P : A -> Prop) : tot r throw P.
Proof. by intros s Hs. Qed.

Lemma tot_ub {A} r (P : A -> Prop) : tot r ub P.
Proof. by intros s Hs. Qed.

Lemma tot_weaken {A} r (m : M _ A) (P Q : A -> Prop) :
  tot r m P -> (forall a, P a -> Q a) -> tot r m Q.
Proof. intros Hm HPQ s Hs. specialize (Hm s Hs). destruct (m s) as [s' []]; [|done..]. destruct Hm. auto. Qed.

Lemma tot_try {A} r (m h : M _ A) P : tot r m P -> tot r h P -> tot r (try_catch m h) P.
Proof.
  intros Hm Hh s Hs. specialize (Hm s Hs). unfold try_catch.
  destruct (m s) as [s' []]; [done| |done..]. by apply Hh.
Qed.

Lemma applyRequests_engine (rs : list (Request CB)) s :
  _engine (fold_left (fun s r => applyRequest r s) rs s) = _engine s.
Proof. revert s. induction rs as [|[] rs IH]; intros s; [done|cbn; by rewrite IH..]. Qed.

Lemma tot_callEngine {A} r (action : EngineAction E CB A) (P : A -> Prop) :
  keeps room action -> (forall v e a, (action v e).2 = Returned a -> P a) ->
  tot r (callEngine action) P.
Proof.
  intros Hk HP s Hs. unfold callEngine. specialize (Hk (engineView s) (_engine s)).
  specialize (HP (engineView s) (_engine s)).
  destruct (action (engineView s) (_engine s)) as [[e rs] o]. cbn in Hk.
  destruct o; rewrite applyRequests_engine; cbn; [split; [by apply HP|congruence]|congruence].
Qed.

Lemma tot_callEngine_any {A} r (action : EngineAction E CB A) :
  keeps room action -> tot r (callEngine action) any.
Proof. intros Hk. apply tot_callEngine; [exact Hk|]. intros. exact I. Qed.

Lemma tot_CurrentRun r : tot r _CurrentRun any.
Proof. intros s Hs. unfold _CurrentRun. by destruct (_ <? _)%nat. Qed.

Lemma tot_passThrough r string :
  tot r (callEngine (ActionPassThroughString string)) (eq true).
Proof.
  apply tot_callEngine; [apply keeps_PassThroughString|].
  intros v e [] Hret; [done|]. by apply passThrough_accepted in Hret.
Qed.

(** A call that is never refused does not flush: one level is enough. *)
Lemma tot_SafeExecute_accepted r fuel lambda :
  tot r lambda (eq true) -> tot r (_SafeExecute (S fuel) lambda) any.
Proof.
  intros Hl. cbn [_SafeExecute]. apply tot_try; [|by apply tot_ret].
  eapply tot_bind; [exact Hl|]. intros ? <-.
  eapply tot_bind; [by apply (tot_ret _ _ any)|]. intros. by apply tot_ret.
Qed.

Lemma tot_Flush r fuel : tot r (FlushToTerminal_with (_SafeExecute (S fuel))) any.
Proof.
  unfold FlushToTerminal_with. eapply tot_bind; [apply tot_gets|]. intros cached _.
  eapply (tot_bind _ _ _ any).
  - destruct cached; [|by apply tot_ret].
    eapply tot_bind; [apply tot_SafeExecute_accepted, tot_passThrough|]. intros ok _.
    eapply tot_bind; [by apply tot_modify|]. intros _ _. by apply tot_ret.
  - intros [] _; [|by apply tot_ret]. apply tot_SafeExecute_accepted.
    eapply tot_bind; [apply tot_CurrentRun|]. intros. apply tot_passThrough.
Qed.

Lemma tot_SafeExecute r fuel lambda :
  tot r lambda any -> tot r (_SafeExecute (S (S fuel)) lambda) any.
Proof.
  intros Hl. cbn [_SafeExecute]. apply tot_try; [|by apply tot_ret].
  eapply tot_bind; [exact Hl|]. intros ok _. eapply (tot_bind _ _ _ any).
  - destruct ok; [by apply tot_ret|apply (tot_Flush r fuel)].
  - intros. by apply tot_ret.
Qed.

(** ** Every action, state change and event *)
Ltac tot_step :=
  lazymatch goal with
  | |- tot _ (mret _) _ => apply tot_ret; exact I
  | |- tot _ (gets _) _ => apply tot_gets
  | |- tot _ (modify _) _ =>
      apply tot_modify; intros; cbn; first [reflexivity|apply keeps_UnknownSequence]
  | |- tot _ throw _ => apply tot_throw
  | |- tot _ ub _ => apply tot_ub
  | |- tot _ (mbind _ _) _ => eapply (tot_bind _ _ _ any); [|intros ? _]
  | |- tot _ (_SafeExecute _ _) _ => apply tot_SafeExecute
  | |- tot _ _CurrentRun _ => apply tot_CurrentRun
  | |- tot _ (callEngine _) _ =>
      apply tot_callEngine_any;
      first [ apply keeps_Execute | apply keeps_ExecuteFromEscape | apply keeps_Print
            | apply keeps_PrintString | apply keeps_EscDispatch | apply keeps_Vt52EscDispatch
            | apply keeps_CsiDispatch | apply keeps_DcsDispatch | apply keeps_OscDispatch
            | apply keeps_Ss3Dispatch | apply keeps_StringHandler ]
  | |- tot _ (if ?b then _ else _) _ => destruct b
  | |- tot _ (match ?o with Some _ => _ | None => _ end) _ => destruct o
  end; cbv beta.
Ltac tot_auto := repeat tot_step; try assumption.

Section Total.
Context (fuel r : nat) (processString : wstring -> M (StateMachine E H CB) unit).
Hypothesis processString_total :
  forall r' string, S r' = r -> tot r' (processString string) any.

Lemma tot_ActionParam wch : tot r (_ActionParam wch) any.
Proof. unfold _ActionParam, _AccumulateTo, back. tot_auto. Qed.

Lemma tot_ActionSubParam wch : tot r (_ActionSubParam wch) any.
Proof. unfold _ActionSubParam, _AccumulateTo, back. tot_auto. Qed.

Lemma tot_ActionInterrupt : tot r _ActionInterrupt any.
Proof. unfold _ActionInterrupt, dcsStringHandler. tot_auto. Qed.

Lemma tot_Callback : tot r (_ExecuteCsiCompleteCallback processString) any.
Proof.
  unfold _ExecuteCsiCompleteCallback. tot_auto.
  intros s Hs. unfold runCallback.
  match goal with |- context [Callback_call ?cb _] => rename cb into cb0 end.
  destruct (Callback_call cb0 (_engine s)) as [e [str|]] eqn:Hcall.
  - apply callback_nests in Hcall.
    pose proof (processString_total (room e) str ltac:(congruence) (set_engine e s) eq_refl) as Hps.
    destruct (processString str _) as [s' []]; cbn in *; rewrite ?callback_unnests; [|congruence..].
    destruct Hps. split; [done|congruence].
  - apply callback_idle in Hcall. cbn. split; [done|congruence].
Qed.

Lemma tot_EventEscape wch : tot r (_EventEscape (S (S fuel)) wch) any.
Proof.
  unfold _EventEscape, _ActionExecuteFromEscape, _ActionExecute, _ActionIgnore, _ActionEscDispatch,
    _ActionCollect, _ActionVt52EscDispatch, _EnterGround, _EnterEscapeIntermediate, _EnterCsiEntry,
    _EnterOscParam, _EnterSs3Entry, _EnterDcsEntry, _EnterSosPmApcString, _EnterVt52Param,
    _ActionClear.
  tot_auto.
Qed.

Lemma tot_dispatchEvent state wch :
  tot r (dispatchEvent (S (S fuel)) processString state wch) any.
Proof.
  pose proof (tot_ActionParam wch). pose proof (tot_ActionSubParam wch). pose proof tot_Callback.
  pose proof (tot_EventEscape wch).
  destruct state; cbn [dispatchEvent]; try assumption;
    unfold _EventGround, _EventEscapeIntermediate, _EventCsiEntry, _EventCsiIntermediate,
      _EventCsiIgnore, _EventCsiParam, _EventCsiSubParam, _EventOscParam, _EventOscString,
      _EventOscTermination, _EventSs3Entry, _EventSs3Param, _EventVt52Param, _EventDcsEntry,
      _EventDcsIgnore, _EventDcsIntermediate, _EventDcsParam, _EventDcsPassThrough,
      _EventSosPmApcString, _ActionDcsDispatch, dcsStringHandler, _ActionExecute, _ActionPrint,
      _ActionIgnore, _ActionCollect, _ActionEscDispatch, _ActionVt52EscDispatch,
      _ActionCsiDispatch, _ActionOscParam, _AccumulateTo, _ActionOscPut, _ActionOscDispatch,
      _ActionSs3Dispatch, _EnterGround, _EnterEscape, _EnterCsiParam, _EnterCsiSubParam,
      _EnterCsiIgnore, _EnterCsiIntermediate, _EnterOscString, _EnterOscTermination,
      _EnterSs3Param, _EnterVt52Param, _EnterDcsParam, _EnterDcsIgnore, _EnterDcsIntermediate,
      _EnterDcsPassThrough, _ActionClear; tot_auto.
Qed.

(** The recursive calls are on characters that are not C1 controls. *)
Lemma tot_ProcessCharacter_7bit levels wch :
  _isC1ControlCharacter wch = false ->
  tot r (ProcessCharacter_rec (S (S fuel)) processString (S levels) wch) any.
Proof.
  intros Hc1. pose proof tot_ActionInterrupt.
  cbn [ProcessCharacter_rec]. rewrite Hc1.
  unfold _ActionExecute, _EnterGround, _EnterEscape, _ActionClear. tot_auto.
  apply tot_dispatchEvent.
Qed.

Lemma c1To7Bit_7bit wch :
  _isC1ControlCharacter wch = true -> _isC1ControlCharacter (_c1To7Bit wch) = false.
Proof.
  unfold _isC1ControlCharacter, _c1To7Bit. intros Hc. rewrite wrap_small by lia. lia.
Qed.

Lemma tot_ProcessCharacter wch :
  tot r (ProcessCharacter (S (S fuel)) processString wch) any.
Proof.
  destruct (_isC1ControlCharacter wch) eqn:Hc1; [|by apply tot_ProcessCharacter_7bit].
  unfold ProcessCharacter. cbn [ProcessCharacter_rec]. rewrite Hc1. pose proof tot_ActionInterrupt.
  unfold _ActionExecute, _EnterGround. fold (ProcessCharacter_rec (S (S fuel)) processString 1).
  eapply (tot_bind _ _ _ any); [apply tot_gets|intros state _].
  eapply (tot_bind _ _ _ any); [apply tot_gets|intros input _].
  destruct (_ && _) at 1; [tot_auto|].
  eapply (tot_bind _ _ _ any); [apply tot_gets|intros c1 _]. destruct c1; [|by apply tot_ret].
  eapply (tot_bind _ _ _ any).
  - by apply (tot_ProcessCharacter_7bit 0).
  - intros _ _. by apply (tot_ProcessCharacter_7bit 0), c1To7Bit_7bit.
Qed.

(** ** The string loops *)
Lemma tot_vtLoop size rest i :
  tot r (vtLoop (S (S fuel)) processString size rest i) (fun i' => (i < i')%nat).
Proof.
  revert i. induction rest as [|wch rest IH]; intros i; cbn [vtLoop]; [apply tot_ub|].
  do 2 (eapply (tot_bind _ _ _ any); [by apply tot_modify|intros _ _]).
  eapply (tot_bind _ _ _ any); [apply tot_ProcessCharacter|intros _ _].
  eapply (tot_bind _ _ _ any); [apply tot_gets|intros state _].
  destruct (_ && _); [|apply tot_ret; lia].
  eapply tot_weaken; [apply IH|]. cbn. lia.
Qed.

Lemma tot_printRun string i :
  tot r (printRun (S (S fuel)) string i) (fun i' => (i <= i')%nat).
Proof.
  unfold printRun. pose proof (@tot_gets nat r).
  do 2 (eapply (tot_bind _ _ _ any); [by apply tot_modify|intros _ _]).
  eapply (tot_bind _ _ _ any); [apply tot_gets|intros n _]. destruct (n =? 0)%nat; [by apply tot_ret|].
  eapply (tot_bind _ _ _ any); [apply tot_CurrentRun|intros run _].
  eapply (tot_bind _ _ _ any); [unfold _ActionPrintString; tot_auto|intros _ _].
  eapply (tot_bind _ _ _ any); [apply tot_gets|intros k _].
  do 2 (eapply (tot_bind _ _ _ any); [by apply tot_modify|intros _ _]).
  apply tot_ret. lia.
Qed.

(** Each iteration consumes at least one character. *)
Lemma tot_stringLoop iterations string vtStart i :
  (length string - i < iterations)%nat ->
  tot r (stringLoop (S (S fuel)) processString iterations string vtStart i) any.
Proof.
  revert vtStart i. induction iterations as [|iterations IH]; intros vtStart i Hlt; [lia|].
  cbn [stringLoop]. destruct (_ && _); [by apply tot_ret|].
  eapply (tot_bind _ _ _ (fun i' => (i <= i')%nat)).
  { destruct vtStart; [by apply tot_ret|apply tot_printRun]. }
  intros i' Hi'. destruct (Nat.leb_spec (length string) i'); [by apply tot_ret|].
  eapply tot_bind; [apply tot_vtLoop|]. cbn. intros i'' Hi''. apply IH. lia.
Qed.

Lemma tot_ProcessString_with string :
  tot r (ProcessString_with (S (S fuel)) processString string) any.
Proof.
  unfold ProcessString_with. eapply (tot_bind _ _ _ any); [by apply tot_modify|intros _ _].
  eapply (tot_bind _ _ _ any); [apply tot_gets|intros state _].
  eapply (tot_bind _ _ _ any); [apply tot_stringLoop; lia|intros _ _].
  unfold endOfString, _EnterGround, _EnterEscape, _ActionClear, _ActionExecute, _ActionEscDispatch.
  tot_auto.
Qed.

End Total.

Lemma tot_ProcessString fuel depth r string :
  (r < depth)%nat -> tot r (ProcessString (S (S fuel)) depth string) any.
Proof.
  revert r string. induction depth as [|depth IH]; intros r string Hlt; [lia|].
  cbn [ProcessString]. apply tot_ProcessString_with. intros r' str Hr'. apply IH. lia.
Qed.

End Bounded.
