(* ===== verification/StateMachineStream.v ===== *)
(** * The parser is a stream processor

    [ProcessString] prints runs of plain text as a whole and feeds the rest to
    [ProcessCharacter]; it also keeps bookkeeping on the current run so that a
    refused sequence can be flushed. For an output-side engine that accepts what
    it is given and prints strings character-wise, none of this is observable:
    processing a string is processing its characters one by one, so splitting the
    input differently changes nothing but the bookkeeping. *)
From S2P Require Import Prelude DispatchTypes VtUtils StateMachine.

Section Stream.
Context {E H CB : Type} {engine : IStateMachineEngine E H CB}.
Implicit Types (s t : StateMachine E H CB).

(** Two views of the machine that differ only in whether the current character
    is the last one of its string. *)
Definition insensitive {A} (action : EngineAction E CB A) : Prop :=
  forall pm b b' e, action (mkEngineView pm b) e = action (mkEngineView pm b') e.
Definition accepting (action : EngineAction E CB bool) : Prop :=
  forall v e, (action v e).2 <> Returned false.

Class StreamingEngine : Prop := {
  stream_Execute : forall wch, insensitive (ActionExecute wch) /\ accepting (ActionExecute wch);
  stream_ExecuteFromEscape : forall wch,
    insensitive (ActionExecuteFromEscape wch) /\ accepting (ActionExecuteFromEscape wch);
  stream_Print : forall wch, insensitive (ActionPrint wch) /\ accepting (ActionPrint wch);
  stream_EscDispatch : forall id,
    insensitive (ActionEscDispatch id) /\ accepting (ActionEscDispatch id);
  stream_Vt52EscDispatch : forall id params,
    insensitive (ActionVt52EscDispatch id params) /\ accepting (ActionVt52EscDispatch id params);
  stream_CsiDispatch : forall id params,
    insensitive (ActionCsiDispatch id params) /\ accepting (ActionCsiDispatch id params);
  stream_DcsDispatch : forall id params, insensitive (ActionDcsDispatch id params);
  stream_OscDispatch : forall param string,
    insensitive (ActionOscDispatch param string) /\ accepting (ActionOscDispatch param string);
  stream_Ss3Dispatch : forall wch params,
    insensitive (ActionSs3Dispatch wch params) /\ accepting (ActionSs3Dispatch wch params);
  stream_StringHandler : forall h wch, insensitive (StringHandler_call h wch);
  (** Printing a string without control characters is printing its characters. *)
  print_nil : forall v e, ActionPrintString [] v e = (e, [], Returned true);
  print_cons : forall wch string v e,
    Forall is_wchar (wch :: string) ->
    Forall (fun c => FindActionable.isActionableFromGround c = false) (wch :: string) -> exists e',
    ActionPrint wch v e = (e', [], Returned true)
    /\ ActionPrintString (wch :: string) v e = ActionPrintString string v e';
  callback_wide : forall cb e e' string,
    Callback_call cb e = (e', Some string) -> Forall is_wchar string
}.
Context {streaming : StreamingEngine}.

(** ** Equality of output-side machines up to bookkeeping *)
Definition forget s : StateMachine E H CB :=
  set_processingLastCharacter false (set_injections [] (set_cachedSequence None
    (set_runSize 0 (set_runOffset 0 (set_currentString [] s))))).
Definition sameStream s t : Prop := forget s = forget t /\ _isEngineForInput s = false.

Lemma forget_input s : _isEngineForInput (forget s) = _isEngineForInput s.
Proof. done. Qed.

#[export] Instance sameStream_sym : Symmetric sameStream.
Proof.
  intros s t [Heq Hin]. split; [done|]. by rewrite <- forget_input, <- Heq, forget_input.
Qed.
#[export] Instance sameStream_trans : Transitive sameStream.
Proof. intros s t u [H1 Hin] [H2 _]. split; [by rewrite H1|done]. Qed.

Lemma sameStream_fields s t : sameStream s t ->
  _engine s = _engine t /\ _isEngineForInput s = _isEngineForInput t /\ _state s = _state t
  /\ _parserMode s = _parserMode t /\ _identifier s = _identifier t
  /\ _parameters s = _parameters t
  /\ _parameterLimitOverflowed s = _parameterLimitOverflowed t
  /\ _subParameters s = _subParameters t /\ _subParameterRanges s = _subParameterRanges t
  /\ _subParameterLimitOverflowed s = _subParameterLimitOverflowed t
  /\ _subParameterCounter s = _subParameterCounter t /\ _oscString s = _oscString t
  /\ _oscParameter s = _oscParameter t /\ _dcsStringHandler s = _dcsStringHandler t
  /\ _onCsiCompleteCallback s = _onCsiCompleteCallback t.
Proof. destruct s, t. intros [[=] _]. cbn. tauto. Qed.

(** A computation whose outcome and effect do not depend on the bookkeeping. *)
Definition agree {A} (r1 r2 : StateMachine E H CB * Outcome A) : Prop :=
  sameStream r1.1 r2.1 /\ r1.2 = r2.2.
Definition respects {A} (m : M (StateMachine E H CB) A) : Prop :=
  forall s t, sameStream s t -> agree (m s) (m t).

#[export] Instance agree_sym {A} : Symmetric (@agree A).
Proof. intros r1 r2 [H1 H2]. by split; symmetry. Qed.
#[export] Instance agree_trans {A} : Transitive (@agree A).
Proof. intros r1 r2 r3 [H1 H2] [H3 H4]. split; [by etrans|by etrans]. Qed.

Lemma respects_ret {A} (a : A) : respects (mret a).
Proof. by intros s t. Qed.

Lemma respects_ub {A} : respects (ub : M _ A).
Proof. by intros s t. Qed.

Lemma respects_throw {A} : respects (throw : M _ A).
Proof. by intros s t. Qed.

Lemma respects_outOfFuel {A} : respects (outOfFuel : M _ A).
Proof. by intros s t. Qed.

Lemma respects_bind {A B} (m : M _ A) (f : A -> M _ B) :
  respects m -> (forall a, respects (f a)) -> respects (mbind f m).
Proof.
  intros Hm Hf s t Hst. destruct (Hm s t Hst) as [H1 H2]. unfold mbind, M_bind.
  destruct (m s) as [s' []], (m t) as [t' []]; cbn in *; simplify_eq; try done. by apply Hf.
Qed.

Lemma respects_gets {A} (f : StateMachine E H CB -> A) :
  (forall s t, sameStream s t -> f s = f t) -> respects (gets f).
Proof. intros Hf s t Hst. split; [done|]. cbn. by rewrite (Hf s t). Qed.

Lemma respects_modify f :
  (forall s t, sameStream s t -> sameStream (f s) (f t)) -> respects (modify f).
Proof. intros Hf s t Hst. split; [by apply Hf|done]. Qed.

Lemma respects_try {A} (m h : M _ A) : respects m -> respects h -> respects (try_catch m h).
Proof.
  intros Hm Hh s t Hst. destruct (Hm s t Hst) as [H1 H2]. unfold try_catch.
  destruct (m s) as [s' []], (m t) as [t' []]; cbn in *; simplify_eq; try done. by apply Hh.
Qed.

Lemma applyRequest_same (r : Request CB) s t :
  sameStream s t -> sameStream (applyRequest r s) (applyRequest r t).
Proof.
  unfold sameStream. destruct s, t; intros [[=] Hin]; destruct r; cbn in *; by simplify_eq.
Qed.

Lemma applyRequests_same (rs : list (Request CB)) s t :
  sameStream s t ->
  sameStream (fold_left (fun s r => applyRequest r s) rs s)
             (fold_left (fun s r => applyRequest r s) rs t).
Proof.
  revert s t. induction rs as [|r rs IH]; intros s t Hst; [done|]. by apply IH, applyRequest_same.
Qed.

Lemma set_engine_same e s t : sameStream s t -> sameStream (set_engine e s) (set_engine e t).
Proof. unfold sameStream. destruct s, t; intros [[=] Hin]; cbn in *; by simplify_eq. Qed.

Lemma respects_callEngine {A} (action : EngineAction E CB A) :
  insensitive action -> respects (callEngine action).
Proof.
  intros Ha s t Hst. destruct (sameStream_fields s t Hst) as (He & _ & _ & Hpm & _).
  unfold callEngine, engineView, IsProcessingLastCharacter.
  rewrite He, Hpm, (Ha _ _ (_processingLastCharacter t)).
  destruct (action _ _) as [[e rs] o].
  destruct o; (split; [by apply applyRequests_same, set_engine_same|done]).
Qed.

(** A call that is never refused does not flush. *)
Definition never_false (m : M (StateMachine E H CB) bool) : Prop :=
  forall s, (m s).2 <> Ret false.

Lemma never_false_bind {A} (m : M _ A) f : (forall a, never_false (f a)) -> never_false (mbind f m).
Proof. intros Hf s. unfold mbind, M_bind. destruct (m s) as [s' []]; try done. apply Hf. Qed.

Lemma never_false_callEngine action : accepting action -> never_false (callEngine action).
Proof.
  intros Ha s. unfold callEngine. specialize (Ha (engineView s) (_engine s)).
  destruct (action _ _) as [[e rs] []]; cbn in *; congruence.
Qed.

Lemma respects_SafeExecute fuel lambda :
  respects lambda -> never_false lambda -> respects (_SafeExecute fuel lambda).
Proof.
  intros Hl Hn. destruct fuel as [|fuel]; [apply respects_outOfFuel|]. cbn [_SafeExecute].
  apply respects_try; [|apply respects_ret].
  intros s t Hst. destruct (Hl s t Hst) as [H1 H2]. pose proof (Hn s). unfold mbind, M_bind.
  destruct (lambda s) as [s' [[]| | |]], (lambda t) as [t' [[]| | |]]; cbn in *; simplify_eq; done.
Qed.

Lemma never_false_true : never_false (mret true).
Proof. done. Qed.

(** ** Every action, state change and event respects the equivalence *)
Ltac solve_gets :=
  intros ? ? Hst; destruct (sameStream_fields _ _ Hst) as (?&?&?&?&?&?&?&?&?&?&?&?&?&?&?);
  unfold GetParserMode; cbn; congruence.
Ltac solve_modify :=
  intros [] []; unfold sameStream; intros [[=] ?]; cbn in *; by simplify_eq.
Ltac stream_law :=
  first [ apply stream_Execute | apply stream_ExecuteFromEscape | apply stream_Print
        | apply stream_EscDispatch | apply stream_Vt52EscDispatch | apply stream_CsiDispatch
        | apply stream_DcsDispatch | apply stream_OscDispatch | apply stream_Ss3Dispatch
        | apply stream_StringHandler ].
Ltac resp_step :=
  lazymatch goal with
  | |- respects (mret _) => apply respects_ret
  | |- respects throw => apply respects_throw
  | |- respects ub => apply respects_ub
  | |- respects outOfFuel => apply respects_outOfFuel
  | |- respects (gets _) => apply respects_gets; solve_gets
  | |- respects (modify _) => apply respects_modify; solve_modify
  | |- respects (mbind _ _) => apply respects_bind; [|intros ?]
  | |- respects (_SafeExecute _ _) => apply respects_SafeExecute
  | |- respects (callEngine _) => apply respects_callEngine; stream_law
  | |- respects (if ?b then _ else _) => destruct b
  | |- respects (match ?o with Some _ => _ | None => _ end) => destruct o
  | |- never_false (mbind _ _) => apply never_false_bind; intros ?
  | |- never_false (callEngine _) => apply never_false_callEngine; stream_law
  | |- never_false (mret true) => apply never_false_true
  end; cbv beta.
Ltac resp := repeat resp_step; try assumption.

Context (fuel : nat).

Lemma respects_ActionParam wch : respects (_ActionParam wch).
Proof. unfold _ActionParam, _AccumulateTo, back. resp. Qed.

Lemma respects_ActionSubParam wch : respects (_ActionSubParam wch).
Proof. unfold _ActionSubParam, _AccumulateTo, back. resp. Qed.

Lemma respects_ActionInterrupt : respects _ActionInterrupt.
Proof. unfold _ActionInterrupt, dcsStringHandler. resp. Qed.

Lemma respects_EventEscape wch : respects (_EventEscape fuel wch).
Proof.
  unfold _EventEscape, _ActionExecuteFromEscape, _ActionExecute, _ActionIgnore, _ActionEscDispatch,
    _ActionCollect, _ActionVt52EscDispatch, _EnterGround, _EnterEscapeIntermediate, _EnterCsiEntry,
    _EnterOscParam, _EnterSs3Entry, _EnterDcsEntry, _EnterSosPmApcString, _EnterVt52Param,
    _ActionClear.
  resp.
Qed.

Section Respects.
Context (processString : wstring -> M (StateMachine E H CB) unit).
Hypothesis processString_respects : forall string,
  Forall is_wchar string -> respects (processString string).

Lemma respects_Callback : respects (_ExecuteCsiCompleteCallback processString).
Proof.
  intros s t Hst. destruct (sameStream_fields s t Hst) as (He&_&_&_&_&_&_&_&_&_&_&_&_&_&Hcb).
  unfold _ExecuteCsiCompleteCallback, mbind, M_bind, gets, modify, runCallback. cbn. rewrite Hcb.
  destruct (_onCsiCompleteCallback t) as [cb|]; [|done]. cbn. rewrite He.
  destruct (Callback_call cb (_engine t)) as [e [str|]] eqn:Hcall; cbn.
  - destruct (processString_respects str (callback_wide _ _ _ _ Hcall)
      (set_engine e (set_onCsiCompleteCallback None s))
      (set_engine e (set_onCsiCompleteCallback None t))) as [H1 H2].
    { apply set_engine_same. revert Hst. clear. revert s t. solve_modify. }
    destruct (processString str _) as [s1 o1], (processString str _) as [t1 o2].
    cbn in H1, H2. subst o2. destruct (sameStream_fields _ _ H1) as (He1 & _). rewrite He1.
    destruct o1; (split; [|done]); cbn; revert H1; clear; revert s1 t1; solve_modify.
  - split; [|done]. cbn. revert Hst. clear. revert s t. solve_modify.
Qed.

Lemma respects_dispatchEvent state wch : respects (dispatchEvent fuel processString state wch).
Proof.
  pose proof (respects_ActionParam wch). pose proof (respects_ActionSubParam wch).
  pose proof respects_Callback. pose proof (respects_EventEscape wch).
  destruct state; cbn [dispatchEvent]; try assumption;
    unfold _EventGround, _EventEscapeIntermediate, _EventCsiEntry, _EventCsiIntermediate,
      _EventCsiIgnore, _EventCsiParam, _EventCsiSubParam, _EventOscParam, _EventOscString,
      _EventOscTermination, _EventSs3Entry, _EventSs3Param, _EventVt52Param, _EventDcsEntry,
      _EventDcsIgnore, _EventDcsIntermediate, _EventDcsParam, _EventDcsPassThrough,
      _EventSosPmApcString, _ActionDcsDispatch, dcsStringHandler, _ActionExecute, _ActionPrint,
      _ActionIgnore, _ActionCollect, _ActionEscDispatch, _ActionVt52EscDispatch,
      _ActionCsiDispatch, _ActionOscParam, _AccumulateTo, _ActionOscPut, _ActionOscDispatch,
      _ActionSs3Dispatch, _EnterGround, _EnterEscape, _EnterCsiParam, _EnterCsiSubParam,
      _EnterCsiIgnore, _EnterCsiIntermediate, _EnterOscString, _EnterOscTermination,
      _EnterSs3Param, _EnterVt52Param, _EnterDcsParam, _EnterDcsIgnore, _EnterDcsIntermediate,
      _EnterDcsPassThrough, _ActionClear; resp.
Qed.

Lemma respects_ProcessCharacter_rec levels wch :
  respects (ProcessCharacter_rec fuel processString levels wch).
Proof.
  revert wch. induction levels as [|levels IH]; intros wch; cbn [ProcessCharacter_rec];
    [apply respects_outOfFuel|].
  pose proof respects_ActionInterrupt. pose proof respects_dispatchEvent.
  unfold _ActionExecute, _EnterGround, _EnterEscape, _ActionClear. resp; auto.
Qed.

Lemma respects_ProcessCharacter wch : respects (ProcessCharacter fuel processString wch).
Proof. apply respects_ProcessCharacter_rec. Qed.

(** ** The bookkeeping of the run

    A call that returns leaves the current string and run as they were: the
    callback may process another string, but its caller restores them. With [x],
    so does a call that throws. *)
Definition run_of s : wstring * nat * nat := (_currentString s, _runOffset s, _runSize s).
Definition keepsRun {A} (x : bool) (m : M (StateMachine E H CB) A) : Prop := forall s,
  match m s with
  | (s', Ret _) => run_of s' = run_of s
  | (s', Throw) => x = true -> run_of s' = run_of s
  | _ => True
  end.

Lemma keepsRun_bind {A B} x (m : M _ A) (f : A -> M _ B) :
  keepsRun x m -> (forall a, keepsRun x (f a)) -> keepsRun x (mbind f m).
Proof.
  intros Hm Hf s. specialize (Hm s). unfold mbind, M_bind. destruct (m s) as [s' []]; [|done..].
  specialize (Hf a s'). destruct (f a s') as [s'' []]; [congruence| |done..].
  intros Hx. rewrite Hf; done.
Qed.

Lemma keepsRun_ret {A} x (a : A) : keepsRun x (mret a).
Proof. by intros s. Qed.

Lemma keepsRun_gets {A} x (f : StateMachine E H CB -> A) : keepsRun x (gets f).
Proof. by intros s. Qed.

Lemma keepsRun_modify x f : (forall s, run_of (f s) = run_of s) -> keepsRun x (modify f).
Proof. intros Hf s. apply Hf. Qed.

Lemma applyRequests_run (rs : list (Request CB)) s :
  run_of (fold_left (fun s r => applyRequest r s) rs s) = run_of s.
Proof. revert s. induction rs as [|[] rs IH]; intros s; [done|cbn; by rewrite IH..]. Qed.

Lemma keepsRun_callEngine {A} x (action : EngineAction E CB A) : keepsRun x (callEngine action).
Proof.
  intros s. unfold callEngine. destruct (action _ _) as [[e rs] []]; by rewrite applyRequests_run.
Qed.

Lemma keepsRun_CurrentRun x : keepsRun x _CurrentRun.
Proof. intros s. unfold _CurrentRun. by destruct (_ <? _)%nat. Qed.

Lemma keepsRun_SafeExecute x fuel0 lambda : keepsRun true lambda -> keepsRun x (_SafeExecute fuel0 lambda).
Proof.
  revert x lambda. induction fuel0 as [|fuel0 IH]; intros x lambda Hl; [by intros s|].
  assert (keepsRun true (ok ← lambda; (if (ok : bool) then mret true
    else FlushToTerminal_with (_SafeExecute fuel0)) ;; mret ok)) as Hbody.
  { apply keepsRun_bind; [done|]. intros [].
    - apply keepsRun_bind; [apply keepsRun_ret|intros; apply keepsRun_ret].
    - apply keepsRun_bind; [|intros; apply keepsRun_ret]. unfold FlushToTerminal_with.
      apply keepsRun_bind; [apply keepsRun_gets|]. intros cached. apply keepsRun_bind.
      + destruct cached; [|apply keepsRun_ret].
        apply keepsRun_bind; [apply IH, keepsRun_callEngine|]. intros ok.
        apply keepsRun_bind; [by apply keepsRun_modify|intros; apply keepsRun_ret].
      + intros []; [|apply keepsRun_ret]. apply IH.
        apply keepsRun_bind; [apply keepsRun_CurrentRun|intros; apply keepsRun_callEngine]. }
  intros s. specialize (Hbody s). cbn [_SafeExecute]. unfold try_catch.
  destruct (mbind _ lambda s) as [s' []]; [done| |done..]. by apply Hbody.
Qed.

Ltac keep_step :=
  lazymatch goal with
  | |- keepsRun _ (mret _) => apply keepsRun_ret
  | |- keepsRun _ throw => by intros s
  | |- keepsRun _ ub => by intros s
  | |- keepsRun _ outOfFuel => by intros s
  | |- keepsRun _ (gets _) => apply keepsRun_gets
  | |- keepsRun _ (modify _) => apply keepsRun_modify; intros; reflexivity
  | |- keepsRun _ (mbind _ _) => apply keepsRun_bind; [|intros ?]
  | |- keepsRun _ (_SafeExecute _ _) => apply keepsRun_SafeExecute
  | |- keepsRun _ (callEngine _) => apply keepsRun_callEngine
  | |- keepsRun _ (if ?b then _ else _) => destruct b
  | |- keepsRun _ (match ?o with Some _ => _ | None => _ end) => destruct o
  end; cbv beta.
Ltac keep := repeat keep_step; try assumption.

Lemma keepsRun_Callback : keepsRun false (_ExecuteCsiCompleteCallback processString).
Proof.
  intros s. unfold _ExecuteCsiCompleteCallback, mbind, M_bind, gets, modify, runCallback. cbn.
  destruct (_onCsiCompleteCallback s) as [cb|]; [|done]. cbn.
  destruct (Callback_call cb (_engine s)) as [e [str|]]; [|done].
  destruct (processString str _) as [s' []]; done.
Qed.

Lemma keepsRun_EventEscape wch : keepsRun false (_EventEscape fuel wch).
Proof.
  unfold _EventEscape, _ActionExecuteFromEscape, _ActionExecute, _ActionIgnore, _ActionEscDispatch,
    _ActionCollect, _ActionVt52EscDispatch, _EnterGround, _EnterEscapeIntermediate, _EnterCsiEntry,
    _EnterOscParam, _EnterSs3Entry, _EnterDcsEntry, _EnterSosPmApcString, _EnterVt52Param,
    _ActionClear.
  keep.
Qed.

Lemma keepsRun_dispatchEvent state wch :
  keepsRun false (dispatchEvent fuel processString state wch).
Proof.
  pose proof keepsRun_Callback. pose proof (keepsRun_EventEscape wch).
  destruct state; cbn [dispatchEvent]; try assumption;
    unfold _EventGround, _EventEscapeIntermediate, _EventCsiEntry, _EventCsiIntermediate,
      _EventCsiIgnore, _EventCsiParam, _EventCsiSubParam, _EventOscParam, _EventOscString,
      _EventOscTermination, _EventSs3Entry, _EventSs3Param, _EventVt52Param, _EventDcsEntry,
      _EventDcsIgnore, _EventDcsIntermediate, _EventDcsParam, _EventDcsPassThrough,
      _EventSosPmApcString, _ActionDcsDispatch, dcsStringHandler, _ActionExecute, _ActionPrint,
      _ActionIgnore, _ActionCollect, _ActionEscDispatch, _ActionVt52EscDispatch, _ActionParam,
      _ActionSubParam, back,
      _ActionCsiDispatch, _ActionOscParam, _AccumulateTo, _ActionOscPut, _ActionOscDispatch,
      _ActionSs3Dispatch, _EnterGround, _EnterEscape, _EnterCsiParam, _EnterCsiSubParam,
      _EnterCsiIgnore, _EnterCsiIntermediate, _EnterOscString, _EnterOscTermination,
      _EnterSs3Param, _EnterVt52Param, _EnterDcsParam, _EnterDcsIgnore, _EnterDcsIntermediate,
      _EnterDcsPassThrough, _ActionClear; keep.
Qed.

Lemma keepsRun_ProcessCharacter_rec levels wch :
  keepsRun false (ProcessCharacter_rec fuel processString levels wch).
Proof.
  revert wch. induction levels as [|levels IH]; intros wch; cbn [ProcessCharacter_rec]; [by intros s|].
  pose proof keepsRun_dispatchEvent.
  unfold _ActionInterrupt, dcsStringHandler, _ActionExecute, _EnterGround, _EnterEscape, _ActionClear.
  keep; auto.
Qed.

(** ** Processing one character at a time: the reference behaviour *)
Fixpoint feed (string : wstring) : M (StateMachine E H CB) unit :=
  match string with
  | [] => mret tt
  | wch :: string => ProcessCharacter fuel processString wch ;; feed string
  end.

Lemma feed_respects string : respects (feed string).
Proof.
  induction string as [|wch string IH]; cbn [feed]; [apply respects_ret|].
  apply respects_bind; [apply respects_ProcessCharacter|by intros ?].
Qed.

Lemma feed_app a b s : feed (a ++ b) s = (feed a ;; feed b) s.
Proof.
  revert s. induction a as [|wch a IH]; intros s; [done|].
  cbn [app feed]. unfold mbind, M_bind.
  destruct (ProcessCharacter fuel processString wch s) as [s' []]; done.
Qed.

(** The result of a loop over [string] is that of the reference [r2], and the run
    it leaves lies inside the string. *)
Definition loopResult (string : wstring) (r1 r2 : StateMachine E H CB * Outcome unit) : Prop :=
  agree r1 r2 /\
  match r1 with
  | (s', Ret _) => _currentString s' = string /\ (_runOffset s' + _runSize s' <= length string)%nat
  | _ => True
  end.

(** [vtLoop] feeds a prefix of the rest, and stops early only in the ground state. *)
Lemma vtLoop_feed {k : nat -> M (StateMachine E H CB) unit} string size rest i s t :
  (i + length rest)%nat = size -> rest <> [] -> (_runOffset s + _runSize s)%nat = i ->
  sameStream s t ->
  (forall i' rest' s' t', (i < i')%nat -> (exists a, rest = a ++ rest') ->
     (i' + length rest')%nat = size -> (rest' = [] \/ _state s' = Ground) ->
     _currentString s' = _currentString s -> (_runOffset s' + _runSize s')%nat = i' ->
     sameStream s' t' -> loopResult string (k i' s') (feed rest' t')) ->
  loopResult string ((i' ← vtLoop fuel processString size rest i; k i') s) (feed rest t).
Proof.
  revert i s t. induction rest as [|wch rest IH]; intros i s t Hlen Hne Hrun Hst Hk; [done|].
  cbn [vtLoop feed length] in *. unfold mbind, M_bind, modify at 1, modify at 1.
  set (s1 := set_processingLastCharacter _ _). assert (sameStream s1 t) as Hst1 by exact Hst.
  destruct (respects_ProcessCharacter wch s1 t Hst1) as [H1 H2].
  pose proof (keepsRun_ProcessCharacter_rec 2 wch s1) as Hpost. fold (ProcessCharacter fuel processString wch) in Hpost.
  destruct (ProcessCharacter fuel processString wch s1) as [s2 o],
    (ProcessCharacter fuel processString wch t) as [t2 o'].
  cbn in H1, H2. subst o'. destruct o; try done. cbn [gets].
  injection Hpost as Hstr2 Hoff2 Hsize2.
  assert (_runOffset s2 + _runSize s2 = S i)%nat as Hrun2 by (rewrite Hoff2, Hsize2; cbn; lia).
  destruct (_ && _) eqn:Hcond.
  - apply andb_true_iff in Hcond as [Hlt _]. apply Nat.ltb_lt in Hlt.
    apply IH; [lia| |done|done|].
    + intros ->. cbn in Hlen. lia.
    + intros i' rest' s' t' Hi' [pre Hpre] ?? Hstr' ??. apply Hk; [lia| |done|done| |done|done].
      * exists (wch :: pre). by rewrite Hpre.
      * by rewrite Hstr'.
  - cbn. apply Hk; [lia|by exists [wch]|lia| |done|done|done].
    apply andb_false_iff in Hcond as [Hge|Hg].
    + left. apply Nat.ltb_ge in Hge. destruct rest; [done|cbn in Hlen; lia].
    + right. by apply negb_false_iff, bool_decide_eq_true in Hg.
Qed.

(** In the ground state a character the vectorized search skips is printed. *)
Lemma ProcessCharacter_print wch t e' :
  is_wchar wch -> FindActionable.isActionableFromGround wch = false -> _state t = Ground ->
  (0 < fuel)%nat -> ActionPrint wch (engineView t) (_engine t) = (e', [], Returned true) ->
  ProcessCharacter fuel processString wch t = (set_engine e' t, Ret tt).
Proof.
  intros Hw Hact Hst Hfuel Hprint. rewrite FindActionable.isActionable_spec in Hact by done.
  unfold is_wchar in Hw. unfold ProcessCharacter. cbn [ProcessCharacter_rec].
  unfold mbind at 1, mbind at 1, M_bind at 1, M_bind at 1, gets at 1, gets at 1.
  assert ((wch =? AsciiChars.CAN) || (wch =? AsciiChars.SUB) = false) as ->
    by (unfold AsciiChars.CAN, AsciiChars.SUB; lia).
  assert (_isC1ControlCharacter wch = false) as -> by (unfold _isC1ControlCharacter; lia).
  assert (_isEscape wch = false) as -> by (unfold _isEscape, AsciiChars.ESC; lia).
  cbn [andb]. rewrite Hst. cbn [dispatchEvent]. unfold _EventGround.
  assert (_isC0Code wch || _isDelete wch = false) as ->.
  { unfold _isC0Code, _isDelete, AsciiChars.NUL, AsciiChars.ETB, AsciiChars.EM, AsciiChars.FS,
      AsciiChars.US, AsciiChars.DEL. lia. }
  unfold _ActionPrint. destruct fuel as [|f]; [lia|]. cbn [_SafeExecute].
  unfold mbind, M_bind, try_catch, callEngine. by rewrite Hprint.
Qed.

Lemma feed_print run t :
  Forall is_wchar run ->
  Forall (fun c => FindActionable.isActionableFromGround c = false) run ->
  _state t = Ground -> (0 < fuel)%nat ->
  exists e', ActionPrintString run (engineView t) (_engine t) = (e', [], Returned true)
             /\ feed run t = (set_engine e' t, Ret tt).
Proof.
  intros Hw Ha. revert t. induction run as [|c run IH]; intros t Hst Hfuel.
  - exists (_engine t). split; [apply print_nil|]. cbn. by destruct t.
  - destruct (print_cons c run (engineView t) (_engine t) Hw Ha) as (e1 & Hp & Hps).
    apply Forall_cons in Hw as [Hc Hw], Ha as [Hac Ha].
    destruct (IH Hw Ha (set_engine e1 t)) as (e2 & Hps2 & Hf); [done..|].
    exists e2. split; [by rewrite Hps|]. cbn [feed]. unfold mbind, M_bind.
    by rewrite (ProcessCharacter_print c t e1), Hf.
Qed.

(** The print phase of the loop feeds the run it prints. *)
Lemma printRun_feed string i s t :
  Forall is_wchar string -> (i <= length string)%nat -> _currentString s = string ->
  _state s = Ground -> sameStream s t -> (0 < fuel)%nat ->
  exists s' run rest,
    printRun fuel string i s = (s', Ret (i + length run)%nat) /\ drop i string = run ++ rest
    /\ _currentString s' = string /\ agree (s', Ret tt) (feed run t) /\ _state s' = Ground
    /\ (_runOffset s' + _runSize s' = i + length run)%nat.
Proof.
  intros Hw Hi Hstr Hg Hst Hfuel.
  set (n := FindActionable.FindActionableControlCharacter (drop i string)).
  pose proof (FindActionable.FindActionable_le (drop i string)) as Hn. fold n in Hn.
  assert (Forall is_wchar (drop i string)) as Hwd by (by apply Forall_drop).
  assert (length (take n (drop i string)) = n) as Hlen by (rewrite length_take; lia).
  assert (Forall (fun c => FindActionable.isActionableFromGround c = false) (take n (drop i string))) as Hplain.
  { unfold n. rewrite FindActionable.FindActionable_plain by done. apply FindActionable.plainSearch_take. }
  unfold printRun. rewrite !run_modify. fold n. clearbody n.
  set (s1 := set_runSize n (set_runOffset i s)). assert (sameStream s1 t) as Hst1 by exact Hst.
  fold s1. rewrite run_gets. change (_runSize s1) with n.
  destruct (Nat.eqb_spec n 0) as [Hz|Hnz].
  - exists s1, [], (drop i string). rewrite Nat.add_0_r. cbn [length].
    do 2 (split; [done|]). split; [exact Hstr|]. split; [by split|]. split; [exact Hg|]. change (i + n = i)%nat. lia.
  - destruct (feed_print (take n (drop i string)) s1) as (e & Hps & Hfeed); [by apply Forall_take|done..|].
    destruct (feed_respects (take n (drop i string)) s1 t Hst1) as [Hf1 Hf2].
    rewrite Hfeed in Hf1, Hf2. cbn in Hf1, Hf2.
    exists (set_runSize 0 (set_runOffset (i + n)%nat (set_engine e s1))),
      (take n (drop i string)), (drop n (drop i string)).
    rewrite Hlen, take_drop.
    split; [|split; [done|]; split; [done|]; split; [by split|split; [done|cbn; lia]]].
    rewrite (run_bind _ _ s1 s1 (take n (drop i string))).
    2: { unfold _CurrentRun. change (_currentString s1) with (_currentString s). rewrite Hstr.
         change (_runOffset s1) with i. by destruct (Nat.ltb_spec (length string) i); [lia|]. }
    rewrite (run_bind _ _ s1 (set_engine e s1) tt), run_gets, !run_modify; [done|].
    unfold _ActionPrintString. destruct fuel as [|f]; [lia|]. cbn [_SafeExecute].
    unfold mbind, M_bind, try_catch, callEngine. by rewrite Hps.
Qed.

Lemma stringLoop_feed iterations string vtStart i s t :
  Forall is_wchar string -> (0 < fuel)%nat ->
  (length string - i < iterations)%nat -> (i <= length string)%nat ->
  _currentString s = string -> (_runOffset s + _runSize s)%nat = i ->
  (vtStart = false -> _state s = Ground \/ i = length string) -> sameStream s t ->
  loopResult string (stringLoop fuel processString iterations string vtStart i s) (feed (drop i string) t).
Proof.
  intros Hw Hfuel. revert vtStart i s t.
  induction iterations as [|iterations IH]; intros vtStart i s t Hit Hi Hstr Hrun Hpre Hst; [lia|].
  cbn [stringLoop]. destruct (negb vtStart && _) eqn:Hend.
  { apply andb_true_iff in Hend as [_ Hend%Nat.leb_le]. rewrite drop_ge by lia. split; [done|].
    cbn. split; [done|lia]. }
  set (body := fun i => _).
  assert (forall i s t, (length string - i < S iterations)%nat -> (i <= length string)%nat ->
    _currentString s = string -> (_runOffset s + _runSize s)%nat = i -> sameStream s t ->
    loopResult string (body i s) (feed (drop i string) t)) as Hbody.
  { clear i s t Hit Hi Hrun Hstr Hpre Hst Hend. intros i s t Hit Hi Hstr Hrun Hst. unfold body.
    destruct (Nat.leb_spec (length string) i).
    { rewrite drop_ge by lia. split; [done|]. cbn. split; [done|lia]. }
    apply vtLoop_feed; [rewrite length_drop; lia| |done|done|].
    - intros Hnil%(f_equal length). rewrite length_drop in Hnil. cbn in Hnil. lia.
    - intros i' rest' s' t' Hi' [pre Hpre] Hlen Hg Hstr' Hrun' Hst'.
      assert (rest' = drop i' string) as ->.
      { pose proof (f_equal length Hpre) as Hl. rewrite length_drop, length_app in Hl.
        replace i' with (i + length pre)%nat by lia. rewrite <- drop_drop, Hpre, drop_app_length. done. }
      apply IH; [lia|lia|congruence|done| |done].
      intros _. destruct Hg as [Hnil|Hg]; [right|by left].
      apply (f_equal length) in Hnil. rewrite length_drop in Hnil. cbn in Hnil. lia. }
  destruct vtStart; [by apply Hbody|].
  destruct (Hpre eq_refl) as [Hg|Hi0]; [|by rewrite Hi0, Nat.leb_refl in Hend].
  destruct (printRun_feed string i s t) as (s' & run & rest & Hprint & Hdrop & Hstr' & Hag & Hg' & Hrun');
    [done..|].
  rewrite (run_bind _ _ s s' (i + length run)%nat) by done.
  pose proof (f_equal length Hdrop) as Hl. rewrite length_drop, length_app in Hl.
  rewrite Hdrop, feed_app. destruct Hag as [H1 H2]. destruct (feed run t) as [t' o] eqn:Hf.
  cbn in H1, H2. subst o. rewrite (run_bind _ _ t t' tt) by done.
  replace rest with (drop (i + length run) string)
    by (rewrite <- drop_drop, Hdrop, drop_app_length; done).
  apply Hbody; [lia|lia|done|lia|done].
Qed.

Lemma endOfString_output string s :
  _isEngineForInput s = false -> _currentString s = string ->
  (_runOffset s + _runSize s <= length string)%nat ->
  exists s', endOfString fuel s = (s', Ret tt) /\ sameStream s' s.
Proof.
  intros Hin Hstr Hrun. unfold endOfString. rewrite run_gets.
  case_bool_decide; [by exists s|].
  rewrite (run_bind _ _ s s (take (_runSize s) (drop (_runOffset s) (_currentString s)))).
  2: { unfold _CurrentRun. rewrite Hstr.
       by destruct (Nat.ltb_spec (length string) (_runOffset s)); [lia|]. }
  rewrite run_gets, Hin, run_ret. destruct (negb _); eexists; (split; [reflexivity|]); by split.
Qed.

Lemma ProcessString_with_feed string s t :
  Forall is_wchar string -> (0 < fuel)%nat -> sameStream s t ->
  agree (ProcessString_with fuel processString string s) (feed string t).
Proof.
  intros Hw Hfuel Hst. unfold ProcessString_with. rewrite run_modify, run_gets.
  set (s0 := set_injections [] _).
  assert (sameStream s0 t) as Hst0 by exact Hst.
  destruct (stringLoop_feed (S (length string)) string (negb (bool_decide (_state s0 = Ground))) 0 s0 t)
    as [[H1 H2] Hrun]; try done; try lia.
  { intros Hb. left. by apply negb_false_iff, bool_decide_eq_true in Hb. }
  rewrite drop_0 in H1, H2. unfold mbind, M_bind.
  destruct (stringLoop _ _ _ _ _ _ s0) as [s1 o]. cbn in H1, H2. destruct o as [[]| | |]; try done.
  destruct Hrun as [Hstr Hrun].
  destruct (endOfString_output string s1) as (s2 & -> & Hs2); [apply H1|done..|].
  split; [|done]. cbn. by transitivity s1.
Qed.

End Respects.

Lemma respects_ProcessString depth string :
  (0 < fuel)%nat -> Forall is_wchar string -> respects (ProcessString fuel depth string).
Proof.
  intros Hfuel. revert string. induction depth as [|depth IH]; intros string Hw; [apply respects_outOfFuel|].
  intros s t Hst. cbn [ProcessString].
  pose proof (ProcessString_with_feed _ IH string s t Hw Hfuel Hst) as H1.
  assert (sameStream t t) as Htt by (transitivity s; [by symmetry|done]).
  pose proof (ProcessString_with_feed _ IH string t t Hw Hfuel Htt) as H2.
  etransitivity; [exact H1|]. by symmetry.
Qed.

Lemma ProcessString_feed depth string s :
  (0 < fuel)%nat -> Forall is_wchar string -> _isEngineForInput s = false ->
  agree (ProcessString fuel (S depth) string s) (feed (ProcessString fuel depth) string s).
Proof.
  intros Hfuel Hw Hin. apply ProcessString_with_feed; [|done..|by split].
  intros str Hs. by apply respects_ProcessString.
Qed.

(** Splitting the input in two changes nothing but the bookkeeping. *)
Lemma ProcessString_app depth a b s :
  (0 < fuel)%nat -> Forall is_wchar (a ++ b) -> _isEngineForInput s = false ->
  agree (ProcessString fuel (S depth) (a ++ b) s)
        ((ProcessString fuel (S depth) a ;; ProcessString fuel (S depth) b) s).
Proof.
  intros Hfuel Hw Hin. pose proof Hw as [Ha Hb]%Forall_app.
  etransitivity; [by apply ProcessString_feed|]. rewrite feed_app.
  destruct (ProcessString_feed depth a s Hfuel Ha Hin) as [H1 H2]. unfold mbind, M_bind.
  destruct (ProcessString fuel (S depth) a s) as [s1 o1], (feed _ a s) as [t1 o2].
  cbn in H1, H2. subst o2. destruct o1 as [[]| | |]; try (by split; [symmetry|]).
  symmetry. etransitivity; [apply ProcessString_feed; [done|done|apply H1]|].
  by apply feed_respects; [intros; apply respects_ProcessString|].
Qed.

End Stream.
