(* ===== verification/StateMachineGrammar.v ===== *)
(** * The grammar of control sequences

    What the parser makes of a well-formed control string, character by
    character: a CSI sequence reaches the engine with the identifier packed from
    its private marker, intermediates and final character, and with its decimal
    fields as parameters (saturated, at most 32 of them); an OSC string reaches
    it with its number and its text. *)
From S2P Require Import Prelude DispatchTypes VtUtils StateMachine StateMachineInv StateMachineStream.

Definition is_digit (c : wchar_t) : Prop := _isNumericParamValue c = true.

#[global] Instance is_digit_dec c : Decision (is_digit c).
Proof. unfold is_digit. apply _. Defined.

(** The decimal value of a field, and the parameter it denotes: omitted when
    empty, saturated at the largest supported value. *)
Definition decimalValue (field : wstring) : Z :=
  fold_left (fun v c => v * 10 + (c - 0x30)) field 0.
Definition fieldValue (field : wstring) : VTParameter :=
  match field with
  | [] => VTParameter.omitted
  | _ => Z.min MAX_PARAMETER_VALUE (decimalValue field)
  end.

(** The fields, separated by [;]. *)
Fixpoint fieldText (fields : list wstring) : wstring :=
  match fields with
  | [] => []
  | [field] => field
  | field :: fields => field ++ 0x3B :: fieldText fields
  end.

(** The parameters a field text denotes; no text at all is no parameters. *)
Definition fieldParams (fields : list wstring) : list VTParameter :=
  match fieldText fields with
  | [] => []
  | _ => take MAX_PARAMETER_COUNT (map fieldValue fields)
  end.

(** ** One character of parameter text *)
Definition saturate (v : Z) (c : wchar_t) : Z := Z.min MAX_PARAMETER_VALUE (v * 10 + (c - 0x30)).

Definition paramStep (st : list VTParameter * bool) (c : wchar_t) : list VTParameter * bool :=
  let '(ps, overflowed) := st in
  if overflowed then st
  else
    let ps := if bool_decide (ps = []) then [VTParameter.omitted] else ps in
    if _isParameterDelimiter c
    then if (MAX_PARAMETER_COUNT <=? length ps)%nat then (ps, true)
         else (ps ++ [VTParameter.omitted], false)
    else (set_back (saturate (VTParameter.value_or (List.last ps VTParameter.omitted) 0) c) ps, false).

Lemma saturate_fold field v :
  Forall is_digit field -> 0 <= v ->
  fold_left saturate field (Z.min MAX_PARAMETER_VALUE v)
  = Z.min MAX_PARAMETER_VALUE (fold_left (fun v c => v * 10 + (c - 0x30)) field v).
Proof.
  intros Hf. revert v. induction Hf as [|c field Hc Hf IH]; intros v Hv; [done|].
  cbn [fold_left]. unfold is_digit, _isNumericParamValue in Hc. rewrite <- IH by lia. f_equal.
  unfold saturate, MAX_PARAMETER_VALUE. lia.
Qed.

Lemma fold_saturate_field field :
  Forall is_digit field -> field <> [] -> fold_left saturate field 0 = fieldValue field.
Proof.
  intros Hf Hne. pose proof (saturate_fold field 0 Hf) as Hs. cbn in Hs.
  unfold fieldValue, decimalValue. destruct field; [done|]. apply Hs. done.
Qed.

Lemma saturate_nonneg v c : 0 <= v -> is_digit c -> 0 <= saturate v c.
Proof. unfold is_digit, _isNumericParamValue, saturate, MAX_PARAMETER_VALUE. lia. Qed.

Lemma digit_not_delimiter c : is_digit c -> _isParameterDelimiter c = false.
Proof. unfold is_digit, _isNumericParamValue, _isParameterDelimiter. lia. Qed.

Lemma paramStep_digit ps v c :
  is_digit c -> paramStep (ps ++ [v], false) c = (ps ++ [saturate (VTParameter.value_or v 0) c], false).
Proof.
  intros Hc. unfold paramStep. rewrite bool_decide_false by (by destruct ps).
  by rewrite digit_not_delimiter, last_snoc_default, set_back_snoc.
Qed.

Lemma value_or_nonneg v : 0 <= VTParameter.value_or v 0.
Proof. unfold VTParameter.value_or. destruct (v <? 0) eqn:?; lia. Qed.

Lemma value_or_of_nonneg v : 0 <= v -> VTParameter.value_or v 0 = v.
Proof. intros Hv. unfold VTParameter.value_or. destruct (v <? 0) eqn:?; [lia|done]. Qed.

(** Digits accumulate into the last parameter. *)
Lemma paramSteps_digits field ps v :
  Forall is_digit field -> field <> [] ->
  fold_left paramStep field (ps ++ [v], false)
  = (ps ++ [fold_left saturate field (VTParameter.value_or v 0)], false).
Proof.
  intros Hf Hne. destruct field as [|c field]; [done|]. clear Hne. revert c v Hf.
  induction field as [|d field IH]; intros c v Hf; apply Forall_cons in Hf as [Hc Hf].
  - cbn [fold_left]. by rewrite paramStep_digit.
  - change (fold_left paramStep (c :: d :: field) (ps ++ [v], false))
      with (fold_left paramStep (d :: field) (paramStep (ps ++ [v], false) c)).
    rewrite paramStep_digit, IH by done. cbn [fold_left].
    rewrite (value_or_of_nonneg (saturate _ _)); [done|].
    apply saturate_nonneg; [apply value_or_nonneg|done].
Qed.

(** A field after its delimiter, or the first field. *)
Lemma paramSteps_field field ps :
  Forall is_digit field ->
  fold_left paramStep field (ps ++ [VTParameter.omitted], false) = (ps ++ [fieldValue field], false).
Proof.
  intros Hf. destruct (decide (field = [])) as [->|Hne]; [done|].
  by rewrite paramSteps_digits, fold_saturate_field.
Qed.

Lemma paramSteps_overflow text ps : fold_left paramStep text (ps, true) = (ps, true).
Proof. induction text; done. Qed.

Lemma paramStep_delimiter ps :
  ps <> [] ->
  paramStep (ps, false) 0x3B
  = if (MAX_PARAMETER_COUNT <=? length ps)%nat then (ps, true) else (ps ++ [VTParameter.omitted], false).
Proof. intros Hne. unfold paramStep. by rewrite bool_decide_false. Qed.

(** The fields after the first one. *)
Definition moreText (fields : list wstring) : wstring := concat (map (cons 0x3B) fields).

Lemma fieldText_cons field fields : fieldText (field :: fields) = field ++ moreText fields.
Proof.
  revert field. induction fields as [|f fields IH]; intros field.
  - cbn. by rewrite app_nil_r.
  - change (fieldText (field :: f :: fields)) with (field ++ 0x3B :: fieldText (f :: fields)).
    by rewrite IH.
Qed.

Lemma paramSteps_more fields ps :
  Forall (Forall is_digit) fields -> ps <> [] -> (length ps <= MAX_PARAMETER_COUNT)%nat ->
  (fold_left paramStep (moreText fields) (ps, false)).1
  = take MAX_PARAMETER_COUNT (ps ++ map fieldValue fields).
Proof.
  intros Hf. revert ps. induction Hf as [|field fields Hd Hf IH]; intros ps Hne Hlen.
  - cbn [map]. by rewrite app_nil_r, take_ge.
  - change (moreText (field :: fields)) with ((0x3B :: field) ++ moreText fields).
    rewrite fold_left_app. cbn [fold_left map]. rewrite paramStep_delimiter by done.
    destruct (Nat.leb_spec MAX_PARAMETER_COUNT (length ps)).
    + rewrite !paramSteps_overflow, take_app_le, take_ge; [done|lia|lia].
    + rewrite paramSteps_field by done. rewrite IH.
      * by rewrite <- app_assoc.
      * by destruct ps.
      * rewrite length_app. cbn. lia.
Qed.

(** The parameter text of a sequence denotes its fields. *)
Lemma paramSteps_text fields :
  Forall (Forall is_digit) fields ->
  (fold_left paramStep (fieldText fields) ([], false)).1 = fieldParams fields.
Proof.
  intros Hf. unfold fieldParams. destruct (fieldText fields) as [|c text] eqn:Ht; [done|].
  destruct fields as [|field fields]; [done|]. apply Forall_cons in Hf as [Hd Hf].
  assert (fold_left paramStep (c :: text) ([], false)
          = fold_left paramStep (c :: text) ([VTParameter.omitted], false)) as -> by done.
  pose proof (paramSteps_field field [] Hd) as Hfield. cbn [app] in Hfield.
  rewrite <- Ht, fieldText_cons, fold_left_app, Hfield.
  apply paramSteps_more; [done..|]. cbn. unfold MAX_PARAMETER_COUNT. lia.
Qed.

Lemma fieldText_chars fields :
  Forall (Forall is_digit) fields ->
  Forall (fun c => is_digit c \/ c = 0x3B) (fieldText fields).
Proof.
  intros Hf. destruct Hf as [|field fields Hd Hf]; [done|]. rewrite fieldText_cons.
  apply Forall_app. split; [by eapply Forall_impl; [exact Hd|]; auto|].
  unfold moreText. induction Hf as [|f fs Hd' Hf IH]; [done|]. cbn. constructor; [by right|].
  apply Forall_app. split; [by eapply Forall_impl; [exact Hd'|]; auto|done].
Qed.

Lemma VTIDBuilder_collect_app a b :
  VTIDBuilder.collect (a ++ b)
  = fold_left (fun b c => VTIDBuilder.AddIntermediate c b) b (VTIDBuilder.collect a).
Proof. apply fold_left_app. Qed.

(** Takes the branch of an event that the character selects. *)
Ltac unfold_classes :=
  unfold is_digit, _isNumericParamValue, _isC0Code, _isIntermediate, _isDelete, _isEscape,
    _isParameterDelimiter, _isSubParameterDelimiter, _isCsiIndicator, _isOscIndicator,
    _isCsiPrivateMarker, _isIntermediateInvalid, _isParameterInvalid, _isOscDelimiter,
    _isOscInvalid, _isOscTerminator, _isNumericParamValue, _isSubParameterDelimiter, _isSs3Indicator,
    _isParameterDelimiter, _isCsiPrivateMarker, AsciiChars.NUL, AsciiChars.ETB, AsciiChars.EM,
    AsciiChars.FS, AsciiChars.US, AsciiChars.DEL, AsciiChars.ESC, AsciiChars.BEL in *.
Ltac pick :=
  match goal with
  | |- twp (if ?b then _ else _) _ _ =>
      destruct b eqn:?; try (exfalso; unfold_classes; lia)
  end.

(** ** The machine along a control sequence *)
Section Csi.
Context {E H CB : Type} {engine : IStateMachineEngine E H CB}.
Context (fuel : nat) (processString : wstring -> M (StateMachine E H CB) unit).
Implicit Types (s : StateMachine E H CB).
Abbreviation process := (ProcessCharacter fuel processString).

Lemma twp_feed_app a b Q s :
  twp (feed fuel processString a) (fun _ => twp (feed fuel processString b) Q) s ->
  twp (feed fuel processString (a ++ b)) Q s.
Proof.
  intros Ha. destruct (twp_bind _ (fun _ => feed fuel processString b) Q s Ha) as (s' & x & Hrun & HQ).
  exists s', x. split; [|done]. by rewrite feed_app.
Qed.

(** What a sequence leaves alone until it is dispatched. *)
Definition env s :=
  (_engine s, _parserMode s, _isEngineForInput s, _processingLastCharacter s,
   _onCsiCompleteCallback s).

(** In [state], with [id] and parameters collected and no sub parameters. *)
Record collecting (state : VTStates) (id : VTIDBuilder) (ps : list VTParameter * bool) s0 s : Prop := {
  col_state : _state s = state;
  col_id : _identifier s = id;
  col_params : (_parameters s, _parameterLimitOverflowed s) = ps;
  col_sub : _subParameters s = [];
  col_ranges : _subParameterRanges s = repeat (0, 0) (length (_parameters s));
  col_values : Forall param_ok (_parameters s);
  col_env : env s = env s0 }.

(** A printable character that is not intercepted goes to the current state. *)
Lemma process_event wch s :
  0x20 <= wch < 0x7F ->
  process wch s = dispatchEvent fuel processString (_state s) wch s.
Proof.
  intros Hw. unfold process, ProcessCharacter. cbn [ProcessCharacter_rec]. rewrite !run_gets.
  assert ((wch =? AsciiChars.CAN) || (wch =? AsciiChars.SUB) = false) as ->
    by (unfold AsciiChars.CAN, AsciiChars.SUB; lia).
  assert (_isC1ControlCharacter wch = false) as -> by (unfold _isC1ControlCharacter; lia).
  assert (_isEscape wch = false) as -> by (unfold _isEscape, AsciiChars.ESC; lia).
  done.
Qed.

Lemma ranges_push s :
  _subParameters s = [] ->
  _subParameterRanges s = repeat (0, 0) (length (_parameters s)) ->
  _subParameterRanges (pushParameter s) = repeat (0, 0) (length (_parameters (pushParameter s))).
Proof.
  intros Hs Hr. unfold pushParameter. cbn. rewrite Hs, Hr, length_app. cbn.
  by rewrite repeat_app.
Qed.

(** [_ActionParam] does to the registers what [paramStep] says. *)
Lemma twp_ActionParam state id ps s0 c s :
  is_digit c \/ c = 0x3B -> collecting state id ps s0 s ->
  twp (_ActionParam c) (fun _ => collecting state id (paramStep ps c) s0) s.
Proof.
  intros Hc [Hst Hid Hps Hsub Hr Hv He]. subst ps. unfold _ActionParam, paramStep.
  twp_step. twp_step. destruct (_parameterLimitOverflowed s) eqn:Hov.
  { apply twp_ret. split; try done. by rewrite Hov. }
  twp_step. twp_step. twp_step.
  apply (twp_mono _ (fun _ s1 => collecting state id
           (if bool_decide (_parameters s = []) then [VTParameter.omitted] else _parameters s, false)
           s0 s1 /\ _parameters s1 <> [])).
  { case_bool_decide as Hnil.
    - apply twp_modify. split; [split; try done|].
      + unfold pushParameter. cbn. by rewrite Hnil, Hov.
      + by apply ranges_push.
      + unfold pushParameter. cbn. rewrite Hnil. by repeat constructor.
      + unfold pushParameter. cbn. by rewrite Hnil.
    - apply twp_ret. split; [split; try done|done]. by rewrite Hov. }
  intros [] s1 [[Hst1 Hid1 Hps1 Hsub1 Hr1 Hv1 He1] Hne1]. injection Hps1 as Hps1 Hov1.
  rewrite <- Hps1. destruct (_isParameterDelimiter c) eqn:Hd.
  - twp_step. twp_step. destruct (_ <=? _)%nat; apply twp_modify; (split; try done).
    + cbn. by rewrite Hov1.
    + by apply (ranges_push (set_subParameterLimitOverflowed false (set_subParameterCounter 0 s1))).
    + unfold pushParameter. cbn. apply Forall_app. split; [done|by repeat constructor].
  - twp_step. twp_step. twp_step. unfold back. destruct (exists_last Hne1) as (l & x & Hx).
    rewrite Hx, last_snoc, last_snoc_default. twp_step. twp_step.
    assert (param_ok x) as Hok by (by eapply Forall_snoc_last).
    apply value_or_bounds in Hok. destruct Hc as [Hc| ->]; [|done].
    unfold _AccumulateTo, is_digit, _isNumericParamValue, MAX_PARAMETER_VALUE in *.
    set (v := VTParameter.value_or x 0) in *.
    destruct (_ || _) eqn:Hub; [lia|]. twp_step. twp_step.
    assert ((if v * 10 + (c - 48) >? 65535 then 65535 else v * 10 + (c - 48)) = saturate v c) as ->.
    { unfold saturate, MAX_PARAMETER_VALUE. destruct (_ >? _) eqn:?; lia. }
    split; try done; cbn; rewrite ?Hx, ?set_back_snoc.
    + by rewrite Hov1.
    + rewrite Hr1, Hx, !length_app. done.
    + rewrite Hx in Hv1. apply Forall_app in Hv1 as [Hl _]. apply Forall_app. split; [done|].
      constructor; [|done]. unfold param_ok, saturate, MAX_PARAMETER_VALUE. lia.
Qed.

Lemma collecting_enter state state' id ps s0 s :
  collecting state id ps s0 s -> collecting state' id ps s0 (set_state state' s).
Proof. intros []. by split. Qed.

Lemma collecting_collect state id ps s0 s c :
  collecting state id ps s0 s ->
  collecting state (VTIDBuilder.AddIntermediate c id) ps s0
    (set_identifier (VTIDBuilder.AddIntermediate c (_identifier s)) s).
Proof. intros [? Hid]. split; try done. cbn. by rewrite Hid. Qed.

Lemma twp_event wch Q s :
  0x20 <= wch < 0x7F -> twp (dispatchEvent fuel processString (_state s) wch) Q s ->
  twp (process wch) Q s.
Proof. intros Hw (s' & a & Hrun & HQ). exists s', a. by rewrite process_event. Qed.

(** ESC [ clears the registers. *)
Lemma twp_introducer s :
  _state s = Ground -> GetParserMode Ansi s = true ->
  twp (feed fuel processString [AsciiChars.ESC; 0x5B])
    (fun _ => collecting CsiEntry VTIDBuilder.Clear ([], false) s) s.
Proof.
  intros Hst Hansi. cbn [feed]. apply twp_bind.
  exists (clear (set_state Escape s)), tt. split; [destruct s; cbn in Hst; by subst|].
  apply twp_bind, twp_event; [lia|]. change (_state (clear (set_state Escape s))) with Escape.
  cbn [dispatchEvent]. unfold _EventEscape. twp_step. twp_step. twp_step. twp_step.
  change (GetParserMode Ansi (clear (set_state Escape s))) with (GetParserMode Ansi s).
  rewrite Hansi. repeat pick. unfold _EnterCsiEntry, _ActionClear. twp_steps. by split.
Qed.

Lemma twp_marker c s0 s :
  _isCsiPrivateMarker c = true ->
  collecting CsiEntry VTIDBuilder.Clear ([], false) s0 s ->
  twp (process c)
    (fun _ => collecting CsiParam (VTIDBuilder.AddIntermediate c VTIDBuilder.Clear) ([], false) s0) s.
Proof.
  intros Hc Hs. apply twp_event; [unfold_classes; lia|]. rewrite (col_state _ _ _ _ _ Hs).
  cbn [dispatchEvent]. unfold _EventCsiEntry. repeat pick.
  unfold _ActionCollect, _EnterCsiParam. twp_steps.
  eapply collecting_enter. by apply collecting_collect.
Qed.

Definition in_params (state : VTStates) : Prop := state = CsiEntry \/ state = CsiParam.

Lemma twp_param state c id ps s0 s :
  in_params state -> is_digit c \/ c = 0x3B -> collecting state id ps s0 s ->
  twp (process c) (fun _ => collecting CsiParam id (paramStep ps c) s0) s.
Proof.
  intros Hst Hc Hs. apply twp_event; [unfold_classes; lia|]. rewrite (col_state _ _ _ _ _ Hs).
  pose proof (twp_ActionParam _ _ _ _ c _ Hc Hs) as Hparam.
  destruct Hst as [?|?]; subst state; cbn [dispatchEvent]; [unfold _EventCsiEntry|unfold _EventCsiParam];
    repeat pick; [|done].
  apply twp_bind. eapply twp_mono; [exact Hparam|]. intros [] s1 Hs1.
  apply twp_modify. by eapply collecting_enter.
Qed.

Lemma twp_params text state id ps s0 s :
  in_params state -> Forall (fun c => is_digit c \/ c = 0x3B) text -> collecting state id ps s0 s ->
  twp (feed fuel processString text)
    (fun _ s' => exists state', in_params state'
       /\ collecting state' id (fold_left paramStep text ps) s0 s') s.
Proof.
  intros Hst Ht. revert state ps s Hst. induction Ht as [|c text Hc Ht IH]; intros state ps s Hst Hs.
  - apply twp_ret. by exists state.
  - cbn [feed]. apply twp_bind. eapply twp_mono; [by apply (twp_param state)|].
    intros [] s1 Hs1. apply (IH CsiParam); [by right|done].
Qed.

Definition before_final (state : VTStates) : Prop := in_params state \/ state = CsiIntermediate.

Lemma twp_intermediates text state id ps s0 s :
  before_final state -> Forall (fun c => _isIntermediate c = true) text ->
  collecting state id ps s0 s ->
  twp (feed fuel processString text)
    (fun _ s' => exists state', before_final state'
       /\ collecting state' (fold_left (fun b c => VTIDBuilder.AddIntermediate c b) text id) ps s0 s') s.
Proof.
  intros Hst Ht. revert state id s Hst. induction Ht as [|c text Hc Ht IH]; intros state id s Hst Hs.
  - apply twp_ret. by exists state.
  - cbn [feed]. apply twp_bind.
    apply (twp_mono _ (fun _ => collecting CsiIntermediate (VTIDBuilder.AddIntermediate c id) ps s0)).
    + apply twp_event; [unfold_classes; lia|]. rewrite (col_state _ _ _ _ _ Hs).
      destruct Hst as [[?|?]|?]; subst state; cbn [dispatchEvent];
        [unfold _EventCsiEntry|unfold _EventCsiParam|unfold _EventCsiIntermediate];
        repeat pick; unfold _ActionCollect, _EnterCsiIntermediate; twp_steps;
        try (eapply collecting_enter); by apply collecting_collect.
    + intros [] s1 Hs1. apply (IH CsiIntermediate); [by right|done].
Qed.

(** The final character: the engine gets the identifier and the parameters. *)
Lemma twp_final final state id ps s0 s e' :
  before_final state -> 0x40 <= final <= 0x7E -> collecting state id ps s0 s ->
  (0 < fuel)%nat -> _onCsiCompleteCallback s0 = None ->
  ActionCsiDispatch (VTIDBuilder.Finalize final id)
    (mkVTParameters ps.1 [] (repeat (0, 0) (length ps.1))) (engineView s0) (_engine s0)
  = (e', [], Returned true) ->
  twp (process final) (fun _ s' => _state s' = Ground /\ _engine s' = e') s.
Proof.
  intros Hst Hf [Hs Hid Hps Hsub Hr Hv He] Hfuel Hcb Hact.
  apply twp_event; [lia|]. rewrite Hs. unfold env in He. injection He as He Hpm Hin Hlast Hcb'.
  assert (twp (_ActionCsiDispatch fuel final ;; _EnterGround ;;
               _ExecuteCsiCompleteCallback processString)
            (fun _ s' => _state s' = Ground /\ _engine s' = e') s) as Hrun.
  { exists (enterGround (set_engine e' s)), tt. split; [|done].
    rewrite (run_bind _ _ s (set_engine e' s) tt).
    - unfold _EnterGround. rewrite run_modify. unfold _ExecuteCsiCompleteCallback. rewrite run_gets.
      change (_onCsiCompleteCallback (enterGround (set_engine e' s))) with (_onCsiCompleteCallback s).
      by rewrite Hcb', Hcb.
    - unfold _ActionCsiDispatch. destruct fuel as [|f]; [lia|]. cbn [_SafeExecute].
      unfold mbind, M_bind, try_catch, gets, callEngine.
      subst ps. cbn [fst] in Hact. rewrite <- Hid, <- Hr, <- Hsub in Hact.
      replace (engineView s) with (engineView s0)
        by (unfold engineView, IsProcessingLastCharacter; congruence).
      rewrite He, Hact. reflexivity. }
  destruct Hst as [[?|?]|?]; subst state; cbn [dispatchEvent];
    [unfold _EventCsiEntry|unfold _EventCsiParam|unfold _EventCsiIntermediate]; repeat pick; exact Hrun.
Qed.

Lemma twp_csi marker fields intermediates final s e' :
  Forall (fun c => _isCsiPrivateMarker c = true) (option_list marker) ->
  Forall (Forall is_digit) fields ->
  Forall (fun c => _isIntermediate c = true) intermediates ->
  0x40 <= final <= 0x7E ->
  _state s = Ground -> GetParserMode Ansi s = true -> (0 < fuel)%nat ->
  _onCsiCompleteCallback s = None ->
  let params := fieldParams fields in
  ActionCsiDispatch
    (VTIDBuilder.Finalize final (VTIDBuilder.collect (option_list marker ++ intermediates)))
    (mkVTParameters params [] (repeat (0, 0) (length params))) (engineView s) (_engine s)
  = (e', [], Returned true) ->
  twp (feed fuel processString
         ([AsciiChars.ESC; 0x5B] ++ option_list marker ++ fieldText fields ++ intermediates ++ [final]))
    (fun _ s' => _state s' = Ground /\ _engine s' = e') s.
Proof.
  intros Hm Hf Hi Hfin Hst Hansi Hfuel Hcb params Hact.
  apply twp_feed_app. eapply twp_mono; [by apply twp_introducer|]. intros [] s1 Hs1.
  apply twp_feed_app.
  apply (twp_mono _ (fun _ s2 => exists state, in_params state /\
    collecting state (VTIDBuilder.collect (option_list marker)) ([], false) s s2)).
  { destruct marker as [c|]; cbn [option_list feed].
    - apply twp_bind. eapply twp_mono; [apply twp_marker; [by inversion Hm|exact Hs1]|].
      intros [] s2 Hs2. apply twp_ret. exists CsiParam. split; [by right|done].
    - apply twp_ret. exists CsiEntry. split; [by left|done]. }
  intros [] s2 (state & Hin & Hs2). apply twp_feed_app.
  eapply twp_mono; [apply (twp_params _ state); [done| |exact Hs2]|].
  { by apply fieldText_chars. }
  intros [] s3 (state' & Hin' & Hs3). apply twp_feed_app.
  eapply twp_mono; [apply (twp_intermediates _ state'); [by left|done|exact Hs3]|].
  intros [] s4 (state4 & Hbf & Hs4). cbn [feed]. apply twp_bind.
  unfold params in Hact. rewrite <- (paramSteps_text fields Hf) in Hact.
  rewrite VTIDBuilder_collect_app in Hact.
  eapply twp_mono; [by eapply twp_final|]. intros [] s5 ?. by apply twp_ret.
Qed.

(** ** The machine along an operating system command *)

(** A character of the text: none that ends or interrupts the string. *)
Definition is_oscText (c : wchar_t) : Prop :=
  c <> AsciiChars.BEL /\ c <> AsciiChars.ESC /\ c <> AsciiChars.CAN /\ c <> AsciiChars.SUB
  /\ _isC1ControlCharacter c = false.

#[global] Instance is_oscText_dec c : Decision (is_oscText c).
Proof. unfold is_oscText. apply _. Defined.

Record inOsc (state : VTStates) (param : Z) (text : wstring) s0 s : Prop := {
  osc_state : _state s = state;
  osc_param : _oscParameter s = param;
  osc_text : _oscString s = text;
  osc_env : env s = env s0 }.

Lemma twp_osc_event c Q s :
  is_oscText c \/ c = AsciiChars.BEL -> twp (dispatchEvent fuel processString (_state s) c) Q s ->
  twp (process c) Q s.
Proof.
  intros Hc (s' & a & Hrun & HQ). exists s', a. split; [|done]. rewrite <- Hrun.
  unfold process, ProcessCharacter. cbn [ProcessCharacter_rec]. rewrite !run_gets.
  assert ((c =? AsciiChars.CAN) || (c =? AsciiChars.SUB) = false
          /\ _isC1ControlCharacter c = false /\ _isEscape c = false) as (-> & -> & ->); [|done].
  unfold is_oscText, _isC1ControlCharacter, _isEscape, AsciiChars.BEL, AsciiChars.CAN,
    AsciiChars.SUB, AsciiChars.ESC in *. lia.
Qed.

Lemma twp_osc_introducer s :
  _state s = Ground -> GetParserMode Ansi s = true ->
  twp (feed fuel processString [AsciiChars.ESC; 0x5D]) (fun _ => inOsc OscParam 0 [] s) s.
Proof.
  intros Hst Hansi. cbn [feed]. apply twp_bind.
  exists (clear (set_state Escape s)), tt. split; [destruct s; cbn in Hst; by subst|].
  apply twp_bind, twp_event; [lia|]. change (_state (clear (set_state Escape s))) with Escape.
  cbn [dispatchEvent]. unfold _EventEscape. twp_step. twp_step. twp_step. twp_step.
  change (GetParserMode Ansi (clear (set_state Escape s))) with (GetParserMode Ansi s).
  rewrite Hansi. repeat pick. unfold _EnterOscParam. twp_steps. by split.
Qed.

Lemma twp_osc_digits digits v s0 s :
  Forall is_digit digits -> 0 <= v <= MAX_PARAMETER_VALUE -> inOsc OscParam v [] s0 s ->
  twp (feed fuel processString digits)
    (fun _ => inOsc OscParam (fold_left saturate digits v) [] s0) s.
Proof.
  intros Hd. revert v s. induction Hd as [|c digits Hc Hd IH]; intros v s Hv Hs; [by apply twp_ret|].
  cbn [feed fold_left]. apply twp_bind, twp_osc_event.
  { left. unfold is_oscText, _isC1ControlCharacter, is_digit, _isNumericParamValue, AsciiChars.BEL,
      AsciiChars.CAN, AsciiChars.SUB, AsciiChars.ESC in *. lia. }
  destruct Hs as [Hst Hp Ht He]. rewrite Hst. cbn [dispatchEvent]. unfold _EventOscParam. repeat pick.
  unfold _ActionOscParam. twp_step. twp_step. twp_step. rewrite Hp. unfold _AccumulateTo.
  unfold is_digit, _isNumericParamValue, MAX_PARAMETER_VALUE in *. destruct (_ || _) eqn:Hub; [lia|].
  twp_steps. apply IH; [unfold saturate, MAX_PARAMETER_VALUE; lia|]. split; try done. cbn.
  unfold saturate, MAX_PARAMETER_VALUE. destruct (_ >? _) eqn:?; lia.
Qed.

Lemma twp_osc_text text param pre s0 s :
  Forall is_oscText text -> inOsc OscString param pre s0 s ->
  twp (feed fuel processString text)
    (fun _ => inOsc OscString param (pre ++ List.filter (fun c => negb (_isOscInvalid c)) text) s0) s.
Proof.
  intros Ht. revert pre s. induction Ht as [|c text Hc Ht IH]; intros pre s Hs.
  { apply twp_ret. by rewrite app_nil_r. }
  cbn [feed List.filter]. apply twp_bind, twp_osc_event; [by left|].
  destruct Hs as [Hst Hp Hx He]. rewrite Hst. cbn [dispatchEvent]. unfold _EventOscString.
  destruct (_isOscTerminator c) eqn:Hbel.
  { destruct Hc as [Hc _]. unfold _isOscTerminator in Hbel. lia. }
  destruct (_isEscape c) eqn:Hesc.
  { destruct Hc as (_ & Hc & _). unfold _isEscape in Hesc. lia. }
  destruct (_isOscInvalid c); cbn [negb].
  - apply twp_ret. by apply IH.
  - apply twp_modify. rewrite cons_middle, app_assoc. apply IH. split; try done. cbn. by rewrite Hx.
Qed.

Lemma twp_osc digits text s e' :
  Forall is_digit digits -> Forall is_oscText text ->
  _state s = Ground -> GetParserMode Ansi s = true -> (0 < fuel)%nat ->
  ActionOscDispatch (Z.min MAX_PARAMETER_VALUE (decimalValue digits))
    (List.filter (fun c => negb (_isOscInvalid c)) text) (engineView s) (_engine s)
  = (e', [], Returned true) ->
  twp (feed fuel processString
         ([AsciiChars.ESC; 0x5D] ++ digits ++ [0x3B] ++ text ++ [AsciiChars.BEL]))
    (fun _ s' => _state s' = Ground /\ _engine s' = e') s.
Proof.
  intros Hd Ht Hst Hansi Hfuel Hact.
  apply twp_feed_app. eapply twp_mono; [by apply twp_osc_introducer|]. intros [] s1 Hs1.
  apply twp_feed_app. eapply twp_mono; [apply (twp_osc_digits digits 0); [done| |exact Hs1]|].
  { unfold MAX_PARAMETER_VALUE. lia. }
  intros [] s2 Hs2. apply twp_feed_app.
  pose proof (saturate_fold digits 0 Hd) as Hsat. unfold MAX_PARAMETER_VALUE at 1 in Hsat.
  change (Z.min 65535 0) with 0 in Hsat. rewrite Hsat in Hs2 by lia. fold (decimalValue digits) in Hs2.
  cbn [feed]. apply twp_bind, twp_event; [lia|]. rewrite (osc_state _ _ _ _ _ Hs2).
  cbn [dispatchEvent]. unfold _EventOscParam. repeat pick. unfold _EnterOscString. twp_steps.
  apply twp_feed_app. eapply twp_mono; [apply (twp_osc_text text); [done|]|].
  { destruct Hs2. by split. }
  intros [] s3 [Hst3 Hp3 Hx3 He3]. cbn [feed app] in *.
  apply twp_bind, twp_osc_event; [by right|]. rewrite Hst3. cbn [dispatchEvent].
  unfold _EventOscString. repeat pick. unfold env in He3. injection He3 as He Hpm Hin Hlast _.
  exists (enterGround (set_engine e' s3)), tt. split; [|by apply twp_ret].
  rewrite (run_bind _ _ s3 (set_engine e' s3) tt); [done|].
  unfold _ActionOscDispatch. destruct fuel as [|f]; [lia|]. cbn [_SafeExecute].
  unfold mbind, M_bind, try_catch, gets, callEngine.
  replace (engineView s3) with (engineView s)
    by (unfold engineView, IsProcessingLastCharacter; congruence).
  rewrite Hp3, Hx3, He, Hact. reflexivity.
Qed.

(** ** The machine along a single shift *)
Lemma twp_ss3 final s e' :
  0x40 <= final <= 0x7E -> _state s = Ground -> GetParserMode Ansi s = true -> _isEngineForInput s = true ->
  (0 < fuel)%nat ->
  ActionSs3Dispatch final (VTParameters.of_params []) (engineView s) (_engine s) = (e', [], Returned true) ->
  twp (feed fuel processString [AsciiChars.ESC; 0x4F; final])
    (fun _ s' => _state s' = Ground /\ _engine s' = e') s.
Proof.
  intros Hf Hst Hansi Hin Hfuel Hact. cbn [feed]. apply twp_bind.
  exists (clear (set_state Escape s)), tt. split; [destruct s; cbn in Hst; by subst|].
  apply twp_bind, twp_event; [lia|]. change (_state (clear (set_state Escape s))) with Escape.
  cbn [dispatchEvent]. unfold _EventEscape. twp_step. twp_step. twp_step. twp_step.
  change (GetParserMode Ansi (clear (set_state Escape s))) with (GetParserMode Ansi s).
  change (_isEngineForInput (clear (set_state Escape s))) with (_isEngineForInput s).
  rewrite Hansi, Hin. repeat pick. unfold _EnterSs3Entry, _ActionClear. twp_steps.
  set (s1 := clear _). apply twp_event; [lia|]. change (_state s1) with Ss3Entry.
  cbn [dispatchEvent]. unfold _EventSs3Entry. repeat pick.
  exists (enterGround (set_engine e' s1)), tt. split; [|by apply twp_ret].
  rewrite (run_bind _ _ s1 (set_engine e' s1) tt); [done|].
  unfold _ActionSs3Dispatch. destruct fuel as [|f]; [lia|]. cbn [_SafeExecute].
  unfold mbind, M_bind, try_catch, gets, callEngine.
  change (engineView s1) with (engineView s). change (_engine s1) with (_engine s). change (_parameters s1) with ([] : list VTParameter).
  rewrite Hact. reflexivity.
Qed.

End Csi.
