(* ===== verification/StateMachineSubParams.v ===== *)
(** * Control sequences with sub parameters

    What the parser makes of a CSI sequence whose parameters carry sub parameters, separated
    by colons: each parameter reaches the engine with the range of its sub parameters. *)
From S2P Require Import Prelude DispatchTypes VtUtils StateMachine StateMachineInv StateMachineStream StateMachineGrammar.

(** A parameter with its sub parameters, as digits. *)
Definition Item : Type := wstring * list wstring.
Definition subText (subs : list wstring) : wstring := concat (map (cons 0x3A) subs).
Definition itemText (item : Item) : wstring := item.1 ++ subText item.2.
Definition moreItems (items : list Item) : wstring := concat (map (fun item => 0x3B :: itemText item) items).
Definition itemsText (items : list Item) : wstring :=
  match items with [] => [] | item :: items => itemText item ++ moreItems items end.

(** The registers of the parser. *)
Record Registers := mkRegisters {
  r_params : list VTParameter; r_subs : list VTParameter; r_ranges : list (Z * Z); r_counter : Z }.

(** One more parameter with its sub parameters. *)
Definition addItem (r : Registers) (item : Item) : Registers :=
  let n := Z.of_nat (length (r_subs r)) in
  mkRegisters (r_params r ++ [fieldValue item.1]) (r_subs r ++ map fieldValue item.2)
    (r_ranges r ++ [(n, n + Z.of_nat (length item.2))]) (Z.of_nat (length item.2)).
Definition noRegisters : Registers := mkRegisters [] [] [] 0.
Definition itemRegisters (items : list Item) : Registers := fold_left addItem items noRegisters.
Definition itemParameters (items : list Item) : VTParameters :=
  let r := itemRegisters items in mkVTParameters (r_params r) (r_subs r) (r_ranges r).

(** What stays within the limits of the parser. *)
Definition is_field (field : wstring) : Prop := Forall is_digit field.
Definition item_ok (item : Item) : Prop :=
  is_field item.1 /\ item.1 <> [] /\ Forall is_field item.2 /\ (length item.2 <= 6)%nat.
Definition items_ok (items : list Item) : Prop :=
  Forall item_ok items /\ (length items <= MAX_PARAMETER_COUNT)%nat.

Section SubParams.
Context {E H CB : Type} {engine : IStateMachineEngine E H CB}.
Context (fuel : nat) (processString : wstring -> M (StateMachine E H CB) unit).
Implicit Types (s : StateMachine E H CB).
Abbreviation process := (ProcessCharacter fuel processString).

Record holding (state : VTStates) (id : VTIDBuilder) (r : Registers) s0 s : Prop := {
  h_state : _state s = state;
  h_id : _identifier s = id;
  h_params : _parameters s = r_params r;
  h_subs : _subParameters s = r_subs r;
  h_ranges : _subParameterRanges s = r_ranges r;
  h_counter : _subParameterCounter s = r_counter r;
  h_overflowed : _parameterLimitOverflowed s = false;
  h_subOverflowed : _subParameterLimitOverflowed s = false;
  h_env : env s = env s0 }.

Lemma holding_enter state state' id r s0 s : holding state id r s0 s -> holding state' id r s0 (set_state state' s).
Proof. intros []. by split. Qed.

(** A number in a register, with one more digit. *)
Lemma twp_AccumulateTo c v (Q : Z -> StateMachine E H CB -> Prop) s :
  is_digit c -> param_ok v -> Q (saturate (VTParameter.value_or v 0) c) s ->
  twp (_AccumulateTo c (VTParameter.value_or v 0)) Q s.
Proof.
  intros Hc Hv HQ. apply value_or_bounds in Hv. unfold _AccumulateTo, is_digit, _isNumericParamValue, MAX_PARAMETER_VALUE in *.
  set (w := VTParameter.value_or v 0) in *. destruct (_ || _) eqn:Hub; [lia|]. apply twp_ret.
  assert ((if w * 10 + (c - 48) >? 65535 then 65535 else w * 10 + (c - 48)) = saturate w c) as ->; [|done].
  unfold saturate, MAX_PARAMETER_VALUE. destruct (_ >? _) eqn:?; lia.
Qed.

Lemma saturate_ok v c : is_digit c -> 0 <= v -> param_ok (saturate v c).
Proof. unfold is_digit, _isNumericParamValue, param_ok, saturate, MAX_PARAMETER_VALUE. lia. Qed.

(** *** One character *)
Definition pushed (r : Registers) : Registers :=
  let n := Z.of_nat (length (r_subs r)) in
  mkRegisters (r_params r ++ [VTParameter.omitted]) (r_subs r) (r_ranges r ++ [(n, n)]) 0.
Definition digitStep (r : Registers) (ps : list VTParameter) (v : VTParameter) (c : wchar_t) : Registers :=
  mkRegisters (ps ++ [saturate (VTParameter.value_or v 0) c]) (r_subs r) (r_ranges r) (r_counter r).

(** A digit of a parameter that has been pushed. *)
Lemma twp_digit id r ps v c s0 s : r_params r = ps ++ [v] -> param_ok v -> is_digit c ->
  holding CsiParam id r s0 s ->
  twp (process c) (fun _ => holding CsiParam id (digitStep r ps v c) s0) s.
Proof.
  intros Hr Hv Hc [Hst Hid Hps Hsub Hrng Hcnt Hov Hsov He]. apply twp_event; [unfold_classes; lia|]. rewrite Hst. cbn [dispatchEvent].
  unfold _EventCsiParam. repeat pick. unfold _ActionParam. twp_step. twp_step. rewrite Hov. twp_step. twp_step. twp_step.
  rewrite Hps, Hr. rewrite bool_decide_false by (by destruct ps). apply twp_ret. rewrite digit_not_delimiter by done.
  twp_step. twp_step. twp_step. unfold back. rewrite Hps, Hr, last_snoc. twp_step. twp_step.
  apply twp_AccumulateTo; [done..|]. apply twp_modify. split; try done. cbn. by rewrite Hps, Hr, set_back_snoc.
Qed.

(** The first digit of a sequence pushes the first parameter. *)
Lemma twp_firstDigit state id c s0 s : in_params state -> is_digit c -> holding state id noRegisters s0 s ->
  twp (process c) (fun _ => holding CsiParam id (digitStep (pushed noRegisters) [] VTParameter.omitted c) s0) s.
Proof.
  intros Hin Hc [Hst Hid Hps Hsub Hrng Hcnt Hov Hsov He]. apply twp_event; [unfold_classes; lia|]. rewrite Hst.
  assert (Hp : twp (_ActionParam c) (fun _ => holding state id (digitStep (pushed noRegisters) [] VTParameter.omitted c) s0) s).
  { unfold _ActionParam. twp_step. twp_step. rewrite Hov. twp_step. twp_step. twp_step.
    rewrite Hps. rewrite bool_decide_true by done. apply twp_modify. rewrite digit_not_delimiter by done.
    twp_step. twp_step. twp_step. unfold back, pushParameter. cbn. rewrite Hps. cbn. twp_step. twp_step.
    apply (twp_AccumulateTo c VTParameter.omitted); [done|unfold param_ok, VTParameter.omitted, MAX_PARAMETER_VALUE; lia|]. apply twp_modify. split; try done; cbn.
    all: by rewrite ?Hps, ?Hrng, ?Hsub. }
  destruct Hin as [?|?]; subst state; cbn [dispatchEvent]; [unfold _EventCsiEntry|unfold _EventCsiParam]; repeat pick; [|done].
  apply twp_bind. eapply twp_mono; [exact Hp|]. intros [] s1 Hs1. apply twp_modify. by eapply holding_enter.
Qed.

Definition in_item (state : VTStates) : Prop := state = CsiParam \/ state = CsiSubParam.

Lemma twp_semicolon state id r s0 s : in_item state -> r_params r <> [] -> (length (r_params r) < MAX_PARAMETER_COUNT)%nat ->
  (length (r_subs r) < 256)%nat -> holding state id r s0 s ->
  twp (process 0x3B) (fun _ => holding CsiParam id (pushed r) s0) s.
Proof.
  intros Hin Hne Hlen Hlsub [Hst Hid Hps Hsub Hrng Hcnt Hov Hsov He]. apply twp_event; [lia|]. rewrite Hst.
  assert (Hp : twp (_ActionParam 0x3B) (fun _ => holding state id (pushed r) s0) s).
  { unfold _ActionParam. twp_step. twp_step. rewrite Hov. twp_step. twp_step. twp_step.
    rewrite Hps. rewrite bool_decide_false by done. apply twp_ret. change (_isParameterDelimiter 0x3B) with true. cbv iota.
    twp_step. twp_step. rewrite Hps. destruct (Nat.leb_spec MAX_PARAMETER_COUNT (length (r_params r))); [lia|].
    apply twp_modify. split; try done; cbn; rewrite ?Hps, ?Hrng, ?Hsub; [done|].
    rewrite !(wrap_small 8) by (change (2 ^ 8) with 256; lia). done. }
  destruct Hin as [?|?]; subst state; cbn [dispatchEvent]; [unfold _EventCsiParam|unfold _EventCsiSubParam]; repeat pick; [done|].
  apply twp_bind. eapply twp_mono; [exact Hp|]. intros [] s1 Hs1. apply twp_modify. by eapply holding_enter.
Qed.

(** One more sub parameter of the last parameter. *)
Definition colonStep (r : Registers) (ranges : list (Z * Z)) (a b : Z) : Registers :=
  mkRegisters (r_params r) (r_subs r ++ [VTParameter.omitted]) (ranges ++ [(a, b + 1)]) (r_counter r + 1).

Lemma twp_colon state id r ranges a b s0 s : in_item state -> r_params r <> [] -> r_ranges r = ranges ++ [(a, b)] ->
  0 <= b < 255 -> 0 <= r_counter r < 6 -> holding state id r s0 s ->
  twp (process 0x3A) (fun _ => holding CsiSubParam id (colonStep r ranges a b) s0) s.
Proof.
  intros Hin Hne Hr Hb Hc [Hst Hid Hps Hsub Hrng Hcnt Hov Hsov He]. apply twp_event; [lia|]. rewrite Hst.
  assert (Hp : twp (_ActionSubParam 0x3A) (fun _ => holding state id (colonStep r ranges a b) s0) s).
  { unfold _ActionSubParam. twp_step. twp_step. rewrite Hsov. twp_step. twp_step. twp_step.
    rewrite Hps. rewrite bool_decide_false by done. apply twp_ret. change (_isSubParameterDelimiter 0x3A) with true. cbv iota.
    twp_step. twp_step. rewrite Hcnt. destruct (r_counter r >=? MAX_SUBPARAMETER_COUNT) eqn:Hge; [unfold MAX_SUBPARAMETER_COUNT in Hge; lia|].
    twp_step. twp_step. twp_step. twp_step. twp_step. unfold back.
    change (_subParameterRanges (set_subParameters _ s)) with (_subParameterRanges s).
    rewrite Hrng, Hr, last_snoc. twp_step. twp_step. twp_step. twp_step.
    split; try done; cbn; rewrite ?Hps, ?Hsub, ?set_back_snoc, ?(wrap_small 8) by (change (2 ^ 8) with 256; lia); done. }
  destruct Hin as [?|?]; subst state; cbn [dispatchEvent]; [unfold _EventCsiParam|unfold _EventCsiSubParam]; repeat pick; [|done].
  apply twp_bind. eapply twp_mono; [exact Hp|]. intros [] s1 Hs1. apply twp_modify. by eapply holding_enter.
Qed.

Definition subDigitStep (r : Registers) (subs : list VTParameter) (v : VTParameter) (c : wchar_t) : Registers :=
  mkRegisters (r_params r) (subs ++ [saturate (VTParameter.value_or v 0) c]) (r_ranges r) (r_counter r).

Lemma twp_subDigit id r subs v c s0 s : r_params r <> [] -> r_subs r = subs ++ [v] -> param_ok v -> is_digit c ->
  holding CsiSubParam id r s0 s ->
  twp (process c) (fun _ => holding CsiSubParam id (subDigitStep r subs v c) s0) s.
Proof.
  intros Hne Hr Hv Hc [Hst Hid Hps Hsub Hrng Hcnt Hov Hsov He]. apply twp_event; [unfold_classes; lia|]. rewrite Hst. cbn [dispatchEvent].
  unfold _EventCsiSubParam. repeat pick. unfold _ActionSubParam. twp_step. twp_step. rewrite Hsov. twp_step. twp_step. twp_step.
  rewrite Hps. rewrite bool_decide_false by done. apply twp_ret.
  assert (_isSubParameterDelimiter c = false) as -> by (unfold_classes; lia).
  twp_step. twp_step. twp_step. unfold back. rewrite Hsub, Hr, last_snoc. twp_step. twp_step.
  apply twp_AccumulateTo; [done..|]. apply twp_modify. split; try done. cbn. by rewrite Hsub, Hr, set_back_snoc.
Qed.

(** *** Fields *)
Definition accumulate (v : VTParameter) (field : wstring) : VTParameter :=
  match field with [] => v | _ => fold_left saturate field (VTParameter.value_or v 0) end.

Lemma accumulate_omitted field : is_field field -> accumulate VTParameter.omitted field = fieldValue field.
Proof. intros Hf. destruct field as [|c field]; [done|]. cbn [accumulate]. by rewrite <- fold_saturate_field. Qed.

Lemma accumulate_cons v c field : is_digit c -> accumulate v (c :: field) = accumulate (saturate (VTParameter.value_or v 0) c) field.
Proof.
  intros Hc. cbn [accumulate fold_left]. destruct field as [|d field]; [done|]. cbn [accumulate].
  by rewrite (value_or_of_nonneg (saturate _ _)) by (apply saturate_nonneg; [apply value_or_nonneg|done]).
Qed.

Lemma twp_field field id ps v subs ranges n s0 s : is_field field -> param_ok v ->
  holding CsiParam id (mkRegisters (ps ++ [v]) subs ranges n) s0 s ->
  twp (feed fuel processString field) (fun _ => holding CsiParam id (mkRegisters (ps ++ [accumulate v field]) subs ranges n) s0) s.
Proof.
  intros Hf. revert v s. induction Hf as [|c field Hc Hf IH]; intros v s Hv Hs; [by apply twp_ret|].
  rewrite accumulate_cons by done. cbn [feed]. apply twp_bind. eapply twp_mono; [by apply (twp_digit id (mkRegisters (ps ++ [v]) subs ranges n) ps v)|].
  intros [] s1 Hs1. apply (IH _ s1); [apply saturate_ok; [done|apply value_or_nonneg]|exact Hs1].
Qed.

Lemma twp_subField field id ps v subs ranges n s0 s : is_field field -> param_ok v -> ps <> [] ->
  holding CsiSubParam id (mkRegisters ps (subs ++ [v]) ranges n) s0 s ->
  twp (feed fuel processString field) (fun _ => holding CsiSubParam id (mkRegisters ps (subs ++ [accumulate v field]) ranges n) s0) s.
Proof.
  intros Hf Hv Hne. revert v s Hv. induction Hf as [|c field Hc Hf IH]; intros v s Hv Hs; [by apply twp_ret|].
  rewrite accumulate_cons by done. cbn [feed]. apply twp_bind. eapply twp_mono; [by apply (twp_subDigit id (mkRegisters ps (subs ++ [v]) ranges n) subs v)|].
  intros [] s1 Hs1. apply (IH _ s1); [apply saturate_ok; [done|apply value_or_nonneg]|exact Hs1].
Qed.

Lemma omitted_ok : param_ok VTParameter.omitted.
Proof. unfold param_ok, VTParameter.omitted, MAX_PARAMETER_VALUE. lia. Qed.

Lemma twp_subs sl state id ps subs ranges a b n s0 s : Forall is_field sl -> in_item state -> ps <> [] ->
  0 <= b -> b + Z.of_nat (length sl) <= 255 -> 0 <= n -> n + Z.of_nat (length sl) <= 6 ->
  holding state id (mkRegisters ps subs (ranges ++ [(a, b)]) n) s0 s ->
  twp (feed fuel processString (subText sl))
    (fun _ s' => exists state', in_item state' /\ holding state' id
       (mkRegisters ps (subs ++ map fieldValue sl) (ranges ++ [(a, b + Z.of_nat (length sl))]) (n + Z.of_nat (length sl))) s0 s') s.
Proof.
  intros Hsl. revert state subs b n s. induction Hsl as [|field sl Hf Hsl IH]; intros state subs b n s Hin Hne Hb Hb' Hn Hn' Hs.
  - apply twp_ret. exists state. split; [done|]. cbn. by rewrite app_nil_r, !Z.add_0_r.
  - cbn [length] in *. change (subText (field :: sl)) with ((0x3A :: field) ++ subText sl). apply twp_feed_app. cbn [feed]. apply twp_bind.
    eapply twp_mono; [apply (twp_colon state id (mkRegisters ps subs (ranges ++ [(a, b)]) n) ranges a b s0); cbn; try done; lia|].
    intros [] s1 Hs1. cbn in Hs1. eapply twp_mono; [by eapply twp_subField; [exact Hf|apply omitted_ok|exact Hne|exact Hs1]|].
    intros [] s2 Hs2. rewrite accumulate_omitted in Hs2 by done.
    eapply twp_mono; [apply (IH CsiSubParam (subs ++ [fieldValue field]) (b + 1) (n + 1) s2); [by right|done|lia|lia|lia|lia|exact Hs2]|].
    intros [] s3 (state' & Hin' & Hs3). exists state'. split; [done|]. cbn [map].
    rewrite <- app_assoc in Hs3. cbn [app] in Hs3.
    replace (b + Z.of_nat (S (length sl))) with (b + 1 + Z.of_nat (length sl)) by lia.
    by replace (n + Z.of_nat (S (length sl))) with (n + 1 + Z.of_nat (length sl)) by lia.
Qed.

(** *** Items *)
Lemma twp_restOfItem item id ps subs ranges s0 s : item_ok item -> (length subs <= 249)%nat ->
  let n := Z.of_nat (length subs) in
  holding CsiParam id (mkRegisters (ps ++ [fieldValue item.1]) subs (ranges ++ [(n, n)]) 0) s0 s ->
  twp (feed fuel processString (subText item.2))
    (fun _ s' => exists state', in_item state' /\ holding state' id
       (mkRegisters (ps ++ [fieldValue item.1]) (subs ++ map fieldValue item.2) (ranges ++ [(n, n + Z.of_nat (length item.2))])
          (Z.of_nat (length item.2))) s0 s') s.
Proof.
  intros (_ & _ & Hsubs & Hlen) Hl n Hs.
  eapply twp_mono; [eapply (twp_subs item.2 CsiParam); [done|by left| | | | | |exact Hs]; [by destruct ps|lia..]|].
  intros [] s' (state' & Hin & Hh). exists state'. split; [done|]. by rewrite Z.add_0_l in Hh.
Qed.

(** The parameters and sub parameters stay within bounds. *)
Definition within (r : Registers) : Prop :=
  (length (r_subs r) <= 6 * length (r_params r))%nat /\ r_params r <> [] /\ (length (r_params r) <= MAX_PARAMETER_COUNT)%nat.

Lemma twp_moreItems items state id r s0 s : Forall item_ok items -> in_item state -> within r ->
  (length (r_params r) + length items <= MAX_PARAMETER_COUNT)%nat -> holding state id r s0 s ->
  twp (feed fuel processString (moreItems items))
    (fun _ s' => exists state', in_item state' /\ holding state' id (fold_left addItem items r) s0 s') s.
Proof.
  intros Hok. revert state r s. induction Hok as [|item items Hi Hok IH]; intros state r s Hin (Hsub & Hne & Hmax) Hlen Hs.
  - apply twp_ret. by exists state.
  - pose proof Hi as (Hfield & _ & _ & Hsl). unfold MAX_PARAMETER_COUNT in *. cbn [length] in Hlen.
    change (moreItems (item :: items)) with ((0x3B :: itemText item) ++ moreItems items).
    apply twp_feed_app. cbn [feed]. apply twp_bind.
    eapply twp_mono; [by apply (twp_semicolon state id r); [..|exact Hs]; try done; unfold MAX_PARAMETER_COUNT; lia|].
    intros [] s1 Hs1. unfold itemText. apply twp_feed_app.
    eapply twp_mono; [eapply twp_field; [exact Hfield|apply omitted_ok|exact Hs1]|]. intros [] s2 Hs2.
    rewrite accumulate_omitted in Hs2 by done.
    eapply twp_mono; [apply (twp_restOfItem item id (r_params r) (r_subs r) (r_ranges r)); [exact Hi|lia|exact Hs2]|]. intros [] s3 (state3 & Hin3 & Hs3).
    apply (IH state3 (addItem r item)); [done| |cbn; rewrite length_app; cbn; lia|exact Hs3].
    unfold within, MAX_PARAMETER_COUNT. cbn. rewrite !length_app, length_map. cbn. split_and!; [lia|by destruct (r_params r)|lia].
Qed.

Lemma twp_items items state id s0 s : items_ok items -> items <> [] -> in_params state -> holding state id noRegisters s0 s ->
  twp (feed fuel processString (itemsText items))
    (fun _ s' => exists state', in_item state' /\ holding state' id (itemRegisters items) s0 s') s.
Proof.
  intros [Hok Hlen] Hne Hin Hs. destruct Hok as [|item items Hi Hok]; [done|]. unfold MAX_PARAMETER_COUNT in Hlen. cbn [length] in Hlen.
  pose proof Hi as (Hfield & Hnf & _ & Hsl). cbn [itemsText]. unfold itemText. apply twp_feed_app.
  destruct item as [[|c field] sl]; [done|]. cbn [fst snd] in *. inversion Hfield as [|? ? Hc Hf]; subst.
  apply twp_feed_app. cbn [feed]. apply twp_bind. eapply twp_mono; [by apply (twp_firstDigit state)|]. intros [] s1 Hs1.
  eapply twp_mono; [apply (twp_field field id [] (saturate (VTParameter.value_or VTParameter.omitted 0) c) [] [(0, 0)] 0 s0 s1 Hf); [|exact Hs1]|].
  { apply saturate_ok; [done|apply value_or_nonneg]. }
  intros [] s2 Hs2. rewrite <- accumulate_cons, accumulate_omitted in Hs2 by done.
  eapply twp_mono; [apply (twp_restOfItem (c :: field, sl) id [] [] []); [exact Hi|cbn; lia|exact Hs2]|].
  intros [] s3 (state3 & Hin3 & Hs3).
  apply (twp_moreItems items state3 id (addItem noRegisters (c :: field, sl))); [done|done| |cbn; unfold MAX_PARAMETER_COUNT; lia|exact Hs3].
  unfold within, MAX_PARAMETER_COUNT. cbn. rewrite length_map. split_and!; [lia|done|lia].
Qed.

(** *** The whole sequence *)
Lemma twp_finalItem final state id r s0 s e' :
  in_item state -> 0x40 <= final <= 0x7E -> holding state id r s0 s -> (0 < fuel)%nat -> _onCsiCompleteCallback s0 = None ->
  ActionCsiDispatch (VTIDBuilder.Finalize final id) (mkVTParameters (r_params r) (r_subs r) (r_ranges r)) (engineView s0) (_engine s0)
  = (e', [], Returned true) ->
  twp (process final) (fun _ s' => _state s' = Ground /\ _engine s' = e') s.
Proof.
  intros Hst Hf [Hs Hid Hps Hsub Hr Hcnt Hov Hsov He] Hfuel Hcb Hact.
  apply twp_event; [lia|]. rewrite Hs. unfold env in He. injection He as He Hpm Hin Hlast Hcb'.
  assert (twp (_ActionCsiDispatch fuel final ;; _EnterGround ;; _ExecuteCsiCompleteCallback processString)
            (fun _ s' => _state s' = Ground /\ _engine s' = e') s) as Hrun.
  { exists (enterGround (set_engine e' s)), tt. split; [|done].
    rewrite (run_bind _ _ s (set_engine e' s) tt).
    - unfold _EnterGround. rewrite run_modify. unfold _ExecuteCsiCompleteCallback. rewrite run_gets.
      change (_onCsiCompleteCallback (enterGround (set_engine e' s))) with (_onCsiCompleteCallback s). by rewrite Hcb', Hcb.
    - unfold _ActionCsiDispatch. destruct fuel as [|f]; [lia|]. cbn [_SafeExecute].
      unfold mbind, M_bind, try_catch, gets, callEngine. rewrite <- Hid, <- Hps, <- Hr, <- Hsub in Hact.
      replace (engineView s) with (engineView s0) by (unfold engineView, IsProcessingLastCharacter; congruence).
      rewrite He, Hact. reflexivity. }
  destruct Hst as [?|?]; subst state; cbn [dispatchEvent]; [unfold _EventCsiParam|unfold _EventCsiSubParam]; repeat pick; exact Hrun.
Qed.

Lemma twp_csi_items items final s e' :
  items_ok items -> items <> [] -> 0x40 <= final <= 0x7E ->
  _state s = Ground -> GetParserMode Ansi s = true -> (0 < fuel)%nat -> _onCsiCompleteCallback s = None ->
  ActionCsiDispatch (VTIDBuilder.Finalize final VTIDBuilder.Clear) (itemParameters items) (engineView s) (_engine s)
  = (e', [], Returned true) ->
  twp (feed fuel processString ([AsciiChars.ESC; 0x5B] ++ itemsText items ++ [final]))
    (fun _ s' => _state s' = Ground /\ _engine s' = e') s.
Proof.
  intros Hok Hne Hfin Hst Hansi Hfuel Hcb Hact. apply twp_feed_app.
  assert (Hintro : twp (feed fuel processString [AsciiChars.ESC; 0x5B]) (fun _ => holding CsiEntry VTIDBuilder.Clear noRegisters s) s).
  { cbn [feed]. apply twp_bind. exists (clear (set_state Escape s)), tt. split; [destruct s; cbn in Hst; by subst|].
    apply twp_bind, twp_event; [lia|]. change (_state (clear (set_state Escape s))) with Escape.
    cbn [dispatchEvent]. unfold _EventEscape. twp_step. twp_step. twp_step. twp_step.
    change (GetParserMode Ansi (clear (set_state Escape s))) with (GetParserMode Ansi s).
    rewrite Hansi. repeat pick. unfold _EnterCsiEntry, _ActionClear. twp_steps. by split. }
  eapply twp_mono; [exact Hintro|]. intros [] s1 Hs1. apply twp_feed_app.
  eapply twp_mono; [by apply (twp_items items CsiEntry); [..|left|exact Hs1]|]. intros [] s2 (state & Hin & Hs2).
  cbn [feed]. apply twp_bind. eapply twp_mono; [by eapply twp_finalItem|]. intros [] s3 ?. by apply twp_ret.
Qed.
End SubParams.
