(* ===== verification/ParserTheorems.v ===== *)
(** * What the parser guarantees

    The theorems about [StateMachine] in their final form, each with an instance at the
    recording engine where it has hypotheses. The work is done in the files that this one
    requires.

    The recording engine is a small concrete engine that logs every action the parser
    performs, the parser's counterpart of the test engines of
    [src/terminal/parser/ut_parser]: the theorems hold for every engine, and this one
    instantiates them on concrete input. It refuses the CSI final [~] (so that the parser
    flushes the sequence), answers the CSI final [z] by registering a callback that feeds the
    string [hi] back to the parser, and accepts DCS strings with the final [q].
    [teletype_engine] is a second one, for the streaming theorems: it types every character it
    prints or executes on a paper tape and accepts everything. *)

From S2P Require Import Prelude DispatchTypes VtUtils StateMachine StateMachineTotal StateMachineStream StateMachineInv StateMachineGrammar.

Inductive Event :=
| Executed (wch : wchar_t)
| ExecutedFromEscape (wch : wchar_t)
| Printed (string : wstring)
| PassedThrough (string : wstring)
| EscDispatched (id : Z)
| Vt52Dispatched (id : Z) (params : list VTParameter)
| CsiDispatched (id : Z) (params : VTParameters)
| DcsDispatched (id : Z) (params : list VTParameter)
| DcsData (wch : wchar_t)
| OscDispatched (param : Z) (string : wstring)
| Ss3Dispatched (wch : wchar_t) (params : list VTParameter).

(** The log and the nesting that callbacks have left. *)
Record Recorder := mkRecorder { rec_log : list Event; rec_room : nat }.

Definition log (e : Event) (r : Recorder) : Recorder :=
  mkRecorder (rec_log r ++ [e]) (rec_room r).

Definition record {CB} (e : Event) : EngineAction Recorder CB bool :=
  fun _ r => (log e r, [], Returned true).

#[global] Instance recording_engine : IStateMachineEngine Recorder unit wstring := {
  UnknownSequence r := r;
  EncounteredWin32InputModeSequence _ := false;
  ActionExecute wch := record (Executed wch);
  ActionExecuteFromEscape wch := record (ExecutedFromEscape wch);
  ActionPrint wch := record (Printed [wch]);
  ActionPrintString string := record (Printed string);
  ActionPassThroughString string := record (PassedThrough string);
  ActionEscDispatch id := record (EscDispatched id);
  ActionVt52EscDispatch id params := record (Vt52Dispatched id (_params params));
  ActionCsiDispatch id params := fun _ r =>
    (log (CsiDispatched id params) r,
     if id =? vtid "z" then [OnCsiCompleteRequest (L "hi")] else [],
     Returned (negb (id =? vtid "~")));
  ActionDcsDispatch id params := fun _ r =>
    (log (DcsDispatched id (_params params)) r, [],
     Returned (if id =? vtid "q" then Some tt else None));
  ActionOscDispatch param string := record (OscDispatched param string);
  ActionSs3Dispatch wch params := record (Ss3Dispatched wch (_params params));
  StringHandler_call _ wch := record (DcsData wch);
  Callback_call cb r :=
    match rec_room r with
    | O => (r, None)
    | S room => (mkRecorder (rec_log r) room, Some cb)
    end;
  Callback_exit _ r := mkRecorder (rec_log r) (S (rec_room r))
}.

#[global] Instance recording_bounded : BoundedEngine rec_room.
Proof.
  split; try done.
  - intros cb e e'. cbn. destruct (rec_room e) eqn:Hr; [by intros [= <-]|done].
  - intros cb e e' string. cbn. destruct (rec_room e) eqn:Hr; [done|by intros [= <- _]].
Qed.

(** A fresh output-side or input-side machine. *)
Definition freshMachine (input : bool) (room : nat) : StateMachine Recorder unit wstring :=
  StateMachine_ctor (mkRecorder [] room) input 0 0 false.

(** The log after processing a sequence of strings. *)
Definition transcript (input : bool) (strings : list wstring) : list Event :=
  rec_log (_engine (fold_left (fun s string => (ProcessString 2 3 string s).1)
                              strings (freshMachine input 2))).

Definition ESC_ : wchar_t := AsciiChars.ESC.

(** Printing, a control character, and a control sequence with sub parameters. *)
Example transcript_csi :
  transcript false [L "ab" ++ [0x0A] ++ ESC_ :: L "[1;38:2:5;m"]
  = [Printed (L "ab"); Executed 0x0A;
     CsiDispatched (vtid "m") (mkVTParameters [1; 38; -1] [2; 5] [(0, 0); (0, 2); (2, 2)])].
Proof. reflexivity. Qed.

(** A refused sequence is passed through as a whole, over a chunk boundary. *)
Example transcript_flush :
  transcript false [ESC_ :: L "[1"; L "5~x"]
  = [CsiDispatched (vtid "~") (mkVTParameters [15] [] [(0, 0)]);
     PassedThrough (ESC_ :: L "[1"); PassedThrough (L "5~"); Printed (L "x")].
Proof. reflexivity. Qed.

(** A callback feeds a string back between the sequence and the rest. *)
Example transcript_callback :
  transcript false [ESC_ :: L "[zA"] = [CsiDispatched (vtid "z") (mkVTParameters [] [] []);
    Printed (L "hi"); Printed (L "A")].
Proof. reflexivity. Qed.

(** A DCS string goes to its handler character by character, the final ESC included. *)
Example transcript_dcs :
  transcript false [ESC_ :: L "P1qab" ++ [ESC_; 0x5C]]
  = [DcsDispatched (vtid "q") [1]; DcsData 0x61; DcsData 0x62; DcsData 0x1B;
     EscDispatched (vtid "\")].
Proof. reflexivity. Qed.

(** Input side: a trailing ESC is the escape key. *)
Example transcript_input_escape : transcript true [[ESC_]] = [Executed 0x1B].
Proof. reflexivity. Qed.

(** In the DCS parameter state a control character is not only ignored: it also
    dispatches the string, with itself as the final character. *)
Example dcs_param_control_dispatches :
  transcript false [ESC_ :: L "P1" ++ [0x07]] = [DcsDispatched 0x07 [1]].
Proof. reflexivity. Qed.

(** A final character above 0xFF spills into the next byte of the identifier. *)
Example wide_final_collides :
  VTIDBuilder.Finalize 0x3323 (VTIDBuilder.collect []) = vtid "#3"
  /\ VTIDBuilder.Finalize 0x683F (VTIDBuilder.collect []) = vtid "?h".
Proof. split; reflexivity. Qed.

(** ** The teletype *)
Record Teletype := mkTeletype { tape : wstring }.

Definition type_text {CB} (text : wstring) : EngineAction Teletype CB bool :=
  fun _ e => (mkTeletype (tape e ++ text), [], Returned true).

#[global] Instance teletype_engine : IStateMachineEngine Teletype unit wstring := {
  UnknownSequence e := e;
  EncounteredWin32InputModeSequence _ := false;
  ActionExecute wch := type_text [wch];
  ActionExecuteFromEscape wch := type_text [wch];
  ActionPrint wch := type_text [wch];
  ActionPrintString string := type_text string;
  ActionPassThroughString string := type_text string;
  ActionEscDispatch id := type_text [];
  ActionVt52EscDispatch id params := type_text [];
  ActionCsiDispatch id params := type_text (_params params);
  ActionDcsDispatch id params := fun _ e => (e, [], Returned None);
  ActionOscDispatch param string := type_text string;
  ActionSs3Dispatch wch params := type_text [];
  StringHandler_call _ wch := type_text [];
  Callback_call cb e := (e, None);
  Callback_exit _ e := e
}.

#[global] Instance teletype_streaming : StreamingEngine (engine := teletype_engine).
Proof.
  split; try (intros; split; [by intros ???? |done]); try done.
  - intros v [t]. cbn. unfold type_text. cbn. by rewrite app_nil_r.
  - intros wch string v [t] _ _. eexists. split; [reflexivity|]. cbn. unfold type_text. cbn.
    by rewrite <- app_assoc.
Qed.

Definition freshTeletype : StateMachine Teletype unit wstring :=
  StateMachine_ctor (mkTeletype []) false 0 0 false.

(** ** What the parser guarantees

    The theorems about [StateMachine] in their final form, each with an instance
    at the recording engine where it has hypotheses. The work is done in the
    files that this one requires. *)

Section Parser.
Context {E H CB : Type} {engine : IStateMachineEngine E H CB}.
Implicit Types (s : StateMachine E H CB).

(** The slices of the ranges, one after the other, are the sub parameters. *)
Lemma ranges_ok_slices start ranges subs :
  ranges_ok start ranges (Z.of_nat (length subs)) -> 0 <= start ->
  concat (map (fun r => VTSubParameters.subspan subs (Z.to_nat r.1) (Z.to_nat (r.2 - r.1))) ranges)
  = drop (Z.to_nat start) subs.
Proof.
  revert start. induction ranges as [|[a b] ranges IH]; intros start; cbn [ranges_ok map concat fst snd].
  - intros -> _. by rewrite Nat2Z.id, drop_all.
  - intros (-> & Hab & Hr) Hs. rewrite (IH b) by (done || lia). unfold VTSubParameters.subspan.
    rewrite <- (take_drop (Z.to_nat (b - start)) (drop (Z.to_nat start) subs)) at 2.
    rewrite drop_drop. do 2 f_equal. lia.
Qed.

Lemma subParamsFor_ranges (p : VTParameters) :
  map (VTParameters.subParamsFor p) (seq 0 (length (_subParamRanges p)))
  = map (fun r => VTSubParameters.subspan (_subParams p) (Z.to_nat r.1) (Z.to_nat (r.2 - r.1)))
        (_subParamRanges p).
Proof.
  apply list_eq. intros i. rewrite !list_lookup_fmap.
  destruct (_subParamRanges p !! i) as [[a b]|] eqn:Hi.
  - pose proof (lookup_lt_Some _ _ _ Hi). rewrite lookup_seq_lt by done. cbn.
    unfold VTParameters.subParamsFor. by rewrite Hi.
  - pose proof (lookup_ge_None_1 _ _ Hi). by rewrite lookup_seq_ge.
Qed.

(** The states in which a CSI dispatch can happen. *)
Definition csi_dispatch_state (state : VTStates) : bool :=
  match state with
  | CsiEntry | CsiParam | CsiSubParam | CsiIntermediate => true
  | _ => false
  end.

(** What [_ActionCsiDispatch] hands to the engine. *)
Definition dispatchedParameters s : VTParameters :=
  mkVTParameters (_parameters s) (_subParameters s) (_subParameterRanges s).

Lemma csi_state_ranges s : wf s -> csi_dispatch_state (_state s) = true -> ranges_wf s.
Proof. intros [_ Hs]. destruct (_state s); cbn in *; try done. by intros _; destruct Hs. Qed.

(** What reading the front of an empty view comes to. *)
Lemma front_of_empty_ub fuel depth s : front_of_empty [] s -> (ProcessString fuel (S depth) [] s).2 = UB.
Proof.
  intros (Hin & _ & Hst & Hw). destruct s. cbn in Hin, Hst, Hw. cbn [ProcessString]. unfold ProcessString_with, endOfString, _CurrentRun.
  unfold mbind, M_bind, modify, gets. cbn. case_bool_decide; [done|]. unfold mbind, M_bind. cbn. case_bool_decide; [done|]. cbn. rewrite Hin. cbn. by rewrite Hw.
Qed.

(** C1: processing a string, in any state reachable by the parser and with any
    engine behind it, has no undefined behaviour (no [back()] or [front()] of an
    empty container, no out-of-range character access, no signed overflow in the
    parameter accumulation) and keeps the parser's registers well formed, also when
    an exception leaves the call, with a single exception that is exact: the input side is
    given an empty string in the middle of a sequence, before it has met a win32 sequence;
    it then reads the first character of an empty view. *)
Theorem ProcessString_safe fuel depth string s : wf s ->
  match ProcessString fuel (S depth) string s with
  | (s', Ret _) | (s', Throw) => wf s' /\ ~ front_of_empty string s
  | (_, UB) => front_of_empty string s
  | (_, OutOfFuel) => ~ front_of_empty string s
  end.
Proof.
  intros Hwf. destruct (decide (_isEngineForInput s = true /\ string = [] /\ _state s <> Ground /\ EncounteredWin32InputModeSequence (_engine s) = false)) as [Hf|Hf].
  - pose proof (front_of_empty_ub fuel depth s) as Hub. destruct Hf as (? & -> & ?). destruct (ProcessString fuel (S depth) [] s) as [s' o]. cbn [snd] in Hub. by rewrite Hub.
  - pose proof (wp_ProcessString fuel (S depth) string s Hwf Hf) as Hps. unfold wp in Hps.
    destruct (ProcessString fuel (S depth) string s) as [s' []]; try done; (split; [apply Hps|done]).
Qed.

(** C2: processing a string terminates: with an engine that accepts pass-through
    strings and bounds how deep callbacks re-enter the parser, two levels of
    [_SafeExecute] and one level of [ProcessString] per nesting are enough for the
    recursions of the parser, whatever the string. *)
Theorem ProcessString_terminates (room : E -> nat) fuel depth string s :
  BoundedEngine room -> (2 <= fuel)%nat -> (room (_engine s) < depth)%nat ->
  (ProcessString fuel depth string s).2 <> OutOfFuel
  /\ room (_engine (ProcessString fuel depth string s).1) = room (_engine s).
Proof.
  intros Hb Hfuel Hdepth. destruct fuel as [|[|fuel]]; [lia..|].
  pose proof (tot_ProcessString room fuel depth _ string Hdepth s eq_refl) as Htot.
  destruct (ProcessString _ depth string s) as [s' []]; [by destruct Htot|done..].
Qed.

(** For an output-side machine whose engine accepts what it is given and prints
    strings character-wise, processing a string is feeding its characters to
    [ProcessCharacter] one at a time: same outcome, same engine, same parser state
    up to the bookkeeping of the current run. *)
Theorem ProcessString_streams fuel depth string s :
  StreamingEngine (engine := engine) -> (0 < fuel)%nat -> Forall is_wchar string ->
  _isEngineForInput s = false ->
  let one := ProcessString fuel (S depth) string s in
  let each := feed fuel (ProcessString fuel depth) string s in
  one.2 = each.2 /\ _engine one.1 = _engine each.1 /\ _state one.1 = _state each.1
  /\ sameStream one.1 each.1.
Proof.
  intros Hs Hfuel Hw Hin. destruct (ProcessString_feed fuel depth string s Hfuel Hw Hin) as [H1 H2].
  destruct (sameStream_fields _ _ H1) as (He & _ & Hst & _). auto.
Qed.

(** How the input is cut into strings does not matter (same hypotheses as for the theorem above). *)
Theorem ProcessString_chunks fuel depth a b s :
  StreamingEngine (engine := engine) -> (0 < fuel)%nat -> Forall is_wchar (a ++ b) ->
  _isEngineForInput s = false ->
  let whole := ProcessString fuel (S depth) (a ++ b) s in
  let parts := (ProcessString fuel (S depth) a ;; ProcessString fuel (S depth) b) s in
  whole.2 = parts.2 /\ sameStream whole.1 parts.1.
Proof.
  intros Hs Hfuel Hw Hin. destruct (ProcessString_app fuel depth a b s Hfuel Hw Hin) as [H1 H2]. auto.
Qed.

(** C5: a control sequence: from the ground state in ANSI mode, [ESC \[], an optional
    private marker, decimal fields separated by [;], intermediates and a final
    character reach the engine as exactly one [ActionCsiDispatch], with the
    identifier built from marker, intermediates and final character and with the
    fields as parameters: empty fields omitted, values saturated at 65535, at most
    32 of them. *)
Theorem csi_sequence_dispatched fuel processString marker fields intermediates final s e' :
  Forall (fun c => _isCsiPrivateMarker c = true) (option_list marker) ->
  Forall (Forall is_digit) fields ->
  Forall (fun c => _isIntermediate c = true) intermediates ->
  0x40 <= final <= 0x7E ->
  _state s = Ground -> GetParserMode Ansi s = true -> (0 < fuel)%nat ->
  _onCsiCompleteCallback s = None ->
  ActionCsiDispatch
    (VTIDBuilder.Finalize final (VTIDBuilder.collect (option_list marker ++ intermediates)))
    (mkVTParameters (fieldParams fields) [] (repeat (0, 0) (length (fieldParams fields))))
    (engineView s) (_engine s) = (e', [], Returned true) ->
  twp (feed fuel processString
         ([AsciiChars.ESC; 0x5B] ++ option_list marker ++ fieldText fields ++ intermediates ++ [final]))
    (fun _ s' => _state s' = Ground /\ _engine s' = e') s.
Proof. apply twp_csi. Qed.

(** An operating system command: [ESC \]], digits, [;], text and BEL reach the
    engine as exactly one [ActionOscDispatch] with the number, saturated at 65535,
    and the text without the control characters OSC strings ignore. *)
Theorem osc_sequence_dispatched fuel processString digits text s e' :
  Forall is_digit digits -> Forall is_oscText text ->
  _state s = Ground -> GetParserMode Ansi s = true -> (0 < fuel)%nat ->
  ActionOscDispatch (Z.min MAX_PARAMETER_VALUE (decimalValue digits))
    (List.filter (fun c => negb (_isOscInvalid c)) text) (engineView s) (_engine s)
  = (e', [], Returned true) ->
  twp (feed fuel processString
         ([AsciiChars.ESC; 0x5D] ++ digits ++ [0x3B] ++ text ++ [AsciiChars.BEL]))
    (fun _ s' => _state s' = Ground /\ _engine s' = e') s.
Proof. apply twp_osc. Qed.

(** Whenever a control sequence can be dispatched, the parameters the engine
    receives are well formed: at most 32, each omitted or in 0..65535; every slice
    of sub parameters lies in bounds and has at most six entries; and the slices of
    the parameters, in order, are exactly the sub parameters collected. *)
Theorem dispatched_parameters_wellformed s :
  wf s -> csi_dispatch_state (_state s) = true ->
  let p := dispatchedParameters s in
  (length (_params p) <= MAX_PARAMETER_COUNT)%nat
  /\ Forall param_ok (_params p ++ _subParams p)
  /\ (forall i, (length (VTParameters.subParamsFor p i) <= 6)%nat)
  /\ concat (map (VTParameters.subParamsFor p) (seq 0 (length (_params p)))) = _subParams p.
Proof.
  intros Hwf Hst p. pose proof (csi_state_ranges s Hwf Hst) as [Hv Hsv Hl Hr _].
  split; [apply Hwf|]. split; [by apply Forall_app|]. split.
  - intros i. unfold VTParameters.subParamsFor. destruct (_ !! i) as [[a b]|] eqn:Hi; [|cbn; lia].
    apply (ranges_ok_lookup _ _ _ _ _ _ Hr) in Hi. unfold VTSubParameters.subspan.
    rewrite length_take. unfold MAX_SUBPARAMETER_COUNT in Hi. lia.
  - unfold p, dispatchedParameters at 2. cbn [_params]. rewrite <- Hl.
    change (_subParameterRanges s) with (_subParamRanges p). rewrite subParamsFor_ranges.
    by apply (ranges_ok_slices 0).
Qed.

(** CAN and SUB abort whatever the parser was doing, from every state (the
    input side keeps them as Ctrl+Alt keys right after an ESC): the machine is back
    in the ground state with nothing cached. The only way not to get there is an
    exception from the handler of an open DCS string. *)
Theorem cancel_returns_to_ground (room : E -> nat) fuel depth wch s :
  BoundedEngine room -> (2 <= fuel)%nat -> (room (_engine s) <= depth)%nat ->
  wch = AsciiChars.CAN \/ wch = AsciiChars.SUB ->
  (_state s = Escape -> _isEngineForInput s = false) ->
  (_state s = DcsPassThrough -> is_Some (_dcsStringHandler s)) ->
  match ProcessCharacter fuel (ProcessString fuel depth) wch s with
  | (s', Ret _) => _state s' = Ground /\ _cachedSequence s' = None
  | (_, Throw) => _state s = DcsPassThrough
  | _ => False
  end.
Proof.
  intros Hb Hfuel Hroom Hw Hin Hh. destruct fuel as [|[|fuel]]; [lia..|].
  set (processString := ProcessString (S (S fuel)) depth).
  assert (forall r' string, S r' = room (_engine s) -> tot room r' (processString string) any) as Htot.
  { intros r' string Hr'. apply tot_ProcessString; [done|lia]. }
  pose proof (tot_ProcessCharacter room fuel _ processString Htot wch s eq_refl) as Hfin.
  assert (wp (ProcessCharacter (S (S fuel)) processString wch)
            (fun _ s' => _state s' = Ground /\ _cachedSequence s' = None)
            (fun _ => _state s = DcsPassThrough) s) as Hwp.
  { unfold ProcessCharacter. cbn [ProcessCharacter_rec]. wp_step. wp_step. wp_step. wp_step.
    assert ((wch =? AsciiChars.CAN) || (wch =? AsciiChars.SUB) = true) as ->.
    { by destruct Hw as [-> | ->]. }
    assert (bool_decide (_state s = Escape) && _isEngineForInput s = false) as ->.
    { case_bool_decide; [by rewrite Hin|done]. }
    cbn [andb negb]. wp_step. destruct (decide (_state s = DcsPassThrough)) as [Hd|Hd].
    - apply wp_ActionInterrupt; [done| |done]. intros s1 _. unfold _ActionExecute, _EnterGround.
      wp_step. apply wp_safe; [intros; by apply wp_engine_frame|]. intros s2 _. by wp_step.
    - unfold _ActionInterrupt. wp_step. wp_step. rewrite bool_decide_false by done.
      wp_step. unfold _ActionExecute, _EnterGround. wp_step.
      apply wp_safe; [intros; by apply wp_engine_frame|]. intros s2 _. by wp_step. }
  unfold wp in Hwp. destruct (ProcessCharacter _ processString wch s) as [s' []]; done.
Qed.

End Parser.

(** The vectorized search for the next character the parser has to look at
    finds what the scalar search finds. *)
Theorem FindActionable_matches_scalar (s : wstring) :
  Forall is_wchar s ->
  FindActionable.FindActionableControlCharacter s = FindActionable.plainSearch s.
Proof. apply FindActionable.FindActionable_plain. Qed.

(** Sequence identifiers are exact: for up to six intermediates, the identifier
    the builder packs equals the identifier of a literal of up to seven characters
    iff the characters are the same; with more intermediates it equals no such
    literal, so an overlong sequence is never mistaken for another one. *)
Theorem identifier_exact (intermediates literal : wstring) (final : wchar_t) :
  Forall is_idChar (intermediates ++ [final]) -> Forall is_idChar literal ->
  literal <> [] -> (length literal <= 7)%nat ->
  VTIDBuilder.Finalize final (VTIDBuilder.collect intermediates) = VTID._FromString literal
  <-> (length intermediates <= 6)%nat /\ literal = intermediates ++ [final].
Proof.
  intros Hi Hl Hne Hlen. rewrite FromString_littleEndian by done.
  destruct (Nat.le_gt_cases (length intermediates) 6) as [Hle|Hgt].
  - rewrite Finalize_littleEndian by done. split; [|by intros [_ ->]].
    intros Heq. split; [done|]. symmetry. by apply littleEndian_inj.
  - rewrite collect_overlong by done. split; [|lia]. intros Heq. exfalso.
    apply Forall_app in Hi as [_ Hf]. apply Forall_cons in Hf as [Hf _].
    destruct literal as [|c literal]; [done|]. apply Forall_cons in Hl as [Hc Hl].
    unfold is_idChar in *. cbn [littleEndian] in Heq.
    assert (VTIDBuilder.Finalize final {| _idAccumulator := 0; _idShift := 48 |} = 256 * (final * 2 ^ 40)) as Hval.
    { unfold VTIDBuilder.Finalize, VTID.of_uint64. cbn [_idAccumulator _idShift].
      rewrite Z.shiftl_mul_pow2 by lia. change (2 ^ 48) with 281474976710656.
      rewrite (wrap_small 64 (final * _)), Z.add_0_l by (change (2 ^ 64) with 18446744073709551616; lia).
      rewrite wrap_small by (change (2 ^ 64) with 18446744073709551616; lia).
      change 0xFFFFFFFFFFFFFF with (Z.ones 56). rewrite Z.land_ones by lia.
      rewrite Z.mod_small by (change (2 ^ 56) with 72057594037927936; lia).
      change (2 ^ 40) with 1099511627776. lia. }
    lia.
Qed.

(** ** Instances *)
Definition midSequence : StateMachine Recorder unit wstring :=
  Eval vm_compute in (ProcessString 2 3 (ESC_ :: L "[1;38:2") (freshMachine false 2)).1.

Lemma midSequence_wf : wf midSequence.
Proof.
  split; [split|split; [split|]]; cbn; unfold MAX_PARAMETER_COUNT, MAX_SUBPARAMETER_COUNT, MAX_PARAMETER_VALUE;
    try done; try lia.
  - repeat constructor; unfold param_ok, MAX_PARAMETER_VALUE; cbn; lia.
  - repeat constructor; unfold param_ok, MAX_PARAMETER_VALUE; cbn; lia.
Qed.

Lemma ProcessString_safe_witness :
  match ProcessString 2 3 (L ":5m") midSequence with
  | (s', Ret _) | (s', Throw) => wf s' /\ ~ front_of_empty (L ":5m") midSequence
  | (_, UB) => front_of_empty (L ":5m") midSequence
  | (_, OutOfFuel) => ~ front_of_empty (L ":5m") midSequence
  end.
Proof. apply (ProcessString_safe 2 2), midSequence_wf. Defined.

Lemma ProcessString_terminates_witness :
  (ProcessString 2 3 (ESC_ :: L "[zA") (freshMachine false 2)).2 <> OutOfFuel
  /\ rec_room (_engine (ProcessString 2 3 (ESC_ :: L "[zA") (freshMachine false 2)).1) = 2%nat.
Proof.
  apply (ProcessString_terminates rec_room); [apply recording_bounded|lia|cbn; lia].
Defined.

Lemma ProcessString_streams_witness :
  let one := ProcessString 2 2 (L "ab" ++ ESC_ :: L "[7mc") freshTeletype in
  let each := feed 2 (ProcessString 2 1) (L "ab" ++ ESC_ :: L "[7mc") freshTeletype in
  one.2 = each.2 /\ _engine one.1 = _engine each.1 /\ _state one.1 = _state each.1
  /\ sameStream one.1 each.1.
Proof.
  apply ProcessString_streams; [apply teletype_streaming|lia| |reflexivity].
  by_decide.
Defined.

Lemma ProcessString_chunks_witness :
  let whole := ProcessString 2 2 ((ESC_ :: L "[1") ++ L "2mx") freshTeletype in
  let parts := (ProcessString 2 2 (ESC_ :: L "[1") ;; ProcessString 2 2 (L "2mx")) freshTeletype in
  whole.2 = parts.2 /\ sameStream whole.1 parts.1.
Proof.
  apply ProcessString_chunks; [apply teletype_streaming|lia| |reflexivity].
  by_decide.
Defined.

Lemma csi_sequence_dispatched_witness :
  twp (feed 2 (ProcessString 2 1)
         ([AsciiChars.ESC; 0x5B] ++ option_list (Some 0x3F) ++ fieldText [L "25"; []; L "99999"]
            ++ L "$" ++ [0x70]))
    (fun _ s' => _state s' = Ground
       /\ _engine s' = mkRecorder [CsiDispatched (vtid "?$p")
            (mkVTParameters [25; -1; 65535] [] [(0, 0); (0, 0); (0, 0)])] 2)
    (freshMachine false 2).
Proof.
  apply csi_sequence_dispatched; try reflexivity; try lia; by_decide.
Defined.

Lemma osc_sequence_dispatched_witness :
  twp (feed 2 (ProcessString 2 1)
         ([AsciiChars.ESC; 0x5D] ++ L "52" ++ [0x3B] ++ L "c;aGk=" ++ [AsciiChars.BEL]))
    (fun _ s' => _state s' = Ground
       /\ _engine s' = mkRecorder [OscDispatched 52 (L "c;aGk=")] 2)
    (freshMachine false 2).
Proof.
  apply osc_sequence_dispatched; try reflexivity; try lia; by_decide.
Defined.

Lemma dispatched_parameters_wellformed_witness :
  let p := dispatchedParameters midSequence in
  (length (_params p) <= MAX_PARAMETER_COUNT)%nat
  /\ Forall param_ok (_params p ++ _subParams p)
  /\ (forall i, (length (VTParameters.subParamsFor p i) <= 6)%nat)
  /\ concat (map (VTParameters.subParamsFor p) (seq 0 (length (_params p)))) = [2].
Proof. apply (dispatched_parameters_wellformed midSequence); [apply midSequence_wf|reflexivity]. Defined.

Lemma cancel_returns_to_ground_witness :
  match ProcessCharacter 2 (ProcessString 2 2) AsciiChars.CAN midSequence with
  | (s', Ret _) => _state s' = Ground /\ _cachedSequence s' = None
  | (_, Throw) => _state midSequence = DcsPassThrough
  | _ => False
  end.
Proof.
  apply (cancel_returns_to_ground rec_room); [apply recording_bounded|lia|cbn; lia|by left|discriminate|discriminate].
Defined.

Lemma FindActionable_matches_scalar_witness :
  FindActionable.FindActionableControlCharacter (L "plain text before" ++ ESC_ :: L "[m")
  = FindActionable.plainSearch (L "plain text before" ++ ESC_ :: L "[m").
Proof. apply FindActionable_matches_scalar. by_decide. Defined.

Lemma identifier_exact_witness :
  VTIDBuilder.Finalize 0x70 (VTIDBuilder.collect (L "?$")) = VTID._FromString (L "?$p")
  <-> (length (L "?$") <= 6)%nat /\ L "?$p" = L "?$" ++ [0x70].
Proof.
  apply identifier_exact; [by_decide|by_decide|discriminate|cbn; lia].
Defined.
