(* ===== verification/Base64.v ===== *)
(** * Base64 decoding of clipboard data

    Models [src/terminal/parser/base64.cpp]. [Decode] writes into a buffer sized
    up front; a write past its end would be undefined behaviour and is a
    value of the model. The final UTF-8 to UTF-16 conversion calls
    [MultiByteToWideChar] of the operating system and is a parameter. *)
From S2P Require Import Prelude.

Module Base64.

(** [decodeTable], row by row as in the source; both RFC 4648 alphabets are in it. *)
Definition decodeTable : list Z :=
  replicate 43 255
  ++ [62; 255; 62; 255; 63]
  ++ [52; 53; 54; 55; 56; 57; 58; 59; 60; 61; 255; 255; 255; 255; 255; 255]
  ++ [255; 0; 1; 2; 3; 4; 5; 6; 7; 8; 9; 10; 11; 12; 13; 14]
  ++ [15; 16; 17; 18; 19; 20; 21; 22; 23; 24; 25; 255; 255; 255; 255; 63]
  ++ [255; 26; 27; 28; 29; 30; 31; 32; 33; 34; 35; 36; 37; 38; 39; 40]
  ++ [41; 42; 43; 44; 45; 46; 47; 48; 49; 50; 51; 255; 255; 255; 255; 255].

Definition lookupTable (ch : wchar_t) : Z :=
  default 255 (decodeTable !! Z.to_nat (Z.land ch 0x7f)).

(** The decoder's locals: what has been written, [r] and [error]. *)
Record Acc := mkAcc { out : bytes; r : Z; error : Z }.

(** The [accumulate] lambda; [r] is a 32-bit unsigned register. *)
Definition accumulate (ch : wchar_t) (a : Acc) : Acc :=
  let n := lookupTable ch in
  mkAcc (out a) (u32 (Z.lor (Z.shiftl (r a) 6) n))
        (Z.lor (error a) (Z.land (Z.lor ch n) 0xff80)).

(** [*out++ = gsl::narrow_cast<char>(r >> shift)] into a buffer of [capacity]
    bytes: [None] when the buffer is full. *)
Definition put (capacity : nat) (shift : Z) (a : Acc) : option Acc :=
  if (length (out a) <? capacity)%nat
  then Some (mkAcc (out a ++ [u8 (Z.shiftr (r a) shift)]) (r a) (error a))
  else None.

Definition put3 (capacity : nat) (a : Acc) : option Acc :=
  a ← put capacity 16 a; a ← put capacity 8 a; put capacity 0 a.

(** The batched loop, while more than [min(5, src.size())] characters are left. *)
Fixpoint batched (capacity : nat) (reserve : nat) (input : wstring) (a : Acc)
    : option (wstring * Acc) :=
  if (reserve <? length input)%nat then
    match input with
    | ch0 :: ch1 :: ch2 :: ch3 :: rest =>
        a ← put3 capacity (accumulate ch3 (accumulate ch2 (accumulate ch1 (accumulate ch0 a))));
        batched capacity reserve rest a
    | _ => None
    end
  else Some (input, a).

(** The loop over the last characters: skips [=], counts the others in a byte. *)
Definition tailLoop (input : wstring) (a : Acc) : Z * Acc :=
  fold_left (fun '(ri, a) ch => if ch =? 0x3D then (ri, a) else (u8 (ri + 1), accumulate ch a))
            input (0, a).

Definition tailPut (capacity : nat) (ri : Z) (a : Acc) : option Acc :=
  if ri =? 2 then put capacity 4 a
  else if ri =? 3 then a ← put capacity 10 a; put capacity 2 a
  else if ri =? 4 then put3 capacity a
  else Some (mkAcc (out a) (r a) (Z.lor (error a) ri)).

(** The bytes decoded before the conversion to UTF-16: [UB] if the buffer were
    overrun, [Ret None] for [ERROR_INVALID_DATA]. *)
Definition decodeBytes (src : wstring) : Outcome (option bytes) :=
  let capacity := (Nat.div (length src + 3) 4 * 3)%nat in
  let reserve := Nat.min 5 (length src) in
  match ('(rest, a) ← batched capacity reserve src (mkAcc [] 0 0);
         let '(ri, a) := tailLoop rest a in
         tailPut capacity ri a) with
  | None => UB
  | Some a => Ret (if error a =? 0 then Some (out a) else None)
  end.

(** [til::u8u16], i.e. [MultiByteToWideChar]: [None] when it fails. *)
Section Decode.
Context (u8u16 : bytes -> option wstring).

Definition Decode (src : wstring) : Outcome (option wstring) :=
  match decodeBytes src with
  | Ret (Some result) => Ret (u8u16 result)
  | Ret None => Ret None
  | Throw => Throw
  | UB => UB
  | OutOfFuel => OutOfFuel
  end.
End Decode.

(** ** The encoding, as RFC 4648 defines it *)

(** The character of a sextet, in the standard or the URL alphabet. *)
Definition sextetChar (url : bool) (n : Z) : wchar_t :=
  if n <? 26 then 0x41 + n
  else if n <? 52 then 0x61 + (n - 26)
  else if n <? 62 then 0x30 + (n - 52)
  else if n =? 62 then (if url then 0x2D else 0x2B)
  else (if url then 0x5F else 0x2F).

Fixpoint encode (url : bool) (bs : bytes) : wstring :=
  match bs with
  | [] => []
  | [b0] => [sextetChar url (b0 / 4); sextetChar url (b0 mod 4 * 16)]
  | [b0; b1] =>
      [sextetChar url (b0 / 4); sextetChar url (b0 mod 4 * 16 + b1 / 16);
       sextetChar url (b1 mod 16 * 4)]
  | b0 :: b1 :: b2 :: rest =>
      sextetChar url (b0 / 4) :: sextetChar url (b0 mod 4 * 16 + b1 / 16)
      :: sextetChar url (b1 mod 16 * 4 + b2 / 64) :: sextetChar url (b2 mod 64)
      :: encode url rest
  end.

(** ** The decoder inverts the encoder *)
Definition is_sextet (n : Z) : Prop := 0 <= n < 64.

(** Every sextet is looked up back, for both alphabets: checked by enumeration. *)
Lemma lookup_sextet url n :
  is_sextet n ->
  lookupTable (sextetChar url n) = n /\ 0 <= sextetChar url n < 0x80 /\ sextetChar url n <> 0x3D.
Proof.
  intros Hn.
  assert (forall m, In m (seq 0 64) ->
    lookupTable (sextetChar url (Z.of_nat m)) = Z.of_nat m
    /\ 0 <= sextetChar url (Z.of_nat m) < 0x80 /\ sextetChar url (Z.of_nat m) <> 0x3D) as Hall.
  { apply List.Forall_forall. destruct url; by_decide. }
  unfold is_sextet in Hn. rewrite <- (Z2Nat.id n) by lia. apply Hall, in_seq. lia.
Qed.

Lemma lor_shiftl_add a n : is_sextet n -> Z.lor (Z.shiftl a 6) n = a * 64 + n.
Proof.
  intros Hn. unfold is_sextet in Hn. rewrite Z.shiftl_mul_pow2 by lia. change (2 ^ 6) with 64.
  symmetry. rewrite <- Z.lxor_lor; [apply Z.add_nocarry_lxor|].
  all: apply Z.bits_inj'; intros i Hi; rewrite Z.land_spec, Z.bits_0.
  all: change (a * 64) with (a * 2 ^ 6); destruct (Z.lt_ge_cases i 6);
    [rewrite Z.mul_pow2_bits_low by lia; done|].
  all: rewrite andb_comm, (Z.bits_above_log2 n); [done|lia|].
  all: destruct (Z.eq_dec n 0) as [->|]; [cbn; lia|]; apply Z.log2_lt_pow2; [lia|].
  all: eapply Z.lt_le_trans; [apply Hn|]; change 64 with (2 ^ 6); apply Z.pow_le_mono_r; lia.
Qed.

Lemma accumulate_sextet url n a :
  is_sextet n -> accumulate (sextetChar url n) a = mkAcc (out a) (u32 (r a * 64 + n)) (error a).
Proof.
  intros Hn. destruct (lookup_sextet url n Hn) as (Hl & Hc & _). unfold accumulate.
  rewrite Hl, lor_shiftl_add by done. f_equal.
  assert (Z.land (Z.lor (sextetChar url n) n) 0xff80 = 0) as ->; [|apply Z.lor_0_r].
  apply Z.bits_inj'. intros i Hi. rewrite Z.land_spec, Z.lor_spec, Z.bits_0.
  assert (forall m, 0 <= m < 0x80 -> 7 <= i -> Z.testbit m i = false) as Hhigh.
  { intros m Hm Hi7. destruct (Z.eq_dec m 0) as [->|]; [apply Z.bits_0|].
    rewrite Z.bits_above_log2; [done|lia|]. apply Z.log2_lt_pow2; [lia|].
    eapply Z.lt_le_trans; [apply Hm|]. change 128 with (2 ^ 7). apply Z.pow_le_mono_r; lia. }
  destruct (Z.lt_ge_cases i 7) as [Hlt|Hge].
  - assert (Z.testbit 0xff80 i = false) as ->; [|apply andb_false_r].
    assert (i = 0 \/ i = 1 \/ i = 2 \/ i = 3 \/ i = 4 \/ i = 5 \/ i = 6) as Hcases by lia.
    by destruct Hcases as [->|[->|[->|[->|[->|[->| ->]]]]]].
  - unfold is_sextet in Hn. by rewrite !Hhigh by lia.
Qed.

(** The three bytes of four sextets; the register's older bits do not matter. *)
Lemma narrow_wrapped x k : 0 <= x -> 0 <= k <= 24 -> u8 (Z.shiftr (u32 x) k) = u8 (x / 2 ^ k).
Proof.
  intros Hx Hk. rewrite Z.shiftr_div_pow2 by lia. unfold wrap.
  assert (2 ^ 32 = 2 ^ k * 2 ^ (32 - k)) as Hp by (rewrite <- Z.pow_add_r by lia; f_equal; lia).
  assert (0 < 2 ^ k) by (apply Z.pow_pos_nonneg; lia).
  assert (0 < 2 ^ (32 - k)) by (apply Z.pow_pos_nonneg; lia).
  rewrite Hp, Z.rem_mul_r, Z.mul_comm, Z.add_comm by lia.
  rewrite Z.div_add_l by lia. rewrite (Z.div_small (x mod 2 ^ k)) by (apply Z.mod_pos_bound; lia).
  rewrite Z.add_0_r.
  replace (2 ^ (32 - k)) with (2 ^ 8 * 2 ^ (24 - k)) by (rewrite <- Z.pow_add_r by lia; f_equal; lia).
  rewrite Z.rem_mul_r by (try apply Z.pow_nonzero; try apply Z.pow_pos_nonneg; lia).
  rewrite Z.mul_comm, Z.mod_add by lia. by rewrite Z.mod_mod by lia.
Qed.

Lemma u32_chain x n : u32 (u32 x * 64 + n) = u32 (x * 64 + n).
Proof. unfold wrap. by rewrite <- Z.add_mod_idemp_l, Z.mul_mod_idemp_l, Z.add_mod_idemp_l by lia. Qed.

Lemma u32_chain2 x n m : u32 ((u32 x * 64 + n) * 64 + m) = u32 ((x * 64 + n) * 64 + m).
Proof. rewrite <- (u32_chain (u32 x * 64 + n)), <- (u32_chain (x * 64 + n)). by rewrite (u32_chain x n). Qed.

Lemma put_some capacity shift a :
  (length (out a) < capacity)%nat ->
  put capacity shift a = Some (mkAcc (out a ++ [u8 (Z.shiftr (r a) shift)]) (r a) (error a)).
Proof. intros Hlt. unfold put. by destruct (Nat.ltb_spec (length (out a)) capacity); [|lia]. Qed.

Lemma is_sextet_div b : is_byte b -> is_sextet (b / 4) /\ is_sextet (b mod 4 * 16)
  /\ is_sextet (b mod 16 * 4) /\ is_sextet (b mod 64).
Proof. unfold is_byte, is_sextet. intros. repeat split; Z.div_mod_to_equations; lia. Qed.

Lemma is_sextet_mid b c : is_byte b -> is_byte c ->
  is_sextet (b mod 4 * 16 + c / 16) /\ is_sextet (b mod 16 * 4 + c / 64).
Proof. unfold is_byte, is_sextet. intros. repeat split; Z.div_mod_to_equations; lia. Qed.

Lemma group3 url capacity b0 b1 b2 a :
  is_byte b0 -> is_byte b1 -> is_byte b2 -> 0 <= r a -> (length (out a) + 3 <= capacity)%nat ->
  exists r', 0 <= r' /\
  put3 capacity (accumulate (sextetChar url (b2 mod 64))
    (accumulate (sextetChar url (b1 mod 16 * 4 + b2 / 64))
      (accumulate (sextetChar url (b0 mod 4 * 16 + b1 / 16)) (accumulate (sextetChar url (b0 / 4)) a))))
  = Some (mkAcc (out a ++ [b0; b1; b2]) r' (error a)).
Proof.
  intros H0 H1 H2 Hr Hcap.
  destruct (is_sextet_div b0 H0) as (?&_&_&_), (is_sextet_div b2 H2) as (_&_&_&?).
  destruct (is_sextet_mid b0 b1 H0 H1) as [? _], (is_sextet_mid b1 b2 H1 H2) as [_ ?].
  rewrite (accumulate_sextet url (b0 / 4)), (accumulate_sextet url (b0 mod 4 * 16 + b1 / 16)) by done.
  cbn [r out error]. rewrite u32_chain, (accumulate_sextet url (b1 mod 16 * 4 + b2 / 64)) by done.
  cbn [r out error]. rewrite u32_chain, (accumulate_sextet url (b2 mod 64)) by done.
  cbn [r out error]. rewrite u32_chain.
  set (x := (((r a * 64 + b0 / 4) * 64 + (b0 mod 4 * 16 + b1 / 16)) * 64
             + (b1 mod 16 * 4 + b2 / 64)) * 64 + b2 mod 64).
  assert (x = r a * 16777216 + b0 * 65536 + b1 * 256 + b2) as Hx.
  { unfold x, is_byte in *. Z.div_mod_to_equations. lia. }
  clearbody x. unfold is_byte in *.
  exists (u32 x). split; [apply wrap_bound; lia|]. unfold put3.
  rewrite (put_some capacity 16) by (cbn; lia). cbn [mbind option_bind out r error].
  rewrite (put_some capacity 8) by (cbn; rewrite length_app; cbn; lia).
  cbn [mbind option_bind out r error].
  rewrite (put_some capacity 0) by (cbn; rewrite !length_app; cbn; lia). cbn [out r error].
  rewrite !narrow_wrapped by lia. rewrite <- !app_assoc.
  assert (u8 (x / 2 ^ 16) = b0 /\ u8 (x / 2 ^ 8) = b1 /\ u8 (x / 2 ^ 0) = b2) as (-> & -> & ->); [|done].
  rewrite Hx. unfold wrap. change (2 ^ 16) with 65536. change (2 ^ 8) with 256. change (2 ^ 0) with 1.
  repeat split; Z.div_mod_to_equations; lia.
Qed.

(** The last one to three bytes, with any number of [=] after them. *)
Lemma tailLoop_pads pads ri a :
  Forall (eq 0x3D) pads ->
  fold_left (fun '(ri, a) ch => if ch =? 0x3D then (ri, a) else (u8 (ri + 1), accumulate ch a))
            pads (ri, a) = (ri, a).
Proof. induction 1 as [|c pads <- Hp IH]; [done|exact IH]. Qed.

Lemma tailLoop_sextets url ns pads ri a :
  Forall is_sextet ns -> Forall (eq 0x3D) pads ->
  fold_left (fun '(ri, a) ch => if ch =? 0x3D then (ri, a) else (u8 (ri + 1), accumulate ch a))
            (map (sextetChar url) ns ++ pads) (ri, a)
  = (fold_left (fun ri _ => u8 (ri + 1)) ns ri,
     fold_left (fun a n => mkAcc (out a) (u32 (r a * 64 + n)) (error a)) ns a).
Proof.
  intros Hns Hp. revert ri a. induction Hns as [|n ns Hn Hns IH]; intros ri a.
  - by apply tailLoop_pads.
  - cbn [map app fold_left]. destruct (lookup_sextet url n Hn) as (_ & _ & Hne).
    destruct (Z.eqb_spec (sextetChar url n) 0x3D); [done|]. by rewrite accumulate_sextet, IH.
Qed.

(** What the batched loop leaves to the tail: at most three bytes. *)
Lemma tail_decodes url capacity bs pads a :
  Forall is_byte bs -> (length bs <= 3)%nat -> Forall (eq 0x3D) pads -> 0 <= r a ->
  (length (out a) + length bs <= capacity)%nat -> error a = 0 ->
  exists a', (let '(ri, a) := tailLoop (encode url bs ++ pads) a in tailPut capacity ri a) = Some a'
             /\ out a' = out a ++ bs /\ error a' = 0.
Proof.
  intros Hbs Hlen Hp Hr Hcap He. unfold tailLoop.
  destruct Hbs as [|b0 bs H0 Hbs]; [|destruct Hbs as [|b1 bs H1 Hbs]; [|destruct Hbs as [|b2 bs H2 Hbs]]].
  - cbn [encode app]. rewrite tailLoop_pads by done. eexists. split; [reflexivity|]. cbn.
    by rewrite app_nil_r, He.
  - destruct (is_sextet_div b0 H0) as (S1&S2&_&_).
    change (encode url [b0]) with (map (sextetChar url) [b0 / 4; b0 mod 4 * 16]).
    rewrite tailLoop_sextets by (rewrite ?Forall_cons; done).
    cbn [fold_left r out error]. rewrite u32_chain. cbn [length] in Hcap.
    change (u8 (u8 (0 + 1) + 1)) with 2. cbn [tailPut Z.eqb Pos.eqb].
    rewrite put_some by (cbn; lia).
    eexists. split; [reflexivity|]. cbn [out error r]. split; [|done]. unfold is_byte in *.
    rewrite narrow_wrapped by (Z.div_mod_to_equations; lia). do 2 f_equal.
    unfold wrap. change (2 ^ 4) with 16. change (2 ^ 8) with 256. Z.div_mod_to_equations; lia.
  - destruct (is_sextet_div b0 H0) as (S1&_&_&_), (is_sextet_div b1 H1) as (_&_&S3&_).
    destruct (is_sextet_mid b0 b1 H0 H1) as [S2 _].
    change (encode url [b0; b1])
      with (map (sextetChar url) [b0 / 4; b0 mod 4 * 16 + b1 / 16; b1 mod 16 * 4]).
    rewrite tailLoop_sextets by (rewrite ?Forall_cons; done).
    cbn [fold_left r out error]. rewrite u32_chain, u32_chain2. cbn [length] in Hcap.
    change (u8 (u8 (u8 (0 + 1) + 1) + 1)) with 3. unfold tailPut. cbn [Z.eqb Pos.eqb].
    set (x := ((r a * 64 + b0 / 4) * 64 + (b0 mod 4 * 16 + b1 / 16)) * 64 + b1 mod 16 * 4).
    assert (x = r a * 262144 + b0 * 1024 + b1 * 4) as Hx.
    { unfold x, is_byte in *. Z.div_mod_to_equations. lia. }
    clearbody x. unfold is_byte in *.
    rewrite (put_some capacity 10) by (cbn; lia). cbn [mbind option_bind out r error].
    rewrite (put_some capacity 2) by (cbn; rewrite length_app; cbn; lia).
    eexists. split; [reflexivity|]. cbn [out error r]. split; [|done].
    rewrite !narrow_wrapped by lia. rewrite <- app_assoc.
    assert (u8 (x / 2 ^ 10) = b0 /\ u8 (x / 2 ^ 2) = b1) as (-> & ->); [|done].
    rewrite Hx. unfold wrap. change (2 ^ 10) with 1024. change (2 ^ 8) with 256. change (2 ^ 2) with 4.
    split; Z.div_mod_to_equations; lia.
  - assert (bs = []) as -> by (destruct bs; [done|cbn in Hlen; lia]).
    destruct (group3 url capacity b0 b1 b2 a H0 H1 H2 Hr Hcap) as (r' & _ & Hg).
    destruct (is_sextet_div b0 H0) as (S1&_&_&_), (is_sextet_div b2 H2) as (_&_&_&S4).
    destruct (is_sextet_mid b0 b1 H0 H1) as [S2 _], (is_sextet_mid b1 b2 H1 H2) as [_ S3].
    change (encode url [b0; b1; b2])
      with (map (sextetChar url) [b0 / 4; b0 mod 4 * 16 + b1 / 16; b1 mod 16 * 4 + b2 / 64; b2 mod 64]).
    rewrite tailLoop_sextets by (rewrite ?Forall_cons; done). cbn [fold_left].
    change (u8 (u8 (u8 (u8 (0 + 1) + 1) + 1) + 1)) with 4. unfold tailPut. cbn [Z.eqb Pos.eqb].
    rewrite !accumulate_sextet in Hg by done. rewrite Hg. by eexists.
Qed.

Lemma length_encode url bs :
  (length (encode url bs) = 4 * Nat.div (length bs) 3
     + match Nat.modulo (length bs) 3 with 0 => 0 | 1 => 2 | _ => 3 end)%nat.
Proof.
  induction bs as [bs IH] using (induction_ltof1 _ length). unfold ltof in IH.
  destruct bs as [|b0 [|b1 [|b2 rest]]]; [done..|]. cbn [encode length].
  rewrite IH by (cbn; lia).
  replace (S (S (S (length rest)))) with (length rest + 1 * 3)%nat by lia.
  rewrite Nat.div_add, Nat.Div0.mod_add by lia. lia.
Qed.

Lemma batched_step capacity reserve ch0 ch1 ch2 ch3 rest a :
  (reserve < length (ch0 :: ch1 :: ch2 :: ch3 :: rest))%nat ->
  batched capacity reserve (ch0 :: ch1 :: ch2 :: ch3 :: rest) a
  = (a ← put3 capacity (accumulate ch3 (accumulate ch2 (accumulate ch1 (accumulate ch0 a))));
     batched capacity reserve rest a).
Proof. intros Hlt. cbn [batched]. by rewrite (proj2 (Nat.ltb_lt _ _) Hlt). Qed.

Lemma batched_stop capacity reserve input a :
  (length input <= reserve)%nat -> batched capacity reserve input a = Some (input, a).
Proof. intros Hle. destruct input; cbn [batched]; by rewrite (proj2 (Nat.ltb_ge _ _) Hle). Qed.

(** The batched loop decodes whole groups and stops before the padding. *)
Lemma batched_decodes url capacity pads bs a :
  Forall is_byte bs -> (length pads <= 2)%nat -> 0 <= r a ->
  (length (out a) + length bs <= capacity)%nat ->
  exists bs1 bs2 a', bs = bs1 ++ bs2 /\ (length bs2 <= 3)%nat /\ 0 <= r a'
    /\ out a' = out a ++ bs1 /\ error a' = error a
    /\ batched capacity 5 (encode url bs ++ pads) a = Some (encode url bs2 ++ pads, a').
Proof.
  intros Hbs Hp. revert a. induction bs as [bs IH] using (induction_ltof1 _ length).
  unfold ltof in IH. intros a Hr Hcap.
  destruct (Nat.ltb_spec 5 (length (encode url bs ++ pads))) as [Hlt|Hge].
  - assert (3 <= length bs)%nat as Hlen.
    { rewrite length_app, length_encode in Hlt. destruct bs as [|b0 [|b1 [|b2 rest]]]; cbn in Hlt; cbn; lia. }
    destruct bs as [|b0 [|b1 [|b2 rest]]]; [cbn in Hlen; lia..|].
    apply Forall_cons in Hbs as [H0 Hbs], Hbs as [H1 Hbs], Hbs as [H2 Hbs].
    cbn [length] in Hcap.
    destruct (group3 url capacity b0 b1 b2 a) as (r' & Hr' & Hg); [done..|lia|].
    destruct (IH rest) with (a := mkAcc (out a ++ [b0; b1; b2]) r' (error a))
      as (bs1 & bs2 & a' & -> & Hl2 & Hra & Ho & He & Hb); [cbn; lia|done|done| |].
    { cbn. rewrite length_app. cbn. lia. }
    exists (b0 :: b1 :: b2 :: bs1), bs2, a'. repeat split; try done.
    + rewrite Ho. cbn [out]. by rewrite <- app_assoc.
    + cbn [encode app] in Hlt |- *. rewrite batched_step by done. by rewrite Hg.
  - exists [], bs, a. rewrite app_nil_r. repeat split; try done.
    + rewrite length_app, length_encode in Hge.
      pose proof (Nat.Div0.div_mod (length bs) 3) as Hdm.
      pose proof (Nat.mod_upper_bound (length bs) 3).
      destruct (Nat.modulo (length bs) 3) as [|[|]]; lia.
    + by apply batched_stop.
Qed.

(** ** Bounds: the output buffer is never overrun *)
Lemma accumulate_out ch a : out (accumulate ch a) = out a.
Proof. done. Qed.

Lemma put_room capacity shift a :
  (length (out a) < capacity)%nat ->
  exists a', put capacity shift a = Some a' /\ length (out a') = S (length (out a)).
Proof.
  intros Hlt. rewrite put_some by done. eexists. split; [done|]. cbn. rewrite length_app. cbn. lia.
Qed.

Lemma put3_room capacity a :
  (length (out a) + 3 <= capacity)%nat ->
  exists a', put3 capacity a = Some a' /\ length (out a') = (length (out a) + 3)%nat.
Proof.
  intros Hc. unfold put3.
  destruct (put_room capacity 16 a) as (a1 & -> & H1); [lia|]. cbn [mbind option_bind].
  destruct (put_room capacity 8 a1) as (a2 & -> & H2); [lia|]. cbn [mbind option_bind].
  destruct (put_room capacity 0 a2) as (a3 & -> & H3); [lia|]. exists a3. split; [done|lia].
Qed.

(** Three bytes per four characters read, for whatever input. *)
Lemma batched_room capacity reserve input a k :
  (3 <= reserve \/ length input <= reserve)%nat -> length (out a) = (3 * k)%nat ->
  (length (out a) * 4 + length input * 3 <= capacity * 4)%nat ->
  exists rest a' k', batched capacity reserve input a = Some (rest, a')
    /\ length (out a') = (3 * k')%nat
    /\ (length (out a') * 4 + length rest * 3 <= capacity * 4)%nat.
Proof.
  revert a k. induction input as [input IH] using (induction_ltof1 _ length). unfold ltof in IH.
  intros a k Hres Hk Hcap. destruct (Nat.le_gt_cases (length input) reserve) as [Hge|Hlt].
  { exists input, a, k. by rewrite batched_stop. }
  destruct input as [|c0 [|c1 [|c2 [|c3 rest]]]]; [cbn in *; lia..|]. rewrite batched_step by done.
  destruct (put3_room capacity (accumulate c3 (accumulate c2 (accumulate c1 (accumulate c0 a)))))
    as (a1 & -> & H1); [rewrite !accumulate_out; cbn in Hcap; lia|].
  rewrite !accumulate_out in H1. cbn [mbind option_bind].
  apply (IH rest) with (k := S k); [cbn; lia|cbn in *; lia|lia|]. rewrite H1. cbn in Hcap. lia.
Qed.

Lemma tailPut_room capacity ri a :
  (ri <> 0 -> (length (out a) + 3 <= capacity)%nat) -> exists a', tailPut capacity ri a = Some a'.
Proof.
  intros Hcap. unfold tailPut. destruct (Z.eqb_spec ri 2) as [->|].
  { destruct (put_room capacity 4 a) as (a1 & -> & _); [specialize (Hcap ltac:(lia)); lia|by eexists]. }
  destruct (Z.eqb_spec ri 3) as [->|].
  { destruct (put_room capacity 10 a) as (a1 & -> & H1); [specialize (Hcap ltac:(lia)); lia|].
    cbn [mbind option_bind].
    destruct (put_room capacity 2 a1) as (a2 & -> & _); [specialize (Hcap ltac:(lia)); lia|by eexists]. }
  destruct (Z.eqb_spec ri 4) as [->|]; [|by eexists].
  destruct (put3_room capacity a) as (a1 & -> & _); [specialize (Hcap ltac:(lia)); lia|by eexists].
Qed.

Lemma tailLoop_out input a : out (tailLoop input a).2 = out a /\ (input = [] -> (tailLoop input a).1 = 0).
Proof.
  split; [|by intros ->]. unfold tailLoop. generalize 0 as ri. revert a.
  induction input as [|c input IH]; intros a ri; [done|]. cbn [fold_left].
  destruct (c =? 0x3D); rewrite IH; [done|apply accumulate_out].
Qed.

Lemma decodeBytes_no_ub src : exists res, decodeBytes src = Ret res.
Proof.
  unfold decodeBytes. set (capacity := (Nat.div (length src + 3) 4 * 3)%nat).
  assert (length src * 3 <= capacity * 4)%nat as Hcap.
  { unfold capacity. pose proof (Nat.Div0.div_mod (length src + 3) 4).
    pose proof (Nat.mod_upper_bound (length src + 3) 4). lia. }
  assert (exists k, capacity = 3 * k)%nat as [k Hk] by (exists (Nat.div (length src + 3) 4); unfold capacity; lia).
  clearbody capacity.
  destruct (batched_room capacity (Nat.min 5 (length src)) src (mkAcc [] 0 0) 0)
    as (rest & a & m & -> & Hm & Ha); [lia|done|cbn; lia|]. cbn [mbind option_bind].
  destruct (tailLoop_out rest a) as [Hout Hnil].
  destruct (tailLoop rest a) as [ri a'] eqn:Htail. cbn [fst snd] in Hout, Hnil.
  destruct (tailPut_room capacity ri a') as (a'' & ->); [|by eexists].
  intros Hri. rewrite Hout. destruct rest; [by rewrite Hnil in Hri|]. cbn in Ha. lia.
Qed.

Lemma decodeBytes_encode (url : bool) (bs : bytes) (pad : nat) :
  Forall is_byte bs -> (pad <= 2)%nat ->
  decodeBytes (encode url bs ++ repeat 0x3D pad) = Ret (Some bs).
Proof.
  intros Hbs Hpad. set (pads := repeat 0x3D pad).
  assert (length pads = pad /\ Forall (eq 0x3D) pads) as [Hlp Hp].
  { unfold pads. rewrite repeat_length. split; [done|]. apply List.Forall_forall.
    intros x Hx. by apply repeat_spec in Hx. }
  unfold decodeBytes. set (src := encode url bs ++ pads).
  assert (length bs <= Nat.div (length src + 3) 4 * 3)%nat as Hcap.
  { unfold src. rewrite length_app, length_encode.
    pose proof (Nat.Div0.div_mod (length bs) 3). pose proof (Nat.mod_upper_bound (length bs) 3).
    match goal with |- context [Nat.div ?x 4] =>
      pose proof (Nat.Div0.div_mod x 4); pose proof (Nat.mod_upper_bound x 4) end.
    destruct (Nat.modulo (length bs) 3) as [|[|]]; lia. }
  set (capacity := (_ * 3)%nat) in *. clearbody capacity.
  assert (exists bs1 bs2 a', bs = bs1 ++ bs2 /\ (length bs2 <= 3)%nat /\ 0 <= r a'
    /\ out a' = bs1 /\ error a' = 0
    /\ batched capacity (Nat.min 5 (length src)) src (mkAcc [] 0 0) = Some (encode url bs2 ++ pads, a'))
    as (bs1 & bs2 & a' & Hsplit & Hl2 & Hr & Ho & He & Hb).
  { destruct (Nat.le_gt_cases 5 (length src)) as [Hge|Hlt].
    - rewrite Nat.min_l by done.
      destruct (batched_decodes url capacity pads bs (mkAcc [] 0 0)) as (bs1 & bs2 & a' & ?&?&?&?&?&?);
        [done|lia|done|cbn; lia|]. by exists bs1, bs2, a'.
    - rewrite Nat.min_r, batched_stop by lia. exists [], bs, (mkAcc [] 0 0). repeat split; try done.
      unfold src in Hlt. rewrite length_app, length_encode in Hlt.
      pose proof (Nat.Div0.div_mod (length bs) 3). pose proof (Nat.mod_upper_bound (length bs) 3).
      destruct (Nat.modulo (length bs) 3) as [|[|]]; lia. }
  rewrite Hb. cbn [mbind option_bind].
  destruct (tail_decodes url capacity bs2 pads a') as (a'' & Ht & Ho' & He'); try done.
  { rewrite Hsplit in Hbs. by apply Forall_app in Hbs as [_ ?]. }
  { rewrite Ho. rewrite Hsplit, length_app in Hcap. lia. }
  rewrite Ht, He', Ho', Ho, <- Hsplit. done.
Qed.

End Base64.

Section Theorems.
Import Base64.

(** Decoding never writes past its output buffer: every input, valid or
    not, gives either bytes or the error code. *)
Theorem base64_decode_in_bounds (u8u16 : bytes -> option wstring) (src : wstring) :
  exists res, Decode u8u16 src = Ret res.
Proof.
  unfold Decode. destruct (decodeBytes_no_ub src) as [[bs|] ->]; by eexists.
Qed.

(** Decoding inverts encoding: for every byte string, in the standard and in
    the URL alphabet, with or without padding. *)
Theorem base64_roundtrip (url : bool) (bs : bytes) (pad : nat) :
  Forall is_byte bs -> (pad <= 2)%nat ->
  decodeBytes (encode url bs ++ repeat 0x3D pad) = Ret (Some bs).
Proof. apply decodeBytes_encode. Qed.

Lemma base64_roundtrip_witness :
  decodeBytes (encode false (L "any carnal pleas") ++ repeat 0x3D 2) = Ret (Some (L "any carnal pleas")).
Proof. apply base64_roundtrip; [by_decide|lia]. Defined.

(** The clipboard example of OSC 52, through the UTF-8 conversion of ASCII text. *)
Example decode_hello : Decode Some (L "aGVsbG8=") = Ret (Some (L "hello")).
Proof. reflexivity. Qed.
Example decode_space : Decode Some (L "aGVs bG8=") = Ret None.
Proof. reflexivity. Qed.

End Theorems.
