(* ===== verification/Strings.v ===== *)
(** * Parsing and filtering of strings

    More of [src/types/utils.cpp]: numbers and hexadecimal digits, splitting,
    the filters applied to pasted text, and the colour specifications of the OSC
    colour sequences. *)
From S2P Require Import Prelude.

(** ** Searching: [std::wstring_view::find] and its relatives *)

(** The first position from [pos] on whose character satisfies [P]; [None] is [npos]. *)
Fixpoint find_from (P : wchar_t -> bool) (s : wstring) (pos : nat) : option nat :=
  match s, pos with
  | [], _ => None
  | c :: s, O => if P c then Some O else S <$> find_from P s O
  | _ :: s, S pos => S <$> find_from P s pos
  end.

Definition find (s : wstring) (c : wchar_t) (pos : nat) : option nat := find_from (Z.eqb c) s pos.
Definition find_first_of (s chars : wstring) : option nat :=
  find_from (fun c => existsb (Z.eqb c) chars) s 0.

(** The last position whose character is none of [chars]. *)
Definition find_last_not_of (s chars : wstring) : option nat :=
  match find_from (fun c => negb (existsb (Z.eqb c) chars)) (rev s) 0 with
  | Some i => Some (length s - 1 - i)%nat
  | None => None
  end.

Lemma find_from_0 P s :
  match find_from P s 0 with
  | Some i => exists a c b, s = a ++ c :: b /\ length a = i /\ Forall (fun c => P c = false) a /\ P c = true
  | None => Forall (fun c => P c = false) s
  end.
Proof.
  induction s as [|c s IH]; cbn [find_from]; [constructor|].
  destruct (P c) eqn:Hc; [by exists [], c, s|].
  destruct (find_from P s 0) as [i|]; cbn.
  - destruct IH as (a & d & b & -> & <- & Ha & Hd). exists (c :: a), d, b. by repeat constructor.
  - by constructor.
Qed.

Lemma find_from_drop P s pos :
  find_from P s pos = (fun i => pos + i)%nat <$> find_from P (drop pos s) 0.
Proof.
  revert pos. induction s as [|c s IH]; intros [|pos]; cbn [find_from drop]; try done.
  - destruct (P c); [done|]. by destruct (find_from P s 0).
  - rewrite IH. by destruct (find_from P (drop pos s) 0).
Qed.

(** ** [HexToUint], [StringToUint], [SplitString] *)
Definition _isNumber (wch : wchar_t) : bool := (0x30 <=? wch) && (wch <=? 0x39).

Definition HexToUint (wch : wchar_t) : option Z :=
  if (0x30 <=? wch) && (wch <=? 0x39) then Some (wch - 0x30)
  else if (0x41 <=? wch) && (wch <=? 0x46) then Some (wch - 0x41 + 10)
  else if (0x61 <=? wch) && (wch <=? 0x66) then Some (wch - 0x61 + 10)
  else None.

(** [unsigned int] arithmetic: the result wraps at 2^32. *)
Fixpoint StringToUint_loop (wstr : wstring) (result : Z) : option Z :=
  match wstr with
  | [] => Some result
  | wch :: rest =>
      if _isNumber wch then StringToUint_loop rest (u32 (u32 (result * 10) + (wch - 0x30)))
      else None
  end.
Definition StringToUint (wstr : wstring) : option Z :=
  match wstr with
  | [] => None
  | _ => StringToUint_loop wstr 0
  end.

(** So a number beyond 32 bits is accepted, reduced. *)
Example StringToUint_wraps : StringToUint (L "4294967297") = Some 1.
Proof. reflexivity. Qed.

(** The [while] loop over [current]. *)
Fixpoint SplitString_loop (fuel : nat) (wstr : wstring) (delimiter : wchar_t) (current : nat)
    (result : list wstring) : option (list wstring) :=
  match fuel with
  | O => None
  | S fuel =>
      if (current <? length wstr)%nat then
        match find wstr delimiter current with
        | None => Some (result ++ [drop current wstr])
        | Some nextDelimiter =>
            let length_ := (nextDelimiter - current)%nat in
            let result := result ++ [take length_ (drop current wstr)] in
            let current := (current + length_ + 1)%nat in
            let result := if (length wstr <=? current)%nat then result ++ [[]] else result in
            SplitString_loop fuel wstr delimiter current result
        end
      else Some result
  end.
Definition SplitString (wstr : wstring) (delimiter : wchar_t) : list wstring :=
  default [] (SplitString_loop (S (length wstr)) wstr delimiter 0 []).

(** The parts joined again. *)
Fixpoint joinWith (delimiter : wchar_t) (parts : list wstring) : wstring :=
  match parts with
  | [] => []
  | [part] => part
  | part :: parts => part ++ delimiter :: joinWith delimiter parts
  end.

Lemma joinWith_cons delimiter part parts :
  parts <> [] -> joinWith delimiter (part :: parts) = part ++ delimiter :: joinWith delimiter parts.
Proof. by destruct parts. Qed.

Definition delimiterFree (delimiter : wchar_t) (part : wstring) : Prop := ~ In delimiter part.

Lemma not_in_Forall c l : Forall (fun d => (c =? d) = false) l -> ~ In c l.
Proof. intros Hl Hin. rewrite List.Forall_forall in Hl. apply Hl in Hin. lia. Qed.

(** From [current] on, the loop appends the parts of what is left. *)
Lemma SplitString_loop_spec fuel wstr delimiter current result :
  (length wstr - current < fuel)%nat ->
  exists parts, SplitString_loop fuel wstr delimiter current result = Some (result ++ parts)
    /\ Forall (delimiterFree delimiter) parts
    /\ ((current < length wstr)%nat -> parts <> [] /\ joinWith delimiter parts = drop current wstr)
    /\ ((length wstr <= current)%nat -> parts = []).
Proof.
  revert current result. induction fuel as [|fuel IH]; intros current result Hf; [lia|].
  cbn [SplitString_loop]. destruct (Nat.ltb_spec current (length wstr)) as [Hlt|Hge].
  2: { exists []. rewrite app_nil_r. repeat split; try done; lia. }
  unfold find. rewrite find_from_drop. pose proof (find_from_0 (Z.eqb delimiter) (drop current wstr)) as Hfind.
  destruct (find_from (Z.eqb delimiter) (drop current wstr) 0) as [i|]; cbn.
  - destruct Hfind as (a & c & b & Hdrop & <- & Ha & Hc). apply Z.eqb_eq in Hc. subst c.
    pose proof (f_equal length Hdrop) as Hl. rewrite length_drop, length_app in Hl. cbn in Hl.
    replace (current + length a - current)%nat with (length a) by lia.
    set (next := (current + length a + 1)%nat).
    set (result' := result ++ [take (length a) (drop current wstr)]).
    assert (take (length a) (drop current wstr) = a) as Ht by (rewrite Hdrop; apply take_app_length).
    assert (drop next wstr = b) as Hb.
    { unfold next. rewrite <- Nat.add_assoc, <- drop_drop, Hdrop, <- drop_drop, drop_app_length. done. }
    destruct (IH next (if (length wstr <=? next)%nat then result' ++ [[]] else result'))
      as (parts & Hloop & Hfree & Hin & Hout); [lia|].
    rewrite Hloop. destruct (Nat.leb_spec (length wstr) next) as [Hend|Hmore].
    + specialize (Hout Hend). subst parts. exists [a; []]. rewrite app_nil_r. unfold result'.
      rewrite Ht, <- app_assoc. split; [done|]. split; [|split; [|lia]].
      * repeat constructor; [by apply not_in_Forall|by intros []].
      * intros _. split; [done|]. cbn. rewrite Hdrop. rewrite drop_ge in Hb by lia. by subst b.
    + destruct (Hin Hmore) as [Hne Hjoin]. exists (a :: parts). unfold result'.
      rewrite Ht, <- app_assoc. split; [done|]. split; [|split; [|lia]].
      * constructor; [by apply not_in_Forall|done].
      * intros _. split; [done|]. rewrite joinWith_cons by done. by rewrite Hjoin, Hb, Hdrop.
  - exists [drop current wstr]. repeat split; try done; try lia.
    constructor; [|constructor]. by apply not_in_Forall.
Qed.

Lemma SplitString_spec wstr delimiter :
  Forall (delimiterFree delimiter) (SplitString wstr delimiter)
  /\ joinWith delimiter (SplitString wstr delimiter) = wstr
  /\ (SplitString wstr delimiter = [] <-> wstr = []).
Proof.
  unfold SplitString.
  destruct (SplitString_loop_spec (S (length wstr)) wstr delimiter 0 []) as (parts & -> & Hfree & Hin & Hout); [lia|].
  rewrite app_nil_l. change (default [] (Some parts)) with parts. split; [done|].
  destruct wstr as [|c wstr].
  - rewrite Hout by (cbn; lia). done.
  - destruct Hin as [Hne Hj]; [cbn; lia|]. rewrite Hj, drop_0. by destruct parts.
Qed.

(** Joining delimiter-free parts and splitting again. *)
Lemma app_delimiter_inj d (x y xs ys : wstring) :
  ~ In d x -> ~ In d y -> x ++ d :: xs = y ++ d :: ys -> x = y /\ xs = ys.
Proof.
  revert y. induction x as [|c x IH]; intros [|e y] Hx Hy Heq; simplify_eq/=; try tauto.
  destruct (IH y) as [-> ->]; tauto.
Qed.

Lemma joinWith_inj d ps qs :
  Forall (delimiterFree d) ps -> Forall (delimiterFree d) qs -> ps <> [] -> qs <> [] ->
  joinWith d ps = joinWith d qs -> ps = qs.
Proof.
  intros Hps. revert qs. induction Hps as [|p ps Hp Hps IH]; intros qs Hqs Hne1 Hne2 Heq; [done|].
  destruct Hqs as [|q qs Hq Hqs]; [done|]. clear Hne1 Hne2.
  destruct (decide (ps = [])) as [->|Hps'], (decide (qs = [])) as [->|Hqs'].
  - cbn in Heq. by subst.
  - rewrite (joinWith_cons d q qs Hqs') in Heq. cbn [joinWith] in Heq. exfalso. apply Hp.
    rewrite Heq. apply in_or_app. right. by left.
  - rewrite (joinWith_cons d p ps Hps') in Heq. cbn [joinWith] in Heq. exfalso. apply Hq.
    rewrite <- Heq. apply in_or_app. right. by left.
  - rewrite (joinWith_cons d p ps Hps'), (joinWith_cons d q qs Hqs') in Heq. apply app_delimiter_inj in Heq as [-> Heq]; [|done..]. f_equal. by apply IH.
Qed.

Lemma SplitString_join d parts :
  Forall (delimiterFree d) parts -> parts <> [] -> parts <> [[]] ->
  SplitString (joinWith d parts) d = parts.
Proof.
  intros Hfree Hne Hne'. destruct (SplitString_spec (joinWith d parts) d) as (Hf & Hj & He).
  apply (joinWith_inj d); [done|done| |done|done]. intros Hnil. apply He in Hnil.
  destruct parts as [|p [|q parts]]; [done|cbn in Hnil; by subst p|].
  rewrite joinWith_cons in Hnil by done. by destruct p.
Qed.

(** ** [til::split_iterator] and [til::parse_unsigned] ([src/inc/til/string.h]) *)

(** The tokens a range-for loop over the iterator visits: it goes on while the last
    token ended at a delimiter. *)
Fixpoint split_tokens (fuel : nat) (rest : wstring) (needle : wchar_t) : list wstring :=
  match fuel with
  | O => []
  | S fuel =>
      match find rest needle 0 with
      | Some tok => take tok rest :: split_tokens fuel (drop (S tok) rest) needle
      | None => [rest]
      end
  end.
Definition split_iterator (str : wstring) (needle : wchar_t) : list wstring :=
  match str with
  | [] => []
  | _ => split_tokens (S (length str)) str needle
  end.

(** The mapping of [0-9A-Za-z] to 0..35 in [uint64_t] arithmetic. *)
Definition digitValue (ch : Z) : Z :=
  let sub := if (0x30 <=? ch) && (ch <=? 0x39) then Z.land 0x2F (Z.lnot 0x20)
             else Z.land 0x40 (Z.lnot 0x20) - 10 in
  u64 (Z.land (u64 (ch - 1)) (Z.lnot 0x20) - sub).

(** The [for] loop, with its checks for overflow. *)
Fixpoint parseLoop (base accumulator : Z) (str : wstring) : option Z :=
  match str with
  | [] => Some accumulator
  | ch :: rest =>
      let max_before_mul := (2 ^ 64 - 1) / base in
      let value := digitValue ch in
      let acc := u64 (u64 (accumulator * base) + value) in
      if (base <=? value) || (max_before_mul <? accumulator) || (acc <? accumulator) then None
      else parseLoop base acc rest
  end.

(** [parse_u64], which is [parse_unsigned<size_t>]. *)
Definition parse_u64 (str : wstring) (base : Z) : option Z :=
  let '(base_uint64, ptr) :=
    if base <=? 0 then
      match str with
      | c0 :: c1 :: rest =>
          if c0 =? 0x30 then
            let ch := Z.lor c1 0x20 in
            if ch =? 0x62 then (2, rest) else if ch =? 0x78 then (16, rest) else (8, c1 :: rest)
          else (10, str)
      | _ => (10, str)
      end
    else (base, str) in
  match ptr with
  | [] => None
  | _ => if 36 <? base_uint64 then None else parseLoop base_uint64 0 ptr
  end.

(** The reference: the digits and their unbounded number. *)
Definition digitOf (ch : Z) : option Z :=
  if (0x30 <=? ch) && (ch <=? 0x39) then Some (ch - 0x30)
  else if (0x41 <=? ch) && (ch <=? 0x5A) then Some (ch - 0x41 + 10)
  else if (0x61 <=? ch) && (ch <=? 0x7A) then Some (ch - 0x61 + 10)
  else None.
Fixpoint numeral (base v : Z) (str : wstring) : option Z :=
  match str with
  | [] => Some v
  | ch :: rest =>
      match digitOf ch with
      | Some d => if d <? base then numeral base (v * base + d) rest else None
      | None => None
      end
  end.

Lemma digitValue_table :
  forallb (fun n => match digitOf (Z.of_nat n) with
                    | Some d => digitValue (Z.of_nat n) =? d
                    | None => 36 <=? digitValue (Z.of_nat n)
                    end) (seq 0 256) = true.
Proof. vm_compute. reflexivity. Qed.

(** Clearing bit 5. *)
Lemma ldiff_bound x : 0 <= x -> x - 32 <= Z.ldiff x 32 <= x.
Proof.
  intros Hx.
  assert (0 <= Z.land x 32 <= 32) as Hland.
  { apply Z.ldiff_le; [lia|]. apply Z.bits_inj'. intros n Hn.
    rewrite Z.ldiff_spec, Z.land_spec, Z.bits_0. by destruct (Z.testbit x n), (Z.testbit 32 n). }
  assert (Z.ldiff x 32 = x - Z.land x 32) as ->; [|lia].
  rewrite (Z.sub_nocarry_ldiff x (Z.land x 32)).
  - apply Z.bits_inj'. intros n Hn. rewrite !Z.ldiff_spec, Z.land_spec.
    by destruct (Z.testbit x n), (Z.testbit 32 n).
  - apply Z.bits_inj'. intros n Hn. rewrite Z.ldiff_spec, Z.land_spec, Z.bits_0.
    by destruct (Z.testbit x n), (Z.testbit 32 n).
Qed.

Lemma digitValue_spec ch :
  is_wchar ch ->
  match digitOf ch with Some d => digitValue ch = d /\ 0 <= d < 36 | None => 36 <= digitValue ch end.
Proof.
  unfold is_wchar. intros Hch. destruct (Z.ltb_spec ch 256).
  - pose proof digitValue_table as Ht. rewrite forallb_forall in Ht.
    specialize (Ht (Z.to_nat ch) ltac:(apply in_seq; lia)). rewrite Z2Nat.id in Ht by lia.
    destruct (digitOf ch) eqn:Hd; [|lia]. split; [lia|].
    unfold digitOf in Hd. repeat case_match; simplify_eq; lia.
  - unfold digitOf, digitValue. replace ((0x30 <=? ch) && (ch <=? 0x39)) with false by lia.
    replace ((0x41 <=? ch) && (ch <=? 0x5A)) with false by lia.
    replace ((0x61 <=? ch) && (ch <=? 0x7A)) with false by lia.
    change (Z.land 0x40 (Z.lnot 0x20) - 10) with 54. rewrite <- Z.ldiff_land.
    rewrite (wrap_small 64 (ch - 1)) by lia. pose proof (ldiff_bound (ch - 1)).
    rewrite wrap_small; lia.
Qed.

(** From [2^64] on, a numeral only grows. *)
Lemma numeral_grows base v str :
  1 <= base -> 0 <= v -> match numeral base v str with Some w => v <= w | None => True end.
Proof.
  intros Hb. revert v. induction str as [|ch str IH]; intros v Hv; cbn [numeral]; [lia|].
  destruct (digitOf ch) as [d|] eqn:Hd; [|done]. destruct (d <? base); [|done].
  assert (0 <= d) by (unfold digitOf in Hd; repeat case_match; simplify_eq; lia).
  specialize (IH (v * base + d) ltac:(nia)). destruct (numeral base _ str); [nia|done].
Qed.

Lemma parseLoop_numeral base accumulator str :
  2 <= base <= 36 -> 0 <= accumulator < 2 ^ 64 -> Forall is_wchar str ->
  parseLoop base accumulator str
  = match numeral base accumulator str with
    | Some v => if v <? 2 ^ 64 then Some v else None
    | None => None
    end.
Proof.
  intros Hb Ha Hs. revert accumulator Ha. induction Hs as [|ch str Hch Hs IH]; intros accumulator Ha.
  { cbn. by destruct (Z.ltb_spec accumulator (2 ^ 64)); [|lia]. }
  cbn [parseLoop numeral]. pose proof (digitValue_spec ch Hch) as Hd.
  destruct (digitOf ch) as [d|]; [|by destruct (Z.leb_spec base (digitValue ch)); [|lia]].
  destruct Hd as [-> Hd]. destruct (Z.ltb_spec d base), (Z.leb_spec base d); try lia; [|done].
  cbn [orb]. change (2 ^ 64) with 18446744073709551616 in *.
  change (18446744073709551616 - 1) with 18446744073709551615.
  pose proof (numeral_grows base (accumulator * base + d) str ltac:(lia) ltac:(nia)) as Hgrow.
  destruct (Z.ltb_spec (18446744073709551615 / base) accumulator) as [Hmax|Hmax]; cbn [orb].
  - assert (18446744073709551616 <= accumulator * base).
    { pose proof (Z.mul_succ_div_gt 18446744073709551615 base ltac:(lia)). nia. }
    destruct (numeral base _ str) as [w|]; [|done]. by destruct (Z.ltb_spec w 18446744073709551616); [lia|].
  - assert (accumulator * base <= 18446744073709551615).
    { pose proof (Z.mul_div_le 18446744073709551615 base ltac:(lia)). nia. }
    rewrite (wrap_small 64 (accumulator * base)) by (change (2 ^ 64) with 18446744073709551616; lia).
    destruct (Z.ltb_spec (accumulator * base + d) 18446744073709551616) as [Hfit|Hover].
    + rewrite wrap_small by (change (2 ^ 64) with 18446744073709551616; lia).
      destruct (Z.ltb_spec (accumulator * base + d) accumulator); [nia|]. apply IH. lia.
    + unfold wrap. change (2 ^ 64) with 18446744073709551616.
      replace ((accumulator * base + d) mod 18446744073709551616)
        with (accumulator * base + d - 18446744073709551616)
        by (apply (Z.mod_unique_pos _ _ 1); lia).
      destruct (Z.ltb_spec (accumulator * base + d - 18446744073709551616) accumulator); [|nia].
      destruct (numeral base _ str) as [w|]; [|done]. by destruct (Z.ltb_spec w 18446744073709551616); [lia|].
Qed.

(** ** [FilterStringForPaste] *)
Definition isControlCode (c : wchar_t) : bool :=
  if (0x20 <=? c) && (c <? 0x7f) then false
  else if 0x9f <? c then false
  else negb (c =? 0x09) && negb (c =? 0x0a) && negb (c =? 0x0d).

Record FilterOption := mkFilterOption { CarriageReturnNewline : bool; ControlCodes : bool }.

(** The iterators [wstr.cbegin() + begin .. wstr.cbegin() + pos]. *)
Definition slice (wstr : wstring) (begin_ pos : nat) : wstring := take (pos - begin_) (drop begin_ wstr).

(** The [while] loop; it ends after [length wstr - pos] steps. *)
Fixpoint filterLoop (steps : nat) (wstr : wstring) (option_ : FilterOption) (pos begin_ : nat)
    (filtered : wstring) : nat * wstring :=
  match steps with
  | O => (begin_, filtered)
  | S steps =>
      match wstr !! pos with
      | None => (begin_, filtered)
      | Some c =>
          if CarriageReturnNewline option_ && (c =? 0x0a) then
            let filtered := filtered ++ slice wstr begin_ pos in
            let filtered :=
              if negb ((0 <? pos)%nat && bool_decide (wstr !! (pos - 1)%nat = Some 0x0d))
              then filtered ++ [0x0d] else filtered in
            filterLoop steps wstr option_ (S pos) (S pos) filtered
          else if ControlCodes option_ && isControlCode c then
            filterLoop steps wstr option_ (S pos) (S pos) (filtered ++ slice wstr begin_ pos)
          else filterLoop steps wstr option_ (S pos) begin_ filtered
      end
  end.

Definition FilterStringForPaste (wstr : wstring) (option_ : FilterOption) : wstring :=
  let '(begin_, filtered) := filterLoop (length wstr) wstr option_ 0 0 [] in
  if (begin_ =? 0)%nat then wstr else filtered ++ drop begin_ wstr.

(** The reference: each character on its own, knowing only its predecessor. *)
Fixpoint filterRef (option_ : FilterOption) (previous : option wchar_t) (s : wstring) : wstring :=
  match s with
  | [] => []
  | c :: s =>
      (if CarriageReturnNewline option_ && (c =? 0x0a)
       then (if bool_decide (previous = Some 0x0d) then [] else [0x0d])
       else if ControlCodes option_ && isControlCode c then []
       else [c]) ++ filterRef option_ (Some c) s
  end.

Lemma filterRef_snoc option_ previous s c :
  filterRef option_ previous (s ++ [c])
  = filterRef option_ previous s
    ++ filterRef option_ (match last s with Some d => Some d | None => previous end) [c].
Proof.
  revert previous. induction s as [|d s IH]; intros previous; [done|].
  cbn [app filterRef]. rewrite IH, <- app_assoc, last_cons. by destruct (last s).
Qed.

(** What the loop has produced and what it still has to copy. *)
Lemma filterLoop_spec steps wstr option_ pos begin_ filtered :
  (pos + steps = length wstr)%nat -> (begin_ <= pos)%nat ->
  filtered ++ slice wstr begin_ pos = filterRef option_ None (take pos wstr) ->
  let '(begin', filtered') := filterLoop steps wstr option_ pos begin_ filtered in
  (begin_ <= begin' <= length wstr)%nat
  /\ filtered' ++ drop begin' wstr = filterRef option_ None wstr
  /\ (begin' = 0%nat -> filtered' = filtered).
Proof.
  revert pos begin_ filtered. induction steps as [|steps IH]; intros pos begin_ filtered Hlen Hb Hinv.
  { cbn. rewrite take_ge in Hinv by lia. split; [lia|]. split; [|done].
    rewrite <- Hinv. unfold slice. by rewrite take_ge by (rewrite length_drop; lia). }
  cbn [filterLoop]. destruct (wstr !! pos) as [c|] eqn:Hc; [|apply lookup_ge_None_1 in Hc; lia].
  assert (filterRef option_ None (take (S pos) wstr)
          = (filtered ++ slice wstr begin_ pos)
            ++ filterRef option_ (if (pos =? 0)%nat then None else wstr !! (pos - 1)%nat) [c]) as Hstep.
  { rewrite (take_S_r _ _ c) by done. rewrite filterRef_snoc, Hinv. f_equal. f_equal.
    destruct pos as [|pos]; [by rewrite take_0|]. cbn [Nat.eqb].
    replace (S pos - 1)%nat with pos by lia.
    destruct (wstr !! pos) as [d|] eqn:Hp; [|apply lookup_ge_None_1 in Hp; lia].
    by rewrite (take_S_r _ _ d), last_snoc. }
  assert (forall k, slice wstr k k = []) as Hnil by (intros k; unfold slice; by rewrite Nat.sub_diag).
  cbn [filterRef] in Hstep. rewrite app_nil_r in Hstep.
  destruct (CarriageReturnNewline option_ && (c =? 0x0a)) eqn:Hnl.
  - set (filtered' := if negb _ then _ else _).
    specialize (IH (S pos) (S pos) filtered'). destruct (filterLoop steps _ _ _ _ _) as [b' f'].
    destruct IH as (?&?&?); [lia|lia| |].
    + rewrite Hnil, app_nil_r, Hstep. unfold filtered'.
      destruct pos as [|pos]; cbn [Nat.eqb Nat.ltb Nat.leb andb negb]; [by rewrite bool_decide_false|].
      destruct (bool_decide _); cbn; [by rewrite app_nil_r|done].
    + split; [lia|]. split; [done|]. lia.
  - destruct (ControlCodes option_ && isControlCode c) eqn:Hcc.
    + specialize (IH (S pos) (S pos) (filtered ++ slice wstr begin_ pos)).
      destruct (filterLoop steps _ _ _ _ _) as [b' f']. destruct IH as (?&?&?); [lia|lia| |].
      * by rewrite Hnil, Hstep.
      * split; [lia|]. split; [done|]. lia.
    + specialize (IH (S pos) begin_ filtered). destruct (filterLoop steps _ _ _ _ _) as [b' f'].
      destruct IH as (?&?&?); [lia|lia| |].
      * rewrite Hstep, <- app_assoc. f_equal. unfold slice.
        replace (S pos - begin_)%nat with (S (pos - begin_)) by lia.
        apply take_S_r. rewrite lookup_drop. by replace (begin_ + (pos - begin_))%nat with pos by lia.
      * done.
Qed.

Lemma FilterStringForPaste_ref wstr option_ :
  FilterStringForPaste wstr option_ = filterRef option_ None wstr.
Proof.
  unfold FilterStringForPaste.
  pose proof (filterLoop_spec (length wstr) wstr option_ 0 0 []) as Hspec.
  destruct (filterLoop (length wstr) wstr option_ 0 0 []) as [b f].
  destruct Hspec as (_ & Hf & Hz); [lia|lia|done|].
  destruct (Nat.eqb_spec b 0) as [->|]; [|done]. rewrite Hz in Hf by done. by rewrite drop_0 in Hf.
Qed.

Lemma filterRef_no_control option_ previous s :
  ControlCodes option_ = true ->
  Forall (fun c => isControlCode c = false) (filterRef option_ previous s).
Proof.
  intros Ho. revert previous. induction s as [|c s IH]; intros previous; [constructor|].
  cbn [filterRef]. apply Forall_app. split; [|apply IH]. rewrite Ho.
  destruct (_ && (c =? 0x0a)); [destruct (bool_decide _); by repeat constructor|].
  destruct (isControlCode c) eqn:Hc; by repeat constructor.
Qed.

(** ** [TrimPaste] *)
Definition whitespace : wstring := [0x09; 0x0a; 0x0b; 0x0c; 0x0d; 0x20].
Definition newlines : wstring := [0x0a; 0x0b; 0x0c; 0x0d].
Definition is_space (c : wchar_t) : bool := existsb (Z.eqb c) whitespace.

Definition TrimPaste (textView : wstring) : wstring :=
  match find_last_not_of textView whitespace with
  | None => []
  | Some lastNonSpace =>
      match find_first_of textView newlines with
      | Some firstNewline =>
          if (firstNewline <? lastNonSpace)%nat then textView
          else take (lastNonSpace + 1) textView
      | None => take (lastNonSpace + 1) textView
      end
  end.

Lemma find_last_not_of_spec s :
  match find_last_not_of s whitespace with
  | Some i => exists a c b, s = a ++ c :: b /\ length a = i /\ is_space c = false
                            /\ Forall (fun c => is_space c = true) b
  | None => Forall (fun c => is_space c = true) s
  end.
Proof.
  unfold find_last_not_of. fold is_space. pose proof (find_from_0 (fun c => negb (is_space c)) (rev s)) as Hf.
  change (fun c => negb (existsb (Z.eqb c) whitespace)) with (fun c => negb (is_space c)).
  destruct (find_from _ (rev s) 0) as [i|].
  - destruct Hf as (a & c & b & Hrev & <- & Ha & Hc). exists (rev b), c, (rev a).
    assert (s = rev b ++ c :: rev a) as Hs.
    { rewrite <- (rev_involutive s), Hrev, rev_app_distr. cbn. by rewrite <- app_assoc. }
    split; [done|]. split; [|split; [by apply negb_true_iff in Hc|]].
    + rewrite Hs, length_app. cbn. rewrite !length_rev. lia.
    + apply Forall_rev. eapply Forall_impl; [exact Ha|]. intros x Hx. by apply negb_false_iff in Hx.
  - rewrite <- (rev_involutive s). apply Forall_rev. eapply Forall_impl; [exact Hf|].
    intros x Hx. by apply negb_false_iff in Hx.
Qed.

(** Nothing but trailing white space is dropped, and all of it, unless a line break
    comes before the last character that is not white space. *)
Lemma TrimPaste_spec s :
  exists kept dropped, s = kept ++ dropped /\ TrimPaste s = kept
    /\ Forall (fun c => is_space c = true) dropped
    /\ (dropped = [] \/ match last kept with Some c => is_space c = false | None => True end).
Proof.
  unfold TrimPaste. pose proof (find_last_not_of_spec s) as Hlast.
  destruct (find_last_not_of s whitespace) as [i|]; [|exists [], s; by repeat split; try right].
  destruct Hlast as (p & c & q & -> & <- & Hc & Hq).
  assert (take (length p + 1) (p ++ c :: q) = p ++ [c]) as Htake.
  { change (c :: q) with ([c] ++ q). rewrite app_assoc, take_app_length'; [done|].
    rewrite length_app. done. }
  assert (exists kept dropped, p ++ c :: q = kept ++ dropped /\ take (length p + 1) (p ++ c :: q) = kept
    /\ Forall (fun c => is_space c = true) dropped
    /\ (dropped = [] \/ match last kept with Some c => is_space c = false | None => True end)) as Hcut.
  { exists (p ++ [c]), q. rewrite <- app_assoc. split; [done|]. split; [done|]. split; [done|].
    right. by rewrite last_snoc. }
  destruct (find_first_of _ newlines) as [n|]; [|done]. destruct (_ <? _)%nat; [|done].
  exists (p ++ c :: q), []. rewrite app_nil_r. by repeat split; try left.
Qed.

(** ** The properties *)

(** Splitting at a delimiter loses nothing: no part contains the delimiter,
    joining the parts gives the string back, and only the empty string has no parts. *)
Theorem split_string_roundtrip (wstr : wstring) (delimiter : wchar_t) :
  Forall (delimiterFree delimiter) (SplitString wstr delimiter)
  /\ joinWith delimiter (SplitString wstr delimiter) = wstr
  /\ (SplitString wstr delimiter = [] <-> wstr = []).
Proof. apply SplitString_spec. Qed.

(** The paste filter, which copies runs between the characters it rewrites, is
    the character-wise filter: a line feed becomes a carriage return, or nothing
    after one, and control codes disappear. With control codes filtered no escape,
    C1 or other control character reaches the terminal, whatever was pasted. *)
Theorem paste_filter_exact (wstr : wstring) (option_ : FilterOption) :
  FilterStringForPaste wstr option_ = filterRef option_ None wstr
  /\ (ControlCodes option_ = true ->
      Forall (fun c => isControlCode c = false) (FilterStringForPaste wstr option_)).
Proof.
  rewrite FilterStringForPaste_ref. split; [done|]. apply filterRef_no_control.
Qed.

Lemma paste_filter_exact_witness :
  Forall (fun c => isControlCode c = false)
    (FilterStringForPaste [0x61; 0x0a; 0x1b; 0x9b; 0x62] (mkFilterOption true true))
  /\ FilterStringForPaste [0x61; 0x0a; 0x1b; 0x9b; 0x62] (mkFilterOption true true) = [0x61; 0x0d; 0x62].
Proof.
  split; [|reflexivity].
  exact (proj2 (paste_filter_exact [0x61; 0x0a; 0x1b; 0x9b; 0x62] (mkFilterOption true true)) eq_refl).
Defined.

(** Trimming a paste only drops white space at its end: what is kept is a
    prefix, what is dropped is white space, and if anything is dropped then what is
    kept does not end in white space. *)
Theorem trim_paste_suffix (s : wstring) :
  exists kept dropped, s = kept ++ dropped /\ TrimPaste s = kept
    /\ Forall (fun c => is_space c = true) dropped
    /\ (dropped = [] \/ match last kept with Some c => is_space c = false | None => True end).
Proof. apply TrimPaste_spec. Qed.

(** Numbers are parsed exactly, in any base from 2 to 36: a nonempty string of
    digits of the base yields the number it denotes if that is below [2^64], and
    every other string is refused; the overflow checks never misjudge. *)
Theorem parse_unsigned_exact (base : Z) (str : wstring)
    (Hbase : 2 <= base <= 36) (Hstr : Forall is_wchar str) (Hne : str <> []) :
  parse_u64 str base
  = match numeral base 0 str with
    | Some v => if v <? 2 ^ 64 then Some v else None
    | None => None
    end.
Proof.
  unfold parse_u64. destruct (Z.leb_spec base 0); [lia|]. destruct str as [|c str]; [done|].
  destruct (Z.ltb_spec 36 base); [lia|]. apply parseLoop_numeral; [done|lia|done].
Qed.

Lemma parse_unsigned_exact_witness :
  parse_u64 (L "18446744073709551615") 10 = Some (2 ^ 64 - 1)
  /\ parse_u64 (L "18446744073709551616") 10 = None.
Proof.
  split.
  - rewrite (parse_unsigned_exact 10 (L "18446744073709551615")); [reflexivity|lia|by_decide|discriminate].
  - rewrite (parse_unsigned_exact 10 (L "18446744073709551616")); [reflexivity|lia|by_decide|discriminate].
Defined.
