(* ===== verification/ColorTable.v ===== *)
(** * Colours and colour tables

    [til::color] ([src/inc/til/color.h]), [til::presorted_static_map]
    ([src/inc/til/static_map.h]) and [src/types/colorTable.cpp]: the ANSI and
    VT340 palettes, the 256-colour palette, and the X.Org colour names that the
    OSC colour sequences accept. *)
From S2P Require Import Prelude.
From Stdlib Require Import Sorting.Sorted.

(** ** [til::color] *)
Record color := mkColor { color_r : Z; color_g : Z; color_b : Z; color_a : Z }.

#[global] Instance color_eq_dec : EqDecision color.
Proof. solve_decision. Defined.

(** The three-argument constructor: an opaque colour. *)
Definition rgb (r g b : Z) : color := mkColor r g b 255.

(** The conversions from and to [COLORREF], through the [abgr] member of the union. *)
Definition abgr (c : color) : Z :=
  color_r c + Z.shiftl (color_g c) 8 + Z.shiftl (color_b c) 16 + Z.shiftl (color_a c) 24.
Definition of_abgr (v : Z) : color :=
  mkColor (Z.land v 255) (Z.land (Z.shiftr v 8) 255) (Z.land (Z.shiftr v 16) 255)
          (Z.land (Z.shiftr v 24) 255).
Definition of_COLORREF (c : Z) : color := of_abgr (u32 (Z.lor c 0xFF000000)).
Definition to_COLORREF (c : color) : Z := Z.land (abgr c) 0x00FFFFFF.

Definition is_color (c : color) : Prop :=
  is_byte (color_r c) /\ is_byte (color_g c) /\ is_byte (color_b c) /\ is_byte (color_a c).
#[global] Instance is_color_dec c : Decision (is_color c).
Proof. unfold is_color. apply _. Defined.

(** ** The tables *)
Definition campbellColorTable : list color :=
  [rgb 12 12 12;
   rgb 197 15 31;
   rgb 19 161 14;
   rgb 193 156 0;
   rgb 0 55 218;
   rgb 136 23 152;
   rgb 58 150 221;
   rgb 204 204 204;
   rgb 118 118 118;
   rgb 231 72 86;
   rgb 22 198 12;
   rgb 249 241 165;
   rgb 59 120 255;
   rgb 180 0 158;
   rgb 97 214 214;
   rgb 242 242 242].

Definition vt340ColorTable : list color :=
  [rgb 0 0 0;
   rgb 51 51 204;
   rgb 204 36 36;
   rgb 51 204 51;
   rgb 204 51 204;
   rgb 51 204 204;
   rgb 204 204 51;
   rgb 120 120 120;
   rgb 69 69 69;
   rgb 87 87 153;
   rgb 153 69 69;
   rgb 87 153 87;
   rgb 153 87 153;
   rgb 87 153 153;
   rgb 153 153 87;
   rgb 204 204 204].

Definition xorgAppVariantColorTable : list (bytes * (list color)) :=
  [(L "antiquewhite", [rgb 250 235 215; rgb 255 239 219; rgb 238 223 204; rgb 205 192 176; rgb 139 131 120]);
   (L "aquamarine", [rgb 127 255 212; rgb 127 255 212; rgb 118 238 198; rgb 102 205 170; rgb 69 139 116]);
   (L "azure", [rgb 240 255 255; rgb 240 255 255; rgb 224 238 238; rgb 193 205 205; rgb 131 139 139]);
   (L "bisque", [rgb 255 228 196; rgb 255 228 196; rgb 238 213 183; rgb 205 183 158; rgb 139 125 107]);
   (L "blue", [rgb 0 0 255; rgb 0 0 255; rgb 0 0 238; rgb 0 0 205; rgb 0 0 139]);
   (L "brown", [rgb 165 42 42; rgb 255 64 64; rgb 238 59 59; rgb 205 51 51; rgb 139 35 35]);
   (L "burlywood", [rgb 222 184 135; rgb 255 211 155; rgb 238 197 145; rgb 205 170 125; rgb 139 115 85]);
   (L "cadetblue", [rgb 95 158 160; rgb 152 245 255; rgb 142 229 238; rgb 122 197 205; rgb 83 134 139]);
   (L "chartreuse", [rgb 127 255 0; rgb 127 255 0; rgb 118 238 0; rgb 102 205 0; rgb 69 139 0]);
   (L "chocolate", [rgb 210 105 30; rgb 255 127 36; rgb 238 118 33; rgb 205 102 29; rgb 139 69 19]);
   (L "coral", [rgb 255 127 80; rgb 255 114 86; rgb 238 106 80; rgb 205 91 69; rgb 139 62 47]);
   (L "cornsilk", [rgb 255 248 220; rgb 255 248 220; rgb 238 232 205; rgb 205 200 177; rgb 139 136 120]);
   (L "cyan", [rgb 0 255 255; rgb 0 255 255; rgb 0 238 238; rgb 0 205 205; rgb 0 139 139]);
   (L "darkgoldenrod", [rgb 184 134 11; rgb 255 185 15; rgb 238 173 14; rgb 205 149 12; rgb 139 101 8]);
   (L "darkolivegreen", [rgb 85 107 47; rgb 202 255 112; rgb 188 238 104; rgb 162 205 90; rgb 110 139 61]);
   (L "darkorange", [rgb 255 140 0; rgb 255 127 0; rgb 238 118 0; rgb 205 102 0; rgb 139 69 0]);
   (L "darkorchid", [rgb 153 50 204; rgb 191 62 255; rgb 178 58 238; rgb 154 50 205; rgb 104 34 139]);
   (L "darkseagreen", [rgb 143 188 143; rgb 193 255 193; rgb 180 238 180; rgb 155 205 155; rgb 105 139 105]);
   (L "darkslategray", [rgb 47 79 79; rgb 151 255 255; rgb 141 238 238; rgb 121 205 205; rgb 82 139 139]);
   (L "deeppink", [rgb 255 20 147; rgb 255 20 147; rgb 238 18 137; rgb 205 16 118; rgb 139 10 80]);
   (L "deepskyblue", [rgb 0 191 255; rgb 0 191 255; rgb 0 178 238; rgb 0 154 205; rgb 0 104 139]);
   (L "dodgerblue", [rgb 30 144 255; rgb 30 144 255; rgb 28 134 238; rgb 24 116 205; rgb 16 78 139]);
   (L "firebrick", [rgb 178 34 34; rgb 255 48 48; rgb 238 44 44; rgb 205 38 38; rgb 139 26 26]);
   (L "gold", [rgb 255 215 0; rgb 255 215 0; rgb 238 201 0; rgb 205 173 0; rgb 139 117 0]);
   (L "goldenrod", [rgb 218 165 32; rgb 255 193 37; rgb 238 180 34; rgb 205 155 29; rgb 139 105 20]);
   (L "green", [rgb 0 255 0; rgb 0 255 0; rgb 0 238 0; rgb 0 205 0; rgb 0 139 0]);
   (L "honeydew", [rgb 240 255 240; rgb 240 255 240; rgb 224 238 224; rgb 193 205 193; rgb 131 139 131]);
   (L "hotpink", [rgb 255 105 180; rgb 255 110 180; rgb 238 106 167; rgb 205 96 144; rgb 139 58 98]);
   (L "indianred", [rgb 205 92 92; rgb 255 106 106; rgb 238 99 99; rgb 205 85 85; rgb 139 58 58]);
   (L "ivory", [rgb 255 255 240; rgb 255 255 240; rgb 238 238 224; rgb 205 205 193; rgb 139 139 131]);
   (L "khaki", [rgb 240 230 140; rgb 255 246 143; rgb 238 230 133; rgb 205 198 115; rgb 139 134 78]);
   (L "lavenderblush", [rgb 255 240 245; rgb 255 240 245; rgb 238 224 229; rgb 205 193 197; rgb 139 131 134]);
   (L "lemonchiffon", [rgb 255 250 205; rgb 255 250 205; rgb 238 233 191; rgb 205 201 165; rgb 139 137 112]);
   (L "lightblue", [rgb 173 216 230; rgb 191 239 255; rgb 178 223 238; rgb 154 192 205; rgb 104 131 139]);
   (L "lightcyan", [rgb 224 255 255; rgb 224 255 255; rgb 209 238 238; rgb 180 205 205; rgb 122 139 139]);
   (L "lightgoldenrod", [rgb 238 221 130; rgb 255 236 139; rgb 238 220 130; rgb 205 190 112; rgb 139 129 76]);
   (L "lightpink", [rgb 255 182 193; rgb 255 174 185; rgb 238 162 173; rgb 205 140 149; rgb 139 95 101]);
   (L "lightsalmon", [rgb 255 160 122; rgb 255 160 122; rgb 238 149 114; rgb 205 129 98; rgb 139 87 66]);
   (L "lightskyblue", [rgb 135 206 250; rgb 176 226 255; rgb 164 211 238; rgb 141 182 205; rgb 96 123 139]);
   (L "lightsteelblue", [rgb 176 196 222; rgb 202 225 255; rgb 188 210 238; rgb 162 181 205; rgb 110 123 139]);
   (L "lightyellow", [rgb 255 255 224; rgb 255 255 224; rgb 238 238 209; rgb 205 205 180; rgb 139 139 122]);
   (L "magenta", [rgb 255 0 255; rgb 255 0 255; rgb 238 0 238; rgb 205 0 205; rgb 139 0 139]);
   (L "maroon", [rgb 176 48 96; rgb 255 52 179; rgb 238 48 167; rgb 205 41 144; rgb 139 28 98]);
   (L "mediumorchid", [rgb 186 85 211; rgb 224 102 255; rgb 209 95 238; rgb 180 82 205; rgb 122 55 139]);
   (L "mediumpurple", [rgb 147 112 219; rgb 171 130 255; rgb 159 121 238; rgb 137 104 205; rgb 93 71 139]);
   (L "mistyrose", [rgb 255 228 225; rgb 255 228 225; rgb 238 213 210; rgb 205 183 181; rgb 139 125 123]);
   (L "navajowhite", [rgb 255 222 173; rgb 255 222 173; rgb 238 207 161; rgb 205 179 139; rgb 139 121 94]);
   (L "olivedrab", [rgb 107 142 35; rgb 192 255 62; rgb 179 238 58; rgb 154 205 50; rgb 105 139 34]);
   (L "orange", [rgb 255 165 0; rgb 255 165 0; rgb 238 154 0; rgb 205 133 0; rgb 139 90 0]);
   (L "orangered", [rgb 255 69 0; rgb 255 69 0; rgb 238 64 0; rgb 205 55 0; rgb 139 37 0]);
   (L "orchid", [rgb 218 112 214; rgb 255 131 250; rgb 238 122 233; rgb 205 105 201; rgb 139 71 137]);
   (L "palegreen", [rgb 152 251 152; rgb 154 255 154; rgb 144 238 144; rgb 124 205 124; rgb 84 139 84]);
   (L "paleturquoise", [rgb 175 238 238; rgb 187 255 255; rgb 174 238 238; rgb 150 205 205; rgb 102 139 139]);
   (L "palevioletred", [rgb 219 112 147; rgb 255 130 171; rgb 238 121 159; rgb 205 104 137; rgb 139 71 93]);
   (L "peachpuff", [rgb 255 218 185; rgb 255 218 185; rgb 238 203 173; rgb 205 175 149; rgb 139 119 101]);
   (L "pink", [rgb 255 192 203; rgb 255 181 197; rgb 238 169 184; rgb 205 145 158; rgb 139 99 108]);
   (L "plum", [rgb 221 160 221; rgb 255 187 255; rgb 238 174 238; rgb 205 150 205; rgb 139 102 139]);
   (L "purple", [rgb 160 32 240; rgb 155 48 255; rgb 145 44 238; rgb 125 38 205; rgb 85 26 139]);
   (L "red", [rgb 255 0 0; rgb 255 0 0; rgb 238 0 0; rgb 205 0 0; rgb 139 0 0]);
   (L "rosybrown", [rgb 188 143 143; rgb 255 193 193; rgb 238 180 180; rgb 205 155 155; rgb 139 105 105]);
   (L "royalblue", [rgb 65 105 225; rgb 72 118 255; rgb 67 110 238; rgb 58 95 205; rgb 39 64 139]);
   (L "salmon", [rgb 250 128 114; rgb 255 140 105; rgb 238 130 98; rgb 205 112 84; rgb 139 76 57]);
   (L "seagreen", [rgb 46 139 87; rgb 84 255 159; rgb 78 238 148; rgb 67 205 128; rgb 46 139 87]);
   (L "seashell", [rgb 255 245 238; rgb 255 245 238; rgb 238 229 222; rgb 205 197 191; rgb 139 134 130]);
   (L "sienna", [rgb 160 82 45; rgb 255 130 71; rgb 238 121 66; rgb 205 104 57; rgb 139 71 38]);
   (L "skyblue", [rgb 135 206 235; rgb 135 206 255; rgb 126 192 238; rgb 108 166 205; rgb 74 112 139]);
   (L "slateblue", [rgb 106 90 205; rgb 131 111 255; rgb 122 103 238; rgb 105 89 205; rgb 71 60 139]);
   (L "slategray", [rgb 112 128 144; rgb 198 226 255; rgb 185 211 238; rgb 159 182 205; rgb 108 123 139]);
   (L "snow", [rgb 255 250 250; rgb 255 250 250; rgb 238 233 233; rgb 205 201 201; rgb 139 137 137]);
   (L "springgreen", [rgb 0 255 127; rgb 0 255 127; rgb 0 238 118; rgb 0 205 102; rgb 0 139 69]);
   (L "steelblue", [rgb 70 130 180; rgb 99 184 255; rgb 92 172 238; rgb 79 148 205; rgb 54 100 139]);
   (L "tan", [rgb 210 180 140; rgb 255 165 79; rgb 238 154 73; rgb 205 133 63; rgb 139 90 43]);
   (L "thistle", [rgb 216 191 216; rgb 255 225 255; rgb 238 210 238; rgb 205 181 205; rgb 139 123 139]);
   (L "tomato", [rgb 255 99 71; rgb 255 99 71; rgb 238 92 66; rgb 205 79 57; rgb 139 54 38]);
   (L "turquoise", [rgb 64 224 208; rgb 0 245 255; rgb 0 229 238; rgb 0 197 205; rgb 0 134 139]);
   (L "violetred", [rgb 208 32 144; rgb 255 62 150; rgb 238 58 140; rgb 205 50 120; rgb 139 34 82]);
   (L "wheat", [rgb 245 222 179; rgb 255 231 186; rgb 238 216 174; rgb 205 186 150; rgb 139 126 102]);
   (L "yellow", [rgb 255 255 0; rgb 255 255 0; rgb 238 238 0; rgb 205 205 0; rgb 139 139 0])].

Definition xorgAppColorTable : list (bytes * color) :=
  [(L "aliceblue", rgb 240 248 255);
   (L "aqua", rgb 0 255 255);
   (L "beige", rgb 245 245 220);
   (L "black", rgb 0 0 0);
   (L "blanchedalmond", rgb 255 235 205);
   (L "blueviolet", rgb 138 43 226);
   (L "cornflowerblue", rgb 100 149 237);
   (L "crimson", rgb 220 20 60);
   (L "darkblue", rgb 0 0 139);
   (L "darkcyan", rgb 0 139 139);
   (L "darkgray", rgb 169 169 169);
   (L "darkgreen", rgb 0 100 0);
   (L "darkgrey", rgb 169 169 169);
   (L "darkkhaki", rgb 189 183 107);
   (L "darkmagenta", rgb 139 0 139);
   (L "darkred", rgb 139 0 0);
   (L "darksalmon", rgb 233 150 122);
   (L "darkslateblue", rgb 72 61 139);
   (L "darkslategrey", rgb 47 79 79);
   (L "darkturquoise", rgb 0 206 209);
   (L "darkviolet", rgb 148 0 211);
   (L "dimgray", rgb 105 105 105);
   (L "dimgrey", rgb 105 105 105);
   (L "floralwhite", rgb 255 250 240);
   (L "forestgreen", rgb 34 139 34);
   (L "fuchsia", rgb 255 0 255);
   (L "gainsboro", rgb 220 220 220);
   (L "ghostwhite", rgb 248 248 255);
   (L "gray", rgb 190 190 190);
   (L "greenyellow", rgb 173 255 47);
   (L "grey", rgb 190 190 190);
   (L "indigo", rgb 75 0 130);
   (L "lavender", rgb 230 230 250);
   (L "lawngreen", rgb 124 252 0);
   (L "lightcoral", rgb 240 128 128);
   (L "lightgoldenrodyellow", rgb 250 250 210);
   (L "lightgray", rgb 211 211 211);
   (L "lightgreen", rgb 144 238 144);
   (L "lightgrey", rgb 211 211 211);
   (L "lightseagreen", rgb 32 178 170);
   (L "lightslateblue", rgb 132 112 255);
   (L "lightslategray", rgb 119 136 153);
   (L "lightslategrey", rgb 119 136 153);
   (L "lime", rgb 0 255 0);
   (L "limegreen", rgb 50 205 50);
   (L "linen", rgb 250 240 230);
   (L "mediumaquamarine", rgb 102 205 170);
   (L "mediumblue", rgb 0 0 205);
   (L "mediumseagreen", rgb 60 179 113);
   (L "mediumslateblue", rgb 123 104 238);
   (L "mediumspringgreen", rgb 0 250 154);
   (L "mediumturquoise", rgb 72 209 204);
   (L "mediumvioletred", rgb 199 21 133);
   (L "midnightblue", rgb 25 25 112);
   (L "mintcream", rgb 245 255 250);
   (L "moccasin", rgb 255 228 181);
   (L "navy", rgb 0 0 128);
   (L "navyblue", rgb 0 0 128);
   (L "oldlace", rgb 253 245 230);
   (L "olive", rgb 128 128 0);
   (L "palegoldenrod", rgb 238 232 170);
   (L "papayawhip", rgb 255 239 213);
   (L "peru", rgb 205 133 63);
   (L "powderblue", rgb 176 224 230);
   (L "rebeccapurple", rgb 102 51 153);
   (L "saddlebrown", rgb 139 69 19);
   (L "sandybrown", rgb 244 164 96);
   (L "silver", rgb 192 192 192);
   (L "slategrey", rgb 112 128 144);
   (L "teal", rgb 0 128 128);
   (L "violet", rgb 238 130 238);
   (L "webgray", rgb 128 128 128);
   (L "webgreen", rgb 0 128 0);
   (L "webgrey", rgb 128 128 128);
   (L "webmaroon", rgb 128 0 0);
   (L "webpurple", rgb 128 0 128);
   (L "white", rgb 255 255 255);
   (L "whitesmoke", rgb 245 245 245);
   (L "x11gray", rgb 190 190 190);
   (L "x11green", rgb 0 255 0);
   (L "x11grey", rgb 190 190 190);
   (L "x11maroon", rgb 176 48 96);
   (L "x11purple", rgb 160 32 240);
   (L "yellowgreen", rgb 154 205 50)].

(** ** [static_map::find] *)
Module static_map.

(** [std::string_view] compares code unit by code unit. *)
Fixpoint lt (x y : bytes) : bool :=
  match x, y with
  | _, [] => false
  | [], _ :: _ => true
  | c :: x, d :: y => if c <? d then true else if d <? c then false else lt x y
  end.

Section find.
Context {V : Type}.

(** [std::partition_point]: halves [count] elements from [first] on. *)
Fixpoint partition_point (fuel : nat) (array : list (bytes * V)) (pred : bytes -> bool)
    (first count : nat) : nat :=
  match fuel with
  | O => first
  | S fuel =>
      if (count =? 0)%nat then first
      else
        let half := Nat.div2 count in
        match array !! (first + half)%nat with
        | Some (key, _) =>
            if pred key then partition_point fuel array pred (first + half + 1) (count - half - 1)
            else partition_point fuel array pred first half
        | None => first
        end
  end.

Definition find (array : list (bytes * V)) (key : bytes) : option V :=
  let iter := partition_point (length array) array (fun k => lt k key) 0 (length array) in
  match array !! iter with
  | Some (k, v) => if bool_decide (k = key) then Some v else None
  | None => None
  end.

End find.
End static_map.

(** ** The palettes *)

(** [std::copy_n] onto the start of a table that is large enough. *)
Definition copyTable (colors : list color) (table : list Z) : list Z :=
  if (length colors <=? length table)%nat
  then map to_COLORREF colors ++ drop (length colors) table else table.
Definition InitializeANSIColorTable : list Z -> list Z := copyTable campbellColorTable.
Definition InitializeVT340ColorTable : list Z -> list Z := copyTable vt340ColorTable.

Definition scale : list Z := [0; 0x5F; 0x87; 0xAF; 0xD7; 0xFF].

(** One round of the loop over the colour cube, and one over the greys. *)
Definition cubeColor (monochrome : bool) (i : nat) : color :=
  let r := default 0 (scale !! ((i / 36) mod 6)%nat) in
  let g := default 0 (scale !! ((i / 6) mod 6)%nat) in
  let b := default 0 (scale !! (i mod 6)%nat) in
  if monochrome then let l := (r + g + b) / 3 in rgb l l l else rgb r g b.
Definition grayColor (i : nat) : color :=
  let l := u8 (Z.of_nat i * 10 + 8) in rgb l l l.

Definition InitializeExtendedColorTable (table : list Z) (monochrome : bool) : list Z :=
  if (256 <=? length table)%nat then
    let table := fold_left (fun t i => <[(i + 16)%nat := to_COLORREF (cubeColor monochrome i)]> t)
                           (seq 0 216) table in
    fold_left (fun t i => <[(i + 232)%nat := to_COLORREF (grayColor i)]> t) (seq 0 24) table
  else table.

Definition InitializeColorTable (table : list Z) : list Z :=
  InitializeExtendedColorTable (InitializeANSIColorTable table) false.

(** ** [ColorFromXOrgAppColorName] *)
Definition tolower_ascii (c : Z) : Z := if (0x41 <=? c) && (c <=? 0x5A) then Z.lor c 0x20 else c.

Definition is_blank (c : Z) : bool :=
  (c =? 0x20) || (c =? 0x0c) || (c =? 0x0a) || (c =? 0x0d) || (c =? 0x09) || (c =? 0x0b).

(** The loop over the characters: the stem, the variant index (a [size_t]) and
    whether there was one; [None] for the early returns. *)
Fixpoint scanName (wstr : wstring) (stem : bytes) (variantIndex : Z) (foundVariant : bool) :
    option (bytes * Z * bool) :=
  match wstr with
  | [] => Some (stem, variantIndex, foundVariant)
  | c :: rest =>
      if 127 <? c then None
      else if (0x30 <=? c) && (c <=? 0x39) then
        scanName rest stem (u64 (u64 (variantIndex * 10) + (c - 0x30))) true
      else if is_blank c then scanName rest stem variantIndex foundVariant
      else if foundVariant then None
      else scanName rest (stem ++ [tolower_ascii c]) variantIndex foundVariant
  end.

(** The lookups after the loop. [u64] is the width of [variantIndex * 255]. *)
Definition lookupName (stem : bytes) (variantIndex : Z) (foundVariant : bool) : option color :=
  let plain :=
    if (bool_decide (stem = L "gray") || bool_decide (stem = L "grey")) && foundVariant then
      if 100 <? variantIndex then None
      else
        let component := Z.min 255 (u64 (u64 (variantIndex * 255) + 50) / 100) in
        Some (rgb component component component)
    else static_map.find xorgAppColorTable stem in
  match static_map.find xorgAppVariantColorTable stem with
  | Some colors =>
      if variantIndex <? Z.of_nat (length colors) then colors !! Z.to_nat variantIndex else plain
  | None => plain
  end.

Definition ColorFromXOrgAppColorName (wstr : wstring) : option color :=
  match scanName wstr [] 0 false with
  | Some (stem, variantIndex, foundVariant) => lookupName stem variantIndex foundVariant
  | None => None
  end.

Example name_examples :
  ColorFromXOrgAppColorName (L "Dark Slate Blue") = Some (rgb 72 61 139)
  /\ ColorFromXOrgAppColorName (L "yellow3") = Some (rgb 205 205 0)
  /\ ColorFromXOrgAppColorName (L "gray51") = Some (rgb 130 130 130)
  /\ ColorFromXOrgAppColorName (L "x11gray") = None.
Proof. vm_compute. done. Qed.

(** ** Binary search in a sorted table *)
Section sorted.
Context {V : Type}.
Implicit Types (array : list (bytes * V)).

Definition keyLt (x y : bytes * V) : Prop := static_map.lt x.1 y.1 = true.

Lemma lt_irrefl x : static_map.lt x x = false.
Proof. induction x as [|c x IH]; [done|]. cbn. by rewrite Z.ltb_irrefl. Qed.

Lemma lt_trans x y z : static_map.lt x y = true -> static_map.lt y z = true -> static_map.lt x z = true.
Proof.
  revert y z. induction x as [|c x IH]; intros [|d y] [|e z]; cbn; try done. intros Hxy Hyz.
  destruct (Z.ltb_spec c d), (Z.ltb_spec d c), (Z.ltb_spec d e), (Z.ltb_spec e d),
    (Z.ltb_spec c e), (Z.ltb_spec e c); try done; try lia.
  by apply (IH y).
Qed.

Fixpoint sortedb array : bool :=
  match array with
  | [] => true
  | x :: array => match array with [] => true | y :: _ => static_map.lt x.1 y.1 && sortedb array end
  end.

Lemma sortedb_StronglySorted array : sortedb array = true -> StronglySorted keyLt array.
Proof.
  intros Hs. apply Sorted_StronglySorted; [intros x y z; apply lt_trans|].
  induction array as [|x [|y array] IH]; [constructor|by repeat constructor|].
  cbn [sortedb] in Hs. apply andb_prop in Hs as [Hxy Hs]. constructor; [by apply IH|by constructor].
Qed.

Lemma StronglySorted_lookup array i j x y :
  StronglySorted keyLt array -> (i < j)%nat -> array !! i = Some x -> array !! j = Some y -> keyLt x y.
Proof.
  intros Hs. revert i j. induction Hs as [|z array _ IH Hz]; intros i j Hij Hi Hj; [done|].
  destruct j as [|j]; [lia|]. destruct i as [|i]; simplify_eq/=.
  - rewrite Forall_lookup in Hz. by apply (Hz j).
  - apply (IH i j); [lia|done|done].
Qed.

Definition before (pred : bytes -> bool) array p : Prop :=
  forall i x, array !! i = Some x -> pred x.1 = bool_decide (i < p)%nat.

Lemma partition_point_spec array (pred : bytes -> bool) :
  (forall i j x y, (i < j)%nat -> array !! i = Some x -> array !! j = Some y ->
    pred y.1 = true -> pred x.1 = true) ->
  forall fuel first count,
  (count <= fuel)%nat -> (first + count <= length array)%nat ->
  (forall i x, array !! i = Some x -> (i < first)%nat -> pred x.1 = true) ->
  (forall i x, array !! i = Some x -> (first + count <= i)%nat -> pred x.1 = false) ->
  before pred array (static_map.partition_point fuel array pred first count).
Proof.
  intros Hmono. induction fuel as [|fuel IH]; intros first count Hf Hl Hlo Hhi.
  { assert (count = 0%nat) as -> by lia. intros i x Hx. cbn.
    case_bool_decide; [by apply (Hlo i)|apply (Hhi i); [done|lia]]. }
  cbn [static_map.partition_point]. destruct (Nat.eqb_spec count 0) as [->|Hc].
  { intros i x Hx. case_bool_decide; [by apply (Hlo i)|apply (Hhi i); [done|lia]]. }
  pose proof (Nat.lt_div2 count ltac:(lia)) as Hhalf.
  set (half := Nat.div2 count) in *. clearbody half.
  destruct (array !! (first + half)%nat) as [[key v]|] eqn:Hmid; [|apply lookup_ge_None_1 in Hmid; lia].
  destruct (pred key) eqn:Hp.
  - apply IH; [lia|lia| |].
    + intros i x Hx Hi. destruct (decide (i = first + half)%nat) as [->|]; [by simplify_eq|].
      by apply (Hmono i (first + half)%nat x (key, v)); [lia| | |].
    + intros i x Hx Hi. apply (Hhi i); [done|lia].
  - apply IH; [lia|lia|done|]. intros i x Hx Hi.
    destruct (decide (i = first + half)%nat) as [->|]; [by simplify_eq|].
    apply not_true_is_false. intros Ht. enough (pred key = true) by congruence.
    apply (Hmono (first + half)%nat i (key, v) x); [lia|done|done|done].
Qed.

Lemma find_sorted array key v :
  StronglySorted keyLt array ->
  static_map.find array key = Some v <-> In (key, v) array.
Proof.
  intros Hs. unfold static_map.find.
  pose proof (partition_point_spec array (fun k => static_map.lt k key)) as Hp.
  specialize (Hp ltac:(intros; by eapply lt_trans; [eapply StronglySorted_lookup|])).
  specialize (Hp (length array) 0%nat (length array)).
  set (p := static_map.partition_point _ _ _ _ _) in *. clearbody p.
  assert (before (fun k => static_map.lt k key) array p) as Hb.
  { apply Hp; [lia|lia|lia|]. intros i x Hx Hi. apply lookup_lt_Some in Hx. lia. }
  split.
  - destruct (array !! p) as [[k w]|] eqn:Hk; [|done]. case_bool_decide; [|done]. intros [= ->]. subst k.
    by eapply list_elem_of_In, list_elem_of_lookup_2.
  - intros Hin. apply list_elem_of_In, list_elem_of_lookup_1 in Hin as [i Hi].
    pose proof (Hb i _ Hi) as Hbi. cbn in Hbi. rewrite lt_irrefl in Hbi. symmetry in Hbi.
    apply bool_decide_eq_false in Hbi.
    destruct (decide (i = p)) as [->|Hne]; [rewrite Hi; by rewrite bool_decide_true|].
    destruct (lookup_lt_is_Some_2 array p) as [[k w] Hk]; [apply lookup_lt_Some in Hi; lia|].
    pose proof (Hb p _ Hk) as Hbp. cbn in Hbp. rewrite bool_decide_false in Hbp by lia.
    pose proof (StronglySorted_lookup array p i _ _ Hs ltac:(lia) Hk Hi) as Hlt. unfold keyLt in Hlt. cbn in Hlt.
    congruence.
Qed.
End sorted.

Lemma xorgAppVariantColorTable_sorted : StronglySorted keyLt xorgAppVariantColorTable.
Proof. apply sortedb_StronglySorted. vm_compute. done. Qed.
Lemma xorgAppColorTable_sorted : StronglySorted keyLt xorgAppColorTable.
Proof. apply sortedb_StronglySorted. vm_compute. done. Qed.

(** ** Names *)
Definition is_asciiDigit (c : Z) : bool := (0x30 <=? c) && (c <=? 0x39).

(** What the comparison of names ignores. *)
Definition normalise (wstr : wstring) : wstring :=
  map tolower_ascii (List.filter (fun c => negb (is_blank c)) wstr).

Lemma tolower_cases c : tolower_ascii c = c \/ (0x41 <= c <= 0x5A /\ tolower_ascii c = c + 32).
Proof.
  unfold tolower_ascii. destruct ((0x41 <=? c) && (c <=? 0x5A)) eqn:Hc; [right|by left].
  split; [lia|]. assert (exists n, (n < 26)%nat /\ c = 0x41 + Z.of_nat n) as (n & Hn & ->).
  { exists (Z.to_nat (c - 0x41)). lia. }
  clear Hc. do 26 (destruct n as [|n]; [done|]). lia.
Qed.

Lemma tolower_idem c : tolower_ascii (tolower_ascii c) = tolower_ascii c.
Proof.
  destruct (tolower_cases c) as [Hc|[Hr ->]]; [by rewrite Hc|].
  destruct (tolower_cases (c + 32)) as [->|[? _]]; [done|lia].
Qed.

Lemma scanName_normalise wstr stem variantIndex foundVariant :
  scanName (normalise wstr) stem variantIndex foundVariant = scanName wstr stem variantIndex foundVariant.
Proof.
  revert stem variantIndex foundVariant. induction wstr as [|c wstr IH]; intros stem v f; [done|].
  unfold normalise in *. cbn [List.filter scanName]. destruct (is_blank c) eqn:Hb; cbn [negb map].
  - rewrite IH. unfold is_blank in Hb.
    destruct (Z.ltb_spec 127 c); [lia|]. by destruct ((0x30 <=? c) && (c <=? 0x39)) eqn:?; [lia|].
  - cbn [scanName]. rewrite tolower_idem.
    destruct (tolower_cases c) as [Hc|[Hr Hc]]; rewrite Hc; [by rewrite Hb, !IH|].
    assert (is_blank (c + 32) = false) as -> by (unfold is_blank in *; lia).
    replace (127 <? c + 32) with false by lia. replace (127 <? c) with false by lia.
    replace ((0x30 <=? c + 32) && (c + 32 <=? 0x39)) with false by lia.
    replace ((0x30 <=? c) && (c <=? 0x39)) with false by lia. by rewrite IH.
Qed.

Lemma name_normalise wstr :
  ColorFromXOrgAppColorName (normalise wstr) = ColorFromXOrgAppColorName wstr.
Proof. unfold ColorFromXOrgAppColorName. by rewrite scanName_normalise. Qed.

(** After a digit only digits and blanks may follow. *)
Lemma scanName_digit_then_other wstr rest c stem v f :
  Exists (fun d => is_asciiDigit d = true) wstr \/ f = true ->
  is_asciiDigit c = false -> is_blank c = false ->
  scanName (wstr ++ c :: rest) stem v f = None.
Proof.
  intros Hd Hc Hb. revert stem v f Hd. induction wstr as [|d wstr IH]; intros stem v f Hd; cbn [app scanName].
  - destruct Hd as [Hd|Hd]; [by inversion Hd|]. subst f. rewrite Hb. change (_ && _) with (is_asciiDigit c).
    rewrite Hc. by destruct (127 <? c).
  - destruct (127 <? d); [done|]. change ((0x30 <=? d) && (d <=? 0x39)) with (is_asciiDigit d).
    destruct (is_asciiDigit d) eqn:Hdd; [apply IH; by right|].
    destruct (is_blank d); [|destruct f; [done|]]; apply IH;
      (destruct Hd as [Hd|Hd]; [inversion Hd; [congruence|by left]|by right]).
Qed.

Lemma name_after_digit wstr rest c :
  Exists (fun d => is_asciiDigit d = true) wstr -> is_asciiDigit c = false -> is_blank c = false ->
  ColorFromXOrgAppColorName (wstr ++ c :: rest) = None.
Proof.
  intros. unfold ColorFromXOrgAppColorName. by rewrite scanName_digit_then_other by (try left; done).
Qed.

(** The five entries whose names contain digits cannot be looked up. *)
Lemma x11_names_unreachable :
  Forall (fun e => existsb is_asciiDigit e.1 = true -> ColorFromXOrgAppColorName e.1 = None) xorgAppColorTable
  /\ length (List.filter (fun e => existsb is_asciiDigit e.1) xorgAppColorTable) = 5%nat.
Proof. split; [|done]. apply List.Forall_forall. intros [name c] Hin. cbn.
  repeat (destruct Hin as [Hin|Hin]; [injection Hin as <- <-; vm_compute; congruence|]). done.
Qed.

Definition recognised (name : wstring) (c : color) : bool :=
  bool_decide (ColorFromXOrgAppColorName name = Some c).

Lemma plain_names_recognised :
  forallb (fun e => existsb is_asciiDigit e.1 || recognised e.1 e.2) xorgAppColorTable = true.
Proof. vm_compute. done. Qed.

Lemma variant_names_recognised :
  forallb (fun e =>
    match e.2 with
    | c :: _ => recognised e.1 c
    | [] => false
    end
    && forallb (fun ic => recognised (e.1 ++ [0x30 + Z.of_nat ic.1]) ic.2) (zip (seq 0 5) e.2)
    && (length e.2 =? 5)%nat) xorgAppVariantColorTable = true.
Proof. vm_compute. done. Qed.

(** Everything the lookups can return. *)
Lemma tables_are_colors :
  Forall (fun e => is_color e.2 /\ color_a e.2 = 255) xorgAppColorTable
  /\ Forall (fun e => Forall (fun c => is_color c /\ color_a c = 255) e.2) xorgAppVariantColorTable.
Proof. split; by_decide. Qed.

Lemma recognised_is_color s c :
  ColorFromXOrgAppColorName s = Some c -> is_color c /\ color_a c = 255.
Proof.
  destruct tables_are_colors as [Hplain Hvariant]. rewrite List.Forall_forall in Hplain, Hvariant.
  unfold ColorFromXOrgAppColorName. destruct (scanName s [] 0 false) as [[[stem v] f]|]; [|done].
  unfold lookupName. set (plain := if _ : bool then _ else _).
  assert (forall d, plain = Some d -> is_color d /\ color_a d = 255) as Hp.
  { intros d. unfold plain. destruct (_ && f).
    - destruct (Z.ltb_spec 100 v); [done|]. intros [= <-]. unfold is_color, is_byte, rgb. cbn.
      assert (0 <= u64 (u64 (v * 255) + 50) / 100) by (apply Z.div_pos; [apply wrap_bound|]; lia). lia.
    - intros Hf. apply (find_sorted _ _ _ xorgAppColorTable_sorted) in Hf. by apply Hplain in Hf. }
  clearbody plain. destruct (static_map.find xorgAppVariantColorTable stem) as [colors|] eqn:Hv; [|apply Hp].
  apply (find_sorted _ _ _ xorgAppVariantColorTable_sorted), Hvariant in Hv. cbn in Hv.
  destruct (v <? _); [|apply Hp]. intros Hc. rewrite Forall_lookup in Hv. by apply Hv in Hc.
Qed.

(** ** Palettes *)
Lemma fold_insert_seq {A} (f : nat -> A) (k n : nat) (t : list A) :
  (k + n <= length t)%nat ->
  fold_left (fun t i => <[(i + k)%nat := f i]> t) (seq 0 n) t
  = take k t ++ map f (seq 0 n) ++ drop (k + n) t.
Proof.
  induction n as [|n IH]; intros Hl.
  - cbn. rewrite Nat.add_0_r. by rewrite take_drop.
  - rewrite seq_S, fold_left_app, IH, map_app by lia. cbn [fold_left map Nat.add].
    rewrite !app_assoc, insert_app_r_alt by (rewrite length_app, length_take, length_map, length_seq; lia).
    rewrite <- !app_assoc. do 2 f_equal.
    replace (n + k - _)%nat with 0%nat
      by (rewrite length_app, length_take, length_map, length_seq; lia).
    destruct (lookup_lt_is_Some_2 t (k + n)) as [x Hx]; [lia|].
    rewrite (drop_S t x (k + n) Hx). cbn. by rewrite Nat.add_succ_r.
Qed.

Lemma length_copyTable colors t : length (copyTable colors t) = length t.
Proof.
  unfold copyTable. destruct (Nat.leb_spec (length colors) (length t)); [|done].
  rewrite length_app, length_map, length_drop. lia.
Qed.

(** The 256-colour palette. *)
Definition palette256 : list color :=
  campbellColorTable ++ map (cubeColor false) (seq 0 216) ++ map grayColor (seq 0 24).

Lemma InitializeExtendedColorTable_eq (t : list Z) (monochrome : bool) :
  length t = 256%nat ->
  InitializeExtendedColorTable t monochrome
  = take 16 t ++ map to_COLORREF (map (cubeColor monochrome) (seq 0 216) ++ map grayColor (seq 0 24)).
Proof.
  intros Hl. unfold InitializeExtendedColorTable. rewrite Hl. cbn [Nat.leb].
  rewrite (fold_insert_seq (fun i => to_COLORREF (cubeColor monochrome i)) 16 216) by lia.
  set (cube := map _ (seq 0 216)).
  assert (length cube = 216%nat) as Hcube by (unfold cube; by rewrite length_map, length_seq).
  rewrite (fold_insert_seq (fun i => to_COLORREF (grayColor i)) 232 24)
    by (rewrite !length_app, length_take, length_drop; lia).
  rewrite (app_assoc (take 16 t)), take_app_length'
    by (rewrite length_app, length_take; lia).
  rewrite drop_ge by (rewrite !length_app, length_take, length_drop; lia).
  rewrite app_nil_r, map_app, !map_map, <- app_assoc. done.
Qed.

(** ** The properties *)

(** The X.Org colour names. Blanks and case do not matter; every name of the
    plain table without digits, every name of the variant table, and every such
    name followed by one of its variant numbers yields the colour the table lists,
    although the tables are searched by bisection; and whatever is recognised is an
    opaque colour of byte components. *)
Theorem xorg_color_names :
  (forall s, ColorFromXOrgAppColorName (normalise s) = ColorFromXOrgAppColorName s)
  /\ (forall name c, In (name, c) xorgAppColorTable -> existsb is_asciiDigit name = false ->
        ColorFromXOrgAppColorName name = Some c)
  /\ (forall name colors i c, In (name, colors) xorgAppVariantColorTable -> colors !! i = Some c ->
        ColorFromXOrgAppColorName (name ++ [0x30 + Z.of_nat i]) = Some c
        /\ (i = 0%nat -> ColorFromXOrgAppColorName name = Some c))
  /\ (forall s c, ColorFromXOrgAppColorName s = Some c -> is_color c /\ color_a c = 255).
Proof.
  split; [apply name_normalise|]. split; [|split].
  - intros name c Hin Hd. pose proof plain_names_recognised as Hall.
    rewrite forallb_forall in Hall. specialize (Hall _ Hin). cbn in Hall. rewrite Hd in Hall.
    by apply bool_decide_eq_true in Hall.
  - intros name colors i c Hin Hi. pose proof variant_names_recognised as Hall.
    rewrite forallb_forall in Hall. specialize (Hall _ Hin). cbn [fst snd] in Hall.
    apply andb_prop in Hall as [[H0 Hv]%andb_prop Hlen]. apply Nat.eqb_eq in Hlen.
    rewrite forallb_forall in Hv. split.
    + assert (In (i, c) (zip (seq 0 5) colors)) as Hic.
      { apply list_elem_of_In, (list_elem_of_lookup_2 _ i).
        apply lookup_zip_with_Some. exists i, c. split; [done|]. split; [|done].
        apply lookup_seq. split; [lia|]. apply lookup_lt_Some in Hi. lia. }
      specialize (Hv _ Hic). by apply bool_decide_eq_true in Hv.
    + intros ->. destruct colors as [|c' colors]; [done|]. cbn in Hi. injection Hi as ->.
      by apply bool_decide_eq_true in H0.
  - intros s c. apply recognised_is_color.
Qed.

(** The names of the table in another spelling, and a variant number. *)
Lemma xorg_color_names_witness :
  In (L "aliceblue", rgb 240 248 255) xorgAppColorTable
  /\ ColorFromXOrgAppColorName (L "aliceblue") = Some (rgb 240 248 255)
  /\ normalise (L "Alice Blue") = L "aliceblue"
  /\ ColorFromXOrgAppColorName (L "Alice Blue") = Some (rgb 240 248 255)
  /\ ColorFromXOrgAppColorName (L "antiquewhite" ++ [0x32]) = Some (rgb 238 223 204).
Proof.
  destruct xorg_color_names as (Hn & Hp & Hv & _).
  assert (In (L "aliceblue", rgb 240 248 255) xorgAppColorTable) as Hin by (left; reflexivity).
  assert (ColorFromXOrgAppColorName (L "aliceblue") = Some (rgb 240 248 255)) as Ha
    by (apply (Hp _ _ Hin); reflexivity).
  split; [exact Hin|]. split; [exact Ha|]. split; [reflexivity|]. split.
  - rewrite <- Hn. exact Ha.
  - refine (proj1 (Hv _ _ 2%nat _ _ _)); [left; reflexivity|reflexivity].
Defined.

(** Initialising a 256-entry colour table overwrites every entry: the sixteen
    ANSI colours, the 6x6x6 cube and the 24 greys, whatever the table held. *)
Theorem color_table_256 (table : list Z) (Hsize : length table = 256%nat) :
  InitializeColorTable table = map to_COLORREF palette256
  /\ (forall i red green blue, (red < 6)%nat -> (green < 6)%nat -> (blue < 6)%nat ->
        i = (16 + 36 * red + 6 * green + blue)%nat ->
        InitializeColorTable table !! i
        = Some (to_COLORREF (rgb (default 0 (scale !! red)) (default 0 (scale !! green))
                                 (default 0 (scale !! blue))))).
Proof.
  assert (InitializeColorTable table = map to_COLORREF palette256) as Heq.
  { unfold InitializeColorTable. rewrite InitializeExtendedColorTable_eq
      by (unfold InitializeANSIColorTable; by rewrite length_copyTable).
    unfold InitializeANSIColorTable, copyTable, palette256. rewrite Hsize.
    change (length campbellColorTable) with 16%nat. cbn [Nat.leb].
    rewrite take_app_length' by done. by rewrite <- map_app. }
  split; [done|]. intros i red green blue Hr Hg Hb ->. rewrite Heq. unfold palette256.
  assert (forall n, (n < 6)%nat -> n = 0%nat \/ n = 1%nat \/ n = 2%nat \/ n = 3%nat \/ n = 4%nat \/ n = 5%nat)
    as Hsix by lia.
  destruct (Hsix red Hr) as [->|[->|[->|[->|[->| ->]]]]], (Hsix green Hg) as [->|[->|[->|[->|[->| ->]]]]],
    (Hsix blue Hb) as [->|[->|[->|[->|[->| ->]]]]]; vm_compute; reflexivity.
Qed.

Lemma color_table_256_witness :
  length (replicate 256 7) = 256%nat
  /\ InitializeColorTable (replicate 256 7) !! 196%nat = Some (to_COLORREF (rgb 255 0 0)).
Proof.
  split; [reflexivity|].
  refine (proj2 (color_table_256 (replicate 256 7) eq_refl) 196%nat 5%nat 0%nat 0%nat _ _ _ _);
    first [lia|reflexivity].
Defined.
