(* ===== verification/Colors.v ===== *)
(** * Colour specifications

    The colour parsers of [src/types/utils.cpp]: the XParseColor specifications
    and X.Org names of the OSC colour sequences, the RGB percentages of the
    colour table reports, and the hexadecimal strings of the settings. *)
From S2P Require Import Prelude.
From S2P Require Import Strings.
From S2P Require Import ColorTable.

(** ** [ColorFromXParseColorSpec] *)

(** The loop over the digits of one component, [steps] rounds from round [i] on;
    [curr] is what the iterator has left. It yields [foundColor], the digit count,
    the value and the rest of the string; [None] for the early return. *)
Fixpoint componentDigits (steps i : nat) (isSharpSignFormat : bool) (component rgbHexDigitCount : nat)
    (parameterValue : Z) (foundColor : bool) (curr : wstring) : option (bool * nat * Z * wstring) :=
  match steps, curr with
  | O, _ | _, [] => Some (foundColor, rgbHexDigitCount, parameterValue, curr)
  | S steps, wch :: curr =>
      match HexToUint wch with
      | None => None
      | Some intVal =>
          let parameterValue := u32 (u32 (parameterValue * 16) + intVal) in
          if isSharpSignFormat then
            if (rgbHexDigitCount <=? i)%nat then Some (true, rgbHexDigitCount, parameterValue, curr)
            else componentDigits steps (S i) isSharpSignFormat component rgbHexDigitCount
                                 parameterValue true curr
          else
            let rgbHexDigitCount := (i + 1)%nat in
            if (component <? 2)%nat && match curr with c :: _ => c =? 0x2F | [] => false end
            then Some (true, rgbHexDigitCount, parameterValue, tl curr)
            else match curr with
                 | [] => Some (true, rgbHexDigitCount, parameterValue, curr)
                 | _ => componentDigits steps (S i) isSharpSignFormat component rgbHexDigitCount
                                        parameterValue foundColor curr
                 end
      end
  end.

(** The scaling of a component by its digit count; [int] and [unsigned int] arithmetic. *)
Definition scaleComponent (isSharpSignFormat : bool) (rgbHexDigitCount : nat) (parameterValue : Z) : Z :=
  let scaleMultiplier := if isSharpSignFormat then 0x10 else 0x11 in
  let scaleDivisor := Z.shiftr (Z.shiftl scaleMultiplier 8) (4 * (4 - Z.of_nat rgbHexDigitCount)) in
  u32 (parameterValue * scaleMultiplier) / scaleDivisor.

(** The loop over the components, [n] of them from [component] on. *)
Fixpoint components (n component : nat) (isSharpSignFormat : bool) (rgbHexDigitCount : nat)
    (curr : wstring) : option (list Z * wstring) :=
  match n with
  | O => Some ([], curr)
  | S n =>
      let iteration := if isSharpSignFormat then rgbHexDigitCount else 4%nat in
      match componentDigits iteration 0 isSharpSignFormat component rgbHexDigitCount 0 false curr with
      | Some (true, rgbHexDigitCount, parameterValue, curr) =>
          let colorValue := scaleComponent isSharpSignFormat rgbHexDigitCount parameterValue in
          match components n (S component) isSharpSignFormat rgbHexDigitCount curr with
          | Some (colorValues, curr) => Some (colorValue :: colorValues, curr)
          | None => None
          end
      | _ => None
      end
  end.

Definition LOBYTE (v : Z) : Z := Z.land v 0xFF.

Definition ColorFromXParseColorSpec (string : wstring) : option color :=
  let stringSize := length string in
  let isRgb := (4 <? stringSize)%nat && bool_decide (map tolower_ascii (take 4 string) = L "rgb:") in
  let isSharp := negb isRgb && (1 <? stringSize)%nat && bool_decide (string !! 0%nat = Some 0x23) in
  if isRgb && ((stringSize <? 9)%nat || (18 <? stringSize)%nat) then None
  else if isSharp && negb ((stringSize =? 4)%nat || (stringSize =? 7)%nat || (stringSize =? 10)%nat
                           || (stringSize =? 13)%nat) then None
  else if negb (isRgb || isSharp) then None
  else
    match components 3 0 isSharp (if isSharp then (stringSize - 1) / 3 else 0)%nat
                     (drop (if isSharp then 1 else 4) string) with
    | Some ([red; green; blue], []) => Some (rgb (LOBYTE red) (LOBYTE green) (LOBYTE blue))
    | _ => None
    end.

Definition ColorFromXTermColor (string : wstring) : option color :=
  match ColorFromXParseColorSpec string with
  | Some c => Some c
  | None => ColorFromXOrgAppColorName string
  end.

Example spec_examples :
  ColorFromXParseColorSpec (L "rgb:f/8/0") = Some (rgb 0xff 0x88 0)
  /\ ColorFromXParseColorSpec (L "RGB:1234/56/789") = Some (rgb 0x12 0x56 0x78)
  /\ ColorFromXParseColorSpec (L "#fa0") = Some (rgb 0xf0 0xa0 0)
  /\ ColorFromXParseColorSpec (L "#123456789abc") = Some (rgb 0x12 0x56 0x9a)
  /\ ColorFromXParseColorSpec (L "rgb:1/2/3/") = None
  /\ ColorFromXParseColorSpec (L "rgb:12345/2/3") = None.
Proof. vm_compute. done. Qed.

(** ** Percentages *)
Definition scale100To255 : list Z := map (fun i => u8 ((Z.of_nat i * 255 + 50) / 100)) (seq 0 101).
Definition scale255To100 : list Z := map (fun i => u8 ((Z.of_nat i * 100 + 128) / 255)) (seq 0 256).

(** [std::min<unsigned>(v, 100u)] of an [int]: negative values are large ones. *)
Definition clampPercent (v : Z) : nat := Z.to_nat (Z.min (u32 v) 100).

Definition ColorFromRGB100 (r g b : Z) : color :=
  let at_ v := default 0 (scale100To255 !! clampPercent v) in
  rgb (at_ r) (at_ g) (at_ b).
Definition ColorToRGB100 (c : color) : Z * Z * Z :=
  let at_ v := default 0 (scale255To100 !! Z.to_nat v) in
  (at_ (color_r c), at_ (color_g c), at_ (color_b c)).

(** ** Hexadecimal strings *)
Definition hexDigit (v : Z) : Z := if v <? 10 then 0x30 + v else 0x41 + (v - 10).
(** [{:02X}] of a byte. *)
Definition format02X (v : Z) : bytes := [hexDigit (v / 16); hexDigit (v mod 16)].
Definition ColorToHexString (c : color) : bytes :=
  [0x23] ++ format02X (color_r c) ++ format02X (color_g c) ++ format02X (color_b c).

(** [std::stoul(str, nullptr, 16)] with its 32-bit [unsigned long]: leading white
    space, a sign and [0x] are accepted, trailing characters ignored; [None] is an
    exception. *)
Definition stoulDigits (str : bytes) : option Z :=
  let fix go (seen : bool) (acc : Z) (str : bytes) :=
    match str with
    | c :: rest => match HexToUint c with
                   | Some d => go true (acc * 16 + d) rest
                   | None => if seen then Some acc else None
                   end
    | [] => if seen then Some acc else None
    end in
  go false 0 str.
Fixpoint skipSpace (str : bytes) : bytes :=
  match str with
  | c :: rest => if is_space c then skipSpace rest else str
  | [] => []
  end.
Definition stoulMagnitude (str : bytes) : option Z :=
  match str with
  | 0x30 :: x :: rest =>
      if (x =? 0x78) || (x =? 0x58)
      then match stoulDigits rest with Some v => Some v | None => Some 0 end
      else stoulDigits str
  | _ => stoulDigits str
  end.
Definition stoul16 (str : bytes) : option Z :=
  let checked v := match v with Some v => if 2 ^ 32 <=? v then None else Some v | None => None end in
  match skipSpace str with
  | 0x2D :: rest => match checked (stoulMagnitude rest) with Some v => Some (u32 (- v)) | None => None end
  | 0x2B :: rest => checked (stoulMagnitude rest)
  | str => checked (stoulMagnitude str)
  end.

(** The strings of the four components; [None] is the [E_INVALIDARG] exception. *)
Definition hexComponents (str : bytes) : option (list bytes) :=
  match str with
  | [h; r; g; b] => if h =? 0x23 then Some [[r; r]; [g; g]; [b; b]; L "ff"] else None
  | [h; r1; r2; g1; g2; b1; b2] =>
      if h =? 0x23 then Some [[r1; r2]; [g1; g2]; [b1; b2]; L "ff"] else None
  | [h; r1; r2; g1; g2; b1; b2; a1; a2] =>
      if h =? 0x23 then Some [[r1; r2]; [g1; g2]; [b1; b2]; [a1; a2]] else None
  | _ => None
  end.
Definition ColorFromHexString (str : bytes) : option color :=
  match hexComponents str with
  | Some [rStr; gStr; bStr; aStr] =>
      match stoul16 rStr, stoul16 gStr, stoul16 bStr, stoul16 aStr with
      | Some r, Some g, Some b, Some a => Some (mkColor (u8 r) (u8 g) (u8 b) (u8 a))
      | _, _, _, _ => None
      end
  | _ => None
  end.

(** ** What a specification means *)
Definition is_hex (c : wchar_t) : bool := match HexToUint c with Some _ => true | None => false end.
Definition hexValue (c : wchar_t) : Z := default 0 (HexToUint c).

(** One to four hexadecimal digits. *)
Definition is_component (digits : wstring) : Prop :=
  (1 <= length digits <= 4)%nat /\ Forall (fun c => is_hex c = true) digits.

(** The most significant byte of the digits read as a binary fraction; a single
    digit is repeated in the [rgb:] form and followed by 0 in the [#] form. *)
Definition componentByte (repeat : bool) (digits : wstring) : Z :=
  match digits with
  | [d] => hexValue d * (if repeat then 17 else 16)
  | d1 :: d2 :: _ => hexValue d1 * 16 + hexValue d2
  | [] => 0
  end.

Inductive XParseColor : wstring -> color -> Prop :=
| XParseColor_rgb prefix red green blue :
    map tolower_ascii prefix = L "rgb:" ->
    is_component red -> is_component green -> is_component blue ->
    XParseColor (prefix ++ red ++ [0x2F] ++ green ++ [0x2F] ++ blue)
                (rgb (componentByte true red) (componentByte true green) (componentByte true blue))
| XParseColor_sharp red green blue :
    length red = length green -> length green = length blue ->
    is_component red -> is_component green -> is_component blue ->
    XParseColor ([0x23] ++ red ++ green ++ blue)
                (rgb (componentByte false red) (componentByte false green) (componentByte false blue)).

(** ** Digits *)
Lemma HexToUint_range c v : HexToUint c = Some v -> 0 <= v < 16.
Proof. unfold HexToUint. repeat case_match; intros [= <-]; lia. Qed.

Lemma hexValue_range c : 0 <= hexValue c < 16.
Proof. unfold hexValue. destruct (HexToUint c) eqn:Hc; [by apply HexToUint_range in Hc|cbn; lia]. Qed.

(** [parameterValue] after the digits [ds]. *)
Definition hexFrom (p : Z) (ds : wstring) : Z := fold_left (fun v c => v * 16 + hexValue c) ds p.

Lemma accumulate_digit p i c v :
  0 <= p < 16 ^ Z.of_nat i -> (i < 4)%nat -> HexToUint c = Some v ->
  u32 (u32 (p * 16) + v) = p * 16 + hexValue c /\ 0 <= p * 16 + hexValue c < 16 ^ Z.of_nat (S i).
Proof.
  intros Hp Hi Hc. unfold hexValue. rewrite Hc. cbn [default from_option id]. apply HexToUint_range in Hc.
  assert (16 ^ Z.of_nat i <= 4096) by (change 4096 with (16 ^ 3); apply Z.pow_le_mono_r; lia).
  rewrite Nat2Z.inj_succ, Z.pow_succ_r by lia.
  rewrite (wrap_small 32 (p * 16)) by lia. rewrite wrap_small by lia. lia.
Qed.

Lemma slash_not_hex : HexToUint 0x2F = None.
Proof. done. Qed.

(** A component of the [rgb:] form ends at a slash or at the end of the string. *)
Definition endsAt (component : nat) (curr ds rest : wstring) : Prop :=
  ((component < 2)%nat /\ curr = ds ++ [0x2F] ++ rest) \/ (curr = ds /\ rest = []).

Lemma componentDigits_rgb steps i component count p curr n v rest :
  0 <= p < 16 ^ Z.of_nat i -> (i + steps = 4)%nat ->
  componentDigits steps i false component count p false curr = Some (true, n, v, rest)
  <-> exists ds, (1 <= length ds <= steps)%nat /\ Forall (fun c => is_hex c = true) ds
        /\ n = (i + length ds)%nat /\ v = hexFrom p ds /\ endsAt component curr ds rest.
Proof.
  revert i count p curr. induction steps as [|steps IH]; intros i count p curr Hp Hi.
  { cbn. split; [done|]. intros (ds & ? & _). lia. }
  destruct curr as [|wch curr].
  { cbn. split; [done|]. intros (ds & Hl & _ & _ & _ & [[_ He]|[He _]]);
      destruct ds; cbn in *; try lia; done. }
  cbn [componentDigits]. unfold is_hex. destruct (HexToUint wch) as [intVal|] eqn:Hwch.
  2: { split; [done|]. intros (ds & Hl & Hh & _ & _ & He). destruct ds as [|d ds]; [cbn in Hl; lia|].
       apply Forall_cons in Hh as [Hd _].
       destruct He as [[_ He]|[He _]]; injection He as -> _; by rewrite Hwch in Hd. }
  destruct (accumulate_digit p i wch intVal) as [-> Hp']; [done|lia|done|].
  set (slash := match curr with c :: _ => c =? 0x2F | [] => false end).
  destruct ((component <? 2)%nat && slash) eqn:Hslash.
  - apply andb_prop in Hslash as [Hcomp Hs]. apply Nat.ltb_lt in Hcomp. unfold slash in Hs.
    destruct curr as [|c curr]; [done|]. apply Z.eqb_eq in Hs. subst c. cbn [tl]. split.
    + intros [= <- <- <-]. exists [wch]. split; [cbn; lia|]. split; [by repeat constructor; rewrite Hwch|].
      split; [cbn; lia|]. split; [done|]. left. done.
    + intros (ds & Hl & Hh & -> & -> & He). destruct ds as [|d [|d' ds]]; [cbn in Hl; lia| |].
      * destruct He as [[_ [= -> ->]]|[[= ] _]]. cbn. done.
      * exfalso. apply Forall_cons in Hh as [_ Hh]. apply Forall_cons in Hh as [Hd _].
        destruct He as [[_ He]|[He _]]; injection He as _ <- _; by cbn in Hd.
  - destruct curr as [|c curr].
    + split.
      * intros [= <- <- <-]. exists [wch]. split; [cbn; lia|]. split; [by repeat constructor; rewrite Hwch|].
        split; [cbn; lia|]. split; [done|]. by right.
      * intros (ds & Hl & Hh & -> & -> & He). destruct ds as [|d [|d' ds]]; [cbn in Hl; lia| |].
        -- destruct He as [[_ [= ]]|[[= ->] ->]]. cbn. by rewrite Nat.add_1_r.
        -- destruct He as [[_ [= ]]|[[= ] _]].
    + rewrite IH by (try done; lia). split.
      * intros (ds & Hl & Hh & -> & -> & He). exists (wch :: ds). split; [cbn; lia|].
        split; [constructor; [by rewrite Hwch|done]|]. split; [cbn; lia|]. split; [done|].
        destruct He as [[Hc2 He]|[He ->]]; [left; by rewrite He|right; by rewrite He].
      * intros (ds & Hl & Hh & -> & -> & He). destruct ds as [|d ds]; [cbn in Hl; lia|].
        apply Forall_cons in Hh as [_ Hh].
        assert (d = wch) as -> by (destruct He as [[_ [= -> _]]|[[= -> _] _]]; done).
        exists ds. destruct ds as [|d' ds].
        { exfalso. destruct He as [[Hc2 [= -> ->]]|[[= ] _]].
          apply andb_false_iff in Hslash as [Hs|Hs]; [apply Nat.ltb_ge in Hs; lia|done]. }
        split; [cbn in *; lia|]. split; [done|]. split; [cbn; lia|]. split; [done|].
        destruct He as [[Hc2 He]|[He ->]]; [left|right]; injection He as Hc He; by rewrite Hc, He.
Qed.

(** A component of the [#] form takes its fixed number of characters. *)
Lemma componentDigits_sharp steps i component count p found ds rest :
  0 <= p < 16 ^ Z.of_nat i -> (i + steps = count)%nat -> (count <= 4)%nat -> length ds = steps ->
  componentDigits steps i true component count p found (ds ++ rest)
  = if forallb is_hex ds then Some (found || (0 <? steps)%nat, count, hexFrom p ds, rest) else None.
Proof.
  revert i p found ds. induction steps as [|steps IH]; intros i p found ds Hp Hi Hc Hl.
  { destruct ds; [|done]. cbn. by rewrite orb_false_r. }
  destruct ds as [|d ds]; [done|]. injection Hl as Hl. cbn [app componentDigits forallb].
  unfold is_hex at 1. destruct (HexToUint d) as [intVal|] eqn:Hd; [|done]. cbn [andb].
  destruct (accumulate_digit p i d intVal) as [-> Hp']; [done|lia|done|].
  destruct (Nat.leb_spec count i); [lia|]. rewrite IH by (try done; lia).
  destruct (forallb is_hex ds); [|done]. by rewrite orb_true_r.
Qed.

(** ** Scaling *)
Lemma hexFrom_range ds p n :
  0 <= p < 16 ^ Z.of_nat n -> 0 <= hexFrom p ds < 16 ^ Z.of_nat (n + length ds).
Proof.
  revert p n. induction ds as [|d ds IH]; intros p n Hp; cbn [hexFrom fold_left length].
  { by rewrite Nat.add_0_r. }
  rewrite Nat.add_succ_r. pose proof (hexValue_range d). apply (IH _ (S n)).
  rewrite Nat2Z.inj_succ, Z.pow_succ_r by lia. lia.
Qed.

Lemma scaleComponent_byte sharp ds :
  (1 <= length ds <= 4)%nat ->
  LOBYTE (scaleComponent sharp (length ds) (hexFrom 0 ds)) = componentByte (negb sharp) ds.
Proof.
  intros Hl. unfold scaleComponent, LOBYTE. change 0xFF with (Z.ones 8). rewrite Z.land_ones by lia.
  destruct ds as [|d1 [|d2 [|d3 [|d4 [|]]]]]; cbn [length] in *; try lia;
    cbn [hexFrom fold_left componentByte];
    repeat match goal with |- context [hexValue ?d] =>
      let v := fresh "v" in pose proof (hexValue_range d); set (v := hexValue d) in *; clearbody v end;
    (rewrite wrap_small by (destruct sharp; lia)); destruct sharp; cbn [negb];
    match goal with |- context [Z.shiftr ?x ?n] =>
      let k := eval vm_compute in (Z.shiftr x n) in change (Z.shiftr x n) with k end;
    (rewrite Z.mod_small; Z.div_mod_to_equations; lia).
Qed.

(** ** Components *)
Lemma components_rgb_step n component count curr values rest :
  components (S n) component false count curr = Some (values, rest)
  <-> exists ds rest' values', is_component ds /\ endsAt component curr ds rest'
        /\ values = scaleComponent false (length ds) (hexFrom 0 ds) :: values'
        /\ components n (S component) false (length ds) rest' = Some (values', rest).
Proof.
  cbn [components].
  pose proof (componentDigits_rgb 4 0 component count 0 curr) as Hspec. split.
  - destruct (componentDigits 4 0 false component count 0 false curr) as [[[[[] n'] v'] rest']|]; try done.
    destruct (proj1 (Hspec n' v' rest' ltac:(cbn; lia) eq_refl) eq_refl) as (ds & Hl & Hh & -> & -> & He).
    cbn [Nat.add] in *. destruct (components n _ _ _ rest') as [[vs r]|] eqn:Hc; [|done].
    intros [= <- <-]. by exists ds, rest', vs.
  - intros (ds & rest' & vs & [Hl Hh] & He & -> & Hc).
    rewrite (proj2 (Hspec (0 + length ds)%nat (hexFrom 0 ds) rest' ltac:(cbn; lia) eq_refl)) by by exists ds.
    cbn [Nat.add]. by rewrite Hc.
Qed.

Lemma components_rgb curr values :
  components 3 0 false 0 curr = Some (values, [])
  <-> exists red green blue, is_component red /\ is_component green /\ is_component blue
        /\ curr = red ++ [0x2F] ++ green ++ [0x2F] ++ blue
        /\ values = map (fun ds => scaleComponent false (length ds) (hexFrom 0 ds)) [red; green; blue].
Proof.
  rewrite components_rgb_step. split.
  - intros (red & rest & vs & Hred & He1 & -> & H1).
    apply components_rgb_step in H1 as (green & rest2 & vs2 & Hgreen & He2 & -> & H2).
    apply components_rgb_step in H2 as (blue & rest3 & vs3 & Hblue & He3 & -> & H3).
    injection H3 as <- ->. exists red, green, blue. split; [done|]. split; [done|]. split; [done|].
    split; [|done]. destruct He3 as [[? _]|[-> _]]; [lia|].
    assert (forall ds : wstring, is_component ds -> ds <> []) as Hne
      by (intros [|] [? _]; [cbn in *; lia|done]).
    destruct He2 as [[_ ->]|[-> ->]]; [|by apply Hne in Hblue].
    destruct He1 as [[_ ->]|[_ Hnil]]; [done|by destruct green].
  - intros (red & green & blue & Hred & Hgreen & Hblue & -> & ->).
    exists red, (green ++ [0x2F] ++ blue). eexists. split; [done|]. split; [left; split; [lia|done]|].
    split; [reflexivity|]. apply components_rgb_step. exists green, blue. eexists. split; [done|].
    split; [left; split; [lia|done]|]. split; [reflexivity|]. apply components_rgb_step.
    exists blue, []. eexists. split; [done|]. split; [by right|]. by split.
Qed.

Lemma components_sharp n component count ds rest values rest' :
  (1 <= count <= 4)%nat -> length ds = count ->
  components (S n) component true count (ds ++ rest) = Some (values, rest')
  <-> is_component ds /\ exists values', values = scaleComponent true count (hexFrom 0 ds) :: values'
        /\ components n (S component) true count rest = Some (values', rest').
Proof.
  intros Hc Hl. cbn [components].
  rewrite (componentDigits_sharp count 0 component count 0 false ds rest) by (try done; cbn; lia).
  destruct (forallb is_hex ds) eqn:Hh.
  - apply forallb_Forall in Hh. destruct (Nat.ltb_spec 0 count); [|lia]. cbn [orb].
    assert (is_component ds) by (split; [lia|done]).
    destruct (components n _ _ _ rest) as [[vs r]|].
    + split; [intros [= <- <-]; split; [done|]; by exists vs|]. by intros (_ & vs' & -> & [= -> ->]).
    + split; [done|]. by intros (_ & ? & _ & ?).
  - split; [done|]. intros [[_ Hd] _]. apply forallb_Forall in Hd. congruence.
Qed.

Lemma LOBYTE_values sharp red green blue :
  is_component red -> is_component green -> is_component blue ->
  match map (fun ds => scaleComponent sharp (length ds) (hexFrom 0 ds)) [red; green; blue] with
  | [x; y; z] => rgb (LOBYTE x) (LOBYTE y) (LOBYTE z)
  | _ => rgb 0 0 0
  end = rgb (componentByte (negb sharp) red) (componentByte (negb sharp) green)
            (componentByte (negb sharp) blue).
Proof. intros [? _] [? _] [? _]. cbn [map]. by rewrite !scaleComponent_byte by done. Qed.

(** ** The whole specification *)
Lemma spec_rgb_form string c :
  (4 < length string)%nat -> map tolower_ascii (take 4 string) = L "rgb:" ->
  ColorFromXParseColorSpec string = Some c <-> 
  (exists values, components 3 0 false 0 (drop 4 string) = Some (values, [])
     /\ match values with [x; y; z] => c = rgb (LOBYTE x) (LOBYTE y) (LOBYTE z) | _ => False end)
  /\ (9 <= length string <= 18)%nat.
Proof.
  intros Hl Hp. unfold ColorFromXParseColorSpec.
  destruct (Nat.ltb_spec 4 (length string)); [|lia]. rewrite bool_decide_true by done.
  cbn [andb negb orb]. destruct (Nat.ltb_spec (length string) 9), (Nat.ltb_spec 18 (length string));
    cbn [orb]; try (split; [done|intros [_ ?]; lia]).
  destruct (components 3 0 false 0 (drop 4 string)) as [[values rest]|]; [|split; [done|by intros [(?&?&_) _]]].
  split.
  - destruct values as [|x [|y [|z [|]]]]; try done. destruct rest; [|done]. intros [= <-].
    split; [|lia]. by exists [x; y; z].
  - intros [(vs & [= -> ->] & Hv) _]. destruct vs as [|x [|y [|z [|]]]]; try done. by subst c.
Qed.

Lemma XParseColor_rgb_size prefix red green blue :
  map tolower_ascii prefix = L "rgb:" ->
  is_component red -> is_component green -> is_component blue ->
  let string := prefix ++ red ++ [0x2F] ++ green ++ [0x2F] ++ blue in
  take 4 string = prefix /\ drop 4 string = red ++ [0x2F] ++ green ++ [0x2F] ++ blue
  /\ (9 <= length string <= 18)%nat.
Proof.
  intros Hp [? _] [? _] [? _] string. apply (f_equal length) in Hp. rewrite length_map in Hp.
  change (length (L "rgb:")) with 4%nat in Hp. unfold string.
  split; [by rewrite take_app_length'|]. split; [by rewrite drop_app_length'|].
  rewrite !length_app. cbn [length]. lia.
Qed.

(** The [#] form of [3 * n + 1] characters. *)
Lemma spec_sharp_form n rest c :
  (1 <= n <= 4)%nat -> length rest = (3 * n)%nat ->
  ColorFromXParseColorSpec (0x23 :: rest) = Some c <->
  exists values, components 3 0 true n rest = Some (values, [])
    /\ match values with [x; y; z] => c = rgb (LOBYTE x) (LOBYTE y) (LOBYTE z) | _ => False end.
Proof.
  intros Hn Hl. unfold ColorFromXParseColorSpec.
  rewrite (bool_decide_false (map tolower_ascii (take 4 (0x23 :: rest)) = L "rgb:")) by done.
  rewrite andb_false_r. cbn [andb negb orb length]. rewrite Hl.
  destruct (Nat.ltb_spec 1 (S (3 * n))); [|lia]. rewrite bool_decide_true by done. cbn [andb].
  assert (n = 1 \/ n = 2 \/ n = 3 \/ n = 4)%nat as Hcases by lia.
  replace (negb ((S (3 * n) =? 4)%nat || (S (3 * n) =? 7)%nat || (S (3 * n) =? 10)%nat
                 || (S (3 * n) =? 13)%nat)) with false by (by destruct Hcases as [->|[->|[-> | ->]]]).
  cbn [negb orb].
  replace ((S (3 * n) - 1) / 3)%nat with n
    by (replace (S (3 * n) - 1)%nat with (n * 3)%nat by lia; by rewrite Nat.div_mul).
  change (drop 1 (0x23 :: rest)) with rest.
  destruct (components 3 0 true n rest) as [[values rest']|]; [|split; [done|by intros (?&?&_)]]. split.
  - destruct values as [|x [|y [|z [|]]]]; try done. destruct rest'; [|done]. intros [= <-].
    by exists [x; y; z].
  - intros (vs & [= -> ->] & Hv). destruct vs as [|x [|y [|z [|]]]]; try done. by subst c.
Qed.

Lemma components_sharp_all n red green blue values :
  (1 <= n <= 4)%nat -> length red = n -> length green = n -> length blue = n ->
  components 3 0 true n (red ++ green ++ blue) = Some (values, [])
  <-> is_component red /\ is_component green /\ is_component blue
      /\ values = map (fun ds => scaleComponent true (length ds) (hexFrom 0 ds)) [red; green; blue].
Proof.
  intros Hn Hr Hg Hb. rewrite (components_sharp 2 0 n red) by done.
  pose proof (fun vs => components_sharp 1 1 n green blue vs [] Hn Hg) as Hgreen.
  pose proof (fun vs => components_sharp 0 2 n blue [] vs [] Hn Hb) as Hblue. rewrite app_nil_r in Hblue.
  cbn [map]. rewrite Hr, Hg, Hb. split.
  - intros (? & v1 & -> & (? & v2 & -> & (? & v3 & -> & Hc)%Hblue)%Hgreen). cbn in Hc. by injection Hc as <-.
  - intros (? & ? & ? & ->). split; [done|]. eexists. split; [done|]. apply Hgreen. split; [done|].
    eexists. split; [done|]. apply Hblue. split; [done|]. by eexists.
Qed.

Lemma ColorFromXParseColorSpec_sound string c :
  ColorFromXParseColorSpec string = Some c -> XParseColor string c.
Proof.
  intros Hspec.
  destruct (decide ((4 < length string)%nat /\ map tolower_ascii (take 4 string) = L "rgb:")) as [[Hl Hp]|Hno].
  - apply (spec_rgb_form string c Hl Hp) in Hspec as [(values & Hc & Hv) _].
    apply components_rgb in Hc as (red & green & blue & Hr & Hg & Hb & Hdrop & ->).
    cbn [map] in Hv. rewrite (LOBYTE_values false red green blue Hr Hg Hb : rgb _ _ _ = _) in Hv. subst c.
    rewrite <- (take_drop 4 string), Hdrop. by constructor.
  - assert (exists n rest, string = 0x23 :: rest /\ (1 <= n <= 4)%nat /\ length rest = (3 * n)%nat)
      as (n & rest & -> & Hn & Hrest).
    { revert Hspec. unfold ColorFromXParseColorSpec.
      destruct (_ && bool_decide (map _ _ = _)) eqn:Hr.
      { apply andb_prop in Hr as [Hr1 Hr2]. apply Nat.ltb_lt in Hr1. apply bool_decide_eq_true in Hr2. tauto. }
      cbn [andb negb orb]. destruct (_ && bool_decide (string !! 0%nat = _)) eqn:Hs; [|done].
      apply andb_prop in Hs as [_ Hs]. apply bool_decide_eq_true in Hs.
      destruct string as [|h rest]; [done|]. injection Hs as ->. cbn [andb length].
      destruct (negb _) eqn:Hlen; [done|]. intros _.
      apply negb_false_iff in Hlen. rewrite !orb_true_iff, !Nat.eqb_eq in Hlen.
      assert (length rest = 3 \/ length rest = 6 \/ length rest = 9 \/ length rest = 12)%nat as [|[|[|]]] by lia;
        [exists 1%nat|exists 2%nat|exists 3%nat|exists 4%nat]; exists rest; (split; [done|lia]). }
    destruct (proj1 (spec_sharp_form n rest c Hn Hrest) Hspec) as (values & Hc & Hv).
    assert (exists red green blue, rest = red ++ green ++ blue
              /\ length red = n /\ length green = n /\ length blue = n) as (red & green & blue & -> & ? & ? & ?).
    { exists (take n rest), (take n (drop n rest)), (drop n (drop n rest)). rewrite !take_drop.
      repeat split; rewrite ?length_take, ?length_drop; lia. }
    apply components_sharp_all in Hc as (Hr & Hg & Hb & ->); [|done..].
    cbn [map] in Hv. rewrite (LOBYTE_values true _ _ _ Hr Hg Hb : rgb _ _ _ = _) in Hv. subst c.
    apply (XParseColor_sharp red); congruence.
Qed.

Lemma ColorFromXParseColorSpec_complete string c :
  XParseColor string c -> ColorFromXParseColorSpec string = Some c.
Proof.
  intros [prefix red green blue Hp Hr Hg Hb|red green blue H1 H2 Hr Hg Hb].
  - destruct (XParseColor_rgb_size prefix red green blue Hp Hr Hg Hb) as (Ht & Hd & Hl).
    apply spec_rgb_form; [lia|by rewrite Ht|]. split; [|done]. rewrite Hd.
    eexists. split; [by apply components_rgb; exists red, green, blue|].
    symmetry. exact (LOBYTE_values false red green blue Hr Hg Hb).
  - destruct Hb as [Hl Hbh]. apply (spec_sharp_form (length blue)); [done|rewrite !length_app; lia|].
    eexists. split; [by apply components_sharp_all; [done|lia|lia|done|]|].
    symmetry. exact (LOBYTE_values true red green blue Hr Hg (conj Hl Hbh)).
Qed.

(** ** Bytes and percentages, by enumeration *)
Lemma byte_enumerate (P : Z -> Prop) `{!forall v, Decision (P v)} n :
  forallb (fun v => bool_decide (P v)) (map Z.of_nat (seq 0 n)) = true ->
  forall v, 0 <= v < Z.of_nat n -> P v.
Proof.
  intros Hall v Hv. rewrite forallb_forall in Hall. apply (bool_decide_eq_true (P v)), Hall.
  replace v with (Z.of_nat (Z.to_nat v)) by lia. apply in_map, in_seq. lia.
Qed.

Lemma stoul_format v : 0 <= v < 256 -> stoul16 (format02X v) = Some v.
Proof. apply (byte_enumerate (fun v => stoul16 (format02X v) = Some v) 256). by vm_compute. Qed.

Lemma percent_roundtrip v :
  0 <= v <= 100 ->
  let at_ v := default 0 (scale100To255 !! clampPercent v) in
  default 0 (scale255To100 !! Z.to_nat (at_ v)) = v /\ is_byte (at_ v).
Proof.
  intros Hv at_.
  apply (byte_enumerate (fun v => default 0 (scale255To100 !! Z.to_nat (at_ v)) = v /\ is_byte (at_ v)) 101);
    [by vm_compute|lia].
Qed.

(** ** The properties *)

(** The colour specifications recognised are exactly those of XParseColor:
    [rgb:] (in any case) and three components of one to four hexadecimal digits
    separated by slashes, or [#] and three components of equal length; each
    component contributes its most significant byte. Everything else is refused. *)
Theorem xparse_color_exact (string : wstring) (c : color) :
  ColorFromXParseColorSpec string = Some c <-> XParseColor string c.
Proof. split; [apply ColorFromXParseColorSpec_sound|apply ColorFromXParseColorSpec_complete]. Qed.

(** The percentage form of a colour loses nothing: for percentages from 0 to
    100, the colour built from them has byte components and converts back to the
    same percentages. *)
Theorem color_rgb100_roundtrip (red green blue : Z)
    (Hred : 0 <= red <= 100) (Hgreen : 0 <= green <= 100) (Hblue : 0 <= blue <= 100) :
  is_color (ColorFromRGB100 red green blue)
  /\ ColorToRGB100 (ColorFromRGB100 red green blue) = (red, green, blue).
Proof.
  destruct (percent_roundtrip red Hred) as [Hr Hbr], (percent_roundtrip green Hgreen) as [Hg Hbg],
    (percent_roundtrip blue Hblue) as [Hb Hbb].
  unfold ColorFromRGB100, ColorToRGB100, rgb, is_color. cbn [color_r color_g color_b color_a].
  by rewrite Hr, Hg, Hb.
Qed.

Lemma color_rgb100_roundtrip_witness :
  ColorToRGB100 (ColorFromRGB100 33 0 100) = (33, 0, 100).
Proof. apply (color_rgb100_roundtrip 33 0 100); lia. Defined.

(** The hexadecimal form of a colour parses back to the opaque colour. *)
Theorem color_hex_roundtrip (c : color) (Hc : is_color c) :
  ColorFromHexString (ColorToHexString c) = Some (rgb (color_r c) (color_g c) (color_b c)).
Proof.
  destruct c as [cr cg cb ca], Hc as (Hr & Hg & Hb & _). cbn [color_r color_g color_b] in *.
  unfold ColorFromHexString, ColorToHexString, hexComponents. cbn [app format02X Z.eqb Pos.eqb color_r color_g color_b].
  fold (format02X cr) (format02X cg) (format02X cb). rewrite !stoul_format by done.
  change (stoul16 (L "ff")) with (Some 255). by rewrite !wrap_small by (try done; lia).
Qed.

Lemma color_hex_roundtrip_witness :
  is_color (rgb 18 52 255) /\ ColorFromHexString (ColorToHexString (rgb 18 52 255)) = Some (rgb 18 52 255).
Proof. split; [by_decide|]. apply (color_hex_roundtrip (rgb 18 52 255)). by_decide. Defined.
