(* ===== verification/LineRenditions.v ===== *)
(** * Line renditions

    [src/buffer/out/LineRendition.hpp]: the scaling with which a line is shown, and the
    conversions between the columns of the buffer and those of the screen. Coordinates
    are 32-bit integers ([til::CoordType]). *)
From S2P Require Import Prelude.

Inductive LineRendition := SingleWidth | DoubleWidth | DoubleHeightTop | DoubleHeightBottom.
#[export] Instance LineRendition_eq_dec : EqDecision LineRendition.
Proof. solve_decision. Defined.

(** [til::point], [til::rect] and [til::inclusive_rect] of [src/inc/til]. *)
Record point := mkPoint { pt_x : Z; pt_y : Z }.
Record rect := mkRect { rc_left : Z; rc_top : Z; rc_right : Z; rc_bottom : Z }.

#[export] Instance point_eq_dec : EqDecision point.
Proof. solve_decision. Defined.

Definition line_scale (r : LineRendition) : Z := match r with SingleWidth => 0 | _ => 1 end.

Definition ScreenToBufferLine (line : rect) (r : LineRendition) : rect :=
  mkRect (Z.shiftr (rc_left line) (line_scale r)) (rc_top line) (Z.shiftr (rc_right line) (line_scale r)) (rc_bottom line).

Definition ScreenToBufferLineInclusive (line : point) (r : LineRendition) : point :=
  mkPoint (Z.shiftr (pt_x line) (line_scale r)) (pt_y line).

Definition BufferToScreenLine (line : rect) (r : LineRendition) : rect :=
  mkRect (int32 (Z.shiftl (rc_left line) (line_scale r))) (rc_top line) (int32 (Z.shiftl (rc_right line) (line_scale r))) (rc_bottom line).

Definition BufferToScreenLineInclusive (line : rect) (r : LineRendition) : rect :=
  mkRect (int32 (Z.shiftl (rc_left line) (line_scale r))) (rc_top line)
    (int32 (int32 (Z.shiftl (rc_right line) (line_scale r)) + line_scale r)) (rc_bottom line).
