(* ===== verification/ITermDispatch.v ===== *)
(** * The dispatch interface of the output engine

    Models [src/terminal/adapter/ITermDispatch.hpp]. A call of a member function of
    the interface is a value: [ITermDispatch.Call] for those that return nothing,
    [ITermDispatch.StringCall] for those that return a [StringHandler]. A dispatcher
    is an instance of the class [TermDispatch], which executes calls. Enumerations
    whose values come straight from numeric parameters are numbers here, as they
    are in the source. *)
From S2P Require Import Prelude DispatchTypes StateMachine LineRenditions.

(** [DispatchTypes::LineFeedType] *)
Inductive LineFeedType := WithReturn | WithoutReturn | DependsOnMode.

(** Other constants of [DispatchTypes] the output engine names. *)
Definition EraseType_ToEnd : Z := 0.
Definition CharacterSets_DecSpecialGraphics : Z := vtid "0".
Definition CharacterSets_ASCII : Z := vtid "B".
Definition DECANM_AnsiMode : Z := Z.lor 2 0x01000000.

Module ITermDispatch.

Inductive Call :=
| UnknownSequence
| Print (wchPrintable : wchar_t)
| PrintString (string : wstring)
| CursorUp (distance : Z)
| CursorDown (distance : Z)
| CursorForward (distance : Z)
| CursorBackward (distance : Z)
| CursorNextLine (distance : Z)
| CursorPrevLine (distance : Z)
| CursorHorizontalPositionAbsolute (column : Z)
| VerticalLinePositionAbsolute (line : Z)
| HorizontalPositionRelative (distance : Z)
| VerticalPositionRelative (distance : Z)
| CursorPosition (line column : Z)
| CursorSaveState
| CursorRestoreState
| InsertCharacter (count : Z)
| DeleteCharacter (count : Z)
| ScrollUp (distance : Z)
| ScrollDown (distance : Z)
| NextPage (pageCount : Z)
| PrecedingPage (pageCount : Z)
| PagePositionAbsolute (page : Z)
| PagePositionRelative (pageCount : Z)
| PagePositionBack (pageCount : Z)
| RequestDisplayedExtent
| InsertLine (distance : Z)
| DeleteLine (distance : Z)
| InsertColumn (distance : Z)
| DeleteColumn (distance : Z)
| SetKeypadMode (applicationMode : bool)
| SetAnsiMode (ansiMode : bool)
| SetKittyKeyboardProtocol (flags mode : VTParameter)
| QueryKittyKeyboardProtocol
| PushKittyKeyboardProtocol (flags : VTParameter)
| PopKittyKeyboardProtocol (count : VTParameter)
| SetTopBottomScrollingMargins (topMargin bottomMargin : Z)
| SetLeftRightScrollingMargins (leftMargin rightMargin : Z)
| EnquireAnswerback
| WarningBell
| CarriageReturn
| LineFeed (lineFeedType : LineFeedType)
| ReverseLineFeed
| BackIndex
| ForwardIndex
| SetWindowTitle (title : wstring)
| SetCurrentWorkingDirectory (uri : wstring)
| HorizontalTabSet
| ForwardTab (numTabs : Z)
| BackwardsTab (numTabs : Z)
| TabClear (clearType : Z)
| TabSet (setType : VTParameter)
| SetColorTableEntry (tableIndex color : Z)
| RequestColorTableEntry (tableIndex : Z)
| ResetColorTable
| ResetColorTableEntry (tableIndex : Z)
| SetXtermColorResource (resource color : Z)
| RequestXtermColorResource (resource : Z)
| ResetXtermColorResource (resource : Z)
| AssignColor (item fgIndex bgIndex : Z)
| EraseInDisplay (eraseType : Z)
| EraseInLine (eraseType : Z)
| EraseCharacters (numChars : Z)
| SelectiveEraseInDisplay (eraseType : Z)
| SelectiveEraseInLine (eraseType : Z)
| ChangeAttributesRectangularArea (top left bottom right : Z) (attrs : VTParameters)
| ReverseAttributesRectangularArea (top left bottom right : Z) (attrs : VTParameters)
| CopyRectangularArea (top left bottom right page dstTop dstLeft dstPage : Z)
| FillRectangularArea (ch : VTParameter) (top left bottom right : Z)
| EraseRectangularArea (top left bottom right : Z)
| SelectiveEraseRectangularArea (top left bottom right : Z)
| SelectAttributeChangeExtent (changeExtent : Z)
| RequestChecksumRectangularArea (id page top left bottom right : Z)
| SetGraphicsRendition (options : VTParameters)
| SetLineRendition (rendition : LineRendition)
| SetCharacterProtectionAttribute (options : VTParameters)
| PushGraphicsRendition (options : VTParameters)
| PopGraphicsRendition
| SetMode (param : Z)
| ResetMode (param : Z)
| RequestMode (param : Z)
| DeviceStatusReport (statusType : Z) (id : VTParameter)
| DeviceAttributes
| SecondaryDeviceAttributes
| TertiaryDeviceAttributes
| Vt52DeviceAttributes
| RequestTerminalParameters (permission : Z)
| DesignateCodingSystem (codingSystem : Z)
| Designate94Charset (gsetNumber charset : Z)
| Designate96Charset (gsetNumber charset : Z)
| LockingShift (gsetNumber : Z)
| LockingShiftRight (gsetNumber : Z)
| SingleShift (gsetNumber : Z)
| AcceptC1Controls (enabled : bool)
| SendC1Controls (enabled : bool)
| AnnounceCodeStructure (ansiLevel : Z)
| SoftReset
| HardReset (erase : bool)
| ScreenAlignmentPattern
| SetCursorStyle (cursorStyle : Z)
| SetClipboard (content : wstring)
| WindowManipulation (function : Z) (parameter1 parameter2 : VTParameter)
| AddHyperlink (uri params : wstring)
| EndHyperlink
| DoConEmuAction (string : wstring)
| DoITerm2Action (string : wstring)
| DoFinalTermAction (string : wstring)
| DoVsCodeAction (string : wstring)
| DoWTAction (string : wstring)
| DoUrxvtAction (string : wstring)
| RequestUserPreferenceCharset
| InvokeMacro (macroId : Z)
| RequestTerminalStateReport (format : Z) (formatOption : VTParameter)
| RequestPresentationStateReport (format : Z)
| PlaySounds (parameters : VTParameters)
| SetOptionalFeatures (features : enumset.t).

Inductive StringCall :=
| DefineSixelImage (macroParameter backgroundSelect : Z) (backgroundColor : VTParameter)
| DownloadDRCS (fontNumber : Z) (startChar : VTParameter) (eraseControl cellMatrix fontSet fontUsage
    : Z) (cellHeight : VTParameter) (charsetSize : Z)
| AssignUserPreferenceCharset (charsetSize : Z)
| DefineMacro (macroId deleteControl encoding : Z)
| RestoreTerminalState (format : Z)
| RequestSetting
| RestorePresentationState (format : Z).

End ITermDispatch.

(** ** Sequencing of actions

    An engine action runs other actions one after the other. What an earlier one
    asked of the parser is in force when a later one looks at it. *)
Definition viewAfter {CB} (requests : list (Request CB)) (v : EngineView) : EngineView :=
  fold_left (fun v r =>
    match r with
    | SetParserModeRequest mode enabled =>
        mkEngineView (enumset.set (ev_parserMode v) (Mode_bit mode) enabled) (ev_processingLastCharacter v)
    | _ => v
    end) requests v.

Section EngineAction.
Context {E CB : Type}.

Definition act_ret {A} (a : A) : EngineAction E CB A := fun _ e => (e, [], Returned a).
Definition act_bind {A B} (m : EngineAction E CB A) (f : A -> EngineAction E CB B) : EngineAction E CB B :=
  fun v e =>
    match m v e with
    | (e', requests, Returned a) =>
        let '(e2, requests', outcome) := f a (viewAfter requests v) e' in
        (e2, requests ++ requests', outcome)
    | (e', requests, Threw) => (e', requests, Threw)
    end.
Definition act_modify (f : E -> E) : EngineAction E CB unit := fun _ e => (f e, [], Returned tt).
Definition act_gets {A} (f : E -> A) : EngineAction E CB A := fun _ e => (e, [], Returned (f e)).

End EngineAction.

(** ** A dispatcher

    [H] is the type of its string handlers, [CB] of the CSI-complete callbacks it
    registers with the parser. *)
Class TermDispatch (D H CB : Type) : Type := {
  (** [UnknownSequence] is [noexcept]; the engine also calls it outside of actions. *)
  unknownSequence : D -> D;
  (** The other members. *)
  memberCall : ITermDispatch.Call -> EngineAction D CB unit;
  stringCall : ITermDispatch.StringCall -> EngineAction D CB (option H);
  handler_call : H -> wchar_t -> EngineAction D CB bool;
  callback_call : CB -> D -> D * option wstring;
  callback_exit : CB -> D -> D
}.

Definition call {D H CB} {dispatch : TermDispatch D H CB} (c : ITermDispatch.Call) : EngineAction D CB unit :=
  match c with
  | ITermDispatch.UnknownSequence => act_modify unknownSequence
  | c => memberCall c
  end.
