(* ===== verification/OutputEngine.v ===== *)
(** * The output engine

    Models [src/terminal/parser/OutputStateMachineEngine.cpp] and its header: what a
    terminal does with the actions of the parser. Every action computes the calls it
    makes on the dispatcher ([ITermDispatch]) and makes them in order; the only
    state of its own is the last printed character, for REP. The calls are pure
    functions of the arguments ([escCalls], [csiCalls], [oscCalls], ...), so that
    what reaches the dispatcher can be stated and proved for every sequence. *)
From S2P Require Import Prelude LineRenditions DispatchTypes StateMachine.
From S2P Require Import Strings Base64 ColorTable Colors ITermDispatch.

(** ** The action codes *)
Module EscActionCodes.
Definition DECBI_BackIndex := vtid "6".
Definition DECSC_CursorSave := vtid "7".
Definition DECRC_CursorRestore := vtid "8".
Definition DECFI_ForwardIndex := vtid "9".
Definition DECKPAM_KeypadApplicationMode := vtid "=".
Definition DECKPNM_KeypadNumericMode := vtid ">".
Definition IND_Index := vtid "D".
Definition NEL_NextLine := vtid "E".
Definition HTS_HorizontalTabSet := vtid "H".
Definition RI_ReverseLineFeed := vtid "M".
Definition SS2_SingleShift := vtid "N".
Definition SS3_SingleShift := vtid "O".
Definition DECID_IdentifyDevice := vtid "Z".
Definition ST_StringTerminator := vtid "\".
Definition RIS_ResetToInitialState := vtid "c".
Definition LS2_LockingShift := vtid "n".
Definition LS3_LockingShift := vtid "o".
Definition LS1R_LockingShift := vtid "~".
Definition LS2R_LockingShift := vtid "}".
Definition LS3R_LockingShift := vtid "|".
Definition DECAC1_AcceptC1Controls := vtid " 7".
Definition S7C1T_Send7bitC1Controls := vtid " F".
Definition S8C1T_Send8bitC1Controls := vtid " G".
Definition ACS_AnsiLevel1 := vtid " L".
Definition ACS_AnsiLevel2 := vtid " M".
Definition ACS_AnsiLevel3 := vtid " N".
Definition DECDHL_DoubleHeightLineTop := vtid "#3".
Definition DECDHL_DoubleHeightLineBottom := vtid "#4".
Definition DECSWL_SingleWidthLine := vtid "#5".
Definition DECDWL_DoubleWidthLine := vtid "#6".
Definition DECALN_ScreenAlignmentPattern := vtid "#8".
End EscActionCodes.

Module CsiActionCodes.
Definition ICH_InsertCharacter := vtid "@".
Definition CUU_CursorUp := vtid "A".
Definition CUD_CursorDown := vtid "B".
Definition CUF_CursorForward := vtid "C".
Definition CUB_CursorBackward := vtid "D".
Definition CNL_CursorNextLine := vtid "E".
Definition CPL_CursorPrevLine := vtid "F".
Definition CHA_CursorHorizontalAbsolute := vtid "G".
Definition CUP_CursorPosition := vtid "H".
Definition CHT_CursorForwardTab := vtid "I".
Definition ED_EraseDisplay := vtid "J".
Definition DECSED_SelectiveEraseDisplay := vtid "?J".
Definition EL_EraseLine := vtid "K".
Definition DECSEL_SelectiveEraseLine := vtid "?K".
Definition IL_InsertLine := vtid "L".
Definition DL_DeleteLine := vtid "M".
Definition DCH_DeleteCharacter := vtid "P".
Definition SU_ScrollUp := vtid "S".
Definition SD_ScrollDown := vtid "T".
Definition NP_NextPage := vtid "U".
Definition PP_PrecedingPage := vtid "V".
Definition DECST8C_SetTabEvery8Columns := vtid "?W".
Definition ECH_EraseCharacters := vtid "X".
Definition CBT_CursorBackTab := vtid "Z".
Definition HPA_HorizontalPositionAbsolute := vtid "`".
Definition HPR_HorizontalPositionRelative := vtid "a".
Definition REP_RepeatCharacter := vtid "b".
Definition DA_DeviceAttributes := vtid "c".
Definition DA2_SecondaryDeviceAttributes := vtid ">c".
Definition DA3_TertiaryDeviceAttributes := vtid "=c".
Definition VPA_VerticalLinePositionAbsolute := vtid "d".
Definition VPR_VerticalPositionRelative := vtid "e".
Definition HVP_HorizontalVerticalPosition := vtid "f".
Definition TBC_TabClear := vtid "g".
Definition SM_SetMode := vtid "h".
Definition DECSET_PrivateModeSet := vtid "?h".
Definition RM_ResetMode := vtid "l".
Definition DECRST_PrivateModeReset := vtid "?l".
Definition SGR_SetGraphicsRendition := vtid "m".
Definition DSR_DeviceStatusReport := vtid "n".
Definition DSR_PrivateDeviceStatusReport := vtid "?n".
Definition DECSTBM_SetTopBottomMargins := vtid "r".
Definition DECSLRM_SetLeftRightMargins := vtid "s".
Definition DTTERM_WindowManipulation := vtid "t".
Definition ANSISYSRC_CursorRestore := vtid "u".
Definition DECREQTPARM_RequestTerminalParameters := vtid "x".
Definition PPA_PagePositionAbsolute := vtid " P".
Definition PPR_PagePositionRelative := vtid " Q".
Definition PPB_PagePositionBack := vtid " R".
Definition DECSCUSR_SetCursorStyle := vtid " q".
Definition DECSTR_SoftReset := vtid "!p".
Definition DECSCA_SetCharacterProtectionAttribute := VTID._FromString (0x22 :: L "q").
Definition DECRQDE_RequestDisplayedExtent := VTID._FromString (0x22 :: L "v").
Definition XT_PushSgrAlias := vtid "#p".
Definition XT_PopSgrAlias := vtid "#q".
Definition XT_PushSgr := vtid "#{".
Definition XT_PopSgr := vtid "#}".
Definition DECRQM_RequestMode := vtid "$p".
Definition DECRQM_PrivateRequestMode := vtid "?$p".
Definition DECCARA_ChangeAttributesRectangularArea := vtid "$r".
Definition DECRARA_ReverseAttributesRectangularArea := vtid "$t".
Definition DECRQTSR_RequestTerminalStateReport := vtid "$u".
Definition DECCRA_CopyRectangularArea := vtid "$v".
Definition DECRQPSR_RequestPresentationStateReport := vtid "$w".
Definition DECFRA_FillRectangularArea := vtid "$x".
Definition DECERA_EraseRectangularArea := vtid "$z".
Definition DECSERA_SelectiveEraseRectangularArea := vtid "${".
Definition DECSCPP_SetColumnsPerPage := vtid "$|".
Definition DECRQUPSS_RequestUserPreferenceSupplementalSet := vtid "&u".
Definition DECIC_InsertColumn := vtid "'}".
Definition DECDC_DeleteColumn := vtid "'~".
Definition DECSACE_SelectAttributeChangeExtent := vtid "*x".
Definition DECRQCRA_RequestChecksumRectangularArea := vtid "*y".
Definition DECINVM_InvokeMacro := vtid "*z".
Definition DECAC_AssignColor := vtid ",|".
Definition DECPS_PlaySound := vtid ",~".
Definition KKP_KittyKeyboardSet := vtid "=u".
Definition KKP_KittyKeyboardQuery := vtid "?u".
Definition KKP_KittyKeyboardPush := vtid ">u".
Definition KKP_KittyKeyboardPop := vtid "<u".
End CsiActionCodes.

Module DcsActionCodes.
Definition SIXEL_DefineImage := vtid "q".
Definition DECDLD_DownloadDRCS := vtid "{".
Definition DECAUPSS_AssignUserPreferenceSupplementalSet := vtid "!u".
Definition DECDMAC_DefineMacro := vtid "!z".
Definition DECRSTS_RestoreTerminalState := vtid "$p".
Definition DECRQSS_RequestSetting := vtid "$q".
Definition DECRSPS_RestorePresentationState := vtid "$t".
End DcsActionCodes.

Module Vt52ActionCodes.
Definition CursorUp := vtid "A".
Definition CursorDown := vtid "B".
Definition CursorRight := vtid "C".
Definition CursorLeft := vtid "D".
Definition EnterGraphicsMode := vtid "F".
Definition ExitGraphicsMode := vtid "G".
Definition CursorToHome := vtid "H".
Definition ReverseLineFeed := vtid "I".
Definition EraseToEndOfScreen := vtid "J".
Definition EraseToEndOfLine := vtid "K".
Definition DirectCursorAddress := vtid "Y".
Definition Identify := vtid "Z".
Definition EnterAlternateKeypadMode := vtid "=".
Definition ExitAlternateKeypadMode := vtid ">".
Definition ExitVt52Mode := vtid "<".
End Vt52ActionCodes.

Module OscActionCodes.
Definition SetIconAndWindowTitle := 0.
Definition SetWindowIcon := 1.
Definition SetWindowTitle := 2.
Definition SetWindowProperty := 3.
Definition SetColor := 4.
Definition CurrentWorkingDirectory := 7.
Definition Hyperlink := 8.
Definition ConEmuAction := 9.
Definition SetForegroundColor := 10.
Definition SetBackgroundColor := 11.
Definition SetCursorColor := 12.
Definition SetHighlightColor := 17.
Definition DECSWT_SetWindowTitle := 21.
Definition SetClipboard := 52.
Definition ResetColor := 104.
Definition ResetForegroundColor := 110.
Definition ResetBackgroundColor := 111.
Definition ResetCursorColor := 112.
Definition ResetHighlightColor := 117.
Definition FinalTermAction := 133.
Definition VsCodeAction := 633.
Definition UrxvtAction := 777.
Definition ITerm2Action := 1337.
Definition WTAction := 9001.
End OscActionCodes.

(** ** Escape, VT52, control and device control sequences *)

(** The [case] labels of [ActionEscDispatch] with the calls of their bodies. *)
Definition escCases : list (Z * list ITermDispatch.Call) :=
  [(EscActionCodes.ST_StringTerminator, []);
   (EscActionCodes.DECBI_BackIndex, [ITermDispatch.BackIndex]);
   (EscActionCodes.DECSC_CursorSave, [ITermDispatch.CursorSaveState]);
   (EscActionCodes.DECRC_CursorRestore, [ITermDispatch.CursorRestoreState]);
   (EscActionCodes.DECFI_ForwardIndex, [ITermDispatch.ForwardIndex]);
   (EscActionCodes.DECKPAM_KeypadApplicationMode, [ITermDispatch.SetKeypadMode true]);
   (EscActionCodes.DECKPNM_KeypadNumericMode, [ITermDispatch.SetKeypadMode false]);
   (EscActionCodes.NEL_NextLine, [ITermDispatch.LineFeed WithReturn]);
   (EscActionCodes.IND_Index, [ITermDispatch.LineFeed WithoutReturn]);
   (EscActionCodes.RI_ReverseLineFeed, [ITermDispatch.ReverseLineFeed]);
   (EscActionCodes.HTS_HorizontalTabSet, [ITermDispatch.HorizontalTabSet]);
   (EscActionCodes.DECID_IdentifyDevice, [ITermDispatch.DeviceAttributes]);
   (EscActionCodes.RIS_ResetToInitialState, [ITermDispatch.HardReset true]);
   (EscActionCodes.SS2_SingleShift, [ITermDispatch.SingleShift 2]);
   (EscActionCodes.SS3_SingleShift, [ITermDispatch.SingleShift 3]);
   (EscActionCodes.LS2_LockingShift, [ITermDispatch.LockingShift 2]);
   (EscActionCodes.LS3_LockingShift, [ITermDispatch.LockingShift 3]);
   (EscActionCodes.LS1R_LockingShift, [ITermDispatch.LockingShiftRight 1]);
   (EscActionCodes.LS2R_LockingShift, [ITermDispatch.LockingShiftRight 2]);
   (EscActionCodes.LS3R_LockingShift, [ITermDispatch.LockingShiftRight 3]);
   (EscActionCodes.DECAC1_AcceptC1Controls, [ITermDispatch.AcceptC1Controls true]);
   (EscActionCodes.S7C1T_Send7bitC1Controls, [ITermDispatch.SendC1Controls false]);
   (EscActionCodes.S8C1T_Send8bitC1Controls, [ITermDispatch.SendC1Controls true]);
   (EscActionCodes.ACS_AnsiLevel1, [ITermDispatch.AnnounceCodeStructure 1]);
   (EscActionCodes.ACS_AnsiLevel2, [ITermDispatch.AnnounceCodeStructure 2]);
   (EscActionCodes.ACS_AnsiLevel3, [ITermDispatch.AnnounceCodeStructure 3]);
   (EscActionCodes.DECDHL_DoubleHeightLineTop, [ITermDispatch.SetLineRendition DoubleHeightTop]);
   (EscActionCodes.DECDHL_DoubleHeightLineBottom, [ITermDispatch.SetLineRendition DoubleHeightBottom]);
   (EscActionCodes.DECSWL_SingleWidthLine, [ITermDispatch.SetLineRendition SingleWidth]);
   (EscActionCodes.DECDWL_DoubleWidthLine, [ITermDispatch.SetLineRendition DoubleWidth]);
   (EscActionCodes.DECALN_ScreenAlignmentPattern, [ITermDispatch.ScreenAlignmentPattern])].

(** The [default] label: the designation of character sets and coding systems. *)
Definition escDefault (id : Z) : list ITermDispatch.Call :=
  let commandChar := VTID.at_ id 0 in
  let commandParameter := VTID.SubSequence id 1 in
  switch commandChar
    [(0x25, [ITermDispatch.DesignateCodingSystem commandParameter]);
     (0x28, [ITermDispatch.Designate94Charset 0 commandParameter]);
     (0x29, [ITermDispatch.Designate94Charset 1 commandParameter]);
     (0x2A, [ITermDispatch.Designate94Charset 2 commandParameter]);
     (0x2B, [ITermDispatch.Designate94Charset 3 commandParameter]);
     (0x2D, [ITermDispatch.Designate96Charset 1 commandParameter]);
     (0x2E, [ITermDispatch.Designate96Charset 2 commandParameter]);
     (0x2F, [ITermDispatch.Designate96Charset 3 commandParameter])]
    [].

Definition escCalls (id : Z) : list ITermDispatch.Call := switch id escCases (escDefault id).

(** The conversions of a parameter to the type of the argument it is passed for:
    [VTInt] (0 and omitted are 1), an enumeration (omitted is 0), [value_or(0)], or
    the parameter itself. *)
Definition vtInt (parameters : VTParameters) (index : nat) : Z :=
  VTParameter.to_VTInt (VTParameters.at_ parameters index).
Definition vtEnum (parameters : VTParameters) (index : nat) : Z :=
  VTParameter.to_enum (VTParameters.at_ parameters index).
Definition vtOr0 (parameters : VTParameters) (index : nat) : Z :=
  VTParameter.value_or (VTParameters.at_ parameters index) 0.
Definition vtParam (parameters : VTParameters) (index : nat) : VTParameter :=
  VTParameters.at_ parameters index.

Definition vt52Cases (parameters : VTParameters) : list (Z * list ITermDispatch.Call) :=
  [(Vt52ActionCodes.CursorUp, [ITermDispatch.CursorUp 1]);
   (Vt52ActionCodes.CursorDown, [ITermDispatch.CursorDown 1]);
   (Vt52ActionCodes.CursorRight, [ITermDispatch.CursorForward 1]);
   (Vt52ActionCodes.CursorLeft, [ITermDispatch.CursorBackward 1]);
   (Vt52ActionCodes.EnterGraphicsMode, [ITermDispatch.Designate94Charset 0
     CharacterSets_DecSpecialGraphics]);
   (Vt52ActionCodes.ExitGraphicsMode, [ITermDispatch.Designate94Charset 0 CharacterSets_ASCII]);
   (Vt52ActionCodes.CursorToHome, [ITermDispatch.CursorPosition 1 1]);
   (Vt52ActionCodes.ReverseLineFeed, [ITermDispatch.ReverseLineFeed]);
   (Vt52ActionCodes.EraseToEndOfScreen, [ITermDispatch.EraseInDisplay EraseType_ToEnd]);
   (Vt52ActionCodes.EraseToEndOfLine, [ITermDispatch.EraseInLine EraseType_ToEnd]);
   (Vt52ActionCodes.DirectCursorAddress, [ITermDispatch.CursorPosition (VTParameter.value (vtParam
     parameters 0) - 0x20 + 1) (VTParameter.value (vtParam parameters 1) - 0x20 + 1)]);
   (Vt52ActionCodes.Identify, [ITermDispatch.Vt52DeviceAttributes]);
   (Vt52ActionCodes.EnterAlternateKeypadMode, [ITermDispatch.SetKeypadMode true]);
   (Vt52ActionCodes.ExitAlternateKeypadMode, [ITermDispatch.SetKeypadMode false]);
   (Vt52ActionCodes.ExitVt52Mode, [ITermDispatch.SetMode DECANM_AnsiMode])].
Definition vt52Calls (id : Z) (parameters : VTParameters) : list ITermDispatch.Call :=
  switch id (vt52Cases parameters) [].

(** REP, which the engine handles itself. *)
Definition repeatCalls (parameters : VTParameters) (lastPrintedChar : wchar_t) : list ITermDispatch.Call :=
  if negb (lastPrintedChar =? AsciiChars.NUL)
  then [ITermDispatch.PrintString (repeat lastPrintedChar (Z.to_nat (vtInt parameters 0)))]
  else [].

(** The [case] labels of [ActionCsiDispatch], in two parts. *)
Definition csiCursorCases (parameters : VTParameters) : list (Z * list ITermDispatch.Call) :=
  [(CsiActionCodes.CUU_CursorUp, [ITermDispatch.CursorUp (vtInt parameters 0)]);
   (CsiActionCodes.CUD_CursorDown, [ITermDispatch.CursorDown (vtInt parameters 0)]);
   (CsiActionCodes.CUF_CursorForward, [ITermDispatch.CursorForward (vtInt parameters 0)]);
   (CsiActionCodes.CUB_CursorBackward, [ITermDispatch.CursorBackward (vtInt parameters 0)]);
   (CsiActionCodes.CNL_CursorNextLine, [ITermDispatch.CursorNextLine (vtInt parameters 0)]);
   (CsiActionCodes.CPL_CursorPrevLine, [ITermDispatch.CursorPrevLine (vtInt parameters 0)]);
   (CsiActionCodes.CHA_CursorHorizontalAbsolute, [ITermDispatch.CursorHorizontalPositionAbsolute (vtInt
     parameters 0)]);
   (CsiActionCodes.HPA_HorizontalPositionAbsolute, [ITermDispatch.CursorHorizontalPositionAbsolute
     (vtInt parameters 0)]);
   (CsiActionCodes.VPA_VerticalLinePositionAbsolute, [ITermDispatch.VerticalLinePositionAbsolute (vtInt
     parameters 0)]);
   (CsiActionCodes.HPR_HorizontalPositionRelative, [ITermDispatch.HorizontalPositionRelative (vtInt
     parameters 0)]);
   (CsiActionCodes.VPR_VerticalPositionRelative, [ITermDispatch.VerticalPositionRelative (vtInt
     parameters 0)]);
   (CsiActionCodes.CUP_CursorPosition, [ITermDispatch.CursorPosition (vtInt parameters 0) (vtInt
     parameters 1)]);
   (CsiActionCodes.HVP_HorizontalVerticalPosition, [ITermDispatch.CursorPosition (vtInt parameters 0)
     (vtInt parameters 1)]);
   (CsiActionCodes.DECSTBM_SetTopBottomMargins, [ITermDispatch.SetTopBottomScrollingMargins (vtOr0
     parameters 0) (vtOr0 parameters 1)]);
   (CsiActionCodes.DECSLRM_SetLeftRightMargins, [ITermDispatch.SetLeftRightScrollingMargins (vtOr0
     parameters 0) (vtOr0 parameters 1)]);
   (CsiActionCodes.ICH_InsertCharacter, [ITermDispatch.InsertCharacter (vtInt parameters 0)]);
   (CsiActionCodes.DCH_DeleteCharacter, [ITermDispatch.DeleteCharacter (vtInt parameters 0)]);
   (CsiActionCodes.ED_EraseDisplay, map (fun eraseType => ITermDispatch.EraseInDisplay
     (VTParameter.to_enum eraseType)) (VTParameters.for_each parameters));
   (CsiActionCodes.DECSED_SelectiveEraseDisplay, map (fun eraseType =>
     ITermDispatch.SelectiveEraseInDisplay (VTParameter.to_enum eraseType)) (VTParameters.for_each
     parameters));
   (CsiActionCodes.EL_EraseLine, map (fun eraseType => ITermDispatch.EraseInLine (VTParameter.to_enum
     eraseType)) (VTParameters.for_each parameters));
   (CsiActionCodes.DECSEL_SelectiveEraseLine, map (fun eraseType => ITermDispatch.SelectiveEraseInLine
     (VTParameter.to_enum eraseType)) (VTParameters.for_each parameters));
   (CsiActionCodes.SM_SetMode, map (fun mode => ITermDispatch.SetMode (ANSIStandardMode mode))
     (VTParameters.for_each parameters));
   (CsiActionCodes.DECSET_PrivateModeSet, map (fun mode => ITermDispatch.SetMode (DECPrivateMode mode))
     (VTParameters.for_each parameters));
   (CsiActionCodes.RM_ResetMode, map (fun mode => ITermDispatch.ResetMode (ANSIStandardMode mode))
     (VTParameters.for_each parameters));
   (CsiActionCodes.DECRST_PrivateModeReset, map (fun mode => ITermDispatch.ResetMode (DECPrivateMode
     mode)) (VTParameters.for_each parameters));
   (CsiActionCodes.SGR_SetGraphicsRendition, [ITermDispatch.SetGraphicsRendition parameters]);
   (CsiActionCodes.DSR_DeviceStatusReport, [ITermDispatch.DeviceStatusReport (ANSIStandardStatus
     (vtParam parameters 0)) (vtParam parameters 1)]);
   (CsiActionCodes.DSR_PrivateDeviceStatusReport, [ITermDispatch.DeviceStatusReport (DECPrivateStatus
     (vtParam parameters 0)) (vtParam parameters 1)]);
   (CsiActionCodes.DA_DeviceAttributes, if vtOr0 parameters 0 =? 0 then
     [ITermDispatch.DeviceAttributes] else []);
   (CsiActionCodes.DA2_SecondaryDeviceAttributes, if vtOr0 parameters 0 =? 0 then
     [ITermDispatch.SecondaryDeviceAttributes] else []);
   (CsiActionCodes.DA3_TertiaryDeviceAttributes, if vtOr0 parameters 0 =? 0 then
     [ITermDispatch.TertiaryDeviceAttributes] else []);
   (CsiActionCodes.DECREQTPARM_RequestTerminalParameters, [ITermDispatch.RequestTerminalParameters
     (vtEnum parameters 0)])].
Definition csiOtherCases (parameters : VTParameters) (lastPrintedChar : wchar_t) :
    list (Z * list ITermDispatch.Call) :=
  [(CsiActionCodes.SU_ScrollUp, [ITermDispatch.ScrollUp (vtInt parameters 0)]);
   (CsiActionCodes.SD_ScrollDown, [ITermDispatch.ScrollDown (vtInt parameters 0)]);
   (CsiActionCodes.NP_NextPage, [ITermDispatch.NextPage (vtInt parameters 0)]);
   (CsiActionCodes.PP_PrecedingPage, [ITermDispatch.PrecedingPage (vtInt parameters 0)]);
   (CsiActionCodes.ANSISYSRC_CursorRestore, [ITermDispatch.CursorRestoreState]);
   (CsiActionCodes.IL_InsertLine, [ITermDispatch.InsertLine (vtInt parameters 0)]);
   (CsiActionCodes.DL_DeleteLine, [ITermDispatch.DeleteLine (vtInt parameters 0)]);
   (CsiActionCodes.CHT_CursorForwardTab, [ITermDispatch.ForwardTab (vtInt parameters 0)]);
   (CsiActionCodes.CBT_CursorBackTab, [ITermDispatch.BackwardsTab (vtInt parameters 0)]);
   (CsiActionCodes.TBC_TabClear, map (fun clearType => ITermDispatch.TabClear (VTParameter.to_enum
     clearType)) (VTParameters.for_each parameters));
   (CsiActionCodes.DECST8C_SetTabEvery8Columns, map (fun setType => ITermDispatch.TabSet setType)
     (VTParameters.for_each parameters));
   (CsiActionCodes.ECH_EraseCharacters, [ITermDispatch.EraseCharacters (vtInt parameters 0)]);
   (CsiActionCodes.DTTERM_WindowManipulation, [ITermDispatch.WindowManipulation (vtEnum parameters 0)
     (vtParam parameters 1) (vtParam parameters 2)]);
   (CsiActionCodes.REP_RepeatCharacter, repeatCalls parameters lastPrintedChar);
   (CsiActionCodes.PPA_PagePositionAbsolute, [ITermDispatch.PagePositionAbsolute (vtInt parameters 0)]);
   (CsiActionCodes.PPR_PagePositionRelative, [ITermDispatch.PagePositionRelative (vtInt parameters 0)]);
   (CsiActionCodes.PPB_PagePositionBack, [ITermDispatch.PagePositionBack (vtInt parameters 0)]);
   (CsiActionCodes.DECSCUSR_SetCursorStyle, [ITermDispatch.SetCursorStyle (vtEnum parameters 0)]);
   (CsiActionCodes.DECSTR_SoftReset, [ITermDispatch.SoftReset]);
   (CsiActionCodes.DECSCA_SetCharacterProtectionAttribute,
     [ITermDispatch.SetCharacterProtectionAttribute parameters]);
   (CsiActionCodes.DECRQDE_RequestDisplayedExtent, [ITermDispatch.RequestDisplayedExtent]);
   (CsiActionCodes.XT_PushSgr, [ITermDispatch.PushGraphicsRendition parameters]);
   (CsiActionCodes.XT_PushSgrAlias, [ITermDispatch.PushGraphicsRendition parameters]);
   (CsiActionCodes.XT_PopSgr, [ITermDispatch.PopGraphicsRendition]);
   (CsiActionCodes.XT_PopSgrAlias, [ITermDispatch.PopGraphicsRendition]);
   (CsiActionCodes.DECRQM_RequestMode, [ITermDispatch.RequestMode (ANSIStandardMode (vtParam parameters
     0))]);
   (CsiActionCodes.DECRQM_PrivateRequestMode, [ITermDispatch.RequestMode (DECPrivateMode (vtParam
     parameters 0))]);
   (CsiActionCodes.DECCARA_ChangeAttributesRectangularArea,
     [ITermDispatch.ChangeAttributesRectangularArea (vtInt parameters 0) (vtInt parameters 1) (vtOr0
     parameters 2) (vtOr0 parameters 3) (VTParameters.subspan parameters 4)]);
   (CsiActionCodes.DECRARA_ReverseAttributesRectangularArea,
     [ITermDispatch.ReverseAttributesRectangularArea (vtInt parameters 0) (vtInt parameters 1) (vtOr0
     parameters 2) (vtOr0 parameters 3) (VTParameters.subspan parameters 4)]);
   (CsiActionCodes.DECCRA_CopyRectangularArea, [ITermDispatch.CopyRectangularArea (vtInt parameters 0)
     (vtInt parameters 1) (vtOr0 parameters 2) (vtOr0 parameters 3) (vtInt parameters 4) (vtInt
     parameters 5) (vtInt parameters 6) (vtInt parameters 7)]);
   (CsiActionCodes.DECRQTSR_RequestTerminalStateReport, [ITermDispatch.RequestTerminalStateReport
     (vtEnum parameters 0) (vtParam parameters 1)]);
   (CsiActionCodes.DECRQPSR_RequestPresentationStateReport,
     [ITermDispatch.RequestPresentationStateReport (vtEnum parameters 0)]);
   (CsiActionCodes.DECFRA_FillRectangularArea, [ITermDispatch.FillRectangularArea (vtParam parameters
     0) (vtInt parameters 1) (vtInt parameters 2) (vtOr0 parameters 3) (vtOr0 parameters 4)]);
   (CsiActionCodes.DECERA_EraseRectangularArea, [ITermDispatch.EraseRectangularArea (vtInt parameters
     0) (vtInt parameters 1) (vtOr0 parameters 2) (vtOr0 parameters 3)]);
   (CsiActionCodes.DECSERA_SelectiveEraseRectangularArea, [ITermDispatch.SelectiveEraseRectangularArea
     (vtInt parameters 0) (vtInt parameters 1) (vtOr0 parameters 2) (vtOr0 parameters 3)]);
   (CsiActionCodes.DECRQUPSS_RequestUserPreferenceSupplementalSet,
     [ITermDispatch.RequestUserPreferenceCharset]);
   (CsiActionCodes.DECIC_InsertColumn, [ITermDispatch.InsertColumn (vtInt parameters 0)]);
   (CsiActionCodes.DECDC_DeleteColumn, [ITermDispatch.DeleteColumn (vtInt parameters 0)]);
   (CsiActionCodes.DECSACE_SelectAttributeChangeExtent, [ITermDispatch.SelectAttributeChangeExtent
     (vtEnum parameters 0)]);
   (CsiActionCodes.DECRQCRA_RequestChecksumRectangularArea,
     [ITermDispatch.RequestChecksumRectangularArea (vtOr0 parameters 0) (vtOr0 parameters 1) (vtInt
     parameters 2) (vtInt parameters 3) (vtOr0 parameters 4) (vtOr0 parameters 5)]);
   (CsiActionCodes.DECINVM_InvokeMacro, [ITermDispatch.InvokeMacro (vtOr0 parameters 0)]);
   (CsiActionCodes.DECAC_AssignColor, [ITermDispatch.AssignColor (vtEnum parameters 0) (vtOr0
     parameters 1) (vtOr0 parameters 2)]);
   (CsiActionCodes.DECPS_PlaySound, [ITermDispatch.PlaySounds parameters]);
   (CsiActionCodes.KKP_KittyKeyboardSet, [ITermDispatch.SetKittyKeyboardProtocol (vtParam parameters 0)
     (vtParam parameters 1)]);
   (CsiActionCodes.KKP_KittyKeyboardQuery, [ITermDispatch.QueryKittyKeyboardProtocol]);
   (CsiActionCodes.KKP_KittyKeyboardPush, [ITermDispatch.PushKittyKeyboardProtocol (vtParam parameters
     0)]);
   (CsiActionCodes.KKP_KittyKeyboardPop, [ITermDispatch.PopKittyKeyboardProtocol (vtParam parameters
     0)])].
Definition csiCalls (id : Z) (parameters : VTParameters) (lastPrintedChar : wchar_t) :
    list ITermDispatch.Call :=
  switch id (csiCursorCases parameters ++ csiOtherCases parameters lastPrintedChar)
         [ITermDispatch.UnknownSequence].

Definition dcsCases (parameters : VTParameters) : list (Z * option ITermDispatch.StringCall) :=
  [(DcsActionCodes.SIXEL_DefineImage, Some (ITermDispatch.DefineSixelImage (vtInt parameters 0) (vtEnum
     parameters 1) (vtParam parameters 2)));
   (DcsActionCodes.DECDLD_DownloadDRCS, Some (ITermDispatch.DownloadDRCS (vtInt parameters 0) (vtParam
     parameters 1) (vtEnum parameters 2) (vtEnum parameters 3) (vtEnum parameters 4) (vtEnum parameters
     5) (vtParam parameters 6) (vtEnum parameters 7)));
   (DcsActionCodes.DECAUPSS_AssignUserPreferenceSupplementalSet, Some
     (ITermDispatch.AssignUserPreferenceCharset (vtEnum parameters 0)));
   (DcsActionCodes.DECDMAC_DefineMacro, Some (ITermDispatch.DefineMacro (vtOr0 parameters 0) (vtEnum
     parameters 1) (vtEnum parameters 2)));
   (DcsActionCodes.DECRSTS_RestoreTerminalState, Some (ITermDispatch.RestoreTerminalState (vtEnum
     parameters 0)));
   (DcsActionCodes.DECRQSS_RequestSetting, Some (ITermDispatch.RequestSetting));
   (DcsActionCodes.DECRSPS_RestorePresentationState, Some (ITermDispatch.RestorePresentationState
     (vtEnum parameters 0)))].

(** ** Operating system commands *)
Definition COLOR_INQUIRY_COLOR : Z := 0xfeffffff.
Definition INVALID_COLOR : Z := 0xffffffff.
Definition MAX_URL_LENGTH : Z := 2 * 1048576.

(** The loop over the pairs of [_GetOscSetColorTable]. *)
Fixpoint colorTablePairs (parts : list wstring) : list Z * list Z :=
  match parts with
  | index :: color :: rest =>
      let '(tableIndexes, rgbs) := colorTablePairs rest in
      match StringToUint index with
      | Some tableIndex =>
          if bool_decide (color = L "?") then (tableIndex :: tableIndexes, COLOR_INQUIRY_COLOR :: rgbs)
          else match ColorFromXTermColor color with
               | Some c => (tableIndex :: tableIndexes, to_COLORREF c :: rgbs)
               | None => (tableIndexes, rgbs)
               end
      | None => (tableIndexes, rgbs)
      end
  | _ => ([], [])
  end.

(** The result and the two out parameters. *)
Definition _GetOscSetColorTable (string : wstring) : bool * list Z * list Z :=
  let parts := SplitString string 0x3B in
  if (length parts <? 2)%nat then (false, [], [])
  else
    let '(tableIndexes, rgbs) := colorTablePairs parts in
    ((0 <? length tableIndexes)%nat && (0 <? length rgbs)%nat, tableIndexes, rgbs).

Definition _GetOscSetColor (string : wstring) : bool * list Z :=
  let parts := SplitString string 0x3B in
  if (length parts <? 1)%nat then (false, [])
  else
    let rgbs := map (fun part =>
      if bool_decide (part = L "?") then COLOR_INQUIRY_COLOR
      else match ColorFromXTermColor part with
           | Some c => to_COLORREF c
           | None => INVALID_COLOR
           end) parts in
    ((0 <? length rgbs)%nat, rgbs).

(** [find] of a string. *)
Fixpoint find_sub (needle s : wstring) : option nat :=
  if bool_decide (take (length needle) s = needle) then Some 0%nat
  else match s with
       | [] => None
       | _ :: s => S <$> find_sub needle s
       end.
(** [substr(0, n)]. *)
Fixpoint takeZ (n : Z) (s : wstring) : wstring :=
  match s with
  | [] => []
  | c :: s => if n <=? 0 then [] else c :: takeZ (n - 1) s
  end.

Definition hyperlinkIDParameter : wstring := L "id=".

(** The result, [params] and [uri]. *)
Definition _ParseHyperlink (string : wstring) : bool * wstring * wstring :=
  if bool_decide (string = L ";") then (true, [], [])
  else
    match find string 0x3B 0 with
    | Some midPos =>
        let uri := takeZ MAX_URL_LENGTH (drop (midPos + 1) string) in
        let paramStr := take midPos string in
        let params :=
          fold_left (fun params part =>
            match find_sub hyperlinkIDParameter part with
            | Some idPos => drop (idPos + length hyperlinkIDParameter) part
            | None => params
            end) (SplitString paramStr 0x3A) [] in
        (true, params, uri)
    | None => (false, [], [])
    end.

(** The calls of the [SetColor], [SetForegroundColor]... and [ResetColor] labels. *)
Definition colorTableCalls (tableIndexes colors : list Z) : list ITermDispatch.Call :=
  map (fun ir =>
    if ir.2 =? COLOR_INQUIRY_COLOR then ITermDispatch.RequestColorTableEntry ir.1
    else ITermDispatch.SetColorTableEntry ir.1 ir.2) (zip tableIndexes colors).

Fixpoint xtermColorCalls (resource : Z) (colors : list Z) : list ITermDispatch.Call :=
  match colors with
  | [] => []
  | color :: colors =>
      (if color =? COLOR_INQUIRY_COLOR then [ITermDispatch.RequestXtermColorResource resource]
       else if negb (color =? INVALID_COLOR) then [ITermDispatch.SetXtermColorResource resource color]
       else [])
      ++ xtermColorCalls (resource + 1) colors
  end.

Fixpoint resetColorCalls (tokens : list wstring) : list ITermDispatch.Call :=
  match tokens with
  | [] => []
  | c :: tokens =>
      match parse_u64 c 10 with
      | Some index => ITermDispatch.ResetColorTableEntry index :: resetColorCalls tokens
      | None => []
      end
  end.

Section Osc.
(** The conversion from UTF-8 of [til::u8u16]. *)
Context (u8u16 : bytes -> option wstring).

(** The result, [content] and [queryClipboard]; decoding always returns
    ([Base64.base64_decode_in_bounds]). *)
Definition _GetOscSetClipboard (string : wstring) : bool * wstring * bool :=
  match find string 0x3B 0 with
  | None => (false, [], false)
  | Some pos =>
      let substr := drop (pos + 1) string in
      if bool_decide (substr = L "?") then (true, [], true)
      else match Base64.Decode u8u16 substr with
           | Ret (Some content) => (true, content, false)
           | _ => (false, [], false)
           end
  end.

Definition setColorCalls (string : wstring) : list ITermDispatch.Call :=
  let '(success, tableIndexes, colors) := _GetOscSetColorTable string in
  if success then colorTableCalls tableIndexes colors else [].
Definition setXtermColorCalls (parameter : Z) (string : wstring) : list ITermDispatch.Call :=
  let '(success, colors) := _GetOscSetColor string in
  if success then xtermColorCalls parameter colors else [].
Definition setClipboardCalls (string : wstring) : list ITermDispatch.Call :=
  let '(success, content, queryClipboard) := _GetOscSetClipboard string in
  if success && negb queryClipboard then [ITermDispatch.SetClipboard content] else [].
Definition resetCalls (string : wstring) : list ITermDispatch.Call :=
  match string with
  | [] => [ITermDispatch.ResetColorTable]
  | _ => resetColorCalls (split_iterator string 0x3B)
  end.
Definition resetXtermCalls (parameter : Z) (string : wstring) : list ITermDispatch.Call :=
  match string with
  | [] => [ITermDispatch.ResetXtermColorResource (parameter - 100)]
  | _ => []
  end.
Definition hyperlinkCalls (string : wstring) : list ITermDispatch.Call :=
  let '(success, params, uri) := _ParseHyperlink string in
  if success then
    match uri with
    | [] => [ITermDispatch.EndHyperlink]
    | _ => [ITermDispatch.AddHyperlink uri params]
    end
  else [].

Definition oscCases (parameter : Z) (string : wstring) : list (Z * list ITermDispatch.Call) :=
  [(OscActionCodes.SetIconAndWindowTitle, [ITermDispatch.SetWindowTitle string]);
   (OscActionCodes.SetWindowIcon, [ITermDispatch.SetWindowTitle string]);
   (OscActionCodes.SetWindowTitle, [ITermDispatch.SetWindowTitle string]);
   (OscActionCodes.DECSWT_SetWindowTitle, [ITermDispatch.SetWindowTitle string]);
   (OscActionCodes.SetColor, setColorCalls string);
   (OscActionCodes.SetForegroundColor, setXtermColorCalls parameter string);
   (OscActionCodes.SetBackgroundColor, setXtermColorCalls parameter string);
   (OscActionCodes.SetCursorColor, setXtermColorCalls parameter string);
   (OscActionCodes.SetHighlightColor, setXtermColorCalls parameter string);
   (OscActionCodes.SetClipboard, setClipboardCalls string);
   (OscActionCodes.ResetColor, resetCalls string);
   (OscActionCodes.ResetForegroundColor, resetXtermCalls parameter string);
   (OscActionCodes.ResetBackgroundColor, resetXtermCalls parameter string);
   (OscActionCodes.ResetCursorColor, resetXtermCalls parameter string);
   (OscActionCodes.ResetHighlightColor, resetXtermCalls parameter string);
   (OscActionCodes.CurrentWorkingDirectory, [ITermDispatch.SetCurrentWorkingDirectory string]);
   (OscActionCodes.Hyperlink, hyperlinkCalls string);
   (OscActionCodes.ConEmuAction, [ITermDispatch.DoConEmuAction string]);
   (OscActionCodes.ITerm2Action, [ITermDispatch.DoITerm2Action string]);
   (OscActionCodes.FinalTermAction, [ITermDispatch.DoFinalTermAction string]);
   (OscActionCodes.VsCodeAction, [ITermDispatch.DoVsCodeAction string]);
   (OscActionCodes.WTAction, [ITermDispatch.DoWTAction string]);
   (OscActionCodes.UrxvtAction, [ITermDispatch.DoUrxvtAction string])].
Definition oscCalls (parameter : Z) (string : wstring) : list ITermDispatch.Call :=
  switch parameter (oscCases parameter string) [ITermDispatch.UnknownSequence].
End Osc.

(** ** Sub parameters *)
Definition _CanSeqAcceptSubParam (id : Z) (parameters : VTParameters) : bool :=
  switch id
    [(CsiActionCodes.SGR_SetGraphicsRendition, true);
     (CsiActionCodes.DECCARA_ChangeAttributesRectangularArea,
        forallb (fun i => negb (VTParameters.hasSubParamsFor parameters i)) [0; 1; 2; 3]%nat);
     (CsiActionCodes.DECRARA_ReverseAttributesRectangularArea,
        forallb (fun i => negb (VTParameters.hasSubParamsFor parameters i)) [0; 1; 2; 3]%nat)]
    false.

(** ** Control characters *)
Definition executeCalls (wch : wchar_t) : list ITermDispatch.Call :=
  switch wch
    [(AsciiChars.ENQ, [ITermDispatch.EnquireAnswerback]);
     (AsciiChars.BEL, [ITermDispatch.WarningBell]);
     (AsciiChars.BS, [ITermDispatch.CursorBackward 1]);
     (AsciiChars.TAB, [ITermDispatch.ForwardTab 1]);
     (AsciiChars.CR, [ITermDispatch.CarriageReturn]);
     (AsciiChars.LF, [ITermDispatch.LineFeed DependsOnMode]);
     (AsciiChars.FF, [ITermDispatch.LineFeed DependsOnMode]);
     (AsciiChars.VT, [ITermDispatch.LineFeed DependsOnMode]);
     (AsciiChars.SI, [ITermDispatch.LockingShift 0]);
     (AsciiChars.SO, [ITermDispatch.LockingShift 1]);
     (AsciiChars.SUB, [ITermDispatch.Print 0x2426]);
     (AsciiChars.DEL, [ITermDispatch.Print wch])]
    [].

(** ** The object *)
Section OutputStateMachineEngine.
Context {D H CB : Type} {dispatch : TermDispatch D H CB} (u8u16 : bytes -> option wstring).

Record OutputStateMachineEngine := mkOutputStateMachineEngine {
  _dispatch : D;
  _lastPrintedChar : wchar_t }.

Definition OutputStateMachineEngine_ctor (pDispatch : D) : OutputStateMachineEngine :=
  mkOutputStateMachineEngine pDispatch AsciiChars.NUL.

Abbreviation Action := (EngineAction OutputStateMachineEngine CB).
Implicit Types (e : OutputStateMachineEngine).

Definition setLastPrintedChar (wch : wchar_t) : Action unit :=
  act_modify (fun e => mkOutputStateMachineEngine (_dispatch e) wch).
Definition _ClearLastChar : Action unit := setLastPrintedChar AsciiChars.NUL.

(** A call through [_dispatch]. *)
Definition onDispatch {A} (action : EngineAction D CB A) : Action A := fun v e =>
  let '(d, requests, outcome) := action v (_dispatch e) in
  (mkOutputStateMachineEngine d (_lastPrintedChar e), requests, outcome).
Fixpoint runCalls (calls : list ITermDispatch.Call) : Action unit :=
  match calls with
  | [] => act_ret tt
  | c :: calls => act_bind (onDispatch (call c)) (fun _ => runCalls calls)
  end.

(** The common shape of the actions: the calls, [_ClearLastChar()], [return true]. *)
Definition dispatchCalls (calls : list ITermDispatch.Call) : Action bool :=
  act_bind (runCalls calls) (fun _ => act_bind _ClearLastChar (fun _ => act_ret true)).

Definition engine_UnknownSequence e : OutputStateMachineEngine :=
  mkOutputStateMachineEngine (unknownSequence (_dispatch e)) (_lastPrintedChar e).

Definition engine_ActionExecute (wch : wchar_t) : Action bool := dispatchCalls (executeCalls wch).
Definition engine_ActionExecuteFromEscape (wch : wchar_t) : Action bool := engine_ActionExecute wch.

Definition engine_ActionPrint (wch : wchar_t) : Action bool :=
  act_bind (if AsciiChars.SPC <=? wch then setLastPrintedChar wch else act_ret tt) (fun _ =>
  act_bind (onDispatch (call (ITermDispatch.Print wch))) (fun _ => act_ret true)).

Definition engine_ActionPrintString (string : wstring) : Action bool :=
  match last string with
  | None => act_ret true
  | Some wch =>
      act_bind (if AsciiChars.SPC <=? wch then setLastPrintedChar wch else act_ret tt) (fun _ =>
      act_bind (onDispatch (call (ITermDispatch.PrintString string))) (fun _ => act_ret true))
  end.

Definition engine_ActionPassThroughString (string : wstring) : Action bool := act_ret true.

Definition engine_ActionEscDispatch (id : Z) : Action bool := dispatchCalls (escCalls id).

Definition engine_ActionVt52EscDispatch (id : Z) (parameters : VTParameters) : Action bool :=
  dispatchCalls (vt52Calls id parameters).

Definition engine_ActionCsiDispatch (id : Z) (parameters : VTParameters) : Action bool :=
  if VTParameters.hasSubParams parameters && negb (_CanSeqAcceptSubParam id parameters)
  then act_ret true
  else act_bind (act_gets _lastPrintedChar) (fun lastPrintedChar =>
       dispatchCalls (csiCalls id parameters lastPrintedChar)).

Definition engine_ActionDcsDispatch (id : Z) (parameters : VTParameters) : Action (option H) :=
  act_bind
    match switch id (dcsCases parameters) None with
    | Some c => onDispatch (stringCall c)
    | None => act_bind (onDispatch (call ITermDispatch.UnknownSequence)) (fun _ => act_ret None)
    end
    (fun handler => act_bind _ClearLastChar (fun _ => act_ret handler)).

Definition engine_ActionOscDispatch (parameter : Z) (string : wstring) : Action bool :=
  dispatchCalls (oscCalls u8u16 parameter string).

Definition engine_ActionSs3Dispatch (wch : wchar_t) (parameters : VTParameters) : Action bool :=
  dispatchCalls [ITermDispatch.UnknownSequence].

Definition output_engine : IStateMachineEngine OutputStateMachineEngine H CB := {|
  UnknownSequence := engine_UnknownSequence;
  EncounteredWin32InputModeSequence _ := false;
  ActionExecute := engine_ActionExecute;
  ActionExecuteFromEscape := engine_ActionExecuteFromEscape;
  ActionPrint := engine_ActionPrint;
  ActionPrintString := engine_ActionPrintString;
  ActionPassThroughString := engine_ActionPassThroughString;
  ActionEscDispatch := engine_ActionEscDispatch;
  ActionVt52EscDispatch := engine_ActionVt52EscDispatch;
  ActionCsiDispatch := engine_ActionCsiDispatch;
  ActionDcsDispatch := engine_ActionDcsDispatch;
  ActionOscDispatch := engine_ActionOscDispatch;
  ActionSs3Dispatch := engine_ActionSs3Dispatch;
  StringHandler_call h wch := onDispatch (handler_call h wch);
  Callback_call cb e :=
    let '(d, string) := callback_call cb (_dispatch e) in
    (mkOutputStateMachineEngine d (_lastPrintedChar e), string);
  Callback_exit cb e := mkOutputStateMachineEngine (callback_exit cb (_dispatch e)) (_lastPrintedChar e)
|}.

End OutputStateMachineEngine.
Arguments OutputStateMachineEngine D : clear implicits.
