(* ===== verification/OutputTheorems.v ===== *)
(** * What the output engine guarantees

    The dispatcher is a parameter: [BoundedDispatch] and [StreamingDispatch] state
    what the engine needs of it, and with them the output engine satisfies what the
    parser needs of an engine, so the parser's theorems apply to the two together. *)
From S2P Require Import Prelude DispatchTypes VtUtils StateMachine StateMachineTotal StateMachineStream.
From S2P Require Import StateMachineGrammar Strings Base64 ColorTable Colors ITermDispatch OutputEngine.

(** ** Laws of actions *)
Section Laws.
Context {E CB : Type}.

Lemma keeps_bind {A B} (room : E -> nat) (m : EngineAction E CB A) (f : A -> EngineAction E CB B) :
  keeps room m -> (forall a, keeps room (f a)) -> keeps room (act_bind m f).
Proof.
  intros Hm Hf v e. unfold act_bind. specialize (Hm v e).
  destruct (m v e) as [[e1 r1] [a|]]; [|done]. cbn in Hm.
  specialize (Hf a (viewAfter r1 v) e1). destruct (f a (viewAfter r1 v) e1) as [[e2 r2] o]. cbn in *. congruence.
Qed.

Lemma viewAfter_flag (requests : list (Request CB)) pm b :
  viewAfter requests (mkEngineView pm b)
  = mkEngineView (ev_parserMode (viewAfter requests (mkEngineView pm false))) b.
Proof.
  unfold viewAfter. revert pm. induction requests as [|[] requests IH]; intros pm; cbn; [done|apply IH..].
Qed.

Lemma insensitive_bind {A B} (m : EngineAction E CB A) (f : A -> EngineAction E CB B) :
  insensitive m -> (forall a, insensitive (f a)) -> insensitive (act_bind m f).
Proof.
  intros Hm Hf pm b b' e. unfold act_bind. rewrite (Hm pm b b' e).
  destruct (m (mkEngineView pm b') e) as [[e1 r1] [a|]]; [|done].
  rewrite (viewAfter_flag r1 pm b), (viewAfter_flag r1 pm b'). by rewrite (Hf a _ b b').
Qed.

(** An action that, if it returns, returns a value in [P]. *)
Definition returns {A} (P : A -> Prop) (m : EngineAction E CB A) : Prop :=
  forall v e a, (m v e).2 = Returned a -> P a.

Lemma returns_bind {A B} (P : B -> Prop) (m : EngineAction E CB A) (f : A -> EngineAction E CB B) :
  (forall a, returns P (f a)) -> returns P (act_bind m f).
Proof.
  intros Hf v e b. unfold act_bind. destruct (m v e) as [[e1 r1] [a|]]; [|done].
  specialize (Hf a (viewAfter r1 v) e1). destruct (f a (viewAfter r1 v) e1) as [[e2 r2] o]. apply Hf.
Qed.

Lemma returns_accepting (m : EngineAction E CB bool) : returns (eq true) m -> accepting m.
Proof. intros Hm v e He. by apply Hm in He. Qed.

(** An action that, if it returns, leaves a state in [Q]. *)
Definition leaves {A} (Q : E -> Prop) (m : EngineAction E CB A) : Prop :=
  forall v e e' r a, m v e = (e', r, Returned a) -> Q e'.

Lemma leaves_bind {A B} (Q : E -> Prop) (m : EngineAction E CB A) (f : A -> EngineAction E CB B) :
  (forall a, leaves Q (f a)) -> leaves Q (act_bind m f).
Proof.
  intros Hf v e e' r b. unfold act_bind. destruct (m v e) as [[e1 r1] [a|]]; [|done].
  destruct (f a (viewAfter r1 v) e1) as [[e2 r2] o] eqn:Hfa. intros [= <- _ ->]. by eapply Hf.
Qed.
End Laws.

(** ** What the engine needs of the dispatcher *)
Section Dispatch.
Context {D H CB : Type} {dispatch : TermDispatch D H CB}.

(** Callbacks nest only [room] levels deep. *)
Class BoundedDispatch (room : D -> nat) : Prop := {
  room_unknownSequence : forall d, room (unknownSequence d) = room d;
  room_memberCall : forall c, keeps room (memberCall c);
  room_stringCall : forall c, keeps room (stringCall c);
  room_handler : forall h wch, keeps room (handler_call h wch);
  room_callback_idle : forall cb d d', callback_call cb d = (d', None) -> room d' = room d;
  room_callback_nests : forall cb d d' string,
    callback_call cb d = (d', Some string) -> room d = S (room d');
  room_callback_unnests : forall cb d, room (callback_exit cb d) = S (room d)
}.

(** Nothing depends on where a string from the application ends, and a string is
    printed as its characters are. *)
Class StreamingDispatch : Prop := {
  insensitive_memberCall : forall c, insensitive (memberCall c);
  insensitive_stringCall : forall c, insensitive (stringCall c);
  insensitive_handler : forall h wch, insensitive (handler_call h wch);
  print_returns : forall wch v d, exists d', memberCall (ITermDispatch.Print wch) v d = (d', [], Returned tt);
  printString_one : forall wch v d,
    memberCall (ITermDispatch.PrintString [wch]) v d = memberCall (ITermDispatch.Print wch) v d;
  printString_more : forall wch wch' string v d d',
    memberCall (ITermDispatch.Print wch) v d = (d', [], Returned tt) ->
    memberCall (ITermDispatch.PrintString (wch :: wch' :: string)) v d
    = memberCall (ITermDispatch.PrintString (wch' :: string)) v d';
  callback_strings : forall cb d d' string,
    callback_call cb d = (d', Some string) -> Forall is_wchar string
}.

Context (u8u16 : bytes -> option wstring).
Abbreviation Engine := (OutputStateMachineEngine D).
Implicit Types (e : Engine).

(** ** The engine keeps the laws *)
Section Bounded.
Context (room : D -> nat) {bounded : BoundedDispatch room}.

Definition engineRoom e : nat := room (_dispatch e).

Lemma keeps_onDispatch {A} (m : EngineAction D CB A) : keeps room m -> keeps engineRoom (onDispatch m).
Proof.
  intros Hm v [d l]. unfold onDispatch, engineRoom. cbn. specialize (Hm v d). by destruct (m v d) as [[d' r] o].
Qed.

Lemma keeps_call c : keeps room (call c).
Proof. destruct c; try apply room_memberCall. intros v d. cbn. apply room_unknownSequence. Qed.

Lemma keeps_runCalls calls : keeps engineRoom (runCalls calls).
Proof.
  induction calls as [|c calls IH]; [done|].
  apply keeps_bind; [apply keeps_onDispatch, keeps_call|by intros _].
Qed.

Lemma keeps_dispatchCalls calls : keeps engineRoom (dispatchCalls calls).
Proof. apply keeps_bind; [apply keeps_runCalls|]. intros _. by apply keeps_bind. Qed.

Lemma output_engine_bounded : BoundedEngine (engine := output_engine u8u16) engineRoom.
Proof.
  split; intros; try (apply keeps_dispatchCalls); try done.
  - cbn. unfold engineRoom. cbn. apply room_unknownSequence.
  - apply keeps_bind; [by destruct (_ <=? _)|intros _].
    apply keeps_bind; [apply keeps_onDispatch, keeps_call|done].
  - cbn. unfold engine_ActionPrintString. destruct (last string); [|done].
    apply keeps_bind; [by destruct (_ <=? _)|intros _].
    apply keeps_bind; [apply keeps_onDispatch, keeps_call|done].
  - cbn. unfold engine_ActionCsiDispatch. destruct (_ && _); [done|].
    apply keeps_bind; [done|intros; apply keeps_dispatchCalls].
  - apply keeps_bind; [|intros; by apply keeps_bind].
    destruct (switch _ _ _); [apply keeps_onDispatch, room_stringCall|].
    apply keeps_bind; [apply keeps_onDispatch, keeps_call|done].
  - apply keeps_onDispatch, room_handler.
  - destruct e as [d l]. cbn in H0. destruct (callback_call cb d) as [d' [string|]] eqn:Hc; [done|].
    injection H0 as <-. apply (room_callback_idle _ _ _ Hc).
  - destruct e as [d l]. cbn in H0. destruct (callback_call cb d) as [d' o] eqn:Hc.
    injection H0 as <- ->. apply (room_callback_nests _ _ _ _ Hc).
  - cbn. unfold engineRoom. cbn. apply room_callback_unnests.
Qed.
End Bounded.

Section Streaming.
Context {streaming : StreamingDispatch}.

Lemma insensitive_onDispatch {A} (m : EngineAction D CB A) : insensitive m -> insensitive (onDispatch m).
Proof. intros Hm pm b b' [d l]. unfold onDispatch. cbn. by rewrite (Hm pm b b'). Qed.

Lemma insensitive_call c : insensitive (call c).
Proof. destruct c; try apply insensitive_memberCall. done. Qed.

Lemma insensitive_runCalls calls : insensitive (runCalls calls).
Proof.
  induction calls as [|c calls IH]; [done|].
  apply insensitive_bind; [apply insensitive_onDispatch, insensitive_call|by intros _].
Qed.

Lemma stream_dispatchCalls calls : insensitive (dispatchCalls calls) /\ accepting (dispatchCalls calls).
Proof.
  split.
  - apply insensitive_bind; [apply insensitive_runCalls|]. intros _. by apply insensitive_bind.
  - apply returns_accepting, returns_bind. intros _. apply returns_bind. intros _ v e a. by intros [= <-].
Qed.

Lemma print_eq wch v e d' :
  AsciiChars.SPC <= wch -> memberCall (ITermDispatch.Print wch) v (_dispatch e) = (d', [], Returned tt) ->
  engine_ActionPrint wch v e = (mkOutputStateMachineEngine d' wch, [], Returned true).
Proof.
  intros Hw Hp. unfold engine_ActionPrint. destruct (Z.leb_spec AsciiChars.SPC wch); [|lia].
  unfold act_bind, setLastPrintedChar, act_modify, onDispatch, act_ret. cbn. by rewrite Hp.
Qed.

Lemma printString_eq wch string v e d' :
  AsciiChars.SPC <= wch ->
  memberCall (ITermDispatch.PrintString (string ++ [wch])) v (_dispatch e) = (d', [], Returned tt) ->
  engine_ActionPrintString (string ++ [wch]) v e = (mkOutputStateMachineEngine d' wch, [], Returned true).
Proof.
  intros Hw Hp. unfold engine_ActionPrintString. rewrite last_snoc.
  destruct (Z.leb_spec AsciiChars.SPC wch); [|lia].
  unfold act_bind, setLastPrintedChar, act_modify, onDispatch, act_ret, call.
  generalize dependent (string ++ [wch]). intros s Hp. cbn. by rewrite Hp.
Qed.

(** A nonempty string prints; the dispatcher sees its characters. *)
Lemma printString_returns wch string v d :
  exists d', memberCall (ITermDispatch.PrintString (wch :: string)) v d = (d', [], Returned tt).
Proof.
  revert wch d. induction string as [|wch' string IH]; intros wch d;
    destruct (print_returns wch v d) as [d1 Hd1].
  - exists d1. by rewrite printString_one.
  - rewrite (printString_more _ _ _ _ _ _ Hd1). apply IH.
Qed.

Lemma graphic_SPC wch :
  is_wchar wch -> FindActionable.isActionableFromGround wch = false -> AsciiChars.SPC <= wch.
Proof. intros Hw. rewrite FindActionable.isActionable_spec by done. unfold AsciiChars.SPC. lia. Qed.

Lemma print_string_cons wch string v e :
  Forall is_wchar (wch :: string) ->
  Forall (fun c => FindActionable.isActionableFromGround c = false) (wch :: string) -> exists e',
    engine_ActionPrint wch v e = (e', [], Returned true)
    /\ engine_ActionPrintString (wch :: string) v e = engine_ActionPrintString string v e'.
Proof.
  intros Hw Ha.
  assert (Forall (fun c => AsciiChars.SPC <= c) (wch :: string)) as Hg.
  { apply Forall_forall. intros c Hc. rewrite Forall_forall in Hw, Ha. apply graphic_SPC; auto. }
  destruct (print_returns wch v (_dispatch e)) as [d1 Hd1].
  exists (mkOutputStateMachineEngine d1 wch).
  split; [apply print_eq; [by inversion Hg|done]|].
  destruct string as [|wch' string _] using rev_ind.
  - change [wch] with ([] ++ [wch]). rewrite (printString_eq wch [] v e d1); [done|by inversion Hg|].
    by rewrite <- Hd1, <- printString_one.
  - apply Forall_cons in Hg as [_ [_ Hg]%Forall_app].
    destruct (printString_returns wch (string ++ [wch']) v (_dispatch e)) as [d2 Hd2].
    rewrite (app_comm_cons string [wch'] wch) in *.
    rewrite (printString_eq wch' (wch :: string) v e d2) by (by inversion Hg).
    symmetry. apply printString_eq; [by inversion Hg|]. rewrite <- Hd2. symmetry.
    destruct string as [|c string]; by apply printString_more.
Qed.

Lemma output_engine_streaming : StreamingEngine (engine := output_engine u8u16).
Proof.
  assert (forall wch, insensitive (engine_ActionPrint wch)) as Hprint.
  { intros wch. apply insensitive_bind; [by destruct (_ <=? _)|intros _].
    apply insensitive_bind; [apply insensitive_onDispatch, insensitive_call|done]. }
  split; intros; try apply stream_dispatchCalls.
  - split; [apply Hprint|]. apply returns_accepting, returns_bind. intros _. apply returns_bind.
    by intros _ v e a [= <-].
  - cbn. unfold engine_ActionCsiDispatch. destruct (_ && _); [done|].
    destruct (stream_dispatchCalls []) as [_ _]. split.
    + apply insensitive_bind; [done|intros; apply stream_dispatchCalls].
    + apply returns_accepting, returns_bind. intros l. apply returns_bind. intros _. apply returns_bind.
      by intros _ v e a [= <-].
  - apply insensitive_bind; [|intros; by apply insensitive_bind].
    destruct (switch _ _ _); [apply insensitive_onDispatch, insensitive_stringCall|].
    apply insensitive_bind; [apply insensitive_onDispatch, insensitive_call|done].
  - apply insensitive_onDispatch, insensitive_handler.
  - done.
  - by apply print_string_cons.
  - destruct e as [d l]. cbn in H0. destruct (callback_call cb d) as [d' o] eqn:Hc.
    injection H0 as <- ->. apply (callback_strings _ _ _ _ Hc).
Qed.
End Streaming.
End Dispatch.

(** ** The tables *)
Lemma escCases_distinct : NoDup (map fst escCases).
Proof. by_decide. Qed.
Lemma vt52Cases_distinct parameters : NoDup (map fst (vt52Cases parameters)).
Proof. by_decide. Qed.
Lemma csiCases_distinct parameters wch :
  NoDup (map fst (csiCursorCases parameters ++ csiOtherCases parameters wch)).
Proof. by_decide. Qed.
Lemma dcsCases_distinct parameters : NoDup (map fst (dcsCases parameters)).
Proof. by_decide. Qed.
Lemma oscCases_distinct u8u16 parameter string : NoDup (map fst (oscCases u8u16 parameter string)).
Proof. unfold oscCases. cbn [map fst]. by_decide. Qed.

(** ** Operating system commands *)
Lemma to_COLORREF_range c : 0 <= to_COLORREF c < 2 ^ 24.
Proof.
  unfold to_COLORREF. change 0x00FFFFFF with (Z.ones 24). rewrite Z.land_ones by lia.
  by apply Z.mod_pos_bound.
Qed.

(** What one "index ; spec" pair of OSC 4 asks for. *)
Definition colorPairCall (pair : wstring * wstring) : list ITermDispatch.Call :=
  match StringToUint pair.1 with
  | None => []
  | Some index =>
      if bool_decide (pair.2 = L "?") then [ITermDispatch.RequestColorTableEntry index]
      else match ColorFromXTermColor pair.2 with
           | Some c => [ITermDispatch.SetColorTableEntry index (to_COLORREF c)]
           | None => []
           end
  end.
Definition flatPairs (pairs : list (wstring * wstring)) : list wstring :=
  concat (map (fun pair => [pair.1; pair.2]) pairs).

Lemma colorTablePairs_calls pairs :
  (let '(tableIndexes, rgbs) := colorTablePairs (flatPairs pairs) in colorTableCalls tableIndexes rgbs)
  = concat (map colorPairCall pairs)
  /\ (let '(tableIndexes, rgbs) := colorTablePairs (flatPairs pairs) in length tableIndexes = length rgbs).
Proof.
  induction pairs as [|[index spec] pairs IH]; [done|].
  unfold flatPairs in *. cbn [map concat app colorTablePairs fst snd].
  destruct (colorTablePairs _) as [ixs rs]. destruct IH as [IH Hlen]. unfold colorPairCall at 1 2. cbn [fst snd].
  destruct (StringToUint index) as [n|]; [|by split].
  case_bool_decide.
  { split; [|cbn; by rewrite Hlen]. unfold colorTableCalls. cbn [zip_with map fst snd app]. f_equal. apply IH. }
  destruct (ColorFromXTermColor spec) as [c|]; [|by split].
  split; [|cbn; by rewrite Hlen]. unfold colorTableCalls. cbn [zip_with map fst snd app].
  pose proof (to_COLORREF_range c). destruct (Z.eqb_spec (to_COLORREF c) COLOR_INQUIRY_COLOR) as [Heq|].
  - unfold COLOR_INQUIRY_COLOR in Heq. lia.
  - f_equal. apply IH.
Qed.

Lemma flatPairs_free pairs :
  Forall (fun pair => delimiterFree 0x3B pair.1 /\ delimiterFree 0x3B pair.2) pairs ->
  Forall (delimiterFree 0x3B) (flatPairs pairs).
Proof.
  induction 1 as [|pair pairs [H1 H2] _ IH]; [constructor|]. by repeat constructor.
Qed.

Lemma setColorCalls_pairs pairs :
  pairs <> [] ->
  Forall (fun pair => delimiterFree 0x3B pair.1 /\ delimiterFree 0x3B pair.2) pairs ->
  setColorCalls (joinWith 0x3B (flatPairs pairs)) = concat (map colorPairCall pairs).
Proof.
  intros Hne Hfree. unfold setColorCalls, _GetOscSetColorTable.
  rewrite SplitString_join; [|by apply flatPairs_free|by destruct pairs|by destruct pairs as [|[] []]].
  destruct pairs as [|pair pairs]; [done|]. set (all := pair :: pairs) in *.
  destruct (Nat.ltb_spec (length (flatPairs all)) 2); [cbn in *; lia|].
  destruct (colorTablePairs_calls all) as [Hcalls Hlen].
  destruct (colorTablePairs (flatPairs all)) as [[|i ixs] [|x rs]]; try done.
Qed.

(** What one spec of OSC 10, 11, 12 and 17 asks for. *)
Definition xtermColorCall (resource : Z) (spec : wstring) : list ITermDispatch.Call :=
  if bool_decide (spec = L "?") then [ITermDispatch.RequestXtermColorResource resource]
  else match ColorFromXTermColor spec with
       | Some c => [ITermDispatch.SetXtermColorResource resource (to_COLORREF c)]
       | None => []
       end.
Fixpoint xtermColorCallsFrom (resource : Z) (specs : list wstring) : list ITermDispatch.Call :=
  match specs with
  | [] => []
  | spec :: specs => xtermColorCall resource spec ++ xtermColorCallsFrom (resource + 1) specs
  end.

Lemma setXtermColorCalls_specs parameter specs :
  specs <> [] -> specs <> [[]] -> Forall (delimiterFree 0x3B) specs ->
  setXtermColorCalls parameter (joinWith 0x3B specs) = xtermColorCallsFrom parameter specs.
Proof.
  intros Hne Hne' Hfree. unfold setXtermColorCalls, _GetOscSetColor. rewrite SplitString_join by done.
  destruct (Nat.ltb_spec (length specs) 1); [destruct specs; cbn in *; [done|lia]|].
  rewrite length_map. destruct (Nat.ltb_spec 0 (length specs)); [|lia]. clear.
  revert parameter. induction specs as [|spec specs IH]; intros parameter; [done|].
  cbn [map xtermColorCalls xtermColorCallsFrom]. rewrite IH. f_equal. unfold xtermColorCall.
  case_bool_decide; [done|]. destruct (ColorFromXTermColor spec) as [c|]; [|done].
  pose proof (to_COLORREF_range c). unfold COLOR_INQUIRY_COLOR, INVALID_COLOR.
  destruct (Z.eqb_spec (to_COLORREF c) 0xfeffffff); [lia|].
  by destruct (Z.eqb_spec (to_COLORREF c) 0xffffffff); [lia|].
Qed.

Lemma find_delimiter x y c : ~ In c x -> find (x ++ c :: y) c 0 = Some (length x).
Proof.
  unfold find. induction x as [|d x IH]; cbn; intros Hx; [by rewrite Z.eqb_refl|].
  destruct (Z.eqb_spec c d) as [->|]; [tauto|]. by rewrite IH by tauto.
Qed.
Lemma find_absent x c : ~ In c x -> find x c 0 = None.
Proof.
  unfold find. induction x as [|d x IH]; cbn; intros Hx; [done|].
  destruct (Z.eqb_spec c d) as [->|]; [tauto|]. by rewrite IH by tauto.
Qed.

Lemma after_delimiter (x y : wstring) c : drop (length x + 1) (x ++ c :: y) = y.
Proof. by rewrite <- drop_drop, drop_app_length. Qed.

Lemma encode_not_query url bs pad : Base64.encode url bs ++ repeat 0x3D pad <> L "?".
Proof.
  destruct bs as [|b0 [|b1 [|b2 bs]]]; cbn; try done. destruct pad as [|[|pad]]; done.
Qed.

Lemma setClipboardCalls_data u8u16 selection url bs pad :
  delimiterFree 0x3B selection -> Forall is_byte bs -> (pad <= 2)%nat ->
  setClipboardCalls u8u16 (selection ++ 0x3B :: Base64.encode url bs ++ repeat 0x3D pad)
  = match u8u16 bs with Some content => [ITermDispatch.SetClipboard content] | None => [] end.
Proof.
  intros Hs Hb Hp. unfold setClipboardCalls, _GetOscSetClipboard. rewrite find_delimiter by done.
  rewrite after_delimiter, bool_decide_false by apply encode_not_query.
  unfold Base64.Decode. rewrite Base64.decodeBytes_encode by done. by destruct (u8u16 bs).
Qed.

Lemma setClipboardCalls_query u8u16 selection :
  delimiterFree 0x3B selection -> setClipboardCalls u8u16 (selection ++ 0x3B :: L "?") = [].
Proof.
  intros Hs. unfold setClipboardCalls, _GetOscSetClipboard. by rewrite find_delimiter, after_delimiter.
Qed.

Lemma takeZ_all n s : Z.of_nat (length s) <= n -> takeZ n s = s.
Proof.
  revert n. induction s as [|c s IH]; intros n Hn; [done|]. cbn [length takeZ] in *.
  destruct (Z.leb_spec n 0); [lia|]. by rewrite IH by lia.
Qed.

Lemma hyperlinkCalls_uri params uri id :
  delimiterFree 0x3B params -> uri <> [] -> Z.of_nat (length uri) <= MAX_URL_LENGTH ->
  fold_left (fun id part =>
    match find_sub hyperlinkIDParameter part with
    | Some idPos => drop (idPos + length hyperlinkIDParameter) part
    | None => id
    end) (SplitString params 0x3A) [] = id ->
  hyperlinkCalls (params ++ 0x3B :: uri) = [ITermDispatch.AddHyperlink uri id].
Proof.
  intros Hp Hu Hl Hid. unfold hyperlinkCalls, _ParseHyperlink.
  rewrite bool_decide_false by (destruct params as [|? []], uri; done).
  rewrite find_delimiter, after_delimiter, take_app_length, Hid, takeZ_all by done. by destruct uri.
Qed.

(** ** A dispatcher that logs

    It has no string handlers to speak of and registers no callbacks; a printed
    string is logged as its characters. *)
Definition CallLog : Type := list ITermDispatch.Call.
Definition logged (c : ITermDispatch.Call) : CallLog :=
  match c with
  | ITermDispatch.PrintString string => map ITermDispatch.Print string
  | c => [c]
  end.

#[global] Instance logging_dispatch : TermDispatch CallLog unit Empty_set := {
  unknownSequence d := d ++ [ITermDispatch.UnknownSequence];
  memberCall c := fun _ d => (d ++ logged c, [], Returned tt);
  stringCall c := fun _ d => (d, [], Returned None);
  handler_call _ _ := fun _ d => (d, [], Returned true);
  callback_call cb d := match cb with end;
  callback_exit cb d := match cb with end
}.

#[global] Instance logging_streaming : StreamingDispatch.
Proof.
  split; try done.
  - intros. by eexists.
  - intros wch wch' string v d d' [= <-]. cbn. by rewrite <- app_assoc.
Qed.
#[global] Instance logging_bounded : BoundedDispatch (fun _ : CallLog => 0%nat).
Proof. by split. Qed.

Definition freshTerminal (d : CallLog) (wch : wchar_t) :
    StateMachine (OutputStateMachineEngine CallLog) unit Empty_set :=
  StateMachine_ctor (mkOutputStateMachineEngine d wch) false 0 0 false.

Lemma runCalls_log calls v d wch :
  runCalls calls v (mkOutputStateMachineEngine d wch)
  = (mkOutputStateMachineEngine (d ++ concat (map logged calls)) wch, [], Returned tt).
Proof.
  revert d. induction calls as [|c calls IH]; intros d; [cbn; by rewrite app_nil_r|].
  cbn [runCalls map concat]. unfold act_bind at 1, onDispatch at 1.
  assert (call c v d = (d ++ logged c, [], Returned tt)) as Hc by (by destruct c).
  cbn [_dispatch]. rewrite Hc. cbn [viewAfter fold_left _lastPrintedChar].
  by rewrite IH, <- app_assoc.
Qed.

(** ** A dispatcher that is observed

    What the parser and the engine do is the sequence of calls they make of the dispatcher, with the text they print as
    one character after the other: how the text is divided among the calls is up to the reader of the stream. The
    dispatcher answers as it likes: what it returns, whether it throws and what it asks of the parser may depend on the mode of
    the parser and on all calls so far. Only printing always returns and asks for nothing. *)
Section Observed.
Context {H CB : Type}.

Inductive Observation :=
| SawCall (c : ITermDispatch.Call)
| SawStringCall (c : ITermDispatch.StringCall)
| SawHandlerCall (h : H) (wch : wchar_t)
| SawCallback (cb : CB)
| SawCallbackExit (cb : CB).
Definition Observations : Type := list Observation.

Record Answers := mkAnswers {
  member_answer : Z -> Observations -> ITermDispatch.Call -> list (Request CB) * EngineOutcome unit;
  string_answer : Z -> Observations -> ITermDispatch.StringCall -> list (Request CB) * EngineOutcome (option H);
  handler_answer : Z -> Observations -> H -> wchar_t -> list (Request CB) * EngineOutcome bool;
  callback_answer : Observations -> CB -> option wstring
}.

Definition seen (c : ITermDispatch.Call) : Observations := map SawCall (logged c).

Definition observed_dispatch (answers : Answers) : TermDispatch Observations H CB := {|
  unknownSequence d := d ++ seen ITermDispatch.UnknownSequence;
  memberCall c := fun v d =>
    let '(requests, outcome) :=
      match c with
      | ITermDispatch.Print _ | ITermDispatch.PrintString _ => ([], Returned tt)
      | c => member_answer answers (ev_parserMode v) d c
      end in (d ++ seen c, requests, outcome);
  stringCall c := fun v d =>
    let '(requests, outcome) := string_answer answers (ev_parserMode v) d c in (d ++ [SawStringCall c], requests, outcome);
  handler_call h wch := fun v d =>
    let '(requests, outcome) := handler_answer answers (ev_parserMode v) d h wch in (d ++ [SawHandlerCall h wch], requests, outcome);
  callback_call cb d := (d ++ [SawCallback cb], callback_answer answers d cb);
  callback_exit cb d := d ++ [SawCallbackExit cb]
|}.

Definition feeds_text (answers : Answers) : Prop :=
  forall d cb string, callback_answer answers d cb = Some string -> Forall is_wchar string.

Lemma observed_streaming answers : feeds_text answers -> StreamingDispatch (dispatch := observed_dispatch answers).
Proof.
  intros Ht. split; try done.
  - intros. by eexists.
  - intros wch wch' string v d d' [= <-]. cbn. by rewrite <- app_assoc.
  - intros cb d d' string [= _ Hs]. by apply (Ht d cb).
Qed.
End Observed.
Arguments Observation : clear implicits.
Arguments Observations : clear implicits.
Arguments Answers : clear implicits.

(** A stream that arrives in strings. *)
Fixpoint processChunks {E H CB} {engine : IStateMachineEngine E H CB} (fuel depth : nat) (chunks : list wstring) : M (StateMachine E H CB) unit :=
  match chunks with
  | [] => mret tt
  | string :: chunks => ProcessString fuel depth string ;; processChunks fuel depth chunks
  end.

Lemma processChunks_agree {E H CB} {engine : IStateMachineEngine E H CB} {streaming : StreamingEngine} fuel depth chunks s :
  (0 < fuel)%nat -> Forall is_wchar (concat chunks) -> _isEngineForInput s = false ->
  agree (ProcessString fuel (S depth) (concat chunks) s) (processChunks fuel (S depth) chunks s).
Proof.
  intros Hfuel. revert s. induction chunks as [|a chunks IH]; intros s Hw Hin; cbn [concat processChunks] in *.
  - by apply (ProcessString_feed fuel depth [] s).
  - pose proof Hw as [Ha Hb]%Forall_app. etransitivity; [by apply ProcessString_app|].
    destruct (ProcessString_feed fuel depth a s Hfuel Ha Hin) as [[_ Hin1] _]. unfold mbind, M_bind.
    destruct (ProcessString fuel (S depth) a s) as [s1 [[]| | |]]; [by apply IH|by split..].
Qed.

(** Some corners. A sequence refused for its sub parameters keeps the character to
    repeat; a private mode that is 0 or omitted is mode 1; [id=] is found anywhere in
    a hyperlink parameter. *)
Example refused_sequence_keeps_last_char :
  engine_ActionCsiDispatch CsiActionCodes.CUU_CursorUp (mkVTParameters [1] [2] [(0, 1)]) (mkEngineView 0 false)
    (mkOutputStateMachineEngine ([] : CallLog) 0x41)
  = (mkOutputStateMachineEngine [] 0x41, [], Returned true).
Proof. reflexivity. Qed.
Example omitted_mode_is_one :
  csiCalls CsiActionCodes.DECSET_PrivateModeSet (VTParameters.of_params []) 0
  = [ITermDispatch.SetMode (Z.lor 1 0x01000000)].
Proof. reflexivity. Qed.
Example hyperlink_id_anywhere : _ParseHyperlink (L "myid=7;u") = (true, L "7", L "u").
Proof. reflexivity. Qed.

(** ** The properties *)
Section Properties.
Context {D H CB : Type} {dispatch : TermDispatch D H CB} (u8u16 : bytes -> option wstring).
Abbreviation Terminal := (StateMachine (OutputStateMachineEngine D) H CB).
Implicit Types (e : OutputStateMachineEngine D).

(** C3: processing a string, whole runs of text at a time, is feeding its characters to the parser one at a time: the output engine
    makes the same calls of the dispatcher in the same order, the text printed taken character by character, with the same outcome;
    and the parser is left in the same state, but for what it keeps about the string it is in (that string, the place and size of the current run, the
    cached sequence, the injections and whether it is at the last character). The dispatcher may answer calls in any way that depends on the
    calls before and on the mode of the parser: return, throw, change the mode, hand out string handlers, register callbacks that feed more
    text; but printing returns, and how it is divided into calls is not seen. *)
Theorem string_makes_calls_of_characters (answers : Answers H CB) fuel depth string (s : StateMachine (OutputStateMachineEngine (Observations H CB)) H CB) :
  feeds_text answers -> (0 < fuel)%nat -> Forall is_wchar string -> _isEngineForInput s = false ->
  let engine := output_engine (dispatch := observed_dispatch answers) u8u16 in
  let one := ProcessString (engine := engine) fuel (S depth) string s in
  let each := feed (engine := engine) fuel (ProcessString (engine := engine) fuel depth) string s in
  one.2 = each.2 /\ _dispatch (_engine one.1) = _dispatch (_engine each.1) /\ forget one.1 = forget each.1.
Proof.
  intros Ht Hfuel Hw Hin engine. pose proof (observed_streaming answers Ht) as Hd.
  pose proof (output_engine_streaming (dispatch := observed_dispatch answers) u8u16) as Hs.
  destruct (ProcessString_feed (engine := engine) fuel depth string s Hfuel Hw Hin) as [H1 H2].
  destruct (sameStream_fields _ _ H1) as (He & _). destruct H1 as [H1 _]. cbv zeta. by rewrite He.
Qed.

(** C4: how the stream from the application is cut into strings does not matter: strings one after the other lead to the calls, the outcome
    and the parser state (but for what it keeps about the string it is in) to which the whole text leads, the text printed taken character by character; when a string ends in an exception the
    rest is not read. The dispatcher may answer calls in any way that depends on the calls before and on the mode of the parser, but printing returns. *)
Theorem chunks_make_same_calls (answers : Answers H CB) fuel depth chunks (s : StateMachine (OutputStateMachineEngine (Observations H CB)) H CB) :
  feeds_text answers -> (0 < fuel)%nat -> Forall is_wchar (concat chunks) -> _isEngineForInput s = false ->
  let engine := output_engine (dispatch := observed_dispatch answers) u8u16 in
  let whole := ProcessString (engine := engine) fuel (S depth) (concat chunks) s in
  let parts := processChunks (engine := engine) fuel (S depth) chunks s in
  whole.2 = parts.2 /\ _dispatch (_engine whole.1) = _dispatch (_engine parts.1) /\ forget whole.1 = forget parts.1.
Proof.
  intros Ht Hfuel Hw Hin engine. pose proof (observed_streaming answers Ht) as Hd.
  pose proof (output_engine_streaming (dispatch := observed_dispatch answers) u8u16) as Hs.
  destruct (processChunks_agree (engine := engine) fuel depth chunks s Hfuel Hw Hin) as [H1 H2].
  destruct (sameStream_fields _ _ H1) as (He & _). destruct H1 as [H1 _]. cbv zeta. by rewrite He.
Qed.

(** The terminal does not depend on how its input is cut into strings: for any
    dispatcher that prints strings character-wise and does not look at chunk
    boundaries, the parser and the output engine make the same calls in the same
    order for [a] followed by [b] as for [a ++ b], with the same outcome. *)
Theorem terminal_chunks fuel depth a b (s : Terminal) :
  StreamingDispatch (dispatch := dispatch) -> (0 < fuel)%nat -> Forall is_wchar (a ++ b) ->
  _isEngineForInput s = false ->
  let process := ProcessString (engine := output_engine u8u16) fuel (S depth) in
  (process (a ++ b) s).2 = ((process a ;; process b) s).2
  /\ _engine (process (a ++ b) s).1 = _engine ((process a ;; process b) s).1.
Proof.
  intros Hstream Hfuel Hw Hin. pose proof (output_engine_streaming u8u16) as Hs.
  destruct (ProcessString_app (engine := output_engine u8u16) fuel depth a b s Hfuel Hw Hin) as [H1 H2]. split; [done|].
  by destruct (sameStream_fields _ _ H1) as (He & _).
Qed.

(** C7: the terminal processes every string to its end: with a dispatcher that lets
    callbacks nest [room] levels deep, the recursions of the parser stay within two
    levels of [_SafeExecute] and one level of [ProcessString] per nesting. *)
Theorem terminal_terminates (room : D -> nat) fuel depth string (s : Terminal) :
  BoundedDispatch room -> (2 <= fuel)%nat -> (room (_dispatch (_engine s)) < depth)%nat ->
  (ProcessString (engine := output_engine u8u16) fuel depth string s).2 <> OutOfFuel.
Proof.
  intros Hb Hfuel Hdepth. destruct fuel as [|[|fuel]]; [lia..|].
  pose proof (output_engine_bounded u8u16 room) as Hbe.
  pose proof (tot_ProcessString (engine := output_engine u8u16) (engineRoom room) fuel depth _ string Hdepth s eq_refl) as Htot.
  by destruct (ProcessString _ depth string s) as [s' []].
Qed.

(** C6: a control sequence reaches the dispatcher: from the ground state, [ESC \[]
    with an optional private marker, decimal fields, intermediates and a final
    character makes exactly the calls that [csiCalls] lists for the identifier and
    the parameters, and leaves no character to repeat. *)
Theorem csi_reaches_dispatcher fuel processString marker fields intermediates final (s : Terminal) e' :
  Forall (fun c => _isCsiPrivateMarker c = true) (option_list marker) ->
  Forall (Forall is_digit) fields ->
  Forall (fun c => _isIntermediate c = true) intermediates ->
  0x40 <= final <= 0x7E ->
  _state s = Ground -> GetParserMode Ansi s = true -> (0 < fuel)%nat ->
  _onCsiCompleteCallback s = None ->
  runCalls
    (csiCalls (VTIDBuilder.Finalize final (VTIDBuilder.collect (option_list marker ++ intermediates)))
       (mkVTParameters (fieldParams fields) [] (repeat (0, 0) (length (fieldParams fields))))
       (_lastPrintedChar (_engine s)))
    (engineView s) (_engine s) = (e', [], Returned tt) ->
  twp (feed (engine := output_engine u8u16) fuel processString
         ([AsciiChars.ESC; 0x5B] ++ option_list marker ++ fieldText fields ++ intermediates ++ [final]))
    (fun _ s' => _state s' = Ground
       /\ _engine s' = mkOutputStateMachineEngine (_dispatch e') AsciiChars.NUL) s.
Proof.
  intros Hm Hf Hi Hfin Hst Hansi Hfuel Hcb Hcalls. apply (twp_csi (engine := output_engine u8u16)); try done.
  set (params := mkVTParameters _ _ _) in *. set (id := VTIDBuilder.Finalize _ _) in *.
  change (engine_ActionCsiDispatch id params (engineView s) (_engine s)
          = (mkOutputStateMachineEngine (_dispatch e') AsciiChars.NUL, [], Returned true)).
  unfold engine_ActionCsiDispatch. change (VTParameters.hasSubParams params) with false. cbn [andb].
  unfold act_bind at 1, act_gets. cbn [viewAfter fold_left]. unfold dispatchCalls, act_bind at 1.
  by rewrite Hcalls.
Qed.

(** REP. Printing remembers the last graphic character; every other action that
    runs to its end forgets it; and a REP sequence prints that character as often as
    its parameter says (once if it is 0 or omitted), and nothing if there is none. *)
Theorem rep_repeats_last_printed :
  (forall wch v e e' r, AsciiChars.SPC <= wch ->
     engine_ActionPrint wch v e = (e', r, Returned true) -> _lastPrintedChar e' = wch)
  /\ (forall string wch v e e' r, AsciiChars.SPC <= wch ->
     engine_ActionPrintString (string ++ [wch]) v e = (e', r, Returned true) -> _lastPrintedChar e' = wch)
  /\ (forall parameters v e, VTParameters.hasSubParams parameters = false ->
     engine_ActionCsiDispatch CsiActionCodes.REP_RepeatCharacter parameters v e
     = dispatchCalls
         (if _lastPrintedChar e =? AsciiChars.NUL then []
          else [ITermDispatch.PrintString
                  (repeat (_lastPrintedChar e) (Z.to_nat (vtInt parameters 0)))]) v e)
  /\ (forall id parameters wch param string,
     let forgets {A} (action : EngineAction (OutputStateMachineEngine D) CB A) :=
       leaves (fun e' => _lastPrintedChar e' = AsciiChars.NUL) action in
     forgets (engine_ActionExecute wch) /\ forgets (engine_ActionEscDispatch id)
     /\ forgets (engine_ActionVt52EscDispatch id parameters)
     /\ forgets (engine_ActionOscDispatch u8u16 param string)
     /\ forgets (engine_ActionSs3Dispatch wch parameters)
     /\ forgets (engine_ActionDcsDispatch id parameters)
     /\ (VTParameters.hasSubParams parameters = false -> forgets (engine_ActionCsiDispatch id parameters))).
Proof.
  split; [|split; [|split]].
  - intros wch v e e' r Hw. unfold engine_ActionPrint. destruct (Z.leb_spec AsciiChars.SPC wch); [|lia].
    unfold act_bind at 1, setLastPrintedChar, act_modify. unfold act_bind, onDispatch. cbn [_dispatch _lastPrintedChar].
    destruct (call _ _ _) as [[d r'] [[]|]]; [|done]. by intros [= <- _].
  - intros string wch v e e' r Hw. unfold engine_ActionPrintString. rewrite last_snoc.
    destruct (Z.leb_spec AsciiChars.SPC wch); [|lia].
    unfold act_bind at 1, setLastPrintedChar, act_modify. unfold act_bind, onDispatch. cbn [_dispatch _lastPrintedChar].
    destruct (call _ _ _) as [[d r'] [[]|]]; [|done]. by intros [= <- _].
  - intros parameters v e Hsub. unfold engine_ActionCsiDispatch. rewrite Hsub. cbn [andb].
    unfold act_bind at 1, act_gets. cbn [viewAfter fold_left].
    assert (csiCalls CsiActionCodes.REP_RepeatCharacter parameters (_lastPrintedChar e)
            = repeatCalls parameters (_lastPrintedChar e)) as ->.
    { apply switch_in; [apply csiCases_distinct|]. apply in_or_app. right. unfold csiOtherCases.
      repeat first [left; reflexivity|right]. }
    unfold repeatCalls. destruct (_lastPrintedChar e =? AsciiChars.NUL); cbn [negb].
    + by destruct (dispatchCalls [] v e) as [[? ?] ?].
    + by destruct (dispatchCalls _ v e) as [[? ?] ?].
  - intros id parameters wch param string forgets.
    assert (forall calls, forgets bool (dispatchCalls calls)) as Hd.
    { intros calls. apply leaves_bind. intros _ v e e' r a. by intros [= <- _ _]. }
    split; [apply Hd|]. split; [apply Hd|]. split; [apply Hd|]. split; [apply Hd|]. split; [apply Hd|]. split.
    + apply leaves_bind. intros h v e e' r a. by intros [= <- _ _].
    + intros Hsub. unfold engine_ActionCsiDispatch. rewrite Hsub. cbn [andb]. apply leaves_bind. intros. apply Hd.
Qed.
End Properties.

(** Answers that use what a dispatcher can do: the second cursor movement throws, a report makes the parser read a text when the sequence is
    complete, and DCS strings have a handler. *)
Definition sample_answers : Answers unit unit := {|
  member_answer _ d c :=
    match c with
    | ITermDispatch.CursorPosition _ _ =>
        ([], if existsb (fun o => match o with SawCall (ITermDispatch.CursorPosition _ _) => true | _ => false end) d then Threw else Returned tt)
    | ITermDispatch.DeviceAttributes => ([OnCsiCompleteRequest tt], Returned tt)
    | _ => ([], Returned tt)
    end;
  string_answer _ _ _ := ([], Returned (Some tt));
  handler_answer _ _ _ wch := ([], Returned (negb (wch =? AsciiChars.ESC)));
  callback_answer _ _ := Some (L "ok")
|}.
Lemma sample_answers_text : feeds_text sample_answers.
Proof. intros d cb string [= <-]. by_decide. Qed.
Definition observedTerminal : StateMachine (OutputStateMachineEngine (Observations unit unit)) unit unit :=
  StateMachine_ctor (mkOutputStateMachineEngine [] AsciiChars.NUL) false 0 0 false.

(** The calls that a text makes. *)
Example observed_calls :
  _dispatch (_engine (ProcessString (engine := output_engine (dispatch := observed_dispatch sample_answers) Some) 2 2
    (L "a" ++ [0x1B] ++ L "[cb" ++ [0x1B] ++ L "[2H") observedTerminal).1)
  = map SawCall [ITermDispatch.Print 0x61; ITermDispatch.DeviceAttributes] ++ [SawCallback tt]
    ++ map (fun c => SawCall (ITermDispatch.Print c)) (L "ok") ++ [SawCallbackExit tt]
    ++ map SawCall [ITermDispatch.Print 0x62; ITermDispatch.CursorPosition 2 1].
Proof. reflexivity. Qed.

Lemma string_makes_calls_of_characters_witness :
  let engine := output_engine (dispatch := observed_dispatch sample_answers) Some in
  let string := L "ab" ++ [0x1B] ++ L "[cb" ++ [0x1B] ++ L "[2H" ++ [0x1B] ++ L "[Hz" in
  let one := ProcessString (engine := engine) 2 2 string observedTerminal in
  let each := feed (engine := engine) 2 (ProcessString (engine := engine) 2 1) string observedTerminal in
  one.2 = each.2 /\ _dispatch (_engine one.1) = _dispatch (_engine each.1) /\ forget one.1 = forget each.1.
Proof. apply (string_makes_calls_of_characters Some sample_answers 2 1); [apply sample_answers_text|lia|by_decide|reflexivity]. Defined.

Lemma chunks_make_same_calls_witness :
  let engine := output_engine (dispatch := observed_dispatch sample_answers) Some in
  let chunks := [L "a"; []; L "b" ++ [0x1B]; L "["; L "cb" ++ [0x1B] ++ L "[2H"; [0x1B] ++ L "[Hz"] in
  let whole := ProcessString (engine := engine) 2 2 (concat chunks) observedTerminal in
  let parts := processChunks (engine := engine) 2 2 chunks observedTerminal in
  whole.2 = parts.2 /\ _dispatch (_engine whole.1) = _dispatch (_engine parts.1) /\ forget whole.1 = forget parts.1.
Proof. apply (chunks_make_same_calls Some sample_answers 2 1); [apply sample_answers_text|lia|by_decide|reflexivity]. Defined.

Lemma terminal_chunks_witness :
  let process := ProcessString (engine := output_engine Some) 2 2 in
  let s := freshTerminal [] AsciiChars.NUL in
  (process ((L "hi" ++ [0x1B]) ++ L "[2b") s).2 = ((process (L "hi" ++ [0x1B]) ;; process (L "[2b")) s).2
  /\ _engine (process ((L "hi" ++ [0x1B]) ++ L "[2b") s).1
     = _engine ((process (L "hi" ++ [0x1B]) ;; process (L "[2b")) s).1.
Proof. apply (terminal_chunks Some 2 1); [apply logging_streaming|lia|by_decide|reflexivity]. Defined.

Lemma terminal_terminates_witness :
  (ProcessString (engine := output_engine Some) 2 1 (L "hi" ++ [0x1B; 0x5B; 0x48])
     (freshTerminal [] AsciiChars.NUL)).2 <> OutOfFuel.
Proof. apply (terminal_terminates Some (fun _ => 0%nat)); [apply logging_bounded|lia|lia]. Defined.

Lemma csi_reaches_dispatcher_witness :
  twp (feed (engine := output_engine Some) 2 (ProcessString (engine := output_engine Some) 2 1)
         ([AsciiChars.ESC; 0x5B] ++ option_list None ++ fieldText [L "5"; []] ++ [] ++ [0x48]))
    (fun _ s' => _state s' = Ground
       /\ _engine s' = mkOutputStateMachineEngine [ITermDispatch.CursorPosition 5 1] AsciiChars.NUL)
    (freshTerminal [] 0x41).
Proof.
  apply (csi_reaches_dispatcher Some 2 _ None [L "5"; []] [] 0x48 (freshTerminal [] 0x41)
           (mkOutputStateMachineEngine [ITermDispatch.CursorPosition 5 1] 0x41));
    try reflexivity; try lia; by_decide.
Defined.

Lemma rep_repeats_last_printed_witness :
  engine_ActionCsiDispatch CsiActionCodes.REP_RepeatCharacter (VTParameters.of_params [3]) (mkEngineView 0 false)
    (mkOutputStateMachineEngine ([] : CallLog) 0x41)
  = (mkOutputStateMachineEngine (map ITermDispatch.Print [0x41; 0x41; 0x41]) AsciiChars.NUL, [], Returned true).
Proof.
  destruct (rep_repeats_last_printed (dispatch := logging_dispatch) Some) as (_ & _ & Hrep & _).
  rewrite Hrep; reflexivity.
Defined.

(** The action tables are unambiguous: every label of every dispatch switch is
    reached by its own code and no other, and all other codes take the default
    branch (unknown sequence, or a character set designation for escapes). *)
Theorem dispatch_tables_exact (u8u16 : bytes -> option wstring) parameters wch parameter string :
  (forall code calls, In (code, calls) escCases -> escCalls code = calls)
  /\ (forall code calls, In (code, calls) (vt52Cases parameters) -> vt52Calls code parameters = calls)
  /\ (forall code calls, In (code, calls) (csiCursorCases parameters ++ csiOtherCases parameters wch) ->
        csiCalls code parameters wch = calls)
  /\ (forall code c, In (code, c) (dcsCases parameters) -> switch code (dcsCases parameters) None = c)
  /\ (forall calls, In (parameter, calls) (oscCases u8u16 parameter string) ->
        oscCalls u8u16 parameter string = calls)
  /\ (forall code, ~ In code (map fst (csiCursorCases parameters ++ csiOtherCases parameters wch)) ->
        csiCalls code parameters wch = [ITermDispatch.UnknownSequence])
  /\ (~ In parameter (map fst (oscCases u8u16 parameter string)) ->
        oscCalls u8u16 parameter string = [ITermDispatch.UnknownSequence]).
Proof.
  split; [|split; [|split; [|split; [|split; [|split]]]]].
  - intros code calls. apply switch_in, escCases_distinct.
  - intros code calls. apply switch_in, vt52Cases_distinct.
  - intros code calls. apply switch_in, csiCases_distinct.
  - intros code c. apply switch_in, dcsCases_distinct.
  - intros calls. apply switch_in, oscCases_distinct.
  - intros code. apply switch_default.
  - apply switch_default.
Qed.

Lemma dispatch_tables_exact_witness :
  csiCalls CsiActionCodes.DECSTR_SoftReset (VTParameters.of_params []) 0 = [ITermDispatch.SoftReset]
  /\ csiCalls (vtid "y") (VTParameters.of_params []) 0 = [ITermDispatch.UnknownSequence].
Proof.
  destruct (dispatch_tables_exact Some (VTParameters.of_params []) 0 0 []) as (_ & _ & Hcsi & _ & _ & Hdef & _).
  split.
  - apply Hcsi. apply in_or_app. right. unfold csiOtherCases. repeat first [left; reflexivity|right].
  - apply Hdef. vm_compute. intuition discriminate.
Defined.

(** OSC 4: a list of "index ; spec" pairs does, pair by pair and in order, what
    each pair asks for: query the entry, set it to the parsed colour, or nothing if
    the index or the spec does not parse. *)
Theorem osc_color_table_pairs (u8u16 : bytes -> option wstring) (pairs : list (wstring * wstring))
    (Hne : pairs <> [])
    (Hfree : Forall (fun pair => delimiterFree 0x3B pair.1 /\ delimiterFree 0x3B pair.2) pairs) :
  oscCalls u8u16 OscActionCodes.SetColor (joinWith 0x3B (flatPairs pairs)) = concat (map colorPairCall pairs).
Proof.
  rewrite <- setColorCalls_pairs by done. apply switch_in; [apply oscCases_distinct|].
  unfold oscCases. repeat first [left; reflexivity|right].
Qed.

Lemma semicolon_free (s : wstring) : existsb (Z.eqb 0x3B) s = false -> delimiterFree 0x3B s.
Proof.
  intros Hs Hin. enough (existsb (Z.eqb 0x3B) s = true) by congruence.
  apply existsb_exists. exists 0x3B. split; [done|reflexivity].
Qed.

Lemma osc_color_table_pairs_witness :
  oscCalls Some OscActionCodes.SetColor (joinWith 0x3B (flatPairs [(L "1", L "#ff0000"); (L "2", L "?")]))
  = [ITermDispatch.SetColorTableEntry 1 0xFF; ITermDispatch.RequestColorTableEntry 2].
Proof.
  rewrite (osc_color_table_pairs Some [(L "1", L "#ff0000"); (L "2", L "?")]);
    [vm_compute; reflexivity|discriminate|].
  repeat constructor; apply semicolon_free; reflexivity.
Defined.

(** OSC 10, 11, 12 and 17: the specs address the resource of the command and
    those that follow it, each one queried, set, or left alone if its spec does not
    parse. *)
Theorem osc_dynamic_colors (u8u16 : bytes -> option wstring) (parameter : Z) (specs : list wstring)
    (Hparam : In parameter [10; 11; 12; 17]) (Hne : specs <> []) (Hne' : specs <> [[]])
    (Hfree : Forall (delimiterFree 0x3B) specs) :
  oscCalls u8u16 parameter (joinWith 0x3B specs) = xtermColorCallsFrom parameter specs.
Proof.
  rewrite <- setXtermColorCalls_specs by done. apply switch_in; [apply oscCases_distinct|]. unfold oscCases.
  destruct Hparam as [<-|[<-|[<-|[<-|[]]]]]; repeat first [left; reflexivity|right].
Qed.

Lemma osc_dynamic_colors_witness :
  oscCalls Some 10 (joinWith 0x3B [L "red"; L "nosuchcolor"; L "?"])
  = [ITermDispatch.SetXtermColorResource 10 0xFF; ITermDispatch.RequestXtermColorResource 12].
Proof.
  rewrite (osc_dynamic_colors Some 10 [L "red"; L "nosuchcolor"; L "?"]);
    [vm_compute; reflexivity|left; reflexivity|discriminate|discriminate|].
  repeat constructor; apply semicolon_free; reflexivity.
Defined.

(** OSC 52: data in base 64, in either alphabet and with or without padding, sets
    the clipboard to its UTF-8 text, unless that is invalid; a query never sets it. *)
Theorem osc_clipboard (u8u16 : bytes -> option wstring) (selection : wstring)
    (Hsel : delimiterFree 0x3B selection) :
  oscCalls u8u16 OscActionCodes.SetClipboard (selection ++ 0x3B :: L "?") = []
  /\ (forall url bs pad, Forall is_byte bs -> (pad <= 2)%nat ->
        oscCalls u8u16 OscActionCodes.SetClipboard
          (selection ++ 0x3B :: Base64.encode url bs ++ repeat 0x3D pad)
        = match u8u16 bs with Some content => [ITermDispatch.SetClipboard content] | None => [] end).
Proof.
  split.
  - rewrite <- (setClipboardCalls_query u8u16 selection) by done. apply switch_in; [apply oscCases_distinct|].
    unfold oscCases. repeat first [left; reflexivity|right].
  - intros url bs pad Hb Hp. rewrite <- (setClipboardCalls_data u8u16 selection url bs pad) by done.
    apply switch_in; [apply oscCases_distinct|]. unfold oscCases. repeat first [left; reflexivity|right].
Qed.

Lemma osc_clipboard_witness :
  delimiterFree 0x3B (L "c")
  /\ oscCalls Some OscActionCodes.SetClipboard (L "c" ++ 0x3B :: Base64.encode false (L "hi") ++ repeat 0x3D 1)
     = [ITermDispatch.SetClipboard (L "hi")].
Proof.
  assert (delimiterFree 0x3B (L "c")) as Hc by (apply semicolon_free; reflexivity).
  split; [exact Hc|]. rewrite (proj2 (osc_clipboard Some (L "c") Hc)); [reflexivity|by_decide|lia].
Defined.

(** OSC 8: [;] ends a hyperlink; a parameter part without an [id] or with exactly
    [id=name], a semicolon and a nonempty URI of at most [MAX_URL_LENGTH] characters
    start the link to exactly that URI with that id; a string without a semicolon
    does nothing. *)
Theorem osc_hyperlink (u8u16 : bytes -> option wstring) (uri name : wstring)
    (Huri : uri <> []) (Hlen : Z.of_nat (length uri) <= MAX_URL_LENGTH)
    (Hname : delimiterFree 0x3B name) (Hname' : delimiterFree 0x3A name) :
  oscCalls u8u16 OscActionCodes.Hyperlink (L ";") = [ITermDispatch.EndHyperlink]
  /\ oscCalls u8u16 OscActionCodes.Hyperlink (0x3B :: uri) = [ITermDispatch.AddHyperlink uri []]
  /\ oscCalls u8u16 OscActionCodes.Hyperlink (L "id=" ++ name ++ 0x3B :: uri)
     = [ITermDispatch.AddHyperlink uri name]
  /\ oscCalls u8u16 OscActionCodes.Hyperlink name = [].
Proof.
  assert (forall string, oscCalls u8u16 OscActionCodes.Hyperlink string = hyperlinkCalls string) as Hosc.
  { intros string. apply switch_in; [apply oscCases_distinct|].
    unfold oscCases. repeat first [left; reflexivity|right]. }
  split; [done|]. split; [|split].
  - rewrite Hosc. apply (hyperlinkCalls_uri []); [by intros []|done..].
  - rewrite Hosc, app_assoc. apply hyperlinkCalls_uri; [|done|done|].
    + intros Hin. apply in_app_or in Hin as [Hin|Hin]; [vm_compute in Hin; intuition discriminate|by apply Hname].
    + change (SplitString (L "id=" ++ name) 0x3A) with (SplitString (joinWith 0x3A [L "id=" ++ name]) 0x3A).
      rewrite SplitString_join; [|repeat constructor|done|done]; [done|].
      intros Hin. apply in_app_or in Hin as [Hin|Hin]; [|by apply Hname'].
      vm_compute in Hin. intuition discriminate.
  - rewrite Hosc. unfold hyperlinkCalls, _ParseHyperlink. rewrite bool_decide_false by (intros ->; apply Hname; by left).
    by rewrite find_absent.
Qed.

Lemma osc_hyperlink_witness :
  oscCalls Some OscActionCodes.Hyperlink (L "id=" ++ L "x" ++ 0x3B :: L "http://a/;b")
  = [ITermDispatch.AddHyperlink (L "http://a/;b") (L "x")].
Proof.
  refine (proj1 (proj2 (proj2 (osc_hyperlink Some (L "http://a/;b") (L "x") _ _ _ _)))).
  - discriminate.
  - vm_compute. discriminate.
  - apply semicolon_free. reflexivity.
  - vm_compute. intuition discriminate.
Defined.
