(* ===== verification/Utf8Stream.v ===== *)
(** * The UTF-8 stream of a terminal session

    [til::u8u16] with its state for partial sequences ([src/inc/til/u8u16convert.h])
    and [VT7::Utf8TerminalStream] ([src/vt7/VT7.Native/utf8_terminal_stream.hpp]),
    which feeds the bytes of a session to the terminal core. The conversion itself
    is the Windows function [MultiByteToWideChar], a parameter here. *)
From S2P Require Import Prelude.

(** ** Results *)
Inductive HRESULT :=
| S_OK
| E_ABORT
| E_UNEXPECTED
| ERROR_INVALID_STATE
| ERROR_NO_UNICODE_TRANSLATION
| CaughtException.

#[global] Instance HRESULT_eq_dec : EqDecision HRESULT.
Proof. solve_decision. Defined.

(** ** [til::u8state] *)
Record u8state := mkU8state { partials : bytes; have : Z; want : Z }.
Definition u8state_reset : u8state := mkU8state [0; 0; 0; 0] 0 0.

(** [std::move] of a range to [&partials\[offset\]]: the array has four elements. *)
Definition movePartials (offset : nat) (range : bytes) (array : bytes) : option bytes :=
  if (offset + length range <=? 4)%nat
  then Some (take offset array ++ range ++ drop (offset + length range) array)
  else None.

Definition INT_MAX : Z := 2147483647.

(** The code point length by lead byte. *)
Definition lengths : list Z :=
  [1; 1; 1; 1; 1; 1; 1; 1; 1; 1; 1; 1; 1; 1; 1; 1; 0; 0; 0; 0; 0; 0; 0; 0; 2; 2; 2; 2; 3; 3; 4; 0].
Definition codePointLen (byte : Z) : Z := default 0 (lengths !! Z.to_nat (Z.shiftr (u8 byte) 3)).

(** The loop over the continuation bytes at the end, over the bytes from the last to
    the first: the byte it stops at and [sequenceLen]. *)
Fixpoint backScan (backwards : bytes) (sequenceLen : Z) : Z * Z :=
  match backwards with
  | [] => (0, sequenceLen)
  | [byte] => (byte, sequenceLen)
  | byte :: rest =>
      if Z.land byte 0xC0 =? 0x80 then backScan rest (sequenceLen + 1) else (byte, sequenceLen)
  end.

Section u8u16.
(** [MultiByteToWideChar(CP_UTF8, 0, ...)] with enough room for its result. *)
Context (MultiByteToWideChar : bytes -> wstring).

(** With room for [capacity] units; 0 units written is the error value. *)
Definition convert (bytes_ : bytes) (capacity : Z) : wstring :=
  let units := MultiByteToWideChar bytes_ in
  if Z.of_nat (length units) <=? capacity then units else [].

(** The last conversion: the first [len8] of the remaining bytes, after the output so far. *)
Definition u8u16_last (len8 : nat) (rest : bytes) (out : wstring) (capa16 : Z) (state : u8state) :
    Outcome (HRESULT * wstring * u8state) :=
  if (len8 =? 0)%nat then Ret (S_OK, out, state)
  else
    match convert (take len8 rest) capa16 with
    | [] => Ret (E_UNEXPECTED, [], state)
    | units => Ret (S_OK, out ++ units, state)
    end.

(** The part after the partial sequence at the start: what is left is [rest], the
    output so far is [out]. *)
Definition u8u16_rest (rest : bytes) (out : wstring) (capa16 : Z) (state : u8state) :
    Outcome (HRESULT * wstring * u8state) :=
  if (length rest =? 0)%nat then u8u16_last 0 rest out capa16 state
  else
    let '(lead, sequenceLen) := backScan (rev rest) 1 in
    if codePointLen lead >? sequenceLen then
      let len8 := (length rest - Z.to_nat sequenceLen)%nat in
      match movePartials 0 (drop len8 rest) (partials state) with
      | None => UB
      | Some array =>
          u8u16_last len8 rest out capa16
            (mkU8state array (u8 sequenceLen) (u8 (codePointLen lead - sequenceLen)))
      end
    else u8u16_last (length rest) rest out capa16 state.

(** Complements the partial sequence: the number of bytes moved from the input. *)
Definition complement (input : bytes) (state : u8state) : option (nat * u8state) :=
  let copyable := Z.to_nat (Z.min (want state) (Z.of_nat (length input))) in
  match movePartials (Z.to_nat (have state)) (take copyable input) (partials state) with
  | None => None
  | Some array =>
      Some (copyable, mkU8state array (u8 (have state + Z.of_nat copyable)) (u8 (want state - Z.of_nat copyable)))
  end.

(** The result, the output (if successful) and the new state. *)
Definition u8u16 (input : bytes) (state : u8state) : Outcome (HRESULT * wstring * u8state) :=
  if (length input =? 0)%nat then Ret (S_OK, [], state)
  else
    let capa16 := Z.of_nat (length input) + have state in
    if INT_MAX <? capa16 then Ret (E_ABORT, [], state)
    else if negb (have state =? 0) then
      match complement input state with
      | None => UB
      | Some (copyable, state) =>
          if negb (want state =? 0) then Ret (S_OK, [], state)
          else
            match convert (take (Z.to_nat (have state)) (partials state)) capa16 with
            | [] => Ret (E_UNEXPECTED, [], state)
            | units => u8u16_rest (drop copyable input) units (capa16 - Z.of_nat (length units))
                                  (mkU8state (partials state) 0 (want state))
            end
      end
    else u8u16_rest input [] capa16 state.

(** ** [Utf8TerminalStream] *)
Record Utf8TerminalStream := mkUtf8TerminalStream {
  _state : u8state;
  snapshot_bytes : Z;
  snapshot_utf16Units : Z;
  snapshot_writes : Z;
  snapshot_generation : Z;
  snapshot_pendingBytes : Z;
  snapshot_ended : bool;
  snapshot_lastError : HRESULT;
  _generation : Z }.

Definition Utf8TerminalStream_ctor : Utf8TerminalStream :=
  mkUtf8TerminalStream u8state_reset 0 0 0 0 0 true S_OK 0.

Definition Begin (s : Utf8TerminalStream) : Utf8TerminalStream :=
  let generation := u32 (_generation s + 1) in
  mkUtf8TerminalStream u8state_reset 0 0 0 generation 0 false S_OK generation.

Definition Abandon (s : Utf8TerminalStream) : Utf8TerminalStream :=
  mkUtf8TerminalStream u8state_reset (snapshot_bytes s) (snapshot_utf16Units s) (snapshot_writes s)
    (snapshot_generation s) 0 true (snapshot_lastError s) (_generation s).

Definition fail (hr : HRESULT) (s : Utf8TerminalStream) : Utf8TerminalStream :=
  mkUtf8TerminalStream (_state s) (snapshot_bytes s) (snapshot_utf16Units s) (snapshot_writes s)
    (snapshot_generation s) (snapshot_pendingBytes s) (snapshot_ended s) hr (_generation s).

(** The writer acts on something of type [W], here the second component of the state. *)
Definition Write {W : Type} (writer : wstring -> M W unit) (input : bytes) :
    M (Utf8TerminalStream * W) HRESULT := fun '(s, w) =>
  if snapshot_ended s then ((fail ERROR_INVALID_STATE s, w), Ret ERROR_INVALID_STATE)
  else
    match input with
    | [] => ((s, w), Ret S_OK)
    | _ =>
        match u8u16 input (_state s) with
        | Ret (S_OK, decoded, candidate) =>
            let '(w, written) := match decoded with [] => (w, Ret tt) | _ => writer decoded w end in
            match written with
            | Ret tt =>
                ((mkUtf8TerminalStream candidate
                    (u64 (snapshot_bytes s + Z.of_nat (length input)))
                    (u64 (snapshot_utf16Units s + Z.of_nat (length decoded)))
                    (u32 (snapshot_writes s + 1)) (snapshot_generation s) (have candidate)
                    (snapshot_ended s) S_OK (_generation s), w), Ret S_OK)
            | Throw => ((fail CaughtException s, w), Ret CaughtException)
            | UB => ((s, w), UB)
            | OutOfFuel => ((s, w), OutOfFuel)
            end
        | Ret (hr, _, _) => ((fail hr s, w), Ret hr)
        | Throw => ((s, w), Throw)
        | UB => ((s, w), UB)
        | OutOfFuel => ((s, w), OutOfFuel)
        end
    end.

Definition End_ (s : Utf8TerminalStream) : HRESULT * Utf8TerminalStream :=
  if snapshot_ended s then (snapshot_lastError s, s)
  else if negb (have (_state s) =? 0) then
    (ERROR_NO_UNICODE_TRANSLATION,
     mkUtf8TerminalStream u8state_reset (snapshot_bytes s) (snapshot_utf16Units s) (snapshot_writes s)
       (snapshot_generation s) 0 true ERROR_NO_UNICODE_TRANSLATION (_generation s))
  else
    (S_OK,
     mkUtf8TerminalStream (_state s) (snapshot_bytes s) (snapshot_utf16Units s) (snapshot_writes s)
       (snapshot_generation s) (snapshot_pendingBytes s) true S_OK (_generation s)).

(** Successive writes. *)
Fixpoint writeAll {W : Type} (writer : wstring -> M W unit) (chunks : list bytes) :
    M (Utf8TerminalStream * W) (list HRESULT) :=
  match chunks with
  | [] => mret []
  | chunk :: chunks =>
      hr ← Write writer chunk;
      hrs ← writeAll writer chunks;
      mret (hr :: hrs)
  end.
End u8u16.

(** ** Unicode *)
Definition is_scalar (c : Z) : Prop := 0 <= c < 0xD800 \/ 0xE000 <= c <= 0x10FFFF.

Definition utf8 (c : Z) : bytes :=
  if c <? 0x80 then [c]
  else if c <? 0x800 then [0xC0 + c / 64; 0x80 + c mod 64]
  else if c <? 0x10000 then [0xE0 + c / 4096; 0x80 + c / 64 mod 64; 0x80 + c mod 64]
  else [0xF0 + c / 262144; 0x80 + c / 4096 mod 64; 0x80 + c / 64 mod 64; 0x80 + c mod 64].
Definition utf16 (c : Z) : wstring :=
  if c <? 0x10000 then [c]
  else [0xD800 + (c - 0x10000) / 1024; 0xDC00 + (c - 0x10000) mod 1024].

Definition utf8s (text : list Z) : bytes := concat (map utf8 text).
Definition utf16s (text : list Z) : wstring := concat (map utf16 text).

(** A truncated code point: the first bytes of the encoding of one, perhaps none. *)
Definition truncated (pre : bytes) : Prop :=
  exists c rest, is_scalar c /\ rest <> [] /\ utf8 c = pre ++ rest.

(** ** Encodings *)
Definition continuation (b : Z) : Prop := 0x80 <= b < 0xC0.

Lemma continuation_spec b : is_byte b -> (Z.land b 0xC0 =? 0x80) = true <-> continuation b.
Proof.
  intros Hb. unfold continuation.
  assert (H : forallb (fun b => Bool.eqb (Z.land b 0xC0 =? 0x80) ((0x80 <=? b) && (b <? 0xC0)))
                (map Z.of_nat (seq 0 256)) = true) by (vm_compute; done).
  rewrite forallb_forall in H. specialize (H b). rewrite Bool.eqb_true_iff in H. rewrite H; [lia|].
  apply in_map_iff. exists (Z.to_nat b). unfold is_byte in Hb. split; [lia|]. apply in_seq. lia.
Qed.

(** The encoding of a code point is a lead byte, which says how long it is, and
    continuation bytes. *)
Lemma utf8_shape c : is_scalar c ->
  exists lead conts, utf8 c = lead :: conts /\ is_byte lead /\ ~ continuation lead
    /\ Forall is_byte conts /\ Forall continuation conts
    /\ codePointLen lead = Z.of_nat (length (utf8 c)) /\ (length (utf8 c) <= 4)%nat.
Proof.
  assert (Hlen : forall lo hi n lead,
            forallb (fun b => codePointLen b =? n) (map Z.of_nat (seq lo (hi - lo))) = true ->
            Z.of_nat lo <= lead < Z.of_nat hi -> codePointLen lead = n).
  { intros lo hi n lead H Hb. rewrite forallb_forall in H. apply Z.eqb_eq, H, in_map_iff.
    exists (Z.to_nat lead). split; [lia|]. apply in_seq. lia. }
  intros Hc. assert (0 <= c <= 0x10FFFF) by (unfold is_scalar in Hc; lia). clear Hc.
  unfold utf8, continuation, is_byte.
  destruct (Z.ltb_spec c 0x80); [|destruct (Z.ltb_spec c 0x800); [|destruct (Z.ltb_spec c 0x10000)]].
  all: eexists _, _; split_and!; [reflexivity|..];
       try (repeat constructor; Z.div_mod_to_equations; lia);
       try (Z.div_mod_to_equations; lia).
  - apply (Hlen 0%nat 128%nat); [by vm_compute|lia].
  - apply (Hlen 192%nat 224%nat); [by vm_compute|Z.div_mod_to_equations; lia].
  - apply (Hlen 224%nat 240%nat); [by vm_compute|Z.div_mod_to_equations; lia].
  - apply (Hlen 240%nat 248%nat); [by vm_compute|Z.div_mod_to_equations; lia].
Qed.

Lemma backScan_app lead conts before n :
  is_byte lead -> ~ continuation lead -> Forall is_byte conts -> Forall continuation conts ->
  backScan (rev (before ++ lead :: conts)) n = (lead, n + Z.of_nat (length conts)).
Proof.
  intros Hb Hl. revert n. induction conts as [|b conts IH] using rev_ind; intros n Hbs Hcs.
  - rewrite rev_app_distr. cbn. rewrite Z.add_0_r. destruct (rev before); [done|].
    destruct (Z.land lead 192 =? 128) eqn:E; [by apply (continuation_spec _ Hb) in E|done].
  - apply Forall_app in Hbs as [Hbs Hb1]. apply Forall_app in Hcs as [Hcs Hc1].
    rewrite Forall_singleton in Hb1, Hc1.
    rewrite app_comm_cons, app_assoc, rev_unit, length_app, Nat2Z.inj_add.
    specialize (IH (n + 1) Hbs Hcs).
    destruct (rev (before ++ lead :: conts)) as [|x r] eqn:E.
    { apply (f_equal length) in E. rewrite length_rev, length_app in E. cbn in E. lia. }
    cbn [backScan]. rewrite (proj2 (continuation_spec _ Hb1) Hc1).
    cbn [backScan] in IH. rewrite IH. f_equal. cbn. lia.
Qed.

(** What the scan finds at the end of bytes that end with a code point, perhaps truncated. *)
Lemma backScan_last c pre rest before :
  is_scalar c -> utf8 c = pre ++ rest -> pre <> [] ->
  exists lead, head pre = Some lead /\ codePointLen lead = Z.of_nat (length (utf8 c))
    /\ backScan (rev (before ++ pre)) 1 = (lead, Z.of_nat (length pre)).
Proof.
  intros Hc Heq Hpre. destruct (utf8_shape c Hc) as (lead & conts & Hu & Hb & Hl & Hbs & Hcs & Hlen & _).
  destruct pre as [|x pre]; [done|]. rewrite Hu in Heq. injection Heq as -> ->.
  apply Forall_app in Hbs as [Hbs _]. apply Forall_app in Hcs as [Hcs _].
  exists x. split_and!; [done|done|]. rewrite backScan_app by done. f_equal. cbn. lia.
Qed.

Lemma utf8_nonempty c : utf8 c <> [].
Proof. unfold utf8. by repeat case_match. Qed.

Lemma utf16_nonempty c : utf16 c <> [].
Proof. unfold utf16. by repeat case_match. Qed.

Lemma utf16_length c : is_scalar c -> (length (utf16 c) <= length (utf8 c))%nat.
Proof. intros Hc. unfold utf16, utf8. repeat case_match; cbn; lia. Qed.

Lemma utf16s_length text : Forall is_scalar text -> (length (utf16s text) <= length (utf8s text))%nat.
Proof.
  induction 1 as [|c text Hc Ht IH]; cbn; [lia|]. rewrite !length_app. pose proof (utf16_length c Hc).
  unfold utf16s, utf8s in IH. lia.
Qed.

Lemma utf8s_app a b : utf8s (a ++ b) = utf8s a ++ utf8s b.
Proof. unfold utf8s. by rewrite map_app, concat_app. Qed.

Lemma utf8s_snoc text c : utf8s (text ++ [c]) = utf8s text ++ utf8 c.
Proof. rewrite utf8s_app. cbn. by rewrite app_nil_r. Qed.

Lemma utf16s_app a b : utf16s (a ++ b) = utf16s a ++ utf16s b.
Proof. unfold utf16s. by rewrite map_app, concat_app. Qed.

Lemma utf8s_nil_inv text : utf8s text = [] -> text = [].
Proof. destruct text; [done|]. cbn. intros [H _]%app_eq_nil. by apply utf8_nonempty in H. Qed.

Lemma utf16s_nil_inv text : utf16s text = [] -> text = [].
Proof. destruct text; [done|]. cbn. intros [H _]%app_eq_nil. by apply utf16_nonempty in H. Qed.

Lemma truncated_nil : truncated [].
Proof. exists 0, [0]. split_and!; [unfold is_scalar; lia|done|done]. Qed.

(** A text cut anywhere: complete code points and a truncated one. *)
Lemma cut_text text tail p future :
  Forall is_scalar text -> truncated tail -> p ++ future = utf8s text ++ tail ->
  exists t1 t2 pre, text = t1 ++ t2 /\ p = utf8s t1 ++ pre /\ truncated pre
    /\ pre ++ future = utf8s t2 ++ tail.
Proof.
  intros Ht. revert p. induction Ht as [|c text Hc Ht IH]; intros p Htail Heq.
  - exists [], [], p. cbn in Heq. destruct Htail as (c & rest & Hc & Hr & Hu). split_and!; [done|done| |done].
    exists c, (future ++ rest). split_and!; [done|by intros [_ ?]%app_eq_nil|].
    by rewrite Hu, <- Heq, app_assoc.
  - cbn in Heq. rewrite <- app_assoc in Heq. destruct (app_eq_inv _ _ _ _ Heq) as [(k & Hp & Hr)|(k & Hp & Hr)].
    + destruct (IH k Htail) as (t1 & t2 & pre & -> & -> & Hpre & Hf).
      { by unfold utf8s. }
      exists (c :: t1), t2, pre. split_and!; [done|by rewrite Hp; cbn; rewrite app_assoc|done|done].
    + destruct k as [|b k].
      * rewrite app_nil_r in Hp. exists [c], text, []. cbn. rewrite !app_nil_r.
        split_and!; [done|done|apply truncated_nil|done].
      * exists [], (c :: text), p. split_and!; [done|done| |cbn; by rewrite Heq, app_assoc].
        by exists c, (b :: k).
Qed.

(** ** The decoder on UTF-8 text *)

(** The state holds the truncated code point [pre]. *)
Definition pending (state : u8state) (pre : bytes) : Prop :=
  length (partials state) = 4%nat /\ have state = Z.of_nat (length pre)
  /\ take (length pre) (partials state) = pre
  /\ forall lead, head pre = Some lead -> want state = codePointLen lead - Z.of_nat (length pre).

Lemma movePartials_at offset range array array' :
  movePartials offset range array = Some array' -> length array = 4%nat ->
  length array' = 4%nat /\ take (offset + length range) array' = take offset array ++ range.
Proof.
  unfold movePartials. destruct (Nat.leb_spec (offset + length range) 4); [|done]. intros [= <-] Ha. split.
  - rewrite !length_app, length_take, length_drop. lia.
  - rewrite app_assoc, take_app_length'; [done|]. rewrite length_app, length_take. lia.
Qed.

Lemma movePartials_some offset range array :
  (offset + length range <= 4)%nat -> exists array', movePartials offset range array = Some array'.
Proof. intros H. unfold movePartials. destruct (Nat.leb_spec (offset + length range) 4); [eauto|lia]. Qed.

Lemma truncated_length pre : truncated pre ->
  (length pre < 4)%nat
  /\ forall lead, head pre = Some lead -> Z.of_nat (length pre) < codePointLen lead <= 4.
Proof.
  intros (c & rest & Hc & Hr & Hu). destruct (utf8_shape c Hc) as (lead & conts & Hs & _ & _ & _ & _ & Hl & H4).
  destruct rest as [|r rest]; [done|]. rewrite Hu in Hs, Hl, H4. rewrite length_app in Hl, H4. cbn in *. split; [lia|].
  destruct pre; [done|]. cbn in *. injection Hs as -> _. intros ? [= <-]. lia.
Qed.

Section text.
Context (MultiByteToWideChar : bytes -> wstring).
(** [MultiByteToWideChar] converts well-formed UTF-8. *)
Context (converts : forall text, Forall is_scalar text -> MultiByteToWideChar (utf8s text) = utf16s text).

Lemma convert_text text capacity :
  Forall is_scalar text -> Z.of_nat (length (utf8s text)) <= capacity ->
  convert MultiByteToWideChar (utf8s text) capacity = utf16s text.
Proof.
  intros Ht Hcap. unfold convert. rewrite converts by done. pose proof (utf16s_length text Ht).
  destruct (Z.leb_spec (Z.of_nat (length (utf16s text))) capacity); [done|lia].
Qed.

Lemma u8u16_last_text text pre out capa16 state :
  Forall is_scalar text -> Z.of_nat (length (utf8s text)) <= capa16 ->
  u8u16_last MultiByteToWideChar (length (utf8s text)) (utf8s text ++ pre) out capa16 state
  = Ret (S_OK, out ++ utf16s text, state).
Proof.
  intros Ht Hcap. unfold u8u16_last. rewrite take_app_length.
  destruct (Nat.eqb_spec (length (utf8s text)) 0) as [E|E].
  - apply length_zero_iff_nil, utf8s_nil_inv in E as ->. cbn. by rewrite app_nil_r.
  - rewrite convert_text by done. destruct (utf16s text) eqn:E2; [|done].
    apply utf16s_nil_inv in E2 as ->. done.
Qed.

(** The scan at the end leaves complete code points alone. *)
Lemma u8u16_rest_complete text out capa16 state :
  Forall is_scalar text -> Z.of_nat (length (utf8s text)) <= capa16 ->
  u8u16_rest MultiByteToWideChar (utf8s text) out capa16 state = Ret (S_OK, out ++ utf16s text, state).
Proof.
  intros Ht Hcap. pose proof (u8u16_last_text text [] out capa16 state Ht Hcap) as Hlast.
  rewrite app_nil_r in Hlast. unfold u8u16_rest.
  destruct (Nat.eqb_spec (length (utf8s text)) 0) as [E|E]; [by rewrite E in Hlast|].
  destruct text as [|c text _] using rev_ind; [done|].
  rewrite utf8s_snoc in *. apply Forall_app in Ht as [_ Hc]. rewrite Forall_singleton in Hc.
  destruct (backScan_last c (utf8 c) [] (utf8s text) Hc) as (lead & _ & Hl & Hscan);
    [by rewrite app_nil_r|apply utf8_nonempty|].
  rewrite Hscan, Hl, Z.gtb_ltb, Z.ltb_irrefl. apply Hlast.
Qed.

(** ... and keeps a truncated one. *)
Lemma u8u16_rest_truncated text pre out capa16 state :
  Forall is_scalar text -> truncated pre -> pre <> [] -> length (partials state) = 4%nat ->
  Z.of_nat (length (utf8s text)) <= capa16 ->
  exists state', u8u16_rest MultiByteToWideChar (utf8s text ++ pre) out capa16 state
                 = Ret (S_OK, out ++ utf16s text, state') /\ pending state' pre.
Proof.
  intros Ht Hpre Hne Hpart Hcap. destruct (truncated_length pre Hpre) as [H4 Hw].
  destruct Hpre as (c & r & Hc & Hr & Hu).
  destruct (backScan_last c pre r (utf8s text) Hc Hu Hne) as (lead & Hh & Hl & Hscan). specialize (Hw _ Hh).
  unfold u8u16_rest. rewrite Hscan.
  destruct (Nat.eqb_spec (length (utf8s text ++ pre)) 0) as [E|E].
  { apply length_zero_iff_nil, app_eq_nil in E as [_ ?]. done. }
  destruct (Z.gtb_spec (codePointLen lead) (Z.of_nat (length pre))); [|lia].
  rewrite Nat2Z.id, length_app, Nat.add_sub, drop_app_length.
  destruct (movePartials_some 0 pre (partials state)) as [array Harr]; [cbn; lia|].
  rewrite Harr. eexists. split; [by apply u8u16_last_text|].
  destruct (movePartials_at _ _ _ _ Harr Hpart) as [Ha1 Ha2]. cbn in Ha2.
  split_and!; cbn; [done|apply wrap_small; cbn; lia|done|].
  intros l Hl'. rewrite Hh in Hl'. injection Hl' as <-. apply wrap_small; cbn; lia.
Qed.

Lemma u8u16_rest_text text pre out capa16 state :
  Forall is_scalar text -> truncated pre -> length (partials state) = 4%nat -> have state = 0 ->
  Z.of_nat (length (utf8s text)) <= capa16 ->
  exists state', u8u16_rest MultiByteToWideChar (utf8s text ++ pre) out capa16 state
                 = Ret (S_OK, out ++ utf16s text, state') /\ pending state' pre.
Proof.
  intros Ht Hpre Hpart Hhave Hcap. destruct pre as [|b pre]; [|by apply u8u16_rest_truncated].
  exists state. split; [rewrite app_nil_r; by apply u8u16_rest_complete|by split_and!].
Qed.

(** One call: the state holds [pre0], the input completes [text] and leaves [pre1]. *)
Lemma complement_pending input pre0 lead state :
  truncated pre0 -> head pre0 = Some lead -> pending state pre0 ->
  let copyable := Z.to_nat (Z.min (want state) (Z.of_nat (length input))) in
  exists array, complement input state
    = Some (copyable, mkU8state array (Z.of_nat (length pre0 + copyable)) (want state - Z.of_nat copyable))
    /\ length array = 4%nat /\ take (length pre0 + copyable) array = pre0 ++ take copyable input.
Proof.
  intros Hpre0 Hh (Hpart & Hhave & Htake & Hwant) copyable.
  destruct (truncated_length pre0 Hpre0) as [H4 Hw]. specialize (Hw _ Hh). specialize (Hwant _ Hh).
  assert (Hcl : length (take copyable input) = copyable) by (rewrite length_take; lia).
  destruct (movePartials_some (Z.to_nat (have state)) (take copyable input) (partials state)) as [array Harr].
  { rewrite Hcl, Hhave. lia. }
  destruct (movePartials_at _ _ _ _ Harr Hpart) as [Ha1 Ha2].
  rewrite Hcl, Hhave, Nat2Z.id, Htake in Ha2.
  exists array. split; [|done]. unfold complement. fold copyable. rewrite Harr.
  rewrite !wrap_small by (change (2 ^ 8) with 256; lia). repeat f_equal. lia.
Qed.

Lemma u8u16_still_truncated input pre0 lead state :
  input <> [] -> truncated (pre0 ++ input) -> truncated pre0 -> head pre0 = Some lead -> pending state pre0 ->
  Z.of_nat (length input) + 4 <= INT_MAX ->
  exists state', u8u16 MultiByteToWideChar input state = Ret (S_OK, [], state') /\ pending state' (pre0 ++ input).
Proof.
  intros Hne Hpre1 Hpre0 Hh Hp Hmax. destruct (complement_pending input pre0 lead state) as (array & Hc & Ha & Ht); [done..|].
  destruct Hp as (Hpart & Hhave & Htake & Hwant). specialize (Hwant _ Hh).
  destruct (truncated_length pre0 Hpre0) as [H4 Hw]. specialize (Hw _ Hh).
  assert (Hh1 : head (pre0 ++ input) = Some lead) by (by destruct pre0).
  destruct (truncated_length _ Hpre1) as [_ Hw1]. specialize (Hw1 _ Hh1). rewrite length_app in Hw1.
  replace (Z.to_nat (Z.min (want state) (Z.of_nat (length input)))) with (length input) in * by lia.
  rewrite (take_ge input) in Ht by lia.
  unfold u8u16. destruct (Nat.eqb_spec (length input) 0) as [?%length_zero_iff_nil|_]; [done|].
  destruct (Z.ltb_spec INT_MAX (Z.of_nat (length input) + have state)); [lia|].
  destruct (Z.eqb_spec (have state) 0) as [E|_]; [destruct pre0; [done|]; cbn in Hhave; lia|].
  cbn [negb]. rewrite Hc. cbn [want].
  destruct (Z.eqb_spec (want state - Z.of_nat (length input)) 0); [lia|].
  eexists. split; [done|]. split_and!; cbn; rewrite ?length_app; try done.
  intros l Hl. rewrite Hh1 in Hl. injection Hl as <-. lia.
Qed.

Lemma u8u16_completes input c text pre0 lead pre1 state :
  input <> [] -> is_scalar c -> Forall is_scalar text -> truncated pre0 -> truncated pre1 ->
  head pre0 = Some lead -> pre0 ++ input = utf8 c ++ utf8s text ++ pre1 -> pending state pre0 ->
  Z.of_nat (length input) + 4 <= INT_MAX ->
  exists state', u8u16 MultiByteToWideChar input state = Ret (S_OK, utf16s (c :: text), state')
    /\ pending state' pre1.
Proof.
  intros Hne Hc Ht Hpre0 Hpre1 Hh Heq Hp Hmax.
  destruct (complement_pending input pre0 lead state) as (array & Hcomp & Ha & Htk); [done..|].
  destruct Hp as (Hpart & Hhave & Htake & Hwant). specialize (Hwant _ Hh).
  destruct (truncated_length pre0 Hpre0) as [H4 Hw]. specialize (Hw _ Hh).
  destruct (utf8_shape c Hc) as (lead' & conts & Hs & _ & _ & _ & _ & Hlen & _).
  assert (lead' = lead) as ->.
  { destruct pre0; [done|]. injection Hh as ->. rewrite Hs in Heq. by injection Heq. }
  assert (Hlong : (length pre0 + length input = length (utf8 c) + length (utf8s text ++ pre1))%nat).
  { rewrite <- !length_app. by rewrite Heq. }
  set (copyable := Z.to_nat (Z.min (want state) (Z.of_nat (length input)))) in *.
  assert (Hcopy : (length pre0 + copyable = length (utf8 c))%nat) by lia.
  assert (Hin : input = take copyable input ++ utf8s text ++ pre1 /\ pre0 ++ take copyable input = utf8 c).
  { rewrite <- (take_drop copyable input) in Heq at 1. rewrite app_assoc in Heq.
    apply app_inj_1 in Heq as [Heq1 Heq2]; [|rewrite length_app, length_take; lia].
    split; [by rewrite <- Heq2, take_drop|done]. }
  destruct Hin as [Hin Hcc].
  assert (Hdrop : drop copyable input = utf8s text ++ pre1).
  { rewrite Hin, drop_app_length'; [done|]. rewrite length_take. lia. }
  unfold u8u16. destruct (Nat.eqb_spec (length input) 0) as [?%length_zero_iff_nil|_]; [done|].
  destruct (Z.ltb_spec INT_MAX (Z.of_nat (length input) + have state)); [lia|].
  destruct (Z.eqb_spec (have state) 0) as [E|_]; [destruct pre0; [done|]; cbn in Hhave; lia|].
  cbn [negb]. rewrite Hcomp. cbn [want have partials].
  destruct (Z.eqb_spec (want state - Z.of_nat copyable) 0) as [->|]; [|lia]. cbn [negb].
  rewrite Nat2Z.id, Htk, Hcc.
  replace (utf8 c) with (utf8s [c]) by (cbn; by rewrite app_nil_r).
  assert (Hc8 : length (utf8s [c]) = length (utf8 c)) by (cbn; by rewrite app_nil_r).
  pose proof (utf16s_length [c] ltac:(by constructor)) as Hc16. rewrite length_app in Hlong.
  rewrite convert_text, Hdrop by (by constructor || lia).
  destruct (utf16s [c]) as [|u units] eqn:Eu; [by apply utf16s_nil_inv in Eu|]. rewrite <- Eu in *.
  destruct (u8u16_rest_text text pre1 (utf16s [c]) (Z.of_nat (length input) + have state - Z.of_nat (length (utf16s [c])))
              (mkU8state array 0 0)) as (state' & -> & Hp); [done..|lia|].
  exists state'. split; [|done]. by rewrite <- utf16s_app.
Qed.

Lemma u8u16_text input text pre0 pre1 state :
  input <> [] -> Forall is_scalar text -> truncated pre0 -> truncated pre1 ->
  pre0 ++ input = utf8s text ++ pre1 -> pending state pre0 ->
  Z.of_nat (length input) + 4 <= INT_MAX ->
  exists state', u8u16 MultiByteToWideChar input state = Ret (S_OK, utf16s text, state') /\ pending state' pre1.
Proof.
  intros Hne Ht Hpre0 Hpre1 Heq Hp Hmax. destruct (head pre0) as [lead|] eqn:Hh.
  - destruct Ht as [|c text Hc Ht].
    + cbn in Heq. subst pre1. by apply (u8u16_still_truncated _ _ lead).
    + cbn in Heq. rewrite <- app_assoc in Heq. by apply (u8u16_completes _ _ _ pre0 lead).
  - destruct pre0; [|done]. destruct Hp as (Hpart & Hhave & _). cbn in Heq.
    change (Z.of_nat (@length Z [])) with 0 in Hhave.
    unfold u8u16. rewrite Hhave. cbn [Z.eqb negb].
    destruct (Nat.eqb_spec (length input) 0) as [?%length_zero_iff_nil|_]; [done|].
    destruct (Z.ltb_spec INT_MAX (Z.of_nat (length input) + 0)); [lia|].
    rewrite Heq. apply u8u16_rest_text; [done..|]. rewrite length_app. lia.
Qed.
End text.

(** ** The stream *)

(** The class invariant: the array of partial bytes is never overrun. *)
Definition u8state_wf (state : u8state) : Prop :=
  length (partials state) = 4%nat /\ 0 <= have state /\ 0 <= want state /\ have state + want state <= 4.
Definition stream_wf (s : Utf8TerminalStream) : Prop :=
  u8state_wf (_state s) /\ snapshot_pendingBytes s = have (_state s)
  /\ (snapshot_ended s = true -> snapshot_pendingBytes s = 0).

Lemma backScan_length backwards n : backwards <> [] ->
  n <= (backScan backwards n).2 <= n + Z.of_nat (length backwards) - 1.
Proof.
  revert n. induction backwards as [|b backwards IH]; [done|]. intros n _.
  destruct backwards as [|b' backwards]; [cbn; lia|].
  change (backScan (b :: b' :: backwards) n)
    with (if Z.land b 192 =? 128 then backScan (b' :: backwards) (n + 1) else (b, n)).
  destruct (Z.land b 192 =? 128); [|cbn; lia]. specialize (IH (n + 1) ltac:(done)).
  cbn [length] in *. lia.
Qed.

Lemma codePointLen_bound lead : 0 <= codePointLen lead <= 4.
Proof.
  unfold codePointLen. destruct (lengths !! _) as [n|] eqn:E; cbn; [|lia].
  assert (Forall (fun n => 0 <= n <= 4) lengths) by by_decide.
  by eapply (Forall_lookup_1 (fun n => 0 <= n <= 4)).
Qed.

Section safe.
Context (MultiByteToWideChar : bytes -> wstring).

(** A call that neither overruns the array nor leaves the decoder. *)
Definition decodes (r : Outcome (HRESULT * wstring * u8state)) : Prop :=
  exists hr out state', r = Ret (hr, out, state') /\ u8state_wf state'.

Lemma u8u16_last_safe len8 rest out capa16 state :
  u8state_wf state -> decodes (u8u16_last MultiByteToWideChar len8 rest out capa16 state).
Proof. intros Hw. unfold u8u16_last, decodes. repeat case_match; eauto. Qed.

Lemma u8u16_rest_safe rest out capa16 state :
  u8state_wf state -> decodes (u8u16_rest MultiByteToWideChar rest out capa16 state).
Proof.
  intros Hw. unfold u8u16_rest.
  destruct (Nat.eqb_spec (length rest) 0) as [E|E]; [by apply u8u16_last_safe|].
  pose proof (backScan_length (rev rest) 1) as Hb. rewrite length_rev in Hb.
  destruct (backScan (rev rest) 1) as [lead n]. cbn in Hb.
  assert (1 <= n <= Z.of_nat (length rest)).
  { destruct rest; [done|]. destruct Hb; [|lia]. cbn. by intros [_ ?]%app_eq_nil. }
  pose proof (codePointLen_bound lead).
  destruct (Z.gtb_spec (codePointLen lead) n); [|by apply u8u16_last_safe].
  destruct (movePartials_some 0 (drop (length rest - Z.to_nat n) rest) (partials state)) as [array Ha].
  { rewrite length_drop. lia. }
  rewrite Ha. apply u8u16_last_safe. destruct Hw as (Hl & _). apply movePartials_at in Ha as [Ha _]; [|done].
  split_and!; cbn; [done|..]; rewrite ?wrap_small by (cbn; lia); lia.
Qed.

Lemma u8u16_safe input state : u8state_wf state -> decodes (u8u16 MultiByteToWideChar input state).
Proof.
  intros Hw. unfold u8u16, complement.
  destruct (length input =? 0)%nat; [unfold decodes; eauto|].
  destruct (INT_MAX <? _); [unfold decodes; eauto|].
  destruct (negb (have state =? 0)); [|by apply u8u16_rest_safe].
  destruct Hw as (Hl & Hh & Hwant & H4).
  set (copyable := Z.to_nat (Z.min (want state) (Z.of_nat (length input)))).
  destruct (movePartials_some (Z.to_nat (have state)) (take copyable input) (partials state)) as [array Ha].
  { rewrite length_take. lia. }
  rewrite Ha. apply movePartials_at in Ha as [Ha _]; [|done]. cbn [want have partials].
  rewrite !wrap_small by (change (2 ^ 8) with 256; lia).
  destruct (negb (_ =? 0)).
  - eexists _, _, _. split; [done|]. split_and!; cbn; [done|lia..].
  - destruct (convert _ _ _).
    + eexists _, _, _. split; [done|]. split_and!; cbn; [done|lia..].
    + apply u8u16_rest_safe. split_and!; cbn; [done|lia..].
Qed.
End safe.

Lemma wrap_add_l w a b : wrap w (wrap w a + b) = wrap w (a + b).
Proof. unfold wrap. apply Zplus_mod_idemp_l. Qed.

Section sessions.
Context (MultiByteToWideChar : bytes -> wstring) {W : Type} (write : wstring -> W -> W).

(** The writer that returns. *)
Definition returning (units : wstring) : M W unit := modify (write units).

(** The stream holds [pre], has consumed [bytes_] bytes and written [units] units. *)
Definition streaming (s : Utf8TerminalStream) (pre : bytes) (bytes_ units : Z) : Prop :=
  pending (_state s) pre /\ snapshot_ended s = false /\ snapshot_pendingBytes s = Z.of_nat (length pre)
  /\ snapshot_bytes s = u64 bytes_ /\ snapshot_utf16Units s = u64 units.

Lemma Begin_streaming s : streaming (Begin s) [] 0 0.
Proof. by split_and!. Qed.

Context (converts : forall text, Forall is_scalar text -> MultiByteToWideChar (utf8s text) = utf16s text).
Context (write_nil : forall w, write [] w = w).
Context (write_app : forall a b w, write (a ++ b) w = write b (write a w)).

Lemma Write_text input text pre0 pre1 s bytes_ units w :
  Forall is_scalar text -> truncated pre0 -> truncated pre1 ->
  pre0 ++ input = utf8s text ++ pre1 -> streaming s pre0 bytes_ units ->
  Z.of_nat (length input) + 4 <= INT_MAX ->
  exists s', Write MultiByteToWideChar returning input (s, w) = ((s', write (utf16s text) w), Ret S_OK)
    /\ streaming s' pre1 (bytes_ + Z.of_nat (length input)) (units + Z.of_nat (length (utf16s text))).
Proof.
  intros Ht Hpre0 Hpre1 Heq (Hp & He & Hpb & Hb & Hu) Hmax. unfold Write. rewrite He.
  destruct input as [|i input'] eqn:Ein.
  - rewrite app_nil_r in Heq. destruct Ht as [|c text Hc Ht].
    + cbn in Heq. subst pre1. exists s. cbn. rewrite write_nil, !Z.add_0_r. by split.
    + exfalso. destruct Hpre0 as (c0 & rest & Hc0 & Hr & Hu0).
      destruct (utf8_shape c0 Hc0) as (l0 & k0 & Hs0 & _ & _ & _ & _ & Hl0 & _).
      destruct (utf8_shape c Hc) as (l1 & k1 & Hs1 & _ & _ & _ & _ & Hl1 & _).
      assert (Hlen : length (utf8 c0) = length (utf8 c)).
      { rewrite Hu0, Heq in Hs0. cbn in Hs0. rewrite Hs1 in Hs0. cbn in Hs0. injection Hs0 as <- _. lia. }
      rewrite Hu0, Heq in Hlen. cbn in Hlen. rewrite !length_app in Hlen.
      destruct rest; [done|]. cbn in Hlen. lia.
  - rewrite <- Ein in *.
    destruct (u8u16_text MultiByteToWideChar converts input text pre0 pre1 (_state s))
      as (state' & -> & Hp'); [by subst|done..|].
    assert (Hwr : (match utf16s text with [] => (w, Ret tt) | _ => returning (utf16s text) w end)
                  = (write (utf16s text) w, Ret tt)).
    { destruct (utf16s text); [by rewrite write_nil|done]. }
    rewrite Hwr. eexists. split; [done|].
    split_and!; cbn; [done|done|by destruct Hp' as (_ & -> & _)|rewrite Hb|rewrite Hu]; apply wrap_add_l.
Qed.

Lemma writeAll_text chunks text tail pre s bytes_ units w :
  Forall is_scalar text -> truncated tail -> truncated pre ->
  pre ++ concat chunks = utf8s text ++ tail -> streaming s pre bytes_ units ->
  Forall (fun chunk => Z.of_nat (length chunk) + 4 <= INT_MAX) chunks ->
  exists s', writeAll MultiByteToWideChar returning chunks (s, w)
             = ((s', write (utf16s text) w), Ret (map (fun _ => S_OK) chunks))
    /\ streaming s' tail (bytes_ + Z.of_nat (length (concat chunks))) (units + Z.of_nat (length (utf16s text))).
Proof.
  intros Ht Htail. revert text pre s bytes_ units w Ht.
  induction chunks as [|chunk chunks IH]; intros text pre s bytes_ units w Ht Hpre Heq Hs Hmax.
  - destruct (Write_text [] text pre tail s bytes_ units w) as (s' & Hw & Hs'); [done..|by rewrite app_nil_r in *|done|by vm_compute|].
    unfold Write in Hw. destruct Hs as (_ & He & _). rewrite He in Hw. injection Hw as <- Hw. rewrite <- Hw.
    by exists s.
  - inversion Hmax as [|? ? Hm Hms]; subst. cbn [concat] in Heq. rewrite app_assoc in Heq.
    destruct (cut_text text tail (pre ++ chunk) (concat chunks) Ht Htail Heq) as (t1 & t2 & pre1 & -> & Hc & Hpre1 & Hf).
    apply Forall_app in Ht as [Ht1 Ht2].
    destruct (Write_text chunk t1 pre pre1 s bytes_ units w) as (s1 & Hw & Hs1); [done..|].
    destruct (IH t2 pre1 s1 _ _ (write (utf16s t1) w) Ht2 Hpre1 Hf Hs1 Hms) as (s2 & Hws & Hs2).
    exists s2. split.
    + cbn [writeAll map]. rewrite (run_bind _ _ _ _ _ Hw), (run_bind _ _ _ _ _ Hws). by rewrite utf16s_app, write_app.
    + revert Hs2. cbn [concat]. rewrite utf16s_app, !length_app, !Nat2Z.inj_add, !Z.add_assoc. done.
Qed.
End sessions.

(** ** The properties *)

(** C8: the decoder does not see how a UTF-8 stream is cut. For [MultiByteToWideChar]
    that converts well-formed UTF-8, a session started by [Begin] and given the encoding
    of [text] (and perhaps the first bytes of one more code point) in chunks cut
    anywhere, in the middle of code points too, accepts every chunk, hands the writer
    exactly the UTF-16 encoding of [text], counts the bytes, the units and the pending
    bytes, and [End] reports [ERROR_NO_UNICODE_TRANSLATION] exactly if the stream
    ended inside a code point. *)
Theorem utf8_stream_decodes MultiByteToWideChar {W} (write : wstring -> W -> W) chunks text tail s w :
  (forall text, Forall is_scalar text -> MultiByteToWideChar (utf8s text) = utf16s text) ->
  (forall w, write [] w = w) -> (forall a b w, write (a ++ b) w = write b (write a w)) ->
  Forall is_scalar text -> truncated tail -> concat chunks = utf8s text ++ tail ->
  Forall (fun chunk => Z.of_nat (length chunk) + 4 <= INT_MAX) chunks ->
  exists s', writeAll MultiByteToWideChar (returning write) chunks (Begin s, w)
             = ((s', write (utf16s text) w), Ret (map (fun _ => S_OK) chunks))
    /\ snapshot_bytes s' = u64 (Z.of_nat (length (concat chunks)))
    /\ snapshot_utf16Units s' = u64 (Z.of_nat (length (utf16s text)))
    /\ snapshot_pendingBytes s' = Z.of_nat (length tail)
    /\ (End_ s').1 = (if (length tail =? 0)%nat then S_OK else ERROR_NO_UNICODE_TRANSLATION).
Proof.
  intros Hconv Hnil Happ Ht Htail Heq Hmax.
  destruct (writeAll_text MultiByteToWideChar write Hconv Hnil Happ chunks text tail [] (Begin s) 0 0 w)
    as (s' & Hw & Hp & He & Hpb & Hb & Hu); [done|done|apply truncated_nil|done|apply Begin_streaming|done|].
  exists s'. split_and!; [done..|]. destruct Hp as (_ & Hhave & _). unfold End_. rewrite He, Hhave.
  by destruct tail.
Qed.

(** C9: whatever bytes arrive and whatever the writer does: a write never overruns the
    array of partial bytes and keeps the stream's invariant; a write outside a session is
    refused; and a write that fails, in the conversion or because the writer threw,
    leaves the decoder and all counters as they were, [lastError] apart. *)
Theorem utf8_stream_write_safe MultiByteToWideChar {W} (writer : wstring -> M W unit) input s w :
  stream_wf s -> (forall units w, (writer units w).2 = Ret tt \/ (writer units w).2 = Throw) ->
  exists hr s' w', Write MultiByteToWideChar writer input (s, w) = ((s', w'), Ret hr)
    /\ stream_wf s'
    /\ (hr <> S_OK -> s' = fail hr s)
    /\ (snapshot_ended s = true -> hr = ERROR_INVALID_STATE /\ w' = w).
Proof.
  intros Hwf Hwriter. unfold Write.
  destruct (snapshot_ended s) eqn:He.
  { eexists _, _, _. split; [done|]. split_and!; [|done..]. destruct Hwf as (H1 & H2 & H3). by split_and!. }
  destruct input as [|i input]; [by eexists _, _, _|].
  destruct (u8u16_safe MultiByteToWideChar (i :: input) (_state s)) as (hr & out & state' & -> & Hst); [apply Hwf|].
  assert (Hfail : stream_wf (fail hr s) /\ stream_wf (fail CaughtException s)).
  { destruct Hwf as (H1 & H2 & H3). by split; split_and!. }
  destruct hr; try (eexists _, _, _; split; [done|]; by split_and!).
  set (called := match out with [] => (w, Ret tt) | _ => writer out w end).
  assert (Hcalled : called.2 = Ret tt \/ called.2 = Throw) by (destruct out; [by left|apply Hwriter]).
  destruct called as [w' [[]| | |]]; destruct Hcalled as [[=]|[=]]; eexists _, _, _; split; try done; split_and!; try done.
  all: split_and!; cbn; congruence || done.
Qed.

(** A conversion of well-formed UTF-8, to evaluate the stream with. *)
Fixpoint referenceDecoder (input : bytes) : wstring :=
  match input with
  | [] => []
  | a :: r =>
      if a <? 0x80 then utf16 a ++ referenceDecoder r
      else if a <? 0xE0 then
        match r with
        | b :: r => utf16 ((a - 0xC0) * 64 + (b - 0x80)) ++ referenceDecoder r
        | _ => [0xFFFD]
        end
      else if a <? 0xF0 then
        match r with
        | b :: c :: r => utf16 ((a - 0xE0) * 4096 + (b - 0x80) * 64 + (c - 0x80)) ++ referenceDecoder r
        | _ => [0xFFFD]
        end
      else
        match r with
        | b :: c :: d :: r =>
            utf16 ((a - 0xF0) * 262144 + (b - 0x80) * 4096 + (c - 0x80) * 64 + (d - 0x80)) ++ referenceDecoder r
        | _ => [0xFFFD]
        end
  end.

Lemma referenceDecoder_converts text : Forall is_scalar text -> referenceDecoder (utf8s text) = utf16s text.
Proof.
  induction 1 as [|c text Hc Ht IH]; [done|].
  assert (0 <= c <= 0x10FFFF) by (unfold is_scalar in Hc; lia).
  unfold utf8s, utf16s in *. cbn [map concat]. unfold utf8 at 1.
  destruct (Z.ltb_spec c 0x80); [|destruct (Z.ltb_spec c 0x800); [|destruct (Z.ltb_spec c 0x10000)]]; cbn [app referenceDecoder].
  all: repeat (match goal with
               | |- context [if ?a <? ?b then _ else _] =>
                   first [ destruct (Z.ltb_spec a b) as [?|_]; [|] ; [exfalso; Z.div_mod_to_equations; lia|]
                         | destruct (Z.ltb_spec a b) as [_|?]; [|exfalso; Z.div_mod_to_equations; lia] ]
               end); rewrite IH; f_equal; try (f_equal; Z.div_mod_to_equations; lia).
Qed.

Lemma utf8_stream_decodes_witness :
  exists s', writeAll referenceDecoder (returning (fun units log => log ++ units))
               [[0x61; 0xF0; 0x9F]; [0x98]; []; [0x80; 0xE2]] (Begin Utf8TerminalStream_ctor, [])
             = ((s', [0x61; 0xD83D; 0xDE00]), Ret [S_OK; S_OK; S_OK; S_OK])
    /\ snapshot_bytes s' = 6 /\ snapshot_utf16Units s' = 3 /\ snapshot_pendingBytes s' = 1
    /\ (End_ s').1 = ERROR_NO_UNICODE_TRANSLATION.
Proof.
  apply (utf8_stream_decodes referenceDecoder (fun units log => log ++ units)
           [[0x61; 0xF0; 0x9F]; [0x98]; []; [0x80; 0xE2]] [0x61; 0x1F600] [0xE2] Utf8TerminalStream_ctor []).
  - apply referenceDecoder_converts.
  - intros w. apply app_nil_r.
  - intros a b w. apply app_assoc.
  - repeat constructor; unfold is_scalar; lia.
  - exists 0x2500, [0x94; 0x80]. split_and!; [unfold is_scalar; lia|done|reflexivity].
  - reflexivity.
  - repeat constructor; vm_compute; discriminate.
Defined.

Lemma utf8_stream_write_safe_witness :
  exists hr s' w', Write referenceDecoder (fun _ => throw) [0xC3; 0xA9] (Begin Utf8TerminalStream_ctor, tt)
                   = ((s', w'), Ret hr)
    /\ stream_wf s'
    /\ (hr <> S_OK -> s' = fail hr (Begin Utf8TerminalStream_ctor))
    /\ (snapshot_ended (Begin Utf8TerminalStream_ctor) = true -> hr = ERROR_INVALID_STATE /\ w' = tt).
Proof.
  apply (utf8_stream_write_safe referenceDecoder (fun _ => throw) [0xC3; 0xA9] (Begin Utf8TerminalStream_ctor) tt).
  - split_and!; vm_compute; (reflexivity || discriminate || done).
  - intros units w. right. reflexivity.
Defined.

(** The failed write of the witness, evaluated. *)
Example write_of_throwing_writer :
  (Write referenceDecoder (fun _ => throw) [0xC3; 0xA9] (Begin Utf8TerminalStream_ctor, tt)).2 = Ret CaughtException.
Proof. reflexivity. Qed.
