(* ===== verification/ShimProtocol.v ===== *)
(** * The wire format of the SSH shim

    The byte-level protocol between the SSH shim and the VT7 host
    ([src/vt7/VT7.SshShim/main.cpp]): [AppendU16] ... [AppendString], the [Reader] and
    the messages [RunShim] builds and parses with them. Integers are little-endian and
    strings are counted UTF-16. *)
From S2P Require Import Prelude.

Definition ProtocolVersion : Z := 1.
Definition MaximumFrame : Z := 64 * 1024.

Module Message.
Definition Hello : Z := 1.
Definition Challenge : Z := 2.
Definition Request : Z := 3.
Definition Response : Z := 4.
Definition BarrierWritten : Z := 5.
Definition Complete : Z := 6.
End Message.

Module Action.
Definition Embedded : Z := 1.
Definition System : Z := 2.
Definition Reject : Z := 3.
End Action.

(** [Check(condition, ...)]: throws unless the condition holds. *)
Definition Check_ {S} (condition : bool) : M S unit := if condition then mret tt else throw.

(** ** Writing

    What the function appends to the vector. *)
Definition AppendU16 (value : Z) : bytes := [u8 value; u8 (Z.shiftr value 8)].

(** [for (shift = 0; shift != 8 * n; shift += 8) bytes.push_back((uint8_t)(value >> shift))]. *)
Fixpoint appendShifts (n : nat) (shift value : Z) : bytes :=
  match n with
  | O => []
  | S n => u8 (Z.shiftr value shift) :: appendShifts n (shift + 8) value
  end.
Definition AppendU32 (value : Z) : bytes := appendShifts 4 0 value.
Definition AppendU64 (value : Z) : bytes := appendShifts 8 0 value.

(** The bytes of a [wchar_t] array in memory. *)
Definition memoryOf (value : wstring) : bytes := concat (map (fun c => [u8 c; u8 (Z.shiftr c 8)]) value).

(** [None] if it throws. *)
Definition AppendString (value : wstring) : option bytes :=
  if Z.of_nat (length value) <=? 32767
  then Some (AppendU32 (u32 (Z.of_nat (length value))) ++ memoryOf value)
  else None.

(** ** Reading *)
Record Reader := mkReader { _bytes : bytes; _offset : Z }.

Definition advance (count : Z) : M Reader unit :=
  modify (fun r => mkReader (_bytes r) (u64 (_offset r + count))).

(** [_bytes\[index\]]. *)
Definition byteAt (index : Z) : M Reader Z := fun r =>
  match (if index <? 0 then None else _bytes r !! Z.to_nat index) with
  | Some b => (r, Ret b)
  | None => (r, UB)
  end.

Definition Need (count : Z) : M Reader unit :=
  r ← gets id;
  Check_ (count <=? u64 (Z.of_nat (length (_bytes r)) - _offset r)).

Definition U8 : M Reader Z :=
  Need 1;;
  offset ← gets _offset;
  advance 1;;
  byteAt offset.

Definition U16 : M Reader Z :=
  Need 2;;
  offset ← gets _offset;
  b0 ← byteAt offset;
  b1 ← byteAt (offset + 1);
  advance 2;;
  mret (u16 (Z.lor b0 (Z.shiftl b1 8))).

(** [for (i = 0; i != n; ++i) v |= (uintW_t)_bytes\[_offset + i\] << (i * 8)], [n] rounds left. *)
Fixpoint gather (n : nat) (w i v : Z) : M Reader Z :=
  match n with
  | O => mret v
  | S n =>
      offset ← gets _offset;
      b ← byteAt (offset + i);
      gather n w (i + 1) (Z.lor v (wrap w (Z.shiftl b (i * 8))))
  end.

Definition U32 : M Reader Z := Need 4;; v ← gather 4 32 0 0; advance 4;; mret v.
Definition U64 : M Reader Z := Need 8;; v ← gather 8 64 0 0; advance 8;; mret v.

(** The [count] bytes from [offset], as an array of bytes. *)
Fixpoint bytesFrom (count : nat) (offset : Z) : M Reader bytes :=
  match count with
  | O => mret []
  | S count => b ← byteAt offset; bs ← bytesFrom count (offset + 1); mret (b :: bs)
  end.

(** Memory read as an array of [wchar_t]. *)
Fixpoint wcharsOf (memory : bytes) : wstring :=
  match memory with
  | lo :: hi :: memory => (lo + 256 * hi) :: wcharsOf memory
  | _ => []
  end.

Definition Bytes (count : Z) : M Reader bytes :=
  Need count;;
  offset ← gets _offset;
  value ← bytesFrom (Z.to_nat count) offset;
  advance count;;
  mret value.

Definition String : M Reader wstring :=
  count ← U32;
  Check_ (count <=? 32767);;
  Need (count * 2);;
  offset ← gets _offset;
  value ← bytesFrom (Z.to_nat (count * 2)) offset;
  advance (count * 2);;
  mret (wcharsOf value).

Definition Done : M Reader bool := gets (fun r => _offset r =? Z.of_nat (length (_bytes r))).

(** ** The messages *)

(** [static_cast<int32_t>]. *)
Definition s32 (v : Z) : Z := if v <? 2 ^ 31 then v else v - 2 ^ 32.

Definition helloBody (pid creationTime : Z) (clientNonce : bytes) : bytes :=
  [Message.Hello] ++ AppendU16 ProtocolVersion ++ AppendU32 pid ++ AppendU64 creationTime ++ clientNonce.

(** The generation and the server's nonce. *)
Definition readChallenge : M Reader (Z * bytes) :=
  message ← U8;
  (if message =? Message.Challenge then version ← U16; Check_ (version =? ProtocolVersion) else throw);;
  generation ← U64;
  serverNonce ← Bytes 16;
  done ← Done;
  Check_ done;;
  mret (generation, serverNonce).

Fixpoint appendStrings (values : list wstring) : option bytes :=
  match values with
  | [] => Some []
  | value :: values => v ← AppendString value; vs ← appendStrings values; Some (v ++ vs)
  end.

(** The request without its MAC. *)
Definition requestBody (pid creationTime : Z) (clientNonce serverNonce : bytes) (generation : Z)
    (inFlags outFlags errFlags : Z) (consoleProcesses : list Z) (currentDirectory : wstring)
    (arguments : list wstring) : option bytes :=
  directory ← AppendString currentDirectory;
  if Z.of_nat (length arguments) <=? 256 then
    strings ← appendStrings arguments;
    Some ([Message.Request] ++ AppendU16 ProtocolVersion ++ AppendU32 pid ++ AppendU64 creationTime
          ++ clientNonce ++ serverNonce ++ AppendU64 generation
          ++ AppendU32 inFlags ++ AppendU32 outFlags ++ AppendU32 errFlags
          ++ AppendU32 (u32 (Z.of_nat (length consoleProcesses))) ++ concat (map AppendU32 consoleProcesses)
          ++ directory ++ AppendU32 (u32 (Z.of_nat (length arguments))) ++ strings)
  else None.

Record HostResponse := mkHostResponse {
  action : Z; exitCode : Z; requestId : bytes; reason : wstring; first : wstring; second : wstring }.

Definition readResponse : M Reader HostResponse :=
  message ← U8;
  Check_ (message =? Message.Response);;
  action ← U8;
  exitCode ← U32;
  requestId ← Bytes 16;
  reason ← String;
  first ← String;
  second ← String;
  done ← Done;
  Check_ done;;
  mret (mkHostResponse action (s32 exitCode) requestId reason first second).

(** The barrier acknowledgement without its MAC. *)
Definition barrierBody (requestId serverNonce : bytes) : bytes :=
  [Message.BarrierWritten] ++ requestId ++ serverNonce.

Definition readComplete (requestId : bytes) : M Reader Z :=
  message ← U8;
  Check_ (message =? Message.Complete);;
  status ← U32;
  completedId ← Bytes 16;
  done ← Done;
  Check_ (bool_decide (completedId = requestId) && done);;
  mret (s32 status).

(** Parses a frame from its start; [None] if the parser throws. *)
Definition parseFrame {A} (parser : M Reader A) (body : bytes) : Outcome A := (parser (mkReader body 0)).2.

(** ** A logic of readers

    [at_ pre rem]: the reader stands between [pre] and [rem]. *)
Definition at_ (pre rem : bytes) : Reader := mkReader (pre ++ rem) (Z.of_nat (length pre)).
Definition fits (pre rem : bytes) : Prop := Z.of_nat (length (pre ++ rem)) < 2 ^ 64.

(** [p] reads [v] from [enc]. *)
Definition reads {A} (p : M Reader A) (v : A) (enc : bytes) : Prop :=
  forall pre post, fits pre (enc ++ post) -> p (at_ pre (enc ++ post)) = (at_ (pre ++ enc) post, Ret v).

(** [p] stays within the buffer, and whatever it accepts satisfies [Q]. *)
Definition accepts {A} (p : M Reader A) (Q : A -> bytes -> Prop) : Prop :=
  forall pre rem, fits pre rem -> Forall is_byte rem ->
  match p (at_ pre rem) with
  | (r', Ret v) => exists used post, rem = used ++ post /\ r' = at_ (pre ++ used) post /\ Q v used
  | (_, Throw) => True
  | _ => False
  end.

Lemma at_app pre used post : at_ pre (used ++ post) = mkReader ((pre ++ used) ++ post) (Z.of_nat (length pre)).
Proof. unfold at_. by rewrite app_assoc. Qed.

Lemma fits_app pre used post : fits pre (used ++ post) <-> fits (pre ++ used) post.
Proof. unfold fits. by rewrite app_assoc. Qed.

Section reader_rules.
Context {A B : Type}.
Implicit Types (p : M Reader A) (k : A -> M Reader B).

Lemma reads_bind p k v w e1 e2 : reads p v e1 -> reads (k v) w e2 -> reads (mbind k p) w (e1 ++ e2).
Proof.
  intros Hp Hk pre post Hf. rewrite <- app_assoc in *. rewrite (run_bind _ _ _ _ _ (Hp _ _ Hf)).
  rewrite Hk by (by rewrite <- fits_app). by rewrite app_assoc.
Qed.

Lemma reads_ret (v : A) : reads (mret v) v [].
Proof. intros pre post _. by rewrite app_nil_r. Qed.

Lemma accepts_bind p k Q1 Q2 :
  accepts p Q1 -> (forall v used, Q1 v used -> Forall is_byte used -> accepts (k v) (fun w used2 => Q2 w (used ++ used2))) ->
  accepts (mbind k p) Q2.
Proof.
  intros Hp Hk pre rem Hf Hb. unfold mbind, M_bind. specialize (Hp pre rem Hf Hb).
  destruct (p (at_ pre rem)) as [r' [v| | |]]; try done.
  destruct Hp as (used & post & -> & -> & HQ). apply Forall_app in Hb as [Hb1 Hb2].
  specialize (Hk v used HQ Hb1 (pre ++ used) post). rewrite <- fits_app in Hk. specialize (Hk Hf Hb2).
  destruct (k v (at_ (pre ++ used) post)) as [r' [w| | |]]; try done.
  destruct Hk as (used2 & post2 & -> & -> & HQ2). exists (used ++ used2), post2. by rewrite !app_assoc.
Qed.

Lemma accepts_ret (v : A) (Q : A -> bytes -> Prop) : Q v [] -> accepts (mret v) Q.
Proof. intros HQ pre rem _ _. exists [], rem. cbn. rewrite app_nil_r. done. Qed.

Lemma accepts_throw (Q : A -> bytes -> Prop) : accepts throw Q.
Proof. by intros pre rem _ _. Qed.

Lemma accepts_mono p (Q1 Q2 : A -> bytes -> Prop) :
  accepts p Q1 -> (forall v used, Q1 v used -> Q2 v used) -> accepts p Q2.
Proof.
  intros Hp HQ pre rem Hf Hb. specialize (Hp pre rem Hf Hb). destruct (p (at_ pre rem)) as [r' [v| | |]]; try done.
  destruct Hp as (used & post & ? & ? & ?). eauto 10.
Qed.
End reader_rules.

Lemma reads_check b : b = true -> reads (Check_ b) tt [].
Proof. intros ->. apply reads_ret. Qed.

Lemma accepts_check b (Q : unit -> bytes -> Prop) : (b = true -> Q tt []) -> accepts (Check_ b) Q.
Proof. unfold Check_. destruct b; intros HQ; [apply accepts_ret; auto|apply accepts_throw]. Qed.

(** ** Integers *)

(** The number little-endian bytes denote. *)
Fixpoint leValue (bs : bytes) : Z :=
  match bs with [] => 0 | b :: bs => b + 256 * leValue bs end.

Lemma leValue_bound bs : Forall is_byte bs -> 0 <= leValue bs < 256 ^ Z.of_nat (length bs).
Proof.
  induction 1 as [|b bs Hb Hbs IH]; cbn [leValue length]; [lia|].
  rewrite Nat2Z.inj_succ, Z.pow_succ_r by lia. unfold is_byte in Hb. nia.
Qed.

Lemma appendShifts_value n shift v : 0 <= shift ->
  leValue (appendShifts n shift v) = Z.shiftr v shift mod 256 ^ Z.of_nat n
  /\ length (appendShifts n shift v) = n /\ Forall is_byte (appendShifts n shift v).
Proof.
  revert shift. induction n as [|n IH]; intros shift Hs; cbn [appendShifts leValue length].
  { by rewrite Z.mod_1_r. }
  destruct (IH (shift + 8)) as (-> & -> & Hb); [lia|]. split_and!; [|done|].
  - replace (Z.shiftr v (shift + 8)) with (Z.shiftr v shift / 256).
    + rewrite Nat2Z.inj_succ, Z.pow_succ_r by lia. unfold wrap. change (2 ^ 8) with 256.
      rewrite Z.rem_mul_r by lia. lia.
    + rewrite <- Z.shiftr_shiftr by lia. by rewrite (Z.shiftr_div_pow2 _ 8) by lia.
  - constructor; [|done]. apply (wrap_bound 8). lia.
Qed.

Lemma appendShifts_leValue bs : Forall is_byte bs -> appendShifts (length bs) 0 (leValue bs) = bs.
Proof.
  assert (H : forall n shift v, 0 <= shift ->
            appendShifts n (shift + 8) v = appendShifts n shift (v / 256)).
  { induction n as [|n IHn]; intros shift v Hs; [done|]. cbn. rewrite IHn by lia. f_equal. f_equal.
    rewrite (Z.add_comm shift 8), <- Z.shiftr_shiftr by lia. by rewrite (Z.shiftr_div_pow2 v 8) by lia. }
  induction 1 as [|b bs Hb Hbs IH]; [done|]. cbn [length leValue appendShifts]. rewrite H by lia. f_equal.
  - rewrite Z.shiftr_0_r. unfold wrap. change (2 ^ 8) with 256. unfold is_byte in Hb.
    rewrite Z.mul_comm, Z_mod_plus_full. apply Z.mod_small. lia.
  - unfold is_byte in Hb. rewrite (Z.mul_comm 256), Z.div_add, Z.div_small by lia. exact IH.
Qed.

Lemma lor_shiftl_low x b i : 0 <= i -> 0 <= x < 2 ^ i -> 0 <= b -> Z.lor x (Z.shiftl b i) = x + b * 2 ^ i.
Proof.
  intros Hi Hx Hb. rewrite <- Z.shiftl_mul_pow2 by lia.
  assert (Hland : Z.land x (Z.shiftl b i) = 0).
  { apply Z.bits_inj'. intros j Hj. rewrite Z.land_spec, Z.bits_0, Z.shiftl_spec by lia.
    destruct (Z.ltb_spec j i).
    - rewrite (Z.testbit_neg_r b (j - i)) by lia. apply andb_false_r.
    - destruct (Z.eq_dec x 0) as [->|]; [by rewrite Z.bits_0|].
      rewrite (Z.bits_above_log2 x); [done|lia|]. apply Z.lt_le_trans with i; [|done]. apply Z.log2_lt_pow2; lia. }
  rewrite <- Z.lxor_lor by done. symmetry. by apply Z.add_nocarry_lxor.
Qed.

Lemma wrap_shiftl_byte w i b :
  is_byte b -> 0 <= i -> i * 8 + 8 <= w -> wrap w (Z.shiftl b (i * 8)) = Z.shiftl b (i * 8).
Proof.
  intros Hb Hi Hw. apply wrap_small. rewrite Z.shiftl_mul_pow2 by lia.
  assert (2 ^ (i * 8 + 8) <= 2 ^ w) by (apply Z.pow_le_mono_r; lia).
  rewrite Z.pow_add_r in H by lia. unfold is_byte in Hb. change (2 ^ 8) with 256 in H.
  pose proof (Z.pow_pos_nonneg 2 (i * 8)). nia.
Qed.

(** ** The primitives *)
Section primitives.
Implicit Types (pre rem used post bs : bytes).

Lemma Need_at n pre rem : fits pre rem ->
  Need n (at_ pre rem) = (at_ pre rem, if n <=? Z.of_nat (length rem) then Ret tt else Throw).
Proof.
  intros Hf. unfold Need. rewrite run_gets. cbn [id _bytes _offset at_].
  unfold fits in Hf. rewrite length_app in *.
  rewrite wrap_small by (change (2 ^ 64) with 18446744073709551616 in *; lia).
  replace (Z.of_nat (length pre + length rem) - Z.of_nat (length pre)) with (Z.of_nat (length rem)) by lia.
  by destruct (n <=? Z.of_nat (length rem)).
Qed.

Lemma Need_reads n used post pre : n = Z.of_nat (length used) -> fits pre (used ++ post) ->
  Need n (at_ pre (used ++ post)) = (at_ pre (used ++ post), Ret tt).
Proof.
  intros -> Hf. rewrite Need_at by done. rewrite length_app.
  destruct (Z.leb_spec (Z.of_nat (length used)) (Z.of_nat (length used + length post))); [done|lia].
Qed.

Lemma byteAt_at pre used b rem :
  byteAt (Z.of_nat (length pre) + Z.of_nat (length used)) (at_ pre (used ++ b :: rem))
  = (at_ pre (used ++ b :: rem), Ret b).
Proof.
  unfold byteAt. destruct (Z.ltb_spec (Z.of_nat (length pre) + Z.of_nat (length used)) 0); [lia|]. cbn [_bytes at_].
  rewrite app_assoc. rewrite lookup_app_r by (rewrite length_app; lia).
  replace (Z.to_nat (Z.of_nat (length pre) + Z.of_nat (length used)) - length (pre ++ used))%nat with 0%nat;
    [done|rewrite length_app; lia].
Qed.

Lemma advance_at n pre used post : n = Z.of_nat (length used) -> fits pre (used ++ post) ->
  advance n (at_ pre (used ++ post)) = (at_ (pre ++ used) post, Ret tt).
Proof.
  intros -> Hf. unfold advance, modify. rewrite at_app. unfold at_. cbn [_bytes _offset]. repeat f_equal.
  unfold fits in Hf. rewrite !length_app in *. rewrite wrap_small by lia. lia.
Qed.

Lemma gather_at bs w v pre used post : Forall is_byte bs ->
  0 <= v < 2 ^ (Z.of_nat (length used) * 8) -> (Z.of_nat (length used) + Z.of_nat (length bs)) * 8 <= w ->
  gather (length bs) w (Z.of_nat (length used)) v (at_ pre (used ++ bs ++ post))
  = (at_ pre (used ++ bs ++ post), Ret (v + leValue bs * 2 ^ (Z.of_nat (length used) * 8))).
Proof.
  intros Hb. revert used v. induction Hb as [|b bs Hb Hbs IH]; intros used v Hv Hw; cbn [length gather leValue].
  { cbn. unfold mret, M_ret. do 2 f_equal. lia. }
  rewrite run_gets. cbn [_offset at_]. cbn [app]. rewrite (run_bind _ _ _ _ _ (byteAt_at _ _ _ _)).
  cbn [length] in Hw. rewrite Nat2Z.inj_succ in Hw.
  rewrite wrap_shiftl_byte by (done || lia). unfold is_byte in Hb. rewrite lor_shiftl_low by lia.
  specialize (IH (used ++ [b]) (v + b * 2 ^ (Z.of_nat (length used) * 8))).
  rewrite length_app, Nat2Z.inj_add in IH. change (Z.of_nat (length [b])) with 1 in IH.
  rewrite <- (app_assoc used [b]) in IH. cbn [app] in IH.
  replace ((Z.of_nat (length used) + 1) * 8) with (Z.of_nat (length used) * 8 + 8) in IH by lia.
  rewrite Z.pow_add_r in IH by lia. change (2 ^ 8) with 256 in IH.
  rewrite IH; [|nia|lia]. do 2 f_equal. lia.
Qed.

Lemma bytesFrom_at bs pre used post :
  bytesFrom (length bs) (Z.of_nat (length pre) + Z.of_nat (length used)) (at_ pre (used ++ bs ++ post))
  = (at_ pre (used ++ bs ++ post), Ret bs).
Proof.
  revert used. induction bs as [|b bs IH]; intros used; cbn [length bytesFrom app]; [done|].
  rewrite (run_bind _ _ _ _ _ (byteAt_at _ _ _ _)).
  specialize (IH (used ++ [b])). rewrite length_app, Nat2Z.inj_add, Z.add_assoc, <- app_assoc in IH.
  cbn [app] in IH. by rewrite (run_bind _ _ _ _ _ IH).
Qed.

(** A primitive that reads exactly [n] bytes or throws. *)
Lemma fixed_accepts {A} (p : M Reader A) n (f : bytes -> A) :
  (forall used, length used = n -> Forall is_byte used -> reads p (f used) used) ->
  (forall pre rem, fits pre rem -> (length rem < n)%nat -> (p (at_ pre rem)).2 = Throw) ->
  accepts p (fun v used => length used = n /\ v = f used).
Proof.
  intros Hr Ht pre rem Hf Hb. destruct (Nat.ltb_spec (length rem) n) as [Hlt|Hge].
  - specialize (Ht pre rem Hf Hlt). by destruct (p (at_ pre rem)) as [r' [v| | |]].
  - rewrite <- (take_drop n rem) in Hf, Hb |- *. apply Forall_app in Hb as [Hb _].
    assert (Hlen : length (take n rem) = n) by (rewrite length_take; lia).
    rewrite (Hr (take n rem)) by done. exists (take n rem), (drop n rem). done.
Qed.

Lemma Need_throws {A} n (k : unit -> M Reader A) pre rem : fits pre rem -> (length rem < Z.to_nat n)%nat ->
  (mbind k (Need n) (at_ pre rem)).2 = Throw.
Proof.
  intros Hf Hlt. unfold mbind, M_bind. rewrite Need_at by done.
  destruct (Z.leb_spec n (Z.of_nat (length rem))); [lia|done].
Qed.

Lemma reads_U8 used : length used = 1%nat -> Forall is_byte used -> reads U8 (leValue used) used.
Proof.
  intros Hl Hb pre post Hf. destruct used as [|b []]; [done| |done].
  unfold U8. rewrite (run_bind _ _ _ _ _ (Need_reads _ _ _ _ eq_refl Hf)), run_gets.
  rewrite (run_bind _ _ _ _ _ (advance_at _ _ _ _ eq_refl Hf)). cbn [_offset at_].
  pose proof (byteAt_at pre [] b post) as Hb0. cbn [app length] in Hb0. rewrite Z.add_0_r in Hb0. unfold at_ in *.
  rewrite <- app_assoc. cbn [app leValue]. unfold byteAt in *. cbn [_bytes] in *.
  destruct (if _ <? 0 then _ else _); [|done]. injection Hb0 as ->. do 2 f_equal. lia.
Qed.

Lemma reads_U16 used : length used = 2%nat -> Forall is_byte used -> reads U16 (leValue used) used.
Proof.
  intros Hl Hb pre post Hf. destruct used as [|b0 [|b1 []]]; [done|done| |done].
  unfold U16. rewrite (run_bind _ _ _ _ _ (Need_reads _ _ _ _ eq_refl Hf)), run_gets. cbn [_offset at_].
  pose proof (byteAt_at pre [] b0 (b1 :: post)) as H0. cbn [app length] in H0. rewrite Z.add_0_r in H0.
  pose proof (byteAt_at pre [b0] b1 post) as H1. cbn [app length] in H1.
  cbn [app]. rewrite (run_bind _ _ _ _ _ H0), (run_bind _ _ _ _ _ H1).
  rewrite (run_bind _ _ _ _ _ (advance_at 2 pre [b0; b1] post eq_refl Hf)).
  inversion Hb as [|? ? Hb0 Hb']; subst. inversion Hb' as [|? ? Hb1 _]; subst. unfold is_byte in *.
  unfold mret, M_ret. do 2 f_equal. cbn [leValue]. change 8 with (1 * 8).
  rewrite (lor_shiftl_low b0 b1 (1 * 8)) by (cbn; lia). change (2 ^ (1 * 8)) with 256.
  rewrite wrap_small by (cbn; lia). lia.
Qed.

(** The two loops over a fixed number of bytes. *)
Lemma reads_gather n w used : length used = n -> Forall is_byte used -> Z.of_nat n * 8 <= w ->
  reads (Need (Z.of_nat n);; v ← gather n w 0 0; advance (Z.of_nat n);; mret v) (leValue used) used.
Proof.
  intros <- Hb Hw pre post Hf. rewrite (run_bind _ _ _ _ _ (Need_reads _ _ _ _ eq_refl Hf)).
  pose proof (gather_at used w 0 pre [] post Hb) as Hg. cbn [app length] in Hg.
  rewrite (run_bind _ _ _ _ _ (Hg ltac:(cbn; lia) ltac:(lia))).
  rewrite (run_bind _ _ _ _ _ (advance_at _ _ _ _ eq_refl Hf)).
  unfold mret, M_ret. do 2 f_equal. cbn. lia.
Qed.

Lemma reads_Bytes n used : length used = n -> reads (Bytes (Z.of_nat n)) used used.
Proof.
  intros <- pre post Hf. unfold Bytes. rewrite (run_bind _ _ _ _ _ (Need_reads _ _ _ _ eq_refl Hf)), run_gets.
  pose proof (bytesFrom_at used pre [] post) as Hb. cbn [app length] in Hb. rewrite Z.add_0_r in Hb.
  cbn [_offset at_]. rewrite Nat2Z.id, (run_bind _ _ _ _ _ Hb).
  by rewrite (run_bind _ _ _ _ _ (advance_at _ _ _ _ eq_refl Hf)).
Qed.

Lemma accepts_U8 : accepts U8 (fun v used => length used = 1%nat /\ v = leValue used).
Proof. apply fixed_accepts; [apply reads_U8|]. intros. by apply Need_throws. Qed.

Lemma accepts_U16 : accepts U16 (fun v used => length used = 2%nat /\ v = leValue used).
Proof. apply fixed_accepts; [apply reads_U16|]. intros. by apply Need_throws. Qed.

Lemma accepts_U32 : accepts U32 (fun v used => length used = 4%nat /\ v = leValue used).
Proof. apply fixed_accepts; [intros; by apply (reads_gather 4)|]. intros. by apply Need_throws. Qed.

Lemma accepts_U64 : accepts U64 (fun v used => length used = 8%nat /\ v = leValue used).
Proof. apply fixed_accepts; [intros; by apply (reads_gather 8)|]. intros. by apply Need_throws. Qed.

Lemma accepts_Bytes n : accepts (Bytes (Z.of_nat n)) (fun v used => length used = n /\ v = used).
Proof. apply (fixed_accepts _ _ id); [intros; by apply reads_Bytes|]. intros. apply Need_throws; [done|lia]. Qed.
End primitives.

(** ** Strings *)
Lemma wcharsOf_memoryOf value : Forall is_wchar value -> wcharsOf (memoryOf value) = value.
Proof.
  unfold memoryOf. induction 1 as [|c value Hc Hv IH]; [done|]. cbn [map concat app wcharsOf]. rewrite IH. f_equal.
  unfold is_wchar in Hc. unfold wrap. change (2 ^ 8) with 256. rewrite Z.shiftr_div_pow2 by lia.
  change (2 ^ 8) with 256. rewrite (Z.mod_small (c / 256)) by (split; [apply Z.div_pos|apply Z.div_lt_upper_bound]; lia).
  rewrite (Z.div_mod c 256) at 3 by lia. lia.
Qed.

Lemma length_memoryOf value : length (memoryOf value) = (2 * length value)%nat.
Proof. unfold memoryOf. induction value as [|c value IH]; [done|]. cbn [map concat app length]. rewrite IH. lia. Qed.

Lemma memoryOf_bytes value : Forall is_byte (memoryOf value).
Proof.
  unfold memoryOf. induction value as [|c value IH]; [constructor|]. cbn [map concat app].
  repeat constructor; try done; apply (wrap_bound 8); lia.
Qed.

(** Memory of even length is the memory of its characters. *)
Lemma memoryOf_wcharsOf n memory : length memory = (2 * n)%nat -> Forall is_byte memory ->
  memoryOf (wcharsOf memory) = memory /\ Forall is_wchar (wcharsOf memory) /\ length (wcharsOf memory) = n.
Proof.
  revert memory. induction n as [|n IH]; intros memory Hl Hb; [by destruct memory|].
  destruct memory as [|lo [|hi memory]]; cbn in Hl; [lia|lia|]. inversion Hb as [|? ? Hlo Hb']; subst.
  inversion Hb' as [|? ? Hhi Hm]; subst. destruct (IH memory) as (H1 & H2 & H3); [lia|done|].
  cbn [wcharsOf length]. unfold memoryOf in *. cbn [map concat app]. rewrite H1. unfold is_byte in *.
  split_and!; [|constructor; [unfold is_wchar; lia|done]|lia].
  unfold wrap. change (2 ^ 8) with 256. rewrite Z.shiftr_div_pow2 by lia. change (2 ^ 8) with 256.
  rewrite !(Z.mul_comm 256), Z.div_add, Z_mod_plus_full, (Z.div_small lo), !Z.mod_small by lia. done.
Qed.

Lemma leValue_append n v : 0 <= v < 256 ^ Z.of_nat n -> leValue (appendShifts n 0 v) = v.
Proof. intros Hv. destruct (appendShifts_value n 0 v) as (-> & _); [lia|]. rewrite Z.shiftr_0_r. by apply Z.mod_small. Qed.

Lemma reads_U32 v : 0 <= v < 2 ^ 32 -> reads U32 v (AppendU32 v).
Proof.
  intros Hv. destruct (appendShifts_value 4 0 v) as (_ & Hl & Hb); [lia|].
  rewrite <- (leValue_append 4 v) at 1 by done. by apply (reads_gather 4).
Qed.

Lemma reads_U64 v : 0 <= v < 2 ^ 64 -> reads U64 v (AppendU64 v).
Proof.
  intros Hv. destruct (appendShifts_value 8 0 v) as (_ & Hl & Hb); [lia|].
  rewrite <- (leValue_append 8 v) at 1 by done. by apply (reads_gather 8).
Qed.

Lemma AppendU16_shifts v : AppendU16 v = appendShifts 2 0 v.
Proof. done. Qed.

Lemma reads_U16_append v : 0 <= v < 2 ^ 16 -> reads U16 v (AppendU16 v).
Proof.
  intros Hv. destruct (appendShifts_value 2 0 v) as (_ & Hl & Hb); [lia|].
  rewrite <- (leValue_append 2 v) at 1 by done. by apply reads_U16.
Qed.

Lemma reads_U8_byte b : is_byte b -> reads U8 b [b].
Proof. intros Hb. rewrite <- (Z.add_0_r b) at 1. apply (reads_U8 [b]); [done|by constructor]. Qed.

(** The bytes of a counted string. *)
Lemma AppendString_some value enc : AppendString value = Some enc ->
  Z.of_nat (length value) <= 32767 /\ enc = AppendU32 (Z.of_nat (length value)) ++ memoryOf value.
Proof.
  unfold AppendString. destruct (Z.leb_spec (Z.of_nat (length value)) 32767); [|done]. intros [= <-].
  split; [done|]. by rewrite (wrap_small 32) by (change (2 ^ 32) with 4294967296; lia).
Qed.

Lemma reads_String value enc : Forall is_wchar value -> AppendString value = Some enc -> reads String value enc.
Proof.
  intros Hw [Hlen ->]%AppendString_some. apply (reads_bind _ _ (Z.of_nat (length value))); [apply reads_U32; lia|].
  intros pre post Hf. rewrite (run_bind _ _ _ _ _ (reads_check (Z.of_nat (length value) <=? 32767) ltac:(lia) pre (memoryOf value ++ post) Hf)).
  rewrite app_nil_r.
  assert (Hn : Z.of_nat (length value) * 2 = Z.of_nat (length (memoryOf value))) by (rewrite length_memoryOf; lia).
  rewrite Hn, (run_bind _ _ _ _ _ (Need_reads _ _ _ _ eq_refl Hf)), run_gets.
  pose proof (bytesFrom_at (memoryOf value) pre [] post) as Hb. cbn [app length] in Hb. rewrite Z.add_0_r in Hb.
  cbn [_offset at_]. rewrite Nat2Z.id, (run_bind _ _ _ _ _ Hb).
  rewrite (run_bind _ _ _ _ _ (advance_at _ _ _ _ eq_refl Hf)). by rewrite wcharsOf_memoryOf.
Qed.

Lemma accepts_String : accepts String (fun v used => Forall is_wchar v /\ AppendString v = Some used).
Proof.
  eapply accepts_bind; [apply accepts_U32|]. intros count used1 [Hl1 ->] Hb1.
  eapply accepts_bind; [apply (accepts_check _ (fun _ used => used = [] /\ leValue used1 <= 32767)); intros; split; [done|lia]|].
  intros [] ? [-> Hmax] _. cbn [app].
  pose proof (leValue_bound used1 Hb1) as Hbound.
  set (n := Z.to_nat (leValue used1)).
  assert (Hn : leValue used1 * 2 = Z.of_nat (2 * n)) by lia. rewrite Hn.
  apply (accepts_mono _ (fun v used => length used = (2 * n)%nat /\ v = wcharsOf used /\ Forall is_byte used)).
  2: { intros v used (Hl & -> & Hb). destruct (memoryOf_wcharsOf n used Hl Hb) as (Hm & Hw & Hlen). split; [done|].
       unfold AppendString. rewrite Hlen. destruct (Z.leb_spec (Z.of_nat n) 32767); [|lia].
       rewrite (wrap_small 32) by (change (2 ^ 32) with 4294967296; lia). do 2 f_equal; [|done].
       rewrite <- (appendShifts_leValue used1 Hb1), Hl1. unfold AppendU32. f_equal. lia. }
  intros pre rem Hf Hb. unfold mbind at 1, M_bind at 1. rewrite Need_at by done.
  destruct (Z.leb_spec (Z.of_nat (2 * n)) (Z.of_nat (length rem))) as [Hle|]; [|done].
  rewrite <- (take_drop (2 * n) rem) in Hf, Hb |- *. apply Forall_app in Hb as [Hb _].
  assert (Hlen : length (take (2 * n) rem) = (2 * n)%nat) by (rewrite length_take; lia).
  rewrite run_gets. cbn [_offset at_].
  pose proof (bytesFrom_at (take (2 * n) rem) pre [] (drop (2 * n) rem)) as Hbf.
  cbn [app length] in Hbf. rewrite Z.add_0_r, Hlen in Hbf. rewrite Nat2Z.id, (run_bind _ _ _ _ _ Hbf).
  rewrite (run_bind _ _ _ _ _ (advance_at (Z.of_nat (2 * n)) pre (take (2 * n) rem) _ ltac:(by rewrite Hlen) Hf)). unfold mret, M_ret. eauto 10.
Qed.

(** ** Whole frames

    Parsers that end with [Done]. *)
Definition readsAll {A} (p : M Reader A) (v : A) (enc : bytes) : Prop :=
  forall pre, fits pre enc -> (p (at_ pre enc)).2 = Ret v.
Definition acceptsAll {A} (p : M Reader A) (Q : A -> bytes -> Prop) : Prop :=
  forall pre rem, fits pre rem -> Forall is_byte rem ->
  match (p (at_ pre rem)).2 with Ret v => Q v rem | Throw => True | _ => False end.

Section frames.
Context {A B : Type}.

Lemma readsAll_bind (p : M Reader A) (k : A -> M Reader B) v w e1 e2 :
  reads p v e1 -> readsAll (k v) w e2 -> readsAll (mbind k p) w (e1 ++ e2).
Proof.
  intros Hp Hk pre Hf. rewrite (run_bind _ _ _ _ _ (Hp _ _ Hf)). apply Hk. by rewrite <- fits_app.
Qed.

Lemma acceptsAll_bind (p : M Reader A) (k : A -> M Reader B) Q1 Q2 :
  accepts p Q1 ->
  (forall v used, Q1 v used -> Forall is_byte used -> acceptsAll (k v) (fun w rest => Q2 w (used ++ rest))) ->
  acceptsAll (mbind k p) Q2.
Proof.
  intros Hp Hk pre rem Hf Hb. unfold mbind, M_bind. specialize (Hp pre rem Hf Hb).
  destruct (p (at_ pre rem)) as [r' [v| | |]]; try done.
  destruct Hp as (used & post & -> & -> & HQ). apply Forall_app in Hb as [Hb1 Hb2].
  apply (Hk v used HQ Hb1 (pre ++ used) post); [by rewrite <- fits_app|done].
Qed.

Lemma Done_at pre rem : Done (at_ pre rem) = (at_ pre rem, Ret (length rem =? 0)%nat).
Proof.
  unfold Done, gets. cbn [_offset _bytes at_]. rewrite length_app. do 2 f_equal.
  destruct (Nat.eqb_spec (length rem) 0), (Z.eqb_spec (Z.of_nat (length pre)) (Z.of_nat (length pre + length rem))); lia || done.
Qed.

Lemma readsAll_done (f : bool -> bool) (w : A) :
  f true = true -> readsAll (done ← Done; Check_ (f done);; mret w) w [].
Proof. intros Hf pre _. rewrite (run_bind _ _ _ _ _ (Done_at _ _)). cbn. by rewrite Hf. Qed.

Lemma acceptsAll_done (f : bool -> bool) (w : A) (Q : A -> bytes -> Prop) :
  f false = false -> (f true = true -> Q w []) -> acceptsAll (done ← Done; Check_ (f done);; mret w) Q.
Proof.
  intros Hf HQ pre rem _ _. rewrite (run_bind _ _ _ _ _ (Done_at _ _)).
  destruct rem as [|b rem]; cbn [length Nat.eqb].
  - destruct (f true); [by apply HQ|done].
  - by rewrite Hf.
Qed.

Lemma readsAll_check b (k : unit -> M Reader A) w enc : b = true -> readsAll (k tt) w enc -> readsAll (mbind k (Check_ b)) w enc.
Proof. intros -> Hk pre Hf. by apply Hk. Qed.

Lemma acceptsAll_parse (p : M Reader A) (enc : A -> bytes -> Prop) body :
  acceptsAll p enc -> Forall is_byte body -> Z.of_nat (length body) <= MaximumFrame ->
  match parseFrame p body with Ret v => enc v body | Throw => True | _ => False end.
Proof.
  intros Ha Hb Hm. apply (Ha [] body); [|done]. unfold fits, MaximumFrame in *. cbn [app].
  change (2 ^ 64) with 18446744073709551616. lia.
Qed.

Lemma parseFrame_exact (p : M Reader A) (enc : A -> bytes -> Prop) body v :
  (forall v body, enc v body -> readsAll p v body) -> acceptsAll p enc ->
  Forall is_byte body -> Z.of_nat (length body) <= MaximumFrame ->
  (parseFrame p body = Ret v <-> enc v body) /\ (parseFrame p body = Throw \/ exists v, parseFrame p body = Ret v).
Proof.
  intros Hr Ha Hb Hm. pose proof (acceptsAll_parse p enc body Ha Hb Hm) as Hp. split; [split|].
  - intros E. by rewrite E in Hp.
  - intros He. apply (Hr v body He []). unfold fits, MaximumFrame in *. cbn [app].
    change (2 ^ 64) with 18446744073709551616. lia.
  - destruct (parseFrame p body); eauto; done.
Qed.
End frames.

(** ** The messages of the host *)
Definition challengeEnc (c : Z * bytes) (body : bytes) : Prop :=
  0 <= c.1 < 2 ^ 64 /\ length c.2 = 16%nat
  /\ body = [Message.Challenge] ++ AppendU16 ProtocolVersion ++ AppendU64 c.1 ++ c.2.

Definition responseEnc (r : HostResponse) (body : bytes) : Prop :=
  exists e1 e2 e3, is_byte (action r) /\ - 2 ^ 31 <= exitCode r < 2 ^ 31 /\ length (requestId r) = 16%nat
  /\ Forall is_wchar (reason r) /\ AppendString (reason r) = Some e1
  /\ Forall is_wchar (first r) /\ AppendString (first r) = Some e2
  /\ Forall is_wchar (second r) /\ AppendString (second r) = Some e3
  /\ body = [Message.Response] ++ [action r] ++ AppendU32 (u32 (exitCode r)) ++ requestId r ++ e1 ++ e2 ++ e3.

Definition completeEnc (requestId : bytes) (status : Z) (body : bytes) : Prop :=
  - 2 ^ 31 <= status < 2 ^ 31 /\ length requestId = 16%nat
  /\ body = [Message.Complete] ++ AppendU32 (u32 status) ++ requestId.

Lemma leValue_byte used : length used = 1%nat -> Forall is_byte used -> used = [leValue used] /\ is_byte (leValue used).
Proof. destruct used as [|b []]; [done| |done]. intros _ Hb. cbn. rewrite Z.add_0_r. split; [done|by inversion Hb]. Qed.

Lemma leValue_inv n used : length used = n -> Forall is_byte used -> used = appendShifts n 0 (leValue used).
Proof. intros <- Hb. by rewrite appendShifts_leValue. Qed.

Lemma s32_u32 v : - 2 ^ 31 <= v < 2 ^ 31 -> s32 (u32 v) = v.
Proof.
  change (2 ^ 31) with 2147483648. intros Hv. unfold s32, wrap. change (2 ^ 31) with 2147483648.
  change (2 ^ 32) with 4294967296. destruct (Z.ltb_spec (v mod 4294967296) 2147483648); Z.div_mod_to_equations; lia.
Qed.

Lemma u32_s32 v : 0 <= v < 2 ^ 32 -> u32 (s32 v) = v /\ - 2 ^ 31 <= s32 v < 2 ^ 31.
Proof.
  change (2 ^ 31) with 2147483648. change (2 ^ 32) with 4294967296. intros Hv. unfold s32, wrap.
  change (2 ^ 31) with 2147483648. change (2 ^ 32) with 4294967296.
  destruct (Z.ltb_spec v 2147483648); Z.div_mod_to_equations; lia.
Qed.

Lemma leValue_bound_n n used : length used = n -> Forall is_byte used -> 0 <= leValue used < 256 ^ Z.of_nat n.
Proof. intros <-. apply leValue_bound. Qed.

Lemma readChallenge_accepts : acceptsAll readChallenge challengeEnc.
Proof.
  eapply acceptsAll_bind; [apply accepts_U8|]. intros tag used [Hl ->] Hb.
  destruct (leValue_byte used Hl Hb) as [Hu _].
  eapply (acceptsAll_bind _ _ (fun _ u => leValue used = Message.Challenge /\ u = AppendU16 ProtocolVersion)).
  { destruct (Z.eqb_spec (leValue used) Message.Challenge) as [->|]; [|apply accepts_throw].
    eapply accepts_bind; [apply accepts_U16|]. intros v u [Hlu ->] Hbu. apply accepts_check. intros E%Z.eqb_eq.
    split; [done|]. by rewrite app_nil_r, (leValue_inv 2 u Hlu Hbu), E. }
  intros [] u [Htag ->] _.
  eapply acceptsAll_bind; [apply accepts_U64|]. intros g ug [Hlg ->] Hbg.
  eapply acceptsAll_bind; [apply (accepts_Bytes 16)|]. intros n un [Hln ->] _.
  apply (acceptsAll_done id); [done|]. intros _. split_and!; cbn [fst snd].
  - apply (leValue_bound_n 8 ug Hlg Hbg).
  - apply (leValue_bound_n 8 ug Hlg Hbg).
  - done.
  - rewrite app_nil_r, Hu, Htag, (leValue_inv 8 ug Hlg Hbg) at 1. done.
Qed.

Lemma readChallenge_reads c body : challengeEnc c body -> readsAll readChallenge c body.
Proof.
  destruct c as [g n]. intros (Hg & Hn & ->). cbn [fst snd] in *.
  apply (readsAll_bind _ _ Message.Challenge); [by apply reads_U8_byte|]. cbn [Z.eqb].
  apply (readsAll_bind _ _ tt).
  { rewrite Z.eqb_refl, <- (app_nil_r (AppendU16 _)). eapply reads_bind; [by apply reads_U16_append|]. by apply reads_check. }
  apply (readsAll_bind _ _ g); [by apply reads_U64|]. rewrite <- (app_nil_r n) at 2.
  apply (readsAll_bind _ _ n); [by apply (reads_Bytes 16)|]. by apply (readsAll_done id).
Qed.

Lemma readResponse_accepts : acceptsAll readResponse responseEnc.
Proof.
  eapply acceptsAll_bind; [apply accepts_U8|]. intros tag used [Hl ->] Hb.
  destruct (leValue_byte used Hl Hb) as [Hu _].
  eapply (acceptsAll_bind _ _ (fun _ u => leValue used = Message.Response /\ u = [])).
  { apply accepts_check. intros E%Z.eqb_eq. done. }
  intros [] u [Htag ->] _.
  eapply acceptsAll_bind; [apply accepts_U8|]. intros a ua [Hla ->] Hba. destruct (leValue_byte ua Hla Hba) as [Hua Hab].
  eapply acceptsAll_bind; [apply accepts_U32|]. intros e ue [Hle ->] Hbe.
  eapply acceptsAll_bind; [apply (accepts_Bytes 16)|]. intros n un [Hln ->] _.
  eapply acceptsAll_bind; [apply accepts_String|]. intros s1 u1 [Hw1 Hs1] _.
  eapply acceptsAll_bind; [apply accepts_String|]. intros s2 u2 [Hw2 Hs2] _.
  eapply acceptsAll_bind; [apply accepts_String|]. intros s3 u3 [Hw3 Hs3] _.
  apply (acceptsAll_done id); [done|]. intros _. exists u1, u2, u3. cbn [action exitCode requestId reason first second].
  destruct (u32_s32 (leValue ue) (leValue_bound_n 4 ue Hle Hbe)) as [Hs Hr]. rewrite Hs.
  split_and!; try done; [apply Hr|apply Hr|].
  rewrite app_nil_r, Hu, Htag, Hua, (leValue_inv 4 ue Hle Hbe) at 1. done.
Qed.

Lemma readResponse_reads r body : responseEnc r body -> readsAll readResponse r body.
Proof.
  destruct r as [a e n s1 s2 s3]. intros (e1 & e2 & e3 & Ha & He & Hn & Hw1 & Hs1 & Hw2 & Hs2 & Hw3 & Hs3 & ->).
  cbn [action exitCode requestId reason first second] in *.
  apply (readsAll_bind _ _ Message.Response); [by apply reads_U8_byte|].
  apply readsAll_check; [done|].
  apply (readsAll_bind _ _ a); [by apply reads_U8_byte|].
  apply (readsAll_bind _ _ (u32 e)); [apply reads_U32, (wrap_bound 32); lia|].
  apply (readsAll_bind _ _ n); [by apply (reads_Bytes 16)|].
  apply (readsAll_bind _ _ s1); [by apply reads_String|].
  apply (readsAll_bind _ _ s2); [by apply reads_String|]. rewrite <- (app_nil_r e3).
  apply (readsAll_bind _ _ s3); [by apply reads_String|]. rewrite s32_u32 by done. by apply (readsAll_done id).
Qed.

Lemma readComplete_accepts id : acceptsAll (readComplete id) (completeEnc id).
Proof.
  eapply acceptsAll_bind; [apply accepts_U8|]. intros tag used [Hl ->] Hb.
  destruct (leValue_byte used Hl Hb) as [Hu _].
  eapply (acceptsAll_bind _ _ (fun _ u => leValue used = Message.Complete /\ u = [])).
  { apply accepts_check. intros E%Z.eqb_eq. done. }
  intros [] u [Htag ->] _.
  eapply acceptsAll_bind; [apply accepts_U32|]. intros e ue [Hle ->] Hbe.
  eapply acceptsAll_bind; [apply (accepts_Bytes 16)|]. intros n un [Hln ->] _.
  destruct (u32_s32 (leValue ue) (leValue_bound_n 4 ue Hle Hbe)) as [Hs Hr].
  apply (acceptsAll_done (fun d => bool_decide (un = id) && d)); [apply andb_false_r|].
  rewrite andb_true_r, bool_decide_eq_true. intros ->.
  split_and!; [apply Hr|apply Hr|done|]. rewrite Hs, app_nil_r, Hu, Htag, (leValue_inv 4 ue Hle Hbe) at 1. done.
Qed.

Lemma readComplete_reads id status body : completeEnc id status body -> readsAll (readComplete id) status body.
Proof.
  intros (Hs & Hn & Hbody). rewrite <- (app_nil_r id) in Hbody. subst body.
  apply (readsAll_bind _ _ Message.Complete); [by apply reads_U8_byte|].
  apply readsAll_check; [done|].
  apply (readsAll_bind _ _ (u32 status)); [apply reads_U32, (wrap_bound 32); lia|].
  apply (readsAll_bind _ _ id); [by apply (reads_Bytes 16)|]. rewrite s32_u32 by done.
  apply (readsAll_done (fun d => bool_decide (id = id) && d)). by rewrite bool_decide_true.
Qed.

(** ** The properties *)

(** C12: the shim's parsers of the host's messages are exact. On any frame the reader
    allows, whatever its bytes are, [readChallenge], [readResponse] and [readComplete]
    never read outside the frame: they throw or return, and they return [v] exactly
    if the frame is the encoding of [v]: the right message type and version,
    little-endian integers, a 16-byte nonce or request id (the expected one in a
    completion), strings of at most 32767 units, and nothing after them. *)
Theorem host_messages_exact body :
  Forall is_byte body -> Z.of_nat (length body) <= MaximumFrame ->
  (forall c, parseFrame readChallenge body = Ret c <-> challengeEnc c body)
  /\ (forall r, parseFrame readResponse body = Ret r <-> responseEnc r body)
  /\ (forall id status, parseFrame (readComplete id) body = Ret status <-> completeEnc id status body)
  /\ (forall id, let returns {A} (o : Outcome A) := o = Throw \/ exists v, o = Ret v in
        returns (parseFrame readChallenge body) /\ returns (parseFrame readResponse body)
        /\ returns (parseFrame (readComplete id) body)).
Proof.
  intros Hb Hm.
  pose proof (fun c => parseFrame_exact readChallenge challengeEnc body c readChallenge_reads readChallenge_accepts Hb Hm) as H1.
  pose proof (fun r => parseFrame_exact readResponse responseEnc body r readResponse_reads readResponse_accepts Hb Hm) as H2.
  pose proof (fun id s => parseFrame_exact (readComplete id) (completeEnc id) body s
                            (readComplete_reads id) (readComplete_accepts id) Hb Hm) as H3.
  split_and!; [apply H1|apply H2|apply H3|]. intros id returns. unfold returns.
  split_and!; [apply (H1 (0, []))|apply (H2 (mkHostResponse 0 0 [] [] [] []))|apply (H3 id 0)].
Qed.

Lemma host_messages_exact_witness :
  parseFrame readChallenge ([2; 1; 0] ++ [5; 1; 0; 0; 0; 0; 0; 0] ++ repeat 7 16) = Ret (261, repeat 7 16).
Proof.
  apply (host_messages_exact ([2; 1; 0] ++ [5; 1; 0; 0; 0; 0; 0; 0] ++ repeat 7 16));
    [by_decide|vm_compute; discriminate|split_and!; vm_compute; (reflexivity || discriminate)].
Defined.
