(* ===== verification/ShimHost.v ===== *)
(** * The host's side of the SSH shim protocol

    [SshShimProtocol] of the host ([src/vt7/VT7.Host/SshShimProtocol.cs]), which parses
    what the shim writes and writes what it parses: the two sides agree. The
    [BinaryReader] of .NET reads the same little-endian integers as the shim's
    [Reader] and throws at the end of the stream. *)
From S2P Require Import Prelude.
From S2P Require Import ShimProtocol.

Module Host.
Definition isHigh (c : wchar_t) : bool := (0xD800 <=? c) && (c <=? 0xDBFF).
Definition isLow (c : wchar_t) : bool := (0xDC00 <=? c) && (c <=? 0xDFFF).

(** [Encoding.Unicode] replaces unpaired surrogates, in both directions. *)
Fixpoint unicode (value : wstring) : wstring :=
  match value with
  | [] => []
  | c :: rest =>
      if isHigh c then
        match rest with
        | d :: rest' => if isLow d then c :: d :: unicode rest' else 0xFFFD :: unicode rest
        | [] => [0xFFFD]
        end
      else if isLow c then 0xFFFD :: unicode rest
      else c :: unicode rest
  end.

(** ** Writing *)
Definition WriteString (value : wstring) : option bytes :=
  if (32767 <? Z.of_nat (length value)) || existsb (Z.eqb 0) value then None
  else Some (AppendU32 (u32 (Z.of_nat (length value))) ++ memoryOf (unicode value)).

Definition Challenge (generation : Z) (serverNonce : bytes) : bytes :=
  [Message.Challenge] ++ AppendU16 ProtocolVersion ++ AppendU64 (u64 generation) ++ serverNonce.

Definition Response (action exitCode : Z) (requestId : bytes) (reason first second : wstring) : option bytes :=
  r ← WriteString reason;
  f ← WriteString first;
  s ← WriteString second;
  Some ([Message.Response; action] ++ AppendU32 (u32 exitCode) ++ requestId ++ r ++ f ++ s).

Definition Complete (exitCode : Z) (requestId : bytes) : bytes :=
  [Message.Complete] ++ AppendU32 (u32 exitCode) ++ requestId.

(** ** Reading *)
Definition s64 (v : Z) : Z := if v <? 2 ^ 63 then v else v - 2 ^ 64.

Definition ReadString : M Reader wstring :=
  count ← U32;
  Check_ (count <=? 32767);;
  value ← Bytes (count * 2);
  mret (unicode (wcharsOf value)).

Definition ParseHello : M Reader (Z * Z * bytes) :=
  message ← U8;
  Check_ (message =? Message.Hello);;
  version ← U16;
  Check_ (version =? ProtocolVersion);;
  processId ← U32;
  creationTime ← U64;
  clientNonce ← Bytes 16;
  done ← Done;
  Check_ done;;
  mret (processId, s64 creationTime, clientNonce).

Record SshShimRequest := mkSshShimRequest {
  Protocol : Z; ProcessId : Z; CreationTime : Z; ClientNonce : bytes; ServerNonce : bytes; Generation : Z;
  StandardInputFlags : Z; StandardOutputFlags : Z; StandardErrorFlags : Z;
  ConsoleProcesses : list Z; CurrentDirectory : wstring; Arguments : list wstring;
  Mac : bytes; CanonicalBytes : bytes }.

(** [Enumerable.Range(0, n).Select(_ => p).ToArray()]. *)
Fixpoint readMany {A} (n : nat) (p : M Reader A) : M Reader (list A) :=
  match n with
  | O => mret []
  | S n => v ← p; vs ← readMany n p; mret (v :: vs)
  end.

Definition ParseRequestBody (canonical : bytes) : M Reader SshShimRequest :=
  message ← U8;
  Check_ (message =? Message.Request);;
  protocol ← U16;
  processId ← U32;
  creationTime ← U64;
  clientNonce ← Bytes 16;
  serverNonce ← Bytes 16;
  generation ← U64;
  inFlags ← U32;
  outFlags ← U32;
  errFlags ← U32;
  processCount ← U32;
  Check_ ((0 <? processCount) && (processCount <=? 256));;
  consoleProcesses ← readMany (Z.to_nat processCount) U32;
  currentDirectory ← ReadString;
  argumentCount ← U32;
  Check_ ((0 <? argumentCount) && (argumentCount <=? 256));;
  arguments ← readMany (Z.to_nat argumentCount) ReadString;
  mac ← Bytes 32;
  done ← Done;
  Check_ done;;
  mret (mkSshShimRequest protocol processId (s64 creationTime) clientNonce serverNonce (s64 generation)
          inFlags outFlags errFlags consoleProcesses currentDirectory arguments mac canonical).

(** [Reader(body)] refuses empty and oversized frames. *)
Definition parse {A} (body : bytes) (parser : M Reader A) : Outcome A :=
  if (0 <? Z.of_nat (length body)) && (Z.of_nat (length body) <=? MaximumFrame)
  then parseFrame parser body else Throw.

Definition ParseRequest (body : bytes) : Outcome SshShimRequest :=
  if 32 <=? Z.of_nat (length body)
  then parse body (ParseRequestBody (take (length body - 32) body)) else Throw.

(** The canonical bytes and the MAC of a barrier acknowledgement. *)
Definition ParseBarrier (body requestId serverNonce : bytes) : Outcome (bytes * bytes) :=
  if Z.of_nat (length body) =? 1 + 16 + 16 + 32 then
    parse body (
      message ← U8;
      Check_ (message =? Message.BarrierWritten);;
      id ← Bytes 16;
      Check_ (bool_decide (id = requestId));;
      nonce ← Bytes 16;
      Check_ (bool_decide (nonce = serverNonce));;
      mac ← Bytes 32;
      mret (take (length body - 32) body, mac))
  else Throw.

(** ** Lemmas *)
Definition is_text (value : wstring) : Prop := Forall is_wchar value /\ unicode value = value.

Lemma reads_ReadString value enc : is_text value -> AppendString value = Some enc -> reads ReadString value enc.
Proof.
  intros [Hw Hu] [Hlen ->]%AppendString_some.
  apply (reads_bind _ _ (Z.of_nat (length value))); [apply reads_U32; change (2 ^ 32) with 4294967296; lia|].
  change (memoryOf value) with ([] ++ memoryOf value). apply (reads_bind _ _ tt); [apply reads_check; lia|].
  rewrite <- (app_nil_r (memoryOf value)). apply (reads_bind _ _ (memoryOf value)).
  - replace (Z.of_nat (length value) * 2) with (Z.of_nat (2 * length value)) by lia.
    apply reads_Bytes, length_memoryOf.
  - rewrite wcharsOf_memoryOf, Hu by done. apply reads_ret.
Qed.

Lemma reads_many {A} (p : M Reader A) (enc : A -> option bytes) values encs :
  (forall v e, In v values -> enc v = Some e -> reads p v e) ->
  Forall2 (fun v e => enc v = Some e) values encs -> reads (readMany (length values) p) values (concat encs).
Proof.
  intros Hp Hall. induction Hall as [|v e values encs Hv Hall IH]; [apply reads_ret|]. cbn [length readMany concat].
  apply (reads_bind _ _ v); [apply Hp; [by left|done]|]. rewrite <- (app_nil_r (concat encs)).
  apply (reads_bind _ _ values); [apply IH; intros; apply Hp; [by right|done]|apply reads_ret].
Qed.

Lemma appendStrings_some values enc : appendStrings values = Some enc ->
  exists encs, Forall2 (fun v e => AppendString v = Some e) values encs /\ enc = concat encs.
Proof.
  revert enc. induction values as [|v values IH]; intros enc; cbn [appendStrings].
  { intros [= <-]. by exists []. }
  destruct (AppendString v) as [e|] eqn:Ev; [|done]. destruct (appendStrings values) as [es|]; [|done].
  intros [= <-]. destruct (IH es eq_refl) as (encs & Hall & ->). exists (e :: encs). by split; [constructor|].
Qed.
End Host.

(** ** The properties *)
Definition is_u32 (v : Z) : Prop := 0 <= v < 2 ^ 32.
Definition is_u64 (v : Z) : Prop := 0 <= v < 2 ^ 64.

(** What the shim knows about itself when it writes a request. *)
Record facts_ok (pid creationTime : Z) (clientNonce serverNonce : bytes) (generation : Z)
    (flags : Z * Z * Z) (processes : list Z) (directory : wstring) (arguments : list wstring) : Prop := {
  ok_pid : is_u32 pid;
  ok_creation : is_u64 creationTime;
  ok_client : length clientNonce = 16%nat;
  ok_server : length serverNonce = 16%nat;
  ok_generation : is_u64 generation;
  ok_flags : is_u32 flags.1.1 /\ is_u32 flags.1.2 /\ is_u32 flags.2;
  ok_processes : Forall is_u32 processes /\ (0 < length processes <= 256)%nat;
  ok_directory : Host.is_text directory;
  ok_arguments : Forall Host.is_text arguments /\ (0 < length arguments)%nat }.

Lemma requestBody_reads pid creationTime clientNonce serverNonce generation flags processes directory arguments body mac canonical :
  facts_ok pid creationTime clientNonce serverNonce generation flags processes directory arguments ->
  length mac = 32%nat ->
  requestBody pid creationTime clientNonce serverNonce generation flags.1.1 flags.1.2 flags.2
    processes directory arguments = Some body ->
  readsAll (Host.ParseRequestBody canonical)
    (Host.mkSshShimRequest ProtocolVersion pid (Host.s64 creationTime) clientNonce serverNonce
       (Host.s64 generation) flags.1.1 flags.1.2 flags.2 processes directory arguments mac canonical)
    (body ++ mac).
Proof.
  intros [Hpid Hct Hcn Hsn Hg (Hf1 & Hf2 & Hf3) [Hps Hpn] Hd [Ha Han]] Hmac.
  unfold requestBody. destruct (AppendString directory) as [ed|] eqn:Ed; [|done]. cbn [mbind option_bind].
  destruct (Z.leb_spec (Z.of_nat (length arguments)) 256) as [Ha256|]; [|done].
  destruct (appendStrings arguments) as [ea|] eqn:Ea; [|done]. cbv beta iota. intros Hbody. apply (inj Some) in Hbody. subst body.
  destruct (Host.appendStrings_some _ _ Ea) as (encs & Hencs & ->).
  assert (Hcount : forall n, (n <= 256)%nat -> is_u32 (Z.of_nat n) /\ u32 (Z.of_nat n) = Z.of_nat n).
  { intros n Hn. assert (is_u32 (Z.of_nat n)) by (unfold is_u32; change (2 ^ 32) with 4294967296; lia).
    split; [done|]. by apply wrap_small. }
  destruct (Hcount (length processes)) as [Hpc ->]; [lia|]. destruct (Hcount (length arguments)) as [Hac ->]; [lia|].
  rewrite <- !app_assoc.
  apply (readsAll_bind _ _ Message.Request); [by apply reads_U8_byte|]. apply readsAll_check; [done|].
  apply (readsAll_bind _ _ ProtocolVersion); [by apply reads_U16_append|].
  apply (readsAll_bind _ _ pid); [by apply reads_U32|].
  apply (readsAll_bind _ _ creationTime); [by apply reads_U64|].
  apply (readsAll_bind _ _ clientNonce); [by apply (reads_Bytes 16)|].
  apply (readsAll_bind _ _ serverNonce); [by apply (reads_Bytes 16)|].
  apply (readsAll_bind _ _ generation); [by apply reads_U64|].
  apply (readsAll_bind _ _ flags.1.1); [by apply reads_U32|].
  apply (readsAll_bind _ _ flags.1.2); [by apply reads_U32|].
  apply (readsAll_bind _ _ flags.2); [by apply reads_U32|].
  apply (readsAll_bind _ _ (Z.of_nat (length processes))); [by apply reads_U32|]. apply readsAll_check; [lia|].
  rewrite Nat2Z.id. apply (readsAll_bind _ _ processes).
  { apply (Host.reads_many _ (fun v => Some (AppendU32 v))).
    - intros v e Hin [= <-]. apply reads_U32. rewrite List.Forall_forall in Hps. by apply Hps.
    - clear. induction processes; cbn; constructor; done. }
  apply (readsAll_bind _ _ directory); [by apply Host.reads_ReadString|].
  apply (readsAll_bind _ _ (Z.of_nat (length arguments))); [by apply reads_U32|]. apply readsAll_check; [lia|].
  rewrite Nat2Z.id. apply (readsAll_bind _ _ arguments).
  { apply (Host.reads_many _ AppendString); [|done]. intros v e Hin He. apply Host.reads_ReadString; [|done].
    rewrite List.Forall_forall in Ha. by apply Ha. }
  rewrite <- (app_nil_r mac) at 2. apply (readsAll_bind _ _ mac); [by apply (reads_Bytes 32)|].
  by apply (readsAll_done id).
Qed.

Lemma parse_reads {A} (p : M Reader A) v body :
  readsAll p v body -> 0 < Z.of_nat (length body) <= MaximumFrame -> Host.parse body p = Ret v.
Proof.
  intros Hp Hlen. unfold Host.parse, parseFrame.
  destruct (Z.ltb_spec 0 (Z.of_nat (length body))); [|lia].
  destruct (Z.leb_spec (Z.of_nat (length body)) MaximumFrame); [|lia]. cbn [andb].
  apply (Hp []). unfold fits. cbn [app]. unfold MaximumFrame in *. change (2 ^ 64) with 18446744073709551616. lia.
Qed.

Lemma append_bytes n v : length (appendShifts n 0 v) = n /\ Forall is_byte (appendShifts n 0 v).
Proof. destruct (appendShifts_value n 0 v) as (_ & ? & ?); [lia|done]. Qed.

Lemma hello_reads pid creationTime clientNonce :
  is_u32 pid -> is_u64 creationTime -> length clientNonce = 16%nat ->
  Host.parse (helloBody pid creationTime clientNonce) Host.ParseHello = Ret (pid, Host.s64 creationTime, clientNonce).
Proof.
  intros Hp Hc Hn. apply parse_reads.
  - unfold helloBody. apply (readsAll_bind _ _ Message.Hello); [by apply reads_U8_byte|]. apply readsAll_check; [done|].
    apply (readsAll_bind _ _ ProtocolVersion); [by apply reads_U16_append|]. apply readsAll_check; [done|].
    apply (readsAll_bind _ _ pid); [by apply reads_U32|]. apply (readsAll_bind _ _ creationTime); [by apply reads_U64|].
    rewrite <- (app_nil_r clientNonce) at 2. apply (readsAll_bind _ _ clientNonce); [by apply (reads_Bytes 16)|].
    by apply (readsAll_done id).
  - unfold helloBody, AppendU32, AppendU64. rewrite AppendU16_shifts, !length_app.
    rewrite !(proj1 (append_bytes _ _)), Hn. cbn. unfold MaximumFrame. lia.
Qed.

Lemma barrier_reads requestId serverNonce mac :
  length requestId = 16%nat -> length serverNonce = 16%nat -> length mac = 32%nat ->
  Host.ParseBarrier (barrierBody requestId serverNonce ++ mac) requestId serverNonce
  = Ret (barrierBody requestId serverNonce, mac).
Proof.
  intros Hr Hs Hm. unfold Host.ParseBarrier.
  assert (Hlen : length (barrierBody requestId serverNonce ++ mac) = 65%nat).
  { unfold barrierBody. rewrite !length_app, Hr, Hs, Hm. done. }
  rewrite Hlen. cbn [Z.of_nat]. rewrite (proj2 (Z.eqb_eq _ _)) by done.
  rewrite take_app_length' by (unfold barrierBody; rewrite !length_app, Hr, Hs; done).
  apply parse_reads; [|rewrite Hlen; unfold MaximumFrame; lia]. unfold barrierBody. rewrite <- !app_assoc.
  apply (readsAll_bind _ _ Message.BarrierWritten); [by apply reads_U8_byte|]. apply readsAll_check; [done|].
  apply (readsAll_bind _ _ requestId); [by apply (reads_Bytes 16)|]. apply readsAll_check; [by apply bool_decide_true|].
  apply (readsAll_bind _ _ serverNonce); [by apply (reads_Bytes 16)|]. apply readsAll_check; [by apply bool_decide_true|].
  rewrite <- (app_nil_r mac) at 2. apply (readsAll_bind _ _ mac); [by apply (reads_Bytes 32)|]. by intros pre _.
Qed.

Lemma WriteString_text value enc : Host.is_text value -> Host.WriteString value = Some enc -> AppendString value = Some enc.
Proof.
  intros [Hw Hu]. unfold Host.WriteString, AppendString. rewrite Hu.
  destruct (Z.ltb_spec 32767 (Z.of_nat (length value))), (Z.leb_spec (Z.of_nat (length value)) 32767); try lia; [done|].
  by destruct (existsb _ _).
Qed.

Lemma Response_enc a e id r f s body :
  is_byte a -> - 2 ^ 31 <= e < 2 ^ 31 -> length id = 16%nat -> Forall Host.is_text [r; f; s] ->
  Host.Response a e id r f s = Some body -> responseEnc (mkHostResponse a e id r f s) body.
Proof.
  intros Ha He Hi Ht. inversion Ht as [|? ? Hr Ht1]; subst. inversion Ht1 as [|? ? Hf Ht2]; subst.
  inversion Ht2 as [|? ? Hs _]; subst. unfold Host.Response.
  destruct (Host.WriteString r) as [er|] eqn:Er; [|done]. destruct (Host.WriteString f) as [ef|] eqn:Ef; [|done].
  destruct (Host.WriteString s) as [es|] eqn:Es; [|done]. cbn [mbind option_bind].
  intros Hbody. apply (inj Some) in Hbody. subst body. apply WriteString_text in Er, Ef, Es; [|done..].
  exists er, ef, es. cbn [action exitCode requestId reason first second].
  destruct Hr, Hf, Hs. repeat (split; [done|]). done.
Qed.

(** C13: the shim and the host speak the same protocol. What the shim writes, the host
    parses back field by field: the hello, the authenticated request (with the bytes
    the MAC covers) and the barrier acknowledgement of the same request and nonce.
    What the host writes, the shim parses back: the challenge, the response and the
    completion of the request. *)
Theorem shim_and_host_agree pid creationTime clientNonce serverNonce generation flags processes directory arguments
    body mac requestId a e r f s response :
  facts_ok pid creationTime clientNonce serverNonce generation flags processes directory arguments ->
  length mac = 32%nat -> length requestId = 16%nat ->
  requestBody pid creationTime clientNonce serverNonce generation flags.1.1 flags.1.2 flags.2
    processes directory arguments = Some body ->
  Z.of_nat (length (body ++ mac)) <= MaximumFrame ->
  is_byte a -> - 2 ^ 31 <= e < 2 ^ 31 -> Forall Host.is_text [r; f; s] ->
  Host.Response a e requestId r f s = Some response ->
  Z.of_nat (length response) <= MaximumFrame ->
  Host.parse (helloBody pid creationTime clientNonce) Host.ParseHello = Ret (pid, Host.s64 creationTime, clientNonce)
  /\ parseFrame readChallenge (Host.Challenge generation serverNonce) = Ret (generation, serverNonce)
  /\ Host.ParseRequest (body ++ mac)
     = Ret (Host.mkSshShimRequest ProtocolVersion pid (Host.s64 creationTime) clientNonce serverNonce
              (Host.s64 generation) flags.1.1 flags.1.2 flags.2 processes directory arguments mac body)
  /\ parseFrame readResponse response = Ret (mkHostResponse a e requestId r f s)
  /\ Host.ParseBarrier (barrierBody requestId serverNonce ++ mac) requestId serverNonce
     = Ret (barrierBody requestId serverNonce, mac)
  /\ parseFrame (readComplete requestId) (Host.Complete e requestId) = Ret e.
Proof.
  intros Hok Hmac Hid Hbody Hframe Ha He Ht Hresp Hrl. pose proof Hok as [Hpid Hct Hcn Hsl Hg _ _ _ _].
  assert (Hall : forall A (p : M Reader A) v enc, readsAll p v enc -> Z.of_nat (length enc) <= MaximumFrame ->
            parseFrame p enc = Ret v).
  { intros A p v enc Hp Hl. apply (Hp []). unfold fits, MaximumFrame in *. cbn [app].
    change (2 ^ 64) with 18446744073709551616. lia. }
  split_and!.
  - by apply hello_reads.
  - apply Hall; [apply readChallenge_reads; split_and!; cbn [fst snd]; [apply Hg..|done|]|].
    + unfold Host.Challenge. by rewrite (wrap_small 64) by apply Hg.
    + unfold Host.Challenge, AppendU64. rewrite AppendU16_shifts, !length_app, !(proj1 (append_bytes _ _)), Hsl.
      cbn. unfold MaximumFrame. lia.
  - unfold Host.ParseRequest. destruct (Z.leb_spec 32 (Z.of_nat (length (body ++ mac)))) as [_|Hlt];
      [|rewrite length_app in Hlt; lia].
    rewrite take_app_length' by (rewrite length_app; lia). apply parse_reads; [by apply requestBody_reads|].
    rewrite length_app in *. lia.
  - apply Hall; [by apply readResponse_reads, Response_enc|done].
  - by apply barrier_reads.
  - apply Hall; [by apply readComplete_reads|]. unfold Host.Complete, AppendU32.
    rewrite !length_app, (proj1 (append_bytes _ _)), Hid. cbn. unfold MaximumFrame. lia.
Qed.

(** A request of [ssh host] in [C:\]. *)
Definition sampleRequest : option bytes :=
  requestBody 4242 132000000000000000 (repeat 1 16) (repeat 2 16) 7 65538 65538 65538 [4242; 4000] (L "C:\")
    [L "ssh"; L "host"].

Lemma shim_and_host_agree_witness :
  Host.ParseRequest (default [] sampleRequest ++ repeat 9 32)
  = Ret (Host.mkSshShimRequest ProtocolVersion 4242 132000000000000000 (repeat 1 16) (repeat 2 16) 7 65538 65538 65538
           [4242; 4000] (L "C:\") [L "ssh"; L "host"] (repeat 9 32) (default [] sampleRequest)).
Proof.
  apply (shim_and_host_agree 4242 132000000000000000 (repeat 1 16) (repeat 2 16) 7 (65538, 65538, 65538) [4242; 4000]
           (L "C:\") [L "ssh"; L "host"] (default [] sampleRequest) (repeat 9 32) (repeat 3 16) Action.Embedded 0
           (L "eligible") (L "text") [] (default [] (Host.Response Action.Embedded 0 (repeat 3 16) (L "eligible") (L "text") []))).
  - constructor; unfold is_u32, is_u64, Host.is_text; cbn [fst snd length];
      split_and?; try reflexivity; try by_decide; try lia.
  - reflexivity.
  - reflexivity.
  - vm_compute. reflexivity.
  - vm_compute. discriminate.
  - by_decide.
  - by_decide.
  - repeat constructor; reflexivity || by_decide.
  - vm_compute. reflexivity.
  - vm_compute. discriminate.
Defined.
