(* ===== verification/ShimQuote.v ===== *)
(** * The command line of the external SSH client

    [Quote] of the SSH shim and the command line [LaunchSystem] builds with it
    ([src/vt7/VT7.SshShim/main.cpp]), against the documented rules by which the C
    runtime of the launched program splits a command line into arguments. *)
From S2P Require Import Prelude.

Definition BACKSLASH : wchar_t := 0x5C.
Definition QUOTE : wchar_t := 0x22.
Definition SPACE : wchar_t := 0x20.
Definition TAB : wchar_t := 0x09.

(** [find_first_of] of space, tab, line feed, vertical tab or quote finds something. *)
Definition needsQuotes (value : wstring) : bool :=
  existsb (fun c => (c =? SPACE) || (c =? TAB) || (c =? 0x0A) || (c =? 0x0B) || (c =? QUOTE)) value.

(** The loop over the characters: what it appends. *)
Fixpoint quoteLoop (value : wstring) (slashes : nat) : wstring :=
  match value with
  | [] => repeat BACKSLASH (slashes * 2) ++ [QUOTE]
  | character :: value =>
      if character =? BACKSLASH then quoteLoop value (slashes + 1)
      else if character =? QUOTE then repeat BACKSLASH (slashes * 2 + 1) ++ [QUOTE] ++ quoteLoop value 0
      else repeat BACKSLASH slashes ++ [character] ++ quoteLoop value 0
  end.

Definition Quote (value : wstring) : wstring :=
  if negb (length value =? 0)%nat && negb (needsQuotes value) then value else [QUOTE] ++ quoteLoop value 0.

(** [commandLine] of [LaunchSystem]; [arguments\[0\]] is the shim's own name. *)
Definition commandLine (externalPath : wstring) (arguments : list wstring) : wstring :=
  Quote externalPath ++ concat (map (fun argument => [SPACE] ++ Quote argument) (drop 1 arguments)).
Definition mutableCommand (externalPath : wstring) (arguments : list wstring) : wstring :=
  commandLine externalPath arguments ++ [0].

(** ** The documented rules

    The name of the program: up to white space outside quotes; backslashes mean themselves. *)
Fixpoint programName (line : wstring) (quoted : bool) : wstring * wstring :=
  match line with
  | [] => ([], [])
  | c :: rest =>
      if c =? QUOTE then programName rest (negb quoted)
      else if ((c =? SPACE) || (c =? TAB)) && negb quoted then ([], line)
      else let '(name, rest) := programName rest quoted in (c :: name, rest)
  end.

(** The other arguments: [2n] backslashes before a quote are [n] backslashes and the
    quote delimits, [2n+1] are [n] backslashes and a literal quote, other backslashes
    are literal; a doubled quote in a quoted part is a literal quote. [current] is
    the argument so far, if one has started. *)
Fixpoint splitArguments (line : wstring) (slashes : nat) (quoted : bool) (current : option wstring) : list wstring :=
  let started := default [] current in
  match line with
  | [] =>
      match current with None => [] | Some _ => [started ++ repeat BACKSLASH slashes] end
  | c :: rest =>
      if c =? BACKSLASH then splitArguments rest (slashes + 1) quoted (Some started)
      else if c =? QUOTE then
        let current := started ++ repeat BACKSLASH (Nat.div2 slashes) in
        if Nat.odd slashes then splitArguments rest 0 quoted (Some (current ++ [QUOTE]))
        else if quoted then
          match rest with
          | d :: rest' =>
              if d =? QUOTE then splitArguments rest' 0 true (Some (current ++ [QUOTE]))
              else splitArguments rest 0 false (Some current)
          | [] => splitArguments rest 0 false (Some current)
          end
        else splitArguments rest 0 true (Some current)
      else if ((c =? SPACE) || (c =? TAB)) && negb quoted then
        match current with
        | None => splitArguments rest 0 false None
        | Some _ => (started ++ repeat BACKSLASH slashes) :: splitArguments rest 0 false None
        end
      else splitArguments rest 0 quoted (Some (started ++ repeat BACKSLASH slashes ++ [c]))
  end.

(** The C string in memory. *)
Fixpoint cstring (memory : wstring) : wstring :=
  match memory with
  | [] => []
  | c :: memory => if c =? 0 then [] else c :: cstring memory
  end.

Definition documentedArgv (memory : wstring) : list wstring :=
  let '(name, rest) := programName (cstring memory) false in
  name :: splitArguments rest 0 false None.

(** ** Lemmas *)
Lemma split_slashes n line slashes quoted current :
  splitArguments (repeat BACKSLASH n ++ line) slashes quoted (Some current)
  = splitArguments line (slashes + n) quoted (Some current).
Proof.
  revert slashes. induction n as [|n IH]; intros slashes; [by rewrite Nat.add_0_r|].
  cbn [repeat app splitArguments default]. rewrite Z.eqb_refl. cbn [default id]. rewrite IH. f_equal. lia.
Qed.

(** What may follow a quoted argument. *)
Definition ends (rest : wstring) : Prop := match rest with [] => True | c :: _ => c = SPACE end.

Lemma split_quoteLoop value n current rest : ends rest ->
  splitArguments (quoteLoop value n ++ rest) 0 true (Some current)
  = splitArguments rest 0 false (Some (current ++ repeat BACKSLASH n ++ value)).
Proof.
  intros Hrest. revert n current. induction value as [|c value IH]; intros n current; cbn [quoteLoop].
  - rewrite <- app_assoc, split_slashes. cbn [app splitArguments default]. cbn [Nat.add].
    replace (n * 2)%nat with (2 * n)%nat by lia. rewrite Nat.odd_mul, Nat.div2_double. cbn [Nat.odd andb].
    rewrite app_nil_r. destruct rest as [|d rest]; [done|]. cbn in Hrest. by subst d.
  - destruct (Z.eqb_spec c BACKSLASH) as [->|Hb].
    { rewrite IH. do 3 f_equal. rewrite repeat_app, <- app_assoc. done. }
    destruct (Z.eqb_spec c QUOTE) as [->|Hq].
    + rewrite <- !app_assoc, split_slashes. cbn [app splitArguments default Nat.add].
      change (QUOTE =? BACKSLASH) with false. rewrite Z.eqb_refl. cbv iota.
      replace (n * 2 + 1)%nat with (S (2 * n)) by lia. rewrite Nat.odd_succ, Nat.even_mul, Nat.div2_succ_double.
      cbn [Nat.even orb]. rewrite IH. do 2 f_equal. cbn. by rewrite <- !app_assoc.
    + rewrite <- !app_assoc, split_slashes. cbn [app splitArguments default Nat.add].
      rewrite (proj2 (Z.eqb_neq _ _) Hb), (proj2 (Z.eqb_neq _ _) Hq). cbn [negb]. rewrite andb_false_r, IH.
      do 2 f_equal. cbn. by rewrite <- !app_assoc.
Qed.

(** Characters of an argument that is not quoted. *)
Definition plainChar (c : wchar_t) : Prop := c <> SPACE /\ c <> TAB /\ c <> QUOTE.

Lemma needsQuotes_plain value : needsQuotes value = false -> Forall plainChar value.
Proof.
  unfold needsQuotes. induction value as [|c value IH]; [constructor|]. cbn [existsb]. intros [Hc Hv]%orb_false_iff.
  constructor; [|auto]. repeat apply orb_false_iff in Hc as [Hc ?]. unfold plainChar. rewrite <- !Z.eqb_neq. done.
Qed.

Definition following (rest : wstring) : list wstring :=
  match rest with [] => [] | _ :: rest => splitArguments rest 0 false None end.

Lemma split_end rest slashes current : ends rest ->
  splitArguments rest slashes false (Some current) = (current ++ repeat BACKSLASH slashes) :: following rest.
Proof. destruct rest as [|c rest]; [done|]. cbn [ends]. by intros ->. Qed.

Lemma split_plain value slashes current rest : Forall plainChar value -> ends rest ->
  splitArguments (value ++ rest) slashes false (Some current)
  = (current ++ repeat BACKSLASH slashes ++ value) :: following rest.
Proof.
  intros Hv Hrest. revert slashes current. induction Hv as [|c value (Hs & Ht & Hq) Hv IH]; intros slashes current.
  - cbn [app]. rewrite split_end by done. by rewrite app_nil_r.
  - cbn [app splitArguments default]. destruct (Z.eqb_spec c BACKSLASH) as [->|Hb].
    + cbn [default id]. rewrite IH. f_equal. rewrite repeat_app, <- app_assoc. done.
    + rewrite (proj2 (Z.eqb_neq _ _) Hs), (proj2 (Z.eqb_neq _ _) Ht), (proj2 (Z.eqb_neq _ _) Hq). cbn [orb andb].
      rewrite IH. f_equal. cbn. by rewrite <- !app_assoc.
Qed.

Lemma split_start c line : c <> SPACE -> c <> TAB ->
  splitArguments (c :: line) 0 false None = splitArguments (c :: line) 0 false (Some []).
Proof.
  intros Hs Ht. cbn [splitArguments default]. rewrite (proj2 (Z.eqb_neq _ _) Hs), (proj2 (Z.eqb_neq _ _) Ht). done.
Qed.

(** A quoted argument is read back. *)
Lemma split_Quote value rest : ends rest ->
  splitArguments (Quote value ++ rest) 0 false None = value :: following rest.
Proof.
  intros Hrest. unfold Quote. destruct (negb (length value =? 0)%nat && negb (needsQuotes value)) eqn:E.
  - apply andb_true_iff in E as [Hne Hq%negb_true_iff]. apply needsQuotes_plain in Hq.
    destruct value as [|c value]; [done|]. cbn [app].
    rewrite split_start by (inversion Hq as [|? ? (? & ? & ?)]; done).
    by apply (split_plain (c :: value) 0 [] rest).
  - cbn [app]. rewrite split_start by done. cbn [splitArguments default].
    change (QUOTE =? BACKSLASH) with false. rewrite Z.eqb_refl. cbn [Nat.odd Nat.div2 repeat app default id].
    rewrite split_quoteLoop, (split_end rest) by done. cbn [repeat app]. by rewrite app_nil_r.
Qed.

Lemma split_arguments arguments :
  splitArguments (concat (map (fun argument => [SPACE] ++ Quote argument) arguments)) 0 false None = arguments.
Proof.
  assert (H : forall arguments, ends (concat (map (fun argument => [SPACE] ++ Quote argument) arguments))).
  { by intros []. }
  induction arguments as [|a arguments IH]; [done|]. cbn [map concat]. rewrite <- app_assoc. cbn [app splitArguments].
  rewrite split_Quote by apply H. f_equal. rewrite <- IH at 2.
  destruct arguments as [|b arguments]; [done|]. cbn [map concat app following]. done.
Qed.

(** ** The program's name *)
Lemma quoteLoop_path value n : ~ In QUOTE value -> List.last value SPACE <> BACKSLASH -> value <> [] ->
  quoteLoop value n = repeat BACKSLASH n ++ value ++ [QUOTE].
Proof.
  revert n. induction value as [|c value IH]; intros n Hq Hl Hne; [done|]. cbn [quoteLoop].
  assert (Hq' : ~ In QUOTE value) by (intros ?; apply Hq; by right).
  assert (Hc : c <> QUOTE) by (intros ->; apply Hq; by left).
  rewrite (proj2 (Z.eqb_neq _ _) Hc).
  destruct value as [|d value].
  - cbn in Hl. rewrite (proj2 (Z.eqb_neq _ _) Hl). done.
  - change (List.last (c :: d :: value) SPACE) with (List.last (d :: value) SPACE) in Hl.
    destruct (Z.eqb_spec c BACKSLASH) as [->|]; rewrite IH by done.
    + rewrite repeat_app, <- app_assoc. done.
    + done.
Qed.

Lemma programName_plain path rest quoted : ~ In QUOTE path ->
  (quoted = true \/ Forall plainChar path) ->
  programName (path ++ rest) quoted
  = (path ++ (programName rest quoted).1, (programName rest quoted).2).
Proof.
  induction path as [|c path IH]; intros Hq Hp; [apply surjective_pairing|]. cbn [app programName].
  assert (Hc : c <> QUOTE) by (intros ->; apply Hq; by left). rewrite (proj2 (Z.eqb_neq _ _) Hc).
  assert (Hblank : ((c =? SPACE) || (c =? TAB)) && negb quoted = false).
  { destruct Hp as [->|Hp]; [apply andb_false_r|]. inversion Hp as [|? ? (Hs & Ht & _)]; subst.
    by rewrite (proj2 (Z.eqb_neq _ _) Hs), (proj2 (Z.eqb_neq _ _) Ht). }
  rewrite Hblank, IH; [done| |].
  - intros ?. apply Hq. by right.
  - destruct Hp as [->|Hp]; [by left|]. right. by inversion Hp.
Qed.

Lemma programName_end rest : ends rest -> programName rest false = ([], rest).
Proof. destruct rest as [|c rest]; [done|]. cbn [ends]. by intros ->. Qed.

Lemma programName_Quote path rest :
  path <> [] -> ~ In QUOTE path -> List.last path SPACE <> BACKSLASH -> ends rest ->
  programName (Quote path ++ rest) false = (path, rest).
Proof.
  intros Hne Hq Hl Hrest. unfold Quote.
  destruct (negb (length path =? 0)%nat && negb (needsQuotes path)) eqn:E.
  - apply andb_true_iff in E as [_ Hp%negb_true_iff]. apply needsQuotes_plain in Hp.
    rewrite programName_plain by auto. rewrite programName_end by done. by rewrite app_nil_r.
  - rewrite quoteLoop_path by done. cbn [repeat app programName]. rewrite Z.eqb_refl. cbn [negb].
    rewrite <- app_assoc, programName_plain by auto. cbn [app programName]. rewrite Z.eqb_refl. cbn [negb].
    rewrite programName_end by done. by rewrite app_nil_r.
Qed.

Lemma cstring_terminated line : Forall (fun c => c <> 0) line -> cstring (line ++ [0]) = line.
Proof. induction 1 as [|c line Hc Hl IH]; [done|]. cbn. rewrite (proj2 (Z.eqb_neq _ _) Hc). by rewrite IH. Qed.

Lemma Quote_nonzero value : Forall (fun c => c <> 0) value -> Forall (fun c => c <> 0) (Quote value).
Proof.
  intros Hv. assert (Hrep : forall n, Forall (fun c => c <> 0) (repeat BACKSLASH n)).
  { intros n. apply List.Forall_forall. by intros c ->%repeat_spec. }
  assert (Hloop : forall n, Forall (fun c => c <> 0) (quoteLoop value n)).
  { induction Hv as [|c value Hc Hv IH]; intros n; cbn [quoteLoop]; [|destruct (c =? BACKSLASH); [done|destruct (c =? QUOTE)]].
    all: repeat (apply Forall_app; split); try apply Hrep; try apply IH; by repeat constructor. }
  unfold Quote. destruct (_ && _); [done|]. constructor; [done|apply Hloop].
Qed.

(** ** The property *)

(** C14: the external client receives the argument vector of the shim. For an
    executable path without quotes that does not end in a backslash, and arguments that
    are any C strings (with spaces, quotes and backslashes anywhere, or empty), the
    command line [LaunchSystem] passes to [CreateProcessW] is split by the documented
    rules into exactly the path and the arguments after the shim's own name. *)
Theorem command_line_roundtrip externalPath arguments :
  externalPath <> [] -> ~ In QUOTE externalPath -> List.last externalPath SPACE <> BACKSLASH ->
  Forall (Forall (fun c => c <> 0)) (externalPath :: arguments) ->
  documentedArgv (mutableCommand externalPath arguments) = externalPath :: drop 1 arguments.
Proof.
  intros Hne Hq Hl Hz. unfold documentedArgv, mutableCommand, commandLine.
  inversion Hz as [|? ? Hzp Hza]; subst. rewrite cstring_terminated.
  - rewrite programName_Quote by (done || by destruct (drop 1 arguments)). by rewrite split_arguments.
  - apply Forall_app. split; [by apply Quote_nonzero|]. apply Forall_concat, Forall_map.
    apply (Forall_drop _ 1) in Hza. eapply Forall_impl; [exact Hza|]. cbn. intros a Ha. constructor; [done|].
    by apply Quote_nonzero.
Qed.

Lemma command_line_roundtrip_witness :
  documentedArgv (mutableCommand (L "C:\Program Files\ssh.exe")
                    [L "ssh"; L "-i"; L "C:\my keys\"; [QUOTE; BACKSLASH; QUOTE]; []; L "host"])
  = [L "C:\Program Files\ssh.exe"; L "-i"; L "C:\my keys\"; [QUOTE; BACKSLASH; QUOTE]; []; L "host"].
Proof.
  apply (command_line_roundtrip (L "C:\Program Files\ssh.exe")
           [L "ssh"; L "-i"; L "C:\my keys\"; [QUOTE; BACKSLASH; QUOTE]; []; L "host"]).
  - discriminate.
  - intros H. vm_compute in H. intuition discriminate.
  - discriminate.
  - by_decide.
Defined.
