(* ===== verification/ShimEnvironment.v ===== *)
(** * The environment of the external SSH client

    [FullPath], [Parent], [EqualPath] and [SanitizedEnvironment] of the SSH shim
    ([src/vt7/VT7.SshShim/main.cpp]): the block of environment strings without the
    variables of the shim protocol and with a [PATH] that no longer finds the shim. The
    Windows function [GetFullPathNameW] and [std::sort], whose order of equal
    elements is not specified, are parameters. *)
From stdpp Require Import sorting.
From S2P Require Import Prelude.
From S2P Require Import Strings.
From S2P Require Import ShimQuote.

Definition EQUALS : wchar_t := 0x3D.
Definition SEMICOLON : wchar_t := 0x3B.

(** [towlower] in the C locale. *)
Definition tolower (c : wchar_t) : wchar_t := if (0x41 <=? c) && (c <=? 0x5A) then c + 0x20 else c.

(** [_wcsicmp] of strings without a terminator inside: negative, zero or positive. *)
Fixpoint _wcsicmp (string1 string2 : wstring) : Z :=
  match string1, string2 with
  | [], [] => 0
  | [], d :: _ => - tolower d
  | c :: _, [] => tolower c
  | c :: string1, d :: string2 =>
      if tolower c =? tolower d then _wcsicmp string1 string2 else tolower c - tolower d
  end.
Definition _wcsnicmp (string1 string2 : wstring) (count : nat) : Z :=
  _wcsicmp (take count string1) (take count string2).

(** ** Paths *)
Definition is_separator (c : wchar_t) : bool := (c =? 0x5C) || (c =? 0x2F).

(** [while (value.size() > 3 && (value.back() is a separator)) value.pop_back()], over
    the characters from the last to the first. *)
Fixpoint popSeparators (backwards : wstring) : wstring :=
  match backwards with
  | c :: backwards' => if (3 <? length backwards)%nat && is_separator c then popSeparators backwards' else backwards
  | [] => []
  end.

Definition Parent (path : wstring) : wstring :=
  match find_from is_separator (rev path) 0 with
  | None => L "."
  | Some i => take (length path - 1 - i) path
  end.

Section environment.
(** [None] if the function fails. *)
Context (GetFullPathNameW : wstring -> option wstring).
Context (sort : (wstring -> wstring -> bool) -> list wstring -> list wstring).

(** The lambda passed to [std::sort]. *)
Definition entryLess (left right : wstring) : bool := _wcsicmp left right <? 0.

(** [None] if it throws. *)
Definition FullPath (path : wstring) : option wstring :=
  value ← GetFullPathNameW (cstring path);
  Some (rev (popSeparators (rev value))).

Definition EqualPath (left right : wstring) : option bool :=
  l ← FullPath left;
  r ← FullPath right;
  Some (_wcsicmp (cstring l) (cstring r) =? 0).

(** The loop over the elements of [PATH]. *)
Fixpoint pathLoop (fuel : nat) (shimDirectory value : wstring) (start : nat) (filtered : wstring)
    (keptAny : bool) : option wstring :=
  match fuel with
  | O => None
  | S fuel =>
      if (start <=? length value)%nat then
        let end_ := find value SEMICOLON start in
        let part := match end_ with
                    | None => drop start value
                    | Some e => take (e - start) (drop start value)
                    end in
        let remove := negb (length part =? 0)%nat && default false (EqualPath part shimDirectory) in
        let filtered := if negb remove then (if keptAny then filtered ++ [SEMICOLON] else filtered) ++ part
                        else filtered in
        let keptAny := keptAny || negb remove in
        match end_ with
        | None => Some filtered
        | Some e => pathLoop fuel shimDirectory value (e + 1) filtered keptAny
        end
      else Some filtered
  end.
Definition filterPath (shimDirectory value : wstring) : wstring :=
  default [] (pathLoop (S (length value)) shimDirectory value 0 [] false).

(** One pass of the loop over the entries: what it pushes, if anything. *)
Definition sanitizeEntry (shimDirectory entry : wstring) : option wstring :=
  match find entry EQUALS (match entry with c :: _ => if c =? EQUALS then 1%nat else 0%nat | [] => 0%nat end) with
  | None => None
  | Some separator =>
      let name := take separator entry in
      if _wcsnicmp name (L "VT7_SSH_") 8 =? 0 then None
      else if _wcsicmp name (L "PATH") =? 0 then
        Some (name ++ [EQUALS] ++ filterPath shimDirectory (drop (separator + 1) entry))
      else Some entry
  end.

(** The strings of a block, up to the empty one; [None] if it runs off the end. *)
Fixpoint blockStrings (block current : wstring) : option (list wstring) :=
  match block with
  | [] => None
  | c :: block =>
      if c =? 0 then
        match current with
        | [] => Some []
        | _ => strings ← blockStrings block []; Some (current :: strings)
        end
      else blockStrings block (current ++ [c])
  end.

(** The result vector: the entries with their terminators, and the last terminator. *)
Definition blockOf (entries : list wstring) : wstring :=
  concat (map (fun entry => entry ++ [0]) entries) ++ [0].

(** [None] if the block has no end. *)
Definition SanitizedEnvironment (block shimDirectory : wstring) : option wstring :=
  strings ← blockStrings block [];
  Some (blockOf (sort entryLess (omap (sanitizeEntry shimDirectory) strings))).

(** ** Lemmas *)
Definition is_string (s : wstring) : Prop := s <> [] /\ Forall (fun c => c <> 0) s.

Lemma blockStrings_step entry block current :
  Forall (fun c => c <> 0) entry -> current ++ entry <> [] ->
  blockStrings (entry ++ 0 :: block) current
  = (strings ← blockStrings block []; Some ((current ++ entry) :: strings)).
Proof.
  intros Hz. revert current. induction Hz as [|c entry Hc Hz IH]; intros current Hne; cbn [app blockStrings].
  - rewrite app_nil_r in *. by destruct current.
  - rewrite (proj2 (Z.eqb_neq _ _) Hc), IH; [|by destruct current]. by rewrite <- app_assoc.
Qed.

Lemma blockStrings_blockOf entries : Forall is_string entries -> blockStrings (blockOf entries) [] = Some entries.
Proof.
  unfold blockOf. induction 1 as [|entry entries [Hne Hz] Hs IH]; [done|]. cbn [map concat].
  rewrite <- !app_assoc. cbn [app]. rewrite blockStrings_step by done. by rewrite IH.
Qed.

(** The elements the loop keeps. *)
Definition keeps (shimDirectory part : wstring) : bool :=
  (length part =? 0)%nat || negb (default false (EqualPath part shimDirectory)).

Lemma keeps_remove shimDirectory part :
  keeps shimDirectory part
  = negb (negb (length part =? 0)%nat && default false (EqualPath part shimDirectory)).
Proof. unfold keeps. by destruct (length part =? 0)%nat, (EqualPath part shimDirectory) as [[]|]. Qed.

(** What the loop adds for the elements it keeps. *)
Definition joined (keptAny : bool) (kept : list wstring) : wstring :=
  if keptAny then concat (map (cons SEMICOLON) kept) else joinWith SEMICOLON kept.

Lemma joined_cons keptAny part kept :
  joined keptAny (part :: kept) = (if keptAny then [SEMICOLON] else []) ++ part ++ joined true kept.
Proof.
  destruct keptAny; [done|]. cbn [joined app]. unfold joined. revert part.
  induction kept as [|q kept IH]; intros part; [cbn; by rewrite app_nil_r|].
  rewrite joinWith_cons by done. rewrite IH. done.
Qed.

Lemma filter_step (shimDirectory part : wstring) (parts : list wstring) (keptAny : bool) (filtered : wstring) :
  let keep := keeps shimDirectory part in
  (if keep then (if keptAny then filtered ++ [SEMICOLON] else filtered) ++ part else filtered)
    ++ joined (keptAny || keep) (List.filter (keeps shimDirectory) parts)
  = filtered ++ joined keptAny (List.filter (keeps shimDirectory) (part :: parts)).
Proof.
  intros keep. cbn [List.filter]. fold keep. destruct keep; [|by rewrite orb_false_r].
  rewrite joined_cons, orb_true_r. destruct keptAny; cbn [app]; by rewrite <- ?app_assoc.
Qed.

Lemma pathLoop_spec fuel shimDirectory value start filtered keptAny parts :
  Forall (delimiterFree SEMICOLON) parts -> parts <> [] ->
  (start <= length value)%nat -> drop start value = joinWith SEMICOLON parts -> (length value - start < fuel)%nat ->
  pathLoop fuel shimDirectory value start filtered keptAny
  = Some (filtered ++ joined keptAny (List.filter (keeps shimDirectory) parts)).
Proof.
  intros Hfree. revert fuel start filtered keptAny.
  induction Hfree as [|part parts Hpart Hfree IH]; intros fuel start filtered keptAny Hne Hle Hdrop Hfuel; [done|].
  destruct fuel as [|fuel]; [lia|]. cbn [pathLoop]. rewrite (proj2 (Nat.leb_le _ _) Hle).
  unfold find. rewrite find_from_drop. pose proof (find_from_0 (Z.eqb SEMICOLON) (drop start value)) as Hfind.
  destruct (decide (parts = [])) as [->|Hparts].
  - cbn [joinWith] in Hdrop. rewrite Hdrop in Hfind.
    destruct (find_from (Z.eqb SEMICOLON) (drop start value) 0) as [i|] eqn:Ei; rewrite Hdrop in Ei; rewrite Ei in Hfind.
    + exfalso. destruct Hfind as (a & c & b & -> & _ & _ & <-%Z.eqb_eq). apply Hpart, in_or_app. right. by left.
    + cbn [fmap option_fmap option_map]. rewrite Hdrop, <- keeps_remove.
      rewrite <- (filter_step shimDirectory part [] keptAny filtered). cbn [List.filter].
      destruct (keptAny || keeps shimDirectory part); cbn; by rewrite app_nil_r.
  - rewrite joinWith_cons in Hdrop by done.
    destruct (find_from (Z.eqb SEMICOLON) (drop start value) 0) as [i|] eqn:Ei.
    2: { exfalso. rewrite Hdrop in Hfind. apply Forall_app in Hfind as [_ Hf]. inversion Hf. by rewrite Z.eqb_refl in *. }
    destruct Hfind as (a & c & b & Hab & <- & Ha & <-%Z.eqb_eq). rewrite Hab in Hdrop.
    apply app_delimiter_inj in Hdrop as [-> ->]; [|by apply not_in_Forall|done].
    cbn [fmap option_fmap option_map]. replace (start + length part - start)%nat with (length part) by lia.
    rewrite Hab, take_app_length, <- keeps_remove.
    pose proof (f_equal length Hab) as Hl. rewrite length_drop, length_app in Hl. cbn [length] in Hl.
    rewrite IH; [by rewrite filter_step|done|lia| |lia].
    rewrite <- Nat.add_assoc, <- drop_drop, Hab, <- drop_drop, drop_app_length. done.
Qed.

Lemma filterPath_spec shimDirectory parts :
  Forall (delimiterFree SEMICOLON) parts -> parts <> [] ->
  filterPath shimDirectory (joinWith SEMICOLON parts) = joinWith SEMICOLON (List.filter (keeps shimDirectory) parts).
Proof.
  intros Hfree Hne. unfold filterPath.
  rewrite (pathLoop_spec _ shimDirectory _ 0 [] false parts) by (done || lia). done.
Qed.
End environment.

(** ** Comparison ignoring case *)
Lemma tolower_nonzero c : c <> 0 -> tolower c <> 0.
Proof. unfold tolower. destruct ((0x41 <=? c) && (c <=? 0x5A)) eqn:E; lia. Qed.

Lemma wcsicmp_eq a b : Forall (fun c => c <> 0) a -> Forall (fun c => c <> 0) b ->
  _wcsicmp a b = 0 <-> map tolower a = map tolower b.
Proof.
  intros Ha. revert b. induction Ha as [|c a Hc Ha IH]; intros b Hb; destruct Hb as [|d b Hd Hb]; cbn [_wcsicmp map]; try done.
  - pose proof (tolower_nonzero d Hd). split; [lia|done].
  - pose proof (tolower_nonzero c Hc). split; [lia|done].
  - destruct (Z.eqb_spec (tolower c) (tolower d)) as [Heq|Hne].
    + rewrite IH by done. rewrite Heq. split; [by intros ->|by intros [= ->]].
    + split; [lia|]. by intros [= ? ?].
Qed.

Lemma wcsicmp_opp a b : _wcsicmp b a = - _wcsicmp a b.
Proof.
  revert b. induction a as [|c a IH]; intros [|d b]; cbn [_wcsicmp]; try lia.
  rewrite (Z.eqb_sym (tolower d)). destruct (tolower c =? tolower d); [apply IH|lia].
Qed.

(** ** Variables *)
Definition is_name (name : wstring) : Prop :=
  name <> [] /\ Forall (fun c => c <> 0) name /\ ~ In EQUALS (drop 1 name).
Definition assign (variable : wstring * wstring) : wstring := variable.1 ++ EQUALS :: variable.2.

Lemma find_assign name value : is_name name ->
  find (assign (name, value)) EQUALS
    (match assign (name, value) with c :: _ => if c =? EQUALS then 1%nat else 0%nat | [] => 0%nat end) = Some (length name).
Proof.
  intros (Hne & _ & Hin). destruct name as [|c name]; [done|]. cbn [assign fst snd app].
  assert (Hfind : forall s, ~ In EQUALS s -> find_from (Z.eqb EQUALS) (s ++ EQUALS :: value) 0 = Some (length s)).
  { induction s as [|d s IHs]; intros Hs; cbn [app find_from length]; [by rewrite Z.eqb_refl|].
    destruct (Z.eqb_spec EQUALS d) as [<-|]; [exfalso; apply Hs; by left|].
    rewrite IHs; [done|]. intros ?. apply Hs. by right. }
  cbn [drop] in Hin. unfold find. destruct (Z.eqb_spec c EQUALS) as [->|Hc].
  - cbn [find_from]. by rewrite Hfind.
  - change (c :: name ++ EQUALS :: value) with ((c :: name) ++ EQUALS :: value). rewrite Hfind; [done|].
    intros [->|?]; [done|]. by apply Hin.
Qed.

Definition is_shim_variable (name : wstring) : bool := _wcsnicmp name (L "VT7_SSH_") 8 =? 0.
Definition is_path_variable (name : wstring) : bool := _wcsicmp name (L "PATH") =? 0.

(** The elements of a [PATH] value. *)
Definition pathElements (value : wstring) : list wstring :=
  match value with [] => [[]] | _ => SplitString value SEMICOLON end.

Lemma pathElements_spec value :
  Forall (delimiterFree SEMICOLON) (pathElements value) /\ pathElements value <> []
  /\ joinWith SEMICOLON (pathElements value) = value.
Proof.
  destruct value as [|c value]; [by repeat constructor; [intros []|]|].
  destruct (SplitString_spec (c :: value) SEMICOLON) as (Hf & Hj & He). split_and!; [done| |done].
  cbn [pathElements]. by intros ?%He.
Qed.

Section sanitized.
Context (GetFullPathNameW : wstring -> option wstring).
Context (sort : (wstring -> wstring -> bool) -> list wstring -> list wstring).

(** The variables the client is meant to get. *)
Definition sanitizedVariable (shimDirectory : wstring) (variable : wstring * wstring) : option (wstring * wstring) :=
  if is_shim_variable variable.1 then None
  else if is_path_variable variable.1 then
    Some (variable.1, joinWith SEMICOLON (List.filter (keeps GetFullPathNameW shimDirectory) (pathElements variable.2)))
  else Some variable.

Lemma sanitizeEntry_assign shimDirectory variable : is_name variable.1 ->
  sanitizeEntry GetFullPathNameW shimDirectory (assign variable) = assign <$> sanitizedVariable shimDirectory variable.
Proof.
  destruct variable as [name value]. cbn [fst]. intros Hn. unfold sanitizeEntry. rewrite find_assign by done.
  unfold sanitizedVariable, is_shim_variable, is_path_variable. cbn [fst snd].
  unfold assign at 1 2 3 4 5. cbn [fst snd]. rewrite take_app_length.
  destruct (_wcsnicmp name (L "VT7_SSH_") 8 =? 0); [done|]. destruct (_wcsicmp name (L "PATH") =? 0); [|done].
  destruct (pathElements_spec value) as (Hf & Hne & Hj). cbn [fmap option_fmap option_map]. do 2 f_equal.
  unfold assign. cbn [fst snd app]. do 2 f_equal. rewrite <- drop_drop, drop_app_length.
  change (drop 1 (EQUALS :: value)) with value. rewrite <- Hj at 1. by apply filterPath_spec.
Qed.

Lemma sanitized_names shimDirectory variable variable' :
  sanitizedVariable shimDirectory variable = Some variable' ->
  variable'.1 = variable.1 /\ is_shim_variable variable.1 = false.
Proof.
  unfold sanitizedVariable. destruct (is_shim_variable variable.1); [done|].
  destruct (is_path_variable variable.1); by intros [= <-].
Qed.

(** A string that starts with the prefix of the shim's variables assigns one of them. *)
Lemma shim_prefix variable : is_name variable.1 -> Forall (fun c => c <> 0) variable.2 ->
  _wcsnicmp (assign variable) (L "VT7_SSH_") 8 = 0 -> is_shim_variable variable.1 = true.
Proof.
  destruct variable as [name value]. cbn [fst snd]. intros (Hne & Hz & Hin) Hv Hp. apply Z.eqb_eq.
  unfold _wcsnicmp in *. unfold assign in Hp. cbn [fst snd] in Hp. destruct (Nat.leb_spec 8 (length name)).
  - by rewrite take_app_le in Hp.
  - exfalso. rewrite take_app_ge in Hp by lia. apply wcsicmp_eq in Hp; [| |by_decide].
    + assert (Hin' : In EQUALS (map tolower (take 8 (L "VT7_SSH_")))).
      { rewrite <- Hp, map_app. apply in_or_app. right. destruct (8 - length name)%nat eqn:E; [lia|]. by left. }
      vm_compute in Hin'. intuition discriminate.
    + apply Forall_app. split; [done|]. apply Forall_take. by constructor.
Qed.

Lemma omap_assign shimDirectory variables : Forall (fun v => is_name v.1) variables ->
  omap (sanitizeEntry GetFullPathNameW shimDirectory) (map assign variables)
  = map assign (omap (sanitizedVariable shimDirectory) variables).
Proof.
  induction 1 as [|v variables Hv Hvs IH]; [done|]. cbn [map omap list_omap]. rewrite sanitizeEntry_assign by done.
  destruct (sanitizedVariable shimDirectory v); cbn [fmap option_fmap option_map map]; [f_equal|]; exact IH.
Qed.

Lemma assign_string variable : is_name variable.1 -> Forall (fun c => c <> 0) variable.2 -> is_string (assign variable).
Proof.
  intros (Hne & Hz & _) Hv. split; [by intros [_ ?]%app_eq_nil|]. apply Forall_app. split; [done|]. by constructor.
Qed.

Lemma joinWith_nonzero parts : Forall (Forall (fun c => c <> 0)) parts -> Forall (fun c => c <> 0) (joinWith SEMICOLON parts).
Proof.
  induction 1 as [|p parts Hp Hps IH]; [constructor|]. destruct (decide (parts = [])) as [->|]; [done|].
  rewrite joinWith_cons by done. apply Forall_app. split; [done|]. by constructor.
Qed.

Lemma joinWith_nonzero_inv parts : Forall (fun c => c <> 0) (joinWith SEMICOLON parts) -> Forall (Forall (fun c => c <> 0)) parts.
Proof.
  induction parts as [|p parts IH]; [constructor|]. destruct (decide (parts = [])) as [->|].
  - intros Hp. by constructor.
  - rewrite joinWith_cons by done. intros [Hp Hr]%Forall_app. inversion Hr. constructor; auto.
Qed.

Lemma sanitized_nonzero shimDirectory variable variable' :
  Forall (fun c => c <> 0) variable.2 -> sanitizedVariable shimDirectory variable = Some variable' ->
  Forall (fun c => c <> 0) variable'.2.
Proof.
  intros Hv. unfold sanitizedVariable. destruct (is_shim_variable variable.1); [done|].
  destruct (is_path_variable variable.1); intros [= <-]; [|done]. cbn [snd]. apply joinWith_nonzero.
  destruct (pathElements_spec variable.2) as (_ & _ & Hj). rewrite <- Hj in Hv. apply joinWith_nonzero_inv in Hv.
  rewrite List.Forall_forall in Hv |- *. intros p [Hp _]%filter_In. by apply Hv.
Qed.

(** C15: the environment of the external client. From the block of the shim's
    environment, [SanitizedEnvironment] builds a block that holds, sorted by
    [_wcsicmp], exactly the meant variables: all those whose name does not start with
    [VT7_SSH_] (in any case), each unchanged except [PATH], from which exactly the
    elements that denote the shim's directory are gone, the others in order. No string
    of the block starts with [VT7_SSH_], so the session capability does not leave. *)
Theorem environment_sanitized shimDirectory variables :
  (forall l, Permutation (sort entryLess l) l
             /\ Sorted (fun a b => entryLess b a = false) (sort entryLess l)) ->
  Forall (fun v => is_name v.1 /\ Forall (fun c => c <> 0) v.2) variables ->
  exists block strings,
    SanitizedEnvironment GetFullPathNameW sort (blockOf (map assign variables)) shimDirectory = Some block
    /\ blockStrings block [] = Some strings
    /\ Permutation strings (map assign (omap (sanitizedVariable shimDirectory) variables))
    /\ Sorted (fun a b => entryLess b a = false) strings
    /\ Forall (fun entry => _wcsnicmp entry (L "VT7_SSH_") 8 <> 0) strings.
Proof.
  intros Hsort Hvars.
  assert (Hin : forall v, In v (omap (sanitizedVariable shimDirectory) variables) ->
            is_name v.1 /\ Forall (fun c => c <> 0) v.2 /\ is_shim_variable v.1 = false).
  { intros v Hv. apply list_elem_of_In, list_elem_of_omap in Hv as (v0 & Hv0 & Hs).
    apply list_elem_of_In in Hv0. rewrite List.Forall_forall in Hvars. destruct (Hvars _ Hv0) as [Hn Hz].
    destruct (sanitized_names _ _ _ Hs) as [-> ?]. split_and!; [done| |done]. by eapply sanitized_nonzero. }
  set (strings := map assign (omap (sanitizedVariable shimDirectory) variables)).
  destruct (Hsort strings) as [Hperm Hsorted].
  assert (Hstr : forall e, In e (sort entryLess strings) -> exists v, e = assign v
            /\ is_name v.1 /\ Forall (fun c => c <> 0) v.2 /\ is_shim_variable v.1 = false).
  { intros e He. apply (Permutation_in _ Hperm), in_map_iff in He as (v & <- & Hv). eauto. }
  exists (blockOf (sort entryLess strings)), (sort entryLess strings). split_and!.
  - unfold SanitizedEnvironment. rewrite blockStrings_blockOf.
    + cbn [mbind option_bind]. rewrite omap_assign; [done|]. eapply Forall_impl; [exact Hvars|]. by intros v [].
    + apply Forall_map. eapply Forall_impl; [exact Hvars|]. intros v []. by apply assign_string.
  - apply blockStrings_blockOf, List.Forall_forall. intros e He. destruct (Hstr e He) as (v & -> & Hn & Hz & _).
    by apply assign_string.
  - exact Hperm.
  - exact Hsorted.
  - apply List.Forall_forall. intros e He Hp. destruct (Hstr e He) as (v & -> & Hn & Hz & Hs).
    apply shim_prefix in Hp; [|done..]. by rewrite Hs in Hp.
Qed.
End sanitized.

(** A sort to evaluate with. *)
Definition notAfter (less : wstring -> wstring -> bool) (a b : wstring) : Prop := less b a = false.
#[global] Instance notAfter_dec less : RelDecision (notAfter less).
Proof. intros a b. unfold notAfter. apply _. Defined.

Definition mergeSort (less : wstring -> wstring -> bool) (l : list wstring) : list wstring :=
  merge_sort (notAfter less) l.

#[global] Instance notAfter_total : Total (notAfter entryLess).
Proof.
  intros a b. unfold notAfter, entryLess. pose proof (wcsicmp_opp a b).
  destruct (Z.ltb_spec (_wcsicmp b a) 0); [right|by left]. destruct (Z.ltb_spec (_wcsicmp a b) 0); [lia|done].
Qed.

Lemma mergeSort_sorts l :
  Permutation (mergeSort entryLess l) l /\ Sorted (fun a b => entryLess b a = false) (mergeSort entryLess l).
Proof. split; [apply merge_sort_Permutation|apply (Sorted_merge_sort (notAfter entryLess))]. Qed.

(** The shim lives in [C:\shim]. *)
Definition sampleVariables : list (wstring * wstring) :=
  [(L "=C:", L "C:\work"); (L "Path", L "C:\SHIM\;C:\bin;;C:\shim"); (L "vt7_ssh_capability", L "secret");
   (L "TERM", L "xterm")].

Lemma environment_sanitized_witness :
  exists block strings,
    SanitizedEnvironment Some mergeSort (blockOf (map assign sampleVariables)) (L "C:\shim") = Some block
    /\ blockStrings block [] = Some strings
    /\ Permutation strings (map assign (omap (sanitizedVariable Some (L "C:\shim")) sampleVariables))
    /\ Sorted (fun a b => entryLess b a = false) strings
    /\ Forall (fun entry => _wcsnicmp entry (L "VT7_SSH_") 8 <> 0) strings.
Proof.
  apply (environment_sanitized Some mergeSort (L "C:\shim") sampleVariables); [apply mergeSort_sorts|].
  repeat constructor; try by_decide; try discriminate; intros H; vm_compute in H; intuition discriminate.
Defined.

Example environment_evaluated :
  SanitizedEnvironment Some mergeSort (blockOf (map assign sampleVariables)) (L "C:\shim")
  = Some (blockOf [L "=C:=C:\work"; L "Path=C:\bin;"; L "TERM=xterm"]).
Proof. vm_compute. reflexivity. Qed.
