(* ===== verification/SshShim.v ===== *)
(** * The SSH shim

    [src/vt7/VT7.SshShim/main.cpp]: the program VT7 puts on the [PATH] of a local session
    under the name [ssh]. [RunShim] asks the VT7 host over a pipe whether to run the
    command in the terminal itself ([Embedded]), to launch the system's SSH client, or
    to refuse. [Handle] closes what it owns when it leaves its scope; that closing is not
    part of the model, the explicit [CloseHandle] calls are.

    The shim talks to Windows. A program is a tree: it returns, or it makes a call and goes on
    with whatever the call returned. A run of a program is any path through its tree, so a
    property of all runs holds whatever the system answers, within what is documented of the
    calls ([honest]). *)

From S2P Require Import Prelude ShimEnvironment Strings ShimProtocol ShimQuote.

(** ** The calls *)
Inductive IoOp := ReadOp (count : Z) | WriteOp (data : bytes).
Inductive IoStart := Completed (transferred : Z) (data : bytes) | Pending | IoFailed.

Inductive Call : Set -> Type :=
| GetEnvironmentVariableW (name : wstring) (size : Z) : Call (Z * wstring)
| GetModuleFileNameW (size : Z) : Call (Z * wstring)
| GetCurrentDirectoryW (size : Z) : Call (Z * wstring)
| GetConsoleProcessList (size : Z) : Call (Z * list Z)
| WaitNamedPipeW (name : wstring) (timeout : Z) : Call bool
| CreateFileW_pipe (name : wstring) : Call bool
| BCryptGenRandom (count : Z) : Call (option bytes)
| GetCurrentProcessId : Call Z
| GetProcessTimes : Call (option (Z * Z))
| GetStdHandle (id : Z) : Call (option Z)
| GetFileType (handle : Z) : Call Z
| GetConsoleMode (handle : Z) : Call bool
| CreateEventW : Call bool
| StartIo (op : IoOp) : Call IoStart
| WaitForIo (timeout : Z) : Call bool
| CancelIo : Call unit
| GetOverlappedResult (op : IoOp) : Call (option (Z * bytes))
| WriteConsoleW (text : wstring) : Call (option Z)
| PrintRejected (reason : wstring) : Call unit
| PrintFailed : Call unit
| HashFile (path : wstring) : Call (option bytes)
| GetEnvironmentStringsW : Call (option wstring)
| FreeEnvironmentStringsW : Call unit
| RtlGetVersion : Call (option (Z * Z))
| CreateFileW_console (input : bool) : Call (option Z)
| DuplicateHandle (handle : Z) : Call (option Z)
| AttributeListSize : Call Z
| InitializeProcThreadAttributeList (size : Z) : Call bool
| UpdateProcThreadAttribute (handles : list Z) : Call bool
| DeleteProcThreadAttributeList : Call unit
| CloseHandle (handle : Z) : Call unit
| CreateProcessW (path command environment : wstring) (inherit : bool) (handles : list Z) : Call bool
| WaitForProcess : Call bool
| GetExitCodeProcess : Call (option Z).

(** What is documented of the calls and relied on: no more bytes are transferred than were
    asked for, what is read are bytes, and the environment is a block of strings with an end. *)
Definition honestIo (op : IoOp) (transferred : Z) (data : bytes) : bool :=
  match op with
  | ReadOp count =>
      (0 <=? transferred) && (transferred <=? count) && (Z.of_nat (length data) =? transferred)
      && forallb (fun b => (0 <=? b) && (b <? 256)) data
  | WriteOp buffer => (0 <=? transferred) && (transferred <=? Z.of_nat (length buffer))
  end.
Definition honest {R : Set} (call : Call R) : R -> bool :=
  match call in Call R return R -> bool with
  | StartIo op => fun r => match r with Completed n data => honestIo op n data | _ => true end
  | GetEnvironmentStringsW => fun r =>
      match r with Some block => bool_decide (is_Some (blockStrings block [])) | None => true end
  | GetOverlappedResult op => fun r => match r with Some (n, data) => honestIo op n data | None => true end
  | _ => fun _ => true
  end.

(** ** Programs *)
Inductive Prog (A : Type) : Type :=
| Return (a : A)
| Ask (R : Set) (call : Call R) (k : R -> Prog A).
Arguments Return {A} a.
Arguments Ask {A R} call k.

Fixpoint Prog_bind {A B} (f : A -> Prog B) (p : Prog A) : Prog B :=
  match p with
  | Return a => f a
  | Ask call k => Ask call (fun r => Prog_bind f (k r))
  end.

(** A call and its answer. *)
Inductive Event : Type :=
| event (R : Set) (call : Call R) (answer : R).
Arguments event {R} call answer.

(** [trace] is the record of a run of [p] that returns [a]. *)
Fixpoint run {A : Type} (p : Prog A) (trace : list Event) (a : A) : Prop :=
  match p with
  | Return a' => trace = [] /\ a = a'
  | Ask call k => exists r trace', honest call r = true /\ trace = event call r :: trace' /\ run (k r) trace' a
  end.

(** Code with a local flag and exceptions: [RunShim] sets the flag when it has the
    host's decision. *)
Definition Shim (A : Type) : Type := bool -> Prog (bool * Outcome A).

#[global] Instance Shim_ret : MRet Shim := fun A a flag => Return (flag, Ret a).
#[global] Instance Shim_bind : MBind Shim := fun A B f m flag =>
  Prog_bind (fun '(flag, o) =>
    match o with
    | Ret a => f a flag
    | Throw => Return (flag, Throw)
    | UB => Return (flag, UB)
    | OutOfFuel => Return (flag, OutOfFuel)
    end) (m flag).

Definition fail {A} : Shim A := fun flag => Return (flag, Throw).
Definition check (condition : bool) : Shim unit := if condition then mret tt else fail.
Definition ask {R : Set} (call : Call R) : Shim R := fun flag => Ask call (fun r => Return (flag, Ret r)).
Definition setFlag : Shim unit := fun _ => Return (true, Ret tt).
Definition getFlag : Shim bool := fun flag => Return (flag, Ret flag).
Definition lift {A} (o : Outcome A) : Shim A := fun flag => Return (flag, o).
(** A parameter that fails throws. *)
Definition require {A} (o : option A) : Shim A := match o with Some a => mret a | None => fail end.
Definition try_ {A} (body handler : Shim A) : Shim A := fun flag =>
  Prog_bind (fun '(flag, o) =>
    match o with
    | Throw => handler flag
    | o => Return (flag, o)
    end) (body flag).

(** ** A logic of runs *)
Definition spec {A} (p : Prog A) (Q : list Event -> A -> Prop) : Prop :=
  forall trace a, run p trace a -> Q trace a.

Lemma spec_return {A} (a : A) (Q : list Event -> A -> Prop) : Q [] a -> spec (Return a) Q.
Proof. by intros HQ trace a' [-> ->]. Qed.

Lemma spec_ask {A} (R : Set) (call : Call R) (k : R -> Prog A) (Q : list Event -> A -> Prop) :
  (forall r, honest call r = true -> spec (k r) (fun trace a => Q (event call r :: trace) a)) -> spec (Ask call k) Q.
Proof. intros Hk trace a (r & trace' & Hh & -> & Hr). by apply (Hk r Hh trace' a). Qed.

Lemma spec_bind {A B} (p : Prog A) (f : A -> Prog B) (Q : list Event -> B -> Prop) :
  spec p (fun trace a => spec (f a) (fun trace2 b => Q (trace ++ trace2) b)) -> spec (Prog_bind f p) Q.
Proof.
  revert Q. induction p as [a|R call k IH]; intros Q Hp; cbn [Prog_bind].
  - intros trace b Hr. by apply (Hp [] a).
  - apply spec_ask. intros r Hh. apply IH. intros trace a Hr trace2 b Hr2.
    apply (Hp (event call r :: trace) a); [|done]. by exists r, trace.
Qed.

Lemma spec_mono {A} (p : Prog A) (Q1 Q2 : list Event -> A -> Prop) :
  spec p Q1 -> (forall trace a, Q1 trace a -> Q2 trace a) -> spec p Q2.
Proof. intros Hp HQ trace a Hr. apply HQ, Hp, Hr. Qed.

(** *** For [Shim] *)
Definition sspec {A} (m : Shim A) (flag : bool) (Q : list Event -> bool -> Outcome A -> Prop) : Prop :=
  spec (m flag) (fun trace r => Q trace r.1 r.2).

Lemma sspec_ret {A} (a : A) flag (Q : list Event -> bool -> Outcome A -> Prop) : Q [] flag (Ret a) -> sspec (mret a) flag Q.
Proof. intros HQ. by apply spec_return. Qed.

Lemma sspec_fail {A} flag (Q : list Event -> bool -> Outcome A -> Prop) : Q [] flag Throw -> sspec fail flag Q.
Proof. intros HQ. by apply spec_return. Qed.

Lemma sspec_lift {A} (o : Outcome A) flag (Q : list Event -> bool -> Outcome A -> Prop) : Q [] flag o -> sspec (lift o) flag Q.
Proof. intros HQ. by apply spec_return. Qed.

Lemma sspec_ask {R : Set} (call : Call R) flag (Q : list Event -> bool -> Outcome R -> Prop) :
  (forall r, honest call r = true -> Q [event call r] flag (Ret r)) -> sspec (ask call) flag Q.
Proof. intros HQ. apply spec_ask. intros r Hh. apply spec_return. by apply HQ. Qed.

Lemma sspec_bind {A B} (m : Shim A) (f : A -> Shim B) flag (Q : list Event -> bool -> Outcome B -> Prop) :
  sspec m flag (fun trace flag' o =>
    match o with
    | Ret a => sspec (f a) flag' (fun trace2 => Q (trace ++ trace2))
    | Throw => Q trace flag' Throw
    | UB => Q trace flag' UB
    | OutOfFuel => Q trace flag' OutOfFuel
    end) -> sspec (mbind f m) flag Q.
Proof.
  intros Hm. apply spec_bind. eapply spec_mono; [exact Hm|]. intros trace [flag' o] HQ. cbn [fst snd] in *.
  destruct o as [a| | |]; [exact HQ|apply spec_return; by rewrite app_nil_r..].
Qed.

Lemma sspec_try {A} (body handler : Shim A) flag (Q : list Event -> bool -> Outcome A -> Prop) :
  sspec body flag (fun trace flag' o =>
    match o with
    | Throw => sspec handler flag' (fun trace2 => Q (trace ++ trace2))
    | o => Q trace flag' o
    end) -> sspec (try_ body handler) flag Q.
Proof.
  intros Hm. apply spec_bind. eapply spec_mono; [exact Hm|]. intros trace [flag' o] HQ. cbn [fst snd] in *.
  destruct o as [a| | |]; [apply spec_return; by rewrite app_nil_r|exact HQ|apply spec_return; by rewrite app_nil_r..].
Qed.

Lemma sspec_mono {A} (m : Shim A) flag (Q1 Q2 : list Event -> bool -> Outcome A -> Prop) :
  sspec m flag Q1 -> (forall trace flag' o, Q1 trace flag' o -> Q2 trace flag' o) -> sspec m flag Q2.
Proof. intros Hm HQ. eapply spec_mono; [exact Hm|]. intros trace [? ?]. apply HQ. Qed.

(** ** Running with an oracle *)
Definition Oracle : Type := list Event -> forall R : Set, Call R -> R.

Fixpoint simulate {A} (oracle : Oracle) (past : list Event) (p : Prog A) : list Event * A :=
  match p with
  | Return a => ([], a)
  | @Ask _ R call k =>
      let r := oracle past R call in
      let '(trace, a) := simulate oracle (past ++ [event call r]) (k r) in
      (event call r :: trace, a)
  end.

Definition honestEvent (e : Event) : bool := match e with event call r => honest call r end.

Lemma simulate_run {A} oracle past (p : Prog A) :
  forallb honestEvent (simulate oracle past p).1 = true ->
  run p (simulate oracle past p).1 (simulate oracle past p).2.
Proof.
  revert past. induction p as [a|R call k IH]; intros past; cbn [simulate]; [done|].
  specialize (IH (oracle past R call) (past ++ [event call (oracle past R call)])).
  destruct (simulate oracle _ (k _)) as [trace a]. cbn [fst snd forallb honestEvent] in *.
  intros [Hh Ht]%andb_true_iff. exists (oracle past R call), trace. auto.
Qed.

(** ** The SSH shim

    [src/vt7/VT7.SshShim/main.cpp]: the program VT7 puts on the [PATH] of a local session
    under the name [ssh]. [RunShim] asks the VT7 host over a pipe whether to run the
    command in the terminal itself ([Embedded]), to launch the system's SSH client, or
    to refuse. [Handle] closes what it owns when it leaves its scope; that closing is not
    part of the model, the explicit [CloseHandle] calls are. *)

Definition HandshakeIoTimeoutMilliseconds : Z := 5000.
Definition INFINITE : Z := 0xFFFFFFFF.
Definition ConsoleHandleFlag : Z := 0x10000.

Definition STD_INPUT_HANDLE : Z := u32 (-10).
Definition STD_OUTPUT_HANDLE : Z := u32 (-11).
Definition STD_ERROR_HANDLE : Z := u32 (-12).

(** A buffer of [size] characters into which a function wrote [contents]. *)
Definition buffer (size : Z) (contents : wstring) : wstring :=
  take (Z.to_nat size) (contents ++ repeat 0 (Z.to_nat size)).

Definition Environment (name : wstring) : Shim wstring :=
  '(count, _) ← ask (GetEnvironmentVariableW name 0);
  if count =? 0 then mret []
  else
    '(written, contents) ← ask (GetEnvironmentVariableW name count);
    check (written =? count - 1);;
    mret (buffer (count - 1) contents).

(** ** The pipe *)

(** One pass of the loop in [Transfer]. *)
Definition transferStep (op : IoOp) (timeout : Z) : Shim (Z * bytes) :=
  created ← ask CreateEventW;
  check created;;
  started ← ask (StartIo op);
  '(transferred, data) ←
    (match started with
     | Completed transferred data => mret (transferred, data)
     | IoFailed => fail
     | Pending =>
         signaled ← ask (WaitForIo timeout);
         if negb signaled then ask CancelIo;; fail
         else result ← ask (GetOverlappedResult op); require result
     end);
  check (negb (transferred =? 0));;
  mret (transferred, data).

(** [Transfer] for reading: the buffer filled so far is [received]. *)
Fixpoint transferRead (fuel : nat) (count total : Z) (received : bytes) (timeout : Z) : Shim bytes :=
  match fuel with
  | O => lift OutOfFuel
  | S fuel =>
      if total <? count then
        '(transferred, data) ← transferStep (ReadOp (count - total)) timeout;
        transferRead fuel count (total + transferred) (received ++ data) timeout
      else mret received
  end.

(** [Transfer] for writing. *)
Fixpoint transferWrite (fuel : nat) (data : bytes) (total timeout : Z) : Shim unit :=
  match fuel with
  | O => lift OutOfFuel
  | S fuel =>
      if total <? Z.of_nat (length data) then
        '(transferred, _) ← transferStep (WriteOp (drop (Z.to_nat total) data)) timeout;
        transferWrite fuel data (total + transferred) timeout
      else mret tt
  end.

Definition receive (count timeout : Z) : Shim bytes := transferRead (S (Z.to_nat count)) count 0 [] timeout.
Definition send (data : bytes) : Shim unit :=
  transferWrite (S (length data)) data 0 HandshakeIoTimeoutMilliseconds.

Definition WriteFrame (body : bytes) : Shim unit :=
  check (negb (length body =? 0)%nat && (Z.of_nat (length body) <=? MaximumFrame));;
  send (AppendU32 (u32 (Z.of_nat (length body))));;
  send body.

Definition ReadFrame (timeout : Z) : Shim bytes :=
  header ← receive 4 timeout;
  let size := leValue header in
  check (negb (size =? 0) && (size <=? MaximumFrame));;
  receive size timeout.

(** ** Facts about the process *)
Definition ProcessCreationTime : Shim Z :=
  times ← ask GetProcessTimes;
  '(low, high) ← require times;
  mret (low + high * 2 ^ 32).

Definition HandleFlags (id : Z) : Shim Z :=
  handle ← ask (GetStdHandle id);
  match handle with
  | None => mret 0
  | Some handle =>
      type ← ask (GetFileType handle);
      console ← ask (GetConsoleMode handle);
      mret (Z.lor (Z.land type (u32 (Z.lnot 0x8000))) (if console : bool then ConsoleHandleFlag else 0))
  end.

Definition ConsoleProcesses : Shim (list Z) :=
  '(count, values) ← ask (GetConsoleProcessList 256);
  check (negb (count =? 0) && (count <=? 256));;
  mret (buffer count values).

Definition CurrentDirectory : Shim wstring :=
  '(length_, contents) ← ask (GetCurrentDirectoryW 32768);
  check (negb (length_ =? 0) && (length_ <? 32768));;
  mret (buffer length_ contents).

(** The upper-case digits of a hash. *)
Definition hashDigit (d : Z) : wchar_t := if d <? 10 then 0x30 + d else 0x41 + (d - 10).
Definition hexText (hash : bytes) : wstring :=
  concat (map (fun byte => [hashDigit (Z.shiftr byte 4); hashDigit (Z.land byte 15)]) hash).

Section shim.
(** Functions outside the program; [None] if they fail. *)
Context (GetFullPathNameW : wstring -> option wstring).
Context (sort : (wstring -> wstring -> bool) -> list wstring -> list wstring).
Context (CryptStringToBinaryW : wstring -> option bytes).
Context (HmacSha256 : bytes -> bytes -> option bytes).

Definition CurrentExecutable : Shim wstring :=
  '(length_, contents) ← ask (GetModuleFileNameW 32768);
  check (negb (length_ =? 0) && (length_ <? 32768));;
  require (FullPath GetFullPathNameW (buffer length_ contents)).

(** [path.find_last_of] of a separator, plus one; [npos + 1] is 0. *)
Definition afterSeparator (path : wstring) : nat :=
  match find_from is_separator (rev path) 0 with
  | None => 0
  | Some i => length path - i
  end.

Definition Base64UrlDecode (value : wstring) : Shim bytes :=
  let value := map (fun c => if c =? 0x2D then 0x2B else if c =? 0x5F then 0x2F else c) value in
  let padding := ((4 - length value mod 4) mod 4)%nat in
  require (CryptStringToBinaryW (value ++ repeat 0x3D padding)).

(** ** Launching the system's client *)
Definition UsesTraditionalConsoleHandles : Shim bool :=
  version ← ask RtlGetVersion;
  '(major, minor) ← require version;
  mret ((major <? 6) || ((major =? 6) && (minor <? 2))).

(** The standard handles made inheritable, and whether all of them were. *)
Definition prepareHandle (id : Z) : Shim Z :=
  source ← ask (GetStdHandle id);
  source ← require source;
  console ← ask (GetConsoleMode source);
  handle ← (if console : bool then ask (CreateFileW_console (id =? STD_INPUT_HANDLE)) else ask (DuplicateHandle source));
  require handle.
Fixpoint prepareHandles (ids : list Z) (prepared : list Z) : Shim (list Z * bool) :=
  match ids with
  | [] => mret (prepared, true)
  | id :: ids =>
      handle ← try_ (h ← prepareHandle id; mret (Some h)) (mret None);
      match handle with
      | Some handle => prepareHandles ids (prepared ++ [handle])
      | None => mret (prepared, false)
      end
  end.

Fixpoint closeHandles (handles : list Z) : Shim unit :=
  match handles with
  | [] => mret tt
  | handle :: handles => ask (CloseHandle handle);; closeHandles handles
  end.
Definition cleanup (attributes : bool) (handles : list Z) : Shim unit :=
  (if attributes then ask DeleteProcThreadAttributeList else mret tt);;
  closeHandles handles.

Definition createTraditional (path command environment : wstring) : Shim unit :=
  input ← ask (GetStdHandle STD_INPUT_HANDLE);
  output ← ask (GetStdHandle STD_OUTPUT_HANDLE);
  error ← ask (GetStdHandle STD_ERROR_HANDLE);
  input ← require input;
  output ← require output;
  error ← require error;
  created ← ask (CreateProcessW path command environment false [input; output; error]);
  check created.

Definition createInheriting (path command environment : wstring) : Shim unit :=
  '(prepared, complete) ← prepareHandles [STD_INPUT_HANDLE; STD_OUTPUT_HANDLE; STD_ERROR_HANDLE] [];
  if negb complete then cleanup false prepared;; fail
  else
    size ← ask AttributeListSize;
    if size =? 0 then cleanup false prepared;; fail
    else
      try_ (initialized ← ask (InitializeProcThreadAttributeList size);
            check initialized;;
            updated ← ask (UpdateProcThreadAttribute prepared);
            check updated;;
            created ← ask (CreateProcessW path command environment true prepared);
            check created)
           (cleanup true prepared;; fail);;
      cleanup true prepared.

(** The part of [LaunchSystem] after its checks. *)
Definition launchClient (arguments : list wstring) (externalPath executable : wstring) : Shim Z :=
  block ← ask GetEnvironmentStringsW;
  block ← require block;
  environment ← (match SanitizedEnvironment GetFullPathNameW sort block (Parent executable) with
                 | Some environment => mret environment
                 | None => lift UB
                 end);
  ask FreeEnvironmentStringsW;;
  traditional ← UsesTraditionalConsoleHandles;
  (if traditional : bool
   then createTraditional (cstring externalPath) (mutableCommand externalPath arguments) environment
   else createInheriting (cstring externalPath) (mutableCommand externalPath arguments) environment);;
  waited ← ask WaitForProcess;
  check waited;;
  code ← ask GetExitCodeProcess;
  code ← require code;
  mret (s32 (u32 code)).

Definition LaunchSystem (arguments : list wstring) (externalPath expectedHash : wstring) : Shim Z :=
  check (negb (length externalPath =? 0)%nat && negb (length expectedHash =? 0)%nat);;
  executable ← CurrentExecutable;
  same ← require (EqualPath GetFullPathNameW externalPath executable);
  check (negb same);;
  hash ← ask (HashFile (cstring externalPath));
  hash ← require hash;
  check (_wcsicmp (hexText hash) (cstring expectedHash) =? 0);;
  launchClient arguments externalPath executable.

(** ** The conversation with the host *)

(** After the host has accepted: the barrier and the completion. *)
Definition embed (capability serverNonce : bytes) (response : HostResponse) : Shim Z :=
  output ← ask (GetStdHandle STD_OUTPUT_HANDLE);
  let line := first response ++ [0x0D; 0x0A] in
  written ← ask (WriteConsoleW line);
  check (bool_decide (written = Some (Z.of_nat (length line))));;
  let barrier := barrierBody (requestId response) serverNonce in
  barrierMac ← require (HmacSha256 capability barrier);
  WriteFrame (barrier ++ barrierMac);;
  completeBody ← ReadFrame INFINITE;
  lift (parseFrame (readComplete (requestId response)) completeBody).

(** The [try] block of [RunShim], up to the host's response. *)
Definition handshake (arguments : list wstring) (capability : bytes) : Shim (bytes * HostResponse) :=
  clientNonce ← ask (BCryptGenRandom 16);
  clientNonce ← require clientNonce;
  pid ← ask GetCurrentProcessId;
  creationTime ← ProcessCreationTime;
  WriteFrame (helloBody pid creationTime clientNonce);;
  challengeBody ← ReadFrame HandshakeIoTimeoutMilliseconds;
  '(generation, serverNonce) ← lift (parseFrame readChallenge challengeBody);
  inFlags ← HandleFlags STD_INPUT_HANDLE;
  outFlags ← HandleFlags STD_OUTPUT_HANDLE;
  errFlags ← HandleFlags STD_ERROR_HANDLE;
  consoleProcesses ← ConsoleProcesses;
  currentDirectory ← CurrentDirectory;
  request ← require (requestBody pid creationTime clientNonce serverNonce generation inFlags outFlags errFlags
                       consoleProcesses currentDirectory arguments);
  requestMac ← require (HmacSha256 capability request);
  WriteFrame (request ++ requestMac);;
  responseBody ← ReadFrame HandshakeIoTimeoutMilliseconds;
  response ← lift (parseFrame readResponse responseBody);
  mret (serverNonce, response).

(** ... and the whole of it. *)
Definition converse (arguments : list wstring) (capability : bytes) : Shim Z :=
  '(serverNonce, response) ← handshake arguments capability;
  if action response =? Action.System then
    setFlag;;
    LaunchSystem arguments (first response) (second response)
  else if action response =? Action.Reject then
    setFlag;;
    ask (PrintRejected (cstring (reason response)));;
    mret (exitCode response)
  else
    check (action response =? Action.Embedded);;
    setFlag;;
    embed capability serverNonce response.

Definition RunShim (arguments : list wstring) : Shim Z :=
  external ← Environment (L "VT7_SYSTEM_SSH");
  externalHash ← Environment (L "VT7_SYSTEM_SSH_SHA256");
  mode ← Environment (L "VT7_SSH_MODE");
  protocol ← Environment (L "VT7_SSH_PROTOCOL");
  pipeName ← Environment (L "VT7_SSH_PIPE");
  capabilityText ← Environment (L "VT7_SSH_CAPABILITY");
  executable ← CurrentExecutable;
  executable' ← CurrentExecutable;
  check (afterSeparator executable' <=? length executable)%nat;;
  let executableName := drop (afterSeparator executable') executable in
  if (_wcsicmp executableName (L "ssh-system.exe") =? 0) || (_wcsicmp (cstring mode) (L "system") =? 0)
     || (length pipeName =? 0)%nat || (length capabilityText =? 0)%nat || negb (bool_decide (protocol = L "1"))
  then LaunchSystem arguments external externalHash
  else
    capability ← Base64UrlDecode capabilityText;
    check (length capability =? 32)%nat;;
    available ← ask (WaitNamedPipeW (cstring pipeName) HandshakeIoTimeoutMilliseconds);
    if negb available then LaunchSystem arguments external externalHash
    else
      pipe ← ask (CreateFileW_pipe (cstring pipeName));
      if negb pipe then LaunchSystem arguments external externalHash
      else
        (* hostDecisionReceived *)
        try_ (converse arguments capability)
             (hostDecisionReceived ← getFlag;
              if negb hostDecisionReceived then LaunchSystem arguments external externalHash else fail).

(** [wmain]: the exit code. *)
Definition wmain (arguments : list wstring) : Shim Z :=
  try_ (RunShim arguments) (ask PrintFailed;; mret 255).
End shim.
