(* ===== verification/ShimTheorems.v ===== *)
(** * What the SSH shim does in every run

    Properties of [RunShim] ([SshShim.v]) for every way the system and the host can
    answer: what it sends and accepts, what it launches, and that it ends. *)
From S2P Require Import Prelude.
From S2P Require Import ShimProtocol.
From S2P Require Import ShimQuote.
From S2P Require Import ShimEnvironment.
From S2P Require Import SshShim.

(** ** What can be seen of a run *)
Definition eventIn (e : Event) : bytes :=
  match e with
  | event call r =>
      match call in Call R return R -> bytes with
      | StartIo (ReadOp _) => fun r => match r with Completed _ data => data | _ => [] end
      | GetOverlappedResult (ReadOp _) => fun r => match r with Some (_, data) => data | None => [] end
      | _ => fun _ => []
      end r
  end.
Definition eventOut (e : Event) : bytes :=
  match e with
  | event call r =>
      match call in Call R return R -> bytes with
      | StartIo (WriteOp data) => fun r => match r with Completed n _ => take (Z.to_nat n) data | _ => [] end
      | GetOverlappedResult (WriteOp data) =>
          fun r => match r with Some (n, _) => take (Z.to_nat n) data | None => [] end
      | _ => fun _ => []
      end r
  end.
(** The processes it tries to create. *)
Definition eventLaunch (e : Event) : list (wstring * wstring * wstring) :=
  match e with
  | event call r =>
      match call in Call R return R -> list (wstring * wstring * wstring) with
      | CreateProcessW path command environment _ _ => fun _ => [(path, command, environment)]
      | _ => fun _ => []
      end r
  end.
Definition eventConsole (e : Event) : list wstring :=
  match e with
  | event call r =>
      match call in Call R return R -> list wstring with WriteConsoleW text => fun _ => [text] | _ => fun _ => [] end r
  end.

Definition incoming (trace : list Event) : bytes := concat (map eventIn trace).
Definition outgoing (trace : list Event) : bytes := concat (map eventOut trace).
Definition launches (trace : list Event) : list (wstring * wstring * wstring) := concat (map eventLaunch trace).
Definition consoles (trace : list Event) : list wstring := concat (map eventConsole trace).

Lemma incoming_app a b : incoming (a ++ b) = incoming a ++ incoming b.
Proof. unfold incoming. by rewrite map_app, concat_app. Qed.
Lemma outgoing_app a b : outgoing (a ++ b) = outgoing a ++ outgoing b.
Proof. unfold outgoing. by rewrite map_app, concat_app. Qed.
Lemma launches_app a b : launches (a ++ b) = launches a ++ launches b.
Proof. unfold launches. by rewrite map_app, concat_app. Qed.
Lemma consoles_app a b : consoles (a ++ b) = consoles a ++ consoles b.
Proof. unfold consoles. by rewrite map_app, concat_app. Qed.

(** ** Code that launches nothing and does not write to the console *)
Definition conv {A} (m : Shim A) (Q : A -> list Event -> Prop) : Prop :=
  forall flag, sspec m flag (fun trace flag' o =>
    flag' = flag /\ launches trace = [] /\ consoles trace = []
    /\ match o with Ret a => Q a trace | Throw => True | _ => False end).

Lemma conv_ret {A} (a : A) (Q : A -> list Event -> Prop) : Q a [] -> conv (mret a) Q.
Proof. intros HQ flag. by apply sspec_ret. Qed.

Lemma conv_fail {A} (Q : A -> list Event -> Prop) : conv fail Q.
Proof. intros flag. by apply sspec_fail. Qed.

Lemma conv_ask {R : Set} (call : Call R) (Q : R -> list Event -> Prop) :
  (forall r, eventLaunch (event call r) = [] /\ eventConsole (event call r) = []) ->
  (forall r, honest call r = true -> Q r [event call r]) -> conv (ask call) Q.
Proof.
  intros Hs HQ flag. apply sspec_ask. intros r Hh. destruct (Hs r) as [Hl Hc].
  unfold launches, consoles. cbn [map concat]. rewrite Hl, Hc. auto.
Qed.

Lemma conv_bind {A B} (m : Shim A) (k : A -> Shim B) Q1 (Q2 : B -> list Event -> Prop) :
  conv m Q1 -> (forall a trace, Q1 a trace -> conv (k a) (fun b trace2 => Q2 b (trace ++ trace2))) ->
  conv (mbind k m) Q2.
Proof.
  intros Hm Hk flag. apply sspec_bind. eapply sspec_mono; [apply Hm|].
  intros trace flag' o (-> & Hl & Hc & HQ). destruct o as [a| | |]; [|by split_and!|done|done].
  eapply sspec_mono; [apply (Hk a trace HQ)|]. intros trace2 flag' o (-> & Hl2 & Hc2 & HQ2).
  rewrite launches_app, consoles_app, Hl, Hc, Hl2, Hc2. by split_and!.
Qed.

Lemma conv_mono {A} (m : Shim A) (Q1 Q2 : A -> list Event -> Prop) :
  conv m Q1 -> (forall a trace, Q1 a trace -> Q2 a trace) -> conv m Q2.
Proof.
  intros Hm HQ flag. eapply sspec_mono; [apply Hm|]. intros trace flag' o (? & ? & ? & Ho).
  split_and!; try done. destruct o; auto.
Qed.

Lemma conv_check b (Q : unit -> list Event -> Prop) : (b = true -> Q tt []) -> conv (check b) Q.
Proof. unfold check. destruct b; intros HQ; [apply conv_ret; auto|apply conv_fail]. Qed.

Lemma conv_require {A} (o : option A) (Q : A -> list Event -> Prop) : (forall a, o = Some a -> Q a []) -> conv (require o) Q.
Proof. destruct o; intros HQ; [apply conv_ret; auto|apply conv_fail]. Qed.

Lemma conv_lift {A} (o : Outcome A) (Q : A -> list Event -> Prop) :
  match o with Ret a => Q a [] | Throw => True | _ => False end -> conv (lift o) Q.
Proof. intros HQ flag. by apply sspec_lift. Qed.

(** Before code that may do more. *)
Lemma conv_then {A B} (m : Shim A) (k : A -> Shim B) Q1 flag (Q : list Event -> bool -> Outcome B -> Prop) :
  conv m Q1 ->
  (forall trace, launches trace = [] -> consoles trace = [] -> Q trace flag Throw) ->
  (forall a trace, Q1 a trace -> launches trace = [] -> consoles trace = [] ->
     sspec (k a) flag (fun trace2 => Q (trace ++ trace2))) ->
  sspec (mbind k m) flag Q.
Proof.
  intros Hm Ht Hk. apply sspec_bind. eapply sspec_mono; [apply Hm|].
  intros trace flag' o (-> & Hl & Hc & HQ). destruct o as [a| | |]; [|by apply Ht|done|done]. by apply Hk.
Qed.

(** Nothing goes over the pipe either. *)
Definition quietTrace (trace : list Event) : Prop :=
  launches trace = [] /\ consoles trace = [] /\ incoming trace = [] /\ outgoing trace = [].

Lemma quietTrace_app a b : quietTrace a -> quietTrace b -> quietTrace (a ++ b).
Proof.
  intros (Hl & Hc & Hi & Ho) (Hl2 & Hc2 & Hi2 & Ho2). unfold quietTrace.
  by rewrite launches_app, consoles_app, incoming_app, outgoing_app, Hl, Hc, Hi, Ho, Hl2, Hc2, Hi2, Ho2.
Qed.

Definition silent {A} (m : Shim A) (P : A -> list Event -> Prop) : Prop :=
  forall flag, sspec m flag (fun trace flag' o =>
    flag' = flag /\ quietTrace trace /\ match o with Ret a => P a trace | Throw => True | _ => False end).

Lemma silent_conv {A} (m : Shim A) (P : A -> list Event -> Prop) : silent m P ->
  conv m (fun a trace => P a trace /\ incoming trace = [] /\ outgoing trace = []).
Proof.
  intros Hm flag. eapply sspec_mono; [apply Hm|]. intros trace flag' o (-> & (? & ? & ? & ?) & HP).
  split_and!; try done. by destruct o.
Qed.

Lemma silent_ret {A} (a : A) (P : A -> list Event -> Prop) : P a [] -> silent (mret a) P.
Proof. intros HP flag. by apply sspec_ret. Qed.

Lemma silent_fail {A} (P : A -> list Event -> Prop) : silent fail P.
Proof. intros flag. by apply sspec_fail. Qed.

Lemma silent_check b (P : unit -> list Event -> Prop) : (b = true -> P tt []) -> silent (check b) P.
Proof. unfold check. destruct b; intros HP; [apply silent_ret; auto|apply silent_fail]. Qed.

Lemma silent_require {A} (o : option A) (P : A -> list Event -> Prop) : (forall a, o = Some a -> P a []) -> silent (require o) P.
Proof. destruct o; intros HP; [apply silent_ret; auto|apply silent_fail]. Qed.

Lemma silent_ask {R : Set} (call : Call R) (P : R -> list Event -> Prop) :
  (forall r, eventLaunch (event call r) = [] /\ eventConsole (event call r) = []
             /\ eventIn (event call r) = [] /\ eventOut (event call r) = []) ->
  (forall r, honest call r = true -> P r [event call r]) -> silent (ask call) P.
Proof.
  intros Hs HP flag. apply sspec_ask. intros r Hh. destruct (Hs r) as (Hl & Hc & Hi & Ho).
  unfold quietTrace, launches, consoles, incoming, outgoing. cbn [map concat]. rewrite Hl, Hc, Hi, Ho.
  split_and!; try done. by apply HP.
Qed.

Lemma silent_bind {A B} (m : Shim A) (k : A -> Shim B) P1 (P2 : B -> list Event -> Prop) :
  silent m P1 -> (forall a trace, P1 a trace -> silent (k a) (fun b trace2 => P2 b (trace ++ trace2))) ->
  silent (mbind k m) P2.
Proof.
  intros Hm Hk flag. apply sspec_bind. eapply sspec_mono; [apply Hm|].
  intros trace flag' o (-> & Hq & HP). destruct o as [a| | |]; [|done|done|done].
  eapply sspec_mono; [apply (Hk a trace HP)|]. intros trace2 flag' o (-> & Hq2 & HP2).
  split_and!; [done|by apply quietTrace_app|done].
Qed.

Lemma silent_mono {A} (m : Shim A) (P1 P2 : A -> list Event -> Prop) :
  silent m P1 -> (forall a trace, P1 a trace -> P2 a trace) -> silent m P2.
Proof.
  intros Hm HP flag. eapply sspec_mono; [apply Hm|]. intros trace flag' o (-> & Hq & Ho).
  split_and!; [done|done|]. destruct o; auto.
Qed.

Lemma silent_try {A} (body handler : Shim A) (P : A -> list Event -> Prop) :
  silent body P -> (forall trace, silent handler (fun a trace2 => P a (trace ++ trace2))) -> silent (try_ body handler) P.
Proof.
  intros Hb Hh flag. apply sspec_try. eapply sspec_mono; [apply Hb|]. intros trace flag' o (-> & Hq & HP).
  destruct o as [a| | |]; [by split_and!| |done|done].
  eapply sspec_mono; [apply (Hh trace)|]. intros trace2 flag' o (-> & Hq2 & HP2).
  split_and!; [done|by apply quietTrace_app|done].
Qed.

(** Steps through silent code whose results need not be known. *)
Ltac silent_step :=
  match goal with
  | |- silent (mbind _ (ask _)) _ => apply (silent_bind _ _ (fun _ _ => True)); [apply silent_ask; [by intros; split_and!|done]|]
  | |- silent (mbind _ (check _)) _ => apply (silent_bind _ _ (fun _ _ => True)); [by apply silent_check|]
  | |- silent (mbind _ (require _)) _ => apply (silent_bind _ _ (fun _ _ => True)); [by apply silent_require|]
  | |- silent (ask _) _ => apply silent_ask; [by intros; split_and!|done]
  | |- silent (mret _) _ => by apply silent_ret
  | |- silent fail _ => apply silent_fail
  | |- silent (check _) _ => by apply silent_check
  | |- silent (require _) _ => by apply silent_require
  | |- silent (if ?b then _ else _) _ => destruct b
  | |- silent (match ?x with _ => _ end) _ => destruct x
  end; intros; cbv beta.
Ltac silent_steps := repeat silent_step.

(** ** Transfers *)

(** What one step of a transfer moved. *)
Definition moved (op : IoOp) (r : Z * bytes) (trace : list Event) : Prop :=
  0 < r.1 /\
  match op with
  | ReadOp count => r.1 <= count /\ Z.of_nat (length r.2) = r.1 /\ Forall is_byte r.2
                    /\ incoming trace = r.2 /\ outgoing trace = []
  | WriteOp data => r.1 <= Z.of_nat (length data) /\ incoming trace = []
                    /\ outgoing trace = take (Z.to_nat r.1) data
  end.

Lemma honestIo_moved op n data trace :
  honestIo op n data = true -> n <> 0 ->
  incoming trace = match op with ReadOp _ => data | WriteOp _ => [] end ->
  outgoing trace = match op with ReadOp _ => [] | WriteOp buffer => take (Z.to_nat n) buffer end ->
  moved op (n, data) trace.
Proof.
  intros Hh Hn Hi Ho. unfold moved. cbn [fst snd]. destruct op as [count|buffer]; cbn [honestIo] in Hh.
  - repeat apply andb_true_iff in Hh as [Hh ?]. rewrite forallb_Forall in *. split_and!; try done; try lia.
    eapply Forall_impl; [eassumption|]. intros b Hb. unfold is_byte. cbv beta in Hb. lia.
  - apply andb_true_iff in Hh as [? ?]. split_and!; try done; lia.
Qed.

Lemma transferStep_moves op timeout : conv (transferStep op timeout) (moved op).
Proof.
  unfold transferStep.
  apply (conv_bind _ _ (fun _ trace => incoming trace = [] /\ outgoing trace = [])).
  { by apply conv_ask. }
  intros created t1 [Hi1 Ho1].
  apply (conv_bind _ _ (fun _ trace => trace = [])); [by apply conv_check|]. intros [] ? ->.
  apply (conv_bind _ _ (fun r trace => trace = [event (StartIo op) r] /\ honest (StartIo op) r = true)).
  { apply conv_ask; [by destruct op|done]. }
  intros started t2 [-> Hh].
  apply (conv_bind _ _ (fun r trace => forall n, r.1 = n -> n <> 0 ->
           moved op r (t1 ++ [] ++ [event (StartIo op) started] ++ trace))).
  - destruct started as [n data| |].
    + apply conv_ret. intros ? <- Hn. cbn [fst] in Hn. apply honestIo_moved; [done|done|..];
        rewrite ?incoming_app, ?outgoing_app, ?Hi1, ?Ho1; unfold incoming, outgoing; destruct op; cbn; by rewrite ?app_nil_r.
    + apply (conv_bind _ _ (fun _ trace => incoming trace = [] /\ outgoing trace = [])); [by apply conv_ask|].
      intros signaled t3 [Hi3 Ho3]. destruct signaled; cbn [negb].
      * apply (conv_bind _ _ (fun r trace => trace = [event (GetOverlappedResult op) r] /\ honest (GetOverlappedResult op) r = true)).
        { apply conv_ask; [by destruct op|done]. }
        intros result t4 [-> Hh4]. destruct result as [[n data]|]; [|apply conv_fail].
        apply conv_ret. intros ? <- Hn. cbn [fst] in Hn. apply honestIo_moved; [done|done|..];
          rewrite ?incoming_app, ?outgoing_app, ?Hi1, ?Ho1, ?Hi3, ?Ho3; unfold incoming, outgoing; destruct op; cbn; by rewrite ?app_nil_r.
      * apply (conv_bind _ _ (fun _ _ => True)); [by apply conv_ask|]. intros. apply conv_fail.
    + apply conv_fail.
  - intros [n data] t3 Hm. cbn [fst] in Hm.
    apply (conv_bind _ _ (fun _ trace => trace = [] /\ n <> 0)).
    { apply conv_check. intros Hn%negb_true_iff%Z.eqb_neq. done. }
    intros [] ? [-> Hn]. apply conv_ret. specialize (Hm n eq_refl Hn). by rewrite !app_nil_r in *.
Qed.

Lemma transferRead_reads fuel count total received timeout :
  0 <= total <= count -> (Z.to_nat (count - total) < fuel)%nat ->
  Z.of_nat (length received) = total -> Forall is_byte received ->
  conv (transferRead fuel count total received timeout) (fun data trace =>
    data = received ++ incoming trace /\ outgoing trace = []
    /\ Z.of_nat (length data) = count /\ Forall is_byte data).
Proof.
  revert total received. induction fuel as [|fuel IH]; intros total received Ht Hf Hl Hb; [lia|]. cbn [transferRead].
  destruct (Z.ltb_spec total count).
  - eapply conv_bind; [apply transferStep_moves|]. intros [n data] trace (Hn & Hle & Hdl & Hdb & Hi & Ho). cbn [fst snd] in *.
    eapply conv_mono; [apply IH; [lia|lia|rewrite length_app; lia|by apply Forall_app]|].
    intros data2 trace2 (-> & Ho2 & Hl2 & Hb2). rewrite incoming_app, outgoing_app, Hi, Ho, Ho2.
    rewrite <- app_assoc in *. done.
  - apply conv_ret. cbn. rewrite app_nil_r. split_and!; try done. lia.
Qed.

Lemma transferWrite_writes fuel data total timeout :
  0 <= total <= Z.of_nat (length data) -> (Z.to_nat (Z.of_nat (length data) - total) < fuel)%nat ->
  conv (transferWrite fuel data total timeout) (fun _ trace =>
    incoming trace = [] /\ outgoing trace = drop (Z.to_nat total) data).
Proof.
  revert total. induction fuel as [|fuel IH]; intros total Ht Hf; [lia|]. cbn [transferWrite].
  destruct (Z.ltb_spec total (Z.of_nat (length data))).
  - eapply conv_bind; [apply transferStep_moves|]. intros [n d] trace (Hn & Hle & Hi & Ho). cbn [fst snd] in *.
    rewrite length_drop in Hle. eapply conv_mono; [apply IH; lia|].
    intros [] trace2 (Hi2 & Ho2). rewrite incoming_app, outgoing_app, Hi, Ho, Hi2, Ho2. split; [done|].
    rewrite Z2Nat.inj_add, <- drop_drop by lia. apply take_drop.
  - apply conv_ret. cbn. rewrite drop_ge by lia. done.
Qed.

(** A frame on the wire. *)
Definition frame (body : bytes) : bytes := AppendU32 (Z.of_nat (length body)) ++ body.

Lemma WriteFrame_writes body :
  conv (WriteFrame body) (fun _ trace => incoming trace = [] /\ outgoing trace = frame body).
Proof.
  apply (conv_bind _ _ (fun _ trace => trace = [] /\ Z.of_nat (length body) <= MaximumFrame)).
  { apply conv_check. intros [_ ?]%andb_true_iff. split; [done|lia]. }
  intros [] ? [-> Hm]. rewrite (wrap_small 32) by (unfold MaximumFrame in Hm; change (2 ^ 32) with 4294967296; lia).
  eapply conv_bind; [apply transferWrite_writes; lia|]. intros [] t1 (Hi1 & Ho1).
  eapply conv_mono; [apply transferWrite_writes; lia|]. intros [] t2 (Hi2 & Ho2).
  rewrite !incoming_app, !outgoing_app, Hi1, Hi2, Ho1, Ho2, !drop_0. done.
Qed.

Lemma ReadFrame_reads timeout :
  conv (ReadFrame timeout) (fun body trace =>
    incoming trace = frame body /\ outgoing trace = [] /\ Forall is_byte body
    /\ Z.of_nat (length body) <= MaximumFrame).
Proof.
  eapply conv_bind; [apply transferRead_reads; [lia|lia|done|constructor]|].
  intros header t1 (-> & Ho1 & Hl1 & Hb1). cbn [app] in *.
  pose proof (leValue_bound _ Hb1) as Hbound. rewrite Hl1 in Hbound.
  apply (conv_bind _ _ (fun _ trace => trace = [] /\ leValue (incoming t1) <= MaximumFrame)).
  { apply conv_check. intros [_ ?]%andb_true_iff. split; [done|lia]. }
  intros [] ? [-> Hm].
  eapply conv_mono; [apply transferRead_reads; [lia|lia|done|constructor]|].
  intros body t2 (-> & Ho2 & Hl2 & Hb2). cbn [app] in *.
  rewrite !incoming_app, !outgoing_app, Ho1, Ho2. cbn [incoming map concat app]. split_and!; try done; [|lia].
  unfold frame. rewrite Hl2. f_equal. unfold AppendU32. apply (leValue_inv 4); [lia|done].
Qed.

(** ** The pieces of the shim *)
Definition environmentValue (trace : list Event) (name value : wstring) : Prop :=
  exists n contents, In (event (GetEnvironmentVariableW name n) (n - 1, contents)) trace
  /\ value = buffer (n - 1) contents.

Lemma Environment_silent name :
  silent (Environment name) (fun value trace => value = [] \/ environmentValue trace name value).
Proof.
  eapply silent_bind; [apply (silent_ask _ (fun _ _ => True)); [by intros; split_and!|done]|]. intros [count ?] t1 _.
  destruct (count =? 0); [apply silent_ret; by left|].
  eapply silent_bind; [apply (silent_ask _ (fun r trace => trace = [event (GetEnvironmentVariableW name count) r])); [by intros; split_and!|done]|].
  intros [written contents] ? ->.
  apply (silent_bind _ _ (fun _ _ => written = count - 1)); [apply silent_check; by intros ?%Z.eqb_eq|].
  intros [] t2 ->. apply silent_ret. right. exists count, contents. split; [|done].
  apply in_or_app. right. by left.
Qed.

Section shim.
Context (GetFullPathNameW : wstring -> option wstring).
Context (sort : (wstring -> wstring -> bool) -> list wstring -> list wstring).
Context (CryptStringToBinaryW : wstring -> option bytes).
Context (HmacSha256 : bytes -> bytes -> option bytes).

(** The full path of the shim itself. *)
Definition isExecutable (trace : list Event) (executable : wstring) : Prop :=
  exists n contents, In (event (GetModuleFileNameW 32768) (n, contents)) trace
  /\ FullPath GetFullPathNameW (buffer n contents) = Some executable.

Lemma CurrentExecutable_silent :
  silent (CurrentExecutable GetFullPathNameW) (fun executable trace => isExecutable trace executable).
Proof.
  eapply silent_bind; [apply (silent_ask _ (fun r trace => trace = [event (GetModuleFileNameW 32768) r])); [by intros; split_and!|done]|].
  intros [n contents] ? ->. apply (silent_bind _ _ (fun _ _ => True)); [by apply silent_check|]. intros [] t1 _.
  apply silent_require. intros executable He. exists n, contents. split; [by left|done].
Qed.

(** A launch of [path], made only after the file's digest was found to be [expected]:
    the file is not the shim, the command line is the quoted argument vector and the
    environment is the sanitized one. *)
Definition launched (arguments : list wstring) (path expected : wstring) (trace : list Event) : Prop :=
  path <> [] /\ expected <> [] /\
  exists before digest after executable block environment,
    trace = before ++ event (HashFile (cstring path)) (Some digest) :: after
    /\ launches before = []
    /\ launches after = [(cstring path, mutableCommand path arguments, environment)]
    /\ _wcsicmp (hexText digest) (cstring expected) = 0
    /\ isExecutable before executable
    /\ EqualPath GetFullPathNameW path executable = Some false
    /\ In (event GetEnvironmentStringsW (Some block)) after
    /\ SanitizedEnvironment GetFullPathNameW sort block (Parent executable) = Some environment.

(** Nothing but perhaps the one launch. *)
Definition onlyLaunch (launch : wstring * wstring * wstring) (trace : list Event) : Prop :=
  consoles trace = [] /\ incoming trace = [] /\ outgoing trace = []
  /\ (launches trace = [] \/ launches trace = [launch]).

Lemma onlyLaunch_quiet launch a b : quietTrace a -> onlyLaunch launch b -> onlyLaunch launch (a ++ b).
Proof.
  intros (Hl & Hc & Hi & Ho) (Hc2 & Hi2 & Ho2 & Hl2). unfold onlyLaunch.
  by rewrite launches_app, consoles_app, incoming_app, outgoing_app, Hl, Hc, Hi, Ho, Hc2, Hi2, Ho2.
Qed.

Lemma onlyLaunch_then_quiet launch a b : onlyLaunch launch a -> quietTrace b -> onlyLaunch launch (a ++ b).
Proof.
  intros (Hc & Hi & Ho & Hl) (Hl2 & Hc2 & Hi2 & Ho2). unfold onlyLaunch.
  by rewrite launches_app, consoles_app, incoming_app, outgoing_app, Hc, Hi, Ho, Hl2, Hc2, Hi2, Ho2, !app_nil_r.
Qed.

Lemma quiet_onlyLaunch launch a : quietTrace a -> onlyLaunch launch a.
Proof. intros (? & ? & ? & ?). split_and!; auto. Qed.

Definition mayLaunch {A} (m : Shim A) (launch : wstring * wstring * wstring) : Prop :=
  forall flag, sspec m flag (fun trace flag' o =>
    flag' = flag /\ onlyLaunch launch trace /\ match o with Ret _ => launches trace = [launch] | Throw => True | _ => False end).

Lemma mayLaunch_after {A B} (m : Shim A) (k : A -> Shim B) P launch :
  silent m P -> (forall a trace, P a trace -> mayLaunch (k a) launch) -> mayLaunch (mbind k m) launch.
Proof.
  intros Hm Hk flag. apply sspec_bind. eapply sspec_mono; [apply Hm|].
  intros trace flag' o (-> & Hq & HP).
  destruct o as [a| | |]; [|split_and!; try done; by apply quiet_onlyLaunch|done|done].
  eapply sspec_mono; [apply (Hk a trace HP)|]. intros trace2 flag' o (-> & Ho & Hr).
  split_and!; [done|by apply onlyLaunch_quiet|]. destruct Hq as (Hl & _). destruct o; try done. by rewrite launches_app, Hl, Hr.
Qed.

Lemma mayLaunch_before {A B} (m : Shim A) (k : A -> Shim B) launch :
  mayLaunch m launch -> (forall a, silent (k a) (fun _ _ => True)) -> mayLaunch (mbind k m) launch.
Proof.
  intros Hm Hk flag. apply sspec_bind. eapply sspec_mono; [apply Hm|].
  intros trace flag' o (-> & Ho & HP). destruct o as [a| | |]; [|by split_and!|done|done].
  eapply sspec_mono; [apply (Hk a)|]. intros trace2 flag' o (-> & Hq & Hr).
  split_and!; [done|by apply onlyLaunch_then_quiet|]. destruct Hq as (Hl & _). destruct o; try done. by rewrite launches_app, Hl, HP.
Qed.

(** Code that always fails. *)
Definition fails {A} (m : Shim A) : Prop := silent m (fun _ _ => False).

Lemma mayLaunch_fails {A} (m : Shim A) launch : fails m -> mayLaunch m launch.
Proof.
  intros Hm flag. eapply sspec_mono; [apply Hm|]. intros trace flag' o (-> & Hq & HP).
  split_and!; [done|by apply quiet_onlyLaunch|by destruct o].
Qed.

Lemma mayLaunch_try {A} (body handler : Shim A) launch :
  mayLaunch body launch -> fails handler -> mayLaunch (try_ body handler) launch.
Proof.
  intros Hb Hh flag. apply sspec_try. eapply sspec_mono; [apply Hb|]. intros trace flag' o (-> & Ho & HP).
  destruct o as [a| | |]; [by split_and!| |done|done].
  eapply sspec_mono; [apply Hh|]. intros trace2 flag' o (-> & Hq & Hr).
  split_and!; [done|by apply onlyLaunch_then_quiet|by destruct o].
Qed.

Lemma mayLaunch_create path command environment inherit handles :
  mayLaunch (ask (CreateProcessW path command environment inherit handles)) (path, command, environment).
Proof.
  intros flag. apply sspec_ask. intros r _.
  split; [done|]. split; [|done]. unfold onlyLaunch. split_and!; [done|done|done|by right].
Qed.

Lemma closeHandles_silent handles : silent (closeHandles handles) (fun _ _ => True).
Proof. induction handles; cbn [closeHandles]; silent_steps. apply IHhandles. Qed.

Lemma cleanup_silent attributes handles : silent (cleanup attributes handles) (fun _ _ => True).
Proof.
  unfold cleanup. eapply (silent_bind _ _ (fun _ _ => True)); [destruct attributes; silent_steps|].
  intros. apply closeHandles_silent.
Qed.

Lemma prepareHandle_silent id : silent (prepareHandle id) (fun _ _ => True).
Proof.
  unfold prepareHandle. do 3 silent_step. eapply (silent_bind _ _ (fun _ _ => True)); [silent_steps|].
  intros. silent_steps.
Qed.

Lemma prepareHandles_silent ids prepared : silent (prepareHandles ids prepared) (fun _ _ => True).
Proof.
  revert prepared. induction ids as [|id ids IH]; intros prepared; cbn [prepareHandles]; [silent_steps|].
  apply (silent_bind _ _ (fun _ _ => True)).
  - apply silent_try; [|intros; silent_steps]. eapply (silent_bind _ _ (fun _ _ => True)); [apply prepareHandle_silent|].
    intros. silent_steps.
  - intros [handle|] trace _; [apply IH|silent_steps].
Qed.

(** Steps through the silent code before a launch. *)
Ltac launch_step :=
  match goal with
  | |- mayLaunch (mbind _ (ask (CreateProcessW _ _ _ _ _))) _ => apply mayLaunch_before; [apply mayLaunch_create|]
  | |- mayLaunch (mbind _ (ask _)) _ =>
      eapply mayLaunch_after; [apply (silent_ask _ (fun _ _ => True)); [by intros; split_and!|done]|]
  | |- mayLaunch (mbind _ (check _)) _ => eapply mayLaunch_after; [apply (silent_check _ (fun _ _ => True)); done|]
  | |- mayLaunch (mbind _ (require _)) _ => eapply mayLaunch_after; [apply (silent_require _ (fun _ _ => True)); done|]
  end; intros; cbv beta.

Lemma createTraditional_launches path command environment :
  mayLaunch (createTraditional path command environment) (path, command, environment).
Proof. unfold createTraditional. repeat launch_step. silent_steps. Qed.

Lemma createInheriting_launches path command environment :
  mayLaunch (createInheriting path command environment) (path, command, environment).
Proof.
  unfold createInheriting. eapply mayLaunch_after; [apply prepareHandles_silent|]. intros [prepared complete] t1 _.
  assert (Hclean : forall attributes, fails (A := unit) (cleanup attributes prepared;; fail)).
  { intros. eapply (silent_bind _ _ (fun _ _ => True)); [apply cleanup_silent|]. intros. silent_steps. }
  destruct (negb complete); [apply mayLaunch_fails, Hclean|]. launch_step.
  destruct (_ =? 0); [apply mayLaunch_fails, Hclean|].
  apply mayLaunch_before; [|intros; apply cleanup_silent]. apply mayLaunch_try; [|apply Hclean].
  repeat launch_step. silent_steps.
Qed.

Lemma UsesTraditional_silent : silent UsesTraditionalConsoleHandles (fun _ _ => True).
Proof. unfold UsesTraditionalConsoleHandles. silent_steps. Qed.

(** The exit code of the process that was launched, as the system reported it. *)
Definition exitCodeOf (trace : list Event) (code : Z) : Prop :=
  exists reported, In (event GetExitCodeProcess (Some reported)) trace /\ code = s32 (u32 reported).

Lemma exitCodeOf_app a b code : exitCodeOf b code -> exitCodeOf (a ++ b) code.
Proof. intros (c & Hin & ->). exists c. split; [apply in_or_app; by right|done]. Qed.

(** What [LaunchSystem] may have done when it ends with outcome [o]. *)
Definition launchOutcome (arguments : list wstring) (path expected : wstring) (trace : list Event) (o : Outcome Z) : Prop :=
  consoles trace = [] /\ incoming trace = [] /\ outgoing trace = []
  /\ (launches trace = [] \/ launched arguments path expected trace)
  /\ match o with Ret code => launches trace <> [] /\ exitCodeOf trace code | _ => True end.

Lemma sspec_silent {A B} (m : Shim A) (k : A -> Shim B) P flag (Q : list Event -> bool -> Outcome B -> Prop) :
  silent m P -> (forall trace, quietTrace trace -> Q trace flag Throw) ->
  (forall a trace, P a trace -> quietTrace trace -> sspec (k a) flag (fun trace2 => Q (trace ++ trace2))) ->
  sspec (mbind k m) flag Q.
Proof.
  intros Hm Ht Hk. apply sspec_bind. eapply sspec_mono; [apply Hm|]. intros trace flag' o (-> & Hq & HP).
  destruct o as [a| | |]; [by apply Hk|by apply Ht|done|done].
Qed.

(** What [launchClient] does once the process is there. *)
Lemma waitExitCode_silent :
  silent (waited ← ask WaitForProcess; check waited;; code ← ask GetExitCodeProcess; code ← require code; mret (s32 (u32 code)))
    (fun code trace => exitCodeOf trace code).
Proof.
  eapply silent_bind; [apply (silent_ask _ (fun _ _ => True)); [by intros; split_and!|done]|]. intros waited t1 _.
  apply (silent_bind _ _ (fun _ _ => True)); [by apply silent_check|]. intros [] t2 _.
  eapply silent_bind; [apply (silent_ask _ (fun r trace => trace = [event GetExitCodeProcess r])); [by intros; split_and!|done]|].
  intros code t3 ->. eapply (silent_bind _ _ (fun c trace => code = Some c)); [by apply silent_require|]. intros c t4 ->.
  apply silent_ret. exists c. split; [|done]. do 2 (apply in_or_app; right). by left.
Qed.

Lemma launchClient_launches arguments path executable flag :
  sspec (launchClient GetFullPathNameW sort arguments path executable) flag (fun trace flag' o =>
    flag' = flag /\ match o with Ret code => launches trace <> [] /\ exitCodeOf trace code | Throw => True | _ => False end
    /\ (quietTrace trace \/ exists block environment,
          onlyLaunch (cstring path, mutableCommand path arguments, environment) trace
          /\ In (event GetEnvironmentStringsW (Some block)) trace
          /\ SanitizedEnvironment GetFullPathNameW sort block (Parent executable) = Some environment)).
Proof.
  eapply sspec_silent; [apply (silent_ask _ (fun r trace => trace = [event GetEnvironmentStringsW r]
    /\ honest GetEnvironmentStringsW r = true)); [by intros; split_and!|done]|by auto|].
  intros [block|] ? [-> Hh] Hq1; [|apply sspec_bind, sspec_fail; by auto].
  apply sspec_bind, sspec_ret. cbn [app].
  cbn in Hh. apply bool_decide_eq_true in Hh as [strings Hstrings].
  destruct (SanitizedEnvironment GetFullPathNameW sort block (Parent executable)) as [environment|] eqn:Henv.
  2: { exfalso. unfold SanitizedEnvironment in Henv. by rewrite Hstrings in Henv. }
  apply sspec_bind, sspec_ret. cbn [app].
  eapply sspec_mono with (Q1 := fun trace flag' o => flag' = flag
    /\ onlyLaunch (cstring path, mutableCommand path arguments, environment) trace
    /\ match o with Ret code => launches trace <> [] /\ exitCodeOf trace code | Throw => True | _ => False end).
  { eapply sspec_silent; [apply (silent_ask _ (fun _ _ => True)); [by intros; split_and!|done]|by intros; split_and!; auto using quiet_onlyLaunch|].
    intros [] t2 _ Hq2. eapply sspec_silent; [apply UsesTraditional_silent| |].
    { intros. split_and!; auto using quiet_onlyLaunch, quietTrace_app. }
    intros traditional t3 _ Hq3. apply sspec_bind.
    eapply sspec_mono; [destruct traditional; [apply createTraditional_launches|apply createInheriting_launches]|].
    intros t4 flag' o (-> & Ho & Hr). pose proof (quietTrace_app _ _ Hq2 Hq3) as Hq.
    destruct o as [[]| | |]; [|rewrite app_assoc; split_and!; [done|by apply onlyLaunch_quiet|done]|done|done].
    eapply sspec_mono; [apply waitExitCode_silent|]. intros t5 flag' o (-> & Hq5 & Ho5). rewrite app_assoc.
    split_and!; [done|by apply onlyLaunch_quiet, onlyLaunch_then_quiet|].
    destruct o as [code| | |]; try done. split; [|by do 2 apply exitCodeOf_app].
    rewrite !launches_app, Hr. by destruct (launches t2), (launches t3). }
  intros t2 flag' o (-> & Ho & Hr). split_and!; [done| |].
  - destruct o as [code| | |]; try done. destruct Hr as [Hr Hcode]. split; [exact Hr|by apply (exitCodeOf_app [_])].
  - right. exists block, environment. split_and!; [|by left|done]. by apply (onlyLaunch_quiet _ [_]).
Qed.

Lemma LaunchSystem_launches arguments path expected flag :
  sspec (LaunchSystem GetFullPathNameW sort arguments path expected) flag (fun trace flag' o =>
    flag' = flag /\ match o with Ret _ | Throw => True | _ => False end
    /\ launchOutcome arguments path expected trace o).
Proof.
  assert (Hquiet : forall trace, quietTrace trace -> launchOutcome arguments path expected trace Throw).
  { intros trace (? & ? & ? & ?). by split_and!; auto. }
  eapply sspec_silent; [apply (silent_check _ (fun _ trace => trace = [] /\ path <> [] /\ expected <> []))|by auto|].
  { intros [Hp He]%andb_true_iff. by destruct path, expected. }
  intros [] ? (-> & Hpath & Hexp) _. cbn [app].
  eapply sspec_silent; [apply CurrentExecutable_silent|by auto|]. intros executable t1 Hexe Hq1.
  eapply sspec_silent; [apply (silent_require _ (fun same trace => trace = [] /\ EqualPath GetFullPathNameW path executable = Some same)); done|
    intros; split_and!; auto using quietTrace_app|]. intros same ? [-> Hsame] _. cbn [app].
  eapply sspec_silent; [apply (silent_check _ (fun _ trace => trace = [] /\ same = false)); by destruct same|
    intros; split_and!; auto using quietTrace_app|]. intros [] ? [-> ->] _. cbn [app].
  eapply sspec_silent; [apply (silent_ask _ (fun r trace => trace = [event (HashFile (cstring path)) r])); [by intros; split_and!|done]|
    intros; split_and!; auto using quietTrace_app|]. intros hash ? -> Hq2.
  eapply sspec_silent; [apply (silent_require _ (fun digest trace => trace = [] /\ hash = Some digest)); by intros ? ->|
    intros; split_and!; auto using quietTrace_app|]. intros digest ? [-> ->] _. cbn [app].
  eapply sspec_silent; [apply (silent_check _ (fun _ trace => trace = [] /\ _wcsicmp (hexText digest) (cstring expected) = 0));
    by intros ?%Z.eqb_eq|intros; split_and!; auto using quietTrace_app|]. intros [] ? [-> Hdigest] _. cbn [app].
  eapply sspec_mono; [apply launchClient_launches|]. intros t2 flag' o (-> & Hr & Ht2). split_and!; [done|by destruct o|].
  assert (Hcode : match o with Ret code => launches (t1 ++ event (HashFile (cstring path)) (Some digest) :: t2) <> []
                    /\ exitCodeOf (t1 ++ event (HashFile (cstring path)) (Some digest) :: t2) code | _ => True end).
  { destruct o as [code| | |]; try done. destruct Hr as [Hr Hx]. split; [|by apply exitCodeOf_app, (exitCodeOf_app [_])].
    rewrite launches_app. by destruct (launches t1). }
  destruct Ht2 as [Hq3|(block & environment & (Hc & Hi & Ho & Hl) & Hin & Henv)].
  { destruct (quietTrace_app _ _ Hq1 (quietTrace_app [_] _ Hq2 Hq3)) as (Hl & Hc & Hi & Ho). cbn [app] in *. split_and!; auto. }
  destruct Hq1 as (Hl1 & Hc1 & Hi1 & Ho1). unfold launchOutcome. split_and!; [..|done].
  1-3: by rewrite ?consoles_app, ?incoming_app, ?outgoing_app, ?Hc1, ?Hi1, ?Ho1.
  rewrite launches_app, Hl1. destruct Hl as [Hl|Hl]; [by left|]. right. split_and!; [done|done|].
  exists t1, digest, t2, executable, block, environment. by split_and!.
Qed.
(** ** The conversation *)
Definition handshakeDone (arguments : list wstring) (capability : bytes) (r : bytes * HostResponse)
    (received sent : bytes) : Prop :=
  exists pid creationTime clientNonce generation inFlags outFlags errFlags processes directory request mac challenge response,
    challengeEnc (generation, r.1) challenge /\ responseEnc r.2 response
    /\ requestBody pid creationTime clientNonce r.1 generation inFlags outFlags errFlags processes directory arguments = Some request
    /\ HmacSha256 capability request = Some mac
    /\ received = frame challenge ++ frame response
    /\ sent = frame (helloBody pid creationTime clientNonce) ++ frame (request ++ mac).

(** Conversations by what they receive and send. *)
Definition exchanges {A} (m : Shim A) (T : A -> bytes -> bytes -> Prop) : Prop :=
  conv m (fun a trace => T a (incoming trace) (outgoing trace)).

Lemma exchanges_bind {A B} (m : Shim A) (k : A -> Shim B) T1 (T2 : B -> bytes -> bytes -> Prop) :
  exchanges m T1 -> (forall a i o, T1 a i o -> exchanges (k a) (fun b i2 o2 => T2 b (i ++ i2) (o ++ o2))) ->
  exchanges (mbind k m) T2.
Proof.
  intros Hm Hk. eapply conv_bind; [exact Hm|]. intros a trace HT. eapply conv_mono; [apply (Hk a _ _ HT)|].
  intros b trace2. by rewrite incoming_app, outgoing_app.
Qed.

Lemma exchanges_silent {A B} (m : Shim A) (k : A -> Shim B) P (T : B -> bytes -> bytes -> Prop) :
  silent m P -> (forall a trace, P a trace -> exchanges (k a) T) -> exchanges (mbind k m) T.
Proof.
  intros Hm Hk. eapply conv_bind; [by apply silent_conv|]. intros a trace (HP & Hi & Ho).
  eapply conv_mono; [apply (Hk a trace HP)|]. intros b trace2. by rewrite incoming_app, outgoing_app, Hi, Ho.
Qed.

Lemma HandleFlags_silent id : silent (HandleFlags id) (fun _ _ => True).
Proof. unfold HandleFlags. silent_steps. Qed.
Lemma ConsoleProcesses_silent : silent ConsoleProcesses (fun _ _ => True).
Proof. unfold ConsoleProcesses. silent_steps. Qed.
Lemma CurrentDirectory_silent : silent CurrentDirectory (fun _ _ => True).
Proof. unfold CurrentDirectory. silent_steps. Qed.
Lemma ProcessCreationTime_silent : silent ProcessCreationTime (fun _ _ => True).
Proof. unfold ProcessCreationTime. silent_steps. Qed.

(** A frame received and parsed. *)
Lemma exchanges_receive {A B} timeout (p : M Reader A) (enc : A -> bytes -> Prop) (k : A -> Shim B) (T : B -> bytes -> bytes -> Prop) :
  acceptsAll p enc ->
  (forall v body, enc v body -> exchanges (k v) (fun b i o => T b (frame body ++ i) o)) ->
  exchanges (body ← ReadFrame timeout; v ← lift (parseFrame p body); k v) T.
Proof.
  intros Ha Hk. eapply conv_bind; [apply ReadFrame_reads|]. intros body t1 (Hi & Ho & Hb & Hm).
  eapply (conv_bind _ _ (fun v trace => trace = [] /\ enc v body)).
  { apply conv_lift. pose proof (acceptsAll_parse p enc body Ha Hb Hm) as Hp. by destruct (parseFrame p body). }
  intros v ? [-> He]. eapply conv_mono; [apply (Hk v body He)|]. intros b t2.
  by rewrite incoming_app, outgoing_app, Hi, Ho.
Qed.

Lemma exchanges_send {B} body (k : unit -> Shim B) (T : B -> bytes -> bytes -> Prop) :
  exchanges (k tt) (fun b i o => T b i (frame body ++ o)) -> exchanges (mbind k (WriteFrame body)) T.
Proof.
  intros Hk. eapply conv_bind; [apply WriteFrame_writes|]. intros [] t1 (Hi & Ho). eapply conv_mono; [apply Hk|].
  intros b t2. by rewrite incoming_app, outgoing_app, Hi, Ho.
Qed.

Lemma handshake_transcript arguments capability :
  exchanges (handshake HmacSha256 arguments capability) (handshakeDone arguments capability).
Proof.
  unfold handshake.
  eapply exchanges_silent; [apply (silent_ask _ (fun _ _ => True)); [by intros; split_and!|done]|]. intros nonce t1 _.
  eapply exchanges_silent; [apply (silent_require _ (fun _ _ => True)); done|]. intros clientNonce t2 _.
  eapply exchanges_silent; [apply (silent_ask _ (fun _ _ => True)); [by intros; split_and!|done]|]. intros pid t3 _.
  eapply exchanges_silent; [apply ProcessCreationTime_silent|]. intros creationTime t4 _.
  apply exchanges_send. eapply exchanges_receive; [apply readChallenge_accepts|]. intros [generation serverNonce] challenge Hch.
  eapply exchanges_silent; [apply HandleFlags_silent|]. intros inFlags t5 _.
  eapply exchanges_silent; [apply HandleFlags_silent|]. intros outFlags t6 _.
  eapply exchanges_silent; [apply HandleFlags_silent|]. intros errFlags t7 _.
  eapply exchanges_silent; [apply ConsoleProcesses_silent|]. intros processes t8 _.
  eapply exchanges_silent; [apply CurrentDirectory_silent|]. intros directory t9 _.
  eapply exchanges_silent; [apply (silent_require _ (fun request _ => requestBody pid creationTime clientNonce serverNonce
    generation inFlags outFlags errFlags processes directory arguments = Some request)); done|]. intros request t10 Hreq.
  eapply exchanges_silent; [apply (silent_require _ (fun mac _ => HmacSha256 capability request = Some mac)); done|].
  intros mac t11 Hmac. apply exchanges_send. eapply exchanges_receive; [apply readResponse_accepts|]. intros r response Hr.
  apply conv_ret. exists pid, creationTime, clientNonce, generation, inFlags, outFlags, errFlags, processes, directory,
    request, mac, challenge, response. cbn [fst snd]. split_and!; try done; cbn; by rewrite ?app_nil_r.
Qed.

(** The barrier line of an accepted request. *)
Definition barrierLine (r : HostResponse) : wstring := first r ++ [0x0D; 0x0A].

(** What the shim receives and sends after an accepted request, up to status [status]. *)
Definition embedDone (capability serverNonce : bytes) (r : HostResponse) (status : Z) (received sent : bytes) : Prop :=
  exists complete mac,
    completeEnc (requestId r) status complete
    /\ HmacSha256 capability (barrierBody (requestId r) serverNonce) = Some mac
    /\ received = frame complete /\ sent = frame (barrierBody (requestId r) serverNonce ++ mac).

Lemma conv_sspec {A} (m : Shim A) (Q : A -> list Event -> Prop) flag (R : list Event -> bool -> Outcome A -> Prop) :
  conv m Q -> (forall trace o, launches trace = [] -> consoles trace = [] ->
    match o with Ret a => Q a trace | Throw => True | _ => False end -> R trace flag o) -> sspec m flag R.
Proof. intros Hm HR. eapply sspec_mono; [apply Hm|]. intros trace flag' o (-> & ? & ? & ?). by apply HR. Qed.

Lemma embed_transcript capability serverNonce r flag :
  sspec (embed HmacSha256 capability serverNonce r) flag (fun trace flag' o =>
    flag' = flag /\ launches trace = [] /\ consoles trace = [barrierLine r]
    /\ match o with
       | Ret status => embedDone capability serverNonce r status (incoming trace) (outgoing trace)
       | Throw => True
       | _ => False
       end).
Proof.
  apply sspec_bind, sspec_ask. intros output _. apply sspec_bind, sspec_ask. intros written _. fold (barrierLine r).
  set (t0 := [event (GetStdHandle STD_OUTPUT_HANDLE) output] ++ [event (WriteConsoleW (barrierLine r)) written]).
  eapply (conv_sspec _ (fun status trace => embedDone capability serverNonce r status (incoming trace) (outgoing trace))).
  - change (exchanges (check (bool_decide (written = Some (Z.of_nat (length (barrierLine r)))));;
      barrierMac ← require (HmacSha256 capability (barrierBody (requestId r) serverNonce));
      WriteFrame (barrierBody (requestId r) serverNonce ++ barrierMac);;
      completeBody ← ReadFrame INFINITE;
      lift (parseFrame (readComplete (requestId r)) completeBody)) (embedDone capability serverNonce r)).
    eapply exchanges_silent; [apply (silent_check _ (fun _ _ => True)); done|]. intros [] t1 _.
    eapply exchanges_silent; [apply (silent_require _ (fun mac _ => HmacSha256 capability (barrierBody (requestId r) serverNonce) = Some mac)); done|].
    intros mac t2 Hmac. apply exchanges_send.
    eapply conv_bind; [apply ReadFrame_reads|]. intros body t3 (Hi & Ho & Hb & Hm). apply conv_lift.
    pose proof (acceptsAll_parse _ _ body (readComplete_accepts (requestId r)) Hb Hm) as Hp.
    destruct (parseFrame (readComplete (requestId r)) body) as [status| | |]; try done.
    exists body, mac. rewrite app_nil_r, Hi, Ho, app_nil_r. done.
  - intros trace o Hl Hc Ho. rewrite app_assoc, launches_app, consoles_app, incoming_app, outgoing_app, Hl, Hc.
    by destruct o.
Qed.

(** All of the conversation about an accepted request: [received] and [sent] on the pipe are exactly its frames, the barrier line was
    written, and [status] is what the frame of the completion says. *)
Definition completed (key : bytes -> Prop) (arguments : list wstring) (trace : list Event) (status : Z) : Prop :=
  exists capability serverNonce r received1 sent1 received2 sent2,
    key capability /\ handshakeDone arguments capability (serverNonce, r) received1 sent1 /\ action r = Action.Embedded
    /\ embedDone capability serverNonce r status received2 sent2
    /\ incoming trace = received1 ++ received2 /\ outgoing trace = sent1 ++ sent2 /\ consoles trace = [barrierLine r].

(** ** The contract *)

(** What a run of the shim may do. [key] holds of the capability of the session, [client] of the path and the digest of
    the clients that the host may name. *)
Inductive allowed (key : bytes -> Prop) (client : wstring -> wstring -> Prop) (arguments : list wstring) (trace : list Event) : Outcome Z -> Prop :=
(** The client of the session, for want of a decision of the host; what it exits with is returned. *)
| allowed_session path expected before after o :
    trace = before ++ after -> launches before = [] -> consoles before = [] ->
    launchOutcome arguments path expected after o ->
    path = [] \/ environmentValue trace (L "VT7_SYSTEM_SSH") path ->
    expected = [] \/ environmentValue trace (L "VT7_SYSTEM_SSH_SHA256") expected ->
    allowed key client arguments trace o
(** The client the host named. *)
| allowed_system capability serverNonce r before after o :
    key capability -> handshakeDone arguments capability (serverNonce, r) (incoming trace) (outgoing trace) -> action r = Action.System ->
    client (first r) (second r) ->
    trace = before ++ after -> launches before = [] -> consoles before = [] ->
    launchOutcome arguments (first r) (second r) after o -> allowed key client arguments trace o
(** Refused by the host. *)
| allowed_reject capability serverNonce r :
    key capability -> handshakeDone arguments capability (serverNonce, r) (incoming trace) (outgoing trace) -> action r = Action.Reject ->
    launches trace = [] -> consoles trace = [] -> allowed key client arguments trace (Ret (exitCode r))
(** Accepted by the host: no process, and a status only from the completion of this request. *)
| allowed_embedded status :
    completed key arguments trace status -> launches trace = [] -> allowed key client arguments trace (Ret status)
| allowed_broken r :
    action r = Action.Embedded -> launches trace = [] -> consoles trace = [barrierLine r] -> allowed key client arguments trace Throw
| allowed_failed : launches trace = [] -> consoles trace = [] -> allowed key client arguments trace Throw.

Definition returns {A} (o : Outcome A) : Prop := match o with Ret _ | Throw => True | _ => False end.

Lemma sspec_setFlag {A} (k : unit -> Shim A) flag (Q : list Event -> bool -> Outcome A -> Prop) :
  sspec (k tt) true Q -> sspec (mbind k setFlag) flag Q.
Proof. intros Hk. apply sspec_bind, spec_return. exact Hk. Qed.

Lemma converse_allowed arguments capability :
  sspec (converse GetFullPathNameW sort HmacSha256 arguments capability) false (fun trace flag o =>
    returns o /\ (if flag then allowed (eq capability) (fun _ _ => True) arguments trace o else o = Throw /\ launches trace = [] /\ consoles trace = [])).
Proof.
  eapply conv_then; [apply handshake_transcript|done|]. intros [serverNonce r] t1 Hhs Hl1 Hc1.
  destruct (Z.eqb_spec (action r) Action.System) as [Hsys|_]; [|destruct (Z.eqb_spec (action r) Action.Reject) as [Hrej|_]].
  - apply sspec_setFlag. eapply sspec_mono; [apply LaunchSystem_launches|]. intros t2 flag o (-> & Hr & Ho).
    split; [done|]. pose proof Ho as (Hc2 & Hi2 & Ho2 & _).
    apply (allowed_system _ _ _ _ capability serverNonce r t1 t2); [done| |done..].
    by rewrite incoming_app, outgoing_app, Hi2, Ho2, !app_nil_r.
  - apply sspec_setFlag, sspec_bind, sspec_ask. intros [] _. apply sspec_ret. split; [done|].
    apply (allowed_reject _ _ _ _ capability serverNonce); rewrite ?incoming_app, ?outgoing_app, ?launches_app, ?consoles_app,
      ?Hl1, ?Hc1; cbn; rewrite ?app_nil_r; done.
  - eapply (conv_then _ _ (fun _ trace => trace = [] /\ action r = Action.Embedded)).
    { apply conv_check. by intros ?%Z.eqb_eq. }
    { intros trace Hl Hc. split; [done|]. by rewrite launches_app, consoles_app, Hl1, Hc1, Hl, Hc. }
    intros [] ? [-> Hemb] _ _. apply sspec_setFlag. eapply sspec_mono; [apply embed_transcript|].
    intros t2 flag o (-> & Hl2 & Hc2 & Ho). cbn [app]. split; [by destruct o|]. destruct o as [status| | |]; [| |done|done].
    + apply allowed_embedded; [|by rewrite launches_app, Hl1, Hl2].
      exists capability, serverNonce, r, (incoming t1), (outgoing t1), (incoming t2), (outgoing t2).
      rewrite incoming_app, outgoing_app, consoles_app, Hc1, Hc2. by split_and!.
    + apply (allowed_broken _ _ _ _ r); [done|..]; by rewrite ?launches_app, ?consoles_app, ?Hl1, ?Hc1, ?Hl2, ?Hc2.
Qed.

Lemma environmentValue_app a b name value :
  environmentValue a name value -> environmentValue (a ++ b) name value.
Proof. intros (n & c & Hin & ->). exists n, c. split; [|done]. apply in_or_app. by left. Qed.

(** The fallback, after anything that neither launched nor wrote to the console. *)
Lemma fallback_allowed key client arguments external externalHash before flag :
  launches before = [] -> consoles before = [] ->
  external = [] \/ environmentValue before (L "VT7_SYSTEM_SSH") external ->
  externalHash = [] \/ environmentValue before (L "VT7_SYSTEM_SSH_SHA256") externalHash ->
  sspec (LaunchSystem GetFullPathNameW sort arguments external externalHash) flag (fun trace flag' o =>
    returns o /\ allowed key client arguments (before ++ trace) o).
Proof.
  intros Hl Hc He Hh. eapply sspec_mono; [apply LaunchSystem_launches|]. intros trace flag' o (-> & Hr & Ho).
  split; [done|]. apply (allowed_session _ _ _ _ external externalHash before trace); try done.
  - destruct He; [by left|right; by apply environmentValue_app].
  - destruct Hh; [by left|right; by apply environmentValue_app].
Qed.

(** What is known before the shim does anything that can be seen. *)
Definition prepared (external externalHash : wstring) (before : list Event) : Prop :=
  quietTrace before
  /\ (external = [] \/ environmentValue before (L "VT7_SYSTEM_SSH") external)
  /\ (externalHash = [] \/ environmentValue before (L "VT7_SYSTEM_SSH_SHA256") externalHash).

(** The capability of the session is what the environment says. *)
Definition base64Text (value : wstring) : wstring :=
  let value := map (fun c => if c =? 0x2D then 0x2B else if c =? 0x5F then 0x2F else c) value in
  value ++ repeat 0x3D ((4 - length value mod 4) mod 4).
Definition isCapability (trace : list Event) (capability : bytes) : Prop :=
  exists text, environmentValue trace (L "VT7_SSH_CAPABILITY") text /\ CryptStringToBinaryW (base64Text text) = Some capability.

Lemma Base64UrlDecode_silent value :
  silent (Base64UrlDecode CryptStringToBinaryW value) (fun capability _ => CryptStringToBinaryW (base64Text value) = Some capability).
Proof. apply silent_require. done. Qed.

Lemma isCapability_app a b capability : isCapability a capability -> isCapability (a ++ b) capability.
Proof. intros (text & Ht & Hd). exists text. split; [by apply environmentValue_app|done]. Qed.

Definition permitted (arguments : list wstring) (trace : list Event) (o : Outcome Z) : Prop :=
  allowed (isCapability trace) (fun _ _ => True) arguments trace o.
Definition allowedAfter (arguments : list wstring) (before : list Event) (m : Shim Z) : Prop :=
  sspec m false (fun trace flag o => returns o /\ permitted arguments (before ++ trace) o).

Lemma prepared_app external externalHash a b :
  prepared external externalHash a -> quietTrace b -> prepared external externalHash (a ++ b).
Proof.
  intros (Hq & He & Hh) Hq2. split; [by apply quietTrace_app|].
  split; [destruct He|destruct Hh]; auto using environmentValue_app.
Qed.

(** One step of the code before the conversation; what it found is known afterwards. *)
Lemma allowedAfter_step {A} (m : Shim A) (k : A -> Shim Z) P arguments external externalHash before :
  silent m P -> prepared external externalHash before ->
  (forall a trace, P a trace -> prepared external externalHash (before ++ trace) -> allowedAfter arguments (before ++ trace) (k a)) ->
  allowedAfter arguments before (mbind k m).
Proof.
  intros Hm Hp Hk. eapply sspec_silent; [exact Hm| |].
  - intros trace Hq. destruct (prepared_app _ _ _ _ Hp Hq) as ((Hl & Hc & _) & _). split; [done|by apply allowed_failed].
  - intros a trace HP Hq. eapply sspec_mono; [apply (Hk a trace HP); by apply prepared_app|].
    intros trace2 flag o. by rewrite app_assoc.
Qed.

Lemma allowedAfter_silent {A} (m : Shim A) (k : A -> Shim Z) P arguments external externalHash before :
  silent m P -> prepared external externalHash before ->
  (forall a before', prepared external externalHash before' -> allowedAfter arguments before' (k a)) ->
  allowedAfter arguments before (mbind k m).
Proof. intros Hm Hp Hk. eapply allowedAfter_step; [exact Hm|exact Hp|]. intros a trace _ Hp'. by apply Hk. Qed.

(** What came before does not matter when it was quiet; the capability may be known by more. *)
Lemma allowed_quiet (key key' : bytes -> Prop) client arguments before trace o :
  (forall capability, key capability -> key' capability) ->
  quietTrace before -> allowed key client arguments trace o -> allowed key' client arguments (before ++ trace) o.
Proof.
  intros Hkey Hq. pose proof Hq as (Hl & Hc & Hi & Ho).
  assert (Hv : forall name value, environmentValue trace name value -> environmentValue (before ++ trace) name value).
  { intros name value (n & c & Hin & ->). exists n, c. split; [|done]. apply in_or_app. by right. }
  assert (Happ : incoming (before ++ trace) = incoming trace /\ outgoing (before ++ trace) = outgoing trace
                 /\ launches (before ++ trace) = launches trace /\ consoles (before ++ trace) = consoles trace).
  { by rewrite incoming_app, outgoing_app, launches_app, consoles_app, Hl, Hc, Hi, Ho. }
  destruct Happ as (Hi' & Ho' & Hl' & Hc').
  destruct 1 as [path expected b a o -> Hlb Hcb Hout He Hh|capability sn r b a o Hk Hhs Hact Hcl -> Hlb Hcb Hout|capability sn r Hk Hhs Hact Hlt Hct
                |status Hdone Hlt|r Hact Hlt Hct|Hlt Hct].
  - apply (allowed_session _ _ _ _ path expected (before ++ b) a); rewrite ?launches_app, ?consoles_app, ?Hl, ?Hc, <- ?app_assoc; try done.
    + destruct He; auto.
    + destruct Hh; auto.
  - apply (allowed_system _ _ _ _ capability sn r (before ++ b) a); rewrite ?launches_app, ?consoles_app, ?Hl, ?Hc, <- ?app_assoc; try done.
    + by apply Hkey.
    + by rewrite Hi', Ho'.
  - apply (allowed_reject _ _ _ _ capability sn); rewrite ?Hi', ?Ho', ?Hl', ?Hc'; auto.
  - apply allowed_embedded; [|by rewrite Hl'].
    destruct Hdone as (capability & sn & r & r1 & s1 & r2 & s2 & Hk & Hdone). exists capability, sn, r, r1, s1, r2, s2. rewrite Hi', Ho', Hc'. auto.
  - apply (allowed_broken _ _ _ _ r); by rewrite ?Hl', ?Hc'.
  - apply allowed_failed; by rewrite ?Hl', ?Hc'.
Qed.

(** The fallback needs no capability. *)
Lemma fallback_permitted arguments external externalHash before flag :
  launches before = [] -> consoles before = [] ->
  external = [] \/ environmentValue before (L "VT7_SYSTEM_SSH") external ->
  externalHash = [] \/ environmentValue before (L "VT7_SYSTEM_SSH_SHA256") externalHash ->
  sspec (LaunchSystem GetFullPathNameW sort arguments external externalHash) flag (fun trace flag' o =>
    returns o /\ permitted arguments (before ++ trace) o).
Proof.
  intros Hl Hc He Hh. eapply sspec_mono; [by apply (fallback_allowed (fun _ => False) (fun _ _ => True) arguments external externalHash before)|].
  intros trace flag' o (? & Ha). split; [done|]. by apply (allowed_quiet (fun _ => False) _ _ _ []).
Qed.

Lemma allowedAfter_fallback arguments external externalHash before :
  prepared external externalHash before ->
  allowedAfter arguments before (LaunchSystem GetFullPathNameW sort arguments external externalHash).
Proof. intros ((? & ? & _) & ? & ?). by apply fallback_permitted. Qed.

Lemma conversation_allowed arguments capability external externalHash before :
  prepared external externalHash before -> isCapability before capability ->
  allowedAfter arguments before
    (try_ (converse GetFullPathNameW sort HmacSha256 arguments capability)
       (hostDecisionReceived ← getFlag;
        if negb hostDecisionReceived
        then LaunchSystem GetFullPathNameW sort arguments external externalHash else fail)).
Proof.
  intros (Hq & He & Hh) Hk. apply sspec_try. eapply sspec_mono; [apply converse_allowed|]. intros trace flag o (Hr & Ho).
  destruct flag; [|destruct Ho as (-> & Hl & Hc)].
  - apply (allowed_quiet _ (isCapability (before ++ trace)) _ _ before) in Ho; [|intros ? <-; by apply isCapability_app|done].
    destruct o as [v| | |]; try done. apply sspec_bind, spec_return. cbn [fst snd negb]. apply sspec_fail. by rewrite app_nil_r.
  - apply sspec_bind, spec_return. cbn [fst snd negb app]. eapply sspec_mono.
    + destruct Hq as (Hl1 & Hc1 & _). apply (fallback_permitted _ _ _ (before ++ trace));
        rewrite ?launches_app, ?consoles_app, ?Hl, ?Hc, ?Hl1, ?Hc1; [done|done|destruct He|destruct Hh]; auto using environmentValue_app.
    + intros trace2 flag' o. by rewrite app_assoc.
Qed.

Lemma RunShim_allowed arguments :
  sspec (RunShim GetFullPathNameW sort CryptStringToBinaryW HmacSha256 arguments) false (fun trace flag o =>
    returns o /\ permitted arguments trace o).
Proof.
  eapply sspec_silent; [apply Environment_silent|intros trace (Hl & Hc & _); split; [done|by apply allowed_failed]|].
  intros external t1 He Hq1.
  eapply sspec_silent; [apply Environment_silent| |].
  { intros trace Hq. destruct (quietTrace_app _ _ Hq1 Hq) as (Hl & Hc & _). split; [done|by apply allowed_failed]. }
  intros externalHash t2 Hh Hq2.
  assert (Hp : prepared external externalHash (t1 ++ t2)).
  { split; [by apply quietTrace_app|]. split; [destruct He; auto using environmentValue_app|].
    destruct Hh as [|(n & c & Hin & ->)]; [by left|right]. exists n, c. split; [|done]. apply in_or_app. by right. }
  eapply sspec_mono with (Q1 := fun trace flag o => returns o /\ permitted arguments ((t1 ++ t2) ++ trace) o);
    [|intros trace2 flag o; by rewrite app_assoc].
  revert Hp. generalize (t1 ++ t2). clear. intros before Hp. refine (_ : allowedAfter arguments before _).
  eapply allowedAfter_silent; [apply Environment_silent|exact Hp|]. clear before Hp. intros mode before Hp.
  eapply allowedAfter_silent; [apply Environment_silent|exact Hp|]. clear before Hp. intros protocol before Hp.
  eapply allowedAfter_silent; [apply Environment_silent|exact Hp|]. clear before Hp. intros pipeName before Hp.
  eapply allowedAfter_step; [apply Environment_silent|exact Hp|]. intros capabilityText t Ht Hp2.
  assert (Hk : capabilityText = [] \/ environmentValue (before ++ t) (L "VT7_SSH_CAPABILITY") capabilityText).
  { destruct Ht as [|(n & c & Hin & ->)]; [by left|right]. exists n, c. split; [|done]. apply in_or_app. by right. }
  clear Ht Hp. revert Hk Hp2. generalize (before ++ t). clear before t. intros before Hk Hp.
  eapply allowedAfter_step; [apply CurrentExecutable_silent|exact Hp|]. intros executable t1 _ Hp1.
  eapply allowedAfter_step; [apply CurrentExecutable_silent|exact Hp1|]. intros executable' t2 _ Hp2.
  eapply allowedAfter_step; [apply (silent_check _ (fun _ _ => True)); done|exact Hp2|]. intros [] t3 _ Hp3.
  cbv zeta. match goal with |- allowedAfter _ _ (if ?b then _ else _) => destruct b eqn:Hb end; [by apply allowedAfter_fallback|].
  apply orb_false_iff in Hb as [[_ Hne]%orb_false_iff _]. apply Nat.eqb_neq in Hne.
  destruct Hk as [->|Hk]; [done|].
  eapply allowedAfter_step; [apply Base64UrlDecode_silent|exact Hp3|]. intros capability t4 Hd Hp4.
  assert (Hcap : isCapability ((((before ++ t1) ++ t2) ++ t3) ++ t4) capability).
  { exists capabilityText. split; [by do 4 apply environmentValue_app|done]. }
  revert Hcap Hp4. generalize ((((before ++ t1) ++ t2) ++ t3) ++ t4). clear -sort. intros before Hcap Hp.
  eapply allowedAfter_step; [apply (silent_check _ (fun _ _ => True)); done|exact Hp|]. intros [] t1 _ Hp1.
  eapply allowedAfter_step; [apply (silent_ask _ (fun _ _ => True)); [by intros; split_and!|done]|exact Hp1|].
  intros available t2 _ Hp2. destruct (negb available); [by apply allowedAfter_fallback|].
  eapply allowedAfter_step; [apply (silent_ask _ (fun _ _ => True)); [by intros; split_and!|done]|exact Hp2|].
  intros pipe t3 _ Hp3. destruct (negb pipe); [by apply allowedAfter_fallback|].
  apply conversation_allowed; [done|]. by do 3 apply isCapability_app.
Qed.

Lemma allowed_launches key client arguments trace o : allowed key client arguments trace o ->
  (length (launches trace) <= 1)%nat /\ (consoles trace <> [] -> launches trace = []).
Proof.
  assert (Hout : forall path expected before after o, launches before = [] -> consoles before = [] ->
            launchOutcome arguments path expected after o ->
            (length (launches (before ++ after)) <= 1)%nat /\ consoles (before ++ after) = []).
  { intros path expected before after o' Hl Hc (Hc2 & _ & _ & Hl2 & _). rewrite launches_app, consoles_app, Hl, Hc, Hc2.
    split; [|done]. destruct Hl2 as [->|(_ & _ & b & digest & a & exe & block & env & -> & Hb & Ha & _)]; [cbn; lia|].
    rewrite launches_app, Hb. change (event ?c ?r :: ?t) with ([event c r] ++ t). rewrite launches_app, Ha. cbn. lia. }
  destruct 1 as [path expected b a o -> Hlb Hcb Ho _ _|capability sn r b a o _ _ _ _ -> Hlb Hcb Ho|? ? ? _ _ _ Hl Hc
                |? _ Hl|? _ Hl Hc|Hl Hc].
  1, 2: destruct (Hout _ _ _ _ _ Hlb Hcb Ho) as [? Hc]; split; [done|by rewrite Hc].
  all: rewrite Hl; split; [cbn; lia|done].
Qed.

(** What a run of the shim returns is the exit code of the client that it launched, the code of the refusal or the status of the completion. *)
Definition exits_as_told (arguments : list wstring) (trace : list Event) (code : Z) : Prop :=
  (launches trace <> [] /\ exitCodeOf trace code)
  \/ (exists capability serverNonce r, isCapability trace capability
      /\ handshakeDone arguments capability (serverNonce, r) (incoming trace) (outgoing trace)
      /\ action r = Action.Reject /\ code = exitCode r /\ launches trace = [] /\ consoles trace = [])
  \/ (completed (isCapability trace) arguments trace code /\ launches trace = []).

Lemma permitted_exits arguments trace code : permitted arguments trace (Ret code) -> exits_as_told arguments trace code.
Proof.
  assert (Hout : forall path expected before after, launches before = [] ->
            launchOutcome arguments path expected after (Ret code) -> launches (before ++ after) <> [] /\ exitCodeOf (before ++ after) code).
  { intros path expected before after Hl (_ & _ & _ & _ & Hn & Hx). rewrite launches_app, Hl. split; [done|by apply exitCodeOf_app]. }
  intros Ha. inversion Ha as [path expected b a o Htr Hlb Hcb Ho|capability sn r b a o Hk Hhs Hact Hcl Htr Hlb Hcb Ho|capability sn r Hk Hhs Hact Hl Hc
                |status Hdone Hl| |]; subst.
  - left. eauto.
  - left. eauto.
  - right. left. exists capability, sn, r. by split_and!.
  - right. right. by split.
Qed.

(** The client of the session: what [VT7_SYSTEM_SSH] and [VT7_SYSTEM_SSH_SHA256] say. *)
Definition sessionClient (trace : list Event) (path digest : wstring) : Prop :=
  environmentValue trace (L "VT7_SYSTEM_SSH") path /\ environmentValue trace (L "VT7_SYSTEM_SSH_SHA256") digest.
(** A host that names the client of the session whenever it names one. *)
Definition hostNamesSessionClient (arguments : list wstring) (trace : list Event) : Prop :=
  forall capability serverNonce r, isCapability trace capability ->
    handshakeDone arguments capability (serverNonce, r) (incoming trace) (outgoing trace) -> action r = Action.System ->
    sessionClient trace (first r) (second r).

Lemma permitted_contract arguments trace o : permitted arguments trace o -> hostNamesSessionClient arguments trace ->
  allowed (isCapability trace) (sessionClient trace) arguments trace o.
Proof.
  intros Ha Hh. destruct Ha as [path expected b a o Htr Hlb Hcb Ho He Hx|capability sn r b a o Hk Hhs Hact _ Htr Hlb Hcb Ho|capability sn r Hk Hhs Hact Hl Hc
                |status Hdone Hl|r Hact Hl Hc|Hl Hc].
  - by apply (allowed_session _ _ _ _ path expected b a).
  - apply (allowed_system _ _ _ _ capability sn r b a); try done. by apply (Hh capability sn).
  - by apply (allowed_reject _ _ _ _ capability sn).
  - by apply allowed_embedded.
  - by apply (allowed_broken _ _ _ _ r).
  - by apply allowed_failed.
Qed.

(** C10: the shim keeps the contract of the handoff but for one check. In every run, whatever the system
    and the host answer, [RunShim] does one of these and nothing else: it launches
    the session's own SSH client, or the one the host named, at most once, only after
    the digest of the file was found as expected, never itself, with the quoted argument
    vector and the sanitized environment, and returns what that client exits with; it is refused, and returns the code of the refusal;
    or it was accepted, then it launches nothing, writes the barrier line once, has sent exactly the hello,
    the authenticated request and the authenticated barrier acknowledgement, under the capability of the session, and returns a
    status only from the completion of this very request; or it fails having launched
    nothing. It never overruns a buffer and always ends. The shim does not check, as it should, that the client the host names is that of the
    session: the whole contract, in which the host may name no other client, is kept in the runs in which the host does not. *)
Theorem shim_contract arguments trace flag o :
  run (RunShim GetFullPathNameW sort CryptStringToBinaryW HmacSha256 arguments false) trace (flag, o) ->
  returns o /\ allowed (isCapability trace) (fun _ _ => True) arguments trace o
  /\ (hostNamesSessionClient arguments trace -> allowed (isCapability trace) (sessionClient trace) arguments trace o).
Proof.
  intros Hr. destruct (RunShim_allowed arguments trace (flag, o) Hr) as [Ho Ha]. split_and!; [done|done|by apply permitted_contract].
Qed.

(** C11: the process ends with an exit code and never makes a second connection: every run
    of [wmain] returns, creates at most one process, and creates none once the barrier
    of an accepted request was written. Its exit code is 255 with the message that it failed, or else exactly what it was told: the exit code that
    the system reported for the client it launched, the code in the host's refusal, or the status in the completion that was received on the
    pipe as the last frame of a conversation held under the capability of the session. After the barrier line it is that status or the failure. *)
Theorem shim_exits arguments trace flag o :
  run (wmain GetFullPathNameW sort CryptStringToBinaryW HmacSha256 arguments false) trace (flag, o) ->
  exists code, o = Ret code
    /\ (length (launches trace) <= 1)%nat
    /\ (consoles trace <> [] -> launches trace = [])
    /\ ((code = 255 /\ In (event PrintFailed tt) trace) \/ exits_as_told arguments trace code)
    /\ (consoles trace <> [] -> (code = 255 /\ In (event PrintFailed tt) trace) \/ completed (isCapability trace) arguments trace code).
Proof.
  revert trace flag o. enough (Hw : sspec (wmain GetFullPathNameW sort CryptStringToBinaryW HmacSha256 arguments) false
    (fun trace flag o => exists code, o = Ret code /\ (length (launches trace) <= 1)%nat
      /\ (consoles trace <> [] -> launches trace = [])
      /\ ((code = 255 /\ In (event PrintFailed tt) trace) \/ exits_as_told arguments trace code)
      /\ (consoles trace <> [] -> (code = 255 /\ In (event PrintFailed tt) trace) \/ completed (isCapability trace) arguments trace code))).
  { intros trace flag o Hr. apply (Hw trace (flag, o) Hr). }
  apply sspec_try. eapply sspec_mono; [apply RunShim_allowed|]. intros trace flag o (Hr & Ha).
  destruct (allowed_launches _ _ _ _ _ Ha) as [Hl Hc]. destruct o as [code| | |]; [| |done|done].
  - exists code. pose proof (permitted_exits _ _ _ Ha) as Hx. split_and!; auto. intros Hne. right.
    destruct Hx as [[Hn _]|[(? & ? & ? & _ & _ & _ & _ & _ & Hcn)|[Hdone _]]]; [by rewrite Hc in Hn|done|done].
  - apply sspec_bind, sspec_ask. intros [] _. apply sspec_ret. exists 255.
    assert (Hin : In (event PrintFailed tt) (trace ++ [event PrintFailed tt] ++ [])) by (apply in_or_app; right; by left).
    split_and!; [done|..]; rewrite ?launches_app, ?consoles_app; cbn; rewrite ?app_nil_r; auto.
Qed.
End shim.

(** ** Evaluated runs

    A system in which the shim runs as [C:\shim\ssh.exe] and the host answers with the
    bytes of [script], five at a time. *)
Definition sampleEnvironment (name : wstring) : wstring :=
  if bool_decide (name = L "VT7_SYSTEM_SSH") then L "C:\bin\ssh.exe"
  else if bool_decide (name = L "VT7_SYSTEM_SSH_SHA256") then L "ab"
  else if bool_decide (name = L "VT7_SSH_PROTOCOL") then L "1"
  else if bool_decide (name = L "VT7_SSH_PIPE") then L "pipe"
  else if bool_decide (name = L "VT7_SSH_CAPABILITY") then L "capability" else [].

Definition sampleIo (script : bytes) (past : list Event) (op : IoOp) : Z * bytes :=
  match op with
  | ReadOp count =>
      let data := take (Nat.min 5 (Z.to_nat count)) (drop (length (incoming past)) script) in
      (Z.of_nat (length data), data)
  | WriteOp data => (Z.of_nat (Nat.min 7 (length data)), [])
  end.

Definition sampleOracle (script : bytes) : Oracle := fun past R call =>
  match call in Call R return R with
  | GetEnvironmentVariableW name size =>
      let value := sampleEnvironment name in
      match value with
      | [] => (0, [])
      | _ => if size =? 0 then (Z.of_nat (length value) + 1, []) else (Z.of_nat (length value), value)
      end
  | GetModuleFileNameW _ => (15, L "C:\shim\ssh.exe")
  | GetCurrentDirectoryW _ => (3, L "C:\")
  | GetConsoleProcessList _ => (2, [4242; 4000])
  | WaitNamedPipeW _ _ | CreateFileW_pipe _ | CreateEventW | WaitForIo _ | WaitForProcess => true
  | BCryptGenRandom count => Some (repeat 9 (Z.to_nat count))
  | GetCurrentProcessId => 4242
  | GetProcessTimes => Some (1, 2)
  | GetStdHandle id => Some 4
  | GetFileType _ => 2
  | GetConsoleMode _ => true
  | StartIo op => let '(n, data) := sampleIo script past op in if n =? 2 then Pending else Completed n data
  | CancelIo | PrintRejected _ | PrintFailed | FreeEnvironmentStringsW | DeleteProcThreadAttributeList | CloseHandle _ => tt
  | GetOverlappedResult op => Some (sampleIo script past op)
  | WriteConsoleW text => Some (Z.of_nat (length text))
  | HashFile _ => Some [0xAB]
  | GetEnvironmentStringsW => Some (blockOf [L "VT7_SSH_PIPE=pipe"; L "TERM=xterm"])
  | RtlGetVersion => Some (6, 1)
  | CreateFileW_console _ | DuplicateHandle _ => Some 8
  | AttributeListSize => 48
  | InitializeProcThreadAttributeList _ | UpdateProcThreadAttribute _ | CreateProcessW _ _ _ _ _ => true
  | GetExitCodeProcess => Some 3
  end.

Definition sampleRun {A} (script : bytes) (p : Shim A) : list Event * (bool * Outcome A) :=
  simulate (sampleOracle script) [] (p false).
Definition sampleShim : Shim Z :=
  RunShim Some mergeSort (fun _ => Some (repeat 1 32)) (fun _ _ => Some (repeat 5 32)) [L "ssh"; L "me@host"].
Definition sampleMain : Shim Z :=
  wmain Some mergeSort (fun _ => Some (repeat 1 32)) (fun _ _ => Some (repeat 5 32)) [L "ssh"; L "me@host"].

(** The host accepts and completes with status 7. *)
Definition sampleAccept : bytes :=
  frame ([2; 1; 0] ++ AppendU64 7 ++ repeat 6 16)
  ++ frame ([4; 1] ++ AppendU32 0 ++ repeat 3 16
            ++ default [] (AppendString []) ++ default [] (AppendString (L "Connecting")) ++ default [] (AppendString []))
  ++ frame ([6] ++ AppendU32 7 ++ repeat 3 16).

Example accepted_run :
  let '(trace, (_, o)) := sampleRun sampleAccept sampleShim in
  o = Ret 7 /\ launches trace = [] /\ consoles trace = [L "Connecting" ++ [0x0D; 0x0A]].
Proof. vm_compute. done. Qed.

(** The host breaks off after accepting: no client is launched. *)
Example broken_run :
  let '(trace, (_, o)) := sampleRun (take (length sampleAccept - 3) sampleAccept) sampleMain in
  o = Ret 255 /\ launches trace = [].
Proof. vm_compute. done. Qed.

(** Without a host the session's client runs. *)
Example fallback_run :
  let '(trace, (_, o)) := sampleRun [] sampleShim in
  o = Ret 3 /\ launches trace = [(L "C:\bin\ssh.exe", L "C:\bin\ssh.exe me@host" ++ [0], blockOf [L "TERM=xterm"])].
Proof. vm_compute. done. Qed.

(** The host may name any client: it is not compared with the session's. *)
Example system_client_not_compared :
  let script := frame ([2; 1; 0] ++ AppendU64 7 ++ repeat 6 16)
    ++ frame ([4; 2] ++ AppendU32 0 ++ repeat 3 16 ++ default [] (AppendString [])
              ++ default [] (AppendString (L "D:\other.exe")) ++ default [] (AppendString (L "AB"))) in
  let '(trace, (_, o)) := sampleRun script sampleShim in
  o = Ret 3 /\ launches trace = [(L "D:\other.exe", L "D:\other.exe me@host" ++ [0], blockOf [L "TERM=xterm"])].
Proof. vm_compute. done. Qed.

(** The contract at the run in which the host accepts. *)
Lemma shim_contract_witness :
  let r := sampleRun sampleAccept sampleShim in
  let hmac := fun _ _ : bytes => Some (repeat 5 32) in
  let key := isCapability (fun _ => Some (repeat 1 32)) r.1 in
  returns r.2.2 /\ allowed Some mergeSort hmac key (fun _ _ => True) [L "ssh"; L "me@host"] r.1 r.2.2
  /\ (hostNamesSessionClient (fun _ => Some (repeat 1 32)) hmac [L "ssh"; L "me@host"] r.1 ->
      allowed Some mergeSort hmac key (sessionClient r.1) [L "ssh"; L "me@host"] r.1 r.2.2).
Proof.
  cbv zeta.
  apply (shim_contract Some mergeSort (fun _ => Some (repeat 1 32)) (fun _ _ => Some (repeat 5 32)) [L "ssh"; L "me@host"]
           (sampleRun sampleAccept sampleShim).1 (sampleRun sampleAccept sampleShim).2.1 (sampleRun sampleAccept sampleShim).2.2).
  rewrite <- surjective_pairing. apply simulate_run. vm_compute. reflexivity.
Defined.

Lemma shim_exits_witness :
  let r := sampleRun sampleAccept sampleMain in
  let hmac := fun _ _ : bytes => Some (repeat 5 32) in
  let crypt := fun _ : wstring => Some (repeat 1 32) in
  exists code, r.2.2 = Ret code
    /\ (length (launches r.1) <= 1)%nat
    /\ (consoles r.1 <> [] -> launches r.1 = [])
    /\ ((code = 255 /\ In (event PrintFailed tt) r.1) \/ exits_as_told crypt hmac [L "ssh"; L "me@host"] r.1 code)
    /\ (consoles r.1 <> [] -> (code = 255 /\ In (event PrintFailed tt) r.1) \/ completed hmac (isCapability crypt r.1) [L "ssh"; L "me@host"] r.1 code).
Proof.
  cbv zeta.
  apply (shim_exits Some mergeSort (fun _ => Some (repeat 1 32)) (fun _ _ => Some (repeat 5 32)) [L "ssh"; L "me@host"]
           (sampleRun sampleAccept sampleMain).1 (sampleRun sampleAccept sampleMain).2.1 (sampleRun sampleAccept sampleMain).2.2).
  rewrite <- surjective_pairing. apply simulate_run. vm_compute. reflexivity.
Defined.
