(* ===== verification/Rle.v ===== *)
(** * Run-length encoded vectors

    [til::basic_rle] and its iterator ([src/inc/til/rle.h]), in which a row of the text
    buffer keeps its attributes. A vector is a list of runs; iterators into the
    underlying container are indices, and reading or writing at an index that is not in
    the container is [None]. *)
From S2P Require Import Prelude.

Record rle_pair (T : Type) := mkRun { value : T; length_ : Z }.
Arguments mkRun {T} value length_.
Arguments value {T} r.
Arguments length_ {T} r.

Record basic_rle (T : Type) := mkRle { _runs : list (rle_pair T); _total_length : Z }.
Arguments mkRle {T} _runs _total_length.
Arguments _runs {T} b.
Arguments _total_length {T} b.

(** [begin - 1]. *)
Definition prev (i : nat) : option nat := match i with O => None | S i => Some i end.

Section rle.
(** The values with their [operator==], and the width of [size_type]. *)
Context {T : Type} `{EqDecision T} (w : Z).
Implicit Types (runs replacements : list (rle_pair T)) (r : rle_pair T) (b : basic_rle T).

Definition with_length (len : Z) r : rle_pair T := mkRun (value r) len.

(** ** Construction *)
Definition sum_lengths (start : Z) runs : Z := fold_left (fun total r => wrap w (total + length_ r)) runs start.
Definition of_runs runs : basic_rle T := mkRle runs (sum_lengths 0 runs).
Definition of_value (length : Z) (v : T) : basic_rle T :=
  mkRle (if negb (length =? 0) then [mkRun v length] else []) length.

(** ** [rle_scanner]

    [rest] are the runs from the scanner's position [it]; the result is the new position,
    [run_pos] and the new [total]. *)
Fixpoint scan (rest : list (rle_pair T)) (it : nat) (total index : Z) : nat * Z * Z :=
  match rest with
  | [] => (it, 0, total)
  | r :: rest =>
      let new_total := wrap w (total + length_ r) in
      if new_total >? index then (it, wrap w (index - total), total)
      else scan rest (S it) new_total index
  end.

Definition at_ (position : Z) b : Outcome T :=
  let '(it, _, _) := scan (_runs b) 0 0 position in
  match _runs b !! it with
  | Some r => Ret (value r)
  | None => Throw
  end.

Definition slice (start_index end_index : Z) b : option (basic_rle T) :=
  let end_index := if end_index >? _total_length b then _total_length b else end_index in
  if start_index >=? end_index then Some (mkRle [] 0)
  else
    let '(begin_run, start_run_pos, total) := scan (_runs b) 0 0 start_index in
    let '(end_run, end_run_pos, _) := scan (drop begin_run (_runs b)) begin_run total (end_index - 1) in
    let slice := take (end_run + 1 - begin_run) (drop begin_run (_runs b)) in
    back ← last slice;
    let slice := <[(length slice - 1)%nat := with_length (wrap w (end_run_pos + 1)) back]> slice in
    front ← head slice;
    let slice := <[0%nat := with_length (wrap w (length_ front - start_run_pos)) front]> slice in
    Some (mkRle slice (wrap w (end_index - start_index))).

(** ** [_compact] *)

(** The inner loop: the runs before [ref], the run at [ref] and the runs from [it] on. *)
Fixpoint compact_tail (before : list (rle_pair T)) (ref : rle_pair T) (rest : list (rle_pair T)) : list (rle_pair T) :=
  match rest with
  | [] => before ++ [ref]
  | r :: rest =>
      if decide (value ref = value r)
      then compact_tail before (with_length (wrap w (length_ ref + length_ r)) ref) rest
      else compact_tail (before ++ [ref]) r rest
  end.
(** The outer loop, up to the first pair of runs with the same value. *)
Fixpoint compact_loop (before : list (rle_pair T)) (ref : rle_pair T) (rest : list (rle_pair T)) : list (rle_pair T) :=
  match rest with
  | [] => before ++ [ref]
  | r :: rest =>
      if decide (value ref = value r)
      then compact_tail before (with_length (wrap w (length_ ref + length_ r)) ref) rest
      else compact_loop (before ++ [ref]) r rest
  end.
Definition _compact runs : list (rle_pair T) :=
  match runs with [] => [] | ref :: rest => compact_loop [] ref rest end.

Definition replace_values (old_value new_value : T) b : basic_rle T :=
  mkRle (_compact (map (fun r => if decide (value r = old_value) then mkRun new_value (length_ r) else r) (_runs b)))
        (_total_length b).

(** [None]: [Expects] fails. *)
Definition resize_trailing_extent (new_size : Z) b : option (basic_rle T) :=
  if new_size =? 0 then Some (mkRle [] 0)
  else if new_size <? _total_length b then
    let '(run, pos, _) := scan (_runs b) 0 0 (new_size - 1) in
    r ← _runs b !! run;
    Some (mkRle (take (run + 1) (<[run := with_length (wrap w (pos + 1)) r]> (_runs b))) new_size)
  else if new_size >? _total_length b then
    r ← last (_runs b);
    Some (mkRle (<[(length (_runs b) - 1)%nat := with_length (wrap w (length_ r + (new_size - _total_length b))) r]> (_runs b))
                new_size)
  else Some (mkRle (_runs b) new_size).

(** ** Replacement *)

(** The end index; [None] if it throws. *)
Definition _check_indices (start_index end_index : Z) b : option Z :=
  let end_index := if end_index >? _total_length b then _total_length b else end_index in
  if start_index >? end_index then None else Some end_index.

(** Shortening the runs at both ends of the range: [begin] and [end] after it. *)
Definition adjust runs (begin : nat) (begin_pos : Z) (end_ : nat) (end_pos : Z) : option (list (rle_pair T) * nat) :=
  '(runs, begin) ← (if negb (begin_pos =? 0) then
                      r ← runs !! begin;
                      Some (<[begin := with_length begin_pos r]> runs, S begin)
                    else Some (runs, begin));
  runs ← (if negb (end_pos =? 0) then
            r ← runs !! end_;
            Some (<[end_ := with_length (wrap w (length_ r - end_pos)) r]> runs)
          else Some runs);
  Some (runs, begin).

(** The run before the range. *)
Definition previous (begin : nat) (begin_pos : Z) : option nat :=
  if negb (begin_pos =? 0) then Some begin else prev begin.

(** [_replace_unchecked] without replacements. *)
Definition remove_range (start_index end_index : Z) b (begin : nat) (begin_pos : Z) (end_ : nat) (end_pos : Z) :
    option (basic_rle T) :=
  '(runs, begin, begin_pos, end_pos) ←
    (if negb (start_index =? 0) && negb (end_index =? _total_length b) then
       p ← previous begin begin_pos;
       r ← _runs b !! p;
       e ← _runs b !! end_;
       if decide (value r = value e)
       then let len := wrap w (length_ e - (end_pos - (if negb (begin_pos =? 0) then begin_pos else length_ r))) in
            Some (<[end_ := with_length len e]> (_runs b), p, 0, 0)
       else Some (_runs b, begin, begin_pos, end_pos)
     else Some (_runs b, begin, begin_pos, end_pos));
  '(runs, begin) ← adjust runs begin begin_pos end_ end_pos;
  if (begin <=? end_)%nat
  then Some (mkRle (take begin runs ++ drop end_ runs) (wrap w (_total_length b - wrap w (end_index - start_index))))
  else None.

(** [Step1]: the additional length, [begin] and [begin_pos], then the same at the other end. *)
Definition detect_begin (start_index : Z) replacements b (begin : nat) (begin_pos : Z) : option (Z * nat * Z) :=
  if negb (start_index =? 0) then
    p ← previous begin begin_pos;
    r ← _runs b !! p;
    front ← head replacements;
    if decide (value r = value front)
    then Some (if negb (begin_pos =? 0) then begin_pos else length_ r, p, 0)
    else Some (0, begin, begin_pos)
  else Some (0, begin, begin_pos).
Definition detect_end (end_index : Z) replacements b (end_ : nat) (end_pos : Z) : option (Z * nat * Z) :=
  if negb (end_index =? _total_length b) then
    e ← _runs b !! end_;
    back ← last replacements;
    if decide (value e = value back)
    then Some (wrap w (length_ e - end_pos), S end_, 0)
    else Some (0, end_, end_pos)
  else Some (0, end_, end_pos).

(** [Step2]: the trailer and [end_pos]. *)
Definition split_run b (begin : nat) (begin_pos : Z) (end_ : nat) (end_pos : Z) : option (option (rle_pair T) * Z) :=
  if (begin =? end_)%nat && negb (begin_pos =? 0) then
    r ← _runs b !! begin;
    Some (Some (mkRun (value r) (wrap w (length_ r - end_pos))), 0)
  else Some (None, end_pos).

(** [mid_insertion_trailer ? 1 : 0]. *)
Definition trailer_space (trailer : option (rle_pair T)) : nat := match trailer with Some _ => 1 | None => 0 end.

(** [Step4] to [Step6]: the replacements and the trailer take the place of the runs from
    [begin] to [end]. [inhabitant] is the default value of [value_type]. *)
Definition splice `{Inhabited T} runs (begin end_ : nat) replacements (trailer : option (rle_pair T)) : list (rle_pair T) :=
  let available_space := if (begin <? end_)%nat then (end_ - begin)%nat else 0%nat in
  let required_space := (length replacements + trailer_space trailer)%nat in
  let direct := Nat.min available_space (length replacements) in
  (* Step 4 *)
  let runs := take begin runs ++ take direct replacements ++ drop (begin + direct) runs in
  let copied := (begin + direct)%nat in
  if (required_space <=? available_space)%nat
  then (* Step 6.1 *) take copied runs ++ drop end_ runs
  else match trailer with
       | Some trailer =>
           let runs := take copied runs ++ replicate (required_space - available_space) (mkRun inhabitant 0) ++ drop copied runs in
           (* Steps 6.2 and 5 *)
           take begin runs ++ drop direct replacements ++ [trailer]
             ++ drop (begin + (length replacements - direct) + 1) runs
       | None => (* Step 6.2 *) take copied runs ++ drop direct replacements ++ drop copied runs
       end.

(** [it->length += additional], if there is any. *)
Definition add_length (additional : Z) (i : nat) runs : option (list (rle_pair T)) :=
  if negb (additional =? 0) then
    r ← runs !! i;
    Some (<[i := with_length (wrap w (length_ r + additional)) r]> runs)
  else Some runs.

Definition _replace_unchecked `{Inhabited T} (start_index end_index : Z) replacements b : option (basic_rle T) :=
  let '(begin, begin_pos, total) := scan (_runs b) 0 0 start_index in
  let '(end_, end_pos, _) := scan (drop begin (_runs b)) begin total end_index in
  if (length replacements =? 0)%nat then remove_range start_index end_index b begin begin_pos end_ end_pos
  else
    '(begin_additional_length, begin, begin_pos) ← detect_begin start_index replacements b begin begin_pos;
    '(end_additional_length, end_, end_pos) ← detect_end end_index replacements b end_ end_pos;
    '(trailer, end_pos) ← split_run b begin begin_pos end_ end_pos;
    (* Step 3 *)
    '(runs, begin) ← adjust (_runs b) begin begin_pos end_ end_pos;
    let runs := splice runs begin end_ replacements trailer in
    (* Step 7 *)
    runs ← add_length begin_additional_length begin runs;
    runs ← add_length end_additional_length (begin + (length replacements + trailer_space trailer) - 1)%nat runs;
    (* Step 8 *)
    Some (mkRle runs (sum_lengths (wrap w (_total_length b - (end_index - start_index))) replacements)).

(** [replace]: the outcome of the checked operation. *)
Definition replace `{Inhabited T} (start_index end_index : Z) replacements b : Outcome (basic_rle T) :=
  match _check_indices start_index end_index b with
  | None => Throw
  | Some end_index =>
      match _replace_unchecked start_index end_index replacements b with
      | Some b => Ret b
      | None => UB
      end
  end.
Definition replace_value `{Inhabited T} (start_index end_index : Z) (v : T) b : Outcome (basic_rle T) :=
  match _check_indices start_index end_index b with
  | None => Throw
  | Some end_index =>
      match _replace_unchecked start_index end_index [mkRun v (wrap w (end_index - start_index))] b with
      | Some b => Ret b
      | None => UB
      end
  end.
End rle.

Section examples.
Abbreviation runs l := (map (fun '(v, n) => mkRun v n) l).
Definition sample : basic_rle Z := of_runs 16 (runs [(1, 3); (2, 3); (3, 3)]).
(** The examples of the source. *)
Example replace_overview :
  replace 16 2 5 (runs [(1, 2); (4, 1); (2, 1)]) sample = Ret (of_runs 16 (runs [(1, 4); (4, 1); (2, 2); (3, 3)])).
Proof. reflexivity. Qed.
Example replace_splits :
  replace 16 4 5 (runs [(1, 2)]) sample = Ret (of_runs 16 (runs [(1, 3); (2, 1); (1, 2); (2, 1); (3, 3)])).
Proof. reflexivity. Qed.
Example replace_joins :
  replace 16 2 4 (runs [(1, 2)]) (of_runs 16 (runs [(1, 2); (2, 2); (1, 2)])) = Ret (of_runs 16 (runs [(1, 6)])).
Proof. reflexivity. Qed.
Example replace_removes :
  replace 16 2 7 [] sample = Ret (of_runs 16 (runs [(1, 2); (3, 2)])).
Proof. reflexivity. Qed.
End examples.
