(* ===== verification/RleTheorems.v ===== *)
(** * Run-length encoded vectors refine plain ones

    The operations of [Rle.v] against the vector of values a list of runs stands for. *)
From S2P Require Import Prelude.
From S2P Require Import Rle.

(** ** The vector behind the runs *)
Section spec.
Context {T : Type} `{EqDecision T}.
Implicit Types (runs : list (rle_pair T)) (r : rle_pair T).

Definition expand runs : list T := concat (map (fun r => replicate (Z.to_nat (length_ r)) (value r)) runs).
Fixpoint total runs : Z := match runs with [] => 0 | r :: runs => length_ r + total runs end.
Definition positive runs : Prop := Forall (fun r => 0 < length_ r) runs.

(** No two neighbours have the same value. *)
Fixpoint compact runs : Prop :=
  match runs with
  | r :: (s :: _) as rest => value r <> value s /\ compact rest
  | _ => True
  end.

Lemma total_app a b : total (a ++ b) = total a + total b.
Proof. induction a; cbn; lia. Qed.

Lemma total_nonneg runs : positive runs -> 0 <= total runs.
Proof. induction 1; cbn; lia. Qed.

Lemma total_pos runs : positive runs -> total runs = 0 -> runs = [].
Proof. destruct 1 as [|r runs Hr Hs]; [done|]. cbn. pose proof (total_nonneg runs Hs). lia. Qed.

Lemma expand_app a b : expand (a ++ b) = expand a ++ expand b.
Proof. unfold expand. by rewrite map_app, concat_app. Qed.

Lemma length_expand runs : positive runs -> Z.of_nat (length (expand runs)) = total runs.
Proof.
  induction 1 as [|r runs Hr Hs IH]; [done|]. change (r :: runs) with ([r] ++ runs). rewrite expand_app, length_app, Nat2Z.inj_add, IH.
  unfold expand. cbn. rewrite app_nil_r, length_replicate. lia.
Qed.

(** *** Prefixes and suffixes *)
Fixpoint take_runs (n : Z) runs : list (rle_pair T) :=
  match runs with
  | [] => []
  | r :: runs => if n <=? 0 then [] else if n <? length_ r then [with_length n r] else r :: take_runs (n - length_ r) runs
  end.
Fixpoint drop_runs (n : Z) runs : list (rle_pair T) :=
  match runs with
  | [] => []
  | r :: runs => if n <=? 0 then r :: runs
                 else if n <? length_ r then with_length (length_ r - n) r :: runs else drop_runs (n - length_ r) runs
  end.

Lemma take_runs_0 runs n : n <= 0 -> take_runs n runs = [].
Proof. intros Hn. destruct runs; [done|]. cbn. destruct (Z.leb_spec n 0); [done|lia]. Qed.

Lemma drop_runs_0 runs n : n <= 0 -> drop_runs n runs = runs.
Proof. intros Hn. destruct runs; [done|]. cbn. destruct (Z.leb_spec n 0); [done|lia]. Qed.

Lemma expand_cons r runs : expand (r :: runs) = replicate (Z.to_nat (length_ r)) (value r) ++ expand runs.
Proof. done. Qed.

Lemma expand_take_runs n runs : positive runs -> expand (take_runs n runs) = take (Z.to_nat n) (expand runs).
Proof.
  intros Hp. revert n. induction Hp as [|r runs Hr Hs IH]; intros n; [by destruct (Z.to_nat n)|].
  cbn [take_runs]. rewrite expand_cons. destruct (Z.leb_spec n 0); [|destruct (Z.ltb_spec n (length_ r))].
  - by replace (Z.to_nat n) with 0%nat by lia.
  - rewrite take_app_le by (rewrite length_replicate; lia). rewrite take_replicate, Nat.min_l by lia.
    unfold expand. cbn. by rewrite app_nil_r.
  - rewrite expand_cons, IH, take_app_ge by (rewrite length_replicate; lia). rewrite length_replicate.
    do 2 f_equal. lia.
Qed.

Lemma expand_drop_runs n runs : positive runs -> expand (drop_runs n runs) = drop (Z.to_nat n) (expand runs).
Proof.
  intros Hp. revert n. induction Hp as [|r runs Hr Hs IH]; intros n; [by destruct (Z.to_nat n)|].
  cbn [drop_runs]. rewrite expand_cons. destruct (Z.leb_spec n 0); [|destruct (Z.ltb_spec n (length_ r))].
  - by replace (Z.to_nat n) with 0%nat by lia.
  - rewrite drop_app_le by (rewrite length_replicate; lia). rewrite drop_replicate, expand_cons. cbn [with_length length_ value].
    do 2 f_equal. lia.
  - rewrite IH, drop_app_ge by (rewrite length_replicate; lia). rewrite length_replicate. f_equal. lia.
Qed.

Lemma take_runs_positive n runs : positive runs -> positive (take_runs n runs).
Proof.
  intros Hp. revert n. induction Hp as [|r runs Hr Hs IH]; intros n; [constructor|]. cbn [take_runs].
  destruct (Z.leb_spec n 0); [constructor|]. destruct (Z.ltb_spec n (length_ r)); [by repeat constructor|].
  constructor; [done|apply IH].
Qed.

Lemma drop_runs_positive n runs : positive runs -> positive (drop_runs n runs).
Proof.
  intros Hp. revert n. induction Hp as [|r runs Hr Hs IH]; intros n; [constructor|]. cbn [drop_runs].
  destruct (Z.leb_spec n 0); [by constructor|]. destruct (Z.ltb_spec n (length_ r)); [|apply IH].
  constructor; [cbn; lia|done].
Qed.

Lemma compact_cons r runs :
  compact (r :: runs) <-> compact runs /\ (forall s, head runs = Some s -> value r <> value s).
Proof.
  destruct runs as [|s runs]; cbn; split; [by split|done| |].
  - intros [Hv Hc]. split; [done|]. by intros ? [= <-].
  - intros [Hc Hv]. split; [by apply Hv|done].
Qed.

Lemma take_runs_head n runs s : head (take_runs n runs) = Some s -> exists s', head runs = Some s' /\ value s = value s'.
Proof.
  destruct runs as [|r runs]; [done|]. cbn [take_runs]. destruct (Z.leb_spec n 0); [done|].
  destruct (Z.ltb_spec n (length_ r)); cbn; intros [= <-]; eauto.
Qed.

Lemma take_runs_compact n runs : compact runs -> compact (take_runs n runs).
Proof.
  revert n. induction runs as [|r runs IH]; intros n; [done|]. intros [Hc Hr]%compact_cons. cbn [take_runs].
  destruct (Z.leb_spec n 0); [done|]. destruct (Z.ltb_spec n (length_ r)); [done|]. apply compact_cons.
  split; [by apply IH|]. intros s (s' & Hs & ->)%take_runs_head. by apply Hr.
Qed.

Lemma drop_runs_compact n runs : compact runs -> compact (drop_runs n runs).
Proof.
  revert n. induction runs as [|r runs IH]; intros n; [done|]. intros Hc. cbn [drop_runs].
  destruct (Z.leb_spec n 0); [done|]. destruct (Z.ltb_spec n (length_ r)); [|apply compact_cons in Hc as [Hc _]; by apply IH].
  apply compact_cons in Hc as [Hc Hr]. apply compact_cons. done.
Qed.

(** *** Joining at the boundary *)
Definition join (X Y : list (rle_pair T)) : list (rle_pair T) :=
  match last X, Y with
  | Some x, y :: Y' =>
      if decide (value x = value y) then removelast X ++ with_length (length_ y + length_ x) y :: Y' else X ++ Y
  | _, _ => X ++ Y
  end.

Lemma join_merge P x y Y : value x = value y ->
  join (P ++ [x]) (y :: Y) = P ++ with_length (length_ y + length_ x) y :: Y.
Proof. intros Hv. unfold join. rewrite last_snoc, decide_True, removelast_last by done. done. Qed.

Lemma join_app X Y :
  (forall x y, last X = Some x -> head Y = Some y -> value x <> value y) -> join X Y = X ++ Y.
Proof.
  intros HXY. unfold join. destruct (last X) as [x|] eqn:Ex; [|done]. destruct Y as [|y Y]; [done|].
  rewrite decide_False; [done|]. by apply HXY.
Qed.

Lemma join_cases X Y :
  join X Y = X ++ Y /\ (forall x y, last X = Some x -> head Y = Some y -> value x <> value y)
  \/ exists P x y Y', X = P ++ [x] /\ Y = y :: Y' /\ value x = value y
        /\ join X Y = P ++ with_length (length_ y + length_ x) y :: Y'.
Proof.
  destruct (last X) as [x|] eqn:Ex; [|left; split; [apply join_app; intros x y Hx; by rewrite Ex in Hx|done]].
  destruct Y as [|y Y]; [left; split; [apply join_app|]; done|].
  apply last_Some in Ex as [P ->]. destruct (decide (value x = value y)) as [Hv|Hv].
  - right. exists P, x, y, Y. split_and!; [done..|by apply join_merge].
  - left. assert (forall x0 y0, last (P ++ [x]) = Some x0 -> head (y :: Y) = Some y0 -> value x0 <> value y0).
    { rewrite last_snoc. by intros ? ? [= <-] [= <-]. }
    split; [by apply join_app|]. by intros ? ? [= <-] [= <-].
Qed.

Definition nonneg runs : Prop := Forall (fun r => 0 <= length_ r) runs.
Lemma positive_nonneg runs : positive runs -> nonneg runs.
Proof. intros Hp. eapply Forall_impl; [exact Hp|]. cbn. lia. Qed.

Lemma expand_join_nonneg X Y : nonneg X -> nonneg Y -> expand (join X Y) = expand X ++ expand Y.
Proof.
  intros HX HY. destruct (join_cases X Y) as [[-> _]|(P & x & y & Y' & -> & -> & Hv & ->)]; [apply expand_app|].
  apply Forall_app in HX as [_ Hx]. rewrite Forall_singleton in Hx. inversion HY; subst.
  rewrite !expand_app, !expand_cons, <- !app_assoc. f_equal. unfold expand at 2. cbn [map concat app].
  rewrite app_assoc. f_equal. cbn [with_length length_ value]. rewrite Z2Nat.inj_add by lia.
  rewrite Nat.add_comm, replicate_add, Hv. done.
Qed.

Lemma expand_join X Y : positive X -> positive Y -> expand (join X Y) = expand X ++ expand Y.
Proof. intros HX HY. apply expand_join_nonneg; by apply positive_nonneg. Qed.

Lemma positive_join X Y : positive X -> positive Y -> positive (join X Y).
Proof.
  intros HX HY. destruct (join_cases X Y) as [[-> _]|(P & x & y & Y' & -> & -> & Hv & ->)]; [by apply Forall_app|].
  apply Forall_app in HX as [HP Hx]. rewrite Forall_singleton in Hx. inversion HY; subst.
  apply Forall_app. split; [done|]. constructor; [cbn; lia|done].
Qed.

Lemma total_join X Y : total (join X Y) = total X + total Y.
Proof.
  destruct (join_cases X Y) as [[-> _]|(P & x & y & Y' & -> & -> & Hv & ->)]; rewrite !total_app; [done|]. cbn. lia.
Qed.

Lemma compact_app X Y : compact X -> compact Y ->
  (forall x y, last X = Some x -> head Y = Some y -> value x <> value y) -> compact (X ++ Y).
Proof.
  induction X as [|r X IH]; [done|]. intros [HX Hr]%compact_cons HY HXY. cbn [app]. apply compact_cons. split.
  - apply IH; [done|done|]. intros x y Hx. apply HXY. destruct X; [done|]. by rewrite last_cons_cons.
  - intros s Hs. destruct X as [|s' X]; [by apply (HXY r s)|]. by apply Hr.
Qed.

Lemma compact_app_inv X Y : compact (X ++ Y) -> compact X /\ compact Y.
Proof.
  induction X as [|r X IH]; [done|]. cbn [app]. intros [Hc Hr]%compact_cons. apply IH in Hc as [HX HY].
  split; [|done]. apply compact_cons. split; [done|]. intros s Hs. apply Hr. by destruct X.
Qed.

Lemma compact_join X Y : compact X -> compact Y -> compact (join X Y).
Proof.
  intros HX HY. destruct (join_cases X Y) as [[-> Hne]|(P & x & y & Y' & -> & -> & Hv & ->)]; [by apply compact_app|].
  apply compact_app.
  - by apply compact_app_inv in HX as [? _].
  - apply compact_cons in HY as [? ?]. by apply compact_cons.
  - intros a b Ha [= <-]. cbn [with_length value]. rewrite <- Hv. apply last_Some in Ha as [Q ->].
    rewrite <- app_assoc in HX. apply compact_app_inv in HX as [_ HX]. by destruct HX.
Qed.
End spec.

(** ** Scanning *)
Section scanning.
Context {T : Type} `{EqDecision T} (w : Z).
Implicit Types (runs : list (rle_pair T)) (r : rle_pair T).

(** The run and the offset in it that belong to an index; the end of the runs belongs to the total length. *)
Definition position runs (index : Z) (it : nat) (pos : Z) : Prop :=
  (it = length runs /\ pos = 0 /\ index = total runs)
  \/ exists A r D, runs = A ++ r :: D /\ it = length A /\ 0 <= pos < length_ r /\ index = total A + pos.

Lemma position_cons r runs index it pos :
  position runs index it pos -> position (r :: runs) (length_ r + index) (S it) pos.
Proof.
  intros [(-> & -> & ->)|(A & s & D & -> & -> & Hpos & ->)]; [by left|].
  right. exists (r :: A), s, D. cbn. split_and!; try done; lia.
Qed.

Lemma scan_position rest it t index :
  positive rest -> 0 <= t -> t + total rest < 2 ^ w -> t <= index <= t + total rest ->
  exists it' pos, scan w rest it t index = ((it + it')%nat, pos, t + total (take it' rest))
    /\ position rest (index - t) it' pos.
Proof.
  intros Hp. revert it t. induction Hp as [|r rest Hr Hs IH]; intros it t Ht Hw Hi; cbn [scan total] in *.
  - exists 0%nat, 0. rewrite Nat.add_0_r, Z.add_0_r. split; [done|]. left. cbn. split_and!; try done. lia.
  - pose proof (total_nonneg rest Hs). rewrite (wrap_small w (t + length_ r)) by lia.
    destruct (Z.gtb_spec (t + length_ r) index).
    + exists 0%nat, (index - t). rewrite Nat.add_0_r, (wrap_small w (index - t)) by lia. cbn [take total].
      rewrite Z.add_0_r. split; [done|].
      right. exists [], r, rest. cbn. split_and!; try done; lia.
    + destruct (IH (S it) (t + length_ r)) as (it' & pos & Hscan & Hpos); [lia..|].
      exists (S it'), pos. rewrite Hscan. cbn [take total].
      split; [by rewrite Nat.add_succ_r, Z.add_assoc|].
      replace (index - t) with (length_ r + (index - (t + length_ r))) by lia. by apply position_cons.
Qed.

Lemma position_app A runs index it pos :
  position runs index it pos -> position (A ++ runs) (total A + index) (length A + it) pos.
Proof.
  induction A as [|r A IH]; intros Hp; [done|]. cbn [app total length]. rewrite <- Z.add_assoc. by apply position_cons, IH.
Qed.

(** Both scans of an operation. *)
Lemma scans runs start end_ : positive runs -> total runs < 2 ^ w -> 0 <= start <= end_ -> end_ <= total runs ->
  exists begin begin_pos t e end_pos t2,
    scan w runs 0 0 start = (begin, begin_pos, t)
    /\ scan w (drop begin runs) begin t end_ = (e, end_pos, t2)
    /\ position runs start begin begin_pos /\ position runs end_ e end_pos
    /\ (begin <= e <= length runs)%nat /\ (begin = e -> begin_pos <= end_pos).
Proof.
  intros Hp Hw Hs He. destruct (scan_position runs 0 0 start) as (begin & bp & Hscan & Hpos); [done|lia..|].
  rewrite Z.sub_0_r in Hpos. cbn [Nat.add] in Hscan.
  assert (Htake : 0 <= total (take begin runs) <= start).
  { split; [apply total_nonneg; by apply Forall_take|].
    destruct Hpos as [(-> & -> & ->)|(A & r & D & -> & -> & ? & ->)]; [by rewrite firstn_all|]. rewrite take_app_length. lia. }
  assert (Hsum : total runs = total (take begin runs) + total (drop begin runs)) by (by rewrite <- total_app, take_drop).
  destruct (scan_position (drop begin runs) begin (total (take begin runs)) end_) as (e & ep & Hscan2 & Hpos2);
    [by apply Forall_drop|lia..|].
  assert (Hbl : (begin <= length runs)%nat).
  { destruct Hpos as [(-> & _)|(A & r & D & -> & -> & _)]; [done|]. rewrite length_app. lia. }
  apply (position_app (take begin runs)) in Hpos2. rewrite take_drop, length_take, Nat.min_l in Hpos2 by done.
  replace (total (take begin runs) + (end_ - total (take begin runs))) with end_ in Hpos2 by lia.
  exists begin, bp, (0 + total (take begin runs)), (begin + e)%nat, ep, (total (take begin runs) + total (take e (drop begin runs))).
  split_and!; [done|by rewrite Z.add_0_l|done|done|lia| |].
  - destruct Hpos2 as [(-> & _)|(A & r & D & -> & -> & _)]; [done|]. rewrite length_app. lia.
  - intros Heq. rewrite <- Heq in Hpos2.
    destruct Hpos as [(E1 & -> & ->)|(A & r & D & E1 & -> & ? & ->)], Hpos2 as [(E2 & -> & ->)|(A2 & r2 & D2 & E2 & E3 & ? & ->)]; try lia.
    + subst runs. rewrite length_app in E2. cbn in E2. lia.
    + rewrite E1 in E2. apply app_inj_1 in E2 as [-> _]; [lia|done].
Qed.

(** What the position of an index says about the prefix and the suffix. *)
Lemma position_take runs index it pos : positive runs -> position runs index it pos ->
  if pos =? 0 then take_runs index runs = take it runs
  else exists r, runs !! it = Some r /\ 0 < pos < length_ r /\ take_runs index runs = take it runs ++ [with_length pos r].
Proof.
  intros Hp Hpos. destruct Hpos as [(-> & -> & ->)|(A & r & D & -> & -> & Hpos & ->)].
  - cbn [Z.eqb]. rewrite firstn_all. induction Hp as [|r runs Hr Hs IH]; [done|]. cbn [take_runs total].
    pose proof (total_nonneg runs Hs). destruct (Z.leb_spec (length_ r + total runs) 0); [lia|].
    destruct (Z.ltb_spec (length_ r + total runs) (length_ r)); [lia|].
    f_equal. replace (length_ r + total runs - length_ r) with (total runs) by lia. exact IH.
  - rewrite take_app_length, list_lookup_middle by done.
    assert (Htake : take_runs (total A + pos) (A ++ r :: D) = A ++ (if pos =? 0 then [] else [with_length pos r])).
    { apply Forall_app in Hp as [HA _]. induction HA as [|a A Ha HA IH]; cbn [app total take_runs].
      - rewrite Z.add_0_l. destruct (Z.leb_spec pos 0), (Z.eqb_spec pos 0); try lia; [done|]. destruct (Z.ltb_spec pos (length_ r)); [done|lia].
      - pose proof (total_nonneg A HA). destruct (Z.leb_spec (length_ a + total A + pos) 0); [lia|].
        destruct (Z.ltb_spec (length_ a + total A + pos) (length_ a)); [lia|].
        f_equal. replace (length_ a + total A + pos - length_ a) with (total A + pos) by lia. exact IH. }
    rewrite Htake. destruct (Z.eqb_spec pos 0); [apply app_nil_r|]. exists r. split_and!; try done; lia.
Qed.

Lemma position_drop runs index it pos : positive runs -> position runs index it pos ->
  if pos =? 0 then drop_runs index runs = drop it runs
  else exists r, runs !! it = Some r /\ 0 < pos < length_ r
         /\ drop_runs index runs = with_length (length_ r - pos) r :: drop (S it) runs.
Proof.
  intros Hp Hpos. destruct Hpos as [(-> & -> & ->)|(A & r & D & -> & -> & Hpos & ->)].
  - cbn [Z.eqb]. rewrite drop_all. induction Hp as [|r runs Hr Hs IH]; [done|]. cbn [drop_runs total].
    pose proof (total_nonneg runs Hs). destruct (Z.leb_spec (length_ r + total runs) 0); [lia|].
    destruct (Z.ltb_spec (length_ r + total runs) (length_ r)); [lia|].
    replace (length_ r + total runs - length_ r) with (total runs) by lia. exact IH.
  - rewrite drop_app_length, list_lookup_middle by done.
    replace (drop (S (length A)) (A ++ r :: D)) with D
      by (rewrite drop_app_ge by lia; by replace (S (length A) - length A)%nat with 1%nat by lia).
    assert (Hdrop : drop_runs (total A + pos) (A ++ r :: D) = if pos =? 0 then r :: D else with_length (length_ r - pos) r :: D).
    { apply Forall_app in Hp as [HA _]. induction HA as [|a A Ha HA IH]; cbn [app total drop_runs].
      - rewrite Z.add_0_l. destruct (Z.leb_spec pos 0), (Z.eqb_spec pos 0); try lia; [done|]. destruct (Z.ltb_spec pos (length_ r)); [done|lia].
      - pose proof (total_nonneg A HA). destruct (Z.leb_spec (length_ a + total A + pos) 0); [lia|].
        destruct (Z.ltb_spec (length_ a + total A + pos) (length_ a)); [lia|].
        replace (length_ a + total A + pos - length_ a) with (total A + pos) by lia. exact IH. }
    rewrite Hdrop. destruct (Z.eqb_spec pos 0); [done|]. exists r. split_and!; try done; lia.
Qed.

Lemma position_start runs index it pos : positive runs -> position runs index it pos ->
  index = 0 <-> it = 0%nat /\ pos = 0.
Proof.
  intros Hp [(-> & -> & ->)|(A & r & D & -> & -> & Hpos & ->)].
  - split; [intros ->%total_pos; done|]. intros [?%length_zero_iff_nil _]. by subst.
  - apply Forall_app in Hp as [HA _]. pose proof (total_nonneg A HA). split.
    + intros Hz. rewrite (total_pos A HA) by lia. cbn. lia.
    + intros [->%length_zero_iff_nil ->]. done.
Qed.

Lemma position_end runs index it pos : positive runs -> position runs index it pos ->
  index = total runs <-> it = length runs.
Proof.
  intros Hp [(-> & -> & ->)|(A & r & D & -> & -> & Hpos & ->)]; [done|].
  apply Forall_app in Hp as [_ HD]. inversion HD as [|? ? Hr HD']; subst. pose proof (total_nonneg D HD').
  rewrite total_app, length_app. cbn. split; lia.
Qed.
End scanning.

(** ** Replacement *)
Section replacement.
Context {T : Type} `{EqDecision T, Inhabited T} (w : Z).
Implicit Types (runs replacements : list (rle_pair T)) (r : rle_pair T).

Lemma take_insert_snoc {A} (l : list A) i x y : l !! i = Some y -> take (S i) (<[i := x]> l) = take i l ++ [x].
Proof.
  intros Hi%lookup_lt_Some. rewrite (take_S_r _ _ x); [|by apply list_lookup_insert_eq].
  by rewrite take_insert_ge by lia.
Qed.

Lemma drop_insert_cons {A} (l : list A) i x y : l !! i = Some y -> drop i (<[i := x]> l) = x :: drop (S i) l.
Proof.
  intros Hi%lookup_lt_Some. rewrite (drop_S _ x); [|by apply list_lookup_insert_eq].
  by rewrite drop_insert_lt by lia.
Qed.

(** What is left of the runs before the range: those before [begin], and the first part of the run at it. *)
Definition kept_before runs (P : list (rle_pair T)) (begin : nat) (begin_pos : Z) : Prop :=
  (begin_pos = 0 /\ P = take begin runs)
  \/ exists r, begin_pos <> 0 /\ runs !! begin = Some r /\ P = take begin runs ++ [with_length begin_pos r].
(** What is left of the runs after the range. *)
Definition kept_after runs (S : list (rle_pair T)) (end_ : nat) (end_pos : Z) : Prop :=
  (end_pos = 0 /\ S = drop end_ runs)
  \/ exists r, end_pos <> 0 /\ runs !! end_ = Some r /\ 0 <= length_ r - end_pos < 2 ^ w
       /\ S = with_length (length_ r - end_pos) r :: drop (1 + end_) runs.

Lemma adjust_spec runs P S begin begin_pos end_ end_pos :
  kept_before runs P begin begin_pos -> kept_after runs S end_ end_pos ->
  (begin <= end_ <= length runs)%nat -> (begin = end_ -> begin_pos = 0) ->
  exists runs', adjust w runs begin begin_pos end_ end_pos = Some (runs', length P)
    /\ take (length P) runs' = P /\ drop end_ runs' = S /\ (length P <= end_)%nat /\ length runs' = length runs.
Proof.
  intros HP HS Hle Hne. unfold adjust.
  assert (exists runs', (if negb (begin_pos =? 0) then
      r ← runs !! begin; Some (<[begin := with_length begin_pos r]> runs, Datatypes.S begin) else Some (runs, begin)) = Some (runs', length P)
      /\ take (length P) runs' = P /\ (length P <= end_)%nat /\ length runs' = length runs
      /\ runs' !! end_ = runs !! end_ /\ drop end_ runs' = drop end_ runs /\ drop (1 + end_) runs' = drop (1 + end_) runs)
    as (runs' & -> & Htake & Hlen & Hlen' & Hlk & Hd & Hd').
  { destruct HP as [[-> ->]|(r & Hz & Hr & ->)].
    - exists runs. cbn [negb Z.eqb]. rewrite length_take, Nat.min_l by lia. split_and!; try done; lia.
    - destruct (Z.eqb_spec begin_pos 0) as [|_]; [done|]. cbn [negb]. rewrite Hr. cbn.
      assert (begin <> end_) by (intros ?; by apply Hz, Hne).
      exists (<[begin := with_length begin_pos r]> runs). rewrite length_app, length_take, Nat.min_l by lia.
      cbn [length]. rewrite Nat.add_1_r. split_and!; [done|by eapply take_insert_snoc|lia|by rewrite length_insert| | |].
      + by rewrite list_lookup_insert_ne by lia.
      + by rewrite drop_insert_lt by lia.
      + by rewrite (drop_insert_lt _ (Datatypes.S end_)) by lia. }
  cbn. destruct HS as [[-> ->]|(r & Hz & Hr & Hb & ->)].
  - exists runs'. cbn [negb Z.eqb]. cbn. split_and!; done.
  - destruct (Z.eqb_spec end_pos 0) as [|_]; [done|]. cbn [negb]. rewrite Hlk, Hr. cbn. rewrite wrap_small by done.
    eexists. split; [done|]. rewrite take_insert_ge by lia. rewrite length_insert.
    split_and!; try done. erewrite drop_insert_cons by (by rewrite Hlk). f_equal. exact Hd'.
Qed.

Definition option_list {A} (o : option A) : list A := match o with Some x => [x] | None => [] end.

Lemma splice_spec runs begin end_ replacements trailer :
  (begin <= length runs)%nat -> (end_ <= length runs)%nat -> (trailer <> None -> (end_ <= begin)%nat) -> replacements <> [] ->
  splice runs begin end_ replacements trailer
  = take begin runs ++ replacements ++ option_list trailer ++ drop (Nat.max begin end_) runs.
Proof.
  intros Hb He Ht Hr. unfold splice. assert (length replacements <> 0)%nat by (by destruct replacements).
  set (av := if (begin <? end_)%nat then _ else _). set (direct := Nat.min av (length replacements)).
  assert (Hav : av = (Nat.max begin end_ - begin)%nat) by (subst av; destruct (Nat.ltb_spec begin end_); lia).
  assert (Hcopy : take (begin + direct) (take begin runs ++ take direct replacements ++ drop (begin + direct) runs)
                  = take begin runs ++ take direct replacements).
  { rewrite app_assoc, take_app_length'; [done|]. rewrite length_app, !length_take. lia. }
  assert (Hdrop : forall n, (begin + direct <= n)%nat ->
    drop n (take begin runs ++ take direct replacements ++ drop (begin + direct) runs) = drop n runs).
  { intros n Hn. rewrite app_assoc, drop_app_ge by (rewrite length_app, !length_take; lia).
    rewrite drop_drop. f_equal. rewrite length_app, !length_take. lia. }
  rewrite Hcopy. destruct (Nat.leb_spec (length replacements + trailer_space trailer) av) as [Hle|Hle].
  - destruct trailer; cbn [trailer_space option_list] in *; [assert (end_ <= begin)%nat by (by apply Ht); lia|].
    rewrite Hdrop by lia.
    rewrite (take_ge replacements) by lia. rewrite <- app_assoc. cbn [app].
    by rewrite Nat.max_r by lia.
  - destruct trailer as [t|]; cbn [trailer_space option_list] in *.
    + assert (av = 0%nat) by (assert (end_ <= begin)%nat by (by apply Ht); lia). assert (direct = 0%nat) by lia.
      replace direct with 0%nat in *. cbn [take drop app]. rewrite Nat.add_0_r, app_nil_r in *.
      rewrite take_app_length' by (rewrite length_take; lia). do 3 f_equal. rewrite Hdrop by lia.
      rewrite app_assoc, drop_app_ge by (rewrite length_app, length_take, length_replicate; lia).
      rewrite length_app, length_take, length_replicate, drop_drop. f_equal. lia.
    + rewrite Hdrop by lia. rewrite <- app_assoc, (app_assoc (take direct _)), take_drop. cbn [app]. do 3 f_equal. lia.
Qed.

(** How the runs before the range meet the first replacement: [additional] is what that one gains. *)
Definition meets_before (L P : list (rle_pair T)) replacements (additional : Z) : Prop :=
  (additional = 0 /\ P = L /\ forall x y, last L = Some x -> head replacements = Some y -> value x <> value y)
  \/ exists x, L = P ++ [x] /\ 0 < length_ x /\ additional = length_ x
       /\ forall y, head replacements = Some y -> value x = value y.
Definition meets_after (D S : list (rle_pair T)) replacements (additional : Z) : Prop :=
  (additional = 0 /\ S = D /\ forall x y, last replacements = Some x -> head D = Some y -> value x <> value y)
  \/ exists y, D = y :: S /\ 0 < length_ y /\ additional = length_ y
       /\ forall x, last replacements = Some x -> value x = value y.

Lemma add_length_before (L P : list (rle_pair T)) replacements S additional : replacements <> [] ->
  Forall (fun r => 0 <= length_ r) replacements ->
  meets_before L P replacements additional -> total L + total replacements < 2 ^ w -> 0 <= total P ->
  add_length w additional (length P) (P ++ replacements ++ S) = Some (join L replacements ++ S)
  /\ length (join L replacements) = (length P + length replacements)%nat.
Proof.
  intros Hne Hp [(-> & -> & Hd)|(x & -> & Hx & -> & Hv)] Hw HP.
  - rewrite (join_app L) by done. rewrite <- app_assoc, length_app. done.
  - destruct replacements as [|y rest]; [done|]. rewrite join_merge by (by apply Hv). unfold add_length.
    destruct (Z.eqb_spec (length_ x) 0); [lia|]. cbn [negb app]. rewrite list_lookup_middle by done. cbn [mbind option_bind].
    rewrite length_app. split; [|done]. inversion Hp as [|? ? Hy Hp']; subst.
    assert (0 <= total rest) by (clear -Hp'; induction Hp'; cbn; lia).
    rewrite total_app in Hw. cbn in Hw. rewrite wrap_small by lia.
    rewrite insert_app_r_alt, Nat.sub_diag by done. cbn. by rewrite <- app_assoc.
Qed.

Lemma last_join_value (X Y : list (rle_pair T)) : Y <> [] ->
  exists x y, last (join X Y) = Some x /\ last Y = Some y /\ value x = value y.
Proof.
  intros HY. destruct (exists_last HY) as (Q & y & ->).
  destruct (join_cases X (Q ++ [y])) as [[-> _]|(P & x & y' & Y' & -> & HY' & Hv & ->)].
  - exists y, y. by rewrite app_assoc, !last_snoc.
  - destruct Q as [|q Q]; injection HY' as <- <-.
    + exists (with_length (length_ y + length_ x) y), y. by rewrite last_snoc.
    + exists y, y. rewrite app_comm_cons, app_assoc, !last_snoc. done.
Qed.

Lemma add_length_after (X D S : list (rle_pair T)) replacements additional : replacements <> [] ->
  (exists x y, last X = Some x /\ last replacements = Some y /\ value x = value y) ->
  (forall x, last X = Some x -> 0 <= length_ x) ->
  meets_after D S replacements additional -> (forall x y, last X = Some x -> head D = Some y -> length_ x + length_ y < 2 ^ w) ->
  add_length w additional (length X - 1) (X ++ S) = Some (join X D).
Proof.
  intros Hne (x & b & Hx & Hb & Hxb) Hpos [(-> & -> & Hd)|(y & -> & Hy & -> & Hv)] Hw.
  - rewrite join_app; [done|]. intros x' y [= ->]%(eq_trans (eq_sym Hx)) Hy. rewrite Hxb. by apply Hd.
  - specialize (Hpos x Hx). specialize (Hw x y Hx eq_refl).
    apply last_Some in Hx as [Q ->]. rewrite join_merge by (rewrite Hxb; by apply Hv).
    unfold add_length. destruct (Z.eqb_spec (length_ y) 0); [lia|]. cbn [negb].
    rewrite length_app. cbn [length]. rewrite Nat.add_sub, <- app_assoc. cbn [app].
    rewrite list_lookup_middle by done. cbn [mbind option_bind].
    rewrite wrap_small by lia. rewrite insert_app_r_alt, Nat.sub_diag by done. cbn. unfold with_length.
    by rewrite Hxb, (Hv b Hb), Z.add_comm.
Qed.
End replacement.

Section replacing.
Context {T : Type} `{EqDecision T, Inhabited T} (w : Z).
Implicit Types (runs replacements : list (rle_pair T)) (r : rle_pair T) (b : basic_rle T).

(** The run before the range is the last one of the prefix. *)
Lemma previous_spec runs start begin begin_pos : positive runs -> position runs start begin begin_pos -> start <> 0 ->
  exists p r, previous begin begin_pos = Some p /\ runs !! p = Some r /\ (p <= begin)%nat
    /\ take_runs start runs = take p runs ++ [with_length (if negb (begin_pos =? 0) then begin_pos else length_ r) r]
    /\ 0 < (if negb (begin_pos =? 0) then begin_pos else length_ r).
Proof.
  intros Hp Hpos Hs. unfold previous. pose proof (position_take runs start begin begin_pos Hp Hpos) as Ht.
  pose proof (position_start runs start begin begin_pos Hp Hpos) as Hst.
  destruct (Z.eqb_spec begin_pos 0) as [->|Hz]; cbn [negb].
  - destruct begin as [|p]; [by destruct Hs; apply Hst|]. destruct (runs !! p) as [r|] eqn:Er.
    + exists p, r. rewrite Ht, (take_S_r _ _ r Er). destruct r. split_and!; [done..|lia|done|].
      eapply (Forall_lookup_1 _ _ _ _ Hp Er).
    + apply lookup_ge_None in Er. destruct Hpos as [(? & _)|(A & r & D & E & ? & _)]; [lia|].
      rewrite E, length_app in Er. cbn in Er. lia.
  - destruct Ht as (r & Hr & Hb & ->). exists begin, r. split_and!; [done..|lia].
Qed.

Lemma position_kept_before runs index it pos :
  positive runs -> position runs index it pos -> kept_before runs (take_runs index runs) it pos.
Proof.
  intros Hp Hpos. pose proof (position_take _ _ _ _ Hp Hpos) as Ht. unfold kept_before.
  destruct (Z.eqb_spec pos 0) as [->|Hz]; [by left|]. destruct Ht as (r & ? & _ & ?). right. by exists r.
Qed.

Lemma detect_begin_spec b start replacements begin begin_pos :
  positive (_runs b) -> position (_runs b) start begin begin_pos -> replacements <> [] ->
  exists additional begin' begin_pos' P, detect_begin start replacements b begin begin_pos = Some (additional, begin', begin_pos')
    /\ meets_before (take_runs start (_runs b)) P replacements additional /\ kept_before (_runs b) P begin' begin_pos'
    /\ (begin' <= begin)%nat /\ (begin_pos' <> 0 -> begin' = begin /\ begin_pos' = begin_pos).
Proof.
  intros Hp Hpos Hne. unfold detect_begin. destruct (Z.eqb_spec start 0) as [->|Hs]; cbn [negb].
  - apply (position_start _ _ _ _ Hp) in Hpos as [Hz _]. destruct (Hz eq_refl) as [-> ->].
    exists 0, 0%nat, 0, []. rewrite take_runs_0 by done. split_and!; [done|left|left|done|done]; done.
  - destruct (previous_spec _ _ _ _ Hp Hpos Hs) as (p & r & -> & Hr & Hle & Ht & Hl). cbn [mbind option_bind]. rewrite Hr.
    destruct replacements as [|y replacements]; [done|]. cbn [mbind option_bind head].
    destruct (decide (value r = value y)) as [Hv|Hv].
    + eexists _, p, 0, (take p (_runs b)). split_and!; [done| |by left|done|done].
      right. eexists. split_and!; [exact Ht|done|done|]. by intros ? [= <-].
    + exists 0, begin, begin_pos, (take_runs start (_runs b)). split_and!; [done| | |done|done].
      * left. split_and!; [done..|]. rewrite Ht, last_snoc. by intros ? ? [= <-] [= <-].
      * by apply position_kept_before.
Qed.

Lemma lookup_length runs i r : positive runs -> runs !! i = Some r -> length_ r <= total runs.
Proof.
  intros Hp Hr. rewrite <- (take_drop_middle _ _ _ Hr), total_app. cbn [total].
  assert (positive (take i runs) /\ positive (drop (S i) runs)) as [?%total_nonneg ?%total_nonneg]; [|lia].
  split; [by apply Forall_take|by apply Forall_drop].
Qed.

(** The first run of the suffix is what is left of the run at the end of the range. *)
Lemma end_spec runs end_ e end_pos : positive runs -> position runs end_ e end_pos -> end_ <> total runs ->
  exists r, runs !! e = Some r /\ 0 <= end_pos < length_ r
    /\ drop_runs end_ runs = with_length (length_ r - end_pos) r :: drop (S e) runs.
Proof.
  intros Hp Hpos He. pose proof (position_drop _ _ _ _ Hp Hpos) as Hd.
  destruct Hpos as [(_ & _ & ->)|(A & r & D & -> & -> & Hpos & ->)]; [done|].
  assert (Hl : (A ++ r :: D) !! length A = Some r) by (by rewrite list_lookup_middle).
  exists r. split; [done|]. split; [done|]. destruct (Z.eqb_spec end_pos 0) as [->|Hz].
  - rewrite Hd, (drop_S _ _ _ Hl). destruct r. unfold with_length. cbn. by rewrite Z.sub_0_r.
  - destruct Hd as (s & Hs & _ & ->). by rewrite Hl in Hs; injection Hs as <-.
Qed.

Lemma position_kept_after runs index it pos :
  positive runs -> total runs < 2 ^ w -> position runs index it pos -> kept_after w runs (drop_runs index runs) it pos.
Proof.
  intros Hp Hw Hpos. pose proof (position_drop _ _ _ _ Hp Hpos) as Ht. unfold kept_after.
  destruct (Z.eqb_spec pos 0) as [->|Hz]; [by left|]. destruct Ht as (r & Hr & ? & ?). right. exists r.
  pose proof (lookup_length _ _ _ Hp Hr). split_and!; try done; lia.
Qed.

Lemma detect_end_spec b end_ replacements e end_pos :
  positive (_runs b) -> total (_runs b) = _total_length b -> _total_length b < 2 ^ w ->
  position (_runs b) end_ e end_pos -> replacements <> [] ->
  exists additional e' end_pos' S, detect_end w end_ replacements b e end_pos = Some (additional, e', end_pos')
    /\ meets_after (drop_runs end_ (_runs b)) S replacements additional /\ kept_after w (_runs b) S e' end_pos'
    /\ (e <= e' <= length (_runs b))%nat /\ (e' = e -> end_pos' = end_pos /\ additional = 0).
Proof.
  intros Hp Htot Hw Hpos Hne. unfold detect_end. destruct (Z.eqb_spec end_ (_total_length b)) as [Heq|Hs]; cbn [negb].
  - rewrite <- Htot in Heq. pose proof (position_drop _ _ _ _ Hp Hpos) as Hd.
    pose proof (proj1 (position_end _ _ _ _ Hp Hpos) Heq) as He. subst e.
    assert (end_pos = 0) as ->.
    { destruct Hpos as [(_ & -> & _)|(A & r & D & E & Hl & _)]; [done|].
      rewrite E, length_app in Hl. cbn in Hl. lia. }
    exists 0, (length (_runs b)), 0, []. cbn in Hd. rewrite drop_all in Hd. split_and!; [done| | |lia..|done].
    + left. rewrite Hd. split_and!; try done.
    + left. by rewrite drop_all.
  - destruct (end_spec (_runs b) end_ e end_pos Hp Hpos) as (r & Hr & Hb & Hd); [by rewrite Htot|].
    assert (Hlt := lookup_lt_Some _ _ _ Hr).
    pose proof (lookup_length _ _ _ Hp Hr).
    rewrite Hr. cbn [mbind option_bind]. destruct (exists_last Hne) as (Q & y & ->). rewrite last_snoc. cbn [mbind option_bind].
    destruct (decide (value r = value y)) as [Hv|Hv].
    + eexists _, (S e), 0, (drop (S e) (_runs b)). split_and!; [done| |by left|lia..].
      right. eexists. rewrite wrap_small by lia. split_and!; [exact Hd|cbn; lia|done|].
      rewrite last_snoc. by intros ? [= <-].
    + exists 0, e, end_pos, (drop_runs end_ (_runs b)). split_and!; [done| | |lia..|done].
      * left. split_and!; [done..|]. rewrite Hd, last_snoc. intros ? ? [= <-] [= <-]. cbn. by intros ?%symmetry.
      * apply position_kept_after; [done|lia|done].
Qed.
Lemma split_spec b P S replacements begin begin_pos e end_pos :
  kept_before (_runs b) P begin begin_pos -> kept_after w (_runs b) S e end_pos ->
  (begin <= e <= length (_runs b))%nat -> (begin = e -> begin_pos <> 0 -> end_pos <> 0) -> replacements <> [] ->
  exists trailer end_pos' runs', split_run w b begin begin_pos e end_pos = Some (trailer, end_pos')
    /\ adjust w (_runs b) begin begin_pos e end_pos' = Some (runs', length P)
    /\ splice runs' (length P) e replacements trailer = P ++ replacements ++ S
    /\ (trailer <> None -> begin = e /\ begin_pos <> 0).
Proof.
  intros HP HS Hle Hpos Hne. unfold split_run.
  destruct (Nat.eqb_spec begin e) as [Heq|Hb]; [destruct (Z.eqb_spec begin_pos 0) as [Hz|Hz]|]; cbn [andb negb].
  2: { destruct HP as [[]|(r & _ & Hr & ->)]; [done|]. destruct HS as [[? _]|(s & _ & Hs & Hb & ->)]; [by destruct (Hpos Heq Hz)|].
    subst e. rewrite Hr in Hs. injection Hs as <-. rewrite Hr. cbn [mbind option_bind].
    eexists _, 0, _. split; [done|]. unfold adjust. destruct (Z.eqb_spec begin_pos 0); [done|]. cbn [negb]. rewrite Hr. cbn.
    assert (Hlt := lookup_lt_Some _ _ _ Hr). rewrite length_app, length_take, Nat.min_l by lia. cbn [length]. rewrite Nat.add_1_r.
    split; [done|]. split; [|done]. rewrite splice_spec by (rewrite ?length_insert; lia || done).
    rewrite (take_insert_snoc _ _ _ _ Hr), wrap_small by done. cbn [option_list app].
    by rewrite drop_insert_lt, Nat.max_l by lia. }
  all: destruct (adjust_spec w (_runs b) P S begin begin_pos e end_pos HP HS Hle) as (runs' & Ha & Ht & Hd & Hl & Hlen); [done|].
  all: exists None, end_pos, runs'; split_and!; [done..| |done].
  all: rewrite splice_spec by (done || lia); cbn [option_list app]; by rewrite Nat.max_r, Ht, Hd by done.
Qed.

Lemma nonneg_total runs : nonneg runs -> 0 <= total runs.
Proof. induction 1; cbn; lia. Qed.

Lemma nonneg_join (X Y : list (rle_pair T)) : nonneg X -> nonneg Y -> nonneg (join X Y).
Proof.
  intros HX HY. destruct (join_cases X Y) as [[-> _]|(P & x & y & Y' & -> & -> & Hv & ->)]; [by apply Forall_app|].
  apply Forall_app in HX as [HP Hx]. rewrite Forall_singleton in Hx. inversion HY; subst.
  apply Forall_app. split; [done|]. constructor; [cbn; lia|done].
Qed.

Lemma sum_lengths_spec start runs : nonneg runs -> 0 <= start -> start + total runs < 2 ^ w ->
  sum_lengths w start runs = start + total runs.
Proof.
  intros Hp. revert start. unfold sum_lengths. induction Hp as [|r runs Hr Hs IH]; intros start H0 Hw; cbn in *; [lia|].
  pose proof (nonneg_total _ Hs). rewrite wrap_small by lia. rewrite IH by lia. lia.
Qed.

Lemma nonneg_ends (X D : list (rle_pair T)) x y : nonneg X -> nonneg D -> last X = Some x -> head D = Some y ->
  0 <= length_ x /\ length_ x + length_ y <= total X + total D.
Proof.
  intros HX HD [Q ->]%last_Some Hy. destruct D as [|? D]; [done|]. injection Hy as <-.
  apply Forall_app in HX as [HQ Hx]. rewrite Forall_singleton in Hx. apply Forall_cons in HD as [? HD].
  apply nonneg_total in HQ, HD. rewrite total_app. cbn. lia.
Qed.
End replacing.

(** ** The vector as an abstract data type *)
Section refinement.
Context {T : Type} `{EqDecision T, Inhabited T} (w : Z).
Implicit Types (runs replacements : list (rle_pair T)) (r : rle_pair T) (b : basic_rle T).

(** No run is empty, and the total length is the sum of the lengths and fits [size_type]. *)
Definition well_formed b : Prop :=
  positive (_runs b) /\ total (_runs b) = _total_length b /\ _total_length b < 2 ^ w.

(** The replacement of a range, as a list operation. *)
Definition replaced {A} (start end_ : Z) (new l : list A) : list A :=
  take (Z.to_nat start) l ++ new ++ drop (Z.to_nat end_) l.

Lemma total_split runs n : positive runs -> 0 <= n <= total runs ->
  total (take_runs n runs) = n /\ total (drop_runs n runs) = total runs - n.
Proof.
  intros Hp Hn. rewrite <- !length_expand by (by apply take_runs_positive || by apply drop_runs_positive).
  rewrite expand_take_runs, expand_drop_runs, length_take, length_drop by done.
  pose proof (length_expand runs Hp). lia.
Qed.

Lemma replace_runs b start end_ replacements :
  well_formed b -> 0 <= start <= end_ -> end_ <= _total_length b -> nonneg replacements -> replacements <> [] ->
  _total_length b - (end_ - start) + total replacements < 2 ^ w ->
  _replace_unchecked w start end_ replacements b
  = Some (mkRle (join (join (take_runs start (_runs b)) replacements) (drop_runs end_ (_runs b)))
                (_total_length b - (end_ - start) + total replacements)).
Proof.
  intros (Hp & Htot & Hw) Hs He Hr Hne Hnew. pose proof (nonneg_total _ Hr).
  destruct (total_split (_runs b) start Hp) as [HtL _]; [lia|]. destruct (total_split (_runs b) end_ Hp) as [_ HtD]; [lia|].
  pose proof (positive_nonneg _ (take_runs_positive start _ Hp)) as HL.
  pose proof (positive_nonneg _ (drop_runs_positive end_ _ Hp)) as HD.
  destruct (scans w (_runs b) start end_) as (begin & bp & t & e & ep & t2 & Hscan & Hscan2 & Hpos1 & Hpos2 & Hle & Hbe); [done|lia..|].
  unfold _replace_unchecked. rewrite Hscan, Hscan2.
  destruct (Nat.eqb_spec (length replacements) 0) as [?%length_zero_iff_nil|_]; [done|].
  destruct (detect_begin_spec b start replacements begin bp Hp Hpos1 Hne) as (bal & begin' & bp' & P & -> & HmP & HkP & Hb' & Hbp').
  destruct (detect_end_spec w b end_ replacements e ep Hp Htot Hw Hpos2 Hne) as (eal & e' & ep' & S & -> & HmS & HkS & He' & Hep').
  cbn [mbind option_bind].
  destruct (split_spec w b P S replacements begin' bp' e' ep' HkP HkS) as (trailer & ep'' & runs' & -> & Ha & Hsp & Htr);
    [lia| |done|].
  { intros Heq Hz. destruct (Hbp' Hz) as [-> ->]. destruct Hep' as [-> _]; [lia|].
    assert (Hpb : begin = e) by lia. specialize (Hbe Hpb).
    pose proof (position_take _ _ _ _ Hp Hpos1) as Ht. destruct (Z.eqb_spec bp 0); [done|]. destruct Ht as (? & _ & ? & _). lia. }
  cbn [mbind option_bind]. rewrite Ha. cbn [mbind option_bind]. rewrite Hsp.
  destruct (add_length_before w (take_runs start (_runs b)) P replacements S bal) as [-> Hlen]; [done..|lia| |].
  { destruct HmP as [(_ & -> & _)|(x & HP & _)]; [by rewrite HtL; lia|]. rewrite HP in HL. apply Forall_app in HL as [HL _].
    by apply nonneg_total. }
  cbn [mbind option_bind].
  assert (Hafter : add_length w eal (length P + (length replacements + trailer_space trailer) - 1)
            (join (take_runs start (_runs b)) replacements ++ S)
          = add_length w eal (length (join (take_runs start (_runs b)) replacements) - 1)
            (join (take_runs start (_runs b)) replacements ++ S)).
  { rewrite Hlen. destruct trailer as [r|]; [|by cbn [trailer_space]; rewrite Nat.add_0_r].
    destruct Htr as [Heq Hz]; [done|]. destruct (Hbp' Hz) as [-> _]. destruct Hep' as [_ ->]; [lia|]. done. }
  pose proof (nonneg_join _ _ HL Hr) as HX.
  assert (HtX := total_join (take_runs start (_runs b)) replacements).
  rewrite Hafter, (add_length_after w _ (drop_runs end_ (_runs b)) S replacements); [| |by apply last_join_value| |done|].
  - cbn [mbind option_bind]. rewrite wrap_small, sum_lengths_spec by (done || lia). done.
  - done.
  - intros x [Q E]%last_Some. rewrite E in HX. apply Forall_app in HX as [_ HX]. by rewrite Forall_singleton in HX.
  - intros x y Hx Hy. pose proof (nonneg_ends _ _ x y HX HD Hx Hy). lia.
Qed.

Lemma remove_kept runs L D begin bp e ep len :
  kept_before runs L begin bp -> kept_after w runs D e ep -> (begin <= e <= length runs)%nat -> (begin = e -> bp = 0) ->
  ('(runs, begin) ← adjust w runs begin bp e ep;
   if (begin <=? e)%nat then Some (mkRle (take begin runs ++ drop e runs) len) else None) = Some (mkRle (L ++ D) len).
Proof.
  intros HL HD Hle Hz. destruct (adjust_spec w _ _ _ _ _ _ _ HL HD) as (runs' & -> & Ht & Hd & Hl & _); [done..|].
  cbn [mbind option_bind]. by rewrite leb_correct, Ht, Hd by done.
Qed.

Lemma remove_runs b start end_ :
  well_formed b -> 0 <= start <= end_ -> end_ <= _total_length b ->
  _replace_unchecked w start end_ [] b
  = Some (mkRle (join (take_runs start (_runs b)) (drop_runs end_ (_runs b))) (_total_length b - (end_ - start))).
Proof.
  intros (Hp & Htot & Hw) Hs He.
  destruct (total_split (_runs b) start Hp) as [HtL _]; [lia|]. destruct (total_split (_runs b) end_ Hp) as [_ HtD]; [lia|].
  destruct (scans w (_runs b) start end_) as (begin & bp & t & e & ep & t2 & Hscan & Hscan2 & Hpos1 & Hpos2 & Hle & Hbe); [done|lia..|].
  unfold _replace_unchecked. rewrite Hscan, Hscan2. cbn [length Nat.eqb]. unfold remove_range.
  rewrite !wrap_small by (rewrite ?wrap_small; lia).
  pose proof (position_kept_before _ _ _ _ Hp Hpos1) as HkP.
  assert (HkS := position_kept_after w _ _ _ _ Hp ltac:(lia) Hpos2).
  pose proof (remove_kept _ _ _ _ _ _ _ (_total_length b - (end_ - start)) HkP HkS ltac:(lia)) as Hplain.
  destruct (Z.eqb_spec start 0) as [->|Hs0]; cbn [negb andb]; [|destruct (Z.eqb_spec end_ (_total_length b)) as [->|He0]; cbn [negb andb]].
  - rewrite join_app by (by rewrite take_runs_0). apply Hplain. intros _. by apply (position_start _ _ _ _ Hp Hpos1).
  - rewrite join_app.
    + apply Hplain. intros ->. destruct Hpos1 as [(_ & ? & _)|(A & r & D & E & -> & _)]; [done|].
      apply (position_end _ _ _ _ Hp) in Hpos2. rewrite Htot in Hpos2. destruct Hpos2 as [Hl _].
      rewrite E, length_app in Hl. cbn in Hl. specialize (Hl eq_refl). lia.
    + rewrite (total_pos (drop_runs (_total_length b) (_runs b))); [done|by apply drop_runs_positive|lia].
  - destruct (previous_spec _ _ _ _ Hp Hpos1 Hs0) as (p & r & Hprev & Hr & Hpb & HtL' & Hl). rewrite Hprev. cbn [mbind option_bind]. rewrite Hr.
    destruct (end_spec (_runs b) end_ e ep Hp Hpos2) as (s & Hs' & Hsb & Hd); [by rewrite Htot|]. rewrite Hs'. cbn [mbind option_bind].
    destruct (decide (value r = value s)) as [Hv|Hv].
    + rewrite HtL', Hd, join_merge by done. cbn [with_length length_ value].
      rewrite HtL', total_app in HtL. rewrite Hd in HtD. cbn in HtL, HtD.
      assert (0 <= total (take p (_runs b)) /\ 0 <= total (drop (S e) (_runs b)))
        by (split; apply total_nonneg; [by apply Forall_take|by apply Forall_drop]).
      rewrite wrap_small by lia. unfold adjust. cbn [Z.eqb negb mbind option_bind].
      rewrite leb_correct by lia. rewrite take_insert_ge by lia. rewrite (drop_insert_cons _ _ _ _ Hs').
      by rewrite Z.sub_sub_distr.
    + rewrite join_app.
      * apply Hplain. intros ->. unfold previous in Hprev. destruct (Z.eqb_spec bp 0); [done|]. cbn in Hprev. congruence.
      * rewrite HtL', Hd, last_snoc. by intros ? ? [= <-] [= <-].
Qed.
End refinement.

(** ** The other operations *)
Section operations.
Context {T : Type} `{EqDecision T, Inhabited T} (w : Z).
Implicit Types (runs replacements : list (rle_pair T)) (r : rle_pair T) (b : basic_rle T).

Lemma scan_past runs it t index : positive runs -> 0 <= t -> t + total runs < 2 ^ w -> t + total runs <= index ->
  scan w runs it t index = ((it + length runs)%nat, 0, t + total runs).
Proof.
  intros Hp. revert it t. induction Hp as [|r rest Hr Hs IH]; intros it t Ht Hw Hi; cbn [scan total length] in *.
  - by rewrite Nat.add_0_r, Z.add_0_r.
  - pose proof (total_nonneg rest Hs). rewrite wrap_small by lia. destruct (Z.gtb_spec (t + length_ r) index); [lia|].
    rewrite IH by lia. by rewrite Nat.add_succ_r, Z.add_assoc.
Qed.

Lemma expand_lookup A r D pos : positive A -> 0 <= pos < length_ r ->
  expand (A ++ r :: D) !! Z.to_nat (total A + pos) = Some (value r).
Proof.
  intros HA Hpos. pose proof (length_expand A HA). pose proof (total_nonneg A HA).
  rewrite expand_app, lookup_app_r by lia. rewrite expand_cons, lookup_app_l by (rewrite length_replicate; lia).
  apply lookup_replicate. split; [done|lia].
Qed.

Lemma at_spec b position : well_formed w b -> 0 <= position ->
  at_ w position b = match expand (_runs b) !! Z.to_nat position with Some v => Ret v | None => Throw end.
Proof.
  intros (Hp & Htot & Hw) Hpos. unfold at_. pose proof (length_expand _ Hp).
  destruct (decide (position < total (_runs b))) as [Hlt|Hge].
  - destruct (scan_position w (_runs b) 0 0 position) as (it & pos & -> & Hat); [done|lia..|]. rewrite Z.sub_0_r in Hat.
    destruct Hat as [(_ & _ & ?)|(A & r & D & E & -> & Hr & ->)]; [lia|]. cbn [Nat.add].
    rewrite E in *. rewrite list_lookup_middle by done. apply Forall_app in Hp as [HA _]. by rewrite expand_lookup.
  - rewrite scan_past by (done || lia). cbn [Nat.add]. rewrite !(proj2 (lookup_ge_None _ _)) by lia. done.
Qed.

Lemma take_runs_app (A B : list (rle_pair T)) n : positive A -> total A < n -> take_runs n (A ++ B) = A ++ take_runs (n - total A) B.
Proof.
  intros HA. revert n. induction HA as [|r A Hr HA IH]; intros n Hn; cbn [app take_runs total] in *; [by rewrite Z.sub_0_r|].
  pose proof (total_nonneg A HA). destruct (Z.leb_spec n 0), (Z.ltb_spec n (length_ r)); try lia.
  rewrite IH by lia. do 3 f_equal. lia.
Qed.

Lemma drop_runs_app (A B : list (rle_pair T)) n : positive A -> total A <= n -> drop_runs n (A ++ B) = drop_runs (n - total A) B.
Proof.
  intros HA. revert n. induction HA as [|r A Hr HA IH]; intros n Hn; cbn [app drop_runs total] in *; [by rewrite Z.sub_0_r|].
  pose proof (total_nonneg A HA). destruct (Z.leb_spec n 0), (Z.ltb_spec n (length_ r)); try lia.
  rewrite IH by lia. f_equal. lia.
Qed.

(** The runs up to and with an index. *)
Lemma take_runs_through A r D pos : positive A -> 0 <= pos < length_ r ->
  take_runs (total A + pos + 1) (A ++ r :: D) = A ++ [with_length (pos + 1) r].
Proof.
  intros HA Hpos. rewrite take_runs_app by (done || lia). cbn [take_runs].
  replace (total A + pos + 1 - total A) with (pos + 1) by lia.
  destruct (Z.leb_spec (pos + 1) 0); [lia|]. destruct (Z.ltb_spec (pos + 1) (length_ r)); [done|].
  rewrite take_runs_0 by lia. replace (pos + 1) with (length_ r) by lia. by destruct r.
Qed.

Lemma drop_runs_from A r D pos : positive A -> 0 <= pos < length_ r ->
  drop_runs (total A + pos) (A ++ r :: D) = with_length (length_ r - pos) r :: D.
Proof.
  intros HA Hpos. rewrite drop_runs_app by (done || lia). cbn [drop_runs].
  replace (total A + pos - total A) with pos by lia.
  destruct (Z.leb_spec pos 0), (Z.ltb_spec pos (length_ r)); try lia; [|done].
  replace pos with 0 by lia. destruct r. unfold with_length. cbn. by rewrite Z.sub_0_r.
Qed.

Lemma shrink_runs b new_size : well_formed w b -> 0 < new_size < _total_length b ->
  resize_trailing_extent w new_size b = Some (mkRle (take_runs new_size (_runs b)) new_size).
Proof.
  intros (Hp & Htot & Hw) Hn. unfold resize_trailing_extent.
  destruct (Z.eqb_spec new_size 0), (Z.ltb_spec new_size (_total_length b)); try lia.
  destruct (scan_position w (_runs b) 0 0 (new_size - 1)) as (it & pos & -> & Hat); [done|lia..|]. rewrite Z.sub_0_r in Hat.
  destruct Hat as [(_ & _ & ?)|(A & r & D & E & -> & Hr & Hi)]; [lia|]. cbn [Nat.add].
  assert (Hlk : _runs b !! length A = Some r) by (by rewrite E, list_lookup_middle).
  pose proof (lookup_length _ _ _ Hp Hlk). rewrite Hlk. cbn [mbind option_bind]. rewrite wrap_small by lia.
  rewrite Nat.add_1_r, (take_insert_snoc _ _ _ _ Hlk), E, take_app_length.
  replace new_size with (total A + pos + 1) by lia. rewrite take_runs_through; [done| |done].
  rewrite E in Hp. by apply Forall_app in Hp as [HA _].
Qed.

Lemma grow_runs b Q r new_size : well_formed w b -> _runs b = Q ++ [r] -> _total_length b < new_size < 2 ^ w ->
  resize_trailing_extent w new_size b = Some (mkRle (Q ++ [with_length (length_ r + (new_size - _total_length b)) r]) new_size).
Proof.
  intros (Hp & Htot & Hw) E Hn. unfold resize_trailing_extent. pose proof (total_nonneg _ Hp).
  destruct (Z.eqb_spec new_size 0), (Z.ltb_spec new_size (_total_length b)), (Z.gtb_spec new_size (_total_length b)); try lia.
  rewrite E, last_snoc in *. cbn [mbind option_bind]. rewrite total_app in Htot. cbn in Htot.
  apply Forall_app in Hp as [HQ%total_nonneg Hr]. rewrite Forall_singleton in Hr. rewrite wrap_small by lia.
  rewrite length_app, Nat.add_sub, insert_app_r_alt, Nat.sub_diag by done. done.
Qed.

Lemma last_expand Q r : 0 < length_ r -> last (expand (Q ++ [r])) = Some (value r).
Proof.
  intros Hr. rewrite expand_app, last_app, expand_cons, app_nil_r.
  replace (Z.to_nat (length_ r)) with (S (Z.to_nat (length_ r) - 1)) by lia. by rewrite replicate_S_end, last_snoc.
Qed.

(** Shrinking cuts the vector off and growing repeats its last value. *)
Lemma resize_trailing_extent_spec b new_size : well_formed w b -> 0 <= new_size < 2 ^ w ->
  (_runs b = [] -> new_size = 0) ->
  exists b', resize_trailing_extent w new_size b = Some b' /\ well_formed w b' /\ _total_length b' = new_size
    /\ (compact (_runs b) -> compact (_runs b'))
    /\ expand (_runs b')
       = take (Z.to_nat new_size) (expand (_runs b))
         ++ match last (expand (_runs b)) with
            | Some v => replicate (Z.to_nat (new_size - _total_length b)) v
            | None => []
            end.
Proof.
  intros Hwf Hn Hne. pose proof Hwf as (Hp & Htot & Hw). pose proof (length_expand _ Hp). pose proof (total_nonneg _ Hp).
  assert (Hnone : new_size <= _total_length b ->
    match last (expand (_runs b)) with Some v => replicate (Z.to_nat (new_size - _total_length b)) v | None => [] end = []).
  { intros ?. rewrite Z2Nat.nonpos by lia. by destruct (last _). }
  destruct (Z.lt_trichotomy new_size (_total_length b)) as [Hlt|[Heq|Hgt]].
  - destruct (decide (new_size = 0)) as [->|Hz].
    { exists (mkRle [] 0). split_and!; [done|split_and!; [by apply Forall_nil|done|cbn; lia]|done..|]. by rewrite Hnone by lia. }
    destruct (total_split (_runs b) new_size Hp) as [Htt _]; [lia|].
    rewrite shrink_runs by (done || lia). eexists. split; [done|]. cbn [_runs _total_length].
    split_and!; [split_and!; [by apply take_runs_positive|done|cbn; lia]|done|by apply take_runs_compact|].
    by rewrite Hnone, app_nil_r, expand_take_runs by (done || lia).
  - exists (mkRle (_runs b) new_size). rewrite Hnone, app_nil_r, take_ge by lia.
    split_and!; [|by split_and!; [|cbn; lia|cbn; lia]|done..].
    unfold resize_trailing_extent. destruct (Z.eqb_spec new_size 0) as [Hz|]; [|by rewrite Heq, Z.ltb_irrefl, Z.gtb_ltb, Z.ltb_irrefl].
    by rewrite (total_pos _ Hp), Hz by lia.
  - destruct (exists_last (l := _runs b)) as (Q & r & E); [intros ?%Hne; lia|].
    rewrite (grow_runs b Q r) by (done || lia). eexists. split; [done|]. cbn [_runs _total_length].
    rewrite E in *. rewrite total_app in Htot. cbn in Htot. apply Forall_app in Hp as [HQ Hr]. rewrite Forall_singleton in Hr.
    rewrite last_expand by done. split_and!; [|done| |].
    + split_and!; [|cbn [_runs _total_length]; rewrite total_app; cbn; lia|cbn; lia].
      apply Forall_app. split; [done|]. repeat constructor. cbn. lia.
    + intros Hc. pose proof (compact_app_inv _ _ Hc) as [HQ' _]. apply compact_app; [done..|]. intros x y [Q' ->]%last_Some [= <-].
      rewrite <- app_assoc in Hc. apply compact_app_inv in Hc as [_ Hc]. by destruct Hc.
    + rewrite take_ge by (rewrite total_app in *; cbn in *; lia). rewrite !expand_app, <- app_assoc, !expand_cons, !app_nil_r. f_equal.
      cbn [with_length length_ value]. rewrite <- replicate_add. f_equal. lia.
Qed.
End operations.

Section more_operations.
Context {T : Type} `{EqDecision T, Inhabited T} (w : Z).
Implicit Types (runs replacements : list (rle_pair T)) (r : rle_pair T) (b : basic_rle T).

(** *** Slices *)
Lemma slice_runs b start end_ : well_formed w b -> 0 <= start < end_ -> end_ <= _total_length b ->
  slice w start end_ b = Some (mkRle (take_runs (end_ - start) (drop_runs start (_runs b))) (end_ - start)).
Proof.
  intros (Hp & Htot & Hw) Hs He. unfold slice.
  destruct (Z.gtb_spec end_ (_total_length b)); [lia|]. rewrite Z.geb_leb. destruct (Z.leb_spec end_ start); [lia|].
  destruct (scans w (_runs b) start (end_ - 1)) as (begin & bp & t & e & ep & t2 & -> & -> & Hpos1 & Hpos2 & Hle & Hbe); [done|lia..|].
  destruct Hpos1 as [(_ & _ & ->)|(A & r & D & E & -> & Hbp & ->)]; [lia|].
  destruct Hpos2 as [(_ & _ & ?)|(A2 & r2 & D2 & E2 & -> & Hep & Hend)]; [lia|].
  assert (HA : positive A) by (rewrite E in Hp; by apply Forall_app in Hp as [? _]).
  assert (length_ r <= total (_runs b)) by (apply (lookup_length _ (length A)); [done|]; by rewrite E, list_lookup_middle).
  assert (length_ r2 <= total (_runs b)) by (apply (lookup_length _ (length A2)); [done|]; by rewrite E2, list_lookup_middle).
  rewrite (wrap_small w (end_ - _)) by lia. rewrite E, drop_app_length, drop_runs_from by done.
  destruct (decide (length A = length A2)) as [Hl|Hl].
  - rewrite E in E2. apply app_inj_1 in E2 as [<- [= <- <-]]; [|done]. specialize (Hbe eq_refl).
    replace (length A + 1 - length A)%nat with 1%nat by lia.
    change (take 1 (r :: D)) with [r]. cbn [firstn last mbind option_bind length Nat.sub insert list_insert head take_runs with_length length_ value].
    rewrite !wrap_small by (rewrite ?wrap_small; lia).
    replace (end_ - (total A + bp)) with (ep + 1 - bp) by lia.
    destruct (Z.leb_spec (ep + 1 - bp) 0), (Z.ltb_spec (ep + 1 - bp) (length_ r - bp)); try lia; [done|].
    rewrite take_runs_0 by lia. by replace (ep + 1 - bp) with (length_ r - bp) by lia.
  - rewrite E in E2. apply app_eq_inv in E2 as [(k & -> & _)|(k & -> & Hk)]; [rewrite length_app in Hle, Hl; lia|].
    destruct k as [|k M]; [by rewrite app_nil_r in Hl|]. injection Hk as <- ->.
    rewrite E, app_comm_cons, app_assoc, total_app in *. cbn [total] in *. apply Forall_app in Hp as [[_ HM]%Forall_app _].
    apply Forall_cons in HM as [Hr HM]. pose proof (total_nonneg M HM).
    replace (end_ - (total A + bp)) with (total (with_length (length_ r - bp) r :: M) + ep + 1) by (cbn; lia).
    rewrite app_comm_cons, take_runs_through by (done || (constructor; [cbn; lia|done])).
    replace (length (A ++ r :: M) + 1 - length A)%nat with (length (r :: M ++ [r2])) by (cbn; rewrite !length_app; cbn; lia).
    replace ((r :: M) ++ r2 :: D2) with ((r :: M ++ [r2]) ++ D2) by (cbn; by rewrite <- app_assoc).
        rewrite take_app_length, app_comm_cons, last_snoc. cbn [mbind option_bind].
    rewrite length_app, Nat.add_sub, insert_app_r_alt, Nat.sub_diag, !wrap_small by lia || done.
    cbn. rewrite !wrap_small by lia. done.
Qed.
(** *** Compaction *)
Lemma compact_loop_tail (before rest : list (rle_pair T)) ref : compact_loop w before ref rest = compact_tail w before ref rest.
Proof. revert before ref. induction rest as [|r rest IH]; intros before ref; cbn; [done|]. by destruct (decide _). Qed.

Lemma compact_snoc (before : list (rle_pair T)) ref r : compact (before ++ [ref]) -> value ref <> value r -> compact ((before ++ [ref]) ++ [r]).
Proof. intros Hc Hv. apply compact_app; [done..|]. rewrite last_snoc. by intros ? ? [= <-] [= <-]. Qed.

Lemma compact_tail_spec (before rest : list (rle_pair T)) ref :
  positive (before ++ ref :: rest) -> total (before ++ ref :: rest) < 2 ^ w -> compact (before ++ [ref]) ->
  expand (compact_tail w before ref rest) = expand (before ++ ref :: rest)
  /\ positive (compact_tail w before ref rest)
  /\ total (compact_tail w before ref rest) = total (before ++ ref :: rest)
  /\ compact (compact_tail w before ref rest).
Proof.
  revert before ref. induction rest as [|r rest IH]; intros before ref Hp Hw Hc; cbn [compact_tail]; [done|].
  pose proof Hp as [Hb [Hf [Hr Hrest]%Forall_cons]%Forall_cons]%Forall_app. destruct (decide (value ref = value r)) as [Hv|Hv].
  - rewrite total_app in Hw. cbn in Hw. pose proof (total_nonneg _ Hb). pose proof (total_nonneg _ Hrest). rewrite wrap_small by lia.
    destruct (IH before (with_length (length_ ref + length_ r) ref)) as (He & Hp' & Ht & Hc').
    + apply Forall_app. split; [done|]. constructor; [cbn; lia|done].
    + rewrite total_app. cbn. lia.
    + apply compact_app_inv in Hc as Hc'. apply compact_app; [by destruct Hc'..|]. intros x y [Q ->]%last_Some [= <-].
      rewrite <- app_assoc in Hc. apply compact_app_inv in Hc as [_ Hc]. by destruct Hc.
    + rewrite He, Ht, !total_app, !expand_app. split_and!; [|done|cbn; lia|done]. rewrite !expand_cons. f_equal.
      cbn [with_length length_ value]. rewrite Z2Nat.inj_add, replicate_add, <- app_assoc, Hv by lia. done.
  - replace (before ++ ref :: r :: rest) with ((before ++ [ref]) ++ r :: rest) in * by (by rewrite <- app_assoc).
    apply IH; [done..|]. by apply compact_snoc.
Qed.

Lemma _compact_spec runs : positive runs -> total runs < 2 ^ w ->
  expand (_compact w runs) = expand runs /\ positive (_compact w runs) /\ total (_compact w runs) = total runs
  /\ compact (_compact w runs).
Proof.
  destruct runs as [|ref rest]; [done|]. intros Hp Hw. cbn [_compact]. rewrite compact_loop_tail.
  by apply (compact_tail_spec [] rest ref).
Qed.

Lemma expand_map (f : T -> T) runs : expand (map (fun r => mkRun (f (value r)) (length_ r)) runs) = map f (expand runs).
Proof.
  induction runs as [|r runs IH]; [done|]. cbn [map]. rewrite !expand_cons, map_app, IH. f_equal. cbn. by rewrite <- fmap_replicate.
Qed.

(** Every value that is the old one becomes the new one, and the runs are merged. *)
Lemma replace_values_spec b old_value new_value : well_formed w b ->
  let b' := replace_values w old_value new_value b in
  well_formed w b' /\ compact (_runs b')
  /\ expand (_runs b') = map (fun v => if decide (v = old_value) then new_value else v) (expand (_runs b)).
Proof.
  intros (Hp & Htot & Hw). cbv zeta. unfold replace_values.
  set (f := fun v => if decide (v = old_value) then new_value else v).
  assert (Hmap : map (fun r => if decide (value r = old_value) then mkRun new_value (length_ r) else r) (_runs b)
          = map (fun r => mkRun (f (value r)) (length_ r)) (_runs b)).
  { apply map_ext. intros [v l]. unfold f. cbn. by destruct (decide (v = old_value)). }
  rewrite Hmap. assert (Hlen : forall l, total (map (fun r => mkRun (f (value r)) (length_ r)) l) = total l)
    by (induction l; cbn; lia).
  destruct (_compact_spec (map (fun r => mkRun (f (value r)) (length_ r)) (_runs b))) as (He & Hp' & Ht & Hc).
  - apply Forall_map. exact Hp.
  - rewrite Hlen. lia.
  - cbn [_runs _total_length]. rewrite Hlen in Ht. split_and!; [split_and!; [done|by rewrite <- Htot|done]|done|].
    by rewrite He, expand_map.
Qed.
End more_operations.
