(* ===== verification/RleIterator.v ===== *)
(** * Iterators of run-length encoded vectors

    [rle_iterator] of [src/inc/til/rle.h]: a position in the container of runs and one in
    the run it points to. The theorem is that these iterators are indices of the vector
    the runs stand for. *)
From S2P Require Import Prelude.
From S2P Require Import Rle.
From S2P Require Import RleTheorems.

Record rle_iterator := mkIterator { _it : nat; _pos : Z }.

#[export] Instance rle_iterator_eq_dec : EqDecision rle_iterator.
Proof. solve_decision. Defined.

Section iterator.
(** The runs the iterator goes through, and the width of [size_type]. *)
Context {T : Type} (w : Z) (runs : list (rle_pair T)).

(** [rle_iterator(ParentIt&&)], at [_runs.begin()] and at [_runs.end()]. *)
Definition begin_ : rle_iterator := mkIterator 0 0.
Definition end_ : rle_iterator := mkIterator (length runs) 0.

Definition dereference (i : rle_iterator) : option T := r ← runs !! _it i; Some (value r).

Definition increment (i : rle_iterator) : option rle_iterator :=
  let pos := wrap w (_pos i + 1) in
  r ← runs !! _it i;
  Some (if pos =? length_ r then mkIterator (S (_it i)) 0 else mkIterator (_it i) pos).

(** The iterator after the operation and the one it returns. *)
Definition post_increment (i : rle_iterator) : option (rle_iterator * rle_iterator) :=
  tmp ← increment i; Some (i, tmp).

Definition decrement (i : rle_iterator) : option rle_iterator :=
  '(it, pos) ← (if _pos i =? 0 then
                  it ← prev (_it i);
                  r ← runs !! it;
                  Some (it, length_ r)
                else Some (_it i, _pos i));
  Some (mkIterator it (wrap w (pos - 1))).

Definition post_decrement (i : rle_iterator) : option (rle_iterator * rle_iterator) :=
  tmp ← decrement i; Some (i, tmp).

(** The loop that moves forward: [rest] are the runs from [it] on. *)
Fixpoint forward (rest : list (rle_pair T)) (it : nat) (pos move : Z) : option rle_iterator :=
  if move >? 0 then
    match rest with
    | [] => None
    | r :: rest =>
        let space := length_ r - pos in
        if move <? space then Some (mkIterator it (wrap w (pos + move)))
        else forward rest (S it) 0 (move - space)
    end
  else Some (mkIterator it pos).

(** The loop that moves backward: [before] are the runs before [it], the nearest first. *)
Fixpoint backward (before : list (rle_pair T)) (it : nat) (pos move : Z) : option rle_iterator :=
  if move >? 0 then
    let space := pos in
    if move <=? space then Some (mkIterator it (wrap w (pos - move)))
    else
      match before with
      | [] => None
      | r :: before => backward before (it - 1)%nat (wrap w (length_ r - 1)) (move - (pos + 1))
      end
  else Some (mkIterator it pos).

(** [operator+=]. *)
Definition advance (i : rle_iterator) (move : Z) : option rle_iterator :=
  if move >=? 0 then forward (drop (_it i) runs) (_it i) (_pos i) move
  else backward (rev (take (_it i) runs)) (_it i) (_pos i) (- move).
(** [operator-=]. *)
Definition retreat (i : rle_iterator) (offset : Z) : option rle_iterator := advance i (- offset).

Definition equal (i right : rle_iterator) : bool := (_it i =? _it right)%nat && (_pos i =? _pos right).
Definition less (i right : rle_iterator) : bool :=
  (_it i <? _it right)%nat || ((_it i =? _it right)%nat && (_pos i <? _pos right)).

(** The distance of two iterators. *)
Definition difference (i right : rle_iterator) : Z :=
  let negative := less i right in
  let lower := if negative then i else right in
  let upper := if negative then right else i in
  let distance := fold_left (fun distance r => distance + length_ r)
                    (take (_it upper - _it lower) (drop (_it lower) runs)) 0 in
  let distance := distance - _pos lower in
  let distance := distance + _pos upper in
  if negative then - distance else distance.

Definition subscript (i : rle_iterator) (offset : Z) : option T := j ← advance i offset; dereference j.
End iterator.

(** ** Iterators are indices *)
Section indices.
Context {T : Type} `{EqDecision T} (w : Z).
Implicit Types (runs rest : list (rle_pair T)).

(** An offset into the first of the runs. *)
Definition offset_in rest (pos : Z) : Prop := match rest with [] => pos = 0 | r :: _ => 0 <= pos < length_ r end.

Definition at_index runs (index : Z) (i : rle_iterator) : Prop :=
  (_it i <= length runs)%nat /\ offset_in (drop (_it i) runs) (_pos i) /\ index = total (take (_it i) runs) + _pos i.

Lemma forward_spec rest it pos move : positive rest -> total rest < 2 ^ w -> offset_in rest pos ->
  0 <= move -> pos + move <= total rest ->
  exists k p, forward w rest it pos move = Some (mkIterator (it + k) p)
    /\ (k <= length rest)%nat /\ offset_in (drop k rest) p /\ total (take k rest) + p = pos + move.
Proof.
  intros Hp. revert it pos move. induction Hp as [|r rest Hr Hs IH]; intros it pos move Hw Ho Hm Ht; cbn [forward].
  - cbn in Ho, Ht. destruct (Z.gtb_spec move 0); [lia|]. exists 0%nat, pos. rewrite Nat.add_0_r. cbn. split_and!; try done; lia.
  - destruct (Z.gtb_spec move 0).
    2: { exists 0%nat, pos. rewrite Nat.add_0_r. cbn in *. split_and!; try done; lia. }
    cbn in Ho, Hw, Ht. pose proof (total_nonneg rest Hs). destruct (Z.ltb_spec move (length_ r - pos)).
    + exists 0%nat, (pos + move). rewrite Nat.add_0_r, wrap_small by lia. cbn. split_and!; try done; lia.
    + destruct (IH (S it) 0 (move - (length_ r - pos))) as (k & p & -> & Hk & Hof & Htot); [lia| |lia..|].
      { destruct Hs; cbn; lia. }
      exists (S k), p. rewrite Nat.add_succ_r. cbn [length drop take total]. split_and!; try done; lia.
Qed.
Lemma at_index_app (A rest : list (rle_pair T)) p :
  offset_in rest p -> at_index (A ++ rest) (total A + p) (mkIterator (length A) p).
Proof.
  intros Ho. split_and!; cbn [_it _pos]; [rewrite length_app; lia|by rewrite drop_app_length|by rewrite take_app_length].
Qed.

Lemma total_rev runs : total (rev runs) = total runs.
Proof. induction runs; [done|]. cbn. rewrite total_app. cbn. lia. Qed.

Lemma backward_spec before rest pos move :
  positive (rev before ++ rest) -> total (rev before ++ rest) < 2 ^ w -> offset_in rest pos ->
  0 <= move -> move <= total before + pos ->
  exists i, backward w before (length before) pos move = Some i
    /\ at_index (rev before ++ rest) (total before + pos - move) i.
Proof.
  revert rest pos move. induction before as [|r before IH]; intros rest pos move Hp Hw Ho Hm Ht; cbn [backward].
  - cbn [rev app total length] in *. assert (0 <= pos) by (destruct rest; cbn in Ho; lia).
    assert (pos < 2 ^ w) by (pose proof (total_nonneg _ Hp); destruct rest; [cbn in *; lia|];
      apply Forall_cons in Hp as [_ ?%total_nonneg]; cbn in *; lia).
    destruct (Z.gtb_spec move 0).
    + destruct (Z.leb_spec move pos); [|lia]. rewrite wrap_small by lia. eexists. split; [done|].
      rewrite <- Z.add_sub_assoc. apply (at_index_app []). destruct rest; cbn in *; lia.
    + eexists. split; [done|]. replace (0 + pos - move) with (0 + pos) by lia. by apply (at_index_app []).
  - cbn [rev] in *. rewrite <- app_assoc in *. cbn [app total length] in *.
    pose proof Hp as [Hb [Hr Hrest]%Forall_cons]%Forall_app. rewrite total_app in Hw. cbn in Hw.
    pose proof (total_nonneg _ Hb). pose proof (total_nonneg _ Hrest).
    rewrite total_rev in *.
    assert (Hpos : 0 <= pos < 2 ^ w).
    { destruct rest; cbn in Ho, Hw; [lia|]. apply Forall_cons in Hrest as [_ ?%total_nonneg]. lia. }
    assert (Hhere : forall p, offset_in rest p -> at_index (rev before ++ r :: rest) (length_ r + total before + p) (mkIterator (S (length before)) p)).
    { intros p Hof. pose proof (at_index_app (rev before ++ [r]) rest p Hof) as Hat.
      rewrite <- app_assoc, length_app, length_rev, total_app, total_rev, Nat.add_1_r in Hat. cbn in Hat.
      by rewrite Z.add_0_r, (Z.add_comm (total before)) in Hat. }
    destruct (Z.gtb_spec move 0); [destruct (Z.leb_spec move pos)|].
    + eexists. split; [done|]. rewrite wrap_small by lia. rewrite <- Z.add_sub_assoc. apply Hhere.
      destruct rest; cbn in *; lia.
    + cbn [Nat.sub]. rewrite Nat.sub_0_r, wrap_small by lia.
      destruct (IH (r :: rest) (length_ r - 1) (move - (pos + 1))) as (i & -> & Hi); [done|rewrite total_app, total_rev; cbn; lia|cbn; lia|lia..|].
      eexists. split; [done|]. replace (length_ r + total before + pos - move) with (total before + (length_ r - 1) - (move - (pos + 1))) by lia.
      done.
    + eexists. split; [done|]. rewrite <- Z.add_sub_assoc. replace (pos - move) with pos by lia. by apply Hhere.
Qed.

Lemma advance_spec runs i index move : positive runs -> total runs < 2 ^ w -> at_index runs index i ->
  0 <= index + move <= total runs -> exists j, advance w runs i move = Some j /\ at_index runs (index + move) j.
Proof.
  intros Hp Hw (Hi & Ho & ->) Hm. unfold advance. rewrite Z.geb_leb.
  assert (Htot : total runs = total (take (_it i) runs) + total (drop (_it i) runs)) by (by rewrite <- total_app, take_drop).
  assert (0 <= total (take (_it i) runs)) by (by apply total_nonneg, Forall_take).
  destruct (Z.leb_spec 0 move).
  - destruct (forward_spec (drop (_it i) runs) (_it i) (_pos i) move) as (k & p & -> & Hk & Hof & Hs); [by apply Forall_drop|lia|done|lia..|].
    eexists. split; [done|]. rewrite length_drop, drop_drop in *. split_and!; cbn [_it _pos]; [lia|done|].
    replace (take (_it i + k) runs) with (take (_it i) runs ++ take k (drop (_it i) runs)).
    + rewrite total_app. lia.
    + rewrite <- (take_drop (_it i) runs) at 3. rewrite take_app_ge by (rewrite length_take; lia).
      rewrite length_take, Nat.min_l by lia. do 2 f_equal. lia.
  - assert (Hrev : rev (rev (take (_it i) runs)) ++ drop (_it i) runs = runs) by (by rewrite rev_involutive, take_drop).
    pose proof (total_rev (take (_it i) runs)).
    destruct (backward_spec (rev (take (_it i) runs)) (drop (_it i) runs) (_pos i) (- move)) as (j & Hj & Hat);
      [by rewrite Hrev|by rewrite Hrev|done|lia|lia|].
    rewrite length_rev, length_take, Nat.min_l in Hj by done. rewrite Hrev in Hat. exists j. split; [done|].
    replace (_ + move) with (total (rev (take (_it i) runs)) + _pos i - - move) by lia. done.
Qed.
(** The runs between two iterators. *)
Lemma at_index_between runs i j a b : positive runs -> at_index runs i a -> at_index runs j b -> (_it a < _it b)%nat ->
  total (take (_it b - _it a) (drop (_it a) runs)) - _pos a + _pos b = j - i /\ i < j.
Proof.
  intros Hp (Ha & Hoa & ->) (Hb & Hob & ->) Hlt.
  assert (Htake : take (_it b) runs = take (_it a) runs ++ take (_it b - _it a) (drop (_it a) runs)).
  { rewrite <- (take_drop (_it a) runs) at 1. rewrite take_app_ge by (rewrite length_take; lia).
    by rewrite length_take, Nat.min_l by lia. }
  rewrite Htake, total_app. split; [lia|].
  assert (0 <= _pos b) by (destruct (drop (_it b) runs); cbn in Hob; lia).
  destruct (drop (_it a) runs) as [|r rest] eqn:Ed.
  - apply (f_equal length) in Ed. rewrite length_drop in Ed. cbn in Ed. lia.
  - replace (_it b - _it a)%nat with (S (_it b - _it a - 1)) by lia. cbn in Hoa |- *.
    assert (positive (r :: rest)) as [_ Hrest]%Forall_cons by (rewrite <- Ed; by apply Forall_drop).
    assert (0 <= total (take (_it b - _it a - 1) rest)) by (by apply total_nonneg, Forall_take). lia.
Qed.

Lemma at_index_order runs i j a b : positive runs -> at_index runs i a -> at_index runs j b ->
  less a b = (i <? j) /\ equal a b = (i =? j).
Proof.
  intros Hp Ha Hb. unfold less, equal. destruct (Nat.lt_trichotomy (_it a) (_it b)) as [Hlt|[Heq|Hgt]].
  - pose proof (at_index_between _ _ _ _ _ Hp Ha Hb Hlt) as [_ ?]. rewrite (proj2 (Nat.ltb_lt _ _) Hlt), (proj2 (Nat.eqb_neq _ _)) by lia.
    cbn. lia.
  - destruct Ha as (_ & _ & ->), Hb as (_ & _ & ->). rewrite Heq, Nat.ltb_irrefl, Nat.eqb_refl. cbn. lia.
  - pose proof (at_index_between _ _ _ _ _ Hp Hb Ha Hgt) as [_ ?].
    rewrite (proj2 (Nat.ltb_ge _ _)), (proj2 (Nat.eqb_neq _ _)) by lia. cbn. lia.
Qed.

Lemma fold_total runs d : fold_left (fun distance r => distance + length_ r) runs d = d + total runs.
Proof. revert d. induction runs as [|r runs IH]; intros d; cbn; [lia|]. rewrite IH. lia. Qed.

Lemma difference_spec runs i j a b : positive runs -> at_index runs i a -> at_index runs j b ->
  difference runs a b = i - j.
Proof.
  intros Hp Ha Hb. unfold difference. destruct (at_index_order _ _ _ _ _ Hp Ha Hb) as [-> _]. rewrite fold_total.
  assert (Hsame : forall i j a b, at_index runs i a -> at_index runs j b -> i <= j ->
    0 + total (take (_it b - _it a) (drop (_it a) runs)) - _pos a + _pos b = j - i).
  { clear -Hp EqDecision0. intros i j a b Ha Hb Hij. destruct (decide (_it a < _it b)%nat) as [Hlt|Hge].
    - pose proof (at_index_between _ _ _ _ _ Hp Ha Hb Hlt). lia.
    - assert (_it a = _it b) as Heq.
      { destruct (decide (_it a = _it b)); [done|]. pose proof (at_index_between _ _ _ _ _ Hp Hb Ha). lia. }
      rewrite Heq, Nat.sub_diag. destruct Ha as (_ & _ & ->), Hb as (_ & _ & ->). rewrite Heq, take_0. cbn. lia. }
  destruct (Z.ltb_spec i j); [pose proof (Hsame _ _ _ _ Ha Hb)|pose proof (Hsame _ _ _ _ Hb Ha)]; lia.
Qed.

Lemma at_index_unique runs i a b : positive runs -> at_index runs i a -> at_index runs i b -> a = b.
Proof.
  intros Hp Ha Hb. destruct (at_index_order _ _ _ _ _ Hp Ha Hb) as [_ He]. rewrite Z.eqb_refl in He.
  apply andb_true_iff in He as [H1%Nat.eqb_eq H2%Z.eqb_eq]. destruct a, b. cbn in *. by subst.
Qed.

Lemma dereference_spec runs i a : positive runs -> at_index runs i a ->
  dereference runs a = expand runs !! Z.to_nat i.
Proof.
  intros Hp (Ha & Ho & ->). unfold dereference. rewrite <- (take_drop (_it a) runs) at 3.
  assert (HA : positive (take (_it a) runs)) by (by apply Forall_take).
  rewrite <- (Nat.add_0_r (_it a)) at 1. rewrite <- lookup_drop.
  destruct (drop (_it a) runs) as [|r rest]; cbn in Ho |- *.
  - symmetry. apply lookup_ge_None. pose proof (length_expand _ HA). rewrite app_nil_r. lia.
  - by rewrite expand_lookup.
Qed.

Lemma increment_spec runs i a : positive runs -> total runs < 2 ^ w -> at_index runs i a -> i < total runs ->
  exists a', increment w runs a = Some a' /\ at_index runs (i + 1) a'.
Proof.
  intros Hp Hw Ha Hi. destruct (advance_spec runs a i 1) as (j & Hj & Hat); [done..| |].
  { destruct Ha as (_ & Ho & ->). assert (0 <= total (take (_it a) runs)) by (by apply total_nonneg, Forall_take).
    assert (0 <= _pos a) by (destruct (drop (_it a) runs); cbn in Ho; lia). lia. }
  exists j. split; [|done]. destruct Ha as (Ha & Ho & ->). unfold advance in Hj. cbn [Z.geb Z.compare] in Hj.
  unfold increment. rewrite <- (Nat.add_0_r (_it a)) at 1. rewrite <- lookup_drop.
  destruct (drop (_it a) runs) as [|r rest] eqn:Ed; [done|]. cbn [forward Z.gtb Z.compare] in Hj. cbn.
  assert (length_ r <= total runs).
  { apply (lookup_length _ (_it a)); [done|]. rewrite <- (Nat.add_0_r (_it a)), <- lookup_drop, Ed. done. }
  cbn in Ho. rewrite wrap_small in Hj |- * by lia.
  destruct (Z.ltb_spec 1 (length_ r - _pos a)), (Z.eqb_spec (_pos a + 1) (length_ r)); try lia; [done|].
  replace (1 - (length_ r - _pos a)) with 0 in Hj by lia. destruct rest; exact Hj.
Qed.
Lemma decrement_spec runs i a : positive runs -> total runs < 2 ^ w -> at_index runs i a -> 0 < i <= total runs ->
  exists a', decrement w runs a = Some a' /\ at_index runs (i - 1) a'.
Proof.
  intros Hp Hw Ha Hi. destruct (advance_spec runs a i (-1)) as (j & Hj & Hat); [done..|lia|].
  exists j. split; [|done]. destruct Ha as (Ha & Ho & ->). unfold advance in Hj. change (-1 >=? 0) with false in Hj. change (- (-1)) with 1 in Hj.
  assert (0 <= _pos a) by (destruct (drop (_it a) runs); cbn in Ho; lia).
  assert (0 <= total (take (_it a) runs)) by (by apply total_nonneg, Forall_take).
  unfold decrement. destruct (Z.eqb_spec (_pos a) 0) as [Hz|Hz].
  - rewrite Hz in *. destruct (_it a) as [|it] eqn:Eit; [rewrite take_0 in Hi; cbn in Hi; lia|]. cbn [prev mbind option_bind].
    destruct (lookup_lt_is_Some_2 runs it) as [r Hr]; [lia|]. pose proof (lookup_length _ _ _ Hp Hr).
    pose proof (Forall_lookup_1 _ _ _ _ Hp Hr) as Hl. cbn in Hl. rewrite Hr. cbn. rewrite (take_S_r _ _ _ Hr), rev_app_distr in Hj.
    cbn in Hj. rewrite Nat.sub_0_r, wrap_small in Hj by lia. rewrite wrap_small by lia. by destruct (rev (take it runs)).
  - cbn [mbind option_bind]. rewrite <- Hj. assert (_pos a < 2 ^ w).
    { destruct (drop (_it a) runs) as [|r rest] eqn:Ed; cbn in Ho; [lia|].
      assert (Hr : runs !! _it a = Some r) by (by rewrite <- (Nat.add_0_r (_it a)), <- lookup_drop, Ed).
      pose proof (lookup_length _ _ _ Hp Hr). lia. }
    destruct (rev (take (_it a) runs)); cbn [backward Z.gtb Z.compare]; destruct (Z.leb_spec 1 (_pos a)); done || lia.
Qed.
End indices.
