(* ===== verification/RleRefinement.v ===== *)
(** * Run-length encoded vectors are vectors

    The operations of [til::basic_rle] simulate those of the vector of values that the
    runs stand for, and its iterators are indices of that vector. *)
From S2P Require Import Prelude.
From S2P Require Import Rle.
From S2P Require Import RleTheorems.
From S2P Require Import RleIterator.

(** ** The operations *)
Inductive operation (T : Type) :=
| Replace (start_index end_index : Z) (replacements : list (rle_pair T))
| ReplaceValue (start_index end_index : Z) (v : T)
| ReplaceValues (old_value new_value : T)
| Resize (new_size : Z)
| Slice (start_index end_index : Z).
Arguments Replace {T}.
Arguments ReplaceValue {T}.
Arguments ReplaceValues {T}.
Arguments Resize {T}.
Arguments Slice {T}.

Section operations.
Context {T : Type} `{EqDecision T, Inhabited T} (w : Z).
Implicit Types (b : basic_rle T) (l : list T) (op : operation T).

Definition of_option {A} (o : option A) : Outcome A := match o with Some a => Ret a | None => UB end.

Definition execute op b : Outcome (basic_rle T) :=
  match op with
  | Replace s e replacements => replace w s e replacements b
  | ReplaceValue s e v => replace_value w s e v b
  | ReplaceValues old_value new_value => Ret (replace_values w old_value new_value b)
  | Resize n => of_option (resize_trailing_extent w n b)
  | Slice s e => of_option (slice w s e b)
  end.

(** *** The vector *)
Definition size l : Z := Z.of_nat (length l).

Definition execute_list op l : Outcome (list T) :=
  match op with
  | Replace s e replacements =>
      let e := Z.min e (size l) in
      if s >? e then Throw else Ret (replaced s e (expand replacements) l)
  | ReplaceValue s e v =>
      let e := Z.min e (size l) in
      if s >? e then Throw else Ret (replaced s e (replicate (Z.to_nat (e - s)) v) l)
  | ReplaceValues old_value new_value => Ret (map (fun v => if decide (v = old_value) then new_value else v) l)
  | Resize n =>
      Ret (take (Z.to_nat n) l ++ match last l with Some v => replicate (Z.to_nat (n - size l)) v | None => [] end)
  | Slice s e => Ret (drop (Z.to_nat s) (take (Z.to_nat e) l))
  end.

(** What an operation expects: indices are unsigned, the replacements are runs of which none
    is empty, the new size fits [size_type], and only a vector with elements can grow. *)
Definition expects op l : Prop :=
  match op with
  | Replace s e replacements =>
      0 <= s /\ 0 <= e /\ positive replacements /\ compact replacements
      /\ size l + total replacements - (Z.min e (size l) - s) < 2 ^ w
  | ReplaceValue s e v => 0 <= s /\ 0 <= e /\ s <> Z.min e (size l)
  | ReplaceValues _ _ => True
  | Resize n => 0 <= n < 2 ^ w /\ (l = [] -> n = 0)
  | Slice s e => 0 <= s /\ 0 <= e
  end.

(** The runs stand for the vector. *)
Definition represents b l : Prop := well_formed w b /\ compact (_runs b) /\ expand (_runs b) = l.

Lemma represents_size b l : represents b l -> size l = _total_length b.
Proof. intros ((Hp & <- & _) & _ & <-). by apply length_expand. Qed.

Lemma check_indices_spec b s e : _check_indices s e b
  = if s >? Z.min e (_total_length b) then None else Some (Z.min e (_total_length b)).
Proof.
  unfold _check_indices. destruct (Z.gtb_spec e (_total_length b)); [rewrite Z.min_r by lia|rewrite Z.min_l by lia]; done.
Qed.

Lemma expand_joins (L R D : list (rle_pair T)) : positive L -> positive R -> positive D -> expand (join (join L R) D) = expand L ++ expand R ++ expand D.
Proof. intros HL HR HD. rewrite !expand_join by (try apply positive_join; done). by rewrite app_assoc. Qed.

Lemma replace_unchecked_represents b l s e replacements : represents b l -> 0 <= s <= e -> e <= size l ->
  positive replacements -> compact replacements -> size l + total replacements - (e - s) < 2 ^ w ->
  exists b', _replace_unchecked w s e replacements b = Some b' /\ represents b' (replaced s e (expand replacements) l).
Proof.
  intros Hrep Hs He Hp Hc Hw. pose proof (represents_size _ _ Hrep) as Hsize. destruct Hrep as (Hwf & Hcb & <-).
  pose proof Hwf as (Hpb & Htot & Hwb). rewrite Hsize in *.
  pose proof (take_runs_positive s _ Hpb) as HL. pose proof (drop_runs_positive e _ Hpb) as HD.
  pose proof (take_runs_compact s _ Hcb) as HLc. pose proof (drop_runs_compact e _ Hcb) as HDc.
  destruct (total_split _ s Hpb) as [HtL _]; [lia|]. destruct (total_split _ e Hpb) as [_ HtD]; [lia|].
  unfold represents, replaced. rewrite <- expand_take_runs, <- expand_drop_runs by done.
  destruct (decide (replacements = [])) as [->|Hne].
  - rewrite remove_runs by (done || lia). eexists. split; [done|]. cbn [_runs _total_length total] in *.
    split_and!; [split_and!; [by apply positive_join|cbn; rewrite total_join; lia|cbn; lia]|by apply compact_join|].
    by rewrite expand_join.
  - rewrite replace_runs by (done || lia || by apply positive_nonneg). eexists. split; [done|]. cbn [_runs _total_length].
    split_and!; [|by repeat apply compact_join|by apply expand_joins].
    split_and!; [by repeat apply positive_join|cbn; rewrite !total_join; lia|cbn; lia].
Qed.

Lemma replace_represents b l s e replacements : represents b l -> expects (Replace s e replacements) l ->
  match execute_list (Replace s e replacements) l with
  | Ret l' => exists b', replace w s e replacements b = Ret b' /\ represents b' l'
  | _ => replace w s e replacements b = Throw
  end.
Proof.
  intros Hrep (Hs & He & Hp & Hc & Hw). pose proof (represents_size _ _ Hrep) as Hsize. cbn. unfold replace.
  rewrite check_indices_spec, <- Hsize. destruct (Z.gtb_spec s (Z.min e (size l))); [done|].
  destruct (replace_unchecked_represents b l s (Z.min e (size l)) replacements) as (b' & -> & ?); [done|lia|lia|done..|]. eauto.
Qed.

Lemma replace_value_represents b l s e v : represents b l -> expects (ReplaceValue s e v) l ->
  match execute_list (ReplaceValue s e v) l with
  | Ret l' => exists b', replace_value w s e v b = Ret b' /\ represents b' l'
  | _ => replace_value w s e v b = Throw
  end.
Proof.
  intros Hrep (Hs & He & Hne). pose proof (represents_size _ _ Hrep) as Hsize. cbn. unfold replace_value.
  rewrite check_indices_spec, <- Hsize. destruct (Z.gtb_spec s (Z.min e (size l))); [done|].
  assert (size l < 2 ^ w) by (rewrite Hsize; by destruct Hrep as ((_ & _ & ?) & _)). rewrite wrap_small by lia.
  destruct (replace_unchecked_represents b l s (Z.min e (size l)) [mkRun v (Z.min e (size l) - s)]) as (b' & -> & Hb');
    [done|lia|lia|by repeat constructor; cbn; lia|done|cbn; lia|].
  exists b'. split; [done|]. by rewrite expand_cons, app_nil_r in Hb'.
Qed.

Lemma slice_represents b l s e : represents b l -> 0 <= s -> 0 <= e ->
  exists b', slice w s e b = Some b' /\ represents b' (drop (Z.to_nat s) (take (Z.to_nat e) l)).
Proof.
  intros Hrep Hs He. pose proof (represents_size _ _ Hrep) as Hsize. destruct Hrep as (Hwf & Hcb & <-).
  pose proof Hwf as (Hpb & Htot & Hwb). unfold size in Hsize.
  assert (Hmin : slice w s e b = slice w s (Z.min e (_total_length b)) b).
  { unfold slice at 1 2. destruct (Z.gtb_spec e (_total_length b)), (Z.gtb_spec (Z.min e (_total_length b)) (_total_length b)); try lia;
      [by rewrite Z.min_r by lia|by rewrite Z.min_l by lia]. }
  assert (Htake : take (Z.to_nat e) (expand (_runs b)) = take (Z.to_nat (Z.min e (_total_length b))) (expand (_runs b))).
  { destruct (decide (e <= _total_length b)); [by rewrite Z.min_l|]. rewrite !take_ge by lia. done. }
  rewrite Hmin, Htake. set (m := Z.min e (_total_length b)). destruct (decide (s < m)) as [Hlt|Hge].
  - rewrite slice_runs by (done || lia). eexists. split; [done|].
    destruct (total_split _ s Hpb) as [_ HtD]; [lia|]. pose proof (drop_runs_positive s _ Hpb) as HD.
    destruct (total_split _ (m - s) HD) as [HtT _]; [lia|].
    split_and!; [split_and!; [by apply take_runs_positive|done|cbn; lia]|by apply take_runs_compact, drop_runs_compact|].
    cbn [_runs]. rewrite expand_take_runs, expand_drop_runs by done. rewrite take_drop_commute. do 2 f_equal. lia.
  - exists (mkRle [] 0). split.
    + unfold slice. destruct (Z.gtb_spec m (_total_length b)); [lia|]. rewrite Z.geb_leb. destruct (Z.leb_spec m s); [done|lia].
    + split_and!; [split_and!; [by apply Forall_nil|done|cbn; pose proof (total_nonneg _ Hpb); lia]|done|].
      rewrite drop_ge; [done|]. rewrite length_take. lia.
Qed.

(** One operation. *)
Lemma execute_represents op b l : represents b l -> expects op l ->
  match execute_list op l with
  | Ret l' => exists b', execute op b = Ret b' /\ represents b' l'
  | _ => execute op b = Throw
  end.
Proof.
  intros Hrep Hex. destruct op as [s e replacements|s e v|old_value new_value|n|s e].
  - by apply replace_represents.
  - by apply replace_value_represents.
  - destruct Hrep as (Hwf & Hc & <-). cbn [execute execute_list].
    destruct (replace_values_spec w b old_value new_value Hwf) as (? & ? & ?). eexists. done.
  - pose proof (represents_size _ _ Hrep) as Hsize. destruct Hrep as (Hwf & Hc & <-). destruct Hex as [Hn Hne].
    destruct (resize_trailing_extent_spec w b n Hwf Hn) as (b' & Hb' & Hwf' & _ & Hc' & He).
    { intros E. apply Hne. by rewrite E. }
    cbn [execute execute_list]. rewrite Hb'. exists b'. split; [done|]. split_and!; [done|by apply Hc'|]. by rewrite He, Hsize.
  - destruct Hex as [Hs He]. destruct (slice_represents b l s e Hrep Hs He) as (b' & Hb' & Hr). cbn [execute execute_list].
    rewrite Hb'. exists b'. done.
Qed.
End operations.

(** ** Construction *)
Lemma of_value_represents {T : Type} (w : Z) (n : Z) (v : T) : 0 <= n < 2 ^ w ->
  represents w (of_value n v) (replicate (Z.to_nat n) v).
Proof.
  intros Hn. unfold of_value. destruct (Z.eqb_spec n 0) as [->|Hz]; cbn [negb].
  - split_and!; [split_and!; [by apply Forall_nil|done|cbn; lia]|done|done].
  - split_and!; [split_and!; [by repeat constructor; cbn; lia|cbn; lia|cbn; lia]|done|]. cbn [_runs]. by rewrite expand_cons, app_nil_r.
Qed.

Lemma of_runs_represents {T : Type} (w : Z) (runs : list (rle_pair T)) :
  positive runs -> compact runs -> total runs < 2 ^ w -> represents w (of_runs w runs) (expand runs).
Proof.
  intros Hp Hc Hw. unfold of_runs. pose proof (total_nonneg _ Hp).
  rewrite sum_lengths_spec, Z.add_0_l by (try apply positive_nonneg; done || lia). done.
Qed.

(** ** Sequences of operations *)
Section histories.
Context {T : Type} `{EqDecision T, Inhabited T} (w : Z).
Implicit Types (b : basic_rle T) (l : list T) (ops : list (operation T)).

(** The operations one after the other, up to the first that throws. *)
Fixpoint execute_all ops b : Outcome (basic_rle T) :=
  match ops with
  | [] => Ret b
  | op :: ops => match execute w op b with Ret b => execute_all ops b | Throw => Throw | UB => UB | OutOfFuel => OutOfFuel end
  end.
Fixpoint execute_list_all ops l : Outcome (list T) :=
  match ops with
  | [] => Ret l
  | op :: ops => match execute_list op l with Ret l => execute_list_all ops l | Throw => Throw | UB => UB | OutOfFuel => OutOfFuel end
  end.
Fixpoint expects_all ops l : Prop :=
  match ops with
  | [] => True
  | op :: ops => expects w op l /\ match execute_list op l with Ret l => expects_all ops l | _ => True end
  end.

(** Writing a value over an empty range changes no value, but it can leave a run without elements. *)
Definition same_values b l : Prop := nonneg (_runs b) /\ expand (_runs b) = l /\ total (_runs b) = _total_length b /\ _total_length b = size l.

Lemma empty_range_keeps_values b l s e v : represents w b l -> 0 <= s -> s = Z.min e (size l) ->
  exists b', execute w (ReplaceValue s e v) b = Ret b' /\ same_values b' l.
Proof.
  intros Hrep Hs Heq. pose proof (represents_size w b l Hrep) as Hsize. destruct Hrep as (Hwf & Hc & Hl). pose proof Hwf as (Hp & Htot & Hw).
  cbn. unfold replace_value. rewrite check_indices_spec, <- Hsize, <- Heq. destruct (Z.gtb_spec s s); [lia|].
  rewrite Z.sub_diag, wrap_small, replace_runs by (done || lia || cbn; lia || by repeat constructor). eexists. split; [done|].
  pose proof (positive_nonneg _ (take_runs_positive s _ Hp)) as HL. pose proof (positive_nonneg _ (drop_runs_positive s _ Hp)) as HD.
  assert (Hone : nonneg [mkRun v 0]) by by repeat constructor.
  destruct (total_split _ s Hp) as [HtL HtD]; [lia|]. unfold same_values. cbn [_runs _total_length].
  split_and!; [by repeat apply nonneg_join| |rewrite !total_join; cbn; lia|cbn; lia].
  rewrite !expand_join_nonneg by (done || by apply nonneg_join). rewrite expand_take_runs, expand_drop_runs, Hl by done. cbn. by rewrite app_nil_r, take_drop.
Qed.

(** C30: a sequence of operations on a run-length encoded vector has the outcome of the
    same operations on the plain vector of its values: it throws where they throw, no
    operation reads or writes outside the runs, and where they return, the runs stand for
    the resulting vector, none of them is empty, no two neighbours have the same value and
    the total length is the sum of the lengths. What is asked of the operations: indices are not negative, replacements are runs
    that are not empty and differ from their neighbours, the size fits its type, an empty vector does not grow, and a single value is not
    written over an empty range. If the next operation is such a write it returns and changes no value, but it can leave a run without elements. *)
Theorem rle_refines_vector ops b l : represents w b l -> expects_all ops l ->
  match execute_list_all ops l with
  | Ret l' => exists b', execute_all ops b = Ret b' /\ represents w b' l'
      /\ forall s e v, 0 <= s -> s = Z.min e (size l') -> exists b2, execute w (ReplaceValue s e v) b' = Ret b2 /\ same_values b2 l'
  | _ => execute_all ops b = Throw
  end.
Proof.
  revert b l. induction ops as [|op ops IH]; intros b l Hrep Hex; cbn [execute_all execute_list_all].
  { exists b. split_and!; [done|done|]. intros s e v. by apply empty_range_keeps_values. }
  destruct Hex as [Hop Hex]. pose proof (execute_represents w op b l Hrep Hop) as Hstep.
  destruct (execute_list op l) as [l'| | |]; try (by rewrite Hstep).
  destruct Hstep as (b' & -> & Hrep'). by apply IH.
Qed.
End histories.

Section claims.
Context {T : Type} `{EqDecision T, Inhabited T} (w : Z).
Implicit Types (b : basic_rle T).

(** Iterators are indices of the vector. Moving from the beginning to the index [i] and
    from there by [j - i] leads where moving by [j] does; the difference of the two
    iterators is [j - i]; they compare as the indices do; dereferencing gives the element
    at the index, and the end for the index past it; and incrementing and decrementing are
    moves by one. *)
Theorem rle_iterators_are_indices b l i j : represents w b l -> 0 <= i <= size l -> 0 <= j <= size l ->
  let runs := _runs b in
  exists x y, advance w runs begin_ i = Some x /\ advance w runs begin_ j = Some y
    /\ advance w runs x (j - i) = Some y
    /\ difference runs y x = j - i
    /\ less x y = (i <? j) /\ equal x y = (i =? j)
    /\ dereference runs x = l !! Z.to_nat i
    /\ (i = size l -> x = end_ runs)
    /\ (i < size l -> increment w runs x = advance w runs x 1)
    /\ (0 < i -> decrement w runs x = advance w runs x (-1)).
Proof.
  intros Hrep Hi Hj runs. pose proof (represents_size _ _ _ Hrep) as Hsize. destruct Hrep as ((Hp & Htot & Hw) & _ & <-).
  fold runs in Hp, Htot, Hsize, Hi, Hj |- *.
  assert (Hbegin : at_index runs 0 begin_).
  { apply (at_index_app [] runs 0). destruct Hp; cbn; lia. }
  assert (Hend : at_index runs (total runs) (end_ runs)).
  { pose proof (at_index_app runs [] 0 eq_refl) as Hat. by rewrite app_nil_r, Z.add_0_r in Hat. }
  assert (Hmove : forall k c move, at_index runs k c -> 0 <= k + move <= size (expand runs) ->
    exists d, advance w runs c move = Some d /\ at_index runs (k + move) d).
  { intros k c move Hc Hk. apply advance_spec; [done|lia|done|lia]. }
  destruct (Hmove 0 begin_ i Hbegin) as (x & Hx & Hxi); [lia|]. destruct (Hmove 0 begin_ j Hbegin) as (y & Hy & Hyj); [lia|].
  rewrite Z.add_0_l in *. exists x, y.
  destruct (Hmove i x (j - i) Hxi) as (y' & Hy' & Hyj'); [lia|]. replace (i + (j - i)) with j in Hyj' by lia.
  split_and!; [done|done| |by apply difference_spec|by apply (at_index_order runs i j x y)|by apply (at_index_order runs i j x y)|by apply dereference_spec| | |].
  - rewrite Hy'. f_equal. by eapply at_index_unique.
  - intros Heq. assert (i = total runs) as -> by lia. by eapply at_index_unique.
  - intros Hlt. destruct (Hmove i x 1 Hxi) as (z & -> & Hz); [lia|].
    destruct (increment_spec w runs i x) as (z' & -> & Hz'); [done|lia|done|lia|]. f_equal. by eapply at_index_unique.
  - intros Hlt. destruct (Hmove i x (-1) Hxi) as (z & -> & Hz); [lia|].
    destruct (decrement_spec w runs i x) as (z' & -> & Hz'); [done|lia|done|lia|]. f_equal. by eapply at_index_unique.
Qed.

(** After writing a value over a range of indices, reading gives that value in the range,
    what was there before outside of it, and throws past the end. *)
Theorem rle_write_read b l s e v p : represents w b l -> 0 <= s < e -> e <= size l -> 0 <= p ->
  exists b', replace_value w s e v b = Ret b' /\ size l = _total_length b'
    /\ at_ w p b' = if (s <=? p) && (p <? e) then Ret v else at_ w p b.
Proof.
  intros Hrep Hs He Hp. pose proof (represents_size _ _ _ Hrep) as Hsize.
  pose proof (replace_value_represents w b l s e v Hrep) as Hv. cbn in Hv.
  rewrite Z.min_l in Hv by lia. destruct (Z.gtb_spec s e); [lia|]. destruct Hv as (b' & Hb' & Hrep'); [lia|].
  exists b'. split; [done|]. pose proof (represents_size _ _ _ Hrep') as Hsize'.
  assert (Hl : length (replaced s e (replicate (Z.to_nat (e - s)) v) l) = length l).
  { unfold replaced, size in *. rewrite !length_app, length_take, length_replicate, length_drop. lia. }
  split; [by unfold size in *; rewrite <- Hl|].
  rewrite (at_spec w b') by (try apply Hrep'; done). rewrite (at_spec w b) by (try apply Hrep; done).
  destruct Hrep as (_ & _ & ->), Hrep' as (_ & _ & ->). unfold replaced, size in *.
  destruct (Z.leb_spec s p), (Z.ltb_spec p e); cbn [andb]; [| | |lia].
  - rewrite lookup_app_r, lookup_app_l by (rewrite ?length_take, ?length_replicate; lia).
    rewrite lookup_replicate_2; [done|rewrite length_take; lia].
  - rewrite app_assoc, lookup_app_r by (rewrite length_app, length_take, length_replicate; lia).
    rewrite length_app, length_take, length_replicate, lookup_drop.
    match goal with |- context [l !! ?k] => replace k with (Z.to_nat p) by lia end. done.
  - rewrite lookup_app_l by (rewrite length_take; lia). by rewrite lookup_take_lt by lia.
Qed.
End claims.

(** ** Instances *)
Section witnesses.
Abbreviation runs l := (map (fun '(v, n) => mkRun v n) l).

Definition sample_values : list Z := [1; 1; 1; 2; 2; 2; 3; 3; 3].

Lemma sample_represents : represents 16 sample sample_values.
Proof. split_and!; [split_and!; [by repeat constructor|done|done]|done..]. Qed.

Definition sample_operations : list (operation Z) :=
  [Replace 2 5 (runs [(1, 2); (4, 1); (2, 1)]); ReplaceValue 0 3 7; ReplaceValues 7 1; Resize 12; Slice 3 40; Replace 8 2 []].

Lemma rle_refines_vector_witness :
  execute_list_all (take 5 sample_operations) sample_values = Ret [1; 4; 2; 2; 3; 3; 3; 3; 3]
  /\ execute_all 16 sample_operations sample = Throw.
Proof.
  split; [reflexivity|].
  apply (rle_refines_vector 16 sample_operations sample sample_values sample_represents).
  vm_compute. repeat split; by repeat constructor.
Defined.

Lemma rle_iterators_are_indices_witness :
  advance 16 (_runs sample) begin_ 7 = Some (mkIterator 2 1) /\ advance 16 (_runs sample) (mkIterator 2 1) (-5) = Some (mkIterator 0 2).
Proof.
  destruct (rle_iterators_are_indices 16 sample sample_values 7 2 sample_represents) as (x & y & Hx & Hy & Hxy & _); [unfold size; cbn; lia..|].
  split; [reflexivity|]. vm_compute in Hx, Hy. injection Hx as <-. injection Hy as <-. exact Hxy.
Defined.

Lemma rle_write_read_witness :
  exists b', replace_value 16 2 7 9 sample = Ret b' /\ at_ 16 6 b' = Ret 9 /\ at_ 16 7 sample = Ret 3.
Proof.
  destruct (rle_write_read 16 sample sample_values 2 7 9 6 sample_represents) as (b' & Hb' & _ & Hat); [unfold size; cbn; lia..|].
  exists b'. split; [exact Hb'|]. split; [exact Hat|reflexivity].
Defined.

(** Writing a value over an empty range leaves an empty run, in which an iterator stays. *)
Example empty_range_leaves_empty_run :
  exists b', replace_value 16 1 1 9 sample = Ret b'
    /\ _runs b' = runs [(1, 1); (9, 0); (1, 2); (2, 3); (3, 3)]
    /\ (i ← increment 16 (_runs b') begin_; j ← increment 16 (_runs b') i; dereference (_runs b') j) = Some 9.
Proof. by eexists. Qed.

(** The postfix operators return the moved copy and leave the iterator where it is. *)
Example postfix_operators_do_not_move :
  post_increment 16 (_runs sample) begin_ = Some (begin_, mkIterator 0 1)
  /\ post_decrement 16 (_runs sample) (end_ (_runs sample)) = Some (end_ (_runs sample), mkIterator 2 2).
Proof. done. Qed.
End witnesses.
