(* ===== verification/InputEvents.v ===== *)
(** * Input events

    The console's input records ([INPUT_RECORD] of the Windows API) with the functions that
    make them ([src/types/inc/IInputEvent.hpp]), the virtual keys and the state flags. *)
From S2P Require Import Prelude.

(** ** Flags: the [WI_...] macros *)
Definition WI_IsFlagSet (val flag : Z) : bool := negb (Z.land val flag =? 0).
Definition WI_IsFlagClear (val flag : Z) : bool := negb (WI_IsFlagSet val flag).
Definition WI_IsAnyFlagSet (val flags : Z) : bool := negb (Z.land val flags =? 0).
Definition WI_AreAllFlagsSet (val flags : Z) : bool := Z.land val flags =? flags.
Definition WI_SetFlag (val flag : Z) : Z := Z.lor val flag.
Definition WI_ClearFlag (val flag : Z) : Z := Z.ldiff val flag.
Definition WI_SetFlagIf (val flag : Z) (condition : bool) : Z := if condition then WI_SetFlag val flag else val.
Definition WI_ClearFlagIf (val flag : Z) (condition : bool) : Z := if condition then WI_ClearFlag val flag else val.
Definition WI_UpdateFlag (val flag : Z) (isSet : bool) : Z := if isSet then WI_SetFlag val flag else WI_ClearFlag val flag.

(** [base::saturated_cast]. *)
Definition saturated_cast (low high v : Z) : Z := Z.max low (Z.min high v).

(** ** [dwControlKeyState] *)
Definition RIGHT_ALT_PRESSED : Z := 0x0001.
Definition LEFT_ALT_PRESSED : Z := 0x0002.
Definition RIGHT_CTRL_PRESSED : Z := 0x0004.
Definition LEFT_CTRL_PRESSED : Z := 0x0008.
Definition SHIFT_PRESSED : Z := 0x0010.
Definition NUMLOCK_ON : Z := 0x0020.
Definition SCROLLLOCK_ON : Z := 0x0040.
Definition CAPSLOCK_ON : Z := 0x0080.
Definition ENHANCED_KEY : Z := 0x0100.
Definition ALT_PRESSED : Z := Z.lor RIGHT_ALT_PRESSED LEFT_ALT_PRESSED.
Definition CTRL_PRESSED : Z := Z.lor RIGHT_CTRL_PRESSED LEFT_CTRL_PRESSED.

(** ** Virtual keys *)
Definition VK_BACK : Z := 0x08.
Definition VK_TAB : Z := 0x09.
Definition VK_CLEAR : Z := 0x0C.
Definition VK_RETURN : Z := 0x0D.
Definition VK_SHIFT : Z := 0x10.
Definition VK_CONTROL : Z := 0x11.
Definition VK_MENU : Z := 0x12.
Definition VK_PAUSE : Z := 0x13.
Definition VK_CAPITAL : Z := 0x14.
Definition VK_ESCAPE : Z := 0x1B.
Definition VK_SPACE : Z := 0x20.
Definition VK_PRIOR : Z := 0x21.
Definition VK_NEXT : Z := 0x22.
Definition VK_END : Z := 0x23.
Definition VK_HOME : Z := 0x24.
Definition VK_LEFT : Z := 0x25.
Definition VK_UP : Z := 0x26.
Definition VK_RIGHT : Z := 0x27.
Definition VK_DOWN : Z := 0x28.
Definition VK_SNAPSHOT : Z := 0x2C.
Definition VK_INSERT : Z := 0x2D.
Definition VK_DELETE : Z := 0x2E.
Definition VK_LWIN : Z := 0x5B.
Definition VK_RWIN : Z := 0x5C.
Definition VK_APPS : Z := 0x5D.
Definition VK_NUMPAD0 : Z := 0x60.
Definition VK_NUMPAD9 : Z := 0x69.
Definition VK_MULTIPLY : Z := 0x6A.
Definition VK_ADD : Z := 0x6B.
Definition VK_SEPARATOR : Z := 0x6C.
Definition VK_SUBTRACT : Z := 0x6D.
Definition VK_DECIMAL : Z := 0x6E.
Definition VK_DIVIDE : Z := 0x6F.
Definition VK_F1 : Z := 0x70.
Definition VK_F2 : Z := 0x71.
Definition VK_F3 : Z := 0x72.
Definition VK_F4 : Z := 0x73.
Definition VK_F5 : Z := 0x74.
Definition VK_F6 : Z := 0x75.
Definition VK_F7 : Z := 0x76.
Definition VK_F8 : Z := 0x77.
Definition VK_F9 : Z := 0x78.
Definition VK_F10 : Z := 0x79.
Definition VK_F11 : Z := 0x7A.
Definition VK_F12 : Z := 0x7B.
Definition VK_F13 : Z := 0x7C.
Definition VK_F20 : Z := 0x83.
Definition VK_F24 : Z := 0x87.
Definition VK_NUMLOCK : Z := 0x90.
Definition VK_SCROLL : Z := 0x91.
Definition VK_LSHIFT : Z := 0xA0.
Definition VK_RSHIFT : Z := 0xA1.
Definition VK_LCONTROL : Z := 0xA2.
Definition VK_RCONTROL : Z := 0xA3.
Definition VK_LMENU : Z := 0xA4.
Definition VK_RMENU : Z := 0xA5.
Definition VK_VOLUME_MUTE : Z := 0xAD.
Definition VK_VOLUME_DOWN : Z := 0xAE.
Definition VK_VOLUME_UP : Z := 0xAF.
Definition VK_MEDIA_NEXT_TRACK : Z := 0xB0.
Definition VK_MEDIA_PREV_TRACK : Z := 0xB1.
Definition VK_MEDIA_STOP : Z := 0xB2.
Definition VK_MEDIA_PLAY_PAUSE : Z := 0xB3.
Definition VK_PACKET : Z := 0xE7.

(** ** Records *)
Record KEY_EVENT_RECORD := mkKeyEvent {
  bKeyDown : bool;
  wRepeatCount : Z;
  wVirtualKeyCode : Z;
  wVirtualScanCode : Z;
  UnicodeChar : wchar_t;
  dwControlKeyState : Z }.

Record MOUSE_EVENT_RECORD := mkMouseEvent {
  dwMousePosition : Z * Z;
  dwButtonState : Z;
  mouseControlKeyState : Z;
  dwEventFlags : Z }.

Inductive INPUT_RECORD :=
| KeyEvent (event : KEY_EVENT_RECORD)
| MouseEvent (event : MOUSE_EVENT_RECORD)
| OtherEvent.

#[export] Instance KEY_EVENT_RECORD_eq_dec : EqDecision KEY_EVENT_RECORD.
Proof. solve_decision. Defined.
#[export] Instance MOUSE_EVENT_RECORD_eq_dec : EqDecision MOUSE_EVENT_RECORD.
Proof. solve_decision. Defined.
#[export] Instance INPUT_RECORD_eq_dec : EqDecision INPUT_RECORD.
Proof. solve_decision. Defined.

Definition SynthesizeKeyEvent (keyDown : bool) (repeatCount virtualKeyCode virtualScanCode : Z)
    (unicodeChar : wchar_t) (controlKeyState : Z) : INPUT_RECORD :=
  KeyEvent (mkKeyEvent keyDown repeatCount virtualKeyCode virtualScanCode unicodeChar controlKeyState).

Definition saturated_SHORT : Z -> Z := saturated_cast (-32768) 32767.

Definition SynthesizeMouseEvent (mousePosition : Z * Z) (buttonState controlKeyState eventFlags : Z) : INPUT_RECORD :=
  MouseEvent (mkMouseEvent (saturated_SHORT mousePosition.1, saturated_SHORT mousePosition.2)
                           buttonState controlKeyState eventFlags).

(** The fields of a key event fit their types. *)
Definition key_event_ok (key : KEY_EVENT_RECORD) : Prop :=
  0 <= wRepeatCount key < 65536 /\ 0 <= wVirtualKeyCode key < 65536 /\ 0 <= wVirtualScanCode key < 65536
  /\ is_wchar (UnicodeChar key) /\ 0 <= dwControlKeyState key < 2 ^ 32.
