(* ===== verification/InputEngine.v ===== *)
(** * The input engine

    Models [src/terminal/parser/InputStateMachineEngine.cpp] and its header: what the parser
    does with the sequences a terminal sends. The actions turn them into input records for
    the dispatcher ([IInteractDispatch], [src/terminal/adapter/IInteractDispatch.hpp]), or
    refuse them, whereupon the parser passes the text through. The dispatcher, the clock and
    the keyboard layout are parameters. *)
From S2P Require Import Prelude DispatchTypes StateMachine.
From S2P Require Import ITermDispatch.
From S2P Require Import InputEvents.

Declare Scope action_scope.
Notation "'let*' x := m 'in' k" := (act_bind m (fun x => k)) (at level 10, x name, m at level 100, k at level 200) : action_scope.
Notation "m 'then*' k" := (act_bind m (fun _ => k)) (at level 199, right associativity) : action_scope.
Open Scope action_scope.

(** ** The dispatcher *)
Module IInteractDispatch.
Inductive Call :=
| WriteInput (inputEvents : list INPUT_RECORD)
| WriteCtrlKey (event : INPUT_RECORD)
| WriteString (string : wstring)
| WriteStringRaw (string : wstring)
| MoveCursor (row col : Z)
| FocusChanged (focused : bool).
End IInteractDispatch.
Import IInteractDispatch.

Class InteractDispatch (D : Type) : Type := {
  IsVtInputEnabled : D -> bool;
  interact : IInteractDispatch.Call -> D -> D * EngineOutcome unit;
  (** [std::chrono::steady_clock::now()]. *)
  steady_clock_now : D -> D * Z
}.

(** ** Constants of the header *)
Definition KEYSCAN_SHIFT : Z := 1.
Definition KEYSCAN_CTRL : Z := 2.
Definition KEYSCAN_ALT : Z := 4.
Definition VT_SHIFT : Z := 1.
Definition VT_ALT : Z := 2.
Definition VT_CTRL : Z := 4.
Definition SCROLL_DELTA_BACKWARD : Z := 0xFF800000.
Definition SCROLL_DELTA_FORWARD : Z := 0x00800000.

Module CsiCodes.
Definition ArrowUp := vtid "A".
Definition ArrowDown := vtid "B".
Definition ArrowRight := vtid "C".
Definition ArrowLeft := vtid "D".
Definition Home := vtid "H".
Definition End_ := vtid "F".
Definition FocusIn := vtid "I".
Definition FocusOut := vtid "O".
Definition MouseDown := vtid "<M".
Definition MouseUp := vtid "<m".
Definition Generic := vtid "~".
Definition CSI_F1 := vtid "P".
Definition CSI_F2 := vtid "Q".
Definition CSI_F3 := vtid "R".
Definition CSI_F4 := vtid "S".
Definition DA_DeviceAttributes := vtid "?c".
Definition CursorBackTab := vtid "Z".
Definition Win32KeyboardInput := vtid "_".
End CsiCodes.

Module CsiMouseButtonCodes.
Definition Left := 0.
Definition Middle := 1.
Definition Right := 2.
Definition Released := 3.
Definition ScrollForward := 4.
Definition ScrollBack := 5.
Definition ScrollLeft := 6.
Definition ScrollRight := 7.
End CsiMouseButtonCodes.

Module CsiMouseModifierCodes.
Definition Shift := 4.
Definition Meta := 8.
Definition Ctrl := 16.
Definition Drag := 32.
End CsiMouseModifierCodes.

Definition GenericKeyIdentifiers_Next : Z := 6.

(** [MOUSE_EVENT_RECORD] flags. *)
Definition FROM_LEFT_1ST_BUTTON_PRESSED : Z := 0x0001.
Definition RIGHTMOST_BUTTON_PRESSED : Z := 0x0002.
Definition FROM_LEFT_2ND_BUTTON_PRESSED : Z := 0x0004.
Definition MOUSE_MOVED : Z := 0x0001.
Definition DOUBLE_CLICK : Z := 0x0002.
Definition MOUSE_WHEELED : Z := 0x0004.
Definition MOUSE_HWHEELED : Z := 0x0008.

(** ** The key tables *)
Definition s_csiMap : list (Z * Z) :=
  [(CsiCodes.ArrowUp, VK_UP); (CsiCodes.ArrowDown, VK_DOWN); (CsiCodes.ArrowRight, VK_RIGHT); (CsiCodes.ArrowLeft, VK_LEFT);
   (CsiCodes.Home, VK_HOME); (CsiCodes.End_, VK_END); (CsiCodes.CSI_F1, VK_F1); (CsiCodes.CSI_F2, VK_F2);
   (CsiCodes.CSI_F3, VK_F3); (CsiCodes.CSI_F4, VK_F4)].
Definition s_genericMap : list (Z * Z) :=
  [(1, VK_HOME); (2, VK_INSERT); (3, VK_DELETE); (4, VK_END); (5, VK_PRIOR); (6, VK_NEXT);
   (15, VK_F5); (17, VK_F6); (18, VK_F7); (19, VK_F8); (20, VK_F9); (21, VK_F10); (23, VK_F11); (24, VK_F12)].
Definition s_ss3Map : list (Z * Z) :=
  [(0x41, VK_UP); (0x42, VK_DOWN); (0x43, VK_RIGHT); (0x44, VK_LEFT); (0x46, VK_END); (0x48, VK_HOME);
   (0x50, VK_F1); (0x51, VK_F2); (0x52, VK_F3); (0x53, VK_F4)].

(** [std::find] by the first component. *)
Definition findVkey (table : list (Z * Z)) (code : Z) : option Z :=
  switch code (map (fun '(c, vkey) => (c, Some vkey)) table) None.
Definition _GetGenericVkey (identifier : Z) : option Z := findVkey s_genericMap identifier.
Definition _GetCursorKeysVkey (id : Z) : option Z := findVkey s_csiMap id.
Definition _GetSs3KeysVkey (wch : wchar_t) : option Z := findVkey s_ss3Map wch.

(** ** Modifiers *)
Definition _GetModifier (modifierParam : Z) : Z :=
  let vtParam := u64 (modifierParam - 1) in
  let modifierState := 0 in
  let modifierState := WI_SetFlagIf modifierState SHIFT_PRESSED (WI_IsFlagSet vtParam VT_SHIFT) in
  let modifierState := WI_SetFlagIf modifierState LEFT_ALT_PRESSED (WI_IsFlagSet vtParam VT_ALT) in
  WI_SetFlagIf modifierState LEFT_CTRL_PRESSED (WI_IsFlagSet vtParam VT_CTRL).

Definition _GetCursorKeysModifierState (parameters : VTParameters) (id : Z) : Z :=
  let modifiers := _GetModifier (VTParameter.to_VTInt (VTParameters.at_ parameters 1)) in
  if (id <? CsiCodes.CSI_F1) || (id >? CsiCodes.CSI_F4) then WI_SetFlag modifiers ENHANCED_KEY else modifiers.

Definition _GetGenericKeysModifierState (parameters : VTParameters) : Z :=
  let modifiers := _GetModifier (VTParameter.to_VTInt (VTParameters.at_ parameters 1)) in
  let identifier := VTParameter.to_enum (VTParameters.at_ parameters 0) in
  if identifier <=? GenericKeyIdentifiers_Next then WI_SetFlag modifiers ENHANCED_KEY else modifiers.

Definition _GetSGRMouseModifierState (modifierParam : Z) : Z :=
  let modifiers := 0 in
  let modifiers := WI_SetFlagIf modifiers SHIFT_PRESSED (WI_IsFlagSet modifierParam CsiMouseModifierCodes.Shift) in
  let modifiers := WI_SetFlagIf modifiers LEFT_ALT_PRESSED (WI_IsFlagSet modifierParam CsiMouseModifierCodes.Meta) in
  WI_SetFlagIf modifiers LEFT_CTRL_PRESSED (WI_IsFlagSet modifierParam CsiMouseModifierCodes.Ctrl).

(** ** Serialized keys *)
Definition saturated_uint16 : Z -> Z := saturated_cast 0 65535.
Definition saturated_uint32 : Z -> Z := saturated_cast 0 4294967295.

Definition _GenerateWin32Key (parameters : VTParameters) : INPUT_RECORD :=
  let at_ i d := VTParameter.value_or (VTParameters.at_ parameters i) d in
  SynthesizeKeyEvent
    (negb (at_ 3%nat 0 =? 0))
    (saturated_uint16 (at_ 5%nat 1))
    (saturated_uint16 (at_ 0%nat 0))
    (saturated_uint16 (at_ 1%nat 0))
    (saturated_uint16 (at_ 2%nat 0))
    (saturated_uint32 (at_ 4%nat 0)).

(** Not called by the engine. *)
Definition _GetWindowManipulationType (parameters : list Z) : option Z :=
  match parameters with
  | [] => None
  | p :: _ => switch p [(7, Some 7); (8, Some 8)] None
  end.

(** The attributes of a DA1 report. *)
Definition deviceAttributes (parameters : VTParameters) : Z :=
  let len := VTParameters.size parameters in
  if (2 <=? len)%nat && (61 <=? VTParameter.value (VTParameters.at_ parameters 0)) then
    fold_left (fun attributes i =>
        let value := VTParameter.value (VTParameters.at_ parameters i) in
        if (0 <? value) && (value <? 64) then Z.lor attributes (enumset.of_pos value) else attributes)
      (seq 1 (len - 1)) (enumset.of_pos 0)
  else enumset.of_pos 0.

(** ** The object *)
Section InputStateMachineEngine.
Context {D : Type} {dispatch : InteractDispatch D}.
(** [OneCoreSafeVkKeyScanW] and [OneCoreSafeMapVirtualKeyW]. *)
Context (vkKeyScan : wchar_t -> Z) (mapVirtualKey : Z -> Z -> Z).
Definition MAPVK_VK_TO_VSC : Z := 0.
Definition MAPVK_VK_TO_CHAR : Z := 2.

Record InputStateMachineEngine := mkInputStateMachineEngine {
  _pDispatch : D;
  _deviceAttributes : Z;
  _captureNextCursorPositionReport : bool;
  _encounteredWin32InputModeSequence : bool;
  _expectingStringTerminator : bool;
  _mouseButtonState : Z;
  _doubleClickTime : Z;
  _lastMouseClickPos : option (Z * Z);
  _lastMouseClickTime : option Z;
  _lastMouseClickButton : option Z }.

Definition InputStateMachineEngine_ctor (pDispatch : D) (doubleClickTime : Z) : InputStateMachineEngine :=
  mkInputStateMachineEngine pDispatch 0 false false false 0 doubleClickTime None None None.

Implicit Types (e : InputStateMachineEngine).
Abbreviation Action := (EngineAction InputStateMachineEngine Empty_set).

Definition set_pDispatch d e :=
  mkInputStateMachineEngine d (_deviceAttributes e) (_captureNextCursorPositionReport e) (_encounteredWin32InputModeSequence e)
    (_expectingStringTerminator e) (_mouseButtonState e) (_doubleClickTime e) (_lastMouseClickPos e) (_lastMouseClickTime e)
    (_lastMouseClickButton e).
Definition set_deviceAttributes v e :=
  mkInputStateMachineEngine (_pDispatch e) v (_captureNextCursorPositionReport e) (_encounteredWin32InputModeSequence e)
    (_expectingStringTerminator e) (_mouseButtonState e) (_doubleClickTime e) (_lastMouseClickPos e) (_lastMouseClickTime e)
    (_lastMouseClickButton e).
Definition set_captureNext v e :=
  mkInputStateMachineEngine (_pDispatch e) (_deviceAttributes e) v (_encounteredWin32InputModeSequence e)
    (_expectingStringTerminator e) (_mouseButtonState e) (_doubleClickTime e) (_lastMouseClickPos e) (_lastMouseClickTime e)
    (_lastMouseClickButton e).
Definition set_encounteredWin32 v e :=
  mkInputStateMachineEngine (_pDispatch e) (_deviceAttributes e) (_captureNextCursorPositionReport e) v
    (_expectingStringTerminator e) (_mouseButtonState e) (_doubleClickTime e) (_lastMouseClickPos e) (_lastMouseClickTime e)
    (_lastMouseClickButton e).
Definition set_expectingStringTerminator v e :=
  mkInputStateMachineEngine (_pDispatch e) (_deviceAttributes e) (_captureNextCursorPositionReport e)
    (_encounteredWin32InputModeSequence e) v (_mouseButtonState e) (_doubleClickTime e) (_lastMouseClickPos e)
    (_lastMouseClickTime e) (_lastMouseClickButton e).
Definition set_mouseButtonState v e :=
  mkInputStateMachineEngine (_pDispatch e) (_deviceAttributes e) (_captureNextCursorPositionReport e)
    (_encounteredWin32InputModeSequence e) (_expectingStringTerminator e) v (_doubleClickTime e) (_lastMouseClickPos e)
    (_lastMouseClickTime e) (_lastMouseClickButton e).
Definition set_lastMouseClick pos time button e :=
  mkInputStateMachineEngine (_pDispatch e) (_deviceAttributes e) (_captureNextCursorPositionReport e)
    (_encounteredWin32InputModeSequence e) (_expectingStringTerminator e) (_mouseButtonState e) (_doubleClickTime e)
    pos time button.

(** *** Calls through [_pDispatch] *)
Definition onInteract (c : IInteractDispatch.Call) : Action unit := fun _ e =>
  let '(d, outcome) := interact c (_pDispatch e) in (set_pDispatch d e, [], outcome).
Definition isVtInputEnabled : Action bool := act_gets (fun e => IsVtInputEnabled (_pDispatch e)).
Definition now : Action Z := fun _ e =>
  let '(d, time) := steady_clock_now (_pDispatch e) in (set_pDispatch d e, [], Returned time).

(** *** Keys *)
Definition _GetSingleKeypress (wch : wchar_t) (vkey modifierState : Z) : list INPUT_RECORD :=
  let sc := u16 (mapVirtualKey vkey MAPVK_VK_TO_VSC) in
  [SynthesizeKeyEvent true 1 (u16 vkey) sc wch modifierState; SynthesizeKeyEvent false 1 (u16 vkey) sc wch modifierState].

(** A record for a modifier key. *)
Definition modifierKey (keyDown : bool) (vkey currentModifiers : Z) : INPUT_RECORD :=
  SynthesizeKeyEvent keyDown 1 vkey (u16 (mapVirtualKey vkey MAPVK_VK_TO_VSC)) 0 currentModifiers.

Definition _GenerateWrappedSequence (wch : wchar_t) (vkey modifierState : Z) : list INPUT_RECORD :=
  let shift := WI_IsFlagSet modifierState SHIFT_PRESSED in
  let ctrl := WI_IsFlagSet modifierState LEFT_CTRL_PRESSED in
  let alt := WI_IsFlagSet modifierState LEFT_ALT_PRESSED in
  let currentModifiers := 0 in
  let input := [] in
  let currentModifiers := WI_SetFlagIf currentModifiers SHIFT_PRESSED shift in
  let input := if shift then input ++ [modifierKey true VK_SHIFT currentModifiers] else input in
  let currentModifiers := WI_SetFlagIf currentModifiers LEFT_ALT_PRESSED alt in
  let input := if alt then input ++ [modifierKey true VK_MENU currentModifiers] else input in
  let currentModifiers := WI_SetFlagIf currentModifiers LEFT_CTRL_PRESSED ctrl in
  let input := if ctrl then input ++ [modifierKey true VK_CONTROL currentModifiers] else input in
  let input := input ++ _GetSingleKeypress wch vkey modifierState in
  let currentModifiers := WI_ClearFlagIf currentModifiers LEFT_CTRL_PRESSED ctrl in
  let input := if ctrl then input ++ [modifierKey false VK_CONTROL currentModifiers] else input in
  let currentModifiers := WI_ClearFlagIf currentModifiers LEFT_ALT_PRESSED alt in
  let input := if alt then input ++ [modifierKey false VK_MENU currentModifiers] else input in
  let currentModifiers := WI_ClearFlagIf currentModifiers SHIFT_PRESSED shift in
  if shift then input ++ [modifierKey false VK_SHIFT currentModifiers] else input.

Definition _WriteSingleKey (wch : wchar_t) (vkey modifierState : Z) : Action unit :=
  onInteract (WriteInput (_GenerateWrappedSequence wch vkey modifierState)).
(** The overload without a character. *)
Definition _WriteSingleVkey (vkey modifierState : Z) : Action unit :=
  _WriteSingleKey (u16 (mapVirtualKey vkey MAPVK_VK_TO_CHAR)) vkey modifierState.

(** [vkey] and [modifierState]; [None] is [false]. *)
Definition _GenerateKeyFromChar (wch : wchar_t) : option (Z * Z) :=
  let keyscan := vkKeyScan wch in
  let key := Z.land keyscan 0xFF in
  let keyscanModifiers := Z.land (Z.shiftr keyscan 8) 0xFF in
  if (key =? -1) && (keyscanModifiers =? -1) then None
  else
    let modifierFlags :=
      Z.lor (Z.lor (if WI_IsFlagSet keyscanModifiers KEYSCAN_SHIFT then SHIFT_PRESSED else 0)
                   (if WI_IsFlagSet keyscanModifiers KEYSCAN_CTRL then LEFT_CTRL_PRESSED else 0))
            (if WI_IsFlagSet keyscanModifiers KEYSCAN_ALT then LEFT_ALT_PRESSED else 0) in
    Some (key, modifierFlags).

Definition input_ActionPrint (wch : wchar_t) : Action bool :=
  match _GenerateKeyFromChar wch with
  | Some (vkey, modifierState) => _WriteSingleKey wch vkey modifierState then* act_ret true
  | None => act_ret true
  end.

(** The character, [vkey], [modifierState] and [writeCtrl] that the switch over a C0 control
    character computes; [None] if there is no key for it. *)
Definition controlKey (wch : wchar_t) : option (wchar_t * Z * Z * bool) :=
  switch wch
    [(0x08, '(vkey, _) ← _GenerateKeyFromChar 0x7F; Some (0x7F, vkey, 0, true));
     (0x0D, '(vkey, _) ← _GenerateKeyFromChar wch; Some (wch, vkey, 0, false));
     (0x1B, Some (wch, VK_ESCAPE, 0, false));
     (0x09, '(vkey, modifierState) ← _GenerateKeyFromChar wch; Some (wch, vkey, modifierState, false))]
    ('(vkey, modifierState) ← _GenerateKeyFromChar wch; Some (wch, vkey, modifierState, true)).

Definition UNICODE_ETX : wchar_t := 0x03.

Definition _DoControlCharacter (wch : wchar_t) (writeAlt : bool) : Action bool :=
  if (wch =? UNICODE_ETX) && negb writeAlt then
    onInteract (WriteCtrlKey (SynthesizeKeyEvent true 1 0x43 0 UNICODE_ETX LEFT_CTRL_PRESSED)) then*
    onInteract (WriteCtrlKey (SynthesizeKeyEvent false 1 0x43 0 UNICODE_ETX LEFT_CTRL_PRESSED)) then*
    act_ret true
  else if (0 <=? wch) && (wch <? 0x20) then
    match controlKey wch with
    | Some (actualChar, vkey, modifierState, writeCtrl) =>
        let modifierState := WI_SetFlagIf modifierState LEFT_CTRL_PRESSED writeCtrl in
        let modifierState := WI_SetFlagIf modifierState LEFT_ALT_PRESSED writeAlt in
        _WriteSingleKey actualChar vkey modifierState then* act_ret true
    | None => act_ret true
    end
  else if wch =? 0x7F then
    _WriteSingleKey 0x08 VK_BACK (if writeAlt then LEFT_ALT_PRESSED else 0) then* act_ret true
  else input_ActionPrint wch.

Definition input_ActionExecute (wch : wchar_t) : Action bool := _DoControlCharacter wch false.

Definition input_ActionExecuteFromEscape (wch : wchar_t) : Action bool :=
  let* vtInput := isVtInputEnabled in
  if vtInput then act_ret false else _DoControlCharacter wch true.

Definition input_ActionPrintString (string : wstring) : Action bool :=
  match string with
  | [] => act_ret true
  | _ => onInteract (WriteString string) then* act_ret true
  end.

Definition input_ActionPassThroughString (string : wstring) : Action bool :=
  match string with
  | [] => act_ret true
  | _ => onInteract (WriteStringRaw string) then* act_ret true
  end.

Definition input_ActionEscDispatch (id : Z) : Action bool :=
  let* expecting := act_gets _expectingStringTerminator in
  if expecting && (id =? vtid "\") then
    act_modify (set_expectingStringTerminator false) then* act_ret false
  else
    let* vtInput := isVtInputEnabled in
    if vtInput then act_ret false
    else
      let wch := u16 id in
      if wch =? 0x7F then _DoControlCharacter wch true then* act_ret true
      else
        match _GenerateKeyFromChar wch with
        | Some (vk, modifierState) =>
            _WriteSingleKey wch vk (WI_SetFlag modifierState LEFT_ALT_PRESSED) then* act_ret true
        | None => act_ret true
        end.

Definition input_ActionVt52EscDispatch (id : Z) (parameters : VTParameters) : Action bool := act_ret false.

(** *** The mouse *)

(** Step 1: the button's flag and what the wheel adds to [buttonState] and [eventFlags]. *)
Definition mouseButton (buttonID : Z) : option (Z * Z * Z) :=
  switch buttonID
    [(CsiMouseButtonCodes.Left, Some (FROM_LEFT_1ST_BUTTON_PRESSED, 0, 0));
     (CsiMouseButtonCodes.Right, Some (RIGHTMOST_BUTTON_PRESSED, 0, 0));
     (CsiMouseButtonCodes.Middle, Some (FROM_LEFT_2ND_BUTTON_PRESSED, 0, 0));
     (CsiMouseButtonCodes.ScrollBack, Some (0, SCROLL_DELTA_BACKWARD, MOUSE_WHEELED));
     (CsiMouseButtonCodes.ScrollForward, Some (0, SCROLL_DELTA_FORWARD, MOUSE_WHEELED));
     (CsiMouseButtonCodes.ScrollLeft, Some (0, SCROLL_DELTA_BACKWARD, MOUSE_HWHEELED));
     (CsiMouseButtonCodes.ScrollRight, Some (0, SCROLL_DELTA_FORWARD, MOUSE_HWHEELED));
     (CsiMouseButtonCodes.Released, Some (0, 0, 0))]
    None.

(** The test for a double click. *)
Definition isDoubleClick (uiPos : Z * Z) (currentTime buttonID : Z) e : bool :=
  match _lastMouseClickPos e, _lastMouseClickTime e, _lastMouseClickButton e with
  | Some pos, Some time, Some button =>
      bool_decide (uiPos = pos) && (currentTime - time <? _doubleClickTime e) && (buttonID =? button)
  | _, _, _ => false
  end.

(** [buttonState] and [eventFlags]; [None] is [false]. *)
Definition _UpdateSGRMouseButtonState (id sgrEncoding : Z) (uiPos : Z * Z) : Action (option (Z * Z)) :=
  let* buttonState := act_gets _mouseButtonState in
  let buttonID := Z.lor (Z.land sgrEncoding 0x3) (Z.shiftr (Z.land sgrEncoding 0xC0) 4) in
  let* currentTime := now in
  match mouseButton buttonID with
  | None => act_ret None
  | Some (buttonFlag, wheelState, eventFlags) =>
      let buttonState := Z.lor buttonState wheelState in
      let* step2 :=
        (if id =? CsiCodes.MouseDown then
           let* doubleClick := act_gets (isDoubleClick uiPos currentTime buttonID) in
           if doubleClick then
             act_modify (set_lastMouseClick None None None) then*
             act_ret (Some (Z.lor buttonState buttonFlag, Z.lor eventFlags DOUBLE_CLICK))
           else
             (if (buttonID =? CsiMouseButtonCodes.Left) || (buttonID =? CsiMouseButtonCodes.Right)
                 || (buttonID =? CsiMouseButtonCodes.Middle)
              then act_modify (set_lastMouseClick (Some uiPos) (Some currentTime) (Some buttonID))
              else act_ret tt) then*
             act_ret (Some (Z.lor buttonState buttonFlag, eventFlags))
         else if id =? CsiCodes.MouseUp then act_ret (Some (Z.ldiff buttonState buttonFlag, eventFlags))
         else act_ret None) in
      match step2 with
      | None => act_ret None
      | Some (buttonState, eventFlags) =>
          let eventFlags := if WI_IsFlagSet sgrEncoding CsiMouseModifierCodes.Drag then Z.lor eventFlags MOUSE_MOVED else eventFlags in
          act_modify (set_mouseButtonState (Z.land buttonState 0xFFFF)) then*
          act_ret (Some (buttonState, eventFlags))
      end
  end.

Definition _WriteMouseEvent (uiPos : Z * Z) (buttonState controlKeyState eventFlags : Z) : Action unit :=
  onInteract (WriteInput [SynthesizeMouseEvent uiPos buttonState controlKeyState eventFlags]).

(** *** Control sequences *)
Definition mouseSequence (id : Z) (parameters : VTParameters) : Action bool :=
  let firstParameter := VTParameter.value_or (VTParameters.at_ parameters 0) 0 in
  let uiPos := (VTParameter.to_VTInt (VTParameters.at_ parameters 1) - 1,
                VTParameter.to_VTInt (VTParameters.at_ parameters 2) - 1) in
  let* update := _UpdateSGRMouseButtonState id firstParameter uiPos in
  match update with
  | Some (buttonState, eventFlags) =>
      _WriteMouseEvent uiPos buttonState (_GetSGRMouseModifierState firstParameter) eventFlags then* act_ret true
  | None => act_ret true
  end.

Definition cursorKey (id : Z) (parameters : VTParameters) : Action bool :=
  match _GetCursorKeysVkey id with
  | Some vkey => _WriteSingleVkey vkey (_GetCursorKeysModifierState parameters id) then* act_ret true
  | None => act_ret true
  end.

Definition genericKey (parameters : VTParameters) : Action bool :=
  match _GetGenericVkey (VTParameter.to_enum (VTParameters.at_ parameters 0)) with
  | Some vkey => _WriteSingleVkey vkey (_GetGenericKeysModifierState parameters) then* act_ret true
  | None => act_ret true
  end.

Definition reportDeviceAttributes (parameters : VTParameters) : Action bool :=
  let* known := act_gets _deviceAttributes in
  if known =? 0 then
    act_modify (fun e => set_deviceAttributes (Z.lor (_deviceAttributes e) (deviceAttributes parameters)) e) then*
    act_ret true
  else act_ret false.

Definition input_ActionCsiDispatch (id : Z) (parameters : VTParameters) : Action bool :=
  let* vtInputEnabled := isVtInputEnabled in
  let unlessVtInput (action : Action bool) := if vtInputEnabled then act_ret false else action in
  switch id
    [(CsiCodes.MouseDown, unlessVtInput (mouseSequence id parameters));
     (CsiCodes.MouseUp, unlessVtInput (mouseSequence id parameters));
     (CsiCodes.CSI_F3,
       let* capture := act_gets _captureNextCursorPositionReport in
       act_modify (set_captureNext false) then*
       if capture then
         onInteract (MoveCursor (VTParameter.to_VTInt (VTParameters.at_ parameters 0))
                                (VTParameter.to_VTInt (VTParameters.at_ parameters 1))) then* act_ret true
       else
         let* encountered := act_gets _encounteredWin32InputModeSequence in
         if encountered then act_ret false else unlessVtInput (cursorKey id parameters));
     (CsiCodes.ArrowUp, unlessVtInput (cursorKey id parameters));
     (CsiCodes.ArrowDown, unlessVtInput (cursorKey id parameters));
     (CsiCodes.ArrowRight, unlessVtInput (cursorKey id parameters));
     (CsiCodes.ArrowLeft, unlessVtInput (cursorKey id parameters));
     (CsiCodes.Home, unlessVtInput (cursorKey id parameters));
     (CsiCodes.End_, unlessVtInput (cursorKey id parameters));
     (CsiCodes.CSI_F1, unlessVtInput (cursorKey id parameters));
     (CsiCodes.CSI_F2, unlessVtInput (cursorKey id parameters));
     (CsiCodes.CSI_F4, unlessVtInput (cursorKey id parameters));
     (CsiCodes.Generic, unlessVtInput (genericKey parameters));
     (CsiCodes.CursorBackTab, unlessVtInput (_WriteSingleVkey VK_TAB SHIFT_PRESSED then* act_ret true));
     (CsiCodes.FocusIn, onInteract (FocusChanged true) then* act_ret true);
     (CsiCodes.FocusOut, onInteract (FocusChanged false) then* act_ret true);
     (CsiCodes.DA_DeviceAttributes, reportDeviceAttributes parameters);
     (CsiCodes.Win32KeyboardInput,
       onInteract (WriteCtrlKey (_GenerateWin32Key parameters)) then*
       act_modify (set_encounteredWin32 true) then* act_ret true)]
    (act_ret false).

Definition input_ActionDcsDispatch (id : Z) (parameters : VTParameters) : Action (option Empty_set) :=
  act_modify (set_expectingStringTerminator true) then* act_ret None.

Definition input_ActionSs3Dispatch (wch : wchar_t) (parameters : VTParameters) : Action bool :=
  let* vtInput := isVtInputEnabled in
  if vtInput then act_ret false
  else
    match _GetSs3KeysVkey wch with
    | Some vkey => _WriteSingleVkey vkey 0 then* act_ret true
    | None => act_ret true
    end.

Definition input_ActionOscDispatch (parameter : Z) (string : wstring) : Action bool := act_ret false.

Definition input_engine : IStateMachineEngine InputStateMachineEngine Empty_set Empty_set := {|
  UnknownSequence e := e;
  EncounteredWin32InputModeSequence := _encounteredWin32InputModeSequence;
  ActionExecute := input_ActionExecute;
  ActionExecuteFromEscape := input_ActionExecuteFromEscape;
  ActionPrint := input_ActionPrint;
  ActionPrintString := input_ActionPrintString;
  ActionPassThroughString := input_ActionPassThroughString;
  ActionEscDispatch := input_ActionEscDispatch;
  ActionVt52EscDispatch := input_ActionVt52EscDispatch;
  ActionCsiDispatch := input_ActionCsiDispatch;
  ActionDcsDispatch := input_ActionDcsDispatch;
  ActionOscDispatch := input_ActionOscDispatch;
  ActionSs3Dispatch := input_ActionSs3Dispatch;
  StringHandler_call h := match h with end;
  Callback_call cb := match cb with end;
  Callback_exit cb := match cb with end
|}.

(** *** The other members *)
Definition CaptureNextCursorPositionReport e : InputStateMachineEngine := set_captureNext true e.

(** [WaitUntilDA1]: the attributes loaded in each iteration and whether the wait that
    follows was ended by a notification. *)
Fixpoint WaitUntilDA1_loop (iterations : list (Z * bool)) : option Z :=
  match iterations with
  | [] => None
  | (val, notified) :: iterations =>
      if negb (val =? 0) then Some val else if negb notified then Some val else WaitUntilDA1_loop iterations
  end.
Definition WaitUntilDA1 (iterations : list (Z * bool)) e : option Z * InputStateMachineEngine :=
  match WaitUntilDA1_loop iterations with
  | Some val => (Some val, set_captureNext false e)
  | None => (None, e)
  end.
End InputStateMachineEngine.
Arguments InputStateMachineEngine D : clear implicits.
