(* ===== verification/TerminalInput.v ===== *)
(** * The keyboard and mouse encoders

    Models [src/terminal/input/terminalInput.cpp] and its header: how key events become the
    sequences an application reads, in the classic, the win32 and the kitty encoding, with
    the modes and the stacks of kitty flags. What the keyboard layout says about keys is a
    parameter. The mouse encoder ([src/terminal/input/mouseInput.cpp]) is at the end. *)

From S2P Require Import Prelude DispatchTypes StateMachine ColorTable InputEvents.

(** ** Text *)

(** [fmt::format] of an unsigned and of a signed integer. *)
Fixpoint decimalLoop (fuel : nat) (n : Z) (text : wstring) : wstring :=
  match fuel with
  | O => text
  | S fuel => let text := (0x30 + n mod 10) :: text in if n <? 10 then text else decimalLoop fuel (n / 10) text
  end.
Definition formatUnsigned (n : Z) : wstring := decimalLoop 20 n [].
Arguments formatUnsigned n : simpl never.
Definition formatInt (n : Z) : wstring := if n <? 0 then 0x2D :: formatUnsigned (- n) else formatUnsigned n.

(** [til/unicode.h] *)
Definition is_surrogate (wch : Z) : bool := Z.land wch 0xF800 =? 0xD800.
Definition is_leading_surrogate (wch : Z) : bool := Z.land wch 0xFC00 =? 0xD800.
Definition is_trailing_surrogate (wch : Z) : bool := Z.land wch 0xFC00 =? 0xDC00.
Definition combine_surrogates (lead trail : wchar_t) : Z := u32 (Z.shiftl lead 10 - 0x35FDC00 + trail).

Definition InvalidCodepoint : Z := 0x110000.

(** [CodepointBuffer(cp)]: [buf] up to [len]. *)
Definition CodepointBuffer (cp : Z) : wstring :=
  if cp <=? 0xFFFF then [u16 cp]
  else let cp := cp - 0x10000 in [u16 (Z.shiftr cp 10 + 0xD800); u16 (Z.land cp 0x3FF + 0xDC00)].
Definition asSingleCodepoint (len : Z) (buf : wstring) : Z :=
  let buf0 := default 0 (buf !! 0%nat) in
  let buf1 := default 0 (buf !! 1%nat) in
  if len =? 1 then if negb (is_surrogate buf0) then buf0 else InvalidCodepoint
  else if len =? 2 then
    if is_leading_surrogate buf0 && is_trailing_surrogate buf1 then combine_surrogates buf0 buf1 else InvalidCodepoint
  else InvalidCodepoint.
Definition _stringPushCodepoint (str : wstring) (cp : Z) : wstring := str ++ CodepointBuffer cp.
Definition _makeCharOutput (cp : Z) : wstring := _stringPushCodepoint [] cp.
Definition _makeNoOutput : wstring := [].

(** ** Modes *)
Module InputMode.
Definition LineFeed := 0.
Definition Ansi := 1.
Definition AutoRepeat := 2.
Definition Keypad := 3.
Definition CursorKey := 4.
Definition BackarrowKey := 5.
Definition Win32 := 6.
Definition SendC1 := 7.
Definition Utf8MouseEncoding := 8.
Definition SgrMouseEncoding := 9.
Definition DefaultMouseTracking := 10.
Definition ButtonEventMouseTracking := 11.
Definition AnyEventMouseTracking := 12.
Definition FocusEvent := 13.
Definition AlternateScroll := 14.
End InputMode.

(** [enumset] with several positions. *)
Definition mask_of (positions : list Z) : Z := fold_right (fun p m => Z.lor (enumset.to_underlying p) m) 0 positions.
Definition enumset_any (data : enumset.t) (positions : list Z) : bool := negb (Z.land data (mask_of positions) =? 0).
Definition enumset_reset (data : enumset.t) (positions : list Z) : enumset.t := Z.ldiff data (mask_of positions).

Module KittyKeyboardProtocolFlags.
Definition DisambiguateEscapeCodes := 1.
Definition ReportEventTypes := 2.
Definition ReportAlternateKeys := 4.
Definition ReportAllKeysAsEscapeCodes := 8.
Definition ReportAssociatedText := 16.
Definition All := 31.
End KittyKeyboardProtocolFlags.
Inductive KittyKeyboardProtocolMode := KittyReplace | KittySet | KittyReset.

(** ** The object *)
Record MouseInputState := mkMouseInputState { lastPos : Z * Z; lastButton : Z; accumulatedDelta : Z }.

Record TerminalInput := mkTerminalInput {
  _leadingSurrogate : wchar_t;
  _lastVirtualKeyCode : option Z;
  _lastControlKeyState : Z;
  _previousControlKeyState : Z;
  _lastLeftCtrlTime : Z;
  _lastRightAltTime : Z;
  _inputMode : enumset.t;
  _forceDisableWin32InputMode : bool;
  _inAlternateBuffer : bool;
  _forceDisableKittyKeyboardProtocol : bool;
  _kittyFlags : Z;
  _kittyMainStack : list Z;
  _kittyAltStack : list Z;
  _csi : wstring;
  _ss3 : wstring;
  _focusInSequence : wstring;
  _focusOutSequence : wstring;
  _mouseInputState : MouseInputState }.
Implicit Types (t : TerminalInput).

Definition KittyStackMaxSize : nat := 8.

Definition set_keys surrogate lastKey lastState previousState t :=
  mkTerminalInput surrogate lastKey lastState previousState (_lastLeftCtrlTime t) (_lastRightAltTime t) (_inputMode t)
    (_forceDisableWin32InputMode t) (_inAlternateBuffer t) (_forceDisableKittyKeyboardProtocol t) (_kittyFlags t)
    (_kittyMainStack t) (_kittyAltStack t) (_csi t) (_ss3 t) (_focusInSequence t) (_focusOutSequence t) (_mouseInputState t).
Definition set_leadingSurrogate v t :=
  set_keys v (_lastVirtualKeyCode t) (_lastControlKeyState t) (_previousControlKeyState t) t.
Definition set_lastVirtualKeyCode v t :=
  set_keys (_leadingSurrogate t) v (_lastControlKeyState t) (_previousControlKeyState t) t.
Definition set_controlKeyStates last previous t :=
  set_keys (_leadingSurrogate t) (_lastVirtualKeyCode t) last previous t.
Definition set_modes mode mouse t :=
  mkTerminalInput (_leadingSurrogate t) (_lastVirtualKeyCode t) (_lastControlKeyState t) (_previousControlKeyState t)
    (_lastLeftCtrlTime t) (_lastRightAltTime t) mode (_forceDisableWin32InputMode t) (_inAlternateBuffer t)
    (_forceDisableKittyKeyboardProtocol t) (_kittyFlags t) (_kittyMainStack t) (_kittyAltStack t) (_csi t) (_ss3 t)
    (_focusInSequence t) (_focusOutSequence t) mouse.
Definition set_inputMode mode t := set_modes mode (_mouseInputState t) t.
Definition set_mouseInputState mouse t := set_modes (_inputMode t) mouse t.
Definition set_forceDisableWin32 v t :=
  mkTerminalInput (_leadingSurrogate t) (_lastVirtualKeyCode t) (_lastControlKeyState t) (_previousControlKeyState t)
    (_lastLeftCtrlTime t) (_lastRightAltTime t) (_inputMode t) v (_inAlternateBuffer t)
    (_forceDisableKittyKeyboardProtocol t) (_kittyFlags t) (_kittyMainStack t) (_kittyAltStack t) (_csi t) (_ss3 t)
    (_focusInSequence t) (_focusOutSequence t) (_mouseInputState t).
Definition set_kitty alternate disable flags main alt t :=
  mkTerminalInput (_leadingSurrogate t) (_lastVirtualKeyCode t) (_lastControlKeyState t) (_previousControlKeyState t)
    (_lastLeftCtrlTime t) (_lastRightAltTime t) (_inputMode t) (_forceDisableWin32InputMode t) alternate
    disable flags main alt (_csi t) (_ss3 t) (_focusInSequence t) (_focusOutSequence t) (_mouseInputState t).
Definition set_kittyFlags flags t :=
  set_kitty (_inAlternateBuffer t) (_forceDisableKittyKeyboardProtocol t) flags (_kittyMainStack t) (_kittyAltStack t) t.
Definition set_introducers csi ss3 focusIn focusOut t :=
  mkTerminalInput (_leadingSurrogate t) (_lastVirtualKeyCode t) (_lastControlKeyState t) (_previousControlKeyState t)
    (_lastLeftCtrlTime t) (_lastRightAltTime t) (_inputMode t) (_forceDisableWin32InputMode t) (_inAlternateBuffer t)
    (_forceDisableKittyKeyboardProtocol t) (_kittyFlags t) (_kittyMainStack t) (_kittyAltStack t) csi ss3 focusIn focusOut
    (_mouseInputState t).

Definition test_mode mode t : bool := enumset.test (_inputMode t) mode.

(** ** Modes and stacks *)
Definition _initKeyboardMap t : TerminalInput :=
  if test_mode InputMode.SendC1 t
  then set_introducers [0x9B] [0x8F] [0x9B; 0x49] [0x9B; 0x4F] t
  else set_introducers [0x1B; 0x5B] [0x1B; 0x4F] [0x1B; 0x5B; 0x49] [0x1B; 0x5B; 0x4F] t.

Definition initialMode : enumset.t := mask_of [InputMode.Ansi; InputMode.AutoRepeat; InputMode.AlternateScroll].

Definition TerminalInput_ctor : TerminalInput :=
  _initKeyboardMap (mkTerminalInput 0 None 0 0 0 0 initialMode false false false 0 [] [] [] [] [] []
                      (mkMouseInputState (-1, -1) 0 0)).

Definition UseMainScreenBuffer t : TerminalInput :=
  if negb (_inAlternateBuffer t) then t
  else set_kitty false (_forceDisableKittyKeyboardProtocol t) (default 0 (last (_kittyMainStack t))) (_kittyMainStack t) [] t.
Definition UseAlternateScreenBuffer t : TerminalInput :=
  if _inAlternateBuffer t then t
  else set_kitty true (_forceDisableKittyKeyboardProtocol t) 0 (_kittyMainStack t) [] t.

Definition keyMapModes : enumset.t :=
  mask_of [InputMode.LineFeed; InputMode.Ansi; InputMode.Keypad; InputMode.CursorKey; InputMode.BackarrowKey; InputMode.SendC1].

Definition SetInputMode (mode : Z) (enabled : bool) t : TerminalInput :=
  let t :=
    if (mode =? InputMode.DefaultMouseTracking) || (mode =? InputMode.ButtonEventMouseTracking)
       || (mode =? InputMode.AnyEventMouseTracking)
    then set_modes (enumset_reset (_inputMode t) [InputMode.DefaultMouseTracking; InputMode.ButtonEventMouseTracking; InputMode.AnyEventMouseTracking])
                   (mkMouseInputState (-1, -1) 0 (accumulatedDelta (_mouseInputState t))) t
    else t in
  let t :=
    if ((mode =? InputMode.Utf8MouseEncoding) || (mode =? InputMode.SgrMouseEncoding)) && enabled
    then set_inputMode (enumset_reset (_inputMode t) [InputMode.Utf8MouseEncoding; InputMode.SgrMouseEncoding]) t
    else t in
  let t := set_inputMode (enumset.set (_inputMode t) mode enabled) t in
  if enumset.test keyMapModes mode then _initKeyboardMap t else t.
Definition GetInputMode (mode : Z) t : bool := test_mode mode t.

Definition ResetKittyKeyboardProtocols t : TerminalInput :=
  set_kitty (_inAlternateBuffer t) (_forceDisableKittyKeyboardProtocol t) 0 [] [] t.
Definition ResetInputModes t : TerminalInput :=
  let t := set_modes initialMode (mkMouseInputState (-1, -1) 0 (accumulatedDelta (_mouseInputState t))) t in
  _initKeyboardMap (ResetKittyKeyboardProtocols t).
Definition ForceDisableWin32InputMode (win32InputMode : bool) t : TerminalInput := set_forceDisableWin32 win32InputMode t.
Definition ForceDisableKittyKeyboardProtocol (disable : bool) t : TerminalInput :=
  if disable then set_kitty (_inAlternateBuffer t) disable 0 [] [] t
  else set_kitty (_inAlternateBuffer t) disable (_kittyFlags t) (_kittyMainStack t) (_kittyAltStack t) t.

Definition SetKittyKeyboardProtocol (flags : Z) (mode : KittyKeyboardProtocolMode) t : TerminalInput :=
  if _forceDisableKittyKeyboardProtocol t then t
  else
    let flags := Z.land flags KittyKeyboardProtocolFlags.All in
    set_kittyFlags
      match mode with
      | KittyReplace => flags
      | KittySet => Z.lor (_kittyFlags t) flags
      | KittyReset => Z.ldiff (_kittyFlags t) flags
      end t.
Definition GetKittyFlags t : Z := _kittyFlags t.

(** The stack of the active buffer. *)
Definition kittyStack t : list Z := if _inAlternateBuffer t then _kittyAltStack t else _kittyMainStack t.
Definition set_kittyStack flags stack t : TerminalInput :=
  if _inAlternateBuffer t
  then set_kitty true (_forceDisableKittyKeyboardProtocol t) flags (_kittyMainStack t) stack t
  else set_kitty false (_forceDisableKittyKeyboardProtocol t) flags stack (_kittyAltStack t) t.

Definition PushKittyFlags (flags : Z) t : TerminalInput :=
  if _forceDisableKittyKeyboardProtocol t then t
  else
    let stack := kittyStack t in
    let stack := if (KittyStackMaxSize <=? length stack)%nat then drop 1 stack else stack in
    set_kittyStack (Z.land flags KittyKeyboardProtocolFlags.All) (stack ++ [_kittyFlags t]) t.
Definition PopKittyFlags (count : nat) t : TerminalInput :=
  if (count =? 0)%nat then t
  else
    let stack := kittyStack t in
    if (length stack <=? count)%nat then set_kittyStack 0 [] t
    else set_kittyStack (default 0 (stack !! (length stack - count)%nat)) (take (length stack - count) stack) t.

(** ** Keys *)
Record SanitizedKeyEvent := mkSanitizedKeyEvent {
  virtualKey : Z;
  scanCode : Z;
  codepoint : Z;
  controlKeyState : Z;
  keyDown : bool;
  keyRepeat : bool;
  altGrPressed : bool;
  ctrlPressed : bool;
  altPressed : bool;
  shiftPressed : bool }.
Implicit Types (key : SanitizedKeyEvent).

Record EncodingHelper := mkEncodingHelper {
  csiUnicodeKeyCode : Z;
  csiAltKeyCodeShifted : Z;
  csiAltKeyCodeBase : Z;
  csiModifier : Z;
  csiEventType : Z;
  csiTextAsCodepoint : Z;
  csiFinal : wchar_t;
  ss3Final : wchar_t;
  altPrefix : bool;
  plain : wstring }.
Implicit Types (enc : EncodingHelper).

Definition EncodingHelper_ctor : EncodingHelper := mkEncodingHelper 0 0 0 0 0 0 0 0 false [].

Definition set_csiFinal code final enc :=
  mkEncodingHelper code (csiAltKeyCodeShifted enc) (csiAltKeyCodeBase enc) (csiModifier enc) (csiEventType enc)
    (csiTextAsCodepoint enc) final (ss3Final enc) (altPrefix enc) (plain enc).
Definition set_csiAltKeys shifted base enc :=
  mkEncodingHelper (csiUnicodeKeyCode enc) shifted base (csiModifier enc) (csiEventType enc)
    (csiTextAsCodepoint enc) (csiFinal enc) (ss3Final enc) (altPrefix enc) (plain enc).
Definition set_csiModifier modifier enc :=
  mkEncodingHelper (csiUnicodeKeyCode enc) (csiAltKeyCodeShifted enc) (csiAltKeyCodeBase enc) modifier (csiEventType enc)
    (csiTextAsCodepoint enc) (csiFinal enc) (ss3Final enc) (altPrefix enc) (plain enc).
Definition set_csiEventType type enc :=
  mkEncodingHelper (csiUnicodeKeyCode enc) (csiAltKeyCodeShifted enc) (csiAltKeyCodeBase enc) (csiModifier enc) type
    (csiTextAsCodepoint enc) (csiFinal enc) (ss3Final enc) (altPrefix enc) (plain enc).
Definition set_csiText text enc :=
  mkEncodingHelper (csiUnicodeKeyCode enc) (csiAltKeyCodeShifted enc) (csiAltKeyCodeBase enc) (csiModifier enc) (csiEventType enc)
    text (csiFinal enc) (ss3Final enc) (altPrefix enc) (plain enc).
Definition set_ss3Final final enc :=
  mkEncodingHelper (csiUnicodeKeyCode enc) (csiAltKeyCodeShifted enc) (csiAltKeyCodeBase enc) (csiModifier enc) (csiEventType enc)
    (csiTextAsCodepoint enc) (csiFinal enc) final (altPrefix enc) (plain enc).
Definition set_plain text enc :=
  mkEncodingHelper (csiUnicodeKeyCode enc) (csiAltKeyCodeShifted enc) (csiAltKeyCodeBase enc) (csiModifier enc) (csiEventType enc)
    (csiTextAsCodepoint enc) (csiFinal enc) (ss3Final enc) (altPrefix enc) text.
Definition set_altPrefix enc :=
  mkEncodingHelper (csiUnicodeKeyCode enc) (csiAltKeyCodeShifted enc) (csiAltKeyCodeBase enc) (csiModifier enc) (csiEventType enc)
    (csiTextAsCodepoint enc) (csiFinal enc) (ss3Final enc) true (plain enc).

Definition CSI_SHIFT : Z := 1.
Definition CSI_ALT : Z := 2.
Definition CSI_CTRL : Z := 4.

(** *** Control key state *)
Definition _trackControlKeyState (event : KEY_EVENT_RECORD) t : TerminalInput * Z :=
  let previous := _lastControlKeyState t in
  let pressedKeyState := Z.land (u32 (Z.lnot (_lastControlKeyState t))) (dwControlKeyState event) in
  let rightAltDown := bKeyDown event && (wVirtualKeyCode event =? VK_MENU) && WI_IsFlagSet (dwControlKeyState event) ENHANCED_KEY in
  let last := WI_ClearFlagIf (dwControlKeyState event) RIGHT_ALT_PRESSED
                (WI_IsFlagSet pressedKeyState RIGHT_ALT_PRESSED && negb rightAltDown) in
  (set_controlKeyStates last previous t, last).

Definition _controlKeyStateFromVirtualKey (vk state : Z) : Z :=
  let enhanced := WI_IsFlagSet state ENHANCED_KEY in
  switch vk
    [(VK_SHIFT, SHIFT_PRESSED); (VK_LSHIFT, SHIFT_PRESSED); (VK_RSHIFT, SHIFT_PRESSED);
     (VK_CONTROL, if enhanced then RIGHT_CTRL_PRESSED else LEFT_CTRL_PRESSED);
     (VK_LCONTROL, LEFT_CTRL_PRESSED); (VK_RCONTROL, RIGHT_CTRL_PRESSED);
     (VK_MENU, if enhanced then RIGHT_ALT_PRESSED else LEFT_ALT_PRESSED);
     (VK_LMENU, LEFT_ALT_PRESSED); (VK_RMENU, RIGHT_ALT_PRESSED)]
    0.

Definition numericCtrls : list Z := [0; 27; 28; 29; 30; 31; 127].
Definition _makeCtrlChar (ch : Z) : Z :=
  if (0x40 <=? ch) && (ch <=? 0x7E) then Z.land ch 31
  else if ch =? 0x20 then 0x00
  else if ch =? 0x2F then 0x1F
  else if ch =? 0x3F then 0x7F
  else if (0x32 <=? ch) && (ch <=? 0x38) then default 0 (numericCtrls !! Z.to_nat (ch - 0x32))
  else ch.

Definition isModifierKey (vk : Z) : bool :=
  ((VK_SHIFT <=? vk) && (vk <=? VK_MENU)) || ((VK_LSHIFT <=? vk) && (vk <=? VK_RMENU)).

(** *** The win32 encoding *)
Definition _makeWin32Output (event : KEY_EVENT_RECORD) t : wstring :=
  let kd := if bKeyDown event then 1 else 0 in
  let rc := u16 (wRepeatCount event) in
  let vk := u16 (wVirtualKeyCode event) in
  let sc := u16 (wVirtualScanCode event) in
  let uc := u16 (UnicodeChar event) in
  let cs := u16 (dwControlKeyState event) in
  _csi t ++ formatUnsigned vk ++ 0x3B :: formatUnsigned sc ++ 0x3B :: formatUnsigned uc ++ 0x3B :: formatUnsigned kd
    ++ 0x3B :: formatUnsigned cs ++ 0x3B :: formatUnsigned rc ++ [0x5F].

(** *** The keyboard layout *)

(** What the system says about the keyboard: [ToUnicodeEx] (its result and the buffer), the
    layout of the foreground window, the US layout (0 if it cannot be loaded),
    [MapVirtualKeyExW] with [MAPVK_VSC_TO_VK_EX], and [LCMapStringEx] with
    [LCMAP_LOWERCASE] (its result and the buffer). *)
Class Keyboard := {
  ToUnicodeEx : Z -> (Z -> Z) -> Z -> Z * wstring;
  keyboardLayout : Z;
  usKeyboardLayout : Z;
  MapVirtualKeyExW : Z -> Z -> Z;
  LCMapLowercase : wstring -> Z * wstring
}.

Definition KittyKeyCodeTextSentinel : Z := 0.
Definition KittyKeyCodeLegacySentinel : Z := 1.

(** The table of functional keys; its elements are bytes. *)
Definition kittyLut : list (Z * Z) :=
  [(VK_CAPITAL, 57358); (VK_SCROLL, 57359); (VK_NUMLOCK, 57360); (VK_SNAPSHOT, 57361); (VK_PAUSE, 57362); (VK_APPS, 57363);
   (VK_F1, KittyKeyCodeLegacySentinel); (VK_F2, KittyKeyCodeLegacySentinel); (VK_F3, KittyKeyCodeLegacySentinel);
   (VK_F4, KittyKeyCodeLegacySentinel); (VK_F5, KittyKeyCodeLegacySentinel); (VK_F6, KittyKeyCodeLegacySentinel);
   (VK_F7, KittyKeyCodeLegacySentinel); (VK_F8, KittyKeyCodeLegacySentinel); (VK_F9, KittyKeyCodeLegacySentinel);
   (VK_F10, KittyKeyCodeLegacySentinel); (VK_F11, KittyKeyCodeLegacySentinel); (VK_F12, KittyKeyCodeLegacySentinel);
   (VK_F13, 57376); (0x7D, 57377); (0x7E, 57378); (0x7F, 57379); (0x80, 57380); (0x81, 57381); (0x82, 57382); (VK_F20, 57383);
   (0x84, 57384); (0x85, 57385); (0x86, 57386); (VK_F24, 57387);
   (VK_NUMPAD0, 57399); (0x61, 57400); (0x62, 57401); (0x63, 57402); (0x64, 57403); (0x65, 57404); (0x66, 57405);
   (0x67, 57406); (0x68, 57407); (VK_NUMPAD9, 57408);
   (VK_DECIMAL, 57409); (VK_DIVIDE, 57410); (VK_MULTIPLY, 57411); (VK_SUBTRACT, 57412); (VK_ADD, 57413); (VK_RETURN, 57414);
   (VK_SEPARATOR, 57416);
   (VK_LEFT, 57417); (VK_RIGHT, 57418); (VK_UP, 57419); (VK_DOWN, 57420); (VK_PRIOR, 57421); (VK_NEXT, 57422);
   (VK_HOME, 57423); (VK_END, 57424); (VK_INSERT, 57425); (VK_DELETE, 57426); (VK_CLEAR, KittyKeyCodeLegacySentinel);
   (VK_MEDIA_PLAY_PAUSE, 57430); (VK_MEDIA_STOP, 57432); (VK_MEDIA_NEXT_TRACK, 57435); (VK_MEDIA_PREV_TRACK, 57436);
   (VK_VOLUME_DOWN, 57438); (VK_VOLUME_UP, 57439); (VK_VOLUME_MUTE, 57440);
   (VK_LSHIFT, 57441); (VK_LCONTROL, 57442); (VK_LMENU, 57443); (VK_LWIN, 57444);
   (VK_RSHIFT, 57447); (VK_RCONTROL, 57448); (VK_RMENU, 57449); (VK_RWIN, 57450)].

Definition kittyLookup (vkey : Z) : Z :=
  let v := u8 (switch (Z.land vkey 0xFF) kittyLut 0) in
  if v <=? KittyKeyCodeLegacySentinel then v else 0xE000 + v.

Definition _getKittyFunctionalKeyCode (vkey scan : Z) (enhanced : bool) : Z :=
  let keypadKey := if enhanced then KittyKeyCodeLegacySentinel else kittyLookup vkey in
  switch vkey
    [(VK_ESCAPE, 27); (VK_RETURN, if enhanced then 57414 else 13); (VK_TAB, 9); (VK_BACK, 127);
     (VK_LEFT, keypadKey); (VK_RIGHT, keypadKey); (VK_UP, keypadKey); (VK_DOWN, keypadKey); (VK_PRIOR, keypadKey);
     (VK_NEXT, keypadKey); (VK_HOME, keypadKey); (VK_END, keypadKey); (VK_INSERT, keypadKey); (VK_DELETE, keypadKey);
     (VK_SHIFT, kittyLookup (if scan =? 0x36 then VK_RSHIFT else VK_LSHIFT));
     (VK_CONTROL, kittyLookup (if enhanced then VK_RCONTROL else VK_LCONTROL));
     (VK_MENU, kittyLookup (if enhanced then VK_RMENU else VK_LMENU))]
    (kittyLookup vkey).

Section keys.
Context {keyboard : Keyboard}.
(** [Feature_KeypadModeEnabled::IsEnabled()]. *)
Context (keypadModeEnabled : bool).

Definition _codepointToLower (cp : Z) : Z :=
  if InvalidCodepoint <=? cp then cp
  else if cp <? 0x80 then tolower_ascii cp
  else let '(len, buf) := LCMapLowercase (CodepointBuffer cp) in asSingleCodepoint len buf.

(** The array of key states for a call of [ToUnicodeEx]. *)
Definition keyboardState (vkey state : Z) : Z -> Z :=
  let pressed flag := if WI_IsFlagSet state flag then 0x80 else 0 in
  fun k =>
    if k =? vkey then 0x80
    else switch k
      [(VK_SHIFT, pressed SHIFT_PRESSED);
       (VK_CONTROL, Z.lor (pressed LEFT_CTRL_PRESSED) (pressed RIGHT_CTRL_PRESSED));
       (VK_MENU, Z.lor (pressed LEFT_ALT_PRESSED) (pressed RIGHT_ALT_PRESSED));
       (VK_CAPITAL, if WI_IsFlagSet state CAPSLOCK_ON then 0x01 else 0);
       (VK_LSHIFT, pressed SHIFT_PRESSED); (VK_LCONTROL, pressed LEFT_CTRL_PRESSED); (VK_RCONTROL, pressed RIGHT_CTRL_PRESSED);
       (VK_LMENU, pressed LEFT_ALT_PRESSED); (VK_RMENU, pressed RIGHT_ALT_PRESSED)]
      0.
Definition getKeyboardKey (vkey state : Z) (hkl : option Z) : Z :=
  let hkl := default keyboardLayout hkl in
  let vkey := Z.land vkey 0xFF in
  let '(len, buf) := ToUnicodeEx vkey (keyboardState vkey state) hkl in
  asSingleCodepoint len buf.
Definition getKeyboardKeyHelper key (removeFlags addFlags : Z) : Z :=
  let state := Z.lor (Z.ldiff (controlKeyState key) removeFlags) addFlags in
  let state := if altGrPressed key then Z.lor state (Z.lor LEFT_CTRL_PRESSED RIGHT_ALT_PRESSED) else state in
  getKeyboardKey (virtualKey key) state None.
Definition unmodifiedFlags : Z := Z.lor ALT_PRESSED CTRL_PRESSED.
Definition baseFlags : Z := Z.lor (Z.lor (Z.lor ALT_PRESSED CTRL_PRESSED) SHIFT_PRESSED) CAPSLOCK_ON.
Definition getUnmodifiedKeyboardKey key : Z := getKeyboardKeyHelper key unmodifiedFlags 0.
Definition getKittyBaseKey key : Z := _codepointToLower (getKeyboardKeyHelper key baseFlags 0).
Definition getKittyShiftedKey key : Z := getKeyboardKeyHelper key (Z.lor (Z.lor ALT_PRESSED CTRL_PRESSED) CAPSLOCK_ON) SHIFT_PRESSED.
Definition getKittyUSBaseKey key : Z :=
  if usKeyboardLayout =? 0 then InvalidCodepoint
  else
    let vkey := MapVirtualKeyExW (scanCode key) usKeyboardLayout in
    if vkey =? 0 then InvalidCodepoint
    else
      let keyCode := _getKittyFunctionalKeyCode vkey (scanCode key) (WI_IsFlagSet (controlKeyState key) ENHANCED_KEY) in
      if keyCode =? KittyKeyCodeLegacySentinel then InvalidCodepoint
      else if keyCode =? 0 then
        _codepointToLower (getKeyboardKey vkey (Z.ldiff (controlKeyState key) baseFlags) (Some usKeyboardLayout))
      else keyCode.

(** *** The kitty encoding *)
Definition isKittyFunctionalKey (cp : Z) : bool :=
  ((KittyKeyCodeLegacySentinel <? cp) && (cp <=? 0x1F)) || ((0x7F <=? cp) && (cp <=? 0x9F)) || ((0xE000 <=? cp) && (cp <=? 0xF8FF)).
Definition isKittyValidText (cp : Z) : bool :=
  ((0x1F <? cp) && (cp <? 0x7F)) || ((0x9F <? cp) && (cp <? InvalidCodepoint)).
Definition isTextKey (fk : Z) : bool := fk =? KittyKeyCodeTextSentinel.
Definition isNonLegacyFunctionalKey (fk : Z) : bool := KittyKeyCodeLegacySentinel <? fk.

Definition kitty (flag : Z) t : bool := WI_IsFlagSet (_kittyFlags t) flag.

(** [DisambiguateEscapeCodes]. *)
Definition kittyDisambiguate (functionalKeyCode : Z) t enc : EncodingHelper :=
  if kitty KittyKeyboardProtocolFlags.DisambiguateEscapeCodes t && isNonLegacyFunctionalKey functionalKeyCode
     && ((functionalKeyCode =? 27) || ((functionalKeyCode <=? 127) && negb (csiModifier enc =? 0))
         || ((57399 <=? functionalKeyCode) && (functionalKeyCode <=? 57427)))
  then set_csiFinal functionalKeyCode 0x75 enc else enc.
(** [ReportEventTypes]. *)
Definition kittyEventType t key enc : EncodingHelper :=
  if kitty KittyKeyboardProtocolFlags.ReportEventTypes t then
    if negb (keyDown key) then set_csiEventType 3 enc
    else if keyRepeat key then set_csiEventType 2 enc else enc
  else enc.
(** [ReportAllKeysAsEscapeCodes] and [ReportAssociatedText]. *)
Definition kittyAllKeys (functionalKeyCode : Z) t key enc : EncodingHelper :=
  if kitty KittyKeyboardProtocolFlags.ReportAllKeysAsEscapeCodes t
     || (kitty KittyKeyboardProtocolFlags.DisambiguateEscapeCodes t && isTextKey functionalKeyCode && (csiModifier enc >? CSI_SHIFT))
     || (csiEventType enc =? 3)
  then
    let enc :=
      if isKittyFunctionalKey functionalKeyCode then set_csiFinal functionalKeyCode 0x75 enc
      else if isTextKey functionalKeyCode then
        let cp := getKittyBaseKey key in
        if cp <? InvalidCodepoint then set_csiFinal cp 0x75 enc else enc
      else enc in
    if kitty KittyKeyboardProtocolFlags.ReportAssociatedText t && negb (csiEventType enc =? 3) && isKittyValidText (codepoint key)
    then set_csiText (codepoint key) enc else enc
  else enc.
(** [ReportAlternateKeys]. *)
Definition kittyAlternateKeys (functionalKeyCode : Z) t key enc : EncodingHelper :=
  if kitty KittyKeyboardProtocolFlags.ReportAlternateKeys t && negb (csiUnicodeKeyCode enc =? 0) then
    let shifted :=
      if isTextKey functionalKeyCode && shiftPressed key then
        let cp := getKittyShiftedKey key in if cp <? InvalidCodepoint then cp else csiAltKeyCodeShifted enc
      else csiAltKeyCodeShifted enc in
    let base :=
      if negb (scanCode key =? 0) then
        let cp := getKittyUSBaseKey key in
        if (cp <? InvalidCodepoint) && negb (cp =? csiUnicodeKeyCode enc) then cp else csiAltKeyCodeBase enc
      else csiAltKeyCodeBase enc in
    set_csiAltKeys shifted base enc
  else enc.
(** The lock modifiers. *)
Definition kittyLocks t key enc : EncodingHelper :=
  if isKittyFunctionalKey (csiUnicodeKeyCode enc) || kitty KittyKeyboardProtocolFlags.ReportAllKeysAsEscapeCodes t then
    let modifier := if WI_IsFlagSet (controlKeyState key) CAPSLOCK_ON then Z.lor (csiModifier enc) 64 else csiModifier enc in
    let modifier := if WI_IsFlagSet (controlKeyState key) NUMLOCK_ON then Z.lor modifier 128 else modifier in
    set_csiModifier modifier enc
  else enc.

Definition _encodeKitty enc key t : bool * EncodingHelper :=
  let functionalKeyCode :=
    _getKittyFunctionalKeyCode (virtualKey key) (scanCode key) (WI_IsFlagSet (controlKeyState key) ENHANCED_KEY) in
  let enc := kittyDisambiguate functionalKeyCode t enc in
  let enc := kittyEventType t key enc in
  let enc := kittyAllKeys functionalKeyCode t key enc in
  let enc := kittyAlternateKeys functionalKeyCode t key enc in
  let enc := kittyLocks t key enc in
  (negb (csiFinal enc =? 0), enc).

(** *** The classic encoding *)
Definition escText (final : Z) : wstring := [0x1B; final].
(** [csiFinal] or [ss3Final], with VT52's [ESC] and the same letter. *)
Definition cursorKeyEncoding (final : wchar_t) (csi : bool) t enc : EncodingHelper :=
  if test_mode InputMode.Ansi t then
    if csi then set_csiFinal (csiUnicodeKeyCode enc) final enc else set_ss3Final final enc
  else set_plain (escText final) enc.
Definition keypadEncoding (final : wchar_t) t enc : EncodingHelper :=
  if keypadModeEnabled && test_mode InputMode.Keypad t then
    if test_mode InputMode.Ansi t then set_ss3Final final enc else set_plain [0x1B; 0x3F; final] enc
  else enc.
Definition editingKeyEncoding (code : Z) t enc : EncodingHelper :=
  if test_mode InputMode.Ansi t then set_csiFinal code 0x7E enc else enc.

Definition functionKeyCodes : list Z := [15; 17; 18; 19; 20; 21; 23; 24; 25; 26; 28; 29; 31; 32; 33; 34].
Definition cursorKeyFinals : list Z := [0x44; 0x41; 0x43; 0x42].

Definition inRange (vk low high : Z) : bool := (low <=? vk) && (vk <=? high).

Definition _encodeRegular enc key t : EncodingHelper :=
  let modified := negb (csiModifier enc =? 0) in
  let enhanced := WI_IsFlagSet (controlKeyState key) ENHANCED_KEY in
  let kitty := WI_IsAnyFlagSet (_kittyFlags t)
    (Z.lor (Z.lor KittyKeyboardProtocolFlags.DisambiguateEscapeCodes KittyKeyboardProtocolFlags.ReportEventTypes)
           KittyKeyboardProtocolFlags.ReportAllKeysAsEscapeCodes) in
  let vk := virtualKey key in
  let csi := kitty || modified || negb (test_mode InputMode.CursorKey t) in
  if vk =? VK_BACK then
    set_plain (if bool_decide (ctrlPressed key = test_mode InputMode.BackarrowKey t) then [0x7F] else [0x08]) (set_altPrefix enc)
  else if vk =? VK_TAB then
    set_plain (if negb (shiftPressed key) then [0x09]
               else if test_mode InputMode.SendC1 t then [0x9B; 0x5A] else [0x1B; 0x5B; 0x5A]) (set_altPrefix enc)
  else if vk =? VK_RETURN then
    let enc := set_altPrefix enc in
    if keypadModeEnabled && test_mode InputMode.Keypad t && enhanced then
      if test_mode InputMode.Ansi t then set_ss3Final 0x4D enc else set_plain [0x1B; 0x3F; 0x4D] enc
    else if negb (ctrlPressed key) then set_plain (if test_mode InputMode.LineFeed t then [0x0D; 0x0A] else [0x0D]) enc
    else set_plain [0x0A] enc
  else if vk =? VK_PAUSE then set_plain [0x1A] enc
  else if inRange vk VK_F1 VK_F4 then
    if test_mode InputMode.Ansi t then
      if kitty && (vk =? VK_F3) then set_csiFinal 13 0x7E enc
      else if kitty || modified then set_csiFinal (csiUnicodeKeyCode enc) (0x50 + (vk - VK_F1)) enc
      else set_ss3Final (0x50 + (vk - VK_F1)) enc
    else set_plain (escText (0x50 + (vk - VK_F1))) enc
  else if inRange vk VK_F5 VK_F20 then
    if test_mode InputMode.Ansi t then set_csiFinal (default 0 (functionKeyCodes !! Z.to_nat (vk - VK_F5))) 0x7E enc
    else switch vk [(VK_F11, set_plain [0x1B] enc); (VK_F12, set_plain [0x08] enc); (VK_F13, set_plain [0x0A] enc)] enc
  else if inRange vk VK_LEFT VK_DOWN then cursorKeyEncoding (default 0 (cursorKeyFinals !! Z.to_nat (vk - VK_LEFT))) csi t enc
  else if vk =? VK_CLEAR then cursorKeyEncoding 0x45 csi t enc
  else if vk =? VK_HOME then cursorKeyEncoding 0x48 csi t enc
  else if vk =? VK_END then cursorKeyEncoding 0x46 csi t enc
  else if inRange vk VK_INSERT VK_DELETE then editingKeyEncoding (2 + (vk - VK_INSERT)) t enc
  else if inRange vk VK_PRIOR VK_NEXT then editingKeyEncoding (5 + (vk - VK_PRIOR)) t enc
  else if inRange vk VK_NUMPAD0 VK_NUMPAD9 then keypadEncoding (0x70 + (vk - VK_NUMPAD0)) t enc
  else if inRange vk VK_MULTIPLY VK_DIVIDE then keypadEncoding (0x6A + (vk - VK_MULTIPLY)) t enc
  else enc.

(** *** Formatting *)
Definition formatNonZero (n : Z) : wstring := if negb (n =? 0) then formatUnsigned n else [].

(** The parameters of a control sequence. *)
Definition formatCsi enc : wstring :=
  formatNonZero (csiUnicodeKeyCode enc)
  ++ (if negb (csiAltKeyCodeShifted enc =? 0) || negb (csiAltKeyCodeBase enc =? 0) then
        0x3A :: formatNonZero (csiAltKeyCodeShifted enc)
        ++ (if negb (csiAltKeyCodeBase enc =? 0) then 0x3A :: formatUnsigned (csiAltKeyCodeBase enc) else [])
      else [])
  ++ (if negb (csiModifier enc =? 0) || negb (csiTextAsCodepoint enc =? 0) then
        0x3B :: (if negb (csiModifier enc =? 0) then
                   formatUnsigned (csiModifier enc)
                   ++ (if negb (csiEventType enc =? 0) then 0x3A :: formatUnsigned (csiEventType enc) else [])
                 else [])
        ++ (if negb (csiTextAsCodepoint enc =? 0) then 0x3B :: formatUnsigned (csiTextAsCodepoint enc) else [])
      else []).

(** The result and [seq]. *)
Definition _formatEncodingHelper enc key t : bool * wstring :=
  let seq := if altPrefix enc && altPressed key && test_mode InputMode.Ansi t then [0x1B] else [] in
  if negb (csiFinal enc =? 0) then
    let enc :=
      if negb (csiModifier enc =? 0) || negb (csiEventType enc =? 0)
      then set_csiFinal (Z.max (csiUnicodeKeyCode enc) 1) (csiFinal enc) (set_csiModifier (csiModifier enc + 1) enc)
      else enc in
    (true, seq ++ _csi t ++ formatCsi enc ++ [csiFinal enc])
  else if negb (ss3Final enc =? 0) then (true, seq ++ _ss3 t ++ [ss3Final enc])
  else if negb (bool_decide (plain enc = [])) then (true, seq ++ plain enc)
  else (false, seq).

(** The code point to send, if any. *)
Definition fallbackCodepoint key : option Z :=
  let ctrlSpaceKey := ctrlPressed key && (virtualKey key =? VK_SPACE) in
  if negb (codepoint key =? 0) && negb ctrlSpaceKey
  then Some (if ctrlPressed key then _makeCtrlChar (codepoint key) else codepoint key)
  else if altPressed key || ctrlPressed key then
    let cp := getUnmodifiedKeyboardKey key in
    if InvalidCodepoint <=? cp then None
    else if ctrlPressed key then
      let cp := _makeCtrlChar cp in
      Some (if (0x20 <=? cp) && (0x32 <=? virtualKey key) && (virtualKey key <=? 0x5A) then _makeCtrlChar (virtualKey key) else cp)
    else Some cp
  else None.
Definition _formatFallback key (seq : wstring) t : wstring :=
  if negb (keyDown key) then seq
  else
    match fallbackCodepoint key with
    | None => seq
    | Some cp => _stringPushCodepoint (if altPressed key && test_mode InputMode.Ansi t then seq ++ [0x1B] else seq) cp
    end.

(** *** Key events *)

(** The event with the modifiers that count as pressed. *)
Definition withModifiers key t : SanitizedKeyEvent :=
  let state := controlKeyState key in
  let leftCtrlIsReallyPressed :=
    if WI_AreAllFlagsSet state (Z.lor LEFT_CTRL_PRESSED RIGHT_ALT_PRESSED)
    then Z.max (_lastLeftCtrlTime t) (_lastRightAltTime t) - Z.min (_lastLeftCtrlTime t) (_lastRightAltTime t) >? 50
    else false in
  let anyCtrlPressed := WI_IsAnyFlagSet state CTRL_PRESSED in
  let bothCtrlPressed := WI_AreAllFlagsSet state CTRL_PRESSED in
  let anyAltPressed := WI_IsAnyFlagSet state ALT_PRESSED in
  let bothAltPressed := WI_AreAllFlagsSet state ALT_PRESSED in
  let altGr := anyAltPressed && anyCtrlPressed && ((codepoint key >? 0x20) && negb (codepoint key =? 0x7F)) in
  mkSanitizedKeyEvent (virtualKey key) (scanCode key) (codepoint key) state (keyDown key) (keyRepeat key) altGr
    (bothCtrlPressed || (anyCtrlPressed && negb altGr) || leftCtrlIsReallyPressed)
    (bothAltPressed || (anyAltPressed && negb altGr))
    (WI_IsFlagSet state SHIFT_PRESSED).

(** The end of [HandleKey]: the sequence for an event. *)
Definition encodeKey key t : wstring :=
  let key := withModifiers key t in
  let modifier := WI_SetFlagIf 0 CSI_CTRL (ctrlPressed key) in
  let modifier := WI_SetFlagIf modifier CSI_ALT (altPressed key) in
  let modifier := WI_SetFlagIf modifier CSI_SHIFT (shiftPressed key) in
  let enc := set_csiModifier modifier EncodingHelper_ctor in
  let enc :=
    if _kittyFlags t =? 0 then _encodeRegular enc key t
    else let '(done, enc) := _encodeKitty enc key t in if done then enc else _encodeRegular enc key t in
  let '(formatted, seq) := _formatEncodingHelper enc key t in
  if formatted then seq else _formatFallback key seq t.

(** The events that the middle of [HandleKey] answers by itself. *)
Definition earlyOutput key t : option wstring :=
  if keyRepeat key && (isModifierKey (virtualKey key) || negb (test_mode InputMode.AutoRepeat t)) then Some _makeNoOutput
  else if negb (kitty KittyKeyboardProtocolFlags.ReportAllKeysAsEscapeCodes t) && isModifierKey (virtualKey key) then Some _makeNoOutput
  else if negb (keyDown key) then
    if WI_IsFlagSet (controlKeyState key) NUMLOCK_ON && (virtualKey key =? VK_MENU) && negb (codepoint key =? 0)
    then Some (_makeCharOutput (codepoint key))
    else if negb (kitty KittyKeyboardProtocolFlags.ReportEventTypes t) then Some _makeNoOutput
    else if negb (kitty KittyKeyboardProtocolFlags.ReportAllKeysAsEscapeCodes t)
            && (((virtualKey key =? VK_RETURN) && WI_IsFlagClear (controlKeyState key) ENHANCED_KEY)
                || (virtualKey key =? VK_TAB) || (virtualKey key =? VK_BACK))
    then Some _makeNoOutput
    else None
  else None.

Definition HandleKey (event : INPUT_RECORD) t : TerminalInput * option wstring :=
  match event with
  | KeyEvent event =>
      if test_mode InputMode.Win32 t && negb (_forceDisableWin32InputMode t) && (_kittyFlags t =? 0)
      then (t, Some (_makeWin32Output event t))
      else
        let '(t, state) := _trackControlKeyState event t in
        if is_leading_surrogate (UnicodeChar event) then (set_leadingSurrogate (UnicodeChar event) t, Some _makeNoOutput)
        else
          let cp := if negb (_leadingSurrogate t =? 0) && is_trailing_surrogate (UnicodeChar event)
                    then combine_surrogates (_leadingSurrogate t) (UnicodeChar event) else UnicodeChar event in
          let t := set_leadingSurrogate 0 t in
          let vk := wVirtualKeyCode event in
          if bKeyDown event && ((vk =? VK_PACKET) || (vk =? 0)) then (t, Some (_makeCharOutput cp))
          else if bKeyDown event && inRange vk VK_NUMPAD0 VK_NUMPAD9
                  && ((state =? LEFT_ALT_PRESSED) || (state =? RIGHT_ALT_PRESSED))
          then (t, Some _makeNoOutput)
          else
            let '(t, repeat) :=
              if bKeyDown event then
                let flags := _controlKeyStateFromVirtualKey vk state in
                if negb (flags =? 0) then (t, negb (Z.land (_previousControlKeyState t) flags =? 0))
                else (set_lastVirtualKeyCode (Some vk) t, bool_decide (_lastVirtualKeyCode t = Some vk))
              else (set_lastVirtualKeyCode None t, false) in
            let key := mkSanitizedKeyEvent vk (wVirtualScanCode event) cp state (bKeyDown event) repeat false false false false in
            match earlyOutput key t with
            | Some output => (t, Some output)
            | None => (t, Some (encodeKey key t))
            end
  | _ => (t, None)
  end.

Definition HandleFocus (focused : bool) t : option wstring :=
  if negb (test_mode InputMode.FocusEvent t) then None
  else Some (if focused then _focusInSequence t else _focusOutSequence t).
End keys.

(** ** The mouse encoder

    Models [src/terminal/input/mouseInput.cpp]: how mouse messages become sequences, in the
    default, the UTF-8 and the SGR encoding, and the alternate scroll mode. *)

(** ** Window messages *)
Definition WM_MOUSEMOVE : Z := 0x0200.
Definition WM_LBUTTONDOWN : Z := 0x0201.
Definition WM_LBUTTONUP : Z := 0x0202.
Definition WM_LBUTTONDBLCLK : Z := 0x0203.
Definition WM_RBUTTONDOWN : Z := 0x0204.
Definition WM_RBUTTONUP : Z := 0x0205.
Definition WM_RBUTTONDBLCLK : Z := 0x0206.
Definition WM_MBUTTONDOWN : Z := 0x0207.
Definition WM_MBUTTONUP : Z := 0x0208.
Definition WM_MBUTTONDBLCLK : Z := 0x0209.
Definition WM_MOUSEWHEEL : Z := 0x020A.
Definition WM_XBUTTONUP : Z := 0x020C.
Definition WM_MOUSEHWHEEL : Z := 0x020E.
Definition WHEEL_DELTA : Z := 120.

Definition isOneOf (button : Z) (messages : list Z) : bool := existsb (Z.eqb button) messages.

Definition _isButtonMsg (button : Z) : bool :=
  isOneOf button [WM_LBUTTONDBLCLK; WM_LBUTTONDOWN; WM_LBUTTONUP; WM_MBUTTONUP; WM_RBUTTONUP; WM_RBUTTONDOWN;
                  WM_RBUTTONDBLCLK; WM_MBUTTONDOWN; WM_MBUTTONDBLCLK; WM_MOUSEWHEEL; WM_MOUSEHWHEEL].
Definition _isHoverMsg (buttonCode : Z) : bool := buttonCode =? WM_MOUSEMOVE.
Definition _isWheelMsg (buttonCode : Z) : bool := (buttonCode =? WM_MOUSEWHEEL) || (buttonCode =? WM_MOUSEHWHEEL).
Definition _isButtonUp (button : Z) : bool := isOneOf button [WM_LBUTTONUP; WM_RBUTTONUP; WM_MBUTTONUP; WM_XBUTTONUP].

Record MouseButtonState := mkMouseButtonState {
  isLeftButtonDown : bool; isMiddleButtonDown : bool; isRightButtonDown : bool }.

Definition s_GetPressedButton (state : MouseButtonState) : Z :=
  if isLeftButtonDown state then WM_LBUTTONDOWN
  else if isMiddleButtonDown state then WM_MBUTTONDOWN
  else if isRightButtonDown state then WM_RBUTTONDOWN
  else WM_LBUTTONUP.

(** ** Encodings *)

(** The modifier bits and the bit for a movement. *)
Definition withMouseModifiers (xvalue : Z) (isHover : bool) (modifierKeyState : Z) : Z :=
  let xvalue := if isHover then xvalue + 0x20 else xvalue in
  let xvalue := WI_UpdateFlag xvalue 0x04 (WI_IsAnyFlagSet modifierKeyState SHIFT_PRESSED) in
  let xvalue := WI_UpdateFlag xvalue 0x08 (WI_IsAnyFlagSet modifierKeyState ALT_PRESSED) in
  WI_UpdateFlag xvalue 0x10 (WI_IsAnyFlagSet modifierKeyState CTRL_PRESSED).

Definition _windowsButtonToXEncoding (button : Z) (isHover : bool) (modifierKeyState delta : Z) : wchar_t :=
  let xvalue := switch button
    [(WM_LBUTTONDBLCLK, 0); (WM_LBUTTONDOWN, 0); (WM_LBUTTONUP, 3); (WM_MBUTTONUP, 3); (WM_RBUTTONUP, 3);
     (WM_RBUTTONDOWN, 2); (WM_RBUTTONDBLCLK, 2); (WM_MBUTTONDOWN, 1); (WM_MBUTTONDBLCLK, 1);
     (WM_MOUSEWHEEL, if delta >? 0 then 0x40 else 0x41); (WM_MOUSEHWHEEL, if delta >? 0 then 0x43 else 0x42)]
    0 in
  u16 (0x20 + withMouseModifiers xvalue isHover modifierKeyState).

Definition _windowsButtonToSGREncoding (button : Z) (isHover : bool) (modifierKeyState delta : Z) : Z :=
  let xvalue := switch button
    [(WM_LBUTTONDBLCLK, 0); (WM_LBUTTONDOWN, 0); (WM_LBUTTONUP, 0); (WM_RBUTTONUP, 2); (WM_RBUTTONDOWN, 2);
     (WM_RBUTTONDBLCLK, 2); (WM_MBUTTONUP, 1); (WM_MBUTTONDOWN, 1); (WM_MBUTTONDBLCLK, 1); (WM_MOUSEMOVE, 3);
     (WM_MOUSEWHEEL, if delta >? 0 then 0x40 else 0x41); (WM_MOUSEHWHEEL, if delta >? 0 then 0x43 else 0x42)]
    0 in
  withMouseModifiers xvalue isHover modifierKeyState.

Definition s_MaxDefaultCoordinate : Z := 94.
Definition SHORT_MAX : Z := 32767.
Definition _winToVTCoord (position : Z * Z) : Z * Z := (position.1 + 1, position.2 + 1).
Definition _encodeDefaultCoordinate (value : Z) : wchar_t := u16 (value + 32).

Section mouse.
Context (keypadModeEnabled : bool).

Definition IsTrackingMouseInput t : bool :=
  enumset_any (_inputMode t)
    [InputMode.DefaultMouseTracking; InputMode.ButtonEventMouseTracking; InputMode.AnyEventMouseTracking].

(** The text of the default and the UTF-8 encoding. *)
Definition defaultSequence (position : Z * Z) (button : Z) (isHover : bool) (modifierKeyState delta : Z) t : wstring :=
  let vtCoords := _winToVTCoord position in
  _csi t ++ [0x4D; _windowsButtonToXEncoding button isHover modifierKeyState delta;
             _encodeDefaultCoordinate vtCoords.1; _encodeDefaultCoordinate vtCoords.2].
Definition _GenerateDefaultSequence (position : Z * Z) (button : Z) (isHover : bool) (modifierKeyState delta : Z) t : option wstring :=
  if (position.1 <=? s_MaxDefaultCoordinate) && (position.2 <=? s_MaxDefaultCoordinate)
  then Some (defaultSequence position button isHover modifierKeyState delta t) else None.
Definition _GenerateUtf8Sequence (position : Z * Z) (button : Z) (isHover : bool) (modifierKeyState delta : Z) t : option wstring :=
  if (position.1 <=? SHORT_MAX - 33) && (position.2 <=? SHORT_MAX - 33)
  then Some (defaultSequence position button isHover modifierKeyState delta t) else None.
Definition _GenerateSGRSequence (position : Z * Z) (button : Z) (isRelease isHover : bool) (modifierKeyState delta : Z) t : option wstring :=
  let xbutton := _windowsButtonToSGREncoding button isHover modifierKeyState delta in
  Some (_csi t ++ 0x3C :: formatInt xbutton ++ 0x3B :: formatInt (position.1 + 1) ++ 0x3B :: formatInt (position.2 + 1)
          ++ [if isRelease then 0x6D else 0x4D]).

Definition ShouldSendAlternateScroll (button delta : Z) t : bool :=
  _inAlternateBuffer t && test_mode InputMode.AlternateScroll t
  && (((button =? WM_MOUSEWHEEL) || (button =? WM_MOUSEHWHEEL)) && negb (delta =? 0)).

Definition _makeAlternateScrollOutput (button delta : Z) t : option wstring :=
  let output vkey :=
    let key := mkSanitizedKeyEvent vkey 0 0 0 false false false false false false in
    Some (_formatEncodingHelper (_encodeRegular keypadModeEnabled EncodingHelper_ctor key t) key t).2 in
  if button =? WM_MOUSEWHEEL then output (if delta >? 0 then VK_UP else VK_DOWN)
  else if button =? WM_MOUSEHWHEEL then output (if delta >? 0 then VK_RIGHT else VK_LEFT)
  else None.

Definition set_accumulatedDelta delta t : TerminalInput :=
  set_mouseInputState (mkMouseInputState (lastPos (_mouseInputState t)) (lastButton (_mouseInputState t)) delta) t.
Definition set_lastMouse position button t : TerminalInput :=
  set_mouseInputState (mkMouseInputState position button (accumulatedDelta (_mouseInputState t))) t.

(** The event in a tracking mode, if it is one to report. *)
Definition trackedMouse (position : Z * Z) (button modifierKeyState delta : Z) (state : MouseButtonState) t :
    option (TerminalInput * option wstring) :=
  let isHover := _isHoverMsg button in
  let isButton := _isButtonMsg button in
  let sameCoord := (position.1 =? (lastPos (_mouseInputState t)).1) && (position.2 =? (lastPos (_mouseInputState t)).2)
                   && (lastButton (_mouseInputState t) =? button) in
  let realButton := if isHover then s_GetPressedButton state else button in
  let physicalButtonPressed := negb (realButton =? WM_LBUTTONUP) in
  if isButton
     || (isHover && test_mode InputMode.ButtonEventMouseTracking t && (negb sameCoord && physicalButtonPressed))
     || (isHover && test_mode InputMode.AnyEventMouseTracking t && negb sameCoord)
  then
    let t := if enumset_any (_inputMode t) [InputMode.ButtonEventMouseTracking; InputMode.AnyEventMouseTracking]
             then set_lastMouse position button t else t in
    Some (t,
      if test_mode InputMode.Utf8MouseEncoding t then _GenerateUtf8Sequence position realButton isHover modifierKeyState delta t
      else if test_mode InputMode.SgrMouseEncoding t then
        _GenerateSGRSequence position (if physicalButtonPressed then realButton else button) (_isButtonUp button)
          isHover modifierKeyState delta t
      else _GenerateDefaultSequence position realButton isHover modifierKeyState delta t)
  else None.

Definition HandleMouse (position : Z * Z) (button modifierKeyState delta : Z) (state : MouseButtonState) t :
    TerminalInput * option wstring :=
  let t := if negb (Z.sgn delta =? Z.sgn (accumulatedDelta (_mouseInputState t))) then set_accumulatedDelta 0 t else t in
  let t := if _isWheelMsg button then set_accumulatedDelta (accumulatedDelta (_mouseInputState t) + delta) t else t in
  if _isWheelMsg button && (Z.abs (accumulatedDelta (_mouseInputState t)) <? WHEEL_DELTA)
  then (t, if IsTrackingMouseInput t || ShouldSendAlternateScroll button delta t then Some [] else None)
  else
    let t := if _isWheelMsg button then set_accumulatedDelta 0 t else t in
    match (if IsTrackingMouseInput t then trackedMouse position button modifierKeyState delta state t else None) with
    | Some result => result
    | None => (t, if ShouldSendAlternateScroll button delta t then _makeAlternateScrollOutput button delta t else None)
    end.
End mouse.
