(* ===== verification/InputInvariant.v ===== *)
(** * The state of the keyboard and mouse encoder

    That the numbers the encoders and reports write are the parameters the parser reads; what
    holds of [TerminalInput] whatever sequence of calls it receives, and the stacks of kitty
    flags. *)

From S2P Require Import Prelude DispatchTypes StateMachine StateMachineInv StateMachineStream StateMachineGrammar TerminalInput InputEvents.

Lemma decimalLoop_app fuel n text : decimalLoop fuel n text = decimalLoop fuel n [] ++ text.
Proof.
  revert n text. induction fuel as [|fuel IH]; intros n text; cbn [decimalLoop]; [done|].
  destruct (n <? 10); [done|]. rewrite (IH _ (_ :: text)), (IH _ [_]). by rewrite <- app_assoc.
Qed.

Lemma decimalLoop_spec fuel n : 0 <= n < 10 ^ Z.of_nat fuel -> (0 < fuel)%nat ->
  decimalLoop fuel n [] <> [] /\ Forall is_digit (decimalLoop fuel n []) /\ decimalValue (decimalLoop fuel n []) = n.
Proof.
  revert n. induction fuel as [|fuel IH]; intros n Hn Hf; [lia|]. cbn [decimalLoop].
  assert (Hd : is_digit (0x30 + n mod 10)).
  { unfold is_digit, _isNumericParamValue. pose proof (Z.mod_pos_bound n 10). lia. }
  destruct (Z.ltb_spec n 10).
  - split_and!; [done|by apply Forall_singleton|]. rewrite Z.mod_small by lia. unfold decimalValue. cbn. lia.
  - rewrite decimalLoop_app. rewrite Nat2Z.inj_succ, Z.pow_succ_r in Hn by lia.
    assert (0 < fuel)%nat by (destruct fuel; [cbn in Hn; lia|lia]).
    destruct (IH (n / 10)) as (Hne & Hds & Hv); [|lia|].
    { split; [apply Z.div_pos; lia|apply Z.div_lt_upper_bound; lia]. }
    split_and!; [by destruct (decimalLoop fuel (n / 10) [])|apply Forall_app; split; [done|by apply Forall_singleton]|].
    unfold decimalValue in *. rewrite fold_left_app, Hv. cbn. pose proof (Z.div_mod n 10). lia.
Qed.

Lemma formatUnsigned_spec n : 0 <= n < 10 ^ 20 ->
  formatUnsigned n <> [] /\ Forall is_digit (formatUnsigned n) /\ decimalValue (formatUnsigned n) = n.
Proof. intros Hn. apply decimalLoop_spec; [exact Hn|lia]. Qed.

Lemma formatInt_nonneg n : 0 <= n -> formatInt n = formatUnsigned n.
Proof. intros Hn. unfold formatInt. destruct (Z.ltb_spec n 0); [lia|done]. Qed.

Definition is_parameter (n : Z) : Prop := 0 <= n <= 65535.

#[export] Instance is_parameter_dec n : Decision (is_parameter n).
Proof. unfold is_parameter. apply _. Defined.

Lemma fieldValue_format n : is_parameter n -> fieldValue (formatUnsigned n) = n.
Proof.
  intros Hn. unfold is_parameter in Hn. destruct (formatUnsigned_spec n) as (Hne & _ & Hv); [lia|]. unfold fieldValue.
  destruct (formatUnsigned n) eqn:E; [done|]. rewrite Hv. unfold MAX_PARAMETER_VALUE. lia.
Qed.

Lemma fieldText_nonempty fields : Forall (fun f => f <> []) fields -> fields <> [] -> fieldText fields <> [].
Proof. destruct 1 as [|f fields Hf Hs]; [done|]. intros _. cbn. destruct fields; [done|]. by destruct f. Qed.

Lemma fieldParams_format ns : Forall is_parameter ns -> (length ns <= MAX_PARAMETER_COUNT)%nat ->
  fieldParams (map formatUnsigned ns) = ns /\ Forall (Forall is_digit) (map formatUnsigned ns).
Proof.
  intros Hns Hlen. assert (Hspec : forall n, is_parameter n -> formatUnsigned n <> [] /\ Forall is_digit (formatUnsigned n)).
  { intros n Hn. unfold is_parameter in Hn. destruct (formatUnsigned_spec n) as (? & ? & _); [lia|]. done. }
  split.
  - destruct (decide (ns = [])) as [->|Hne]; [done|]. unfold fieldParams. destruct (fieldText (map formatUnsigned ns)) eqn:E.
    + exfalso. revert E. apply fieldText_nonempty; [|by destruct ns]. apply Forall_map. eapply Forall_impl; [exact Hns|].
      intros n Hn. by apply Hspec.
    + rewrite take_ge by (rewrite !length_map; done). rewrite map_map. clear E Hne Hlen.
      induction Hns as [|n ns Hn Hns IH]; [done|]. cbn [map]. by rewrite fieldValue_format, IH.
  - apply Forall_map. eapply Forall_impl; [exact Hns|]. intros n Hn. by apply Hspec.
Qed.

(** ** The state of the keyboard and mouse encoder

    What holds of [TerminalInput] whatever sequence of calls it receives, and the stacks of
    kitty flags. *)

Implicit Types (t : TerminalInput).

(** ** Sets of modes *)
Lemma to_underlying_bit pos p : 0 <= pos -> 0 <= p -> Z.testbit (enumset.to_underlying pos) p = (p =? pos).
Proof.
  intros Hpos Hp. unfold enumset.to_underlying. rewrite Z.shiftl_spec by done. change 1 with (2 ^ 0).
  destruct (Z.eqb_spec p pos) as [->|Hne]; [by rewrite Z.sub_diag|]. destruct (Z.leb_spec pos p).
  - rewrite Z.pow2_bits_false by lia. done.
  - by rewrite Z.testbit_neg_r by lia.
Qed.

Lemma enumset_test_bit data pos : 0 <= pos -> enumset.test data pos = Z.testbit data pos.
Proof.
  intros Hpos. unfold enumset.test. assert (Hbit : forall p, 0 <= p -> Z.testbit (Z.land data (enumset.to_underlying pos)) p
    = Z.testbit data p && (p =? pos)) by (intros; by rewrite Z.land_spec, to_underlying_bit).
  destruct (Z.testbit data pos) eqn:Hd.
  - destruct (Z.eqb_spec (Z.land data (enumset.to_underlying pos)) 0) as [H0|]; [|done].
    specialize (Hbit pos Hpos). by rewrite H0, Z.bits_0, Hd, Z.eqb_refl in Hbit.
  - replace (Z.land data (enumset.to_underlying pos)) with 0; [done|]. apply Z.bits_inj'. intros p Hp. rewrite Hbit, Z.bits_0 by done.
    destruct (Z.eqb_spec p pos) as [->|]; [by rewrite Hd|by rewrite andb_false_r].
Qed.

Lemma mask_of_bit positions p : 0 <= p -> Forall (fun pos => 0 <= pos) positions ->
  Z.testbit (mask_of positions) p = existsb (Z.eqb p) positions.
Proof.
  intros Hp. induction 1 as [|pos positions Hpos Hs IH]; [by rewrite Z.bits_0|]. cbn [mask_of fold_right existsb].
  rewrite Z.lor_spec, to_underlying_bit by done. f_equal. exact IH.
Qed.

Lemma enumset_test_set data pos val p : 0 <= pos -> 0 <= p ->
  enumset.test (enumset.set data pos val) p = if p =? pos then val else enumset.test data p.
Proof.
  intros Hpos Hp. rewrite !enumset_test_bit by done. unfold enumset.set. rewrite Z.lor_spec, Z.ldiff_spec, to_underlying_bit by done.
  destruct val; [rewrite to_underlying_bit by done|rewrite Z.bits_0]; destruct (p =? pos);
    by rewrite ?andb_false_r, ?andb_true_r, ?orb_false_r, ?orb_true_r.
Qed.

Lemma enumset_test_reset data positions p : 0 <= p -> Forall (fun pos => 0 <= pos) positions ->
  enumset.test (enumset_reset data positions) p = enumset.test data p && negb (existsb (Z.eqb p) positions).
Proof.
  intros Hp Hs. rewrite !enumset_test_bit by done. unfold enumset_reset. by rewrite Z.ldiff_spec, mask_of_bit.
Qed.

Definition trackingModes : list Z :=
  [InputMode.DefaultMouseTracking; InputMode.ButtonEventMouseTracking; InputMode.AnyEventMouseTracking].
Definition encodingModes : list Z := [InputMode.Utf8MouseEncoding; InputMode.SgrMouseEncoding].
Definition is_mode (mode : Z) : Prop := 0 <= mode <= 14.
#[export] Instance is_mode_dec mode : Decision (is_mode mode).
Proof. unfold is_mode. apply _. Defined.

(** The modes after one of them was set or reset. *)
Lemma test_SetInputMode mode enabled p t : is_mode mode -> is_mode p ->
  test_mode p (SetInputMode mode enabled t)
  = if p =? mode then enabled
    else test_mode p t && negb (existsb (Z.eqb mode) trackingModes && existsb (Z.eqb p) trackingModes)
         && negb (existsb (Z.eqb mode) encodingModes && enabled && existsb (Z.eqb p) encodingModes).
Proof.
  intros [Hm0 Hm1] [Hp0 Hp1]. unfold SetInputMode.
  set (t1 := if (_ : bool) then set_modes _ _ t else t). set (t2 := if (_ : bool) then set_inputMode _ t1 else t1).
  set (t3 := set_inputMode _ t2).
  assert (test_mode p (if enumset.test keyMapModes mode then _initKeyboardMap t3 else t3) = test_mode p t3) as ->.
  { unfold test_mode. destruct (enumset.test keyMapModes mode); [|done]. unfold _initKeyboardMap. by destruct (test_mode _ _). }
  unfold test_mode, t3. cbn [_inputMode set_inputMode set_modes]. rewrite enumset_test_set by done.
  destruct (p =? mode) eqn:Hpm; [done|].
  assert (H2 : enumset.test (_inputMode t2) p = enumset.test (_inputMode t1) p
    && negb (existsb (Z.eqb mode) encodingModes && enabled && existsb (Z.eqb p) encodingModes)).
  { unfold t2. cbn [existsb encodingModes]. rewrite orb_false_r.
    destruct (((mode =? InputMode.Utf8MouseEncoding) || (mode =? InputMode.SgrMouseEncoding)) && enabled); [|by rewrite andb_true_r].
    cbn [_inputMode set_inputMode set_modes andb]. by rewrite enumset_test_reset by (done || by_decide). }
  rewrite H2. f_equal. unfold t1. cbn [existsb trackingModes]. rewrite !orb_false_r, !orb_assoc.
  destruct ((mode =? InputMode.DefaultMouseTracking) || (mode =? InputMode.ButtonEventMouseTracking)
       || (mode =? InputMode.AnyEventMouseTracking)); [|by rewrite andb_true_r].
  cbn [_inputMode set_modes andb]. rewrite enumset_test_reset by (done || by_decide). cbn [existsb]. by rewrite orb_false_r, !orb_assoc.
Qed.

(** ** The invariant *)
Definition is_kitty (flags : Z) : Prop := Z.land flags KittyKeyboardProtocolFlags.All = flags.

Definition kitty_stack_ok (stack : list Z) : Prop := Forall is_kitty stack /\ (length stack <= KittyStackMaxSize)%nat.

(** At most one of some modes. *)
Definition exclusive (modes : list Z) t : Prop :=
  forall p q, p ∈ modes -> q ∈ modes -> test_mode p t = true -> test_mode q t = true -> p = q.

Definition introducers t : list wstring := [_csi t; _ss3 t; _focusInSequence t; _focusOutSequence t].
Definition expectedIntroducers (sendC1 : bool) : list wstring :=
  if sendC1 then [[0x9B]; [0x8F]; [0x9B; 0x49]; [0x9B; 0x4F]]
  else [[0x1B; 0x5B]; [0x1B; 0x4F]; [0x1B; 0x5B; 0x49]; [0x1B; 0x5B; 0x4F]].

Record kitty_ok t : Prop := {
  ok_flags : is_kitty (_kittyFlags t);
  ok_main : kitty_stack_ok (_kittyMainStack t);
  ok_alt : kitty_stack_ok (_kittyAltStack t);
  ok_inactive : _inAlternateBuffer t = false -> _kittyAltStack t = [];
  ok_disabled : _forceDisableKittyKeyboardProtocol t = true ->
    _kittyFlags t = 0 /\ _kittyMainStack t = [] /\ _kittyAltStack t = [] }.

Record modes_ok t : Prop := {
  ok_tracking : exclusive trackingModes t;
  ok_encoding : exclusive encodingModes t;
  ok_introducers : introducers t = expectedIntroducers (test_mode InputMode.SendC1 t) }.

Definition wheel_ok t : Prop := Z.abs (accumulatedDelta (_mouseInputState t)) < WHEEL_DELTA.

Definition input_ok t : Prop := kitty_ok t /\ modes_ok t /\ wheel_ok t.

(** The calls that the adapter and the control make. *)
Inductive InputCall :=
| CallHandleKey (event : INPUT_RECORD)
| CallHandleFocus (focused : bool)
| CallHandleMouse (position : Z * Z) (button modifierKeyState delta : Z) (state : MouseButtonState)
| CallUseMainScreenBuffer
| CallUseAlternateScreenBuffer
| CallSetInputMode (mode : Z) (enabled : bool)
| CallResetInputModes
| CallForceDisableWin32InputMode (disable : bool)
| CallForceDisableKittyKeyboardProtocol (disable : bool)
| CallSetKittyKeyboardProtocol (flags : Z) (mode : KittyKeyboardProtocolMode)
| CallResetKittyKeyboardProtocols
| CallPushKittyFlags (flags : Z)
| CallPopKittyFlags (count : nat).

Section calls.
Context {keyboard : Keyboard} (keypad : bool).

Definition runCall (c : InputCall) t : TerminalInput :=
  match c with
  | CallHandleKey event => (HandleKey keypad event t).1
  | CallHandleFocus _ => t
  | CallHandleMouse position button modifiers delta state => (HandleMouse keypad position button modifiers delta state t).1
  | CallUseMainScreenBuffer => UseMainScreenBuffer t
  | CallUseAlternateScreenBuffer => UseAlternateScreenBuffer t
  | CallSetInputMode mode enabled => SetInputMode mode enabled t
  | CallResetInputModes => ResetInputModes t
  | CallForceDisableWin32InputMode disable => ForceDisableWin32InputMode disable t
  | CallForceDisableKittyKeyboardProtocol disable => ForceDisableKittyKeyboardProtocol disable t
  | CallSetKittyKeyboardProtocol flags mode => SetKittyKeyboardProtocol flags mode t
  | CallResetKittyKeyboardProtocols => ResetKittyKeyboardProtocols t
  | CallPushKittyFlags flags => PushKittyFlags flags t
  | CallPopKittyFlags count => PopKittyFlags count t
  end.
Definition runCallsOn (calls : list InputCall) t : TerminalInput := fold_left (fun t c => runCall c t) calls t.

Definition call_ok (c : InputCall) : Prop := match c with CallSetInputMode mode _ => is_mode mode | _ => True end.
#[export] Instance call_ok_dec c : Decision (call_ok c).
Proof. destruct c; cbn; apply _. Defined.

(** What each part of the invariant depends on. *)
Definition kittyPart t := (_inAlternateBuffer t, _forceDisableKittyKeyboardProtocol t, _kittyFlags t, _kittyMainStack t, _kittyAltStack t).
Definition modesPart t := (_inputMode t, introducers t).

Lemma kitty_ok_part t t' : kittyPart t' = kittyPart t -> kitty_ok t -> kitty_ok t'.
Proof. intros [= Ha Hd Hf Hm Hs] []. split; by rewrite ?Ha, ?Hd, ?Hf, ?Hm, ?Hs. Qed.
Lemma modes_ok_part t t' : modesPart t' = modesPart t -> modes_ok t -> modes_ok t'.
Proof.
  intros [= Hm Hi1 Hi2 Hi3 Hi4] [H1 H2 H3]. unfold exclusive, test_mode, introducers in *.
  split; unfold exclusive, test_mode, introducers; by rewrite ?Hm, ?Hi1, ?Hi2, ?Hi3, ?Hi4.
Qed.

(** *** The stacks *)
Create HintDb kitty.
Lemma is_kitty_0 : is_kitty 0.
Proof. done. Qed.
Lemma is_kitty_land flags : is_kitty (Z.land flags KittyKeyboardProtocolFlags.All).
Proof. unfold is_kitty. by rewrite <- Z.land_assoc, Z.land_diag. Qed.
Lemma is_kitty_lor a b : is_kitty a -> is_kitty b -> is_kitty (Z.lor a b).
Proof. unfold is_kitty. intros Ha Hb. by rewrite Z.land_lor_distr_l, Ha, Hb. Qed.
Lemma is_kitty_ldiff a b : is_kitty a -> is_kitty (Z.ldiff a b).
Proof.
  unfold is_kitty. intros Ha. rewrite !Z.ldiff_land. by rewrite <- Z.land_assoc, (Z.land_comm (Z.lnot b)), Z.land_assoc, Ha.
Qed.
Lemma kitty_stack_nil : kitty_stack_ok [].
Proof. split; [constructor|cbn; lia]. Qed.
Lemma kitty_stack_default (flags : option Z) stack : kitty_stack_ok stack -> (forall f, flags = Some f -> f ∈ stack) ->
  is_kitty (default 0 flags).
Proof. intros [Hs _] Hin. destruct flags as [f|]; [|apply is_kitty_0]. rewrite Forall_forall in Hs. by apply Hs, Hin. Qed.
Hint Resolve is_kitty_0 is_kitty_land is_kitty_lor is_kitty_ldiff kitty_stack_nil : kitty.

Lemma kittyStack_ok t : kitty_ok t -> kitty_stack_ok (kittyStack t).
Proof. intros []. unfold kittyStack. by case_match. Qed.

Lemma set_kittyStack_ok flags stack t : kitty_ok t -> is_kitty flags -> kitty_stack_ok stack ->
  (_forceDisableKittyKeyboardProtocol t = true -> flags = 0 /\ stack = []) -> kitty_ok (set_kittyStack flags stack t).
Proof.
  intros [Hf Hm Ha Hi Hd] Hf' Hs Hd'. unfold set_kittyStack. destruct (_inAlternateBuffer t) eqn:Halt; split; cbn; try done.
  - intros H. destruct (Hd H) as (_ & ? & _), (Hd' H). done.
  - intros H. destruct (Hd H) as (_ & _ & ?), (Hd' H). done.
Qed.

Lemma push_kitty_ok flags t : kitty_ok t -> kitty_ok (PushKittyFlags flags t).
Proof.
  intros Hok. unfold PushKittyFlags. destruct (_forceDisableKittyKeyboardProtocol t) eqn:Hd; [done|].
  apply set_kittyStack_ok; [done|auto with kitty| |by rewrite Hd].
  destruct (kittyStack_ok t Hok) as [Hs Hl]. destruct Hok as [Hf _ _ _ _]. unfold KittyStackMaxSize in *.
  split; [apply Forall_app; split; [case_match; [by apply Forall_drop|done]|by constructor]|].
  unfold KittyStackMaxSize. rewrite length_app. cbn [length]. destruct (Nat.leb_spec 8 (length (kittyStack t))); rewrite ?length_drop; lia.
Qed.

Lemma pop_kitty_ok count t : kitty_ok t -> kitty_ok (PopKittyFlags count t).
Proof.
  intros Hok. unfold PopKittyFlags. destruct (count =? 0)%nat; [done|]. pose proof (kittyStack_ok t Hok) as Hs.
  destruct (Nat.leb_spec (length (kittyStack t)) count); [by apply set_kittyStack_ok; auto with kitty|].
  apply set_kittyStack_ok; [done| | |].
  - apply (kitty_stack_default _ (kittyStack t)); [done|]. intros f Hf. by eapply list_elem_of_lookup_2.
  - destruct Hs as [Hs Hl]. split; [by apply Forall_take|]. rewrite length_take. lia.
  - intros Hd. destruct Hok as [_ _ _ _ Hdis]. destruct (Hdis Hd) as (_ & Hm & Ha).
    unfold kittyStack in *. rewrite Hm, Ha in *. destruct (_inAlternateBuffer t); cbn in *; lia.
Qed.

(** *** Events *)
Lemma HandleKey_keeps event t :
  kittyPart (HandleKey keypad event t).1 = kittyPart t /\ modesPart (HandleKey keypad event t).1 = modesPart t
  /\ _mouseInputState (HandleKey keypad event t).1 = _mouseInputState t.
Proof.
  unfold HandleKey, _trackControlKeyState. repeat case_match; simplify_eq/=; done.
Qed.

Lemma trackedMouse_keeps position button modifiers delta state t t' text :
  trackedMouse position button modifiers delta state t = Some (t', text) ->
  kittyPart t' = kittyPart t /\ modesPart t' = modesPart t /\ accumulatedDelta (_mouseInputState t') = accumulatedDelta (_mouseInputState t).
Proof. unfold trackedMouse. intros Ht. repeat case_match; simplify_eq; done. Qed.

Lemma HandleMouse_keeps position button modifiers delta state t : wheel_ok t ->
  let t' := (HandleMouse keypad position button modifiers delta state t).1 in
  kittyPart t' = kittyPart t /\ modesPart t' = modesPart t /\ wheel_ok t'.
Proof.
  intros Hw. unfold HandleMouse.
  set (t1 := if negb _ then set_accumulatedDelta 0 t else t).
  assert (H1 : kittyPart t1 = kittyPart t /\ modesPart t1 = modesPart t /\ wheel_ok t1).
  { unfold t1. case_match; [|done]. split_and!; [done..|]. unfold wheel_ok. cbn. unfold WHEEL_DELTA. lia. }
  clearbody t1. set (t2 := if _isWheelMsg button then set_accumulatedDelta (_ + _) t1 else t1).
  assert (H2 : kittyPart t2 = kittyPart t /\ modesPart t2 = modesPart t).
  { destruct H1 as (? & ? & _). unfold t2. by destruct (_isWheelMsg button). }
  destruct (_isWheelMsg button && (Z.abs (accumulatedDelta (_mouseInputState t2)) <? WHEEL_DELTA)) eqn:Hc.
  { destruct H2 as [Hk Hm]. split_and!; [done..|]. unfold wheel_ok. cbn [fst]. lia. }
  set (t3 := if _isWheelMsg button then set_accumulatedDelta 0 t2 else t2).
  assert (H3 : kittyPart t3 = kittyPart t /\ modesPart t3 = modesPart t /\ wheel_ok t3).
  { destruct H2 as [Hk Hm], H1 as (_ & _ & Hw1). unfold t3, t2 in *. by destruct (_isWheelMsg button). }
  clearbody t3. destruct H3 as (Hk & Hm & Hw3).
  destruct (if IsTrackingMouseInput t3 then _ else None) as [[t' text]|] eqn:Htr; [|done].
  destruct (IsTrackingMouseInput t3); [|done]. destruct (trackedMouse_keeps _ _ _ _ _ _ _ _ Htr) as (Hk' & Hm' & Ha).
  cbn [fst]. split_and!; [by rewrite Hk'|by rewrite Hm'|]. unfold wheel_ok. by rewrite Ha.
Qed.

Lemma initKeyboardMap_keeps t :
  kittyPart (_initKeyboardMap t) = kittyPart t /\ _inputMode (_initKeyboardMap t) = _inputMode t
  /\ _mouseInputState (_initKeyboardMap t) = _mouseInputState t
  /\ introducers (_initKeyboardMap t) = expectedIntroducers (test_mode InputMode.SendC1 t).
Proof. unfold _initKeyboardMap. by destruct (test_mode InputMode.SendC1 t). Qed.

Lemma SetInputMode_keeps mode enabled t : kittyPart (SetInputMode mode enabled t) = kittyPart t
  /\ accumulatedDelta (_mouseInputState (SetInputMode mode enabled t)) = accumulatedDelta (_mouseInputState t).
Proof.
  unfold SetInputMode. set (t3 := set_inputMode _ _).
  assert (H3 : kittyPart t3 = kittyPart t /\ accumulatedDelta (_mouseInputState t3) = accumulatedDelta (_mouseInputState t)).
  { unfold t3. repeat case_match; done. }
  clearbody t3. destruct (initKeyboardMap_keeps t3) as (Hk & _ & Hm & _). case_match; [|done]. by rewrite Hk, Hm.
Qed.

Lemma exclusive_set modes mode enabled t : is_mode mode -> Forall is_mode modes ->
  (modes = trackingModes \/ modes = encodingModes) -> exclusive modes t -> exclusive modes (SetInputMode mode enabled t).
Proof.
  intros Hm Hms Hwhich Hex p q Hp Hq. rewrite Forall_forall in Hms. rewrite !test_SetInputMode by auto.
  assert (Hmem : forall p, p ∈ modes -> existsb (Z.eqb p) modes = true).
  { intros r Hr. apply existsb_exists. exists r. split; [by apply list_elem_of_In|apply Z.eqb_refl]. }
  destruct (Z.eqb_spec p mode) as [->|Hpm], (Z.eqb_spec q mode) as [->|Hqm]; try done.
  - intros -> [[_ H1]%andb_true_iff H2]%andb_true_iff. pose proof (Hmem _ Hp). pose proof (Hmem _ Hq).
    destruct Hwhich as [->| ->]; [by rewrite H, H0 in H1|by rewrite H, H0 in H2].
  - intros [[_ H1]%andb_true_iff H2]%andb_true_iff ->. pose proof (Hmem _ Hp). pose proof (Hmem _ Hq).
    destruct Hwhich as [->| ->]; [by rewrite H, H0 in H1|by rewrite H, H0 in H2].
  - intros [[H1 _]%andb_true_iff _]%andb_true_iff [[H2 _]%andb_true_iff _]%andb_true_iff. by apply Hex.
Qed.

Lemma SetInputMode_modes_ok mode enabled t : is_mode mode -> modes_ok t -> modes_ok (SetInputMode mode enabled t).
Proof.
  intros Hm [Ht He Hi]. split; [apply exclusive_set; auto; by_decide..|].
  destruct (enumset.test keyMapModes mode) eqn:Hkey.
  - unfold SetInputMode. rewrite Hkey. set (t3 := set_inputMode _ _). destruct (initKeyboardMap_keeps t3) as (_ & Hmode & _ & ->).
    unfold test_mode. by rewrite Hmode.
  - rewrite test_SetInputMode by (done || by_decide). change (existsb (Z.eqb InputMode.SendC1) trackingModes) with false.
    change (existsb (Z.eqb InputMode.SendC1) encodingModes) with false. rewrite !andb_false_r, !andb_true_r.
    destruct (Z.eqb_spec InputMode.SendC1 mode) as [<-|_]; [done|]. rewrite <- Hi. unfold SetInputMode. rewrite Hkey.
    by repeat case_match.
Qed.

(** *** Every call *)
Lemma runCall_kitty c t : kitty_ok t -> wheel_ok t -> kitty_ok (runCall c t).
Proof.
  intros Hok Hw. pose proof Hok as [Hf Hm Ha Hi Hd]. destruct c; cbn [runCall].
  - eapply kitty_ok_part; [|done]. by apply HandleKey_keeps.
  - done.
  - eapply kitty_ok_part; [|done]. by apply HandleMouse_keeps.
  - unfold UseMainScreenBuffer. destruct (_inAlternateBuffer t) eqn:Halt; [|done]. cbn [negb].
    split; cbn; try done; [|auto with kitty|].
    + apply (kitty_stack_default _ (_kittyMainStack t)); [done|]. intros f Hl. by apply last_Some_elem_of.
    + intros H. destruct (Hd H) as (_ & -> & _). done.
  - unfold UseAlternateScreenBuffer. destruct (_inAlternateBuffer t) eqn:Halt; [done|].
    split; cbn; try done; auto with kitty. intros H. destruct (Hd H) as (_ & -> & _). done.
  - eapply kitty_ok_part; [|done]. by apply SetInputMode_keeps.
  - unfold ResetInputModes. eapply kitty_ok_part; [apply initKeyboardMap_keeps|]. split; cbn; auto with kitty.
  - by apply (kitty_ok_part t).
  - unfold ForceDisableKittyKeyboardProtocol. destruct disable; split; cbn; auto with kitty. done.
  - unfold SetKittyKeyboardProtocol. destruct (_forceDisableKittyKeyboardProtocol t) eqn:Hdis; [done|].
    split; cbn; try done; [destruct mode; auto with kitty|by rewrite Hdis].
  - split; cbn; auto with kitty.
  - by apply push_kitty_ok.
  - by apply pop_kitty_ok.
Qed.

Lemma runCall_modes c t : call_ok c -> wheel_ok t -> modes_ok t -> modes_ok (runCall c t).
Proof.
  intros Hc Hw Hok. destruct c; cbn [runCall].
  - eapply modes_ok_part; [|done]. by apply HandleKey_keeps.
  - done.
  - eapply modes_ok_part; [|done]. by apply HandleMouse_keeps.
  - unfold UseMainScreenBuffer. case_match; [done|by apply (modes_ok_part t)].
  - unfold UseAlternateScreenBuffer. case_match; [done|by apply (modes_ok_part t)].
  - by apply SetInputMode_modes_ok.
  - unfold ResetInputModes. set (t' := ResetKittyKeyboardProtocols _). destruct (initKeyboardMap_keeps t') as (_ & Hm & _ & Hi).
    split; [..|rewrite Hi; unfold test_mode; by rewrite Hm]; intros p q Hp Hq; unfold test_mode; rewrite Hm.
    + repeat (apply elem_of_cons in Hp as [->|Hp]; [done|]). by apply elem_of_nil in Hp.
    + repeat (apply elem_of_cons in Hp as [->|Hp]; [done|]). by apply elem_of_nil in Hp.
  - by apply (modes_ok_part t).
  - unfold ForceDisableKittyKeyboardProtocol. case_match; by apply (modes_ok_part t).
  - unfold SetKittyKeyboardProtocol. case_match; [done|by apply (modes_ok_part t)].
  - by apply (modes_ok_part t).
  - unfold PushKittyFlags, set_kittyStack. repeat case_match; by apply (modes_ok_part t).
  - unfold PopKittyFlags, set_kittyStack. repeat case_match; by apply (modes_ok_part t).
Qed.

Lemma runCall_wheel c t : wheel_ok t -> wheel_ok (runCall c t).
Proof.
  intros Hw. destruct c; cbn [runCall].
  - unfold wheel_ok. by destruct (HandleKey_keeps event t) as (_ & _ & ->).
  - done.
  - by apply HandleMouse_keeps.
  - unfold UseMainScreenBuffer. by case_match.
  - unfold UseAlternateScreenBuffer. by case_match.
  - unfold wheel_ok. by destruct (SetInputMode_keeps mode enabled t) as [_ ->].
  - unfold ResetInputModes, wheel_ok. set (t' := ResetKittyKeyboardProtocols _). by destruct (initKeyboardMap_keeps t') as (_ & _ & -> & _).
  - done.
  - unfold ForceDisableKittyKeyboardProtocol. by case_match.
  - unfold SetKittyKeyboardProtocol. by case_match.
  - done.
  - unfold PushKittyFlags, set_kittyStack. by repeat case_match.
  - unfold PopKittyFlags, set_kittyStack. by repeat case_match.
Qed.

Lemma runCall_ok c t : call_ok c -> input_ok t -> input_ok (runCall c t).
Proof. intros Hc (Hk & Hm & Hw). split_and!; [by apply runCall_kitty|by apply runCall_modes|by apply runCall_wheel]. Qed.

Lemma ctor_ok : input_ok TerminalInput_ctor.
Proof.
  split_and!; [split; cbn; auto with kitty| |unfold wheel_ok; vm_compute; done]. split; [..|done].
  - intros p q Hp Hq. repeat (apply elem_of_cons in Hp as [->|Hp]; [done|]). by apply elem_of_nil in Hp.
  - intros p q Hp Hq. repeat (apply elem_of_cons in Hp as [->|Hp]; [done|]). by apply elem_of_nil in Hp.
Qed.

(** C34: whatever the adapter and the control call, in whatever order, of an encoder keeps its
    state well formed: the kitty flags are flags of the protocol, the two stacks hold at most
    eight of them, that of the alternate screen is empty while the main screen is shown, and
    there are none at all while the protocol is disabled; at most one mouse tracking mode and
    at most one mouse encoding are set; the introducers are those of the C1 mode; and the
    wheel has turned less than a notch since the last report. *)
Theorem terminal_input_invariant calls : Forall call_ok calls -> input_ok (runCallsOn calls TerminalInput_ctor).
Proof.
  intros Hcs. unfold runCallsOn. pose proof ctor_ok as Hok. revert Hok. generalize TerminalInput_ctor.
  induction Hcs as [|c calls Hc Hcs IH]; intros t Hok; [done|]. cbn [fold_left]. by apply IH, runCall_ok.
Qed.
End calls.

(** ** Pushing and popping *)
Definition pushAll (flags : list Z) t : TerminalInput := fold_left (fun t f => PushKittyFlags f t) flags t.

Lemma set_kittyStack_set flags stack flags' stack' t :
  set_kittyStack flags' stack' (set_kittyStack flags stack t) = set_kittyStack flags' stack' t.
Proof. unfold set_kittyStack. by destruct (_inAlternateBuffer t). Qed.
Lemma kittyStack_set flags stack t : kittyStack (set_kittyStack flags stack t) = stack.
Proof. unfold kittyStack, set_kittyStack. by destruct (_inAlternateBuffer t) eqn:E. Qed.
Lemma kittyFlags_set flags stack t : _kittyFlags (set_kittyStack flags stack t) = flags.
Proof. unfold set_kittyStack. by destruct (_inAlternateBuffer t). Qed.
Lemma disabled_set flags stack t :
  _forceDisableKittyKeyboardProtocol (set_kittyStack flags stack t) = _forceDisableKittyKeyboardProtocol t.
Proof. unfold set_kittyStack. by destruct (_inAlternateBuffer t). Qed.

Lemma push_stack flags t : _forceDisableKittyKeyboardProtocol t = false -> (length (kittyStack t) <= 8)%nat ->
  PushKittyFlags flags t = set_kittyStack (Z.land flags KittyKeyboardProtocolFlags.All)
    (drop (S (length (kittyStack t)) - 8) (kittyStack t ++ [_kittyFlags t])) t.
Proof.
  intros Hd Hl. unfold PushKittyFlags, KittyStackMaxSize. rewrite Hd. f_equal.
  destruct (Nat.leb_spec 8 (length (kittyStack t))) as [H8|H8].
  - replace (S (length (kittyStack t)) - 8)%nat with 1%nat by lia. destruct (kittyStack t); [cbn in *; lia|done].
  - by replace (S (length (kittyStack t)) - 8)%nat with 0%nat by lia.
Qed.

(** The stack after some pushes: the old one, the flags that were active and those pushed
    but the last, without the oldest beyond eight. *)
Lemma pushAll_stack flags t : _forceDisableKittyKeyboardProtocol t = false -> (length (kittyStack t) <= 8)%nat ->
  flags <> [] -> exists active rest, S (length rest) = length flags
    /\ pushAll flags t = set_kittyStack active
         (drop (length (kittyStack t) + length flags - 8) (kittyStack t ++ _kittyFlags t :: rest)) t.
Proof.
  revert t. induction flags as [|f flags IH]; intros t Hd Hl Hne; [done|]. cbn [pushAll fold_left]. rewrite push_stack by done.
  set (stack1 := drop _ _). set (a := Z.land f _).
  assert (Hl1 : length stack1 = (S (length (kittyStack t)) - (S (length (kittyStack t)) - 8))%nat)
    by (unfold stack1; rewrite length_drop, length_app; cbn [length]; lia).
  destruct flags as [|f2 flags].
  { exists a, []. split; [done|]. cbn [fold_left length]. unfold stack1. do 2 f_equal. lia. }
  destruct (IH (set_kittyStack a stack1 t)) as (active & rest & Hr & Heq);
    [by rewrite disabled_set|rewrite kittyStack_set; lia|done|].
  exists active, (a :: rest). split; [cbn [length] in *; lia|]. unfold pushAll in Heq. rewrite Heq, set_kittyStack_set, kittyStack_set, kittyFlags_set.
  f_equal. unfold stack1. rewrite <- (drop_app_le (kittyStack t ++ [_kittyFlags t])) by (rewrite length_app; cbn [length]; lia).
  rewrite drop_drop, <- app_assoc. cbn [app]. f_equal. fold stack1. cbn [length] in *. lia.
Qed.

(** Popping as many kitty flags as were pushed restores the flags that were active
    before, as long as the stack held some and fewer than eight were pushed; what the pushes
    dropped for want of room stays dropped, the oldest first, and the rest of the state is
    untouched. *)
Theorem kitty_push_pop flags t :
  _forceDisableKittyKeyboardProtocol t = false -> (0 < length (kittyStack t) <= 8)%nat -> (0 < length flags < 8)%nat ->
  PopKittyFlags (length flags) (pushAll flags t)
  = set_kittyStack (_kittyFlags t) (drop (length (kittyStack t) + length flags - 8) (kittyStack t)) t.
Proof.
  intros Hd Hl Hf. destruct (pushAll_stack flags t) as (active & rest & Hr & ->); [done|lia|by destruct flags; cbn in *; [lia|]|].
  unfold PopKittyFlags. destruct (Nat.eqb_spec (length flags) 0) as [|_]; [lia|]. rewrite kittyStack_set.
  set (n := (length (kittyStack t) + length flags - 8)%nat). set (stack := drop n _).
  assert (Hs : (length stack + n = length (kittyStack t) + length flags)%nat)
    by (unfold stack; rewrite length_drop, length_app; cbn [length]; lia).
  destruct (Nat.leb_spec (length stack) (length flags)); [lia|]. rewrite set_kittyStack_set. f_equal.
  - unfold stack. rewrite lookup_drop. replace (n + (length (drop n (kittyStack t ++ _kittyFlags t :: rest)) - length flags))%nat
      with (length (kittyStack t)) by (fold stack; lia). by rewrite list_lookup_middle.
  - unfold stack at 2. rewrite drop_app_le by lia. rewrite take_app_length'; [done|]. rewrite length_drop. lia.
Qed.

(** ** Instances *)

(** A keyboard without a layout. *)
Definition noKeyboard : Keyboard := {|
  ToUnicodeEx _ _ _ := (0, []);
  keyboardLayout := 0;
  usKeyboardLayout := 0;
  MapVirtualKeyExW _ _ := 0;
  LCMapLowercase _ := (0, [])
|}.

Definition someCalls : list InputCall :=
  [CallSetInputMode InputMode.AnyEventMouseTracking true; CallSetInputMode InputMode.ButtonEventMouseTracking true;
   CallSetInputMode InputMode.SendC1 true; CallSetKittyKeyboardProtocol 0xFF KittySet; CallPushKittyFlags 3;
   CallHandleMouse (1, 2) WM_MOUSEWHEEL 0 100 (mkMouseButtonState false false false)].

Lemma terminal_input_invariant_witness :
  let t := runCallsOn (keyboard := noKeyboard) false someCalls TerminalInput_ctor in
  (_kittyFlags t, _kittyMainStack t, _csi t, accumulatedDelta (_mouseInputState t)) = (3, [31], [0x9B], 100) /\ input_ok t.
Proof. split; [by vm_compute|]. apply (terminal_input_invariant (keyboard := noKeyboard) false someCalls). by_decide. Defined.

Lemma kitty_push_pop_witness :
  let t := PushKittyFlags 5 TerminalInput_ctor in
  PopKittyFlags 2 (pushAll [1; 2] t) = t.
Proof. intros t. exact (kitty_push_pop [1; 2] t eq_refl ltac:(vm_compute; lia) ltac:(cbn; lia)). Defined.

(** The flags that an application pushed on the main screen are lost by a visit to the
    alternate screen: the return takes the flags saved below them. *)
Example alternate_screen_loses_flags :
  let t := PushKittyFlags 5 TerminalInput_ctor in
  GetKittyFlags t = 5 /\ GetKittyFlags (UseMainScreenBuffer (UseAlternateScreenBuffer t)) = 0.
Proof. done. Qed.

(** The times of the Ctrl and Alt presses are never recorded, so that a Ctrl next to AltGr
    never counts as pressed for the time between them. *)
Lemma altgr_times_never_recorded {keyboard : Keyboard} keypad calls :
  let t := runCallsOn keypad calls TerminalInput_ctor in _lastLeftCtrlTime t = 0 /\ _lastRightAltTime t = 0.
Proof.
  unfold runCallsOn. assert (Hok : (_lastLeftCtrlTime TerminalInput_ctor, _lastRightAltTime TerminalInput_ctor) = (0, 0)) by done.
  revert Hok. generalize TerminalInput_ctor. induction calls as [|c calls IH]; intros t Hok; [by injection Hok|].
  cbn [fold_left]. apply IH. rewrite <- Hok. clear IH Hok. destruct c; cbn [runCall]; try done.
  - unfold HandleKey, _trackControlKeyState. repeat case_match; simplify_eq/=; done.
  - unfold HandleMouse, trackedMouse. repeat case_match; simplify_eq/=; done.
  - unfold UseMainScreenBuffer. by case_match.
  - unfold UseAlternateScreenBuffer. by case_match.
  - unfold SetInputMode, _initKeyboardMap. repeat case_match; done.
  - unfold ForceDisableKittyKeyboardProtocol. by case_match.
  - unfold SetKittyKeyboardProtocol. by case_match.
  - unfold PushKittyFlags, set_kittyStack. by repeat case_match.
  - unfold PopKittyFlags, set_kittyStack. by repeat case_match.
Qed.
