(* ===== verification/InputTheorems.v ===== *)
(** * What is sent is what is received

    The encoders of [TerminalInput.v] against the parser with the engine
    of [InputEngine.v]. *)
From S2P Require Import Prelude DispatchTypes VtUtils StateMachine StateMachineInv StateMachineTotal.
From S2P Require Import StateMachineStream StateMachineGrammar.
From S2P Require Import ITermDispatch.
From S2P Require Import InputEvents.
From S2P Require Import InputEngine.
From S2P Require Import TerminalInput.
From S2P Require Import InputInvariant.
Import IInteractDispatch.

(** ** Control sequences for the input engine *)
Section sequences.
Context {D : Type} {dispatch : InteractDispatch D}.
Context (vkKeyScan : wchar_t -> Z) (mapVirtualKey : Z -> Z -> Z).
Abbreviation engine_ := (input_engine vkKeyScan mapVirtualKey).
Abbreviation Machine := (StateMachine (InputStateMachineEngine D) Empty_set Empty_set).
Context (fuel : nat) (processString : wstring -> M Machine unit).
Implicit Types (s : Machine) (e : InputStateMachineEngine D).

(** A machine between two sequences. *)
Definition idle s : Prop :=
  _state s = Ground /\ GetParserMode Ansi s = true /\ _onCsiCompleteCallback s = None.

Definition numericParameters (ns : list Z) : VTParameters := mkVTParameters ns [] (repeat (0, 0) (length ns)).

(** A sequence with numbers as parameters. *)
Lemma twp_numeric marker ns final s e' :
  (0 < fuel)%nat -> idle s -> Forall (fun c => _isCsiPrivateMarker c = true) (option_list marker) -> 0x40 <= final <= 0x7E ->
  Forall is_parameter ns -> (length ns <= MAX_PARAMETER_COUNT)%nat ->
  input_ActionCsiDispatch mapVirtualKey (VTIDBuilder.Finalize final (VTIDBuilder.collect (option_list marker)))
    (numericParameters ns) (engineView s) (_engine s) = (e', [], Returned true) ->
  twp (feed (engine := engine_) fuel processString
         ([AsciiChars.ESC; 0x5B] ++ option_list marker ++ fieldText (map formatUnsigned ns) ++ [final]))
    (fun _ s' => _state s' = Ground /\ _engine s' = e') s.
Proof.
  intros Hf (Hg & Ha & Hc) Hm Hfin Hns Hlen Hact. destruct (fieldParams_format ns Hns Hlen) as [Hp Hd].
  pose proof (twp_csi (engine := engine_) fuel processString marker (map formatUnsigned ns) [] final s e') as Ht.
  cbn [app] in Ht. apply Ht; try done. rewrite app_nil_r, Hp. exact Hact.
Qed.
(** *** The branches of the dispatch *)
Lemma act_gets_bind {E CB A B} (f : E -> A) (k : A -> EngineAction E CB B) v (e : E) :
  act_bind (act_gets f) k v e = k (f e) v e.
Proof. unfold act_bind, act_gets. cbn. by destruct (k (f e) v e) as [[? ?] ?]. Qed.

Lemma act_modify_bind {E CB B} (f : E -> E) (k : unit -> EngineAction E CB B) v (e : E) :
  act_bind (act_modify f) k v e = k tt v (f e).
Proof. unfold act_bind, act_modify. cbn. by destruct (k tt v (f e)) as [[? ?] ?]. Qed.

Lemma dispatch_win32 parameters v e :
  input_ActionCsiDispatch mapVirtualKey CsiCodes.Win32KeyboardInput parameters v e
  = (onInteract (WriteCtrlKey (_GenerateWin32Key parameters)) then*
     act_modify (set_encounteredWin32 true) then* act_ret true) v e.
Proof. unfold input_ActionCsiDispatch, isVtInputEnabled. by rewrite act_gets_bind. Qed.

(** *** Key events in win32 mode *)
Lemma win32_text event t : _csi t = [AsciiChars.ESC; 0x5B] ->
  _makeWin32Output event t
  = [AsciiChars.ESC; 0x5B] ++ option_list None
    ++ fieldText (map formatUnsigned
         [u16 (wVirtualKeyCode event); u16 (wVirtualScanCode event); u16 (UnicodeChar event);
          if bKeyDown event then 1 else 0; u16 (dwControlKeyState event); u16 (wRepeatCount event)]) ++ [0x5F].
Proof.
  intros Hc. unfold _makeWin32Output. rewrite Hc. cbn [map fieldText option_list app].
  repeat (rewrite <- app_assoc; cbn [app]). done.
Qed.

Lemma saturated_uint16_id v : 0 <= v < 65536 -> saturated_uint16 v = v.
Proof. intros Hv. unfold saturated_uint16, saturated_cast. lia. Qed.

Lemma value_or_id v d : 0 <= v -> VTParameter.value_or v d = v.
Proof. intros Hv. unfold VTParameter.value_or. destruct (Z.ltb_spec v 0); [lia|done]. Qed.

Lemma GenerateWin32Key_parameters event : key_event_ok event -> dwControlKeyState event < 65536 ->
  _GenerateWin32Key (numericParameters
    [wVirtualKeyCode event; wVirtualScanCode event; UnicodeChar event; if bKeyDown event then 1 else 0;
     dwControlKeyState event; wRepeatCount event]) = KeyEvent event.
Proof.
  destruct event as [down rc vk sc uc cs]. intros (Hrc & Hvk & Hsc & Huc & Hcs) Hcs'. cbn in *. unfold is_wchar in Huc.
  unfold _GenerateWin32Key, numericParameters, VTParameters.at_.
  cbn -[saturated_uint16 saturated_uint32 VTParameter.value_or Z.eqb].
  rewrite !value_or_id by (destruct down; lia). rewrite !saturated_uint16_id by lia.
  replace (saturated_uint32 cs) with cs by (unfold saturated_uint32, saturated_cast; lia). by destruct down.
Qed.

(** C31: a key event that the encoder sends in win32 mode is the one the engine writes: the
    sequence for any key event, parsed, makes one [WriteCtrlKey] of that very event, whatever
    its virtual key, scan code, character, repeat count, direction and 16 bits of control
    key state. *)
Theorem win32_key_roundtrip {keyboard : Keyboard} keypad t event s d' :
  (0 < fuel)%nat -> idle s -> key_event_ok event -> dwControlKeyState event < 65536 ->
  test_mode InputMode.Win32 t = true -> _forceDisableWin32InputMode t = false -> _kittyFlags t = 0 ->
  _csi t = [AsciiChars.ESC; 0x5B] ->
  interact (WriteCtrlKey (KeyEvent event)) (_pDispatch (_engine s)) = (d', Returned tt) ->
  exists text, HandleKey keypad (KeyEvent event) t = (t, Some text)
    /\ twp (feed (engine := engine_) fuel processString text)
         (fun _ s' => _state s' = Ground /\ _engine s' = set_encounteredWin32 true (set_pDispatch d' (_engine s))) s.
Proof.
  intros Hf Hs Hok Hcs Hw Hfd Hk Hcsi Hd. exists (_makeWin32Output event t). split.
  { cbn [HandleKey]. by rewrite Hw, Hfd, Hk. }
  rewrite win32_text by done. pose proof Hok as (Hrc & Hvk & Hsc & Huc & Hcs32). unfold is_wchar in Huc.
  rewrite !(wrap_small 16) by (change (2 ^ 16) with 65536; lia).
  apply twp_numeric; [done|done|constructor|lia| |cbn; unfold MAX_PARAMETER_COUNT; lia|].
  { repeat constructor; unfold is_parameter; try destruct (bKeyDown event); lia. }
  change (VTIDBuilder.Finalize 0x5F _) with CsiCodes.Win32KeyboardInput. rewrite dispatch_win32, GenerateWin32Key_parameters by done.
  unfold act_bind, onInteract. by rewrite Hd.
Qed.
(** *** The keys of the classic encoding *)

(** A virtual key, its number and its final character; a number of 0 is left out. *)
Definition vtKeys : list (Z * Z * Z) :=
  [(VK_UP, 0, 0x41); (VK_DOWN, 0, 0x42); (VK_RIGHT, 0, 0x43); (VK_LEFT, 0, 0x44); (VK_HOME, 0, 0x48); (VK_END, 0, 0x46);
   (VK_F1, 0, 0x50); (VK_F2, 0, 0x51); (VK_F3, 0, 0x52); (VK_F4, 0, 0x53);
   (VK_INSERT, 2, 0x7E); (VK_DELETE, 3, 0x7E); (VK_PRIOR, 5, 0x7E); (VK_NEXT, 6, 0x7E);
   (VK_F5, 15, 0x7E); (VK_F6, 17, 0x7E); (VK_F7, 18, 0x7E); (VK_F8, 19, 0x7E); (VK_F9, 20, 0x7E); (VK_F10, 21, 0x7E);
   (VK_F11, 23, 0x7E); (VK_F12, 24, 0x7E); (VK_F13, 25, 0x7E); (VK_F13 + 1, 26, 0x7E); (VK_F13 + 2, 28, 0x7E); (VK_F13 + 3, 29, 0x7E);
   (VK_F13 + 4, 31, 0x7E); (VK_F13 + 5, 32, 0x7E); (VK_F13 + 6, 33, 0x7E); (VK_F20, 34, 0x7E)].
(** F13 to F20: the engine has no keys for their numbers. *)
Definition isLost (vk : Z) : bool := inRange vk VK_F13 VK_F20.

(** The modifiers as the sequence has them, as the engine reports them, and the parameters. *)
Definition modifierBits (shift alt ctrl : bool) : Z :=
  (if shift then 1 else 0) + (if alt then 2 else 0) + (if ctrl then 4 else 0).
Definition modifierFlags (shift alt ctrl : bool) : Z :=
  (if shift then SHIFT_PRESSED else 0) + (if alt then LEFT_ALT_PRESSED else 0) + (if ctrl then LEFT_CTRL_PRESSED else 0).
Definition isFunctionKey (vk : Z) : bool := inRange vk VK_F1 VK_F20.
Definition keyFlags (vk : Z) (shift alt ctrl : bool) : Z :=
  modifierFlags shift alt ctrl + (if isFunctionKey vk then 0 else ENHANCED_KEY).
Definition keyParameters (code : Z) (shift alt ctrl : bool) : list Z :=
  if modifierBits shift alt ctrl =? 0 then (if code =? 0 then [] else [code])
  else [Z.max code 1; modifierBits shift alt ctrl + 1].

Definition usesSs3 (vk code : Z) (shift alt ctrl : bool) t : bool :=
  (modifierBits shift alt ctrl =? 0) && (code =? 0) && (isFunctionKey vk || test_mode InputMode.CursorKey t).

Ltac each_key H :=
  repeat (apply elem_of_cons in H as [H|H]; [injection H as -> -> ->|]); [..|by apply elem_of_nil in H].

Lemma regular_key_text keypad enc key t vk code final :
  (vk, code, final) ∈ vtKeys -> virtualKey key = vk -> test_mode InputMode.Ansi t = true -> _kittyFlags t = 0 ->
  let shift := shiftPressed key in let alt := altPressed key in let ctrl := ctrlPressed key in
  enc = set_csiModifier (modifierBits shift alt ctrl) EncodingHelper_ctor ->
  _formatEncodingHelper (_encodeRegular keypad enc key t) key t
  = (true, if usesSs3 vk code shift alt ctrl t then _ss3 t ++ [final]
           else _csi t ++ fieldText (map formatUnsigned (keyParameters code shift alt ctrl)) ++ [final]).
Proof.
  intros Hin Hvk Hansi Hk shift alt ctrl ->. unfold _encodeRegular. rewrite Hk, Hvk.
  unfold usesSs3, keyParameters. unfold vtKeys in Hin. each_key Hin.
  all: lazy [Z.eqb Pos.eqb Z.leb Z.compare Pos.compare Pos.compare_cont andb inRange VK_BACK VK_TAB VK_RETURN VK_PAUSE VK_F1 VK_F2 VK_F3
    VK_F4 VK_F5 VK_F6 VK_F7 VK_F8 VK_F9 VK_F10 VK_F11 VK_F12 VK_F13 VK_F20 Z.add Pos.add Pos.succ Pos.add_carry VK_LEFT VK_RIGHT VK_UP VK_DOWN VK_CLEAR VK_HOME VK_END VK_INSERT
    VK_DELETE VK_PRIOR VK_NEXT isFunctionKey].
  all: unfold cursorKeyEncoding, editingKeyEncoding; rewrite ?Hansi.
  all: clearbody shift alt ctrl; clear Hk Hansi Hvk.
  all: destruct (test_mode InputMode.CursorKey t), shift, alt, ctrl; vm_compute; reflexivity.
Qed.
(** What the engine makes of the sequence. *)
Definition writesKey (vk flags : Z) : EngineAction (InputStateMachineEngine D) Empty_set bool :=
  _WriteSingleVkey mapVirtualKey vk flags then* act_ret true.

Lemma decode_key vk code final shift alt ctrl v e :
  (vk, code, final) ∈ vtKeys -> IsVtInputEnabled (_pDispatch e) = false ->
  (vk = VK_F3 -> _captureNextCursorPositionReport e = false /\ _encounteredWin32InputModeSequence e = false) ->
  input_ActionCsiDispatch mapVirtualKey (VTIDBuilder.Finalize final (VTIDBuilder.collect []))
    (numericParameters (keyParameters code shift alt ctrl)) v e
  = if isLost vk then (e, [], Returned true) else writesKey vk (keyFlags vk shift alt ctrl) v e.
Proof.
  intros Hin Hvt H3. unfold input_ActionCsiDispatch, isVtInputEnabled. rewrite act_gets_bind, Hvt.
  unfold vtKeys in Hin. each_key Hin.
  9: { destruct (H3 eq_refl) as [Hcap Henc]. change (switch _ _ _) with (let* capture := act_gets _captureNextCursorPositionReport in
         act_modify (set_captureNext false) then*
         if capture then
           onInteract (MoveCursor (VTParameter.to_VTInt (VTParameters.at_ (numericParameters (keyParameters 0 shift alt ctrl)) 0))
                                  (VTParameter.to_VTInt (VTParameters.at_ (numericParameters (keyParameters 0 shift alt ctrl)) 1))) then* act_ret true
         else
           let* encountered := act_gets _encounteredWin32InputModeSequence in
           if encountered then act_ret false
           else cursorKey mapVirtualKey CsiCodes.CSI_F3 (numericParameters (keyParameters 0 shift alt ctrl))).
    rewrite act_gets_bind, act_modify_bind, Hcap, act_gets_bind.
    change (_encounteredWin32InputModeSequence (set_captureNext false e)) with (_encounteredWin32InputModeSequence e).
    replace (set_captureNext false e) with e by (destruct e; cbn in Hcap; by subst).
    rewrite Henc. by destruct shift, alt, ctrl. }
  all: destruct shift, alt, ctrl; reflexivity.
Qed.

Lemma decode_ss3 vk code final v e : (vk, code, final) ∈ vtKeys -> code = 0 -> IsVtInputEnabled (_pDispatch e) = false ->
  input_ActionSs3Dispatch mapVirtualKey final (VTParameters.of_params []) v e = writesKey vk 0 v e.
Proof.
  intros Hin Hc Hvt. unfold input_ActionSs3Dispatch, isVtInputEnabled. rewrite act_gets_bind, Hvt.
  unfold vtKeys in Hin. each_key Hin. all: try discriminate Hc. all: reflexivity.
Qed.

Lemma ss3_known vk code final : (vk, code, final) ∈ vtKeys -> code = 0 -> isLost vk = false.
Proof. intros Hin Hc. unfold vtKeys in Hin. each_key Hin. all: try discriminate Hc. all: reflexivity. Qed.

(** *** Which modifiers count *)
Lemma land_nonzero x flags bit : Z.testbit x bit = true -> Z.testbit flags bit = true -> Z.land x flags <> 0.
Proof. intros Hx Hf H0. assert (Z.testbit (Z.land x flags) bit = true) as H1 by (by rewrite Z.land_spec, Hx, Hf). by rewrite H0, Z.bits_0 in H1. Qed.

Lemma all_flags_bit x flags bit : WI_AreAllFlagsSet x flags = true -> Z.testbit flags bit = true -> Z.testbit x bit = true.
Proof.
  unfold WI_AreAllFlagsSet. intros H%Z.eqb_eq Hb. rewrite <- H, Z.land_spec in Hb. by apply andb_true_iff in Hb as [? _].
Qed.

Lemma any_flag_of_all x flags flags' bit : WI_AreAllFlagsSet x flags = true -> Z.testbit flags bit = true ->
  Z.testbit flags' bit = true -> WI_IsAnyFlagSet x flags' = true.
Proof.
  intros Ha Hb Hb'. unfold WI_IsAnyFlagSet. apply negb_true_iff, Z.eqb_neq. eapply land_nonzero; [|exact Hb'].
  by eapply all_flags_bit.
Qed.

(** Without a character there is no AltGr: the modifiers are those of the control key state. *)
Lemma withModifiers_plain key t : codepoint key = 0 ->
  let key' := withModifiers key t in
  virtualKey key' = virtualKey key /\ shiftPressed key' = WI_IsFlagSet (controlKeyState key) SHIFT_PRESSED
  /\ altPressed key' = WI_IsAnyFlagSet (controlKeyState key) ALT_PRESSED
  /\ ctrlPressed key' = WI_IsAnyFlagSet (controlKeyState key) CTRL_PRESSED.
Proof.
  intros Hc. cbn. rewrite Hc. change ((0 >? 32) && negb (0 =? 127)) with false. rewrite !andb_false_r, !andb_true_r.
  set (x := controlKeyState key). split_and!; try done.
  - destruct (WI_AreAllFlagsSet x ALT_PRESSED) eqn:E; [|done]. by rewrite (any_flag_of_all x _ ALT_PRESSED 0 E).
  - destruct (WI_AreAllFlagsSet x CTRL_PRESSED) eqn:E; [by rewrite (any_flag_of_all x _ CTRL_PRESSED 2 E)|].
    destruct (WI_AreAllFlagsSet x (Z.lor LEFT_CTRL_PRESSED RIGHT_ALT_PRESSED)) eqn:E2; [|by rewrite orb_false_r].
    by rewrite (any_flag_of_all x _ CTRL_PRESSED 3 E2).
Qed.
Lemma encodeKey_text {keyboard : Keyboard} keypad key t vk code final :
  (vk, code, final) ∈ vtKeys -> virtualKey key = vk -> codepoint key = 0 ->
  test_mode InputMode.Ansi t = true -> _kittyFlags t = 0 ->
  let shift := WI_IsFlagSet (controlKeyState key) SHIFT_PRESSED in
  let alt := WI_IsAnyFlagSet (controlKeyState key) ALT_PRESSED in
  let ctrl := WI_IsAnyFlagSet (controlKeyState key) CTRL_PRESSED in
  encodeKey keypad key t
  = if usesSs3 vk code shift alt ctrl t then _ss3 t ++ [final]
    else _csi t ++ fieldText (map formatUnsigned (keyParameters code shift alt ctrl)) ++ [final].
Proof.
  intros Hin Hvk Hcp Hansi Hk shift alt ctrl. unfold encodeKey.
  destruct (withModifiers_plain key t Hcp) as (Hv & Hsh & Hal & Hct). rewrite Hk. cbn [Z.eqb].
  rewrite (regular_key_text keypad _ (withModifiers key t) t vk code final); [|done|by rewrite Hv|done|done|].
  - by rewrite Hsh, Hal, Hct.
  - rewrite Hsh, Hal, Hct. fold shift alt ctrl. by destruct shift, alt, ctrl.
Qed.

Lemma vtKey_plain vk code final state : (vk, code, final) ∈ vtKeys ->
  isModifierKey vk = false /\ (vk =? VK_PACKET) || (vk =? 0) = false /\ inRange vk VK_NUMPAD0 VK_NUMPAD9 = false
  /\ _controlKeyStateFromVirtualKey vk state = 0.
Proof. intros Hin. unfold vtKeys in Hin. each_key Hin. all: done. Qed.

Lemma vtKey_wire vk code final shift alt ctrl : (vk, code, final) ∈ vtKeys ->
  0x40 <= final <= 0x7E /\ Forall is_parameter (keyParameters code shift alt ctrl)
  /\ (length (keyParameters code shift alt ctrl) <= MAX_PARAMETER_COUNT)%nat.
Proof.
  intros Hin. unfold vtKeys in Hin. each_key Hin. all: destruct shift, alt, ctrl.
  all: split_and!; [lia|lia|by_decide|vm_compute; lia].
Qed.

(** The event without the tracking of keys. *)
Lemma HandleKey_plain {keyboard : Keyboard} keypad event t code final :
  (wVirtualKeyCode event, code, final) ∈ vtKeys -> bKeyDown event = true -> UnicodeChar event = 0 ->
  test_mode InputMode.Win32 t && negb (_forceDisableWin32InputMode t) = false ->
  test_mode InputMode.AutoRepeat t = true -> _kittyFlags t = 0 ->
  exists t' repeat, HandleKey keypad (KeyEvent event) t
    = (t', Some (encodeKey keypad (mkSanitizedKeyEvent (wVirtualKeyCode event) (wVirtualScanCode event) 0
                   (_trackControlKeyState event t).2 true repeat false false false false) t'))
    /\ _inputMode t' = _inputMode t /\ _kittyFlags t' = 0 /\ _csi t' = _csi t /\ _ss3 t' = _ss3 t.
Proof.
  intros Hin Hd Hu Hw Har Hk. cbn [HandleKey]. rewrite Hw, Hd, Hu. cbn [andb]. unfold _trackControlKeyState.
  set (state := WI_ClearFlagIf _ _ _). change (is_leading_surrogate 0) with false. change (is_trailing_surrogate 0) with false.
  rewrite andb_false_r. cbn [snd]. set (t1 := set_leadingSurrogate 0 _). set (vk := wVirtualKeyCode event) in *.
  destruct (vtKey_plain vk code final state Hin) as (Hm & Hpk & Hnum & Hst). rewrite Hpk, Hnum, Hst. cbn [Z.eqb negb andb].
  exists (set_lastVirtualKeyCode (Some vk) t1), (bool_decide (_lastVirtualKeyCode t1 = Some vk)).
  split; [|done]. unfold earlyOutput. cbn [virtualKey keyRepeat keyDown negb]. rewrite Hm.
  change (test_mode InputMode.AutoRepeat _) with (test_mode InputMode.AutoRepeat t). rewrite Har.
  by rewrite !andb_false_r.
Qed.
(** C32: a cursor key, an editing key or a function key up to F12 that the classic encoding sends is the one the
    engine writes: for every such key, pressed without a character, and every control key state, the sequence, parsed,
    makes one [WriteInput] of the key presses for the same virtual key with the same Shift,
    Alt and Ctrl, and the mark of an enhanced key unless it is a function key or a key of the
    application cursor mode. F13 to F20 are sent as well, with numbers the engine does not know: their sequences are parsed and nothing is written.
    Of the engine it is asked that it does not hand the input on as it is, and for F3 that it neither waits for a cursor position report, which
    ends as the sequence of F3 with modifiers does, nor has seen a sequence of the win32 mode. *)
Theorem vt_key_roundtrip {keyboard : Keyboard} keypad t event s d' code final :
  (0 < fuel)%nat -> idle s -> _isEngineForInput s = true ->
  IsVtInputEnabled (_pDispatch (_engine s)) = false ->
  (wVirtualKeyCode event = VK_F3 -> _captureNextCursorPositionReport (_engine s) = false /\ _encounteredWin32InputModeSequence (_engine s) = false) ->
  (wVirtualKeyCode event, code, final) ∈ vtKeys -> bKeyDown event = true -> UnicodeChar event = 0 ->
  test_mode InputMode.Win32 t && negb (_forceDisableWin32InputMode t) = false ->
  test_mode InputMode.Ansi t = true -> test_mode InputMode.AutoRepeat t = true -> _kittyFlags t = 0 ->
  _csi t = [AsciiChars.ESC; 0x5B] -> _ss3 t = [AsciiChars.ESC; 0x4F] ->
  let vk := wVirtualKeyCode event in
  let state := (_trackControlKeyState event t).2 in
  let shift := WI_IsFlagSet state SHIFT_PRESSED in
  let alt := WI_IsAnyFlagSet state ALT_PRESSED in
  let ctrl := WI_IsAnyFlagSet state CTRL_PRESSED in
  let flags := if usesSs3 vk code shift alt ctrl t then 0 else keyFlags vk shift alt ctrl in
  interact (WriteInput (_GenerateWrappedSequence mapVirtualKey (u16 (mapVirtualKey vk MAPVK_VK_TO_CHAR)) vk flags))
    (_pDispatch (_engine s)) = (d', Returned tt) ->
  exists t' text, HandleKey keypad (KeyEvent event) t = (t', Some text)
    /\ twp (feed (engine := engine_) fuel processString text)
         (fun _ s' => _state s' = Ground /\ _engine s' = if isLost vk then _engine s else set_pDispatch d' (_engine s)) s.
Proof.
  intros Hf Hs Hin Hvt H3 Hkey Hdown Hu Hw Hansi Har Hk Hcsi Hss3 vk state shift alt ctrl flags Hd.
  destruct (HandleKey_plain keypad event t code final Hkey Hdown Hu Hw Har Hk) as (t' & rep & -> & Hmode & Hk' & Hc' & Hs').
  eexists t', _. split; [done|].
  assert (Htest : forall mode, test_mode mode t' = test_mode mode t) by (intros; unfold test_mode; by rewrite Hmode).
  rewrite (encodeKey_text keypad _ t' vk code final) by (try rewrite Htest; done). cbn [controlKeyState].
  fold state shift alt ctrl. replace (usesSs3 vk code shift alt ctrl t') with (usesSs3 vk code shift alt ctrl t)
    by (unfold usesSs3; by rewrite Htest).
  assert (Hwrite : forall v e, _pDispatch e = _pDispatch (_engine s) -> writesKey vk flags v e = (set_pDispatch d' e, [], Returned true)).
  { intros v e He. unfold writesKey, _WriteSingleVkey, _WriteSingleKey, act_bind, onInteract. rewrite He, Hd. done. }
  destruct (vtKey_wire vk code final shift alt ctrl Hkey) as (Hfin & Hpar & Hlen).
  rewrite Hc', Hs', Hcsi, Hss3. unfold flags in *. destruct Hs as (Hg & Ha & Hcb).
  destruct (usesSs3 vk code shift alt ctrl t) eqn:Hu3.
  - unfold usesSs3 in Hu3. apply andb_true_iff in Hu3 as [[_ Hc0]%andb_true_iff _].
    rewrite (ss3_known vk code final Hkey) by lia. apply (twp_ss3 (engine := engine_)); try done.
    change (input_ActionSs3Dispatch mapVirtualKey final (VTParameters.of_params []) (engineView s) (_engine s)
            = (set_pDispatch d' (_engine s), [], Returned true)).
    rewrite (decode_ss3 vk code); [by apply Hwrite|done|lia|done].
  - apply (twp_numeric None); try done. rewrite (decode_key vk); [|done..]. destruct (isLost vk); [done|by apply Hwrite].
Qed.
(** *** Mouse events *)

(** The buttons of the SGR encoding, with the number of the button, its flag and what the
    wheel adds to the button state and the event flags. *)
Definition sgrButtons (delta : Z) : list (Z * (Z * Z * Z * Z)) :=
  [(WM_LBUTTONDOWN, (0, 1, 0, 0)); (WM_LBUTTONDBLCLK, (0, 1, 0, 0)); (WM_LBUTTONUP, (0, 1, 0, 0));
   (WM_RBUTTONDOWN, (2, 2, 0, 0)); (WM_RBUTTONDBLCLK, (2, 2, 0, 0)); (WM_RBUTTONUP, (2, 2, 0, 0));
   (WM_MBUTTONDOWN, (1, 4, 0, 0)); (WM_MBUTTONDBLCLK, (1, 4, 0, 0)); (WM_MBUTTONUP, (1, 4, 0, 0));
   (WM_MOUSEMOVE, (3, 0, 0, 0));
   (WM_MOUSEWHEEL, if delta >? 0 then (4, 0, SCROLL_DELTA_FORWARD, MOUSE_WHEELED) else (5, 0, SCROLL_DELTA_BACKWARD, MOUSE_WHEELED));
   (WM_MOUSEHWHEEL, if delta >? 0 then (7, 0, SCROLL_DELTA_FORWARD, MOUSE_HWHEELED) else (6, 0, SCROLL_DELTA_BACKWARD, MOUSE_HWHEELED))].

(** The modifiers an engine reports for those of a message. *)
Definition mouseFlags (modifierKeyState : Z) : Z :=
  modifierFlags (WI_IsAnyFlagSet modifierKeyState SHIFT_PRESSED) (WI_IsAnyFlagSet modifierKeyState ALT_PRESSED)
    (WI_IsAnyFlagSet modifierKeyState CTRL_PRESSED).

Ltac each_button H :=
  repeat (apply elem_of_cons in H as [H|H]; [injection H as -> -> -> -> ->|]); [..|by apply elem_of_nil in H].

Lemma sgr_decode button id flag wheel wheelFlags isHover modifierKeyState delta :
  (button, (id, flag, wheel, wheelFlags)) ∈ sgrButtons delta ->
  let x := _windowsButtonToSGREncoding button isHover modifierKeyState delta in
  0 <= x <= 65535 /\ Z.lor (Z.land x 0x3) (Z.shiftr (Z.land x 0xC0) 4) = id
  /\ mouseButton id = Some (flag, wheel, wheelFlags)
  /\ WI_IsFlagSet x CsiMouseModifierCodes.Drag = isHover
  /\ _GetSGRMouseModifierState x = mouseFlags modifierKeyState.
Proof.
  intros Hin. unfold _windowsButtonToSGREncoding, withMouseModifiers, mouseFlags.
  generalize (WI_IsAnyFlagSet modifierKeyState SHIFT_PRESSED), (WI_IsAnyFlagSet modifierKeyState ALT_PRESSED),
    (WI_IsAnyFlagSet modifierKeyState CTRL_PRESSED). intros shift alt ctrl.
  unfold sgrButtons in Hin. destruct (delta >? 0). all: each_button Hin.
  all: destruct isHover, shift, alt, ctrl; vm_compute; split_and!; done.
Qed.

(** The outcome of a mouse event: the new button state and the event flags. *)
Definition mouseState (press : bool) (flag wheel old : Z) : Z :=
  if press then Z.lor (Z.lor old wheel) flag else Z.ldiff (Z.lor old wheel) flag.
Definition mouseEventFlags (wheelFlags : Z) (double isHover : bool) : Z :=
  let flags := if double then Z.lor wheelFlags DOUBLE_CLICK else wheelFlags in
  if isHover then Z.lor flags MOUSE_MOVED else flags.

Lemma saturated_SHORT_id v : -32768 <= v <= 32767 -> saturated_SHORT v = v.
Proof. intros Hv. unfold saturated_SHORT, saturated_cast. lia. Qed.

Lemma act_bind_returned {E CB A B} (m : EngineAction E CB A) (k : A -> EngineAction E CB B) v (e e' : E) a :
  m v e = (e', [], Returned a) -> act_bind m k v e = k a v e'.
Proof. intros Hm. unfold act_bind. rewrite Hm. cbn. by destruct (k a v e') as [[? ?] ?]. Qed.

Definition mouseCode (press : bool) : Z := if press then CsiCodes.MouseDown else CsiCodes.MouseUp.

Lemma update_mouse press xb uiPos id flag wheel wheelFlags v e d1 time :
  Z.lor (Z.land xb 0x3) (Z.shiftr (Z.land xb 0xC0) 4) = id -> mouseButton id = Some (flag, wheel, wheelFlags) ->
  steady_clock_now (_pDispatch e) = (d1, time) ->
  let state := mouseState press flag wheel (_mouseButtonState e) in
  exists e', _UpdateSGRMouseButtonState (mouseCode press) xb uiPos v e
      = (e', [], Returned (Some (state, mouseEventFlags wheelFlags (press && isDoubleClick uiPos time id e)
                                          (WI_IsFlagSet xb CsiMouseModifierCodes.Drag))))
    /\ _pDispatch e' = d1 /\ _mouseButtonState e' = Z.land state 0xFFFF.
Proof.
  intros Hid Hbtn Hnow state. unfold _UpdateSGRMouseButtonState. rewrite act_gets_bind, Hid.
  erewrite act_bind_returned by (unfold now; by rewrite Hnow). rewrite Hbtn.
  change (isDoubleClick uiPos time id e) with (isDoubleClick uiPos time id (set_pDispatch d1 e)).
  destruct press; cbn [andb mouseCode].
  - change (CsiCodes.MouseDown =? CsiCodes.MouseDown) with true. cbv iota.
    destruct (isDoubleClick uiPos time id (set_pDispatch d1 e)) eqn:Hdc.
    + erewrite act_bind_returned by (rewrite act_gets_bind, Hdc; by rewrite act_modify_bind).
      cbv beta iota. rewrite act_modify_bind. eexists. split_and!; [reflexivity|done..].
    + destruct ((id =? CsiMouseButtonCodes.Left) || (id =? CsiMouseButtonCodes.Right) || (id =? CsiMouseButtonCodes.Middle)) eqn:Hb.
      * erewrite act_bind_returned by (rewrite act_gets_bind, Hdc, act_modify_bind; reflexivity).
        cbv beta iota. rewrite act_modify_bind. eexists. split_and!; [reflexivity|done..].
      * erewrite act_bind_returned by (rewrite act_gets_bind, Hdc; reflexivity).
        cbv beta iota. rewrite act_modify_bind. eexists. split_and!; [reflexivity|done..].
  - change (CsiCodes.MouseUp =? CsiCodes.MouseDown) with false. change (CsiCodes.MouseUp =? CsiCodes.MouseUp) with true. cbv iota.
    erewrite act_bind_returned by reflexivity. cbv beta iota. rewrite act_modify_bind. eexists. split_and!; [reflexivity|done..].
Qed.

Lemma decode_mouse (press : bool) x y xb id flag wheel wheelFlags isHover mods v e d1 time d' :
  Z.lor (Z.land xb 0x3) (Z.shiftr (Z.land xb 0xC0) 4) = id -> mouseButton id = Some (flag, wheel, wheelFlags) ->
  WI_IsFlagSet xb CsiMouseModifierCodes.Drag = isHover -> _GetSGRMouseModifierState xb = mods -> 0 <= xb ->
  0 <= x < 32767 -> 0 <= y < 32767 -> IsVtInputEnabled (_pDispatch e) = false -> steady_clock_now (_pDispatch e) = (d1, time) ->
  let double := press && isDoubleClick (x, y) time id e in
  let state := mouseState press flag wheel (_mouseButtonState e) in
  interact (WriteInput [MouseEvent (mkMouseEvent (x, y) state mods (mouseEventFlags wheelFlags double isHover))]) d1
    = (d', Returned tt) ->
  exists e', input_ActionCsiDispatch mapVirtualKey (mouseCode press)
      (numericParameters [xb; x + 1; y + 1]) v e = (e', [], Returned true)
    /\ _pDispatch e' = d' /\ _mouseButtonState e' = Z.land state 0xFFFF.
Proof.
  intros Hid Hbtn Hdrag Hmods Hxb Hx Hy Hvt Hnow double state Hd.
  assert (Hdisp : input_ActionCsiDispatch mapVirtualKey (mouseCode press) (numericParameters [xb; x + 1; y + 1]) v e
    = mouseSequence (mouseCode press) (numericParameters [xb; x + 1; y + 1]) v e).
  { unfold input_ActionCsiDispatch, isVtInputEnabled. rewrite act_gets_bind, Hvt. by destruct press. }
  rewrite Hdisp. unfold mouseSequence. change (VTParameters.at_ (numericParameters [xb; x + 1; y + 1]) 0) with xb.
  change (VTParameters.at_ (numericParameters [xb; x + 1; y + 1]) 1) with (x + 1).
  change (VTParameters.at_ (numericParameters [xb; x + 1; y + 1]) 2) with (y + 1).
  rewrite value_or_id by done. unfold VTParameter.to_VTInt.
  destruct (Z.leb_spec (x + 1) 0), (Z.leb_spec (y + 1) 0); try lia. rewrite !Z.add_simpl_r, Hmods.
  destruct (update_mouse press xb (x, y) id flag wheel wheelFlags v e d1 time Hid Hbtn Hnow) as (e' & Hupd & He' & Hst).
  erewrite act_bind_returned by exact Hupd. cbv beta iota. rewrite Hdrag. exists (set_pDispatch d' e'). split_and!; [|done..].
  unfold _WriteMouseEvent, SynthesizeMouseEvent. cbn [fst snd]. rewrite !saturated_SHORT_id by lia.
  fold double state. rewrite (act_bind_returned _ _ v e' (set_pDispatch d' e') tt); [done|].
  unfold onInteract. by rewrite He', Hd.
Qed.

(** *** Which messages are reported *)
Definition anyButtonDown (state : MouseButtonState) : bool :=
  isLeftButtonDown state || isMiddleButtonDown state || isRightButtonDown state.

(** What the wheel has turned since the last report, in one direction. *)
Definition turnedWheel (delta : Z) t : Z :=
  delta + (if Z.sgn delta =? Z.sgn (accumulatedDelta (_mouseInputState t)) then accumulatedDelta (_mouseInputState t) else 0).

Definition sameMouse (position : Z * Z) (button : Z) t : bool :=
  (position.1 =? (lastPos (_mouseInputState t)).1) && (position.2 =? (lastPos (_mouseInputState t)).2)
  && (lastButton (_mouseInputState t) =? button).

(** The button of the report: of a movement, the one that is held down. *)
Definition reportedButton (button : Z) (state : MouseButtonState) : Z :=
  if _isHoverMsg button && anyButtonDown state then s_GetPressedButton state else button.

Lemma realButton_reported button state :
  let realButton := if _isHoverMsg button then s_GetPressedButton state else button in
  (if negb (realButton =? WM_LBUTTONUP) then realButton else button) = reportedButton button state.
Proof.
  unfold reportedButton, anyButtonDown, s_GetPressedButton. destruct state as [l m r]. cbn.
  destruct (_isHoverMsg button); [by destruct l, m, r|]. cbn [andb]. by destruct (Z.eqb_spec button WM_LBUTTONUP) as [->|].
Qed.

Definition movesMouse (position : Z * Z) (button : Z) (state : MouseButtonState) t : bool :=
  negb (sameMouse position button t)
  && (test_mode InputMode.AnyEventMouseTracking t || (test_mode InputMode.ButtonEventMouseTracking t && anyButtonDown state)).

Lemma trackedMouse_sgr position button mods delta state t :
  _isButtonMsg button || (_isHoverMsg button && movesMouse position button state t) = true ->
  test_mode InputMode.SgrMouseEncoding t = true -> test_mode InputMode.Utf8MouseEncoding t = false ->
  exists t', trackedMouse position button mods delta state t
    = Some (t', _GenerateSGRSequence position (reportedButton button state) (_isButtonUp button) (_isHoverMsg button) mods delta t')
    /\ _csi t' = _csi t.
Proof.
  intros Hrep Hsgr Hutf. unfold trackedMouse. rewrite realButton_reported. fold (sameMouse position button t).
  match goal with |- context [if ?c then Some _ else None] => replace c with true end.
  2: { symmetry. destruct (_isButtonMsg button); [done|]. cbn [orb] in *. destruct (_isHoverMsg button); [|done]. cbn [andb] in *.
    unfold movesMouse in Hrep. destruct (sameMouse position button t); [done|]. cbn [andb negb] in *.
    destruct (test_mode InputMode.AnyEventMouseTracking t); [by rewrite orb_true_r|]. cbn [orb] in Hrep.
    apply andb_true_iff in Hrep as [-> Hany]. destruct state as [l m r]. by destruct l, m, r. }
  set (t' := if enumset_any _ _ then _ else t). exists t'.
  assert (test_mode InputMode.SgrMouseEncoding t' = true) as -> by (unfold t'; by case_match).
  assert (test_mode InputMode.Utf8MouseEncoding t' = false) as -> by (unfold t'; by case_match).
  split; [done|]. unfold t'. by case_match.
Qed.

(** A turn of the wheel once it makes a notch. *)
Definition reportsMouse (position : Z * Z) (button delta : Z) (state : MouseButtonState) t : bool :=
  if _isWheelMsg button then WHEEL_DELTA <=? Z.abs (turnedWheel delta t)
  else _isButtonMsg button || (_isHoverMsg button && movesMouse position button state t).

Lemma HandleMouse_sgr keypad position button mods delta state t :
  reportsMouse position button delta state t = true -> IsTrackingMouseInput t = true ->
  test_mode InputMode.SgrMouseEncoding t = true -> test_mode InputMode.Utf8MouseEncoding t = false ->
  exists t', HandleMouse keypad position button mods delta state t
    = (t', _GenerateSGRSequence position (reportedButton button state) (_isButtonUp button) (_isHoverMsg button) mods delta t')
    /\ _csi t' = _csi t.
Proof.
  intros Hrep Htr Hsgr Hutf. unfold HandleMouse, reportsMouse in *.
  set (t1 := if negb _ then set_accumulatedDelta 0 t else t).
  destruct (_isWheelMsg button) eqn:Hw.
  - assert (Hacc : accumulatedDelta (_mouseInputState (set_accumulatedDelta (accumulatedDelta (_mouseInputState t1) + delta) t1))
      = turnedWheel delta t).
    { unfold turnedWheel, t1. destruct (Z.sgn delta =? _); cbn; lia. }
    rewrite Hacc. replace (Z.abs (turnedWheel delta t) <? WHEEL_DELTA) with false by lia. cbn [andb].
    set (t2 := set_accumulatedDelta 0 _).
    assert (_inputMode t2 = _inputMode t /\ _csi t2 = _csi t) as [Hm Hc] by (unfold t2, t1; by case_match).
    destruct (trackedMouse_sgr position button mods delta state t2) as (t' & -> & Hc');
      [|unfold test_mode in *; by rewrite Hm..|].
    + apply orb_true_iff. left. unfold _isWheelMsg in Hw. by apply orb_true_iff in Hw as [Hw|Hw]; apply Z.eqb_eq in Hw as ->.
    + unfold IsTrackingMouseInput in *. rewrite Hm, Htr. exists t'. split; [done|]. by rewrite Hc', Hc.
  - cbn [andb].
    assert (_inputMode t1 = _inputMode t /\ _csi t1 = _csi t) as [Hm Hc] by (unfold t1; by case_match).
    destruct (trackedMouse_sgr position button mods delta state t1) as (t' & -> & Hc');
      [|unfold test_mode in *; by rewrite Hm..|].
    + assert (movesMouse position button state t1 = movesMouse position button state t) as ->; [|done].
      unfold movesMouse, sameMouse, test_mode. rewrite Hm. unfold t1. by case_match.
    + unfold IsTrackingMouseInput in *. rewrite Hm, Htr. exists t'. split; [done|]. by rewrite Hc', Hc.
Qed.

(** C33: a mouse message that the encoder reports in the SGR encoding is the one the engine
    writes: every button message, every notch of the wheel and every movement that is
    reported makes, parsed, one [WriteInput] of one mouse event, at the position of the
    message, with its Shift, Alt and Ctrl, the button pressed or released in the button state
    (or the turn of the wheel), and the flags for a movement, a wheel and a double click; the
    16 bits of the buttons are what the engine keeps. *)
Theorem mouse_sgr_roundtrip keypad x y button mods delta state t s id flag wheel wheelFlags d1 time d' :
  (0 < fuel)%nat -> idle s -> IsVtInputEnabled (_pDispatch (_engine s)) = false ->
  reportsMouse (x, y) button delta state t = true -> IsTrackingMouseInput t = true ->
  test_mode InputMode.SgrMouseEncoding t = true -> test_mode InputMode.Utf8MouseEncoding t = false ->
  _csi t = [AsciiChars.ESC; 0x5B] -> 0 <= x < 32767 -> 0 <= y < 32767 ->
  (reportedButton button state, (id, flag, wheel, wheelFlags)) ∈ sgrButtons delta ->
  steady_clock_now (_pDispatch (_engine s)) = (d1, time) ->
  let press := negb (_isButtonUp button) in
  let double := press && isDoubleClick (x, y) time id (_engine s) in
  let buttonState := mouseState press flag wheel (_mouseButtonState (_engine s)) in
  interact (WriteInput [MouseEvent (mkMouseEvent (x, y) buttonState (mouseFlags mods)
                          (mouseEventFlags wheelFlags double (_isHoverMsg button)))]) d1 = (d', Returned tt) ->
  exists t' text, HandleMouse keypad (x, y) button mods delta state t = (t', Some text)
    /\ twp (feed (engine := engine_) fuel processString text)
         (fun _ s' => _state s' = Ground /\ _pDispatch (_engine s') = d'
                      /\ _mouseButtonState (_engine s') = Z.land buttonState 0xFFFF) s.
Proof.
  intros Hf Hs Hvt Hrep Htr Hsgr Hutf Hcsi Hx Hy Hin Hnow press double buttonState Hd.
  destruct (HandleMouse_sgr keypad (x, y) button mods delta state t Hrep Htr Hsgr Hutf) as (t' & -> & Hc). rewrite Hcsi in Hc.
  eexists t', _. split; [done|]. cbn [fst snd]. rewrite Hc.
  destruct (sgr_decode _ id flag wheel wheelFlags (_isHoverMsg button) mods delta Hin) as (Hxb & Hid & Hbtn & Hdrag & Hm).
  set (xb := _windowsButtonToSGREncoding _ _ _ _) in *.
  destruct (decode_mouse press x y xb id flag wheel wheelFlags (_isHoverMsg button) (mouseFlags mods) (engineView s) (_engine s) d1 time d')
    as (e' & Hact & He' & Hst); try done; [lia|].
  rewrite !formatInt_nonneg by lia.
  pose proof (twp_numeric (Some 0x3C) [xb; x + 1; y + 1] (if press then 0x4D else 0x6D) s e' Hf Hs) as Ht.
  assert (Htext : [AsciiChars.ESC; 0x5B] ++ 0x3C :: formatUnsigned xb ++ 0x3B :: formatUnsigned (x + 1) ++ 0x3B ::
      formatUnsigned (y + 1) ++ [if _isButtonUp button then 0x6D else 0x4D]
    = [AsciiChars.ESC; 0x5B] ++ option_list (Some 0x3C) ++ fieldText (map formatUnsigned [xb; x + 1; y + 1])
      ++ [if press then 0x4D else 0x6D]).
  { cbn [map fieldText option_list app]. repeat (rewrite <- app_assoc; cbn [app]). unfold press. by destruct (_isButtonUp button). }
  rewrite Htext. eapply twp_mono; [apply Ht|].
  - by repeat constructor.
  - by destruct press.
  - repeat constructor; unfold is_parameter; lia.
  - cbn. unfold MAX_PARAMETER_COUNT. lia.
  - unfold mouseCode in Hact. by destruct press.
  - intros [] s' [Hg <-]. done.
Qed.
End sequences.

(** ** Termination *)
Lemma input_engine_bounded {D} {dispatch : InteractDispatch D} vkKeyScan mapVirtualKey :
  BoundedEngine (engine := input_engine vkKeyScan mapVirtualKey) (fun _ : InputStateMachineEngine D => 0%nat).
Proof.
  split; try done. intros string v e. cbn. unfold input_ActionPassThroughString, act_bind, onInteract.
  destruct string; [done|]. by destruct (interact _ _) as [d []].
Qed.

(** The input engine processes every string to its end, whatever the dispatcher and the
    keyboard layout do: two levels of [_SafeExecute] and one of [ProcessString] are enough. *)
Theorem input_terminates {D} {dispatch : InteractDispatch D} vkKeyScan mapVirtualKey fuel depth string
    (s : StateMachine (InputStateMachineEngine D) Empty_set Empty_set) :
  (2 <= fuel)%nat -> (0 < depth)%nat ->
  (ProcessString (engine := input_engine vkKeyScan mapVirtualKey) fuel depth string s).2 <> OutOfFuel.
Proof.
  intros Hfuel Hdepth. destruct fuel as [|[|fuel]]; [lia..|]. pose proof (input_engine_bounded vkKeyScan mapVirtualKey) as Hb.
  pose proof (tot_ProcessString (engine := input_engine vkKeyScan mapVirtualKey) (fun _ => 0%nat) fuel depth _ string Hdepth s eq_refl) as Htot.
  by destruct (ProcessString _ depth string s) as [s' []].
Qed.

(** ** Instances *)

(** A dispatcher that lists the calls, at time 0. *)
#[export] Instance logging_interact : InteractDispatch (list IInteractDispatch.Call) := {
  IsVtInputEnabled _ := false;
  interact c d := (d ++ [c], Returned tt);
  steady_clock_now d := (d, 0)
}.
Definition inputMachine : StateMachine (InputStateMachineEngine (list IInteractDispatch.Call)) Empty_set Empty_set :=
  StateMachine_ctor (InputStateMachineEngine_ctor [] 500) true 0 0 false.

(** A layout that has no keys. *)
Definition noKeys (_ : wchar_t) : Z := -1.
Definition noMap (_ _ : Z) : Z := 0.

Abbreviation feedInput := (feed (engine := input_engine noKeys noMap) 2 (ProcessString (engine := input_engine noKeys noMap) 2 1)).

Lemma inputMachine_idle : idle inputMachine.
Proof. done. Qed.

Definition someKey : KEY_EVENT_RECORD := mkKeyEvent true 3 0x41 30 0x61 (Z.lor SHIFT_PRESSED ENHANCED_KEY).

Lemma win32_key_roundtrip_witness :
  let t := SetInputMode InputMode.Win32 true TerminalInput_ctor in
  exists text, HandleKey (keyboard := noKeyboard) false (KeyEvent someKey) t = (t, Some text)
    /\ twp (feedInput text)
         (fun _ s' => _state s' = Ground
            /\ _engine s' = set_encounteredWin32 true (set_pDispatch [WriteCtrlKey (KeyEvent someKey)] (_engine inputMachine)))
         inputMachine.
Proof.
  intros t. apply (win32_key_roundtrip noKeys noMap 2); [lia|apply inputMachine_idle|repeat split; vm_compute; done|vm_compute; done|reflexivity..].
Defined.

Definition shiftUp : KEY_EVENT_RECORD := mkKeyEvent true 1 VK_UP 72 0 (Z.lor SHIFT_PRESSED ENHANCED_KEY).

Lemma vt_key_roundtrip_witness :
  let t := TerminalInput_ctor in
  exists t' text, HandleKey (keyboard := noKeyboard) false (KeyEvent shiftUp) t = (t', Some text)
    /\ twp (feedInput text)
         (fun _ s' => _state s' = Ground
            /\ _engine s' = set_pDispatch [WriteInput (_GenerateWrappedSequence noMap 0 VK_UP (Z.lor SHIFT_PRESSED ENHANCED_KEY))] (_engine inputMachine))
         inputMachine.
Proof.
  intros t. apply (vt_key_roundtrip noKeys noMap 2 _ (keyboard := noKeyboard) false t shiftUp inputMachine _ 0 0x41);
    first [reflexivity|apply inputMachine_idle|by_decide|lia].
Defined.

Lemma mouse_sgr_roundtrip_witness :
  let t := SetInputMode InputMode.SgrMouseEncoding true (SetInputMode InputMode.DefaultMouseTracking true TerminalInput_ctor) in
  let state := mkMouseButtonState false false false in
  exists t' text, HandleMouse false (9, 4) WM_RBUTTONDOWN LEFT_CTRL_PRESSED 0 state t = (t', Some text)
    /\ twp (feedInput text)
         (fun _ s' => _state s' = Ground
            /\ _pDispatch (_engine s') = [WriteInput [MouseEvent (mkMouseEvent (9, 4) RIGHTMOST_BUTTON_PRESSED LEFT_CTRL_PRESSED 0)]]
            /\ _mouseButtonState (_engine s') = RIGHTMOST_BUTTON_PRESSED)
         inputMachine.
Proof.
  intros t state. apply (mouse_sgr_roundtrip noKeys noMap 2 _ false 9 4 WM_RBUTTONDOWN LEFT_CTRL_PRESSED 0 state t inputMachine 2 2 0 0 [] 0);
    first [reflexivity|apply inputMachine_idle|by_decide|lia].
Defined.

Lemma input_terminates_witness :
  (ProcessString (engine := input_engine noKeys noMap) 2 1 [0x1B; 0x5B; 0x41] inputMachine).2 <> OutOfFuel.
Proof. apply (input_terminates noKeys noMap); lia. Defined.

(** A character that the layout has no key for, for which [VkKeyScanW] returns -1, is not
    refused but typed as the key 255 with Shift, Ctrl and Alt. *)
Example character_without_key : noKeys 0x4E00 = -1
  /\ _GenerateKeyFromChar noKeys 0x4E00 = Some (0xFF, Z.lor (Z.lor SHIFT_PRESSED LEFT_CTRL_PRESSED) LEFT_ALT_PRESSED).
Proof. done. Qed.

(** F13 to F20 are sent with numbers for which the engine has no key. *)
Example f13_is_sent_and_lost :
  snd (HandleKey (keyboard := noKeyboard) false (KeyEvent (mkKeyEvent true 1 VK_F13 0 0 0)) TerminalInput_ctor) = Some ([AsciiChars.ESC] ++ L "[25~")
  /\ map (fun vk => _GetGenericVkey (default 0 (functionKeyCodes !! Z.to_nat (vk - VK_F5)))) (seqZ VK_F13 8) = replicate 8 None.
Proof. vm_compute. done. Qed.
