(* ===== verification/TextColors.v ===== *)
(** * Text colours

    Models [src/buffer/out/TextColor.h] and [TextColor.cpp]: a colour of a cell, which is a
    default, an index into the colour table or an RGB value, its look-up in the colour table
    with the three builds of the search for a bright default, and the 16-colour index that
    approximates it. *)
From S2P Require Import Prelude VtUtils.
From S2P Require Import InputEvents.

Inductive ColorType := IsDefault | IsIndex16 | IsIndex256 | IsRgb.
#[export] Instance ColorType_eq_dec : EqDecision ColorType.
Proof. solve_decision. Defined.

(** ** Constants *)
Definition DARK_BLACK : Z := 0.
Definition DARK_RED : Z := 1.
Definition DARK_GREEN : Z := 2.
Definition DARK_YELLOW : Z := 3.
Definition DARK_BLUE : Z := 4.
Definition DARK_MAGENTA : Z := 5.
Definition DARK_CYAN : Z := 6.
Definition DARK_WHITE : Z := 7.
Definition BRIGHT_BLACK : Z := 8.
Definition BRIGHT_RED : Z := 9.
Definition BRIGHT_GREEN : Z := 10.
Definition BRIGHT_YELLOW : Z := 11.
Definition BRIGHT_BLUE : Z := 12.
Definition BRIGHT_MAGENTA : Z := 13.
Definition BRIGHT_CYAN : Z := 14.
Definition BRIGHT_WHITE : Z := 15.
Definition TABLE_SIZE : nat := 267.

(** A table mapping 8-bit RGB colours, in the form RRRGGGBB, to the legacy palette. *)
Definition CompressedRgbToIndex16 : list Z :=
  [0; 1; 1; 9; 0; 0; 1; 1; 2; 1; 1; 1; 2; 8; 1; 9;
   2; 2; 3; 3; 2; 2; 11; 3; 10; 10; 11; 11; 10; 10; 10; 11;
   0; 5; 1; 1; 0; 0; 1; 1; 8; 1; 1; 1; 2; 8; 1; 9;
   2; 2; 3; 3; 2; 2; 11; 3; 10; 10; 10; 11; 10; 10; 10; 11;
   5; 5; 5; 1; 4; 5; 1; 1; 8; 8; 1; 9; 2; 8; 9; 9;
   2; 2; 3; 3; 2; 2; 11; 3; 10; 10; 11; 11; 10; 10; 10; 11;
   4; 5; 5; 1; 4; 5; 5; 1; 8; 5; 5; 1; 8; 8; 9; 9;
   2; 2; 8; 9; 10; 2; 11; 3; 10; 10; 11; 11; 10; 10; 10; 11;
   4; 13; 5; 5; 4; 13; 5; 5; 4; 13; 13; 13; 6; 8; 13; 9;
   6; 8; 8; 9; 10; 10; 11; 3; 10; 10; 11; 11; 10; 10; 10; 11;
   4; 13; 13; 13; 4; 13; 13; 13; 4; 12; 13; 13; 6; 12; 13; 13;
   6; 6; 8; 9; 6; 6; 7; 7; 10; 14; 14; 7; 10; 10; 14; 11;
   4; 12; 13; 13; 4; 12; 13; 13; 4; 12; 13; 13; 6; 12; 12; 13;
   6; 6; 12; 7; 6; 6; 7; 7; 6; 14; 14; 7; 14; 14; 14; 15;
   12; 12; 13; 13; 12; 12; 13; 13; 12; 12; 12; 13; 12; 12; 12; 13;
   6; 12; 12; 7; 6; 6; 7; 7; 6; 14; 14; 7; 14; 14; 14; 15].

(** A table mapping the 256-colour palette to the legacy palette. *)
Definition Index256ToIndex16 : list Z :=
  [0; 4; 2; 6; 1; 5; 3; 7; 8; 12; 10; 14; 9; 13; 11; 15;
   0; 1; 1; 1; 9; 9; 2; 1; 1; 1; 1; 1; 2; 2; 3; 3;
   3; 3; 2; 2; 11; 11; 3; 3; 10; 10; 11; 11; 11; 11; 10; 10;
   10; 10; 11; 11; 5; 5; 5; 5; 1; 1; 8; 8; 1; 1; 9; 9;
   2; 2; 3; 3; 3; 3; 2; 2; 11; 11; 3; 3; 10; 10; 11; 11;
   11; 11; 10; 10; 10; 10; 11; 11; 4; 13; 5; 5; 5; 5; 4; 13;
   13; 13; 13; 13; 6; 8; 8; 8; 9; 9; 10; 10; 11; 11; 3; 3;
   10; 10; 11; 11; 11; 11; 10; 10; 10; 10; 11; 11; 4; 13; 13; 13;
   13; 13; 4; 12; 13; 13; 13; 13; 6; 6; 8; 8; 9; 9; 6; 6;
   7; 7; 7; 7; 10; 14; 14; 14; 7; 7; 10; 10; 14; 14; 11; 11;
   4; 12; 13; 13; 13; 13; 4; 12; 13; 13; 13; 13; 6; 6; 12; 12;
   7; 7; 6; 6; 7; 7; 7; 7; 6; 14; 14; 14; 7; 7; 14; 14;
   14; 14; 15; 15; 12; 12; 13; 13; 13; 13; 12; 12; 12; 12; 13; 13;
   6; 12; 12; 12; 7; 7; 6; 6; 7; 7; 7; 7; 6; 14; 14; 14;
   7; 7; 14; 14; 14; 14; 15; 15; 0; 0; 0; 0; 0; 0; 8; 8;
   8; 8; 8; 8; 8; 8; 8; 8; 7; 7; 7; 7; 7; 7; 15; 15].

(** ** [COLORREF] *)
Definition RGB (r g b : Z) : Z := Z.lor (Z.lor (u8 r) (Z.shiftl (u8 g) 8)) (Z.shiftl (u8 b) 16).
Definition GetRValue (rgb : Z) : Z := u8 rgb.
Definition GetGValue (rgb : Z) : Z := u8 (Z.shiftr (u16 rgb) 8).
Definition GetBValue (rgb : Z) : Z := u8 (Z.shiftr rgb 16).

(** ** The object: [_red] and [_index] are one byte *)
Record TextColor := mkTextColor { _red : Z; _green : Z; _blue : Z; _meta : ColorType }.
#[export] Instance TextColor_eq_dec : EqDecision TextColor.
Proof. solve_decision. Defined.
Implicit Types (c : TextColor).
Definition _index c : Z := _red c.

Definition TextColor_default : TextColor := mkTextColor 0 0 0 IsDefault.
Definition TextColor_indexed (index : Z) (isIndex256 : bool) : TextColor :=
  mkTextColor index 0 0 (if isIndex256 then IsIndex256 else IsIndex16).
Definition TextColor_rgb (rgb : Z) : TextColor := mkTextColor (GetRValue rgb) (GetGValue rgb) (GetBValue rgb) IsRgb.

Module TextColor.
Definition GetType c : ColorType := _meta c.
Definition IsIndex16_ c : bool := bool_decide (_meta c = IsIndex16).
Definition IsIndex256_ c : bool := bool_decide (_meta c = IsIndex256).
Definition IsDefault_ c : bool := bool_decide (_meta c = IsDefault).
Definition IsRgb_ c : bool := bool_decide (_meta c = IsRgb).
Definition CanBeBrightened c : bool := IsIndex16_ c || IsDefault_ c.
Definition IsLegacy c : bool := (IsIndex16_ c || IsIndex256_ c) && (_index c <? 16).
Definition IsDefaultOrLegacy c : bool := negb (IsRgb_ c) && (_index c <? 16).

Definition SetColor (rgbColor : Z) c : TextColor := mkTextColor (GetRValue rgbColor) (GetGValue rgbColor) (GetBValue rgbColor) IsRgb.
Definition SetIndex (index : Z) (isIndex256 : bool) c : TextColor :=
  mkTextColor index 0 0 (if isIndex256 then IsIndex256 else IsIndex16).
Definition SetDefault c : TextColor := mkTextColor 0 0 0 IsDefault.

Definition GetIndex c : Z := _index c.
Definition GetR c : Z := _red c.
Definition GetG c : Z := _green c.
Definition GetB c : Z := _blue c.
Definition GetRGB c : Z := RGB (_red c) (_green c) (_blue c).

Definition TransposeLegacyIndex (index : Z) : Z :=
  let oneBitSet := Z.land (Z.lxor index (Z.shiftr index 2)) 1 in
  u8 (Z.lxor (Z.lxor index oneBitSet) (Z.shiftl oneBitSet 2)).

(** *** The bright version of a default colour: [til::at] is [!!], out of bounds [None] *)

(** The three variants that the preprocessor selects from. *)
Inductive Build := AVX2 | AMD64 | Portable.

Fixpoint brightLoop (n : nat) (colorTable : list Z) (defaultColor : Z) (i : nat) : option Z :=
  match n with
  | O => Some defaultColor
  | S n =>
      color ← colorTable !! i;
      if color =? defaultColor then colorTable !! (i + 8)%nat else brightLoop n colorTable defaultColor (S i)
  end.

(** One lane of [_mm256_cmpeq_epi32] and [_mm_cmpeq_epi32], and of [_mm_packs_epi32]. *)
Definition cmpeq_epi32 (a b : Z) : Z := if a =? b then 0xFFFFFFFF else 0.
Definition signed32 (v : Z) : Z := if v <? 2 ^ 31 then v else v - 2 ^ 32.
Definition packs_epi32 (v : Z) : Z := u16 (Z.max (-32768) (Z.min 32767 (signed32 v))).
(** [_mm256_movemask_ps]: the most significant bit of each lane. *)
Fixpoint movemask_ps (lanes : list Z) : Z :=
  match lanes with
  | [] => 0
  | lane :: lanes => Z.b2z (Z.testbit lane 31) + 2 * movemask_ps lanes
  end.

Definition brightDefault (build : Build) (colorTable : list Z) (defaultColor : Z) : option Z :=
  match build with
  | AVX2 =>
      let result := map (fun color => cmpeq_epi32 color defaultColor) (take 8 colorTable) in
      match FindActionable.BitScanForward (movemask_ps result) with
      | Some index => colorTable !! (Z.to_nat index + 8)%nat
      | None => Some defaultColor
      end
  | AMD64 =>
      let result1 := map (fun color => cmpeq_epi32 color defaultColor) (take 4 colorTable) in
      let result2 := map (fun color => cmpeq_epi32 color defaultColor) (take 4 (drop 4 colorTable)) in
      let result := map packs_epi32 (result1 ++ result2) in
      match FindActionable.BitScanForward (FindActionable.movemask_epi8 result) with
      | Some index => colorTable !! (Z.to_nat (index / 2) + 8)%nat
      | None => Some defaultColor
      end
  | Portable => brightLoop 8 colorTable defaultColor 0
  end.

Definition GetColor (build : Build) (colorTable : list Z) (defaultIndex : nat) (brighten : bool) c : option Z :=
  if IsDefault_ c then
    defaultColor ← colorTable !! defaultIndex;
    if brighten then brightDefault build colorTable defaultColor else Some defaultColor
  else if IsRgb_ c then Some (GetRGB c)
  else if IsIndex16_ c && brighten then colorTable !! Z.to_nat (Z.lor (_index c) 8)
  else colorTable !! Z.to_nat (_index c).

Definition GetLegacyIndex (defaultIndex : Z) c : option Z :=
  if IsDefault_ c then Some defaultIndex
  else if IsIndex16_ c || IsIndex256_ c then Index256ToIndex16 !! Z.to_nat (GetIndex c)
  else
    let compressedRgb := u8 (Z.land (_red c) 0xE0 + Z.land (Z.shiftr (_green c) 3) 0x1C + Z.land (Z.shiftr (_blue c) 6) 0x03) in
    CompressedRgbToIndex16 !! Z.to_nat compressedRgb.
End TextColor.

(** ** Properties *)
Definition color_ok c : Prop :=
  is_byte (_red c) /\ is_byte (_green c) /\ is_byte (_blue c)
  /\ match _meta c with
     | IsDefault => _red c = 0 /\ _green c = 0 /\ _blue c = 0
     | IsIndex16 => _red c < 16 /\ _green c = 0 /\ _blue c = 0
     | IsIndex256 => _green c = 0 /\ _blue c = 0
     | IsRgb => True
     end.

(** The lanes depend on the comparisons only. *)
Lemma builds_agree build colorTable defaultColor : (16 <= length colorTable)%nat ->
  TextColor.brightDefault build colorTable defaultColor = TextColor.brightDefault TextColor.Portable colorTable defaultColor.
Proof.
  intros Hl. do 8 (destruct colorTable as [|? colorTable]; [cbn in Hl; lia|]).
  unfold TextColor.brightDefault. cbn [take drop app map TextColor.brightLoop lookup list_lookup option_bind mbind].
  unfold TextColor.cmpeq_epi32.
  repeat match goal with |- context [?a =? defaultColor] => generalize (a =? defaultColor) end. intros.
  destruct build; [| |done]; repeat match goal with b : bool |- _ => destruct b end; reflexivity.
Qed.

Lemma brightLoop_some n colorTable defaultColor i : (i + n + 8 <= length colorTable)%nat ->
  is_Some (TextColor.brightLoop n colorTable defaultColor i).
Proof.
  revert i. induction n as [|n IH]; intros i Hl; [by eexists|]. cbn [TextColor.brightLoop].
  destruct (lookup_lt_is_Some_2 colorTable i) as [color Hc]; [lia|]. rewrite Hc. cbn [option_bind mbind].
  destruct (color =? defaultColor); [apply lookup_lt_is_Some_2; lia|apply IH; lia].
Qed.

Lemma color_index_ok c : color_ok c -> (Z.to_nat (_index c) < 256)%nat /\ (Z.to_nat (Z.lor (_index c) 8) < 256)%nat.
Proof.
  intros (Hr & _). unfold is_byte, _index in *. split; [lia|].
  assert (Z.lor (_red c) 8 < 2 ^ 8); [|lia]. apply Z.log2_lt_cancel. rewrite Z.log2_lor, Z.log2_pow2 by lia.
  apply Z.max_lub_lt; [|done]. destruct (Z.eq_dec (_red c) 0) as [->|]; [done|]. apply Z.log2_lt_pow2; lia.
Qed.

(** A colour of a cell has a value in a colour table of full size, whatever the default
    index and whether bright colours are asked for, without reading outside the table, and
    the vectorized builds of the search for a bright default find what the plain loop finds. *)
Theorem text_color_value build colorTable defaultIndex brighten c :
  length colorTable = TABLE_SIZE -> (defaultIndex < TABLE_SIZE)%nat -> color_ok c ->
  exists v, TextColor.GetColor build colorTable defaultIndex brighten c = Some v
    /\ TextColor.GetColor TextColor.Portable colorTable defaultIndex brighten c = Some v.
Proof.
  unfold TABLE_SIZE. intros Hl Hd Hc. destruct (color_index_ok c Hc) as [Hi Hi8]. unfold TextColor.GetColor.
  assert (Hat : forall i, (i < 267)%nat -> is_Some (colorTable !! i)) by (intros; apply lookup_lt_is_Some_2; lia).
  destruct (TextColor.IsDefault_ c); [|destruct (TextColor.IsRgb_ c); [by eexists|]].
  - destruct (Hat defaultIndex Hd) as [color ->]. cbn [mbind option_bind].
    destruct brighten; [|by eexists]. rewrite builds_agree by lia.
    destruct (brightLoop_some 8 colorTable color 0) as [v Hv]; [lia|]. by exists v.
  - destruct (TextColor.IsIndex16_ c && brighten);
      [destruct (Hat (Z.to_nat (Z.lor (_index c) 8))) as [v ->]|destruct (Hat (Z.to_nat (_index c))) as [v ->]]; [lia|by eexists|lia|by eexists].
Qed.

Lemma legacy_tables : forallb (fun v => (0 <=? v) && (v <? 16)) (CompressedRgbToIndex16 ++ Index256ToIndex16) = true
  /\ length CompressedRgbToIndex16 = 256%nat /\ length Index256ToIndex16 = 256%nat.
Proof. by vm_compute. Qed.

Lemma GetLegacyIndex_bound defaultIndex c : color_ok c -> 0 <= defaultIndex < 16 ->
  exists v, TextColor.GetLegacyIndex defaultIndex c = Some v /\ 0 <= v < 16.
Proof.
  intros Hc Hd. destruct (color_index_ok c Hc) as [Hi _]. destruct legacy_tables as (Hall & Hl1 & Hl2).
  rewrite forallb_app in Hall. apply andb_true_iff in Hall as [H1 H2]. apply forallb_Forall in H1, H2.
  assert (Hat : forall (l : list Z) i, Forall (fun v => (0 <=? v) && (v <? 16) = true) l -> length l = 256%nat -> (i < 256)%nat ->
    exists v, l !! i = Some v /\ 0 <= v < 16).
  { intros l i Hf Hl Hlt. destruct (lookup_lt_is_Some_2 l i) as [v Hv]; [lia|]. exists v. split; [done|].
    pose proof (Forall_lookup_1 _ _ _ _ Hf Hv) as Hp. cbn beta in Hp. lia. }
  unfold TextColor.GetLegacyIndex. destruct (TextColor.IsDefault_ c); [by exists defaultIndex|].
  destruct (_ || _); [by apply Hat|]. apply Hat; [done..|].
  match goal with |- (Z.to_nat (wrap 8 ?x) < _)%nat => pose proof (wrap_bound 8 x ltac:(lia)) as Hw end.
  change (2 ^ 8) with 256 in Hw. lia.
Qed.

Lemma text_color_value_witness :
  let colorTable := map Z.of_nat (seq 0 267) in
  exists v, TextColor.GetColor TextColor.AVX2 colorTable 3 true TextColor_default = Some v
    /\ TextColor.GetColor TextColor.Portable colorTable 3 true TextColor_default = Some v.
Proof.
  intros colorTable. apply (text_color_value TextColor.AVX2 colorTable 3 true TextColor_default);
    [reflexivity|vm_compute; lia|repeat split; vm_compute; congruence].
Defined.
