(* ===== verification/TextAttributes.v ===== *)
(** * Text attributes

    Models [src/buffer/out/TextAttribute.hpp] and [TextAttribute.cpp], with the constants of
    [src/inc/conattrs.hpp]: the attributes of a cell, and the conversion from and to the
    16-bit attributes of the console API, for any choice of default colours. *)
From S2P Require Import Prelude.
From S2P Require Import InputEvents.
From S2P Require Import TextColors.

Module CharacterAttributes.
Definition Normal : Z := 0x00.
Definition Intense : Z := 0x01.
Definition Italics : Z := 0x02.
Definition Blinking : Z := 0x04.
Definition Invisible : Z := 0x08.
Definition CrossedOut : Z := 0x10.
Definition Faint : Z := 0x20.
Definition UnderlineStyle : Z := 0x1C0.
Definition TopGridline : Z := 0x400.
Definition LeftGridline : Z := 0x800.
Definition RightGridline : Z := 0x1000.
Definition Protected : Z := 0x2000.
Definition ReverseVideo : Z := 0x4000.
Definition BottomGridline : Z := 0x8000.
Definition All : Z := 0xFFFF.
Definition Rendition : Z := Z.ldiff All Protected.
End CharacterAttributes.
Definition UNDERLINE_STYLE_SHIFT : Z := 6.

Definition FG_ATTRS : Z := 0x0F.
Definition BG_ATTRS : Z := 0xF0.
Definition FOREGROUND_INTENSITY : Z := 0x08.
Definition META_ATTRS : Z := 0xDF00.
Definition COMMON_LVB_SBCSDBCS : Z := 0x0300.
(** Without the lead and trail byte marks. *)
Definition USED_META_ATTRS : Z := Z.ldiff META_ATTRS COMMON_LVB_SBCSDBCS.

(** [UnderlineStyle] *)
Definition NoUnderline : Z := 0.
Definition SinglyUnderlined : Z := 1.
Definition DoublyUnderlined : Z := 2.
Definition CurlyUnderlined : Z := 3.
Definition DottedUnderlined : Z := 4.
Definition DashedUnderlined : Z := 5.
Definition UnderlineStyle_Max : Z := DashedUnderlined.

Inductive MarkKind := Mark_None | Mark_Prompt | Mark_Command | Mark_Output.
#[export] Instance MarkKind_eq_dec : EqDecision MarkKind.
Proof. solve_decision. Defined.

(** ** The object *)
Record TextAttribute := mkTextAttribute {
  _attrs : Z;
  _hyperlinkId : Z;
  _foreground : TextColor;
  _background : TextColor;
  _underlineColor : TextColor;
  _markKind : MarkKind }.
#[export] Instance TextAttribute_eq_dec : EqDecision TextAttribute.
Proof. solve_decision. Defined.
Implicit Types (a : TextAttribute).

(** *** The static members: the defaults of the console API *)
Record LegacyDefaults := mkLegacyDefaults {
  s_legacyForegroundColorMap : list TextColor;
  s_legacyBackgroundColorMap : list TextColor;
  s_legacyDefaultForeground : Z;
  s_legacyDefaultBackground : Z;
  s_ansiDefaultForeground : Z;
  s_ansiDefaultBackground : Z }.
Implicit Types (d : LegacyDefaults).

Definition s_initLegacyColorMap (defaultIndex : Z) : list TextColor :=
  map (fun i => if Z.of_nat i =? defaultIndex then TextColor_default
                else TextColor_indexed (TextColor.TransposeLegacyIndex (Z.of_nat i)) true) (seq 0 16).
Definition initialLegacyDefaults : LegacyDefaults :=
  mkLegacyDefaults (s_initLegacyColorMap 7) (s_initLegacyColorMap 0) 7 0 7 0.

Definition SetLegacyDefaultAttributes (defaultAttributes : Z) d : LegacyDefaults :=
  let fgMap := <[Z.to_nat (s_legacyDefaultForeground d) := TextColor_indexed (s_ansiDefaultForeground d) true]> (s_legacyForegroundColorMap d) in
  let bgMap := <[Z.to_nat (s_legacyDefaultBackground d) := TextColor_indexed (s_ansiDefaultBackground d) true]> (s_legacyBackgroundColorMap d) in
  let legacyFg := u8 (Z.land defaultAttributes FG_ATTRS) in
  let legacyBg := u8 (Z.shiftr (Z.land defaultAttributes BG_ATTRS) 4) in
  mkLegacyDefaults
    (<[Z.to_nat legacyFg := TextColor_default]> fgMap) (<[Z.to_nat legacyBg := TextColor_default]> bgMap)
    legacyFg legacyBg (TextColor.TransposeLegacyIndex legacyFg) (TextColor.TransposeLegacyIndex legacyBg).

(** *** Constructors *)
Definition TextAttribute_ctor : TextAttribute :=
  mkTextAttribute CharacterAttributes.Normal 0 TextColor_default TextColor_default TextColor_default Mark_None.
(** [gsl::at]: [None] is the termination of the program. *)
Definition TextAttribute_legacy (wLegacyAttr : Z) d : option TextAttribute :=
  fg ← s_legacyForegroundColorMap d !! Z.to_nat (Z.land wLegacyAttr FG_ATTRS);
  bg ← s_legacyBackgroundColorMap d !! Z.to_nat (Z.shiftr (Z.land wLegacyAttr BG_ATTRS) 4);
  Some (mkTextAttribute (u16 (Z.land wLegacyAttr USED_META_ATTRS)) 0 fg bg TextColor_default Mark_None).
Definition TextAttribute_colors (rgbForeground rgbBackground rgbUnderline : Z) : TextAttribute :=
  mkTextAttribute CharacterAttributes.Normal 0 (TextColor_rgb rgbForeground) (TextColor_rgb rgbBackground) (TextColor_rgb rgbUnderline) Mark_None.
Definition TextAttribute_parts (attrs : Z) (foreground background : TextColor) (hyperlinkId : Z) (underlineColor : TextColor) : TextAttribute :=
  mkTextAttribute attrs hyperlinkId foreground background underlineColor Mark_None.

(** *** Members one by one *)
Definition set_attrs v a := mkTextAttribute v (_hyperlinkId a) (_foreground a) (_background a) (_underlineColor a) (_markKind a).
Definition set_hyperlinkId v a := mkTextAttribute (_attrs a) v (_foreground a) (_background a) (_underlineColor a) (_markKind a).
Definition set_foreground v a := mkTextAttribute (_attrs a) (_hyperlinkId a) v (_background a) (_underlineColor a) (_markKind a).
Definition set_background v a := mkTextAttribute (_attrs a) (_hyperlinkId a) (_foreground a) v (_underlineColor a) (_markKind a).
Definition set_underlineColor v a := mkTextAttribute (_attrs a) (_hyperlinkId a) (_foreground a) (_background a) v (_markKind a).
Definition set_markKind v a := mkTextAttribute (_attrs a) (_hyperlinkId a) (_foreground a) (_background a) (_underlineColor a) v.

Module TextAttribute.
Definition flag (f : Z) a : bool := WI_IsFlagSet (_attrs a) f.
Definition update (f : Z) (isSet : bool) a : TextAttribute := set_attrs (WI_UpdateFlag (_attrs a) f isSet) a.

Definition IsTopHorizontalDisplayed := flag CharacterAttributes.TopGridline.
Definition IsBottomHorizontalDisplayed := flag CharacterAttributes.BottomGridline.
Definition IsLeftVerticalDisplayed := flag CharacterAttributes.LeftGridline.
Definition IsRightVerticalDisplayed := flag CharacterAttributes.RightGridline.
Definition SetLeftVerticalDisplayed := update CharacterAttributes.LeftGridline.
Definition SetRightVerticalDisplayed := update CharacterAttributes.RightGridline.
Definition IsIntense := flag CharacterAttributes.Intense.
Definition IsFaint := flag CharacterAttributes.Faint.
Definition IsItalic := flag CharacterAttributes.Italics.
Definition IsBlinking := flag CharacterAttributes.Blinking.
Definition IsInvisible := flag CharacterAttributes.Invisible.
Definition IsCrossedOut := flag CharacterAttributes.CrossedOut.
Definition IsOverlined := flag CharacterAttributes.TopGridline.
Definition IsReverseVideo := flag CharacterAttributes.ReverseVideo.
Definition IsProtected := flag CharacterAttributes.Protected.
Definition SetIntense := update CharacterAttributes.Intense.
Definition SetFaint := update CharacterAttributes.Faint.
Definition SetItalic := update CharacterAttributes.Italics.
Definition SetBlinking := update CharacterAttributes.Blinking.
Definition SetInvisible := update CharacterAttributes.Invisible.
Definition SetCrossedOut := update CharacterAttributes.CrossedOut.
Definition SetOverlined := update CharacterAttributes.TopGridline.
Definition SetReverseVideo := update CharacterAttributes.ReverseVideo.
Definition SetProtected := update CharacterAttributes.Protected.

Definition GetUnderlineStyle a : Z := Z.shiftr (Z.land (_attrs a) CharacterAttributes.UnderlineStyle) UNDERLINE_STYLE_SHIFT.
Definition SetUnderlineStyle (style : Z) a : TextAttribute :=
  set_attrs (Z.lor (Z.ldiff (_attrs a) CharacterAttributes.UnderlineStyle) (Z.shiftl style UNDERLINE_STYLE_SHIFT)) a.
Definition IsUnderlined a : bool := negb (GetUnderlineStyle a =? NoUnderline).

Definition IsBold (intenseIsBold : bool) a : bool := IsIntense a && (intenseIsBold || negb (TextColor.CanBeBrightened (_foreground a))).
Definition IsLegacy a : bool := TextColor.IsLegacy (_foreground a) && TextColor.IsLegacy (_background a).
Definition IsHyperlink a : bool := negb (_hyperlinkId a =? 0).
Definition SetCharacterAttributes (attrs : Z) a := set_attrs attrs a.
Definition GetCharacterAttributes a : Z := _attrs a.
Definition SetMarkAttributes (attrs : MarkKind) a := set_markKind attrs a.
Definition GetMarkAttributes a : MarkKind := _markKind a.
Definition GetForeground a : TextColor := _foreground a.
Definition GetBackground a : TextColor := _background a.
Definition GetHyperlinkId a : Z := _hyperlinkId a.
Definition GetUnderlineColor a : TextColor := _underlineColor a.

Definition SetForeground (foreground : TextColor) a := set_foreground foreground a.
Definition SetBackground (background : TextColor) a := set_background background a.
Definition SetUnderlineColor (color : TextColor) a := set_underlineColor color a.
Definition SetForegroundRgb (rgbForeground : Z) a := set_foreground (TextColor_rgb rgbForeground) a.
Definition SetBackgroundRgb (rgbBackground : Z) a := set_background (TextColor_rgb rgbBackground) a.
Definition SetIndexedForeground (fgIndex : Z) a := set_foreground (TextColor_indexed fgIndex false) a.
Definition SetIndexedBackground (bgIndex : Z) a := set_background (TextColor_indexed bgIndex false) a.
Definition SetIndexedForeground256 (fgIndex : Z) a := set_foreground (TextColor_indexed fgIndex true) a.
Definition SetIndexedBackground256 (bgIndex : Z) a := set_background (TextColor_indexed bgIndex true) a.
Definition SetColor (rgbColor : Z) (fIsForeground : bool) a := if fIsForeground then SetForegroundRgb rgbColor a else SetBackgroundRgb rgbColor a.
Definition SetHyperlinkId (id : Z) a := set_hyperlinkId id a.
Definition SetDefaultForeground a := set_foreground TextColor_default a.
Definition SetDefaultBackground a := set_background TextColor_default a.
Definition SetDefaultUnderlineColor a := set_underlineColor TextColor_default a.
Definition SetDefaultRenditionAttributes a := set_attrs (Z.ldiff (_attrs a) CharacterAttributes.Rendition) a.
Definition BackgroundIsDefault a : bool := TextColor.IsDefault_ (_background a).
Definition SetStandardErase a := set_markKind Mark_None (set_hyperlinkId 0 (set_attrs CharacterAttributes.Normal a)).
Definition Invert a := set_attrs (Z.lxor (_attrs a) CharacterAttributes.ReverseVideo) a.
Definition IsAnyGridLineEnabled a : bool :=
  WI_IsAnyFlagSet (_attrs a) (Z.lor (Z.lor CharacterAttributes.TopGridline CharacterAttributes.LeftGridline)
                                    (Z.lor CharacterAttributes.RightGridline CharacterAttributes.BottomGridline)).
Definition HasAnyVisualAttributes a : bool := negb (GetCharacterAttributes a =? CharacterAttributes.Normal) || negb (GetHyperlinkId a =? 0).
Definition HasIdenticalVisualRepresentationForBlankSpace (other : TextAttribute) (inverted : bool) a : bool :=
  let checkForeground := negb (Bool.eqb inverted (IsReverseVideo a)) in
  negb (IsAnyGridLineEnabled a) && negb (IsUnderlined a) && WI_IsFlagClear (_attrs a) CharacterAttributes.CrossedOut
  && negb (IsHyperlink a) && (_attrs a =? _attrs other)
  && ((checkForeground && bool_decide (_foreground a = _foreground other))
      || (negb checkForeground && bool_decide (_background a = _background other)))
  && Bool.eqb (IsHyperlink a) (IsHyperlink other).

Definition GetLegacyAttributes a d : option Z :=
  fgIndex ← TextColor.GetLegacyIndex (s_legacyDefaultForeground d) (_foreground a);
  bgIndex ← TextColor.GetLegacyIndex (s_legacyDefaultBackground d) (_background a);
  let metaAttrs := Z.land (_attrs a) USED_META_ATTRS in
  let brighten := IsIntense a && TextColor.CanBeBrightened (_foreground a) in
  Some (u16 (Z.lor (Z.lor (Z.lor fgIndex (Z.shiftl bgIndex 4)) metaAttrs) (if brighten then FOREGROUND_INTENSITY else 0))).
End TextAttribute.

(** ** The attributes of the console API *)
Definition is_index16 (i : Z) : Prop := 0 <= i < 16.

(** The static members for given default colours. *)
Definition legacyDefaults (fg bg : Z) : LegacyDefaults :=
  mkLegacyDefaults (s_initLegacyColorMap fg) (s_initLegacyColorMap bg) fg bg
    (TextColor.TransposeLegacyIndex fg) (TextColor.TransposeLegacyIndex bg).

Definition indices16 : list Z := map Z.of_nat (seq 0 16).
Lemma elem_indices16 i : is_index16 i -> i ∈ indices16.
Proof.
  intros Hi. unfold is_index16 in Hi. replace i with (Z.of_nat (Z.to_nat i)) by lia. apply list_elem_of_fmap_2, elem_of_seq. lia.
Qed.

(** A decidable property of two indices, by enumeration. *)
Lemma all_pairs16 (P : Z -> Z -> Prop) `{forall i j, Decision (P i j)} :
  forallb (fun i => forallb (fun j => bool_decide (P i j)) indices16) indices16 = true ->
  forall i j, is_index16 i -> is_index16 j -> P i j.
Proof.
  intros Hall i j Hi%elem_indices16 Hj%elem_indices16. rewrite forallb_forall in Hall.
  specialize (Hall i ltac:(by apply list_elem_of_In)). rewrite forallb_forall in Hall.
  specialize (Hall j ltac:(by apply list_elem_of_In)). by apply bool_decide_eq_true in Hall.
Qed.

Lemma legacyMap_update : forall old new, is_index16 old -> is_index16 new ->
  <[Z.to_nat new := TextColor_default]>
    (<[Z.to_nat old := TextColor_indexed (TextColor.TransposeLegacyIndex old) true]> (s_initLegacyColorMap old))
  = s_initLegacyColorMap new.
Proof. unshelve eapply all_pairs16. by vm_compute. Qed.

Lemma legacyMap_roundtrip : forall fg i, is_index16 fg -> is_index16 i ->
  (c ← s_initLegacyColorMap fg !! Z.to_nat i; TextColor.GetLegacyIndex fg c) = Some i.
Proof. unshelve eapply all_pairs16. by vm_compute. Qed.

Lemma fg_index w : is_index16 (Z.land w FG_ATTRS).
Proof. unfold is_index16, FG_ATTRS. change 0x0F with (Z.ones 4). rewrite Z.land_ones by lia. apply Z.mod_pos_bound. lia. Qed.
Lemma bg_index w : is_index16 (Z.shiftr (Z.land w BG_ATTRS) 4).
Proof.
  unfold is_index16, BG_ATTRS. rewrite Z.shiftr_land. change (Z.shiftr 0xF0 4) with (Z.ones 4).
  rewrite Z.land_ones by lia. apply Z.mod_pos_bound. lia.
Qed.
Lemma index16_byte i : is_index16 i -> u8 i = i.
Proof. unfold is_index16. intros Hi. apply (wrap_small 8). lia. Qed.

Lemma SetLegacyDefaultAttributes_defaults w fg bg : is_index16 fg -> is_index16 bg ->
  SetLegacyDefaultAttributes w (legacyDefaults fg bg)
  = legacyDefaults (Z.land w FG_ATTRS) (Z.shiftr (Z.land w BG_ATTRS) 4).
Proof.
  intros Hfg Hbg. pose proof (fg_index w). pose proof (bg_index w). unfold SetLegacyDefaultAttributes. cbn -[Z.land Z.shiftr insert s_initLegacyColorMap].
  rewrite !index16_byte by done. unfold legacyDefaults. by rewrite !legacyMap_update.
Qed.

Lemma setDefaults_reachable ws : exists fg bg, is_index16 fg /\ is_index16 bg
  /\ fold_left (fun d w => SetLegacyDefaultAttributes w d) ws initialLegacyDefaults = legacyDefaults fg bg.
Proof.
  assert (Hgen : forall fg bg, is_index16 fg -> is_index16 bg -> exists fg' bg', is_index16 fg' /\ is_index16 bg'
    /\ fold_left (fun d w => SetLegacyDefaultAttributes w d) ws (legacyDefaults fg bg) = legacyDefaults fg' bg').
  { induction ws as [|w ws IH]; intros fg bg Hfg Hbg; [by exists fg, bg|]. cbn [fold_left].
    rewrite SetLegacyDefaultAttributes_defaults by done. apply IH; [apply fg_index|apply bg_index]. }
  destruct (Hgen 7 0) as (fg & bg & H); [by unfold is_index16; lia..|]. exists fg, bg. exact H.
Qed.

Definition LEGACY_ATTRS : Z := Z.lor (Z.lor FG_ATTRS BG_ATTRS) USED_META_ATTRS.

Lemma legacy_bits w :
  u16 (Z.lor (Z.lor (Z.lor (Z.land w FG_ATTRS) (Z.shiftl (Z.shiftr (Z.land w BG_ATTRS) 4) 4)) (Z.land w USED_META_ATTRS)) 0)
  = Z.land w LEGACY_ATTRS.
Proof.
  rewrite Z.lor_0_r. replace (Z.shiftl (Z.shiftr (Z.land w BG_ATTRS) 4) 4) with (Z.land w BG_ATTRS).
  - unfold wrap. rewrite <- !Z.land_lor_distr_r, <- Z.land_ones by lia. by rewrite <- Z.land_assoc.
  - rewrite Z.shiftr_land, Z.shiftl_land. change (Z.shiftl (Z.shiftr BG_ATTRS 4) 4) with BG_ATTRS.
    apply Z.bits_inj'. intros n Hn. rewrite !Z.land_spec. destruct (Z.testbit BG_ATTRS n) eqn:Hb; [|by rewrite !andb_false_r].
    rewrite !andb_true_r, Z.shiftl_spec by done. destruct (Z.ltb_spec n 4); [|by rewrite Z.shiftr_spec by lia; f_equal; lia].
    exfalso. assert (n = 0 \/ n = 1 \/ n = 2 \/ n = 3) as [->|[->|[->| ->]]] by lia; done.
Qed.

(** The attributes of the console API survive the conversion: whatever default colours
    have been set before, the attributes made from 16 legacy bits give back those bits, less
    the marks of lead and trail bytes and the unused bit. *)
Theorem legacy_attributes_roundtrip ws w :
  let d := fold_left (fun d w => SetLegacyDefaultAttributes w d) ws initialLegacyDefaults in
  exists a, TextAttribute_legacy w d = Some a /\ TextAttribute.GetLegacyAttributes a d = Some (Z.land w LEGACY_ATTRS).
Proof.
  intros d. destruct (setDefaults_reachable ws) as (fg & bg & Hfg & Hbg & Hd). fold d in Hd. rewrite Hd.
  pose proof (legacyMap_roundtrip fg _ Hfg (fg_index w)) as Hf. pose proof (legacyMap_roundtrip bg _ Hbg (bg_index w)) as Hb.
  unfold TextAttribute_legacy, TextAttribute.GetLegacyAttributes. cbn [legacyDefaults s_legacyForegroundColorMap s_legacyBackgroundColorMap s_legacyDefaultForeground s_legacyDefaultBackground].
  destruct (s_initLegacyColorMap fg !! _) as [cf|]; [|done]. destruct (s_initLegacyColorMap bg !! _) as [cb|]; [|done].
  cbn [mbind option_bind] in *. eexists. split; [done|]. cbn [_foreground _background _attrs]. rewrite Hf, Hb. cbn [mbind option_bind].
  assert (Hmeta : forall m, Z.land m 0xFFFF = m -> Z.land (u16 (Z.land w USED_META_ATTRS)) m = Z.land w (Z.land USED_META_ATTRS m)).
  { intros m Hm. unfold wrap. rewrite <- Z.land_ones by lia. rewrite <- !Z.land_assoc. do 2 f_equal. rewrite Z.land_comm. exact Hm. }
  unfold TextAttribute.IsIntense, TextAttribute.flag, WI_IsFlagSet. cbn [_attrs]. rewrite !Hmeta by done.
  change (Z.land USED_META_ATTRS CharacterAttributes.Intense) with 0. rewrite Z.land_0_r. cbn [Z.eqb negb andb].
  change (Z.land USED_META_ATTRS USED_META_ATTRS) with USED_META_ATTRS. f_equal. apply legacy_bits.
Qed.
