(* ===== verification/Graphics.v ===== *)
(** * Graphic renditions

    Models [src/terminal/adapter/adaptDispatchGraphics.cpp] (SGR, DECSCA and the pushing and
    popping of attributes), [src/types/sgrStack.cpp] and the report of the attributes in
    [src/terminal/adapter/adaptDispatch.cpp] ([_ReportSGRSetting]). The attributes are those
    of the active page; the pages are not modelled. *)
From S2P Require Import Prelude DispatchTypes StateMachine.
From S2P Require Import InputEvents.
From S2P Require Import TerminalInput.
From S2P Require Import TextColors.
From S2P Require Import TextAttributes.
Implicit Types (attr : TextAttribute).

Module GraphicsOptions.
Definition Off := 0.
Definition Intense := 1.
Definition RGBColorOrFaint := 2.
Definition Italics := 3.
Definition Underline := 4.
Definition BlinkOrXterm256Index := 5.
Definition RapidBlink := 6.
Definition Negative := 7.
Definition Invisible := 8.
Definition CrossedOut := 9.
Definition DoublyUnderlined := 21.
Definition NotIntenseOrFaint := 22.
Definition NotItalics := 23.
Definition NoUnderline := 24.
Definition Steady := 25.
Definition Positive := 27.
Definition Visible := 28.
Definition NotCrossedOut := 29.
Definition ForegroundBlack := 30.
Definition ForegroundRed := 31.
Definition ForegroundGreen := 32.
Definition ForegroundYellow := 33.
Definition ForegroundBlue := 34.
Definition ForegroundMagenta := 35.
Definition ForegroundCyan := 36.
Definition ForegroundWhite := 37.
Definition ForegroundExtended := 38.
Definition ForegroundDefault := 39.
Definition BackgroundBlack := 40.
Definition BackgroundRed := 41.
Definition BackgroundGreen := 42.
Definition BackgroundYellow := 43.
Definition BackgroundBlue := 44.
Definition BackgroundMagenta := 45.
Definition BackgroundCyan := 46.
Definition BackgroundWhite := 47.
Definition BackgroundExtended := 48.
Definition BackgroundDefault := 49.
Definition Overline := 53.
Definition NoOverline := 55.
Definition UnderlineColor := 58.
Definition UnderlineColorDefault := 59.
Definition BrightForegroundBlack := 90.
Definition BrightForegroundRed := 91.
Definition BrightForegroundGreen := 92.
Definition BrightForegroundYellow := 93.
Definition BrightForegroundBlue := 94.
Definition BrightForegroundMagenta := 95.
Definition BrightForegroundCyan := 96.
Definition BrightForegroundWhite := 97.
Definition BrightBackgroundBlack := 100.
Definition BrightBackgroundRed := 101.
Definition BrightBackgroundGreen := 102.
Definition BrightBackgroundYellow := 103.
Definition BrightBackgroundBlue := 104.
Definition BrightBackgroundMagenta := 105.
Definition BrightBackgroundCyan := 106.
Definition BrightBackgroundWhite := 107.
End GraphicsOptions.

Module LogicalAttributeOptions.
Definition Default := 0.
Definition Protected := 1.
Definition Unprotected := 2.
End LogicalAttributeOptions.

(** ** The options of SGR *)
Definition _SetUnderlineStyleHelper (option : VTParameter) attr : TextAttribute :=
  let style := VTParameter.value_or option 0 in
  if (0 <=? style) && (style <=? UnderlineStyle_Max) then TextAttribute.SetUnderlineStyle style attr else attr.

(** The number of options consumed, and the attribute. *)
Definition _SetRgbColorsHelper (options : VTParameters) attr (isForeground : bool) : nat * TextAttribute :=
  let typeOpt := VTParameter.to_enum (VTParameters.at_ options 0) in
  let at_ i := VTParameter.value_or (VTParameters.at_ options i) 0 in
  if typeOpt =? GraphicsOptions.RGBColorOrFaint then
    (4%nat, if (at_ 1%nat <=? 255) && (at_ 2%nat <=? 255) && (at_ 3%nat <=? 255)
            then TextAttribute.SetColor (RGB (at_ 1%nat) (at_ 2%nat) (at_ 3%nat)) isForeground attr else attr)
  else if typeOpt =? GraphicsOptions.BlinkOrXterm256Index then
    (2%nat, if at_ 1%nat <=? 255
            then if isForeground then TextAttribute.SetIndexedForeground256 (at_ 1%nat) attr
                 else TextAttribute.SetIndexedBackground256 (at_ 1%nat) attr
            else attr)
  else (1%nat, attr).

Definition applyColor (colorItem : Z) (color : TextColor) attr : TextAttribute :=
  switch colorItem
    [(GraphicsOptions.ForegroundExtended, TextAttribute.SetForeground color attr);
     (GraphicsOptions.BackgroundExtended, TextAttribute.SetBackground color attr);
     (GraphicsOptions.UnderlineColor, TextAttribute.SetUnderlineColor color attr)]
    attr.

Definition _SetRgbColorsHelperFromSubParams (colorItem : Z) (options : VTSubParameters) attr : TextAttribute :=
  let typeOpt := VTParameter.to_enum (VTSubParameters.at_ options 0) in
  let at_ i := VTParameter.value_or (VTSubParameters.at_ options i) 0 in
  if typeOpt =? GraphicsOptions.RGBColorOrFaint then
    let validColorSpace := at_ 1%nat =? 0 in
    if validColorSpace && (at_ 2%nat <=? 255) && (at_ 3%nat <=? 255) && (at_ 4%nat <=? 255)
    then applyColor colorItem (TextColor_rgb (RGB (at_ 2%nat) (at_ 3%nat) (at_ 4%nat))) attr else attr
  else if typeOpt =? GraphicsOptions.BlinkOrXterm256Index then
    if at_ 1%nat <=? 255 then applyColor colorItem (TextColor_indexed (at_ 1%nat) true) attr else attr
  else attr.

Definition _ApplyGraphicsOptionWithSubParams (option : Z) (subParams : VTSubParameters) attr : TextAttribute :=
  if option =? GraphicsOptions.Underline then _SetUnderlineStyleHelper (VTSubParameters.at_ subParams 0) attr
  else if (option =? GraphicsOptions.ForegroundExtended) || (option =? GraphicsOptions.BackgroundExtended)
          || (option =? GraphicsOptions.UnderlineColor)
  then _SetRgbColorsHelperFromSubParams option subParams attr
  else attr.

(** The options that set one thing. *)
Definition simpleOptions : list (Z * (TextAttribute -> TextAttribute)) :=
  [(GraphicsOptions.Off, fun attr =>
      TextAttribute.SetDefaultRenditionAttributes (TextAttribute.SetDefaultUnderlineColor
        (TextAttribute.SetDefaultBackground (TextAttribute.SetDefaultForeground attr))));
   (GraphicsOptions.ForegroundDefault, TextAttribute.SetDefaultForeground);
   (GraphicsOptions.BackgroundDefault, TextAttribute.SetDefaultBackground);
   (GraphicsOptions.UnderlineColorDefault, TextAttribute.SetDefaultUnderlineColor);
   (GraphicsOptions.Intense, TextAttribute.SetIntense true);
   (GraphicsOptions.RGBColorOrFaint, TextAttribute.SetFaint true);
   (GraphicsOptions.NotIntenseOrFaint, fun attr => TextAttribute.SetFaint false (TextAttribute.SetIntense false attr));
   (GraphicsOptions.Italics, TextAttribute.SetItalic true);
   (GraphicsOptions.NotItalics, TextAttribute.SetItalic false);
   (GraphicsOptions.BlinkOrXterm256Index, TextAttribute.SetBlinking true);
   (GraphicsOptions.RapidBlink, TextAttribute.SetBlinking true);
   (GraphicsOptions.Steady, TextAttribute.SetBlinking false);
   (GraphicsOptions.Invisible, TextAttribute.SetInvisible true);
   (GraphicsOptions.Visible, TextAttribute.SetInvisible false);
   (GraphicsOptions.CrossedOut, TextAttribute.SetCrossedOut true);
   (GraphicsOptions.NotCrossedOut, TextAttribute.SetCrossedOut false);
   (GraphicsOptions.Negative, TextAttribute.SetReverseVideo true);
   (GraphicsOptions.Positive, TextAttribute.SetReverseVideo false);
   (GraphicsOptions.Underline, TextAttribute.SetUnderlineStyle SinglyUnderlined);
   (GraphicsOptions.DoublyUnderlined, TextAttribute.SetUnderlineStyle DoublyUnderlined);
   (GraphicsOptions.NoUnderline, TextAttribute.SetUnderlineStyle NoUnderline);
   (GraphicsOptions.Overline, TextAttribute.SetOverlined true);
   (GraphicsOptions.NoOverline, TextAttribute.SetOverlined false);
   (GraphicsOptions.ForegroundBlack, TextAttribute.SetIndexedForeground DARK_BLACK);
   (GraphicsOptions.ForegroundBlue, TextAttribute.SetIndexedForeground DARK_BLUE);
   (GraphicsOptions.ForegroundGreen, TextAttribute.SetIndexedForeground DARK_GREEN);
   (GraphicsOptions.ForegroundCyan, TextAttribute.SetIndexedForeground DARK_CYAN);
   (GraphicsOptions.ForegroundRed, TextAttribute.SetIndexedForeground DARK_RED);
   (GraphicsOptions.ForegroundMagenta, TextAttribute.SetIndexedForeground DARK_MAGENTA);
   (GraphicsOptions.ForegroundYellow, TextAttribute.SetIndexedForeground DARK_YELLOW);
   (GraphicsOptions.ForegroundWhite, TextAttribute.SetIndexedForeground DARK_WHITE);
   (GraphicsOptions.BackgroundBlack, TextAttribute.SetIndexedBackground DARK_BLACK);
   (GraphicsOptions.BackgroundBlue, TextAttribute.SetIndexedBackground DARK_BLUE);
   (GraphicsOptions.BackgroundGreen, TextAttribute.SetIndexedBackground DARK_GREEN);
   (GraphicsOptions.BackgroundCyan, TextAttribute.SetIndexedBackground DARK_CYAN);
   (GraphicsOptions.BackgroundRed, TextAttribute.SetIndexedBackground DARK_RED);
   (GraphicsOptions.BackgroundMagenta, TextAttribute.SetIndexedBackground DARK_MAGENTA);
   (GraphicsOptions.BackgroundYellow, TextAttribute.SetIndexedBackground DARK_YELLOW);
   (GraphicsOptions.BackgroundWhite, TextAttribute.SetIndexedBackground DARK_WHITE);
   (GraphicsOptions.BrightForegroundBlack, TextAttribute.SetIndexedForeground BRIGHT_BLACK);
   (GraphicsOptions.BrightForegroundBlue, TextAttribute.SetIndexedForeground BRIGHT_BLUE);
   (GraphicsOptions.BrightForegroundGreen, TextAttribute.SetIndexedForeground BRIGHT_GREEN);
   (GraphicsOptions.BrightForegroundCyan, TextAttribute.SetIndexedForeground BRIGHT_CYAN);
   (GraphicsOptions.BrightForegroundRed, TextAttribute.SetIndexedForeground BRIGHT_RED);
   (GraphicsOptions.BrightForegroundMagenta, TextAttribute.SetIndexedForeground BRIGHT_MAGENTA);
   (GraphicsOptions.BrightForegroundYellow, TextAttribute.SetIndexedForeground BRIGHT_YELLOW);
   (GraphicsOptions.BrightForegroundWhite, TextAttribute.SetIndexedForeground BRIGHT_WHITE);
   (GraphicsOptions.BrightBackgroundBlack, TextAttribute.SetIndexedBackground BRIGHT_BLACK);
   (GraphicsOptions.BrightBackgroundBlue, TextAttribute.SetIndexedBackground BRIGHT_BLUE);
   (GraphicsOptions.BrightBackgroundGreen, TextAttribute.SetIndexedBackground BRIGHT_GREEN);
   (GraphicsOptions.BrightBackgroundCyan, TextAttribute.SetIndexedBackground BRIGHT_CYAN);
   (GraphicsOptions.BrightBackgroundRed, TextAttribute.SetIndexedBackground BRIGHT_RED);
   (GraphicsOptions.BrightBackgroundMagenta, TextAttribute.SetIndexedBackground BRIGHT_MAGENTA);
   (GraphicsOptions.BrightBackgroundYellow, TextAttribute.SetIndexedBackground BRIGHT_YELLOW);
   (GraphicsOptions.BrightBackgroundWhite, TextAttribute.SetIndexedBackground BRIGHT_WHITE)].

Definition _ApplyGraphicsOption (options : VTParameters) (optionIndex : nat) attr : nat * TextAttribute :=
  let opt := VTParameter.to_enum (VTParameters.at_ options optionIndex) in
  if VTParameters.hasSubParamsFor options optionIndex then
    (1%nat, _ApplyGraphicsOptionWithSubParams opt (VTParameters.subParamsFor options optionIndex) attr)
  else if opt =? GraphicsOptions.ForegroundExtended then
    let '(consumed, attr) := _SetRgbColorsHelper (VTParameters.subspan options (optionIndex + 1)) attr true in
    ((1 + consumed)%nat, attr)
  else if opt =? GraphicsOptions.BackgroundExtended then
    let '(consumed, attr) := _SetRgbColorsHelper (VTParameters.subspan options (optionIndex + 1)) attr false in
    ((1 + consumed)%nat, attr)
  else (1%nat, switch opt simpleOptions id attr).

(** The loop; every iteration consumes an option, so the number of options is enough fuel. *)
Fixpoint applyLoop (fuel : nat) (options : VTParameters) (i : nat) attr : option TextAttribute :=
  if (i <? VTParameters.size options)%nat then
    match fuel with
    | O => None
    | S fuel => let '(consumed, attr) := _ApplyGraphicsOption options i attr in applyLoop fuel options (i + consumed) attr
    end
  else Some attr.
Definition _ApplyGraphicsOptions (options : VTParameters) attr : option TextAttribute :=
  applyLoop (VTParameters.size options) options 0 attr.

(** ** [SgrStack] *)
Module SgrSaveRestoreStackOptions.
Definition All := 0.
Definition Intense := 1.
Definition Faintness := 2.
Definition Italics := 3.
Definition Underline := 4.
Definition Blink := 5.
Definition Negative := 7.
Definition Invisible := 8.
Definition CrossedOut := 9.
Definition DoublyUnderlined := 21.
Definition SaveForegroundColor := 30.
Definition SaveBackgroundColor := 31.
Definition Max := SaveBackgroundColor.
End SgrSaveRestoreStackOptions.

Definition c_MaxStoredSgrPushes : nat := 10.

Record SavedSgrAttributes := mkSavedSgrAttributes { TextAttributes : TextAttribute; ValidParts : enumset.t }.

Record SgrStack := mkSgrStack {
  _nextPushIndex : nat;
  _numSavedAttrs : nat;
  _storedSgrAttributes : list SavedSgrAttributes }.
Implicit Types (st : SgrStack).

Definition SgrStack_ctor : SgrStack :=
  mkSgrStack 0 0 (repeat (mkSavedSgrAttributes TextAttribute_ctor 0) c_MaxStoredSgrPushes).

(** The parts that the options of a push name. *)
Definition validPartsOf (options : VTParameters) : enumset.t :=
  if VTParameters.empty options then enumset.set 0 SgrSaveRestoreStackOptions.All true
  else fold_left (fun validParts i =>
         let option := VTParameter.value_or (VTParameters.at_ options i) 0 in
         if (SgrSaveRestoreStackOptions.All <? option) && (option <=? SgrSaveRestoreStackOptions.Max)
         then enumset.set validParts option true else validParts)
       (seq 0 (VTParameters.size options)) 0.

Definition Push (currentAttributes : TextAttribute) (options : VTParameters) st : SgrStack :=
  let size := length (_storedSgrAttributes st) in
  mkSgrStack ((_nextPushIndex st + 1) mod size)
    (if (_numSavedAttrs st <? size)%nat then _numSavedAttrs st + 1 else _numSavedAttrs st)
    (<[_nextPushIndex st := mkSavedSgrAttributes currentAttributes (validPartsOf options)]> (_storedSgrAttributes st)).

(** The underline of the result: the styles are restored as if there were one flag for the
    double underline and one for the others. *)
Definition combineUnderline (saved : Z) (isUnderlinedValid isDoublyUnderlinedValid : bool) (result : TextAttribute) : TextAttribute :=
  if isUnderlinedValid && isDoublyUnderlinedValid then TextAttribute.SetUnderlineStyle saved result
  else if isUnderlinedValid then
    if negb (saved =? NoUnderline) && negb (saved =? DoublyUnderlined) then TextAttribute.SetUnderlineStyle saved result
    else if negb (TextAttribute.GetUnderlineStyle result =? DoublyUnderlined) then TextAttribute.SetUnderlineStyle NoUnderline result
    else result
  else if isDoublyUnderlinedValid then
    if saved =? DoublyUnderlined then TextAttribute.SetUnderlineStyle DoublyUnderlined result
    else if TextAttribute.GetUnderlineStyle result =? DoublyUnderlined then TextAttribute.SetUnderlineStyle NoUnderline result
    else result
  else result.

(** [None]: the program is terminated by [FAIL_FAST_IF]. *)
Definition _CombineWithCurrentAttributes (currentAttributes savedAttribute : TextAttribute) (validParts : enumset.t) : option TextAttribute :=
  if enumset.test validParts SgrSaveRestoreStackOptions.All then None
  else
    let restore part (set : bool -> TextAttribute -> TextAttribute) (get : TextAttribute -> bool) result :=
      if enumset.test validParts part then set (get savedAttribute) result else result in
    let result := currentAttributes in
    let result := restore SgrSaveRestoreStackOptions.Intense TextAttribute.SetIntense TextAttribute.IsIntense result in
    let result := restore SgrSaveRestoreStackOptions.Faintness TextAttribute.SetFaint TextAttribute.IsFaint result in
    let result := restore SgrSaveRestoreStackOptions.Italics TextAttribute.SetItalic TextAttribute.IsItalic result in
    let result := combineUnderline (TextAttribute.GetUnderlineStyle savedAttribute)
                    (enumset.test validParts SgrSaveRestoreStackOptions.Underline)
                    (enumset.test validParts SgrSaveRestoreStackOptions.DoublyUnderlined) result in
    let result := restore SgrSaveRestoreStackOptions.Blink TextAttribute.SetBlinking TextAttribute.IsBlinking result in
    let result := restore SgrSaveRestoreStackOptions.Negative TextAttribute.SetReverseVideo TextAttribute.IsReverseVideo result in
    let result := restore SgrSaveRestoreStackOptions.Invisible TextAttribute.SetInvisible TextAttribute.IsInvisible result in
    let result := restore SgrSaveRestoreStackOptions.CrossedOut TextAttribute.SetCrossedOut TextAttribute.IsCrossedOut result in
    let result := if enumset.test validParts SgrSaveRestoreStackOptions.SaveForegroundColor
                  then TextAttribute.SetForeground (TextAttribute.GetForeground savedAttribute) result else result in
    let result := if enumset.test validParts SgrSaveRestoreStackOptions.SaveBackgroundColor
                  then TextAttribute.SetBackground (TextAttribute.GetBackground savedAttribute) result else result in
    Some result.

(** What a saved entry makes of the current attributes. *)
Definition restoreSaved (restoreMe : SavedSgrAttributes) (currentAttributes : TextAttribute) : option TextAttribute :=
  if enumset.test (ValidParts restoreMe) SgrSaveRestoreStackOptions.All then Some (TextAttributes restoreMe)
  else _CombineWithCurrentAttributes currentAttributes (TextAttributes restoreMe) (ValidParts restoreMe).

(** [None]: the program is terminated ([FAIL_FAST_IF], or [at] out of range in a [noexcept] function). *)
Definition Pop (currentAttributes : TextAttribute) st : option (SgrStack * TextAttribute) :=
  if (0 <? _numSavedAttrs st)%nat then
    let next := if (_nextPushIndex st =? 0)%nat then (length (_storedSgrAttributes st) - 1)%nat else (_nextPushIndex st - 1)%nat in
    restoreMe ← _storedSgrAttributes st !! next;
    result ← restoreSaved restoreMe currentAttributes;
    Some (mkSgrStack next (_numSavedAttrs st - 1) (_storedSgrAttributes st), result)
  else Some (st, currentAttributes).

(** ** The dispatcher's part: the attributes of the active page and the stack *)
Record Renditions := mkRenditions { pageAttributes : TextAttribute; _sgrStack : SgrStack }.
Implicit Types (r : Renditions).

Definition SetGraphicsRendition (options : VTParameters) r : option Renditions :=
  attr ← _ApplyGraphicsOptions options (pageAttributes r); Some (mkRenditions attr (_sgrStack r)).

Definition applyProtection (opt : Z) attr : TextAttribute :=
  switch opt
    [(LogicalAttributeOptions.Default, TextAttribute.SetProtected false attr);
     (LogicalAttributeOptions.Protected, TextAttribute.SetProtected true attr);
     (LogicalAttributeOptions.Unprotected, TextAttribute.SetProtected false attr)]
    attr.
Definition SetCharacterProtectionAttribute (options : VTParameters) r : Renditions :=
  mkRenditions
    (fold_left (fun attr i => applyProtection (VTParameter.to_enum (VTParameters.at_ options i)) attr)
       (seq 0 (VTParameters.size options)) (pageAttributes r))
    (_sgrStack r).

Definition PushGraphicsRendition (options : VTParameters) r : Renditions :=
  mkRenditions (pageAttributes r) (Push (pageAttributes r) options (_sgrStack r)).
Definition PopGraphicsRendition r : option Renditions :=
  '(st, attr) ← Pop (pageAttributes r) (_sgrStack r); Some (mkRenditions attr st).

(** ** The report *)
Definition addAttribute (parameter : string) (enabled : bool) : wstring := if enabled then L parameter else [].
Definition addColor (base : Z) (color : TextColor) : wstring :=
  if TextColor.IsIndex16_ color then
    let index := TextColor.GetIndex color in
    0x3B :: formatInt (base + (if 8 <=? index then 60 else 0) + index mod 8)
  else if TextColor.IsIndex256_ color then
    0x3B :: formatInt (base + 8) ++ L ":5:" ++ formatInt (TextColor.GetIndex color)
  else if TextColor.IsRgb_ color then
    let rgb := TextColor.GetRGB color in
    0x3B :: formatInt (base + 8) ++ L ":2::" ++ formatInt (GetRValue rgb) ++ 0x3A :: formatInt (GetGValue rgb)
      ++ 0x3A :: formatInt (GetBValue rgb)
  else [].

(** The parameters of the report, and the whole response. *)
Definition reportedParameters attr : wstring :=
  let ulStyle := TextAttribute.GetUnderlineStyle attr in
  L "0" ++ addAttribute ";1" (TextAttribute.IsIntense attr)
  ++ addAttribute ";2" (TextAttribute.IsFaint attr)
  ++ addAttribute ";3" (TextAttribute.IsItalic attr)
  ++ addAttribute ";4" (ulStyle =? SinglyUnderlined)
  ++ addAttribute ";4:3" (ulStyle =? CurlyUnderlined)
  ++ addAttribute ";4:4" (ulStyle =? DottedUnderlined)
  ++ addAttribute ";4:5" (ulStyle =? DashedUnderlined)
  ++ addAttribute ";5" (TextAttribute.IsBlinking attr)
  ++ addAttribute ";7" (TextAttribute.IsReverseVideo attr)
  ++ addAttribute ";8" (TextAttribute.IsInvisible attr)
  ++ addAttribute ";9" (TextAttribute.IsCrossedOut attr)
  ++ addAttribute ";21" (ulStyle =? DoublyUnderlined)
  ++ addAttribute ";53" (TextAttribute.IsOverlined attr)
  ++ addColor 30 (TextAttribute.GetForeground attr)
  ++ addColor 40 (TextAttribute.GetBackground attr)
  ++ addColor 50 (TextAttribute.GetUnderlineColor attr).
Definition _ReportSGRSetting r : wstring := L "1$r" ++ reportedParameters (pageAttributes r) ++ L "m".
