(* ===== verification/GraphicsTheorems.v ===== *)
(** * What graphic renditions guarantee

    SGR always ends; the stack of attributes is a stack of ten; a list of parameters with sub
    parameters, none of which takes its colour from the following ones, is applied one by one. *)
From S2P Require Import Prelude DispatchTypes StateMachine StateMachineInv StateMachineTotal.
From S2P Require Import StateMachineStream StateMachineGrammar StateMachineSubParams.
From S2P Require Import InputEvents.
From S2P Require Import TerminalInput.
From S2P Require Import InputInvariant.
From S2P Require Import TextColors.
From S2P Require Import TextAttributes.
From S2P Require Import Graphics.
Implicit Types (attr : TextAttribute) (st : SgrStack) (item : Item) (items : list Item).

(** ** The loop over the options *)
Lemma consumes_one options i attr : (1 <= (_ApplyGraphicsOption options i attr).1)%nat.
Proof. unfold _ApplyGraphicsOption, _SetRgbColorsHelper. repeat case_match; simplify_eq/=; lia. Qed.

Lemma applyLoop_some fuel options i attr : (VTParameters.size options <= i + fuel)%nat ->
  is_Some (applyLoop fuel options i attr).
Proof.
  revert i attr. induction fuel as [|fuel IH]; intros i attr Hf; cbn [applyLoop];
    destruct (Nat.ltb_spec i (VTParameters.size options)); [lia|by eexists| |by eexists].
  pose proof (consumes_one options i attr). destruct (_ApplyGraphicsOption options i attr) as [consumed attr'].
  apply IH. cbn in *. lia.
Qed.

Lemma ApplyGraphicsOptions_some options attr : is_Some (_ApplyGraphicsOptions options attr).
Proof. apply applyLoop_some. lia. Qed.

(** ** The stack *)

(** A plain stack of the last ten entries, the newest first. *)
Inductive SgrCall := CallPush (attr : TextAttribute) (options : VTParameters) | CallPop (attr : TextAttribute).

Definition spec_call (c : SgrCall) (l : list SavedSgrAttributes) : option (list SavedSgrAttributes * list TextAttribute) :=
  match c, l with
  | CallPush attr options, _ => Some (take c_MaxStoredSgrPushes (mkSavedSgrAttributes attr (validPartsOf options) :: l), [])
  | CallPop attr, [] => Some ([], [attr])
  | CallPop attr, saved :: l => result ← restoreSaved saved attr; Some (l, [result])
  end.
Definition stack_call (c : SgrCall) st : option (SgrStack * list TextAttribute) :=
  match c with
  | CallPush attr options => Some (Push attr options st, [])
  | CallPop attr => '(st, result) ← Pop attr st; Some (st, [result])
  end.

(** The results of a sequence of calls. *)
Fixpoint runSgr {S} (call : SgrCall -> S -> option (S * list TextAttribute)) (cs : list SgrCall) (x : S) : option (list TextAttribute) :=
  match cs with
  | [] => Some []
  | c :: cs => '(x, results) ← call c x; rest ← runSgr call cs x; Some (results ++ rest)
  end.

Record refines st (l : list SavedSgrAttributes) : Prop := {
  ref_size : length (_storedSgrAttributes st) = 10%nat;
  ref_next : (_nextPushIndex st < 10)%nat;
  ref_num : _numSavedAttrs st = length l;
  ref_max : (length l <= 10)%nat;
  ref_saved : forall k, (k < length l)%nat -> _storedSgrAttributes st !! ((_nextPushIndex st + 9 - k) mod 10)%nat = l !! k }.

Lemma refines_ctor : refines SgrStack_ctor [].
Proof. split; cbn; lia. Qed.

Lemma refines_push attr options st l : refines st l ->
  refines (Push attr options st) (take 10 (mkSavedSgrAttributes attr (validPartsOf options) :: l)).
Proof.
  intros [Hs Hn Hc Hm Hk]. unfold Push. rewrite Hs. set (e := mkSavedSgrAttributes attr (validPartsOf options)).
  split; cbn [_storedSgrAttributes _nextPushIndex _numSavedAttrs].
  - by rewrite length_insert.
  - apply Nat.mod_upper_bound. lia.
  - rewrite length_take. cbn [length]. rewrite Hc. destruct (Nat.ltb_spec (length l) 10); lia.
  - rewrite length_take. lia.
  - intros k Hlt. rewrite length_take in Hlt. cbn [length] in Hlt. rewrite lookup_take_lt by lia.
    destruct k as [|k].
    + replace (((_nextPushIndex st + 1) mod 10 + 9 - 0) mod 10)%nat with (_nextPushIndex st).
      * by rewrite list_lookup_insert_eq by lia.
      * destruct (Nat.eq_dec (_nextPushIndex st) 9) as [->|]; [done|]. rewrite (Nat.mod_small (_ + 1)) by lia.
        rewrite Nat.sub_0_r. replace (_nextPushIndex st + 1 + 9)%nat with (_nextPushIndex st + 1 * 10)%nat by lia.
        rewrite Nat.Div0.mod_add. by rewrite Nat.mod_small.
    + change ((e :: l) !! S k) with (l !! k). rewrite <- (Hk k) by lia.
      assert (Hidx : (((_nextPushIndex st + 1) mod 10 + 9 - S k) mod 10 = (_nextPushIndex st + 9 - k) mod 10)%nat).
      { destruct (Nat.eq_dec (_nextPushIndex st) 9) as [->|]; [|rewrite (Nat.mod_small (_ + 1)) by lia; f_equal; lia].
        change ((9 + 1) mod 10)%nat with 0%nat. replace (9 + 9 - k)%nat with (0 + 9 - S k + 1 * 10)%nat by lia.
        by rewrite Nat.Div0.mod_add. }
      rewrite Hidx. apply list_lookup_insert_ne. intros Heq.
      destruct (Nat.ltb_spec (_nextPushIndex st + 9 - k) 10); [rewrite Nat.mod_small in Heq by lia; lia|].
      replace (_nextPushIndex st + 9 - k)%nat with (_nextPushIndex st - 1 - k + 1 * 10)%nat in Heq by lia.
      rewrite Nat.Div0.mod_add, Nat.mod_small in Heq by lia. lia.
Qed.

Lemma refines_pop st saved l : refines st (saved :: l) ->
  let next := if (_nextPushIndex st =? 0)%nat then (length (_storedSgrAttributes st) - 1)%nat else (_nextPushIndex st - 1)%nat in
  _storedSgrAttributes st !! next = Some saved
  /\ refines (mkSgrStack next (_numSavedAttrs st - 1) (_storedSgrAttributes st)) l.
Proof.
  intros [Hs Hn Hc Hm Hk] next. cbn [length] in *.
  assert (Hnext : next = ((_nextPushIndex st + 9) mod 10)%nat).
  { unfold next. rewrite Hs. destruct (Nat.eqb_spec (_nextPushIndex st) 0) as [->|]; [done|].
    replace (_nextPushIndex st + 9)%nat with (_nextPushIndex st - 1 + 1 * 10)%nat by lia.
    rewrite Nat.Div0.mod_add. by rewrite Nat.mod_small by lia. }
  assert (Hlt : (next < 10)%nat) by (rewrite Hnext; apply Nat.mod_upper_bound; lia).
  clearbody next. split.
  - rewrite Hnext, <- (Nat.sub_0_r (_ + 9)). by rewrite (Hk 0%nat) by lia.
  - split; cbn [_storedSgrAttributes _nextPushIndex _numSavedAttrs]; [done|done|lia|lia|]. intros k Hlk. change (l !! k) with ((saved :: l) !! S k). rewrite <- (Hk (S k)) by lia. f_equal.
    destruct (Nat.eq_dec (_nextPushIndex st) 0) as [H0|H0].
    + rewrite H0 in *. change ((0 + 9) mod 10)%nat with 9%nat in Hnext. subst next.
      replace (9 + 9 - k)%nat with (0 + 9 - S k + 1 * 10)%nat by lia. apply Nat.Div0.mod_add.
    + replace (_nextPushIndex st + 9)%nat with (_nextPushIndex st - 1 + 1 * 10)%nat in Hnext by lia.
      rewrite Nat.Div0.mod_add, Nat.mod_small in Hnext by lia. f_equal. lia.
Qed.

(** A push saves everything or some parts, never both. *)
Lemma restoreSaved_some saved attr : is_Some (restoreSaved saved attr).
Proof. unfold restoreSaved, _CombineWithCurrentAttributes. destruct (enumset.test _ SgrSaveRestoreStackOptions.All); by eexists. Qed.

Lemma stack_step c st l : refines st l ->
  exists st' l' results, stack_call c st = Some (st', results) /\ spec_call c l = Some (l', results) /\ refines st' l'.
Proof.
  intros Hr. destruct c as [attr options|attr].
  - eexists _, _, []. split_and!; [done|done|by apply refines_push].
  - cbn [stack_call]. unfold Pop. rewrite (ref_num _ _ Hr). destruct l as [|saved l]; [by eexists _, _, _|].
    cbn [length Nat.ltb Nat.leb]. destruct (refines_pop st saved l Hr) as [Hl Hr']. rewrite Hl. cbn [mbind option_bind].
    destruct (restoreSaved_some saved attr) as [result Hres]. rewrite Hres. cbn [mbind option_bind spec_call]. rewrite Hres.
    eexists _, _, _. split_and!; [done|done|]. rewrite (ref_num _ _ Hr) in Hr'. exact Hr'.
Qed.

(** C36: the ring buffer of saved attributes is a stack of the last ten: any sequence of
    pushes and pops returns what it returns on a plain stack that drops its oldest entry
    when an eleventh is pushed; no call reads outside the buffer or fails, and a pop of an
    empty stack leaves the attributes as they are. *)
Theorem sgr_stack_refines calls :
  exists results, runSgr stack_call calls SgrStack_ctor = Some results /\ runSgr spec_call calls [] = Some results.
Proof.
  pose proof refines_ctor as Hr. revert Hr. generalize SgrStack_ctor (@nil SavedSgrAttributes).
  induction calls as [|c calls IH]; intros st l Hr; [by exists []|]. cbn [runSgr].
  destruct (stack_step c st l Hr) as (st' & l' & results & -> & -> & Hr'). cbn [mbind option_bind].
  destruct (IH st' l' Hr') as (rest & -> & ->). by eexists.
Qed.

(** ** Options with sub parameters *)

(** What the registers hold of each item. *)
Lemma registers_params items r : r_params (fold_left addItem items r) = r_params r ++ map (fun item => fieldValue item.1) items.
Proof.
  revert r. induction items as [|item items IH]; intros r; cbn [fold_left map]; [by rewrite app_nil_r|]. rewrite IH. cbn.
  by rewrite <- app_assoc.
Qed.
Lemma registers_subs items r : r_subs (fold_left addItem items r) = r_subs r ++ concat (map (fun item => map fieldValue item.2) items).
Proof.
  revert r. induction items as [|item items IH]; intros r; cbn [fold_left map concat]; [by rewrite app_nil_r|]. rewrite IH. cbn.
  by rewrite <- app_assoc.
Qed.
Lemma registers_ranges items r : exists more, length more = length items /\ r_ranges (fold_left addItem items r) = r_ranges r ++ more.
Proof.
  revert r. induction items as [|item items IH]; intros r; cbn [fold_left]; [by exists []; rewrite app_nil_r|].
  destruct (IH (addItem r item)) as (more & Hl & Hr). eexists (_ :: more). split; [cbn; by rewrite Hl|]. rewrite Hr. cbn.
  by rewrite <- app_assoc.
Qed.

Lemma itemParameters_size items : items <> [] -> VTParameters.size (itemParameters items) = length items.
Proof.
  intros Hne. unfold VTParameters.size, itemParameters, itemRegisters. cbn [_params]. rewrite registers_params. cbn [r_params noRegisters app].
  rewrite length_map. destruct items; [done|]. apply Nat.max_l. cbn. lia.
Qed.
Lemma itemParameters_at items i item : items !! i = Some item -> VTParameters.at_ (itemParameters items) i = fieldValue item.1.
Proof.
  intros Hi. unfold VTParameters.at_, itemParameters, itemRegisters. cbn [_params]. rewrite registers_params. cbn [r_params noRegisters app].
  pose proof (list_lookup_fmap (fun item : Item => fieldValue item.1) items i) as Hm. rewrite Hi in Hm.
  by change (map _ items) with ((fun item : Item => fieldValue item.1) <$> items); rewrite Hm.
Qed.

Lemma itemParameters_range items i item : items !! i = Some item ->
  exists n, _subParamRanges (itemParameters items) !! i = Some (Z.of_nat n, Z.of_nat n + Z.of_nat (length item.2))
    /\ take (length item.2) (drop n (_subParams (itemParameters items))) = map fieldValue item.2
    /\ (n + length item.2 <= length (_subParams (itemParameters items)))%nat.
Proof.
  intros Hi. apply list_elem_of_split_length in Hi as (pre & post & -> & ->). unfold itemParameters, itemRegisters. cbn [_subParamRanges _subParams].
  rewrite fold_left_app. set (r := fold_left addItem pre noRegisters). cbn [fold_left].
  destruct (registers_ranges pre noRegisters) as (mpre & Hlp & Hrp). destruct (registers_ranges post (addItem r item)) as (mpost & _ & Hrq).
  exists (length (r_subs r)). rewrite Hrq, registers_subs. cbn [r_ranges r_subs addItem]. split_and!.
  - fold r in Hrp. rewrite Hrp. cbn [r_ranges noRegisters app]. rewrite <- app_assoc. cbn [app]. rewrite <- Hlp.
    by rewrite list_lookup_middle.
  - rewrite <- app_assoc, drop_app_length. rewrite take_app_length'; [done|by rewrite length_map].
  - rewrite !length_app, length_map. lia.
Qed.

Lemma itemParameters_subs items i item : items !! i = Some item ->
  VTParameters.hasSubParamsFor (itemParameters items) i = negb (bool_decide (item.2 = []))
  /\ VTParameters.subParamsFor (itemParameters items) i = map fieldValue item.2.
Proof.
  intros Hi. destruct (itemParameters_range items i item Hi) as (n & Hr & Ht & Hl).
  unfold VTParameters.hasSubParamsFor, VTParameters.subParamsFor. rewrite Hr. split.
  - destruct (Z.gtb_spec (Z.of_nat n + Z.of_nat (length item.2)) (Z.of_nat n)) as [Hgt|Hle]; case_bool_decide as Hn; try done; exfalso;
      [rewrite Hn in Hgt; cbn in Hgt; lia|]. destruct item.2; [done|]. cbn in Hle. lia.
  - unfold VTSubParameters.subspan. rewrite Nat2Z.id. replace (Z.to_nat (Z.of_nat n + Z.of_nat (length item.2) - Z.of_nat n)) with (length item.2) by lia.
    exact Ht.
Qed.

(** What SGR does with an item. *)
Definition applyItem attr (item : Item) : TextAttribute :=
  let opt := VTParameter.to_enum (fieldValue item.1) in
  if bool_decide (item.2 = []) then switch opt simpleOptions id attr
  else _ApplyGraphicsOptionWithSubParams opt (map fieldValue item.2) attr.

(** Not the start of a colour that takes the following parameters. *)
Definition is_plain (item : Item) : Prop :=
  let opt := VTParameter.to_enum (fieldValue item.1) in
  item.2 = [] -> opt <> GraphicsOptions.ForegroundExtended /\ opt <> GraphicsOptions.BackgroundExtended.

Lemma applyOption_item items i item attr : items !! i = Some item -> is_plain item ->
  _ApplyGraphicsOption (itemParameters items) i attr = (1%nat, applyItem attr item).
Proof.
  intros Hi Hp. destruct (itemParameters_subs items i item Hi) as [Hh Hs]. unfold _ApplyGraphicsOption, applyItem, is_plain in *.
  rewrite (itemParameters_at items i item Hi), Hh, Hs. case_bool_decide as Hnil; [|done]. cbn [negb].
  destruct (Hp Hnil) as [H1 H2]. apply Z.eqb_neq in H1, H2. by rewrite H1, H2.
Qed.

Lemma applyLoop_items items fuel i attr : items <> [] -> Forall is_plain items -> (length items <= i + fuel)%nat ->
  applyLoop fuel (itemParameters items) i attr = Some (fold_left applyItem (drop i items) attr).
Proof.
  intros Hne Hp. revert i attr. induction fuel as [|fuel IH]; intros i attr Hf; cbn [applyLoop]; rewrite itemParameters_size by done;
    destruct (Nat.ltb_spec i (length items)); [lia|by rewrite drop_ge| |by rewrite drop_ge].
  destruct (lookup_lt_is_Some_2 items i) as [item Hi]; [done|].
  rewrite (applyOption_item items i item) by (done || by eapply Forall_lookup_1). rewrite IH by lia.
  rewrite (drop_S items item i Hi). cbn [fold_left]. by rewrite Nat.add_1_r.
Qed.

Lemma apply_items items attr : items <> [] -> Forall is_plain items ->
  _ApplyGraphicsOptions (itemParameters items) attr = Some (fold_left applyItem items attr).
Proof. intros Hne Hp. unfold _ApplyGraphicsOptions. rewrite applyLoop_items; [done|done|done|]. rewrite itemParameters_size by done. lia. Qed.
