(* ===== verification/GraphicsInvariant.v ===== *)
(** * The attributes a terminal can have, and their report

    The report that the terminal makes of its attributes, as a list of parameters with sub
    parameters; every operation on the graphic rendition keeps the attributes among those that
    SGR sets and that the report can express, and the report, sent back to the terminal, makes
    them again. *)

From S2P Require Import Prelude DispatchTypes VtUtils StateMachine StateMachineInv StateMachineTotal StateMachineStream StateMachineGrammar StateMachineSubParams InputEvents TerminalInput ITermDispatch OutputEngine InputInvariant TextColors TextAttributes Graphics GraphicsTheorems.

Implicit Types (attr : TextAttribute) (item : Item) (items : list Item).

(** ** The report as items *)
Definition NumItem : Type := Z * list (option Z).
Definition numField (v : option Z) : wstring := match v with Some n => formatUnsigned n | None => [] end.
Definition numItem (x : NumItem) : Item := (formatUnsigned x.1, map numField x.2).
Definition when (b : bool) (x : NumItem) : list NumItem := if b then [x] else [].

Definition flagItems attr : list NumItem :=
  let ulStyle := TextAttribute.GetUnderlineStyle attr in
  when (TextAttribute.IsIntense attr) (1, []) ++ when (TextAttribute.IsFaint attr) (2, [])
  ++ when (TextAttribute.IsItalic attr) (3, []) ++ when (ulStyle =? SinglyUnderlined) (4, [])
  ++ when (ulStyle =? CurlyUnderlined) (4, [Some 3]) ++ when (ulStyle =? DottedUnderlined) (4, [Some 4])
  ++ when (ulStyle =? DashedUnderlined) (4, [Some 5]) ++ when (TextAttribute.IsBlinking attr) (5, [])
  ++ when (TextAttribute.IsReverseVideo attr) (7, []) ++ when (TextAttribute.IsInvisible attr) (8, [])
  ++ when (TextAttribute.IsCrossedOut attr) (9, []) ++ when (ulStyle =? DoublyUnderlined) (21, [])
  ++ when (TextAttribute.IsOverlined attr) (53, []).

Definition colorItems (base : Z) (c : TextColor) : list NumItem :=
  match _meta c with
  | IsDefault => []
  | IsIndex16 => [(base + (if 8 <=? _index c then 60 else 0) + _index c mod 8, [])]
  | IsIndex256 => [(base + 8, [Some 5; Some (_index c)])]
  | IsRgb => [(base + 8, [Some 2; None; Some (_red c); Some (_green c); Some (_blue c)])]
  end.

Definition reportItems attr : list NumItem :=
  (0, []) :: flagItems attr ++ colorItems 30 (_foreground attr) ++ colorItems 40 (_background attr) ++ colorItems 50 (_underlineColor attr).

Definition itemsWire (xs : list NumItem) : wstring := moreItems (map numItem xs).
Lemma itemsWire_app xs ys : itemsWire (xs ++ ys) = itemsWire xs ++ itemsWire ys.
Proof. unfold itemsWire, moreItems. by rewrite !map_app, concat_app. Qed.

Lemma lor_shiftl a b n : 0 <= n -> 0 <= a < 2 ^ n -> Z.lor a (Z.shiftl b n) = a + b * 2 ^ n.
Proof.
  intros Hn Ha. rewrite <- Z.shiftl_mul_pow2 by done.
  assert (Hland : Z.land a (Z.shiftl b n) = 0); [|by rewrite Z.add_nocarry_lxor, Z.lxor_lor].
  apply Z.bits_inj'. intros k Hk. rewrite Z.land_spec, Z.bits_0, Z.shiftl_spec by done.
  destruct (Z.ltb_spec k n); [rewrite (Z.testbit_neg_r b) by lia; apply andb_false_r|].
  destruct (Z.eq_dec a 0) as [->|]; [by rewrite Z.bits_0|]. rewrite (Z.bits_above_log2 a); [done|lia|].
  assert (Z.log2 a < n) by (apply Z.log2_lt_pow2; lia). lia.
Qed.

Lemma RGB_bytes r g b : is_byte r -> is_byte g -> is_byte b ->
  GetRValue (RGB r g b) = r /\ GetGValue (RGB r g b) = g /\ GetBValue (RGB r g b) = b.
Proof.
  unfold is_byte. intros Hr Hg Hb. unfold RGB. rewrite (wrap_small 8 r), (wrap_small 8 g), (wrap_small 8 b) by (change (2 ^ 8) with 256; lia).
  rewrite (lor_shiftl r g 8) by lia. rewrite lor_shiftl by lia. change (2 ^ 8) with 256. change (2 ^ 16) with 65536.
  unfold GetRValue, GetGValue, GetBValue, wrap. rewrite !Z.shiftr_div_pow2 by lia.
  change (2 ^ 8) with 256. change (2 ^ 16) with 65536. split_and!; Z.to_euclidean_division_equations; lia.
Qed.

Lemma addColor_items base c : color_ok c -> base = 30 \/ base = 40 \/ base = 50 -> addColor base c = itemsWire (colorItems base c).
Proof.
  intros Hok Hb. destruct c as [r g b []]; destruct Hok as (Hr & Hg & Hbl & Hmeta); unfold is_byte in *; cbn [_meta _red _green _blue] in *;
    unfold itemsWire, moreItems, colorItems; cbn [map concat _meta _red _green _blue numItem numField fst snd itemText subText app].
  - done.
  - change (addColor base _) with (0x3B :: formatInt (base + (if 8 <=? r then 60 else 0) + r mod 8)).
    rewrite formatInt_nonneg by (pose proof (Z.mod_pos_bound r 8); case_match; lia). cbn. by rewrite !app_nil_r.
  - change (addColor base _) with (0x3B :: formatInt (base + 8) ++ [0x3A; 0x35; 0x3A] ++ formatInt r).
    rewrite !formatInt_nonneg by lia. cbn. by rewrite !app_nil_r.
  - pose (rgb := RGB r g b). change (addColor base _) with (0x3B :: formatInt (base + 8) ++ [0x3A; 0x32; 0x3A; 0x3A] ++ formatInt (GetRValue rgb)
      ++ 0x3A :: formatInt (GetGValue rgb) ++ 0x3A :: formatInt (GetBValue rgb)).
    unfold rgb. destruct (RGB_bytes r g b) as (-> & -> & ->); [unfold is_byte; lia..|].
    rewrite !formatInt_nonneg by lia. cbn. by rewrite !app_nil_r.
Qed.

Lemma addAttribute_items b parameter x : L parameter = itemsWire [x] -> addAttribute parameter b = itemsWire (when b x).
Proof. by destruct b. Qed.

(** The attributes that SGR sets and reports: no grid line other than the top one, no unused
    bit, a known underline style. *)
Definition underlineOf (A : Z) : Z := Z.shiftr (Z.land A CharacterAttributes.UnderlineStyle) UNDERLINE_STYLE_SHIFT.
Definition attrs_ok (A : Z) : bool :=
  (0 <=? A) && (A <? 65536) && (Z.land A 0x9A00 =? 0) && (underlineOf A <=? UnderlineStyle_Max).
Record sgr_ok attr : Prop := {
  ok_attrs : attrs_ok (_attrs attr) = true;
  ok_foreground : color_ok (_foreground attr);
  ok_background : color_ok (_background attr);
  ok_underlineColor : color_ok (_underlineColor attr);
  ok_underlineType : _meta (_underlineColor attr) <> IsIndex16 }.

Lemma report_items attr : sgr_ok attr -> reportedParameters attr = itemsText (map numItem (reportItems attr)).
Proof.
  intros [_ Hf Hb Hu _]. unfold reportedParameters, reportItems. cbn [map itemsText].
  change (moreItems (map numItem ?l)) with (itemsWire l). unfold flagItems. rewrite !itemsWire_app, <- !app_assoc.
  rewrite (addAttribute_items _ ";1" (1, [])), (addAttribute_items _ ";2" (2, [])), (addAttribute_items _ ";3" (3, [])),
    (addAttribute_items _ ";4" (4, [])), (addAttribute_items _ ";4:3" (4, [Some 3])), (addAttribute_items _ ";4:4" (4, [Some 4])),
    (addAttribute_items _ ";4:5" (4, [Some 5])), (addAttribute_items _ ";5" (5, [])), (addAttribute_items _ ";7" (7, [])),
    (addAttribute_items _ ";8" (8, [])), (addAttribute_items _ ";9" (9, [])), (addAttribute_items _ ";21" (21, [])),
    (addAttribute_items _ ";53" (53, [])) by reflexivity.
  rewrite !addColor_items by auto. reflexivity.
Qed.

(** ** What an item does, by its numbers *)
Definition num_ok (x : NumItem) : Prop :=
  is_parameter x.1 /\ Forall (fun v => match v with Some n => is_parameter n | None => True end) x.2 /\ (length x.2 <= 6)%nat.
Definition applyNum attr (x : NumItem) : TextAttribute :=
  if bool_decide (x.2 = []) then switch x.1 simpleOptions id attr
  else _ApplyGraphicsOptionWithSubParams x.1 (map (default VTParameter.omitted) x.2) attr.

Lemma numItem_ok x : num_ok x -> item_ok (numItem x).
Proof.
  assert (Hd : forall n, is_parameter n -> is_field (formatUnsigned n) /\ formatUnsigned n <> []).
  { unfold is_parameter. intros n Hn. destruct (formatUnsigned_spec n) as (? & ? & _); [lia|done]. }
  intros (Hp & Hs & Hl). split_and!; [by apply Hd..| |by cbn; rewrite length_map].
  cbn. apply Forall_map. eapply Forall_impl; [exact Hs|]. intros [n|] Hn; [by apply Hd|by constructor].
Qed.

Lemma numItem_values x : num_ok x ->
  VTParameter.to_enum (fieldValue (numItem x).1) = x.1 /\ map fieldValue (numItem x).2 = map (default VTParameter.omitted) x.2.
Proof.
  intros (Hp & Hs & _). cbn [numItem fst snd]. split.
  - rewrite fieldValue_format by done. unfold is_parameter in Hp. unfold VTParameter.to_enum, VTParameter.value_or.
    destruct (Z.ltb_spec x.1 0); [lia|done].
  - rewrite map_map. induction Hs as [|v vs Hv Hvs IH]; [done|]. cbn [map]. rewrite IH. f_equal.
    destruct v as [n|]; [by apply fieldValue_format|done].
Qed.

Lemma applyItem_num attr x : num_ok x -> applyItem attr (numItem x) = applyNum attr x.
Proof.
  intros Hx. destruct (numItem_values x Hx) as [H1 H2]. unfold applyItem, applyNum. rewrite H1, H2.
  rewrite (bool_decide_ext ((numItem x).2 = []) (x.2 = [])); [done|]. cbn. by destruct x.2.
Qed.

Lemma fold_applyNum xs attr : Forall num_ok xs -> fold_left applyItem (map numItem xs) attr = fold_left applyNum xs attr.
Proof.
  intros Hx. revert attr. induction Hx as [|x xs Hx Hxs IH]; intros attr; [done|]. cbn [map fold_left]. by rewrite applyItem_num, IH.
Qed.

(** ** The flags, for every value of the attributes *)

(** Every number of [n] bits that has none of [blocked], after the bits of [acc]. *)
Fixpoint allBits (blocked : Z) (n : nat) (f : Z -> bool) (acc : Z) : bool :=
  match n with
  | O => f acc
  | S n => allBits blocked n f (2 * acc) && (Z.testbit blocked (Z.of_nat n) || allBits blocked n f (2 * acc + 1))
  end.

Lemma top_bit A n : 0 <= n -> 2 ^ n <= A < 2 * 2 ^ n -> Z.testbit A n = true /\ A - 2 ^ n = Z.ldiff A (2 ^ n).
Proof.
  intros Hn HA. assert (Hbit : Z.testbit A n = true).
  { rewrite Z.testbit_true by done. replace (A / 2 ^ n) with 1; [done|]. apply (Z.div_unique_pos _ _ _ (A - 2 ^ n)); lia. }
  split; [done|]. apply Z.sub_nocarry_ldiff. apply Z.bits_inj'. intros k Hk. rewrite Z.ldiff_spec, Z.bits_0, Z.pow2_bits_eqb by done.
  destruct (Z.eqb_spec n k) as [<-|]; [by rewrite Hbit|done].
Qed.

Lemma allBits_spec blocked n f acc A : allBits blocked n f acc = true -> 0 <= A < 2 ^ Z.of_nat n -> Z.land A blocked = 0 ->
  f (acc * 2 ^ Z.of_nat n + A) = true.
Proof.
  revert acc A. induction n as [|n IH]; intros acc A Hall HA Hland; cbn [allBits] in Hall.
  - change (2 ^ Z.of_nat 0) with 1 in *. by replace (acc * 1 + A) with acc by lia.
  - apply andb_true_iff in Hall as [H0 H1]. rewrite Nat2Z.inj_succ, Z.pow_succ_r in * by lia.
    destruct (Z.ltb_spec A (2 ^ Z.of_nat n)).
    + specialize (IH (2 * acc) A H0). replace (acc * (2 * 2 ^ Z.of_nat n) + A) with (2 * acc * 2 ^ Z.of_nat n + A) by lia. apply IH; [lia|done].
    + destruct (top_bit A (Z.of_nat n)) as [Hbit Hsub]; [lia|lia|].
      assert (Hfree : Z.testbit blocked (Z.of_nat n) = false).
      { pose proof (Z.land_spec A blocked (Z.of_nat n)) as Hs. by rewrite Hland, Z.bits_0, Hbit in Hs. }
      rewrite Hfree in H1. specialize (IH (2 * acc + 1) (A - 2 ^ Z.of_nat n) H1).
      replace (acc * (2 * 2 ^ Z.of_nat n) + A) with ((2 * acc + 1) * 2 ^ Z.of_nat n + (A - 2 ^ Z.of_nat n)) by lia. apply IH; [lia|].
      rewrite Hsub. apply Z.bits_inj'. intros k Hk. pose proof (Z.land_spec A blocked k) as Hs. rewrite Hland, Z.bits_0 in Hs.
      rewrite Z.land_spec, Z.ldiff_spec, Z.bits_0. revert Hs. destruct (Z.testbit A k), (Z.testbit blocked k); cbn; try done; by rewrite ?andb_false_r.
Qed.

(** What holds of the attributes that SGR sets, by enumeration. *)
Lemma attrs_ok_all (f : Z -> bool) : allBits 0x9A00 16 (fun A => negb (attrs_ok A) || f A) 0 = true -> forall A, attrs_ok A = true -> f A = true.
Proof.
  intros Hall A HA. assert (0 <= A < 2 ^ Z.of_nat 16 /\ Z.land A 0x9A00 = 0) as [Hrange Hland].
  { change (2 ^ Z.of_nat 16) with 65536. pose proof HA as Hb. unfold attrs_ok in Hb. repeat apply andb_true_iff in Hb as [Hb ?]. lia. }
  pose proof (allBits_spec _ 16 _ 0 A Hall Hrange Hland) as Hf. cbn beta in Hf. rewrite Z.mul_0_l, Z.add_0_l, HA in Hf. exact Hf.
Qed.

(** A flag changes the character attributes only. *)
Definition withAttrs (A : Z) : TextAttribute := set_attrs A TextAttribute_ctor.
Definition applyFlag (A : Z) (x : NumItem) : Z := _attrs (applyNum (withAttrs A) x).
Definition knownFlags : list NumItem :=
  [(1, []); (2, []); (3, []); (4, []); (4, [Some 3]); (4, [Some 4]); (4, [Some 5]); (5, []); (7, []); (8, []); (9, []); (21, []); (53, [])].

Lemma applyNum_flag x attr : x ∈ knownFlags -> applyNum attr x = set_attrs (applyFlag (_attrs attr) x) attr.
Proof.
  intros Hx. destruct attr. unfold knownFlags in Hx. repeat (apply elem_of_cons in Hx as [->|Hx]; [reflexivity|]). by apply elem_of_nil in Hx.
Qed.

Lemma when_in b x (xs : list NumItem) : x ∈ xs -> Forall (fun y => y ∈ xs) (when b x).
Proof. intros Hx. destruct b; by repeat constructor. Qed.
Lemma flagItems_known attr : Forall (fun x => x ∈ knownFlags) (flagItems attr).
Proof. unfold flagItems. repeat (apply Forall_app; split); apply when_in; by_decide. Qed.

Lemma fold_flags xs attr : Forall (fun x => x ∈ knownFlags) xs ->
  fold_left applyNum xs attr = set_attrs (fold_left applyFlag xs (_attrs attr)) attr.
Proof.
  intros Hxs. revert attr. induction Hxs as [|x xs Hx Hxs IH]; intros attr; [by destruct attr|].
  cbn [fold_left]. rewrite applyNum_flag by done. rewrite IH. by destruct attr.
Qed.

Lemma flags_restored A P : attrs_ok A = true -> P = 0 \/ P = CharacterAttributes.Protected ->
  fold_left applyFlag (flagItems (withAttrs A)) P = Z.lor P (Z.ldiff A CharacterAttributes.Protected).
Proof.
  intros HA HP. apply Z.eqb_eq. revert A HA. destruct HP as [-> | ->]; apply attrs_ok_all; by vm_compute.
Qed.

(** ** The colours *)
Definition is_extended (opt : Z) : Prop :=
  opt = GraphicsOptions.ForegroundExtended \/ opt = GraphicsOptions.BackgroundExtended \/ opt = GraphicsOptions.UnderlineColor.

Lemma byte_value v : is_byte v -> VTParameter.value_or v 0 = v /\ (v <=? 255) = true.
Proof. unfold is_byte, VTParameter.value_or. intros Hv. destruct (Z.ltb_spec v 0); [lia|]. split; [done|]. by apply Z.leb_le; lia. Qed.

Lemma applyNum_indexed opt i attr : is_extended opt -> is_byte i ->
  applyNum attr (opt, [Some 5; Some i]) = applyColor opt (TextColor_indexed i true) attr.
Proof.
  intros Hopt Hi. destruct (byte_value i Hi) as [Hv Hle].
  assert (Heq : _SetRgbColorsHelperFromSubParams opt [5; i] attr = applyColor opt (TextColor_indexed i true) attr).
  { unfold _SetRgbColorsHelperFromSubParams. change (VTSubParameters.at_ [5; i] 1) with i.
    change (VTParameter.to_enum (VTSubParameters.at_ [5; i] 0)) with 5. rewrite Hv, Hle. reflexivity. }
  by destruct Hopt as [-> | [-> | ->]].
Qed.

Lemma TextColor_rgb_bytes r g b : is_byte r -> is_byte g -> is_byte b -> TextColor_rgb (RGB r g b) = mkTextColor r g b IsRgb.
Proof. intros Hr Hg Hb. unfold TextColor_rgb. by destruct (RGB_bytes r g b) as (-> & -> & ->). Qed.

Lemma applyNum_rgb opt r g b attr : is_extended opt -> is_byte r -> is_byte g -> is_byte b ->
  applyNum attr (opt, [Some 2; None; Some r; Some g; Some b]) = applyColor opt (mkTextColor r g b IsRgb) attr.
Proof.
  intros Hopt Hr Hg Hb. destruct (byte_value r Hr) as [Hvr Hr'], (byte_value g Hg) as [Hvg Hg'], (byte_value b Hb) as [Hvb Hb'].
  assert (Heq : _SetRgbColorsHelperFromSubParams opt [2; VTParameter.omitted; r; g; b] attr = applyColor opt (mkTextColor r g b IsRgb) attr).
  { unfold _SetRgbColorsHelperFromSubParams. set (options := [2; VTParameter.omitted; r; g; b]).
    change (VTSubParameters.at_ options 2) with r. change (VTSubParameters.at_ options 3) with g. change (VTSubParameters.at_ options 4) with b.
    change (VTParameter.to_enum (VTSubParameters.at_ options 0)) with 2. change (VTParameter.value_or (VTSubParameters.at_ options 1) 0) with 0.
    rewrite Hvr, Hvg, Hvb, Hr', Hg', Hb', TextColor_rgb_bytes by done. reflexivity. }
  by destruct Hopt as [-> | [-> | ->]].
Qed.

Lemma default_color c : color_ok c -> _meta c = IsDefault -> c = TextColor_default.
Proof. destruct c as [r g b m]. intros (_ & _ & _ & Hm) Hd. cbn in Hd, Hm. subst m. by destruct Hm as (-> & -> & ->). Qed.

(** The items of a colour set that colour, in a place where the default colour was. *)
Definition basicOption (base i : Z) : Z := base + (if 8 <=? i then 60 else 0) + i mod 8.
Lemma fold_color base (set : TextColor -> TextAttribute -> TextAttribute) c attr :
  is_extended (base + 8) -> (forall c, applyColor (base + 8) c attr = set c attr) ->
  (_meta c = IsIndex16 -> Forall (fun i => applyNum attr (basicOption base i, []) = set (TextColor_indexed i false) attr) indices16) ->
  set TextColor_default attr = attr -> color_ok c ->
  fold_left applyNum (colorItems base c) attr = set c attr.
Proof.
  intros Hext Happly H16 Hdef Hc. destruct c as [r g b m]. destruct Hc as (Hr & Hg & Hb & Hm). cbn [_meta _red _green _blue] in *.
  destruct m; unfold colorItems; cbn [_meta _index _red _green _blue fold_left].
  - by destruct Hm as (-> & -> & ->).
  - destruct Hm as (Hlt & -> & ->). unfold is_byte in Hr. specialize (H16 eq_refl). rewrite Forall_forall in H16.
    apply (H16 r), elem_indices16. unfold is_index16. lia.
  - destruct Hm as (-> & ->). by rewrite applyNum_indexed, Happly.
  - by rewrite applyNum_rgb, Happly.
Qed.

Lemma fold_colors fg bg ul A h m : color_ok fg -> color_ok bg -> color_ok ul -> _meta ul <> IsIndex16 ->
  fold_left applyNum (colorItems 30 fg ++ colorItems 40 bg ++ colorItems 50 ul)
    (mkTextAttribute A h TextColor_default TextColor_default TextColor_default m)
  = mkTextAttribute A h fg bg ul m.
Proof.
  intros Hf Hb Hu Hn. rewrite !fold_left_app.
  rewrite (fold_color 30 set_foreground); [|by left|done|intros _; by repeat constructor|done|done].
  rewrite (fold_color 40 set_background); [|by right; left|done|intros _; by repeat constructor|done|done].
  rewrite (fold_color 50 set_underlineColor); [done|by right; right|done|done|done|done].
Qed.

(** ** The whole report *)

(** The attributes that a report of [attr] makes of [cur]: protection is not a rendition. *)
Definition restoredFrom attr (cur : TextAttribute) : TextAttribute :=
  mkTextAttribute (Z.lor (Z.land (_attrs cur) CharacterAttributes.Protected) (Z.ldiff (_attrs attr) CharacterAttributes.Protected))
    (_hyperlinkId cur) (_foreground attr) (_background attr) (_underlineColor attr) (_markKind cur).

Lemma off_attrs A : 0 <= A < 65536 -> Z.ldiff A CharacterAttributes.Rendition = Z.land A CharacterAttributes.Protected.
Proof.
  intros HA. change CharacterAttributes.Rendition with (Z.ldiff (Z.ones 16) CharacterAttributes.Protected).
  rewrite !Z.ldiff_land, Z.lnot_land, Z.lnot_involutive, Z.land_lor_distr_r, <- Z.ldiff_land.
  rewrite Z.ldiff_ones_r_low; [done|lia|]. destruct (Z.eq_dec A 0) as [->|]; [done|]. apply Z.log2_lt_pow2; [lia|]. change (2 ^ 16) with 65536. lia.
Qed.
Lemma protected_attrs A : Z.land A CharacterAttributes.Protected = 0 \/ Z.land A CharacterAttributes.Protected = CharacterAttributes.Protected.
Proof.
  change CharacterAttributes.Protected with (2 ^ 13). destruct (Z.testbit A 13) eqn:Hb; [right|left]; apply Z.bits_inj'; intros n Hn;
    rewrite Z.land_spec, ?Z.bits_0, !Z.pow2_bits_eqb by lia; destruct (Z.eqb_spec 13 n) as [<-|]; by rewrite ?Hb, ?andb_false_r.
Qed.

Lemma fold_report attr cur : sgr_ok attr -> 0 <= _attrs cur < 65536 ->
  fold_left applyNum (reportItems attr) cur = restoredFrom attr cur.
Proof.
  intros [Ha Hf Hb Hu Hn] Hcur. unfold reportItems. cbn [fold_left]. rewrite fold_left_app.
  change (applyNum cur (0, [])) with (mkTextAttribute (Z.ldiff (_attrs cur) CharacterAttributes.Rendition) (_hyperlinkId cur)
    TextColor_default TextColor_default TextColor_default (_markKind cur)).
  rewrite (fold_flags (flagItems attr)) by apply flagItems_known. cbn [_attrs set_attrs _hyperlinkId _foreground _background _underlineColor _markKind].
  change (flagItems attr) with (flagItems (withAttrs (_attrs attr))).
  rewrite off_attrs, flags_restored by (done || apply protected_attrs). by apply fold_colors.
Qed.

Definition plain_num (x : NumItem) : Prop := num_ok x /\ (x.2 = [] -> x.1 <> 38 /\ x.1 <> 48).
Lemma plain_num_plain x : plain_num x -> is_plain (numItem x).
Proof.
  intros [Hok Hp]. destruct (numItem_values x Hok) as [H1 _]. unfold is_plain. rewrite H1. intros Hn. apply Hp. cbn in Hn. by destruct x.2.
Qed.

Lemma flagItems_plain attr : Forall plain_num (flagItems attr).
Proof.
  eapply Forall_impl; [apply flagItems_known|]. apply Forall_forall. unfold plain_num, num_ok, is_parameter.
  repeat constructor; cbn; lia.
Qed.
Lemma colorItems_plain base c : color_ok c -> (base = 50 -> _meta c <> IsIndex16) -> base = 30 \/ base = 40 \/ base = 50 ->
  Forall plain_num (colorItems base c).
Proof.
  intros (Hr & Hg & Hb & Hm) H50 Hbase. unfold colorItems, plain_num, num_ok, is_parameter, _index, is_byte in *.
  pose proof (Z.mod_pos_bound (_red c) 8 ltac:(lia)). destruct (_meta c) eqn:E.
  - apply Forall_nil_2.
  - apply Forall_singleton. destruct Hbase as [-> | [-> | ->]]; [..|by destruct (H50 eq_refl)];
      cbn [fst snd length]; split_and!; try apply Forall_nil_2; intros; first [lia|case_match; lia|cbn; lia].
  - apply Forall_singleton. cbn [fst snd length]. split_and!; [lia..|repeat constructor; lia|lia|done].
  - apply Forall_singleton. cbn [fst snd length]. split_and!; [lia..|repeat constructor; lia|lia|done].
Qed.

Lemma when_length b x : (length (when b x) <= 1)%nat.
Proof. destruct b; cbn; lia. Qed.
Lemma colorItems_length base c : (length (colorItems base c) <= 1)%nat.
Proof. unfold colorItems. destruct (_meta c); cbn; lia. Qed.
Lemma reportItems_length attr : (length (reportItems attr) <= MAX_PARAMETER_COUNT)%nat.
Proof.
  unfold reportItems, flagItems, MAX_PARAMETER_COUNT. cbn [length]. rewrite !length_app.
  repeat match goal with |- context [length (when ?b ?x)] => pose proof (when_length b x); generalize dependent (length (when b x)); intros end.
  repeat match goal with |- context [length (colorItems ?b ?x)] => pose proof (colorItems_length b x); generalize dependent (length (colorItems b x)); intros end.
  lia.
Qed.

Lemma report_plain attr : sgr_ok attr -> Forall plain_num (reportItems attr).
Proof.
  intros [_ Hf Hb Hu Hn]. unfold reportItems. apply Forall_cons. split; [by repeat split; cbn; unfold is_parameter; try lia; constructor|].
  rewrite !Forall_app. split_and!; [apply flagItems_plain|by apply colorItems_plain; auto..].
Qed.

Lemma report_items_ok attr : sgr_ok attr -> items_ok (map numItem (reportItems attr)).
Proof.
  intros Hok. split; [|rewrite length_map; apply reportItems_length]. apply Forall_map.
  eapply Forall_impl; [by apply report_plain|]. intros x [Hx _]. by apply numItem_ok.
Qed.

(** The report, applied. *)
Lemma apply_report attr cur : sgr_ok attr -> 0 <= _attrs cur < 65536 ->
  _ApplyGraphicsOptions (itemParameters (map numItem (reportItems attr))) cur = Some (restoredFrom attr cur).
Proof.
  intros Hok Hcur. pose proof (report_plain attr Hok) as Hp. rewrite apply_items; [|done|].
  - rewrite fold_applyNum, fold_report; [done..|]. eapply Forall_impl; [exact Hp|]. by intros x [].
  - apply Forall_map. eapply Forall_impl; [exact Hp|]. apply plain_num_plain.
Qed.

(** ** The attributes a terminal can have

    Every operation on the graphic rendition keeps the attributes among those that SGR sets
    and that the report can express, and the report, sent back to the terminal, makes them
    again. *)

Implicit Types (r : Renditions) (st : SgrStack).

(** ** One operation *)
Create HintDb sgr.

Definition sgrFlags : list Z :=
  [CharacterAttributes.Intense; CharacterAttributes.Faint; CharacterAttributes.Italics; CharacterAttributes.Blinking;
   CharacterAttributes.Invisible; CharacterAttributes.CrossedOut; CharacterAttributes.TopGridline;
   CharacterAttributes.ReverseVideo; CharacterAttributes.Protected].

Lemma update_attrs_ok f b A : f ∈ sgrFlags -> attrs_ok A = true -> attrs_ok (WI_UpdateFlag A f b) = true.
Proof.
  intros Hf HA. assert (Hall : forallb (fun f => attrs_ok (WI_UpdateFlag A f b)) sgrFlags = true).
  { revert A HA. destruct b; apply attrs_ok_all; by vm_compute. }
  rewrite forallb_forall in Hall. apply Hall. by apply list_elem_of_In.
Qed.
Lemma style_attrs_ok style A : 0 <= style <= UnderlineStyle_Max -> attrs_ok A = true ->
  attrs_ok (Z.lor (Z.ldiff A CharacterAttributes.UnderlineStyle) (Z.shiftl style UNDERLINE_STYLE_SHIFT)) = true.
Proof.
  unfold UnderlineStyle_Max, DashedUnderlined. intros Hs. revert A.
  assert (style = 0 \/ style = 1 \/ style = 2 \/ style = 3 \/ style = 4 \/ style = 5) as [->|[->|[->|[->|[-> | ->]]]]] by lia;
    apply attrs_ok_all; by vm_compute.
Qed.
Lemma off_attrs_ok A : attrs_ok A = true -> attrs_ok (Z.ldiff A CharacterAttributes.Rendition) = true.
Proof. revert A. apply attrs_ok_all. by vm_compute. Qed.

Lemma set_attrs_ok A attr : attrs_ok A = true -> sgr_ok attr -> sgr_ok (set_attrs A attr).
Proof. by intros HA []. Qed.
Lemma update_ok f b attr : f ∈ sgrFlags -> sgr_ok attr -> sgr_ok (TextAttribute.update f b attr).
Proof. intros Hf Hok. apply set_attrs_ok; [|done]. apply update_attrs_ok; [done|apply Hok]. Qed.
Lemma SetUnderlineStyle_ok style attr : 0 <= style <= UnderlineStyle_Max -> sgr_ok attr -> sgr_ok (TextAttribute.SetUnderlineStyle style attr).
Proof. intros Hs Hok. apply set_attrs_ok; [|done]. apply style_attrs_ok; [done|apply Hok]. Qed.
Lemma set_foreground_ok c attr : color_ok c -> sgr_ok attr -> sgr_ok (set_foreground c attr).
Proof. by intros Hc []. Qed.
Lemma set_background_ok c attr : color_ok c -> sgr_ok attr -> sgr_ok (set_background c attr).
Proof. by intros Hc []. Qed.
Lemma set_underlineColor_ok c attr : color_ok c -> _meta c <> IsIndex16 -> sgr_ok attr -> sgr_ok (set_underlineColor c attr).
Proof. by intros Hc Hn []. Qed.

Lemma GetUnderlineStyle_ok attr : sgr_ok attr -> 0 <= TextAttribute.GetUnderlineStyle attr <= UnderlineStyle_Max.
Proof.
  intros [Ha _ _ _ _]. unfold attrs_ok in Ha. repeat apply andb_true_iff in Ha as [Ha ?].
  change (TextAttribute.GetUnderlineStyle attr) with (underlineOf (_attrs attr)). split; [|by apply Z.leb_le].
  apply Z.shiftr_nonneg, Z.land_nonneg. by right.
Qed.

Lemma default_ok : color_ok TextColor_default.
Proof. by repeat split. Qed.
Lemma indexed16_ok i : 0 <= i < 16 -> color_ok (TextColor_indexed i false).
Proof. intros Hi. unfold color_ok, is_byte. cbn. split_and!; (done || lia). Qed.
Lemma indexed256_ok i : 0 <= i < 256 -> color_ok (TextColor_indexed i true).
Proof. intros Hi. unfold color_ok, is_byte. cbn. split_and!; (done || lia). Qed.
Lemma rgb_ok v : color_ok (TextColor_rgb v).
Proof.
  pose proof (fun z => wrap_bound 8 z ltac:(lia)) as Hw. change (2 ^ 8) with 256 in Hw.
  unfold color_ok, TextColor_rgb, is_byte. cbn [_red _green _blue _meta]. split_and!; try done; apply Hw.
Qed.

#[export] Hint Resolve update_ok SetUnderlineStyle_ok set_foreground_ok set_background_ok set_underlineColor_ok
  default_ok indexed16_ok indexed256_ok rgb_ok : sgr.

Definition keeps_ok (f : TextAttribute -> TextAttribute) : Prop := forall attr, sgr_ok attr -> sgr_ok (f attr).

Lemma simpleOptions_ok : Forall (fun o => keeps_ok o.2) simpleOptions.
Proof.
  unfold simpleOptions.
  repeat (apply Forall_cons; split; [intros attr Hok; cbn [snd]|]); [..|apply Forall_nil_2].
  { apply set_attrs_ok; [apply off_attrs_ok, Hok|]. apply set_underlineColor_ok; [apply default_ok|done|].
    apply set_background_ok; [apply default_ok|]. apply set_foreground_ok; [apply default_ok|done]. }
  all: first
    [ apply update_ok; [by_decide|done]
    | apply SetUnderlineStyle_ok; [done|done]
    | apply set_foreground_ok; [first [apply default_ok|apply indexed16_ok; done]|done]
    | apply set_background_ok; [first [apply default_ok|apply indexed16_ok; done]|done]
    | apply set_underlineColor_ok; [apply default_ok|done|done]
    | apply update_ok; [by_decide|apply update_ok; [by_decide|done]] ].
Qed.

Lemma switch_ok opt : keeps_ok (switch opt simpleOptions id).
Proof.
  pose proof simpleOptions_ok as Hall. induction Hall as [|[label f] cases Hf Hcs IH]; [by intros attr Hok|].
  cbn [switch]. by destruct (opt =? label).
Qed.

Lemma SetUnderlineStyleHelper_ok option : keeps_ok (_SetUnderlineStyleHelper option).
Proof.
  intros attr Hok. unfold _SetUnderlineStyleHelper. destruct (Z.leb_spec 0 (VTParameter.value_or option 0)); [|done].
  destruct (Z.leb_spec (VTParameter.value_or option 0) UnderlineStyle_Max); [|done]. cbn [andb]. by apply SetUnderlineStyle_ok.
Qed.

Lemma index_ok p : (VTParameter.value_or p 0 <=? 255) = true -> color_ok (TextColor_indexed (VTParameter.value_or p 0) true).
Proof. intros Hle%Z.leb_le. pose proof (value_or_nonneg p). apply indexed256_ok. lia. Qed.
#[export] Hint Resolve index_ok switch_ok SetUnderlineStyleHelper_ok : sgr.

Lemma SetRgbColorsHelper_ok options isForeground : keeps_ok (fun attr => (_SetRgbColorsHelper options attr isForeground).2).
Proof.
  intros attr Hok. unfold _SetRgbColorsHelper, TextAttribute.SetColor, TextAttribute.SetForegroundRgb, TextAttribute.SetBackgroundRgb,
    TextAttribute.SetIndexedForeground256, TextAttribute.SetIndexedBackground256.
  repeat case_match; cbn [snd]; auto with sgr.
Qed.

Lemma applyColor_ok colorItem c attr : color_ok c -> _meta c <> IsIndex16 -> sgr_ok attr -> sgr_ok (applyColor colorItem c attr).
Proof.
  intros Hc Hn Hok. unfold applyColor, TextAttribute.SetForeground, TextAttribute.SetBackground, TextAttribute.SetUnderlineColor.
  cbn [switch]. repeat case_match; auto with sgr.
Qed.

Lemma SetRgbColorsHelperFromSubParams_ok colorItem options : keeps_ok (_SetRgbColorsHelperFromSubParams colorItem options).
Proof.
  intros attr Hok. unfold _SetRgbColorsHelperFromSubParams. repeat case_match; try done; apply applyColor_ok; auto with sgr; done.
Qed.

Lemma ApplyGraphicsOption_ok options i : keeps_ok (fun attr => (_ApplyGraphicsOption options i attr).2).
Proof.
  intros attr Hok. unfold _ApplyGraphicsOption, _ApplyGraphicsOptionWithSubParams.
  pose proof (SetRgbColorsHelper_ok (VTParameters.subspan options (i + 1)) true attr Hok) as Hfg.
  pose proof (SetRgbColorsHelper_ok (VTParameters.subspan options (i + 1)) false attr Hok) as Hbg.
  cbn beta in Hfg, Hbg. destruct (_SetRgbColorsHelper _ attr true), (_SetRgbColorsHelper _ attr false).
  repeat case_match; cbn [snd] in *; try done;
    first [by apply SetUnderlineStyleHelper_ok|by apply SetRgbColorsHelperFromSubParams_ok|by apply switch_ok].
Qed.

Lemma applyLoop_ok fuel options i attr attr' : sgr_ok attr -> applyLoop fuel options i attr = Some attr' -> sgr_ok attr'.
Proof.
  revert i attr. induction fuel as [|fuel IH]; intros i attr Hok; cbn [applyLoop]; destruct (_ <? _)%nat; [done|by intros [= <-]| |by intros [= <-]].
  pose proof (ApplyGraphicsOption_ok options i attr Hok) as Ho. cbn beta in Ho. destruct (_ApplyGraphicsOption options i attr). by apply IH.
Qed.

(** ** The stack *)
Lemma combineUnderline_ok saved b b' : 0 <= saved <= UnderlineStyle_Max -> keeps_ok (combineUnderline saved b b').
Proof. intros Hs attr Hok. unfold combineUnderline. repeat case_match; try done; apply SetUnderlineStyle_ok; (done || exact Hs). Qed.

Lemma restoreSaved_ok saved attr attr' : sgr_ok (TextAttributes saved) -> sgr_ok attr -> restoreSaved saved attr = Some attr' -> sgr_ok attr'.
Proof.
  intros Hs Hok. unfold restoreSaved, _CombineWithCurrentAttributes.
  destruct (enumset.test _ SgrSaveRestoreStackOptions.All); [by intros [= <-]|]. intros [= <-].
  unfold TextAttribute.SetForeground, TextAttribute.SetBackground.
  assert (Hu : forall (test : bool) f get attr, f ∈ sgrFlags -> sgr_ok attr ->
    sgr_ok (if test then TextAttribute.update f (get (TextAttributes saved)) attr else attr)).
  { intros [] f get a Hf Ha; [by apply update_ok|done]. }
  assert (Hfg : forall (test : bool) attr, sgr_ok attr -> sgr_ok (if test then set_foreground (TextAttribute.GetForeground (TextAttributes saved)) attr else attr)).
  { intros [] a Ha; [|done]. apply set_foreground_ok; [apply Hs|done]. }
  assert (Hbg : forall (test : bool) attr, sgr_ok attr -> sgr_ok (if test then set_background (TextAttribute.GetBackground (TextAttributes saved)) attr else attr)).
  { intros [] a Ha; [|done]. apply set_background_ok; [apply Hs|done]. }
  apply Hbg, Hfg. do 4 (apply Hu; [by_decide|]). apply combineUnderline_ok; [by apply GetUnderlineStyle_ok|].
  do 3 (apply Hu; [by_decide|]). done.
Qed.

(** ** Every sequence of operations *)
Record renditions_ok r : Prop := {
  page_ok : sgr_ok (pageAttributes r);
  saved_ok : Forall (fun saved => sgr_ok (TextAttributes saved)) (_storedSgrAttributes (_sgrStack r));
  stack_ok : exists l, refines (_sgrStack r) l }.

Inductive RenditionCall :=
| CallSetGraphicsRendition (options : VTParameters)
| CallSetCharacterProtectionAttribute (options : VTParameters)
| CallPushGraphicsRendition (options : VTParameters)
| CallPopGraphicsRendition.
Definition renditionCall (c : RenditionCall) r : option Renditions :=
  match c with
  | CallSetGraphicsRendition options => SetGraphicsRendition options r
  | CallSetCharacterProtectionAttribute options => Some (SetCharacterProtectionAttribute options r)
  | CallPushGraphicsRendition options => Some (PushGraphicsRendition options r)
  | CallPopGraphicsRendition => PopGraphicsRendition r
  end.
Fixpoint runRenditions (cs : list RenditionCall) r : option Renditions :=
  match cs with [] => Some r | c :: cs => r ← renditionCall c r; runRenditions cs r end.
Definition initialRenditions : Renditions := mkRenditions TextAttribute_ctor SgrStack_ctor.

Lemma initialRenditions_ok : renditions_ok initialRenditions.
Proof.
  split; [by repeat split| |by exists []; apply refines_ctor].
  apply Forall_forall. intros saved Hin%list_elem_of_In%repeat_spec. rewrite Hin. by repeat split.
Qed.

Lemma applyProtection_ok opt : keeps_ok (applyProtection opt).
Proof. intros attr Hok. unfold applyProtection. cbn [switch]. repeat case_match; try done; (apply update_ok; [by_decide|done]). Qed.

Lemma renditionCall_ok c r : renditions_ok r -> exists r', renditionCall c r = Some r' /\ renditions_ok r'.
Proof.
  intros [Hp Hs [l Hl]]. destruct c as [options|options|options|]; cbn [renditionCall].
  - unfold SetGraphicsRendition. destruct (ApplyGraphicsOptions_some options (pageAttributes r)) as [attr Ha]. rewrite Ha.
    eexists. split; [done|]. split; cbn; [by eapply applyLoop_ok|done|by exists l].
  - eexists. split; [done|]. split; cbn; [|done|by exists l]. generalize (seq 0 (VTParameters.size options)) as indices. intros indices.
    revert Hp. generalize (pageAttributes r). induction indices as [|i indices IH]; intros attr Hok; [done|]. cbn [fold_left]. by apply IH, applyProtection_ok.
  - eexists. split; [done|]. split; cbn; [done| |eexists; by apply refines_push]. by apply Forall_insert.
  - unfold PopGraphicsRendition.
    destruct (stack_step (CallPop (pageAttributes r)) (_sgrStack r) l Hl) as (st' & l' & results & Hc & _ & Hr).
    cbn [stack_call] in Hc. destruct (Pop (pageAttributes r) (_sgrStack r)) as [[st attr]|] eqn:Hpop; [|done]. cbn in Hc |- *.
    injection Hc as <- <-. eexists. split; [done|]. unfold Pop in Hpop. destruct (_ <? _)%nat; [|by simplify_eq; split; [..|exists l']].
    destruct (_storedSgrAttributes (_sgrStack r) !! _) as [saved|] eqn:Hsv; [|done]. cbn in Hpop.
    destruct (restoreSaved saved (pageAttributes r)) as [res|] eqn:Hres; [|done]. cbn in Hpop. simplify_eq.
    split; cbn; [|done|by exists l']. eapply restoreSaved_ok; [|exact Hp|exact Hres]. by eapply (Forall_lookup_1 (fun saved => sgr_ok (TextAttributes saved))).
Qed.

Lemma runRenditions_ok cs r : renditions_ok r -> exists r', runRenditions cs r = Some r' /\ renditions_ok r'.
Proof.
  revert r. induction cs as [|c cs IH]; intros r Hr; [by exists r|]. cbn [runRenditions].
  destruct (renditionCall_ok c r Hr) as (r1 & -> & Hr1). by apply IH.
Qed.

(** C37: every sequence of SGR, DECSCA, XTPUSHSGR and XTPOPSGR, with any parameters and sub
    parameters, runs to its end from the initial attributes, and leaves attributes that SGR
    can express: colours that exist, an underline style from the enumeration, an underline
    colour outside the 16 basic ones, no unused bit; as do the attributes on the stack. *)
Theorem renditions_invariant cs : exists r, runRenditions cs initialRenditions = Some r /\ renditions_ok r.
Proof. apply runRenditions_ok, initialRenditions_ok. Qed.

(** ** The report comes back *)

(** What a dispatcher does with SGR: [renditions] are the attributes of its active page and
    its stack. *)
Class RenditionDispatch {D H CB : Type} {dispatch : TermDispatch D H CB} (renditions : D -> Renditions) : Prop := {
  sets_rendition : forall options v d r, SetGraphicsRendition options (renditions d) = Some r ->
    exists d', memberCall (ITermDispatch.SetGraphicsRendition options) v d = (d', [], Returned tt) /\ renditions d' = r }.

Section Report.
Context {D H CB : Type} {dispatch : TermDispatch D H CB} (u8u16 : bytes -> option wstring).
Context (renditions : D -> Renditions) `{!RenditionDispatch renditions}.
Abbreviation Terminal := (StateMachine (OutputStateMachineEngine D) H CB).

(** The response to a request for the graphic rendition, [1$r...m], as the control sequence
    that an application sends back. *)
Definition asSequence (response : wstring) : wstring := [AsciiChars.ESC; 0x5B] ++ drop 3 response.

(** C35: the report of the graphic rendition can be sent back. After any sequence of SGR,
    DECSCA, XTPUSHSGR and XTPOPSGR, the parameters that the terminal reports, sent to a
    terminal as SGR, pass the parser and the engine and give that terminal the same
    character attributes, foreground, background and underline colour; what is left of the
    attributes it had is the protection, the hyperlink and the mark, and its stack. *)
Theorem sgr_report_roundtrip cs r fuel processString (s : Terminal) :
  runRenditions cs initialRenditions = Some r ->
  _state s = Ground -> GetParserMode Ansi s = true -> (0 < fuel)%nat -> _onCsiCompleteCallback s = None ->
  0 <= _attrs (pageAttributes (renditions (_dispatch (_engine s)))) < 65536 ->
  twp (feed (engine := output_engine u8u16) fuel processString (asSequence (_ReportSGRSetting r)))
    (fun _ s' => _state s' = Ground
       /\ renditions (_dispatch (_engine s'))
          = mkRenditions (restoredFrom (pageAttributes r) (pageAttributes (renditions (_dispatch (_engine s)))))
              (_sgrStack (renditions (_dispatch (_engine s))))) s.
Proof.
  intros Hrun Hst Hansi Hfuel Hcb Hcur. destruct (runRenditions_ok cs _ initialRenditions_ok) as (r' & Hrun' & [Hok _ _]).
  assert (r' = r) by congruence. subst r'. set (cur := renditions (_dispatch (_engine s))) in *.
  set (items := map numItem (reportItems (pageAttributes r))).
  assert (Htext : asSequence (_ReportSGRSetting r) = [AsciiChars.ESC; 0x5B] ++ itemsText items ++ [0x6D]).
  { unfold asSequence, _ReportSGRSetting. rewrite (report_items _ Hok). reflexivity. }
  assert (Hset : SetGraphicsRendition (itemParameters items) cur = Some (mkRenditions (restoredFrom (pageAttributes r) (pageAttributes cur)) (_sgrStack cur))).
  { unfold SetGraphicsRendition. unfold items. by rewrite (apply_report _ _ Hok Hcur). }
  destruct (sets_rendition (itemParameters items) (engineView s) _ _ Hset) as (d' & Hcall & Hd').
  rewrite Htext. eapply twp_mono; [apply (twp_csi_items (engine := output_engine u8u16) fuel processString items 0x6D s
    (mkOutputStateMachineEngine d' AsciiChars.NUL)); try done|].
  - by apply report_items_ok.
  - set (params := itemParameters items) in *. change (VTIDBuilder.Finalize 0x6D VTIDBuilder.Clear) with CsiActionCodes.SGR_SetGraphicsRendition.
    change (engine_ActionCsiDispatch CsiActionCodes.SGR_SetGraphicsRendition params (engineView s) (_engine s)
            = (mkOutputStateMachineEngine d' AsciiChars.NUL, [], Returned true)).
    unfold engine_ActionCsiDispatch. change (_CanSeqAcceptSubParam CsiActionCodes.SGR_SetGraphicsRendition params) with true.
    rewrite andb_false_r. unfold act_bind at 1, act_gets. cbn [viewAfter fold_left].
    change (csiCalls CsiActionCodes.SGR_SetGraphicsRendition params (_lastPrintedChar (_engine s))) with [ITermDispatch.SetGraphicsRendition params].
    unfold dispatchCalls. cbn [runCalls]. unfold onDispatch, call, act_bind. rewrite Hcall. reflexivity.
  - intros [] s' [Hg ->]. by split.
Qed.
End Report.

(** ** A dispatcher that has graphic renditions and nothing else *)
#[export] Instance rendition_dispatch : TermDispatch Renditions Empty_set Empty_set := {
  unknownSequence r := r;
  memberCall c v r :=
    match c with
    | ITermDispatch.SetGraphicsRendition options => (default r (SetGraphicsRendition options r), [], Returned tt)
    | _ => (r, [], Returned tt)
    end;
  stringCall _ _ r := (r, [], Returned None);
  handler_call h := match h with end;
  callback_call cb := match cb with end;
  callback_exit cb := match cb with end
}.
#[export] Instance rendition_dispatch_sets : RenditionDispatch id.
Proof. split. intros options v d r Hs. eexists. split; [reflexivity|]. cbn in *. by rewrite Hs. Qed.

(** Red on an RGB background, with curly underlines of a colour of the palette, pushed, undone
    and popped. *)
Definition someCalls : list RenditionCall :=
  [CallSetGraphicsRendition (mkVTParameters [31; 48; 4; 58; 1] [2; -1; 10; 20; 30; 3; 5; 208] [(0, 0); (0, 5); (5, 6); (6, 8); (8, 8)]);
   CallPushGraphicsRendition (VTParameters.of_params []); CallSetGraphicsRendition (VTParameters.of_params [0]); CallPopGraphicsRendition].

Lemma sgr_report_roundtrip_witness :
  exists r, runRenditions someCalls initialRenditions = Some r
    /\ let s := StateMachine_ctor (OutputStateMachineEngine_ctor initialRenditions) false 0 0 false in
       twp (feed (engine := output_engine (fun _ => None)) 2 (fun _ s => (s, Ret tt)) (asSequence (_ReportSGRSetting r)))
         (fun _ s' => _state s' = Ground
            /\ _dispatch (_engine s') = mkRenditions (restoredFrom (pageAttributes r) TextAttribute_ctor) SgrStack_ctor) s.
Proof.
  eexists. split; [vm_compute; reflexivity|]. intros s.
  apply (sgr_report_roundtrip (fun _ => None) id someCalls _ 2 (fun _ s => (s, Ret tt)) s); [vm_compute; reflexivity|reflexivity|reflexivity|lia|reflexivity|split; vm_compute; congruence].
Defined.
