(* ===== verification/Macros.v ===== *)
(** * Macros

    Models [src/terminal/adapter/MacroBuffer.cpp] and [MacroBuffer.hpp]: the buffer of macros
    that an application defines (DECDMAC) and invokes (DECINVM), the state machine that
    decodes a definition, and the limits on the space of the macros and on what they invoke. *)
From S2P Require Import Prelude DispatchTypes StateMachine.

(** ** The object *)
Inductive MacroState := ExpectingText | ExpectingHexDigit | ExpectingSecondHexDigit | ExpectingRepeatCount.
#[export] Instance MacroState_eq_dec : EqDecision MacroState.
Proof. solve_decision. Defined.

Module MacroDeleteControl.
Definition DeleteId := 0.
Definition DeleteAll := 1.
End MacroDeleteControl.
Module MacroEncoding.
Definition Text := 0.
Definition HexPair := 1.
End MacroEncoding.

Definition MAX_SPACE : Z := 0x40000.
Definition MACRO_COUNT : nat := 64.
Definition MAX_INVOKED_DEPTH : Z := 16.

Record MacroBuffer := mkMacroBuffer {
  _parseState : MacroState;
  _decodedChar : wchar_t;
  _repeatPending : bool;
  _repeatCount : Z;
  _repeatStart : Z;
  _macros : list wstring;
  _activeMacroId : Z;
  _spaceUsed : Z;
  _invokedDepth : Z;
  _invokedSequenceLength : Z }.
Implicit Types (b : MacroBuffer) (ch : wchar_t) (macroId : Z).

Definition MacroBuffer_ctor : MacroBuffer :=
  mkMacroBuffer ExpectingText 0 false 0 0 (repeat [] MACRO_COUNT) 0 0 0 0.

Definition set_parseState v b := mkMacroBuffer v (_decodedChar b) (_repeatPending b) (_repeatCount b) (_repeatStart b) (_macros b) (_activeMacroId b) (_spaceUsed b) (_invokedDepth b) (_invokedSequenceLength b).
Definition set_decodedChar v b := mkMacroBuffer (_parseState b) v (_repeatPending b) (_repeatCount b) (_repeatStart b) (_macros b) (_activeMacroId b) (_spaceUsed b) (_invokedDepth b) (_invokedSequenceLength b).
Definition set_repeatPending v b := mkMacroBuffer (_parseState b) (_decodedChar b) v (_repeatCount b) (_repeatStart b) (_macros b) (_activeMacroId b) (_spaceUsed b) (_invokedDepth b) (_invokedSequenceLength b).
Definition set_repeatCount v b := mkMacroBuffer (_parseState b) (_decodedChar b) (_repeatPending b) v (_repeatStart b) (_macros b) (_activeMacroId b) (_spaceUsed b) (_invokedDepth b) (_invokedSequenceLength b).
Definition set_repeatStart v b := mkMacroBuffer (_parseState b) (_decodedChar b) (_repeatPending b) (_repeatCount b) v (_macros b) (_activeMacroId b) (_spaceUsed b) (_invokedDepth b) (_invokedSequenceLength b).
Definition set_macros v b := mkMacroBuffer (_parseState b) (_decodedChar b) (_repeatPending b) (_repeatCount b) (_repeatStart b) v (_activeMacroId b) (_spaceUsed b) (_invokedDepth b) (_invokedSequenceLength b).
Definition set_activeMacroId v b := mkMacroBuffer (_parseState b) (_decodedChar b) (_repeatPending b) (_repeatCount b) (_repeatStart b) (_macros b) v (_spaceUsed b) (_invokedDepth b) (_invokedSequenceLength b).
Definition set_spaceUsed v b := mkMacroBuffer (_parseState b) (_decodedChar b) (_repeatPending b) (_repeatCount b) (_repeatStart b) (_macros b) (_activeMacroId b) v (_invokedDepth b) (_invokedSequenceLength b).
Definition set_invoked depth len b := mkMacroBuffer (_parseState b) (_decodedChar b) (_repeatPending b) (_repeatCount b) (_repeatStart b) (_macros b) (_activeMacroId b) (_spaceUsed b) depth len.

Definition strlen (s : wstring) : Z := Z.of_nat (length s).

(** ** Reports *)
Definition GetSpaceAvailable b : Z := u64 (MAX_SPACE - _spaceUsed b).
Definition CalculateChecksum b : Z :=
  fold_left (fun checksum macro => fold_left (fun checksum ch => u16 (checksum - ch)) macro checksum) (_macros b) 0.

(** ** Definitions *)
Abbreviation MB := (M MacroBuffer).

(** [_macros.at(i)], which throws out of range, and its assignment. *)
Definition macroAt (i : Z) : MB wstring :=
  macros ← gets _macros;
  match macros !! Z.to_nat i with Some macro => mret macro | None => throw end.
Definition setMacro (i : Z) (macro : wstring) : MB unit := modify (fun b => set_macros (<[Z.to_nat i := macro]> (_macros b)) b).

Definition _activeMacro : MB wstring := i ← gets _activeMacroId; macroAt i.
Definition setActiveMacro (macro : wstring) : MB unit := i ← gets _activeMacroId; setMacro i macro.

Definition _deleteMacro (i : Z) : MB unit :=
  macro ← macroAt i;
  modify (fun b => set_spaceUsed (u64 (_spaceUsed b - strlen macro)) b) ;;
  setMacro i [].
Definition deleteActive : MB unit := i ← gets _activeMacroId; _deleteMacro i.

Fixpoint deleteAll (n : nat) (i : Z) : MB unit :=
  match n with
  | O => mret tt
  | S n => _deleteMacro i ;; deleteAll n (i + 1)
  end.

Definition InitParser macroId (deleteControl encoding : Z) : MB bool :=
  count ← gets (fun b => Z.of_nat (length (_macros b)));
  depth ← gets _invokedDepth;
  if (macroId <? count) && (depth =? 0) then
    modify (fun b => set_repeatPending false (set_decodedChar 0 (set_activeMacroId macroId b))) ;;
    if (encoding =? MacroEncoding.HexPair) || (encoding =? MacroEncoding.Text) then
      modify (set_parseState (if encoding =? MacroEncoding.HexPair then ExpectingHexDigit else ExpectingText)) ;;
      if deleteControl =? MacroDeleteControl.DeleteId then deleteActive ;; mret true
      else if deleteControl =? MacroDeleteControl.DeleteAll then deleteAll (Z.to_nat count) 0 ;; mret true
      else mret false
    else mret false
  else mret false.

Definition _decodeHexDigit ch : MB bool :=
  modify (fun b => set_decodedChar (u16 (Z.shiftl (_decodedChar b) 4)) b) ;;
  let add v := modify (fun b => set_decodedChar (u16 (_decodedChar b + v)) b) ;; mret true in
  if (0x30 <=? ch) && (ch <=? 0x39) then add (ch - 0x30)
  else if (0x41 <=? ch) && (ch <=? 0x46) then add (ch - 0x41 + 10)
  else if (0x61 <=? ch) && (ch <=? 0x66) then add (ch - 0x61 + 10)
  else mret false.

Definition _appendToActiveMacro ch : MB bool :=
  available ← gets GetSpaceAvailable;
  if 0 <? available then
    macro ← _activeMacro;
    setActiveMacro (macro ++ [ch]) ;;
    modify (fun b => set_spaceUsed (u64 (_spaceUsed b + 1)) b) ;;
    mret true
  else mret false.

(** [activeMacro.substr(start, count)], which throws for a start past the end. *)
Definition substr (macro : wstring) (start count : Z) : MB wstring :=
  if strlen macro <? start then throw
  else mret (take (Z.to_nat count) (drop (Z.to_nat start) macro)).

Fixpoint appendCopies (n : nat) (start sequenceLength : Z) : MB unit :=
  match n with
  | O => mret tt
  | S n =>
      macro ← _activeMacro;
      copy ← substr macro start sequenceLength;
      setActiveMacro (macro ++ copy) ;;
      modify (fun b => set_spaceUsed (u64 (_spaceUsed b + sequenceLength)) b) ;;
      appendCopies n start sequenceLength
  end.

Definition _applyPendingRepeat : MB bool :=
  repeatCount ← gets _repeatCount;
  if 1 <? repeatCount then
    macro ← _activeMacro;
    start ← gets _repeatStart;
    available ← gets GetSpaceAvailable;
    let sequenceLength := u64 (strlen macro - start) in
    let spaceRequired := u64 ((repeatCount - 1) * sequenceLength) in
    if available <? spaceRequired then mret false
    else appendCopies (Z.to_nat (repeatCount - 1)) start sequenceLength ;; modify (set_repeatPending false) ;; mret true
  else modify (set_repeatPending false) ;; mret true.

(** The [switch] on the parser's state. *)
Definition parseCharacter ch : MB bool :=
  state ← gets _parseState;
  match state with
  | ExpectingText => _appendToActiveMacro ch
  | ExpectingHexDigit =>
      digit ← _decodeHexDigit ch;
      pending ← gets _repeatPending;
      if (digit : bool) then modify (set_parseState ExpectingSecondHexDigit) ;; mret true
      else if (ch =? 0x21) && negb pending then modify (fun b => set_repeatCount 0 (set_parseState ExpectingRepeatCount b)) ;; mret true
      else if (ch =? 0x3B) && pending then _applyPendingRepeat
      else mret false
  | ExpectingSecondHexDigit =>
      digit ← _decodeHexDigit ch;
      decoded ← gets _decodedChar;
      success ← (if (digit : bool) then _appendToActiveMacro decoded else mret false);
      modify (fun b => set_parseState ExpectingHexDigit (set_decodedChar 0 b)) ;;
      mret success
  | ExpectingRepeatCount =>
      if (0x30 <=? ch) && (ch <=? 0x39) then
        modify (fun b => set_repeatCount (Z.min (u64 (_repeatCount b * 10 + (ch - 0x30))) MAX_PARAMETER_VALUE) b) ;; mret true
      else if ch =? 0x3B then
        macro ← _activeMacro;
        modify (fun b => set_parseState ExpectingHexDigit (set_repeatStart (strlen macro) (set_repeatPending true b))) ;; mret true
      else mret false
  end.

Definition ParseDefinition ch : MB bool :=
  if ch =? AsciiChars.ESC then
    pending ← gets _repeatPending;
    (if (pending : bool) then
       success ← _applyPendingRepeat;
       if (success : bool) then mret tt else deleteActive
     else mret tt) ;;
    mret false
  else if ch <? 0x20 then mret true
  else
    success ← parseCharacter ch;
    (if (success : bool) then mret tt else deleteActive) ;;
    mret success.

(** The handler that [DefineMacro] of the dispatcher returns receives characters until it
    returns [false]. *)
Fixpoint parseAll (text : wstring) : MB unit :=
  match text with
  | [] => mret tt
  | ch :: text => continue ← ParseDefinition ch; if (continue : bool) then parseAll text else mret tt
  end.
Definition defineMacro macroId (deleteControl encoding : Z) (text : wstring) : MB unit :=
  accepted ← InitParser macroId deleteControl encoding;
  if (accepted : bool) then parseAll text else mret tt.

(** ** Invocations *)

(** The two ends of an invocation: the guards, and what [scope_exit] does. [None]: refused. *)
Definition enterMacro macroId b : option (wstring * MacroBuffer) :=
  if macroId <? Z.of_nat (length (_macros b)) then
    match _macros b !! Z.to_nat macroId with
    | Some macroSequence =>
        let allowedLength := u64 (MAX_SPACE - _invokedSequenceLength b) in
        if (_invokedDepth b <? MAX_INVOKED_DEPTH) && (strlen macroSequence <? allowedLength)
        then Some (macroSequence, set_invoked (u64 (_invokedDepth b + 1)) (u64 (_invokedSequenceLength b + strlen macroSequence)) b)
        else None
    | None => None
    end
  else None.
Definition leaveMacro b : MacroBuffer :=
  let depth := u64 (_invokedDepth b - 1) in
  set_invoked depth (if depth =? 0 then 0 else _invokedSequenceLength b) b.

(** [S] is what the state machine can change, [buffer] and [update] the macro buffer in it.
    The parser is handed the text of the macro at that time: that [ClearMacrosIfInUse]
    overwrites the characters it has yet to read shows in the buffer only. *)
Definition InvokeMacro {S} (buffer : S -> MacroBuffer) (update : (MacroBuffer -> MacroBuffer) -> S -> S)
    macroId (processString : wstring -> M S unit) : M S unit := fun s =>
  match enterMacro macroId (buffer s) with
  | Some (macroSequence, b) =>
      let '(s, outcome) := processString macroSequence (update (fun _ => b) s) in
      (update leaveMacro s, outcome)
  | None => (s, Ret tt)
  end.

Definition ClearMacrosIfInUse b : MacroBuffer :=
  if 0 <? _invokedDepth b then set_macros (map (map (fun _ => AsciiChars.NUL)) (_macros b)) b else b.
