(* ===== verification/MacroTheorems.v ===== *)
(** * What the macro buffer guarantees

    The space of the macros is accounted for exactly and bounded; a definition in hexadecimal
    pairs with repeats is decoded to what it says, or nothing if it does not fit; and what an
    invocation makes the parser read, all nested invocations included, is bounded. *)
From S2P Require Import Prelude DispatchTypes StateMachine StateMachineGrammar.
From S2P Require Import Macros.
Implicit Types (b : MacroBuffer) (ch : wchar_t) (macroId : Z) (macro : wstring).

(** ** Space *)
Definition totalLength (macros : list wstring) : Z := fold_right (fun macro n => strlen macro + n) 0 macros.

Lemma strlen_nonneg macro : 0 <= strlen macro.
Proof. unfold strlen. lia. Qed.
Lemma strlen_app x y : strlen (x ++ y) = strlen x + strlen y.
Proof. unfold strlen. rewrite length_app. lia. Qed.
Lemma totalLength_nonneg macros : 0 <= totalLength macros.
Proof. induction macros as [|macro macros IH]; cbn [totalLength fold_right]; [lia|]. pose proof (strlen_nonneg macro). unfold totalLength in IH. lia. Qed.
Lemma totalLength_insert macros i macro macro' : macros !! i = Some macro ->
  totalLength (<[i := macro']> macros) = totalLength macros - strlen macro + strlen macro'.
Proof.
  revert i. unfold totalLength. induction macros as [|m macros IH]; intros [|i]; [done..| |].
  - intros [= <-]. cbn [insert list_insert fold_right]. lia.
  - intros Hi. change ((m :: macros) !! S i) with (macros !! i) in Hi. change (<[S i := macro']> (m :: macros)) with (m :: <[i := macro']> macros).
    cbn [fold_right]. rewrite (IH i Hi). lia.
Qed.
Lemma totalLength_lookup macros i macro : macros !! i = Some macro -> strlen macro <= totalLength macros.
Proof.
  intros Hi. pose proof (totalLength_insert macros i macro [] Hi). pose proof (totalLength_nonneg (<[i := []]> macros)).
  change (strlen []) with 0 in *. lia.
Qed.

(** ** The invariant *)
Record macros_ok b : Prop := {
  mo_count : length (_macros b) = MACRO_COUNT;
  mo_active : 0 <= _activeMacroId b < Z.of_nat MACRO_COUNT;
  mo_space : _spaceUsed b = totalLength (_macros b);
  mo_max : _spaceUsed b <= MAX_SPACE;
  mo_repeat : 0 <= _repeatCount b <= MAX_PARAMETER_VALUE;
  mo_depth : 0 <= _invokedDepth b <= MAX_INVOKED_DEPTH;
  mo_invoked : 0 <= _invokedSequenceLength b < MAX_SPACE;
  mo_idle : _invokedDepth b = 0 -> _invokedSequenceLength b = 0 }.

Lemma ctor_macros_ok : macros_ok MacroBuffer_ctor.
Proof. split; unfold MAX_INVOKED_DEPTH, MAX_SPACE, MAX_PARAMETER_VALUE; cbn; lia || done. Qed.

(** The macro that is being defined, and a buffer with another text for it. *)
Definition active b : wstring := default [] (_macros b !! Z.to_nat (_activeMacroId b)).
Definition setActive macro b : MacroBuffer :=
  set_spaceUsed (_spaceUsed b - strlen (active b) + strlen macro) (set_macros (<[Z.to_nat (_activeMacroId b) := macro]> (_macros b)) b).

Section Active.
Context b (Hok : macros_ok b).

Lemma active_lookup : _macros b !! Z.to_nat (_activeMacroId b) = Some (active b).
Proof using Hok.
  destruct (lookup_lt_is_Some_2 (_macros b) (Z.to_nat (_activeMacroId b))) as [macro Hm].
  - rewrite (mo_count _ Hok). pose proof (mo_active _ Hok). lia.
  - unfold active. by rewrite Hm.
Qed.
Lemma active_bound : 0 <= strlen (active b) <= _spaceUsed b.
Proof using Hok.
  split; [apply strlen_nonneg|]. rewrite (mo_space _ Hok). eapply totalLength_lookup, active_lookup.
Qed.
Lemma active_run : _activeMacro b = (b, Ret (active b)).
Proof using Hok. unfold _activeMacro, macroAt. rewrite !run_gets. by rewrite active_lookup. Qed.

Lemma active_setActive macro : active (setActive macro b) = macro.
Proof using Hok.
  unfold active, setActive. cbn. rewrite list_lookup_insert_eq; [done|]. rewrite (mo_count _ Hok). pose proof (mo_active _ Hok). lia.
Qed.
Lemma setActive_ok macro : _spaceUsed b - strlen (active b) + strlen macro <= MAX_SPACE -> macros_ok (setActive macro b).
Proof using Hok.
  intros Hfit. pose proof active_lookup as Hl. destruct Hok. split; unfold setActive; cbn; try done.
  - by rewrite length_insert.
  - rewrite (totalLength_insert _ _ _ _ Hl). lia.
Qed.
End Active.

Lemma setActive_setActive b x y : macros_ok b -> setActive x (setActive y b) = setActive x b.
Proof.
  intros Hok. pose proof (active_setActive b Hok y) as Ha. unfold setActive at 1. rewrite Ha.
  unfold setActive, set_spaceUsed, set_macros. cbn. f_equal; [by rewrite list_insert_insert_eq|lia].
Qed.
Lemma setActive_same b : macros_ok b -> setActive (active b) b = b.
Proof.
  intros Hok. pose proof (active_lookup b Hok) as Hl. unfold setActive, set_spaceUsed, set_macros.
  cbn. rewrite list_insert_id by done. rewrite Z.sub_add. by destruct b.
Qed.

(** ** The operations on the active macro *)
Lemma available_ok b : macros_ok b -> GetSpaceAvailable b = MAX_SPACE - _spaceUsed b.
Proof.
  intros Hok. unfold GetSpaceAvailable. pose proof (mo_max _ Hok). pose proof (active_bound b Hok). unfold MAX_SPACE in *.
  apply wrap_small. lia.
Qed.

Lemma deleteActive_run b : macros_ok b -> deleteActive b = (setActive [] b, Ret tt).
Proof.
  intros Hok. pose proof (active_bound b Hok). pose proof (mo_max _ Hok). unfold MAX_SPACE in *.
  unfold deleteActive, _deleteMacro, macroAt. rewrite run_gets. unfold mbind, M_bind, gets. rewrite (active_lookup b Hok).
  cbn. unfold setActive. change (strlen []) with 0. rewrite Z.add_0_r, wrap_small by lia. done.
Qed.

Lemma setActiveMacro_run macro b :
  setActiveMacro macro b = (set_macros (<[Z.to_nat (_activeMacroId b) := macro]> (_macros b)) b, Ret tt).
Proof. done. Qed.

Lemma append_run b ch : macros_ok b ->
  _appendToActiveMacro ch b
  = if _spaceUsed b <? MAX_SPACE then (setActive (active b ++ [ch]) b, Ret true) else (b, Ret false).
Proof.
  intros Hok. pose proof (active_bound b Hok). pose proof (mo_max _ Hok). unfold _appendToActiveMacro. rewrite run_gets, available_ok by done.
  destruct (Z.ltb_spec 0 (MAX_SPACE - _spaceUsed b)), (Z.ltb_spec (_spaceUsed b) MAX_SPACE); try lia; [|done].
  unfold MAX_SPACE in *. rewrite (run_bind _activeMacro _ b b (active b)) by (by apply active_run).
  rewrite (run_bind _ _ _ _ _ (setActiveMacro_run _ _)), run_modify. unfold setActive. rewrite strlen_app. change (strlen [ch]) with 1.
  rewrite wrap_small by (cbn; lia). unfold set_spaceUsed, set_macros, mret, M_ret. cbn -[strlen]. do 2 f_equal. lia.
Qed.

(** [n] more copies of a part of the active macro. *)
Lemma appendCopies_run n start sequence b : macros_ok b -> 0 <= start <= strlen (active b) ->
  take (length sequence) (drop (Z.to_nat start) (active b)) = sequence ->
  _spaceUsed b + Z.of_nat n * strlen sequence <= MAX_SPACE ->
  appendCopies n start (strlen sequence) b = (setActive (active b ++ concat (repeat sequence n)) b, Ret tt).
Proof.
  revert b. induction n as [|n IH]; intros b Hok Hstart Hseq Hfit.
  { cbn [appendCopies repeat concat]. rewrite app_nil_r, setActive_same by done. done. }
  cbn [appendCopies]. rewrite (run_bind _activeMacro _ b b (active b)) by (by apply active_run).
  assert (Hsub : substr (active b) start (strlen sequence) b = (b, Ret sequence)).
  { unfold substr. destruct (Z.ltb_spec (strlen (active b)) start); [lia|]. unfold strlen. by rewrite Nat2Z.id, Hseq. }
  rewrite (run_bind _ _ _ _ _ Hsub), (run_bind _ _ _ _ _ (setActiveMacro_run _ _)), run_modify.
  pose proof (strlen_nonneg sequence). pose proof (active_bound b Hok). unfold MAX_SPACE in *.
  set (b1 := setActive (active b ++ sequence) b).
  assert (Hok1 : macros_ok b1) by (apply setActive_ok; [done|rewrite strlen_app; unfold MAX_SPACE; lia]).
  assert (Ha1 : active b1 = active b ++ sequence) by (by apply active_setActive).
  match goal with |- appendCopies _ _ _ ?x = _ => assert (x = b1) as -> end.
  { unfold b1, setActive. rewrite wrap_small by (cbn; lia). unfold set_spaceUsed, set_macros. cbn -[strlen]. rewrite strlen_app. f_equal. lia. }
  rewrite IH.
  - rewrite Ha1. unfold b1. rewrite setActive_setActive by done. cbn [repeat concat]. by rewrite <- app_assoc.
  - done.
  - rewrite Ha1, strlen_app. lia.
  - rewrite Ha1. unfold strlen in Hstart. rewrite drop_app_le by lia.
    assert (length sequence <= length (drop (Z.to_nat start) (active b)))%nat by (rewrite <- Hseq at 1; rewrite length_take; lia).
    by rewrite take_app_le.
  - unfold b1, setActive. cbn -[strlen]. rewrite strlen_app. lia.
Qed.

(** The end of a repeat. *)
Definition repeatFits b : bool :=
  _spaceUsed b + (_repeatCount b - 1) * (strlen (active b) - _repeatStart b) <=? MAX_SPACE.
Definition repeated b : wstring :=
  active b ++ concat (repeat (drop (Z.to_nat (_repeatStart b)) (active b)) (Z.to_nat (_repeatCount b - 1))).

Lemma repeat_run b : macros_ok b -> 0 <= _repeatStart b <= strlen (active b) ->
  _applyPendingRepeat b
  = if repeatFits b then (set_repeatPending false (setActive (repeated b) b), Ret true) else (b, Ret false).
Proof.
  intros Hok Hstart. pose proof (active_bound b Hok) as Hact. pose proof (mo_max _ Hok) as Hmax. pose proof (mo_repeat _ Hok) as Hrep.
  unfold _applyPendingRepeat. rewrite run_gets. unfold repeatFits, repeated. set (sequence := drop (Z.to_nat (_repeatStart b)) (active b)).
  assert (Hlen : strlen (active b) - _repeatStart b = strlen sequence).
  { unfold sequence, strlen in *. rewrite length_drop. lia. }
  pose proof (strlen_nonneg sequence) as Hs. unfold MAX_SPACE, MAX_PARAMETER_VALUE in *.
  destruct (Z.ltb_spec 1 (_repeatCount b)).
  - rewrite (run_bind _activeMacro _ b b (active b)) by (by apply active_run). rewrite !run_gets. cbv zeta. rewrite available_ok by done.
    unfold MAX_SPACE. rewrite Hlen. rewrite (wrap_small 64 (strlen sequence)) by (change (2 ^ 64) with 18446744073709551616; lia).
    rewrite wrap_small by (change (2 ^ 64) with 18446744073709551616; nia).
    destruct (Z.ltb_spec (262144 - _spaceUsed b) ((_repeatCount b - 1) * strlen sequence)),
      (Z.leb_spec (_spaceUsed b + (_repeatCount b - 1) * strlen sequence) 262144); try lia; [done|].
    erewrite run_bind; [|apply appendCopies_run; [done|done|fold sequence; by apply take_ge|unfold MAX_SPACE; rewrite Z2Nat.id; lia]].
    done.
  - replace (Z.to_nat (_repeatCount b - 1)) with 0%nat by lia. cbn [repeat concat]. rewrite app_nil_r, setActive_same by done.
    destruct (Z.leb_spec (_spaceUsed b + (_repeatCount b - 1) * (strlen (active b) - _repeatStart b)) 262144); [done|nia].
Qed.

(** ** One character of a definition *)
Definition core b := (_macros b, _activeMacroId b, _spaceUsed b, _invokedDepth b, _invokedSequenceLength b).
Lemma macros_ok_core b b' : core b' = core b -> 0 <= _repeatCount b' <= MAX_PARAMETER_VALUE -> macros_ok b -> macros_ok b'.
Proof. intros [= H1 H2 H3 H4 H5] Hr []. split; rewrite ?H1, ?H2, ?H3, ?H4, ?H5; assumption. Qed.

Definition defining b : Prop := _repeatPending b = true -> 0 <= _repeatStart b <= strlen (active b).
(** What a definition leaves alone: the invocations, and the other macros. *)
Definition frame b b' : Prop :=
  _invokedDepth b' = _invokedDepth b /\ _invokedSequenceLength b' = _invokedSequenceLength b /\ _activeMacroId b' = _activeMacroId b
  /\ exists macro, _macros b' = <[Z.to_nat (_activeMacroId b) := macro]> (_macros b).

Lemma frame_core b b' : macros_ok b -> core b' = core b -> frame b b'.
Proof.
  intros Hok [= H1 H2 H3 H4 H5]. split_and!; [done..|]. exists (active b). rewrite list_insert_id; [done|by apply active_lookup].
Qed.
Lemma frame_set b b' macro : _macros b' = _macros (setActive macro b) -> _activeMacroId b' = _activeMacroId b ->
  _invokedDepth b' = _invokedDepth b -> _invokedSequenceLength b' = _invokedSequenceLength b -> frame b b'.
Proof. intros Hm Ha Hd Hl. split_and!; [done..|]. by exists macro. Qed.
Lemma frame_macros_trans b b1 b2 : frame b b1 -> frame b1 b2 -> frame b b2.
Proof.
  intros (H1 & H2 & H3 & m1 & H4) (H5 & H6 & H7 & m2 & H8). split_and!; [congruence..|]. exists m2.
  rewrite H8, H4, H3. by rewrite list_insert_insert_eq.
Qed.

(** After a character: the buffer is in order, and the definition can go on if it was accepted. *)
Definition after b (r : MacroBuffer * Outcome bool) : Prop :=
  exists b' continue, r = (b', Ret continue) /\ macros_ok b' /\ frame b b' /\ (continue = true -> defining b').

Lemma decode_run ch b : exists v d, _decodeHexDigit ch b = (set_decodedChar v b, Ret d).
Proof. unfold _decodeHexDigit. rewrite run_modify. repeat case_match; rewrite ?run_modify; by eexists _, _. Qed.

Lemma after_append b ch : macros_ok b -> defining b -> after b (_appendToActiveMacro ch b).
Proof.
  intros Hok Hdef. rewrite append_run by done. destruct (Z.ltb_spec (_spaceUsed b) MAX_SPACE).
  - eexists _, _. split; [done|]. split_and!; [|by eapply frame_set|].
    + apply setActive_ok; [done|]. rewrite strlen_app. change (strlen [ch]) with 1. lia.
    + intros _ Hp. rewrite active_setActive by done. specialize (Hdef Hp). rewrite strlen_app. change (strlen [ch]) with 1. cbn. lia.
  - eexists _, _. split; [done|]. split_and!; [done|by apply frame_core|done].
Qed.

Lemma repeated_length b : 0 <= _repeatStart b <= strlen (active b) -> 0 <= _repeatCount b ->
  strlen (repeated b) = strlen (active b) + Z.max 0 (_repeatCount b - 1) * (strlen (active b) - _repeatStart b).
Proof.
  intros Hs Hc. unfold repeated. rewrite strlen_app. f_equal.
  assert (Hrep : forall n (x : wstring), strlen (concat (repeat x n)) = Z.of_nat n * strlen x).
  { intros n x. induction n as [|n IH]; [done|]. cbn [repeat concat]. rewrite strlen_app, IH. lia. }
  rewrite Hrep. unfold strlen in *. rewrite length_drop. nia.
Qed.

Lemma after_repeat b : macros_ok b -> defining b -> _repeatPending b = true -> after b (_applyPendingRepeat b).
Proof.
  intros Hok Hdef Hp. pose proof (Hdef Hp) as Hs. pose proof (mo_repeat _ Hok). rewrite repeat_run by done. unfold repeatFits.
  destruct (Z.leb_spec (_spaceUsed b + (_repeatCount b - 1) * (strlen (active b) - _repeatStart b)) MAX_SPACE) as [Hfit|].
  - eexists _, _. split; [done|]. split_and!; [|by eapply frame_set|done].
    eapply (macros_ok_core (setActive (repeated b) b)); [done|done|]. apply setActive_ok; [done|]. rewrite repeated_length by lia.
    pose proof (mo_max _ Hok). destruct (Z.le_gt_cases (_repeatCount b) 1); [rewrite Z.max_l by lia|rewrite Z.max_r by lia]; lia.
  - eexists _, _. split; [done|]. split_and!; [done|by apply frame_core|done].
Qed.

Lemma after_core b b1 continue : macros_ok b -> core b1 = core b -> 0 <= _repeatCount b1 <= MAX_PARAMETER_VALUE ->
  (continue = true -> defining b1) -> after b (b1, Ret continue).
Proof. intros Hok Hc Hr Hd. eexists _, _. split; [done|]. split_and!; [by eapply macros_ok_core|by apply frame_core|done]. Qed.

Lemma after_mono b b1 r : frame b b1 -> after b1 r -> after b r.
Proof. intros Hf (b' & c & -> & Hok & Hf' & Hd). eexists _, _. split; [done|]. split_and!; [done|by eapply frame_macros_trans|done]. Qed.

Lemma after_character b ch : macros_ok b -> defining b -> is_wchar ch -> after b (parseCharacter ch b).
Proof.
  intros Hok Hdef Hch. pose proof (mo_repeat _ Hok) as Hr. unfold parseCharacter. rewrite run_gets. destruct (_parseState b).
  - by apply after_append.
  - destruct (decode_run ch b) as (v & d & Hd). rewrite (run_bind _ _ _ _ _ Hd), run_gets. set (b1 := set_decodedChar v b).
    assert (Hok1 : macros_ok b1) by (by apply (macros_ok_core b)).
    destruct d; [|destruct (_ && negb _) eqn:Hn; [|destruct ((ch =? 0x3B) && _) eqn:Hp]].
    + by apply after_core.
    + apply after_core; [done|done|unfold MAX_PARAMETER_VALUE; cbn; lia|]. intros _ Hp. by apply andb_true_iff in Hn as [_ Hn%negb_true_iff]; cbn in *; congruence.
    + apply andb_true_iff in Hp as [_ Hp]. eapply after_mono; [|by apply after_repeat]. by apply frame_core.
    + by apply after_core.
  - destruct (decode_run ch b) as (v & d & Hd). rewrite (run_bind _ _ _ _ _ Hd), run_gets. set (b1 := set_decodedChar v b).
    assert (Hok1 : macros_ok b1) by (by apply (macros_ok_core b)).
    assert (Ha : after b1 ((if d then _appendToActiveMacro (_decodedChar b1) else mret false) b1)).
    { destruct d; [by apply after_append|by apply after_core]. }
    destruct Ha as (b2 & success & Hrun & Hok2 & Hf2 & Hd2). rewrite (run_bind _ _ _ _ _ Hrun), run_modify.
    eexists _, _. split; [done|]. pose proof (mo_repeat _ Hok2). split_and!; [by eapply (macros_ok_core b2)| |done].
    eapply (frame_macros_trans b b1); [by apply frame_core|]. eapply (frame_macros_trans b1 b2); [done|by apply frame_core].
  - destruct (_ && _) eqn:Hdig; [|destruct (ch =? 0x3B)].
    + rewrite run_modify. apply after_core; [done|done| |done]. unfold MAX_PARAMETER_VALUE in *. cbn. 
      apply andb_true_iff in Hdig as [H1%Z.leb_le H2%Z.leb_le]. rewrite wrap_small by lia. lia.
    + rewrite (run_bind _activeMacro _ b b (active b)) by (by apply active_run). rewrite run_modify. apply after_core; [done|done|done|].
      intros _ _. cbn. pose proof (strlen_nonneg (active b)). change (active _) with (active b). lia.
    + by apply after_core.
Qed.

Lemma after_delete b : macros_ok b -> macros_ok (setActive [] b) /\ frame b (setActive [] b).
Proof.
  intros Hok. pose proof (active_bound b Hok). pose proof (mo_max _ Hok). split; [|by eapply frame_set].
  apply setActive_ok; [done|]. change (strlen []) with 0. lia.
Qed.

Lemma after_ParseDefinition b ch : macros_ok b -> defining b -> is_wchar ch -> after b (ParseDefinition ch b).
Proof.
  intros Hok Hdef Hch. pose proof (mo_repeat _ Hok) as Hr. unfold ParseDefinition. destruct (ch =? AsciiChars.ESC); [|destruct (ch <? 0x20)].
  - rewrite run_gets. destruct (_repeatPending b) eqn:Hp; [|by apply after_core].
    destruct (after_repeat b Hok Hdef Hp) as (b1 & success & Hrun & Hok1 & Hf1 & _).
    destruct (after_delete b1 Hok1). exists (if success then b1 else setActive [] b1), false.
    assert (Hbody : (success ← _applyPendingRepeat; if (success : bool) then mret tt else deleteActive) b
                    = (if success then b1 else setActive [] b1, Ret tt)).
    { rewrite (run_bind _ _ _ _ _ Hrun). destruct success; [done|by apply deleteActive_run]. }
    rewrite (run_bind _ _ _ _ _ Hbody). split; [done|]. destruct success; split_and!; try done. by eapply frame_macros_trans.
  - by apply after_core.
  - destruct (after_character b ch Hok Hdef Hch) as (b1 & success & Hrun & Hok1 & Hf1 & Hd1). rewrite (run_bind _ _ _ _ _ Hrun).
    destruct success.
    + eexists _, _. by split_and!.
    + rewrite (run_bind _ _ _ _ _ (deleteActive_run b1 Hok1)). destruct (after_delete b1 Hok1). eexists _, _. split_and!; [done|done|by eapply frame_macros_trans|done].
Qed.

Lemma parseAll_run text b : macros_ok b -> defining b -> Forall is_wchar text ->
  exists b', parseAll text b = (b', Ret tt) /\ macros_ok b' /\ frame b b'.
Proof.
  intros Hok Hdef Ht. revert b Hok Hdef. induction Ht as [|ch text Hch Ht IH]; intros b Hok Hdef.
  { eexists. split; [done|]. split; [done|by apply frame_core]. }
  destruct (after_ParseDefinition b ch Hok Hdef Hch) as (b1 & continue & Hrun & Hok1 & Hf1 & Hd1). cbn [parseAll]. rewrite (run_bind _ _ _ _ _ Hrun).
  destruct continue; [|by exists b1]. destruct (IH b1 Hok1 (Hd1 eq_refl)) as (b2 & Hrun2 & Hok2 & Hf2).
  exists b2. split_and!; [done|done|by eapply frame_macros_trans].
Qed.

(** ** The start of a definition *)
Definition deleted (i : Z) b : MacroBuffer :=
  set_spaceUsed (_spaceUsed b - strlen (default [] (_macros b !! Z.to_nat i))) (set_macros (<[Z.to_nat i := []]> (_macros b)) b).

Lemma deleted_ok i b : macros_ok b -> 0 <= i < Z.of_nat MACRO_COUNT ->
  _deleteMacro i b = (deleted i b, Ret tt) /\ macros_ok (deleted i b).
Proof.
  intros Hok Hi. destruct (lookup_lt_is_Some_2 (_macros b) (Z.to_nat i)) as [macro Hm]; [rewrite (mo_count _ Hok); lia|].
  pose proof (totalLength_lookup _ _ _ Hm) as Hle. rewrite <- (mo_space _ Hok) in Hle. pose proof (strlen_nonneg macro). pose proof (mo_max _ Hok).
  unfold deleted. rewrite Hm. cbn [default id]. split.
  - unfold _deleteMacro, macroAt, mbind, M_bind, gets. rewrite Hm. cbn. rewrite wrap_small; [done|]. unfold MAX_SPACE in *. lia.
  - destruct Hok. split; cbn; try done; [by rewrite length_insert|rewrite (totalLength_insert _ _ _ _ Hm); change (strlen []) with 0; lia|lia].
Qed.

Lemma deleteAll_run n i b : macros_ok b -> 0 <= i -> i + Z.of_nat n <= Z.of_nat MACRO_COUNT ->
  exists b', deleteAll n i b = (b', Ret tt) /\ macros_ok b' /\ _repeatPending b' = _repeatPending b
    /\ _invokedDepth b' = _invokedDepth b /\ _invokedSequenceLength b' = _invokedSequenceLength b.
Proof.
  revert i b. induction n as [|n IH]; intros i b Hok Hi Hn; [by exists b|]. cbn [deleteAll].
  destruct (deleted_ok i b Hok) as [Hrun Hok1]; [lia|]. rewrite (run_bind _ _ _ _ _ Hrun).
  destruct (IH (i + 1) (deleted i b)) as (b' & Hrun' & ?); [done|lia|lia|]. by exists b'.
Qed.

Lemma InitParser_run macroId deleteControl encoding b : macros_ok b -> 0 <= macroId ->
  exists b' accepted, InitParser macroId deleteControl encoding b = (b', Ret accepted) /\ macros_ok b'
    /\ (accepted = true -> _repeatPending b' = false)
    /\ _invokedDepth b' = _invokedDepth b /\ _invokedSequenceLength b' = _invokedSequenceLength b.
Proof.
  intros Hok Hid. unfold InitParser. rewrite !run_gets. rewrite (mo_count _ Hok).
  destruct (Z.ltb_spec macroId (Z.of_nat MACRO_COUNT)); [|by exists b, false]. destruct (_invokedDepth b =? 0); [|by exists b, false]. cbn [andb].
  rewrite run_modify. set (b1 := set_repeatPending false _).
  assert (Hok1 : macros_ok b1) by (destruct Hok; by split).
  destruct (_ || _); [|by exists b1, false]. rewrite run_modify. set (b2 := set_parseState _ b1).
  assert (Hok2 : macros_ok b2) by (by apply (macros_ok_core b1); [|apply Hok1|]).
  destruct (deleteControl =? _); [|destruct (deleteControl =? _); [|by exists b2, false]].
  - rewrite (run_bind _ _ _ _ _ (deleteActive_run b2 Hok2)). eexists _, true. split; [done|]. by split; [apply after_delete|].
  - destruct (deleteAll_run (Z.to_nat (Z.of_nat MACRO_COUNT)) 0 b2) as (b3 & Hrun & Hok3 & Hp & Hd & Hl); [done|lia|lia|].
    rewrite (run_bind _ _ _ _ _ Hrun). exists b3, true. by rewrite Hp, Hd, Hl.
Qed.

Lemma defineMacro_run macroId deleteControl encoding text b : macros_ok b -> 0 <= macroId -> Forall is_wchar text ->
  exists b', defineMacro macroId deleteControl encoding text b = (b', Ret tt) /\ macros_ok b'
    /\ _invokedDepth b' = _invokedDepth b /\ _invokedSequenceLength b' = _invokedSequenceLength b.
Proof.
  intros Hok Hid Ht. unfold defineMacro.
  destruct (InitParser_run macroId deleteControl encoding b Hok Hid) as (b1 & accepted & Hrun & Hok1 & Hp & Hd & Hl).
  rewrite (run_bind _ _ _ _ _ Hrun). destruct accepted; [|by exists b1].
  destruct (parseAll_run text b1 Hok1) as (b2 & Hrun2 & Hok2 & Hd2 & Hl2 & _); [intros Hp'; by rewrite Hp in Hp'|done|].
  exists b2. split_and!; [done|done|congruence..].
Qed.

(** ** Calls *)

(** What an application can make the terminal call. While a macro runs, the parser makes
    the calls that its text asks for: here any calls at all. *)
Inductive MacroCall :=
| CallDefineMacro (macroId deleteControl encoding : Z) (text : wstring)
| CallClearMacrosIfInUse
| CallInvokeMacro (macroId : Z) (whileRunning : list MacroCall).

Fixpoint call_ok (c : MacroCall) : Prop :=
  match c with
  | CallDefineMacro macroId _ _ text => 0 <= macroId /\ Forall is_wchar text
  | CallClearMacrosIfInUse => True
  | CallInvokeMacro macroId inner => 0 <= macroId /\ (fix all cs := match cs with [] => True | c :: cs => call_ok c /\ all cs end) inner
  end.
Fixpoint calls_ok (cs : list MacroCall) : Prop := match cs with [] => True | c :: cs => call_ok c /\ calls_ok cs end.

(** The buffer, and what the parser was given to read, with the depth of the invocation. *)
Definition Session : Type := MacroBuffer * list (Z * wstring).
Definition onBuffer (m : M MacroBuffer unit) : M Session unit := fun s => let '(b, outcome) := m s.1 in ((b, s.2), outcome).
Definition reads (text : wstring) : M Session unit := modify (fun s : Session => (s.1, s.2 ++ [(_invokedDepth s.1, text)])).

Fixpoint macroCall (c : MacroCall) : M Session unit :=
  match c with
  | CallDefineMacro macroId deleteControl encoding text => onBuffer (defineMacro macroId deleteControl encoding text)
  | CallClearMacrosIfInUse => onBuffer (modify ClearMacrosIfInUse)
  | CallInvokeMacro macroId inner =>
      InvokeMacro fst (fun f s => (f s.1, s.2)) macroId (fun text =>
        reads text ;; (fix all cs := match cs with [] => mret tt | c :: cs => macroCall c ;; all cs end) inner)
  end.
Fixpoint macroCalls (cs : list MacroCall) : M Session unit :=
  match cs with [] => mret tt | c :: cs => macroCall c ;; macroCalls cs end.

Lemma MacroCall_nested_ind (P : MacroCall -> Prop) :
  (forall macroId deleteControl encoding text, P (CallDefineMacro macroId deleteControl encoding text)) ->
  P CallClearMacrosIfInUse ->
  (forall macroId inner, Forall P inner -> P (CallInvokeMacro macroId inner)) -> forall c, P c.
Proof.
  intros Hd Hc Hi. fix IH 1. intros [macroId del enc text| |macroId inner]; [apply Hd|apply Hc|apply Hi].
  induction inner as [|c inner IHi]; constructor; [apply IH|exact IHi].
Qed.

Definition readLength (log : list (Z * wstring)) : Z := totalLength (map snd log).
Lemma readLength_app x y : readLength (x ++ y) = readLength x + readLength y.
Proof.
  unfold readLength, totalLength. rewrite map_app. induction (map snd x) as [|m ms IH]; [done|]. cbn [app fold_right]. rewrite IH. lia.
Qed.

(** What a call does: it reads texts within the depth, and while a macro runs their lengths
    are added up. *)
Record performed b b' (log : list (Z * wstring)) : Prop := {
  pf_ok : macros_ok b';
  pf_depth : _invokedDepth b' = _invokedDepth b;
  pf_length : _invokedDepth b <> 0 -> _invokedSequenceLength b' = _invokedSequenceLength b + readLength log;
  pf_log : Forall (fun entry => 1 <= entry.1 <= MAX_INVOKED_DEPTH) log }.

Lemma performed_trans b b1 b2 x y : performed b b1 x -> performed b1 b2 y -> performed b b2 (x ++ y).
Proof.
  intros [H1 H2 H3 H4] [H5 H6 H7 H8]. split; [done|congruence| |by apply Forall_app].
  intros Hd. rewrite readLength_app, H7, H3 by congruence. lia.
Qed.

Definition runs_ok (m : M Session unit) : Prop := forall b log, macros_ok b ->
  exists b' log', m (b, log) = ((b', log ++ log'), Ret tt) /\ performed b b' log' /\ readLength log' < MAX_SPACE.

Lemma runs_silent m : (forall b, macros_ok b -> exists b', m b = (b', Ret tt) /\ macros_ok b'
    /\ _invokedDepth b' = _invokedDepth b /\ _invokedSequenceLength b' = _invokedSequenceLength b) -> runs_ok (onBuffer m).
Proof.
  intros Hm b log Hok. destruct (Hm b Hok) as (b' & Hrun & Hok' & Hd & Hl). exists b', []. unfold onBuffer. cbn [fst snd]. rewrite Hrun, app_nil_r.
  split; [done|]. split; [|done]. split; [done|done| |done]. intros _. rewrite Hl. change (readLength []) with 0. lia.
Qed.

Lemma clear_macros_run b : macros_ok b -> macros_ok (ClearMacrosIfInUse b)
  /\ _invokedDepth (ClearMacrosIfInUse b) = _invokedDepth b /\ _invokedSequenceLength (ClearMacrosIfInUse b) = _invokedSequenceLength b.
Proof.
  intros Hok. unfold ClearMacrosIfInUse. destruct (0 <? _invokedDepth b); [|done]. split; [|done].
  assert (Htotal : totalLength (map (map (fun _ => AsciiChars.NUL)) (_macros b)) = totalLength (_macros b)).
  { unfold totalLength. induction (_macros b) as [|m ms IH]; [done|]. cbn [map fold_right]. rewrite IH. unfold strlen. by rewrite length_map. }
  destruct Hok. split; cbn -[totalLength]; try done; [by rewrite length_map|by rewrite Htotal].
Qed.

(** A sequence of calls while a macro runs. *)
Definition innerCalls (cs : list MacroCall) : M Session unit :=
  (fix all cs := match cs with [] => mret tt | c :: cs => macroCall c ;; all cs end) cs.
Lemma innerCalls_run cs b log : Forall (fun c => runs_ok (macroCall c)) cs -> macros_ok b ->
  exists b' log', innerCalls cs (b, log) = ((b', log ++ log'), Ret tt) /\ performed b b' log'.
Proof.
  intros Hcs. revert b log. induction Hcs as [|c cs Hc Hcs IH]; intros b log Hok.
  - exists b, []. rewrite app_nil_r. split; [done|]. split; [done|done| |done]. change (readLength []) with 0. lia.
  - destruct (Hc b log Hok) as (b1 & x & Hrun & Hp & _). destruct (IH b1 (log ++ x) (pf_ok _ _ _ Hp)) as (b2 & y & Hrun2 & Hp2).
    exists b2, (x ++ y). unfold innerCalls. rewrite (run_bind _ _ _ _ _ Hrun). unfold innerCalls in Hrun2. rewrite Hrun2, app_assoc.
    split; [done|by eapply performed_trans].
Qed.

Lemma enter_ok macroId b text b1 : macros_ok b -> enterMacro macroId b = Some (text, b1) ->
  macros_ok b1 /\ _invokedDepth b1 = _invokedDepth b + 1 /\ _invokedSequenceLength b1 = _invokedSequenceLength b + strlen text.
Proof.
  intros Hok. unfold enterMacro. destruct (_ <? _); [|done]. destruct (_macros b !! _) as [macro|]; [|done].
  destruct Hok as [H1 H2 H3 H4 H5 H6 H7 H8]. pose proof (strlen_nonneg macro) as Hs. unfold MAX_SPACE, MAX_INVOKED_DEPTH in *.
  rewrite wrap_small by lia. destruct (Z.ltb_spec (_invokedDepth b) 16); [|done].
  destruct (Z.ltb_spec (strlen macro) (262144 - _invokedSequenceLength b)); [|done]. cbn [andb]. intros [= <- <-].
  rewrite !wrap_small by lia. split; [|done]. split; cbn; unfold MAX_SPACE, MAX_INVOKED_DEPTH; try done; lia.
Qed.

Lemma macroCall_run c : call_ok c -> runs_ok (macroCall c).
Proof.
  induction c as [macroId del enc text| |macroId inner IH] using MacroCall_nested_ind; intros Hc; cbn [macroCall].
  - destruct Hc as [Hid Ht]. apply runs_silent. intros b Hok. by apply defineMacro_run.
  - apply runs_silent. intros b Hok. eexists. split; [done|]. by apply clear_macros_run.
  - intros b log Hok. unfold InvokeMacro. cbn [fst].
    destruct (enterMacro macroId b) as [[text b1]|] eqn:Henter.
    2:{ exists b, []. rewrite app_nil_r. split; [done|]. split; [|done]. split; [done|done| |done]. change (readLength []) with 0. lia. }
    destruct (enter_ok macroId b text b1 Hok Henter) as (Hok1 & Hd1 & Hl1).
    assert (Hinner : Forall (fun c => runs_ok (macroCall c)) inner).
    { destruct Hc as [_ Hc]. induction IH as [|c cs Hcc Hcs IHcs]; [by constructor|]; destruct Hc as [Hc1 Hc2]; constructor; [by apply Hcc|by apply IHcs]. }
    destruct (innerCalls_run inner b1 (log ++ [(_invokedDepth b1, text)]) Hinner Hok1) as (b2 & log2 & Hrun & [Hok2 Hd2 Hl2 Hf2]).
    unfold reads. rewrite run_modify. cbn [fst snd]. unfold innerCalls in Hrun. rewrite Hrun. cbn [fst snd].
    pose proof (mo_depth _ Hok) as Hd. pose proof (mo_depth _ Hok1) as Hdb1. pose proof (mo_invoked _ Hok2) as Hi2. pose proof (mo_invoked _ Hok) as Hi.
    assert (Hread : forall depth, readLength ((depth, text) :: log2) = strlen text + readLength log2) by done.
    exists (leaveMacro b2), ((_invokedDepth b1, text) :: log2). rewrite <- app_assoc. split; [done|].
    specialize (Hl2 ltac:(lia)). unfold MAX_INVOKED_DEPTH, MAX_SPACE in *. split; [|rewrite Hread; lia].
    unfold leaveMacro. rewrite wrap_small by lia. rewrite Hd2, Hd1, Z.add_simpl_r. split.
    + destruct Hok2. split; cbn; unfold MAX_INVOKED_DEPTH, MAX_SPACE in *; try done; destruct (Z.eqb_spec (_invokedDepth b) 0); try done; lia.
    + done.
    + intros Hne. cbn -[readLength]. destruct (Z.eqb_spec (_invokedDepth b) 0); [done|]. rewrite Hread. lia.
    + constructor; [cbn; unfold MAX_INVOKED_DEPTH; lia|done].
Qed.

Lemma macroCalls_run cs b log : calls_ok cs -> macros_ok b ->
  exists b' log', macroCalls cs (b, log) = ((b', log ++ log'), Ret tt) /\ performed b b' log'.
Proof.
  intros Hcs Hok. apply (innerCalls_run cs b log); [|done]. induction cs as [|c cs IH]; [by constructor|]. destruct Hcs as [Hc Hcs]. constructor; [by apply macroCall_run|by apply IH].
Qed.

(** C39: macros stay within their limits. After any sequence of definitions, invocations and
    resets, none of which throws, an invocation makes the parser read, with all the macros
    that it invokes in turn, whatever these do meanwhile, less than [MAX_SPACE] characters at
    most 16 levels deep; after it the space in use is again exactly the length of the macros,
    at most [MAX_SPACE], and the buffer is ready for the next definition or invocation. *)
Theorem macro_invocations_bounded calls macroId whileRunning :
  calls_ok calls -> call_ok (CallInvokeMacro macroId whileRunning) ->
  exists b log b' log', macroCalls calls (MacroBuffer_ctor, []) = ((b, log), Ret tt) /\ macros_ok b
    /\ macroCall (CallInvokeMacro macroId whileRunning) (b, log) = ((b', log ++ log'), Ret tt) /\ macros_ok b'
    /\ _invokedDepth b' = 0 /\ _invokedSequenceLength b' = 0
    /\ readLength log' < MAX_SPACE /\ Forall (fun entry => 1 <= entry.1 <= MAX_INVOKED_DEPTH) log'.
Proof.
  intros Hcs Hc. destruct (macroCalls_run calls MacroBuffer_ctor [] Hcs ctor_macros_ok) as (b & log & Hrun & [Hok Hd _ _]).
  destruct (macroCall_run _ Hc b log Hok) as (b' & log' & Hrun' & [Hok' Hd' _ Hf] & Hlen).
  assert (_invokedDepth b' = 0) by (by rewrite Hd', Hd). exists b, log, b', log'. split_and!; try done. by apply (mo_idle _ Hok').
Qed.

(** A macro that invokes itself, and a reset while it runs. *)
Lemma macro_invocations_bounded_witness :
  let calls := [CallDefineMacro 0 MacroDeleteControl.DeleteAll MacroEncoding.Text (L "[0*z" ++ [AsciiChars.ESC])] in
  let running := [CallInvokeMacro 0 [CallInvokeMacro 0 []; CallClearMacrosIfInUse]] in
  exists b log b' log', macroCalls calls (MacroBuffer_ctor, []) = ((b, log), Ret tt) /\ macros_ok b
    /\ macroCall (CallInvokeMacro 0 running) (b, log) = ((b', log ++ log'), Ret tt) /\ macros_ok b'
    /\ _invokedDepth b' = 0 /\ _invokedSequenceLength b' = 0
    /\ readLength log' < MAX_SPACE /\ Forall (fun entry => 1 <= entry.1 <= MAX_INVOKED_DEPTH) log'.
Proof.
  intros calls running. apply (macro_invocations_bounded calls 0 running).
  - split; [|exact I]. split; [lia|by_decide].
  - cbn. lia.
Defined.
