(* ===== verification/MacroDefinitions.v ===== *)
(** * Definitions of macros

    The language of definitions in hexadecimal pairs, with repeats, and what the parser makes
    of one: the text that it denotes, or nothing if that does not fit. *)
From S2P Require Import Prelude DispatchTypes StateMachine StateMachineGrammar.
From S2P Require Import Macros.
From S2P Require Import MacroTheorems.
Implicit Types (b : MacroBuffer) (ch : wchar_t) (macroId : Z) (macro : wstring).

(** ** The language *)
Definition hexValue ch : option Z :=
  if (0x30 <=? ch) && (ch <=? 0x39) then Some (ch - 0x30)
  else if (0x41 <=? ch) && (ch <=? 0x46) then Some (ch - 0x41 + 10)
  else if (0x61 <=? ch) && (ch <=? 0x66) then Some (ch - 0x61 + 10)
  else None.

(** Pairs of digits, or pairs that are repeated a number of times. *)
Definition Pair : Type := wchar_t * wchar_t.
Inductive Piece := Once (pairs : list Pair) | Repeat (count : wstring) (pairs : list Pair).

Definition pairsText (pairs : list Pair) : wstring := concat (map (fun pair => [pair.1; pair.2]) pairs).
Definition openText (count : wstring) (pairs : list Pair) : wstring := 0x21 :: count ++ 0x3B :: pairsText pairs.
Definition pieceText (piece : Piece) : wstring :=
  match piece with Once pairs => pairsText pairs | Repeat count pairs => openText count pairs ++ [0x3B] end.

Definition pairValue (pair : Pair) : Z := 16 * default 0 (hexValue pair.1) + default 0 (hexValue pair.2).
(** A count that is 0 or missing counts once; it is limited like a parameter. *)
Definition copies (count : wstring) : nat := Z.to_nat (Z.max 1 (fold_left saturate count 0)).
Definition repeatedPairs (count : wstring) (pairs : list Pair) : wstring := concat (repeat (map pairValue pairs) (copies count)).
Definition pieceValue (piece : Piece) : wstring :=
  match piece with Once pairs => map pairValue pairs | Repeat count pairs => repeatedPairs count pairs end.

Definition pair_ok (pair : Pair) : Prop := is_Some (hexValue pair.1) /\ is_Some (hexValue pair.2).
Definition piece_ok (piece : Piece) : Prop :=
  match piece with Once pairs => Forall pair_ok pairs | Repeat count pairs => Forall is_digit count /\ Forall pair_ok pairs end.

(** ** One pair *)
Definition ready b : Prop := macros_ok b /\ _parseState b = ExpectingHexDigit /\ _decodedChar b = 0.

Lemma decode_digit ch v b : hexValue ch = Some v ->
  _decodeHexDigit ch b = (set_decodedChar (u16 (u16 (Z.shiftl (_decodedChar b) 4) + v)) b, Ret true).
Proof. unfold hexValue, _decodeHexDigit. rewrite run_modify. intros Hv. repeat case_match; simplify_eq; by rewrite run_modify. Qed.
Lemma decode_other ch b : hexValue ch = None -> _decodeHexDigit ch b = (set_decodedChar (u16 (Z.shiftl (_decodedChar b) 4)) b, Ret false).
Proof. unfold hexValue, _decodeHexDigit. rewrite run_modify. intros Hv. repeat case_match; simplify_eq; done. Qed.

Lemma hexValue_bound ch v : hexValue ch = Some v -> 0x20 <= ch /\ 0 <= v < 16.
Proof. unfold hexValue. intros Hv. repeat case_match; simplify_eq; lia. Qed.

(** A character that is neither a control character nor ESC. *)
Lemma ParseDefinition_plain ch b : 0x20 <= ch ->
  ParseDefinition ch b
  = (success ← parseCharacter ch; (if (success : bool) then mret tt else deleteActive) ;; mret success) b.
Proof.
  intros Hch. unfold ParseDefinition, AsciiChars.ESC. destruct (Z.eqb_spec ch 0x1B); [lia|]. destruct (Z.ltb_spec ch 0x20); [lia|done].
Qed.
(** The definition goes on after an accepted character and ends with nothing after a refused one. *)
Lemma parse_accepted ch text b b1 : 0x20 <= ch -> parseCharacter ch b = (b1, Ret true) -> parseAll (ch :: text) b = parseAll text b1.
Proof.
  intros Hch Hrun. cbn [parseAll]. erewrite run_bind; [|rewrite ParseDefinition_plain by done; by rewrite (run_bind _ _ _ _ _ Hrun)]. done.
Qed.
Lemma parse_refused ch text b b1 : 0x20 <= ch -> parseCharacter ch b = (b1, Ret false) -> macros_ok b1 ->
  parseAll (ch :: text) b = (setActive [] b1, Ret tt).
Proof.
  intros Hch Hrun Hok. cbn [parseAll]. erewrite run_bind; [|rewrite ParseDefinition_plain by done; rewrite (run_bind _ _ _ _ _ Hrun);
    by rewrite (run_bind _ _ _ _ _ (deleteActive_run b1 Hok))]. done.
Qed.

Lemma parse_pair pair text b : ready b -> pair_ok pair ->
  parseAll (pair.1 :: pair.2 :: text) b
  = if _spaceUsed b <? MAX_SPACE then parseAll text (setActive (active b ++ [pairValue pair]) b) else (setActive [] b, Ret tt).
Proof.
  intros (Hok & Hst & Hdec) [[vh Hh] [vl Hl]]. destruct (hexValue_bound _ _ Hh), (hexValue_bound _ _ Hl).
  set (b1 := set_parseState ExpectingSecondHexDigit (set_decodedChar vh b)).
  rewrite (parse_accepted pair.1 _ b b1); [|done|].
  2:{ unfold parseCharacter. rewrite run_gets, Hst. cbv match. rewrite (run_bind _ _ _ _ _ (decode_digit _ _ b Hh)), run_gets, run_modify, Hdec.
      change (u16 (Z.shiftl 0 4)) with 0. rewrite Z.add_0_l, (wrap_small 16) by (change (2 ^ 16) with 65536; lia). done. }
  assert (Hval : pairValue pair = u16 (u16 (Z.shiftl vh 4) + vl)).
  { unfold pairValue. rewrite Hh, Hl. cbn [default id]. rewrite Z.shiftl_mul_pow2 by lia. change (2 ^ 4) with 16.
    rewrite !(wrap_small 16) by (rewrite ?(wrap_small 16); change (2 ^ 16) with 65536; lia). lia. }
  set (b2 := set_decodedChar (pairValue pair) b1).
  assert (Hok2 : macros_ok b2) by (by apply (macros_ok_core b); [|apply Hok|]).
  assert (Hchar : parseCharacter pair.2 b1
    = if _spaceUsed b <? MAX_SPACE then (setActive (active b ++ [pairValue pair]) b, Ret true) else (b, Ret false)).
  { unfold parseCharacter. rewrite run_gets. change (_parseState b1) with ExpectingSecondHexDigit.
    cbv match. rewrite (run_bind _ _ _ _ _ (decode_digit _ _ b1 Hl)). change (_decodedChar b1) with vh. rewrite <- Hval. fold b2. rewrite run_gets.
    change (_decodedChar b2) with (pairValue pair). pose proof (append_run b2 (pairValue pair) Hok2) as Hrun.
    change (_spaceUsed b2) with (_spaceUsed b) in Hrun. change (active b2) with (active b) in Hrun.
    destruct (_spaceUsed b <? MAX_SPACE); rewrite (run_bind _ _ _ _ _ Hrun), run_modify; unfold mret, M_ret; do 2 f_equal; destruct b; cbn in *; by subst. }
  destruct (_spaceUsed b <? MAX_SPACE); [by apply parse_accepted|by apply parse_refused].
Qed.

(** ** Many pairs *)
Lemma ready_setActive b macro : ready b -> _spaceUsed b - strlen (active b) + strlen macro <= MAX_SPACE -> ready (setActive macro b).
Proof. intros (Hok & Hst & Hdec) Hfit. split; [by apply setActive_ok|done]. Qed.
Lemma space_setActive b macro : _spaceUsed (setActive macro b) = _spaceUsed b - strlen (active b) + strlen macro.
Proof. done. Qed.

Lemma parse_pairs pairs text b : ready b -> Forall pair_ok pairs ->
  parseAll (pairsText pairs ++ text) b
  = if _spaceUsed b + strlen (map pairValue pairs) <=? MAX_SPACE then parseAll text (setActive (active b ++ map pairValue pairs) b)
    else (setActive [] b, Ret tt).
Proof.
  intros Hb Hps. revert b Hb. induction Hps as [|pair pairs Hp Hps IH]; intros b Hb; pose proof Hb as (Hok & _).
  - change (strlen (map pairValue [])) with 0. pose proof (mo_max _ Hok). destruct (Z.leb_spec (_spaceUsed b + 0) MAX_SPACE); [|lia].
    cbn [map]. by rewrite app_nil_r, setActive_same.
  - change (pairsText (pair :: pairs) ++ text) with (pair.1 :: pair.2 :: pairsText pairs ++ text). rewrite parse_pair by done.
    assert (Hlen : strlen (map pairValue (pair :: pairs)) = 1 + strlen (map pairValue pairs)) by (unfold strlen; cbn [map length]; lia).
    pose proof (strlen_nonneg (map pairValue pairs)). rewrite Hlen.
    destruct (Z.ltb_spec (_spaceUsed b) MAX_SPACE); [|destruct (Z.leb_spec (_spaceUsed b + (1 + strlen (map pairValue pairs))) MAX_SPACE); [lia|done]].
    assert (Hone : strlen [pairValue pair] = 1) by done.
    rewrite IH by (apply ready_setActive; [done|rewrite strlen_app, Hone; lia]).
    rewrite active_setActive, !setActive_setActive, space_setActive, strlen_app, Hone by done.
    replace (_spaceUsed b - strlen (active b) + (strlen (active b) + 1) + strlen (map pairValue pairs))
      with (_spaceUsed b + (1 + strlen (map pairValue pairs))) by lia.
    cbn [map]. by rewrite <- app_assoc.
Qed.

(** ** A repeat *)
Lemma parse_count count text b : _parseState b = ExpectingRepeatCount -> 0 <= _repeatCount b <= MAX_PARAMETER_VALUE -> Forall is_digit count ->
  parseAll (count ++ text) b = parseAll text (set_repeatCount (fold_left saturate count (_repeatCount b)) b).
Proof.
  intros Hst Hr Hd. revert b Hst Hr. induction Hd as [|ch count Hch Hd IH]; intros b Hst Hr; [by destruct b|]. cbn [app fold_left].
  assert (Hdig : 0x30 <= ch <= 0x39) by (unfold is_digit, _isNumericParamValue in Hch; lia).
  assert (Hsat : 0 <= saturate (_repeatCount b) ch <= MAX_PARAMETER_VALUE) by (unfold saturate, MAX_PARAMETER_VALUE in *; lia).
  rewrite (parse_accepted ch _ b (set_repeatCount (saturate (_repeatCount b) ch) b)); [by rewrite IH|lia|].
  unfold parseCharacter. rewrite run_gets, Hst. cbv match. destruct (Z.leb_spec 0x30 ch), (Z.leb_spec ch 0x39); try lia. cbn [andb].
  rewrite run_modify. unfold saturate, MAX_PARAMETER_VALUE, mret, M_ret in *. rewrite wrap_small by lia. by rewrite Z.min_comm.
Qed.

(** From the start of a repeat to its pairs. *)
Definition opened (count : wstring) b : MacroBuffer :=
  set_repeatStart (strlen (active b)) (set_repeatPending true (set_repeatCount (fold_left saturate count 0) b)).
Lemma count_bound count : Forall is_digit count -> 0 <= fold_left saturate count 0 <= MAX_PARAMETER_VALUE.
Proof.
  assert (Hgen : forall v, Forall is_digit count -> 0 <= v <= MAX_PARAMETER_VALUE -> 0 <= fold_left saturate count v <= MAX_PARAMETER_VALUE).
  { induction count as [|ch count IH]; intros v Hd Hv; [done|]. inversion_clear Hd as [|? ? Hch Hcs]. cbn [fold_left]. apply IH; [done|].
    unfold is_digit, _isNumericParamValue, saturate, MAX_PARAMETER_VALUE in *. lia. }
  intros Hd. apply Hgen; [done|]. unfold MAX_PARAMETER_VALUE. lia.
Qed.

Lemma opened_ready count b : ready b -> Forall is_digit count -> ready (opened count b).
Proof. intros (Hok & Hst & Hdec) Hc. split; [|done]. by apply (macros_ok_core b); [|apply count_bound|]. Qed.

Lemma parse_opening count text b : ready b -> _repeatPending b = false -> Forall is_digit count ->
  parseAll (0x21 :: count ++ 0x3B :: text) b = parseAll text (opened count b).
Proof.
  intros (Hok & Hst & Hdec) Hp Hc. set (b1 := set_repeatCount 0 (set_parseState ExpectingRepeatCount b)).
  rewrite (parse_accepted 0x21 _ b b1); [|lia|].
  2:{ unfold parseCharacter. rewrite run_gets, Hst. cbv match. rewrite (run_bind _ _ _ _ _ (decode_other 0x21 b eq_refl)), run_gets.
      cbn [_repeatPending set_decodedChar]. rewrite Hp, Hdec. change ((0x21 =? 0x21) && negb false) with true. cbv match. rewrite run_modify. unfold mret, M_ret. do 2 f_equal. destruct b. cbn in *. by subst. }
  rewrite parse_count; [|done|unfold MAX_PARAMETER_VALUE; cbn; lia|done]. change (_repeatCount b1) with 0.
  set (b2 := set_repeatCount _ b1). assert (Hok2 : macros_ok b2) by (by apply (macros_ok_core b); [|apply count_bound|]).
  rewrite (parse_accepted 0x3B _ b2 (opened count b)); [done|lia|].
  unfold parseCharacter. rewrite run_gets. change (_parseState b2) with ExpectingRepeatCount. cbv match.
  change ((0x30 <=? 0x3B) && (0x3B <=? 0x39)) with false. change (0x3B =? 0x3B) with true. cbv match.
  rewrite (run_bind _activeMacro _ b2 b2 (active b2)) by (by apply active_run). rewrite run_modify. change (active b2) with (active b).
  unfold mret, M_ret. do 2 f_equal. unfold opened. destruct b. cbn in *. by subst.
Qed.

(** The pairs of a repeat, up to its end. *)
Lemma parse_repeated count pairs text b : ready b -> _repeatPending b = false -> Forall is_digit count -> Forall pair_ok pairs ->
  parseAll (openText count pairs ++ text) b
  = if _spaceUsed b + strlen (map pairValue pairs) <=? MAX_SPACE
    then parseAll text (setActive (active b ++ map pairValue pairs) (opened count b))
    else (setActive [] (opened count b), Ret tt).
Proof.
  intros Hb Hp Hc Hps. unfold openText. cbn [app]. rewrite <- app_assoc. cbn [app]. rewrite parse_opening by done.
  by rewrite (parse_pairs pairs text (opened count b)) by (done || by apply opened_ready).
Qed.

Lemma strlen_copies n (x : wstring) : strlen (concat (repeat x n)) = Z.of_nat n * strlen x.
Proof. induction n as [|n IH]; [done|]. cbn [repeat concat]. rewrite strlen_app, IH. lia. Qed.

(** The end of a repeat whose pairs have been read. *)
Definition readPairs (count : wstring) (pairs : list Pair) b : MacroBuffer := setActive (active b ++ map pairValue pairs) (opened count b).
Definition closed (count : wstring) (pairs : list Pair) b : MacroBuffer :=
  set_repeatPending false (setActive (active b ++ repeatedPairs count pairs) (opened count b)).

Lemma close_repeat count pairs b : ready b -> Forall is_digit count -> _spaceUsed b + strlen (map pairValue pairs) <= MAX_SPACE ->
  _applyPendingRepeat (readPairs count pairs b)
  = if _spaceUsed b + strlen (repeatedPairs count pairs) <=? MAX_SPACE then (closed count pairs b, Ret true)
    else (readPairs count pairs b, Ret false).
Proof.
  intros Hb Hc Hfit. pose proof (opened_ready count b Hb Hc) as (Hok & _). pose proof (count_bound count Hc) as Hcb.
  set (values := map pairValue pairs) in *. pose proof (strlen_nonneg values). pose proof (strlen_nonneg (active b)).
  assert (Hact : active (readPairs count pairs b) = active b ++ values) by (by apply (active_setActive (opened count b))).
  assert (Hok3 : macros_ok (readPairs count pairs b)).
  { apply setActive_ok; [done|]. change (active (opened count b)) with (active b). change (_spaceUsed (opened count b)) with (_spaceUsed b).
    rewrite strlen_app. fold values. lia. }
  rewrite repeat_run; [|done|]; change (_repeatStart (readPairs count pairs b)) with (strlen (active b)); [|rewrite Hact, strlen_app; lia].
  assert (Hcopies : Z.of_nat (copies count) = Z.max 1 (fold_left saturate count 0)) by (unfold copies; lia).
  assert (Hfits : repeatFits (readPairs count pairs b) = (_spaceUsed b + strlen (repeatedPairs count pairs) <=? MAX_SPACE)).
  { unfold repeatFits, repeatedPairs. fold values. rewrite Hact, strlen_copies, Hcopies, strlen_app.
    change (_repeatStart (readPairs count pairs b)) with (strlen (active b)).
    change (_repeatCount (readPairs count pairs b)) with (fold_left saturate count 0).
    change (_spaceUsed (readPairs count pairs b)) with (_spaceUsed b - strlen (active b) + strlen (active b ++ values)). rewrite strlen_app.
    match goal with |- (?x <=? _) = (?y <=? _) => destruct (Z.leb_spec x MAX_SPACE), (Z.leb_spec y MAX_SPACE) end; try done; exfalso; nia. }
  rewrite Hfits. destruct (_ <=? MAX_SPACE); [|done]. unfold closed.
  assert (Hrep : repeated (readPairs count pairs b) = active b ++ repeatedPairs count pairs).
  { unfold repeated. rewrite Hact. change (_repeatStart (readPairs count pairs b)) with (strlen (active b)).
    change (_repeatCount (readPairs count pairs b)) with (fold_left saturate count 0).
    unfold strlen at 1. rewrite Nat2Z.id, drop_app_length, <- app_assoc. f_equal. unfold repeatedPairs. fold values.
    replace (copies count) with (S (Z.to_nat (fold_left saturate count 0 - 1))) by (unfold copies; lia). done. }
  rewrite Hrep. unfold readPairs. by rewrite setActive_setActive.
Qed.

Lemma read_ready count pairs b : ready b -> Forall is_digit count -> _spaceUsed b + strlen (map pairValue pairs) <= MAX_SPACE ->
  ready (readPairs count pairs b).
Proof.
  intros Hb Hc Hfit. apply ready_setActive; [by apply opened_ready|]. change (active (opened count b)) with (active b).
  change (_spaceUsed (opened count b)) with (_spaceUsed b). rewrite strlen_app. lia.
Qed.

(** ** Pieces *)

(** The buffer after a part of the definition that denotes [value], or that does not fit. *)
Definition parsed b (value text rest : wstring) : Prop :=
  if _spaceUsed b + strlen value <=? MAX_SPACE
  then exists b', ready b' /\ _repeatPending b' = false /\ core b' = core (setActive (active b ++ value) b)
         /\ parseAll (text ++ rest) b = parseAll rest b'
  else exists b', core b' = core (setActive [] b) /\ parseAll (text ++ rest) b = (b', Ret tt).

Lemma parsed_piece piece rest b : ready b -> _repeatPending b = false -> piece_ok piece -> parsed b (pieceValue piece) (pieceText piece) rest.
Proof.
  intros Hb Hp Hpiece. pose proof Hb as (Hok & Hst & Hdec). unfold parsed. destruct piece as [pairs|count pairs]; cbn [pieceValue pieceText piece_ok] in *.
  - rewrite parse_pairs by done. destruct (Z.leb_spec (_spaceUsed b + strlen (map pairValue pairs)) MAX_SPACE); [|by eexists].
    eexists. split_and!; [|..|done]; [|done|done]. apply ready_setActive; [done|]. rewrite strlen_app. lia.
  - destruct Hpiece as [Hc Hps]. rewrite <- app_assoc, parse_repeated by done.
    assert (Hle : strlen (map pairValue pairs) <= strlen (repeatedPairs count pairs)).
    { unfold repeatedPairs. rewrite strlen_copies. pose proof (strlen_nonneg (map pairValue pairs)). unfold copies. nia. }
    destruct (Z.leb_spec (_spaceUsed b + strlen (map pairValue pairs)) MAX_SPACE) as [Hfit|].
    2:{ destruct (Z.leb_spec (_spaceUsed b + strlen (repeatedPairs count pairs)) MAX_SPACE); [lia|]. by exists (setActive [] (opened count b)). }
    pose proof (read_ready count pairs b Hb Hc Hfit) as (Hok3 & Hst3 & Hdec3). fold (readPairs count pairs b).
    pose proof (close_repeat count pairs b Hb Hc Hfit) as Hclose.
    assert (Hchar : parseCharacter 0x3B (readPairs count pairs b) = _applyPendingRepeat (readPairs count pairs b)).
    { unfold parseCharacter. rewrite run_gets, Hst3. cbv match. rewrite (run_bind _ _ _ _ _ (decode_other 0x3B _ eq_refl)), run_gets. rewrite Hdec3.
      change (u16 (Z.shiftl 0 4)) with 0. replace (set_decodedChar 0 (readPairs count pairs b)) with (readPairs count pairs b).
      - reflexivity.
      - unfold readPairs, setActive, opened. destruct b. cbn in *. by subst. }
    rewrite Hclose in Hchar.
    destruct (Z.leb_spec (_spaceUsed b + strlen (repeatedPairs count pairs)) MAX_SPACE).
    + exists (closed count pairs b). cbn [app]. rewrite (parse_accepted 0x3B _ _ _ ltac:(lia) Hchar). split_and!; [|done..].
      destruct (opened_ready count b Hb Hc) as (Hoko & _). split; [|done].
      apply (macros_ok_core (setActive (active b ++ repeatedPairs count pairs) (opened count b))); [done|by apply count_bound|].
      apply setActive_ok; [done|]. change (active (opened count b)) with (active b). change (_spaceUsed (opened count b)) with (_spaceUsed b).
      rewrite strlen_app. lia.
    + cbn [app]. rewrite (parse_refused 0x3B _ _ _ ltac:(lia) Hchar Hok3). eexists. split; [|done].
      unfold readPairs. rewrite setActive_setActive by (by apply opened_ready). done.
Qed.

Lemma core_fields b b' : core b' = core b -> _macros b' = _macros b /\ _spaceUsed b' = _spaceUsed b /\ active b' = active b
  /\ forall macro, core (setActive macro b') = core (setActive macro b).
Proof.
  intros [= H1 H2 H3 H4 H5]. assert (Ha : active b' = active b) by (unfold active; by rewrite H1, H2). split_and!; [done..|].
  intros macro. unfold core, setActive. cbn. by rewrite Ha, H1, H2, H3, H4, H5.
Qed.

Lemma parsed_pieces pieces rest b : ready b -> _repeatPending b = false -> Forall piece_ok pieces ->
  parsed b (concat (map pieceValue pieces)) (concat (map pieceText pieces)) rest.
Proof.
  intros Hb Hp Hps. revert b Hb Hp. induction Hps as [|piece pieces Hpiece Hps IH]; intros b Hb Hp; pose proof Hb as (Hok & _); cbn [map concat].
  { unfold parsed. change (strlen []) with 0. pose proof (mo_max _ Hok). destruct (Z.leb_spec (_spaceUsed b + 0) MAX_SPACE); [|lia].
    exists b. rewrite app_nil_r, setActive_same by done. by split_and!. }
  set (value := concat (map pieceValue pieces)) in *. set (text := concat (map pieceText pieces)) in *.
  pose proof (parsed_piece piece (text ++ rest) b Hb Hp Hpiece) as Hfirst. unfold parsed in *. rewrite <- app_assoc. rewrite strlen_app.
  pose proof (strlen_nonneg value). destruct (Z.leb_spec (_spaceUsed b + strlen (pieceValue piece)) MAX_SPACE).
  2:{ destruct (Z.leb_spec (_spaceUsed b + (strlen (pieceValue piece) + strlen value)) MAX_SPACE); [lia|done]. }
  destruct Hfirst as (b1 & Hb1 & Hp1 & Hcore & ->). specialize (IH b1 Hb1 Hp1). apply core_fields in Hcore as (_ & Hs & Ha & Hset).
  rewrite active_setActive in Ha by done. rewrite Hs, space_setActive, strlen_app in IH.
  replace (_spaceUsed b - strlen (active b) + (strlen (active b) + strlen (pieceValue piece)) + strlen value)
    with (_spaceUsed b + (strlen (pieceValue piece) + strlen value)) in IH by lia.
  destruct (_ <=? MAX_SPACE).
  - destruct IH as (b2 & Hb2 & Hp2 & Hc2 & Hrun). exists b2. split_and!; [done..| |done].
    rewrite Hc2, Hset, setActive_setActive, Ha, <- app_assoc by done. done.
  - destruct IH as (b2 & Hc2 & Hrun). exists b2. split; [|done]. by rewrite Hc2, Hset, setActive_setActive.
Qed.

(** ** The end *)

(** A repeat that ESC ends. *)
Definition Open : Type := option (wstring * list Pair).
Definition endText (o : Open) : wstring := match o with Some (count, pairs) => openText count pairs | None => [] end.
Definition endValue (o : Open) : wstring := match o with Some (count, pairs) => repeatedPairs count pairs | None => [] end.
Definition end_ok (o : Open) : Prop := match o with Some (count, pairs) => Forall is_digit count /\ Forall pair_ok pairs | None => True end.

Lemma parse_esc success b b1 : _repeatPending b = true -> _applyPendingRepeat b = (b1, Ret success) -> (success = false -> macros_ok b1) ->
  parseAll [AsciiChars.ESC] b = (if success then b1 else setActive [] b1, Ret tt).
Proof.
  intros Hp Hr Hok. cbn [parseAll]. unfold ParseDefinition. rewrite Z.eqb_refl. unfold mbind at 1, M_bind at 1. rewrite run_gets, Hp.
  cbv match. unfold mbind at 1, M_bind at 1. rewrite (run_bind _ _ _ _ _ Hr). destruct success; [done|]. by rewrite (deleteActive_run b1 (Hok eq_refl)).
Qed.
Lemma parse_esc_idle b : _repeatPending b = false -> parseAll [AsciiChars.ESC] b = (b, Ret tt).
Proof. intros Hp. cbn [parseAll]. unfold ParseDefinition. rewrite Z.eqb_refl. unfold mbind at 1, M_bind at 1. by rewrite run_gets, Hp. Qed.

Lemma parsed_end o b : ready b -> _repeatPending b = false -> end_ok o ->
  exists b', parseAll (endText o ++ [AsciiChars.ESC]) b = (b', Ret tt)
    /\ core b' = core (setActive (if _spaceUsed b + strlen (endValue o) <=? MAX_SPACE then active b ++ endValue o else []) b).
Proof.
  intros Hb Hp Ho. pose proof Hb as (Hok & _). destruct o as [[count pairs]|]; cbn [endText endValue end_ok] in *.
  2:{ exists b. split; [by apply parse_esc_idle|].
      change (strlen []) with 0. pose proof (mo_max _ Hok). destruct (Z.leb_spec (_spaceUsed b + 0) MAX_SPACE); [|lia]. by rewrite app_nil_r, setActive_same. }
  destruct Ho as [Hc Hps]. rewrite parse_repeated by done.
  assert (Hle : strlen (map pairValue pairs) <= strlen (repeatedPairs count pairs)).
  { unfold repeatedPairs. rewrite strlen_copies. pose proof (strlen_nonneg (map pairValue pairs)). unfold copies. nia. }
  destruct (Z.leb_spec (_spaceUsed b + strlen (map pairValue pairs)) MAX_SPACE) as [Hfit|].
  2:{ destruct (Z.leb_spec (_spaceUsed b + strlen (repeatedPairs count pairs)) MAX_SPACE); [lia|]. by exists (setActive [] (opened count b)). }
  pose proof (read_ready count pairs b Hb Hc Hfit) as (Hok3 & _). fold (readPairs count pairs b).
  pose proof (close_repeat count pairs b Hb Hc Hfit) as Hclose.
  pose proof (fun success b1 => parse_esc success (readPairs count pairs b) b1 eq_refl) as Hesc. rewrite Hclose in Hesc.
  destruct (_ <=? MAX_SPACE) in *.
  - rewrite (Hesc true _ eq_refl) by done. by eexists.
  - rewrite (Hesc false _ eq_refl) by done. eexists. split; [done|]. unfold readPairs. rewrite setActive_setActive by (by apply opened_ready). done.
Qed.

Lemma parsed_definition pieces o b : ready b -> _repeatPending b = false -> Forall piece_ok pieces -> end_ok o ->
  exists b', parseAll (concat (map pieceText pieces) ++ endText o ++ [AsciiChars.ESC]) b = (b', Ret tt)
    /\ core b' = core (setActive (if _spaceUsed b + strlen (concat (map pieceValue pieces) ++ endValue o) <=? MAX_SPACE
                                  then active b ++ concat (map pieceValue pieces) ++ endValue o else []) b).
Proof.
  intros Hb Hp Hps Ho. pose proof Hb as (Hok & _). pose proof (parsed_pieces pieces (endText o ++ [AsciiChars.ESC]) b Hb Hp Hps) as Hpieces.
  unfold parsed in Hpieces. set (value := concat (map pieceValue pieces)) in *. rewrite strlen_app. pose proof (strlen_nonneg (endValue o)).
  destruct (Z.leb_spec (_spaceUsed b + strlen value) MAX_SPACE).
  2:{ destruct Hpieces as (b' & Hcore & Hrun). exists b'. split; [done|].
      destruct (Z.leb_spec (_spaceUsed b + (strlen value + strlen (endValue o))) MAX_SPACE); [lia|done]. }
  destruct Hpieces as (b1 & Hb1 & Hp1 & Hcore & ->). apply core_fields in Hcore as (_ & Hs & Ha & Hset). rewrite active_setActive in Ha by done.
  destruct (parsed_end o b1 Hb1 Hp1 Ho) as (b' & Hrun & Hcore). exists b'. split; [done|].
  rewrite Hcore, Hset, setActive_setActive, Ha, Hs, space_setActive, strlen_app, <- app_assoc by done.
  by replace (_spaceUsed b - strlen (active b) + (strlen (active b) + strlen value) + strlen (endValue o))
    with (_spaceUsed b + (strlen value + strlen (endValue o))) by lia.
Qed.

(** ** Whole definitions *)

(** Control characters other than ESC are skipped. *)
Definition visible ch : bool := (0x20 <=? ch) || (ch =? AsciiChars.ESC).
Lemma parse_visible text b : parseAll text b = parseAll (List.filter visible text) b.
Proof.
  revert b. induction text as [|ch text IH]; intros b; [done|]. cbn [List.filter parseAll]. unfold visible at 1.
  destruct (Z.leb_spec 0x20 ch); cbn [orb]; [|destruct (Z.eqb_spec ch AsciiChars.ESC)].
  1,2: cbn [parseAll]; unfold mbind, M_bind; destruct (ParseDefinition ch b) as [b1 [[]| | |]]; (done || apply IH).
  rewrite <- IH. unfold ParseDefinition at 1. destruct (Z.eqb_spec ch AsciiChars.ESC); [done|]. destruct (Z.ltb_spec ch 0x20); [done|lia].
Qed.

(** Text is taken as it is. *)
Lemma parse_text text b : macros_ok b -> _parseState b = ExpectingText -> _repeatPending b = false -> Forall (fun ch => 0x20 <= ch) text ->
  parseAll (text ++ [AsciiChars.ESC]) b
  = (setActive (if _spaceUsed b + strlen text <=? MAX_SPACE then active b ++ text else []) b, Ret tt).
Proof.
  intros Hok Hst Hp Ht. revert b Hok Hst Hp. induction Ht as [|ch text Hch Ht IH]; intros b Hok Hst Hp; pose proof (mo_max _ Hok).
  { change (strlen []) with 0. destruct (Z.leb_spec (_spaceUsed b + 0) MAX_SPACE); [|lia]. rewrite app_nil_r, setActive_same by done.
    by apply parse_esc_idle. }
  assert (Hlen : strlen (ch :: text) = 1 + strlen text) by (unfold strlen; cbn [length]; lia). pose proof (strlen_nonneg text). rewrite Hlen.
  assert (Hone : strlen [ch] = 1) by done.
  assert (Hchar : parseCharacter ch b = _appendToActiveMacro ch b) by (unfold parseCharacter; by rewrite run_gets, Hst).
  rewrite append_run in Hchar by done. change ((ch :: text) ++ [AsciiChars.ESC]) with (ch :: text ++ [AsciiChars.ESC]).
  destruct (Z.ltb_spec (_spaceUsed b) MAX_SPACE).
  - rewrite (parse_accepted ch _ _ _ Hch Hchar), IH; [|apply setActive_ok; [done|rewrite strlen_app, Hone; lia]|done|done].
    rewrite active_setActive, setActive_setActive, space_setActive, strlen_app, Hone by done.
    replace (_spaceUsed b - strlen (active b) + (strlen (active b) + 1) + strlen text) with (_spaceUsed b + (1 + strlen text)) by lia.
    by rewrite <- app_assoc.
  - rewrite (parse_refused ch _ _ _ Hch Hchar Hok). destruct (Z.leb_spec (_spaceUsed b + (1 + strlen text)) MAX_SPACE); [lia|done].
Qed.

(** The start of a definition that replaces a macro. *)
Definition started (encoding macroId : Z) b : MacroBuffer :=
  set_parseState (if encoding =? MacroEncoding.HexPair then ExpectingHexDigit else ExpectingText)
    (set_repeatPending false (set_decodedChar 0 (set_activeMacroId macroId b))).
Lemma started_ok encoding macroId b : macros_ok b -> 0 <= macroId < Z.of_nat MACRO_COUNT -> macros_ok (started encoding macroId b).
Proof. intros [] Hid. by split. Qed.

Lemma start_definition encoding macroId text b : macros_ok b -> _invokedDepth b = 0 -> 0 <= macroId < Z.of_nat MACRO_COUNT ->
  encoding = MacroEncoding.HexPair \/ encoding = MacroEncoding.Text ->
  defineMacro macroId MacroDeleteControl.DeleteId encoding text b = parseAll text (setActive [] (started encoding macroId b)).
Proof.
  intros Hok Hd Hid Henc. unfold defineMacro. pose proof (started_ok encoding macroId b Hok Hid) as Hok1.
  assert (Hinit : InitParser macroId MacroDeleteControl.DeleteId encoding b = (setActive [] (started encoding macroId b), Ret true)).
  { unfold InitParser. rewrite !run_gets, (mo_count _ Hok), Hd. destruct (Z.ltb_spec macroId (Z.of_nat MACRO_COUNT)); [|lia]. cbn [andb Z.eqb].
    rewrite run_modify. destruct Henc as [-> | ->]; cbn [orb Z.eqb MacroEncoding.HexPair MacroEncoding.Text Pos.eqb]; rewrite run_modify;
      change (MacroDeleteControl.DeleteId =? MacroDeleteControl.DeleteId) with true; cbv match;
      by rewrite (run_bind _ _ _ _ _ (deleteActive_run _ Hok1)). }
  by rewrite (run_bind _ _ _ _ _ Hinit).
Qed.

(** The macros after a definition: the text if it fits beside the other macros. *)
Definition afterDefinition macroId (value : wstring) (macros : list wstring) : list wstring :=
  let defined := <[Z.to_nat macroId := value]> macros in
  if totalLength defined <=? MAX_SPACE then defined else <[Z.to_nat macroId := []]> macros.

Lemma definition_macros encoding macroId value b b' : macros_ok b -> 0 <= macroId < Z.of_nat MACRO_COUNT ->
  let b1 := setActive [] (started encoding macroId b) in
  core b' = core (setActive (if _spaceUsed b1 + strlen value <=? MAX_SPACE then active b1 ++ value else []) b1) ->
  _macros b' = afterDefinition macroId value (_macros b).
Proof.
  intros Hok Hid b1 Hcore. apply core_fields in Hcore as (-> & _). pose proof (started_ok encoding macroId b Hok Hid) as Hok1.
  pose proof (active_lookup _ Hok1) as Hl. change (_macros (started encoding macroId b)) with (_macros b) in Hl.
  change (_activeMacroId (started encoding macroId b)) with macroId in Hl.
  assert (Hact : active b1 = []) by (by apply active_setActive). unfold b1 at 3. rewrite setActive_setActive by done. rewrite Hact. cbn [app].
  unfold afterDefinition. rewrite (totalLength_insert _ _ _ value Hl), <- (mo_space _ Hok).
  assert (Hs : _spaceUsed b1 = _spaceUsed b - strlen (active (started encoding macroId b))) by (unfold b1; rewrite space_setActive; change (strlen []) with 0; cbn; lia).
  rewrite Hs. by destruct (_ <=? MAX_SPACE).
Qed.

(** C38: a macro is what its definition says. A definition that replaces a macro, with control
    characters anywhere, sets it to the text that was sent, or, in hexadecimal, to the bytes
    of its pairs with every repeat written out (a last repeat need not be closed), if that
    fits into [MAX_SPACE] characters with all other macros; if not, the macro becomes empty.
    The other macros stay as they are. *)
Theorem macro_definition macroId text b :
  macros_ok b -> _invokedDepth b = 0 -> 0 <= macroId < Z.of_nat MACRO_COUNT -> Forall is_wchar text ->
  (forall pieces o, Forall piece_ok pieces -> end_ok o ->
     List.filter visible text = concat (map pieceText pieces) ++ endText o ->
     exists b', defineMacro macroId MacroDeleteControl.DeleteId MacroEncoding.HexPair (text ++ [AsciiChars.ESC]) b = (b', Ret tt)
       /\ macros_ok b' /\ _macros b' = afterDefinition macroId (concat (map pieceValue pieces) ++ endValue o) (_macros b))
  /\ (Forall (fun ch => ch <> AsciiChars.ESC) text ->
     exists b', defineMacro macroId MacroDeleteControl.DeleteId MacroEncoding.Text (text ++ [AsciiChars.ESC]) b = (b', Ret tt)
       /\ macros_ok b' /\ _macros b' = afterDefinition macroId (List.filter visible text) (_macros b)).
Proof.
  intros Hok Hd Hid Ht.
  assert (Hend : Forall is_wchar (text ++ [AsciiChars.ESC])) by (apply Forall_app; split; [done|repeat constructor; done]).
  assert (Hrun : forall encoding b', defineMacro macroId MacroDeleteControl.DeleteId encoding (text ++ [AsciiChars.ESC]) b = (b', Ret tt) -> macros_ok b').
  { intros encoding b' Hb'. destruct (defineMacro_run macroId MacroDeleteControl.DeleteId encoding _ b Hok ltac:(lia) Hend) as (b2 & Hb2 & ? & _). congruence. }
  assert (Hfilter : List.filter visible (text ++ [AsciiChars.ESC]) = List.filter visible text ++ [AsciiChars.ESC]) by apply List.filter_app.
  split.
  - intros pieces o Hps Ho Htext. set (b1 := setActive [] (started MacroEncoding.HexPair macroId b)).
    assert (Hb1 : ready b1). { split; [|done]. apply after_delete. by apply started_ok. }
    assert (Hgoal : exists b', parseAll (text ++ [AsciiChars.ESC]) b1 = (b', Ret tt) /\ core b' = core (setActive
        (if _spaceUsed b1 + strlen (concat (map pieceValue pieces) ++ endValue o) <=? MAX_SPACE then active b1 ++ concat (map pieceValue pieces) ++ endValue o else []) b1)).
    { rewrite parse_visible, Hfilter, Htext, <- app_assoc. by apply parsed_definition. }
    destruct Hgoal as (b' & Hparse & Hcore). exists b'. rewrite start_definition; [|done..|by left]. fold b1.
    assert (Hdef : defineMacro macroId MacroDeleteControl.DeleteId MacroEncoding.HexPair (text ++ [AsciiChars.ESC]) b = (b', Ret tt)).
    { rewrite start_definition; [done..|by left]. }
    split_and!; [done|by eapply Hrun|]. by apply (definition_macros MacroEncoding.HexPair).
  - intros Hesc. set (b1 := setActive [] (started MacroEncoding.Text macroId b)).
    assert (Hok1 : macros_ok b1). { apply after_delete. by apply started_ok. }
    assert (Hplain : Forall (fun ch => 0x20 <= ch) (List.filter visible text)).
    { apply List.Forall_forall. intros ch [Hin Hv]%List.filter_In. rewrite List.Forall_forall in Hesc. specialize (Hesc ch Hin).
      unfold visible in Hv. destruct (Z.eqb_spec ch AsciiChars.ESC); [done|]. lia. }
    eexists. rewrite start_definition; [|done..|by right]. fold b1. rewrite parse_visible, Hfilter, parse_text by done.
    split; [done|]. split; [|by apply (definition_macros MacroEncoding.Text)].
    eapply (Hrun MacroEncoding.Text). rewrite start_definition; [|done..|by right]. fold b1. by rewrite parse_visible, Hfilter, parse_text.
Qed.

(** [!2;4142;] and an unfinished [!3;4f], with a line feed inside. *)
Lemma macro_definition_witness :
  exists b', defineMacro 5 MacroDeleteControl.DeleteId MacroEncoding.HexPair (L "!2;41" ++ 0x0A :: L "42;!3;4f" ++ [AsciiChars.ESC]) MacroBuffer_ctor = (b', Ret tt)
    /\ macros_ok b' /\ _macros b' = afterDefinition 5 (L "ABABOOO") (_macros MacroBuffer_ctor).
Proof.
  apply (macro_definition 5 (L "!2;41" ++ 0x0A :: L "42;!3;4f") MacroBuffer_ctor) with
    (pieces := [Repeat (L "2") [(0x34, 0x31); (0x34, 0x32)]]) (o := Some (L "3", [(0x34, 0x66)]));
    [apply ctor_macros_ok|reflexivity|vm_compute; split; congruence|by_decide| | |reflexivity].
  - constructor; [|constructor]. split; [repeat constructor|]. repeat (constructor; [split; vm_compute; by eexists|]). constructor.
  - split; [repeat constructor|]. constructor; [split; vm_compute; by eexists|]. constructor.
Defined.
