(* ===== verification/Graphemes.v ===== *)
(** * Grapheme clusters and their widths

    [CodepointWidthDetector] ([src/types/CodepointWidthDetector.cpp]). A string is its
    address (counted in units) and its units; a pointer into it is an address, and while a
    cluster is read the rest of the string, or read backwards the part before in reverse. An
    access outside of a table or string is [None], and so is fuel that runs out: the loops
    are given the length of the string, which is enough. *)
From stdpp Require Import gmap.
From S2P Require Import Prelude GraphemeTables.

Inductive TextMeasurementMode := Graphemes | Wcswidth | Console.

Record GraphemeState := mkGraphemeState { beg : Z; len : Z; width : Z; _state : Z; _last : Z }.

(** [GraphemeState{}]; [nullptr] is address 0. *)
Definition GraphemeState_init : GraphemeState := mkGraphemeState 0 0 0 0 0.

(** [_pfnFallbackMethod] is the renderer's; it may throw ([None]). *)
Record CodepointWidthDetector := mkDetector {
  _fallbackCache : gmap Z Z;
  _pfnFallbackMethod : option (wstring -> option bool);
  _mode : TextMeasurementMode;
  _ambiguousWidth : Z
}.

Definition s_codepointWidthDetector : CodepointWidthDetector := mkDetector ∅ None Graphemes 1.

(** ** The tables *)
Definition ucdLookup (cp : Z) : option Z :=
  s0 ← load s_stage0 (Z.shiftr cp 11);
  s1 ← load s_stage1 (s0 + Z.land (Z.shiftr cp 6) 31);
  s2 ← load s_stage2 (s1 + Z.land (Z.shiftr cp 3) 7);
  load s_stage3 (s2 + Z.land (Z.shiftr cp 0) 7).

Definition ucdGraphemeJoins (state lead trail : Z) : option Z :=
  let l := Z.land lead 15 in
  let t := Z.land trail 15 in
  rules ← load s_joinRules state;
  word ← load rules l;
  Some (Z.land (Z.shiftr word (t * 2)) 3).

Definition ucdGraphemeDone (state : Z) : bool := state =? 3.
Definition ucdToCharacterWidth (val : Z) : Z := Z.shiftr val 6.

(** ** Code points *)
Definition utf16NextOrFFFD (it : wstring) : option (Z * wstring) :=
  match it with
  | [] => None
  | c :: it =>
      if Z.land c 0xF800 =? 0xD800 then
        match it with
        | c2 :: it' =>
            if (Z.land c 0x400 =? 0) && (Z.land c2 0xFC00 =? 0xDC00)
            then Some (u32 (u32 (Z.shiftl c 10) - 0x35FDC00 + c2), it') else Some (0xfffd, it)
        | [] => Some (0xfffd, it)
        end
      else Some (c, it)
  end.

(** [before] are the units before [it], the last one first. *)
Definition utf16PrevOrFFFD (before : wstring) : option (Z * wstring) :=
  match before with
  | [] => None
  | c :: before =>
      if Z.land c 0xF800 =? 0xD800 then
        match before with
        | c1 :: before' =>
            if negb (Z.land c 0x400 =? 0) && (Z.land c1 0xFC00 =? 0xD800)
            then Some (u32 (u32 (Z.shiftl c1 10) - 0x35FDC00 + c), before') else Some (0xfffd, before)
        | [] => Some (0xfffd, before)
        end
      else Some (c, before)
  end.

Definition resetIfOutOfRange (beg end_ reset ptr : Z) : Z :=
  let ret := ptr in
  let ret := if ptr <? beg then reset else ret in
  if ptr >? end_ then reset else ret.

(** ** Clusters *)
Section clusters.
(** [_ambiguousWidth]. *)
Context (ambiguousWidth : Z).

Definition characterWidth (val : Z) : Z :=
  let w := ucdToCharacterWidth val in
  if w =? 3 then ambiguousWidth else w.

(** The width a code point adds to a cluster; U+FE0F makes it wide. *)
Definition clusterWidth (cp val : Z) : Z := if cp =? 0xFE0F then 2 else characterWidth val.

(** The loop of [_graphemeNext] from its label [fetchNext]: the end of the cluster and its
    [width], [state] and [lead]. *)
Fixpoint fetchNext (fuel : nat) (clusterEnd : wstring) (width state lead : Z) : option (wstring * Z * Z * Z) :=
  match fuel with
  | O => None
  | S fuel =>
      '(cp, clusterEndNext) ← utf16NextOrFFFD clusterEnd;
      trail ← ucdLookup cp;
      state ← ucdGraphemeJoins state lead trail;
      if ucdGraphemeDone state then Some (clusterEnd, width, Z.lnot 0, 0)
      else
        let width := width + clusterWidth cp trail in
        match clusterEndNext with
        | [] => Some (clusterEndNext, width, state, trail)
        | _ => fetchNext fuel clusterEndNext width state trail
        end
  end.

Definition _graphemeNext (s : GraphemeState) (data : Z) (str : wstring) : option (GraphemeState * bool) :=
  let end_ := data + Z.of_nat (length str) in
  let clusterBeg := resetIfOutOfRange data end_ data (beg s + len s) in
  let rest := drop (Z.to_nat (clusterBeg - data)) str in
  match rest with
  | [] => Some (s, false)
  | _ =>
      '(clusterEnd, width, state, lead) ←
        (if negb (_state s =? 0) then fetchNext (length rest) rest (width s) (Z.lnot (_state s)) (_last s)
         else
           '(cp, clusterEnd) ← utf16NextOrFFFD rest;
           lead ← ucdLookup cp;
           let width := clusterWidth cp lead in
           match clusterEnd with
           | [] => Some (clusterEnd, width, 0, lead)
           | _ => fetchNext (length rest) clusterEnd width 0 lead
           end);
      let state := Z.lnot state in
      let width := if width >? 2 then 2 else width in
      Some (mkGraphemeState clusterBeg (int32 (Z.of_nat (length rest) - Z.of_nat (length clusterEnd))) width state lead,
            match clusterEnd with [] => false | _ => true end)
  end.

(** The same backwards, from the label [fetchNext] of [_graphemePrev]. *)
Fixpoint fetchPrev (fuel : nat) (clusterBeg : wstring) (width state trail : Z) : option (wstring * Z * Z * Z) :=
  match fuel with
  | O => None
  | S fuel =>
      '(cp, clusterBegNext) ← utf16PrevOrFFFD clusterBeg;
      lead ← ucdLookup cp;
      state ← ucdGraphemeJoins state lead trail;
      if ucdGraphemeDone state then Some (clusterBeg, width, Z.lnot 0, 0)
      else
        let width := width + clusterWidth cp lead in
        match clusterBegNext with
        | [] => Some (clusterBegNext, width, state, lead)
        | _ => fetchPrev fuel clusterBegNext width state lead
        end
  end.

Definition _graphemePrev (s : GraphemeState) (data : Z) (str : wstring) : option (GraphemeState * bool) :=
  let end_ := data + Z.of_nat (length str) in
  let clusterEnd := resetIfOutOfRange data end_ end_ (beg s) in
  let before := reverse (take (Z.to_nat (clusterEnd - data)) str) in
  match before with
  | [] => Some (s, false)
  | _ =>
      '(clusterBeg, width, state, trail) ←
        (if negb (_state s =? 0) then fetchPrev (length before) before (width s) (Z.lnot (_state s)) (_last s)
         else
           '(cp, clusterBeg) ← utf16PrevOrFFFD before;
           trail ← ucdLookup cp;
           let width := clusterWidth cp trail in
           match clusterBeg with
           | [] => Some (clusterBeg, width, 0, trail)
           | _ => fetchPrev (length before) clusterBeg width 0 trail
           end);
      let state := Z.lnot state in
      let width := if width >? 2 then 2 else width in
      Some (mkGraphemeState (data + Z.of_nat (length clusterBeg))
              (int32 (Z.of_nat (length before) - Z.of_nat (length clusterBeg))) width state trail,
            match clusterBeg with [] => false | _ => true end)
  end.

(** ** The modes of [wcswidth] *)
Fixpoint wcswidthNext (fuel : nat) (clusterEnd : wstring) (width state : Z) : option (wstring * Z * Z) :=
  match fuel with
  | O => None
  | S fuel =>
      '(cp, clusterEndNext) ← utf16NextOrFFFD clusterEnd;
      val ← ucdLookup cp;
      let w := characterWidth val in
      if negb (state =? 0) && negb (w =? 0) then Some (clusterEnd, width, 0)
      else
        match clusterEndNext with
        | [] => Some (clusterEndNext, width + w, 1)
        | _ => wcswidthNext fuel clusterEndNext (width + w) 1
        end
  end.

Definition _graphemeNextWcswidth (s : GraphemeState) (data : Z) (str : wstring) : option (GraphemeState * bool) :=
  let end_ := data + Z.of_nat (length str) in
  let clusterBeg := resetIfOutOfRange data end_ data (beg s + len s) in
  if clusterBeg >=? end_ then Some (s, false)
  else
    let rest := drop (Z.to_nat (clusterBeg - data)) str in
    let width := if _state s =? 0 then 0 else width s in
    '(clusterEnd, width, state) ← wcswidthNext (length rest) rest width (_state s);
    Some (mkGraphemeState clusterBeg (int32 (Z.of_nat (length rest) - Z.of_nat (length clusterEnd))) width state (_last s),
          match clusterEnd with [] => false | _ => true end).

(** The beginning of the cluster, its width, and [delayedCompletion]. *)
Fixpoint wcswidthPrev (fuel : nat) (clusterBeg : wstring) (width : Z) : option (wstring * Z * bool) :=
  match fuel with
  | O => None
  | S fuel =>
      '(cp, clusterBeg) ← utf16PrevOrFFFD clusterBeg;
      val ← ucdLookup cp;
      let width := width + characterWidth val in
      let hasWidth := negb (width =? 0) in
      let atEnd := match clusterBeg with [] => true | _ => false end in
      if hasWidth || atEnd then Some (clusterBeg, width, hasWidth && atEnd)
      else wcswidthPrev fuel clusterBeg width
  end.

Definition _graphemePrevWcswidth (s : GraphemeState) (data : Z) (str : wstring) : option (GraphemeState * bool) :=
  let end_ := data + Z.of_nat (length str) in
  let clusterEnd := resetIfOutOfRange data end_ end_ (beg s) in
  if clusterEnd <=? data then Some (s, false)
  else
    let before := reverse (take (Z.to_nat (clusterEnd - data)) str) in
    '(clusterBeg, width, delayedCompletion) ←
      (if _state s =? 0 then wcswidthPrev (length before) before 0 else Some (before, width s, false));
    Some (mkGraphemeState (data + Z.of_nat (length clusterBeg))
            (int32 (Z.of_nat (length before) - Z.of_nat (length clusterBeg))) width (Z.b2z delayedCompletion) (_last s),
          match clusterBeg with [] => false | _ => true end).
End clusters.

(** ** The mode of the console *)
Definition set_fallbackCache c d := mkDetector c (_pfnFallbackMethod d) (_mode d) (_ambiguousWidth d).

Definition _checkFallbackViaCache (codepoint : Z) (d : CodepointWidthDetector) : CodepointWidthDetector * Z :=
  match _pfnFallbackMethod d with
  | None => (d, 1)
  | Some pfnFallbackMethod =>
      match _fallbackCache d !! codepoint with
      | Some width => (d, width)
      | None =>
          let buf :=
            if codepoint <=? 0xffff then [u16 codepoint]
            else [u16 (Z.shiftr codepoint 10 + 0xD7C0); u16 (Z.lor (Z.land codepoint 0x3ff) 0xDC00)] in
          match pfnFallbackMethod buf with
          | None => (d, 1)
          | Some wide =>
              let width := if wide : bool then 2 else 1 in
              (set_fallbackCache (<[codepoint := width]> (_fallbackCache d)) d, width)
          end
      end
  end.

Definition consoleWidth (cp val : Z) (d : CodepointWidthDetector) : CodepointWidthDetector * Z :=
  let width := ucdToCharacterWidth val in
  if width =? 3 then _checkFallbackViaCache cp d else (d, width).

Definition _graphemeNextConsole (s : GraphemeState) (data : Z) (str : wstring) (d : CodepointWidthDetector) :
    option (CodepointWidthDetector * GraphemeState * bool) :=
  let end_ := data + Z.of_nat (length str) in
  let clusterBeg := resetIfOutOfRange data end_ data (beg s + len s) in
  if clusterBeg >=? end_ then Some (d, s, false)
  else
    let rest := drop (Z.to_nat (clusterBeg - data)) str in
    '(d, clusterEnd, width, delayedCompletion) ←
      (if _state s =? 0 then
         '(cp, clusterEnd) ← utf16NextOrFFFD rest;
         val ← ucdLookup cp;
         let '(d, width) := consoleWidth cp val d in
         Some (d, clusterEnd, width, match clusterEnd with [] => true | _ => false end)
       else Some (d, rest, width s, false));
    Some (d, mkGraphemeState clusterBeg (int32 (Z.of_nat (length rest) - Z.of_nat (length clusterEnd))) width
               (Z.b2z delayedCompletion) (_last s), negb delayedCompletion).

Definition _graphemePrevConsole (s : GraphemeState) (data : Z) (str : wstring) (d : CodepointWidthDetector) :
    option (CodepointWidthDetector * GraphemeState * bool) :=
  let end_ := data + Z.of_nat (length str) in
  let clusterEnd := resetIfOutOfRange data end_ end_ (beg s) in
  if clusterEnd <=? data then Some (d, s, false)
  else
    let before := reverse (take (Z.to_nat (clusterEnd - data)) str) in
    '(d, clusterBeg, width, delayedCompletion) ←
      (if _state s =? 0 then
         '(cp, clusterBeg) ← utf16PrevOrFFFD before;
         val ← ucdLookup cp;
         let '(d, width) := consoleWidth cp val d in
         Some (d, clusterBeg, width, match clusterBeg with [] => true | _ => false end)
       else Some (d, before, width s, false));
    Some (d, mkGraphemeState (data + Z.of_nat (length clusterBeg))
               (int32 (Z.of_nat (length before) - Z.of_nat (length clusterBeg))) width
               (Z.b2z delayedCompletion) (_last s), negb delayedCompletion).

(** ** The interface *)
Definition same_detector (d : CodepointWidthDetector) (r : option (GraphemeState * bool)) :
    option (CodepointWidthDetector * GraphemeState * bool) :=
  '(s, more) ← r; Some (d, s, more).

Definition GraphemeNext (s : GraphemeState) (data : Z) (str : wstring) (d : CodepointWidthDetector) :
    option (CodepointWidthDetector * GraphemeState * bool) :=
  match _mode d with
  | Graphemes => same_detector d (_graphemeNext (_ambiguousWidth d) s data str)
  | Wcswidth => same_detector d (_graphemeNextWcswidth (_ambiguousWidth d) s data str)
  | Console => _graphemeNextConsole s data str d
  end.

Definition GraphemePrev (s : GraphemeState) (data : Z) (str : wstring) (d : CodepointWidthDetector) :
    option (CodepointWidthDetector * GraphemeState * bool) :=
  match _mode d with
  | Graphemes => same_detector d (_graphemePrev (_ambiguousWidth d) s data str)
  | Wcswidth => same_detector d (_graphemePrevWcswidth (_ambiguousWidth d) s data str)
  | Console => _graphemePrevConsole s data str d
  end.

Definition GetMode (d : CodepointWidthDetector) : TextMeasurementMode := _mode d.
Definition GetAmbiguousWidth (d : CodepointWidthDetector) : Z := _ambiguousWidth d.
Definition SetAmbiguousWidth (width : Z) (d : CodepointWidthDetector) : CodepointWidthDetector :=
  mkDetector (_fallbackCache d) (_pfnFallbackMethod d) (_mode d) width.
Definition SetFallbackMethod (pfnFallback : option (wstring -> option bool)) (d : CodepointWidthDetector) : CodepointWidthDetector :=
  mkDetector (_fallbackCache d) pfnFallback (_mode d) (_ambiguousWidth d).
Definition Reset (mode : TextMeasurementMode) (d : CodepointWidthDetector) : CodepointWidthDetector :=
  mkDetector ∅ (_pfnFallbackMethod d) mode (_ambiguousWidth d).
