(* ===== verification/GraphemeTheorems.v ===== *)
(** * Grapheme clusters: totality and segmentation

    No code point leads out of the tables, and the loops end within the string. Calls in a row
    divide a string into its clusters, and a cluster that the end of a string cuts is continued
    in the next string. *)

From stdpp Require Import gmap.
From S2P Require Import Prelude GraphemeTables Graphemes.

(** ** The tables *)
Lemma load_In {A} (l : list A) i v : load l i = Some v -> In v l.
Proof. unfold load. destruct (i <? 0); [done|]. intros Hl. by apply list_elem_of_In, (list_elem_of_lookup_2 _ (Z.to_nat i)). Qed.

Lemma load_forallb {A} (p : A -> bool) l i v : forallb p l = true -> load l i = Some v -> p v = true.
Proof. intros Hp Hl. rewrite forallb_forall in Hp. by apply Hp, (load_In l i). Qed.

Definition stage_fits (next : list Z) (last : Z) (v : Z) : bool := (0 <=? v) && (v + last <? Z.of_nat (length next)).

Lemma stage0_fits : forallb (stage_fits s_stage1 31) s_stage0 = true.
Proof. vm_compute. reflexivity. Qed.
Lemma stage1_fits : forallb (stage_fits s_stage2 7) s_stage1 = true.
Proof. vm_compute. reflexivity. Qed.
Lemma stage2_fits : forallb (stage_fits s_stage3 7) s_stage2 = true.
Proof. vm_compute. reflexivity. Qed.
Lemma stage0_length : length s_stage0 = 544%nat.
Proof. vm_compute. reflexivity. Qed.

Definition is_value (v : Z) : bool := (0 <=? v) && (v <? 256).
Lemma stage3_values : forallb is_value s_stage3 = true.
Proof. vm_compute. reflexivity. Qed.

Lemma stage_load next last l i v j : forallb (stage_fits next last) l = true -> load l i = Some v -> 0 <= j <= last -> is_Some (load next (v + j)).
Proof.
  intros Hf Hl Hj. pose proof (load_forallb _ _ _ _ Hf Hl) as Hv. unfold stage_fits in Hv. apply load_bound. lia.
Qed.

Lemma land_below a k n : 0 <= n -> k = Z.ones n -> 0 <= Z.land a k <= k.
Proof.
  intros Hn ->. rewrite Z.land_ones, Z.ones_equiv by done. pose proof (Z.mod_pos_bound a (2 ^ n)). pose proof (Z.pow_pos_nonneg 2 n). lia.
Qed.

(** Every code point has a value. *)
Lemma ucdLookup_total cp : 0 <= cp < 0x110000 -> exists v, ucdLookup cp = Some v /\ 0 <= v < 256.
Proof.
  intros Hcp. unfold ucdLookup. rewrite Z.shiftr_0_r.
  assert (H0 : is_Some (load s_stage0 (Z.shiftr cp 11))).
  { apply load_bound. rewrite stage0_length, Z.shiftr_div_pow2 by lia. change (2 ^ 11) with 2048. pose proof (Z.div_pos cp 2048). pose proof (Z.div_lt_upper_bound cp 2048 544). lia. }
  destruct H0 as [s0 H0]. rewrite H0. cbn [mbind option_bind].
  destruct (stage_load _ _ _ _ _ _ stage0_fits H0 (land_below (Z.shiftr cp 6) 31 5 ltac:(lia) eq_refl)) as [s1 H1]. rewrite H1. cbn [mbind option_bind].
  destruct (stage_load _ _ _ _ _ _ stage1_fits H1 (land_below (Z.shiftr cp 3) 7 3 ltac:(lia) eq_refl)) as [s2 H2]. rewrite H2. cbn [mbind option_bind].
  destruct (stage_load _ _ _ _ _ _ stage2_fits H2 (land_below cp 7 3 ltac:(lia) eq_refl)) as [s3 H3]. rewrite H3. exists s3. split; [done|].
  pose proof (load_forallb _ _ _ _ stage3_values H3) as Hv. unfold is_value in Hv. lia.
Qed.

Lemma characterWidth_bounds amb v : 0 <= v < 256 -> 0 <= amb <= 2 -> 0 <= characterWidth amb v <= 2.
Proof.
  intros Hv Ha. unfold characterWidth, ucdToCharacterWidth. rewrite Z.shiftr_div_pow2 by lia. change (2 ^ 6) with 64.
  assert (Hd : 0 <= v / 64 <= 3) by (split; [apply Z.div_pos; lia|]; pose proof (Z.div_lt_upper_bound v 64 4); lia).
  destruct (Z.eqb_spec (v / 64) 3); lia.
Qed.

(** ** The join rules *)
Definition next_states : list Z := [0; 1; 3].
Definition joins_ok (state : Z) : bool :=
  forallb (fun l => forallb (fun t => match ucdGraphemeJoins state (Z.of_nat l) (Z.of_nat t) with
                                      | Some v => bool_decide (v ∈ next_states) | None => false end) (seq 0 16)) (seq 0 16).
Lemma joins_ok_states : forallb joins_ok [0; 1] = true.
Proof. vm_compute. reflexivity. Qed.

Lemma land_idemp a k : Z.land (Z.land a k) k = Z.land a k.
Proof. by rewrite <- Z.land_assoc, Z.land_diag. Qed.

Lemma joins_total state lead trail : state = 0 \/ state = 1 -> exists v, ucdGraphemeJoins state lead trail = Some v /\ (v = 0 \/ v = 1 \/ v = 3).
Proof.
  intros Hst. pose proof (land_below lead 15 4 ltac:(lia) eq_refl) as Hl. pose proof (land_below trail 15 4 ltac:(lia) eq_refl) as Ht.
  assert (Hj : joins_ok state = true).
  { pose proof joins_ok_states as HS. rewrite forallb_forall in HS. apply HS. cbn. destruct Hst as [-> | ->]; auto. }
  unfold joins_ok in Hj. rewrite forallb_forall in Hj. specialize (Hj (Z.to_nat (Z.land lead 15)) ltac:(apply in_seq; lia)).
  rewrite forallb_forall in Hj. specialize (Hj (Z.to_nat (Z.land trail 15)) ltac:(apply in_seq; lia)). rewrite !Z2Nat.id in Hj by lia.
  unfold ucdGraphemeJoins in Hj |- *. rewrite !land_idemp in Hj. destruct (load s_joinRules state) as [rules|]; [|done]. cbn [mbind option_bind] in Hj |- *.
  destruct (load rules (Z.land lead 15)) as [word|]; [|done]. cbn [mbind option_bind] in Hj |- *. eexists. split; [done|].
  apply bool_decide_eq_true, list_elem_of_In in Hj. cbn -[Z.land Z.shiftr] in Hj. intuition congruence.
Qed.

(** ** Code points *)
Lemma land_high c k n : 0 <= c < 2 ^ 16 -> 0 <= n <= 16 -> k = Z.ones 16 - Z.ones n -> Z.land c k = c / 2 ^ n * 2 ^ n.
Proof.
  intros Hc Hn ->. assert (Hk : Z.ones 16 - Z.ones n = Z.ldiff (Z.ones 16) (Z.ones n)).
  { apply Z.sub_nocarry_ldiff. apply Z.bits_inj'. intros i Hi. rewrite Z.ldiff_spec, Z.bits_0, !Z.testbit_ones_nonneg by lia.
    destruct (Z.ltb_spec i n), (Z.ltb_spec i 16); cbn; try done; lia. }
  rewrite Hk, <- Z.shiftl_mul_pow2, <- Z.shiftr_div_pow2, <- Z.ldiff_ones_r by lia. apply Z.bits_inj'. intros i Hi.
  rewrite Z.land_spec, !Z.ldiff_spec, !Z.testbit_ones_nonneg by lia. destruct (Z.ltb_spec i 16); [by rewrite andb_true_l|].
  assert (Hbit : Z.testbit c i = false).
  { apply Z.bits_above_log2; [lia|]. destruct (Z.eq_dec c 0) as [->|]; [cbn; lia|]. apply Z.log2_lt_pow2; [lia|]. pose proof (Z.pow_le_mono_r 2 16 i). lia. }
  by rewrite Hbit.
Qed.

(** What the tests for surrogates say. *)
Lemma surrogate_range c : is_wchar c -> (Z.land c 0xF800 =? 0xD800) = true -> 0xD800 <= c < 0xE000.
Proof.
  intros Hc Hl%Z.eqb_eq. rewrite (land_high c 0xF800 11) in Hl by (done || unfold is_wchar in Hc; lia). change (2 ^ 11) with 2048 in Hl.
  pose proof (Z.div_mod c 2048 ltac:(lia)). pose proof (Z.mod_pos_bound c 2048 ltac:(lia)). lia.
Qed.

Lemma trailing_range c : is_wchar c -> (Z.land c 0xFC00 =? 0xDC00) = true -> 0xDC00 <= c < 0xE000.
Proof.
  intros Hc Hl%Z.eqb_eq. rewrite (land_high c 0xFC00 10) in Hl by (done || unfold is_wchar in Hc; lia). change (2 ^ 10) with 1024 in Hl.
  pose proof (Z.div_mod c 1024 ltac:(lia)). pose proof (Z.mod_pos_bound c 1024 ltac:(lia)). lia.
Qed.

Lemma leading_range c : is_wchar c -> (Z.land c 0xF800 =? 0xD800) = true -> (Z.land c 0x400 =? 0) = true -> 0xD800 <= c < 0xDC00.
Proof.
  intros Hc Hs Hl. pose proof (surrogate_range c Hc Hs) as Hr. split; [lia|]. destruct (Z.lt_ge_cases c 0xDC00) as [|Hge]; [done|exfalso].
  apply Z.eqb_eq in Hl. assert (Hb : Z.testbit (Z.land c 0x400) 10 = true); [|rewrite Hl in Hb; done].
  rewrite Z.land_spec. change (Z.testbit 0x400 10) with true. rewrite andb_true_r, Z.testbit_eqb by lia. change (2 ^ 10) with 1024.
  pose proof (Z.div_mod c 1024 ltac:(lia)). pose proof (Z.mod_pos_bound c 1024 ltac:(lia)). replace (c / 1024) with 55 by lia. done.
Qed.

Lemma pair_codepoint c c2 : 0xD800 <= c < 0xDC00 -> 0xDC00 <= c2 < 0xE000 ->
  u32 (u32 (Z.shiftl c 10) - 0x35FDC00 + c2) = 0x10000 + (c - 0xD800) * 1024 + (c2 - 0xDC00).
Proof.
  intros Hc Hc2. rewrite Z.shiftl_mul_pow2 by lia. change (2 ^ 10) with 1024. rewrite (wrap_small 32 (c * 1024)) by (change (2 ^ 32) with 4294967296; lia).
  rewrite wrap_small by (change (2 ^ 32) with 4294967296; lia). lia.
Qed.

(** Decoding takes one or two units and gives a code point. *)
Lemma utf16Next_spec it : Forall is_wchar it -> it <> [] ->
  exists cp u rest, utf16NextOrFFFD it = Some (cp, rest) /\ it = u ++ rest /\ (1 <= length u <= 2)%nat /\ 0 <= cp < 0x110000.
Proof.
  intros Hw Hne. destruct it as [|c it]; [done|]. inversion Hw as [|? ? Hc Hit]; subst. cbn [utf16NextOrFFFD].
  destruct (Z.land c 0xF800 =? 0xD800) eqn:Hs; [|exists c, [c], it; unfold is_wchar in Hc; cbn; split_and!; (done || lia)].
  destruct it as [|c2 it']; [exists 0xfffd, [c], []; cbn; split_and!; (done || lia)|]. inversion Hit as [|? ? Hc2 _]; subst.
  destruct (Z.land c 0x400 =? 0) eqn:Hl; cbn [andb]; [|exists 0xfffd, [c], (c2 :: it'); cbn; split_and!; (done || lia)].
  destruct (Z.land c2 0xFC00 =? 0xDC00) eqn:Ht; [|exists 0xfffd, [c], (c2 :: it'); cbn; split_and!; (done || lia)].
  pose proof (leading_range c Hc Hs Hl). pose proof (trailing_range c2 Hc2 Ht). rewrite pair_codepoint by done.
  eexists _, [c; c2], it'. split; [done|]. cbn. split_and!; (done || lia).
Qed.

Lemma utf16Prev_spec before : Forall is_wchar before -> before <> [] ->
  exists cp u rest, utf16PrevOrFFFD before = Some (cp, rest) /\ before = u ++ rest /\ (1 <= length u <= 2)%nat /\ 0 <= cp < 0x110000.
Proof.
  intros Hw Hne. destruct before as [|c it]; [done|]. inversion Hw as [|? ? Hc Hit]; subst. cbn [utf16PrevOrFFFD].
  destruct (Z.land c 0xF800 =? 0xD800) eqn:Hs; [|exists c, [c], it; unfold is_wchar in Hc; cbn; split_and!; (done || lia)].
  destruct it as [|c1 it']; [exists 0xfffd, [c], []; cbn; split_and!; (done || lia)|]. inversion Hit as [|? ? Hc1 _]; subst.
  destruct (Z.land c 0x400 =? 0) eqn:Hl; cbn [negb andb]; [exists 0xfffd, [c], (c1 :: it'); cbn; split_and!; (done || lia)|].
  destruct (Z.land c1 0xFC00 =? 0xD800) eqn:Ht; [|exists 0xfffd, [c], (c1 :: it'); cbn; split_and!; (done || lia)].
  assert (Hlead : 0xD800 <= c1 < 0xDC00).
  { apply Z.eqb_eq in Ht. rewrite (land_high c1 0xFC00 10) in Ht by (done || unfold is_wchar in Hc1; lia). change (2 ^ 10) with 1024 in Ht.
    pose proof (Z.div_mod c1 1024 ltac:(lia)). pose proof (Z.mod_pos_bound c1 1024 ltac:(lia)). lia. }
  assert (Htrail : 0xDC00 <= c < 0xE000).
  { pose proof (surrogate_range c Hc Hs) as Hr. split; [|lia]. destruct (Z.lt_ge_cases c 0xDC00) as [Hlt|]; [exfalso|done].
    apply Z.eqb_neq in Hl. apply Hl. apply Z.bits_inj'. intros i Hi. rewrite Z.land_spec, Z.bits_0. change 0x400 with (2 ^ 10). rewrite Z.pow2_bits_eqb by lia.
    destruct (Z.eqb_spec 10 i) as [<-|]; [|by rewrite andb_false_r]. rewrite andb_true_r, Z.testbit_eqb by lia. change (2 ^ 10) with 1024.
    pose proof (Z.div_mod c 1024 ltac:(lia)). pose proof (Z.mod_pos_bound c 1024 ltac:(lia)). replace (c / 1024) with 54 by lia. done. }
  rewrite pair_codepoint by done. eexists _, [c; c1], it'. split; [done|]. cbn. split_and!; (done || lia).
Qed.

(** ** One call

Where in a string a detector continues: at the pointer it is given, or at the beginning
    if that is not in the string. *)
Definition resume_at (s : GraphemeState) (data : Z) (str : wstring) : Z :=
  resetIfOutOfRange data (data + Z.of_nat (length str)) data (beg s + len s) - data.

Definition is_text (str : wstring) : Prop := Forall is_wchar str /\ Z.of_nat (length str) < 2 ^ 30.

Definition is_known (d : CodepointWidthDetector) : Prop :=
  0 <= _ambiguousWidth d <= 2 /\ map_Forall (fun _ w => 0 <= w <= 2) (_fallbackCache d).
Definition is_state (mode : TextMeasurementMode) (s : GraphemeState) : Prop :=
  0 <= width s <= 2 /\ match mode with Graphemes => _state s = 0 \/ _state s = -1 \/ _state s = -2 | _ => _state s = 0 \/ _state s = 1 end.

(** What a call makes of a state. *)
Definition advances (mode : TextMeasurementMode) (s : GraphemeState) (data : Z) (str : wstring) (s' : GraphemeState) (more : bool) : Prop :=
  is_state mode s' /\
  (resume_at s data str < Z.of_nat (length str) ->
   beg s' = data + resume_at s data str /\ 0 <= len s' <= Z.of_nat (length str) - resume_at s data str /\
   (_state s = 0 -> 0 < len s' /\ (resume_at s data str + len s' < Z.of_nat (length str) -> _state s' = 0) /\
      more = (resume_at s data str + len s' <? Z.of_nat (length str)))).

Lemma resume_at_bounds s data str : 0 <= resume_at s data str <= Z.of_nat (length str).
Proof.
  unfold resume_at, resetIfOutOfRange.
  destruct (Z.ltb_spec (beg s + len s) data), (Z.gtb_spec (beg s + len s) (data + Z.of_nat (length str))); lia.
Qed.

Lemma fetchNext_spec amb fuel : 0 <= amb <= 2 -> forall it w st ld, Forall is_wchar it -> it <> [] -> (length it <= fuel)%nat -> (st = 0 \/ st = 1) -> 0 <= w ->
  exists rest w' st' ld', fetchNext amb fuel it w st ld = Some (rest, w', st', ld') /\ w <= w' /\ (exists u, it = u ++ rest) /\
    ((st' = -1 /\ ld' = 0 /\ rest <> []) \/ ((st' = 0 \/ st' = 1) /\ rest = [])).
Proof.
  intros Ha. induction fuel as [|fuel IH]; intros it w st ld Hit Hne Hlen Hst Hw; [destruct it; [done|cbn in Hlen; lia]|]. cbn [fetchNext].
  destruct (utf16Next_spec it Hit Hne) as (cp & u & next & -> & Hu & Hlu & Hcp). cbn [mbind option_bind].
  destruct (ucdLookup_total cp Hcp) as (trail & -> & Ht). cbn [mbind option_bind]. destruct (joins_total st ld trail Hst) as (v & -> & Hv). cbn [mbind option_bind].
  unfold ucdGraphemeDone. destruct (Z.eqb_spec v 3) as [->|Hv3].
  - exists it, w, (Z.lnot 0), 0. split_and!; [done|lia|by exists []|left; done].
  - assert (Hcw : 0 <= clusterWidth amb cp trail).
    { unfold clusterWidth. destruct (cp =? 0xFE0F); [lia|]. pose proof (characterWidth_bounds amb trail Ht Ha). lia. }
    destruct next as [|c next]; [exists [], (w + clusterWidth amb cp trail), v, trail; split_and!; [done|lia|by exists u|right; split; [lia|done]]|].
    assert (Hnext : Forall is_wchar (c :: next)) by (rewrite Hu in Hit; by apply Forall_app in Hit as [_ ?]).
    destruct (IH (c :: next) (w + clusterWidth amb cp trail) v trail Hnext ltac:(done)) as (rest & w' & st' & ld' & Hf & Hw' & (u' & Hu') & Hend);
      [rewrite Hu, length_app in Hlen; lia|lia|lia|].
    exists rest, w', st', ld'. split_and!; [done|lia| |done]. exists (u ++ u'). by rewrite <- app_assoc, <- Hu'.
Qed.

Lemma rest_length s data str : length (drop (Z.to_nat (resume_at s data str)) str) = Z.to_nat (Z.of_nat (length str) - resume_at s data str).
Proof. pose proof (resume_at_bounds s data str). rewrite length_drop. lia. Qed.

Lemma len_of_suffix (str u rest' : wstring) : is_text str -> (length (u ++ rest') <= length str)%nat ->
  int32 (Z.of_nat (length (u ++ rest')) - Z.of_nat (length rest')) = Z.of_nat (length u).
Proof. intros [_ Hs] Hl. rewrite length_app in *. rewrite int32_small; lia. Qed.

(** The cluster that a call reads from the rest of the string. *)
Definition cluster_from (amb : Z) (s : GraphemeState) (rest : wstring) : option (wstring * Z * Z * Z) :=
  if negb (_state s =? 0) then fetchNext amb (length rest) rest (width s) (Z.lnot (_state s)) (_last s)
  else
    '(cp, clusterEnd) ← utf16NextOrFFFD rest;
    lead ← ucdLookup cp;
    match clusterEnd with
    | [] => Some (clusterEnd, clusterWidth amb cp lead, 0, lead)
    | _ => fetchNext amb (length rest) clusterEnd (clusterWidth amb cp lead) 0 lead
    end.

Lemma cluster_from_spec amb s rest : 0 <= amb <= 2 -> is_state Graphemes s -> Forall is_wchar rest -> rest <> [] ->
  exists clusterEnd w st ld, cluster_from amb s rest = Some (clusterEnd, w, st, ld) /\ 0 <= w /\
    (exists u, rest = u ++ clusterEnd /\ (_state s = 0 -> u <> [])) /\
    ((st = -1 /\ ld = 0 /\ clusterEnd <> []) \/ ((st = 0 \/ st = 1) /\ clusterEnd = [])).
Proof.
  intros Ha [Hw Hst] Hrw Hne. unfold cluster_from.
  destruct (Z.eqb_spec (_state s) 0) as [H0|H0]; cbn [negb].
  - destruct (utf16Next_spec rest Hrw Hne) as (cp & u & next & -> & Hu & Hlu & Hcp). cbn [mbind option_bind].
    destruct (ucdLookup_total cp Hcp) as (lead & -> & Hl). cbn [mbind option_bind].
    assert (Hcw : 0 <= clusterWidth amb cp lead).
    { unfold clusterWidth. destruct (cp =? 0xFE0F); [lia|]. pose proof (characterWidth_bounds amb lead Hl Ha). lia. }
    assert (Hun : u <> []) by (destruct u; [cbn in Hlu; lia|done]).
    destruct next as [|c next]; [exists [], (clusterWidth amb cp lead), 0, lead; split_and!; [done|done|by exists u|right; auto]|].
    assert (Hnext : Forall is_wchar (c :: next)) by (rewrite Hu in Hrw; by apply Forall_app in Hrw as [_ ?]).
    destruct (fetchNext_spec amb (length rest) Ha (c :: next) (clusterWidth amb cp lead) 0 lead Hnext ltac:(done)) as (e & w' & st' & ld' & -> & Hw' & (u' & Hu') & Hend);
      [rewrite Hu, length_app; lia|lia|lia|].
    exists e, w', st', ld'. split_and!; [done|lia| |done]. exists (u ++ u'). rewrite <- app_assoc, <- Hu'. split; [done|]. intros _ Hnil. by apply app_nil in Hnil as [? _].
  - destruct (fetchNext_spec amb (length rest) Ha rest (width s) (Z.lnot (_state s)) (_last s) Hrw Hne) as (e & w' & st' & ld' & -> & Hw' & (u' & Hu') & Hend);
      [lia|destruct Hst as [?|[-> | ->]]; [done|left|right]; done|lia|].
    exists e, w', st', ld'. split_and!; [done|lia| |done]. exists u'. done.
Qed.

Lemma graphemeNext_advances amb s data str : 0 <= amb <= 2 -> is_state Graphemes s -> is_text str ->
  exists s' more, _graphemeNext amb s data str = Some (s', more) /\ advances Graphemes s data str s' more.
Proof.
  intros Ha Hs Hstr. pose proof Hs as [Hw Hst]. pose proof Hstr as [Hwc _]. unfold _graphemeNext. cbv zeta.
  fold (resume_at s data str). replace (resetIfOutOfRange _ _ _ _) with (data + resume_at s data str) by (unfold resume_at; lia).
  pose proof (resume_at_bounds s data str) as Hres. set (p := resume_at s data str) in *.
  pose proof (rest_length s data str) as Hlr. fold p in Hlr. set (rest := drop (Z.to_nat p) str) in *.
  assert (Hrw : Forall is_wchar rest) by (by apply Forall_drop).
  destruct (decide (rest = [])) as [Hnil|Hne].
  { rewrite Hnil in *. exists s, false. split; [done|]. split; [done|]. fold p. cbn in Hlr. lia. }
  destruct (cluster_from_spec amb s rest Ha Hs Hrw Hne) as (e & w & st & ld & Hf & Hw0 & (u & Hu & Hun) & Hend).
  destruct rest as [|c0 rest0] eqn:Hrest; [done|]. rewrite <- Hrest in *.
  fold (cluster_from amb s rest). rewrite Hf. cbn [mbind option_bind].
  eexists _, _. split; [reflexivity|].
  assert (Hlen : int32 (Z.of_nat (length rest) - Z.of_nat (length e)) = Z.of_nat (length u)).
  { rewrite Hu. apply (len_of_suffix str); [done|]. rewrite <- Hu. unfold rest. rewrite length_drop. lia. }
  pose proof (f_equal length Hu) as Hlu. rewrite length_app in Hlu. unfold advances. fold p. cbn [beg len width _state]. rewrite Hlen. split.
  - split; cbn [width _state].
    + rewrite Z.gtb_ltb. destruct (Z.ltb_spec 2 w); lia.
    + destruct Hend as [(-> & _)|([-> | ->] & _)]; cbn; auto.
  - intros _. split; [lia|]. split; [lia|]. intros H0. specialize (Hun H0). split; [destruct u; [done|cbn; lia]|]. split.
    + intros Hlt. destruct Hend as [(-> & _)|(_ & ->)]; [done|]. cbn in Hlu. lia.
    + destruct e; cbn [length] in Hlu; symmetry; [apply Z.ltb_ge|apply Z.ltb_lt]; lia.
Qed.

(** [wcswidth]: only the first code point of a cluster has a width. *)
Lemma wcswidthNext_spec amb fuel : 0 <= amb <= 2 -> forall it w st, Forall is_wchar it -> it <> [] -> (length it <= fuel)%nat ->
  (st = 0 /\ w = 0 \/ st = 1 /\ 0 <= w <= 2) ->
  exists rest w' st', wcswidthNext amb fuel it w st = Some (rest, w', st') /\ 0 <= w' <= 2 /\ (exists u, it = u ++ rest /\ (st = 0 -> u <> [])) /\
    ((st' = 0 /\ rest <> []) \/ (st' = 1 /\ rest = [])).
Proof.
  intros Ha. induction fuel as [|fuel IH]; intros it w st Hit Hne Hlen Hst; [destruct it; [done|cbn in Hlen; lia]|]. cbn [wcswidthNext].
  destruct (utf16Next_spec it Hit Hne) as (cp & u & next & -> & Hu & Hlu & Hcp). cbn [mbind option_bind].
  destruct (ucdLookup_total cp Hcp) as (val & -> & Hv). cbn [mbind option_bind]. pose proof (characterWidth_bounds amb val Hv Ha) as Hcw.
  assert (Hun : u <> []) by (destruct u; [cbn in Hlu; lia|done]).
  destruct (negb (st =? 0) && negb (characterWidth amb val =? 0)) eqn:Hstop.
  - exists it, w, 0. split_and!; [done|lia|lia| |left; done]. exists []. split; [done|]. intros ->. by rewrite Z.eqb_refl in Hstop.
  - assert (Hw' : 0 <= w + characterWidth amb val <= 2).
    { destruct Hst as [[-> ->]|[-> Hw]]; [lia|]. cbn in Hstop. apply negb_false_iff, Z.eqb_eq in Hstop. lia. }
    destruct next as [|c next]; [exists [], (w + characterWidth amb val), 1; split_and!; [done|lia|lia|by exists u|right; done]|].
    assert (Hnext : Forall is_wchar (c :: next)) by (rewrite Hu in Hit; by apply Forall_app in Hit as [_ ?]).
    destruct (IH (c :: next) (w + characterWidth amb val) 1 Hnext ltac:(done)) as (rest & w' & st' & Hf & Hb & (u' & Hu' & _) & Hend);
      [rewrite Hu, length_app in Hlen; lia|lia|].
    exists rest, w', st'. split_and!; [done|lia|lia| |done]. exists (u ++ u'). rewrite <- app_assoc, <- Hu'. split; [done|]. intros _ Hnil. by apply app_nil in Hnil as [? _].
Qed.

(** The common end of a call that has read [u] of the rest. *)
Lemma advances_by mode s data str u rest' w st ld more : is_text str -> drop (Z.to_nat (resume_at s data str)) str = u ++ rest' ->
  is_state mode (mkGraphemeState 0 0 w st ld) -> (_state s = 0 -> u <> [] /\ (rest' <> [] -> st = 0) /\ more = match rest' with [] => false | _ => true end) ->
  advances mode s data str
    (mkGraphemeState (data + resume_at s data str)
       (int32 (Z.of_nat (length (drop (Z.to_nat (resume_at s data str)) str)) - Z.of_nat (length rest'))) w st ld) more.
Proof.
  intros Hstr Hu Hst Hfresh. pose proof (rest_length s data str) as Hl. pose proof (resume_at_bounds s data str) as Hb.
  rewrite Hu in Hl |- *. rewrite (len_of_suffix str) by (try done; lia). rewrite length_app in Hl.
  split; [exact Hst|]. intros _. cbn [beg len _state]. split; [done|]. split; [lia|]. intros H0. destruct (Hfresh H0) as (Hun & Hend & ->).
  split; [destruct u; [done|cbn; lia]|]. split; [intros Hlt; apply Hend; intros ->; cbn in Hl; lia|].
  destruct rest'; cbn [length] in Hl; symmetry; [apply Z.ltb_ge|apply Z.ltb_lt]; lia.
Qed.

Lemma graphemeNextWcswidth_advances amb s data str : 0 <= amb <= 2 -> is_state Wcswidth s -> is_text str ->
  exists s' more, _graphemeNextWcswidth amb s data str = Some (s', more) /\ advances Wcswidth s data str s' more.
Proof.
  intros Ha Hs Hstr. pose proof Hs as [Hw Hst]. pose proof Hstr as [Hwc _]. unfold _graphemeNextWcswidth. cbv zeta.
  replace (resetIfOutOfRange _ _ _ _) with (data + resume_at s data str) by (unfold resume_at; lia).
  pose proof (resume_at_bounds s data str) as Hres. rewrite Z.geb_leb. destruct (Z.leb_spec (data + Z.of_nat (length str)) (data + resume_at s data str)) as [Hend|Hin].
  { exists s, false. split; [done|]. split; [done|]. lia. }
  replace (data + resume_at s data str - data) with (resume_at s data str) by lia.
  pose proof (rest_length s data str) as Hlr. set (rest := drop (Z.to_nat (resume_at s data str)) str) in *.
  destruct (wcswidthNext_spec amb (length rest) Ha rest (if _state s =? 0 then 0 else width s) (_state s)) as (e & w & st & Hf & Hwb & (u & Hu & Hun) & Hend);
    [by apply Forall_drop|intros Hn; rewrite Hn in Hlr; cbn in Hlr; lia|lia|destruct (Z.eqb_spec (_state s) 0); [left; done|right; lia]|].
  rewrite Hf. cbn [mbind option_bind]. eexists _, _. split; [reflexivity|]. apply (advances_by _ _ _ _ u); [done|exact Hu| |].
  - split; cbn; [lia|]. destruct Hend as [[-> _]|[-> _]]; auto.
  - intros H0. split; [by apply Hun|]. split; [|done]. intros Hne. by destruct Hend as [[-> _]|[_ ?]].
Qed.

Lemma consoleWidth_spec cp val d : is_known d -> 0 <= val < 256 ->
  let '(d', w) := consoleWidth cp val d in is_known d' /\ _mode d' = _mode d /\ 0 <= w <= 2.
Proof.
  intros [Ha Hc] Hv. unfold consoleWidth, ucdToCharacterWidth. rewrite Z.shiftr_div_pow2 by lia. change (2 ^ 6) with 64.
  assert (Hd : 0 <= val / 64 <= 3) by (split; [apply Z.div_pos; lia|]; pose proof (Z.div_lt_upper_bound val 64 4); lia).
  destruct (Z.eqb_spec (val / 64) 3); [|split_and!; (done || lia)]. unfold _checkFallbackViaCache.
  destruct (_pfnFallbackMethod d) as [pfn|]; [|split_and!; (done || lia)].
  destruct (_fallbackCache d !! cp) as [w|] eqn:Hl; [pose proof (Hc cp w Hl) as Hw; cbv beta in Hw; split_and!; (done || lia)|].
  destruct (pfn _) as [wide|]; [|split_and!; (done || lia)]. cbn. split_and!; try (done || destruct wide; lia).
  split; [done|]. cbn. apply map_Forall_insert_2; [destruct wide; lia|done].
Qed.

Lemma graphemeNextConsole_advances s data str d : is_known d -> is_state Console s -> is_text str ->
  exists d' s' more, _graphemeNextConsole s data str d = Some (d', s', more) /\ is_known d' /\ _mode d' = _mode d /\ advances Console s data str s' more.
Proof.
  intros Hd Hs Hstr. pose proof Hs as [Hw Hst]. pose proof Hstr as [Hwc _]. unfold _graphemeNextConsole. cbv zeta.
  replace (resetIfOutOfRange _ _ _ _) with (data + resume_at s data str) by (unfold resume_at; lia).
  pose proof (resume_at_bounds s data str) as Hres. rewrite Z.geb_leb. destruct (Z.leb_spec (data + Z.of_nat (length str)) (data + resume_at s data str)) as [Hend|Hin].
  { exists d, s, false. do 4 (split; [done|]). lia. }
  replace (data + resume_at s data str - data) with (resume_at s data str) by lia.
  pose proof (rest_length s data str) as Hlr. set (rest := drop (Z.to_nat (resume_at s data str)) str) in *.
  assert (Hrw : Forall is_wchar rest) by (by apply Forall_drop). assert (Hne : rest <> []) by (intros Hn; rewrite Hn in Hlr; cbn in Hlr; lia).
  destruct (Z.eqb_spec (_state s) 0) as [H0|H0].
  - destruct (utf16Next_spec rest Hrw Hne) as (cp & u & next & -> & Hu & Hlu & Hcp). cbn [mbind option_bind].
    destruct (ucdLookup_total cp Hcp) as (val & -> & Hv). cbn [mbind option_bind]. pose proof (consoleWidth_spec cp val d Hd Hv) as Hcw.
    destruct (consoleWidth cp val d) as [d' w]. destruct Hcw as (Hd' & Hm & Hwb). cbn [mbind option_bind].
    eexists d', _, _. split; [reflexivity|]. split; [done|]. split; [done|]. apply (advances_by _ _ _ _ u); [done|exact Hu| |].
    + split; cbn; [lia|]. destruct next; cbn; auto.
    + intros _. split; [destruct u; [cbn in Hlu; lia|done]|]. by destruct next.
  - cbn [mbind option_bind]. eexists d, _, _. split; [reflexivity|]. split; [done|]. split; [done|]. apply (advances_by _ _ _ _ []); [done|done| |done].
    split; cbn; [lia|auto].
Qed.

(** ** Any mode *)
Lemma next_advances s data str d : is_known d -> is_state (_mode d) s -> is_text str ->
  exists d' s' more, GraphemeNext s data str d = Some (d', s', more) /\ is_known d' /\ _mode d' = _mode d /\ advances (_mode d) s data str s' more.
Proof.
  intros Hd Hs Hstr. unfold GraphemeNext. destruct (_mode d) eqn:Hm.
  - destruct (graphemeNext_advances (_ambiguousWidth d) s data str (proj1 Hd) Hs Hstr) as (s' & more & -> & Ha). by exists d, s', more.
  - destruct (graphemeNextWcswidth_advances (_ambiguousWidth d) s data str (proj1 Hd) Hs Hstr) as (s' & more & -> & Ha). by exists d, s', more.
  - destruct (graphemeNextConsole_advances s data str d Hd Hs Hstr) as (d' & s' & more & -> & Hd' & Hm' & Ha). exists d', s', more. by rewrite Hm', Hm.
Qed.

Lemma next_on_empty s data d : GraphemeNext s data [] d = Some (d, s, false).
Proof.
  unfold GraphemeNext, _graphemeNext, _graphemeNextWcswidth, _graphemeNextConsole. cbn [length Z.of_nat]. rewrite Z.add_0_r. rewrite drop_nil.
  assert (Hr : resetIfOutOfRange data data data (beg s + len s) = data).
  { unfold resetIfOutOfRange. destruct (Z.ltb_spec (beg s + len s) data), (Z.gtb_spec (beg s + len s) data); lia. }
  rewrite Hr, Z.geb_leb, (proj2 (Z.leb_le _ _)) by lia. by destruct (_mode d).
Qed.

(** A call that starts a cluster depends on where it starts only. *)
Lemma next_is_positional s1 s2 data str d d' s1' more : _state s1 = 0 -> _state s2 = 0 -> resume_at s1 data str = resume_at s2 data str ->
  resume_at s1 data str < Z.of_nat (length str) -> GraphemeNext s1 data str d = Some (d', s1', more) ->
  exists s2', GraphemeNext s2 data str d = Some (d', s2', more) /\ len s2' = len s1' /\ width s2' = width s1'.
Proof.
  intros H1 H2 Hres Hlt. unfold GraphemeNext, same_detector, _graphemeNext, _graphemeNextWcswidth, _graphemeNextConsole. cbv zeta.
  replace (resetIfOutOfRange data (data + Z.of_nat (length str)) data (beg s1 + len s1)) with (data + resume_at s1 data str) by (unfold resume_at; lia).
  replace (resetIfOutOfRange data (data + Z.of_nat (length str)) data (beg s2 + len s2)) with (data + resume_at s1 data str) by (rewrite Hres; unfold resume_at; lia).
  rewrite H1, H2. change (0 =? 0) with true. cbn [negb]. set (rest := drop _ str).
  assert (Hne : rest <> []).
  { unfold rest. intros Hn. apply (f_equal length) in Hn. rewrite length_drop in Hn. pose proof (resume_at_bounds s1 data str). cbn in Hn. lia. }
  destruct (_mode d).
  - destruct rest as [|c rest']; [done|]. destruct (utf16NextOrFFFD (c :: rest')) as [[cp e]|]; [|done]. cbn [mbind option_bind]. destruct (ucdLookup cp); [|done]. cbn [mbind option_bind].
    destruct e as [|c2 e]; [cbn [mbind option_bind]; intros [= <- <- <-]; by eexists|].
    destruct (fetchNext _ _ _ _ _ _) as [[[[? ?] ?] ?]|]; [|done]. cbn [mbind option_bind]. intros [= <- <- <-]. by eexists.
  - rewrite Z.geb_leb, (proj2 (Z.leb_gt _ _)) by lia. fold rest. destruct (wcswidthNext _ _ _ _ _) as [[[e w] st]|]; [|done]. cbn [mbind option_bind].
    intros [= <- <- <-]. by eexists.
  - rewrite Z.geb_leb, (proj2 (Z.leb_gt _ _)) by lia. fold rest. destruct (utf16NextOrFFFD rest) as [[cp e]|]; [|done]. cbn [mbind option_bind].
    destruct (ucdLookup cp); [|done]. cbn [mbind option_bind]. destruct (consoleWidth _ _ d) as [d1 w]. cbn [mbind option_bind]. intros [= <- <- <-]. by eexists.
Qed.

(** ** ASCII *)
Definition ascii_value (v : Z) : bool := (v =? 0x40) || (v =? 0x41).
Lemma ascii_values : forallb (fun c => match ucdLookup (Z.of_nat c) with Some v => ascii_value v | None => false end) (seq 0 128) = true.
Proof. vm_compute. reflexivity. Qed.

Lemma ascii_lookup c : 0 <= c < 0x80 -> ucdLookup c = Some 0x40 \/ ucdLookup c = Some 0x41.
Proof.
  intros Hc. pose proof ascii_values as Hv. rewrite forallb_forall in Hv. specialize (Hv (Z.to_nat c) ltac:(apply in_seq; lia)). rewrite Z2Nat.id in Hv by lia.
  destruct (ucdLookup c) as [v|]; [|done]. unfold ascii_value in Hv. destruct (Z.eqb_spec v 0x40) as [Hq|Hq]; [left; by rewrite Hq|].
  destruct (Z.eqb_spec v 0x41) as [Hq'|Hq']; [right; by rewrite Hq'|done].
Qed.

Lemma ascii_next c rest : 0 <= c < 0x80 -> utf16NextOrFFFD (c :: rest) = Some (c, rest).
Proof.
  intros Hc. cbn [utf16NextOrFFFD]. destruct (Z.land c 0xF800 =? 0xD800) eqn:Hs; [|done]. apply surrogate_range in Hs; unfold is_wchar; lia.
Qed.

Lemma ascii_joins v v' : v = 0x40 \/ v = 0x41 -> v' = 0x40 \/ v' = 0x41 -> ucdGraphemeJoins 0 v v' = Some 3.
Proof. intros [-> | ->] [-> | ->]; vm_compute; reflexivity. Qed.

Lemma ascii_width amb c v : 0 <= c < 0x80 -> v = 0x40 \/ v = 0x41 -> characterWidth amb v = 1 /\ clusterWidth amb c v = 1.
Proof.
  intros Hc Hv. assert (H1 : characterWidth amb v = 1) by (destruct Hv as [-> | ->]; reflexivity). split; [done|]. unfold clusterWidth.
  destruct (Z.eqb_spec c 0xFE0F); [lia|done].
Qed.

Lemma next_ascii_cluster s data str d d' s' more c rest : is_text str -> _state s = 0 -> drop (Z.to_nat (resume_at s data str)) str = c :: rest -> c < 0x80 ->
  match rest with c' :: _ => c' < 0x80 | [] => True end -> GraphemeNext s data str d = Some (d', s', more) -> d' = d /\ len s' = 1 /\ width s' = 1.
Proof.
  intros Hstr H0 Hdrop Hc Hnext. pose proof (resume_at_bounds s data str) as Hb. pose proof (f_equal length Hdrop) as Hl. rewrite length_drop in Hl. cbn [length] in Hl.
  assert (Hw : Forall is_wchar (c :: rest)) by (rewrite <- Hdrop; apply Forall_drop, Hstr). inversion Hw as [|? ? Hwc Hwr]; subst. unfold is_wchar in Hwc.
  assert (Hl1 : int32 (Z.of_nat (S (length rest)) - Z.of_nat (length rest)) = 1) by (rewrite int32_small; lia).
  unfold GraphemeNext, same_detector, _graphemeNext, _graphemeNextWcswidth, _graphemeNextConsole. cbv zeta.
  replace (resetIfOutOfRange data (data + Z.of_nat (length str)) data (beg s + len s)) with (data + resume_at s data str) by (unfold resume_at; lia).
  replace (data + resume_at s data str - data) with (resume_at s data str) by lia. rewrite Hdrop, H0. change (0 =? 0) with true. cbn [negb].
  rewrite Z.geb_leb, (proj2 (Z.leb_gt _ _)) by lia. rewrite ascii_next by lia. cbn [mbind option_bind].
  assert (Hv : exists v, ucdLookup c = Some v /\ (v = 0x40 \/ v = 0x41)) by (destruct (ascii_lookup c ltac:(lia)); eauto). destruct Hv as (v & Hv & Hv').
  rewrite Hv. cbn [mbind option_bind]. destruct (ascii_width (_ambiguousWidth d) c v ltac:(lia) Hv') as [Hw1 Hw2]. rewrite Hw2.
  assert (Hnx : forall c' rest', rest = c' :: rest' -> 0 <= c' < 0x80 /\ exists v2, ucdLookup c' = Some v2 /\ (v2 = 0x40 \/ v2 = 0x41)).
  { intros c' rest' ->. inversion Hwr as [|? ? Hwc' _]; subst. unfold is_wchar in Hwc'. split; [lia|]. destruct (ascii_lookup c' ltac:(lia)); eauto. }
  destruct (_mode d).
  - destruct rest as [|c' rest'].
    + cbn [mbind option_bind]. intros [= <- <- <-]. cbn [len width]. done.
    + destruct (Hnx c' rest' eq_refl) as (Hc' & v2 & Hv2 & Hv2'). cbn [length fetchNext]. rewrite ascii_next by lia. cbn [mbind option_bind]. rewrite Hv2. cbn [mbind option_bind].
      rewrite (ascii_joins v v2 Hv' Hv2'). cbn [mbind option_bind]. intros [= <- <- <-]. cbn [len width]. split_and!; [done|exact Hl1|done].
  - cbn [length wcswidthNext]. rewrite ascii_next by lia. cbn [mbind option_bind]. rewrite Hv. cbn [mbind option_bind]. rewrite Hw1.
    destruct rest as [|c' rest']; [cbn; intros [= <- <- <-]; done|].
    destruct (Hnx c' rest' eq_refl) as (Hc' & v2 & Hv2 & Hv2'). cbn [length wcswidthNext negb andb Z.eqb]. rewrite ascii_next by lia. cbn [mbind option_bind]. rewrite Hv2. cbn [mbind option_bind].
    rewrite (proj1 (ascii_width (_ambiguousWidth d) c' v2 Hc' Hv2')). cbn [negb andb Z.eqb mbind option_bind]. intros [= <- <- <-]. cbn [len width]. split_and!; [done|exact Hl1|done].
  - unfold consoleWidth. replace (ucdToCharacterWidth v) with 1 by (destruct Hv' as [-> | ->]; reflexivity). cbn [Z.eqb mbind option_bind].
    intros [= <- <- <-]. cbn [len width]. split_and!; [done|exact Hl1|done].
Qed.

(** ** Grapheme clusters: segmentation and resumption

    Calls in a row divide a string into its clusters, and a cluster that the end of a
    string cuts is continued in the next string. *)

(** ** Segmentation *)

(** [do { more = GraphemeNext(state, str); ... } while (more)]: the clusters and their widths. *)
Fixpoint segments (fuel : nat) (s : GraphemeState) (data : Z) (str : wstring) (d : CodepointWidthDetector) :
    option (CodepointWidthDetector * list (wstring * Z)) :=
  match fuel with
  | O => None
  | S fuel =>
      '(d, s, more) ← GraphemeNext s data str d;
      let cluster := (take (Z.to_nat (len s)) (drop (Z.to_nat (beg s - data)) str), width s) in
      if more : bool then '(d, rest) ← segments fuel s data str d; Some (d, cluster :: rest) else Some (d, [cluster])
  end.

Definition cluster_ok (c : wstring * Z) : Prop := fst c <> [] /\ 0 <= snd c <= 2.

Lemma segments_from fuel s data str d : is_known d -> is_state (_mode d) s -> is_text str -> _state s = 0 ->
  resume_at s data str < Z.of_nat (length str) <= resume_at s data str + Z.of_nat fuel ->
  exists d' cs, segments fuel s data str d = Some (d', cs) /\ is_known d' /\ _mode d' = _mode d /\ Forall cluster_ok cs /\
    concat (map fst cs) = drop (Z.to_nat (resume_at s data str)) str.
Proof.
  revert s d. induction fuel as [|fuel IH]; intros s d Hd Hs Hstr H0 Hfuel; [lia|]. cbn [segments].
  destruct (next_advances s data str d Hd Hs Hstr) as (d1 & s1 & more & Hrun & Hd1 & Hm1 & Hs1 & Hadv). rewrite Hrun. cbn [mbind option_bind].
  destruct (Hadv ltac:(lia)) as (Hbeg & Hlen & Hfresh). destruct (Hfresh H0) as (Hpos & Hnext & ->). pose proof (resume_at_bounds s data str) as Hb.
  set (p := resume_at s data str) in *. replace (Z.to_nat (beg s1 - data)) with (Z.to_nat p) by lia. rewrite <- Hm1 in Hs1.
  assert (Hok : cluster_ok (take (Z.to_nat (len s1)) (drop (Z.to_nat p) str), width s1)).
  { split; cbn; [|by destruct Hs1]. intros Hn. apply (f_equal length) in Hn. rewrite length_take, length_drop in Hn. cbn in Hn. lia. }
  destruct (Z.ltb_spec (p + len s1) (Z.of_nat (length str))) as [Hlt|Hge].
  - assert (Hp1 : resume_at s1 data str = p + len s1).
    { unfold resume_at, resetIfOutOfRange. rewrite Hbeg. destruct (Z.ltb_spec (data + p + len s1) data), (Z.gtb_spec (data + p + len s1) (data + Z.of_nat (length str))); lia. }
    destruct (IH s1 d1 Hd1 Hs1 Hstr (Hnext Hlt)) as (d2 & cs & Hrun2 & Hd2 & Hm2 & Hcs & Hcat); [lia|]. rewrite Hrun2. cbn [mbind option_bind].
    eexists _, _. split; [reflexivity|]. split; [done|]. split; [congruence|]. split; [by constructor|]. cbn [map concat fst]. rewrite Hcat, Hp1.
    rewrite Z2Nat.inj_add, <- drop_drop by lia. apply take_drop.
  - eexists _, _. split; [reflexivity|]. split; [done|]. split; [congruence|]. split; [constructor; [exact Hok|constructor]|]. cbn [map concat fst]. rewrite app_nil_r.
    apply take_ge. rewrite length_drop. lia.
Qed.

(** C29: In every measurement mode, calling the detector until it says that there is no more divides a
    string of any UTF-16 units, ill-formed ones too, into non-empty clusters of at most two columns, one
    after the other and all of it, in no more calls than the string has units. *)
Theorem segments_partition data str d : 0 <= data -> is_known d -> is_text str -> str <> [] ->
  exists d' cs, segments (length str) GraphemeState_init data str d = Some (d', cs) /\
    is_known d' /\ Forall cluster_ok cs /\ concat (map fst cs) = str.
Proof.
  intros Hdata Hd Hstr Hne. assert (Hr : resume_at GraphemeState_init data str = 0).
  { unfold resume_at, resetIfOutOfRange. cbn [beg len GraphemeState_init].
    destruct (Z.ltb_spec (0 + 0) data), (Z.gtb_spec (0 + 0) (data + Z.of_nat (length str))); lia. }
  destruct (segments_from (length str) GraphemeState_init data str d Hd) as (d' & cs & Hrun & Hd' & _ & Hcs & Hcat).
  - split; [cbn; lia|]. destruct (_mode d); cbn; auto.
  - done.
  - done.
  - rewrite Hr. destruct str; [done|]. cbn. lia.
  - rewrite Hr in Hcat. exists d', cs. done.
Qed.

Lemma segments_partition_witness :
  exists d' cs, segments 6 GraphemeState_init 16 [0x61; 0x301; 0xd83d; 0xde00; 0xd83d; 0x3042] s_codepointWidthDetector = Some (d', cs) /\
    is_known d' /\ Forall cluster_ok cs /\ concat (map fst cs) = [0x61; 0x301; 0xd83d; 0xde00; 0xd83d; 0x3042].
Proof.
  apply (segments_partition 16 [0x61; 0x301; 0xd83d; 0xde00; 0xd83d; 0x3042] s_codepointWidthDetector).
  - lia.
  - split; [cbn; lia|]. apply map_Forall_empty.
  - split; [|cbn; lia]. repeat constructor; unfold is_wchar; lia.
  - done.
Defined.

(** ** Resumption *)

(** [b] does not complete a surrogate pair that [a] begins. *)
Definition pair_apart (a b : wstring) : Prop :=
  forall c c2, last a = Some c -> head b = Some c2 -> (Z.land c 0xF800 =? 0xD800) && (Z.land c 0x400 =? 0) && (Z.land c2 0xFC00 =? 0xDC00) = false.

Lemma utf16Next_app it b cp next : utf16NextOrFFFD it = Some (cp, next) -> pair_apart it b -> utf16NextOrFFFD (it ++ b) = Some (cp, next ++ b).
Proof.
  intros Hrun Hp. destruct it as [|c it]; [done|]. cbn [utf16NextOrFFFD app] in *. destruct (Z.land c 0xF800 =? 0xD800) eqn:Hs; [|by injection Hrun as <- <-].
  destruct it as [|c2 it].
  - injection Hrun as <- <-. cbn [app]. destruct b as [|c2 b]; [done|]. specialize (Hp c c2 eq_refl eq_refl). rewrite Hs in Hp. cbn [andb] in Hp. by rewrite Hp.
  - cbn [app]. destruct ((Z.land c 0x400 =? 0) && (Z.land c2 0xFC00 =? 0xDC00)); by injection Hrun as <- <-.
Qed.

Lemma utf16Next_apart it b cp next : utf16NextOrFFFD it = Some (cp, next) -> next <> [] -> pair_apart it b -> pair_apart next b.
Proof.
  intros Hrun Hne Hp c c2 Hl. apply Hp. destruct it as [|x it]; [done|]. cbn [utf16NextOrFFFD] in Hrun.
  assert (Hsuf : exists u, x :: it = u ++ next).
  { destruct (_ =? _); [|injection Hrun as <- <-; by exists [x]]. destruct it as [|y it]; [injection Hrun as <- <-; by exists [x]|].
    destruct (_ && _); injection Hrun as <- <-; [by exists [x; y]|by exists [x]]. }
  destruct Hsuf as (u & ->). rewrite last_app. by rewrite Hl.
Qed.

Section fetch.
Context (amb : Z) (Ha : 0 <= amb <= 2).

Lemma clusterWidth_nonneg cp v : 0 <= v < 256 -> 0 <= clusterWidth amb cp v.
Proof. intros Hv. unfold clusterWidth. destruct (cp =? 0xFE0F); [lia|]. pose proof (characterWidth_bounds amb v Hv Ha). lia. Qed.

(** With enough fuel, and whatever the width was above two. *)
Lemma fetchNext_width it fuel1 fuel2 w1 w2 st ld : Forall is_wchar it -> it <> [] -> (length it <= fuel1)%nat -> (length it <= fuel2)%nat -> (st = 0 \/ st = 1) ->
  Z.min w1 2 = Z.min w2 2 -> 0 <= w1 -> 0 <= w2 ->
  exists e w1' w2' st' ld', fetchNext amb fuel1 it w1 st ld = Some (e, w1', st', ld') /\ fetchNext amb fuel2 it w2 st ld = Some (e, w2', st', ld') /\
    Z.min w1' 2 = Z.min w2' 2.
Proof.
  revert it fuel2 w1 w2 st ld. induction fuel1 as [|fuel1 IH]; intros it fuel2 w1 w2 st ld Hit Hne H1 H2 Hst Hw Hw1 Hw2; [destruct it; [done|cbn in H1; lia]|].
  destruct fuel2 as [|fuel2]; [destruct it; [done|cbn in H2; lia]|]. cbn [fetchNext].
  destruct (utf16Next_spec it Hit Hne) as (cp & u & next & -> & Hu & Hlu & Hcp). cbn [mbind option_bind].
  destruct (ucdLookup_total cp Hcp) as (trail & -> & Ht). cbn [mbind option_bind]. destruct (joins_total st ld trail Hst) as (v & -> & Hv). cbn [mbind option_bind].
  unfold ucdGraphemeDone. pose proof (clusterWidth_nonneg cp trail Ht) as Hcw. destruct (Z.eqb_spec v 3) as [->|Hv3]; [by eexists _, _, _, _, _|].
  destruct next as [|c next]; [eexists _, _, _, _, _; split; [done|]; split; [done|]; lia|].
  apply (f_equal length) in Hu as Hl. rewrite length_app in Hl.
  apply IH; try lia; [by rewrite Hu in Hit; apply Forall_app in Hit as [_ ?]|done].
Qed.

(** A loop that reads all of a string goes on in the next one. *)
Lemma fetchNext_app fuel it b w st ld w1 st1 ld1 fuel2 : fetchNext amb fuel it w st ld = Some ([], w1, st1, ld1) -> Forall is_wchar it -> it <> [] -> b <> [] ->
  pair_apart it b -> (length it + length b <= fuel2)%nat -> (st = 0 \/ st = 1) ->
  (exists fuel3, (length b <= fuel3)%nat /\ fetchNext amb fuel2 (it ++ b) w st ld = fetchNext amb fuel3 b w1 st1 ld1) /\ (st1 = 0 \/ st1 = 1) /\ w <= w1.
Proof.
  revert it w st ld fuel2. induction fuel as [|fuel IH]; intros it w st ld fuel2 Hrun Hit Hne Hb Hp Hfuel Hst; [done|].
  destruct fuel2 as [|fuel2]; [destruct it; [done|cbn in Hfuel; lia]|]. cbn [fetchNext] in *.
  destruct (utf16Next_spec it Hit Hne) as (cp & u & next & Hnext & Hu & Hlu & Hcp). rewrite (utf16Next_app _ _ _ _ Hnext Hp). rewrite Hnext in Hrun. cbn [mbind option_bind] in *.
  destruct (ucdLookup_total cp Hcp) as (trail & Htr & Ht). rewrite Htr in *. cbn [mbind option_bind] in *. destruct (joins_total st ld trail Hst) as (v & Hj & Hv). rewrite Hj in *. cbn [mbind option_bind] in *.
  unfold ucdGraphemeDone in *. destruct (Z.eqb_spec v 3) as [Hv3|Hv3]; [injection Hrun; done|]. pose proof (clusterWidth_nonneg cp trail Ht) as Hcw.
  apply (f_equal length) in Hu as Hl. rewrite length_app in Hl.
  destruct next as [|c next].
  - injection Hrun as <- <- <-. split; [|lia]. exists fuel2. split; [cbn in Hl; lia|]. cbn [app]. by destruct b.
  - destruct (IH (c :: next) (w + clusterWidth amb cp trail) v trail fuel2 Hrun) as (Hex & Hst1 & Hw); try done; try lia.
    + by rewrite Hu in Hit; apply Forall_app in Hit as [_ ?].
    + by apply (utf16Next_apart it b cp).
    + split; [exact Hex|]. split; [done|lia].
Qed.
End fetch.

Lemma graphemeNext_from amb s data str e w st ld : drop (Z.to_nat (resume_at s data str)) str <> [] ->
  cluster_from amb s (drop (Z.to_nat (resume_at s data str)) str) = Some (e, w, st, ld) ->
  _graphemeNext amb s data str =
    Some (mkGraphemeState (data + resume_at s data str) (int32 (Z.of_nat (length (drop (Z.to_nat (resume_at s data str)) str)) - Z.of_nat (length e)))
            (Z.min w 2) (Z.lnot st) ld, match e with [] => false | _ => true end).
Proof.
  intros Hne Hf. unfold _graphemeNext. cbv zeta. replace (resetIfOutOfRange _ _ _ _) with (data + resume_at s data str) by (unfold resume_at; lia).
  replace (data + resume_at s data str - data) with (resume_at s data str) by lia. set (rest := drop _ str) in *.
  destruct rest as [|c rest'] eqn:Hr; [done|]. rewrite <- Hr in *. fold (cluster_from amb s rest). rewrite Hf. cbn [mbind option_bind].
  do 3 f_equal. rewrite Z.gtb_ltb. destruct (Z.ltb_spec 2 w); lia.
Qed.

(** A cluster read to the end of [a], and the loop that continues it in [b]. *)
Lemma cluster_from_app amb s a b w st ld : 0 <= amb <= 2 -> is_state Graphemes s -> Forall is_wchar a -> a <> [] -> b <> [] -> pair_apart a b ->
  cluster_from amb s a = Some ([], w, st, ld) ->
  (exists fuel, (length b <= fuel)%nat /\ cluster_from amb s (a ++ b) = fetchNext amb fuel b w st ld) /\ (st = 0 \/ st = 1) /\ 0 <= w.
Proof.
  intros Ha [Hw Hst] Hwa Hna Hnb Hp. unfold cluster_from. destruct (Z.eqb_spec (_state s) 0) as [H0|H0]; cbn [negb].
  - destruct (utf16Next_spec a Hwa Hna) as (cp & u & next & Hnext & Hu & Hlu & Hcp). rewrite (utf16Next_app _ _ _ _ Hnext Hp), Hnext. cbn [mbind option_bind].
    destruct (ucdLookup_total cp Hcp) as (lead & -> & Hl). cbn [mbind option_bind]. pose proof (clusterWidth_nonneg amb Ha cp lead Hl) as Hcw.
    apply (f_equal length) in Hu as Hlen. rewrite length_app in Hlen. destruct next as [|c next].
    + intros [= <- <- <-]. split; [|lia]. exists (length (a ++ b)). split; [rewrite length_app; lia|]. cbn [app]. by destruct b.
    + intros Hrun. destruct (fetchNext_app amb Ha _ _ b _ _ _ _ _ _ (length (a ++ b)) Hrun) as (Hex & Hst1 & Hw1); try done.
      * by rewrite Hu in Hwa; apply Forall_app in Hwa as [_ ?].
      * by apply (utf16Next_apart a b cp).
      * rewrite length_app. lia.
      * lia.
      * split; [exact Hex|]. split; [done|lia].
  - intros Hrun. destruct (fetchNext_app amb Ha _ _ b _ _ _ _ _ _ (length (a ++ b)) Hrun) as (Hex & Hst1 & Hw1); try done.
    + rewrite length_app. lia.
    + destruct Hst as [?|[-> | ->]]; [done|by left|by right].
    + split; [exact Hex|]. split; [done|lia].
Qed.

(** A cluster that reaches the end of a string is continued at the beginning of the next one: the
    two calls together read what one call reads in the concatenation, with the same width and the same
    state, provided that the cut is not within a surrogate pair. *)
Theorem clusters_resume d s a b data data2 dataB d1 s1 more : is_known d -> _mode d = Graphemes -> is_state Graphemes s ->
  is_text (a ++ b) -> a <> [] -> b <> [] -> pair_apart a b ->
  resume_at s data a = 0 -> resume_at s data2 (a ++ b) = 0 ->
  GraphemeNext s data a d = Some (d1, s1, more) -> len s1 = Z.of_nat (length a) -> resume_at s1 dataB b = 0 ->
  exists s2 s3 more2, GraphemeNext s1 dataB b d1 = Some (d, s2, more2) /\ GraphemeNext s data2 (a ++ b) d = Some (d, s3, more2) /\
    len s3 = len s1 + len s2 /\ width s3 = width s2 /\ _state s3 = _state s2 /\ _last s3 = _last s2.
Proof.
  intros Hd Hm Hs [Hw Hl] Hna Hnb Hp Hra Hrab Hrun Hlen Hrb. pose proof Hw as Hwab. apply Forall_app in Hw as [Hwa Hwb]. rewrite length_app in Hl.
  unfold GraphemeNext in *. rewrite Hm in *. pose proof (proj1 Hd) as Ha. set (amb := _ambiguousWidth d) in *.
  destruct (cluster_from_spec amb s a Ha Hs Hwa Hna) as (e & w & st & ld & Hf & Hw0 & (u & Hu & _) & Hend).
  pose proof (graphemeNext_from amb s data a e w st ld) as Hnext. rewrite Hra in Hnext. cbn [Z.to_nat] in Hnext. rewrite drop_0 in Hnext. rewrite (Hnext Hna Hf) in Hrun.
  cbn [same_detector mbind option_bind] in Hrun. injection Hrun as <- <- <-. cbn [len] in Hlen. apply (f_equal length) in Hu as Hlu. rewrite length_app in Hlu.
  rewrite int32_small in Hlen by lia. assert (He : e = []) by (destruct e; [done|cbn in Hlen; lia]). subst e. clear Hnext.
  destruct Hend as [(_ & _ & ?)|[Hst _]]; [done|]. rewrite Hm.
  destruct (cluster_from_app amb s a b w st ld Ha Hs Hwa Hna Hnb Hp Hf) as ((fuel & Hfuel & Hab) & _ & _).
  destruct (fetchNext_width amb Ha b (length b) fuel (Z.min w 2) w st ld Hwb Hnb ltac:(lia) Hfuel Hst) as (e2 & w1 & w2 & st2 & ld2 & HB & HAB & Hmin); [lia..|].
  destruct (fetchNext_spec amb (length b) Ha b (Z.min w 2) st ld Hwb Hnb ltac:(lia) Hst ltac:(lia)) as (e3 & ? & ? & ? & HB' & _ & (u2 & Hu2) & _). rewrite HB in HB'. injection HB' as <- <- <- <-.
  apply (f_equal length) in Hu2 as Hlu2. rewrite length_app in Hlu2. rewrite HAB in Hab.
  eexists _, _, _. rewrite (graphemeNext_from amb _ dataB b e2 w1 st2 ld2), (graphemeNext_from amb s data2 (a ++ b) e2 w2 st2 ld2); [split; [reflexivity|split; [reflexivity|]]|..].
  - cbn [len width _state _last]. rewrite Hrb, Hrab. cbn [Z.to_nat]. rewrite !drop_0, length_app, !int32_small by lia. split; [lia|done].
  - rewrite Hrab. cbn. by destruct a.
  - rewrite Hrab. exact Hab.
  - by rewrite Hrb.
  - rewrite Hrb. cbn [Z.to_nat]. rewrite drop_0. unfold cluster_from. cbn [_state width _last]. rewrite Z.lnot_involutive.
    rewrite (proj2 (Z.eqb_neq _ _)) by (destruct Hst as [-> | ->]; done). exact HB.
Qed.

Lemma clusters_resume_witness :
  exists s2 s3 more2, GraphemeNext (mkGraphemeState 16 2 2 (-1) 0x8c) 64 [0xd83c; 0xdffd; 0x61] s_codepointWidthDetector = Some (s_codepointWidthDetector, s2, more2) /\
    GraphemeNext GraphemeState_init 128 [0xd83d; 0xdc4d; 0xd83c; 0xdffd; 0x61] s_codepointWidthDetector = Some (s_codepointWidthDetector, s3, more2) /\
    len s3 = 2 + len s2 /\ width s3 = width s2 /\ _state s3 = _state s2 /\ _last s3 = _last s2.
Proof.
  apply (clusters_resume s_codepointWidthDetector GraphemeState_init [0xd83d; 0xdc4d] [0xd83c; 0xdffd; 0x61] 16 128 64
    s_codepointWidthDetector (mkGraphemeState 16 2 2 (-1) 0x8c) false); try reflexivity; try done.
  - split; cbn; [lia|auto].
  - split; [|cbn; lia]. repeat constructor; unfold is_wchar; lia.
  - intros c c2 [= <-] [= <-]. reflexivity.
Defined.
