(* ===== verification/ImageSlice.v ===== *)
(** * Slices of images

    [ImageSlice] ([src/buffer/out/ImageSlice.cpp]), the part of an image that covers a row:
    the pixels of the columns from [_columnBegin] to [_columnEnd], a buffer of as many lines
    as a cell is high. A pointer into the buffer is an index. What concerns rows and the
    text buffer ([CopyRow], [CopyCells], [EraseCells]) is in [RowImages]. *)
From S2P Require Import Prelude.

Record til_size := mkSize { size_width : Z; size_height : Z }.

(** [RGBQUAD] as its 32 bits. *)
Abbreviation RGBQUAD := Z (only parsing).

Record ImageSlice := mkImageSlice {
  _revision : Z;
  _cellSize : til_size;
  _pixelBuffer : list RGBQUAD;
  _columnBegin : Z;
  _columnEnd : Z;
  _pixelWidth : Z
}.

Definition ImageSlice_ctor (cellSize : til_size) : ImageSlice := mkImageSlice 0 cellSize [] 0 0 0.

Definition set_revision v s := mkImageSlice v (_cellSize s) (_pixelBuffer s) (_columnBegin s) (_columnEnd s) (_pixelWidth s).
Definition set_pixelBuffer v s := mkImageSlice (_revision s) (_cellSize s) v (_columnBegin s) (_columnEnd s) (_pixelWidth s).
Definition set_columns b e w s := mkImageSlice (_revision s) (_cellSize s) (_pixelBuffer s) b e w.

(** [s_revision] is passed in and out; the second iteration of the loop is the last one,
    since the counter has then moved past zero. *)
Definition fetch_add (s_revision : Z) : Z * Z := (u64 (s_revision + 1), s_revision).
Definition BumpRevision (s : ImageSlice) (s_revision : Z) : ImageSlice * Z :=
  let '(s_revision, revision) := fetch_add s_revision in
  if revision =? 0 then
    let '(s_revision, revision) := fetch_add s_revision in (set_revision revision s, s_revision)
  else (set_revision revision s, s_revision).

Definition Revision (s : ImageSlice) : Z := _revision s.
Definition CellSize (s : ImageSlice) : til_size := _cellSize s.
Definition ColumnOffset (s : ImageSlice) : Z := _columnBegin s.
Definition PixelWidth (s : ImageSlice) : Z := _pixelWidth s.
Definition Pixels (s : ImageSlice) : list RGBQUAD := _pixelBuffer s.

Abbreviation cell_width s := (size_width (_cellSize s)).
Abbreviation cell_height s := (size_height (_cellSize s)).

(** [&til::at(_pixelBuffer, offset)]. *)
Definition address (s : ImageSlice) (offset : Z) : option Z := _ ← load (_pixelBuffer s) offset; Some offset.

Definition PixelsAt (columnBegin : Z) (s : ImageSlice) : option Z :=
  address s ((columnBegin - _columnBegin s) * cell_width s).

(** Copies [count] pixels on each of [lines] lines ([memcpy] or, in one buffer, [memmove]),
    with the distances between the lines. *)
Fixpoint copyLines (lines : nat) (dst : list RGBQUAD) (to toStep : Z) (src : list RGBQUAD) (from fromStep count : Z) :
    option (list RGBQUAD) :=
  match lines with
  | O => Some dst
  | S lines =>
      line ← loads src from count;
      dst ← store dst to line;
      copyLines lines dst (to + toStep) toStep src (from + fromStep) fromStep count
  end.

Fixpoint moveLines (lines : nat) (buffer : list RGBQUAD) (to from step count : Z) : option (list RGBQUAD) :=
  match lines with
  | O => Some buffer
  | S lines =>
      line ← loads buffer from count;
      buffer ← store buffer to line;
      moveLines lines buffer (to + step) (from + step) step count
  end.

Fixpoint zeroLines (lines : nat) (dst : list RGBQUAD) (at_ step count : Z) : option (list RGBQUAD) :=
  match lines with
  | O => Some dst
  | S lines =>
      dst ← store dst at_ (replicate (Z.to_nat count) 0);
      zeroLines lines dst (at_ + step) step count
  end.

Definition MutablePixels (columnBegin columnEnd : Z) (s : ImageSlice) : option (ImageSlice * Z) :=
  let existingData := match _pixelBuffer s with [] => false | _ => true end in
  s ← (if negb existingData || (columnBegin <? _columnBegin s) || (columnEnd >? _columnEnd s) then
         let oldColumnBegin := _columnBegin s in
         let oldPixelWidth := _pixelWidth s in
         let newBegin := if existingData then Z.min (_columnBegin s) columnBegin else columnBegin in
         let newEnd := if existingData then Z.max (_columnEnd s) columnEnd else columnEnd in
         let pixelWidth := (newEnd - newBegin) * cell_width s in
         let s' := set_columns newBegin newEnd pixelWidth s in
         let bufferSize := pixelWidth * cell_height s in
         if existingData then
           let newPixelOffset := (oldColumnBegin - newBegin) * cell_width s in
           let newPixelRange := Z.min oldPixelWidth (pixelWidth - newPixelOffset) in
           newPixelBuffer ← copyLines (Z.to_nat (cell_height s)) (replicate (Z.to_nat bufferSize) 0) newPixelOffset pixelWidth
                              (_pixelBuffer s) 0 oldPixelWidth newPixelRange;
           Some (set_pixelBuffer newPixelBuffer s')
         else Some (set_pixelBuffer (replicate (Z.to_nat bufferSize) 0) s')
       else Some s);
  pixelOffset ← address s ((columnBegin - _columnBegin s) * cell_width s);
  Some (s, pixelOffset).

(** Whether nothing is left, in which case the caller deletes the slice. *)
Definition _eraseCells (columnBegin columnEnd : Z) (s : ImageSlice) : option (ImageSlice * bool) :=
  if (columnBegin <=? _columnBegin s) && (columnEnd >=? _columnEnd s) then Some (s, true)
  else
    let eraseBegin := Z.max columnBegin (_columnBegin s) in
    let eraseEnd := Z.min columnEnd (_columnEnd s) in
    if eraseBegin <? eraseEnd then
      let eraseOffset := (eraseBegin - _columnBegin s) * cell_width s in
      let eraseLength := (eraseEnd - eraseBegin) * cell_width s in
      buffer ← zeroLines (Z.to_nat (cell_height s)) (_pixelBuffer s) eraseOffset (_pixelWidth s) eraseLength;
      Some (set_pixelBuffer buffer s, false)
    else Some (s, false).

(** [srcSlice] is another slice, or ([None]) the slice itself. *)
Definition _copyCells (srcSlice : option ImageSlice) (srcColumn dstColumnBegin dstColumnEnd : Z) (s : ImageSlice) :
    option (ImageSlice * bool) :=
  let src := default s srcSlice in
  let srcColumnEnd := srcColumn + dstColumnEnd - dstColumnBegin in
  let srcUsedBegin := Z.max srcColumn (_columnBegin src) in
  let srcUsedEnd := Z.max (Z.min srcColumnEnd (_columnEnd src)) srcUsedBegin in
  let dstUsedBegin := Z.max dstColumnBegin (_columnBegin s) in
  let dstUsedEnd := Z.max (Z.min dstColumnEnd (_columnEnd s)) dstUsedBegin in
  let projectedOffset := dstColumnBegin - srcColumn in
  let dstWriteBegin := srcUsedBegin + projectedOffset in
  let dstWriteEnd := srcUsedEnd + projectedOffset in
  s ← (if dstWriteBegin <? dstWriteEnd then
         '(s, dstIterator) ← MutablePixels dstWriteBegin dstWriteEnd s;
         let src := default s srcSlice in
         srcIterator ← PixelsAt srcUsedBegin src;
         let writeCellCount := dstWriteEnd - dstWriteBegin in
         buffer ← (match srcSlice with
                   | Some src => copyLines (Z.to_nat (cell_height s)) (_pixelBuffer s) dstIterator (_pixelWidth s)
                                   (_pixelBuffer src) srcIterator (_pixelWidth src) (writeCellCount * cell_width s)
                   | None => moveLines (Z.to_nat (cell_height s)) (_pixelBuffer s) dstIterator srcIterator (_pixelWidth s)
                               (writeCellCount * cell_width s)
                   end);
         Some (set_pixelBuffer buffer s)
       else Some s);
  '(s, erased) ← (if dstUsedBegin <? dstWriteBegin then _eraseCells dstUsedBegin dstWriteBegin s else Some (s, false));
  if erased : bool then Some (s, true)
  else
    '(s, erased) ← (if dstUsedEnd >? dstWriteEnd then _eraseCells dstWriteEnd dstUsedEnd s else Some (s, false));
    if erased : bool then Some (s, true)
    else Some (s, _columnBegin s >=? _columnEnd s).
