(* ===== verification/Row.v ===== *)
(** * A row of the text buffer

    [ROW], [CharToColumnMapper] ([src/buffer/out/Row.cpp], [Row.hpp]). A row is the memory
    the text buffer lends it, the heap memory it owns when its text outgrows that, and
    its attributes and flags. Functions that only read the row are functions to [option],
    [None] for an access outside of its arrays; those that change it are in [M]. *)
From S2P Require Import Prelude LineRenditions InputEvents ColorTable TextColors TextAttributes Rle Graphemes ImageSlice.

Inductive DbcsAttribute := Single | Leading | Trailing.
Inductive DelimiterClass := ControlChar | DelimiterChar | RegularChar.
Inductive MarkCategory := Category_Default | Category_Error | Category_Warning | Category_Success | Category_Prompt.
#[export] Instance TextAttribute_inhabited : Inhabited TextAttribute := populate TextAttribute_ctor.

Record ScrollbarData := mkScrollbarData { category : MarkCategory; mark_color : option color; exitCode : option Z }.

(** [_charsBuffer] and the array behind [_charOffsets] are those of the text buffer. *)
Record ROW := mkROW {
  _charsBuffer : list wchar_t;
  _charsHeap : option (list wchar_t);
  _charOffsetsBuffer : list Z;
  _attr : basic_rle TextAttribute;
  _columnCount : Z;
  _lineRendition : LineRendition;
  _wrapForced : bool;
  _doubleBytePadded : bool;
  _promptData : option ScrollbarData;
  _imageSlice : option ImageSlice
}.

Definition CharOffsetsTrailer : Z := 0x8000.
Definition CharOffsetsMask : Z := 0x7fff.

(** In bytes; an element of either buffer has two. *)
Definition CalculateCharsBufferSize (columns : Z) : Z := Z.ldiff (columns * 2 + 16) 15.
Definition CalculateCharOffsetsBufferSize (columns : Z) : Z := Z.ldiff (columns * 2 + 16) 15.

Definition clamp (value lo hi : Z) : Z := if value <? lo then lo else if value >? hi then hi else value.

(** The spans [_chars] and [_charOffsets]. *)
Definition _chars (r : ROW) : list wchar_t :=
  match _charsHeap r with Some heap => heap | None => take (Z.to_nat (_columnCount r)) (_charsBuffer r) end.
Definition _charOffsets (r : ROW) : list Z := take (S (Z.to_nat (_columnCount r))) (_charOffsetsBuffer r).

Definition set_charsBuffer v r := mkROW v (_charsHeap r) (_charOffsetsBuffer r) (_attr r) (_columnCount r) (_lineRendition r) (_wrapForced r) (_doubleBytePadded r) (_promptData r) (_imageSlice r).
Definition set_charsHeap v r := mkROW (_charsBuffer r) v (_charOffsetsBuffer r) (_attr r) (_columnCount r) (_lineRendition r) (_wrapForced r) (_doubleBytePadded r) (_promptData r) (_imageSlice r).
Definition set_charOffsetsBuffer v r := mkROW (_charsBuffer r) (_charsHeap r) v (_attr r) (_columnCount r) (_lineRendition r) (_wrapForced r) (_doubleBytePadded r) (_promptData r) (_imageSlice r).
Definition set_attr v r := mkROW (_charsBuffer r) (_charsHeap r) (_charOffsetsBuffer r) v (_columnCount r) (_lineRendition r) (_wrapForced r) (_doubleBytePadded r) (_promptData r) (_imageSlice r).
Definition SetLineRendition v r := mkROW (_charsBuffer r) (_charsHeap r) (_charOffsetsBuffer r) (_attr r) (_columnCount r) v (_wrapForced r) (_doubleBytePadded r) (_promptData r) (_imageSlice r).
Definition SetWrapForced v r := mkROW (_charsBuffer r) (_charsHeap r) (_charOffsetsBuffer r) (_attr r) (_columnCount r) (_lineRendition r) v (_doubleBytePadded r) (_promptData r) (_imageSlice r).
Definition SetDoubleBytePadded v r := mkROW (_charsBuffer r) (_charsHeap r) (_charOffsetsBuffer r) (_attr r) (_columnCount r) (_lineRendition r) (_wrapForced r) v (_promptData r) (_imageSlice r).
Definition SetScrollbarData v r := mkROW (_charsBuffer r) (_charsHeap r) (_charOffsetsBuffer r) (_attr r) (_columnCount r) (_lineRendition r) (_wrapForced r) (_doubleBytePadded r) v (_imageSlice r).
Definition set_imageSlice v r := mkROW (_charsBuffer r) (_charsHeap r) (_charOffsetsBuffer r) (_attr r) (_columnCount r) (_lineRendition r) (_wrapForced r) (_doubleBytePadded r) (_promptData r) v.

(** Writing through the spans. *)
Definition set_chars (l : list wchar_t) r : ROW :=
  match _charsHeap r with
  | Some _ => set_charsHeap (Some l) r
  | None => set_charsBuffer (l ++ drop (Z.to_nat (_columnCount r)) (_charsBuffer r)) r
  end.
Definition set_charOffsets (l : list Z) r : ROW :=
  set_charOffsetsBuffer (l ++ drop (S (Z.to_nat (_columnCount r))) (_charOffsetsBuffer r)) r.

Definition reads {S A} (f : S -> option A) : M S A := fun s => match f s with Some a => (s, Ret a) | None => (s, UB) end.
Definition writes {S} (f : S -> option S) : M S unit := fun s => match f s with Some s' => (s', Ret tt) | None => (s, UB) end.
Definition storeChars (i : Z) (vs : list wchar_t) : M ROW unit := writes (fun r => l ← store (_chars r) i vs; Some (set_chars l r)).
Definition storeOffsets (i : Z) (vs : list Z) : M ROW unit := writes (fun r => l ← store (_charOffsets r) i vs; Some (set_charOffsets l r)).

Definition WasWrapForced r : bool := _wrapForced r.
Definition WasDoubleBytePadded r : bool := _doubleBytePadded r.
Definition GetLineRendition r : LineRendition := _lineRendition r.
Definition size (r : ROW) : Z := _columnCount r.

(** ** Columns *)
Definition _clampedColumn (v : Z) r : Z := u16 (clamp v 0 (_columnCount r - 1)).
Definition _clampedColumnInclusive (v : Z) r : Z := u16 (clamp v 0 (_columnCount r)).
Definition _charSize r : option Z := load (_charOffsets r) (_columnCount r).
Definition _uncheckedChar (off : Z) r : option wchar_t := load (_chars r) off.
Definition _uncheckedCharOffset (col : Z) r : option Z := v ← load (_charOffsets r) col; Some (Z.land v CharOffsetsMask).
Definition _uncheckedIsTrailer (col : Z) r : option bool := v ← load (_charOffsets r) col; Some (WI_IsFlagSet v CharOffsetsTrailer).

(** The loops of [_adjustBackward] and [_adjustForward]; they visit a column at most once. *)
Fixpoint adjustLoop (fuel : nat) (step column : Z) r : option Z :=
  match fuel with
  | O => None
  | S fuel =>
      trailer ← _uncheckedIsTrailer column r;
      if trailer : bool then adjustLoop fuel step (u16 (column + step)) r else Some column
  end.
Definition columns_fuel (r : ROW) : nat := S (S (Z.to_nat (_columnCount r))).
Definition _adjustBackward (column : Z) r : option Z := adjustLoop (columns_fuel r) (-1) column r.
Definition _adjustForward (column : Z) r : option Z := adjustLoop (columns_fuel r) 1 column r.

Definition GetReadableColumnCount r : Z :=
  match _lineRendition r with
  | SingleWidth => _columnCount r - Z.b2z (_doubleBytePadded r)
  | _ => Z.shiftr (_columnCount r - Z.shiftl (Z.b2z (_doubleBytePadded r)) 1) 1
  end.

Definition NavigateToPrevious (column : Z) r : option Z := _adjustBackward (_clampedColumn (column - 1) r) r.
Definition NavigateToNext (column : Z) r : option Z := _adjustForward (_clampedColumnInclusive (column + 1) r) r.
Definition AdjustToGlyphStart (column : Z) r : option Z := _adjustBackward (_clampedColumn column r) r.
Definition AdjustToGlyphEnd (column : Z) r : option Z := _adjustForward (_clampedColumnInclusive column r) r.

(** ** [_init]

    The vectorized builds write whole registers to the buffers, past the last column. *)
Inductive Intrinsics := AVX2 | SSE2 | NEON.

Definition offsetsData (lanes : nat) : list Z := map Z.of_nat (seq 0 lanes).
Definition add_epi16 (v : list Z) (increment : Z) : list Z := map (fun x => u16 (x + increment)) v.

Definition storeVectors (pos : Z) (whitespace offsets : list Z) : M ROW unit :=
  writes (fun r => l ← store (_charsBuffer r) pos whitespace; Some (set_charsBuffer l r)) ;;
  writes (fun r => l ← store (_charOffsetsBuffer r) pos offsets; Some (set_charOffsetsBuffer l r)).

(** [do { ... } while (again(chars))] with registers of [lanes] elements; [pos] is [chars - _charsBuffer]. *)
Fixpoint initLoop (fuel lanes : nat) (again : Z -> bool) (pos : Z) (offsets : list Z) : M ROW unit :=
  match fuel with
  | O => outOfFuel
  | S fuel =>
      storeVectors pos (replicate lanes 0x20) offsets ;;
      let offsets := add_epi16 offsets (Z.of_nat lanes) in
      let pos := pos + Z.of_nat lanes in
      if again pos then initLoop fuel lanes again pos offsets else mret tt
  end.

Definition init256 : M ROW unit :=
  columnCount ← gets _columnCount;
  let tailColumnOffset := u16 (Z.ldiff (columnCount - 8) 7) in
  let offsets := add_epi16 (offsetsData 16) tailColumnOffset in
  (if 0 <? tailColumnOffset
   then initLoop (S (Z.to_nat tailColumnOffset)) 16 (fun pos => pos <? tailColumnOffset) 0 (offsetsData 16) else mret tt) ;;
  storeVectors tailColumnOffset (replicate 16 0x20) offsets.

Definition init128 : M ROW unit :=
  columnCount ← gets _columnCount;
  initLoop (S (Z.to_nat columnCount)) 8 (fun pos => pos <=? columnCount) 0 (offsetsData 8).

Definition _init (isa : Intrinsics) : M ROW unit :=
  columnCount ← gets _columnCount;
  match isa with
  | AVX2 => if columnCount >=? 15 then init256 else init128
  | SSE2 | NEON => init128
  end.

(** ** The row in its surroundings *)

(** The heap: an allocation gives memory with any content, or throws ([None]). *)
Class Allocator := {
  allocate : Z -> option (list wchar_t);
  allocate_length : forall n l, allocate n = Some l -> Z.of_nat (length l) = n;
}.

(** What the row needs of the detector of grapheme clusters, [D]. *)
Class GraphemeDetector (D : Type) := next_grapheme : GraphemeState -> Z -> wstring -> D -> option (D * GraphemeState * bool).

(** Cells to write: the iterator of [WriteCells]. *)
Inductive TextAttributeBehavior := Stored | Current | StoredOnly.
#[export] Instance TextAttributeBehavior_eq_dec : EqDecision TextAttributeBehavior.
Proof. solve_decision. Defined.
Record OutputCellView := mkCellView { Chars : wstring; DbcsAttr : DbcsAttribute; TextAttr : TextAttribute; TextAttrBehavior : TextAttributeBehavior }.
Class CellIterator (I : Type) := {
  cell_valid : I -> bool;
  cell_view : I -> OutputCellView;
  cell_next : I -> I;
  cell_position : I -> Z;
}.

(** ** Writing text: [WriteHelper]

    [charsData] is the address of [chars]. *)
Record WriteHelper := mkWriteHelper {
  charsData : Z;
  chars : wstring;
  colBeg : Z;
  colLimit : Z;
  colEnd : Z;
  colBegDirty : Z;
  colEndDirty : Z;
  chBeg : Z;
  chBegDirty : Z;
  leadingSpaces : Z;
  charsConsumed : Z
}.
Definition set_colEnd v h := mkWriteHelper (charsData h) (chars h) (colBeg h) (colLimit h) v (colBegDirty h) (colEndDirty h) (chBeg h) (chBegDirty h) (leadingSpaces h) (charsConsumed h).
Definition set_colBegDirty v h := mkWriteHelper (charsData h) (chars h) (colBeg h) (colLimit h) (colEnd h) v (colEndDirty h) (chBeg h) (chBegDirty h) (leadingSpaces h) (charsConsumed h).
Definition set_colEndDirty v h := mkWriteHelper (charsData h) (chars h) (colBeg h) (colLimit h) (colEnd h) (colBegDirty h) v (chBeg h) (chBegDirty h) (leadingSpaces h) (charsConsumed h).
Definition set_charsConsumed v h := mkWriteHelper (charsData h) (chars h) (colBeg h) (colLimit h) (colEnd h) (colBegDirty h) (colEndDirty h) (chBeg h) (chBegDirty h) (leadingSpaces h) v.

Definition WriteHelper_ctor (columnBegin columnLimit : Z) (data : Z) (text : wstring) (row : ROW) : option WriteHelper :=
  let colBeg := _clampedColumnInclusive columnBegin row in
  let colLimit := _clampedColumnInclusive columnLimit row in
  chBegDirty ← _uncheckedCharOffset colBeg row;
  colBegDirty ← _adjustBackward colBeg row;
  let leadingSpaces := u16 (colBeg - colBegDirty) in
  let chBeg := u16 (chBegDirty + leadingSpaces) in
  Some (mkWriteHelper data text colBeg colLimit colBeg colBegDirty 0 chBeg chBegDirty leadingSpaces 0).

Definition IsValid h : bool := (colBeg h <? colLimit h) && match chars h with [] => false | _ => true end.

(** [while (colEnd < colEndNew) { til::at(row._charOffsets, colEnd++) = offset; }]. *)
Fixpoint fillOffsets (count : nat) (offset : Z) h : M ROW WriteHelper :=
  match count with
  | O => mret h
  | S count => storeOffsets (colEnd h) [offset] ;; fillOffsets count offset (set_colEnd (u16 (colEnd h + 1)) h)
  end.

(** The entries of a glyph at [ch] for the columns from [colEnd] to [colEndNew]. *)
Definition writeGlyph (ch colEndNew : Z) h : M ROW WriteHelper :=
  storeOffsets (colEnd h) [u16 ch] ;;
  let h := set_colEnd (u16 (colEnd h + 1)) h in
  fillOffsets (Z.to_nat (colEndNew - colEnd h)) (u16 (Z.lor ch CharOffsetsTrailer)) h.

Definition WriteHelper_ReplaceCharacters (width : Z) h : M ROW WriteHelper :=
  let colEndNew := u16 (colEnd h + width) in
  if colEndNew >? colLimit h then mret (set_colEndDirty (colLimit h) h)
  else
    h ← writeGlyph (chBeg h) colEndNew h;
    mret (set_charsConsumed (Z.of_nat (length (chars h))) (set_colEndDirty (colEnd h) h)).

(** [iota_n] and [fill_n_small] on the spans. *)
Definition iota_n (count val : Z) : list Z := map (fun i => u16 (val + Z.of_nat i)) (seq 0 (Z.to_nat count)).

Section row.
Context `{Allocator} {D : Type} `{GraphemeDetector D} (isa : Intrinsics).
(** The address of [_chars], which the heap decides. *)
Context (charsAddress : ROW -> Z).

Definition Reset (attr : TextAttribute) : M ROW unit :=
  modify (set_charsHeap None) ;;
  writes (fun r =>
    match _runs (_attr r) with
    | [] => None
    | _ :: _ => Some (set_attr (mkRle [mkRun attr (_columnCount r)] (_total_length (_attr r))) r)
    end) ;;
  modify (set_imageSlice None) ;;
  modify (SetLineRendition SingleWidth) ;;
  modify (SetWrapForced false) ;;
  modify (SetDoubleBytePadded false) ;;
  modify (SetScrollbarData None) ;;
  _init isa.

(** [ROW::ROW]: the buffers, and the row before [_init]. *)
Definition ROW_ctor (charsBuffer charOffsetsBuffer : list Z) (rowWidth : Z) (fillAttribute : TextAttribute) : ROW * Outcome unit :=
  _init isa (mkROW charsBuffer None charOffsetsBuffer (of_value rowWidth fillAttribute) rowWidth SingleWidth false false None None).

Definition _resizeChars (colEndDirty chBegDirty chEndDirty chEndDirtyOld : Z) : M ROW unit :=
  let diff := u64 (chEndDirty - chEndDirtyOld) in
  currentLength ← reads _charSize;
  let newLength := u64 (currentLength + diff) in
  capacity ← gets (fun r => Z.of_nat (length (_chars r)));
  tail ← reads (fun r => loads (_chars r) chEndDirtyOld (currentLength - chEndDirtyOld));
  (if newLength <=? capacity then storeChars chEndDirty tail
   else
     let minCapacity := Z.min 0xffff (capacity + Z.shiftr capacity 1) in
     let newCapacity := Z.max newLength minCapacity in
     if newCapacity >? 0xffff then throw
     else
       match allocate newCapacity with
       | None => throw
       | Some charsHeap =>
           head ← reads (fun r => loads (_chars r) 0 chBegDirty);
           charsHeap ← reads (fun _ => store charsHeap 0 head);
           charsHeap ← reads (fun _ => store charsHeap chEndDirty tail);
           modify (set_charsHeap (Some charsHeap))
       end) ;;
  offsets ← reads (fun r => loads (_charOffsets r) colEndDirty (_columnCount r + 1 - colEndDirty));
  storeOffsets colEndDirty (map (fun it => u16 (it + diff)) offsets).

Definition Finish h : M ROW WriteHelper :=
  colEndDirty ← reads (_adjustForward (colEndDirty h));
  let h := set_colEndDirty colEndDirty h in
  let trailingSpaces := u16 (colEndDirty - colEnd h) in
  chEndDirtyOld ← reads (_uncheckedCharOffset colEndDirty);
  let chEndDirty := u64 (chBegDirty h + charsConsumed h + leadingSpaces h + trailingSpaces) in
  (if negb (chEndDirty =? chEndDirtyOld) then _resizeChars colEndDirty (chBegDirty h) chEndDirty chEndDirtyOld else mret tt) ;;
  text ← reads (fun _ => loads (chars h) 0 (charsConsumed h));
  storeChars (chBeg h) text ;;
  (if negb (leadingSpaces h =? 0) then
     storeChars (chBegDirty h) (replicate (Z.to_nat (leadingSpaces h)) 0x20) ;;
     storeOffsets (colBegDirty h) (iota_n (leadingSpaces h) (chBegDirty h))
   else mret tt) ;;
  (if negb (trailingSpaces =? 0) then
     storeChars (chBeg h + charsConsumed h) (replicate (Z.to_nat trailingSpaces) 0x20) ;;
     storeOffsets (colEnd h) (iota_n trailingSpaces (u16 (chBeg h + charsConsumed h)))
   else mret tt) ;;
  columnCount ← gets _columnCount;
  (if colEndDirty =? columnCount then modify (SetDoubleBytePadded (colEnd h <? columnCount)) else mret tt) ;;
  mret h.

(** [catch (...) { Reset(TextAttribute{}); throw; }]. *)
Definition or_reset {A} (m : M ROW A) : M ROW A := try_catch m (Reset TextAttribute_ctor ;; throw).

Definition ReplaceCharacters (columnBegin width : Z) (data : Z) (text : wstring) : M ROW unit :=
  or_reset (
    columnCount ← gets _columnCount;
    h ← reads (WriteHelper_ctor columnBegin columnCount data text);
    if negb (IsValid h) then mret tt
    else
      h ← WriteHelper_ReplaceCharacters width h;
      _ ← Finish h;
      mret tt).

Definition ClearCell (column : Z) : M ROW unit := ReplaceCharacters column 1 0 (L " ").

(** ** Text *)
Definition on_row {A} (m : M ROW A) : M (ROW * D) A := fun s => let '(r, o) := m (fst s) in ((r, snd s), o).

(** [cwd.GraphemeNext(state, str)]. *)
Definition measure (state : GraphemeState) (data : Z) (str : wstring) : M (ROW * D) GraphemeState := fun s =>
  match next_grapheme state data str (snd s) with
  | Some (d, state, _) => ((fst s, d), Ret state)
  | None => (s, UB)
  end.

(** [while (colPrev > 0 && row._uncheckedIsTrailer(--colPrev))]. *)
Fixpoint previousLoop (fuel : nat) (colPrev : Z) r : option Z :=
  match fuel with
  | O => None
  | S fuel =>
      if colPrev >? 0 then
        trailer ← _uncheckedIsTrailer (colPrev - 1) r;
        if trailer : bool then previousLoop fuel (colPrev - 1) r else Some (colPrev - 1)
      else Some colPrev
  end.

(** The glyph does not fit. *)
Definition out_of_columns (ch : Z) h : WriteHelper := set_charsConsumed (u64 (ch - chBeg h)) (set_colEndDirty (colLimit h) h).
Definition written (ch : Z) h : WriteHelper := set_charsConsumed (u64 (ch - chBeg h)) (set_colEndDirty (colEnd h) h).

(** The loop over the clusters of the text from [it]; a cluster takes at least a character. *)
Fixpoint clusterLoop (fuel : nat) (ch it : Z) (state : GraphemeState) h : M (ROW * D) WriteHelper :=
  match fuel with
  | O => outOfFuel
  | S fuel =>
      state ← measure state (charsData h) (chars h);
      let width := Z.max 1 (width state) in
      let colEndNew := u16 (colEnd h + width) in
      if colEndNew >? colLimit h then mret (out_of_columns ch h)
      else
        h ← on_row (writeGlyph ch colEndNew h);
        let ch := ch + len state in
        let it := it + len state in
        if it =? Z.of_nat (length (chars h)) then mret (written ch h) else clusterLoop fuel ch it state h
  end.

Definition clusters (ch it : Z) h : M (ROW * D) WriteHelper :=
  if it =? Z.of_nat (length (chars h)) then mret (written ch h)
  else clusterLoop (S (length (chars h))) ch it (mkGraphemeState (charsData h + it) 0 0 0 0) h.

(** Text at the beginning that may join the glyph before it. *)
Definition joinPrevious (ch : Z) h : M (ROW * D) WriteHelper :=
  colPrev ← on_row (reads (previousLoop (S (Z.to_nat (colBeg h))) (colBeg h)));
  chPrev ← on_row (reads (_uncheckedCharOffset colPrev));
  charsPrev ← on_row (reads (fun r => loads (_chars r) chPrev (ch - chPrev)));
  address ← on_row (gets charsAddress);
  state ← measure GraphemeState_init (address + chPrev) charsPrev;
  state ← measure state (charsData h) (chars h);
  if len state >? 0 then
    let h := set_colEnd colPrev (set_colBegDirty colPrev h) in
    let width := Z.max 1 (width state) in
    let colEndNew := u16 (colEnd h + width) in
    if colEndNew >? colLimit h then mret (out_of_columns ch h)
    else
      h ← on_row (writeGlyph chPrev colEndNew h);
      clusters (ch + len state) (len state) h
  else clusters ch 0 h.

Definition _replaceTextUnicode (ch it : Z) h : M (ROW * D) WriteHelper :=
  if it =? 0 then joinPrevious ch h
  else clusters (ch - 1) (it - 1) (set_colEnd (u16 (colEnd h - 1)) h).

(** The loop over ASCII characters: [rest] is the text between [it] and [end]. *)
Fixpoint asciiLoop (rest : wstring) (ch it : Z) h : M (ROW * D) WriteHelper :=
  match rest with
  | [] => mret (written ch h)
  | c :: rest =>
      if c >=? 0x80 then _replaceTextUnicode ch it h
      else
        on_row (storeOffsets (colEnd h) [u16 ch]) ;;
        asciiLoop rest (ch + 1) (it + 1) (set_colEnd (u16 (colEnd h + 1)) h)
  end.

Definition WriteHelper_ReplaceText h : M (ROW * D) WriteHelper :=
  asciiLoop (take (Z.to_nat (colLimit h - colBeg h)) (chars h)) (chBeg h) 0 h.

(** [RowWriteState]; the text with its address. *)
Record RowWriteState := mkWriteState {
  textData : Z;
  text : wstring;
  columnBegin : Z;
  columnLimit : Z;
  columnEnd : Z;
  columnBeginDirty : Z;
  columnEndDirty : Z
}.

Definition or_reset_text {A} (m : M (ROW * D) A) : M (ROW * D) A := try_catch m (on_row (Reset TextAttribute_ctor) ;; throw).

Definition ReplaceText (state : RowWriteState) : M (ROW * D) RowWriteState :=
  or_reset_text (
    h ← on_row (reads (WriteHelper_ctor (columnBegin state) (columnLimit state) (textData state) (text state)));
    if negb (IsValid h) then
      mret (mkWriteState (textData state) (text state) (columnBegin state) (columnLimit state) (colBeg h) (colBeg h) (colBeg h))
    else
      h ← WriteHelper_ReplaceText h;
      h ← on_row (Finish h);
      let rest := drop (Z.to_nat (charsConsumed h)) (text state) in
      mret (mkWriteState (textData state + charsConsumed h) rest (columnBegin state) (columnLimit state)
              (match rest with [] => colEnd h | _ => colLimit h end) (colBegDirty h) (colEndDirty h))).

(** ** Copying from a row *)
Record RowCopyTextFromState := mkCopyState {
  copy_columnBegin : Z;
  copy_columnLimit : Z;
  sourceColumnBegin : Z;
  sourceColumnLimit : Z;
  copy_columnEnd : Z;
  copy_columnBeginDirty : Z;
  copy_columnEndDirty : Z;
  sourceColumnEnd : Z
}.
Definition copied (state : RowCopyTextFromState) (end_ begDirty endDirty sourceEnd : Z) : RowCopyTextFromState :=
  mkCopyState (copy_columnBegin state) (copy_columnLimit state) (sourceColumnBegin state) (sourceColumnLimit state)
    end_ begDirty endDirty sourceEnd.

(** The rows a function can copy from: the row itself, or another. *)
Inductive RowSource := This | Other (source : ROW).
Definition source_row (s : RowSource) (this : ROW) : ROW := match s with This => this | Other r => r end.

Fixpoint trailerLoop (fuel : nat) (charOffsets : list Z) (colEndInput : Z) : option Z :=
  match fuel with
  | O => None
  | S fuel =>
      v ← load charOffsets colEndInput;
      if WI_IsFlagSet v CharOffsetsTrailer then trailerLoop fuel charOffsets (u16 (colEndInput - 1)) else Some colEndInput
  end.

Definition copyOffset (offset ch : Z) : Z :=
  let off := Z.land ch CharOffsetsMask in
  let trailer := Z.land ch CharOffsetsTrailer in
  let newOff := u16 (off + offset) in
  Z.lor newOff trailer.
Definition _copyOffsets (dst : Z) (src : list Z) (size offset : Z) : M ROW unit :=
  src ← reads (fun _ => loads src 0 size);
  storeOffsets dst (map (copyOffset offset) src).

Definition WriteHelper_CopyTextFrom (charOffsets : list Z) h : M ROW WriteHelper :=
  let colEndDirtyInput := Z.min (u16 (colLimit h - colBeg h)) (u16 (Z.of_nat (length charOffsets) - 1)) in
  colEndInput ← reads (fun _ => trailerLoop (S (length charOffsets)) charOffsets colEndDirtyInput);
  baseOffset ← reads (fun _ => load charOffsets 0);
  endOffset ← reads (fun _ => load charOffsets colEndInput);
  let inToOutOffset := u16 (chBeg h - baseOffset) in
  _copyOffsets (colEnd h) charOffsets colEndInput inToOutOffset ;;
  mret (set_charsConsumed (u64 (endOffset - baseOffset))
         (set_colEndDirty (u16 (colBeg h + colEndDirtyInput)) (set_colEnd (u16 (colEnd h + colEndInput)) h))).

(** The entries and the text of the source between two columns. *)
Definition source_text (sourceColBeg sourceColLimit : Z) (source : ROW) : option (list Z * Z * wstring) :=
  if sourceColBeg <? sourceColLimit then
    charOffsets ← loads (_charOffsets source) sourceColBeg (sourceColLimit - sourceColBeg + 1);
    front ← load charOffsets 0;
    back ← load charOffsets (sourceColLimit - sourceColBeg);
    let beg := Z.land front CharOffsetsMask in
    let end_ := Z.land back CharOffsetsMask in
    chars ← loads (_chars source) beg (end_ - beg);
    Some (charOffsets, charsAddress source + beg, chars)
  else Some ([], 0, []).

Definition begins_with_trailer (charOffsets : list Z) : bool :=
  match charOffsets with v :: _ => WI_IsFlagSet v CharOffsetsTrailer | [] => false end.

Definition CopyTextFrom (source : RowSource) (state : RowCopyTextFromState) : M ROW RowCopyTextFromState :=
  or_reset (
    source_ ← gets (source_row source);
    let sourceColBeg := _clampedColumnInclusive (sourceColumnBegin state) source_ in
    let sourceColLimit := _clampedColumnInclusive (sourceColumnLimit state) source_ in
    '(charOffsets, data, chars) ← reads (fun _ => source_text sourceColBeg sourceColLimit source_);
    h ← reads (WriteHelper_ctor (copy_columnBegin state) (copy_columnLimit state) data chars);
    if negb (IsValid h) || (match source with This => true | Other _ => false end)
       || (Z.of_nat (length charOffsets) <? 2) || begins_with_trailer charOffsets
    then mret (copied state (colBeg h) (colBeg h) (colBeg h) (_columnCount source_))
    else
      h ← WriteHelper_CopyTextFrom charOffsets h;
      h ← Finish h;
      mret (copied state (if charsConsumed h =? Z.of_nat (length chars) then colEnd h else colLimit h)
              (colBegDirty h) (colEndDirty h) (sourceColBeg + colEnd h - colBeg h))).

Definition CoordTypeMax : Z := 0x7fffffff.

Definition CopyFrom (source : RowSource) : M ROW unit :=
  source_ ← gets (source_row source);
  modify (SetLineRendition (_lineRendition source_)) ;;
  modify (SetWrapForced (_wrapForced source_)) ;;
  source_ ← gets (source_row source);
  _ ← CopyTextFrom source (mkCopyState 0 CoordTypeMax 0 (GetReadableColumnCount source_) 0 0 0 0);
  source_ ← gets (source_row source);
  writes (fun r =>
    attr ← resize_trailing_extent 16 (_columnCount r) (_attr source_);
    Some (set_attr attr r)).

(** ** Attributes *)
Definition replaceAttr (start end_ : Z) (v : TextAttribute) : M ROW unit := fun r =>
  match replace_value 16 start end_ v (_attr r) with
  | Ret a => (set_attr a r, Ret tt)
  | Throw => (r, Throw)
  | UB => (r, UB)
  | OutOfFuel => (r, OutOfFuel)
  end.

Definition SetAttrToEnd (columnBegin : Z) (attr : TextAttribute) : M ROW unit :=
  begin ← gets (_clampedColumnInclusive columnBegin);
  end_ ← gets (fun r => _total_length (_attr r));
  replaceAttr begin end_ attr.

Definition ReplaceAttributes (beginIndex endIndex : Z) (newAttr : TextAttribute) : M ROW unit :=
  begin ← gets (_clampedColumnInclusive beginIndex);
  end_ ← gets (_clampedColumnInclusive endIndex);
  replaceAttr begin end_ newAttr.

Definition GetAttrByColumn (column : Z) r : Outcome TextAttribute := at_ 16 (_clampedColumn column r) (_attr r).

Definition GetHyperlinks r : list Z :=
  map (fun run => TextAttribute.GetHyperlinkId (value run)) (List.filter (fun run => TextAttribute.IsHyperlink (value run)) (_runs (_attr r))).

(** ** Cells *)
Section cells.
Context {I : Type} `{CellIterator I}.

(** [currentColor], [colorUses] and [colorStarts]. *)
Record ColorRun := mkColorRun { currentColor : TextAttribute; colorUses : Z; colorStarts : Z }.

Definition writeColor (it : I) (currentIndex : Z) (c : ColorRun) : M ROW ColorRun :=
  let view := cell_view it in
  if decide (TextAttrBehavior view = Current) then mret c
  else if decide (currentColor c = TextAttr view) then mret (mkColorRun (currentColor c) (u16 (colorUses c + 1)) (colorStarts c))
  else
    replaceAttr (colorStarts c) currentIndex (currentColor c) ;;
    mret (mkColorRun (TextAttr view) 1 currentIndex).

(** The text of the current cell; the iterator after it. *)
Definition writeCellText (it : I) (currentIndex finalColumnInRow : Z) (wrap : option bool) : M ROW I :=
  let view := cell_view it in
  if decide (TextAttrBehavior view = StoredOnly) then mret (cell_next it)
  else
    let fillingFirstColumn := currentIndex =? 0 in
    let fillingLastColumn := currentIndex =? finalColumnInRow in
    it ← (match DbcsAttr view with
          | Leading =>
              if fillingLastColumn then ClearCell currentIndex ;; modify (SetDoubleBytePadded true) ;; mret it
              else ReplaceCharacters currentIndex 2 0 (Chars view) ;; mret (cell_next it)
          | Trailing =>
              (if fillingFirstColumn then ClearCell currentIndex
               else if cell_position it =? 0 then ReplaceCharacters (currentIndex - 1) 2 0 (Chars view)
               else mret tt) ;;
              mret (cell_next it)
          | Single => ReplaceCharacters currentIndex 1 0 (Chars view) ;; mret (cell_next it)
          end);
    (match wrap with
     | Some wrap => if fillingLastColumn then modify (SetWrapForced wrap) else mret tt
     | None => mret tt
     end) ;;
    mret it.

Fixpoint writeCellsLoop (fuel : nat) (it : I) (c : ColorRun) (currentIndex finalColumnInRow : Z) (wrap : option bool) :
    M ROW (I * ColorRun * Z) :=
  match fuel with
  | O => outOfFuel
  | S fuel =>
      if cell_valid it && (currentIndex <=? finalColumnInRow) then
        c ← writeColor it currentIndex c;
        it ← writeCellText it currentIndex finalColumnInRow wrap;
        writeCellsLoop fuel it c (u16 (currentIndex + 1)) finalColumnInRow wrap
      else mret (it, c, currentIndex)
  end.

Definition WriteCells (it : I) (columnBegin : Z) (wrap : option bool) (limitRight : option Z) : M ROW I :=
  size ← gets size;
  if columnBegin >=? size then throw
  else if default 0 limitRight >=? size then throw
  else
    let finalColumnInRow := u16 (default (size - 1) limitRight) in
    let currentIndex := u16 columnBegin in
    '(it, c, currentIndex) ←
      writeCellsLoop (S (Z.to_nat (finalColumnInRow - currentIndex + 1))) it
        (mkColorRun (TextAttr (cell_view it)) 0 currentIndex) currentIndex finalColumnInRow wrap;
    (if negb (colorUses c =? 0) then replaceAttr (colorStarts c) currentIndex (currentColor c) else mret tt) ;;
    mret it.
End cells.
End row.

(** ** Queries *)
Definition GetText r : option wstring :=
  width ← load (_charOffsets r) (GetReadableColumnCount r);
  loads (_chars r) 0 (Z.land width CharOffsetsMask).

Definition GetText_range (columnBegin columnEnd : Z) r : option wstring :=
  let columns := GetReadableColumnCount r in
  let colBeg := clamp columnBegin 0 columns in
  let colEnd := clamp columnEnd colBeg columns in
  chBeg ← _uncheckedCharOffset colBeg r;
  chEnd ← _uncheckedCharOffset colEnd r;
  loads (_chars r) chBeg (chEnd - chBeg).

(** The number of spaces at the beginning of a text, or in reverse at its end. *)
Fixpoint spaces (text : wstring) : Z :=
  match text with
  | c :: text => if c =? 0x20 then 1 + spaces text else 0
  | [] => 0
  end.

Definition GetLastNonSpaceColumn r : option Z :=
  text ← GetText r;
  Some (GetReadableColumnCount r - spaces (reverse text)).

Definition MeasureLeft r : option Z := text ← GetText r; Some (spaces text).

Definition MeasureRight r : option Z :=
  if _wrapForced r then
    let width := _columnCount r in
    Some (if _doubleBytePadded r then u16 (width - 1) else width)
  else GetLastNonSpaceColumn r.

Definition ContainsText r : option bool := text ← GetText r; Some (existsb (fun c => negb (c =? 0x20)) text).

(** [while (_uncheckedIsTrailer(++col))]. *)
Fixpoint glyphEndLoop (fuel : nat) (col : Z) r : option Z :=
  match fuel with
  | O => None
  | S fuel =>
      let col := u16 (col + 1) in
      trailer ← _uncheckedIsTrailer col r;
      if trailer : bool then glyphEndLoop fuel col r else Some col
  end.

Definition GlyphAt (column : Z) r : option wstring :=
  let col := _clampedColumn column r in
  beg ← _uncheckedCharOffset col r;
  col ← glyphEndLoop (columns_fuel r) col r;
  end_ ← _uncheckedCharOffset col r;
  loads (_chars r) beg (end_ - beg).

Definition DbcsAttrAt (column : Z) r : option DbcsAttribute :=
  let col := _clampedColumn column r in
  trailer ← _uncheckedIsTrailer col r;
  if trailer : bool then Some Trailing
  else
    leading ← _uncheckedIsTrailer (col + 1) r;
    Some (if leading : bool then Leading else Single).

Definition GetCharOffset (col : Z) r : option Z :=
  let columns := GetReadableColumnCount r in
  let colBeg := clamp col 0 columns in
  _uncheckedCharOffset colBeg r.

Definition DelimiterClassAt (column : Z) (wordDelimiters : wstring) r : option DelimiterClass :=
  let col := _clampedColumn column r in
  offset ← _uncheckedCharOffset col r;
  glyph ← _uncheckedChar offset r;
  Some (if glyph <=? 0x20 then ControlChar
        else if existsb (Z.eqb glyph) wordDelimiters then DelimiterChar else RegularChar).

(** ** [CharToColumnMapper]

    It points to the arrays of the row; [_chars] is where the text is. *)
Record CharToColumnMapper := mkMapper {
  mapper_chars : Z;
  mapper_charOffsets : list Z;
  _charsLength : Z;
  _currentColumn : Z;
  mapper_columnCount : Z
}.
Definition set_currentColumn v m := mkMapper (mapper_chars m) (mapper_charOffsets m) (_charsLength m) v (mapper_columnCount m).

Fixpoint forwardSearch (fuel : nat) (charOffsets : list Z) (targetOffset col currentOffset : Z) : option (Z * Z) :=
  match fuel with
  | O => None
  | S fuel =>
      if targetOffset >? Z.land currentOffset CharOffsetsMask then
        currentOffset ← load charOffsets (col + 1);
        forwardSearch fuel charOffsets targetOffset (col + 1) currentOffset
      else Some (col, currentOffset)
  end.

Fixpoint backwardSearch (fuel : nat) (charOffsets : list Z) (targetOffset col currentOffset : Z) : option Z :=
  match fuel with
  | O => None
  | S fuel =>
      if targetOffset <? currentOffset then
        currentOffset ← load charOffsets (col - 1);
        backwardSearch fuel charOffsets targetOffset (col - 1) currentOffset
      else Some col
  end.

Definition GetLeadingColumnAt (targetOffset : Z) (m : CharToColumnMapper) : option (CharToColumnMapper * Z) :=
  let targetOffset := clamp targetOffset 0 (_charsLength m) in
  let col := _currentColumn m in
  let fuel := S (length (mapper_charOffsets m)) in
  currentOffset ← load (mapper_charOffsets m) col;
  '(col, currentOffset) ← forwardSearch fuel (mapper_charOffsets m) targetOffset col currentOffset;
  col ← backwardSearch fuel (mapper_charOffsets m) targetOffset col currentOffset;
  Some (set_currentColumn col m, col).

Fixpoint trailingSearch (fuel : nat) (charOffsets : list Z) (col : Z) : option Z :=
  match fuel with
  | O => None
  | S fuel =>
      v ← load charOffsets (col + 1);
      if WI_IsFlagSet v CharOffsetsTrailer then trailingSearch fuel charOffsets (col + 1) else Some col
  end.

Definition GetTrailingColumnAt (offset : Z) (m : CharToColumnMapper) : option (CharToColumnMapper * Z) :=
  '(m, col) ← GetLeadingColumnAt offset m;
  col ← (if col <? mapper_columnCount m then trailingSearch (S (length (mapper_charOffsets m))) (mapper_charOffsets m) col
         else Some col);
  Some (m, col).

Definition GetLeadingColumnAt_ptr (str : Z) (m : CharToColumnMapper) := GetLeadingColumnAt (str - mapper_chars m) m.
Definition GetTrailingColumnAt_ptr (str : Z) (m : CharToColumnMapper) := GetTrailingColumnAt (str - mapper_chars m) m.

Definition _createCharToColumnMapper (charsAddress : ROW -> Z) (offset : Z) r : option CharToColumnMapper :=
  lastChar ← _charSize r;
  let guessedColumn := clamp offset 0 (_columnCount r) in
  Some (mkMapper (charsAddress r) (_charOffsets r) lastChar guessedColumn (_columnCount r)).

Definition GetLeadingColumnAtCharOffset (charsAddress : ROW -> Z) (offset : Z) r : option Z :=
  m ← _createCharToColumnMapper charsAddress offset r;
  '(_, col) ← GetLeadingColumnAt offset m;
  Some col.
Definition GetTrailingColumnAtCharOffset (charsAddress : ROW -> Z) (offset : Z) r : option Z :=
  m ← _createCharToColumnMapper charsAddress offset r;
  '(_, col) ← GetTrailingColumnAt offset m;
  Some col.

(** ** Marks *)
Definition GetScrollbarData r : option ScrollbarData := _promptData r.
Definition StartPrompt r : ROW :=
  match _promptData r with
  | Some _ => r
  | None => SetScrollbarData (Some (mkScrollbarData Category_Prompt None None)) r
  end.
Definition EndOutput (error : option Z) r : ROW :=
  match _promptData r with
  | None => r
  | Some data =>
      let category :=
        match error with
        | Some e => if e =? 0 then Category_Success else Category_Error
        | None => category data
        end in
      SetScrollbarData (Some (mkScrollbarData category (mark_color data) error)) r
  end.
