(* ===== verification/RowSpec.v ===== *)
(** * Rows as lists of glyphs

    The specification of a row: the glyphs it shows from left to right, each a text and the
    number of columns it takes. [shows] relates it to the arrays of [Row.ROW]. *)
From S2P Require Import Prelude InputEvents TextAttributes Rle ImageSlice Row.

Record glyph := mkGlyph { glyph_text : wstring; glyph_width : nat }.
Implicit Types (G A B N : list glyph) (g : glyph) (r : ROW).

Definition space : glyph := mkGlyph [0x20] 1.
Definition glyph_ok g : Prop := glyph_text g <> [] /\ (1 <= glyph_width g <= 2)%nat.
Definition glyphs_ok G : Prop := Forall glyph_ok G.

Definition text_of G : wstring := concat (map glyph_text G).
Fixpoint columns G : nat := match G with [] => 0 | g :: G => glyph_width g + columns G end.
Abbreviation chars_of G := (Z.of_nat (length (text_of G))).

(** The entries of [_charOffsets] for glyphs whose text starts at [base]. *)
Fixpoint offsets (base : Z) G : list Z :=
  match G with
  | [] => []
  | g :: G => base :: replicate (glyph_width g - 1) (base + CharOffsetsTrailer) ++ offsets (base + Z.of_nat (length (glyph_text g))) G
  end.
Definition all_offsets (base : Z) G : list Z := offsets base G ++ [base + chars_of G].

(** The glyphs that end at or before a column, and those that start at or after it. *)
Fixpoint take_columns (n : nat) G : list glyph :=
  match G with
  | [] => []
  | g :: G => if (glyph_width g <=? n)%nat then g :: take_columns (n - glyph_width g) G else []
  end.
Fixpoint drop_columns (n : nat) G : list glyph :=
  match G with
  | [] => []
  | g :: G' => match n with O => G | _ => drop_columns (n - glyph_width g) G' end
  end.
(** The columns where the glyph at a column starts, and the first column from it on where one starts. *)
Definition start_column (n : nat) G : nat := columns (take_columns n G).
Definition next_column (n : nat) G : nat := (columns G - columns (drop_columns n G))%nat.

(** Glyphs written over the columns from [from], in place of everything up to [until];
    what is left of glyphs that were cut becomes space. *)
Definition overwrite (from until : nat) N G : list glyph :=
  take_columns from G ++ replicate (from - start_column from G) space ++ N
    ++ replicate (next_column until G - (from + columns N)) space ++ drop_columns until G.

(** The arrays the text buffer lends to a row of [columns] columns. *)
Definition buffer_length (columns : Z) : nat := Z.to_nat (CalculateCharsBufferSize columns / 2).
Definition lent r : Prop :=
  0 < _columnCount r <= 0x7fff /\
  length (_charsBuffer r) = buffer_length (_columnCount r) /\ length (_charOffsetsBuffer r) = buffer_length (_columnCount r).

Definition shows r G : Prop :=
  lent r /\ glyphs_ok G /\ Z.of_nat (columns G) = _columnCount r /\ chars_of G <= CharOffsetsMask /\
  (exists unused, _chars r = text_of G ++ unused) /\ Z.of_nat (length (_chars r)) <= 0xffff /\ _charOffsets r = all_offsets 0 G.

(** ** Texts and columns of lists *)
Lemma text_of_app A B : text_of (A ++ B) = text_of A ++ text_of B.
Proof. unfold text_of. by rewrite map_app, concat_app. Qed.

Lemma text_of_cons g G : text_of (g :: G) = glyph_text g ++ text_of G.
Proof. done. Qed.

Lemma columns_app A B : columns (A ++ B) = (columns A + columns B)%nat.
Proof. induction A as [|g A IH]; cbn; [done|]. rewrite IH. lia. Qed.

Lemma glyphs_ok_app A B : glyphs_ok (A ++ B) <-> glyphs_ok A /\ glyphs_ok B.
Proof. apply Forall_app. Qed.

Lemma glyphs_ok_space n : glyphs_ok (replicate n space).
Proof. apply Forall_replicate. split; cbn; [done|lia]. Qed.

Lemma text_of_space n : text_of (replicate n space) = replicate n 0x20.
Proof. induction n as [|n IH]; [done|]. cbn [replicate]. rewrite text_of_cons, IH. done. Qed.

Lemma columns_space n : columns (replicate n space) = n.
Proof. induction n as [|n IH]; [done|]. cbn. by rewrite IH. Qed.

Lemma chars_of_app A B : chars_of (A ++ B) = chars_of A + chars_of B.
Proof. rewrite text_of_app, length_app. lia. Qed.

Lemma offsets_app base A B : offsets base (A ++ B) = offsets base A ++ offsets (base + chars_of A) B.
Proof.
  revert base. induction A as [|g A IH]; intros base; cbn [offsets app].
  - by rewrite Z.add_0_r.
  - rewrite IH, text_of_cons, length_app, <- app_assoc. do 4 f_equal. lia.
Qed.

Lemma all_offsets_app base A B : all_offsets base (A ++ B) = offsets base A ++ all_offsets (base + chars_of A) B.
Proof. unfold all_offsets. rewrite offsets_app, chars_of_app, <- app_assoc. do 3 f_equal. lia. Qed.

Lemma length_offsets base G : glyphs_ok G -> length (offsets base G) = columns G.
Proof.
  intros HG. revert base. induction HG as [|g G [_ Hw] _ IH]; intros base; cbn [offsets columns length]; [done|].
  rewrite length_app, length_replicate, IH. lia.
Qed.

Lemma length_all_offsets base G : glyphs_ok G -> length (all_offsets base G) = S (columns G).
Proof. intros HG. unfold all_offsets. rewrite length_app, length_offsets by done. cbn. lia. Qed.

Lemma offsets_space base n : offsets base (replicate n space) = map (fun i => base + Z.of_nat i) (seq 0 n).
Proof.
  revert base. induction n as [|n IH]; intros base; [done|]. cbn [replicate offsets space glyph_text glyph_width].
  cbn [Nat.sub replicate app length]. rewrite IH. cbn [seq map]. f_equal; [lia|]. rewrite <- seq_shift, map_map.
  apply map_ext. intros i. lia.
Qed.

(** ** Entries *)
Lemma mask_small v : 0 <= v <= CharOffsetsMask -> Z.land v CharOffsetsMask = v.
Proof.
  intros Hv. change CharOffsetsMask with (Z.ones 15) in *. rewrite Z.land_ones by lia. apply Z.mod_small.
  change (Z.ones 15) with 32767 in Hv. lia.
Qed.

Lemma mask_trailer v : 0 <= v <= CharOffsetsMask -> Z.land (v + CharOffsetsTrailer) CharOffsetsMask = v.
Proof.
  intros Hv. change CharOffsetsMask with (Z.ones 15) in *. rewrite Z.land_ones by lia. change CharOffsetsTrailer with (1 * 2 ^ 15).
  rewrite Z.mod_add by lia. apply Z.mod_small. change (Z.ones 15) with 32767 in Hv. lia.
Qed.

Lemma land_trailer v : Z.land v CharOffsetsTrailer = if Z.testbit v 15 then CharOffsetsTrailer else 0.
Proof.
  apply Z.bits_inj'. intros n Hn. rewrite Z.land_spec. change CharOffsetsTrailer with (2 ^ 15). rewrite Z.pow2_bits_eqb by lia.
  destruct (Z.eqb_spec 15 n) as [<-|Hne].
  - destruct (Z.testbit v 15); [by rewrite Z.pow2_bits_true|by rewrite Z.bits_0].
  - rewrite andb_false_r. destruct (Z.testbit v 15); [|by rewrite Z.bits_0]. by rewrite Z.pow2_bits_false.
Qed.

Lemma not_trailer v : 0 <= v <= CharOffsetsMask -> WI_IsFlagSet v CharOffsetsTrailer = false.
Proof.
  intros Hv. unfold WI_IsFlagSet. rewrite land_trailer. rewrite Z.testbit_eqb by lia.
  rewrite Z.div_small; [done|]. change CharOffsetsMask with 32767 in Hv. lia.
Qed.

Lemma is_trailer v : 0 <= v <= CharOffsetsMask -> WI_IsFlagSet (v + CharOffsetsTrailer) CharOffsetsTrailer = true.
Proof.
  intros Hv. unfold WI_IsFlagSet. rewrite land_trailer. rewrite Z.testbit_eqb by lia. change CharOffsetsTrailer with (1 * 2 ^ 15) at 1.
  rewrite Z.div_add by lia. rewrite Z.div_small; [done|]. change CharOffsetsMask with 32767 in Hv. lia.
Qed.

Lemma or_trailer v : 0 <= v <= CharOffsetsMask -> Z.lor v CharOffsetsTrailer = v + CharOffsetsTrailer.
Proof.
  intros Hv. rewrite <- Z.lxor_lor, <- Z.add_nocarry_lxor; try done; rewrite land_trailer, Z.testbit_eqb, Z.div_small by (change CharOffsetsMask with 32767 in Hv; lia); done.
Qed.

Lemma u16_small v : 0 <= v < 65536 -> u16 v = v.
Proof. intros Hv. apply wrap_small. exact Hv. Qed.

(** ** Columns and the glyphs around them *)
Lemma columns_split n G : glyphs_ok G -> (n <= columns G)%nat ->
  (G = take_columns n G ++ drop_columns n G /\ columns (take_columns n G) = n) \/
  (exists g, G = take_columns n G ++ g :: drop_columns n G /\ (columns (take_columns n G) < n < columns (take_columns n G) + glyph_width g)%nat).
Proof.
  intros HG. revert n. induction HG as [|g G [_ Hg] HG IH]; intros n Hn.
  - left. cbn in *. split; [done|lia].
  - cbn [take_columns drop_columns columns] in *. destruct n as [|n].
    + left. replace (glyph_width g <=? 0)%nat with false by (symmetry; apply Nat.leb_gt; lia). done.
    + destruct (Nat.leb_spec (glyph_width g) (S n)) as [Hle|Hlt].
      * destruct (IH (S n - glyph_width g)%nat ltac:(lia)) as [[HE Hc]|(g' & HE & Hc)].
        -- left. cbn [app columns]. rewrite <- HE. split; [done|lia].
        -- right. exists g'. cbn [app columns]. rewrite <- HE. split; [done|lia].
      * right. exists g. cbn [app columns]. replace (S n - glyph_width g)%nat with 0%nat by lia.
        split; [by destruct G|lia].
Qed.

Lemma take_columns_app n A B : glyphs_ok A -> columns A = n -> take_columns n (A ++ B) = A ++ take_columns 0 B.
Proof.
  intros HA. revert n. induction HA as [|g A [_ Hg] _ IH]; intros n Hn; cbn [columns app take_columns] in *; [by subst n|].
  rewrite (proj2 (Nat.leb_le _ _)) by lia. f_equal. apply IH. lia.
Qed.

Lemma take_columns_0 G : glyphs_ok G -> take_columns 0 G = [].
Proof. intros HG. destruct HG as [|g G [_ Hg] _]; [done|]. cbn. by rewrite (proj2 (Nat.leb_gt _ _)) by lia. Qed.

Lemma drop_columns_app n A B : columns A = n -> glyphs_ok A -> drop_columns n (A ++ B) = B.
Proof.
  intros Hn HA. revert n Hn. induction HA as [|g A [_ Hg] _ IH]; intros n Hn; cbn [columns app] in *.
  - subst n. by destruct B.
  - cbn [drop_columns]. destruct n as [|n]; [lia|]. apply IH. lia.
Qed.

(** The glyphs dropped start where [next_column] says. *)
Lemma next_column_split n G : glyphs_ok G -> (n <= columns G)%nat ->
  exists A, G = A ++ drop_columns n G /\ columns A = next_column n G /\ (n <= next_column n G <= columns G)%nat.
Proof.
  intros HG Hn. unfold next_column. destruct (columns_split n G HG Hn) as [[HE Hc]|(g & HE & Hc)].
  - exists (take_columns n G). pose proof (f_equal columns HE) as HC. rewrite columns_app in HC. repeat split; [done|lia..].
  - exists (take_columns n G ++ [g]). pose proof (f_equal columns HE) as HC. rewrite columns_app in HC. cbn [columns] in HC.
    rewrite <- app_assoc, columns_app. cbn [columns app]. repeat split; [done|lia..].
Qed.

(** ** Reading entries *)
Lemma load_offsets_start base A B : glyphs_ok A -> load (all_offsets base (A ++ B)) (Z.of_nat (columns A)) = Some (base + chars_of A).
Proof.
  intros HA. rewrite all_offsets_app. rewrite load_app_r; rewrite length_offsets by done; [|lia].
  rewrite Z.sub_diag. destruct B as [|g B]; unfold all_offsets; [|done]. change (text_of []) with (@nil Z). by rewrite Z.add_0_r.
Qed.

Lemma load_offsets_trailer base A g B k : glyphs_ok A -> (0 < k < glyph_width g)%nat ->
  load (all_offsets base (A ++ g :: B)) (Z.of_nat (columns A + k)) = Some (base + chars_of A + CharOffsetsTrailer).
Proof.
  intros HA Hk. rewrite all_offsets_app. rewrite load_app_r; rewrite length_offsets by done; [|lia].
  replace (Z.of_nat (columns A + k) - Z.of_nat (columns A)) with (Z.of_nat k) by lia.
  rewrite load_lookup, Nat2Z.id by lia. unfold all_offsets. cbn [offsets]. destruct k as [|k]; [lia|]. rewrite <- app_comm_cons, lookup_cons.
  rewrite <- app_assoc, lookup_app_l by (rewrite length_replicate; lia). apply lookup_replicate_2. lia.
Qed.

(** A row whose entries from column [n] on are those of the glyphs. *)
Definition entries_from (n : nat) r G : Prop :=
  glyphs_ok G /\ Z.of_nat (columns G) = _columnCount r /\ _columnCount r <= 0x7fff /\ chars_of G <= CharOffsetsMask /\
  forall i, (n <= i <= columns G)%nat -> load (_charOffsets r) (Z.of_nat i) = load (all_offsets 0 G) (Z.of_nat i).

Lemma entries_from_le m n r G : (m <= n)%nat -> entries_from m r G -> entries_from n r G.
Proof. intros Hmn (?&?&?&?&Hi). repeat split; try done. intros i Hn. apply Hi. lia. Qed.

Lemma shows_entries r G : shows r G -> entries_from 0 r G.
Proof. intros ((?&?&?)&?&?&?&?&?&HE). repeat split; try done; [lia|]. intros i _. by rewrite HE. Qed.

Section entries.
Context (n : nat) (r : ROW) (G : list glyph) (HR : entries_from n r G).

Lemma entry_start A B : G = A ++ B -> (n <= columns A)%nat ->
  _uncheckedCharOffset (Z.of_nat (columns A)) r = Some (chars_of A) /\ _uncheckedIsTrailer (Z.of_nat (columns A)) r = Some false.
Proof.
  intros HG Hn. destruct HR as (Hok & Hc & _ & Hch & Hi). unfold _uncheckedCharOffset, _uncheckedIsTrailer.
  assert (Hle : (columns A <= columns G)%nat) by (rewrite HG, columns_app; lia).
  rewrite Hi by lia. rewrite HG in Hok, Hch |- *. apply glyphs_ok_app in Hok as [HA _]. rewrite load_offsets_start by done. cbn.
  rewrite chars_of_app in Hch. rewrite mask_small, not_trailer by lia. done.
Qed.

Lemma entry_trailer A g B k : G = A ++ g :: B -> (0 < k < glyph_width g)%nat -> (n <= columns A + k)%nat ->
  _uncheckedCharOffset (Z.of_nat (columns A + k)) r = Some (chars_of A) /\ _uncheckedIsTrailer (Z.of_nat (columns A + k)) r = Some true.
Proof.
  intros HG Hk Hn. destruct HR as (Hok & Hc & _ & Hch & Hi). unfold _uncheckedCharOffset, _uncheckedIsTrailer.
  assert (Hle : (columns A + glyph_width g <= columns G)%nat) by (rewrite HG, columns_app; cbn; lia).
  rewrite Hi by lia. rewrite HG in Hok, Hch |- *. apply glyphs_ok_app in Hok as [HA _]. rewrite load_offsets_trailer by done. cbn [mbind option_bind].
  rewrite chars_of_app in Hch. rewrite mask_trailer, is_trailer by lia. done.
Qed.

Lemma adjustForward_spec : (n <= columns G)%nat -> _adjustForward (Z.of_nat n) r = Some (Z.of_nat (next_column n G)).
Proof.
  intros Hn. pose proof HR as (Hok & Hc & H32 & _ & _). unfold _adjustForward, columns_fuel.
  destruct (columns_split n G Hok Hn) as [[HG HA]|(g & HG & HA)].
  - assert (HN : next_column n G = n).
    { unfold next_column. pose proof (f_equal columns HG) as HC. rewrite columns_app in HC. lia. }
    rewrite HN. cbn [adjustLoop]. destruct (entry_start _ _ HG ltac:(lia)) as [_ Ht]. rewrite HA in Ht. by rewrite Ht.
  - assert (Hg : glyph_ok g) by (rewrite HG in Hok; apply glyphs_ok_app in Hok as [_ Hok]; by inversion Hok).
    destruct Hg as [_ Hw]. set (A := take_columns n G) in *. assert (Hn1 : n = (columns A + 1)%nat) by lia.
    assert (HN : next_column n G = S n).
    { unfold next_column. pose proof (f_equal columns HG) as HC. rewrite columns_app in HC. cbn [columns] in HC. lia. }
    rewrite HN. destruct (entry_trailer _ _ _ 1 HG ltac:(lia) ltac:(lia)) as [_ Ht]. rewrite <- Hn1 in Ht.
    cbn [adjustLoop]. rewrite Ht. cbn [mbind option_bind]. rewrite (u16_small (Z.of_nat n + 1)) by lia.
    assert (HA' : S n = columns (A ++ [g])) by (rewrite columns_app; cbn; lia).
    destruct (entry_start (A ++ [g]) (drop_columns n G)) as [_ Ht']; [by rewrite <- app_assoc|lia|]. rewrite <- HA' in Ht'.
    replace (Z.of_nat n + 1) with (Z.of_nat (S n)) by lia. by rewrite Ht'.
Qed.
End entries.

Lemma adjustBackward_spec r G n : entries_from 0 r G -> (n <= columns G)%nat ->
  _adjustBackward (Z.of_nat n) r = Some (Z.of_nat (start_column n G)).
Proof.
  intros HR Hn. pose proof HR as (Hok & Hc & H32 & _ & _). unfold _adjustBackward, columns_fuel, start_column.
  destruct (columns_split n G Hok Hn) as [[HG HA]|(g & HG & HA)].
  - cbn [adjustLoop]. destruct (entry_start _ _ _ HR _ _ HG ltac:(lia)) as [_ Ht]. rewrite HA in *. by rewrite Ht.
  - assert (Hg : glyph_ok g) by (rewrite HG in Hok; apply glyphs_ok_app in Hok as [_ Hok]; by inversion Hok).
    destruct Hg as [_ Hw]. set (A := take_columns n G) in *. assert (Hn1 : n = (columns A + 1)%nat) by lia.
    destruct (entry_trailer _ _ _ HR _ _ _ 1 HG ltac:(lia) ltac:(lia)) as [_ Ht]. rewrite <- Hn1 in Ht.
    cbn [adjustLoop]. rewrite Ht. cbn [mbind option_bind]. rewrite (u16_small (Z.of_nat n + -1)) by lia.
    destruct (entry_start _ _ _ HR _ _ HG ltac:(lia)) as [_ Ht']. replace (Z.of_nat n + -1) with (Z.of_nat (columns A)) by lia.
    by rewrite Ht'.
Qed.
