(* ===== verification/RowWrite.v ===== *)
(** * Writing glyphs

    What [WriteHelper] does to the arrays of a row, and that [Finish] leaves a row that
    shows the glyphs written. *)
From S2P Require Import Prelude LineRenditions InputEvents TextAttributes Rle ImageSlice Graphemes Row RowSpec.

Implicit Types (G A B N : list glyph) (g : glyph) (r : ROW) (h : WriteHelper).

(** ** Running reads and writes *)
Section running.
Context {S A B : Type}.

Lemma run_reads (f : S -> option A) (k : A -> M S B) s a : f s = Some a -> mbind k (reads f) s = k a s.
Proof. intros Hf. cbv [mbind M_bind reads]. by rewrite Hf. Qed.

Lemma run_writes (f : S -> option S) (k : unit -> M S B) s s' : f s = Some s' -> mbind k (writes f) s = k tt s'.
Proof. intros Hf. cbv [mbind M_bind writes]. by rewrite Hf. Qed.

Lemma run_throw (m : M S A) (k : A -> M S B) s s' : m s = (s', Throw) -> mbind k m s = (s', Throw).
Proof. intros Hm. cbv [mbind M_bind]. by rewrite Hm. Qed.
End running.

(** ** The arrays of a row *)
Lemma buffer_length_eq c : 0 <= c -> buffer_length c = Z.to_nat (8 * ((c + 8) / 8)).
Proof.
  intros Hc. unfold buffer_length, CalculateCharsBufferSize. f_equal. change 15 with (Z.ones 4).
  rewrite Z.ldiff_ones_r, Z.shiftl_mul_pow2, Z.shiftr_div_pow2 by lia. change (2 ^ 4) with 16.
  replace (c * 2 + 16) with (2 * (c + 8)) by lia. change 16 with (2 * 8) at 1. rewrite Z.div_mul_cancel_l by lia.
  replace ((c + 8) / 8 * 16) with (8 * ((c + 8) / 8) * 2) by lia. by apply Z.div_mul.
Qed.

Lemma buffer_length_bound c : 0 <= c -> (Z.to_nat c < buffer_length c)%nat.
Proof. intros Hc. rewrite buffer_length_eq by done. pose proof (Z.div_mod (c + 8) 8). pose proof (Z.mod_pos_bound (c + 8) 8). lia. Qed.

(** What a write to the arrays leaves alone. *)
Definition frame r := (_attr r, _columnCount r, _lineRendition r, _wrapForced r, _promptData r, _imageSlice r).

Definition holds (f : basic_rle TextAttribute * Z * LineRendition * bool * option ScrollbarData * option ImageSlice) (padded : bool)
    r (C : list wchar_t) (O : list Z) : Prop :=
  frame r = f /\ _doubleBytePadded r = padded /\ lent r /\ _chars r = C /\ Z.of_nat (length C) <= 0xffff /\ _charOffsets r = O.

Lemma length_charOffsets r : lent r -> length (_charOffsets r) = S (Z.to_nat (_columnCount r)).
Proof.
  intros (Hc & _ & Hb). unfold _charOffsets. rewrite length_take, Hb. pose proof (buffer_length_bound (_columnCount r)). lia.
Qed.

Section arrays.
Context {f : basic_rle TextAttribute * Z * LineRendition * bool * option ScrollbarData * option ImageSlice} {padded : bool}
  {r : ROW} {C O : list Z} (Hr : holds f padded r C O).

Lemma holds_set_charOffsets l : length l = length O -> holds f padded (set_charOffsets l r) C l.
Proof.
  intros Hl. destruct Hr as (Hf & Hp & Hlent & HC & Hcap & HO). pose proof (length_charOffsets r Hlent) as HlO. rewrite HO in HlO.
  destruct Hlent as (Hc & Hb & Ho). split; [done|]. split; [done|]. split; [|split; [done|split; [done|]]].
  - split; [done|]. split; [done|]. cbn. rewrite length_app, length_drop, Ho. pose proof (buffer_length_bound (_columnCount r)). lia.
  - unfold _charOffsets. cbn. rewrite take_app_le, take_ge by lia. done.
Qed.

Lemma holds_set_chars l : length l = length C -> holds f padded (set_chars l r) l O.
Proof.
  intros Hl. destruct Hr as (Hf & Hp & (Hc & Hb & Ho) & HC & Hcap & HO). pose proof (buffer_length_bound (_columnCount r)) as Hbb.
  unfold set_chars. unfold _chars in HC. destruct (_charsHeap r) eqn:Hh.
  - split; [done|]. split; [done|]. split; [by split|]. split; [done|]. split; [lia|done].
  - assert (Hlen : length C = Z.to_nat (_columnCount r)) by (subst C; rewrite length_take; lia).
    split; [done|]. split; [done|]. split; [|split; [unfold _chars; cbn; rewrite Hh|split; [lia|done]]].
    + split; [done|]. split; [|done]. cbn. rewrite length_app, length_drop, Hb. lia.
    + rewrite take_app_le, take_ge by lia. done.
Qed.

Lemma run_storeOffsets i vs O' : store O i vs = Some O' ->
  exists r', storeOffsets i vs r = (r', Ret tt) /\ holds f padded r' C O'.
Proof.
  intros Hs. exists (set_charOffsets O' r). split.
  - unfold storeOffsets, writes. destruct Hr as (_&_&_&_&_&HO). by rewrite HO, Hs.
  - apply holds_set_charOffsets. by apply (length_store _ _ _ _ Hs).
Qed.

Lemma run_storeChars i vs C' : store C i vs = Some C' ->
  exists r', storeChars i vs r = (r', Ret tt) /\ holds f padded r' C' O.
Proof.
  intros Hs. exists (set_chars C' r). split.
  - unfold storeChars, writes. destruct Hr as (_&_&_&HC&_). by rewrite HC, Hs.
  - apply holds_set_chars. by apply (length_store _ _ _ _ Hs).
Qed.
End arrays.

(** ** The entries of a glyph *)
Lemma fillOffsets_spec f padded n v h r C X Y W : holds f padded r C (X ++ Y ++ W) -> colEnd h = Z.of_nat (length X) -> length Y = n ->
  Z.of_nat (length X + n) < 65536 ->
  exists r', fillOffsets n v h r = (r', Ret (set_colEnd (Z.of_nat (length X + n)) h)) /\ holds f padded r' C (X ++ replicate n v ++ W).
Proof.
  revert h r X Y. induction n as [|n IH]; intros h r X Y Hr Hc HY Hb; cbn [fillOffsets].
  - exists r. destruct Y; [|done]. split; [|done]. rewrite Nat.add_0_r, <- Hc. by destruct h.
  - destruct Y as [|y Y]; [done|]. cbn in HY. destruct (run_storeOffsets Hr (colEnd h) [v] (X ++ [v] ++ Y ++ W)) as (r1 & Hrun & Hr1);
      [by apply (store_app X [y] (Y ++ W))|]. rewrite (run_bind _ _ _ _ _ Hrun). clear Hrun. rewrite app_assoc in Hr1.
    destruct (IH (set_colEnd (u16 (colEnd h + 1)) h) r1 (X ++ [v]) Y Hr1) as (r2 & Hrun & Hr2).
    + cbn. rewrite u16_small, length_app by lia. cbn. lia.
    + lia.
    + rewrite length_app. cbn. lia.
    + exists r2. rewrite Hrun, length_app. cbn [length]. split.
      * f_equal. f_equal. unfold set_colEnd. cbn. f_equal. lia.
      * by rewrite <- app_assoc in Hr2.
Qed.

Definition entry (ch : Z) (w : nat) : list Z := ch :: replicate (w - 1) (ch + CharOffsetsTrailer).

Lemma writeGlyph_spec f padded ch w h r C X Y W : holds f padded r C (X ++ Y ++ W) -> colEnd h = Z.of_nat (length X) -> length Y = w ->
  (0 < w)%nat -> Z.of_nat (length X + w) < 65536 -> 0 <= ch <= CharOffsetsMask ->
  exists r', writeGlyph ch (Z.of_nat (length X + w)) h r = (r', Ret (set_colEnd (Z.of_nat (length X + w)) h)) /\
    holds f padded r' C (X ++ entry ch w ++ W).
Proof.
  intros Hr Hc HY Hw Hb Hch. unfold writeGlyph. assert (H16 : u16 ch = ch) by (apply u16_small; unfold CharOffsetsMask in Hch; lia).
  destruct Y as [|y Y]; [cbn in HY; lia|]. cbn in HY.
  destruct (run_storeOffsets Hr (colEnd h) [u16 ch] (X ++ [u16 ch] ++ Y ++ W)) as (r1 & Hrun & Hr1); [by apply (store_app X [y] (Y ++ W))|].
  rewrite (run_bind _ _ _ _ _ Hrun). clear Hrun. cbv zeta. rewrite app_assoc in Hr1.
  destruct (fillOffsets_spec f padded (w - 1) (u16 (Z.lor ch CharOffsetsTrailer)) (set_colEnd (u16 (colEnd h + 1)) h) r1 C (X ++ [u16 ch]) Y W Hr1)
    as (r2 & Hrun & Hr2).
  - cbn. rewrite u16_small, length_app by lia. cbn. lia.
  - lia.
  - rewrite length_app. cbn. lia.
  - exists r2. rewrite length_app in Hrun. cbn [length] in Hrun. replace (length X + 1 + (w - 1))%nat with (length X + w)%nat in Hrun by lia.
    replace (Z.to_nat _) with (w - 1)%nat; [rewrite Hrun; split; [done|]|cbn; rewrite u16_small by lia; lia].
    rewrite <- app_assoc, H16, or_trailer in Hr2 by done. rewrite u16_small in Hr2 by (unfold CharOffsetsMask, CharOffsetsTrailer in *; lia). done.
Qed.

(** ** [_resizeChars] *)
Lemma store_after (p q vs : list Z) i : Z.of_nat (length p) <= i -> i + Z.of_nat (length vs) <= Z.of_nat (length (p ++ q)) ->
  exists mid rest, store (p ++ q) i vs = Some (p ++ mid ++ vs ++ rest) /\ Z.of_nat (length mid) = i - Z.of_nat (length p).
Proof.
  intros Hi Hb. unfold store. rewrite (proj2 (Z.leb_le _ _)), (proj2 (Z.leb_le _ _)) by lia. cbn.
  exists (take (Z.to_nat i - length p) q), (drop (Z.to_nat i + length vs) (p ++ q)). rewrite length_app in Hb. split.
  - rewrite take_app_ge by lia. by rewrite <- app_assoc.
  - rewrite length_take. lia.
Qed.

Lemma map_replicate {T U} (f : T -> U) n x : map f (replicate n x) = replicate n (f x).
Proof. exact (fmap_replicate f n x). Qed.

Lemma u16_u64 v d : u16 (v + u64 d) = u16 (v + d).
Proof.
  unfold wrap. rewrite Z.add_mod by lia. rewrite (Z.add_mod v d) by lia. do 2 f_equal.
  change (2 ^ 64) with (2 ^ 16 * 2 ^ 48). rewrite Z.rem_mul_r by lia. rewrite Z.mul_comm, Z.mod_add by lia. by rewrite Z.mod_mod.
Qed.

Lemma shift_offsets old new G : 0 <= old -> 0 <= new -> old + chars_of G <= CharOffsetsMask -> new + chars_of G <= CharOffsetsMask ->
  map (fun it => u16 (it + u64 (new - old))) (all_offsets old G) = all_offsets new G.
Proof.
  revert old new. induction G as [|g G IH]; intros old new Ho Hn Hob Hnb.
  - unfold all_offsets. cbn -[wrap]. rewrite u16_u64. f_equal. cbn in *. unfold CharOffsetsMask in *. rewrite u16_small; lia.
  - rewrite text_of_cons, length_app in Hob, Hnb. change (g :: G) with ([g] ++ G). rewrite !all_offsets_app, map_app. f_equal.
    + cbn [offsets]. rewrite !app_nil_r. cbn [map]. unfold CharOffsetsMask, CharOffsetsTrailer in *. f_equal.
      * rewrite u16_u64, u16_small; lia.
      * rewrite map_replicate. f_equal. rewrite u16_u64, u16_small; lia.
    + assert (Hg : chars_of [g] = Z.of_nat (length (glyph_text g))) by (unfold text_of; cbn; by rewrite app_nil_r).
      rewrite !Hg. rewrite <- (IH (old + Z.of_nat (length (glyph_text g))) (new + Z.of_nat (length (glyph_text g)))) by lia.
      apply map_ext. intros v. do 3 f_equal. lia.
Qed.

Section resize.
Context `{Allocator}.

Lemma resize_spec f padded r p mid G unused X (a old new : Z) :
  holds f padded r (p ++ mid ++ text_of G ++ unused) (X ++ all_offsets old G) -> glyphs_ok G ->
  Z.of_nat (length X + columns G) = _columnCount r ->
  a = Z.of_nat (length p) -> old = Z.of_nat (length p + length mid) -> a <= new ->
  old + chars_of G <= CharOffsetsMask -> new + chars_of G <= CharOffsetsMask ->
  let '(r', o) := _resizeChars (Z.of_nat (length X)) a new old r in
  (o = Ret tt /\ exists mid' unused', Z.of_nat (length mid') = new - a /\
     holds f padded r' (p ++ mid' ++ text_of G ++ unused') (X ++ all_offsets new G)) \/
  (o = Throw /\ r' = r /\ exists n, allocate n = None).
Proof.
  intros Hr HG Hcols -> Hold Ha Hbo Hbn. pose proof Hr as (Hf & Hp & Hlent & HC & Hcap & HO). unfold CharOffsetsMask in *.
  assert (Hsize : _charSize r = Some (old + chars_of G)).
  { unfold _charSize. rewrite HO, load_app_r by lia. replace (_columnCount r - Z.of_nat (length X)) with (Z.of_nat (columns G)) by lia.
    pose proof (load_offsets_start old G [] HG) as Hl. by rewrite app_nil_r in Hl. }
  unfold _resizeChars. rewrite (run_reads _ _ _ _ Hsize). cbv zeta.
  assert (Hnew : u64 (old + chars_of G + u64 (new - old)) = new + chars_of G).
  { unfold wrap. rewrite Z.add_mod_idemp_r by lia. rewrite Z.mod_small; lia. }
  rewrite run_gets, HC, Hnew.
  assert (Htail : loads (p ++ mid ++ text_of G ++ unused) old (old + chars_of G - old) = Some (text_of G)).
  { rewrite app_assoc. apply loads_app; rewrite ?length_app; lia. }
  rewrite (run_reads _ _ _ (text_of G)) by (by rewrite HC).
  set (rest := fun _ => _). 
  assert (Hrest : forall r1 C', holds f padded r1 C' (X ++ all_offsets old G) -> exists r2, rest tt r1 = (r2, Ret tt) /\
            holds f padded r2 C' (X ++ all_offsets new G)).
  { intros r1 C' Hr1. pose proof Hr1 as (Hf1&_&_&_&_&HO1). unfold rest.
    assert (Hc1 : _columnCount r1 = _columnCount r) by (rewrite <- Hf in Hf1; unfold frame in Hf1; congruence).
    rewrite (run_reads _ _ _ (all_offsets old G)).
    2:{ rewrite HO1, Hc1. apply loads_end; rewrite ?length_all_offsets by done; lia. }
    rewrite shift_offsets by (unfold CharOffsetsMask; lia). apply (run_storeOffsets Hr1).
    apply store_end; rewrite ?length_all_offsets by done; [lia|done]. }
  destruct (Z.leb_spec (new + chars_of G) (Z.of_nat (length (p ++ mid ++ text_of G ++ unused)))) as [Hle|Hgt].
  - destruct (store_after p (mid ++ text_of G ++ unused) (text_of G) new) as (mid' & unused' & Hs & Hm); [lia..|].
    destruct (run_storeChars Hr _ _ _ Hs) as (r1 & Hrun & Hr1). rewrite (run_bind _ _ _ _ _ Hrun).
    destruct (Hrest _ _ Hr1) as (r2 & Hrun2 & Hr2). rewrite Hrun2. left. eauto.
  - destruct (_ >? 0xffff) eqn:Hbig; [lia|]. clear Hbig. set (n := Z.max _ _). destruct (allocate n) as [heap|] eqn:Halloc.
    2:{ right. cbv [mbind M_bind throw]. eauto. }
    pose proof (allocate_length _ _ Halloc) as Hheap. assert (Hn : new + chars_of G <= n <= 65535) by (unfold n; lia). clearbody n.
    assert (Hhead : loads (_chars r) 0 (Z.of_nat (length p)) = Some p) by (rewrite HC; by apply (loads_app [])).
    destruct (store_after [] heap p 0) as (m0 & rest0 & Hs0 & Hm0); [cbn; lia..|]. destruct m0; [|cbn in Hm0; lia]. cbn [app] in Hs0.
    destruct (store_after p rest0 (text_of G) new) as (mid' & unused' & Hs & Hm); [lia|..].
    { pose proof (length_store _ _ _ _ Hs0) as Hl. rewrite Hl. lia. }
    assert (Hr1 : holds f padded (set_charsHeap (Some (p ++ mid' ++ text_of G ++ unused')) r) (p ++ mid' ++ text_of G ++ unused') (X ++ all_offsets old G)).
    { repeat (split; [done|]). split; [|done]. rewrite (length_store _ _ _ _ Hs), (length_store _ _ _ _ Hs0). lia. }
    erewrite run_bind; [|rewrite (run_reads (fun r => loads (_chars r) 0 (Z.of_nat (length p))) _ r _ Hhead), (run_reads (fun _ => store heap 0 p) _ r _ Hs0),
      (run_reads (fun _ => store (p ++ rest0) new (text_of G)) _ r _ Hs); reflexivity].
    destruct (Hrest _ _ Hr1) as (r2 & Hrun2 & Hr2). rewrite Hrun2. left. eauto.
Qed.
End resize.

(** ** [Finish]

    [W] are the glyphs of the new row up to [colEnd]; [P] is the text before [chBegDirty]
    that stays. The entries written so far are those of [W], but for the leading spaces. *)
Record write_state G W (until : nat) h (O X Y V : list Z) (P : wstring) : Prop := {
  ws_entries : O = X ++ Y ++ V;
  ws_spaces : length Y = Z.to_nat (leadingSpaces h);
  ws_begin : colBegDirty h = Z.of_nat (length X);
  ws_new : X ++ iota_n (leadingSpaces h) (chBegDirty h) ++ V = offsets 0 W ++ drop (columns W) (all_offsets 0 G);
  ws_kept : exists rest, text_of G = P ++ rest ++ text_of (drop_columns until G);
  ws_chBegDirty : chBegDirty h = Z.of_nat (length P);
  ws_chBeg : chBeg h = chBegDirty h + leadingSpaces h;
  ws_leading : 0 <= leadingSpaces h;
  ws_consumed : 0 <= charsConsumed h <= Z.of_nat (length (chars h));
  ws_text : text_of W = P ++ replicate (Z.to_nat (leadingSpaces h)) 0x20 ++ take (Z.to_nat (charsConsumed h)) (chars h);
  ws_ok : glyphs_ok W;
  ws_colEnd : colEnd h = Z.of_nat (columns W);
  ws_until : colEndDirty h = Z.of_nat until;
  ws_bounds : (length X + length Y <= columns W <= until)%nat /\ (until <= columns G)%nat;
  ws_after : drop (columns W) O = drop (columns W) (all_offsets 0 G)
}.

Lemma length_iota_n n v : length (iota_n n v) = Z.to_nat n.
Proof. unfold iota_n. by rewrite length_map, length_seq. Qed.

Lemma iota_n_space n v : 0 <= v -> v + n <= 65536 -> iota_n n v = offsets v (replicate (Z.to_nat n) space).
Proof.
  intros Hv Hn. rewrite offsets_space. unfold iota_n. apply map_ext_in. intros i [_ Hi]%in_seq. apply u16_small. lia.
Qed.

Lemma fill_spec f padded r n i j v C1 c C2 X Y V : holds f padded r (C1 ++ c ++ C2) (X ++ Y ++ V) -> 0 <= n ->
  i = Z.of_nat (length C1) -> j = Z.of_nat (length X) -> length c = Z.to_nat n -> length Y = Z.to_nat n ->
  exists r', (if negb (n =? 0) then storeChars i (replicate (Z.to_nat n) 0x20) ;; storeOffsets j (iota_n n v) else mret tt) r = (r', Ret tt) /\
    holds f padded r' (C1 ++ replicate (Z.to_nat n) 0x20 ++ C2) (X ++ iota_n n v ++ V).
Proof.
  intros Hr Hn Hi Hj Hc HY. destruct (Z.eqb_spec n 0) as [->|Hne]; cbn [negb].
  - exists r. destruct c, Y; try done.
  - destruct (run_storeChars Hr i (replicate (Z.to_nat n) 0x20) (C1 ++ replicate (Z.to_nat n) 0x20 ++ C2)) as (r1 & Hrun & Hr1).
    { apply store_app; [done|by rewrite length_replicate]. }
    rewrite (run_bind _ _ _ _ _ Hrun). apply (run_storeOffsets Hr1). apply store_app; [done|by rewrite length_iota_n].
Qed.

Lemma lookup_of_drop {T} n i (l l' : list T) : drop n l = drop n l' -> (n <= i)%nat -> l !! i = l' !! i.
Proof. intros Hd Hi. replace i with (n + (i - n))%nat by lia. by rewrite <- !lookup_drop, Hd. Qed.

Lemma drop_all_offsets A B : glyphs_ok A -> drop (columns A) (all_offsets 0 (A ++ B)) = all_offsets (chars_of A) B.
Proof. intros HA. rewrite all_offsets_app, <- (length_offsets 0 A HA). apply drop_app_length. Qed.

Section finish.
Context `{Allocator} (G W : list glyph) (until : nat) (h : WriteHelper) (O X Y V : list Z) (P : wstring)
  (HW : write_state G W until h O X Y V P) (HG : glyphs_ok G).
Context {f : basic_rle TextAttribute * Z * LineRendition * bool * option ScrollbarData * option ImageSlice} {padded : bool} {r : ROW} {unused : wstring}
  (Hr : holds f padded r (text_of G ++ unused) O).

Lemma write_entries_from : Z.of_nat (columns G) = _columnCount r -> chars_of G <= CharOffsetsMask -> entries_from until r G.
Proof.
  intros Hc Hm. destruct Hr as (_ & _ & (Hb & _) & _ & _ & HO). repeat split; try done; [lia|]. intros i Hi.
  rewrite HO, !load_lookup, Nat2Z.id by lia. apply (lookup_of_drop (columns W)); [apply HW|]. destruct (ws_bounds _ _ _ _ _ _ _ _ _ HW). lia.
Qed.

Definition finished : list glyph := W ++ replicate (next_column until G - columns W) space ++ drop_columns until G.

(** The text and the entries while [Finish] fills them in. *)
Lemma finish_text (mid rest : wstring) (trailing : Z) :
  Z.of_nat (length mid) = leadingSpaces h + charsConsumed h + trailing -> 0 <= trailing ->
  exists m1 m2 m3, mid = m1 ++ m2 ++ m3 /\ length m1 = Z.to_nat (leadingSpaces h) /\ length m2 = Z.to_nat (charsConsumed h) /\ length m3 = Z.to_nat trailing.
Proof.
  intros Hl Ht. pose proof (ws_leading _ _ _ _ _ _ _ _ _ HW). pose proof (ws_consumed _ _ _ _ _ _ _ _ _ HW).
  exists (take (Z.to_nat (leadingSpaces h)) mid), (take (Z.to_nat (charsConsumed h)) (drop (Z.to_nat (leadingSpaces h)) mid)),
    (drop (Z.to_nat (leadingSpaces h) + Z.to_nat (charsConsumed h)) mid).
  split; [|rewrite !length_take, !length_drop; lia]. rewrite <- drop_drop, take_drop. by rewrite take_drop.
Qed.

(** The entries after the leading spaces: [nc] is the column from which the old glyphs are kept. *)
Lemma finish_entries nc tail : (columns W <= nc <= columns G)%nat ->
  exists V' gap, take nc O ++ tail = X ++ Y ++ V' /\ length gap = (nc - columns W)%nat /\
    X ++ iota_n (leadingSpaces h) (chBegDirty h) ++ V' = offsets 0 W ++ gap ++ tail.
Proof.
  intros Hnc. destruct (ws_bounds _ _ _ _ _ _ _ _ _ HW) as [HXY _]. pose proof (ws_spaces _ _ _ _ _ _ _ _ _ HW) as HY.
  pose proof (ws_new _ _ _ _ _ _ _ _ _ HW) as Hnew. pose proof (ws_ok _ _ _ _ _ _ _ _ _ HW) as HokW.
  exists (take (nc - length X - length Y) V ++ tail), (take (nc - columns W) (drop (columns W) (all_offsets 0 G))). split_and!.
  - rewrite (ws_entries _ _ _ _ _ _ _ _ _ HW), take_app_ge, take_app_ge by lia. by rewrite <- !app_assoc.
  - rewrite length_take, length_drop, length_all_offsets by done. lia.
  - apply (f_equal (take nc)) in Hnew. rewrite (take_app_ge X), (take_app_ge (iota_n _ _)) in Hnew by (rewrite ?length_iota_n; lia).
    rewrite (take_app_ge (offsets 0 W)) in Hnew by (rewrite length_offsets by done; lia). rewrite length_offsets, length_iota_n in Hnew by done.
    rewrite (app_assoc (offsets 0 W)), <- Hnew, HY, <- !app_assoc. done.
Qed.

Lemma columns_finished : columns finished = columns G.
Proof.
  destruct (ws_bounds _ _ _ _ _ _ _ _ _ HW) as [Hb Hu]. destruct (next_column_split until G HG Hu) as (A0 & HA0 & HcA0 & HN).
  unfold finished. rewrite !columns_app, columns_space. apply (f_equal columns) in HA0. rewrite columns_app in HA0. lia.
Qed.

(** [Finish] up to the text: the old glyphs from [next_column until G] on are where the new row has them. *)
Lemma finish_resize nc : nc = next_column until G ->
  Z.of_nat (columns G) = _columnCount r -> chars_of G <= CharOffsetsMask -> chars_of finished <= CharOffsetsMask ->
  let new := chars_of W + Z.of_nat (nc - columns W) in
  let old := chars_of G - chars_of (drop_columns until G) in
  let '(r', o) := (if negb (new =? old) then _resizeChars (Z.of_nat nc) (chBegDirty h) new old else mret tt) r in
  (o = Ret tt /\ exists mid unused', Z.of_nat (length mid) = new - chBegDirty h /\
     holds f padded r' (P ++ mid ++ text_of (drop_columns until G) ++ unused') (take nc O ++ all_offsets new (drop_columns until G))) \/
  (o = Throw /\ r' = r /\ exists n, allocate n = None).
Proof.
  intros Hnc Hc Hm Hm'. destruct (ws_bounds _ _ _ _ _ _ _ _ _ HW) as [Hb Hu]. destruct (next_column_split until G HG Hu) as (A0 & HA0 & HcA0 & HN).
  rewrite <- Hnc in *. cbv zeta. set (post := drop_columns until G) in *.
  destruct (ws_kept _ _ _ _ _ _ _ _ _ HW) as (kept & Hkept). fold post in Hkept.
  pose proof (ws_chBegDirty _ _ _ _ _ _ _ _ _ HW) as Hch. pose proof (ws_text _ _ _ _ _ _ _ _ _ HW) as Htext.
  assert (HokA : glyphs_ok A0 /\ glyphs_ok post) by (apply glyphs_ok_app; by rewrite <- HA0). destruct HokA as [HokA Hokpost].
  assert (Hold : chars_of G - chars_of post = chars_of A0) by (rewrite HA0 at 1; rewrite chars_of_app; lia).
  assert (Hmid : chars_of A0 = Z.of_nat (length P + length kept)).
  { rewrite <- Hold, Hkept, !length_app. lia. }
  assert (HO : O = take nc O ++ all_offsets (chars_of A0) post).
  { rewrite <- (take_drop nc O) at 1. f_equal. rewrite <- HcA0, <- (drop_all_offsets A0 post HokA), <- HA0, HcA0.
    replace nc with (columns W + (nc - columns W))%nat by lia. by rewrite <- !drop_drop, (ws_after _ _ _ _ _ _ _ _ _ HW). }
  assert (HlO : length (take nc O) = nc).
  { rewrite length_take. destruct Hr as (_&_&Hl&_&_&HrO). rewrite <- HrO, length_charOffsets by done. lia. }
  assert (HW1 : Z.of_nat (length P) <= chars_of W) by (rewrite Htext, !length_app; lia).
  assert (Hfin : chars_of W + Z.of_nat (nc - columns W) + chars_of post <= CharOffsetsMask).
  { unfold finished in Hm'. rewrite <- Hnc in Hm'. fold post in Hm'. rewrite !chars_of_app, text_of_space, length_replicate in Hm'. lia. }
  assert (Hstart : holds f padded r (P ++ kept ++ text_of post ++ unused) (take nc O ++ all_offsets (chars_of A0) post)).
  { rewrite <- HO. by rewrite Hkept, <- !app_assoc in Hr. }
  rewrite Hold. destruct (Z.eqb_spec (chars_of W + Z.of_nat (nc - columns W)) (chars_of A0)) as [Heq|Hne]; cbn [negb].
  - left. split; [done|]. exists kept, unused. rewrite Heq. split; [lia|done].
  - pose proof (resize_spec f padded r P kept post unused (take nc O) (chBegDirty h) (chars_of A0) (chars_of W + Z.of_nat (nc - columns W)) Hstart Hokpost) as HR.
    rewrite HlO in HR. apply HR; try lia. rewrite <- Hc, HA0, columns_app. lia.
Qed.

(** The text and the spaces, into the gap that [finish_resize] leaves. *)
Lemma finish_fill {T} nc (k : unit -> M ROW T) r1 mid unused' : (columns W <= nc <= columns G)%nat ->
  let trailing := Z.of_nat (nc - columns W) in
  let post := drop_columns until G in
  let new := chars_of W + trailing in
  new + chars_of post <= CharOffsetsMask ->
  Z.of_nat (length mid) = new - chBegDirty h ->
  holds f padded r1 (P ++ mid ++ text_of post ++ unused') (take nc O ++ all_offsets new post) ->
  exists r', (text ← reads (fun _ => loads (chars h) 0 (charsConsumed h));
    storeChars (chBeg h) text ;;
    (if negb (leadingSpaces h =? 0) then
       storeChars (chBegDirty h) (replicate (Z.to_nat (leadingSpaces h)) 0x20) ;;
       storeOffsets (colBegDirty h) (iota_n (leadingSpaces h) (chBegDirty h))
     else mret tt) ;;
    (if negb (trailing =? 0) then
       storeChars (chBeg h + charsConsumed h) (replicate (Z.to_nat trailing) 0x20) ;;
       storeOffsets (colEnd h) (iota_n trailing (u16 (chBeg h + charsConsumed h)))
     else mret tt) ;; k tt) r1 = k tt r' /\
    holds f padded r' (text_of (W ++ replicate (nc - columns W) space ++ post) ++ unused') (all_offsets 0 (W ++ replicate (nc - columns W) space ++ post)).
Proof.
  intros Hnc trailing post new Hm Hmid Hr1. pose proof (ws_chBeg _ _ _ _ _ _ _ _ _ HW) as HchBeg.
  pose proof (ws_chBegDirty _ _ _ _ _ _ _ _ _ HW) as HchBD. pose proof (ws_text _ _ _ _ _ _ _ _ _ HW) as Htext.
  pose proof (ws_leading _ _ _ _ _ _ _ _ _ HW) as Hl. pose proof (ws_consumed _ _ _ _ _ _ _ _ _ HW) as Hk. unfold CharOffsetsMask in Hm.
  assert (HlenW : chars_of W = Z.of_nat (length P) + leadingSpaces h + charsConsumed h).
  { rewrite Htext, !length_app, length_replicate, length_take. lia. }
  destruct (finish_text mid [] trailing) as (m1 & m2 & m3 & -> & Hm1 & Hm2 & Hm3); [lia..|].
  destruct (finish_entries nc (all_offsets new post) Hnc) as (V' & gap & HX & Hgap & Hnew). rewrite HX in Hr1.
  set (new_text := take (Z.to_nat (charsConsumed h)) (chars h)) in *.
  assert (Hload : loads (chars h) 0 (charsConsumed h) = Some new_text).
  { unfold loads. rewrite !(proj2 (Z.leb_le _ _)) by lia. cbn. by rewrite drop_0. }
  rewrite (run_reads (fun _ => loads (chars h) 0 (charsConsumed h)) _ r1 _ Hload).
  destruct (run_storeChars Hr1 (chBeg h) new_text (P ++ m1 ++ new_text ++ m3 ++ text_of post ++ unused')) as (r2 & Hrun2 & Hr2).
  { rewrite <- !app_assoc, !(app_assoc P). apply store_app; rewrite ?length_app; [lia|]. unfold new_text. rewrite length_take. lia. }
  rewrite (run_bind _ _ _ _ _ Hrun2).
  destruct (fill_spec f padded r2 (leadingSpaces h) (chBegDirty h) (colBegDirty h) (chBegDirty h) P m1 (new_text ++ m3 ++ text_of post ++ unused') X Y V' Hr2)
    as (r3 & Hrun3 & Hr3); [done|done|apply HW|done|apply HW|]. rewrite (run_bind _ _ _ _ _ Hrun3).
  rewrite Hnew in Hr3. rewrite (app_assoc P), (app_assoc (P ++ _)), <- (app_assoc P), <- Htext in Hr3.
  destruct (fill_spec f padded r3 trailing (chBeg h + charsConsumed h) (colEnd h) (u16 (chBeg h + charsConsumed h)) (text_of W) m3 (text_of post ++ unused')
    (offsets 0 W) gap (all_offsets new post) Hr3) as (r4 & Hrun4 & Hr4); [lia|lia|rewrite length_offsets by apply HW; apply HW|done|lia|].
  rewrite (run_bind _ _ _ _ _ Hrun4). exists r4. split; [done|].
  rewrite u16_small, iota_n_space in Hr4 by lia. rewrite !text_of_app, text_of_space, !all_offsets_app, text_of_space, length_replicate, <- !app_assoc.
  unfold trailing, new in Hr4. rewrite !Nat2Z.id in Hr4. replace (chBeg h + charsConsumed h) with (0 + chars_of W) in Hr4 by lia.
  replace (0 + chars_of W + Z.of_nat (nc - columns W)) with (chars_of W + Z.of_nat (nc - columns W)) by lia. exact Hr4.
Qed.

Lemma finish_spec : Z.of_nat (columns G) = _columnCount r -> chars_of G <= CharOffsetsMask -> chars_of finished <= CharOffsetsMask ->
  let '(r', o) := Finish h r in
  (o = Ret (set_colEndDirty (Z.of_nat (next_column until G)) h) /\ shows r' finished /\ frame r' = f /\
     _doubleBytePadded r' = (if next_column until G =? columns G then columns W <? columns G else padded)%nat) \/
  (o = Throw /\ lent r' /\ frame r' = f /\ exists n, allocate n = None).
Proof.
  intros Hc Hm Hm'. destruct (ws_bounds _ _ _ _ _ _ _ _ _ HW) as [Hb Hu]. destruct (next_column_split until G HG Hu) as (A0 & HA0 & HcA0 & HN).
  set (nc := next_column until G) in *. pose proof Hr as (Hf & Hp & (H32 & _) & _).
  unfold Finish. rewrite (ws_until _ _ _ _ _ _ _ _ _ HW). rewrite (run_reads _ _ _ _ (adjustForward_spec until r G (write_entries_from Hc Hm) Hu)). fold nc.
  cbv zeta. destruct (entry_start until r G (write_entries_from Hc Hm) A0 (drop_columns until G) HA0 ltac:(lia)) as [HchEnd _]. rewrite HcA0 in HchEnd.
  rewrite (run_reads _ _ _ _ HchEnd). cbn [colEnd chBegDirty charsConsumed leadingSpaces chars chBeg colBegDirty set_colEndDirty].
  assert (Hold : chars_of A0 = chars_of G - chars_of (drop_columns until G)) by (pose proof (f_equal (fun G => chars_of G) HA0) as HE; cbv beta in HE; rewrite chars_of_app in HE; lia).
  pose proof (ws_colEnd _ _ _ _ _ _ _ _ _ HW) as HcE.
  assert (Htr : u16 (Z.of_nat nc - colEnd h) = Z.of_nat (nc - columns W)) by (rewrite HcE, u16_small; lia). rewrite Htr.
  assert (HlenW : chars_of W = chBegDirty h + leadingSpaces h + charsConsumed h).
  { pose proof (ws_consumed _ _ _ _ _ _ _ _ _ HW). pose proof (ws_leading _ _ _ _ _ _ _ _ _ HW).
    rewrite (ws_text _ _ _ _ _ _ _ _ _ HW), !length_app, length_replicate, length_take, (ws_chBegDirty _ _ _ _ _ _ _ _ _ HW). lia. }
  assert (Hfin : chars_of W + Z.of_nat (nc - columns W) + chars_of (drop_columns until G) <= CharOffsetsMask).
  { unfold finished in Hm'. fold nc in Hm'. rewrite !chars_of_app, text_of_space, length_replicate in Hm'. lia. }
  assert (Hnew : u64 (chBegDirty h + charsConsumed h + leadingSpaces h + Z.of_nat (nc - columns W)) = chars_of W + Z.of_nat (nc - columns W)).
  { unfold CharOffsetsMask in Hfin. rewrite wrap_small; lia. }
  rewrite Hnew, Hold. pose proof (finish_resize nc eq_refl Hc Hm Hm') as HR. cbv zeta in HR.
  match type of HR with match ?m with (_, _) => _ end => destruct m as [r1 o1] eqn:Hrun1 end.
  destruct HR as [(-> & mid & u & Hmid & Hr1)|(-> & -> & Halloc)].
  2:{ rewrite (run_throw _ _ _ _ Hrun1). right. split; [done|]. split; [apply Hr|]. split; [apply Hr|done]. }
  rewrite (run_bind _ _ _ _ _ Hrun1).
  destruct (finish_fill nc (fun _ => columnCount ← gets _columnCount;
    (if Z.of_nat nc =? columnCount then modify (SetDoubleBytePadded (colEnd h <? columnCount)) else mret tt) ;; mret (set_colEndDirty (Z.of_nat nc) h))
    r1 mid u ltac:(lia) Hfin Hmid Hr1) as (r2 & Hrun2 & Hr2). cbv beta in Hrun2. rewrite Hrun2. clear Hrun2. rewrite run_gets.
  change (W ++ _) with finished in Hr2. pose proof Hr2 as (Hf2 & Hp2 & Hl2 & HC2 & Hcap2 & HO2).
  assert (Hc2 : _columnCount r2 = _columnCount r) by (rewrite <- Hf in Hf2; unfold frame in Hf2; congruence).
  assert (Hrep : shows r2 finished).
  { split; [done|]. split; [|split; [by rewrite columns_finished, Hc2|]].
    - unfold finished. rewrite !glyphs_ok_app. split; [apply HW|]. split; [apply glyphs_ok_space|]. apply (glyphs_ok_app A0). by rewrite <- HA0.
    - split; [done|]. split; [by exists u|]. split; [by rewrite HC2|done]. }
  rewrite Hc2, <- Hc, HcE. destruct (Nat.eqb_spec nc (columns G)) as [Hall|Hne].
  - rewrite (proj2 (Z.eqb_eq _ _)), run_modify by lia. left. split; [done|]. split; [exact Hrep|]. split; [exact Hf2|]. cbn [SetDoubleBytePadded _doubleBytePadded].
    apply eq_true_iff_eq. rewrite Z.ltb_lt, Nat.ltb_lt. lia.
  - rewrite (proj2 (Z.eqb_neq _ _)) by lia. left. done.
Qed.
End finish.
