(* ===== verification/RowInit.v ===== *)
(** * Fresh rows

    Every build of [_init] fills the arrays of a row with spaces and the numbers from zero,
    without writing past them; so construction and [Reset] leave a row of spaces. *)
From S2P Require Import Prelude LineRenditions InputEvents TextAttributes Rle ImageSlice Row RowSpec RowWrite.

Implicit Types (r : ROW).

(** An array whose first [n] elements are given by a function. *)
Definition prefixed (f : nat -> Z) (n : nat) (l : list Z) : list Z := map f (seq 0 n) ++ drop n l.

Lemma lookup_prefixed f n l i : (n <= length l)%nat -> prefixed f n l !! i = if (i <? n)%nat then Some (f i) else l !! i.
Proof.
  intros Hn. unfold prefixed. destruct (Nat.ltb_spec i n).
  - rewrite lookup_app_l by (rewrite length_map, length_seq; lia). change (map f (seq 0 n)) with (f <$> seq 0 n).
    rewrite list_lookup_fmap, lookup_seq_lt by lia. done.
  - rewrite lookup_app_r, length_map, length_seq, lookup_drop by (rewrite length_map, length_seq; lia). f_equal. lia.
Qed.

Lemma length_prefixed f n l : (n <= length l)%nat -> length (prefixed f n l) = length l.
Proof. intros Hn. unfold prefixed. rewrite length_app, length_map, length_seq, length_drop. lia. Qed.

Lemma store_prefixed f n l q k : (q <= n <= length l)%nat -> (q + k <= length l)%nat ->
  store (prefixed f n l) (Z.of_nat q) (map f (seq q k)) = Some (prefixed f (n `max` (q + k)) l).
Proof.
  intros Hn Hk. unfold store. rewrite length_map, length_seq, length_prefixed by lia.
  rewrite (proj2 (Z.leb_le _ _)), (proj2 (Z.leb_le _ _)) by lia. cbn [andb]. rewrite Nat2Z.id. f_equal. apply list_eq. intros i.
  rewrite lookup_prefixed by lia. destruct (Nat.ltb_spec i q).
  - rewrite lookup_app_l by (rewrite length_take, length_prefixed; lia). rewrite lookup_take_lt, lookup_prefixed by lia.
    rewrite (proj2 (Nat.ltb_lt i n)), (proj2 (Nat.ltb_lt i _)) by lia. done.
  - rewrite lookup_app_r by (rewrite length_take; lia). rewrite length_take, length_prefixed, Nat.min_l by lia. destruct (Nat.ltb_spec i (q + k)).
    + rewrite lookup_app_l by (rewrite length_map, length_seq; lia). change (map f (seq q k)) with (f <$> seq q k).
      rewrite list_lookup_fmap, lookup_seq_lt by lia. rewrite (proj2 (Nat.ltb_lt _ _)) by lia. cbn. do 2 f_equal. lia.
    + rewrite lookup_app_r by (rewrite length_map, length_seq; lia). rewrite length_map, length_seq, lookup_drop.
      rewrite lookup_prefixed by lia. replace (q + k + (i - q - k))%nat with i by lia.
      destruct (Nat.ltb_spec i n), (Nat.ltb_spec i (n `max` (q + k))); try done; lia.
Qed.

(** A row with the first [n] elements of its arrays filled. *)
Definition filled r (n : nat) : ROW :=
  set_charOffsetsBuffer (prefixed Z.of_nat n (_charOffsetsBuffer r)) (set_charsBuffer (prefixed (fun _ => 0x20) n (_charsBuffer r)) r).

Lemma map_const_seq (c : Z) n m : map (fun _ => c) (seq m n) = replicate n c.
Proof. revert m. induction n as [|n IH]; intros m; [done|]. cbn. by rewrite IH. Qed.

Section init.
Context (r : ROW) (size : nat) (Hchars : length (_charsBuffer r) = size) (Hoffsets : length (_charOffsetsBuffer r) = size).

Lemma storeVectors_filled n q k : (q <= n)%nat -> (q + k <= size)%nat -> (n <= size)%nat ->
  storeVectors (Z.of_nat q) (replicate k 0x20) (map Z.of_nat (seq q k)) (filled r n) = (filled r (n `max` (q + k)), Ret tt).
Proof.
  intros Hq Hk Hn. unfold storeVectors. erewrite run_writes; [|cbn [filled set_charOffsetsBuffer set_charsBuffer _charsBuffer];
    rewrite <- (map_const_seq 0x20 k q), store_prefixed by lia; reflexivity].
  unfold writes. cbn [filled set_charOffsetsBuffer set_charsBuffer _charOffsetsBuffer]. by rewrite store_prefixed by lia.
Qed.

Lemma add_epi16_seq q k : Z.of_nat (q + k + k) <= 65536 -> add_epi16 (map Z.of_nat (seq q k)) (Z.of_nat k) = map Z.of_nat (seq (q + k) k).
Proof.
  intros Hb. unfold add_epi16. rewrite map_map. apply list_eq. intros i.
  change (((fun x => u16 (Z.of_nat x + Z.of_nat k)) <$> seq q k) !! i = (Z.of_nat <$> seq (q + k) k) !! i). rewrite !list_lookup_fmap.
  destruct (decide (i < k)%nat).
  - rewrite !lookup_seq_lt by lia. cbn. f_equal. rewrite u16_small; lia.
  - rewrite !lookup_seq_ge by lia. done.
Qed.

Lemma initLoop_filled fuel lanes again k p : (0 < k <= fuel)%nat -> (p + k * lanes <= size)%nat -> Z.of_nat (size + lanes) <= 65536 ->
  (forall j, (0 < j < k)%nat -> again (Z.of_nat (p + j * lanes)) = true) -> again (Z.of_nat (p + k * lanes)) = false ->
  initLoop fuel lanes again (Z.of_nat p) (map Z.of_nat (seq p lanes)) (filled r p) = (filled r (p + k * lanes), Ret tt).
Proof.
  intros [Hk Hfuel] Hsize H16. revert fuel p Hk Hfuel Hsize. induction k as [|k IH]; intros fuel p Hk Hfuel Hsize Hagain Hstop; [lia|].
  destruct fuel as [|fuel]; [lia|]. cbn [initLoop]. rewrite (run_bind _ _ _ _ _ (storeVectors_filled p p lanes ltac:(lia) ltac:(nia) ltac:(nia))).
  rewrite Nat.max_r by lia. cbv zeta. replace (Z.of_nat p + Z.of_nat lanes) with (Z.of_nat (p + lanes)) by lia.
  destruct k as [|k].
  - replace (p + 1 * lanes)%nat with (p + lanes)%nat in * by lia. by rewrite Hstop.
  - rewrite add_epi16_seq by nia. pose proof (Hagain 1%nat ltac:(lia)) as H1. rewrite Nat.mul_1_l in H1. rewrite H1.
    replace (p + S (S k) * lanes)%nat with (p + lanes + S k * lanes)%nat in * by lia. apply IH; [lia|lia|lia| |done].
    intros j Hj. replace (p + lanes + j * lanes)%nat with (p + S j * lanes)%nat by lia. apply Hagain. lia.
Qed.

Context (cols : Z) (Hcols : _columnCount r = cols) (Hbound : 0 <= cols <= 0x7fff) (Hsize : size = buffer_length cols).

Lemma filled_0 : filled r 0 = r.
Proof. unfold filled, prefixed. cbn [seq map app]. rewrite !drop_0. by destruct r. Qed.

Lemma init128_filled : init128 r = (filled r size, Ret tt).
Proof.
  unfold init128. rewrite run_gets, Hcols. rewrite <- filled_0 at 1. rewrite buffer_length_eq in Hsize by lia.
  pose proof (Z.div_mod (cols + 8) 8 ltac:(lia)) as Hdiv. pose proof (Z.mod_pos_bound (cols + 8) 8 ltac:(lia)) as Hmod.
  change (offsetsData 8) with (map Z.of_nat (seq 0 8)).
  rewrite (initLoop_filled _ 8 _ (Z.to_nat ((cols + 8) / 8)) 0).
  - do 2 f_equal. lia.
  - lia.
  - lia.
  - lia.
  - intros j Hj. apply Z.leb_le. lia.
  - apply Z.leb_gt. lia.
Qed.

Lemma init256_filled : 15 <= cols -> init256 r = (filled r size, Ret tt).
Proof.
  intros H15. unfold init256. rewrite run_gets, Hcols. rewrite buffer_length_eq in Hsize by lia.
  pose proof (Z.div_mod cols 8 ltac:(lia)) as Hdiv. pose proof (Z.mod_pos_bound cols 8 ltac:(lia)) as Hmod.
  assert (H8 : (cols + 8) / 8 = cols / 8 + 1) by (replace (cols + 8) with (cols + 1 * 8) by lia; by rewrite Z.div_add).
  set (q := Z.to_nat (8 * (cols / 8 - 1))).
  assert (Hq : u16 (Z.ldiff (cols - 8) 7) = Z.of_nat q).
  { change 7 with (Z.ones 3). rewrite Z.ldiff_ones_r, Z.shiftl_mul_pow2, Z.shiftr_div_pow2 by lia. change (2 ^ 3) with 8.
    replace (cols - 8) with (cols + (-1) * 8) by lia. rewrite Z.div_add by lia. rewrite u16_small; lia. }
  rewrite Hq. cbv zeta. assert (Hoff : add_epi16 (offsetsData 16) (Z.of_nat q) = map Z.of_nat (seq q 16)).
  { unfold add_epi16, offsetsData. rewrite map_map.
    replace (seq q 16) with (map (Nat.add q) (seq 0 16)) by (etransitivity; [exact (fmap_add_seq q 0 16)|f_equal; lia]).
    rewrite map_map. apply map_ext_in. intros i [_ Hi]%in_seq. rewrite u16_small; lia. }
  rewrite Hoff. set (k := Z.to_nat ((Z.of_nat q + 15) / 16)).
  pose proof (Z.div_mod (Z.of_nat q + 15) 16 ltac:(lia)) as Hdiv2. pose proof (Z.mod_pos_bound (Z.of_nat q + 15) 16 ltac:(lia)) as Hmod2.
  assert (Hloop : (if 0 <? Z.of_nat q then initLoop (S (Z.to_nat (Z.of_nat q))) 16 (fun pos => pos <? Z.of_nat q) 0 (offsetsData 16) else mret tt) r
                  = (filled r (k * 16), Ret tt)).
  { rewrite <- filled_0 at 1. destruct (Z.ltb_spec 0 (Z.of_nat q)) as [Hpos|Hzero].
    - change (offsetsData 16) with (map Z.of_nat (seq 0 16)). rewrite (initLoop_filled _ 16 _ k 0); [done|lia|lia|lia|..].
      + intros j Hj. apply Z.ltb_lt. lia.
      + apply Z.ltb_ge. lia.
    - replace k with 0%nat by lia. done. }
  rewrite (run_bind _ _ _ _ _ Hloop), storeVectors_filled by lia. do 2 f_equal. lia.
Qed.
End init.

Lemma init_filled isa r : 0 <= _columnCount r <= 0x7fff -> length (_charsBuffer r) = buffer_length (_columnCount r) ->
  length (_charOffsetsBuffer r) = buffer_length (_columnCount r) -> _init isa r = (filled r (buffer_length (_columnCount r)), Ret tt).
Proof.
  intros Hc H1 H2. unfold _init. rewrite run_gets. destruct isa; try by eapply init128_filled.
  destruct (Z.geb_spec (_columnCount r) 15); [eapply init256_filled|eapply init128_filled]; try done; lia.
Qed.

(** The rows that [filled] gives show spaces. *)
Lemma filled_shows r : lent r -> _charsHeap r = None ->
  shows (filled r (buffer_length (_columnCount r))) (replicate (Z.to_nat (_columnCount r)) space).
Proof.
  intros (Hc & H1 & H2) Hh. pose proof (buffer_length_bound (_columnCount r) ltac:(lia)) as Hb. set (n := buffer_length (_columnCount r)) in *.
  assert (HC : _chars (filled r n) = replicate (Z.to_nat (_columnCount r)) 0x20).
  { unfold _chars. cbn. rewrite Hh. unfold prefixed. rewrite map_const_seq, take_app_le, take_replicate by (rewrite length_replicate; lia). f_equal. lia. }
  split; [|split; [apply glyphs_ok_space|]].
  - split; [done|]. cbn. rewrite !length_prefixed by lia. done.
  - rewrite columns_space, text_of_space, length_replicate. cbn. split; [lia|]. unfold CharOffsetsMask. split; [lia|].
    rewrite HC, length_replicate. split; [exists []; by rewrite app_nil_r|]. split; [lia|].
    unfold all_offsets. rewrite offsets_space, text_of_space, length_replicate. unfold _charOffsets. cbn. unfold prefixed.
    rewrite take_app_le by (rewrite length_map, length_seq; lia).
    rewrite firstn_map, take_seq. replace (S _ `min` n)%nat with (Z.to_nat (_columnCount r) + 1)%nat by lia. rewrite seq_app, map_app. cbn. done.
Qed.

(** ** [Reset] and construction *)
Definition blank (r : ROW) : list glyph := replicate (Z.to_nat (_columnCount r)) space.

Lemma reset_spec isa attr r : lent r -> _runs (_attr r) <> [] -> _total_length (_attr r) = _columnCount r ->
  exists r', Reset isa attr r = (r', Ret tt) /\ shows r' (blank r) /\
    frame r' = (of_value (_columnCount r) attr, _columnCount r, SingleWidth, false, None, None) /\ _doubleBytePadded r' = false.
Proof.
  intros (Hc & H1 & H2) Hruns Htotal. unfold Reset. rewrite run_modify.
  erewrite run_writes; [|cbn; destruct (_runs (_attr r)); [done|reflexivity]]. rewrite !run_modify. cbn [_columnCount set_charsHeap].
  match goal with |- context [_init isa ?x] => set (r1 := x) end.
  assert (Hl : lent r1) by done. exists (filled r1 (buffer_length (_columnCount r1))). split.
  { destruct Hl as (? & ? & ?). apply init_filled; [lia|done|done]. }
  split; [by apply filled_shows|]. split; [|done]. unfold frame. cbn. rewrite Htotal. unfold of_value.
  by rewrite (proj2 (Z.eqb_neq _ _)) by lia.
Qed.

(** Construction of a row of any width of a screen on memory with any content, in every vectorized build, writes
    within the buffers and leaves a row of spaces with the given attribute. *)
Theorem constructed_row_is_blank isa charsBuffer charOffsetsBuffer rowWidth fillAttribute :
  0 < rowWidth <= 0x7fff ->
  length charsBuffer = buffer_length rowWidth -> length charOffsetsBuffer = buffer_length rowWidth ->
  exists r, ROW_ctor isa charsBuffer charOffsetsBuffer rowWidth fillAttribute = (r, Ret tt) /\
    shows r (replicate (Z.to_nat rowWidth) space) /\ frame r = (of_value rowWidth fillAttribute, rowWidth, SingleWidth, false, None, None).
Proof.
  intros Hw H1 H2. unfold ROW_ctor. set (r0 := mkROW _ _ _ _ _ _ _ _ _ _). exists (filled r0 (buffer_length rowWidth)).
  split; [apply (init_filled isa r0); [cbn; lia|done|done]|]. split; [|done]. by apply (filled_shows r0).
Qed.
