(* ===== verification/RowReplace.v ===== *)
(** * Replacing characters

    The constructor of [WriteHelper], the state in which a list of glyphs has been written,
    and [ReplaceCharacters], which writes one. *)
From S2P Require Import Prelude LineRenditions InputEvents TextAttributes Rle RleTheorems RleRefinement ImageSlice Row RowSpec RowWrite RowInit.

Implicit Types (G A B N : list glyph) (g : glyph) (r : ROW) (h : WriteHelper).

(** ** The constructor *)
Definition clamped (v : Z) r : nat := Z.to_nat (clamp v 0 (_columnCount r)).

Lemma clamp_bounds v lo hi : lo <= hi -> lo <= clamp v lo hi <= hi.
Proof. intros Hb. unfold clamp. destruct (Z.ltb_spec v lo), (Z.gtb_spec v hi); lia. Qed.

Lemma clamp_id v lo hi : lo <= v <= hi -> clamp v lo hi = v.
Proof. intros Hb. unfold clamp. destruct (Z.ltb_spec v lo), (Z.gtb_spec v hi); lia. Qed.

(** The helper for a write at column [b] of a row with glyphs [G]. *)
Definition helper_at G (b limit : nat) (data : Z) (text : wstring) : WriteHelper :=
  let start := start_column b G in
  mkWriteHelper data text (Z.of_nat b) (Z.of_nat limit) (Z.of_nat b) (Z.of_nat start) 0
    (chars_of (take_columns b G) + Z.of_nat (b - start)) (chars_of (take_columns b G)) (Z.of_nat (b - start)) 0.

Lemma start_column_le b G : glyphs_ok G -> (b <= columns G)%nat -> (start_column b G <= b)%nat.
Proof. intros HG Hb. unfold start_column. destruct (columns_split b G HG Hb) as [[_ Hc]|(g & _ & Hc)]; lia. Qed.

Lemma take_columns_prefix b G : glyphs_ok G -> (b <= columns G)%nat -> exists B, G = take_columns b G ++ B.
Proof. intros HG Hb. destruct (columns_split b G HG Hb) as [[HE _]|(g & HE & _)]; eauto. Qed.

Lemma take_columns_chars b G : glyphs_ok G -> (b <= columns G)%nat -> chars_of (take_columns b G) <= chars_of G.
Proof.
  intros HG Hb. destruct (take_columns_prefix b G HG Hb) as (B & HE).
  pose proof (f_equal (fun l => chars_of l) HE) as Hl. cbv beta in Hl. rewrite chars_of_app in Hl. lia.
Qed.

Lemma char_offset_spec r G b : entries_from 0 r G -> (b <= columns G)%nat ->
  _uncheckedCharOffset (Z.of_nat b) r = Some (chars_of (take_columns b G)).
Proof.
  intros HR Hb. pose proof HR as (HG & _). destruct (columns_split b G HG Hb) as [[HE Hc]|(g & HE & Hc)].
  - rewrite <- Hc at 1. by apply (entry_start 0 r G HR _ _ HE); lia.
  - destruct (entry_trailer 0 r G HR _ _ _ (b - columns (take_columns b G)) HE) as [Ho _]; [lia..|].
    rewrite <- Ho. f_equal. lia.
Qed.

Lemma clamped_column v r : 0 < _columnCount r <= 0x7fff -> _clampedColumnInclusive v r = Z.of_nat (clamped v r).
Proof.
  intros Hc. unfold _clampedColumnInclusive, clamped. pose proof (clamp_bounds v 0 (_columnCount r)). rewrite u16_small; lia.
Qed.

Lemma clamped_le v r G : shows r G -> (clamped v r <= columns G)%nat.
Proof. intros ((Hc & _) & _ & HcG & _). unfold clamped. pose proof (clamp_bounds v 0 (_columnCount r)). lia. Qed.

Lemma ctor_spec r G columnBegin columnLimit data text : shows r G ->
  WriteHelper_ctor columnBegin columnLimit data text r = Some (helper_at G (clamped columnBegin r) (clamped columnLimit r) data text).
Proof.
  intros Hs. pose proof (shows_entries _ _ Hs) as HE. pose proof (clamped_le columnBegin _ _ Hs) as Hb.
  destruct Hs as ((Hc & _) & HG & HcG & Hm & _). unfold WriteHelper_ctor. rewrite !clamped_column by done.
  set (b := clamped columnBegin r) in *. rewrite (char_offset_spec r G b HE Hb). cbn [mbind option_bind].
  rewrite (adjustBackward_spec r G b HE Hb). cbn [mbind option_bind]. pose proof (start_column_le b G HG Hb) as Hst.
  pose proof (take_columns_chars b G HG Hb) as Hch. unfold CharOffsetsMask in Hm.
  unfold helper_at. cbv zeta. replace (Z.of_nat b - Z.of_nat (start_column b G)) with (Z.of_nat (b - start_column b G)) by lia.
  rewrite (u16_small (Z.of_nat (b - _))) by lia. rewrite u16_small by lia. done.
Qed.

(** ** The state after glyphs have been written at a column *)
Lemma prefix_of_columns A A' B B' : A ++ B = A' ++ B' -> glyphs_ok A -> glyphs_ok A' -> (columns A <= columns A')%nat -> exists R, A' = A ++ R.
Proof.
  intros HE HA HA' Hc. destruct (app_eq_inv _ _ _ _ HE) as [(k & -> & _)|(k & -> & _)]; [|by exists k].
  rewrite columns_app in Hc. destruct k as [|g k]; [exists []; by rewrite !app_nil_r|].
  apply glyphs_ok_app in HA as [_ Hk]. inversion Hk as [|? ? [_ Hg] _]; subst. cbn in Hc. lia.
Qed.

(** The text before a column stays until the text from a later one. *)
Lemma kept_text until G A : glyphs_ok G -> (until <= columns G)%nat -> (exists B, G = A ++ B) -> (columns A <= next_column until G)%nat ->
  exists rest, text_of G = text_of A ++ rest ++ text_of (drop_columns until G).
Proof.
  intros HG Hu (B & HE) HA. destruct (next_column_split until G HG Hu) as (A0 & HA0 & HcA0 & HN).
  assert (HokA : glyphs_ok A) by (rewrite HE in HG; by apply glyphs_ok_app in HG as [? _]).
  assert (HokA0 : glyphs_ok A0) by (rewrite HA0 in HG; by apply glyphs_ok_app in HG as [? _]).
  destruct (prefix_of_columns A A0 B (drop_columns until G)) as (R & HR); [by rewrite <- HE|done|done|lia|].
  exists (text_of R). rewrite HA0 at 1. rewrite HR, !text_of_app. by rewrite app_assoc.
Qed.

Lemma next_column_ge until G : glyphs_ok G -> (until <= columns G)%nat -> (until <= next_column until G)%nat.
Proof. intros HG Hu. destruct (next_column_split until G HG Hu) as (A0 & _ & _ & HN). lia. Qed.

Definition wrote h N (until : nat) (consumed : Z) : WriteHelper :=
  set_charsConsumed consumed (set_colEndDirty (Z.of_nat until) (set_colEnd (colEnd h + Z.of_nat (columns N)) h)).

(** The entries with those of [N] at column [b]. *)
Definition entries_with G (b : nat) (base : Z) N : list Z :=
  take b (all_offsets 0 G) ++ offsets base N ++ drop (b + columns N) (all_offsets 0 G).

Definition cut_before (b : nat) G : list glyph := take_columns b G ++ replicate (b - start_column b G) space.

Lemma columns_cut_before b G : glyphs_ok G -> (b <= columns G)%nat -> columns (cut_before b G) = b.
Proof.
  intros HG Hb. pose proof (start_column_le b G HG Hb). unfold cut_before. rewrite columns_app, columns_space. unfold start_column in *. lia.
Qed.

Lemma take_columns_ok b G : glyphs_ok G -> (b <= columns G)%nat -> glyphs_ok (take_columns b G).
Proof. intros HG Hb. destruct (take_columns_prefix b G HG Hb) as (B & HE). rewrite HE in HG. by apply glyphs_ok_app in HG as [? _]. Qed.

Lemma chars_cut_before b G : chars_of (cut_before b G) = chars_of (take_columns b G) + Z.of_nat (b - start_column b G).
Proof. unfold cut_before. rewrite chars_of_app, text_of_space, length_replicate. done. Qed.

Lemma overwrite_state G b limit data text N until consumed : glyphs_ok G -> glyphs_ok N ->
  (b + columns N <= until)%nat -> (until <= columns G)%nat -> 0 <= consumed <= Z.of_nat (length text) ->
  text_of N = take (Z.to_nat consumed) text -> chars_of G <= CharOffsetsMask -> Z.of_nat (columns G) <= 0x7fff ->
  let h := helper_at G b limit data text in
  write_state G (cut_before b G ++ N) until (wrote h N until consumed) (entries_with G b (chBeg h) N)
    (offsets 0 (take_columns b G)) (take (b - start_column b G) (drop (start_column b G) (all_offsets 0 G)))
    (offsets (chBeg h) N ++ drop (b + columns N) (all_offsets 0 G)) (text_of (take_columns b G)).
Proof.
  intros HG HN Hb Hu Hcons Htext Hm H32 h. assert (Hbc : (b <= columns G)%nat) by lia. pose proof (start_column_le b G HG Hbc) as Hst.
  pose proof (take_columns_ok b G HG Hbc) as Hok. destruct (take_columns_prefix b G HG Hbc) as (B & HE).
  assert (Hsc : length (offsets 0 (take_columns b G)) = start_column b G) by (by rewrite length_offsets).
  assert (HcW : columns (cut_before b G ++ N) = (b + columns N)%nat) by (by rewrite columns_app, columns_cut_before).
  assert (Htake : take b (all_offsets 0 G) = offsets 0 (take_columns b G) ++ take (b - start_column b G) (drop (start_column b G) (all_offsets 0 G))).
  { rewrite <- (take_drop (start_column b G) (take b (all_offsets 0 G))), take_take, Nat.min_l by lia. f_equal.
    - rewrite HE at 2. rewrite all_offsets_app, <- Hsc. apply take_app_length.
    - by rewrite take_drop_commute_alt || rewrite skipn_firstn_comm. }
  pose proof (length_all_offsets 0 G HG) as HlO.
  constructor; cbn [wrote h helper_at leadingSpaces chBegDirty colBegDirty chBeg charsConsumed chars colEnd colEndDirty set_charsConsumed set_colEndDirty set_colEnd]; rewrite ?Nat2Z.id.
  - unfold entries_with. by rewrite Htake, <- app_assoc.
  - rewrite length_take, length_drop. lia.
  - by rewrite Hsc.
  - rewrite HcW, iota_n_space, Nat2Z.id by (pose proof (take_columns_chars b G HG Hbc); unfold CharOffsetsMask in *; lia).
    rewrite (offsets_app 0 _ N), Z.add_0_l, chars_cut_before. unfold cut_before. rewrite (offsets_app 0 (take_columns b G)), <- !app_assoc. done.
  - apply kept_text; [done|lia|by exists B|]. pose proof (next_column_ge until G HG Hu). unfold start_column in Hst. lia.
  - done.
  - done.
  - lia.
  - done.
  - unfold cut_before. rewrite !text_of_app, text_of_space, Htext, <- app_assoc. done.
  - unfold cut_before. rewrite !glyphs_ok_app. split; [split; [done|apply glyphs_ok_space]|done].
  - rewrite HcW. lia.
  - done.
  - rewrite Hsc, length_take, length_drop, HcW. lia.
  - rewrite HcW. unfold entries_with. rewrite drop_app_ge, drop_app_ge by (rewrite ?length_take, ?length_offsets by done; lia).
    rewrite length_take, length_offsets by done. rewrite drop_drop. f_equal. lia.
Qed.

Lemma finished_overwrite G b N until : glyphs_ok G -> (b <= columns G)%nat -> finished G (cut_before b G ++ N) until = overwrite b until N G.
Proof.
  intros HG Hb. unfold finished, overwrite, cut_before. rewrite <- !app_assoc. do 3 f_equal. rewrite !columns_app, columns_space.
  pose proof (start_column_le b G HG Hb). unfold start_column in *. do 2 f_equal. f_equal. lia.
Qed.

(** ** Rows with attributes, and what a write may do *)
Definition attributes r (l : list TextAttribute) : Prop :=
  RleRefinement.represents 16 (_attr r) l /\ Z.of_nat (length l) = _columnCount r.

Definition reset_frame r : basic_rle TextAttribute * Z * LineRendition * bool * option ScrollbarData * option ImageSlice :=
  (of_value (_columnCount r) TextAttribute_ctor, _columnCount r, SingleWidth, false, None, None).

Definition is_reset r r' : Prop := shows r' (blank r) /\ frame r' = reset_frame r /\ _doubleBytePadded r' = false.

Section replace.
Context `{Allocator} (isa : Intrinsics).

(** A call that returns [a] with the row showing [G] and everything but [_doubleBytePadded] as it
    was, or that throws because the heap is exhausted, with the row reset. *)
Definition writes_or_resets {T} r (a : T) G (padded : bool) (result : ROW * Outcome T) : Prop :=
  let '(r', o) := result in
  (o = Ret a /\ shows r' G /\ frame r' = frame r /\ _doubleBytePadded r' = padded) \/
  (o = Throw /\ is_reset r r' /\ exists n, allocate n = None).

Lemma attributes_runs r l : attributes r l -> 0 < _columnCount r -> _runs (_attr r) <> [] /\ _total_length (_attr r) = _columnCount r.
Proof.
  intros [Hrep Hlen] Hc. pose proof (represents_size _ _ _ Hrep) as Hs. unfold RleRefinement.size in Hs. split; [|lia].
  destruct Hrep as (_ & _ & He). intros Hnil. rewrite Hnil in He. cbn in He. subst l. cbn in Hlen. lia.
Qed.

Lemma frame_parts r r' : frame r' = frame r -> _attr r' = _attr r /\ _columnCount r' = _columnCount r.
Proof. unfold frame. intros Hf. split; congruence. Qed.

Lemma or_reset_throw {T} (m : M ROW T) r l r1 : attributes r l -> m r = (r1, Throw) -> lent r1 -> frame r1 = frame r ->
  exists r', or_reset isa m r = (r', Throw) /\ is_reset r r'.
Proof.
  intros Ha Hm Hl Hf. unfold or_reset, try_catch. rewrite Hm. destruct (frame_parts _ _ Hf) as [Hattr Hc].
  destruct (attributes_runs r l Ha) as [Hruns Htot]; [destruct Hl as (Hb & _); lia|].
  destruct (reset_spec isa TextAttribute_ctor r1 Hl) as (r2 & Hrun & Hshow & Hf2 & Hp);
    [by rewrite Hattr|by rewrite Hattr, Hc|].
  rewrite (run_bind _ _ _ _ _ Hrun). exists r2. split; [done|]. split; [|split; [|done]].
  - unfold blank in *. by rewrite Hc in Hshow.
  - unfold reset_frame. by rewrite <- Hc.
Qed.

(** A write whose helper has come to [write_state] finishes as [finished] says. *)
Lemma shows_holds r G : shows r G -> exists unused, holds (frame r) (_doubleBytePadded r) r (text_of G ++ unused) (all_offsets 0 G).
Proof. intros (Hl & _ & _ & _ & (u & Hu) & Hcap & HO). exists u. rewrite <- Hu. done. Qed.

(** [_doubleBytePadded] after a write of columns up to [e] that dirtied those up to [until]. *)
Definition padded_after G (e until : nat) (before : bool) : bool :=
  if (next_column until G =? columns G)%nat then (e <? columns G)%nat else before.

Lemma finish_overwrite r G r2 unused b limit data text N until consumed : shows r G -> glyphs_ok N ->
  (b + columns N <= until)%nat -> (until <= columns G)%nat -> 0 <= consumed <= Z.of_nat (length text) ->
  text_of N = take (Z.to_nat consumed) text -> chars_of (overwrite b until N G) <= CharOffsetsMask ->
  let h := helper_at G b limit data text in
  holds (frame r) (_doubleBytePadded r) r2 (text_of G ++ unused) (entries_with G b (chBeg h) N) ->
  let '(r', o) := Finish (wrote h N until consumed) r2 in
  (o = Ret (set_colEndDirty (Z.of_nat (next_column until G)) (wrote h N until consumed)) /\ shows r' (overwrite b until N G) /\
     frame r' = frame r /\ _doubleBytePadded r' = padded_after G (b + columns N) until (_doubleBytePadded r)) \/
  (o = Throw /\ lent r' /\ frame r' = frame r /\ exists n, allocate n = None).
Proof.
  intros Hs HN Hb Hu Hcons Htext Hm h Hr2. pose proof Hs as ((H32 & _) & HG & HcG & HmG & _). unfold padded_after.
  pose proof (overwrite_state G b limit data text N until consumed HG HN Hb Hu Hcons Htext HmG ltac:(lia)) as HW.
  rewrite <- (finished_overwrite G b N until HG ltac:(lia)) in Hm |- *.
  assert (HcW : columns (cut_before b G ++ N) = (b + columns N)%nat) by (rewrite columns_app, columns_cut_before by (done || lia); done).
  rewrite <- HcW. apply (finish_spec G _ until _ _ _ _ _ _ HW HG Hr2); [|done|done].
  destruct Hr2 as (Hf & _). by destruct (frame_parts _ _ Hf) as [_ ->].
Qed.

(** What [ReplaceCharacters] makes of the glyphs: nothing past the last column, a space where
    the glyph does not fit, and otherwise the glyph. *)
Definition replace_glyph (b width : nat) (text : wstring) G : list glyph :=
  if (b =? columns G)%nat then G
  else if (b + width <=? columns G)%nat then overwrite b (b + width) [mkGlyph text width] G
  else overwrite b (columns G) [] G.
Definition replace_padded (b width : nat) G (padded : bool) : bool :=
  if (b =? columns G)%nat then padded
  else if (b + width <=? columns G)%nat then padded_after G (b + width) (b + width) padded
  else padded_after G b (columns G) padded.

Lemma or_reset_ret {T} (m : M ROW T) r r' a : m r = (r', Ret a) -> or_reset isa m r = (r', Ret a).
Proof. intros Hm. unfold or_reset, try_catch. by rewrite Hm. Qed.

(** A call that ends by [Finish], as its caller sees it. *)
Lemma or_reset_finish {T} (m : M ROW T) r l (a : T) G padded : attributes r l ->
  (let '(r', o) := m r in
   (o = Ret a /\ shows r' G /\ frame r' = frame r /\ _doubleBytePadded r' = padded) \/
   (o = Throw /\ lent r' /\ frame r' = frame r /\ exists n, allocate n = None)) ->
  writes_or_resets r a G padded (or_reset isa m r).
Proof.
  intros Ha Hm. destruct (m r) as [r1 o] eqn:Hrun. destruct Hm as [(-> & Hs & Hf & Hp)|(-> & Hl & Hf & Halloc)].
  - rewrite (or_reset_ret _ _ _ _ Hrun). left. done.
  - destruct (or_reset_throw m r l r1 Ha Hrun Hl Hf) as (r2 & -> & Hreset). right. done.
Qed.

Lemma entries_with_nil G b base : (b <= columns G)%nat -> entries_with G b base [] = all_offsets 0 G.
Proof. intros Hb. unfold entries_with. cbn [offsets columns app]. rewrite Nat.add_0_r. apply take_drop. Qed.

Lemma IsValid_helper G b limit data text : text <> [] -> IsValid (helper_at G b limit data text) = (b <? limit)%nat.
Proof.
  intros Ht. unfold IsValid, helper_at. cbn [colBeg colLimit chars]. destruct text; [done|]. rewrite andb_true_r. apply eq_true_iff_eq. rewrite Z.ltb_lt, Nat.ltb_lt. lia.
Qed.

Lemma clamped_columnCount r : 0 < _columnCount r -> clamped (_columnCount r) r = Z.to_nat (_columnCount r).
Proof. intros Hc. unfold clamped. by rewrite clamp_id by lia. Qed.

Lemma chars_cut_before_le b G : glyphs_ok G -> (b <= columns G)%nat -> chars_of (cut_before b G) <= chars_of G.
Proof.
  intros HG Hb. rewrite chars_cut_before. unfold start_column. destruct (columns_split b G HG Hb) as [[HE Hc]|(g & HE & Hc)].
  - rewrite Hc. pose proof (take_columns_chars b G HG Hb). lia.
  - assert (Hg : glyph_ok g) by (rewrite HE in HG; apply glyphs_ok_app in HG as [_ HG]; by inversion HG). destruct Hg as [Hne Hg].
    pose proof (f_equal (fun l => chars_of l) HE) as Hl. cbv beta in Hl. rewrite chars_of_app, text_of_cons, length_app in Hl.
    destruct (glyph_text g); [done|]. cbn [length] in Hl. lia.
Qed.

(** The entries of one glyph. *)
Lemma writeGlyph_entries f padded r C G b base ch w h : holds f padded r C (entries_with G b base []) -> glyphs_ok G ->
  colEnd h = Z.of_nat b -> (0 < w)%nat -> (b + w <= columns G)%nat -> Z.of_nat (columns G) <= 0x7fff -> 0 <= ch <= CharOffsetsMask ->
  exists r', writeGlyph ch (Z.of_nat (b + w)) h r = (r', Ret (set_colEnd (Z.of_nat (b + w)) h)) /\
    holds f padded r' C (take b (all_offsets 0 G) ++ entry ch w ++ drop (b + w) (all_offsets 0 G)).
Proof.
  intros Hr HG Hc Hw Hb H32 Hch. rewrite entries_with_nil in Hr by lia. pose proof (length_all_offsets 0 G HG) as Hl.
  assert (HO : all_offsets 0 G = take b (all_offsets 0 G) ++ take w (drop b (all_offsets 0 G)) ++ drop (b + w) (all_offsets 0 G)).
  { rewrite <- drop_drop, take_drop. by rewrite take_drop. }
  assert (Hlb : length (take b (all_offsets 0 G)) = b) by (rewrite length_take; lia).
  rewrite HO in Hr. destruct (writeGlyph_spec f padded ch w h r C _ _ _ Hr) as (r' & Hrun & Hr'); try done.
  - by rewrite Hlb.
  - rewrite length_take, length_drop. lia.
  - lia.
  - rewrite Hlb in Hrun. eauto.
Qed.

(** What [WriteHelper::ReplaceCharacters] writes. *)
Definition replace_new (b w : nat) (text : wstring) G : list glyph := if (b + w <=? columns G)%nat then [mkGlyph text w] else [].
Definition replace_until (b w : nat) G : nat := if (b + w <=? columns G)%nat then (b + w)%nat else columns G.
Definition replace_consumed (b w : nat) (text : wstring) G : Z := if (b + w <=? columns G)%nat then Z.of_nat (length text) else 0.

Lemma helper_replace_spec f padded r C G b w data text : (b <= columns G)%nat -> (1 <= w <= 2)%nat -> glyphs_ok G ->
  Z.of_nat (columns G) <= 0x7fff -> chars_of G <= CharOffsetsMask -> holds f padded r C (all_offsets 0 G) ->
  let h := helper_at G b (columns G) data text in
  exists r1, WriteHelper_ReplaceCharacters (Z.of_nat w) h r
      = (r1, Ret (wrote h (replace_new b w text G) (replace_until b w G) (replace_consumed b w text G))) /\
    holds f padded r1 C (entries_with G b (chBeg h) (replace_new b w text G)).
Proof.
  intros Hb Hw HG H32 Hm Hr h. unfold WriteHelper_ReplaceCharacters, replace_new, replace_until, replace_consumed.
  change (colEnd h) with (Z.of_nat b). change (colLimit h) with (Z.of_nat (columns G)). cbv zeta. rewrite u16_small by lia. rewrite <- Nat2Z.inj_add.
  rewrite Z.gtb_ltb. destruct (Nat.leb_spec (b + w) (columns G)) as [Hfit|Hcut].
  - rewrite (proj2 (Z.ltb_ge _ _)) by lia. rewrite <- (entries_with_nil G b (chBeg h)) in Hr by lia.
    assert (Hch : chBeg h = chars_of (cut_before b G)) by (by rewrite chars_cut_before).
    destruct (writeGlyph_entries _ _ r _ G b (chBeg h) (chBeg h) w h Hr HG eq_refl) as (r1 & Hrun & Hr1);
      [lia|lia|lia|pose proof (chars_cut_before_le b G HG Hb); lia|].
    rewrite (run_bind _ _ _ _ _ Hrun). exists r1. split.
    + unfold wrote. cbn [columns glyph_width]. rewrite Nat.add_0_r. change (colEnd h) with (Z.of_nat b). rewrite <- Nat2Z.inj_add. done.
    + unfold entries_with. cbn [columns offsets glyph_width glyph_text]. by rewrite app_nil_r, Nat.add_0_r.
  - rewrite (proj2 (Z.ltb_lt _ _)) by lia. exists r. split; [|by rewrite entries_with_nil].
    unfold wrote. cbn [columns]. by rewrite Z.add_0_r.
Qed.

(** [ReplaceCharacters]. *)
Lemma replace_characters_spec r G l columnBegin w data text : shows r G -> attributes r l ->
  (1 <= w <= 2)%nat -> text <> [] ->
  chars_of (replace_glyph (clamped columnBegin r) w text G) <= CharOffsetsMask ->
  writes_or_resets r tt (replace_glyph (clamped columnBegin r) w text G)
    (replace_padded (clamped columnBegin r) w G (_doubleBytePadded r))
    (ReplaceCharacters isa columnBegin (Z.of_nat w) data text r).
Proof.
  intros Hs Ha Hw Ht Hm. pose proof Hs as ((H32 & Hb1 & Hb2) & HG & HcG & HmG & _). pose proof (clamped_le columnBegin r G Hs) as Hb.
  set (b := clamped columnBegin r) in *. unfold ReplaceCharacters. apply (or_reset_finish _ r l); [done|].
  rewrite run_gets, (run_reads _ _ _ _ (ctor_spec r G columnBegin (_columnCount r) data text Hs)). fold b. clearbody b.
  rewrite clamped_columnCount, <- HcG, Nat2Z.id by lia. rewrite IsValid_helper by done. unfold replace_glyph, replace_padded in *.
  destruct (Nat.eqb_spec b (columns G)) as [Heq|Hne].
  { rewrite Heq, Nat.ltb_irrefl. cbn [negb]. left. done. }
  rewrite (proj2 (Nat.ltb_lt _ _)) by lia. cbn [negb]. destruct (shows_holds r G Hs) as (unused & Hr).
  destruct (helper_replace_spec _ _ r _ G b w data text Hb Hw HG ltac:(lia) HmG Hr) as (r1 & Hrun & Hr1). rewrite (run_bind _ _ _ _ _ Hrun). clear Hrun.
  pose proof (finish_overwrite r G r1 unused b (columns G) data text (replace_new b w text G) (replace_until b w G) (replace_consumed b w text G) Hs) as HF.
  unfold replace_new, replace_until, replace_consumed in *. destruct (Nat.leb_spec (b + w) (columns G)) as [Hfit|Hcut].
  - specialize (HF ltac:(constructor; [done|constructor]) ltac:(cbn [columns glyph_width]; lia) Hfit ltac:(lia)
      ltac:(unfold text_of; cbn; rewrite app_nil_r, Nat2Z.id; by rewrite take_ge by lia) Hm Hr1).
    cbn [columns glyph_width] in HF. rewrite Nat.add_0_r in HF. destruct (Finish _ r1) as [r2 o] eqn:Hfin.
    destruct HF as [(-> & Hs2 & Hf2 & Hp2)|(-> & Hrest)].
    + rewrite (run_bind _ _ _ _ _ Hfin). left. done.
    + rewrite (run_throw _ _ _ _ Hfin). right. done.
  - specialize (HF ltac:(constructor) ltac:(cbn [columns]; lia) ltac:(lia) ltac:(lia) ltac:(done) Hm Hr1).
    cbn [columns] in HF. rewrite Nat.add_0_r in HF. destruct (Finish _ r1) as [r2 o] eqn:Hfin.
    destruct HF as [(-> & Hs2 & Hf2 & Hp2)|(-> & Hrest)].
    + rewrite (run_bind _ _ _ _ _ Hfin). left. done.
    + rewrite (run_throw _ _ _ _ Hfin). right. done.
Qed.
End replace.
