(* ===== verification/RowText.v ===== *)
(** * Text into a row

    What [ReplaceText] does, against an interface that states what the row expects of the
    detector of grapheme clusters. *)
From S2P Require Import Prelude LineRenditions InputEvents TextAttributes Rle RleRefinement ImageSlice Graphemes GraphemeTheorems Row RowSpec RowWrite RowInit RowReplace.

Implicit Types (G A B N : list glyph) (g : glyph) (r : ROW) (h : WriteHelper).

(** [d] is a detector in order, [s] a state it left. *)
Class GraphemeLaws (D : Type) `{GraphemeDetector D} := {
  detector_ok : D -> Prop;
  state_ok : D -> GraphemeState -> Prop;
  (** The first call with a state, and a call that goes on, are answered. *)
  next_total : forall d s data str, detector_ok d -> state_ok d s -> is_text str ->
    exists d' s' more, next_grapheme s data str d = Some (d', s', more) /\ detector_ok d' /\ state_ok d' s' /\ 0 <= width s' <= 2;
  (** There is nothing in an empty string. *)
  next_empty : forall d s data, detector_ok d -> next_grapheme s data [] d = Some (d, s, false);
  state_init : forall d pos, state_ok d (mkGraphemeState pos 0 0 0 0);
  (** A cluster is in the string, at the place to continue. *)
  next_within : forall d s data str d' s' more, detector_ok d -> state_ok d s -> is_text str ->
    next_grapheme s data str d = Some (d', s', more) -> resume_at s data str < Z.of_nat (length str) ->
    beg s' = data + resume_at s data str /\ 0 <= len s' <= Z.of_nat (length str) - resume_at s data str;
  (** A new one is not empty, and complete unless it ends the string. *)
  next_fresh : forall d s data str d' s' more, detector_ok d -> state_ok d s -> is_text str -> _state s = 0 ->
    next_grapheme s data str d = Some (d', s', more) -> resume_at s data str < Z.of_nat (length str) ->
    0 < len s' /\ (resume_at s data str + len s' < Z.of_nat (length str) -> _state s' = 0);
  (** It depends on the place to continue only. *)
  next_same : forall d s1 s2 data str d' s1' more, detector_ok d -> state_ok d s1 -> state_ok d s2 -> is_text str -> _state s1 = 0 -> _state s2 = 0 ->
    resume_at s1 data str = resume_at s2 data str -> resume_at s1 data str < Z.of_nat (length str) ->
    next_grapheme s1 data str d = Some (d', s1', more) ->
    exists s2', next_grapheme s2 data str d = Some (d', s2', more) /\ len s2' = len s1' /\ width s2' = width s1';
  (** An ASCII character before another one, or at the end, is a cluster of one column. *)
  next_ascii : forall d s data str c rest d' s' more, detector_ok d -> state_ok d s -> is_text str -> _state s = 0 ->
    0 <= resume_at s data str -> drop (Z.to_nat (resume_at s data str)) str = c :: rest -> c < 0x80 ->
    match rest with c' :: _ => c' < 0x80 | [] => True end ->
    next_grapheme s data str d = Some (d', s', more) -> d' = d /\ len s' = 1 /\ width s' = 1;
}.

Section text.
Context `{Allocator} {D : Type} `{GraphemeLaws D} (isa : Intrinsics) (charsAddress : ROW -> Z).

(** ** The reference

    The clusters of the text from [p] that fit into [avail] columns, each a glyph of at least
    a column, and the position after them. *)
Fixpoint place (fuel avail : nat) (data : Z) (str : wstring) (p : nat) (s : GraphemeState) (d : D) : option (D * list glyph * nat) :=
  match fuel with
  | O => None
  | S fuel =>
      if (p =? length str)%nat then Some (d, [], p)
      else
        '(d, s, _) ← next_grapheme s data str d;
        let w := Z.to_nat (Z.max 1 (width s)) in
        if (w <=? avail)%nat then
          let g := mkGlyph (take (Z.to_nat (len s)) (drop p str)) w in
          '(d, N, q) ← place fuel (avail - w) data str (p + Z.to_nat (len s)) s d;
          Some (d, g :: N, q)
        else Some (d, [], p)
  end.

Definition fresh_at (data : Z) (p : nat) : GraphemeState := mkGraphemeState (data + Z.of_nat p) 0 0 0 0.
Definition place_from (avail : nat) (data : Z) (str : wstring) (p : nat) (d : D) : option (D * list glyph * nat) :=
  place (S (length str)) avail data str p (fresh_at data p) d.

(** A state at position [p] of a string. *)
Definition at_position (s : GraphemeState) (data : Z) (str : wstring) (p : nat) (d : D) : Prop :=
  state_ok d s /\ beg s + len s = data + Z.of_nat p /\ ((p < length str)%nat -> _state s = 0).

Lemma resume_at_position s data str p d : at_position s data str p d -> (p <= length str)%nat -> resume_at s data str = Z.of_nat p.
Proof.
  intros (_ & Hp & _) Hle. unfold resume_at, resetIfOutOfRange. rewrite Hp.
  destruct (Z.ltb_spec (data + Z.of_nat p) data), (Z.gtb_spec (data + Z.of_nat p) (data + Z.of_nat (length str))); lia.
Qed.

(** One step of the loop. *)
Lemma next_at_position s data str p d : detector_ok d -> is_text str -> at_position s data str p d -> (p < length str)%nat ->
  exists d' s' more, next_grapheme s data str d = Some (d', s', more) /\ detector_ok d' /\ 0 <= width s' <= 2 /\
    0 < len s' <= Z.of_nat (length str - p) /\ at_position s' data str (p + Z.to_nat (len s')) d'.
Proof.
  intros Hd Hstr Hs Hp. pose proof (resume_at_position _ _ _ _ _ Hs ltac:(lia)) as Hres. pose proof Hs as (Hok & Hpos & Hst).
  destruct (next_total d s data str Hd Hok Hstr) as (d' & s' & more & Hrun & Hd' & Hs' & Hw).
  destruct (next_within d s data str d' s' more Hd Hok Hstr Hrun ltac:(lia)) as [Hbeg Hlen].
  destruct (next_fresh d s data str d' s' more Hd Hok Hstr (Hst Hp) Hrun ltac:(lia)) as [Hpos' Hend].
  exists d', s', more. rewrite Hres in *. repeat split; try done; try lia.
Qed.

Lemma place_total fuel avail data str p s d : detector_ok d -> is_text str -> at_position s data str p d -> (p <= length str)%nat ->
  (length str - p < fuel)%nat ->
  exists d' N q, place fuel avail data str p s d = Some (d', N, q) /\ detector_ok d' /\ glyphs_ok N /\ (columns N <= avail)%nat /\
    (p <= q <= length str)%nat /\ text_of N = take (q - p) (drop p str) /\ (q = length str \/ avail - columns N <= 1)%nat.
Proof.
  revert avail p s d. induction fuel as [|fuel IH]; intros avail p s d Hd Hstr Hs Hp Hfuel; [lia|]. cbn [place].
  destruct (Nat.eqb_spec p (length str)) as [Heq|Hne].
  - exists d, [], p. split_and!; try done; try (cbn; lia); [constructor|]. by rewrite Nat.sub_diag.
  - destruct (next_at_position s data str p d Hd Hstr Hs ltac:(lia)) as (d' & s' & more & Hrun & Hd' & Hw & Hl & Hs'). rewrite Hrun. cbn [mbind option_bind].
    destruct (Nat.leb_spec (Z.to_nat (Z.max 1 (width s'))) avail) as [Hfit|Hcut].
    + destruct (IH (avail - Z.to_nat (Z.max 1 (width s')))%nat (p + Z.to_nat (len s'))%nat s' d' Hd' Hstr Hs' ltac:(lia) ltac:(lia))
        as (d2 & N & q & Hplace & Hd2 & HN & Hc & Hq & Ht & Hfull). rewrite Hplace. cbn [mbind option_bind].
      eexists _, _, _. split; [reflexivity|]. split_and!; try done.
      * constructor; [|done]. split; cbn [glyph_text glyph_width]; [|lia]. intros Hnil. apply (f_equal length) in Hnil.
        rewrite length_take, length_drop in Hnil. cbn in Hnil. lia.
      * cbn [columns glyph_width]. lia.
      * lia.
      * lia.
      * rewrite text_of_cons, Ht. cbn [glyph_text]. rewrite <- drop_drop. replace (q - p)%nat with (Z.to_nat (len s') + (q - (p + Z.to_nat (len s'))))%nat by lia.
        by rewrite take_take_drop || (rewrite <- (take_drop (Z.to_nat (len s')) (drop p str)) at 3; rewrite take_app_ge by (rewrite length_take; lia)).
      * destruct Hfull as [Hq'|Hq']; [by left|right]. cbn [columns glyph_width]. lia.
    + exists d', [], p. split_and!; try done; try (cbn; lia); [constructor|]. by rewrite Nat.sub_diag.
Qed.

Lemma place_le fuel avail data str p s d d' N q : place fuel avail data str p s d = Some (d', N, q) -> (p <= q)%nat.
Proof.
  revert avail p s d N. induction fuel as [|fuel IH]; intros avail p s d N; cbn [place]; [done|].
  destruct (_ =? _)%nat; [intros [= <- <- <-]; lia|]. destruct (next_grapheme s data str d) as [[[d1 s1] more]|]; [|done]. cbn [mbind option_bind].
  destruct (_ <=? _)%nat; [|intros [= <- <- <-]; lia]. destruct (place _ _ _ _ _ s1 d1) as [[[d2 N'] q']|] eqn:Hplace; [|done].
  intros [= <- <- <-]. apply IH in Hplace. lia.
Qed.

(** ** The loop over clusters *)
Lemma run_on_row {T} (m : M ROW T) r (d : D) r' o : m r = (r', o) -> on_row m (r, d) = ((r', d), o).
Proof. intros Hm. unfold on_row. cbn. by rewrite Hm. Qed.

Lemma run_on_row_reads {T U} (g : ROW -> option T) (k : T -> M (ROW * D) U) r d a : g r = Some a -> mbind k (on_row (reads g)) (r, d) = k a (r, d).
Proof. intros Hg. apply (run_bind _ _ _ (r, d) a). unfold on_row, reads. cbn. by rewrite Hg. Qed.

Lemma run_measure {T} s data str r d d' s' more (k : GraphemeState -> M (ROW * D) T) : next_grapheme s data str d = Some (d', s', more) ->
  mbind k (measure s data str) (r, d) = k s' (r, d').
Proof. intros Hn. cbv [mbind M_bind measure]. cbn. by rewrite Hn. Qed.

(** The helper after the glyphs [N], with the text written up to [q] of its [length]. *)
Definition placed h N (ch : Z) (complete : bool) : WriteHelper :=
  let h := set_colEnd (colEnd h + Z.of_nat (columns N)) h in
  if complete then written ch h else out_of_columns ch h.

Lemma clusterLoop_spec fuel f padded C X Y avail p s d h r d' N q ch : detector_ok d -> is_text (chars h) ->
  at_position s (charsData h) (chars h) p d -> (p < length (chars h))%nat ->
  place fuel avail (charsData h) (chars h) p s d = Some (d', N, q) ->
  holds f padded r C (X ++ Y) -> colEnd h = Z.of_nat (length X) -> colLimit h = Z.of_nat (length X + avail) ->
  (avail <= length Y)%nat -> Z.of_nat (length X + avail) <= 0x7fff -> 0 <= ch -> ch + chars_of N <= CharOffsetsMask ->
  exists r', clusterLoop fuel ch (Z.of_nat p) s h (r, d) = ((r', d'), Ret (placed h N (ch + Z.of_nat (q - p)) (q =? length (chars h))%nat)) /\
    holds f padded r' C (X ++ offsets ch N ++ drop (columns N) Y).
Proof.
  revert X Y avail p s d h r N ch. induction fuel as [|fuel IH]; intros X Y avail p s d h r N ch Hd Hstr Hs Hp Hplace Hr He Hlim HY H32 Hch Hm; [done|].
  cbn [place] in Hplace. destruct (Nat.eqb_spec p (length (chars h))) as [?|_]; [lia|].
  destruct (next_at_position s (charsData h) (chars h) p d Hd Hstr Hs Hp) as (d1 & s1 & more & Hrun & Hd1 & Hw & Hl & Hs1).
  rewrite Hrun in Hplace. cbn [mbind option_bind] in Hplace. cbn [clusterLoop]. rewrite (run_measure _ _ _ _ _ _ _ _ _ Hrun). cbv zeta.
  set (w := Z.to_nat (Z.max 1 (width s1))) in *. assert (Hw12 : (1 <= w <= 2)%nat) by lia.
  replace (Z.max 1 (width s1)) with (Z.of_nat w) by lia. rewrite He, u16_small, <- Nat2Z.inj_add, Hlim by lia. rewrite Z.gtb_ltb.
  destruct (Nat.leb_spec w avail) as [Hfit|Hcut].
  2:{ injection Hplace as <- <- <-. rewrite (proj2 (Z.ltb_lt _ _)) by lia. exists r. rewrite Nat.sub_diag, Z.add_0_r. split; [|done].
      unfold placed. cbn [columns]. rewrite Z.add_0_r. destruct (Nat.eqb_spec p (length (chars h))); [lia|]. by destruct h. }
  destruct (place fuel _ _ _ _ s1 d1) as [[[d2 N'] q']|] eqn:Hplace'; [|done]. injection Hplace as -> <- ->.
  rewrite (proj2 (Z.ltb_ge _ _)) by lia. set (g := mkGlyph _ w) in *.
  assert (Hlg : Z.of_nat (length (glyph_text g)) = len s1) by (cbn; rewrite length_take, length_drop; lia).
  rewrite text_of_cons, length_app in Hm.
  rewrite <- (take_drop w Y) in Hr. destruct (writeGlyph_spec f padded ch w h r C X (take w Y) (drop w Y) Hr He) as (r1 & Hw1 & Hr1);
    [rewrite length_take; lia|lia|lia|lia|].
  rewrite (run_bind _ _ _ _ _ (run_on_row _ _ d1 _ _ Hw1)). set (h1 := set_colEnd _ h) in *. change (chars h1) with (chars h).
  replace (Z.of_nat p + len s1) with (Z.of_nat (p + Z.to_nat (len s1))) by lia.
  destruct (Nat.eq_dec (p + Z.to_nat (len s1)) (length (chars h))) as [Hend|Hmore].
  - rewrite (proj2 (Z.eqb_eq _ _)) by lia. destruct fuel as [|fuel]; [done|]. cbn [place] in Hplace'. rewrite (proj2 (Nat.eqb_eq _ _)) in Hplace' by done.
    injection Hplace' as -> <- <-. exists r1. split.
    + unfold placed. rewrite (proj2 (Nat.eqb_eq _ _)) by lia. cbn [columns g glyph_width]. rewrite Nat.add_0_r, He, <- Nat2Z.inj_add. fold h1.
      replace (Z.of_nat (p + Z.to_nat (len s1) - p)) with (len s1) by lia. done.
    + cbn [offsets columns glyph_width g]. rewrite app_nil_r, Nat.add_0_r. exact Hr1.
  - rewrite (proj2 (Z.eqb_neq _ _)) by lia.
    rewrite app_assoc in Hr1. assert (Hlx : length (X ++ entry ch w) = (length X + w)%nat) by (rewrite length_app; unfold entry; cbn; rewrite length_replicate; lia).
    destruct (IH (X ++ entry ch w) (drop w Y) (avail - w)%nat (p + Z.to_nat (len s1))%nat s1 d1 h1 r1 N' (ch + len s1)) as (r2 & Hrun2 & Hr2);
      [done|done|done|change (chars h1) with (chars h); lia|done|done|by rewrite Hlx|rewrite Hlx; change (colLimit h1) with (colLimit h); rewrite Hlim; lia|
       rewrite length_drop; lia|rewrite Hlx; lia|lia|lia|].
    exists r2. rewrite Hrun2. split.
    + apply place_le in Hplace'. change (chars h1) with (chars h). unfold placed. cbn [columns g glyph_width].
      replace (ch + len s1 + Z.of_nat (q - (p + Z.to_nat (len s1)))) with (ch + Z.of_nat (q - p)) by lia.
      change (colEnd h1) with (Z.of_nat (length X + w)). rewrite He, <- !Nat2Z.inj_add, Nat.add_assoc. done.
    + cbn [offsets columns glyph_width]. rewrite Hlg, <- drop_drop. unfold entry in Hr2. rewrite <- !app_assoc in Hr2. cbn [app] in Hr2.
      rewrite <- app_comm_cons, <- app_assoc. exact Hr2.
Qed.

Lemma clusters_spec f padded C X Y avail p d h r d' N q ch : detector_ok d -> is_text (chars h) -> (p <= length (chars h))%nat ->
  place_from avail (charsData h) (chars h) p d = Some (d', N, q) ->
  holds f padded r C (X ++ Y) -> colEnd h = Z.of_nat (length X) -> colLimit h = Z.of_nat (length X + avail) ->
  (avail <= length Y)%nat -> Z.of_nat (length X + avail) <= 0x7fff -> 0 <= ch -> ch + chars_of N <= CharOffsetsMask ->
  exists r', clusters ch (Z.of_nat p) h (r, d) = ((r', d'), Ret (placed h N (ch + Z.of_nat (q - p)) (q =? length (chars h))%nat)) /\
    holds f padded r' C (X ++ offsets ch N ++ drop (columns N) Y).
Proof.
  intros Hd Hstr Hp Hplace Hr He Hlim HY H32 Hch Hm. unfold clusters. destruct (Nat.eq_dec p (length (chars h))) as [Hend|Hmore].
  - rewrite (proj2 (Z.eqb_eq _ _)) by lia. unfold place_from in Hplace. cbn [place] in Hplace. rewrite (proj2 (Nat.eqb_eq _ _)) in Hplace by done.
    injection Hplace as <- <- <-. exists r. split; [|done]. unfold placed. rewrite (proj2 (Nat.eqb_eq _ _)), Nat.sub_diag, Z.add_0_r by done. cbn [columns].
    rewrite Z.add_0_r. by destruct h.
  - rewrite (proj2 (Z.eqb_neq _ _)) by lia. eapply clusterLoop_spec; try done; [|lia]. split_and!; [apply state_init|cbn; lia|done].
Qed.

(** ** States at the same position *)
Lemma place_same fuel avail data str p s1 s2 d : detector_ok d -> is_text str -> at_position s1 data str p d -> at_position s2 data str p d ->
  (p <= length str)%nat -> (length str - p < fuel)%nat -> place fuel avail data str p s1 d = place fuel avail data str p s2 d.
Proof.
  revert avail p s1 s2 d. induction fuel as [|fuel IH]; intros avail p s1 s2 d Hd Hstr Hs1 Hs2 Hp Hfuel; [lia|]. cbn [place].
  destruct (Nat.eqb_spec p (length str)) as [|Hne]; [done|].
  pose proof (resume_at_position _ _ _ _ _ Hs1 Hp) as Hr1. pose proof (resume_at_position _ _ _ _ _ Hs2 Hp) as Hr2.
  destruct (next_at_position s1 data str p d Hd Hstr Hs1 ltac:(lia)) as (d' & s1' & more & Hrun & Hd' & Hw & Hl & Hs1').
  destruct (next_at_position s2 data str p d Hd Hstr Hs2 ltac:(lia)) as (d2' & s2' & more2 & Hrun2 & _ & _ & _ & Hs2').
  destruct Hs1 as (Hok1 & _ & Hst1). destruct Hs2 as (Hok2 & _ & Hst2).
  destruct (next_same d s1 s2 data str d' s1' more Hd Hok1 Hok2 Hstr (Hst1 ltac:(lia)) (Hst2 ltac:(lia)) ltac:(lia) ltac:(lia) Hrun) as (s3 & Hrun3 & Hlen & Hwidth).
  rewrite Hrun2 in Hrun3. injection Hrun3 as -> -> ->. rewrite Hrun, Hrun2. cbn [mbind option_bind]. rewrite Hlen, Hwidth in *.
  destruct (_ <=? _)%nat; [|done]. rewrite (IH _ _ s1' s3 d' Hd' Hstr Hs1' Hs2'); [done|lia..].
Qed.

Definition ascii_glyphs (text : wstring) : list glyph := map (fun c => mkGlyph [c] 1) text.

(** More fuel than characters is the same fuel. *)
Lemma place_fuel fuel fuel' avail data str p s d : detector_ok d -> is_text str -> at_position s data str p d -> (p <= length str)%nat ->
  (length str - p < fuel)%nat -> (length str - p < fuel')%nat -> place fuel avail data str p s d = place fuel' avail data str p s d.
Proof.
  revert fuel' avail p s d. induction fuel as [|fuel IH]; intros fuel' avail p s d Hd Hstr Hs Hp Hf Hf'; [lia|]. destruct fuel' as [|fuel']; [lia|]. cbn [place].
  destruct (Nat.eqb_spec p (length str)) as [|Hne]; [done|].
  destruct (next_at_position s data str p d Hd Hstr Hs ltac:(lia)) as (d' & s' & more & Hrun & Hd' & Hw & Hl & Hs').
  rewrite Hrun. cbn [mbind option_bind]. destruct (_ <=? _)%nat; [|done]. rewrite (IH fuel' _ _ s' d' Hd' Hstr Hs'); [done|lia..].
Qed.

(** An ASCII character that no combining character follows is a glyph of its own. *)
Lemma place_ascii avail data str p c rest d : detector_ok d -> is_text str -> drop p str = c :: rest -> c < 0x80 ->
  match rest with c' :: _ => c' < 0x80 | [] => True end -> (0 < avail)%nat ->
  place_from avail data str p d = '(d', N, q) ← place_from (avail - 1) data str (S p) d; Some (d', mkGlyph [c] 1 :: N, q).
Proof.
  intros Hd Hstr Hdrop Hc Hnext Havail. assert (Hp : (p < length str)%nat).
  { apply (f_equal length) in Hdrop. rewrite length_drop in Hdrop. cbn in Hdrop. lia. }
  assert (Hs : at_position (fresh_at data p) data str p d) by (split_and!; [apply state_init|cbn; lia|done]).
  pose proof (resume_at_position _ _ _ _ _ Hs ltac:(lia)) as Hres.
  destruct (next_at_position _ data str p d Hd Hstr Hs Hp) as (d' & s' & more & Hrun & Hd' & Hw & Hl & Hs').
  destruct (next_ascii d (fresh_at data p) data str c rest d' s' more) as (-> & Hlen & Hwidth); try done; [apply Hs|lia|by rewrite Hres, Nat2Z.id|].
  unfold place_from at 1. cbn [place]. destruct (Nat.eqb_spec p (length str)); [lia|]. rewrite Hrun. cbn [mbind option_bind]. rewrite Hlen, Hwidth in *.
  change (Z.to_nat (Z.max 1 1)) with 1%nat. rewrite (proj2 (Nat.leb_le _ _)) by lia. change (Z.to_nat 1) with 1%nat in *. rewrite Nat.add_1_r in *.
  rewrite Hdrop. change (take 1 (c :: rest)) with [c]. unfold place_from.
  rewrite (place_fuel (length str) (S (length str)) _ _ _ _ _ _ Hd Hstr Hs') by lia.
  rewrite (place_same (S (length str)) _ data str (S p) s' (fresh_at data (S p)) d Hd Hstr Hs'); [done| |lia|lia].
  split_and!; [apply state_init|cbn; lia|done].
Qed.

(** ** The loop over ASCII characters *)
Definition is_ascii (text : wstring) : Prop := Forall (fun c => c < 0x80) text.

Lemma asciiLoop_prefix f padded C pre rest : forall X Y ch it h r (d : D), is_ascii pre -> holds f padded r C (X ++ Y) ->
  colEnd h = Z.of_nat (length X) -> (length pre <= length Y)%nat -> Z.of_nat (length X + length pre) < 65536 ->
  0 <= ch -> ch + Z.of_nat (length pre) < 65536 ->
  exists r', asciiLoop charsAddress (pre ++ rest) ch it h (r, d)
      = asciiLoop charsAddress rest (ch + Z.of_nat (length pre)) (it + Z.of_nat (length pre)) (set_colEnd (Z.of_nat (length X + length pre)) h) (r', d) /\
    holds f padded r' C (X ++ offsets ch (ascii_glyphs pre) ++ drop (length pre) Y).
Proof.
  induction pre as [|c pre IH]; intros X Y ch it h r d Hpre Hr He HY H16 Hch Hch16.
  - exists r. cbn [app length offsets ascii_glyphs map]. rewrite !Z.add_0_r, Nat.add_0_r, <- He, drop_0. split; [by destruct h|done].
  - inversion Hpre as [|? ? Hc Hpre']; subst. cbn [length] in *. destruct Y as [|y Y]; [cbn in HY; lia|]. cbn [length] in HY.
    cbn [app asciiLoop]. rewrite Z.geb_leb, (proj2 (Z.leb_gt _ _)) by lia.
    destruct (run_storeOffsets Hr (colEnd h) [u16 ch] (X ++ [u16 ch] ++ Y)) as (r1 & Hrun & Hr1); [by apply (store_app X [y] Y)|].
    rewrite (run_bind _ _ _ _ _ (run_on_row _ _ d _ _ Hrun)). rewrite app_assoc in Hr1.
    rewrite He, (u16_small (_ + 1)) by lia.
    destruct (IH (X ++ [u16 ch]) Y (ch + 1) (it + 1) (set_colEnd (Z.of_nat (length X) + 1) h) r1 d Hpre' Hr1) as (r2 & Hrun2 & Hr2);
      [rewrite length_app; cbn; lia|lia|rewrite length_app; cbn; lia|lia|lia|].
    exists r2. rewrite Hrun2, length_app. cbn [length]. split.
    + replace (ch + 1 + Z.of_nat (length pre)) with (ch + Z.of_nat (S (length pre))) by lia.
      replace (it + 1 + Z.of_nat (length pre)) with (it + Z.of_nat (S (length pre))) by lia.
      replace (length X + 1 + length pre)%nat with (length X + S (length pre))%nat by lia. done.
    + rewrite u16_small in Hr2 by lia. rewrite <- app_assoc in Hr2. cbn [ascii_glyphs map offsets glyph_width glyph_text]. cbn [Nat.sub replicate app length drop] in *. exact Hr2.
Qed.

Lemma place_ascii_prefix avail data str d pre : forall p post, detector_ok d -> is_text str -> drop p str = pre ++ post -> is_ascii pre ->
  match post with c :: _ => c < 0x80 | [] => True end -> (length pre <= avail)%nat ->
  place_from avail data str p d = '(d', N, q) ← place_from (avail - length pre) data str (p + length pre) d; Some (d', ascii_glyphs pre ++ N, q).
Proof.
  revert avail. induction pre as [|c pre IH]; intros avail p post Hd Hstr Hdrop Hpre Hpost Hle.
  - cbn [length ascii_glyphs map app]. rewrite Nat.sub_0_r, Nat.add_0_r. by destruct (place_from _ _ _ _ _) as [[[? ?] ?]|].
  - inversion Hpre as [|? ? Hc Hpre']; subst. cbn [length app] in *. rewrite (place_ascii avail data str p c (pre ++ post) d Hd Hstr Hdrop Hc).
    2:{ destruct pre as [|c' pre]; [done|]. by inversion Hpre'. }
    2:{ lia. }
    rewrite (IH (avail - 1)%nat (S p) post Hd Hstr); [|by rewrite <- Nat.add_1_r, <- drop_drop, Hdrop|done|done|lia].
    replace (avail - 1 - length pre)%nat with (avail - S (length pre))%nat by lia. replace (S p + length pre)%nat with (p + S (length pre))%nat by lia.
    by destruct (place_from _ _ _ _ _) as [[[? ?] ?]|].
Qed.

Lemma ascii_split (l : wstring) : exists pre rest, l = pre ++ rest /\ is_ascii pre /\ match rest with c :: _ => 0x80 <= c | [] => True end.
Proof.
  induction l as [|c l (pre & rest & -> & Hpre & Hrest)]; [exists [], []; split_and!; [done|constructor|done]|]. destruct (Z.lt_ge_cases c 0x80).
  - exists (c :: pre), rest. split_and!; [done|by constructor|done].
  - exists [], (c :: pre ++ rest). split_and!; [done|constructor|done].
Qed.

(** The glyphs of text that starts with an ASCII character: as many ASCII characters as fit,
    or, if another character is among them, clusters. *)
Definition text_glyphs (n : nat) (data : Z) (text : wstring) (d : D) : option (D * list glyph * nat) :=
  if forallb (fun c => c <? 0x80) (take n text) then Some (d, ascii_glyphs (take n text), length (take n text))
  else place_from n data text 0 d.

Definition starts_ascii (text : wstring) : bool := match text with c :: _ => c <? 0x80 | [] => false end.

Lemma text_of_ascii text : text_of (ascii_glyphs text) = text.
Proof. induction text as [|c text IH]; [done|]. change (ascii_glyphs (c :: text)) with (mkGlyph [c] 1 :: ascii_glyphs text). by rewrite text_of_cons, IH. Qed.

Lemma columns_ascii text : columns (ascii_glyphs text) = length text.
Proof. induction text as [|c text IH]; [done|]. cbn. by rewrite <- IH. Qed.

Lemma glyphs_ok_ascii text : glyphs_ok (ascii_glyphs text).
Proof. induction text; constructor; [|done]. split; cbn; [done|lia]. Qed.

Lemma forallb_ascii text : forallb (fun c => c <? 0x80) text = true <-> is_ascii text.
Proof. rewrite forallb_Forall. split; intros Hf; apply (Forall_impl _ _ _ Hf); intros c Hc; lia. Qed.

(** [placed] is a state that [Finish] knows. *)
Lemma placed_wrote h N (e limit q : nat) complete : colEnd h = Z.of_nat e -> colLimit h = Z.of_nat limit -> 0 <= chBeg h -> chBeg h + Z.of_nat q < 2 ^ 64 ->
  placed h N (chBeg h + Z.of_nat q) complete = wrote h N (if complete then e + columns N else limit)%nat (Z.of_nat q).
Proof.
  intros He Hl Hch Hq. unfold placed, wrote, written, out_of_columns.
  destruct complete; cbn [chBeg colEnd colLimit set_colEnd]; rewrite ?He, ?Hl, ?Nat2Z.inj_add;
    (replace (u64 _) with (Z.of_nat q) by (rewrite wrap_small; lia)); done.
Qed.

(** Two columns are enough for any cluster. *)
Lemma place_some avail data str p d d' N q : detector_ok d -> is_text str -> (p < length str)%nat -> (2 <= avail)%nat ->
  place_from avail data str p d = Some (d', N, q) -> (1 <= columns N)%nat.
Proof.
  intros Hd Hstr Hp Ha. unfold place_from. cbn [place]. destruct (Nat.eqb_spec p (length str)); [lia|].
  destruct (next_at_position (fresh_at data p) data str p d Hd Hstr) as (d1 & s1 & more & Hrun & Hd1 & Hw & Hl & Hs1); [|done|].
  { split_and!; [apply state_init|cbn; lia|done]. }
  rewrite Hrun. cbn [mbind option_bind]. rewrite (proj2 (Nat.leb_le _ _)) by lia.
  destruct (place _ _ _ _ _ s1 d1) as [[[d2 N'] q']|]; [|done]. intros [= <- <- <-]. cbn [columns glyph_width]. lia.
Qed.

(** What a write of text leaves to prove to [Finish]. *)
Definition text_written f padded C G b (h : WriteHelper) (text : wstring) (result : (ROW * D) * Outcome WriteHelper) (d' : D) N (q : nat) : Prop :=
  exists r', result = ((r', d'), Ret (placed h N (chBeg h + Z.of_nat q) (q =? length text)%nat)) /\
    holds f padded r' C (entries_with G b (chBeg h) N).

Section plain.
Context (f : basic_rle TextAttribute * Z * LineRendition * bool * option ScrollbarData * option ImageSlice) (padded : bool) (C : list wchar_t)
  (G : list glyph) (b limit : nat) (data : Z) (text : wstring) (r : ROW) (d : D).
Context (HG : glyphs_ok G) (Hb : (b < limit <= columns G)%nat) (H32 : Z.of_nat (columns G) <= 0x7fff) (Hd : detector_ok d) (Htext : is_text text)
  (Hr : holds f padded r C (all_offsets 0 G)).
Let h := helper_at G b limit data text.

Lemma all_offsets_at : length (take b (all_offsets 0 G)) = b /\ length (drop b (all_offsets 0 G)) = (S (columns G) - b)%nat.
Proof. pose proof (length_all_offsets 0 G HG). rewrite length_take, length_drop. lia. Qed.

Lemma all_ascii_spec pre : take (limit - b) text = pre -> is_ascii pre -> chBeg h + Z.of_nat (length pre) <= CharOffsetsMask ->
  text_written f padded C G b h text (asciiLoop charsAddress pre (chBeg h) 0 h (r, d)) d (ascii_glyphs pre) (length pre).
Proof.
  intros Hsplit Hpre Hm. destruct all_offsets_at as [HlX HlY]. pose proof Hr as Hr0. rewrite <- (take_drop b (all_offsets 0 G)) in Hr0.
  assert (Hln : length pre = ((limit - b) `min` length text)%nat) by (rewrite <- Hsplit, length_take; lia).
  destruct (asciiLoop_prefix f padded C pre [] (take b (all_offsets 0 G)) (drop b (all_offsets 0 G)) (chBeg h) 0 h r d Hpre Hr0) as (r1 & Hrun & Hr1);
    [by rewrite HlX|lia|lia|cbn; lia|unfold CharOffsetsMask in Hm; lia|].
  rewrite app_nil_r, HlX in Hrun. exists r1. rewrite Hrun. cbn [asciiLoop]. split.
  - unfold placed. rewrite columns_ascii. change (colEnd h) with (Z.of_nat b). rewrite <- Nat2Z.inj_add. destruct (Nat.eqb_spec (length pre) (length text)); [done|].
    unfold written, out_of_columns. cbn [colEnd set_colEnd chBeg colLimit]. replace (colLimit h) with (Z.of_nat (b + length pre)) by (cbn; lia). done.
  - unfold entries_with. rewrite columns_ascii, <- drop_drop. exact Hr1.
Qed.

Lemma mixed_text_spec pre c0 c rest d' N q : text = pre ++ c0 :: c :: rest -> is_ascii (pre ++ [c0]) -> 0x80 <= c -> (length pre + 2 <= limit - b)%nat ->
  place_from (limit - b) data text 0 d = Some (d', N, q) -> chBeg h + Z.of_nat q <= CharOffsetsMask -> text_of N = take q text -> (q <= length text)%nat ->
  text_written f padded C G b h text (asciiLoop charsAddress ((pre ++ [c0]) ++ take (limit - b - S (length pre)) (c :: rest)) (chBeg h) 0 h (r, d)) d' N q.
Proof.
  intros Ht Hpre Hc Hfit Hplace Hm HtN Hq. destruct all_offsets_at as [HlX HlY]. pose proof Hr as Hr0. rewrite <- (take_drop b (all_offsets 0 G)) in Hr0.
  apply Forall_app in Hpre as Hp. destruct Hp as [Hpre' Hc0]. apply Forall_inv in Hc0.
  assert (Hlt : length text = (length pre + S (S (length rest)))%nat) by (rewrite Ht, length_app; done).
  rewrite (place_ascii_prefix (limit - b) data text d pre 0 (c0 :: c :: rest) Hd Htext) in Hplace by (done || lia).
  destruct (place_from (limit - b - length pre) data text (0 + length pre) d) as [[[d1 N1] q1]|] eqn:Hplace1; [|done].
  cbn [mbind option_bind] in Hplace. injection Hplace as -> <- ->. cbn [Nat.add] in Hplace1.
  assert (Hsome : (1 <= columns N1)%nat) by (refine (place_some _ _ _ _ _ _ _ _ Hd Htext _ _ Hplace1); lia). pose proof (place_le _ _ _ _ _ _ _ _ _ _ Hplace1) as Hle.
  destruct (asciiLoop_prefix f padded C (pre ++ [c0]) (take (limit - b - S (length pre)) (c :: rest)) _ _ (chBeg h) 0 h r d Hpre Hr0) as (r1 & Hrun & Hr1);
    [by rewrite HlX|rewrite length_app, HlY; cbn [length]; lia|rewrite HlX, length_app; cbn [length]; lia|cbn; lia|
     rewrite length_app; unfold CharOffsetsMask in Hm; cbn [length]; lia|].
  rewrite length_app in Hrun, Hr1. cbn [length] in Hrun, Hr1. rewrite HlX in Hrun.
  destruct (take (limit - b - S (length pre)) (c :: rest)) as [|c1 rest1] eqn:Hnext.
  { apply (f_equal length) in Hnext. rewrite length_take in Hnext. cbn [length] in Hnext. lia. }
  assert (c1 = c) as ->.
  { destruct (limit - b - S (length pre))%nat; [done|]. cbn in Hnext. congruence. }
  rewrite Hrun. cbn [asciiLoop]. rewrite Z.geb_leb, (proj2 (Z.leb_le _ _)) by lia. unfold _replaceTextUnicode.
  rewrite (proj2 (Z.eqb_neq _ _)) by lia. cbn [colEnd set_colEnd].
  replace (u16 (Z.of_nat (b + (length pre + 1)) - 1)) with (Z.of_nat (b + length pre)) by (rewrite u16_small; lia).
  replace (chBeg h + Z.of_nat (length pre + 1) - 1) with (chBeg h + Z.of_nat (length pre)) by lia.
  replace (0 + Z.of_nat (length pre + 1) - 1) with (Z.of_nat (length pre)) by lia.
  set (h1 := set_colEnd (Z.of_nat (b + length pre)) _). set (Y := drop b (all_offsets 0 G)) in *. set (X := take b (all_offsets 0 G)) in *.
  unfold ascii_glyphs in Hr1. rewrite map_app, offsets_app, <- app_assoc, (app_assoc X) in Hr1. fold (ascii_glyphs pre) in Hr1.
  assert (Hx1 : length (X ++ offsets (chBeg h) (ascii_glyphs pre)) = (b + length pre)%nat).
  { rewrite length_app, HlX, length_offsets, columns_ascii by apply glyphs_ok_ascii. done. }
  destruct (clusters_spec f padded C _ _ (limit - b - length pre) (length pre) d h1 r1 d' N1 q (chBeg h + Z.of_nat (length pre)) Hd Htext ltac:(cbn; lia) Hplace1 Hr1)
    as (r2 & Hrun2 & Hr2).
  - by rewrite Hx1.
  - rewrite Hx1. change (colLimit h1) with (Z.of_nat limit). lia.
  - rewrite length_app, length_drop, HlY. lia.
  - rewrite Hx1. lia.
  - cbn. lia.
  - apply (f_equal length) in HtN. rewrite text_of_app, length_app, text_of_ascii, length_take in HtN. lia.
  - exists r2. rewrite Hrun2. split.
    + replace (chBeg h + Z.of_nat (length pre) + Z.of_nat (q - length pre)) with (chBeg h + Z.of_nat q) by lia. unfold placed.
      change (chars h1) with text. rewrite columns_app, columns_ascii. change (colEnd h1) with (Z.of_nat (b + length pre)). change (colEnd h) with (Z.of_nat b).
      rewrite <- !Nat2Z.inj_add, Nat.add_assoc. done.
    + unfold entries_with. fold X. rewrite offsets_app, columns_app, columns_ascii, text_of_ascii. rewrite <- !app_assoc in Hr2 |- *.
      rewrite drop_app_ge in Hr2 by (cbn; lia). rewrite drop_drop in Hr2. cbn [length offsets app] in Hr2.
      replace (drop (b + (length pre + columns N1)) (all_offsets 0 G)) with (drop (length pre + 1 + (columns N1 - 1)) Y); [exact Hr2|].
      unfold Y. rewrite drop_drop. f_equal. lia.
Qed.
End plain.
End text.
