(* ===== verification/RowJoin.v ===== *)
(** * Text that joins the glyph before it

    The part of [ReplaceText] for text that starts with a character that is not ASCII: it may
    belong to the grapheme cluster in the column before. Then all of
    [ReplaceText] refines its plan on the glyphs of a row, and [CodepointWidthDetector] keeps
    what the rows expect of a detector. *)

From stdpp Require Import gmap.
From S2P Require Import Prelude LineRenditions InputEvents TextAttributes Rle RleRefinement ImageSlice Graphemes GraphemeTheorems Row RowSpec RowWrite RowInit RowReplace RowText.

Implicit Types (G A B N : list glyph) (g : glyph) (r : ROW) (h : WriteHelper).

(** ** The glyph before a column *)
Lemma take_columns_within n A g B : glyphs_ok A -> (columns A <= n < columns A + glyph_width g)%nat -> take_columns n (A ++ g :: B) = A.
Proof.
  intros HA. revert n. induction HA as [|g' A [_ Hg'] _ IH]; intros n Hn; cbn [columns app take_columns] in *.
  - by rewrite (proj2 (Nat.leb_gt _ _)) by lia.
  - rewrite (proj2 (Nat.leb_le _ _)) by lia. f_equal. apply IH. lia.
Qed.

Lemma next_column_past until A g B : glyphs_ok (A ++ g :: B) -> (columns A < until <= columns (A ++ g :: B))%nat ->
  (columns A + glyph_width g <= next_column until (A ++ g :: B))%nat.
Proof.
  intros HG Hu. destruct (next_column_split until _ HG ltac:(lia)) as (A0 & HA0 & HcA0 & HN).
  assert (Hok : glyphs_ok A /\ glyphs_ok A0).
  { split; [by apply glyphs_ok_app in HG as [? _]|]. rewrite HA0 in HG. by apply glyphs_ok_app in HG as [? _]. }
  destruct (prefix_of_columns A A0 (g :: B) _ HA0 (proj1 Hok) (proj2 Hok) ltac:(lia)) as (R & HR).
  rewrite HR, <- app_assoc in HA0. apply app_inv_head in HA0. destruct R as [|g' R]; [rewrite HR, columns_app in HcA0; cbn in HcA0; lia|].
  injection HA0 as <- _. rewrite <- HcA0, HR, columns_app. cbn [columns]. lia.
Qed.

Lemma previous_cases b G : glyphs_ok G -> (0 < b <= columns G)%nat ->
  (exists g, take_columns b G = take_columns (b - 1) G ++ [g] /\ start_column b G = b) \/
  (exists g, take_columns b G = take_columns (b - 1) G /\ start_column b G = (b - 1)%nat /\ G = take_columns b G ++ g :: drop_columns b G).
Proof.
  intros HG Hb. unfold start_column. destruct (columns_split b G HG ltac:(lia)) as [[HE Hc]|(g & HE & Hc)].
  - left. set (T := take_columns b G) in *. destruct T as [|g0 T0] using rev_ind; [cbn in Hc; lia|]. clear IHT0. exists g0. split; [|done].
    f_equal. symmetry. rewrite HE. rewrite HE in HG. rewrite <- app_assoc in *. apply glyphs_ok_app in HG as [H1 H2]. rewrite columns_app in Hc.
    cbn [columns app] in *. inversion H2 as [|? ? [_ Hg] _]; subst. apply take_columns_within; [done|lia].
  - right. exists g. assert (Hg : glyph_ok g) by (rewrite HE in HG; apply glyphs_ok_app in HG as [_ HG]; by inversion HG). destruct Hg as [_ Hg].
    set (T := take_columns b G) in *. split; [|split; [lia|done]]. symmetry. rewrite HE. apply take_columns_within; [|lia].
    rewrite HE in HG. by apply glyphs_ok_app in HG as [? _].
Qed.

(** The text that is compared with the new text, and what of it stays: a wide glyph whose
    second half is overwritten has become space. *)
Definition previous_text (b : nat) G : wstring :=
  take (Z.to_nat (chars_of (cut_before b G) - chars_of (take_columns (b - 1) G))) (drop (length (text_of (take_columns (b - 1) G))) (text_of G)).
Definition kept_before (b : nat) G : wstring :=
  if (start_column b G <? b)%nat then [0x20] else drop (length (text_of (take_columns (b - 1) G))) (text_of (take_columns b G)).

Lemma kept_before_spec b G : glyphs_ok G -> (b <= columns G)%nat ->
  text_of (cut_before b G) = text_of (take_columns (b - 1) G) ++ kept_before b G.
Proof.
  intros HG Hb. unfold cut_before, kept_before. rewrite text_of_app, text_of_space. destruct (decide (b = 0)%nat) as [->|Hne].
  - cbn [Nat.sub]. unfold start_column. rewrite take_columns_0 by done. done.
  - destruct (previous_cases b G HG ltac:(lia)) as [(g & HT & Hs)|(g & HT & Hs & _)].
    + rewrite (proj2 (Nat.ltb_ge _ _)) by lia. rewrite Hs, Nat.sub_diag. cbn [replicate]. rewrite app_nil_r, HT, text_of_app. by rewrite drop_app_length.
    + rewrite (proj2 (Nat.ltb_lt _ _)) by lia. rewrite Hs, HT. replace (b - (b - 1))%nat with 1%nat by lia. done.
Qed.

Lemma previousLoop_spec r G b fuel : entries_from 0 r G -> (b <= columns G)%nat -> (b < fuel)%nat ->
  previousLoop fuel (Z.of_nat b) r = Some (Z.of_nat (start_column (b - 1) G)).
Proof.
  intros HE Hb Hf. pose proof HE as (HG & _). destruct fuel as [|fuel]; [lia|]. cbn [previousLoop]. rewrite Z.gtb_ltb.
  destruct (Z.ltb_spec 0 (Z.of_nat b)) as [Hpos|Hz].
  2:{ unfold start_column. replace b with 0%nat by lia. cbn [Nat.sub]. by rewrite take_columns_0. }
  replace (Z.of_nat b - 1) with (Z.of_nat (b - 1)) by lia. unfold start_column.
  destruct (columns_split (b - 1) G HG ltac:(lia)) as [[HS Hc]|(g & HS & Hc)].
  - destruct (entry_start 0 r G HE _ _ HS ltac:(lia)) as [_ Ht]. rewrite Hc in *. by rewrite Ht.
  - assert (Hg : glyph_ok g) by (rewrite HS in HG; apply glyphs_ok_app in HG as [_ HG]; by inversion HG). destruct Hg as [_ Hg].
    destruct (entry_trailer 0 r G HE _ _ _ 1 HS ltac:(lia) ltac:(lia)) as [_ Ht].
    replace (Z.of_nat (b - 1)) with (Z.of_nat (columns (take_columns (b - 1) G) + 1)) by lia. rewrite Ht. cbn [mbind option_bind].
    destruct fuel as [|fuel]; [lia|]. cbn [previousLoop]. rewrite Z.gtb_ltb, (proj2 (Z.ltb_lt _ _)) by lia.
    destruct (entry_start 0 r G HE _ _ HS ltac:(lia)) as [_ Ht'].
    replace (Z.of_nat (columns (take_columns (b - 1) G) + 1) - 1) with (Z.of_nat (columns (take_columns (b - 1) G))) by lia. by rewrite Ht'.
Qed.

(** ** The state after a joined glyph *)
Section joined.
Context (G : list glyph) (b limit : nat) (data : Z) (text : wstring) (HG : glyphs_ok G) (Hb : (b < limit <= columns G)%nat)
  (Hm : chars_of G <= CharOffsetsMask) (H32 : Z.of_nat (columns G) <= 0x7fff).
Let h := helper_at G b limit data text.
Let A := take_columns (b - 1) G.

(** The helper once [joinPrevious] has moved it to the glyph before. *)
Definition joined_helper : WriteHelper := set_colEnd (Z.of_nat (columns A)) (set_colBegDirty (Z.of_nat (columns A)) h).

Lemma previous_ok : glyphs_ok A /\ (columns A <= b)%nat /\ chars_of A + Z.of_nat (length (kept_before b G)) = chBeg h /\ (exists B, G = A ++ B).
Proof.
  assert (Hb' : (b <= columns G)%nat) by lia. split_and!.
  - apply take_columns_ok; [done|lia].
  - pose proof (start_column_le (b - 1) G HG ltac:(lia)) as Hs. unfold start_column in Hs. fold A in Hs. lia.
  - pose proof (f_equal length (kept_before_spec b G HG Hb')) as Hl. rewrite length_app in Hl. fold A in Hl.
    pose proof (chars_cut_before b G). cbn [h helper_at chBeg]. lia.
  - apply take_columns_prefix; [done|lia].
Qed.

Lemma joined_state J N until consumed : glyphs_ok (J :: N) -> (columns A + columns (J :: N) <= until)%nat -> (until <= columns G)%nat -> (b <= next_column until G)%nat ->
  0 <= consumed <= Z.of_nat (length text) -> text_of (J :: N) = kept_before b G ++ take (Z.to_nat consumed) text ->
  exists X Y V, write_state G (A ++ J :: N) until (wrote joined_helper (J :: N) until consumed) (entries_with G (columns A) (chars_of A) (J :: N)) X Y V
    (text_of (take_columns b G)).
Proof.
  intros HJ Hu Hu' Hbu Hcons Htext. destruct previous_ok as (HA & HcA & Hch & B & HE). assert (Hb' : (b <= columns G)%nat) by lia.
  pose proof (length_all_offsets 0 G HG) as HlO. pose proof (kept_before_spec b G HG Hb') as Hkept. fold A in Hkept.
  assert (HX : take (columns A) (all_offsets 0 G) = offsets 0 A).
  { rewrite HE, all_offsets_app, <- (length_offsets 0 A HA). apply take_app_length. }
  assert (HcW : columns (A ++ J :: N) = (columns A + columns (J :: N))%nat) by apply columns_app.
  assert (HtW : text_of (A ++ J :: N) = text_of (take_columns b G) ++ replicate (b - start_column b G) 0x20 ++ take (Z.to_nat consumed) text).
  { rewrite text_of_app, Htext, app_assoc, <- Hkept. unfold cut_before. by rewrite text_of_app, text_of_space, <- app_assoc. }
  assert (Hst : (start_column b G <= b)%nat) by (by apply start_column_le). inversion HJ as [|? ? [_ HwJ] HN]; subst.
  assert (Hl : (b - start_column b G <= 1)%nat /\ ((b - start_column b G = 1)%nat -> take_columns b G = A)).
  { destruct (decide (b = 0)%nat); [lia|]. destruct (previous_cases b G HG ltac:(lia)) as [(g & _ & Hs)|(g & HT & Hs & _)]; [lia|]. split; [lia|done]. }
  destruct Hl as [Hl1 Hl2].
  exists (offsets 0 A), (take (b - start_column b G) (offsets (chars_of A) (J :: N) ++ drop (columns A + columns (J :: N)) (all_offsets 0 G))),
    (drop (b - start_column b G) (offsets (chars_of A) (J :: N) ++ drop (columns A + columns (J :: N)) (all_offsets 0 G))).
  constructor; cbn [wrote joined_helper h helper_at leadingSpaces chBegDirty colBegDirty chBeg charsConsumed chars colEnd colEndDirty set_charsConsumed
    set_colEndDirty set_colEnd set_colBegDirty]; rewrite ?Nat2Z.id, ?HcW.
  - unfold entries_with. by rewrite HX, take_drop.
  - rewrite length_take, length_app, length_offsets by done. cbn [columns]. lia.
  - by rewrite length_offsets.
  - rewrite offsets_app, <- app_assoc, Z.add_0_l. f_equal. destruct (b - start_column b G)%nat as [|[|n]] eqn:Hn; [done| |lia].
    rewrite Hl2 by done. cbn [offsets app drop]. f_equal. change (iota_n (Z.of_nat 1) (chars_of A)) with [u16 (chars_of A + 0)].
    cbn [app]. f_equal. rewrite Z.add_0_r. apply u16_small. pose proof (take_columns_chars (b - 1) G HG ltac:(lia)) as Hs. fold A in Hs. unfold CharOffsetsMask in *. lia.
  - apply kept_text; [done|lia|by apply take_columns_prefix|]. unfold start_column in Hst. lia.
  - done.
  - done.
  - lia.
  - done.
  - done.
  - by apply glyphs_ok_app.
  - lia.
  - done.
  - rewrite length_offsets, length_take, length_app, length_offsets by done. cbn [columns] in *. lia.
  - unfold entries_with. rewrite drop_app_ge, drop_app_ge by (rewrite ?length_take, ?length_offsets by done; lia).
    rewrite length_take, length_offsets by done. rewrite drop_drop. f_equal. lia.
Qed.
End joined.

(** ** [ReplaceText] on glyphs

    The plan of a write: the detector after it, the first column changed, the glyphs before the
    text and those of the text, and how much of the text they take. *)
Section plan.
Context `{Allocator} {D : Type} `{GraphemeLaws D} (isa : Intrinsics) (charsAddress : ROW -> Z).

Definition join_state (address : Z) (b : nat) G (data : Z) (text : wstring) (d : D) : option (D * GraphemeState) :=
  '(d, s, _) ← next_grapheme GraphemeState_init (address + chars_of (take_columns (b - 1) G)) (previous_text b G) d;
  '(d, s, _) ← next_grapheme s data text d;
  Some (d, s).

Definition unicode_plan (address : Z) (b limit : nat) G (data : Z) (text : wstring) (d : D) : option (D * nat * list glyph * list glyph * nat) :=
  '(d, s) ← join_state address b G data text d;
  if len s >? 0 then
    let A := take_columns (b - 1) G in
    let w := Z.to_nat (Z.max 1 (width s)) in
    if (columns A + w <=? limit)%nat then
      '(d, N, q) ← place_from (limit - (columns A + w)) data text (Z.to_nat (len s)) d;
      Some (d, columns A, A, mkGlyph (kept_before b G ++ take (Z.to_nat (len s)) text) w :: N, q)
    else Some (d, columns A, cut_before b G, [], 0%nat)
  else
    '(d, N, q) ← place_from (limit - b) data text 0 d;
    Some (d, start_column b G, cut_before b G, N, q).

Definition text_plan (address : Z) (b limit : nat) G (data : Z) (text : wstring) (d : D) : option (D * nat * list glyph * list glyph * nat) :=
  if starts_ascii text then
    '(d, N, q) ← text_glyphs (limit - b) data text d;
    Some (d, start_column b G, cut_before b G, N, q)
  else unicode_plan address b limit G data text d.

(** Where the columns written end: at the limit if text is left. *)
Definition plan_until (W : list glyph) (limit q : nat) (text : wstring) : nat := if (q =? length text)%nat then columns W else limit.

(** The strings are at different places in memory. *)
Definition apart (address : Z) G (data : Z) (text : wstring) : Prop :=
  0 < address /\ 0 < data /\ (data + Z.of_nat (length text) < address \/ address + chars_of G < data).

Section unicode.
Context (f : basic_rle TextAttribute * Z * LineRendition * bool * option ScrollbarData * option ImageSlice) (padded : bool) (unused : wstring)
  (G : list glyph) (b limit : nat) (data : Z) (text : wstring) (r : ROW) (d : D).
Context (HG : glyphs_ok G) (Hb : (b < limit <= columns G)%nat) (H32 : Z.of_nat (columns G) <= 0x7fff) (Hm : chars_of G <= CharOffsetsMask)
  (Hd : detector_ok d) (HtG : is_text (text_of G)) (Htext : is_text text) (Hne : text <> [])
  (Hr : holds f padded r (text_of G ++ unused) (all_offsets 0 G)) (Hcols : Z.of_nat (columns G) = _columnCount r)
  (Hapart : apart (charsAddress r) G data text).
Let h := helper_at G b limit data text.
Let A := take_columns (b - 1) G.

Lemma entries_now : entries_from 0 r G.
Proof. pose proof Hr as (_ & _ & (Hc & _) & _ & _ & HO). repeat split; try done; [lia|]. intros i _. by rewrite HO. Qed.

Lemma previous_text_spec : loads (_chars r) (chars_of A) (chBeg h - chars_of A) = Some (previous_text b G) /\
  (chars_of A + Z.of_nat (length (previous_text b G)) <= chars_of G) /\ is_text (previous_text b G).
Proof.
  assert (Hb' : (b <= columns G)%nat) by lia. destruct (previous_ok G b limit data text HG Hb) as (HA & HcA & Hch & B & HE). fold A in HA, HcA, Hch, HE. fold h in Hch.
  assert (HchB : chBeg h = chars_of (cut_before b G)) by (by rewrite chars_cut_before).
  pose proof (chars_cut_before_le b G HG Hb') as Hle. destruct HtG as [Hw Hlen].
  assert (Hl : length (previous_text b G) = Z.to_nat (chBeg h - chars_of A)).
  { unfold previous_text. fold A. rewrite length_take, length_drop, <- HchB. lia. }
  split_and!.
  - pose proof Hr as (_ & _ & _ & HC & _). rewrite HC. unfold loads. rewrite length_app. rewrite !(proj2 (Z.leb_le _ _)) by lia. cbn [andb]. f_equal.
    unfold previous_text. fold A. rewrite <- HchB, Nat2Z.id, drop_app_le, take_app_le by (rewrite ?length_drop; lia). done.
  - lia.
  - split; [|lia]. unfold previous_text. by apply Forall_take, Forall_drop.
Qed.

(** The state with which the detector comes to the new text. *)
Lemma join_state_spec : exists d' s, join_state (charsAddress r) b G data text d = Some (d', s) /\ detector_ok d' /\
  0 <= width s <= 2 /\ 0 <= len s <= Z.of_nat (length text).
Proof.
  destruct previous_text_spec as (_ & Hle & Hprev). destruct Hapart as (Ha & Hdata & Hsep). unfold join_state. fold A.
  set (addr := charsAddress r + chars_of A) in *.
  assert (Hlt : 0 < Z.of_nat (length text)) by (destruct text; [done|cbn; lia]).
  destruct (next_total d GraphemeState_init addr (previous_text b G) Hd (state_init d 0) Hprev) as (d1 & s1 & more1 & Hrun1 & Hd1 & Hs1 & _).
  assert (Hres : resume_at s1 data text = 0).
  { destruct (decide (previous_text b G = [])) as [Hnil|Hnn].
    - rewrite Hnil, next_empty in Hrun1 by done. injection Hrun1 as <- <- <-. unfold resume_at, resetIfOutOfRange. cbn [beg len GraphemeState_init].
      destruct (Z.ltb_spec (0 + 0) data), (Z.gtb_spec (0 + 0) (data + Z.of_nat (length text))); lia.
    - assert (Hln : 0 < Z.of_nat (length (previous_text b G))) by (destruct (previous_text b G); [done|cbn; lia]).
      assert (H0r : resume_at GraphemeState_init addr (previous_text b G) = 0).
      { unfold resume_at, resetIfOutOfRange. cbn [beg len GraphemeState_init].
        destruct (Z.ltb_spec (0 + 0) addr), (Z.gtb_spec (0 + 0) (addr + Z.of_nat (length (previous_text b G)))); lia. }
      destruct (next_within d GraphemeState_init addr _ d1 s1 more1 Hd (state_init d 0) Hprev Hrun1 ltac:(lia)) as [Hbeg Hlen].
      rewrite H0r in *. unfold resume_at, resetIfOutOfRange.
      destruct (Z.ltb_spec (beg s1 + len s1) data), (Z.gtb_spec (beg s1 + len s1) (data + Z.of_nat (length text))); lia. }
  rewrite Hrun1. cbn [mbind option_bind]. destruct (next_total d1 s1 data text Hd1 Hs1 Htext) as (d2 & s2 & more2 & Hrun2 & Hd2 & Hs2 & Hw2).
  rewrite Hrun2. cbn [mbind option_bind]. exists d2, s2.
  destruct (next_within d1 s1 data text d2 s2 more2 Hd1 Hs1 Htext Hrun2 ltac:(lia)) as [_ Hlen]. rewrite Hres in Hlen. split_and!; try done; lia.
Qed.

(** A helper that has written what the plan says. *)
Definition prepared (result : (ROW * D) * Outcome WriteHelper) (d' : D) (dirty : nat) (W : list glyph) (q : nat) : Prop :=
  exists r' h' O X Y V, result = ((r', d'), Ret h') /\ holds f padded r' (text_of G ++ unused) O /\
    write_state G W (plan_until W limit q text) h' O X Y V (text_of (take_columns b G)) /\
    charsConsumed h' = Z.of_nat q /\ colLimit h' = Z.of_nat limit /\ colBegDirty h' = Z.of_nat dirty.

Lemma chars_plan W q : text_of W = text_of (cut_before b G) ++ take q text -> (q <= length text)%nat -> chars_of W = chBeg h + Z.of_nat q.
Proof. intros Ht Hq. rewrite Ht, length_app, length_take. cbn [h helper_at chBeg]. pose proof (chars_cut_before b G). lia. Qed.

(** Glyphs written at the column of the helper. *)
Lemma prepared_plain result d' N q : text_written f padded (text_of G ++ unused) G b h text result d' N q -> glyphs_ok N -> (columns N <= limit - b)%nat ->
  (q <= length text)%nat -> text_of N = take q text -> chBeg h + Z.of_nat q <= CharOffsetsMask ->
  prepared result d' (start_column b G) (cut_before b G ++ N) q.
Proof.
  intros (r' & Hres & Hr') HN Hc Hq HtN Hmq. unfold CharOffsetsMask in Hmq.
  assert (HcW : columns (cut_before b G ++ N) = (b + columns N)%nat) by (rewrite columns_app, columns_cut_before by (done || lia); done).
  pose proof (placed_wrote h N b limit q (q =? length text)%nat eq_refl eq_refl ltac:(cbn; lia) ltac:(lia)) as Hp.
  pose proof (overwrite_state G b limit data text N (plan_until (cut_before b G ++ N) limit q text) (Z.of_nat q) HG HN) as HW. fold h in HW.
  unfold plan_until in *. rewrite HcW in HW. rewrite Nat2Z.id in HW.
  assert (Hbound : (b + columns N <= (if (q =? length text)%nat then b + columns N else limit) <= columns G)%nat) by (destruct (q =? length text)%nat; lia).
  specialize (HW ltac:(lia) ltac:(lia) ltac:(lia) HtN Hm H32). cbv zeta in HW. fold h in HW.
  eexists r', _, _, _, _, _. split; [rewrite Hres, Hp; reflexivity|]. split; [exact Hr'|]. unfold plan_until. rewrite HcW. split; [exact HW|]. done.
Qed.

Lemma join_fits w : (1 <= w <= 2)%nat -> (0 < b)%nat -> (columns A + w <= limit)%nat.
Proof. intros Hw Hpos. pose proof (start_column_le (b - 1) G HG ltac:(lia)) as Hs. unfold start_column in Hs. fold A in Hs. lia. Qed.

Lemma join_past until : (columns A < until <= columns G)%nat -> (b <= next_column until G)%nat.
Proof.
  intros Hu. pose proof (next_column_ge until G HG ltac:(lia)) as Hge. destruct (decide (b = 0)%nat); [lia|].
  destruct (previous_cases b G HG ltac:(lia)) as [(g & HT & Hs)|(g & HT & Hs & _)]; fold A in HT; unfold start_column in Hs.
  - destruct (take_columns_prefix b G HG ltac:(lia)) as (B & HE). rewrite HT in HE, Hs. rewrite <- app_assoc in HE. cbn [app] in HE.
    pose proof HG as HG'. rewrite HE in HG' |- *. rewrite columns_app in Hs. cbn [columns] in Hs.
    pose proof (next_column_past until A g B HG') as Hp. rewrite <- HE in Hp at 1. specialize (Hp Hu). lia.
  - rewrite HT in Hs. lia.
Qed.

(** The glyph the text joins, and what follows it. *)
Lemma prepared_joined d1 s w N q d' : detector_ok d1 -> 0 < len s <= Z.of_nat (length text) -> (1 <= w <= 2)%nat ->
  (columns A + w <= limit)%nat -> place_from (limit - (columns A + w)) data text (Z.to_nat (len s)) d1 = Some (d', N, q) ->
  glyphs_ok N -> (columns N <= limit - (columns A + w))%nat -> (Z.to_nat (len s) <= q <= length text)%nat ->
  text_of N = take (q - Z.to_nat (len s)) (drop (Z.to_nat (len s)) text) -> chBeg h + Z.of_nat q <= CharOffsetsMask ->
  let J := mkGlyph (kept_before b G ++ take (Z.to_nat (len s)) text) w in
  prepared ((h' ← on_row (writeGlyph (chars_of A) (Z.of_nat (columns A + w)) (joined_helper G b limit data text));
             clusters (chBeg h + len s) (len s) h') (r, d1)) d' (columns A) (A ++ J :: N) q.
Proof.
  intros Hd1 Hlen Hw Hfit Hplace HN HcN Hq HtN Hmq J. destruct (previous_ok G b limit data text HG Hb) as (HA & HcA & Hch & B & HE). fold A h in HA, HcA, Hch, HE.
  set (hj := joined_helper G b limit data text). unfold CharOffsetsMask in Hmq. pose proof (length_all_offsets 0 G HG) as HlO.
  pose proof Hr as Hr0. rewrite <- (entries_with_nil G (columns A) 0) in Hr0 by lia.
  destruct (writeGlyph_entries f padded r _ G (columns A) 0 (chars_of A) w hj Hr0 HG eq_refl) as (r1 & Hrun1 & Hr1); [lia|lia|lia|unfold CharOffsetsMask; lia|].
  rewrite (run_bind _ _ _ _ _ (run_on_row _ _ d1 _ _ Hrun1)). set (h1 := set_colEnd (Z.of_nat (columns A + w)) hj).
  rewrite app_assoc in Hr1. assert (HlX : length (take (columns A) (all_offsets 0 G) ++ entry (chars_of A) w) = (columns A + w)%nat).
  { rewrite length_app, length_take. unfold entry. cbn [length]. rewrite length_replicate. lia. }
  rewrite <- (Z2Nat.id (len s)) by lia.
  assert (HcN' : chars_of N = Z.of_nat (q - Z.to_nat (len s))) by (rewrite HtN, length_take, length_drop; lia).
  destruct (clusters_spec f padded (text_of G ++ unused) _ _ (limit - (columns A + w)) (Z.to_nat (len s)) d1 h1 r1 d' N q (chBeg h + Z.of_nat (Z.to_nat (len s))) Hd1 Htext
    ltac:(cbn [h1 hj chars set_colEnd joined_helper set_colBegDirty helper_at]; lia) Hplace Hr1) as (r2 & Hrun2 & Hr2).
  - by rewrite HlX.
  - rewrite HlX. change (colLimit h1) with (Z.of_nat limit). lia.
  - rewrite length_drop. lia.
  - rewrite HlX. lia.
  - lia.
  - unfold CharOffsetsMask. lia.
  - assert (HtJ : text_of (J :: N) = kept_before b G ++ take q text).
    { rewrite text_of_cons, HtN. cbn [J glyph_text]. rewrite <- app_assoc. f_equal. rewrite <- (take_drop (Z.to_nat (len s)) (take q text)).
      rewrite take_take, Nat.min_l, skipn_firstn_comm by lia. done. }
    assert (HokJ : glyphs_ok (J :: N)).
    { constructor; [|done]. split; [|done]. cbn [J glyph_text]. intros Hnil. apply (f_equal length) in Hnil. rewrite length_app, length_take in Hnil. cbn in Hnil. lia. }
    assert (HcW : columns (A ++ J :: N) = (columns A + w + columns N)%nat) by (rewrite columns_app; cbn [columns J glyph_width]; lia).
    set (until := plan_until (A ++ J :: N) limit q text).
    assert (Hbound : (columns A + w + columns N <= until <= limit)%nat) by (unfold until, plan_until; rewrite HcW; destruct (q =? length text)%nat; lia).
    assert (Hpast : (b <= next_column until G)%nat) by (apply join_past; lia).
    destruct (joined_state G b limit data text HG Hb Hm J N until (Z.of_nat q) HokJ) as (X & Y & V & HW);
      [fold A; cbn [columns J glyph_width]; lia|lia|done|lia|by rewrite Nat2Z.id|]. fold A in HW.
    pose proof (placed_wrote hj (J :: N) (columns A) limit q (q =? length text)%nat eq_refl eq_refl ltac:(cbn; lia) ltac:(cbn [hj joined_helper chBeg set_colEnd set_colBegDirty]; fold h; lia)) as Hp.
    exists r2, (wrote hj (J :: N) until (Z.of_nat q)), (entries_with G (columns A) (chars_of A) (J :: N)), X, Y, V.
    split_and!; try done.
    + rewrite Hrun2. change (chars h1) with text. unfold until, plan_until in *. rewrite HcW.
      replace (columns A + w + columns N)%nat with (columns A + columns (J :: N))%nat by (cbn [columns J glyph_width]; lia).
      change (chBeg hj) with (chBeg h) in Hp. rewrite <- Hp. unfold placed.
      replace (chBeg h + Z.of_nat (Z.to_nat (len s)) + Z.of_nat (q - Z.to_nat (len s))) with (chBeg h + Z.of_nat q) by lia.
      change (colEnd h1) with (Z.of_nat (columns A + w)). change (colEnd hj) with (Z.of_nat (columns A)).
      replace (Z.of_nat (columns A + w) + Z.of_nat (columns N)) with (Z.of_nat (columns A) + Z.of_nat (columns (J :: N))) by (cbn [columns J glyph_width]; lia). done.
    + unfold entries_with. cbn [offsets columns J glyph_width glyph_text]. rewrite length_app, length_take.
      replace (chars_of A + Z.of_nat (length (kept_before b G) + Z.to_nat (len s) `min` length text)) with (chBeg h + Z.of_nat (Z.to_nat (len s))) by lia.
      rewrite <- !app_assoc, drop_drop in Hr2. unfold entry in Hr2. rewrite <- app_comm_cons in Hr2 |- *. rewrite <- app_assoc. rewrite Nat.add_assoc. exact Hr2.
Qed.

(** What a plan promises. *)
Definition planned (plan : option (D * nat * list glyph * list glyph * nat)) (run : (ROW * D) * Outcome WriteHelper) : Prop :=
  exists d' dirty P N q, plan = Some (d', dirty, P, N, q) /\ detector_ok d' /\ glyphs_ok (P ++ N) /\ (columns (P ++ N) <= limit)%nat /\
    (q <= length text)%nat /\ text_of (P ++ N) = text_of (cut_before b G) ++ take q text /\ (q = length text \/ limit - columns (P ++ N) <= 1)%nat /\
    (chars_of (P ++ N) <= CharOffsetsMask -> prepared run d' dirty (P ++ N) q).

Lemma planned_plain (plan : option (D * list glyph * nat)) run d' N q : plan = Some (d', N, q) -> detector_ok d' -> glyphs_ok N -> (columns N <= limit - b)%nat ->
  (q <= length text)%nat -> text_of N = take q text -> (q = length text \/ limit - b - columns N <= 1)%nat ->
  (chBeg h + Z.of_nat q <= CharOffsetsMask -> text_written f padded (text_of G ++ unused) G b h text run d' N q) ->
  planned ('(d, N, q) ← plan; Some (d, start_column b G, cut_before b G, N, q)) run.
Proof.
  intros -> Hd' HN Hc Hq HtN Hfull Hrun. cbn [mbind option_bind]. exists d', (start_column b G), (cut_before b G), N, q.
  assert (Hcut : glyphs_ok (cut_before b G)) by (unfold cut_before; apply glyphs_ok_app; split; [apply take_columns_ok; [done|lia]|apply glyphs_ok_space]).
  assert (HcW : columns (cut_before b G ++ N) = (b + columns N)%nat) by (rewrite columns_app, columns_cut_before by (done || lia); done).
  assert (HtW : text_of (cut_before b G ++ N) = text_of (cut_before b G) ++ take q text) by (by rewrite text_of_app, HtN).
  pose proof (chars_plan _ _ HtW Hq) as Hchars. split_and!; try done; [by apply glyphs_ok_app|lia|lia|]. intros Hmq. rewrite Hchars in Hmq. apply prepared_plain; auto.
Qed.

(** Clusters from the beginning of the text. *)
Lemma planned_clusters d1 : detector_ok d1 ->
  planned ('(d, N, q) ← place_from (limit - b) data text 0 d1; Some (d, start_column b G, cut_before b G, N, q)) (clusters (chBeg h) 0 h (r, d1)).
Proof.
  intros Hd1. destruct (place_total (S (length text)) (limit - b) data text 0 (fresh_at data 0) d1 Hd1 Htext) as (d' & N & q & Hplace & Hd' & HN & Hc & Hq & HtN & Hfull);
    [split_and!; [apply state_init|cbn; lia|done]|lia|lia|]. rewrite drop_0, Nat.sub_0_r in HtN.
  apply (planned_plain _ _ d' N q Hplace); try done; [lia|]. intros Hmq. pose proof Hr as Hr0. rewrite <- (take_drop b (all_offsets 0 G)) in Hr0.
  destruct (all_offsets_at G b limit HG Hb) as [HlX HlY].
  assert (HcN : chars_of N = Z.of_nat q) by (rewrite HtN, length_take; lia).
  destruct (clusters_spec f padded _ _ _ (limit - b) 0 d1 h r d' N q (chBeg h) Hd1 Htext ltac:(lia) Hplace Hr0) as (r1 & Hrun & Hr1);
    [by rewrite HlX|rewrite HlX; cbn; lia|lia|lia|cbn; lia|lia|].
  exists r1. rewrite Nat.sub_0_r in Hrun. split; [exact Hrun|]. unfold entries_with. rewrite <- drop_drop. exact Hr1.
Qed.

(** [joinPrevious] up to the decision. *)
Lemma join_run d1 s : join_state (charsAddress r) b G data text d = Some (d1, s) ->
  joinPrevious charsAddress (chBeg h) h (r, d)
    = (if len s >? 0 then
         let h := joined_helper G b limit data text in
         let colEndNew := u16 (colEnd h + Z.max 1 (width s)) in
         if colEndNew >? colLimit h then mret (out_of_columns (chBeg h) h)
         else h' ← on_row (writeGlyph (chars_of A) colEndNew h); clusters (chBeg h + len s) (len s) h'
       else clusters (chBeg h) 0 h) (r, d1).
Proof.
  unfold join_state. fold A. intros Hjoin. destruct (next_grapheme GraphemeState_init _ _ d) as [[[d0 s0] m0]|] eqn:Hn0; [|done]. cbn [mbind option_bind] in Hjoin.
  destruct (next_grapheme s0 data text d0) as [[[d2 s2] m2]|] eqn:Hn2; [|done]. cbn [mbind option_bind] in Hjoin. injection Hjoin as -> ->.
  destruct (previous_ok G b limit data text HG Hb) as (HA & HcA & _ & B & HE). fold A in HA, HcA, HE. unfold joinPrevious.
  pose proof (previousLoop_spec r G b (S (Z.to_nat (colBeg h))) entries_now ltac:(lia) ltac:(cbn; lia)) as Hprev. unfold start_column in Hprev. fold A in Hprev.
  rewrite (run_on_row_reads _ _ r d _ Hprev). destruct (entry_start 0 r G entries_now A B HE ltac:(lia)) as [Hoff _].
  rewrite (run_on_row_reads _ _ r d _ Hoff). destruct previous_text_spec as (Hload & _). 
  rewrite (run_on_row_reads (fun r => loads (_chars r) (chars_of A) (chBeg h - chars_of A)) _ r d _ Hload).
  rewrite (run_bind _ _ _ (r, d) (charsAddress r)) by done.
  rewrite (run_measure _ _ _ r d _ _ _ _ Hn0). change (charsData h) with data. change (chars h) with text.
  rewrite (run_measure _ _ _ r d0 _ _ _ _ Hn2). done.
Qed.

Lemma unicode_spec : planned (unicode_plan (charsAddress r) b limit G data text d) (joinPrevious charsAddress (chBeg h) h (r, d)).
Proof.
  destruct join_state_spec as (d1 & s & Hjoin & Hd1 & Hw & Hlen). unfold unicode_plan. rewrite Hjoin. cbn [mbind option_bind].
  assert (Hrun : joinPrevious charsAddress (chBeg h) h (r, d)
    = (if len s >? 0 then
         let h := joined_helper G b limit data text in
         let colEndNew := u16 (colEnd h + Z.max 1 (width s)) in
         if colEndNew >? colLimit h then mret (out_of_columns (chBeg h) h)
         else h' ← on_row (writeGlyph (chars_of A) colEndNew h); clusters (chBeg h + len s) (len s) h'
       else clusters (chBeg h) 0 h) (r, d1)).
  { apply join_run. exact Hjoin. }
  rewrite Hrun. clear Hrun. rewrite Z.gtb_ltb. destruct (Z.ltb_spec 0 (len s)) as [Hpos|Hzero]; [|by apply planned_clusters].
  set (w := Z.to_nat (Z.max 1 (width s))). assert (Hw12 : (1 <= w <= 2)%nat) by lia. cbv zeta. fold A.
  change (colEnd (joined_helper G b limit data text)) with (Z.of_nat (columns A)). change (colLimit (joined_helper G b limit data text)) with (Z.of_nat limit).
  change (chBeg (joined_helper G b limit data text)) with (chBeg h). replace (Z.max 1 (width s)) with (Z.of_nat w) by lia.
  destruct (previous_ok G b limit data text HG Hb) as (HA & HcA & Hch & B & HE). fold A in HA, HcA, Hch, HE. fold h in Hch.
  rewrite u16_small, <- Nat2Z.inj_add, Z.gtb_ltb by lia. destruct (Nat.leb_spec (columns A + w) limit) as [Hfit|Hcut].
  - rewrite (proj2 (Z.ltb_ge _ _)) by lia.
    destruct (place_total (S (length text)) (limit - (columns A + w)) data text (Z.to_nat (len s)) (fresh_at data (Z.to_nat (len s))) d1 Hd1 Htext)
      as (d' & N & q & Hplace & Hd' & HN & HcN & Hq & HtN & Hfull); [split_and!; [apply state_init|cbn; lia|done]|lia|lia|].
    unfold place_from. rewrite Hplace. cbn [mbind option_bind]. set (J := mkGlyph _ w). exists d', (columns A), A, (J :: N), q.
    assert (HtW : text_of (A ++ J :: N) = text_of (cut_before b G) ++ take q text).
    { rewrite text_of_app, text_of_cons, HtN, (kept_before_spec b G HG) by lia. fold A. cbn [J glyph_text]. rewrite <- !app_assoc. do 2 f_equal.
      rewrite <- (take_drop (Z.to_nat (len s)) (take q text)), take_take, Nat.min_l, skipn_firstn_comm by lia. done. }
    pose proof (chars_plan _ _ HtW ltac:(lia)) as Hchars. split_and!; try done.
    + apply glyphs_ok_app. split; [done|]. constructor; [|done]. split; [|done]. cbn [J glyph_text]. intros Hnil.
      apply (f_equal length) in Hnil. rewrite length_app, length_take in Hnil. cbn in Hnil. lia.
    + rewrite columns_app. cbn [columns J glyph_width]. lia.
    + lia.
    + destruct Hfull as [?|Hfull]; [by left|right]. rewrite columns_app. cbn [columns J glyph_width]. lia.
    + intros Hmq. rewrite Hchars in Hmq. apply (prepared_joined d1 s w N q d'); try done; lia.
  - destruct (decide (b = 0)%nat) as [Hb0|Hbn]; [|pose proof (join_fits w Hw12 ltac:(lia)); lia].
    rewrite (proj2 (Z.ltb_lt _ _)) by lia.
    assert (HA0 : A = []) by (unfold A; rewrite Hb0; by apply take_columns_0).
    assert (Hst : start_column b G = 0%nat) by (unfold start_column; rewrite Hb0, take_columns_0 by done; done).
    assert (Hhj : joined_helper G b limit data text = h).
    { unfold joined_helper. fold A h. rewrite HA0. unfold h, helper_at. rewrite Hst, Hb0. done. }
    rewrite Hhj. replace (columns A) with (start_column b G) by (by rewrite HA0, Hst).
    apply (planned_plain (Some (d1, [], 0%nat)) _ d1 [] 0%nat eq_refl Hd1); [constructor|cbn; lia|lia|done|right; cbn [columns]; lia|]. intros _. exists r. split.
    + rewrite Z.add_0_r. destruct (Nat.eqb_spec 0 (length text)); [lia|]. unfold placed. cbn [columns]. rewrite Z.add_0_r. done.
    + rewrite entries_with_nil by lia. exact Hr.
Qed.

Lemma text_plan_spec : planned (text_plan (charsAddress r) b limit G data text d) (WriteHelper_ReplaceText charsAddress h (r, d)).
Proof.
  unfold text_plan, WriteHelper_ReplaceText. change (chars h) with text. replace (Z.to_nat (colLimit h - colBeg h)) with (limit - b)%nat by (cbn; lia).
  destruct (ascii_split (take (limit - b) text)) as (pre & rest & Hsplit & Hpre & Hrest).
  assert (Hln : length (take (limit - b) text) = ((limit - b) `min` length text)%nat) by (rewrite length_take; lia).
  assert (Hcons : exists c0 text0, text = c0 :: text0) by (revert Hne; case text; [done|eauto]). destruct Hcons as (c0 & text0 & Htx).
  assert (Hc0 : take (limit - b) text = c0 :: take (limit - b - 1) text0).
  { rewrite Htx. destruct (limit - b)%nat eqn:Hn; [lia|]. cbn. by rewrite Nat.sub_0_r. }
  assert (Hascii : starts_ascii text = (c0 <? 0x80)) by (by rewrite Htx). rewrite Hascii. destruct (Z.ltb_spec c0 0x80) as [Hc|Hc].
  - unfold text_glyphs. destruct rest as [|c rest].
    + rewrite app_nil_r in Hsplit. rewrite Hsplit in *. rewrite (proj2 (forallb_ascii pre) Hpre).
      eapply (planned_plain _ _ d (ascii_glyphs pre) (length pre)); [done|done|apply glyphs_ok_ascii|rewrite columns_ascii; lia|lia|..].
      * rewrite text_of_ascii, <- Hsplit, length_take. symmetry.
        destruct (Nat.min_spec (limit - b) (length text)) as [[_ ->]|[? ->]]; [done|]. by rewrite !take_ge by lia.
      * rewrite columns_ascii. lia.
      * intros Hmq. by apply all_ascii_spec.
    + assert (Hfb : forallb (fun c => c <? 0x80) (take (limit - b) text) = false).
      { apply not_true_is_false. intros Ht%forallb_ascii. rewrite Hsplit in Ht. apply Forall_app in Ht as [_ Ht]. inversion Ht. lia. }
      rewrite Hfb. destruct (place_total (S (length text)) (limit - b) data text 0 (fresh_at data 0) d Hd Htext) as (d' & N & q & Hplace & Hd' & HN & HcN & Hq & HtN & Hfull);
        [split_and!; [apply state_init|cbn; lia|done]|lia|lia|]. rewrite drop_0, Nat.sub_0_r in HtN.
      apply (planned_plain _ _ d' N q Hplace); try done; [lia|]. intros Hmq.
      destruct pre as [|c1 pre] using rev_ind; [cbn in Hsplit; rewrite Hc0 in Hsplit; injection Hsplit as -> _; lia|]. clear IHpre.
      set (rest' := rest ++ drop (limit - b) text). assert (Ht : text = pre ++ c1 :: c :: rest').
      { unfold rest'. rewrite <- (take_drop (limit - b) text) at 1. rewrite Hsplit, <- !app_assoc. done. }
      assert (Hlp : (length pre + 2 <= limit - b)%nat).
      { rewrite Hsplit, !length_app in Hln. cbn [length] in Hln. lia. }
      assert (Htk : take (limit - b) text = (pre ++ [c1]) ++ take (limit - b - S (length pre)) (c :: rest')).
      { rewrite Ht. change (pre ++ c1 :: c :: rest') with (pre ++ [c1] ++ c :: rest'). rewrite app_assoc, take_app_ge by (rewrite length_app; cbn; lia).
        rewrite length_app. cbn [length]. by rewrite Nat.add_1_r. }
      rewrite Htk. apply (mixed_text_spec charsAddress f padded _ G b limit data text r d HG Hb H32 Hd Htext Hr pre c1 c rest' d' N q); try done; lia.
  - rewrite Hc0. cbn [asciiLoop]. rewrite Z.geb_leb, (proj2 (Z.leb_le _ _)) by lia. apply unicode_spec.
Qed.
End unicode.
End plan.

(** ** Rows: text

    [ReplaceText] refines the plan of [RowJoin] on the glyphs of a row. *)

Section replace_text.
Context `{Allocator} {D : Type} `{GraphemeLaws D} (isa : Intrinsics) (charsAddress : ROW -> Z).

(** The row after a plan, and what the caller is told. *)
Definition planned_row (limit : nat) G (text : wstring) (W : list glyph) (q : nat) : list glyph := finished G W (plan_until W limit q text).
Definition planned_state (state : RowWriteState) (limit dirty : nat) G (W : list glyph) (q : nat) : RowWriteState :=
  mkWriteState (textData state + Z.of_nat q) (drop q (text state)) (columnBegin state) (columnLimit state)
    (match drop q (text state) with [] => Z.of_nat (columns W) | _ => Z.of_nat limit end) (Z.of_nat dirty)
    (Z.of_nat (next_column (plan_until W limit q (text state)) G)).

Lemma or_reset_text_finish {T} (m : M (ROW * D) T) r l d (a : T) d' G padded : attributes r l ->
  (let '((r', d''), o) := m (r, d) in d'' = d' /\
   ((o = Ret a /\ shows r' G /\ frame r' = frame r /\ _doubleBytePadded r' = padded) \/
    (o = Throw /\ lent r' /\ frame r' = frame r /\ exists n, allocate n = None))) ->
  let '((r', d''), o) := or_reset_text isa m (r, d) in d'' = d' /\ writes_or_resets r a G padded (r', o).
Proof.
  intros Ha Hm. unfold or_reset_text, try_catch. destruct (m (r, d)) as [[r1 d1] o] eqn:Hrun.
  destruct Hm as [-> [(-> & Hs & Hf & Hp)|(-> & Hl & Hf & Halloc)]]; [split; [done|by left]|].
  destruct (or_reset_throw (T := T) isa (fun _ => (r1, Throw)) r l r1 Ha eq_refl Hl Hf) as (r2 & Hrun2 & Hreset).
  unfold or_reset, try_catch in Hrun2. destruct (Reset isa TextAttribute_ctor r1) as [r3 o3] eqn:Hr3.
  cbv [mbind M_bind throw] in Hrun2 |- *. unfold on_row. cbn [fst snd]. rewrite Hr3 in *. destruct o3; try done;
    injection Hrun2 as <-; (split; [done|]); right; done.
Qed.

Lemma drop_columns_end until G : glyphs_ok G -> (until <= columns G)%nat -> (next_column until G <= S until)%nat.
Proof.
  intros HG Hu. unfold next_column. destruct (columns_split until G HG Hu) as [[HE Hc]|(g & HE & Hc)]; apply (f_equal columns) in HE as HcE; rewrite columns_app in HcE.
  - lia.
  - assert (Hg : glyph_ok g) by (rewrite HE in HG; apply glyphs_ok_app in HG as [_ HG]; by inversion HG). destruct Hg as [_ Hg]. cbn [columns] in HcE. lia.
Qed.

(** The text of the row after a plan is not much longer than both texts. *)
Lemma planned_row_chars G W until b limit txt h O X Y V q : glyphs_ok G -> (b <= columns G)%nat ->
  write_state G W until h O X Y V (text_of (take_columns b G)) -> text_of W = text_of (cut_before b G) ++ take q txt -> (until <= limit)%nat ->
  (until = columns W \/ limit - columns W <= 1)%nat ->
  chars_of (finished G W until) <= chars_of G + Z.of_nat (length txt) + 3.
Proof.
  intros HG Hb HW HtW Hlim Hfull. destruct (ws_kept _ _ _ _ _ _ _ _ _ HW) as (rest & Hkept). apply (f_equal length) in Hkept. rewrite !length_app in Hkept.
  destruct (ws_bounds _ _ _ _ _ _ _ _ _ HW) as [HbW Hu]. pose proof (drop_columns_end until G HG Hu) as Hnext. unfold finished. rewrite !chars_of_app, text_of_space, length_replicate, HtW, length_app, length_take.
  pose proof (chars_cut_before b G) as Hcut. pose proof (start_column_le b G HG Hb) as Hst.
  assert (Hst1 : (b - start_column b G <= 1)%nat).
  { unfold start_column. destruct (columns_split b G HG Hb) as [[HE Hc]|(g & HE & Hc)]; [lia|].
    assert (Hg : glyph_ok g) by (rewrite HE in HG; apply glyphs_ok_app in HG as [_ HG']; by inversion HG'). destruct Hg as [_ Hg]. lia. }
  lia.
Qed.

(** [ReplaceText] does what its plan says. *)
Lemma replace_text_spec r G l d state : shows r G -> attributes r l -> detector_ok d -> is_text (text_of G) -> is_text (text state) ->
  text state <> [] -> apart (charsAddress r) G (textData state) (text state) ->
  chars_of G + Z.of_nat (length (text state)) + 3 <= CharOffsetsMask ->
  let b := clamped (columnBegin state) r in
  let limit := clamped (columnLimit state) r in
  (b < limit)%nat ->
  exists d' dirty P N q, text_plan (charsAddress r) b limit G (textData state) (text state) d = Some (d', dirty, P, N, q) /\ detector_ok d' /\ (columns (P ++ N) <= limit)%nat /\
    text_of (P ++ N) = text_of (cut_before b G) ++ take q (text state) /\ (q = length (text state) \/ limit - columns (P ++ N) <= 1)%nat /\
    let '((r', d''), o) := ReplaceText isa charsAddress state (r, d) in
    d'' = d' /\ writes_or_resets r (planned_state state limit dirty G (P ++ N) q) (planned_row limit G (text state) (P ++ N) q)
      (padded_after G (columns (P ++ N)) (plan_until (P ++ N) limit q (text state)) (_doubleBytePadded r)) (r', o).
Proof.
  intros Hs Ha Hd HtG Ht Hne Hapart Hbudget b limit Hb. pose proof Hs as ((H32 & _) & HG & HcG & HmG & _).
  pose proof (clamped_le (columnLimit state) r G Hs) as Hlim. fold limit in Hlim. destruct (shows_holds r G Hs) as (unused & Hr).
  destruct (text_plan_spec charsAddress _ _ unused G b limit (textData state) (text state) r d HG ltac:(lia) ltac:(lia) HmG Hd HtG Ht Hne Hr ltac:(lia) Hapart)
    as (d' & dirty & P & N & q & Hplan & Hd' & HokW & HcW & Hq & HtW & Hfull & Hprep).
  exists d', dirty, P, N, q. split; [exact Hplan|]. split; [done|]. split; [done|]. split; [exact HtW|]. split; [exact Hfull|]. set (W := P ++ N) in *. set (until := plan_until W limit q (text state)) in *.
  destruct Hprep as (r1 & h1 & O & X & Y & V & Hrun & Hr1 & HW & Hcons & Hcl & Hdirty).
  { rewrite HtW, length_app, length_take. pose proof (chars_cut_before_le b G HG ltac:(lia)). lia. }
  assert (Hm : chars_of (planned_row limit G (text state) W q) <= CharOffsetsMask).
  { etransitivity; [|exact Hbudget]. apply (planned_row_chars G W until b limit _ _ _ _ _ _ _ HG ltac:(lia) HW HtW).
    - unfold until, plan_until. destruct (_ =? _)%nat; lia.
    - unfold until, plan_until. destruct (Nat.eqb_spec q (length (text state))); lia. }
  unfold ReplaceText. apply (or_reset_text_finish _ r l d); [done|].
  rewrite (run_on_row_reads _ _ r d _ (ctor_spec r G (columnBegin state) (columnLimit state) (textData state) (text state) Hs)). fold b limit.
  rewrite IsValid_helper, (proj2 (Nat.ltb_lt _ _)) by done. cbn [negb]. rewrite (run_bind _ _ _ _ _ Hrun).
  pose proof (finish_spec G W until h1 O X Y V _ HW HG Hr1) as HF. destruct Hr1 as (Hf1 & _). destruct (frame_parts _ _ Hf1) as [_ Hc1].
  specialize (HF ltac:(by rewrite Hc1) HmG Hm). destruct (Finish h1 r1) as [r2 o2] eqn:Hfin.
  destruct HF as [(-> & Hs2 & Hf2 & Hp2)|(-> & Hl2 & Hf2 & Halloc)].
  - rewrite (run_bind _ _ _ _ _ (run_on_row _ _ d' _ _ Hfin)). cbv zeta. cbn [charsConsumed colEnd colLimit colBegDirty colEndDirty set_colEndDirty].
    rewrite Hcons, Hcl, Hdirty, (ws_colEnd _ _ _ _ _ _ _ _ _ HW), Nat2Z.id. split; [done|]. left. done.
  - rewrite (run_throw _ _ _ _ (run_on_row _ _ d' _ _ Hfin)). split; [done|]. right. done.
Qed.

(** Without columns or text there is nothing to write. *)
Lemma replace_text_nothing r G d state : shows r G -> (clamped (columnLimit state) r <= clamped (columnBegin state) r)%nat \/ text state = [] ->
  ReplaceText isa charsAddress state (r, d) = ((r, d), Ret (mkWriteState (textData state) (text state) (columnBegin state) (columnLimit state)
    (Z.of_nat (clamped (columnBegin state) r)) (Z.of_nat (clamped (columnBegin state) r)) (Z.of_nat (clamped (columnBegin state) r)))).
Proof.
  intros Hs Hno. unfold ReplaceText, or_reset_text, try_catch.
  rewrite (run_on_row_reads _ _ r d _ (ctor_spec r G (columnBegin state) (columnLimit state) (textData state) (text state) Hs)).
  assert (Hv : IsValid (helper_at G (clamped (columnBegin state) r) (clamped (columnLimit state) r) (textData state) (text state)) = false).
  { unfold IsValid. cbn [helper_at colBeg colLimit chars]. destruct Hno as [Hle| ->]; [|by rewrite andb_false_r]. rewrite (proj2 (Z.ltb_ge _ _)) by lia. done. }
  rewrite Hv. done.
Qed.
End replace_text.

(** ** The row's detector of grapheme clusters

    [CodepointWidthDetector] keeps what the rows expect of a detector ([RowText.GraphemeLaws]). *)

#[export] Instance detector_next : GraphemeDetector CodepointWidthDetector := GraphemeNext.

#[export, refine] Instance detector_laws : GraphemeLaws CodepointWidthDetector := {
  detector_ok := is_known;
  state_ok d s := is_state (_mode d) s;
}.
Proof.
  - intros d s data str Hd Hs Hstr. destruct (next_advances s data str d Hd Hs Hstr) as (d' & s' & more & Hrun & Hd' & Hm & Hs' & _).
    exists d', s', more. rewrite Hm. destruct Hs' as [Hw Hst]. done.
  - intros d s data _. apply next_on_empty.
  - intros d pos. split; cbn; [lia|]. destruct (_mode d); auto.
  - intros d s data str d' s' more Hd Hs Hstr Hrun Hlt. destruct (next_advances s data str d Hd Hs Hstr) as (d2 & s2 & more2 & Hrun2 & _ & _ & _ & Hadv).
    unfold next_grapheme, detector_next in Hrun. rewrite Hrun in Hrun2. injection Hrun2 as <- <- <-. destruct (Hadv Hlt) as (Hb & Hl & _). done.
  - intros d s data str d' s' more Hd Hs Hstr H0 Hrun Hlt. destruct (next_advances s data str d Hd Hs Hstr) as (d2 & s2 & more2 & Hrun2 & _ & _ & _ & Hadv).
    unfold next_grapheme, detector_next in Hrun. rewrite Hrun in Hrun2. injection Hrun2 as <- <- <-. destruct (Hadv Hlt) as (_ & _ & Hf). destruct (Hf H0) as (? & ? & _). auto.
  - intros d s1 s2 data str d' s1' more _ _ _ _ H1 H2 Hres Hlt Hrun. by apply (next_is_positional s1 s2 data str d d' s1' more).
  - intros d s data str c rest d' s' more _ _ Hstr H0 _ Hdrop Hc Hrest Hrun. by apply (next_ascii_cluster s data str d d' s' more c rest).
Defined.
