(* ===== verification/RowCopy.v ===== *)
(** * Copying text between rows

    [CopyTextFrom] copies whole glyphs; [CopyFrom] a row. *)
From S2P Require Import Prelude InputEvents TextAttributes Rle RleTheorems RleRefinement ImageSlice Graphemes Row RowSpec RowWrite RowInit RowReplace.

Implicit Types (G A B N : list glyph) (g : glyph) (r : ROW) (h : WriteHelper).

(** ** Shifting entries *)
Lemma copyOffset_start old new o : 0 <= old -> 0 <= new -> 0 <= o -> old + o <= CharOffsetsMask -> new + o <= CharOffsetsMask ->
  copyOffset (u16 (new - old)) (old + o) = new + o.
Proof.
  intros Ho Hn Hp Hbo Hbn. unfold copyOffset. rewrite mask_small by lia. rewrite land_trailer.
  assert (Hbit : Z.testbit (old + o) 15 = false).
  { pose proof (not_trailer (old + o) ltac:(lia)) as Hnt. unfold WI_IsFlagSet in Hnt. rewrite land_trailer in Hnt. by destruct (Z.testbit (old + o) 15). }
  rewrite Hbit, Z.lor_0_r. unfold wrap. rewrite Z.add_mod_idemp_r by lia. unfold CharOffsetsMask in *. rewrite Z.mod_small; lia.
Qed.

Lemma copyOffset_trailer old new o : 0 <= old -> 0 <= new -> 0 <= o -> old + o <= CharOffsetsMask -> new + o <= CharOffsetsMask ->
  copyOffset (u16 (new - old)) (old + o + CharOffsetsTrailer) = new + o + CharOffsetsTrailer.
Proof.
  intros Ho Hn Hp Hbo Hbn. unfold copyOffset. rewrite mask_trailer by lia. rewrite land_trailer.
  assert (Hbit : Z.testbit (old + o + CharOffsetsTrailer) 15 = true).
  { pose proof (is_trailer (old + o) ltac:(lia)) as Hnt. unfold WI_IsFlagSet in Hnt. rewrite land_trailer in Hnt. by destruct (Z.testbit _ 15). }
  rewrite Hbit. assert (Hs : u16 (old + o + u16 (new - old)) = new + o).
  { unfold wrap. rewrite Z.add_mod_idemp_r by lia. unfold CharOffsetsMask in *. rewrite Z.mod_small; lia. }
  rewrite Hs. apply or_trailer. lia.
Qed.

Lemma copyOffset_offsets old new N : 0 <= old -> 0 <= new -> old + chars_of N <= CharOffsetsMask -> new + chars_of N <= CharOffsetsMask ->
  map (copyOffset (u16 (new - old))) (offsets old N) = offsets new N.
Proof.
  intros Ho Hn Hbo Hbn. enough (Hgen : forall o, 0 <= o -> old + o + chars_of N <= CharOffsetsMask -> new + o + chars_of N <= CharOffsetsMask ->
    map (copyOffset (u16 (new - old))) (offsets (old + o) N) = offsets (new + o) N).
  { specialize (Hgen 0 ltac:(lia)). rewrite !Z.add_0_r in Hgen. auto. }
  clear Hbo Hbn. induction N as [|g N IH]; intros o Hp Hbo Hbn; [done|]. rewrite text_of_cons, length_app in Hbo, Hbn. cbn [offsets map].
  rewrite copyOffset_start by lia. f_equal. rewrite map_app, map_replicate, copyOffset_trailer by lia. f_equal.
  rewrite <- !Z.add_assoc. apply IH; lia.
Qed.

(** ** Glyphs between columns *)
Lemma drop_columns_suffix n G : glyphs_ok G -> (n <= columns G)%nat -> exists A, G = A ++ drop_columns n G /\ glyphs_ok (drop_columns n G).
Proof.
  intros HG Hn. destruct (next_column_split n G HG Hn) as (A & HE & _). exists A. split; [done|]. rewrite HE in HG. by apply glyphs_ok_app in HG as [_ ?].
Qed.

Lemma take_columns_le n m G : (n <= m)%nat -> exists R, take_columns m G = take_columns n G ++ R.
Proof.
  revert n m. induction G as [|g G IH]; intros n m Hnm; cbn [take_columns]; [by exists []|].
  destruct (Nat.leb_spec (glyph_width g) n), (Nat.leb_spec (glyph_width g) m); try lia; [|by eexists|by exists []].
  destruct (IH (n - glyph_width g)%nat (m - glyph_width g)%nat ltac:(lia)) as (R & ->). by exists R.
Qed.

Lemma take_columns_app_ge n A B : (columns A <= n)%nat -> take_columns n (A ++ B) = A ++ take_columns (n - columns A) B.
Proof.
  revert n. induction A as [|g A IH]; intros n Hn; cbn [columns app take_columns] in *; [by rewrite Nat.sub_0_r|].
  rewrite (proj2 (Nat.leb_le _ _)) by lia. f_equal. rewrite IH by lia. f_equal. f_equal. lia.
Qed.

Lemma boundary_split n G : glyphs_ok G -> (n <= columns G)%nat -> start_column n G = n -> G = take_columns n G ++ drop_columns n G.
Proof. intros HG Hn Hs. unfold start_column in Hs. destruct (columns_split n G HG Hn) as [[HE _]|(g & _ & Hc)]; [done|lia]. Qed.

(** The first entry from [n] back that starts a glyph. *)
Lemma trailerLoop_spec base G n fuel : glyphs_ok G -> 0 <= base -> base + chars_of G <= CharOffsetsMask -> (n <= columns G)%nat -> Z.of_nat n <= 0x7fff ->
  (2 <= fuel)%nat -> forall L, (forall i, (i <= n)%nat -> load L (Z.of_nat i) = load (all_offsets base G) (Z.of_nat i)) ->
  trailerLoop fuel L (Z.of_nat n) = Some (Z.of_nat (start_column n G)).
Proof.
  intros HG Hb Hm Hn H16 Hf L HL. destruct fuel as [|[|fuel]]; [lia|lia|]. cbn [trailerLoop]. unfold start_column.
  pose proof (length_all_offsets base G HG) as Hl.
  destruct (columns_split n G HG Hn) as [[HE Hc]|(g & HE & Hc)].
  - assert (HA : glyphs_ok (take_columns n G)) by (rewrite HE in HG; by apply glyphs_ok_app in HG as [? _]).
    rewrite (HL n) by lia. pose proof (load_offsets_start base (take_columns n G) (drop_columns n G) HA) as Hload. rewrite <- HE, Hc in Hload.
    rewrite Hload. cbn [mbind option_bind]. pose proof (take_columns_chars n G HG Hn). rewrite not_trailer by lia. by rewrite Hc.
  - assert (HA : glyphs_ok (take_columns n G)) by (rewrite HE in HG; by apply glyphs_ok_app in HG as [? _]).
    assert (Hg : glyph_ok g) by (rewrite HE in HG; apply glyphs_ok_app in HG as [_ HG]; by inversion HG). destruct Hg as [_ Hg].
    set (A := take_columns n G) in *. pose proof (take_columns_chars n G HG Hn) as HchA. fold A in HchA.
    rewrite (HL n) by lia. pose proof (load_offsets_trailer base A g (drop_columns n G) (n - columns A) HA ltac:(lia)) as Hload.
    rewrite <- HE in Hload. replace (columns A + (n - columns A))%nat with n in Hload by lia. rewrite Hload. cbn [mbind option_bind]. rewrite is_trailer by lia.
    rewrite (u16_small (Z.of_nat n - 1)) by lia. replace (Z.of_nat n - 1) with (Z.of_nat (columns A)) by lia. rewrite (HL (columns A)) by lia.
    pose proof (load_offsets_start base A (g :: drop_columns n G) HA) as Hload2. rewrite <- HE in Hload2. rewrite Hload2. cbn [mbind option_bind].
    rewrite not_trailer by lia. done.
Qed.

(** ** The source *)
Section copy.
Context `{Allocator} (isa : Intrinsics) (charsAddress : ROW -> Z).

(** The glyphs of the source from column [sb] that end by column [sl]. *)
Definition copied_glyphs (sb sl : nat) GS : list glyph := take_columns (sl - sb) (drop_columns sb GS).

Lemma chars_of_mono n m G : glyphs_ok G -> (n <= m <= columns G)%nat -> chars_of (take_columns n G) <= chars_of (take_columns m G) <= chars_of G.
Proof.
  intros HG Hnm. split; [|apply take_columns_chars; [done|lia]]. destruct (take_columns_le n m G ltac:(lia)) as (R & ->). rewrite chars_of_app. lia.
Qed.

Lemma load_take_drop {T} (l : list T) a n i : (i < n)%nat -> load (take n (drop a l)) (Z.of_nat i) = load l (Z.of_nat (a + i)).
Proof. intros Hi. rewrite !load_lookup, !Nat2Z.id by lia. rewrite lookup_take_lt, lookup_drop by done. done. Qed.

Lemma source_text_spec source GS sb sl : shows source GS -> (sb < sl <= columns GS)%nat ->
  exists data chars, source_text charsAddress (Z.of_nat sb) (Z.of_nat sl) source = Some (take (sl - sb + 1) (drop sb (all_offsets 0 GS)), data, chars) /\
    (start_column sb GS = sb -> chars = text_of (copied_glyphs sb sl GS)) /\ Z.of_nat (length chars) <= CharOffsetsMask.
Proof.
  intros Hs Hb. pose proof (shows_entries _ _ Hs) as HE. pose proof Hs as ((H32 & _) & HG & HcG & HmG & (unused & HC) & _ & HO).
  pose proof (char_offset_spec source GS sb HE ltac:(lia)) as Hf. pose proof (char_offset_spec source GS sl HE ltac:(lia)) as Hk.
  unfold _uncheckedCharOffset in Hf, Hk. rewrite HO in Hf, Hk. pose proof (length_all_offsets 0 GS HG) as Hl.
  pose proof (chars_of_mono sb sl GS HG ltac:(lia)) as Hmono. unfold source_text. rewrite (proj2 (Z.ltb_lt _ _)) by lia. rewrite HO.
  assert (Hloads : loads (all_offsets 0 GS) (Z.of_nat sb) (Z.of_nat sl - Z.of_nat sb + 1) = Some (take (sl - sb + 1) (drop sb (all_offsets 0 GS)))).
  { unfold loads. rewrite !(proj2 (Z.leb_le _ _)) by lia. cbn [andb]. do 3 f_equal; lia. }
  rewrite Hloads. cbn [mbind option_bind]. change 0 with (Z.of_nat 0). rewrite load_take_drop, Nat.add_0_r by lia. change (Z.of_nat 0) with 0.
  replace (Z.of_nat sl - Z.of_nat sb) with (Z.of_nat (sl - sb)) by lia. rewrite load_take_drop by lia. replace (sb + (sl - sb))%nat with sl by lia.
  destruct (load (all_offsets 0 GS) (Z.of_nat sb)) as [front|]; [|done]. destruct (load (all_offsets 0 GS) (Z.of_nat sl)) as [back|]; [|done].
  cbn [mbind option_bind] in Hf, Hk |- *. injection Hf as ->. injection Hk as ->.
  set (c1 := chars_of (take_columns sb GS)) in *. set (c2 := chars_of (take_columns sl GS)) in *.
  assert (Hload : loads (_chars source) c1 (c2 - c1) = Some (take (Z.to_nat (c2 - c1)) (drop (Z.to_nat c1) (text_of GS)))).
  { rewrite HC. unfold loads. rewrite length_app, !(proj2 (Z.leb_le _ _)) by lia. cbn [andb]. f_equal. rewrite drop_app_le, take_app_le by (rewrite ?length_drop; lia). done. }
  rewrite Hload. cbn [mbind option_bind]. eexists _, _. split; [reflexivity|]. split; [|rewrite length_take, length_drop; lia].
  intros Hstart. unfold copied_glyphs. pose proof (boundary_split sb GS HG ltac:(lia) Hstart) as HS. unfold start_column in Hstart.
  set (A := take_columns sb GS) in *. set (R := drop_columns sb GS) in *.
  assert (Htake : take_columns sl GS = A ++ take_columns (sl - sb) R) by (rewrite HS, take_columns_app_ge, Hstart by lia; done).
  assert (HR : (sl - sb <= columns R)%nat) by (apply (f_equal columns) in HS; rewrite columns_app in HS; lia).
  assert (HokR : glyphs_ok R) by (rewrite HS in HG; by apply glyphs_ok_app in HG as [_ ?]).
  destruct (take_columns_prefix (sl - sb) R HokR HR) as (B & HB). unfold c2. rewrite Htake, chars_of_app. unfold c1.
  rewrite Z.add_simpl_l, !Nat2Z.id. rewrite HS at 1. rewrite text_of_app, drop_app_length. rewrite HB at 2. rewrite text_of_app. apply take_app_length.
Qed.

(** The columns of the source that [CopyTextFrom] can copy, and the glyphs in them. *)
Definition copy_columns (b limit sb sl : nat) : nat := ((limit - b) `min` (sl - sb))%nat.
Definition copy_new (b limit sb sl : nat) GS : list glyph := take_columns (copy_columns b limit sb sl) (drop_columns sb GS).

Lemma copy_new_ok b limit sb sl GS : glyphs_ok GS -> (sb < sl <= columns GS)%nat ->
  glyphs_ok (copy_new b limit sb sl GS) /\ (columns (copy_new b limit sb sl GS) <= copy_columns b limit sb sl)%nat.
Proof.
  intros HG Hs. destruct (drop_columns_suffix sb GS HG ltac:(lia)) as (A & HE & HokR).
  assert (Hc : (copy_columns b limit sb sl <= columns (drop_columns sb GS))%nat \/ (columns (drop_columns sb GS) < copy_columns b limit sb sl)%nat) by lia.
  unfold copy_new. set (R := drop_columns sb GS) in *. set (n := copy_columns b limit sb sl) in *. clearbody n. clear -HokR.
  revert n. induction HokR as [|g R Hg HR IH]; intros n; cbn [take_columns]; [split; [constructor|cbn; lia]|].
  destruct (Nat.leb_spec (glyph_width g) n); [|split; [constructor|cbn; lia]]. destruct (IH (n - glyph_width g)%nat) as [H1 H2]. split; [by constructor|]. cbn [columns]. lia.
Qed.

Lemma helper_copy_spec f padded r C G b limit data text GS sb sl : glyphs_ok G -> (b < limit <= columns G)%nat -> Z.of_nat (columns G) <= 0x7fff ->
  chars_of G <= CharOffsetsMask -> glyphs_ok GS -> (sb < sl <= columns GS)%nat -> Z.of_nat (columns GS) <= 0x7fff -> chars_of GS <= CharOffsetsMask ->
  start_column sb GS = sb -> holds f padded r C (all_offsets 0 G) ->
  let h := helper_at G b limit data text in
  let N := copy_new b limit sb sl GS in
  chBeg h + chars_of N <= CharOffsetsMask ->
  exists r1, WriteHelper_CopyTextFrom (take (sl - sb + 1) (drop sb (all_offsets 0 GS))) h r
      = (r1, Ret (wrote h N (b + copy_columns b limit sb sl) (chars_of N))) /\
    holds f padded r1 C (entries_with G b (chBeg h) N).
Proof.
  intros HG Hb H32 Hm HGS Hs H32S HmS Hstart Hr h N Hmn. pose proof (boundary_split sb GS HGS ltac:(lia) Hstart) as HS. unfold start_column in Hstart.
  set (A := take_columns sb GS) in *. set (R := drop_columns sb GS) in *. set (n := copy_columns b limit sb sl).
  assert (Hok : glyphs_ok A /\ glyphs_ok R) by (apply glyphs_ok_app; by rewrite <- HS). destruct Hok as [HokA HokR].
  destruct (copy_new_ok b limit sb sl GS HGS Hs) as [HokN HcN]. fold N n in HokN, HcN.
  pose proof (length_all_offsets 0 GS HGS) as HlS. pose proof (length_all_offsets 0 G HG) as HlG.
  assert (Hdrop : drop sb (all_offsets 0 GS) = all_offsets (chars_of A) R) by (rewrite HS at 1; rewrite <- Hstart; by apply drop_all_offsets).
  rewrite Hdrop. set (L := take (sl - sb + 1) (all_offsets (chars_of A) R)).
  assert (HcR : (sl - sb <= columns R)%nat) by (apply (f_equal columns) in HS; rewrite columns_app in HS; lia).
  assert (HlL : length L = (sl - sb + 1)%nat) by (unfold L; rewrite length_take, length_all_offsets by done; lia).
  assert (Hn : (n <= sl - sb)%nat /\ (n <= limit - b)%nat) by (unfold n, copy_columns; lia).
  pose proof (f_equal (fun l => chars_of l) HS) as HchS. cbv beta in HchS. rewrite chars_of_app in HchS.
  assert (HNR : exists B, R = N ++ B) by exact (take_columns_prefix n R HokR ltac:(lia)). destruct HNR as (B & HB).
  assert (HL : forall i, (i <= n)%nat -> load L (Z.of_nat i) = load (all_offsets (chars_of A) R) (Z.of_nat i)).
  { intros i Hi. rewrite !load_lookup, !Nat2Z.id by lia. unfold L. by rewrite lookup_take_lt by lia. }
  unfold WriteHelper_CopyTextFrom. rewrite HlL. change (colLimit h) with (Z.of_nat limit). change (colBeg h) with (Z.of_nat b).
  replace (Z.min (u16 (Z.of_nat limit - Z.of_nat b)) (u16 (Z.of_nat (sl - sb + 1) - 1))) with (Z.of_nat n) by (rewrite !u16_small by lia; unfold n, copy_columns; lia).
  cbv zeta. rewrite (run_reads _ _ r (Z.of_nat (columns N))).
  2:{ apply (trailerLoop_spec (chars_of A) R n); try done; lia. }
  rewrite (run_reads _ _ r (chars_of A)).
  2:{ change 0 with (Z.of_nat 0). rewrite HL by lia. pose proof (load_offsets_start (chars_of A) [] R ltac:(constructor)) as Hl0. cbn in Hl0. rewrite Z.add_0_r in Hl0. exact Hl0. }
  rewrite (run_reads _ _ r (chars_of A + chars_of N)).
  2:{ rewrite HL by lia. rewrite HB. by apply load_offsets_start. }
  assert (HchN : chars_of N <= chars_of R) by (rewrite HB, chars_of_app; lia). pose proof (chars_cut_before_le b G HG ltac:(lia)) as Hcut.
  assert (HchB : chBeg h = chars_of (cut_before b G)) by (by rewrite chars_cut_before).
  assert (Hload : loads L 0 (Z.of_nat (columns N)) = Some (offsets (chars_of A) N)).
  { unfold loads. rewrite HlL, !(proj2 (Z.leb_le _ _)) by lia. cbn [andb]. f_equal. change (Z.to_nat 0) with 0%nat. rewrite drop_0, Nat2Z.id. unfold L.
    rewrite take_take, Nat.min_l by lia. rewrite HB, all_offsets_app. rewrite <- (length_offsets (chars_of A) N HokN) at 1. apply take_app_length. }
  assert (HO : all_offsets 0 G = take b (all_offsets 0 G) ++ take (columns N) (drop b (all_offsets 0 G)) ++ drop (b + columns N) (all_offsets 0 G)).
  { rewrite <- drop_drop, take_drop. by rewrite take_drop. }
  rewrite HO in Hr. destruct (run_storeOffsets Hr (Z.of_nat b) (offsets (chBeg h) N) (entries_with G b (chBeg h) N)) as (r1 & Hrun & Hr1).
  { unfold entries_with. apply store_app; [rewrite length_take; lia|]. rewrite length_offsets, length_take, length_drop by done. lia. }
  assert (Hcopy : _copyOffsets (colEnd h) L (Z.of_nat (columns N)) (u16 (chBeg h - chars_of A)) r = (r1, Ret tt)).
  { unfold _copyOffsets. rewrite (run_reads (fun _ => loads L 0 (Z.of_nat (columns N))) _ r _ Hload).
    rewrite copyOffset_offsets by lia. exact Hrun. }
  rewrite (run_bind _ _ _ _ _ Hcopy). exists r1. split; [|done]. change (colEnd h) with (Z.of_nat b). unfold wrote.
  rewrite (u16_small (Z.of_nat b + Z.of_nat n)), (u16_small (Z.of_nat b + Z.of_nat (columns N))) by lia. rewrite (Nat2Z.inj_add b n).
  rewrite Z.add_simpl_l, (wrap_small 64); [done|]. unfold CharOffsetsMask in *. lia.
Qed.

(** When there is something to copy: the source is another row, it starts a glyph at its first column, and has a whole glyph in the columns given. *)
Definition copies (source : RowSource) (b limit sb sl : nat) GS : bool :=
  match source with This => false | Other _ => true end && (b <? limit)%nat && (sb <? sl)%nat && (start_column sb GS =? sb)%nat
    && match copied_glyphs sb sl GS with [] => false | _ => true end.

Definition copy_result (source : RowSource) (b limit sb sl : nat) GS G : list glyph :=
  if copies source b limit sb sl GS then overwrite b (b + copy_columns b limit sb sl) (copy_new b limit sb sl GS) G else G.
Definition copy_padded (source : RowSource) (b limit sb sl : nat) GS G (padded : bool) : bool :=
  if copies source b limit sb sl GS
  then padded_after G (b + columns (copy_new b limit sb sl GS)) (b + copy_columns b limit sb sl) padded else padded.

(** The columns it reports: where the text ends, the columns it changed, and where it stopped in the source. *)
Definition copy_state (source : RowSource) (b limit sb sl : nat) GS G (sourceColumns : Z) (state : RowCopyTextFromState) : RowCopyTextFromState :=
  if copies source b limit sb sl GS then
    let N := copy_new b limit sb sl GS in
    copied state (if chars_of N =? chars_of (copied_glyphs sb sl GS) then Z.of_nat (b + columns N) else Z.of_nat limit)
      (Z.of_nat (start_column b G)) (Z.of_nat (next_column (b + copy_columns b limit sb sl) G)) (Z.of_nat (sb + columns N))
  else copied state (Z.of_nat b) (Z.of_nat b) (Z.of_nat b) sourceColumns.

Lemma text_of_nil G : glyphs_ok G -> text_of G = [] -> G = [].
Proof.
  intros HG Ht. destruct HG as [|g G [Hg _] _]; [done|]. rewrite text_of_cons in Ht. by apply app_eq_nil in Ht as [? _].
Qed.

Lemma copied_glyphs_ok sb sl GS : glyphs_ok GS -> (sb < sl <= columns GS)%nat -> glyphs_ok (copied_glyphs sb sl GS).
Proof.
  intros HG Hs. pose proof (proj1 (copy_new_ok 0 (sl - sb) sb sl GS HG Hs)) as Hok. unfold copy_new, copy_columns in Hok.
  rewrite Nat.sub_0_r, Nat.min_id in Hok. exact Hok.
Qed.

(** The test of the first entry of the source. *)
Lemma begins_with_trailer_spec sb sl GS : glyphs_ok GS -> chars_of GS <= CharOffsetsMask -> (sb < sl <= columns GS)%nat ->
  begins_with_trailer (take (sl - sb + 1) (drop sb (all_offsets 0 GS))) = negb (start_column sb GS =? sb)%nat.
Proof.
  intros HG Hm Hs. pose proof (length_all_offsets 0 GS HG) as Hl. destruct (columns_split sb GS HG ltac:(lia)) as [[HE Hc]|(g & HE & Hc)].
  - pose proof (take_columns_ok sb GS HG ltac:(lia)) as HA. pose proof (load_offsets_start 0 _ (drop_columns sb GS) HA) as Hload. rewrite <- HE, Hc in Hload.
    pose proof (take_columns_chars sb GS HG ltac:(lia)). unfold start_column. rewrite Hc, Nat.eqb_refl. cbn [negb].
    rewrite load_lookup, Nat2Z.id in Hload by lia. rewrite (drop_S _ _ _ Hload), Nat.add_1_r. cbn [take begins_with_trailer]. by rewrite not_trailer by lia.
  - pose proof (take_columns_ok sb GS HG ltac:(lia)) as HA. pose proof (load_offsets_trailer 0 _ g (drop_columns sb GS) (sb - columns (take_columns sb GS)) HA ltac:(lia)) as Hload.
    rewrite <- HE in Hload. replace (columns (take_columns sb GS) + _)%nat with sb in Hload by lia. pose proof (take_columns_chars sb GS HG ltac:(lia)).
    rewrite load_lookup, Nat2Z.id in Hload by lia. rewrite (drop_S _ _ _ Hload), Nat.add_1_r. cbn [take begins_with_trailer]. rewrite is_trailer by lia.
    unfold start_column. by rewrite (proj2 (Nat.eqb_neq _ _)) by lia.
Qed.

(** The guard of [CopyTextFrom]. *)
Lemma copy_guard source G GS b limit data chars sb sl : glyphs_ok GS -> chars_of GS <= CharOffsetsMask -> (sb < sl <= columns GS)%nat ->
  (start_column sb GS = sb -> chars = text_of (copied_glyphs sb sl GS)) ->
  let L := take (sl - sb + 1) (drop sb (all_offsets 0 GS)) in
  negb (IsValid (helper_at G b limit data chars)) || (match source with This => true | Other _ => false end)
    || (Z.of_nat (length L) <? 2) || begins_with_trailer L = negb (copies source b limit sb sl GS).
Proof.
  intros HG Hm Hs Hchars L. pose proof (length_all_offsets 0 GS HG) as Hl. unfold L. rewrite begins_with_trailer_spec by done.
  rewrite length_take, length_drop, Hl. rewrite (proj2 (Z.ltb_ge _ _)) by lia. unfold copies. rewrite (proj2 (Nat.ltb_lt sb sl)) by lia.
  destruct source; cbn [andb]; [by rewrite !orb_true_r|]. rewrite !orb_false_r, andb_true_r.
  destruct (Nat.eqb_spec (start_column sb GS) sb) as [He|]; cbn [negb]; [|rewrite orb_true_r, !andb_false_r; done].
  rewrite orb_false_r, andb_true_r. f_equal. rewrite (Hchars He). pose proof (copied_glyphs_ok sb sl GS HG Hs) as Hok.
  destruct (copied_glyphs sb sl GS) as [|g N]; [by rewrite andb_false_r; unfold IsValid; cbn; rewrite andb_false_r|].
  rewrite IsValid_helper, andb_true_r; [done|]. intros Hn. by apply text_of_nil in Hn.
Qed.

Lemma copy_no_source source b limit sb sl GS : (sl <= sb)%nat -> copies source b limit sb sl GS = false.
Proof. intros Hs. unfold copies. rewrite (proj2 (Nat.ltb_ge sb sl)) by lia. by rewrite andb_false_r. Qed.

Lemma copy_consumed b limit sb sl GS : glyphs_ok GS -> (sb < sl <= columns GS)%nat -> 
  exists R, text_of (copied_glyphs sb sl GS) = text_of (copy_new b limit sb sl GS) ++ R.
Proof.
  intros HG Hs. unfold copied_glyphs, copy_new. destruct (take_columns_le (copy_columns b limit sb sl) (sl - sb) (drop_columns sb GS)) as (R & ->).
  - unfold copy_columns. lia.
  - exists (text_of R). apply text_of_app.
Qed.

Lemma overwrite_chars b until N G : chars_of (cut_before b G) + chars_of N <= chars_of (overwrite b until N G).
Proof. unfold overwrite. rewrite app_assoc. fold (cut_before b G). rewrite !chars_of_app. lia. Qed.

(** [CopyTextFrom]: it copies the whole glyphs that fit between the given columns of the two rows. *)
Lemma copy_text_spec r G l source GS state : shows r G -> attributes r l -> shows (source_row source r) GS ->
  let b := clamped (copy_columnBegin state) r in
  let limit := clamped (copy_columnLimit state) r in
  let sb := clamped (sourceColumnBegin state) (source_row source r) in
  let sl := clamped (sourceColumnLimit state) (source_row source r) in
  chars_of (copy_result source b limit sb sl GS G) <= CharOffsetsMask ->
  writes_or_resets r (copy_state source b limit sb sl GS G (_columnCount (source_row source r)) state)
    (copy_result source b limit sb sl GS G) (copy_padded source b limit sb sl GS G (_doubleBytePadded r))
    (CopyTextFrom isa charsAddress source state r).
Proof.
  intros Hs Ha HsS b limit sb sl Hm. pose proof Hs as ((H32 & _) & HG & HcG & HmG & _). pose proof HsS as ((H32S & _) & HGS & HcGS & HmGS & _).
  pose proof (clamped_le (copy_columnBegin state) r G Hs) as Hb. pose proof (clamped_le (copy_columnLimit state) r G Hs) as Hlim.
  pose proof (clamped_le (sourceColumnLimit state) _ GS HsS) as Hsl. fold b in Hb. fold limit in Hlim. fold sl in Hsl.
  unfold CopyTextFrom. apply (or_reset_finish _ _ r l); [done|]. rewrite run_gets. rewrite !clamped_column by done. fold sb sl. cbv zeta.
  destruct (Nat.ltb_spec sb sl) as [Hlt|Hge].
  2:{ rewrite (run_reads _ _ r ([], 0, [])) by (unfold source_text; by rewrite (proj2 (Z.ltb_ge _ _)) by lia).
      rewrite (run_reads _ _ _ _ (ctor_spec r G _ _ 0 [] Hs)). fold b limit. unfold IsValid. cbn [helper_at chars]. rewrite andb_false_r. cbn [negb orb].
      unfold copy_state, copy_result, copy_padded. rewrite copy_no_source by done. left. done. }
  destruct (source_text_spec (source_row source r) GS sb sl HsS ltac:(lia)) as (data & chars & Hsrc & Hchars & Hlen).
  rewrite (run_reads _ _ r _ Hsrc). rewrite (run_reads _ _ _ _ (ctor_spec r G _ _ data chars Hs)). fold b limit.
  rewrite (copy_guard source G GS b limit data chars sb sl HGS HmGS ltac:(lia) Hchars). unfold copy_state, copy_result, copy_padded in *.
  destruct (copies source b limit sb sl GS) eqn:Hcopies; cbn [negb]; [|left; done].
  unfold copies in Hcopies. rewrite !andb_true_iff in Hcopies. destruct Hcopies as ((((_ & Hbl) & _) & Hstart) & _). apply Nat.ltb_lt in Hbl. apply Nat.eqb_eq in Hstart.
  specialize (Hchars Hstart). destruct (copy_new_ok b limit sb sl GS HGS ltac:(lia)) as [HokN HcN]. set (N := copy_new b limit sb sl GS) in *.
  set (n := copy_columns b limit sb sl) in *. assert (Hn : (b + n <= limit)%nat) by (unfold n, copy_columns; lia).
  destruct (shows_holds r G Hs) as (unused & Hr). pose proof (overwrite_chars b (b + n) N G) as Hover. rewrite chars_cut_before in Hover.
  destruct (helper_copy_spec _ _ r _ G b limit data chars GS sb sl HG ltac:(lia) ltac:(lia) HmG HGS ltac:(lia) ltac:(lia) HmGS Hstart Hr) as (r1 & Hrun & Hr1).
  { cbn [helper_at chBeg]. fold N. lia. }
  fold N n in Hrun, Hr1. rewrite (run_bind _ _ _ _ _ Hrun). clear Hrun. destruct (copy_consumed b limit sb sl GS HGS ltac:(lia)) as (rest & Hrest). fold N in Hrest.
  pose proof (finish_overwrite r G r1 unused b limit data chars N (b + n) (chars_of N) Hs HokN ltac:(lia) ltac:(lia)) as HF.
  rewrite Hchars, Hrest, length_app in HF. specialize (HF ltac:(lia) ltac:(rewrite Nat2Z.id; by rewrite take_app_length) Hm). rewrite <- Hrest, <- Hchars in HF. specialize (HF Hr1).
  destruct (Finish _ r1) as [r2 o] eqn:Hfin. destruct HF as [(-> & Hs2 & Hf2 & Hp2)|(-> & Hrest2)].
  - rewrite (run_bind _ _ _ _ _ Hfin). left. split; [|done]. unfold mret, M_ret. do 2 f_equal.
    all: cbn [charsConsumed colEnd colLimit colBegDirty colEndDirty colBeg set_colEndDirty wrote set_charsConsumed set_colEnd helper_at].
    + rewrite Hchars. destruct (_ =? _); lia.
    + lia.
  - rewrite (run_throw _ _ _ _ Hfin). right. done.
Qed.

(** *** [CopyFrom] *)
Definition copied_row (n sl : nat) GS G : list glyph :=
  match take_columns sl GS with [] => G | _ => overwrite 0 n (take_columns n GS) G end.
(** Attributes for a row of another width. *)
Definition resized_attributes (n : Z) (l : list TextAttribute) : list TextAttribute :=
  take (Z.to_nat n) l ++ match last l with Some v => replicate (Z.to_nat (n - Z.of_nat (length l))) v | None => [] end.

Lemma copied_row_spec source GS G sl : glyphs_ok GS -> (0 < columns G)%nat ->
  copy_result (Other source) 0 (columns G) 0 sl GS G = copied_row (columns G `min` sl) sl GS G.
Proof.
  intros HGS Hc. unfold copy_result, copied_row, copies, copied_glyphs, copy_new, copy_columns. rewrite !Nat.sub_0_r, (proj2 (Nat.ltb_lt 0 _)) by lia.
  assert (Hd : drop_columns 0 GS = GS) by (by destruct GS). assert (Hst : start_column 0 GS = 0%nat) by (unfold start_column; by rewrite take_columns_0). rewrite Hd, Hst. cbn [andb Nat.eqb].
  destruct (Nat.ltb_spec 0 sl) as [Hlt|Hge]; cbn [andb].
  - destruct (take_columns sl GS); done.
  - replace sl with 0%nat by lia. by rewrite take_columns_0.
Qed.

Lemma resized_represents r n ls : attributes r ls -> 0 < _columnCount r -> 0 <= n < 65536 ->
  exists a, resize_trailing_extent 16 n (_attr r) = Some a /\ RleRefinement.represents 16 a (resized_attributes n ls) /\ Z.of_nat (length (resized_attributes n ls)) = n.
Proof.
  intros [Hrep Hlen] Hc Hn. pose proof (execute_represents 16 (Resize n) (_attr r) ls Hrep) as Hex. cbn [expects execute execute_list] in Hex.
  destruct Hex as (a & Ha & Hra).
  - split; [done|]. intros ->. cbn in Hlen. lia.
  - exists a. unfold of_option in Ha. destruct (resize_trailing_extent 16 n (_attr r)) as [a'|]; [|done]. injection Ha as ->. split; [done|]. split; [exact Hra|].
    unfold resized_attributes. rewrite length_app, length_take. destruct (last ls) as [v|] eqn:Hl; [rewrite length_replicate; lia|]. apply last_None in Hl. subst ls. cbn in Hlen. lia.
Qed.

(** C28: Copying a row takes over the whole glyphs of the source's readable columns that fit, its attributes, extended or cut
    to the width of the row, its line rendition and its wrap flag, whatever the widths of the two are; or the heap is
    exhausted, and the row is reset. *)
Theorem copy_from_copies_row r G l source GS ls : shows r G -> attributes r l -> shows source GS -> attributes source ls ->
  let sl := clamped (GetReadableColumnCount source) source in
  let n := (columns G `min` sl)%nat in
  chars_of (copied_row n sl GS G) <= CharOffsetsMask ->
  let '(r', o) := CopyFrom isa charsAddress (Other source) r in
  (o = Ret tt /\ shows r' (copied_row n sl GS G) /\ attributes r' (resized_attributes (_columnCount r) ls) /\
     _lineRendition r' = _lineRendition source /\ _wrapForced r' = _wrapForced source /\ _promptData r' = _promptData r /\ _imageSlice r' = _imageSlice r) \/
  (o = Throw /\ is_reset r r' /\ exists n, allocate n = None).
Proof.
  intros Hs Ha HsS HaS sl n Hm. pose proof Hs as ((H32 & _) & _ & HcG & _). pose proof HsS as ((H32S & _) & HGS & HcGS & _).
  unfold CopyFrom. rewrite run_gets. cbn [source_row]. rewrite !run_modify, run_gets. cbn [source_row].
  set (r1 := SetWrapForced (_wrapForced source) (SetLineRendition (_lineRendition source) r)). set (state := mkCopyState 0 CoordTypeMax 0 (GetReadableColumnCount source) 0 0 0 0).
  assert (Hb : clamped (copy_columnBegin state) r1 = 0%nat) by (unfold clamped; cbn [copy_columnBegin state]; rewrite clamp_id by (change (_columnCount r1) with (_columnCount r); lia); done).
  assert (Hlim : clamped (copy_columnLimit state) r1 = columns G).
  { unfold clamped, clamp. change (copy_columnLimit state) with 2147483647. change (_columnCount r1) with (_columnCount r).
    rewrite (proj2 (Z.ltb_ge _ _)) by lia. rewrite Z.gtb_ltb, (proj2 (Z.ltb_lt _ _)) by lia. lia. }
  pose proof (copy_text_spec r1 G l (Other source) GS state Hs Ha HsS) as Hcopy. cbv zeta in Hcopy. cbn [source_row] in Hcopy. rewrite Hb, Hlim in Hcopy.
  replace (clamped (sourceColumnBegin state) source) with 0%nat in Hcopy by (unfold clamped; cbn [sourceColumnBegin state]; rewrite clamp_id by lia; done).
  change (clamped (sourceColumnLimit state) source) with sl in Hcopy. rewrite copied_row_spec in Hcopy by (done || lia). specialize (Hcopy Hm).
  destruct (CopyTextFrom isa charsAddress (Other source) state r1) as [r2 o] eqn:Hrun. destruct Hcopy as [(-> & Hs2 & Hf2 & _)|(-> & Hreset & Halloc)].
  - rewrite (run_bind _ _ _ _ _ Hrun), run_gets. cbn [source_row]. destruct (frame_parts _ _ Hf2) as [Hattr Hc2]. change (_columnCount r1) with (_columnCount r) in Hc2.
    destruct (resized_represents source (_columnCount r) ls HaS ltac:(lia) ltac:(lia)) as (a & Hres & Hrep & Hlen). unfold writes. rewrite Hc2, Hres. cbn [mbind option_bind].
    left. split; [done|]. split; [exact Hs2|]. split; [split; [exact Hrep|cbn; congruence]|]. unfold frame in Hf2. cbn. injection Hf2 as _ _ H1 H2 H3 H4. done.
  - rewrite (run_throw _ _ _ _ Hrun). right. done.
Qed.
End copy.
