(* ===== verification/RowQueries.v ===== *)
(** * Reading rows

    The queries of a row and [CharToColumnMapper], on a row that shows glyphs. *)
From S2P Require Import Prelude InputEvents TextAttributes Rle RleRefinement ImageSlice Graphemes Row RowSpec RowWrite RowInit RowReplace RowCopy.

Implicit Types (G A B N : list glyph) (g : glyph) (r : ROW).

(** The glyph [g] covers column [n]. *)
Definition covers A g (n : nat) : Prop := (columns A <= n < columns A + glyph_width g)%nat.

(** ** Entries by column *)
Lemma take_columns_covering A g B n : covers A g n -> take_columns n (A ++ g :: B) = A.
Proof.
  intros [H1 H2]. rewrite take_columns_app_ge by done. cbn [take_columns]. rewrite (proj2 (Nat.leb_gt _ _)) by lia. apply app_nil_r.
Qed.

Lemma take_columns_at G A g B n : G = A ++ g :: B -> covers A g n -> take_columns n G = A.
Proof. intros ->. apply take_columns_covering. Qed.

Lemma take_columns_all A : take_columns (columns A) A = A.
Proof. pose proof (take_columns_app_ge (columns A) A [] ltac:(lia)) as Ht. cbn [take_columns] in Ht. by rewrite !app_nil_r in Ht. Qed.

Lemma covering n G : glyphs_ok G -> (n < columns G)%nat -> exists A g B, G = A ++ g :: B /\ covers A g n.
Proof.
  intros HG Hn. destruct (columns_split n G HG ltac:(lia)) as [[HE Hc]|(g & HE & Hc)].
  - destruct (drop_columns n G) as [|g B] eqn:Hd; [apply (f_equal columns) in HE; rewrite app_nil_r in HE; lia|].
    exists (take_columns n G), g, B. split; [done|]. rewrite HE in HG. apply glyphs_ok_app in HG as [_ HG]. inversion HG as [|? ? [_ Hg] _]; subst. unfold covers. lia.
  - exists (take_columns n G), g, (drop_columns n G). split; [done|]. unfold covers. lia.
Qed.

Lemma glyph_of_app A g B : glyphs_ok (A ++ g :: B) -> glyphs_ok A /\ glyph_ok g /\ glyphs_ok B.
Proof. intros HG. apply glyphs_ok_app in HG as [HA HB]. inversion HB; subst. done. Qed.

Lemma next_column_covering G A g B n : glyphs_ok G -> G = A ++ g :: B -> (columns A < n <= columns A + glyph_width g)%nat -> next_column n G = (columns A + glyph_width g)%nat.
Proof.
  intros HG HE Hn. pose proof HG as HG'. rewrite HE in HG'. destruct (glyph_of_app _ _ _ HG') as (HA & [_ Hg] & HB).
  apply (f_equal columns) in HE as HcE. rewrite columns_app in HcE. cbn [columns] in HcE. unfold next_column.
  destruct (decide (n = columns A + glyph_width g)%nat) as [Heq|Hne].
  - replace (drop_columns n G) with B; [lia|]. rewrite HE, (app_assoc A [g] B : A ++ g :: B = _). symmetry. apply drop_columns_app; [rewrite columns_app; cbn; lia|].
    apply glyphs_ok_app. split; [done|]. constructor; [|constructor]. rewrite HE in HG. by apply glyph_of_app in HG as (_ & ? & _).
  - destruct (columns_split n G HG ltac:(lia)) as [[HS Hcs]|(g' & HS & Hcs)].
    + rewrite (take_columns_at G A g B n HE) in Hcs by (unfold covers; lia). lia.
    + rewrite HE in HS at 2. rewrite take_columns_covering in HS by (unfold covers; lia). rewrite HE in HS at 1. apply app_inv_head in HS. injection HS as <- <-. lia.
Qed.

Lemma char_split off G : 0 <= off <= chars_of G ->
  exists A B, G = A ++ B /\ chars_of A <= off /\ match B with [] => off = chars_of A | g :: _ => off < chars_of A + Z.of_nat (length (glyph_text g)) end.
Proof.
  revert off. induction G as [|g G IH]; intros off Hoff; [exists [], []; cbn in *; split; [done|lia]|].
  rewrite text_of_cons, length_app in Hoff. destruct (decide (off < Z.of_nat (length (glyph_text g)))) as [Hlt|Hge]; [exists [], (g :: G); split; [done|]; cbn; lia|].
  destruct (IH (off - Z.of_nat (length (glyph_text g))) ltac:(lia)) as (A & B & -> & H1 & H2). exists (g :: A), B. split; [done|].
  rewrite text_of_cons, length_app. split; [lia|]. destruct B; lia.
Qed.

Section queries.
Context (r : ROW) (G : list glyph) (Hs : shows r G).

Lemma shows_columns : 0 < _columnCount r <= 0x7fff /\ glyphs_ok G /\ Z.of_nat (columns G) = _columnCount r /\ chars_of G <= CharOffsetsMask.
Proof. destruct Hs as ((H1 & _) & H2 & H3 & H4 & _). done. Qed.

(** A glyph's first column and the others. *)
Lemma entry_covering A g B n : G = A ++ g :: B -> covers A g n ->
  load (_charOffsets r) (Z.of_nat n) = Some (if (n =? columns A)%nat then chars_of A else chars_of A + CharOffsetsTrailer) /\
  _uncheckedCharOffset (Z.of_nat n) r = Some (chars_of A) /\ _uncheckedIsTrailer (Z.of_nat n) r = Some (negb (n =? columns A)%nat).
Proof.
  intros HE [H1 H2]. destruct shows_columns as (_ & HG & _ & Hm). pose proof Hs as (_ & _ & _ & _ & _ & _ & HO). rewrite HE in HG. destruct (glyph_of_app _ _ _ HG) as (HA & [_ Hg] & _).
  rewrite HE, chars_of_app in Hm. unfold _uncheckedCharOffset, _uncheckedIsTrailer. rewrite HO, HE. destruct (Nat.eqb_spec n (columns A)) as [Hn|Hn].
  - rewrite Hn, load_offsets_start by done. cbn [mbind option_bind]. rewrite Z.add_0_l, mask_small, not_trailer by lia. done.
  - replace n with (columns A + (n - columns A))%nat by lia. rewrite load_offsets_trailer by (try done; lia). cbn [mbind option_bind].
    rewrite Z.add_0_l, mask_trailer, is_trailer by lia. done.
Qed.

Lemma entry_end : load (_charOffsets r) (Z.of_nat (columns G)) = Some (chars_of G).
Proof.
  destruct shows_columns as (_ & HG & _ & _). pose proof Hs as (_ & _ & _ & _ & _ & _ & HO). rewrite HO. pose proof (load_offsets_start 0 G [] HG) as Hl. by rewrite app_nil_r, Z.add_0_l in Hl.
Qed.

Lemma end_not_trailer : _uncheckedIsTrailer (Z.of_nat (columns G)) r = Some false.
Proof. destruct shows_columns as (_ & _ & _ & Hm). unfold _uncheckedIsTrailer. rewrite entry_end. cbn [mbind option_bind]. by rewrite not_trailer by lia. Qed.

(** The column after a glyph starts one, or is the last. *)
Lemma next_entry A g B : G = A ++ g :: B ->
  _uncheckedCharOffset (Z.of_nat (columns A + glyph_width g)) r = Some (chars_of A + Z.of_nat (length (glyph_text g))) /\
  _uncheckedIsTrailer (Z.of_nat (columns A + glyph_width g)) r = Some false.
Proof.
  intros HE. destruct (entry_start 0 r G (shows_entries _ _ Hs) (A ++ [g]) B) as [H1 H2]; [by rewrite <- app_assoc|lia|].
  rewrite columns_app, chars_of_app in *. cbn [columns] in *. rewrite Nat.add_0_r in *. rewrite H1, H2. unfold text_of at 2. cbn [map concat]. by rewrite app_nil_r.
Qed.

Lemma clampedColumn_in n : (n < columns G)%nat -> _clampedColumn (Z.of_nat n) r = Z.of_nat n.
Proof. intros Hn. destruct shows_columns as (H32 & _ & Hc & _). unfold _clampedColumn. rewrite clamp_id by lia. by rewrite u16_small by lia. Qed.

Lemma clampedInclusive_in n : (n <= columns G)%nat -> _clampedColumnInclusive (Z.of_nat n) r = Z.of_nat n.
Proof. intros Hn. destruct shows_columns as (H32 & _ & Hc & _). unfold _clampedColumnInclusive. rewrite clamp_id by lia. by rewrite u16_small by lia. Qed.

Lemma glyphEndLoop_spec A g B n fuel : G = A ++ g :: B -> covers A g n -> (2 <= fuel)%nat ->
  glyphEndLoop fuel (Z.of_nat n) r = Some (Z.of_nat (columns A + glyph_width g)).
Proof.
  intros HE Hn Hf. destruct shows_columns as (H32 & HG & Hc & _). pose proof HG as HG'. rewrite HE in HG'. destruct (glyph_of_app _ _ _ HG') as (_ & [_ Hg] & _).
  apply (f_equal columns) in HE as HcE. rewrite columns_app in HcE. cbn [columns] in HcE. destruct (next_entry A g B HE) as [_ Hnt]. destruct Hn as [Hn1 Hn2].
  destruct fuel as [|[|fuel]]; [lia|lia|]. cbn [glyphEndLoop]. rewrite (u16_small (Z.of_nat n + 1)) by lia. cbv zeta.
  destruct (decide (S n = columns A + glyph_width g)%nat) as [Hlast|Hmore].
  - replace (Z.of_nat n + 1) with (Z.of_nat (columns A + glyph_width g)) by lia. by rewrite Hnt.
  - destruct (entry_covering A g B (S n) HE ltac:(unfold covers; lia)) as (_ & _ & Ht). replace (Z.of_nat n + 1) with (Z.of_nat (S n)) by lia. rewrite Ht.
    rewrite (proj2 (Nat.eqb_neq _ _)) by lia. cbn [mbind option_bind negb]. rewrite (u16_small (Z.of_nat (S n) + 1)) by lia.
    replace (Z.of_nat (S n) + 1) with (Z.of_nat (columns A + glyph_width g)) by lia. by rewrite Hnt.
Qed.

Lemma loads_text A g B : G = A ++ g :: B -> loads (_chars r) (chars_of A) (Z.of_nat (length (glyph_text g))) = Some (glyph_text g).
Proof.
  intros HE. pose proof Hs as (_ & _ & _ & _ & (u & HC) & _). rewrite HC, HE, text_of_app, text_of_cons, <- !app_assoc. by apply loads_app.
Qed.

Lemma glyphAt_spec A g B n : G = A ++ g :: B -> covers A g n -> GlyphAt (Z.of_nat n) r = Some (glyph_text g).
Proof.
  intros HE Hn. destruct (entry_covering A g B n HE Hn) as (_ & Hoff & _). destruct (next_entry A g B HE) as [Hnoff _]. pose proof Hn as [_ Hn2].
  apply (f_equal columns) in HE as HcE. rewrite columns_app in HcE. cbn [columns] in HcE. destruct shows_columns as (H32 & _ & Hc & _).
  unfold GlyphAt. rewrite clampedColumn_in by lia. rewrite Hoff. cbn [mbind option_bind]. rewrite (glyphEndLoop_spec A g B n) by (try done; unfold columns_fuel; lia).
  cbn [mbind option_bind]. rewrite Hnoff. cbn [mbind option_bind]. rewrite Z.add_simpl_l. by apply (loads_text A g B).
Qed.

Lemma dbcsAttrAt_spec A g B n : G = A ++ g :: B -> covers A g n ->
  DbcsAttrAt (Z.of_nat n) r = Some (if (glyph_width g =? 1)%nat then Single else if (n =? columns A)%nat then Leading else Trailing).
Proof.
  intros HE Hn. destruct shows_columns as (H32 & HG & Hc & _). pose proof HG as HG'. rewrite HE in HG'. destruct (glyph_of_app _ _ _ HG') as (HA & [_ Hg] & _).
  apply (f_equal columns) in HE as HcE. rewrite columns_app in HcE. cbn [columns] in HcE. pose proof Hn as [Hn1 Hn2].
  destruct (entry_covering A g B n HE Hn) as (_ & _ & Htr). destruct (next_entry A g B HE) as [_ Hntr].
  unfold DbcsAttrAt. rewrite clampedColumn_in by lia. rewrite Htr. cbn [mbind option_bind]. destruct (Nat.eqb_spec n (columns A)) as [Heq|Hne]; cbn [negb].
  - destruct (Nat.eqb_spec (glyph_width g) 1) as [Hw|Hw].
    + replace (Z.of_nat n + 1) with (Z.of_nat (columns A + glyph_width g)) by lia. by rewrite Hntr.
    + replace (Z.of_nat n + 1) with (Z.of_nat (S n)) by lia. destruct (entry_covering A g B (S n) HE ltac:(unfold covers; lia)) as (_ & _ & ->).
      by rewrite (proj2 (Nat.eqb_neq _ _)) by lia.
  - by rewrite (proj2 (Nat.eqb_neq _ _)) by lia.
Qed.

(** C40: On a row that shows glyphs, every query of a column answers for the glyph that covers it: its text, whether
    the column is its first or its second, where it starts, where the next one starts, and the glyph before it. [AdjustToGlyphEnd] moves forward to the
    next column at which a glyph starts, but does not move from a column at which one does: at the first column of a glyph it is that column, and not the end of the glyph. *)
Theorem queries_find_glyph A g B n : G = A ++ g :: B -> covers A g n ->
  GlyphAt (Z.of_nat n) r = Some (glyph_text g) /\
  DbcsAttrAt (Z.of_nat n) r = Some (if (glyph_width g =? 1)%nat then Single else if (n =? columns A)%nat then Leading else Trailing) /\
  AdjustToGlyphStart (Z.of_nat n) r = Some (Z.of_nat (columns A)) /\
  NavigateToNext (Z.of_nat n) r = Some (Z.of_nat (columns A + glyph_width g)) /\
  NavigateToPrevious (Z.of_nat (columns A + glyph_width g)) r = Some (Z.of_nat (columns A)) /\
  AdjustToGlyphEnd (Z.of_nat n) r = Some (Z.of_nat (if (n =? columns A)%nat then columns A else columns A + glyph_width g)).
Proof.
  intros HE Hn. destruct shows_columns as (H32 & HG & Hc & Hm). pose proof HG as HG'. rewrite HE in HG'. destruct (glyph_of_app _ _ _ HG') as (HA & [_ Hg] & _).
  apply (f_equal columns) in HE as HcE. rewrite columns_app in HcE. cbn [columns] in HcE. pose proof Hn as [Hn1 Hn2].
  pose proof (shows_entries _ _ Hs) as Hent.
  assert (Hstart : forall m, covers A g m -> start_column m G = columns A) by (intros m Hcm; unfold start_column; by rewrite HE, take_columns_covering).
  split; [|split; [|split; [|split; [|split]]]].
  - by apply (glyphAt_spec A g B).
  - by apply (dbcsAttrAt_spec A g B).
  - unfold AdjustToGlyphStart. rewrite clampedColumn_in by lia. rewrite (adjustBackward_spec r G n Hent) by lia. by rewrite Hstart.
  - unfold NavigateToNext. replace (Z.of_nat n + 1) with (Z.of_nat (S n)) by lia. rewrite clampedInclusive_in by lia.
    rewrite (adjustForward_spec (S n) r G (entries_from_le 0 _ r G ltac:(lia) Hent)) by lia. do 2 f_equal. apply next_column_covering with B; [done|done|lia].
  - unfold NavigateToPrevious. replace (Z.of_nat (columns A + glyph_width g) - 1) with (Z.of_nat (columns A + glyph_width g - 1)) by lia.
    rewrite clampedColumn_in by lia. rewrite (adjustBackward_spec r G _ Hent) by lia. rewrite Hstart; [done|]. unfold covers. lia.
  - unfold AdjustToGlyphEnd. rewrite clampedInclusive_in by lia. rewrite (adjustForward_spec n r G (entries_from_le 0 _ r G ltac:(lia) Hent)) by lia. do 2 f_equal.
    destruct (Nat.eqb_spec n (columns A)) as [Heq|Hne]; [|apply next_column_covering with B; [done|done|lia]].
    unfold next_column. rewrite HE at 2. rewrite Heq, drop_columns_app by done. cbn [columns]. lia.
Qed.

(** ** From characters to columns *)

(** The glyph that has a character, or the end of the row. *)
Definition has_char A B (off : Z) : Prop :=
  chars_of A <= off /\ match B with [] => off = chars_of A | g :: _ => off < chars_of A + Z.of_nat (length (glyph_text g)) end.

Lemma load_entry n : (n <= columns G)%nat ->
  exists v, load (_charOffsets r) (Z.of_nat n) = Some v /\ Z.land v CharOffsetsMask = chars_of (take_columns n G) /\
    (v = chars_of (take_columns n G) /\ columns (take_columns n G) = n \/ CharOffsetsMask < v).
Proof.
  intros Hn. destruct shows_columns as (_ & HG & _ & Hm). destruct (decide (n = columns G)) as [Heq|Hne].
  - exists (chars_of G). rewrite Heq, take_columns_all, entry_end, mask_small by lia. auto.
  - destruct (covering n G HG ltac:(lia)) as (A & g & B & HE & Hc). destruct (entry_covering A g B n HE Hc) as (Hl & Ho & _).
    rewrite (take_columns_at G A g B n HE Hc). eexists. split; [exact Hl|]. rewrite HE, chars_of_app in Hm. destruct (Nat.eqb_spec n (columns A)).
    + rewrite mask_small by lia. auto.
    + rewrite mask_trailer by lia. split; [done|]. right. unfold CharOffsetsMask, CharOffsetsTrailer in *. lia.
Qed.

Lemma forwardSearch_spec target n v fuel : (n <= columns G)%nat -> load (_charOffsets r) (Z.of_nat n) = Some v -> target <= chars_of G ->
  (columns G - n < fuel)%nat ->
  exists m vm, forwardSearch fuel (_charOffsets r) target (Z.of_nat n) v = Some (Z.of_nat m, vm) /\ (n <= m <= columns G)%nat /\
    load (_charOffsets r) (Z.of_nat m) = Some vm /\ target <= chars_of (take_columns m G).
Proof.
  revert n v. induction fuel as [|fuel IH]; intros n v Hn Hl Ht Hf; [lia|]. cbn [forwardSearch].
  destruct (load_entry n Hn) as (v' & Hl' & Hmask & _). rewrite Hl in Hl'. injection Hl' as <-. rewrite Hmask, Z.gtb_ltb.
  destruct (Z.ltb_spec (chars_of (take_columns n G)) target) as [Hlt|Hge]; [|by exists n, v].
  assert (Hnlt : (n < columns G)%nat).
  { destruct (decide (n = columns G)) as [Heq|]; [|lia]. rewrite Heq, take_columns_all in Hlt. lia. }
  destruct (load_entry (S n) ltac:(lia)) as (v2 & Hl2 & _). replace (Z.of_nat n + 1) with (Z.of_nat (S n)) by lia. rewrite Hl2. cbn [mbind option_bind].
  destruct (IH (S n) v2 ltac:(lia) Hl2 Ht ltac:(lia)) as (m & vm & Hrun & Hm & Hlm & Htm). exists m, vm. split; [done|]. split; [lia|done].
Qed.

Lemma take_columns_mono n m : (n <= m)%nat -> chars_of (take_columns n G) <= chars_of (take_columns m G).
Proof. intros Hnm. destruct (take_columns_le n m G Hnm) as (R & ->). rewrite chars_of_app. lia. Qed.

Lemma backwardSearch_spec A B target m v fuel : G = A ++ B -> has_char A B target -> (columns A <= m <= columns G)%nat ->
  load (_charOffsets r) (Z.of_nat m) = Some v -> (m - columns A < fuel)%nat ->
  backwardSearch fuel (_charOffsets r) target (Z.of_nat m) v = Some (Z.of_nat (columns A)).
Proof.
  intros HE [Ht1 Ht2]. destruct shows_columns as (_ & HG & _ & Hmk). pose proof HG as HG'. rewrite HE in HG'. apply glyphs_ok_app in HG' as [HA HB].
  assert (Htmax : target <= CharOffsetsMask).
  { destruct B as [|g B]; rewrite HE, chars_of_app in Hmk; [lia|]. rewrite text_of_cons, length_app in Hmk. lia. }
  revert m v. induction fuel as [|fuel IH]; intros m v Hm Hl Hf; [lia|]. cbn [backwardSearch]. destruct (decide (m = columns A)) as [Heq|Hne].
  - rewrite Heq in *. rewrite (proj2 (Z.ltb_ge _ _)); [done|]. destruct Hs as (_ & _ & _ & _ & _ & _ & HO). rewrite HO, HE, load_offsets_start in Hl by done.
    injection Hl as <-. lia.
  - assert (Hv : target < v).
    { destruct (load_entry m ltac:(lia)) as (v' & Hl' & _ & Hcase). rewrite Hl in Hl'. injection Hl' as <-. destruct Hcase as [[-> Hst]|]; [|lia].
      destruct B as [|g B]; [rewrite HE, app_nil_r in Hm; lia|].
      assert (Hle : (columns A + glyph_width g <= m)%nat).
      { destruct (decide (m < columns A + glyph_width g)%nat); [|lia]. rewrite (take_columns_at G A g B m HE) in Hst by (unfold covers; lia). lia. }
      pose proof (take_columns_mono _ _ Hle) as Hmono. apply (Z.lt_le_trans _ _ _ Ht2). etransitivity; [|exact Hmono].
      rewrite HE, (app_assoc A [g] B : A ++ g :: B = _), take_columns_app_ge by (rewrite columns_app; cbn; lia). rewrite !chars_of_app.
      unfold text_of at 3. cbn [map concat]. rewrite app_nil_r. lia. }
    rewrite (proj2 (Z.ltb_lt _ _)) by done. destruct (load_entry (m - 1) ltac:(lia)) as (v2 & Hl2 & _).
    replace (Z.of_nat m - 1) with (Z.of_nat (m - 1)) by lia. rewrite Hl2. cbn [mbind option_bind]. apply IH; [lia|done|lia].
Qed.

(** A mapper made for the row, wherever it searched last. *)
Definition maps_row (m : CharToColumnMapper) : Prop :=
  mapper_charOffsets m = _charOffsets r /\ _charsLength m = chars_of G /\ mapper_columnCount m = _columnCount r /\ 0 <= _currentColumn m <= _columnCount r.

Lemma has_char_before A B off m : G = A ++ B -> has_char A B off -> (m <= columns G)%nat -> off <= chars_of (take_columns m G) -> (columns A <= m)%nat.
Proof.
  intros HE [Ht _] Hm Hle. destruct shows_columns as (_ & HG & _ & _). destruct (decide (columns A <= m)%nat); [done|]. exfalso.
  destruct (covering m G HG) as (A' & g & B' & HE' & Hc). { rewrite HE, columns_app. lia. }
  rewrite (take_columns_at G A' g B' m HE' Hc) in Hle. destruct Hc as [Hc1 Hc2]. pose proof HG as HG'. rewrite HE' in HG'. destruct (glyph_of_app _ _ _ HG') as (HA' & [Hg _] & _).
  rewrite HE in HG. apply glyphs_ok_app in HG as [HA _]. destruct (prefix_of_columns A' A (g :: B') B) as (R & HR); [congruence|done|done|lia|].
  destruct R as [|g2 R]; [rewrite app_nil_r in HR; subst A; lia|]. rewrite HE, HR, <- app_assoc in HE'. apply app_inv_head in HE'. cbn in HE'. injection HE' as -> _.
  rewrite HR, chars_of_app, text_of_cons, length_app in Ht. destruct (glyph_text g); [done|]. cbn [length] in Ht. lia.
Qed.

Lemma leading_column_spec A B off m : maps_row m -> G = A ++ B -> has_char A B (clamp off 0 (chars_of G)) ->
  GetLeadingColumnAt off m = Some (set_currentColumn (Z.of_nat (columns A)) m, Z.of_nat (columns A)).
Proof.
  intros (HO & Hlen & Hcc & Hcur) HE Hh. destruct shows_columns as (H32 & HG & Hc & Hmk). pose proof (clamp_bounds off 0 (chars_of G) ltac:(lia)) as Hb.
  unfold GetLeadingColumnAt. rewrite Hlen, HO. set (target := clamp off 0 (chars_of G)) in *. replace (_currentColumn m) with (Z.of_nat (Z.to_nat (_currentColumn m))) by lia.
  set (n := Z.to_nat (_currentColumn m)) in *. destruct (load_entry n ltac:(lia)) as (v & Hl & _). rewrite Hl. cbn [mbind option_bind].
  assert (HlO : length (_charOffsets r) = S (columns G)) by (destruct Hs as (_ & _ & _ & _ & _ & _ & ->); by apply length_all_offsets).
  destruct (forwardSearch_spec target n v (S (length (_charOffsets r))) ltac:(lia) Hl ltac:(lia) ltac:(lia)) as (k & vk & Hfw & Hk & Hlk & Htk). rewrite Hfw. cbn [mbind option_bind].
  pose proof (has_char_before A B target k HE Hh ltac:(lia) Htk) as Hak.
  by rewrite (backwardSearch_spec A B target k vk (S (length (_charOffsets r))) HE Hh (conj Hak (proj2 Hk)) Hlk ltac:(lia)).
Qed.

(** Mapping a character of the row's text to a column gives the first and the last column of the glyph that has the
    character, whatever column the search starts from; the end of the text, and anything past it, is the end of the row. *)
Theorem mapper_finds_glyph m off : maps_row m ->
  exists A B, G = A ++ B /\ has_char A B (clamp off 0 (chars_of G)) /\
    GetLeadingColumnAt off m = Some (set_currentColumn (Z.of_nat (columns A)) m, Z.of_nat (columns A)) /\
    GetTrailingColumnAt off m = Some (set_currentColumn (Z.of_nat (columns A)) m,
      match B with [] => _columnCount r | g :: _ => Z.of_nat (columns A + glyph_width g - 1) end).
Proof.
  intros Hm. destruct shows_columns as (H32 & HG & Hc & Hmk). pose proof (clamp_bounds off 0 (chars_of G) ltac:(lia)) as Hb.
  destruct (char_split (clamp off 0 (chars_of G)) G Hb) as (A & B & HE & Hh). exists A, B. split; [done|]. split; [done|].
  pose proof (leading_column_spec A B off m Hm HE Hh) as Hlead. split; [done|]. unfold GetTrailingColumnAt. rewrite Hlead. cbn [mbind option_bind].
  destruct Hm as (HO & _ & Hcc & _). cbn [set_currentColumn mapper_columnCount mapper_charOffsets]. rewrite Hcc, HO, <- Hc.
  assert (HcE : columns G = (columns A + columns B)%nat) by (by rewrite HE, columns_app).
  destruct B as [|g B]; cbn [columns] in HcE.
  - rewrite (proj2 (Z.ltb_ge _ _)) by lia. cbn [mbind option_bind]. do 2 f_equal. lia.
  - pose proof HG as HG'. rewrite HE in HG'. destruct (glyph_of_app _ _ _ HG') as (_ & [_ Hg] & _). rewrite (proj2 (Z.ltb_lt _ _)) by lia. destruct (next_entry A g B HE) as [_ Hnt].
    unfold _uncheckedIsTrailer in Hnt. cbn [trailingSearch]. destruct (decide (glyph_width g = 1%nat)) as [Hw|Hw].
    + replace (Z.of_nat (columns A) + 1) with (Z.of_nat (columns A + glyph_width g)) by lia.
      destruct (load (_charOffsets r) _) as [v|]; [|done]. cbn [mbind option_bind] in Hnt |- *. injection Hnt as ->. cbn [mbind option_bind]. do 2 f_equal. lia.
    + destruct (entry_covering A g B (S (columns A)) HE ltac:(unfold covers; lia)) as (_ & _ & Htr). unfold _uncheckedIsTrailer in Htr.
      replace (Z.of_nat (columns A) + 1) with (Z.of_nat (S (columns A))) by lia. destruct (load (_charOffsets r) (Z.of_nat (S (columns A)))) as [v|]; [|done]. cbn [mbind option_bind] in Htr |- *.
      rewrite (proj2 (Nat.eqb_neq _ _)) in Htr by lia. injection Htr as ->.
      assert (HlO : length (_charOffsets r) = S (columns G)) by (destruct Hs as (_ & _ & _ & _ & _ & _ & ->); by apply length_all_offsets). rewrite HlO. cbn [trailingSearch].
      replace (Z.of_nat (S (columns A)) + 1) with (Z.of_nat (columns A + glyph_width g)) by lia.
      destruct (load (_charOffsets r) (Z.of_nat (columns A + glyph_width g))) as [v2|]; [|done]. cbn [mbind option_bind] in Hnt |- *. injection Hnt as ->. cbn [mbind option_bind].
      do 2 f_equal. lia.
Qed.

(** ** The text of the row *)
Definition readable : nat := Z.to_nat (GetReadableColumnCount r).

Lemma readable_bounds : 0 <= GetReadableColumnCount r -> (readable <= columns G)%nat /\ GetReadableColumnCount r = Z.of_nat readable.
Proof.
  intros Hr. destruct shows_columns as (H32 & _ & Hc & _). unfold readable. split; [|lia]. unfold GetReadableColumnCount in *.
  destruct (_lineRendition r), (_doubleBytePadded r); cbn [Z.b2z] in *; rewrite ?Z.shiftr_div_pow2, ?Z.shiftl_mul_pow2 in * by lia; change (2 ^ 1) with 2 in *;
    try (pose proof (Z.div_mod (_columnCount r - 1 * 2) 2); pose proof (Z.mod_pos_bound (_columnCount r - 1 * 2) 2));
    try (pose proof (Z.div_mod (_columnCount r - 0 * 2) 2); pose proof (Z.mod_pos_bound (_columnCount r - 0 * 2) 2)); lia.
Qed.

Lemma masked_entry n : (n <= columns G)%nat -> exists v, load (_charOffsets r) (Z.of_nat n) = Some v /\ Z.land v CharOffsetsMask = chars_of (take_columns n G).
Proof. intros Hn. destruct (load_entry n Hn) as (v & Hl & Hm & _). eauto. Qed.

Lemma text_spec : 0 <= GetReadableColumnCount r -> GetText r = Some (text_of (take_columns readable G)).
Proof.
  intros Hr. destruct (readable_bounds Hr) as [Hn Heq]. unfold GetText. rewrite Heq. destruct (masked_entry readable Hn) as (v & -> & Hm). cbn [mbind option_bind]. rewrite Hm.
  destruct shows_columns as (_ & HG & _ & _). destruct (take_columns_prefix readable G HG Hn) as (B & HE). destruct Hs as (_ & _ & _ & _ & (u & HC) & _).
  rewrite HC. rewrite HE at 1. rewrite text_of_app, <- app_assoc. by apply (loads_app []).
Qed.
End queries.

(** No glyph but a space ends with one. *)
Definition spaces_alone G : Prop := Forall (fun g => last (glyph_text g) = Some 0x20 -> g = space) G.

Lemma trailing_spaces G : glyphs_ok G -> spaces_alone G -> exists A k, G = A ++ replicate k space /\ last (text_of A) <> Some 0x20.
Proof.
  intros HG Hsp. induction G as [|g G IH] using rev_ind; [by exists [], 0%nat|]. apply glyphs_ok_app in HG as [HG Hg]. apply Forall_app in Hsp as [HspG Hspg].
  inversion Hg as [|? ? [Hne _] _]; subst. inversion Hspg as [|? ? Hlast _]; subst. destruct (decide (last (glyph_text g) = Some 0x20)) as [Hl|Hl].
  - destruct (IH HG HspG) as (A & k & -> & HA). exists A, (S k). rewrite (Hlast Hl), <- app_assoc, replicate_S_end. done.
  - exists (G ++ [g]), 0%nat. rewrite app_nil_r. split; [done|]. rewrite text_of_app, last_app. unfold text_of at 1. cbn [map concat]. rewrite app_nil_r.
    destruct (last (glyph_text g)) eqn:Hlg; [done|]. by apply last_None in Hlg.
Qed.

Lemma spaces_replicate k rest : spaces (replicate k 0x20 ++ rest) = Z.of_nat k + spaces rest.
Proof. induction k as [|k IH]; [done|]. cbn [replicate app spaces]. rewrite Z.eqb_refl, IH. lia. Qed.

Lemma spaces_none rest : head rest <> Some 0x20 -> spaces rest = 0.
Proof. destruct rest as [|c rest]; [done|]. cbn. intros Hc. destruct (Z.eqb_spec c 0x20); [congruence|done]. Qed.

(** The text of a row is that of the glyphs in its readable columns, and the last column that is not a space is the one
    before which the glyphs are not blank; a row that wrapped is full, less the column that padding takes. *)
Theorem row_measures r G : shows r G -> 0 <= GetReadableColumnCount r -> spaces_alone G ->
  columns (take_columns (readable r) G) = readable r ->
  exists A k, take_columns (readable r) G = A ++ replicate k space /\ last (text_of A) <> Some 0x20 /\
    GetText r = Some (text_of A ++ replicate k 0x20) /\
    GetLastNonSpaceColumn r = Some (Z.of_nat (columns A)) /\
    MeasureRight r = Some (if _wrapForced r then _columnCount r - Z.b2z (_doubleBytePadded r) else Z.of_nat (columns A)) /\
    ContainsText r = Some (match A with [] => false | _ => true end).
Proof.
  intros Hs Hr Hsp Hc. destruct (shows_columns r G Hs) as (H32 & HG & HcG & _). destruct (readable_bounds r G Hs Hr) as [Hn Heq].
  destruct (take_columns_prefix (readable r) G HG Hn) as (B & HE). set (R := take_columns (readable r) G) in *.
  assert (HokR : glyphs_ok R) by (rewrite HE in HG; by apply glyphs_ok_app in HG as [? _]). assert (HspR : spaces_alone R) by (rewrite HE in Hsp; by apply Forall_app in Hsp as [? _]).
  destruct (trailing_spaces R HokR HspR) as (A & k & HA & Hlast). exists A, k. split; [done|]. split; [done|].
  pose proof (text_spec r G Hs Hr) as Ht. fold R in Ht. rewrite HA, text_of_app, text_of_space in Ht.
  assert (Hlns : GetLastNonSpaceColumn r = Some (Z.of_nat (columns A))).
  { unfold GetLastNonSpaceColumn. rewrite Ht. cbn [mbind option_bind]. rewrite reverse_app, reverse_replicate, spaces_replicate, spaces_none by (by rewrite head_reverse).
    rewrite Heq, <- Hc, HA, columns_app, columns_space. f_equal. lia. }
  split; [done|]. split; [done|]. split.
  - unfold MeasureRight. destruct (_wrapForced r); [|done]. f_equal. destruct (_doubleBytePadded r); cbn [Z.b2z]; [|lia]. rewrite u16_small; lia.
  - unfold ContainsText. rewrite Ht. cbn [mbind option_bind]. rewrite existsb_app.
    assert (Hk : existsb (fun c => negb (c =? 0x20)) (replicate k 0x20) = false) by (clear; induction k; [done|]; cbn; done). rewrite Hk, orb_false_r. f_equal.
    destruct A as [|g A]; [done|]. apply existsb_exists. destruct (last (text_of (g :: A))) as [c|] eqn:Hl.
    + exists c. split; [by apply list_elem_of_In, last_Some_elem_of|]. destruct (Z.eqb_spec c 0x20); [congruence|done].
    + apply last_None, text_of_nil in Hl; [done|]. rewrite HA in HokR. by apply glyphs_ok_app in HokR as [? _].
Qed.
