(* ===== verification/RowInvariant.v ===== *)
(** * The invariant of rows

    The well-formedness of a row, what every operation on it keeps, and that what is
    written can be read. *)
From S2P Require Import Prelude LineRenditions InputEvents TextAttributes Rle RleTheorems RleRefinement ImageSlice Graphemes GraphemeTheorems Row RowSpec RowWrite RowInit RowReplace RowText RowJoin RowCopy RowQueries.

Implicit Types (G A B N : list glyph) (g : glyph) (r : ROW).

Definition units G : Prop := Forall is_wchar (text_of G).

(** A row in order: its arrays show glyphs, its attributes cover its columns. *)
Definition row_ok r : Prop := exists G l, shows r G /\ units G /\ attributes r l.

(** ** Texts *)
Lemma units_app A B : units (A ++ B) <-> units A /\ units B.
Proof. unfold units. rewrite text_of_app. apply Forall_app. Qed.

Lemma units_space n : units (replicate n space).
Proof. unfold units. rewrite text_of_space. apply Forall_replicate. unfold is_wchar. lia. Qed.

Lemma units_take b G : glyphs_ok G -> (b <= columns G)%nat -> units G -> units (take_columns b G).
Proof. intros HG Hb HU. destruct (take_columns_prefix b G HG Hb) as (B & HE). rewrite HE in HU. by apply units_app in HU as [? _]. Qed.

Lemma units_drop b G : glyphs_ok G -> (b <= columns G)%nat -> units G -> units (drop_columns b G).
Proof. intros HG Hb HU. destruct (drop_columns_suffix b G HG Hb) as (A & HE & _). rewrite HE in HU. by apply units_app in HU as [_ ?]. Qed.

Lemma units_cut b G : glyphs_ok G -> (b <= columns G)%nat -> units G -> units (cut_before b G).
Proof. intros HG Hb HU. unfold cut_before. apply units_app. split; [by apply units_take|apply units_space]. Qed.

Lemma units_finished G W until : glyphs_ok G -> (until <= columns G)%nat -> units G -> units W -> units (finished G W until).
Proof. intros HG Hu HU HW. unfold finished. rewrite !units_app. split; [done|]. split; [apply units_space|by apply units_drop]. Qed.

Lemma units_overwrite b until N G : glyphs_ok G -> (b <= columns G)%nat -> (until <= columns G)%nat -> units G -> units N -> units (overwrite b until N G).
Proof.
  intros HG Hb Hu HU HN. rewrite <- finished_overwrite by done. apply units_finished; try done. apply units_app. split; [by apply units_cut|done].
Qed.

Lemma units_text r G : shows r G -> units G -> is_text (text_of G).
Proof. intros (_ & _ & _ & Hm & _) HU. split; [exact HU|]. unfold CharOffsetsMask in Hm. lia. Qed.

Lemma cut_short b G : glyphs_ok G -> (b <= columns G)%nat -> (b - start_column b G <= 1)%nat.
Proof.
  intros HG Hb. unfold start_column. destruct (columns_split b G HG Hb) as [[HE Hc]|(g & HE & Hc)]; [lia|].
  assert (Hg : glyph_ok g) by (rewrite HE in HG; apply glyphs_ok_app in HG as [_ HG']; by inversion HG'). destruct Hg as [_ Hg]. lia.
Qed.

(** A write makes the text longer by what is written and at most three spaces. *)
Lemma overwrite_chars_le b until N G : glyphs_ok G -> (b + columns N <= until)%nat -> (until <= columns G)%nat -> (until <= b + columns N + 1)%nat ->
  chars_of (overwrite b until N G) <= chars_of G + chars_of N + 3.
Proof.
  intros HG Hb Hu Hfill. pose proof (start_column_le b G HG ltac:(lia)) as Hst. pose proof (cut_short b G HG ltac:(lia)) as Hcut.
  pose proof (next_column_ge until G HG Hu) as Hn1. pose proof (drop_columns_end until G HG Hu) as Hn2.
  destruct (kept_text until G (take_columns b G) HG Hu) as (rest & Hkept); [apply take_columns_prefix; [done|lia]|unfold start_column in Hst; lia|].
  apply (f_equal length) in Hkept. rewrite !length_app in Hkept. unfold overwrite. rewrite !chars_of_app, !text_of_space, !length_replicate. lia.
Qed.

(** ** Outcomes *)
Lemma frame_attributes r r' l : frame r' = frame r -> attributes r l -> attributes r' l.
Proof. intros Hf [Hrep Hlen]. destruct (frame_parts _ _ Hf) as [Ha Hc]. split; congruence. Qed.

Lemma value_attributes r attr : 0 < _columnCount r <= 0x7fff -> _attr r = of_value (_columnCount r) attr -> attributes r (replicate (Z.to_nat (_columnCount r)) attr).
Proof. intros Hc Ha. split; [rewrite Ha; apply of_value_represents; lia|]. rewrite length_replicate. lia. Qed.

Lemma reset_ok r r' : lent r -> is_reset r r' -> row_ok r' /\ size r' = size r.
Proof.
  intros (Hc & _) (Hs & Hf & _). unfold reset_frame, frame in Hf. injection Hf as Ha Hcc _ _ _ _. split; [|done].
  exists (blank r), (replicate (Z.to_nat (_columnCount r')) TextAttribute_ctor). split; [done|]. split; [apply units_space|].
  apply value_attributes; [by rewrite Hcc|by rewrite Ha, Hcc].
Qed.

Section calls.
Context `{Allocator} {D : Type} `{GraphemeLaws D} (isa : Intrinsics) (charsAddress : ROW -> Z).

(** What may be called, whatever it is called with. *)
Inductive row_call :=
| CallReplaceCharacters (column : Z) (w : nat) (data : Z) (text : wstring)
| CallReplaceText (state : RowWriteState)
| CallClearCell (column : Z)
| CallCopyTextFrom (source : RowSource) (state : RowCopyTextFromState)
| CallCopyFrom (source : ROW)
| CallReplaceAttributes (beginIndex endIndex : Z) (attr : TextAttribute)
| CallSetAttrToEnd (column : Z) (attr : TextAttribute)
| CallReset (attr : TextAttribute)
| CallSetLineRendition (v : LineRendition)
| CallSetWrapForced (v : bool)
| CallSetDoubleBytePadded (v : bool)
| CallStartPrompt
| CallEndOutput (error : option Z).

Definition run_call (c : row_call) : M (ROW * D) unit :=
  match c with
  | CallReplaceCharacters column w data text => on_row (ReplaceCharacters isa column (Z.of_nat w) data text)
  | CallReplaceText state => _ ← ReplaceText isa charsAddress state; mret tt
  | CallClearCell column => on_row (ClearCell isa column)
  | CallCopyTextFrom source state => on_row (_ ← CopyTextFrom isa charsAddress source state; mret tt)
  | CallCopyFrom source => on_row (CopyFrom isa charsAddress (Other source))
  | CallReplaceAttributes b e attr => on_row (ReplaceAttributes b e attr)
  | CallSetAttrToEnd b attr => on_row (SetAttrToEnd b attr)
  | CallReset attr => on_row (Reset isa attr)
  | CallSetLineRendition v => on_row (modify (SetLineRendition v))
  | CallSetWrapForced v => on_row (modify (SetWrapForced v))
  | CallSetDoubleBytePadded v => on_row (modify (SetDoubleBytePadded v))
  | CallStartPrompt => on_row (modify StartPrompt)
  | CallEndOutput error => on_row (modify (EndOutput error))
  end.

(** Characters that the offsets of the row have room for. *)
Definition room r (n : Z) : Prop := match _charSize r with Some c => c + n + 3 <= CharOffsetsMask | None => False end.
(** The text is not in the row's memory. *)
Definition elsewhere r (data : Z) (text : wstring) : Prop :=
  0 < charsAddress r /\ 0 < data /\
  match _charSize r with Some c => data + Z.of_nat (length text) < charsAddress r \/ charsAddress r + c < data | None => False end.

(** What the callers keep to. *)
Definition call_ok (c : row_call) r : Prop :=
  match c with
  | CallReplaceCharacters column w data text => (1 <= w <= 2)%nat /\ text <> [] /\ Forall is_wchar text /\ room r (Z.of_nat (length text))
  | CallReplaceText state =>
      is_text (text state) /\ elsewhere r (textData state) (text state) /\ room r (Z.of_nat (length (text state)))
  | CallClearCell column => room r 1
  | CallCopyFrom source => row_ok source /\ match _charSize source with Some n => room r n | None => False end
  | CallCopyTextFrom source state => row_ok (source_row source r) /\ match _charSize (source_row source r) with Some n => room r n | None => False end
  | CallReplaceAttributes b e _ => (clamped b r < clamped e r)%nat
  | CallSetAttrToEnd b _ => (clamped b r < clamped (size r) r)%nat
  | _ => True
  end.

Definition in_order (s : ROW * D) : Prop := row_ok (fst s) /\ detector_ok (snd s).
Definition ends_well (before : ROW * D) (result : (ROW * D) * Outcome unit) : Prop :=
  let '(s, o) := result in
  in_order s /\ size (fst s) = size (fst before) /\ (o = Ret tt \/ (o = Throw /\ exists n, allocate n = None)).

Lemma charSize_spec r G : shows r G -> _charSize r = Some (chars_of G).
Proof. intros Hs. unfold _charSize. destruct (shows_columns r G Hs) as (_ & _ & <- & _). by apply entry_end. Qed.

Lemma writes_end_well r d l G {T} (a : T) G' padded r' o : shows r G -> attributes r l -> detector_ok d -> units G' ->
  writes_or_resets r a G' padded (r', o) -> forall o' : Outcome unit, (o = Ret a -> o' = Ret tt) -> (o = Throw -> o' = Throw) -> ends_well (r, d) ((r', d), o').
Proof.
  intros Hs Ha Hd HU Hw o' Hret Hthrow. destruct Hw as [(-> & Hs' & Hf & _)|(-> & Hreset & Halloc)].
  - destruct (frame_parts _ _ Hf) as [_ Hc]. split; [split; [|done]|split; [done|by left; apply Hret]]. exists G', l. split; [done|]. split; [done|]. by apply (frame_attributes r).
  - destruct (reset_ok r r') as [Hok Hsz]; [apply Hs|done|]. split; [done|]. split; [done|]. right. split; [by apply Hthrow|done].
Qed.

Lemma on_row_unit {T} (m : M ROW T) r (d : D) : on_row (_ ← m; mret tt) (r, d) =
  let '(r', o) := m r in ((r', d), match o with Ret _ => Ret tt | Throw => Throw | UB => UB | OutOfFuel => OutOfFuel end).
Proof. unfold on_row. cbn [fst snd]. cbv [mbind M_bind]. destruct (m r) as [r' []]; done. Qed.

(** ** The calls *)
Lemma replace_characters_ends r d column w data text : in_order (r, d) -> call_ok (CallReplaceCharacters column w data text) r ->
  ends_well (r, d) (run_call (CallReplaceCharacters column w data text) (r, d)).
Proof.
  intros [(G & l & Hs & HU & Ha) Hd] (Hw & Hne & Hwc & Hroom). unfold room in Hroom. rewrite (charSize_spec r G Hs) in Hroom. cbn [run_call fst snd] in *.
  destruct (shows_columns r G Hs) as (_ & HG & HcG & _). pose proof (clamped_le column r G Hs) as Hb. set (b := clamped column r) in *.
  assert (Hnew : units (replace_glyph b w text G) /\ chars_of (replace_glyph b w text G) <= CharOffsetsMask).
  { unfold replace_glyph. destruct (Nat.eqb_spec b (columns G)); [split; [done|lia]|]. destruct (Nat.leb_spec (b + w) (columns G)).
    - assert (Ht : text_of [mkGlyph text w] = text) by (unfold text_of; cbn; apply app_nil_r). split; [apply units_overwrite; try done; unfold units; by rewrite Ht|].
      pose proof (overwrite_chars_le b (b + w) [mkGlyph text w] G HG ltac:(cbn [columns glyph_width]; lia) ltac:(lia) ltac:(cbn [columns glyph_width]; lia)) as Hle. rewrite Ht in Hle. lia.
    - split; [apply units_overwrite; try done; unfold units; constructor|].
      pose proof (overwrite_chars_le b (columns G) [] G HG ltac:(cbn [columns]; lia) ltac:(lia) ltac:(cbn [columns]; lia)) as Hle. cbn in Hle. lia. }
  destruct Hnew as [HUn Hmn]. pose proof (replace_characters_spec isa r G l column w data text Hs Ha Hw Hne Hmn) as HR. fold b in HR.
  unfold on_row. cbn [fst snd]. destruct (ReplaceCharacters isa column (Z.of_nat w) data text r) as [r' o]. by apply (writes_end_well r d l G tt _ _ r' o Hs Ha Hd HUn HR o).
Qed.

Lemma replace_text_ends r d state : in_order (r, d) -> call_ok (CallReplaceText state) r -> ends_well (r, d) (run_call (CallReplaceText state) (r, d)).
Proof.
  intros [(G & l & Hs & HU & Ha) Hd] (Ht & Helse & Hroom). unfold room, elsewhere in *. rewrite (charSize_spec r G Hs) in Hroom, Helse. cbn [run_call fst snd] in *.
  destruct (shows_columns r G Hs) as (_ & HG & HcG & _). pose proof (clamped_le (columnLimit state) r G Hs) as Hlim.
  destruct (decide (clamped (columnLimit state) r <= clamped (columnBegin state) r)%nat) as [Hno|Hcol]; [|destruct (decide (text state = [])) as [Hno|Hne]].
  - rewrite (run_bind _ _ _ _ _ (replace_text_nothing isa charsAddress r G d state Hs ltac:(by left))). split; [split; [by exists G, l|done]|]. split; [done|by left].
  - rewrite (run_bind _ _ _ _ _ (replace_text_nothing isa charsAddress r G d state Hs ltac:(by right))). split; [split; [by exists G, l|done]|]. split; [done|by left].
  - destruct (replace_text_spec isa charsAddress r G l d state Hs Ha Hd (units_text r G Hs HU) Ht Hne Helse Hroom ltac:(lia)) as (d' & dirty & P & N & q & _ & Hd' & HcW & HtW & _ & HR).
    destruct (ReplaceText isa charsAddress state (r, d)) as [[r' d''] o] eqn:Hrun. destruct HR as [-> HR].
    assert (HUn : units (planned_row (clamped (columnLimit state) r) G (text state) (P ++ N) q)).
    { apply units_finished; try done.
      - unfold plan_until. destruct (_ =? _)%nat; lia.
      - unfold units. rewrite HtW. apply Forall_app. split; [apply units_cut; (done || lia)|]. apply Forall_take, Ht. }
    cbv [mbind M_bind]. rewrite Hrun. pose proof (writes_end_well r d' l G _ _ _ r' o Hs Ha Hd' HUn HR) as Hend.
    destruct o as [a| | |]; [|by apply Hend|destruct HR as [[? _]|[? _]]; done..]. by apply Hend.
Qed.

Lemma copy_text_ends r d source state : in_order (r, d) -> call_ok (CallCopyTextFrom source state) r -> ends_well (r, d) (run_call (CallCopyTextFrom source state) (r, d)).
Proof.
  intros [(G & l & Hs & HU & Ha) Hd] [(GS & ls & HsS & HUS & _) Hroom]. unfold room in Hroom. rewrite (charSize_spec r G Hs), (charSize_spec _ GS HsS) in Hroom. cbn [run_call fst snd] in *.
  destruct (shows_columns r G Hs) as (_ & HG & HcG & HmG). destruct (shows_columns _ GS HsS) as (_ & HGS & HcGS & _).
  pose proof (clamped_le (copy_columnLimit state) r G Hs) as Hlim. pose proof (clamped_le (sourceColumnLimit state) _ GS HsS) as Hsl.
  pose proof (copy_text_spec isa charsAddress r G l source GS state Hs Ha HsS) as HR. cbv zeta in HR.
  set (b := clamped (copy_columnBegin state) r) in *. set (limit := clamped (copy_columnLimit state) r) in *.
  set (sb := clamped (sourceColumnBegin state) (source_row source r)) in *. set (sl := clamped (sourceColumnLimit state) (source_row source r)) in *.
  assert (Hnew : units (copy_result source b limit sb sl GS G) /\ chars_of (copy_result source b limit sb sl GS G) <= CharOffsetsMask).
  { unfold copy_result. destruct (copies source b limit sb sl GS) eqn:Hcopies; [|split; [done|lia]].
    unfold copies in Hcopies. rewrite !andb_true_iff in Hcopies. destruct Hcopies as ((((_ & Hbl) & Hsb) & Hstart) & _).
    apply Nat.ltb_lt in Hbl, Hsb. apply Nat.eqb_eq in Hstart. pose proof (boundary_split sb GS HGS ltac:(lia) Hstart) as HS.
    destruct (copy_new_ok b limit sb sl GS HGS ltac:(lia)) as [HokN HcN]. unfold copy_new in *. set (n := copy_columns b limit sb sl) in *.
    assert (Hn : (n <= limit - b)%nat /\ (n <= sl - sb)%nat) by (unfold n, copy_columns; lia).
    assert (HokR : glyphs_ok (drop_columns sb GS)) by (pose proof HGS as HGS'; rewrite HS in HGS'; by apply glyphs_ok_app in HGS' as [_ ?]).
    assert (HcR : (n <= columns (drop_columns sb GS))%nat).
    { apply (f_equal columns) in HS. rewrite columns_app in HS. unfold start_column in Hstart. lia. }
    pose proof (cut_short n _ HokR HcR) as Hcut. unfold start_column in Hcut. pose proof (take_columns_chars n _ HokR HcR) as Hch1.
    assert (Hch2 : chars_of (drop_columns sb GS) <= chars_of GS) by (pose proof (f_equal (fun l => chars_of l) HS) as HSc; cbv beta in HSc; rewrite chars_of_app in HSc; lia).
    split; [apply units_overwrite; try done; [lia|lia|apply units_take; try done; apply units_drop; (done || lia)]|].
    pose proof (overwrite_chars_le b (b + n) (take_columns n (drop_columns sb GS)) G HG ltac:(lia) ltac:(lia) ltac:(lia)). lia. }
  destruct Hnew as [HUn Hmn]. specialize (HR Hmn). rewrite on_row_unit. destruct (CopyTextFrom isa charsAddress source state r) as [r' o].
  pose proof (writes_end_well r d l G _ _ _ r' o Hs Ha Hd HUn HR) as Hend. destruct o as [a| | |]; [|by apply Hend|destruct HR as [[? _]|[? _]]; done..]. by apply Hend.
Qed.

(** Attributes. *)
Lemma replaceAttr_ok r G l b e v : shows r G -> attributes r l -> (b < e)%nat -> (e <= columns G)%nat ->
  exists a, replaceAttr (Z.of_nat b) (Z.of_nat e) v r = (set_attr a r, Ret tt) /\ attributes (set_attr a r) (take b l ++ replicate (e - b) v ++ drop e l).
Proof.
  intros Hs [Hrep Hlen] Hb He. destruct (shows_columns r G Hs) as (_ & _ & HcG & _). unfold replaceAttr.
  pose proof (replace_value_represents 16 (_attr r) l (Z.of_nat b) (Z.of_nat e) v Hrep) as Hv. cbn [expects execute_list] in Hv. unfold RleRefinement.size in Hv.
  rewrite Z.min_l, Z.gtb_ltb, (proj2 (Z.ltb_ge _ _)) in Hv by lia. destruct Hv as (a & -> & Ha); [lia|]. exists a. split; [done|].
  unfold replaced in Ha. rewrite !Nat2Z.id in Ha. replace (Z.to_nat (Z.of_nat e - Z.of_nat b)) with (e - b)%nat in Ha by lia. split; [exact Ha|].
  cbn. rewrite !length_app, length_take, length_replicate, length_drop. lia.
Qed.

Lemma attributes_end r d m : in_order (r, d) -> (forall G l, shows r G -> attributes r l -> exists a l', m r = (set_attr a r, Ret tt) /\ attributes (set_attr a r) l') ->
  ends_well (r, d) (on_row m (r, d)).
Proof.
  intros [(G & l & Hs & HU & Ha) Hd] Hm. destruct (Hm G l Hs Ha) as (a & l' & Hrun & Ha'). unfold on_row. cbn [fst snd]. rewrite Hrun.
  split; [split; [by exists G, l'|done]|]. split; [done|by left].
Qed.

Lemma reset_ends r d attr : in_order (r, d) -> ends_well (r, d) (on_row (Reset isa attr) (r, d)).
Proof.
  intros [(G & l & Hs & HU & Ha) Hd]. cbn [fst snd] in *. pose proof Hs as (Hl & _). pose proof Hl as (Hc & _). destruct (attributes_runs r l Ha ltac:(lia)) as [Hruns Htot].
  destruct (reset_spec isa attr r Hl Hruns Htot) as (r' & Hrun & Hs' & Hf & _). unfold on_row. cbn [fst snd]. rewrite Hrun.
  unfold frame in Hf. injection Hf as Hattr Hcc _ _ _ _. split; [split; [|done]|split; [done|by left]].
  exists (blank r), (replicate (Z.to_nat (_columnCount r')) attr). split; [done|]. split; [apply units_space|]. apply value_attributes; [by rewrite Hcc|by rewrite Hattr, Hcc].
Qed.

(** Flags and marks. *)
Lemma flags_end r d f : in_order (r, d) -> (forall G, shows r G -> shows (f r) G) -> _attr (f r) = _attr r -> _columnCount (f r) = _columnCount r ->
  ends_well (r, d) (on_row (modify f) (r, d)).
Proof.
  intros [(G & l & Hs & HU & Ha) Hd] Hf Hattr Hc. cbn [fst snd] in *. split; [split; [|done]|split; [done|by left]]. exists G, l. split; [by apply Hf|]. split; [done|].
  unfold attributes. cbn. by rewrite Hattr, Hc.
Qed.

(** Copying a row, from another. *)
Lemma copy_from_ends r d source : in_order (r, d) -> call_ok (CallCopyFrom source) r -> ends_well (r, d) (run_call (CallCopyFrom source) (r, d)).
Proof.
  intros [Hr Hd] [Hsource Hroom]. cbn [run_call]. unfold CopyFrom.
  set (r1 := SetWrapForced (_wrapForced source) (SetLineRendition (_lineRendition source) r)). set (state := mkCopyState 0 CoordTypeMax 0 (GetReadableColumnCount source) 0 0 0 0).
  assert (Hok1 : in_order (r1, d)) by (split; [|done]; destruct Hr as (G & l & Hs & HU & Ha); by exists G, l).
  pose proof (copy_text_ends r1 d (Other source) state Hok1 ltac:(split; [exact Hsource|exact Hroom])) as Hend. cbn [run_call] in Hend. rewrite on_row_unit in Hend.
  unfold on_row. cbn [fst snd]. rewrite !run_gets. cbn [source_row]. rewrite !run_modify, run_gets. cbn [source_row]. fold r1.
  destruct (CopyTextFrom isa charsAddress (Other source) state r1) as [r2 o] eqn:Hrun. destruct Hend as ([Hr2 _] & Hsz & Ho).
  destruct o as [a| | |]; [|rewrite (run_throw _ _ _ _ Hrun); by split; [|split]|by destruct Ho as [Ho|[Ho _]]..].
  rewrite (run_bind _ _ _ _ _ Hrun), run_gets. cbn [source_row]. destruct Hr2 as (G2 & l2 & Hs2 & HU2 & _), Hsource as (GS & ls & HsS & _ & HaS).
  destruct (shows_columns r2 G2 Hs2) as (H32 & _), (shows_columns source GS HsS) as (H32S & _).
  destruct (resized_represents source (_columnCount r2) ls HaS ltac:(lia) ltac:(lia)) as (runs & Hres & Hrep & Hlen).
  unfold writes. rewrite Hres. cbn [mbind option_bind]. split; [split; [|done]|split; [exact Hsz|by left]]. exists G2, (resized_attributes (_columnCount r2) ls). done.
Qed.

(** A range of attributes that is empty, or ends before it begins. *)
Lemma replaceAttr_empty r G l b v : shows r G -> attributes r l -> (b <= columns G)%nat ->
  exists a, replaceAttr (Z.of_nat b) (Z.of_nat b) v r = (set_attr a r, Ret tt) /\ RleRefinement.same_values a l.
Proof.
  intros Hs [Hrep Hlen] Hb. destruct (shows_columns r G Hs) as (_ & _ & HcG & _). unfold replaceAttr.
  destruct (RleRefinement.empty_range_keeps_values 16 (_attr r) l (Z.of_nat b) (Z.of_nat b) v Hrep ltac:(lia) ltac:(unfold RleRefinement.size; lia)) as (a & Ha & Hsame).
  cbn in Ha. rewrite Ha. by exists a.
Qed.
Lemma replaceAttr_reversed r G l b e v : shows r G -> attributes r l -> (e < b)%nat -> (b <= columns G)%nat -> replaceAttr (Z.of_nat b) (Z.of_nat e) v r = (r, Throw).
Proof.
  intros Hs [Hrep Hlen] He Hb. destruct (shows_columns r G Hs) as (_ & _ & HcG & _). unfold replaceAttr, replace_value. rewrite check_indices_spec.
  pose proof (represents_size 16 _ _ Hrep) as Hsz. unfold RleRefinement.size in Hsz. rewrite <- Hsz, Z.min_l, Z.gtb_ltb, (proj2 (Z.ltb_lt _ _)) by lia. done.
Qed.

Lemma call_ends_well c r d : in_order (r, d) -> call_ok c r -> ends_well (r, d) (run_call c (r, d)).
Proof.
  intros Hok Hc. destruct c.
  - by apply replace_characters_ends.
  - by apply replace_text_ends.
  - apply (replace_characters_ends r d column 1 0 (L " ") Hok). split; [lia|]. split; [done|]. split; [repeat constructor; unfold is_wchar; lia|exact Hc].
  - by apply copy_text_ends.
  - by apply copy_from_ends.
  - apply attributes_end; [done|]. intros G l Hs Ha. destruct (shows_columns r G Hs) as (H32 & _). unfold ReplaceAttributes. rewrite !run_gets, !clamped_column by done.
    destruct (replaceAttr_ok r G l _ _ attr Hs Ha Hc (clamped_le _ _ _ Hs)) as (a & Hrun & Ha'). eauto.
  - apply attributes_end; [done|]. intros G l Hs Ha. destruct (shows_columns r G Hs) as (H32 & _). unfold SetAttrToEnd. rewrite !run_gets, !clamped_column by done.
    destruct (attributes_runs r l Ha ltac:(lia)) as [_ Htot]. rewrite Htot. cbn [call_ok] in Hc. unfold size in Hc. rewrite clamped_columnCount in Hc by lia.
    destruct (shows_columns r G Hs) as (_ & _ & HcG & _). rewrite <- HcG.
    destruct (replaceAttr_ok r G l _ (columns G) attr Hs Ha ltac:(rewrite <- HcG, Nat2Z.id in Hc; exact Hc) ltac:(lia)) as (a & Hrun & Ha'). eauto.
  - by apply reset_ends.
  - by apply flags_end.
  - by apply flags_end.
  - by apply flags_end.
  - apply flags_end; try done; unfold StartPrompt; destruct (_promptData r); done.
  - apply flags_end; try done; unfold EndOutput; destruct (_promptData r); done.
Qed.

(** Attributes given to no columns: the values of the runs stay, or, of a range that ends before it begins, an exception is thrown and nothing changed. *)
Definition no_columns_changed (s : ROW * D) (result : (ROW * D) * Outcome unit) : Prop :=
  result = (s, Throw) \/ exists l a, attributes (fst s) l /\ result = ((set_attr a (fst s), snd s), Ret tt) /\ RleRefinement.same_values a l.
Lemma no_columns_end b e attr s : in_order s -> (clamped e (fst s) <= clamped b (fst s))%nat -> no_columns_changed s (run_call (CallReplaceAttributes b e attr) s).
Proof.
  destruct s as [r d]. intros [(G & l & Hs & HU & Ha) Hd] Hle. cbn [run_call fst snd] in *. unfold on_row. cbn [fst snd]. destruct (shows_columns r G Hs) as (H32 & _).
  unfold ReplaceAttributes. rewrite !run_gets, !clamped_column by done. pose proof (clamped_le b r G Hs) as Hb. destruct (decide (clamped e r = clamped b r)) as [->|Hne].
  - destruct (replaceAttr_empty r G l _ attr Hs Ha Hb) as (a & -> & Hsame). right. by exists l, a.
  - left. by rewrite (replaceAttr_reversed r G l (clamped b r) (clamped e r) attr Hs Ha ltac:(lia) Hb).
Qed.

(** ** Histories *)
Inductive reachable (s0 : ROW * D) : ROW * D -> Prop :=
| reachable_start : reachable s0 s0
| reachable_call c s s' o : reachable s0 s -> call_ok c (fst s) -> run_call c s = (s', o) -> reachable s0 s'.
End calls.

Section histories.
Context `{Allocator} {D : Type} `{GraphemeLaws D} (isa : Intrinsics) (charsAddress : ROW -> Z).

Lemma reachable_ok s0 s : in_order s0 -> reachable isa charsAddress s0 s -> in_order s /\ size (fst s) = size (fst s0).
Proof.
  intros H0' Hr. induction Hr as [|c s s' o Hr [IH Hsz] Hc Hrun]; [done|]. destruct s as [r d]. cbn [fst] in *.
  pose proof (call_ends_well isa charsAddress c r d IH Hc) as Hend. rewrite Hrun in Hend. destruct Hend as (Hok & Hsz' & _). split; [done|]. cbn [fst] in Hsz'. congruence.
Qed.

(** C25: A row that is constructed, in any build, on memory with any content, and then changed by calls in any order, stays well
    formed: its arrays show glyphs of one or two columns that fill its width, its attributes cover it, and every further call ends,
    within the arrays, normally or by the exception of an exhausted heap. Of the calls it is asked that the text, together with the text of the row, has room in the 15 bits of the offsets,
    that it is not in the memory of the row, that rows copied from are well formed, and that attributes are given to at least one column. Giving them to none throws and changes nothing, or it returns,
    with the same attributes in all columns, but can leave a run of them without elements; nothing is said of calls after that. *)
Theorem row_stays_well_formed charsBuffer charOffsetsBuffer rowWidth fillAttribute d r0 s :
  0 < rowWidth <= 0x7fff -> length charsBuffer = buffer_length rowWidth -> length charOffsetsBuffer = buffer_length rowWidth -> detector_ok d ->
  ROW_ctor isa charsBuffer charOffsetsBuffer rowWidth fillAttribute = (r0, Ret tt) -> reachable isa charsAddress (r0, d) s ->
  in_order s /\ size (fst s) = rowWidth /\ (forall c, call_ok charsAddress c (fst s) -> ends_well s (run_call isa charsAddress c s)) /\
  forall b e attr, (clamped e (fst s) <= clamped b (fst s))%nat -> no_columns_changed s (run_call isa charsAddress (CallReplaceAttributes b e attr) s).
Proof.
  intros Hw Hb1 Hb2 Hd Hctor Hr. destruct (constructed_row_is_blank isa charsBuffer charOffsetsBuffer rowWidth fillAttribute Hw Hb1 Hb2) as (r1 & Hctor' & Hs & Hf).
  rewrite Hctor in Hctor'. injection Hctor' as <-. unfold frame in Hf. injection Hf as Ha Hc _ _ _ _.
  assert (Hok : in_order (r0, d)).
  { split; [|done]. exists (replicate (Z.to_nat rowWidth) space), (replicate (Z.to_nat (_columnCount r0)) fillAttribute). split; [done|]. split; [apply units_space|].
    apply value_attributes; [by rewrite Hc|by rewrite Ha, Hc]. }
  destruct (reachable_ok (r0, d) s Hok Hr) as [Hoks Hsz]. split; [done|]. split; [cbn in Hsz; unfold size in *; congruence|].
  split; [intros c Hcall; destruct s as [r d']; by apply call_ends_well|]. intros b e attr. by apply no_columns_end.
Qed.

(** The glyphs that a write does not touch. *)
Lemma overwrite_keeps b until N G A g B : glyphs_ok G -> (b <= columns G)%nat -> (until <= columns G)%nat -> (b + columns N <= until)%nat -> G = A ++ g :: B ->
  (columns A + glyph_width g <= b \/ until <= columns A)%nat ->
  exists A' B', overwrite b until N G = A' ++ g :: B' /\ columns A' = columns A.
Proof.
  intros HG Hb Hu HN HE Hout. pose proof HG as HG'. rewrite HE in HG'. destruct (glyph_of_app _ _ _ HG') as (HA & [_ Hg] & HB).
  apply (f_equal columns) in HE as HcE. rewrite columns_app in HcE. cbn [columns] in HcE. destruct Hout as [Hbefore|Hafter].
  - assert (Ht : take_columns b G = A ++ g :: take_columns (b - columns A - glyph_width g) B).
    { rewrite HE, take_columns_app_ge by lia. cbn [take_columns]. by rewrite (proj2 (Nat.leb_le _ _)) by lia. }
    exists A. eexists. split; [|done]. unfold overwrite. rewrite Ht, <- app_assoc. cbn [app]. reflexivity.
  - destruct (next_column_split until G HG Hu) as (A0 & HA0 & HcA0 & HN0). pose proof HG as HG''. rewrite HA0 in HG''. apply glyphs_ok_app in HG'' as [HokA0 _].
    assert (Hle : (next_column until G <= columns A)%nat).
    { unfold next_column. destruct (columns_split until G HG Hu) as [[HS Hcs]|(g' & HS & Hcs)]; apply (f_equal columns) in HS as HSc; rewrite columns_app in HSc; [lia|].
      cbn [columns] in HSc. destruct (prefix_of_columns (take_columns until G) A (g' :: drop_columns until G) (g :: B)) as (R & HR); [congruence| |done|lia|].
      - rewrite HS in HG. by apply glyphs_ok_app in HG as [? _].
      - destruct R as [|g2 R]; [rewrite app_nil_r in HR; apply (f_equal columns) in HR; lia|]. pose proof (eq_trans (eq_sym HS) HE) as HS2.
        rewrite HR, <- app_assoc in HS2. apply app_inv_head in HS2. cbn [app] in HS2. injection HS2 as -> _.
        apply (f_equal columns) in HR. rewrite columns_app in HR. cbn [columns] in HR. lia. }
    destruct (prefix_of_columns A0 A (drop_columns until G) (g :: B)) as (R & HR); [congruence|done|done|lia|].
    assert (Hd : drop_columns until G = R ++ g :: B) by (rewrite HA0 in HE at 1; rewrite HR, <- app_assoc in HE; by apply app_inv_head in HE).
    exists (take_columns b G ++ replicate (b - start_column b G) space ++ N ++ replicate (next_column until G - (b + columns N)) space ++ R), B.
    unfold overwrite. rewrite Hd, <- !app_assoc. split; [done|]. rewrite !columns_app, !columns_space. pose proof (start_column_le b G HG Hb) as Hst. unfold start_column in *.
    apply (f_equal columns) in HR. rewrite columns_app in HR. lia.
Qed.

(** C27: A glyph written at a column can be read there, and every other glyph that the columns written do not touch reads as before, in its
    place; or the heap is exhausted, and the row is reset. *)
Theorem replaced_glyph_reads_back r G l b w data text : shows r G -> attributes r l -> (1 <= w <= 2)%nat -> text <> [] -> (b + w <= columns G)%nat ->
  room r (Z.of_nat (length text)) ->
  let '(r', o) := ReplaceCharacters isa (Z.of_nat b) (Z.of_nat w) data text r in
  (o = Ret tt /\ GlyphAt (Z.of_nat b) r' = Some text /\
     DbcsAttrAt (Z.of_nat b) r' = Some (if (w =? 1)%nat then Single else Leading) /\
     (forall A g B n, G = A ++ g :: B -> covers A g n -> (columns A + glyph_width g <= b \/ b + w <= columns A)%nat ->
        GlyphAt (Z.of_nat n) r' = GlyphAt (Z.of_nat n) r /\ DbcsAttrAt (Z.of_nat n) r' = DbcsAttrAt (Z.of_nat n) r) /\
     _attr r' = _attr r) \/
  (o = Throw /\ is_reset r r' /\ exists n, allocate n = None).
Proof.
  intros Hs Ha Hw Hne Hb Hroom. unfold room in Hroom. rewrite (charSize_spec r G Hs) in Hroom. destruct (shows_columns r G Hs) as (H32 & HG & HcG & _).
  assert (Hcl : clamped (Z.of_nat b) r = b) by (unfold clamped; rewrite clamp_id by lia; lia).
  assert (Ht : text_of [mkGlyph text w] = text) by (unfold text_of; cbn; apply app_nil_r). set (N := [mkGlyph text w]) in *.
  assert (HcN : columns N = w) by (cbn; lia). assert (Hres : replace_glyph b w text G = overwrite b (b + w) N G).
  { unfold replace_glyph. rewrite (proj2 (Nat.eqb_neq _ _)), (proj2 (Nat.leb_le _ _)) by lia. done. }
  pose proof (overwrite_chars_le b (b + w) N G HG ltac:(lia) ltac:(lia) ltac:(lia)) as Hle. rewrite Ht in Hle.
  pose proof (replace_characters_spec isa r G l (Z.of_nat b) w data text Hs Ha Hw Hne) as HR. rewrite Hcl, Hres in HR. specialize (HR ltac:(lia)).
  destruct (ReplaceCharacters isa (Z.of_nat b) (Z.of_nat w) data text r) as [r' o]. destruct HR as [(-> & Hs' & Hf & _)|HR]; [left|right; exact HR].
  assert (HE' : overwrite b (b + w) N G = cut_before b G ++ mkGlyph text w :: (replicate (next_column (b + w) G - (b + columns N)) space ++ drop_columns (b + w) G)).
  { unfold overwrite, cut_before. rewrite <- app_assoc. done. }
  assert (Hcov : covers (cut_before b G) (mkGlyph text w) b) by (unfold covers; rewrite columns_cut_before by (done || lia); cbn; lia).
  split; [done|]. split; [by apply (glyphAt_spec r' _ Hs' _ _ _ b HE' Hcov)|]. split; [|split; [|by destruct (frame_parts _ _ Hf)]].
  - rewrite (dbcsAttrAt_spec r' _ Hs' _ _ _ b HE' Hcov), columns_cut_before, Nat.eqb_refl by (done || lia). done.
  - intros A g B n HE Hn Hout. destruct (overwrite_keeps b (b + w) N G A g B HG ltac:(lia) ltac:(lia) ltac:(lia) HE Hout) as (A' & B' & HE2 & HcA).
    assert (Hn' : covers A' g n) by (unfold covers in *; by rewrite HcA).
    rewrite (glyphAt_spec r' _ Hs' A' g B' n HE2 Hn'), (glyphAt_spec r G Hs A g B n HE Hn), (dbcsAttrAt_spec r' _ Hs' A' g B' n HE2 Hn'), (dbcsAttrAt_spec r G Hs A g B n HE Hn), HcA. done.
Qed.
End histories.
