(* ===== verification/RowExamples.v ===== *)
(** * Rows with the detector of the program

    [ReplaceText] with [CodepointWidthDetector], the theorems on rows at a concrete row, and
    calls whose results are not what is meant. *)
From stdpp Require Import gmap.
From S2P Require Import Prelude LineRenditions InputEvents TextAttributes Rle RleTheorems RleRefinement ImageSlice Graphemes GraphemeTheorems Row RowSpec RowWrite RowInit RowReplace RowText RowJoin RowCopy RowQueries RowInvariant.

(** ** [ReplaceText] *)

(** As many of the clusters, one after the other, as fit into [avail] columns; each takes at least one. *)
Fixpoint fitting (avail : nat) (cs : list (wstring * Z)) : list glyph :=
  match cs with
  | [] => []
  | (t, w) :: cs => let w := Z.to_nat (Z.max 1 w) in if (w <=? avail)%nat then mkGlyph t w :: fitting (avail - w) cs else []
  end.

(** The clusters of the text from the position [k] on. *)
Definition clusters_from (data : Z) (text : wstring) (k : nat) (d : CodepointWidthDetector) : option (list (wstring * Z)) :=
  if (k =? length text)%nat then Some [] else '(_, cs) ← segments (length text) (fresh_at data k) data text d; Some cs.

(** How much of the text the detector adds to the glyph before the column, with the columns it then takes. ASCII is not asked for. *)
Definition continuation (address : Z) (b : nat) (G : list glyph) (data : Z) (text : wstring) (d : CodepointWidthDetector) : option (CodepointWidthDetector * nat * nat) :=
  if starts_ascii text then Some (d, 0%nat, 0%nat)
  else '(d, s) ← join_state address b G data text d; Some (d, Z.to_nat (len s), Z.to_nat (Z.max 1 (width s))).

(** The glyphs up to the end of the text: [k] units are added to the glyph before the column, and the clusters [cs] follow. *)
Definition laid_out (b limit : nat) (G : list glyph) (text : wstring) (k w : nat) (cs : list (wstring * Z)) : list glyph :=
  if (k =? 0)%nat then cut_before b G ++ fitting (limit - b) cs
  else
    let A := take_columns (b - 1) G in
    if (columns A + w <=? limit)%nat then A ++ mkGlyph (kept_before b G ++ take k text) w :: fitting (limit - (columns A + w)) cs else cut_before b G.

(** ASCII characters fill the columns, and another character follows. *)
Definition ascii_cut (n : nat) (text : wstring) : Prop := is_ascii (take n text) /\ match drop n text with c :: _ => 0x80 <= c | [] => False end.

Lemma segments_place fuel : forall avail data str p s d N d' q, is_known d -> is_text str -> at_position s data str p d -> (p < length str)%nat -> (length str - p <= fuel)%nat ->
  place (S fuel) avail data str p s d = Some (d', N, q) -> exists d2 cs, segments fuel s data str d = Some (d2, cs) /\ N = fitting avail cs.
Proof.
  induction fuel as [|fuel IH]; intros avail data str p s d N d' q Hd Hstr Hs Hp Hf Hplace; [lia|].
  pose proof Hs as (Hok & Hpos & Hst). pose proof (resume_at_position _ _ _ _ _ Hs ltac:(lia)) as Hres.
  destruct (next_advances s data str d Hd Hok Hstr) as (d1 & s1 & more & Hrun & Hd1 & Hm1 & Hs1 & Hadv). destruct (Hadv ltac:(lia)) as (Hbeg & Hlen & Hfresh).
  destruct (Hfresh (Hst Hp)) as (Hpos1 & Hnext & Hmore). rewrite Hres in *. cbn [segments]. rewrite Hrun. cbn [mbind option_bind].
  replace (Z.to_nat (beg s1 - data)) with p by lia. remember (S fuel) as fuel1 eqn:Hfuel1. cbn [place] in Hplace. rewrite (proj2 (Nat.eqb_neq _ _)) in Hplace by lia.
  change (next_grapheme s data str d) with (GraphemeNext s data str d) in Hplace. rewrite Hrun in Hplace. cbn [mbind option_bind] in Hplace. subst fuel1.
  assert (Hs1' : at_position s1 data str (p + Z.to_nat (len s1)) d1).
  { split; [unfold state_ok; cbn; by rewrite Hm1|]. split; [lia|]. intros Hlt. apply Hnext. lia. }
  assert (Hk1 : detector_ok d1) by exact Hd1. destruct more.
  - symmetry in Hmore. apply Z.ltb_lt in Hmore. destruct (place_total (S fuel) (avail - Z.to_nat (Z.max 1 (width s1))) data str (p + Z.to_nat (len s1)) s1 d1 Hk1 Hstr Hs1' ltac:(lia) ltac:(lia)) as (d2 & N1 & q1 & Hpl & _).
    destruct (IH _ _ _ _ _ _ _ _ _ Hd1 Hstr Hs1' ltac:(lia) ltac:(lia) Hpl) as (d3 & cs & Hseg & HN1). rewrite Hseg. cbn [mbind option_bind]. eexists _, _. split; [reflexivity|]. cbn [fitting].
    destruct (_ <=? _)%nat; [|congruence]. rewrite Hpl in Hplace. cbn [mbind option_bind] in Hplace. congruence.
  - symmetry in Hmore. apply Z.ltb_ge in Hmore. eexists _, _. split; [reflexivity|]. cbn [fitting]. destruct (_ <=? _)%nat; [|congruence].
    cbn [place] in Hplace. rewrite (proj2 (Nat.eqb_eq _ _)) in Hplace by lia. cbn [mbind option_bind] in Hplace. congruence.
Qed.
Lemma place_from_fitting avail data str p d d' N q : is_known d -> is_text str -> (p <= length str)%nat -> place_from avail data str p d = Some (d', N, q) ->
  exists cs, clusters_from data str p d = Some cs /\ N = fitting avail cs.
Proof.
  intros Hd Hstr Hp Hplace. unfold clusters_from. destruct (Nat.eqb_spec p (length str)) as [->|Hne].
  - unfold place_from in Hplace. cbn [place] in Hplace. rewrite Nat.eqb_refl in Hplace. exists []. split; [done|]. cbn. congruence.
  - destruct (segments_place (length str) avail data str p (fresh_at data p) d N d' q Hd Hstr) as (d2 & cs & -> & HN); [|lia|lia|exact Hplace|by exists cs].
    split_and!; [apply state_init|cbn; lia|done].
Qed.

(** The length of the first cluster of a string, and its columns. *)
Definition first_cluster (data : Z) (str : wstring) (d : CodepointWidthDetector) : option (nat * nat) :=
  '(_, s, _) ← GraphemeNext GraphemeState_init data str d; Some (Z.to_nat (len s), Z.to_nat (Z.max 1 (width s))).

Section layout.
Context (address : Z) (b limit : nat) (G : list glyph) (data : Z) (text : wstring) (d : CodepointWidthDetector).
Context (Hd : is_known d) (Htext : is_text text).

Lemma clusters_total k : (k <= length text)%nat -> forall d1, is_known d1 -> exists cs, clusters_from data text k d1 = Some cs.
Proof.
  intros Hk d1 Hd1. assert (Hok : detector_ok d1) by exact Hd1.
  destruct (place_total (S (length text)) 0 data text k (fresh_at data k) d1 Hok Htext) as (d' & N & q & Hplace & _); [|lia|lia|].
  - split_and!; [apply state_init|cbn; lia|done].
  - destruct (place_from_fitting 0 data text k d1 d' N q Hd1 Htext Hk Hplace) as (cs & Hcs & _). by exists cs.
Qed.

Lemma ascii_fitting n cs : is_ascii (take n text) -> ~ ascii_cut n text -> clusters_from data text 0 d = Some cs -> ascii_glyphs (take n text) = fitting n cs.
Proof.
  intros Hascii Hcut Hcs. assert (Hok : detector_ok d) by exact Hd. assert (Hlen : length (take n text) = (n `min` length text)%nat) by apply length_take.
  assert (Hplace : exists d' q, place_from n data text 0 d = Some (d', ascii_glyphs (take n text), q)).
  { rewrite (place_ascii_prefix n data text d (take n text) 0 (drop n text) Hok Htext); [|by rewrite drop_0, take_drop|done| |lia].
    2:{ destruct (drop n text) as [|c rest] eqn:Hdrop; [done|]. destruct (Z.lt_ge_cases c 0x80); [done|]. destruct Hcut. split; [done|]. by rewrite Hdrop. }
    unfold place_from. cbn [place]. rewrite Hlen, Nat.add_0_l. destruct (Nat.eqb_spec (n `min` length text) (length text)) as [|Hne]; cbn [mbind option_bind].
    - eexists _, _. by rewrite app_nil_r.
    - destruct (next_at_position (fresh_at data (n `min` length text)) data text (n `min` length text) d Hok Htext) as (d1 & s1 & more & Hrun & _); [|lia|].
      { split_and!; [apply state_init|cbn; lia|done]. }
      rewrite Hrun. cbn [mbind option_bind]. rewrite (proj2 (Nat.leb_gt _ _)) by lia. cbn [mbind option_bind]. eexists _, _. by rewrite app_nil_r. }
  destruct Hplace as (d' & q & Hplace). destruct (place_from_fitting n data text 0 d d' _ q Hd Htext ltac:(lia) Hplace) as (cs' & Hcs' & HN). congruence.
Qed.

Lemma plan_laid_out d' dirty P N q :
  (exists d1 s, join_state address b G data text d = Some (d1, s) /\ is_known d1 /\ 0 <= len s <= Z.of_nat (length text)) ->
  text_plan address b limit G data text d = Some (d', dirty, P, N, q) ->
  exists d1 k w cs, continuation address b G data text d = Some (d1, k, w) /\ clusters_from data text k d1 = Some cs /\
    (~ ascii_cut (limit - b) text -> P ++ N = laid_out b limit G text k w cs).
Proof.
  intros (d1 & s & Hjoin & Hd1 & Hlen) Hplan. unfold text_plan in Hplan. unfold continuation. destruct (starts_ascii text).
  - destruct (clusters_total 0 ltac:(lia) d Hd) as (cs & Hcs). exists d, 0%nat, 0%nat, cs. split; [done|]. split; [done|]. intros Hcut. unfold laid_out. cbn [Nat.eqb].
    unfold text_glyphs in Hplan. destruct (forallb _ _) eqn:Hascii; cbn [mbind option_bind] in Hplan.
    + injection Hplan as <- <- <- <- <-. f_equal. apply ascii_fitting; [by apply forallb_ascii|done|done].
    + destruct (place_from _ _ _ _ _) as [[[d2 N2] q2]|] eqn:Hplace; [|done]. cbn [mbind option_bind] in Hplan. injection Hplan as <- <- <- <- <-.
      destruct (place_from_fitting _ data text 0 d d2 N2 q2 Hd Htext ltac:(lia) Hplace) as (cs' & Hcs' & ->). by simplify_eq.
  - rewrite Hjoin. cbn [mbind option_bind]. destruct (clusters_total (Z.to_nat (len s)) ltac:(lia) d1 Hd1) as (cs & Hcs). exists d1, (Z.to_nat (len s)), (Z.to_nat (Z.max 1 (width s))), cs.
    split; [done|]. split; [done|]. intros _. unfold unicode_plan in Hplan. rewrite Hjoin in Hplan. cbn [mbind option_bind] in Hplan. unfold laid_out.
    destruct (Z.gtb_spec (len s) 0) as [Hpos|Hzero].
    + rewrite (proj2 (Nat.eqb_neq _ _)) by lia. destruct (_ <=? limit)%nat; [|injection Hplan as <- <- <- <- <-; apply app_nil_r].
      destruct (place_from _ _ _ _ _) as [[[d2 N2] q2]|] eqn:Hplace; [|done]. cbn [mbind option_bind] in Hplan. injection Hplan as <- <- <- <- <-.
      destruct (fun Hk => place_from_fitting _ data text _ d1 d2 N2 q2 Hd1 Htext Hk Hplace) as (cs' & Hcs' & ->); [lia|]. by simplify_eq.
    + assert (Hz : Z.to_nat (len s) = 0%nat) by lia. rewrite Hz in Hcs |- *. cbn [Nat.eqb].
      destruct (place_from _ _ _ _ _) as [[[d2 N2] q2]|] eqn:Hplace; [|done]. cbn [mbind option_bind] in Hplan. injection Hplan as <- <- <- <- <-.
      destruct (fun Hk => place_from_fitting _ data text _ d1 d2 N2 q2 Hd1 Htext Hk Hplace) as (cs' & Hcs' & ->); [lia|]. by simplify_eq.
Qed.
(** The first column that is reported to be changed: what is before it stays. *)
Lemma plan_keeps d' dirty P N q : glyphs_ok G -> (b <= columns G)%nat -> text_plan address b limit G data text d = Some (d', dirty, P, N, q) ->
  exists K, columns K = dirty /\ K `prefix_of` G /\ K `prefix_of` P ++ N /\ (dirty <= b)%nat.
Proof.
  intros HG HbG Hplan. pose proof (start_column_le b G HG HbG) as Hst. pose proof (take_columns_prefix b G HG HbG) as HT. pose proof (start_column_le (b - 1) G HG ltac:(lia)) as HstA.
  pose proof (take_columns_prefix (b - 1) G HG ltac:(lia)) as HA. unfold start_column in HstA.
  assert (Hcut : forall N, take_columns b G `prefix_of` cut_before b G ++ N) by (intros N'; unfold cut_before; rewrite <- app_assoc; apply prefix_app_r; done).
  assert (HAT : take_columns (b - 1) G `prefix_of` take_columns b G).
  { destruct (decide (b = 0)%nat) as [->|Hne]; [done|]. destruct (previous_cases b G HG ltac:(lia)) as [(g & -> & _)|(g & -> & _)]; [by apply prefix_app_r|done]. }
  unfold text_plan, unicode_plan in Hplan. destruct (starts_ascii text).
  - destruct (text_glyphs _ _ _ _) as [[[? ?] ?]|]; [|done]. injection Hplan as <- <- <- <- <-. exists (take_columns b G). done.
  - destruct (join_state _ _ _ _ _ _) as [[d1 s]|]; [|done]. cbn [mbind option_bind] in Hplan. destruct (len s >? 0).
    + destruct (_ <=? limit)%nat; [destruct (place_from _ _ _ _ _) as [[[? ?] ?]|]; [|done]|]; injection Hplan as <- <- <- <- <-; exists (take_columns (b - 1) G).
      * split_and!; [done|done|by apply prefix_app_r|lia].
      * split_and!; [done|done|by etransitivity|lia].
    + destruct (place_from _ _ _ _ _) as [[[? ?] ?]|]; [|done]. injection Hplan as <- <- <- <- <-. exists (take_columns b G). done.
Qed.

(** A whole cluster before the column: the text continues it exactly if the two together begin with a longer one. *)
Lemma continuation_whole d1 k w : _mode d = Graphemes -> starts_ascii text = false -> text <> [] -> apart address G data text -> glyphs_ok G -> (b <= columns G)%nat ->
  previous_text b G <> [] -> is_text (previous_text b G ++ text) -> pair_apart (previous_text b G) text ->
  fst <$> first_cluster (address + chars_of (take_columns (b - 1) G)) (previous_text b G) d = Some (length (previous_text b G)) ->
  continuation address b G data text d = Some (d1, k, w) -> forall data2, 0 < data2 ->
  first_cluster data2 (previous_text b G ++ text) d = Some ((length (previous_text b G) + k)%nat, w).
Proof.
  intros Hm Hs0 Hne Hapart HG HbG Hprev Hab Hpa Hfirst Hcont data2 Hdata2. unfold continuation, join_state in Hcont. rewrite Hs0 in Hcont. unfold first_cluster in *.
  change next_grapheme with GraphemeNext in Hcont. set (addr := address + chars_of (take_columns (b - 1) G)) in *. set (a := previous_text b G) in *.
  destruct (GraphemeNext GraphemeState_init addr a d) as [[[d0 s1] more]|] eqn:Hrun; [|done]. cbn [mbind option_bind fmap option_fmap option_map fst] in Hfirst, Hcont.
  assert (Hst : is_state (_mode d) GraphemeState_init) by (split; cbn; [lia|by rewrite Hm; left]).
  assert (Hta : is_text a) by (destruct Hab as [Hw Hl]; apply Forall_app in Hw as [? _]; split; [done|rewrite length_app in Hl; lia]).
  destruct Hapart as (Haddr & Hdata & Hsep). assert (Hchars : chars_of (take_columns (b - 1) G) + Z.of_nat (length a) <= chars_of G).
  { unfold a, previous_text. rewrite length_take, length_drop. pose proof (chars_cut_before_le b G HG HbG). pose proof (take_columns_chars (b - 1) G HG ltac:(lia)). lia. }
  assert (Hr0 : forall dt str, 0 < dt -> resume_at GraphemeState_init dt str = 0).
  { intros dt str Hdt. unfold resume_at, resetIfOutOfRange. cbn [beg len GraphemeState_init]. destruct (Z.ltb_spec (0 + 0) dt), (Z.gtb_spec (0 + 0) (dt + Z.of_nat (length str))); lia. }
  destruct (next_advances GraphemeState_init addr a d Hd Hst Hta) as (d2 & s2 & more2 & Hrun2 & Hd0 & Hm0 & Hs1 & Hadv). rewrite Hrun in Hrun2. injection Hrun2 as <- <- <-.
  assert (Hla : (0 < length a)%nat) by (destruct a; [done|cbn; lia]). rewrite Hr0 in Hadv by lia. destruct (Hadv ltac:(lia)) as (Hbeg & Hlen & _).
  assert (Hlen1 : len s1 = Z.of_nat (length a)) by (injection Hfirst; lia). assert (Hlt : (0 < length text)%nat) by (destruct text; [done|cbn; lia]).
  assert (Hrb : resume_at s1 data text = 0).
  { unfold resume_at, resetIfOutOfRange. destruct (Z.ltb_spec (beg s1 + len s1) data), (Z.gtb_spec (beg s1 + len s1) (data + Z.of_nat (length text))); lia. }
  destruct (clusters_resume d GraphemeState_init a text addr data2 data d0 s1 more Hd Hm ltac:(by rewrite <- Hm) Hab Hprev Hne Hpa (Hr0 addr a ltac:(lia)) (Hr0 data2 (a ++ text) Hdata2) Hrun Hlen1 Hrb)
    as (s2 & s3 & more3 & Hb2 & Hab2 & Hlen3 & Hw3 & _). rewrite Hb2 in Hcont. rewrite Hab2. cbn [mbind option_bind] in Hcont |- *. injection Hcont as <- <- <-.
  assert (0 <= len s2).
  { destruct (next_advances s1 data text d0 Hd0 ltac:(by rewrite Hm0) Htext) as (d4 & s4 & m4 & Hrun4 & _ & _ & _ & Hadv4). rewrite Hb2 in Hrun4. injection Hrun4 as <- <- <-.
    destruct (Hadv4 ltac:(lia)) as (_ & ? & _). lia. }
  rewrite Hlen3, Hw3, Hlen1. do 2 f_equal. lia.
Qed.
End layout.

Section text.
Context `{Allocator} (isa : Intrinsics) (charsAddress : ROW -> Z).

(** C26: Text is written into a row as grapheme clusters, and none of it is lost. With [k] the number of units by which the detector continues the glyph before the column, and the clusters of
    the rest of the text, each in its columns: the first [k] units join that glyph and the clusters follow as long as they fit ([laid_out]). Where the detector measures grapheme clusters and
    the glyph before is one cluster, [k] is what the first cluster of that glyph and the text together has beyond the glyph. (Where the cell before holds more than one cluster, or half a wide
    glyph that is cut off, the detector is asked all the same, and the text may join it.) Left out of this is the one case in which ASCII characters fill the columns and another
    character follows: a mark is then not put with the last of them. In every case the text of the row up to where the new text ends is what was there
    before the column, cut glyphs being spaces, and then the units consumed, which are all of them unless fewer than two columns are left; the rest is handed back, the columns from there on keep their
    glyphs, cut ones becoming spaces, nothing before the reported first column changes, nor attributes and flags.
    Or the heap is exhausted, and the row is reset. The text is not in the memory of the row, and there is room for it in the 15 bits of the offsets. *)
Theorem text_is_laid_out r G l d state : shows r G -> units G -> attributes r l -> is_known d -> is_text (text state) -> text state <> [] ->
  elsewhere charsAddress r (textData state) (text state) -> room r (Z.of_nat (length (text state))) ->
  let b := clamped (columnBegin state) r in
  let limit := clamped (columnLimit state) r in
  let before := previous_text b G in
  (b < limit)%nat ->
  exists d1 k w cs W q dirty,
    continuation (charsAddress r) b G (textData state) (text state) d = Some (d1, k, w) /\ clusters_from (textData state) (text state) k d1 = Some cs /\
    (~ ascii_cut (limit - b) (text state) -> W = laid_out b limit G (text state) k w cs) /\
    (_mode d = Graphemes -> starts_ascii (text state) = false -> before <> [] -> pair_apart before (text state) ->
     fst <$> first_cluster (charsAddress r + chars_of (take_columns (b - 1) G)) before d = Some (length before) ->
     forall data, 0 < data -> first_cluster data (before ++ text state) d = Some ((length before + k)%nat, w)) /\
    text_of W = text_of (cut_before b G) ++ take q (text state) /\ (columns W <= limit)%nat /\ (q = length (text state) \/ limit - columns W <= 1)%nat /\
    (exists K, columns K = dirty /\ K `prefix_of` G /\ K `prefix_of` W /\ (dirty <= b)%nat) /\
    let '((r', _), o) := ReplaceText isa charsAddress state (r, d) in
    writes_or_resets r (planned_state state limit dirty G W q) (planned_row limit G (text state) W q)
      (padded_after G (columns W) (plan_until W limit q (text state)) (_doubleBytePadded r)) (r', o).
Proof.
  intros Hs HU Ha Hd Ht Hne Helse Hroom b limit before Hb. unfold room, elsewhere in *. rewrite (charSize_spec r G Hs) in Hroom, Helse. unfold CharOffsetsMask in Hroom.
  assert (Hok : detector_ok d) by exact Hd. pose proof Hs as (_ & HG & HcG & _). pose proof (clamped_le (columnLimit state) r G Hs) as Hlim. fold limit in Hlim.
  destruct (replace_text_spec isa charsAddress r G l d state Hs Ha Hok (units_text r G Hs HU) Ht Hne Helse Hroom Hb) as (d' & dirty & P & N & q & Hplan & _ & HcW & HtW & Hfull & HR).
  destruct (shows_holds r G Hs) as (unused & Hr).
  destruct (join_state_spec charsAddress _ _ unused G b limit (textData state) (text state) r d HG ltac:(lia) Hok (units_text r G Hs HU) Ht Hne Hr Helse) as (d1 & s & Hjoin & Hd1 & _ & Hlen).
  destruct (plan_laid_out (charsAddress r) b limit G (textData state) (text state) d Hd Ht d' dirty P N q) as (d2 & k & w & cs & Hcont & Hcs & Hlaid); [by exists d1, s|done|].
  exists d2, k, w, cs, (P ++ N), q, dirty. split; [done|]. split; [done|]. split; [done|]. split.
  { intros Hm Hs0 Hprev Hpa Hfirst. apply (continuation_whole (charsAddress r) b G (textData state) (text state) d Hd Ht d2 k w); try done; [lia|]. destruct Ht as [Hw Hl]. unfold before, previous_text. split.
    - apply Forall_app. split; [by apply Forall_take, Forall_drop|done].
    - rewrite length_app, length_take, length_drop. pose proof (chars_cut_before_le b G HG ltac:(lia)). lia. }
  split; [done|]. split; [done|]. split; [done|]. split; [eapply plan_keeps; [done|lia|exact Hplan]|].
  destruct (ReplaceText isa charsAddress state (r, d)) as [[r' d''] o]. apply HR.
Qed.
End text.

(** ** A row *)

(** A heap that always has memory. *)
Definition unlimited : Allocator.
Proof.
  refine {| allocate n := if n <? 0 then None else Some (replicate (Z.to_nat n) 0xcccc) |}.
  intros n l Hl. destruct (Z.ltb_spec n 0); [done|]. injection Hl as <-. rewrite length_replicate. lia.
Defined.

Definition sample_glyphs : list glyph := [mkGlyph [0x61] 1; mkGlyph [0x3042] 2; mkGlyph [0x62; 0x301] 1; space; space].
Definition sample_row : ROW :=
  mkROW [0x61; 0x3042; 0x62; 0x301; 0x20; 0x20; 0xcccc; 0xcccc] None [0; 1; 0x8001; 2; 4; 5; 6; 7] (of_value 6 TextAttribute_ctor) 6
    SingleWidth false false None None.
Definition blank_row (width : Z) : ROW :=
  fst (ROW_ctor SSE2 (replicate (buffer_length width) 0xcccc) (replicate (buffer_length width) 0xcccc) width TextAttribute_ctor).
Definition at_4096 (r : ROW) : Z := 4096.

Lemma sample_shows : shows sample_row sample_glyphs.
Proof.
  split; [split; [cbn; lia|done]|]. split; [repeat (apply Forall_cons; split; [split; [done|cbn; lia]|]); apply Forall_nil; done|]. split; [done|]. split; [cbn; unfold CharOffsetsMask; lia|].
  split; [by exists []|]. split; [by vm_compute|done].
Qed.

Lemma sample_units : units sample_glyphs.
Proof. repeat constructor; unfold is_wchar; lia. Qed.

Lemma sample_attributes : attributes sample_row (replicate 6 TextAttribute_ctor).
Proof. apply (value_attributes sample_row); [cbn; lia|done]. Qed.

Lemma detector_known : is_known s_codepointWidthDetector.
Proof. split; [cbn; lia|]. apply map_Forall_empty. Qed.

Definition sample_state : RowWriteState := mkWriteState 64 [0x301; 0x63; 0x3042] 2 6 0 0 0.

Lemma text_is_laid_out_witness :
  let before := previous_text 2 sample_glyphs in
  exists d1 k w cs W q dirty,
    continuation 4096 2 sample_glyphs 64 [0x301; 0x63; 0x3042] s_codepointWidthDetector = Some (d1, k, w) /\ clusters_from 64 [0x301; 0x63; 0x3042] k d1 = Some cs /\
    (~ ascii_cut 4 [0x301; 0x63; 0x3042] -> W = laid_out 2 6 sample_glyphs [0x301; 0x63; 0x3042] k w cs) /\
    (_mode s_codepointWidthDetector = Graphemes -> starts_ascii [0x301; 0x63; 0x3042] = false -> before <> [] -> pair_apart before [0x301; 0x63; 0x3042] ->
     fst <$> first_cluster (4096 + chars_of (take_columns 1 sample_glyphs)) before s_codepointWidthDetector = Some (length before) ->
     forall data, 0 < data -> first_cluster data (before ++ [0x301; 0x63; 0x3042]) s_codepointWidthDetector = Some ((length before + k)%nat, w)) /\
    text_of W = text_of (cut_before 2 sample_glyphs) ++ take q [0x301; 0x63; 0x3042] /\ (columns W <= 6)%nat /\ (q = 3 \/ 6 - columns W <= 1)%nat /\
    (exists K, columns K = dirty /\ K `prefix_of` sample_glyphs /\ K `prefix_of` W /\ (dirty <= 2)%nat) /\
    let '((r', _), o) := @ReplaceText unlimited _ _ SSE2 at_4096 sample_state (sample_row, s_codepointWidthDetector) in
    @writes_or_resets unlimited _ sample_row (planned_state sample_state 6 dirty sample_glyphs W q)
      (planned_row 6 sample_glyphs [0x301; 0x63; 0x3042] W q)
      (padded_after sample_glyphs (columns W) (plan_until W 6 q [0x301; 0x63; 0x3042]) false) (r', o).
Proof.
  apply (@text_is_laid_out unlimited SSE2 at_4096 sample_row sample_glyphs (replicate 6 TextAttribute_ctor) s_codepointWidthDetector sample_state).
  - exact sample_shows.
  - exact sample_units.
  - exact sample_attributes.
  - exact detector_known.
  - split; [|cbn; lia]. repeat constructor; unfold is_wchar; lia.
  - done.
  - vm_compute. split; [done|]. split; [done|]. by left.
  - vm_compute. done.
  - vm_compute. lia.
Defined.

(** A mark joins the b before it; a letter and a wide glyph do not both fit into the two columns that are left, the wide glyph alone does. *)
Example laid_out_sample : continuation 4096 4 sample_glyphs 64 [0x301; 0x63; 0x3042] s_codepointWidthDetector = Some (s_codepointWidthDetector, 1%nat, 1%nat) /\
  clusters_from 64 [0x301; 0x63; 0x3042] 1 s_codepointWidthDetector = Some [([0x63], 1); ([0x3042], 2)] /\
  laid_out 4 6 sample_glyphs [0x301; 0x63; 0x3042] 1 1 [([0x63], 1); ([0x3042], 2)] = [mkGlyph [0x61] 1; mkGlyph [0x3042] 2; mkGlyph [0x62; 0x301; 0x301] 1; mkGlyph [0x63] 1] /\
  laid_out 4 6 sample_glyphs [0x301; 0x3042] 1 1 [([0x3042], 2)] = [mkGlyph [0x61] 1; mkGlyph [0x3042] 2; mkGlyph [0x62; 0x301; 0x301] 1; mkGlyph [0x3042] 2].
Proof. vm_compute. done. Qed.

(** あ written to the second column of a row of six. *)
Definition sample_written : ROW := fst (@ReplaceCharacters unlimited SSE2 1 2 64 [0x3042] (blank_row 6)).

Lemma row_stays_well_formed_witness :
  let s := (sample_written, s_codepointWidthDetector) in
  in_order s /\ size (fst s) = 6 /\ (forall c, call_ok at_4096 c (fst s) -> @ends_well unlimited _ _ detector_laws s (@run_call unlimited _ _ SSE2 at_4096 c s)) /\
  forall b e attr, (clamped e (fst s) <= clamped b (fst s))%nat -> no_columns_changed s (@run_call unlimited _ _ SSE2 at_4096 (CallReplaceAttributes b e attr) s).
Proof.
  apply (@row_stays_well_formed unlimited _ _ detector_laws SSE2 at_4096 (replicate 8 0xcccc) (replicate 8 0xcccc) 6 TextAttribute_ctor s_codepointWidthDetector (blank_row 6)).
  - lia.
  - done.
  - done.
  - exact detector_known.
  - reflexivity.
  - apply (reachable_call _ _ _ (CallReplaceCharacters 1 2 64 [0x3042]) (blank_row 6, s_codepointWidthDetector) _ (Ret tt)); [apply reachable_start| |reflexivity].
    split; [lia|]. split; [done|]. split; [repeat constructor; unfold is_wchar; lia|]. vm_compute. done.
Defined.

Lemma replaced_glyph_reads_back_witness :
  let '(r', o) := @ReplaceCharacters unlimited SSE2 (Z.of_nat 2) (Z.of_nat 2) 64 [0x3044] sample_row in
  (o = Ret tt /\ GlyphAt (Z.of_nat 2) r' = Some [0x3044] /\ DbcsAttrAt (Z.of_nat 2) r' = Some Leading /\
     (forall A g B n, sample_glyphs = A ++ g :: B -> covers A g n -> (columns A + glyph_width g <= 2 \/ 2 + 2 <= columns A)%nat ->
        GlyphAt (Z.of_nat n) r' = GlyphAt (Z.of_nat n) sample_row /\ DbcsAttrAt (Z.of_nat n) r' = DbcsAttrAt (Z.of_nat n) sample_row) /\
     _attr r' = _attr sample_row) \/
  (o = Throw /\ is_reset sample_row r' /\ exists n, @allocate unlimited n = None).
Proof.
  apply (@replaced_glyph_reads_back unlimited SSE2 sample_row sample_glyphs (replicate 6 TextAttribute_ctor) 2 2 64 [0x3044]).
  - exact sample_shows.
  - exact sample_attributes.
  - lia.
  - done.
  - vm_compute. lia.
  - vm_compute. done.
Defined.

Lemma copy_from_copies_row_witness :
  let '(r', o) := @CopyFrom unlimited SSE2 at_4096 (Other sample_row) (blank_row 3) in
  (o = Ret tt /\ shows r' (copied_row 3 6 sample_glyphs [space; space; space]) /\ attributes r' (resized_attributes 3 (replicate 6 TextAttribute_ctor)) /\
     _lineRendition r' = SingleWidth /\ _wrapForced r' = false /\ _promptData r' = None /\ _imageSlice r' = None) \/
  (o = Throw /\ is_reset (blank_row 3) r' /\ exists n, @allocate unlimited n = None).
Proof.
  apply (@copy_from_copies_row unlimited SSE2 at_4096 (blank_row 3) [space; space; space] (replicate 3 TextAttribute_ctor) sample_row sample_glyphs (replicate 6 TextAttribute_ctor)).
  - destruct (constructed_row_is_blank SSE2 (replicate 8 0xcccc) (replicate 8 0xcccc) 3 TextAttribute_ctor) as (r & Hr & Hs & _); [lia|done|done|].
    apply (f_equal fst) in Hr. change (fst (r, Ret tt)) with r in Hr. subst r. exact Hs.
  - apply (value_attributes (blank_row 3)); [vm_compute; done|reflexivity].
  - exact sample_shows.
  - exact sample_attributes.
  - vm_compute. done.
Defined.

Lemma queries_find_glyph_witness :
  GlyphAt (Z.of_nat 2) sample_row = Some [0x3042] /\ DbcsAttrAt (Z.of_nat 2) sample_row = Some Trailing /\
  AdjustToGlyphStart (Z.of_nat 2) sample_row = Some (Z.of_nat 1) /\ NavigateToNext (Z.of_nat 2) sample_row = Some (Z.of_nat 3) /\
  NavigateToPrevious (Z.of_nat 3) sample_row = Some (Z.of_nat 1) /\ AdjustToGlyphEnd (Z.of_nat 2) sample_row = Some (Z.of_nat 3).
Proof.
  apply (queries_find_glyph sample_row sample_glyphs sample_shows [mkGlyph [0x61] 1] (mkGlyph [0x3042] 2) [mkGlyph [0x62; 0x301] 1; space; space] 2).
  - reflexivity.
  - unfold covers. cbn. lia.
Defined.

Definition sample_mapper : CharToColumnMapper := mkMapper 4096 (_charOffsets sample_row) 6 5 6.
Lemma mapper_finds_glyph_witness :
  exists A B, sample_glyphs = A ++ B /\ has_char A B (clamp 3 0 6) /\
    GetLeadingColumnAt 3 sample_mapper = Some (set_currentColumn (Z.of_nat (columns A)) sample_mapper, Z.of_nat (columns A)) /\
    GetTrailingColumnAt 3 sample_mapper = Some (set_currentColumn (Z.of_nat (columns A)) sample_mapper,
      match B with [] => 6 | g :: _ => Z.of_nat (columns A + glyph_width g - 1) end).
Proof.
  apply (mapper_finds_glyph sample_row sample_glyphs sample_shows sample_mapper 3). split; [reflexivity|]. split; [reflexivity|]. split; [reflexivity|]. cbn. lia.
Defined.

Lemma row_measures_witness :
  exists A k, take_columns 6 sample_glyphs = A ++ replicate k space /\ last (text_of A) <> Some 0x20 /\
    GetText sample_row = Some (text_of A ++ replicate k 0x20) /\ GetLastNonSpaceColumn sample_row = Some (Z.of_nat (columns A)) /\
    MeasureRight sample_row = Some (Z.of_nat (columns A)) /\ ContainsText sample_row = Some (match A with [] => false | _ => true end).
Proof.
  apply (row_measures sample_row sample_glyphs sample_shows).
  - vm_compute. done.
  - repeat constructor; cbn; done.
  - reflexivity.
Defined.

(** ** Calls whose results are not what is meant *)
Definition written_text (column limit : Z) (text : wstring) (r : ROW) : ROW * option wstring :=
  let '((r', _), o) := @ReplaceText unlimited _ _ SSE2 at_4096 (mkWriteState 64 text column limit 0 0 0) (r, s_codepointWidthDetector) in
  (r', match o with Ret state => Some (Row.text state) | _ => None end).

(** The offsets have 15 bits, but [_resizeChars] lets a text have 16: the offset of the end of a text of 32768 characters
    is the flag of a second column, and the text is lost. *)
Example long_text_is_lost :
  let r := fst (@ReplaceCharacters unlimited SSE2 0 1 64 (repeat 0x61 (Z.to_nat 0x8000)) (blank_row 1)) in
  _charOffsets r = [0; 0x8000] /\ GetText r = Some [].
Proof. vm_compute. done. Qed.

(** At the last column the ASCII path leaves a combining mark to the next row, which the path for other text does not. *)
Example ascii_path_splits_cluster :
  snd (written_text 0 2 [0x61; 0x62; 0x301] (blank_row 6)) = Some [0x301] /\ snd (written_text 0 2 [0xe0; 0x62; 0x301] (blank_row 6)) = Some [].
Proof. vm_compute. done. Qed.

(** A cell of more than one cluster swallows the text written after it, which takes no column. *)
Example text_joins_crowded_cell :
  let r := fst (@ReplaceCharacters unlimited SSE2 0 1 64 [0x78; 0x79] (blank_row 6)) in
  let r' := fst (written_text 1 6 [0xe9] r) in
  GlyphAt 0 r' = Some [0x78; 0x79; 0xe9] /\ GlyphAt 1 r' = Some [0x20].
Proof. vm_compute. done. Qed.

(** A combining mark written to the second column of a wide glyph is joined with the space that replaces the glyph, as a wide one. *)
Example mark_joins_cut_glyph :
  let r := fst (written_text 0 6 [0x61; 0x62; 0x3042; 0x63] (blank_row 6)) in
  let r' := fst (written_text 3 6 [0x301] r) in
  GlyphAt 2 r' = Some [0x20; 0x301] /\ DbcsAttrAt 2 r' = Some Leading.
Proof. vm_compute. done. Qed.

(** A wide glyph in the last column: nothing of the text is consumed. *)
Example wide_glyph_consumes_nothing :
  snd (written_text 5 6 [0x3042] (blank_row 6)) = Some [0x3042] /\ GlyphAt 5 (fst (written_text 5 6 [0x3042] (blank_row 6))) = Some [0x20].
Proof. vm_compute. done. Qed.

(** Three wide glyphs: at the first column of the last, [AdjustToGlyphEnd] returns that column; at the second column of the one before, it returns where it ends. *)
Example glyph_end_at_first_column :
  let r := fst (written_text 0 6 [0x3042; 0x3044; 0x3046] (blank_row 6)) in AdjustToGlyphEnd 4 r = Some 4 /\ AdjustToGlyphEnd 3 r = Some 4.
Proof. vm_compute. done. Qed.
