(* ===== verification/RowImages.v ===== *)
(** * Images: their pixels, and the images of rows

    A slice stands for an image of unlimited width, without a pixel outside of its columns.
    Erasing and copying cells do to that image what they say, and so do the static functions
    of [ImageSlice] that copy and erase the images of rows
    ([src/buffer/out/ImageSlice.cpp]). *)

From S2P Require Import Prelude ImageSlice LineRenditions InputEvents TextAttributes Rle Row.

Implicit Types (s : ImageSlice).

(** ** Lines of a buffer *)
Lemma load_store {A} (l l' vs : list A) i j : store l i vs = Some l' ->
  load l' j = if (i <=? j) && (j <? i + Z.of_nat (length vs)) then load vs (j - i) else load l j.
Proof.
  unfold store. destruct (Z.leb_spec 0 i) as [Hi|]; [|done]. destruct (Z.leb_spec (i + Z.of_nat (length vs)) (Z.of_nat (length l))) as [Hl|]; [|done].
  cbn [andb]. intros [= <-]. destruct (Z.leb_spec i j), (Z.ltb_spec j (i + Z.of_nat (length vs))); cbn [andb].
  - rewrite load_app_r; rewrite length_take; [|lia]. rewrite load_app_l by lia. f_equal. lia.
  - rewrite load_app_r; rewrite length_take; [|lia]. rewrite load_app_r by lia. rewrite !load_lookup, lookup_drop by lia. f_equal. lia.
  - rewrite load_app_l by (rewrite length_take; lia). unfold load. destruct (Z.ltb_spec j 0); [done|]. rewrite lookup_take_lt by lia. done.
  - lia.
Qed.

Lemma store_total {A} (l vs : list A) i : 0 <= i -> i + Z.of_nat (length vs) <= Z.of_nat (length l) -> exists l', store l i vs = Some l' /\ length l' = length l.
Proof.
  intros Hi Hl. destruct (store l i vs) as [l'|] eqn:Hs; [exists l'; split; [done|]; by apply (length_store _ _ _ _ Hs)|].
  unfold store in Hs. rewrite !(proj2 (Z.leb_le _ _)) in Hs by lia. done.
Qed.

Lemma loads_total {A} (l : list A) i n : 0 <= i -> 0 <= n -> i + n <= Z.of_nat (length l) ->
  exists vs, loads l i n = Some vs /\ Z.of_nat (length vs) = n /\ forall j, 0 <= j < n -> load vs j = load l (i + j).
Proof.
  intros Hi Hn Hl. unfold loads. rewrite !(proj2 (Z.leb_le _ _)) by lia. cbn [andb]. eexists. split; [reflexivity|]. rewrite length_take, length_drop. split; [lia|].
  intros j Hj. rewrite !load_lookup by lia. rewrite lookup_take_lt, lookup_drop by lia. f_equal. lia.
Qed.

(** Positions in a buffer with lines of [W]. *)
Lemma line_position W y y0 o count off : 0 <= off < W -> 0 <= o -> 0 <= count -> o + count <= W ->
  (y0 * W + o <=? y * W + off) && (y * W + off <? y0 * W + o + count) = (y =? y0) && (o <=? off) && (off <? o + count).
Proof.
  intros Hoff Ho Hc Hw. destruct (Z.eqb_spec y y0) as [->|Hne]; cbn [andb].
  - f_equal; apply eq_true_iff_eq; rewrite ?Z.leb_le, ?Z.ltb_lt; lia.
  - apply andb_false_iff. destruct (Z.ltb_spec y y0); [left; apply Z.leb_gt; nia|right; apply Z.ltb_ge; nia].
Qed.

Definition in_block (y0 lines o count y off : Z) : bool := (y0 <=? y) && (y <? y0 + lines) && ((o <=? off) && (off <? o + count)).

Lemma in_block_next y0 lines o count y off : 0 <= lines ->
  in_block y0 (1 + lines) o count y off = (y =? y0) && (o <=? off) && (off <? o + count) || in_block (y0 + 1) lines o count y off.
Proof.
  intros Hl. unfold in_block. apply eq_true_iff_eq. rewrite orb_true_iff, !andb_true_iff, Z.eqb_eq, !Z.leb_le, !Z.ltb_lt. lia.
Qed.

Section lines.
Context (W h : Z) (HW : 0 <= W).

Lemma line_fits y o count : 0 <= y < h -> 0 <= o -> o + count <= W -> 0 <= y * W + o /\ y * W + o + count <= W * h.
Proof. nia. Qed.

Lemma zeroLines_spec lines : forall dst y0 o count, 0 <= o -> 0 <= count -> o + count <= W -> 0 <= y0 -> y0 + Z.of_nat lines <= h ->
  Z.of_nat (length dst) = W * h ->
  exists dst', zeroLines lines dst (y0 * W + o) W count = Some dst' /\ length dst' = length dst /\
    forall y off, 0 <= off < W -> load dst' (y * W + off) = if in_block y0 (Z.of_nat lines) o count y off then Some 0 else load dst (y * W + off).
Proof.
  induction lines as [|lines IH]; intros dst y0 o count Ho Hc Hw Hy Hh Hl; cbn [zeroLines].
  - exists dst. split; [done|]. split; [done|]. intros y off Hoff. unfold in_block. destruct (Z.leb_spec y0 y), (Z.ltb_spec y (y0 + Z.of_nat 0)); try done; lia.
  - destruct (line_fits y0 o count ltac:(lia) Ho Hw) as [Hf1 Hf2].
    destruct (store_total dst (replicate (Z.to_nat count) 0) (y0 * W + o)) as (dst1 & Hs & Hl1); [lia|rewrite length_replicate; lia|]. rewrite Hs. cbn [mbind option_bind].
    destruct (IH dst1 (y0 + 1) o count Ho Hc Hw ltac:(lia) ltac:(lia) ltac:(by rewrite Hl1)) as (dst' & Hrun & Hl' & Hload).
    exists dst'. split; [by replace (y0 * W + o + W) with ((y0 + 1) * W + o) by lia|]. split; [congruence|]. intros y off Hoff.
    rewrite Hload by done. rewrite (load_store _ _ _ _ _ Hs), length_replicate, Z2Nat.id, line_position by done.
    rewrite Nat2Z.inj_succ, <- Z.add_1_l, in_block_next by lia. destruct (in_block (y0 + 1) _ _ _ _ _); [by rewrite orb_true_r|]. rewrite orb_false_r.
    destruct (Z.eqb_spec y y0) as [->|]; [|done]. cbn [andb]. destruct (Z.leb_spec o off), (Z.ltb_spec off (o + count)); cbn [andb]; try done.
    rewrite load_lookup by lia. apply lookup_replicate_2. lia.
Qed.

Lemma copyLines_spec lines W2 src : forall dst y0 o o2 count, 0 <= o -> 0 <= count -> o + count <= W -> 0 <= o2 -> o2 + count <= W2 -> 0 <= y0 -> y0 + Z.of_nat lines <= h ->
  Z.of_nat (length dst) = W * h -> Z.of_nat (length src) = W2 * h ->
  exists dst', copyLines lines dst (y0 * W + o) W src (y0 * W2 + o2) W2 count = Some dst' /\ length dst' = length dst /\
    forall y off, 0 <= off < W -> load dst' (y * W + off) =
      if in_block y0 (Z.of_nat lines) o count y off then load src (y * W2 + (o2 + (off - o))) else load dst (y * W + off).
Proof.
  induction lines as [|lines IH]; intros dst y0 o o2 count Ho Hc Hw Ho2 Hw2 Hy Hh Hl Hl2; cbn [copyLines].
  - exists dst. split; [done|]. split; [done|]. intros y off Hoff. unfold in_block. destruct (Z.leb_spec y0 y), (Z.ltb_spec y (y0 + Z.of_nat 0)); try done; lia.
  - destruct (line_fits y0 o count ltac:(lia) Ho Hw) as [Hf1 Hf2]. assert (Hf3 : 0 <= y0 * W2 + o2 /\ y0 * W2 + o2 + count <= W2 * h) by nia.
    destruct (loads_total src (y0 * W2 + o2) count ltac:(lia) Hc ltac:(lia)) as (line & Hline & Hll & Hlv). rewrite Hline. cbn [mbind option_bind].
    destruct (store_total dst line (y0 * W + o)) as (dst1 & Hs & Hl1); [lia|lia|]. rewrite Hs. cbn [mbind option_bind].
    destruct (IH dst1 (y0 + 1) o o2 count Ho Hc Hw Ho2 Hw2 ltac:(lia) ltac:(lia) ltac:(by rewrite Hl1) Hl2) as (dst' & Hrun & Hl' & Hload).
    exists dst'. split; [replace (y0 * W + o + W) with ((y0 + 1) * W + o) by lia; by replace (y0 * W2 + o2 + W2) with ((y0 + 1) * W2 + o2) by lia|]. split; [congruence|]. intros y off Hoff.
    rewrite Hload by done. rewrite (load_store _ _ _ _ _ Hs), Hll, line_position by done.
    rewrite Nat2Z.inj_succ, <- Z.add_1_l, in_block_next by lia. destruct (in_block (y0 + 1) _ _ _ _ _); [by rewrite orb_true_r|]. rewrite orb_false_r.
    destruct (Z.eqb_spec y y0) as [->|]; [|done]. cbn [andb]. destruct (Z.leb_spec o off), (Z.ltb_spec off (o + count)); cbn [andb]; try done.
    rewrite Hlv by lia. f_equal. lia.
Qed.

(** In one buffer a line is moved within the line. *)
Lemma moveLines_spec lines : forall buffer y0 o o2 count, 0 <= o -> 0 <= count -> o + count <= W -> 0 <= o2 -> o2 + count <= W -> 0 <= y0 -> y0 + Z.of_nat lines <= h ->
  Z.of_nat (length buffer) = W * h ->
  exists buffer', moveLines lines buffer (y0 * W + o) (y0 * W + o2) W count = Some buffer' /\ length buffer' = length buffer /\
    forall y off, 0 <= off < W -> load buffer' (y * W + off) =
      if in_block y0 (Z.of_nat lines) o count y off then load buffer (y * W + (o2 + (off - o))) else load buffer (y * W + off).
Proof.
  induction lines as [|lines IH]; intros buffer y0 o o2 count Ho Hc Hw Ho2 Hw2 Hy Hh Hl; cbn [moveLines].
  - exists buffer. split; [done|]. split; [done|]. intros y off Hoff. unfold in_block. destruct (Z.leb_spec y0 y), (Z.ltb_spec y (y0 + Z.of_nat 0)); try done; lia.
  - destruct (line_fits y0 o count ltac:(lia) Ho Hw) as [Hf1 Hf2]. destruct (line_fits y0 o2 count ltac:(lia) Ho2 Hw2) as [Hf3 Hf4].
    destruct (loads_total buffer (y0 * W + o2) count ltac:(lia) Hc ltac:(lia)) as (line & Hline & Hll & Hlv). rewrite Hline. cbn [mbind option_bind].
    destruct (store_total buffer line (y0 * W + o)) as (b1 & Hs & Hl1); [lia|lia|]. rewrite Hs. cbn [mbind option_bind].
    destruct (IH b1 (y0 + 1) o o2 count Ho Hc Hw Ho2 Hw2 ltac:(lia) ltac:(lia) ltac:(by rewrite Hl1)) as (b' & Hrun & Hl' & Hload).
    exists b'. split; [replace (y0 * W + o + W) with ((y0 + 1) * W + o) by lia; by replace (y0 * W + o2 + W) with ((y0 + 1) * W + o2) by lia|]. split; [congruence|]. intros y off Hoff.
    rewrite Hload by done. rewrite Nat2Z.inj_succ, <- Z.add_1_l, in_block_next by lia. destruct (in_block (y0 + 1) (Z.of_nat lines) o count y off) eqn:Hin; [rewrite orb_true_r|rewrite orb_false_r].
    + unfold in_block in Hin. rewrite !andb_true_iff, !Z.leb_le, !Z.ltb_lt in Hin. rewrite (load_store _ _ _ _ _ Hs), Hll, line_position by lia.
      by rewrite (proj2 (Z.eqb_neq _ _)) by lia.
    + rewrite (load_store _ _ _ _ _ Hs), Hll, line_position by done. destruct (Z.eqb_spec y y0) as [->|]; [|done]. cbn [andb].
      destruct (Z.leb_spec o off), (Z.ltb_spec off (o + count)); cbn [andb]; try done. rewrite Hlv by lia. f_equal. lia.
Qed.
End lines.

(** ** Pixels *)
Definition slice_ok s : Prop :=
  0 < cell_width s /\ 0 < cell_height s /\ _columnBegin s <= _columnEnd s /\
  _pixelWidth s = (_columnEnd s - _columnBegin s) * cell_width s /\ Z.of_nat (length (_pixelBuffer s)) = _pixelWidth s * cell_height s.

(** The pixel at [x], [y] of the cell in a column; 0 is transparent. *)
Definition pixel s (c x y : Z) : RGBQUAD :=
  if (_columnBegin s <=? c) && (c <? _columnEnd s)
  then default 0 (load (_pixelBuffer s) (y * _pixelWidth s + ((c - _columnBegin s) * cell_width s + x))) else 0.

(** A result of [_eraseCells] and [_copyCells]: a slice that is gone shows nothing. *)
Definition result_pixel (result : ImageSlice * bool) (c x y : Z) : RGBQUAD := if snd result then 0 else pixel (fst result) c x y.

Definition in_cell s (x y : Z) : Prop := 0 <= x < cell_width s /\ 0 <= y < cell_height s.

(** A cell is within a line, and in a range of columns with all of its pixels. *)
Lemma cell_offset w b e c x : 0 < w -> 0 <= x < w -> b <= c < e -> 0 <= (c - b) * w + x < (e - b) * w.
Proof. nia. Qed.

Lemma cell_in_range w b lo hi c x : 0 < w -> 0 <= x < w ->
  ((lo - b) * w <=? (c - b) * w + x) && ((c - b) * w + x <? (lo - b) * w + (hi - lo) * w) = (lo <=? c) && (c <? hi).
Proof.
  intros Hw Hx. f_equal; apply eq_true_iff_eq; rewrite ?Z.leb_le, ?Z.ltb_lt; nia.
Qed.

Lemma position_fits W h y off : 0 <= off < W -> 0 <= y < h -> 0 <= y * W + off < W * h.
Proof. nia. Qed.

Lemma in_rows s x y : in_cell s x y -> (0 <=? y) && (y <? 0 + Z.of_nat (Z.to_nat (cell_height s))) = true.
Proof. intros [_ Hy]. apply andb_true_iff. rewrite Z.leb_le, Z.ltb_lt. lia. Qed.

Lemma pixel_outside s c x y : c < _columnBegin s \/ _columnEnd s <= c -> pixel s c x y = 0.
Proof. intros Hc. unfold pixel. destruct (Z.leb_spec (_columnBegin s) c), (Z.ltb_spec c (_columnEnd s)); try done; lia. Qed.

(** The same columns and cells, other pixels. *)
Definition same_shape s s' : Prop := _cellSize s' = _cellSize s /\ _columnBegin s' = _columnBegin s /\ _columnEnd s' = _columnEnd s /\ _pixelWidth s' = _pixelWidth s.

Lemma shape_ok s buffer : slice_ok s -> length buffer = length (_pixelBuffer s) -> slice_ok (set_pixelBuffer buffer s).
Proof. intros (H1 & H2 & H3 & H4 & H5) Hl. unfold slice_ok. cbn. rewrite Hl. done. Qed.

(** ** [_eraseCells] *)
Lemma erase_spec s cb ce : slice_ok s -> exists s' gone, _eraseCells cb ce s = Some (s', gone) /\ slice_ok s' /\ same_shape s s' /\
  forall c x y, in_cell s x y -> result_pixel (s', gone) c x y = if (cb <=? c) && (c <? ce) then 0 else pixel s c x y.
Proof.
  intros Hok. pose proof Hok as (Hcw & Hch & Hbe & HW & Hl). unfold _eraseCells.
  destruct ((cb <=? _columnBegin s) && (ce >=? _columnEnd s)) eqn:Hall.
  { exists s, true. split; [done|]. split; [done|]. split; [done|]. intros c x y Hc. cbn. apply andb_true_iff in Hall as [H1 H2]. rewrite Z.geb_leb in H2. apply Z.leb_le in H1, H2.
    destruct (Z.leb_spec cb c), (Z.ltb_spec c ce); cbn [andb]; try done; symmetry; apply pixel_outside; lia. }
  clear Hall. destruct (Z.ltb_spec (Z.max cb (_columnBegin s)) (Z.min ce (_columnEnd s))) as [Hlt|Hge].
  - set (lo := Z.max cb (_columnBegin s)) in *. set (hi := Z.min ce (_columnEnd s)) in *.
    destruct (zeroLines_spec (_pixelWidth s) (cell_height s) ltac:(nia) (Z.to_nat (cell_height s)) (_pixelBuffer s) 0 ((lo - _columnBegin s) * cell_width s) ((hi - lo) * cell_width s))
      as (buffer & Hrun & Hlb & Hload); [nia|nia|nia|lia|lia|done|]. rewrite Z.mul_0_l, Z.add_0_l in Hrun. rewrite Hrun. cbn [mbind option_bind].
    eexists _, _. split; [reflexivity|]. split; [by apply shape_ok|]. split; [done|]. intros c x y Hc. cbn [result_pixel fst snd]. unfold pixel. cbn [set_pixelBuffer _columnBegin _columnEnd _pixelBuffer _pixelWidth _cellSize].
    destruct (Z.leb_spec (_columnBegin s) c), (Z.ltb_spec c (_columnEnd s)); cbn [andb]; try (by destruct (_ && _)).
    pose proof (proj1 Hc) as Hx. pose proof (cell_offset (cell_width s) (_columnBegin s) (_columnEnd s) c x Hcw Hx ltac:(lia)) as Hoff. rewrite <- HW in Hoff.
    rewrite Hload by done. unfold in_block. rewrite (in_rows s x y Hc), cell_in_range by done. cbn [andb].
    replace ((lo <=? c) && (c <? hi)) with ((cb <=? c) && (c <? ce)); [destruct (_ && _); done|]. apply eq_true_iff_eq. rewrite !andb_true_iff, !Z.leb_le, !Z.ltb_lt. lia.
  - exists s, false. split; [done|]. split; [done|]. split; [done|]. intros c x y Hc. cbn. destruct (Z.leb_spec cb c), (Z.ltb_spec c ce); cbn [andb]; try done. apply pixel_outside. lia.
Qed.

(** ** [MutablePixels] *)
Lemma mutable_spec s cb ce : slice_ok s -> cb < ce -> exists s', MutablePixels cb ce s = Some (s', (cb - _columnBegin s') * cell_width s) /\ slice_ok s' /\
  _cellSize s' = _cellSize s /\ _columnBegin s' <= cb /\ ce <= _columnEnd s' /\
  (_columnBegin s < _columnEnd s -> _columnBegin s' <= _columnBegin s /\ _columnEnd s <= _columnEnd s') /\ forall c x y, in_cell s x y -> pixel s' c x y = pixel s c x y.
Proof.
  intros Hok Hlt. pose proof Hok as (Hcw & Hch & Hbe & HW & Hl). unfold MutablePixels.
  assert (Hex : match _pixelBuffer s with [] => false | _ => true end = (_columnBegin s <? _columnEnd s)).
  { destruct (Z.ltb_spec (_columnBegin s) (_columnEnd s)) as [Hc|Hc]; destruct (_pixelBuffer s); try done; cbn [length] in Hl.
    - assert (0 < _pixelWidth s) by (rewrite HW; nia). assert (0 < _pixelWidth s * cell_height s) by nia. lia.
    - replace (_columnEnd s - _columnBegin s) with 0 in HW by lia. rewrite HW in Hl. lia. }
  rewrite Hex. assert (Haddr : forall s', slice_ok s' -> _cellSize s' = _cellSize s -> _columnBegin s' <= cb -> ce <= _columnEnd s' ->
    address s' ((cb - _columnBegin s') * cell_width s') = Some ((cb - _columnBegin s') * cell_width s)).
  { intros s' (H1 & H2 & H3 & H4 & H5) Hcell Hb He. unfold address. destruct (load_bound (_pixelBuffer s') ((cb - _columnBegin s') * cell_width s')) as [v Hv]; [rewrite H5; assert ((cb - _columnBegin s') * cell_width s' < _pixelWidth s') by nia; nia|].
    rewrite Hv. cbn. by rewrite Hcell. }
  destruct (negb (_columnBegin s <? _columnEnd s) || (cb <? _columnBegin s) || (ce >? _columnEnd s)) eqn:Hgrow.
  - destruct (Z.ltb_spec (_columnBegin s) (_columnEnd s)) as [Hdata|Hnone]; cbn [negb] in *.
    + set (nb := Z.min (_columnBegin s) cb). set (ne := Z.max (_columnEnd s) ce). set (W := (ne - nb) * cell_width s).
      rewrite (Z.min_l (_pixelWidth s)) by (unfold W; nia).
      destruct (copyLines_spec W (cell_height s) ltac:(unfold W; nia) (Z.to_nat (cell_height s)) (_pixelWidth s) (_pixelBuffer s) (replicate (Z.to_nat (W * cell_height s)) 0) 0
        ((_columnBegin s - nb) * cell_width s) 0 (_pixelWidth s)) as (buffer & Hrun & Hlb & Hload); [nia|nia|unfold W; nia|lia|lia|lia|lia|rewrite length_replicate; unfold W; nia|done|].
      rewrite !Z.mul_0_l, !Z.add_0_l in Hrun. rewrite Hrun. cbn [mbind option_bind]. set (s' := set_pixelBuffer buffer (set_columns nb ne W s)).
      assert (Hok' : slice_ok s') by (unfold slice_ok; cbn; rewrite Hlb, length_replicate; unfold W; split; [done|]; split; [done|]; split; [lia|]; split; [done|]; nia).
      rewrite (Haddr s' Hok' eq_refl) by (cbn; lia). cbn [mbind option_bind]. exists s'. split; [done|]. split; [done|]. split; [done|]. split; [cbn; lia|]. split; [cbn; lia|]. split; [cbn; lia|].
      intros c x y Hc. pose proof (proj1 Hc) as Hx. unfold pixel. cbn [s' set_pixelBuffer set_columns _columnBegin _columnEnd _pixelBuffer _pixelWidth _cellSize].
      destruct (Z.leb_spec nb c) as [Hc1|], (Z.ltb_spec c ne) as [Hc2|]; cbn [andb];
        try (destruct (Z.leb_spec (_columnBegin s) c), (Z.ltb_spec c (_columnEnd s)); cbn [andb]; try done; lia).
      pose proof (cell_offset (cell_width s) nb ne c x Hcw Hx ltac:(lia)) as Hoff. fold W in Hoff. rewrite Hload by done. unfold in_block. rewrite (in_rows s x y Hc). cbn [andb].
      pose proof (cell_in_range (cell_width s) nb (_columnBegin s) (_columnEnd s) c x Hcw Hx) as Hin. rewrite <- HW in Hin. rewrite Hin.
      pose proof (position_fits W (cell_height s) y _ Hoff (proj2 Hc)) as Hpos.
      destruct (Z.leb_spec (_columnBegin s) c), (Z.ltb_spec c (_columnEnd s)); cbn [andb]; [do 2 f_equal; lia|..];
        (rewrite load_lookup, lookup_replicate_2 by lia; done).
    + set (W := (ce - cb) * cell_width s). cbn [mbind option_bind]. set (s' := set_pixelBuffer _ _).
      assert (Hok' : slice_ok s') by (unfold slice_ok; cbn; rewrite length_replicate; split; [done|]; split; [done|]; split; [lia|]; split; [done|]; rewrite Z2Nat.id; [done|]; assert (0 <= W) by (unfold W; nia); nia).
      rewrite (Haddr s' Hok' eq_refl) by (cbn; lia). cbn [mbind option_bind]. exists s'. split; [done|]. split; [done|]. split; [done|]. split; [cbn; lia|]. split; [cbn; lia|]. split; [cbn; lia|].
      intros c x y Hc. pose proof Hc as [Hx Hy]. rewrite (pixel_outside s) by lia. unfold pixel. cbn [s' set_pixelBuffer set_columns _columnBegin _columnEnd _pixelBuffer _pixelWidth _cellSize].
      destruct (Z.leb_spec cb c), (Z.ltb_spec c ce); cbn [andb]; try done. pose proof (cell_offset (cell_width s) cb ce c x Hcw Hx ltac:(lia)) as Hoff. fold W in Hoff.
      pose proof (position_fits W (cell_height s) y _ Hoff Hy) as Hpos. rewrite load_lookup, lookup_replicate_2 by lia. done.
  - rewrite !orb_false_iff, negb_false_iff, Z.gtb_ltb, Z.ltb_lt, !Z.ltb_ge in Hgrow. cbn [mbind option_bind]. rewrite (Haddr s Hok eq_refl) by lia. cbn [mbind option_bind].
    exists s. split; [done|]. split; [done|]. split; [done|]. split; [lia|]. split; [lia|]. split; [lia|done].
Qed.

(** ** [_copyCells] *)

(** The address of a column of the slice. *)
Lemma pixelsAt_spec s c : slice_ok s -> _columnBegin s <= c < _columnEnd s -> PixelsAt c s = Some ((c - _columnBegin s) * cell_width s).
Proof.
  intros (H1 & H2 & H3 & H4 & H5) Hc. unfold PixelsAt, address. destruct (load_bound (_pixelBuffer s) ((c - _columnBegin s) * cell_width s)) as [v Hv]; [|by rewrite Hv].
  assert ((c - _columnBegin s) * cell_width s < _pixelWidth s) by nia. nia.
Qed.

(** Cells written at [wb], from column [ub] of the source, which is another slice or the slice itself. *)
Definition copied_lines (srcSlice : option ImageSlice) (wb ub n : Z) s : option (list RGBQUAD) :=
  let to := (wb - _columnBegin s) * cell_width s in
  let count := n * cell_width s in
  match srcSlice with
  | Some src => copyLines (Z.to_nat (cell_height s)) (_pixelBuffer s) to (_pixelWidth s) (_pixelBuffer src) ((ub - _columnBegin src) * cell_width src) (_pixelWidth src) count
  | None => moveLines (Z.to_nat (cell_height s)) (_pixelBuffer s) to ((ub - _columnBegin s) * cell_width s) (_pixelWidth s) count
  end.

Lemma copied_lines_spec srcSlice wb ub n s : slice_ok s -> slice_ok (default s srcSlice) -> _cellSize (default s srcSlice) = _cellSize s -> 0 <= n ->
  _columnBegin s <= wb -> wb + n <= _columnEnd s -> _columnBegin (default s srcSlice) <= ub -> ub + n <= _columnEnd (default s srcSlice) ->
  exists buffer, copied_lines srcSlice wb ub n s = Some buffer /\ slice_ok (set_pixelBuffer buffer s) /\
    forall c x y, in_cell s x y -> pixel (set_pixelBuffer buffer s) c x y =
      if (wb <=? c) && (c <? wb + n) then pixel (default s srcSlice) (c - wb + ub) x y else pixel s c x y.
Proof.
  intros Hok Hok2 Hcell Hn Hb1 Hb2 Hu1 Hu2. pose proof Hok as (Hcw & Hch & Hbe & HW & Hl). pose proof Hok2 as (_ & _ & Hbe2 & HW2 & Hl2). rewrite Hcell in HW2, Hl2.
  assert (Hlines : exists buffer, copied_lines srcSlice wb ub n s = Some buffer /\ length buffer = length (_pixelBuffer s) /\
    forall y off, 0 <= off < _pixelWidth s -> load buffer (y * _pixelWidth s + off) =
      if in_block 0 (Z.of_nat (Z.to_nat (cell_height s))) ((wb - _columnBegin s) * cell_width s) (n * cell_width s) y off
      then load (_pixelBuffer (default s srcSlice)) (y * _pixelWidth (default s srcSlice) + ((ub - _columnBegin (default s srcSlice)) * cell_width s + (off - (wb - _columnBegin s) * cell_width s)))
      else load (_pixelBuffer s) (y * _pixelWidth s + off)).
  { destruct srcSlice as [src|]; cbn [default copied_lines] in *; unfold id in *.
    - destruct (copyLines_spec (_pixelWidth s) (cell_height s) ltac:(nia) (Z.to_nat (cell_height s)) (_pixelWidth src) (_pixelBuffer src) (_pixelBuffer s) 0
        ((wb - _columnBegin s) * cell_width s) ((ub - _columnBegin src) * cell_width s) (n * cell_width s)) as (buffer & Hrun & Hlb & Hload); [nia|nia|nia|nia|nia|lia|lia|done|done|].
      rewrite !Z.mul_0_l, !Z.add_0_l in Hrun. exists buffer. cbv zeta. rewrite Hcell. done.
    - destruct (moveLines_spec (_pixelWidth s) (cell_height s) ltac:(nia) (Z.to_nat (cell_height s)) (_pixelBuffer s) 0
        ((wb - _columnBegin s) * cell_width s) ((ub - _columnBegin s) * cell_width s) (n * cell_width s)) as (buffer & Hrun & Hlb & Hload); [nia|nia|nia|nia|nia|lia|lia|done|].
      rewrite !Z.mul_0_l, !Z.add_0_l in Hrun. exists buffer. done. }
  destruct Hlines as (buffer & Hrun & Hlb & Hload). exists buffer. split; [done|]. split; [by apply shape_ok|]. intros c x y Hc. pose proof (proj1 Hc) as Hx.
  unfold pixel. cbn [set_pixelBuffer _columnBegin _columnEnd _pixelBuffer _pixelWidth _cellSize]. rewrite Hcell.
  destruct (Z.leb_spec (_columnBegin s) c), (Z.ltb_spec c (_columnEnd s)); cbn [andb]; try (destruct (Z.leb_spec wb c), (Z.ltb_spec c (wb + n)); cbn [andb]; try done; lia).
  pose proof (cell_offset (cell_width s) (_columnBegin s) (_columnEnd s) c x Hcw Hx ltac:(lia)) as Hoff. rewrite <- HW in Hoff.
  rewrite Hload by done. unfold in_block. rewrite (in_rows s x y Hc). cbn [andb].
  pose proof (cell_in_range (cell_width s) (_columnBegin s) wb (wb + n) c x Hcw Hx) as Hin. rewrite Z.add_simpl_l in Hin. rewrite Hin.
  destruct (Z.leb_spec wb c), (Z.ltb_spec c (wb + n)); cbn [andb]; try done.
  rewrite (proj2 (Z.leb_le _ _)), (proj2 (Z.ltb_lt _ _)) by lia. cbn [andb]. do 2 f_equal. lia.
Qed.

(** [_copyCells] up to the erasing: the cells that the source has are in the slice. *)
Definition write_cells (srcSlice : option ImageSlice) (wb we ub : Z) s : option ImageSlice :=
  if wb <? we then
    '(s, dstIterator) ← MutablePixels wb we s;
    let src := default s srcSlice in
    srcIterator ← PixelsAt ub src;
    buffer ← (match srcSlice with
              | Some src => copyLines (Z.to_nat (cell_height s)) (_pixelBuffer s) dstIterator (_pixelWidth s)
                              (_pixelBuffer src) srcIterator (_pixelWidth src) ((we - wb) * cell_width s)
              | None => moveLines (Z.to_nat (cell_height s)) (_pixelBuffer s) dstIterator srcIterator (_pixelWidth s) ((we - wb) * cell_width s)
              end);
    Some (set_pixelBuffer buffer s)
  else Some s.

Lemma write_cells_spec srcSlice wb we ub s : slice_ok s -> slice_ok (default s srcSlice) -> _cellSize (default s srcSlice) = _cellSize s ->
  (wb < we -> _columnBegin (default s srcSlice) <= ub /\ ub + (we - wb) <= _columnEnd (default s srcSlice)) ->
  exists s', write_cells srcSlice wb we ub s = Some s' /\ slice_ok s' /\ _cellSize s' = _cellSize s /\
    forall c x y, in_cell s x y -> pixel s' c x y = if (wb <=? c) && (c <? we) then pixel (default s srcSlice) (c - wb + ub) x y else pixel s c x y.
Proof.
  intros Hok Hok2 Hcell Hsrc. unfold write_cells. destruct (Z.ltb_spec wb we) as [Hlt|Hge].
  2:{ exists s. split; [done|]. split; [done|]. split; [done|]. intros c x y _. destruct (Z.leb_spec wb c), (Z.ltb_spec c we); cbn [andb]; try done; lia. }
  destruct (mutable_spec s wb we Hok Hlt) as (s1 & Hmut & Hok1 & Hcell1 & Hb1 & He1 & Hgrow & Hpix). rewrite Hmut. cbn [mbind option_bind]. specialize (Hsrc Hlt).
  assert (Hd : slice_ok (default s1 srcSlice) /\ _cellSize (default s1 srcSlice) = _cellSize s1 /\
    _columnBegin (default s1 srcSlice) <= ub /\ ub + (we - wb) <= _columnEnd (default s1 srcSlice) /\
    forall c x y, in_cell s x y -> pixel (default s1 srcSlice) c x y = pixel (default s srcSlice) c x y).
  { destruct srcSlice as [src|]; cbn in *; unfold id in *; [split; [done|]; split; [congruence|]; split; [lia|]; split; [lia|done]|].
    split; [done|]. split; [done|]. destruct (Hgrow ltac:(lia)). split; [lia|]. split; [lia|done]. }
  destruct Hd as (Hokd & Hcelld & Hub1 & Hub2 & Hpixd). rewrite (pixelsAt_spec (default s1 srcSlice) ub Hokd) by lia. cbn [mbind option_bind]. rewrite <- Hcell1.
  destruct (copied_lines_spec srcSlice wb ub (we - wb) s1 Hok1 Hokd Hcelld ltac:(lia) Hb1 ltac:(lia) Hub1 Hub2) as (buffer & Hrun & Hokb & Hpixb).
  unfold copied_lines in Hrun. destruct srcSlice as [src|]; cbn [default] in *; unfold id in *; rewrite Hrun; cbn [mbind option_bind].
  all: exists (set_pixelBuffer buffer s1); split; [done|]; split; [done|]; split; [done|]; intros c x y Hc.
  all: rewrite Hpixb by (unfold in_cell in *; by rewrite Hcell1); replace (wb + (we - wb)) with we by lia; destruct (_ && _); [by rewrite ?Hpixd|by apply Hpix].
Qed.

(** Erasing, if there is something to erase. *)
Lemma erase_if_spec s lo hi : slice_ok s -> exists s' gone, (if lo <? hi then _eraseCells lo hi s else Some (s, false)) = Some (s', gone) /\ slice_ok s' /\ same_shape s s' /\
  forall c x y, in_cell s x y -> result_pixel (s', gone) c x y = if (lo <=? c) && (c <? hi) then 0 else pixel s c x y.
Proof.
  intros Hok. destruct (Z.ltb_spec lo hi) as [Hlt|Hge]; [by apply erase_spec|]. exists s, false. split; [done|]. split; [done|]. split; [done|].
  intros c x y _. cbn. destruct (Z.leb_spec lo c), (Z.ltb_spec c hi); cbn [andb]; try done; lia.
Qed.

Lemma in_cell_shape s s' x y : same_shape s s' -> in_cell s x y -> in_cell s' x y.
Proof. intros (Hc & _) Hi. unfold in_cell in *. by rewrite Hc. Qed.

Lemma copy_cells_spec srcSlice sc dB dE s : slice_ok s -> slice_ok (default s srcSlice) -> _cellSize (default s srcSlice) = _cellSize s ->
  dB <= dE -> _columnBegin (default s srcSlice) <= sc + (dE - dB) ->
  exists s' gone, _copyCells srcSlice sc dB dE s = Some (s', gone) /\ slice_ok s' /\ _cellSize s' = _cellSize s /\
    forall c x y, in_cell s x y -> result_pixel (s', gone) c x y = if (dB <=? c) && (c <? dE) then pixel (default s srcSlice) (c - dB + sc) x y else pixel s c x y.
Proof.
  intros Hok Hok2 Hcell Hd Hsrc. unfold _copyCells. set (src := default s srcSlice) in *. pose proof Hok2 as (_ & _ & Hbe2 & _).
  set (ub := Z.max sc (_columnBegin src)). set (ue := Z.max (Z.min (sc + dE - dB) (_columnEnd src)) ub). set (wb := ub + (dB - sc)). set (we := ue + (dB - sc)).
  set (db := Z.max dB (_columnBegin s)). set (de := Z.max (Z.min dE (_columnEnd s)) db).
  fold (write_cells srcSlice wb we ub s). destruct (write_cells_spec srcSlice wb we ub s Hok Hok2 Hcell) as (s1 & Hw & Hok1 & Hcell1 & Hpix1); [fold src; lia|].
  rewrite Hw. cbn [mbind option_bind].
  destruct (erase_if_spec s1 db wb Hok1) as (s2 & gone2 & He2 & Hok3 & Hsh2 & Hpix2). rewrite He2. cbn [mbind option_bind].
  assert (Hshape : forall c x y, in_cell s x y -> result_pixel (s2, gone2) c x y =
    if (db <=? c) && (c <? wb) then 0 else if (wb <=? c) && (c <? we) then pixel src (c - wb + ub) x y else pixel s c x y).
  { intros c x y Hc. rewrite Hpix2 by (unfold in_cell in *; by rewrite Hcell1). destruct (_ && _); [done|]. by apply Hpix1. }
  assert (Hspec : forall c x y, (if (we <=? c) && (c <? de) then 0 else if (db <=? c) && (c <? wb) then 0 else if (wb <=? c) && (c <? we) then pixel src (c - wb + ub) x y else pixel s c x y)
    = if (dB <=? c) && (c <? dE) then pixel src (c - dB + sc) x y else pixel s c x y).
  { intros c x y. replace (c - wb + ub) with (c - dB + sc) by lia.
    destruct (Z.leb_spec we c), (Z.ltb_spec c de), (Z.leb_spec db c), (Z.ltb_spec c wb), (Z.leb_spec wb c), (Z.ltb_spec c we), (Z.leb_spec dB c), (Z.ltb_spec c dE);
      cbn [andb]; try done; try lia; rewrite ?(pixel_outside s), ?(pixel_outside src) by lia; done. }
  destruct gone2.
  - exists s2, true. split; [done|]. split; [done|]. split; [destruct Hsh2; congruence|]. intros c x y Hc. rewrite <- Hspec, <- (Hshape c x y Hc). cbn. by destruct (_ && _).
  - rewrite Z.gtb_ltb. destruct (erase_if_spec s2 we de Hok3) as (s3 & gone3 & He3 & Hok4 & Hsh3 & Hpix3). rewrite He3. cbn [mbind option_bind].
    assert (Hcell3 : _cellSize s3 = _cellSize s) by (destruct Hsh2, Hsh3; congruence).
    assert (Hres : forall c x y, in_cell s x y -> result_pixel (s3, gone3) c x y = if (dB <=? c) && (c <? dE) then pixel src (c - dB + sc) x y else pixel s c x y).
    { intros c x y Hc. rewrite Hpix3, <- Hspec by (unfold in_cell in *; destruct Hsh2 as [-> _]; by rewrite Hcell1). destruct (_ && _); [done|]. exact (Hshape c x y Hc). }
    destruct gone3; [by exists s3, true|]. eexists _, _. split; [reflexivity|]. split; [done|]. split; [done|]. intros c x y Hc. rewrite <- Hres by done. unfold result_pixel. cbn [fst snd].
    rewrite Z.geb_leb. destruct (Z.leb_spec (_columnEnd s3) (_columnBegin s3)); [|done]. symmetry. apply pixel_outside. lia.
Qed.

(** ** Images of rows

    The static functions of [ImageSlice] that copy and erase the images of rows
    ([src/buffer/out/ImageSlice.cpp]), and what they do to the pixels. *)

Implicit Types (r : ROW).

Definition GetImageSlice r : option ImageSlice := _imageSlice r.
Definition SetImageSlice (imageSlice : option ImageSlice) r : ROW := set_imageSlice imageSlice r.

Definition CopyRow (srcRow dstRow : ROW) : ROW := SetImageSlice (GetImageSlice srcRow) dstRow.

(** Rows of double width have cells of two columns. *)
Definition image_scale r : Z := if decide (GetLineRendition r <> SingleWidth) then 1 else 0.

Definition EraseCells (columnBegin columnEnd : Z) r : option ROW :=
  match GetImageSlice r with
  | None => Some r
  | Some imageSlice =>
      let scale := image_scale r in
      '(imageSlice, erased) ← _eraseCells (Z.shiftl columnBegin scale) (Z.shiftl columnEnd scale) imageSlice;
      Some (SetImageSlice (if erased : bool then None else Some imageSlice) r)
  end.

Definition CopyCells (srcRow : RowSource) (srcColumn dstColumnBegin dstColumnEnd : Z) (dstRow : ROW) : option ROW :=
  let src := source_row srcRow dstRow in
  match GetImageSlice src with
  | Some srcSlice =>
      if decide (GetLineRendition src <> GetLineRendition dstRow) then EraseCells dstColumnBegin dstColumnEnd dstRow
      else
        let dstSlice := match GetImageSlice dstRow with Some s => s | None => ImageSlice_ctor (CellSize srcSlice) end in
        let scale := image_scale src in
        '(dstSlice, erased) ← _copyCells (match srcRow with This => None | Other _ => Some srcSlice end)
                                (Z.shiftl srcColumn scale) (Z.shiftl dstColumnBegin scale) (Z.shiftl dstColumnEnd scale) dstSlice;
        Some (SetImageSlice (if erased : bool then None else Some dstSlice) dstRow)
  | None => EraseCells dstColumnBegin dstColumnEnd dstRow
  end.

(** ** Pixels *)
Definition image_ok (cells : til_size) r : Prop := match _imageSlice r with Some s => slice_ok s /\ _cellSize s = cells | None => True end.
Definition row_pixel r (c x y : Z) : Z := match _imageSlice r with Some s => pixel s c x y | None => 0 end.
Definition in_size (cells : til_size) (x y : Z) : Prop := 0 <= x < size_width cells /\ 0 <= y < size_height cells.

Lemma set_image_pixel gone s r c x y : row_pixel (SetImageSlice (if gone : bool then None else Some s) r) c x y = result_pixel (s, gone) c x y.
Proof. by destruct gone. Qed.

Lemma set_image_ok cells gone s r : slice_ok s -> _cellSize s = cells -> image_ok cells (SetImageSlice (if gone : bool then None else Some s) r).
Proof. by destruct gone. Qed.

Lemma set_image_same v r : set_imageSlice (_imageSlice r) (SetImageSlice v r) = r.
Proof. by destruct r. Qed.

Lemma erase_row_spec cells cb ce r : image_ok cells r -> exists r', EraseCells cb ce r = Some r' /\ image_ok cells r' /\ set_imageSlice (_imageSlice r) r' = r /\
  forall c x y, in_size cells x y ->
    row_pixel r' c x y = if (Z.shiftl cb (image_scale r) <=? c) && (c <? Z.shiftl ce (image_scale r)) then 0 else row_pixel r c x y.
Proof.
  intros Hok. unfold EraseCells, GetImageSlice. unfold image_ok in Hok. unfold row_pixel at 2. destruct (_imageSlice r) as [s|] eqn:Hi.
  - destruct Hok as [Hok Hcell]. destruct (erase_spec s (Z.shiftl cb (image_scale r)) (Z.shiftl ce (image_scale r)) Hok) as (s' & gone & Hrun & Hok' & (Hc & _) & Hpix).
    cbv zeta. rewrite Hrun. cbn [mbind option_bind]. eexists. split; [reflexivity|]. split; [apply set_image_ok; congruence|]. split; [rewrite <- Hi; apply set_image_same|].
    intros c x y Hin. rewrite set_image_pixel. apply Hpix. unfold in_cell. by rewrite Hcell.
  - exists r. split; [done|]. split; [unfold image_ok; by rewrite Hi|]. split; [rewrite <- Hi; by destruct r|]. intros c x y _. unfold row_pixel. rewrite Hi. by destruct (_ && _).
Qed.

Lemma fresh_slice_ok cells : 0 < size_width cells -> 0 < size_height cells -> slice_ok (ImageSlice_ctor cells).
Proof. intros Hw Hh. unfold slice_ok. cbn. lia. Qed.

Lemma ctor_pixel cells c x y : pixel (ImageSlice_ctor cells) c x y = 0.
Proof. apply pixel_outside. cbn. lia. Qed.

(** Copying cells between rows copies the image over them: inside of the destination columns every pixel becomes that of the source
    columns, or transparent when the source has no image or another line rendition, and outside every pixel stays; nothing else of the row
    changes. The row may be copied onto itself with overlapping columns. The image of the source must not lie after the columns copied. *)
Theorem copy_cells_copies_pixels cells srcRow sc dB dE r :
  0 < size_width cells -> 0 < size_height cells -> image_ok cells (source_row srcRow r) -> image_ok cells r -> dB <= dE ->
  match _imageSlice (source_row srcRow r) with
  | Some s => _columnBegin s <= Z.shiftl sc (image_scale r) + (Z.shiftl dE (image_scale r) - Z.shiftl dB (image_scale r))
  | None => True
  end ->
  exists r', CopyCells srcRow sc dB dE r = Some r' /\ image_ok cells r' /\ set_imageSlice (_imageSlice r) r' = r /\
    forall c x y, in_size cells x y ->
      row_pixel r' c x y =
        if (Z.shiftl dB (image_scale r) <=? c) && (c <? Z.shiftl dE (image_scale r))
        then if decide (GetLineRendition (source_row srcRow r) = GetLineRendition r)
             then row_pixel (source_row srcRow r) (c - Z.shiftl dB (image_scale r) + Z.shiftl sc (image_scale r)) x y else 0
        else row_pixel r c x y.
Proof.
  intros Hw Hh Hsrc Hdst Hd Hbefore. unfold CopyCells, GetImageSlice. set (src := source_row srcRow r) in *.
  destruct (_imageSlice src) as [ss|] eqn:His.
  - destruct (decide (GetLineRendition src <> GetLineRendition r)) as [Hlr|Hlr].
    { destruct (erase_row_spec cells dB dE r Hdst) as (r' & Hrun & Hok & Hsame & Hpix). exists r'. split; [done|]. split; [done|]. split; [done|].
      intros c x y Hin. rewrite Hpix by done. destruct (decide (GetLineRendition src = GetLineRendition r)); [by destruct Hlr|done]. }
    assert (Hlr' : GetLineRendition src = GetLineRendition r) by (destruct (decide (GetLineRendition src = GetLineRendition r)); [done|by destruct Hlr]).
    assert (Hscale : image_scale src = image_scale r) by (unfold image_scale; by rewrite Hlr'). rewrite Hscale. set (k := image_scale r) in *.
    unfold image_ok in Hsrc. rewrite His in Hsrc. destruct Hsrc as [Hoks Hcells]. assert (Hk : 0 <= k) by (unfold k, image_scale; destruct (decide _); lia).
    assert (Hdk : Z.shiftl dB k <= Z.shiftl dE k) by (rewrite !Z.shiftl_mul_pow2 by done; pose proof (Z.pow_pos_nonneg 2 k); nia).
    set (ds := match _imageSlice r with Some s => s | None => ImageSlice_ctor (CellSize ss) end).
    assert (Hds : slice_ok ds /\ _cellSize ds = cells /\ forall c x y, pixel ds c x y = row_pixel r c x y).
    { unfold ds, row_pixel, image_ok in *. unfold CellSize. destruct (_imageSlice r) as [s|]; [split; [apply Hdst|]; split; [apply Hdst|done]|]. rewrite Hcells. split; [by apply fresh_slice_ok|]. split; [done|]. intros. apply ctor_pixel. }
    destruct Hds as (Hokd & Hcelld & Hpixd). set (from := match srcRow with This => None | Other _ => Some ss end).
    assert (Hfrom : default ds from = ss).
    { unfold from, ds, src in *. destruct srcRow; [|done]. cbn [source_row default] in *. by rewrite His. }
    destruct (copy_cells_spec from (Z.shiftl sc k) (Z.shiftl dB k) (Z.shiftl dE k) ds Hokd) as (s' & gone & Hrun & Hok' & Hcell' & Hpix);
      [by rewrite Hfrom|rewrite Hfrom; congruence|done|rewrite Hfrom; lia|].
    cbv zeta. fold ds. rewrite Hrun. cbn [mbind option_bind]. eexists. split; [reflexivity|]. split; [apply set_image_ok; congruence|].
    split; [apply set_image_same|]. intros c x y Hin. rewrite set_image_pixel, Hpix by (unfold in_cell; by rewrite Hcelld). rewrite Hfrom, Hpixd. destruct (decide (GetLineRendition src = GetLineRendition r)); [|done].
    unfold row_pixel at 2. by rewrite His.
  - destruct (erase_row_spec cells dB dE r Hdst) as (r' & Hrun & Hok & Hsame & Hpix). exists r'. split; [done|]. split; [done|]. split; [done|].
    intros c x y Hin. rewrite Hpix by done. unfold row_pixel at 2. rewrite His. by destruct (decide _).
Qed.

(** ** Examples *)

(** A slice of cells of one pixel. *)
Definition sample_slice (b e : Z) (v : RGBQUAD) : ImageSlice := mkImageSlice 1 (mkSize 1 1) (replicate (Z.to_nat (e - b)) v) b e (e - b).
Definition image_row (slice : option ImageSlice) : ROW := mkROW [] None [] (of_value 0 TextAttribute_ctor) 0 SingleWidth false false None slice.

Lemma sample_slice_ok b e v : b <= e -> slice_ok (sample_slice b e v).
Proof. intros Hbe. unfold slice_ok. cbn. rewrite length_replicate. lia. Qed.

Lemma copy_cells_copies_pixels_witness :
  exists r', CopyCells This 2 3 6 (image_row (Some (sample_slice 1 5 7))) = Some r' /\ image_ok (mkSize 1 1) r' /\
    set_imageSlice (Some (sample_slice 1 5 7)) r' = image_row (Some (sample_slice 1 5 7)) /\
    forall c x y, in_size (mkSize 1 1) x y ->
      row_pixel r' c x y = if (3 <=? c) && (c <? 6) then row_pixel (image_row (Some (sample_slice 1 5 7))) (c - 3 + 2) x y
                           else row_pixel (image_row (Some (sample_slice 1 5 7))) c x y.
Proof.
  apply (copy_cells_copies_pixels (mkSize 1 1) This 2 3 6 (image_row (Some (sample_slice 1 5 7)))).
  - cbn. lia.
  - cbn. lia.
  - split; [apply sample_slice_ok; lia|done].
  - split; [apply sample_slice_ok; lia|done].
  - lia.
  - vm_compute. done.
Defined.

(** An image after the columns copied: cells 0 to 9 are copied onto themselves in another row, and the image of that row in the columns 20
    to 39 is deleted, because the image of the source begins in column 50. *)
Example copy_deletes_image_elsewhere :
  option_map _imageSlice (CopyCells (Other (image_row (Some (sample_slice 50 60 7)))) 0 0 10 (image_row (Some (sample_slice 20 40 9)))) = Some None.
Proof. vm_compute. done. Qed.
