(* ===== verification/TerminalOutput.v ===== *)
(** * The character sets of the output

    Models [src/terminal/adapter/terminalOutput.cpp]: the four designated sets, the ones that are
    shifted into the left and the right half of the code table, and the translation of characters. *)
From S2P Require Import Prelude DispatchTypes CharSets.

Record TerminalOutput := mkTerminalOutput {
  _upssId : Z;
  _upssTranslationTable : wstring_view;
  _gsetTranslationTables : list wstring_view;
  _gsetIds : list Z;
  _glSetNumber : nat;
  _grSetNumber : nat;
  _glTranslationTable : wstring_view;
  _grTranslationTable : wstring_view;
  _ssSetNumber : nat;
  _grTranslationEnabled : bool;
  _drcsId : Z;
  _drcsTranslationTable : wstring_view }.
Implicit Types (t : TerminalOutput).

Definition set_upss id table t := mkTerminalOutput id table (_gsetTranslationTables t) (_gsetIds t) (_glSetNumber t) (_grSetNumber t)
  (_glTranslationTable t) (_grTranslationTable t) (_ssSetNumber t) (_grTranslationEnabled t) (_drcsId t) (_drcsTranslationTable t).
Definition set_gsets tables ids t := mkTerminalOutput (_upssId t) (_upssTranslationTable t) tables ids (_glSetNumber t) (_grSetNumber t)
  (_glTranslationTable t) (_grTranslationTable t) (_ssSetNumber t) (_grTranslationEnabled t) (_drcsId t) (_drcsTranslationTable t).
Definition set_gl n table t := mkTerminalOutput (_upssId t) (_upssTranslationTable t) (_gsetTranslationTables t) (_gsetIds t) n (_grSetNumber t)
  table (_grTranslationTable t) (_ssSetNumber t) (_grTranslationEnabled t) (_drcsId t) (_drcsTranslationTable t).
Definition set_gr n table t := mkTerminalOutput (_upssId t) (_upssTranslationTable t) (_gsetTranslationTables t) (_gsetIds t) (_glSetNumber t) n
  (_glTranslationTable t) table (_ssSetNumber t) (_grTranslationEnabled t) (_drcsId t) (_drcsTranslationTable t).
Definition set_ss n t := mkTerminalOutput (_upssId t) (_upssTranslationTable t) (_gsetTranslationTables t) (_gsetIds t) (_glSetNumber t) (_grSetNumber t)
  (_glTranslationTable t) (_grTranslationTable t) n (_grTranslationEnabled t) (_drcsId t) (_drcsTranslationTable t).
Definition set_grEnabled b t := mkTerminalOutput (_upssId t) (_upssTranslationTable t) (_gsetTranslationTables t) (_gsetIds t) (_glSetNumber t) (_grSetNumber t)
  (_glTranslationTable t) (_grTranslationTable t) (_ssSetNumber t) b (_drcsId t) (_drcsTranslationTable t).
Definition set_drcs id table t := mkTerminalOutput (_upssId t) (_upssTranslationTable t) (_gsetTranslationTables t) (_gsetIds t) (_glSetNumber t) (_grSetNumber t)
  (_glTranslationTable t) (_grTranslationTable t) (_ssSetNumber t) (_grTranslationEnabled t) id table.

Module TerminalOutput.

Definition TerminalOutput_ctor (grEnabled : bool) : TerminalOutput :=
  let grTranslationTable := if grEnabled then Some Latin1 else Some Ascii in
  let grId := if grEnabled then vtid "<" else vtid "B" in
  mkTerminalOutput (vtid "A") (Some Latin1) [Some Ascii; Some Ascii; grTranslationTable; grTranslationTable] [vtid "B"; vtid "B"; grId; grId]
    0 2 None None 0 grEnabled 0 None.

Definition SoftReset t : TerminalOutput := TerminalOutput_ctor (_grTranslationEnabled t).
Definition RestoreFrom (savedState t : TerminalOutput) : TerminalOutput := set_grEnabled (_grTranslationEnabled t) savedState.

Definition _LookupTranslationTable94 (charset : Z) t : wstring_view :=
  if charset =? _drcsId t then _drcsTranslationTable t
  else switch charset
    [(vtid "B", Some Ascii); (vtid "1", Some Ascii); (vtid "0", Some DecSpecialGraphics); (vtid "2", Some DecSpecialGraphics); (vtid "<", _upssTranslationTable t);
     (vtid "A", Some BritishNrcs); (vtid "4", Some DutchNrcs); (vtid "5", Some FinnishNrcs); (vtid "C", Some FinnishNrcs); (vtid "R", Some FrenchNrcs);
     (vtid "f", Some FrenchNrcsIso); (vtid "9", Some FrenchCanadianNrcs); (vtid "Q", Some FrenchCanadianNrcs); (vtid "K", Some GermanNrcs); (vtid "Y", Some ItalianNrcs);
     (vtid "6", Some NorwegianDanishNrcs); (vtid "E", Some NorwegianDanishNrcs); (vtid "`", Some NorwegianDanishNrcsIso); (vtid "Z", Some SpanishNrcs);
     (vtid "7", Some SwedishNrcs); (vtid "H", Some SwedishNrcs); (vtid "=", Some SwissNrcs); (vtid "&4", Some DecCyrillic); (vtid "&5", Some RussianNrcs);
     (VTID._FromString [0x22; 0x3f], Some DecGreek); (VTID._FromString [0x22; 0x3e], Some GreekNrcs); (VTID._FromString [0x22; 0x34], Some DecHebrew);
     (vtid "%=", Some HebrewNrcs); (vtid "%0", Some DecTurkish); (vtid "%2", Some TurkishNrcs); (vtid "%5", Some DecSupplemental);
     (vtid "%6", Some PortugueseNrcs)] None.

Definition _LookupTranslationTable96 (charset : Z) t : wstring_view :=
  if charset =? _drcsId t then _drcsTranslationTable t
  else switch charset
    [(vtid "A", Some Latin1); (vtid "<", _upssTranslationTable t); (vtid "B", Some Latin2); (vtid "L", Some LatinCyrillic);
     (vtid "F", Some LatinGreek); (vtid "H", Some LatinHebrew); (vtid "M", Some Latin5)] None.

Abbreviation Output := (M TerminalOutput).

(** [at]: an exception where there is no such set. *)
Definition LockingShift (gsetNumber : nat) : Output unit := fun t =>
  match _gsetTranslationTables t !! gsetNumber with
  | Some table => (set_gl gsetNumber (if decide (table = Some Ascii) then None else table) t, Ret tt)
  | None => (set_gl gsetNumber (_glTranslationTable t) t, Throw)
  end.
Definition LockingShiftRight (gsetNumber : nat) : Output unit := fun t =>
  match _gsetTranslationTables t !! gsetNumber with
  | Some table => (set_gr gsetNumber (if bool_decide (table = Some Latin1) || negb (_grTranslationEnabled t) then None else table) t, Ret tt)
  | None => (set_gr gsetNumber (_grTranslationTable t) t, Throw)
  end.
Definition SingleShift (gsetNumber : nat) : Output unit := modify (set_ss gsetNumber).

(** The locking shifts are reapplied. *)
Definition reapply : Output unit :=
  gl ← gets _glSetNumber;
  LockingShift gl ;;
  gr ← gets _grSetNumber;
  LockingShiftRight gr.

(** [.empty()] of a table: no set is empty. *)
Definition AssignUserPreferenceCharset (charset : Z) (size96 : bool) : Output unit :=
  table ← gets (if size96 then _LookupTranslationTable96 charset else _LookupTranslationTable94 charset);
  match table with
  | None => mret tt
  | Some _ =>
      modify (set_upss charset table) ;;
      modify (fun t => set_gsets (zip_with (fun id old => if id =? vtid "<" then table else old) (_gsetIds t) (_gsetTranslationTables t)) (_gsetIds t) t) ;;
      reapply
  end.

Definition _SetTranslationTable (gsetNumber : nat) (translationTable : wstring_view) : Output unit :=
  modify (fun t => set_gsets (<[gsetNumber := translationTable]> (_gsetTranslationTables t)) (_gsetIds t) t) ;;
  reapply.

Definition designate (gsetNumber : nat) (charset : Z) (translationTable : wstring_view) : Output unit :=
  match translationTable with
  | None => mret tt
  | Some _ =>
      known ← gets (fun t => bool_decide (gsetNumber < length (_gsetIds t))%nat);
      if (known : bool) then
        modify (fun t => set_gsets (_gsetTranslationTables t) (<[gsetNumber := charset]> (_gsetIds t)) t) ;;
        _SetTranslationTable gsetNumber translationTable
      else throw
  end.
Definition Designate94Charset (gsetNumber : nat) (charset : Z) : Output unit :=
  table ← gets (_LookupTranslationTable94 charset);
  designate gsetNumber charset table.
Definition Designate96Charset (gsetNumber : nat) (charset : Z) : Output unit :=
  table ← gets (_LookupTranslationTable96 charset);
  designate gsetNumber charset table.

Definition replaceDrcs (oldTable newTable : wstring_view) (gsetNumber : nat) (gsetTable : wstring_view) : wstring_view :=
  let gsetTable := if decide (gsetTable = Some Drcs94 \/ gsetTable = Some Drcs96) then if (gsetNumber <? 2)%nat then Some Ascii else Some Latin1 else gsetTable in
  if decide (gsetTable = oldTable) then newTable else gsetTable.
Definition _ReplaceDrcsTable (oldTable newTable : wstring_view) : Output unit :=
  if decide (newTable = oldTable) then mret tt
  else
    modify (fun t => set_gsets (imap (replaceDrcs oldTable newTable) (_gsetTranslationTables t)) (_gsetIds t) t) ;;
    reapply.
Definition SetDrcs94Designation (charset : Z) : Output unit :=
  oldTable ← gets (_LookupTranslationTable94 charset);
  _ReplaceDrcsTable oldTable (Some Drcs94) ;;
  modify (set_drcs charset (Some Drcs94)).
Definition SetDrcs96Designation (charset : Z) : Output unit :=
  oldTable ← gets (_LookupTranslationTable96 charset);
  _ReplaceDrcsTable oldTable (Some Drcs96) ;;
  modify (set_drcs charset (Some Drcs96)).

Definition table_size (table : wstring_view) : Z := if (length (characters table) =? 96)%nat then 96 else 94.
Definition GetUserPreferenceCharsetId t : Z := _upssId t.
Definition GetUserPreferenceCharsetSize t : Z := table_size (_upssTranslationTable t).
(** [None]: [at] throws. *)
Definition GetCharsetId (gsetNumber : nat) t : option Z := _gsetIds t !! gsetNumber.
Definition GetCharsetSize (gsetNumber : nat) t : option Z := table_size <$> _gsetTranslationTables t !! gsetNumber.
Definition GetLeftSetNumber t : nat := _glSetNumber t.
Definition GetRightSetNumber t : nat := _grSetNumber t.
Definition IsSingleShiftPending (gsetNumber : nat) t : bool := (_ssSetNumber t =? gsetNumber)%nat.
Definition NeedToTranslate t : bool := bool_decide (_glTranslationTable t <> None) || bool_decide (_grTranslationTable t <> None) || negb (_ssSetNumber t =? 0)%nat.

Definition EnableGrTranslation (enabled : bool) : Output unit :=
  modify (set_grEnabled enabled) ;;
  modify (fun t =>
    let defaultTranslationTable := if enabled then _upssTranslationTable t else Some Ascii in
    let defaultId := if enabled then vtid "<" else vtid "B" in
    set_gsets (<[3%nat := defaultTranslationTable]> (<[2%nat := defaultTranslationTable]> (_gsetTranslationTables t)))
      (<[3%nat := defaultId]> (<[2%nat := defaultId]> (_gsetIds t))) t) ;;
  reapply.

(** The character of a table for a code relative to [base]; the difference is unsigned. *)
Definition entry (table : wstring_view) (base wch : wchar_t) : option wchar_t :=
  let offset := u32 (wch - base) in
  if offset <? Z.of_nat (length (characters table)) then characters table !! Z.to_nat offset else None.

Definition TranslateKey (wch : wchar_t) : Output wchar_t := fun t =>
  if (_ssSetNumber t =? 2)%nat || (_ssSetNumber t =? 3)%nat then
    let ssTranslationTable := default None (_gsetTranslationTables t !! _ssSetNumber t) in
    let wchFound := match entry ssTranslationTable 0x20 wch with Some c => c | None => default wch (entry ssTranslationTable 0xa0 wch) end in
    (set_ss 0 t, Ret wchFound)
  else
    (t, Ret (match entry (_glTranslationTable t) 0x20 wch with Some c => c | None => default wch (entry (_grTranslationTable t) 0xa0 wch) end)).

(** The loop over the string in [AdaptDispatch::PrintString]. *)
Fixpoint translateLoop (string : wstring) : Output wstring :=
  match string with
  | [] => mret []
  | wch :: string => c ← TranslateKey wch; buffer ← translateLoop string; mret (c :: buffer)
  end.
(** The text [AdaptDispatch::PrintString] writes. *)
Definition translateString (string : wstring) : Output wstring :=
  needed ← gets NeedToTranslate;
  if (needed : bool) then translateLoop string else mret string.

End TerminalOutput.
