(* ===== verification/CharsetTheorems.v ===== *)
(** * Character sets: the translation is that of ISO 2022

    The tables for the two halves are kept beside the four sets, and not kept where they would not
    change anything. [translated] is the definition without them, on the same state: a character in the left half of
    the code table is that of the set shifted there, one in the right half that of the other one. [Iso2022] is a machine of its
    own, which keeps no tables but what has been designated, shifted and preferred; it is shown to say how text is translated. *)
From S2P Require Import Prelude DispatchTypes CharSets TerminalOutput.

Implicit Types (t : TerminalOutput) (c : wchar_t) (string : wstring).

(** ** The tables *)
Definition all_sets : list CharSet :=
  [Ascii; Latin1; Latin2; LatinCyrillic; LatinGreek; LatinHebrew; Latin5; DecSupplemental; DecSpecialGraphics; DecCyrillic; DecGreek; DecHebrew; DecTurkish;
   BritishNrcs; DutchNrcs; FinnishNrcs; FrenchNrcs; FrenchNrcsIso; FrenchCanadianNrcs; GermanNrcs; GreekNrcs; HebrewNrcs; ItalianNrcs; NorwegianDanishNrcs;
   NorwegianDanishNrcsIso; PortugueseNrcs; RussianNrcs; SpanishNrcs; SwedishNrcs; SwissNrcs; TurkishNrcs; Drcs94; Drcs96].

Definition table_ok (set : CharSet) : bool :=
  match constructed set with
  | Some table => ((length table =? 95)%nat || (length table =? 96)%nat) && forallb (fun c => (0x20 <=? c) && (c <? 0xf000) && negb ((0x7f <? c) && (c <? 0xa0))) table
  | None => false
  end.

(** Every table can be constructed, has 95 or 96 entries, and no entry is a control character, except that a set of 96 characters may keep DEL. *)
Lemma tables_ok set : table_ok set = true.
Proof. by destruct set; vm_compute. Qed.

Lemma characters_bound set : (0 < length (characters (Some set)) <= 96)%nat.
Proof.
  pose proof (tables_ok set) as Hok. unfold table_ok in Hok. cbn. destruct (constructed set) as [table|]; [|done]. cbn.
  apply andb_true_iff in Hok as [[?%Nat.eqb_eq|?%Nat.eqb_eq]%orb_true_iff _]; lia.
Qed.

Lemma characters_ascii i : (i < 95)%nat -> characters (Some Ascii) !! i = Some (0x20 + Z.of_nat i).
Proof.
  intros Hi. assert (Hall : forallb (fun i => bool_decide (characters (Some Ascii) !! i = Some (0x20 + Z.of_nat i))) (seq 0 95) = true) by (vm_compute; done).
  rewrite forallb_forall in Hall. specialize (Hall i ltac:(apply in_seq; lia)). by apply bool_decide_eq_true in Hall.
Qed.
Lemma characters_latin1 i : (i < 96)%nat -> characters (Some Latin1) !! i = Some (0xa0 + Z.of_nat i).
Proof.
  intros Hi. assert (Hall : forallb (fun i => bool_decide (characters (Some Latin1) !! i = Some (0xa0 + Z.of_nat i))) (seq 0 96) = true) by (vm_compute; done).
  rewrite forallb_forall in Hall. specialize (Hall i ltac:(apply in_seq; lia)). by apply bool_decide_eq_true in Hall.
Qed.

(** ** The definition *)

(** The character of a set at a code, from the first code [base] of a half. *)
Definition in_set (view : wstring_view) (base c : Z) : option wchar_t :=
  if base <=? c then characters view !! Z.to_nat (c - base) else None.
Definition gset (n : nat) t : wstring_view := default None (_gsetTranslationTables t !! n).

Definition translated_shift (n : nat) t c : wchar_t :=
  match in_set (gset n t) 0x20 c with Some c' => c' | None => default c (in_set (gset n t) 0xa0 c) end.
Definition translated t c : wchar_t :=
  match in_set (gset (_glSetNumber t) t) 0x20 c with
  | Some c' => c'
  | None => if _grTranslationEnabled t then default c (in_set (gset (_grSetNumber t) t) 0xa0 c) else c
  end.
(** A single shift is for the next character. *)
Definition translated_string t string : wstring :=
  match string with
  | [] => []
  | c :: rest =>
      if decide (_ssSetNumber t = 2%nat \/ _ssSetNumber t = 3%nat) then translated_shift (_ssSetNumber t) t c :: map (translated t) rest
      else map (translated t) string
  end.

(** ** What is kept *)
Definition sets_ok t : Prop :=
  length (_gsetTranslationTables t) = 4%nat /\ Forall (fun view => view <> None) (_gsetTranslationTables t) /\ length (_gsetIds t) = 4%nat /\
  _upssTranslationTable t <> None /\ (_glSetNumber t < 4)%nat /\ (_grSetNumber t < 4)%nat /\
  (_ssSetNumber t = 0%nat \/ _ssSetNumber t = 2%nat \/ _ssSetNumber t = 3%nat).
Definition left_table t : wstring_view := if decide (gset (_glSetNumber t) t = Some Ascii) then None else gset (_glSetNumber t) t.
Definition right_table t : wstring_view := if bool_decide (gset (_grSetNumber t) t = Some Latin1) || negb (_grTranslationEnabled t) then None else gset (_grSetNumber t) t.
Definition shifts_ok t : Prop := sets_ok t /\ _glTranslationTable t = left_table t /\ _grTranslationTable t = right_table t.

Lemma gset_lookup t n : sets_ok t -> (n < 4)%nat -> _gsetTranslationTables t !! n = Some (gset n t) /\ gset n t <> None.
Proof.
  intros (Hlen & Hall & _) Hn. unfold gset. destruct (lookup_lt_is_Some_2 (_gsetTranslationTables t) n ltac:(lia)) as [view Hv]. rewrite Hv. cbn.
  split; [done|]. by apply (Forall_lookup_1 _ _ _ _ Hall Hv).
Qed.

(** The object with the tables of the halves as they are to be. *)
Definition refreshed t : TerminalOutput := set_gr (_grSetNumber t) (right_table t) (set_gl (_glSetNumber t) (left_table t) t).
Lemma refreshed_ok t : sets_ok t -> shifts_ok (refreshed t).
Proof. intros Hok. split; [exact Hok|done]. Qed.

Lemma left_spec t n : sets_ok t -> (n < 4)%nat -> TerminalOutput.LockingShift n t = (set_gl n (left_table (set_gl n None t)) t, Ret tt).
Proof. intros Hok Hn. unfold TerminalOutput.LockingShift. by rewrite (proj1 (gset_lookup t n Hok Hn)). Qed.
Lemma right_spec t n : sets_ok t -> (n < 4)%nat -> TerminalOutput.LockingShiftRight n t = (set_gr n (right_table (set_gr n None t)) t, Ret tt).
Proof. intros Hok Hn. unfold TerminalOutput.LockingShiftRight. by rewrite (proj1 (gset_lookup t n Hok Hn)). Qed.
Lemma reapply_spec t : sets_ok t -> TerminalOutput.reapply t = (refreshed t, Ret tt).
Proof.
  intros Hok. pose proof Hok as (_ & _ & _ & _ & Hl & Hr & _). unfold TerminalOutput.reapply. rewrite run_gets. erewrite run_bind by (by apply left_spec).
  rewrite run_gets. rewrite right_spec; [done|exact Hok|done].
Qed.

(** ** Any calls *)
Inductive charset_op :=
| OpDesignate94 (n : nat) (charset : Z)
| OpDesignate96 (n : nat) (charset : Z)
| OpPreference (charset : Z) (size96 : bool)
| OpDrcs94 (charset : Z)
| OpDrcs96 (charset : Z)
| OpShift (n : nat)
| OpShiftRight (n : nat)
| OpSingleShift (third : bool)
| OpEnableRight (enabled : bool)
| OpSoftReset
| OpTranslate (string : wstring).

Definition run_op (op : charset_op) : M TerminalOutput unit :=
  match op with
  | OpDesignate94 n charset => TerminalOutput.Designate94Charset n charset
  | OpDesignate96 n charset => TerminalOutput.Designate96Charset n charset
  | OpPreference charset size96 => TerminalOutput.AssignUserPreferenceCharset charset size96
  | OpDrcs94 charset => TerminalOutput.SetDrcs94Designation charset
  | OpDrcs96 charset => TerminalOutput.SetDrcs96Designation charset
  | OpShift n => TerminalOutput.LockingShift n
  | OpShiftRight n => TerminalOutput.LockingShiftRight n
  | OpSingleShift third => TerminalOutput.SingleShift (if third then 3 else 2)
  | OpEnableRight enabled => TerminalOutput.EnableGrTranslation enabled
  | OpSoftReset => modify TerminalOutput.SoftReset
  | OpTranslate string => _ ← TerminalOutput.translateString string; mret tt
  end.
(** There are four sets. *)
Definition op_ok (op : charset_op) : Prop :=
  match op with
  | OpDesignate94 n _ | OpDesignate96 n _ | OpShift n | OpShiftRight n => (n < 4)%nat
  | _ => True
  end.
Fixpoint run_ops (ops : list charset_op) : M TerminalOutput unit := match ops with [] => mret tt | op :: ops => run_op op ;; run_ops ops end.

Definition ends_ok (result : TerminalOutput * Outcome unit) : Prop := snd result = Ret tt /\ shifts_ok (fst result).

Lemma replaced_ok t tables ids : sets_ok t -> length tables = 4%nat -> Forall (fun view => view <> None) tables -> length ids = 4%nat -> sets_ok (set_gsets tables ids t).
Proof. intros (_ & _ & _ & Hrest) H1 H2 H3. split; [done|]. split; [done|]. by split. Qed.

Lemma reapply_ends t : sets_ok t -> ends_ok (TerminalOutput.reapply t).
Proof. intros Hok. rewrite reapply_spec by done. split; [done|]. by apply refreshed_ok. Qed.

Lemma designate_ends t n charset table : shifts_ok t -> (n < 4)%nat -> ends_ok (TerminalOutput.designate n charset table t).
Proof.
  intros [Hok Hc] Hn. destruct table as [table|]; [|by split]. unfold TerminalOutput.designate. pose proof Hok as (H1 & H2 & H3 & _).
  rewrite run_gets, bool_decide_eq_true_2, run_modify by lia. unfold TerminalOutput._SetTranslationTable. rewrite run_modify. apply reapply_ends.
  apply replaced_ok; [by apply replaced_ok; rewrite ?length_insert|cbn; by rewrite length_insert|apply Forall_insert; [exact H2|done]|cbn; by rewrite length_insert].
Qed.

Lemma preference_ends t charset size96 : shifts_ok t -> ends_ok (TerminalOutput.AssignUserPreferenceCharset charset size96 t).
Proof.
  intros [Hok Hc]. unfold TerminalOutput.AssignUserPreferenceCharset. rewrite run_gets. set (view := (if size96 then _ else _) t). clearbody view.
  destruct view as [table|]; [|by split]. rewrite !run_modify. apply reapply_ends.
  pose proof Hok as (H1 & H2 & H3 & _ & Hrest). apply replaced_ok; [|rewrite length_zip_with; cbn; lia| |done].
  - split; [done|]. split; [done|]. split; [done|]. by split.
  - apply Forall_lookup_2. intros i view Hi. cbn in Hi. apply lookup_zip_with_Some in Hi as (id & old & -> & _ & Hold).
    destruct (id =? _); [done|]. by apply (Forall_lookup_1 _ _ _ _ H2 Hold).
Qed.

Lemma drcs_ends t old table : shifts_ok t -> ends_ok (TerminalOutput._ReplaceDrcsTable old (Some table) t).
Proof.
  intros [Hok Hc]. unfold TerminalOutput._ReplaceDrcsTable. destruct (decide _); [by split|]. rewrite run_modify. apply reapply_ends.
  pose proof Hok as (H1 & H2 & H3 & _). apply replaced_ok; [done|by rewrite length_imap| |done].
  apply Forall_lookup_2. intros i view Hi. rewrite list_lookup_imap in Hi. destruct (_gsetTranslationTables t !! i) as [v|] eqn:Hv; [|done]. injection Hi as <-.
  pose proof (Forall_lookup_1 _ _ _ _ H2 Hv) as Hne. unfold TerminalOutput.replaceDrcs. repeat case_decide; destruct (i <? 2)%nat; done.
Qed.

Lemma drcs_set t id table : ends_ok (t, Ret tt) -> ends_ok (set_drcs id table t, Ret tt).
Proof. done. Qed.

Lemma shifted_ok t n : shifts_ok t -> n = 0%nat \/ n = 2%nat \/ n = 3%nat -> shifts_ok (set_ss n t).
Proof. intros [(H1 & H2 & H3 & H4 & H5 & H6 & _) Hc] Hn. split; [|done]. done. Qed.

(** ** Translation *)
Lemma entry_spec view base c : is_wchar c -> 0 <= base <= 0xa0 -> (view = None \/ exists set, view = Some set) -> TerminalOutput.entry view base c = in_set view base c.
Proof.
  intros Hc Hb Hv. unfold TerminalOutput.entry, in_set. assert (Hlen : (length (characters view) <= 96)%nat).
  { destruct view as [set|]; [apply characters_bound|cbn; lia]. }
  unfold is_wchar in Hc. destruct (Z.leb_spec base c).
  - unfold wrap. rewrite Z.mod_small by lia. destruct (Z.ltb_spec (c - base) (Z.of_nat (length (characters view)))); [done|]. symmetry. apply lookup_ge_None_2. lia.
  - unfold wrap. rewrite <- (Z.mod_add _ 1), Z.mod_small by lia. by rewrite (proj2 (Z.ltb_ge _ _)) by lia.
Qed.

Lemma in_ascii c : default c (in_set (Some Ascii) 0x20 c) = c.
Proof.
  unfold in_set. destruct (Z.leb_spec 0x20 c); [|done]. destruct (decide (Z.to_nat (c - 0x20) < 95)%nat) as [Hlt|Hge].
  - rewrite characters_ascii by done. cbn. lia.
  - rewrite lookup_ge_None_2; [done|]. change (length (characters (Some Ascii))) with 95%nat. lia.
Qed.
Lemma in_latin1 c : default c (in_set (Some Latin1) 0xa0 c) = c.
Proof.
  unfold in_set. destruct (Z.leb_spec 0xa0 c); [|done]. destruct (decide (Z.to_nat (c - 0xa0) < 96)%nat) as [Hlt|Hge].
  - rewrite characters_latin1 by done. cbn. lia.
  - rewrite lookup_ge_None_2; [done|]. change (length (characters (Some Latin1))) with 96%nat. lia.
Qed.
Lemma in_none base c : in_set None base c = None.
Proof. unfold in_set. by destruct (base <=? c). Qed.

Lemma right_half t c : default c (in_set (right_table t) 0xa0 c) = if _grTranslationEnabled t then default c (in_set (gset (_grSetNumber t) t) 0xa0 c) else c.
Proof.
  unfold right_table. destruct (bool_decide_reflect (gset (_grSetNumber t) t = Some Latin1)) as [Heq|_]; cbn [orb].
  - rewrite in_none, Heq, in_latin1. by destruct (_grTranslationEnabled t).
  - destruct (_grTranslationEnabled t); [done|]. cbn. by rewrite in_none.
Qed.
Lemma both_halves t c :
  match in_set (left_table t) 0x20 c with Some c' => c' | None => default c (in_set (right_table t) 0xa0 c) end = translated t c.
Proof.
  rewrite right_half. unfold translated, left_table. case_decide as Heq; [|done]. rewrite in_none, Heq. pose proof (in_ascii c) as Hc.
  destruct (in_set (Some Ascii) 0x20 c) as [c'|] eqn:Hin; [|done]. cbn in Hc. subst c'. unfold in_set in *. destruct (Z.leb_spec 0x20 c); [|done].
  apply lookup_lt_Some in Hin. change (length (characters (Some Ascii))) with 95%nat in Hin. rewrite (proj2 (Z.leb_gt 0xa0 c)) by lia. by destruct (_grTranslationEnabled t).
Qed.

Lemma is_view (view : wstring_view) : view = None \/ exists set, view = Some set.
Proof. destruct view; eauto. Qed.

Lemma key_spec t c : shifts_ok t -> is_wchar c -> ~ (_ssSetNumber t = 2%nat \/ _ssSetNumber t = 3%nat) ->
  TerminalOutput.TranslateKey c t = (t, Ret (translated t c)).
Proof.
  intros (Hok & Hl & Hr) Hc Hss. unfold TerminalOutput.TranslateKey. rewrite !(proj2 (Nat.eqb_neq _ _)) by tauto. cbn [orb].
  rewrite !entry_spec by (done || lia || apply is_view). by rewrite Hl, Hr, both_halves.
Qed.
Lemma key_shifted t c : is_wchar c -> _ssSetNumber t = 2%nat \/ _ssSetNumber t = 3%nat ->
  TerminalOutput.TranslateKey c t = (set_ss 0 t, Ret (translated_shift (_ssSetNumber t) t c)).
Proof.
  intros Hc Hss. unfold TerminalOutput.TranslateKey. assert (H23 : ((_ssSetNumber t =? 2)%nat || (_ssSetNumber t =? 3)%nat) = true) by (destruct Hss as [-> | ->]; done).
  rewrite H23, !entry_spec by (done || lia || apply is_view). done.
Qed.

Lemma loop_spec string : forall t, shifts_ok t -> Forall is_wchar string -> ~ (_ssSetNumber t = 2%nat \/ _ssSetNumber t = 3%nat) ->
  TerminalOutput.translateLoop string t = (t, Ret (map (translated t) string)).
Proof.
  induction string as [|c string IH]; intros t Hok Hw Hss; [done|]. apply Forall_cons in Hw as [Hc Hw]. cbn [TerminalOutput.translateLoop].
  erewrite run_bind by (by apply key_spec). erewrite run_bind by (by apply IH). done.
Qed.

Lemma untouched t c : shifts_ok t -> TerminalOutput.NeedToTranslate t = false -> translated t c = c.
Proof.
  intros (Hok & Hl & Hr) Hn. unfold TerminalOutput.NeedToTranslate in Hn. apply orb_false_iff in Hn as [[Hgl Hgr]%orb_false_iff _].
  rewrite bool_decide_eq_false in Hgl, Hgr. apply dec_stable in Hgl, Hgr. rewrite <- both_halves, <- Hl, <- Hr, Hgl, Hgr, !in_none. done.
Qed.

Lemma string_spec t string : shifts_ok t -> Forall is_wchar string ->
  TerminalOutput.translateString string t = (match string with [] => t | _ => set_ss 0 t end, Ret (translated_string t string)).
Proof.
  intros Hok Hw. unfold TerminalOutput.translateString. rewrite run_gets. destruct (TerminalOutput.NeedToTranslate t) eqn:Hn.
  - destruct Hw as [|c string Hc Hw]; [done|]. cbn [translated_string]. case_decide as Hss.
    + cbn [TerminalOutput.translateLoop]. erewrite run_bind by (by apply key_shifted). erewrite run_bind; [done|]. apply (loop_spec string (set_ss 0 t)); [apply shifted_ok; [done|by left]|done|].
      cbn. lia.
    + rewrite loop_spec by (done || by constructor). pose proof Hok as ((_ & _ & _ & _ & _ & _ & Hss') & _). f_equal. assert (Hz : _ssSetNumber t = 0%nat) by tauto. destruct t. cbn in *. by subst.
  - assert (Hss : _ssSetNumber t = 0%nat). { unfold TerminalOutput.NeedToTranslate in Hn. apply orb_false_iff in Hn as [_ Hn]. by destruct (Nat.eqb_spec (_ssSetNumber t) 0). }
    assert (Ht : set_ss 0 t = t) by (destruct t; cbn in *; by subst). destruct string as [|c string]; [done|]. rewrite Ht. unfold mret, M_ret. f_equal. f_equal. cbn [translated_string].
    rewrite decide_False by (rewrite Hss; lia). symmetry. rewrite <- (map_id (c :: string)) at 2. apply map_ext. intros x. by apply untouched.
Qed.

Lemma op_ends op t : shifts_ok t -> op_ok op -> (forall string, op = OpTranslate string -> Forall is_wchar string) -> ends_ok (run_op op t).
Proof.
  intros Hok Hop Hstring. pose proof Hok as [Hsets _]. destruct op as [n charset|n charset|charset size96|charset|charset|n|n|third|enabled| |string]; cbn [run_op op_ok] in *.
  - unfold TerminalOutput.Designate94Charset. rewrite run_gets. by apply designate_ends.
  - unfold TerminalOutput.Designate96Charset. rewrite run_gets. by apply designate_ends.
  - by apply preference_ends.
  - unfold TerminalOutput.SetDrcs94Designation. rewrite run_gets. destruct (drcs_ends t (TerminalOutput._LookupTranslationTable94 charset t) Drcs94 Hok) as [Ho Hs].
    cbv [mbind M_bind]. destruct (TerminalOutput._ReplaceDrcsTable _ _ t) as [t' o]. cbn in Ho. subst o. by apply drcs_set.
  - unfold TerminalOutput.SetDrcs96Designation. rewrite run_gets. destruct (drcs_ends t (TerminalOutput._LookupTranslationTable96 charset t) Drcs96 Hok) as [Ho Hs].
    cbv [mbind M_bind]. destruct (TerminalOutput._ReplaceDrcsTable _ _ t) as [t' o]. cbn in Ho. subst o. by apply drcs_set.
  - rewrite left_spec by done. destruct Hok as [(H1 & H2 & H3 & H4 & _ & H6) [_ Hr]]. split; [done|]. split; [|done]. done.
  - rewrite right_spec by done. destruct Hok as [(H1 & H2 & H3 & H4 & H5 & _ & H6) [Hl _]]. split; [done|]. split; [|done]. done.
  - split; [done|]. apply (shifted_ok t); [done|]. destruct third; lia.
  - unfold TerminalOutput.EnableGrTranslation. rewrite !run_modify. apply reapply_ends. destruct Hsets as (H1 & H2 & H3 & H4 & H5).
    apply replaced_ok; [done|cbn; by rewrite !length_insert| |cbn; by rewrite !length_insert]. cbn. destruct enabled; (apply Forall_insert; [apply Forall_insert; [done|]|]); done.
  - split; [done|]. unfold modify, TerminalOutput.SoftReset. cbn. destruct (_grTranslationEnabled t); (split; [|done]); (split; [done|]); (split; [by repeat constructor|]); cbn; (split; [done|]); (split; [done|]); lia.
  - erewrite run_bind by (apply string_spec; [done|by apply Hstring]). split; [done|]. destruct string; [done|]. apply shifted_ok; [done|by left].
Qed.

Definition ops_ok (ops : list charset_op) : Prop :=
  Forall (fun op => op_ok op /\ match op with OpTranslate string => Forall is_wchar string | _ => True end) ops.

Lemma ops_end ops : forall t, shifts_ok t -> ops_ok ops -> ends_ok (run_ops ops t).
Proof.
  induction ops as [|op ops IH]; intros t Hok Hops; [by split|]. apply Forall_cons in Hops as [[Hop Hstr] Hops]. cbn [run_ops].
  destruct (op_ends op t Hok Hop) as [Ho Hs]; [by intros string ->|]. cbv [mbind M_bind]. destruct (run_op op t) as [t' o]. cbn in *. subst o. by apply IH.
Qed.

(** Whatever sets an application designates and shifts in, loads or prefers, in any order, text is translated by the four sets and the shifts of the
    object: the tables kept for the halves, and that strings bypass the translation when there are none, cannot be seen. *)
Theorem translation_uses_shifted_sets enabled ops string : ops_ok ops -> Forall is_wchar string ->
  exists t, run_ops ops (TerminalOutput.TerminalOutput_ctor enabled) = (t, Ret tt) /\
    TerminalOutput.translateString string t = (match string with [] => t | _ => set_ss 0 t end, Ret (translated_string t string)).
Proof.
  intros Hops Hw. assert (Hok : shifts_ok (TerminalOutput.TerminalOutput_ctor enabled)).
  { destruct enabled; (split; [|done]); (split; [done|]); (split; [by repeat constructor|]); cbn; (split; [done|]); (split; [done|]); lia. }
  destruct (ops_end ops _ Hok Hops) as [Ho Hs]. destruct (run_ops ops _) as [t o]. cbn in Ho, Hs. subst o. exists t. split; [done|]. by apply string_spec.
Qed.

(** ** ISO 2022

    The standard, as a machine that knows what was designated and shifted: sets by the names under which they are registered. *)
Definition registered94 : list (list wstring * CharSet) :=
  [([L "B"; L "1"], Ascii); ([L "0"; L "2"], DecSpecialGraphics); ([L "%5"], DecSupplemental); ([L "&4"], DecCyrillic); ([[0x22; 0x3f]], DecGreek);
   ([[0x22; 0x34]], DecHebrew); ([L "%0"], DecTurkish); ([L "A"], BritishNrcs); ([L "4"], DutchNrcs); ([L "5"; L "C"], FinnishNrcs); ([L "R"], FrenchNrcs);
   ([L "f"], FrenchNrcsIso); ([L "9"; L "Q"], FrenchCanadianNrcs); ([L "K"], GermanNrcs); ([[0x22; 0x3e]], GreekNrcs); ([L "%="], HebrewNrcs);
   ([L "Y"], ItalianNrcs); ([L "6"; L "E"], NorwegianDanishNrcs); ([L "`"], NorwegianDanishNrcsIso); ([L "%6"], PortugueseNrcs); ([L "&5"], RussianNrcs);
   ([L "Z"], SpanishNrcs); ([L "7"; L "H"], SwedishNrcs); ([L "="], SwissNrcs); ([L "%2"], TurkishNrcs)].
Definition registered96 : list (list wstring * CharSet) :=
  [([L "A"], Latin1); ([L "B"], Latin2); ([L "L"], LatinCyrillic); ([L "F"], LatinGreek); ([L "H"], LatinHebrew); ([L "M"], Latin5)].

(** What a G-set holds: a set, or the one that the user prefers, whichever that is. *)
Inductive Designation := IsSet (set : CharSet) | IsPreferred.
Definition preferred_name : wstring := L "<".
Definition goes_by (charset : Z) (entry : list wstring * CharSet) : bool := existsb (fun name => charset =? VTID._FromString name) (fst entry).
Definition named (size96 : bool) (charset : Z) : option Designation :=
  if charset =? VTID._FromString preferred_name then Some IsPreferred
  else (fun entry => IsSet (snd entry)) <$> List.find (goes_by charset) (if size96 then registered96 else registered94).

Record Iso2022 := mkIso2022 {
  iso_sets : list Designation;
  iso_left : nat;
  iso_right : nat;
  iso_single : option nat;
  iso_right_translated : bool;
  iso_preference : CharSet }.

(** At first G0 and G1 are ASCII, and so are the others unless the right half is translated. G0 is in the left half, G2 in the right one. *)
Definition iso_default (enabled : bool) : Designation := if enabled then IsPreferred else IsSet Ascii.
Definition iso_initial (enabled : bool) : Iso2022 :=
  mkIso2022 [IsSet Ascii; IsSet Ascii; iso_default enabled; iso_default enabled] 0 2 None enabled Latin1.

Definition meant (preference : CharSet) (d : Designation) : CharSet := match d with IsSet set => set | IsPreferred => preference end.
Definition iso_set (n : nat) (i : Iso2022) : CharSet := meant (iso_preference i) (default (IsSet Ascii) (iso_sets i !! n)).

Definition iso_designate (n : nat) (d : option Designation) (i : Iso2022) : Iso2022 :=
  match d with
  | Some d => mkIso2022 (<[n := d]> (iso_sets i)) (iso_left i) (iso_right i) (iso_single i) (iso_right_translated i) (iso_preference i)
  | None => i
  end.
Definition iso_step (op : charset_op) (i : Iso2022) : Iso2022 :=
  match op with
  | OpDesignate94 n charset => iso_designate n (named false charset) i
  | OpDesignate96 n charset => iso_designate n (named true charset) i
  | OpPreference charset size96 =>
      match named size96 charset with
      | Some d => mkIso2022 (iso_sets i) (iso_left i) (iso_right i) (iso_single i) (iso_right_translated i) (meant (iso_preference i) d)
      | None => i
      end
  | OpDrcs94 _ | OpDrcs96 _ => i
  | OpShift n => mkIso2022 (iso_sets i) n (iso_right i) (iso_single i) (iso_right_translated i) (iso_preference i)
  | OpShiftRight n => mkIso2022 (iso_sets i) (iso_left i) n (iso_single i) (iso_right_translated i) (iso_preference i)
  | OpSingleShift third => mkIso2022 (iso_sets i) (iso_left i) (iso_right i) (Some (if third then 3 else 2)%nat) (iso_right_translated i) (iso_preference i)
  | OpEnableRight enabled =>
      mkIso2022 (<[3%nat := iso_default enabled]> (<[2%nat := iso_default enabled]> (iso_sets i))) (iso_left i) (iso_right i) (iso_single i) enabled (iso_preference i)
  | OpSoftReset => iso_initial (iso_right_translated i)
  | OpTranslate [] => i
  | OpTranslate _ => mkIso2022 (iso_sets i) (iso_left i) (iso_right i) None (iso_right_translated i) (iso_preference i)
  end.
Definition iso_run (ops : list charset_op) (i : Iso2022) : Iso2022 := fold_left (fun i op => iso_step op i) ops i.

(** A character of the left half is that of the set shifted there, one of the right half that of the other set while it is translated; what the set
    does not have is itself. After a single shift one character is that of the shifted set, in either half. *)
Definition iso_character (i : Iso2022) (c : wchar_t) : wchar_t :=
  match in_set (Some (iso_set (iso_left i) i)) 0x20 c with
  | Some c' => c'
  | None => if iso_right_translated i then default c (in_set (Some (iso_set (iso_right i) i)) 0xa0 c) else c
  end.
Definition iso_shifted (n : nat) (i : Iso2022) (c : wchar_t) : wchar_t :=
  match in_set (Some (iso_set n i)) 0x20 c with Some c' => c' | None => default c (in_set (Some (iso_set n i)) 0xa0 c) end.
Definition iso_text (i : Iso2022) (string : wstring) : wstring :=
  match string, iso_single i with
  | c :: rest, Some n => iso_shifted n i c :: map (iso_character i) rest
  | _, _ => map (iso_character i) string
  end.

(** ** The object is such a machine *)
Definition is_preferred (d : Designation) : bool := match d with IsPreferred => true | _ => false end.
Record iso_means t (i : Iso2022) : Prop := {
  means_sets : _gsetTranslationTables t = map (fun d => Some (meant (iso_preference i) d)) (iso_sets i);
  means_ids : map (fun id => id =? vtid "<") (_gsetIds t) = map is_preferred (iso_sets i);
  means_left : _glSetNumber t = iso_left i;
  means_right : _grSetNumber t = iso_right i;
  means_single : _ssSetNumber t = default 0%nat (iso_single i);
  means_single_ok : iso_single i = None \/ iso_single i = Some 2%nat \/ iso_single i = Some 3%nat;
  means_enabled : _grTranslationEnabled t = iso_right_translated i;
  means_preference : _upssTranslationTable t = Some (iso_preference i);
  means_unloaded : _drcsId t = 0 /\ _drcsTranslationTable t = None }.

Lemma means_refreshed t i : iso_means t i -> iso_means (refreshed t) i.
Proof. intros [? ? ? ? ? ? ? ? ?]. by split. Qed.

(** Names, in the code and in the register. *)
Ltac register_cases charset :=
  unfold named, preferred_name, vtid; cbn [List.find registered94 registered96 goes_by existsb fst snd switch];
  repeat match goal with
  | |- context [charset =? ?z] => destruct (Z.eqb_spec charset z) as [->|?]; [by vm_compute|]
  end; done.
Lemma names94 charset t : _drcsId t = 0 /\ _drcsTranslationTable t = None ->
  TerminalOutput._LookupTranslationTable94 charset t = match named false charset with Some (IsSet set) => Some set | Some IsPreferred => _upssTranslationTable t | None => None end.
Proof.
  intros [Hid Htable]. unfold TerminalOutput._LookupTranslationTable94. rewrite Hid, Htable. destruct (Z.eqb_spec charset 0) as [->|_]; [by vm_compute|].
  register_cases charset.
Qed.
Lemma names96 charset t : _drcsId t = 0 /\ _drcsTranslationTable t = None ->
  TerminalOutput._LookupTranslationTable96 charset t = match named true charset with Some (IsSet set) => Some set | Some IsPreferred => _upssTranslationTable t | None => None end.
Proof.
  intros [Hid Htable]. unfold TerminalOutput._LookupTranslationTable96. rewrite Hid, Htable. destruct (Z.eqb_spec charset 0) as [->|_]; [by vm_compute|].
  register_cases charset.
Qed.

Lemma lookup_meant size96 charset t i : iso_means t i ->
  (if size96 : bool then TerminalOutput._LookupTranslationTable96 charset else TerminalOutput._LookupTranslationTable94 charset) t
  = (fun d => meant (iso_preference i) d) <$> named size96 charset.
Proof.
  intros Hm. destruct size96; [rewrite names96 by apply Hm|rewrite names94 by apply Hm]; rewrite (means_preference _ _ Hm); by destruct (named _ charset) as [[]|].
Qed.

(** Only the name of the preferred set is the preferred set. *)
Lemma named_preferred size96 charset d : named size96 charset = Some d -> (charset =? vtid "<") = is_preferred d.
Proof.
  unfold named. change (VTID._FromString preferred_name) with (vtid "<"). destruct (charset =? vtid "<"); [by intros [= <-]|].
  destruct (List.find _ _) as [entry|]; [|done]. by intros [= <-].
Qed.

Lemma map_insert {A B} (f : A -> B) (l : list A) n a : map f (<[n := a]> l) = <[n := f a]> (map f l).
Proof. exact (list_fmap_insert f l n a). Qed.

Lemma designate_means t i n size96 charset : sets_ok t -> iso_means t i -> (n < 4)%nat ->
  iso_means (fst (TerminalOutput.designate n charset ((fun d => meant (iso_preference i) d) <$> named size96 charset) t)) (iso_designate n (named size96 charset) i).
Proof.
  intros Hok Hm Hn. destruct (named size96 charset) as [d|] eqn:Hd; [|done]. cbn [fmap option_fmap option_map iso_designate]. pose proof Hok as (H1 & H2 & H3 & _).
  unfold TerminalOutput.designate. rewrite run_gets, bool_decide_eq_true_2, run_modify by lia. unfold TerminalOutput._SetTranslationTable. rewrite run_modify.
  rewrite reapply_spec.
  - apply means_refreshed. destruct Hm as [Hs Hi ? ? ? ? ? ? ?]. split; cbn; try done.
    + by rewrite Hs, map_insert.
    + cbn in Hi. pose proof (named_preferred _ _ _ Hd) as Hp. cbn in Hp. by rewrite map_insert, Hi, map_insert, Hp.
  - apply replaced_ok; [by apply replaced_ok; rewrite ?length_insert|cbn; by rewrite length_insert|apply Forall_insert; [exact H2|done]|cbn; by rewrite length_insert].
Qed.

(** A new preference reaches every G-set that holds the preferred set. *)
Lemma prefer_sets (ids : list Z) (sets : list Designation) old new :
  map (fun id => id =? vtid "<") ids = map is_preferred sets ->
  zip_with (fun id view => if id =? vtid "<" then Some new else view) ids (map (fun d => Some (meant old d)) sets) = map (fun d => Some (meant new d)) sets.
Proof.
  revert sets. generalize (vtid "<"). intros name. induction ids as [|id ids IH]; intros [|d sets] Heq; try done. cbn in *. injection Heq as -> Heq. rewrite (IH sets Heq). by destruct d.
Qed.

Lemma ctor_means enabled : iso_means (TerminalOutput.TerminalOutput_ctor enabled) (iso_initial enabled).
Proof. destruct enabled; split; cbn; auto. Qed.

Definition loads_no_set (op : charset_op) : Prop := match op with OpDrcs94 _ | OpDrcs96 _ => False | _ => True end.

Lemma op_means op t i : shifts_ok t -> iso_means t i -> op_ok op -> loads_no_set op -> (forall string, op = OpTranslate string -> Forall is_wchar string) ->
  iso_means (fst (run_op op t)) (iso_step op i).
Proof.
  intros Hok Hm Hop Hdrcs Hstring. pose proof Hok as [Hsets _]. destruct op as [n charset|n charset|charset size96|charset|charset|n|n|third|enabled| |string]; cbn [run_op op_ok iso_step] in *; try done.
  - unfold TerminalOutput.Designate94Charset. rewrite run_gets, (lookup_meant false charset t i Hm). by apply designate_means.
  - unfold TerminalOutput.Designate96Charset. rewrite run_gets, (lookup_meant true charset t i Hm). by apply designate_means.
  - unfold TerminalOutput.AssignUserPreferenceCharset. rewrite run_gets, (lookup_meant size96 charset t i Hm). destruct (named size96 charset) as [d|]; [|done]. cbn [fmap option_fmap option_map].
    rewrite !run_modify. rewrite reapply_spec.
    + apply means_refreshed. destruct Hm as [Hs Hi ? ? ? ? ? ? ?]. split; cbn; try done. rewrite Hs. by apply prefer_sets.
    + destruct Hsets as (H1 & H2 & H3 & _ & Hrest). apply replaced_ok; [split; [done|split; [done|split; [done|by split]]]|rewrite length_zip_with; cbn; lia| |done].
      apply Forall_lookup_2. intros k view Hk. cbn in Hk. apply lookup_zip_with_Some in Hk as (id & old & -> & _ & Hold). destruct (id =? _); [done|]. by apply (Forall_lookup_1 _ _ _ _ H2 Hold).
  - rewrite left_spec by done. destruct Hm. by split.
  - rewrite right_spec by done. destruct Hm. by split.
  - destruct Hm. destruct third; split; cbn; auto.
  - unfold TerminalOutput.EnableGrTranslation. rewrite !run_modify. rewrite reapply_spec.
    + apply means_refreshed. destruct Hm as [Hs Hi ? ? ? ? ? Hp ?]. split; cbn; try done.
      * rewrite Hs, Hp, !map_insert. by destruct enabled.
      * cbn in Hi. rewrite !map_insert, Hi. by destruct enabled.
    + destruct Hsets as (H1 & H2 & H3 & H4 & H5). apply replaced_ok; [done|cbn; by rewrite !length_insert| |cbn; by rewrite !length_insert].
      cbn. destruct enabled; (apply Forall_insert; [apply Forall_insert; [done|]|]); done.
  - unfold modify, TerminalOutput.SoftReset. cbn [fst]. rewrite (means_enabled _ _ Hm). apply ctor_means.
  - erewrite run_bind by (apply string_spec; [done|by apply Hstring]). destruct string; [done|]. destruct Hm. split; cbn; auto.
Qed.

Lemma ops_means ops : forall t i, shifts_ok t -> iso_means t i -> ops_ok ops -> Forall loads_no_set ops -> iso_means (fst (run_ops ops t)) (iso_run ops i).
Proof.
  induction ops as [|op ops IH]; intros t i Hok Hm Hops Hdrcs; [done|]. apply Forall_cons in Hops as [[Hop Hstr] Hops], Hdrcs as [Hd Hdrcs]. cbn [run_ops iso_run fold_left].
  destruct (op_ends op t Hok Hop) as [Ho Hs]; [by intros string ->|]. assert (Hm' : iso_means (fst (run_op op t)) (iso_step op i)) by (apply op_means; [done..|by intros string ->]).
  cbv [mbind M_bind]. destruct (run_op op t) as [t' o]. cbn in *. subst o. by apply IH.
Qed.

(** The sets of the object are those of the machine. *)
Lemma means_gset t i n : iso_means t i -> sets_ok t -> (n < 4)%nat -> gset n t = Some (iso_set n i).
Proof.
  intros Hm (Hlen & _) Hn. unfold gset, iso_set. rewrite (means_sets _ _ Hm) in *. rewrite length_map in Hlen.
  destruct (lookup_lt_is_Some_2 (iso_sets i) n ltac:(lia)) as [d Hd]. by rewrite list_lookup_fmap, Hd.
Qed.
Lemma means_text t i string : shifts_ok t -> iso_means t i -> translated_string t string = iso_text i string.
Proof.
  intros [Hok _] Hm. assert (Hc : forall c, translated t c = iso_character i c).
  { intros c. unfold translated, iso_character. rewrite (means_left _ _ Hm), (means_right _ _ Hm), (means_enabled _ _ Hm). pose proof Hok as (_ & _ & _ & _ & Hl & Hr & _).
    rewrite (means_left _ _ Hm) in Hl. rewrite (means_right _ _ Hm) in Hr. by rewrite !(means_gset _ _ _ Hm Hok) by done. }
  unfold translated_string, iso_text. destruct string as [|c rest]; [by destruct (iso_single i)|]. rewrite (means_single _ _ Hm).
  destruct (means_single_ok _ _ Hm) as [Hss|[Hss|Hss]]; rewrite Hss; cbn [default id].
  1: rewrite decide_False by lia; by apply map_ext.
  all: rewrite decide_True by lia; unfold translated_shift, iso_shifted; rewrite (means_gset _ _ _ Hm Hok) by lia; f_equal; by apply map_ext.
Qed.

(** C22: The text an application prints is translated as ISO 2022 defines it. Whatever sets it has designated by their names, shifted in and preferred
    before, and whatever text it has printed, in any order, a character of the left half is that of the set last designated to the G-set that is shifted
    into the left half, one of the right half that of the set in the G-set in the right half while translation of the
    right half is enabled, and after a single shift one character is that of the shifted set, in either half. Names that are not registered designate nothing;
    a G-set that holds the preferred set follows the preference. Loading sets of one's own is not part of these histories. *)
Theorem translation_is_iso2022 enabled ops string : ops_ok ops -> Forall loads_no_set ops -> Forall is_wchar string ->
  exists t, run_ops ops (TerminalOutput.TerminalOutput_ctor enabled) = (t, Ret tt) /\
    snd (TerminalOutput.translateString string t) = Ret (iso_text (iso_run ops (iso_initial enabled)) string).
Proof.
  intros Hops Hdrcs Hw. assert (Hok : shifts_ok (TerminalOutput.TerminalOutput_ctor enabled)).
  { destruct enabled; (split; [|done]); (split; [done|]); (split; [by repeat constructor|]); cbn; (split; [done|]); (split; [done|]); lia. }
  destruct (ops_end ops _ Hok Hops) as [Ho Hs]. pose proof (ops_means ops _ _ Hok (ctor_means enabled) Hops Hdrcs) as Hm.
  destruct (run_ops ops _) as [t o]. cbn in Ho, Hs, Hm. subst o. exists t. split; [done|]. rewrite string_spec by done. cbn. by rewrite (means_text t _ string Hs Hm).
Qed.

(** Special graphics in G1, shifted into the left half; Latin-2 preferred and in G3 by preference. *)
Lemma translation_is_iso2022_witness : exists t,
  run_ops [OpDesignate94 1 (vtid "0"); OpShift 1; OpDesignate94 3 (vtid "<"); OpPreference (vtid "B") true; OpSingleShift true] (TerminalOutput.TerminalOutput_ctor false) = (t, Ret tt) /\
  snd (TerminalOutput.translateString [0x21; 0x71] t) = Ret [0x104; 0x2500].
Proof.
  apply (translation_is_iso2022 false [OpDesignate94 1 (vtid "0"); OpShift 1; OpDesignate94 3 (vtid "<"); OpPreference (vtid "B") true; OpSingleShift true] [0x21; 0x71]);
    repeat constructor; done.
Defined.

Example special_graphics : snd (TerminalOutput.translateString [0x71; 0x71]
  (fst (run_ops [OpDesignate94 1 (vtid "0"); OpShift 1; OpSingleShift true] (TerminalOutput.TerminalOutput_ctor false)))) = Ret [0x71; 0x2500].
Proof. vm_compute. done. Qed.

(** The right half is translated after the state is restored although translation of the right half has been disabled since. *)
Example restored_right_half :
  let saved := fst (run_ops [OpEnableRight true; OpDesignate96 2 (vtid "B")] (TerminalOutput.TerminalOutput_ctor false)) in
  let current := fst (run_ops [OpEnableRight false] saved) in
  let restored := TerminalOutput.RestoreFrom saved current in
  (_grTranslationEnabled restored, snd (TerminalOutput.translateString [0xa1] restored)) = (false, Ret [0x104]).
Proof. vm_compute. done. Qed.
