(* ===== verification/Cursor.v ===== *)
(** * The cursor of a text buffer

    [Cursor] ([src/buffer/out/cursor.cpp], [cursor.h]). A call gives the cursor after it and
    whether the buffer it belongs to is told to paint. *)
From S2P Require Import Prelude LineRenditions.

Inductive CursorType := Legacy | VerticalBar | Underscore | EmptyBox | FullBox | DoubleUnderscore.
#[export] Instance CursorType_eq_dec : EqDecision CursorType.
Proof. solve_decision. Defined.

Record Cursor := mkCursor {
  _mutationId : Z;
  _cPosition : point;
  _coordDelayedAt : option point;
  _ulSize : Z;
  _cursorType : CursorType;
  _isVisible : bool;
  _isBlinking : bool;
  _fIsDouble : bool
}.
Definition Cursor_ctor (ulSize : Z) : Cursor := mkCursor 0 (mkPoint 0 0) None ulSize Legacy true true false.

Module Cursor.
Implicit Types (c : Cursor).

Definition set_mutationId v c := mkCursor v (_cPosition c) (_coordDelayedAt c) (_ulSize c) (_cursorType c) (_isVisible c) (_isBlinking c) (_fIsDouble c).
Definition set_cPosition v c := mkCursor (_mutationId c) v (_coordDelayedAt c) (_ulSize c) (_cursorType c) (_isVisible c) (_isBlinking c) (_fIsDouble c).
Definition set_coordDelayedAt v c := mkCursor (_mutationId c) (_cPosition c) v (_ulSize c) (_cursorType c) (_isVisible c) (_isBlinking c) (_fIsDouble c).
Definition set_ulSize v c := mkCursor (_mutationId c) (_cPosition c) (_coordDelayedAt c) v (_cursorType c) (_isVisible c) (_isBlinking c) (_fIsDouble c).
Definition set_cursorType v c := mkCursor (_mutationId c) (_cPosition c) (_coordDelayedAt c) (_ulSize c) v (_isVisible c) (_isBlinking c) (_fIsDouble c).
Definition set_isVisible v c := mkCursor (_mutationId c) (_cPosition c) (_coordDelayedAt c) (_ulSize c) (_cursorType c) v (_isBlinking c) (_fIsDouble c).
Definition set_isBlinking v c := mkCursor (_mutationId c) (_cPosition c) (_coordDelayedAt c) (_ulSize c) (_cursorType c) (_isVisible c) v (_fIsDouble c).
Definition set_fIsDouble v c := mkCursor (_mutationId c) (_cPosition c) (_coordDelayedAt c) (_ulSize c) (_cursorType c) (_isVisible c) (_isBlinking c) v.

Definition GetPosition c : point := _cPosition c.
Definition GetLastMutationId c : Z := _mutationId c.
Definition GetDelayEOLWrap c : option point := _coordDelayedAt c.

Definition _redrawIfVisible c : Cursor * bool := (set_mutationId (u64 (_mutationId c + 1)) c, _isVisible c).
Definition _redraw c : Cursor * bool := (set_mutationId (u64 (_mutationId c + 1)) c, true).

Definition ResetDelayEOLWrap c : Cursor := set_coordDelayedAt None c.
Definition DelayEOLWrap c : Cursor := set_coordDelayedAt (Some (_cPosition c)) c.
Definition SetType (type : CursorType) c : Cursor := set_cursorType type c.

Definition SetIsVisible (enable : bool) c : Cursor * bool :=
  if Bool.eqb (_isVisible c) enable then (c, false) else _redrawIfVisible (set_isVisible enable c).
Definition SetIsBlinking (enable : bool) c : Cursor * bool :=
  if Bool.eqb (_isBlinking c) enable then (c, false) else _redrawIfVisible (set_isBlinking enable c).
Definition SetIsDouble (fIsDouble : bool) c : Cursor * bool :=
  if Bool.eqb (_fIsDouble c) fIsDouble then (c, false) else _redrawIfVisible (set_fIsDouble fIsDouble c).
Definition SetSize (ulSize : Z) c : Cursor * bool :=
  if _ulSize c =? ulSize then (c, false) else _redrawIfVisible (set_ulSize ulSize c).
Definition SetStyle (ulSize : Z) (type : CursorType) c : Cursor * bool :=
  if negb (_ulSize c =? ulSize) || bool_decide (_cursorType c <> type)
  then _redrawIfVisible (set_cursorType type (set_ulSize ulSize c)) else (c, false).

Definition SetPosition (cPosition : point) c : Cursor * bool :=
  let c := ResetDelayEOLWrap c in
  if decide (_cPosition c <> cPosition) then _redrawIfVisible (set_cPosition cPosition c) else (c, false).
Definition SetXPosition (NewX : Z) c : Cursor * bool :=
  let c := ResetDelayEOLWrap c in
  if pt_x (_cPosition c) =? NewX then (c, false) else _redrawIfVisible (set_cPosition (mkPoint NewX (pt_y (_cPosition c))) c).
Definition SetYPosition (NewY : Z) c : Cursor * bool :=
  let c := ResetDelayEOLWrap c in
  if pt_y (_cPosition c) =? NewY then (c, false) else _redrawIfVisible (set_cPosition (mkPoint (pt_x (_cPosition c)) NewY) c).

(** The position moved by a vector. Callers stay within the 32-bit range. *)
Definition moved (dx dy : Z) c : Cursor := set_cPosition (mkPoint (pt_x (_cPosition c) + dx) (pt_y (_cPosition c) + dy)) c.
Definition IncrementXPosition (DeltaX : Z) c : Cursor * bool :=
  let c := ResetDelayEOLWrap c in if DeltaX =? 0 then (c, false) else _redrawIfVisible (moved DeltaX 0 c).
Definition IncrementYPosition (DeltaY : Z) c : Cursor * bool :=
  let c := ResetDelayEOLWrap c in if DeltaY =? 0 then (c, false) else _redrawIfVisible (moved 0 DeltaY c).
Definition DecrementXPosition (DeltaX : Z) c : Cursor * bool :=
  let c := ResetDelayEOLWrap c in if DeltaX =? 0 then (c, false) else _redrawIfVisible (moved (- DeltaX) 0 c).
Definition DecrementYPosition (DeltaY : Z) c : Cursor * bool :=
  let c := ResetDelayEOLWrap c in if DeltaY =? 0 then (c, false) else _redrawIfVisible (moved 0 (- DeltaY) c).

Definition CopyProperties (other c : Cursor) : Cursor :=
  mkCursor (_mutationId c) (_cPosition other) (_coordDelayedAt other) (_ulSize other) (_cursorType other)
    (_isVisible other) (_isBlinking other) (_fIsDouble other).
End Cursor.
