(* ===== verification/TextBuffer.v ===== *)
(** * The text buffer

    [TextBuffer] ([src/buffer/out/textBuffer.cpp], [textBuffer.hpp]). Its memory is the list of
    the rows that are committed, the scratchpad row first; a pointer to a row is an index into
    it, and [_commitWatermark] is its length. The renderer is what it has been told so far. The
    hash of a link and the memory that the system commits are parameters. Single cells and the walk over
    a rectangle are at the end. *)

From stdpp Require Import gmap.
From S2P Require Import Prelude LineRenditions Cursor InputEvents ColorTable TextColors TextAttributes Rle Graphemes ImageSlice Row RowImages RleIterator.

Inductive Invalidation := Redraw (region : rect) | PaintFrame | Scroll (delta : point) | NewText (text : wstring).

Record TextBuffer := mkTextBuffer {
  _renderer : option (list Invalidation);
  _hyperlinkMap : gmap Z wstring;
  _hyperlinkCustomIdMap : gmap wstring Z;
  _currentHyperlinkId : Z;
  _rows : list ROW;
  _initialAttributes : TextAttribute;
  _width : Z;
  _height : Z;
  _currentAttributes : TextAttribute;
  _firstRow : Z;
  _lastMutationId : Z;
  _cursor : Cursor;
  _isActiveBuffer : bool
}.
Implicit Types (tb : TextBuffer).

Definition set_renderer v tb := mkTextBuffer v (_hyperlinkMap tb) (_hyperlinkCustomIdMap tb) (_currentHyperlinkId tb) (_rows tb) (_initialAttributes tb) (_width tb) (_height tb) (_currentAttributes tb) (_firstRow tb) (_lastMutationId tb) (_cursor tb) (_isActiveBuffer tb).
Definition set_hyperlinks m c i tb := mkTextBuffer (_renderer tb) m c i (_rows tb) (_initialAttributes tb) (_width tb) (_height tb) (_currentAttributes tb) (_firstRow tb) (_lastMutationId tb) (_cursor tb) (_isActiveBuffer tb).
Definition set_rows v tb := mkTextBuffer (_renderer tb) (_hyperlinkMap tb) (_hyperlinkCustomIdMap tb) (_currentHyperlinkId tb) v (_initialAttributes tb) (_width tb) (_height tb) (_currentAttributes tb) (_firstRow tb) (_lastMutationId tb) (_cursor tb) (_isActiveBuffer tb).
Definition set_initialAttributes v tb := mkTextBuffer (_renderer tb) (_hyperlinkMap tb) (_hyperlinkCustomIdMap tb) (_currentHyperlinkId tb) (_rows tb) v (_width tb) (_height tb) (_currentAttributes tb) (_firstRow tb) (_lastMutationId tb) (_cursor tb) (_isActiveBuffer tb).
Definition set_dimensions w h tb := mkTextBuffer (_renderer tb) (_hyperlinkMap tb) (_hyperlinkCustomIdMap tb) (_currentHyperlinkId tb) (_rows tb) (_initialAttributes tb) w h (_currentAttributes tb) (_firstRow tb) (_lastMutationId tb) (_cursor tb) (_isActiveBuffer tb).
Definition set_currentAttributes v tb := mkTextBuffer (_renderer tb) (_hyperlinkMap tb) (_hyperlinkCustomIdMap tb) (_currentHyperlinkId tb) (_rows tb) (_initialAttributes tb) (_width tb) (_height tb) v (_firstRow tb) (_lastMutationId tb) (_cursor tb) (_isActiveBuffer tb).
Definition set_firstRow v tb := mkTextBuffer (_renderer tb) (_hyperlinkMap tb) (_hyperlinkCustomIdMap tb) (_currentHyperlinkId tb) (_rows tb) (_initialAttributes tb) (_width tb) (_height tb) (_currentAttributes tb) v (_lastMutationId tb) (_cursor tb) (_isActiveBuffer tb).
Definition set_lastMutationId v tb := mkTextBuffer (_renderer tb) (_hyperlinkMap tb) (_hyperlinkCustomIdMap tb) (_currentHyperlinkId tb) (_rows tb) (_initialAttributes tb) (_width tb) (_height tb) (_currentAttributes tb) (_firstRow tb) v (_cursor tb) (_isActiveBuffer tb).
Definition set_cursor v tb := mkTextBuffer (_renderer tb) (_hyperlinkMap tb) (_hyperlinkCustomIdMap tb) (_currentHyperlinkId tb) (_rows tb) (_initialAttributes tb) (_width tb) (_height tb) (_currentAttributes tb) (_firstRow tb) (_lastMutationId tb) v (_isActiveBuffer tb).
Definition set_isActiveBuffer v tb := mkTextBuffer (_renderer tb) (_hyperlinkMap tb) (_hyperlinkCustomIdMap tb) (_currentHyperlinkId tb) (_rows tb) (_initialAttributes tb) (_width tb) (_height tb) (_currentAttributes tb) (_firstRow tb) (_lastMutationId tb) (_cursor tb) v.

(** Whether the system commits the memory of so many rows. *)
Class VirtualMemory := commits : Z -> bool.

Module TextBuffer.

(** ** Notifications *)
Definition notify (i : Invalidation) tb : TextBuffer :=
  if _isActiveBuffer tb then set_renderer (option_map (fun log => log ++ [i]) (_renderer tb)) tb else tb.
Definition NotifyPaintFrame : M TextBuffer unit := modify (notify PaintFrame).
Definition TriggerRedraw (region : rect) : M TextBuffer unit := modify (notify (Redraw region)).

Definition TriggerScroll (delta : point) : M TextBuffer unit := modify (notify (Scroll delta)).
Definition TriggerNewTextNotification (newText : wstring) : M TextBuffer unit := modify (notify (NewText newText)).

(** A call of a function of the cursor. *)
Definition on_cursor (f : Cursor -> Cursor * bool) : M TextBuffer unit :=
  result ← gets (fun tb => f (_cursor tb));
  modify (set_cursor (fst result)) ;;
  if snd result : bool then NotifyPaintFrame else mret tt.

Definition SetAsActiveBuffer (isActiveBuffer : bool) : M TextBuffer unit := modify (set_isActiveBuffer isActiveBuffer).
Definition IsActiveBuffer tb : bool := _isActiveBuffer tb.
Definition TotalRowCount tb : Z := _height tb.
Definition GetFirstRowIndex tb : Z := _firstRow tb.
Definition GetLastMutationId tb : Z := _lastMutationId tb.
Definition GetCurrentAttributes tb : TextAttribute := _currentAttributes tb.
Definition SetCurrentAttributes (currentAttributes : TextAttribute) : M TextBuffer unit := modify (set_currentAttributes currentAttributes).

Definition CopyProperties (OtherBuffer : TextBuffer) : M TextBuffer unit := modify (fun tb => set_cursor (Cursor.CopyProperties (_cursor OtherBuffer) (_cursor tb)) tb).

(** [GetSize().IsInBounds(target)]. *)
Definition in_bounds (target : point) tb : bool :=
  (pt_x target >=? 0) && (pt_x target <? _width tb) && (pt_y target >=? 0) && (pt_y target <? _height tb).

(** ** Buffer management *)
Definition _commitReadAheadRowCount : Z := 128.
(** [_commitWatermark], in rows from [_buffer]; [_bufferEnd] is at [_height + 1]. *)
Definition _commitWatermark tb : Z := Z.of_nat (length (_rows tb)).

(** A member function of the row at an index. *)
Definition on_phys {A} (n : nat) (m : M ROW A) : M TextBuffer A := fun tb =>
  match _rows tb !! n with
  | Some r => let '(r', o) := m r in (set_rows (<[n := r']> (_rows tb)) tb, o)
  | None => (tb, UB)
  end.

Section storage.
Context `{VirtualMemory} (isa : Intrinsics).

(** The row that [_construct] makes in committed memory, which is zero. *)
Definition construct_at tb : ROW * Outcome unit :=
  ROW_ctor isa (replicate (Z.to_nat (CalculateCharsBufferSize (_width tb) / 2)) 0)
    (replicate (Z.to_nat (CalculateCharOffsetsBufferSize (_width tb) / 2)) 0) (_width tb) (_initialAttributes tb).

Fixpoint _construct (count : nat) : M TextBuffer unit :=
  match count with
  | O => mret tt
  | S count =>
      row ← (fun tb => let '(row, o) := construct_at tb in
               (tb, match o with Ret _ => Ret row | Throw => Throw | UB => UB | OutOfFuel => OutOfFuel end));
      modify (fun tb => set_rows (_rows tb ++ [row]) tb) ;;
      _construct count
  end.

Definition _commit (row : Z) : M TextBuffer unit :=
  watermark ← gets _commitWatermark;
  height ← gets _height;
  let remaining := height + 1 - watermark in
  let minimum := row + 1 - watermark in
  let ideal := minimum + _commitReadAheadRowCount in
  let size := Z.min remaining ideal in
  if commits size then _construct (Z.to_nat size) else throw.

Definition _decommit : M TextBuffer unit := modify (set_rows []).

Definition _getRowByOffsetDirect (offset : Z) : M TextBuffer nat :=
  height ← gets _height;
  if (offset <? 0) || (offset >=? height + 1) then throw
  else
    watermark ← gets _commitWatermark;
    (if offset >=? watermark then _commit offset else mret tt) ;;
    mret (Z.to_nat offset).

(** [(_firstRow + y) % _height], made nonnegative. *)
Definition wrapped (y : Z) tb : Z :=
  let offset := Z.rem (_firstRow tb + y) (_height tb) in
  if offset <? 0 then offset + _height tb else offset.

Definition _getRow (y : Z) : M TextBuffer nat :=
  offset ← gets (wrapped y);
  _getRowByOffsetDirect (offset + 1).

Definition _estimateOffsetOfLastCommittedRow tb : Z := Z.max 0 (_commitWatermark tb - 2).

Definition _isRowCommitted (y : Z) tb : bool :=
  let offset := Z.rem (_firstRow tb + y + 1) (_height tb) in
  let offset := if offset <? 0 then offset + _height tb else offset in
  offset <? _commitWatermark tb.

Definition GetRowByOffset (index : Z) : M TextBuffer nat := _getRow index.

Definition GetMutableRowByOffset (index : Z) : M TextBuffer nat :=
  modify (fun tb => set_lastMutationId (u64 (_lastMutationId tb + 1)) tb) ;;
  _getRow index.

Definition GetScratchpadRow_with (attributes : TextAttribute) : M TextBuffer nat :=
  r ← _getRowByOffsetDirect 0;
  on_phys r (Reset isa attributes) ;;
  mret r.
Definition GetScratchpadRow : M TextBuffer nat :=
  attributes ← gets _currentAttributes;
  GetScratchpadRow_with attributes.

(** The members that [_reserve] sets; a dimension that is no [uint16_t] throws. *)
Definition _reserve (width height : Z) (defaultAttributes : TextAttribute) : M TextBuffer unit :=
  if (0 <=? width) && (width <=? 0xffff) && (0 <=? height) && (height <=? 0xffff) then
    modify (set_rows []) ;;
    modify (set_initialAttributes defaultAttributes) ;;
    modify (set_dimensions width height)
  else throw.

(** The members with their initial values, and the constructor. *)
Definition fresh (defaultAttributes : TextAttribute) (mutationId cursorSize : Z) (isActiveBuffer : bool) (renderer : option (list Invalidation)) : TextBuffer :=
  mkTextBuffer renderer ∅ ∅ 1 [] TextAttribute_ctor 0 0 defaultAttributes 0 mutationId (Cursor_ctor cursorSize) isActiveBuffer.
Definition TextBuffer_ctor (width height : Z) (defaultAttributes : TextAttribute) (mutationId cursorSize : Z) (isActiveBuffer : bool)
    (renderer : option (list Invalidation)) : TextBuffer * Outcome unit :=
  _reserve (Z.max width 1) (Z.max height 1) defaultAttributes (fresh defaultAttributes mutationId cursorSize isActiveBuffer renderer).
End storage.

(** ** Writing *)
Section writing.
Context `{VirtualMemory} `{Allocator} {D : Type} `{GraphemeDetector D} (isa : Intrinsics).
(** The address of the text of the row at an index. *)
Context (address : nat -> ROW -> Z).

Definition on_buffer {A} (m : M TextBuffer A) : M (TextBuffer * D) A := fun s => let '(tb, o) := m (fst s) in ((tb, snd s), o).
Definition on_phys_text {A} (n : nat) (m : M (ROW * D) A) : M (TextBuffer * D) A := fun s =>
  match _rows (fst s) !! n with
  | Some r => let '((r', d), o) := m (r, snd s) in ((set_rows (<[n := r']> (_rows (fst s))) (fst s), d), o)
  | None => (s, UB)
  end.

(** The source of a copy from the row at [src] to that at [dst]. *)
Definition copy_source (src dst : nat) tb : option RowSource :=
  if (src =? dst)%nat then Some This else r ← _rows tb !! src; Some (Other r).
Definition from_row {A} (src dst : nat) (m : RowSource -> M ROW A) : M TextBuffer A :=
  source ← reads (copy_source src dst);
  on_phys dst (m source).

Definition Replace (row : Z) (attributes : TextAttribute) (state : RowWriteState) : M (TextBuffer * D) RowWriteState :=
  r ← on_buffer (GetMutableRowByOffset isa row);
  state ← on_phys_text r (ReplaceText isa (address r) state);
  on_buffer (
    on_phys r (ReplaceAttributes (columnBegin state) (columnEnd state) attributes) ;;
    on_phys r (writes (EraseCells (columnBegin state) (columnEnd state))) ;;
    TriggerRedraw (mkRect (columnBeginDirty state) row (columnEndDirty state) (row + 1))) ;;
  mret state.

(** [scratch.GetText(columnBegin, columnLimit)]: the text and its address. *)
Definition text_view (n : nat) (columnBegin columnEnd : Z) tb : option (Z * wstring) :=
  r ← _rows tb !! n;
  let colBeg := clamp columnBegin 0 (GetReadableColumnCount r) in
  chBeg ← _uncheckedCharOffset colBeg r;
  text ← GetText_range columnBegin columnEnd r;
  Some (address n r + chBeg, text).

(** [rowAttr.replace(begin, end, runs)]. *)
Definition replaceRuns (begin end_ : Z) (attr : basic_rle TextAttribute) : M ROW unit := fun r =>
  match Rle.replace 16 begin end_ (_runs attr) (_attr r) with
  | Ret a => (set_attr a r, Ret tt)
  | Throw => (r, Throw)
  | UB => (r, UB)
  | OutOfFuel => (r, OutOfFuel)
  end.
(** [gsl::narrow<uint16_t>]. *)
Definition narrow16 {S} (v : Z) : M S Z := if (0 <=? v) && (v <=? 0xffff) then mret v else throw.

(** The attributes and the image of the cells that [Insert] moves. *)
Definition restoreCells (r scratch : nat) (columnBegin restoreBegin restoreEnd : Z) : M TextBuffer unit :=
  let copyAmount := restoreEnd - restoreBegin in
  if copyAmount >? 0 then
    sliceBegin ← narrow16 columnBegin;
    sliceEnd ← narrow16 (columnBegin + copyAmount);
    restoreAttr ← reads (fun tb => s ← _rows tb !! scratch; slice 16 sliceBegin sliceEnd (_attr s));
    begin ← narrow16 restoreBegin;
    end_ ← narrow16 restoreEnd;
    on_phys r (replaceRuns begin end_ restoreAttr) ;;
    on_phys r (writes (CopyCells This columnBegin restoreBegin restoreEnd))
  else mret tt.

Definition Insert (row : Z) (attributes : TextAttribute) (state : RowWriteState) : M (TextBuffer * D) RowWriteState :=
  r ← on_buffer (GetMutableRowByOffset isa row);
  scratch ← on_buffer (GetScratchpadRow isa);
  on_buffer (from_row r scratch (CopyFrom isa (address r))) ;;
  state ← on_phys_text r (ReplaceText isa (address r) state);
  on_buffer (on_phys r (ReplaceAttributes (columnBegin state) (columnEnd state) attributes)) ;;
  '(data, text) ← on_buffer (reads (text_view scratch (columnBegin state) (columnLimit state)));
  restoreState ← on_phys_text r (ReplaceText isa (address r) (mkWriteState data text (columnEnd state) (columnLimit state) 0 0 0));
  on_buffer (
    restoreCells r scratch (columnBegin state) (columnBegin restoreState) (columnEnd restoreState) ;;
    on_phys r (writes (EraseCells (columnBegin state) (columnBegin restoreState))) ;;
    TriggerRedraw (mkRect (columnBeginDirty state) row (columnEndDirty restoreState) (row + 1))) ;;
  mret state.

(** [while (state.columnEnd < rect.right)]: the scratchpad row is filled with copies of the text. *)
Fixpoint fillLoop (fuel : nat) (scratchpad : nat) (data : Z) (fill : wstring) (right columnEnd : Z) : M (TextBuffer * D) unit :=
  match fuel with
  | O => outOfFuel
  | S fuel =>
      if columnEnd <? right then
        state ← on_phys_text scratchpad (ReplaceText isa (address scratchpad) (mkWriteState data fill columnEnd right 0 0 0));
        fillLoop fuel scratchpad data fill right (Row.columnEnd state)
      else mret tt
  end.

(** The rows of the rectangle, from [y] on. *)
Fixpoint fillRows (count : nat) (y : Z) (scratchpad : nat) (left right : Z) (attributes : TextAttribute) : M TextBuffer unit :=
  match count with
  | O => mret tt
  | S count =>
      r ← GetMutableRowByOffset isa y;
      state ← from_row scratchpad r (fun source => CopyTextFrom isa (address scratchpad) source (mkCopyState left right left CoordTypeMax 0 0 0 0));
      on_phys r (ReplaceAttributes left right attributes) ;;
      on_phys r (writes (EraseCells left right)) ;;
      TriggerRedraw (mkRect (copy_columnBeginDirty state) y (copy_columnEndDirty state) (y + 1)) ;;
      fillRows count (y + 1) scratchpad left right attributes
  end.

Definition rect_valid (r : rect) : bool := (rc_left r >=? 0) && (rc_top r >=? 0) && (rc_right r >? rc_left r) && (rc_bottom r >? rc_top r).

Definition FillRect (fuel : nat) (area : rect) (data : Z) (fill : wstring) (attributes : TextAttribute) : M (TextBuffer * D) unit :=
  if negb (rect_valid area) || (match fill with [] => true | _ => false end) then mret tt
  else
    scratchpad ← on_buffer (GetScratchpadRow_with isa attributes);
    (if decide (fill <> [0x20]) then fillLoop fuel scratchpad data fill (rc_right area) (rc_left area) else mret tt) ;;
    on_buffer (fillRows (Z.to_nat (rc_bottom area - rc_top area)) (rc_top area) scratchpad (rc_left area) (rc_right area) attributes).

(** *** Cells *)
Section cells.
Context {I : Type} `{CellIterator I} (cell_distance : I -> I -> Z).

Definition WriteLine (givenIt : I) (target : point) (wrap : option bool) (limitRight : option Z) : M TextBuffer I :=
  inside ← gets (in_bounds target);
  if negb inside then mret givenIt
  else
    row ← GetMutableRowByOffset isa (pt_y target);
    newIt ← on_phys row (WriteCells isa givenIt (pt_x target) wrap limitRight);
    let written := cell_distance newIt givenIt in
    TriggerRedraw (mkRect (pt_x target) (pt_y target) (pt_x target + written) (pt_y target + 1)) ;;
    mret newIt.

(** At most one step for each row of the buffer. *)
Fixpoint writeLines (fuel : nat) (it : I) (lineTarget : point) (wrap : option bool) : M TextBuffer I :=
  match fuel with
  | O => outOfFuel
  | S fuel =>
      inside ← gets (in_bounds lineTarget);
      if cell_valid it && inside then
        it ← WriteLine it lineTarget wrap None;
        writeLines fuel it (mkPoint 0 (pt_y lineTarget + 1)) wrap
      else mret it
  end.

Definition Write (givenIt : I) (target : point) (wrap : option bool) : M TextBuffer I :=
  height ← gets _height;
  writeLines (S (Z.to_nat height)) givenIt target wrap.
Definition Write_cursor (givenIt : I) : M TextBuffer I :=
  target ← gets (fun tb => Cursor.GetPosition (_cursor tb));
  Write givenIt target (Some true).
End cells.

(** ** Moving rows *)

(** [CopyRow] within one buffer. *)
Definition CopyRow (srcRowIndex dstRowIndex : Z) : M TextBuffer unit :=
  dstRow ← GetMutableRowByOffset isa dstRowIndex;
  srcRow ← GetRowByOffset isa srcRowIndex;
  from_row srcRow dstRow (fun source =>
    CopyFrom isa (address srcRow) source ;;
    modify (fun dst => RowImages.CopyRow (source_row source dst) dst)).

Fixpoint scrollLoop (count : nat) (y step delta : Z) : M TextBuffer unit :=
  match count with
  | O => mret tt
  | S count => CopyRow y (y + delta) ;; scrollLoop count (y + step) step delta
  end.

Definition ScrollRows (firstRow size delta : Z) : M TextBuffer unit :=
  if delta =? 0 then mret tt
  else
    let size := Z.max 0 size in
    if delta <? 0 then scrollLoop (Z.to_nat size) firstRow 1 delta
    else scrollLoop (Z.to_nat size) (firstRow + size - 1) (-1) delta.

(** *** Hyperlinks *)
Definition AddHyperlinkToMap (uri : wstring) (id : Z) : M TextBuffer unit :=
  modify (fun tb => set_hyperlinks (<[id := uri]> (_hyperlinkMap tb)) (_hyperlinkCustomIdMap tb) (_currentHyperlinkId tb) tb).

(** [_hyperlinkMap.at(id)] throws when there is none. *)
Definition GetHyperlinkUriFromId (id : Z) tb : Outcome wstring :=
  match _hyperlinkMap tb !! id with Some uri => Ret uri | None => Throw end.

Section ids.
(** [til::hash], and [std::to_wstring] of its result. *)
Context (til_hash : wstring -> Z) (to_wstring : Z -> wstring).

(** [++_currentHyperlinkId], a [uint16_t]. *)
Definition next_id : M TextBuffer unit :=
  modify (fun tb => set_hyperlinks (_hyperlinkMap tb) (_hyperlinkCustomIdMap tb) (u16 (_currentHyperlinkId tb + 1)) tb).
Definition custom_key (uri id : wstring) : wstring := id ++ L "%" ++ to_wstring (til_hash uri).

Definition GetHyperlinkId (uri id : wstring) : M TextBuffer Z :=
  current ← gets _currentHyperlinkId;
  numericId ← (match id with
               | [] => next_id ;; mret current
               | _ =>
                   let newId := custom_key uri id in
                   custom ← gets _hyperlinkCustomIdMap;
                   match custom !! newId with
                   | Some numericId => mret numericId
                   | None =>
                       modify (fun tb => set_hyperlinks (_hyperlinkMap tb) (<[newId := current]> custom) (_currentHyperlinkId tb) tb) ;;
                       next_id ;;
                       mret current
                   end
               end);
  now ← gets _currentHyperlinkId;
  (if now =? 0 then next_id else mret tt) ;;
  mret numericId.
End ids.

(** The first custom id of a link in the order of the map. *)
Definition find_custom (id : Z) (custom : gmap wstring Z) : option wstring :=
  option_map (fun p => fst (snd p)) (list_find (fun p => snd p = id) (map_to_list custom)).

Definition RemoveHyperlinkFromMap (id : Z) : M TextBuffer unit :=
  modify (fun tb =>
    set_hyperlinks (delete id (_hyperlinkMap tb))
      (match find_custom id (_hyperlinkCustomIdMap tb) with Some key => delete key (_hyperlinkCustomIdMap tb) | None => _hyperlinkCustomIdMap tb end)
      (_currentHyperlinkId tb) tb).

Definition GetCustomIdFromId (id : Z) tb : wstring := default [] (find_custom id (_hyperlinkCustomIdMap tb)).

Definition CopyHyperlinkMaps (other : TextBuffer) : M TextBuffer unit :=
  modify (set_hyperlinks (_hyperlinkMap other) (_hyperlinkCustomIdMap other) (_currentHyperlinkId other)).

(** The links of a row. *)
Definition links_at (index : Z) : M TextBuffer (list Z) :=
  r ← GetRowByOffset isa index;
  on_phys r (gets GetHyperlinks).

(** The links that remain of [refs] after the rows from [i] on have been searched. *)
Fixpoint pruneLoop (count : nat) (i : Z) (refs : gset Z) : M TextBuffer (gset Z) :=
  match count with
  | O => mret refs
  | S count =>
      links ← links_at i;
      let refs := refs ∖ list_to_set links in
      if decide (refs = ∅) then mret refs else pruneLoop count (i + 1) refs
  end.

Definition removeLinks (ids : list Z) : M TextBuffer unit := foldr (fun id k => RemoveHyperlinkFromMap id ;; k) (mret tt) ids.

Definition _PruneHyperlinks : M TextBuffer unit :=
  hyperlinks ← links_at 0;
  match hyperlinks with
  | [] => mret tt
  | _ =>
      total ← gets TotalRowCount;
      refs ← pruneLoop (Z.to_nat (total - 1)) 1 (list_to_set hyperlinks);
      removeLinks (elements refs)
  end.

(** *** The circular buffer *)
Definition IncrementCircularBuffer (fillAttributes : TextAttribute) : M TextBuffer unit :=
  _PruneHyperlinks ;;
  r ← GetMutableRowByOffset isa 0;
  on_phys r (Reset isa fillAttributes) ;;
  modify (fun tb =>
    let firstRow := _firstRow tb + 1 in
    set_firstRow (if firstRow >=? _height tb then 0 else firstRow) tb).

Definition Reset : M TextBuffer unit :=
  _decommit ;;
  modify (fun tb => set_initialAttributes (_currentAttributes tb) tb).

(** *** Marks *)
Definition clear_run_mark (run : rle_pair TextAttribute) : rle_pair TextAttribute :=
  mkRun (TextAttribute.SetMarkAttributes Mark_None (value run)) (length_ run).
Definition clear_marks r : ROW :=
  let r := SetScrollbarData None r in
  set_attr (mkRle (map clear_run_mark (_runs (_attr r))) (_total_length (_attr r))) r.

Fixpoint clearMarksLoop (count : nat) (y : Z) : M TextBuffer unit :=
  match count with
  | O => mret tt
  | S count =>
      r ← GetMutableRowByOffset isa y;
      on_phys r (modify clear_marks) ;;
      clearMarksLoop count (y + 1)
  end.

(** Only the rows of the two points matter. *)
Definition ClearMarksInRange (start end_ : point) : M TextBuffer unit :=
  top ← gets (fun tb => clamp (Z.min (pt_y start) (pt_y end_)) 0 (_height tb - 1));
  bottom ← gets (fun tb => clamp (Z.max (pt_y start) (pt_y end_)) 0 (_estimateOffsetOfLastCommittedRow tb));
  clearMarksLoop (Z.to_nat (bottom - top + 1)) top.
Definition ClearAllMarks : M TextBuffer unit :=
  last ← gets (fun tb => mkPoint (_width tb - 1) (_height tb - 1));
  ClearMarksInRange (mkPoint 0 0) last.

(** *** The scrollback *)
Fixpoint resetRows (count : nat) (y : Z) : M TextBuffer unit :=
  match count with
  | O => mret tt
  | S count =>
      r ← GetMutableRowByOffset isa y;
      attributes ← gets _initialAttributes;
      on_phys r (Row.Reset isa attributes) ;;
      resetRows count (y + 1)
  end.

Definition ClearScrollback (newFirstRow rowsToKeep : Z) : M TextBuffer unit :=
  if newFirstRow <=? 0 then mret tt
  else if rowsToKeep <=? 0 then _decommit
  else
    width ← gets _width;
    ClearMarksInRange (mkPoint 0 0) (mkPoint width (Z.max 0 (newFirstRow - 1))) ;;
    startAbsolute ← gets (fun tb => _firstRow tb + newFirstRow);
    modify (set_firstRow 0) ;;
    ScrollRows startAbsolute rowsToKeep (- startAbsolute) ;;
    end_ ← gets _estimateOffsetOfLastCommittedRow;
    resetRows (Z.to_nat (end_ - rowsToKeep + 1)) rowsToKeep.

(** *** Resizing *)

(** [CopyRow] from this buffer, the first, to another one. *)
Definition on_first {A} (m : M TextBuffer A) : M (TextBuffer * TextBuffer) A := fun s => let '(tb, o) := m (fst s) in ((tb, snd s), o).
Definition on_second {A} (m : M TextBuffer A) : M (TextBuffer * TextBuffer) A := fun s => let '(tb, o) := m (snd s) in ((fst s, tb), o).
Definition CopyRow_to (srcRowIndex dstRowIndex : Z) : M (TextBuffer * TextBuffer) unit :=
  dstRow ← on_second (GetMutableRowByOffset isa dstRowIndex);
  srcRow ← on_first (GetRowByOffset isa srcRowIndex);
  source ← on_first (reads (fun tb => _rows tb !! srcRow));
  on_second (on_phys dstRow (CopyFrom isa (address srcRow) (Other source) ;; modify (RowImages.CopyRow source))).

Fixpoint copyRowsLoop (count : nat) (srcRow dstRow : Z) : M (TextBuffer * TextBuffer) unit :=
  match count with
  | O => mret tt
  | S count => CopyRow_to srcRow dstRow ;; copyRowsLoop count (srcRow + 1) (dstRow + 1)
  end.

(** [mutationId] is that of the temporary buffer. *)
Definition ResizeTraditional (width height mutationId : Z) : M TextBuffer unit := fun tb =>
  let width := Z.max width 1 in
  let height := Z.max height 1 in
  match TextBuffer_ctor width height (_currentAttributes tb) mutationId 0 false (_renderer tb) with
  | (newBuffer, Ret _) =>
      let cursorRow := pt_y (Cursor.GetPosition (_cursor tb)) in
      let copyableRows := Z.min (_height tb) height in
      let srcRow := if cursorRow >=? height then cursorRow - height + 1 else 0 in
      match copyRowsLoop (Z.to_nat copyableRows) srcRow 0 (tb, newBuffer) with
      | ((tb, newBuffer), Ret _) =>
          (set_firstRow 0 (set_dimensions (_width newBuffer) (_height newBuffer)
             (set_initialAttributes (_initialAttributes newBuffer) (set_rows (_rows newBuffer) tb))), Ret tt)
      | ((tb, _), o) => (tb, o)
      end
  | (_, o) => (tb, o)
  end.

(** *** Line renditions *)
Definition SetWrapForced (y : Z) (wrap : bool) : M TextBuffer unit :=
  r ← GetMutableRowByOffset isa y;
  on_phys r (modify (Row.SetWrapForced wrap)).

Definition GetLineRendition (row : Z) : M TextBuffer LineRendition :=
  committed ← gets (_isRowCommitted row);
  if negb committed then mret SingleWidth
  else r ← GetRowByOffset isa row; on_phys r (gets Row.GetLineRendition).
Definition IsDoubleWidthLine (row : Z) : M TextBuffer bool :=
  rendition ← GetLineRendition row;
  mret (bool_decide (rendition <> SingleWidth)).
Definition GetLineWidth (row : Z) : M TextBuffer Z :=
  double ← IsDoubleWidthLine row;
  gets (fun tb => Z.shiftr (_width tb) (if double : bool then 1 else 0)).
Definition ClampPositionWithinLine (position : point) : M TextBuffer point :=
  width ← GetLineWidth (pt_y position);
  mret (mkPoint (Z.min (pt_x position) (width - 1)) (pt_y position)).
Definition ScreenToBufferPosition (position : point) : M TextBuffer point :=
  double ← IsDoubleWidthLine (pt_y position);
  mret (mkPoint (Z.shiftr (pt_x position) (if double : bool then 1 else 0)) (pt_y position)).
Definition BufferToScreenPosition (position : point) : M TextBuffer point :=
  double ← IsDoubleWidthLine (pt_y position);
  mret (mkPoint (Z.shiftl (pt_x position) (if double : bool then 1 else 0)) (pt_y position)).

Fixpoint resetRenditions (count : nat) (row : Z) : M TextBuffer unit :=
  match count with
  | O => mret tt
  | S count =>
      r ← GetMutableRowByOffset isa row;
      on_phys r (modify (SetLineRendition SingleWidth)) ;;
      resetRenditions count (row + 1)
  end.
Definition ResetLineRenditionRange (startRow endRow : Z) : M TextBuffer unit := resetRenditions (Z.to_nat (endRow - startRow)) startRow.

(** [spaceData] is the address of the literal that fills the row. *)
Definition SetCurrentLineRendition (spaceData : Z) (lineRendition : LineRendition) (fillAttributes : TextAttribute) : M (TextBuffer * D) unit :=
  cursorPosition ← on_buffer (gets (fun tb => Cursor.GetPosition (_cursor tb)));
  let rowIndex := pt_y cursorPosition in
  row ← on_buffer (GetMutableRowByOffset isa rowIndex);
  rendition ← on_buffer (on_phys row (gets Row.GetLineRendition));
  if decide (rendition <> lineRendition) then
    on_buffer (
      on_phys row (modify (SetLineRendition lineRendition)) ;;
      on_phys row (modify (Row.SetWrapForced false)) ;;
      on_phys row (modify (SetImageSlice None))) ;;
    (if decide (lineRendition <> SingleWidth) then
       fillOffset ← on_buffer (GetLineWidth rowIndex);
       FillRect 0 (mkRect fillOffset rowIndex CoordTypeMax (rowIndex + 1)) spaceData [0x20] fillAttributes ;;
       on_buffer (
         position ← ClampPositionWithinLine cursorPosition;
         on_cursor (Cursor.SetPosition position))
     else mret tt) ;;
    on_buffer (width ← gets _width; TriggerRedraw (mkRect 0 rowIndex width (rowIndex + 1)))
  else mret tt.

(** ** Reading *)

(** A function that reads the row at an index. *)
Definition ask_row {A} (index : Z) (f : ROW -> option A) : M TextBuffer A :=
  r ← GetRowByOffset isa index;
  on_phys r (reads f).

Fixpoint lastTextLoop (fuel : nat) (viewportTop x y : Z) : M TextBuffer point :=
  match fuel with
  | O => outOfFuel
  | S fuel =>
      if (x <? 0) && (y >? viewportTop) then
        right ← ask_row (y - 1) MeasureRight;
        lastTextLoop fuel viewportTop (right - 1) (y - 1)
      else mret (mkPoint (Z.max x 0) (Z.max y 0))
  end.

(** The viewport as its first and last row. *)
Definition GetLastNonSpaceCharacter (top bottom : Z) : M TextBuffer point :=
  y ← gets (fun tb => Z.min bottom (_estimateOffsetOfLastCommittedRow tb));
  right ← ask_row y MeasureRight;
  lastTextLoop (S (Z.to_nat (y - top))) top (right - 1) y.

(** *** The cursor keys *)
Fixpoint navigateLeft (distance : nat) (x y : Z) : M TextBuffer point :=
  match distance with
  | O => mret (mkPoint x y)
  | S distance =>
      if x >? 0 then x ← ask_row y (NavigateToPrevious x); navigateLeft distance x y
      else if y <=? 0 then mret (mkPoint x y)
      else
        columns ← ask_row (y - 1) (fun r => Some (GetReadableColumnCount r));
        navigateLeft distance (columns - 1) (y - 1)
  end.

Fixpoint navigateRight (distance : nat) (maxY rowWidth x y : Z) : M TextBuffer point :=
  match distance with
  | O => mret (mkPoint x y)
  | S distance =>
      if x <? rowWidth then x ← ask_row y (NavigateToNext x); navigateRight distance maxY rowWidth x y
      else if y >=? maxY then mret (mkPoint x y)
      else
        rowWidth ← ask_row (y + 1) (fun r => Some (GetReadableColumnCount r));
        navigateRight distance maxY rowWidth 0 (y + 1)
  end.

Definition NavigateCursor (position : point) (distance : Z) : M TextBuffer point :=
  maxX ← gets (fun tb => _width tb - 1);
  maxY ← gets (fun tb => _height tb - 1);
  let x := clamp (pt_x position) 0 maxX in
  let y := clamp (pt_y position) 0 maxY in
  rowWidth ← ask_row y (fun r => Some (GetReadableColumnCount r));
  if distance <? 0 then navigateLeft (Z.to_nat (- distance)) x y
  else if distance >? 0 then navigateRight (Z.to_nat distance) maxY rowWidth x y
  else mret (mkPoint x y).

(** *** Text *)

(** [chars] with its address. *)
Definition GraphemeNext (data : Z) (chars : wstring) (position : Z) (d : D) : option (D * Z) :=
  '(d, state, _) ← next_grapheme (mkGraphemeState (data + position) 0 0 0 0) data chars d;
  Some (d, position + len state).

(** Characters of ASCII at the beginning of a text. *)
Fixpoint asciiPrefix (text : wstring) : nat :=
  match text with
  | c :: text => if c <? 0x80 then S (asciiPrefix text) else 0
  | [] => 0
  end.

Fixpoint fitLoop (fuel : nat) (data : Z) (chars : wstring) (columnLimit : Z) (state : GraphemeState) (dist col : Z) (d : D) : option (D * Z * Z) :=
  match fuel with
  | O => None
  | S fuel =>
      if dist <? Z.of_nat (length chars) then
        '(d, state, _) ← next_grapheme state data chars d;
        let col := col + width state in
        if col >? columnLimit then Some (d, dist, col)
        else fitLoop fuel data chars columnLimit state (dist + len state) col d
      else Some (d, dist, col)
  end.

(** The characters that fit, and the columns they take. *)
Definition FitTextIntoColumns (data : Z) (chars : wstring) (columnLimit : Z) (d : D) : option (D * Z * Z) :=
  let columnLimit := Z.max 0 columnLimit in
  let asciiText := take (Z.to_nat columnLimit) chars in
  let dist := Z.of_nat (asciiPrefix asciiText) in
  if dist =? Z.of_nat (length asciiText) then Some (d, dist, dist)
  else
    let dist := if dist =? 0 then dist else dist - 1 in
    fitLoop (S (length chars)) data chars columnLimit (mkGraphemeState (data + dist) 0 0 0 0) dist dist d.

(** *** Regions *)

(** The rows before [bottom], from [row] on. *)
Fixpoint blinkLoop (count : nat) (row : Z) : M TextBuffer bool :=
  match count with
  | O => mret false
  | S count =>
      blinking ← ask_row row (fun r => Some (existsb (fun run => TextAttribute.IsBlinking (value run)) (_runs (_attr r))));
      if blinking : bool then mret true else blinkLoop count (row + 1)
  end.
(** The region as its first and last row. *)
Definition ContainsBlinkAttributeInRegion (top bottomInclusive : Z) : M TextBuffer bool :=
  bottom ← gets (fun tb => Z.min bottomInclusive (_estimateOffsetOfLastCommittedRow tb));
  blinkLoop (Z.to_nat (bottom - top)) top.

Definition IsGlyphDoubleWidthAt (at_ : point) : M TextBuffer bool :=
  committed ← gets (_isRowCommitted (pt_y at_));
  if negb committed then mret false
  else
    attr ← ask_row (pt_y at_) (DbcsAttrAt (pt_x at_));
    mret (match attr with Single => false | _ => true end).

(** [ImageSlice::CopyBlock] within one buffer, [EraseBlock] and [EraseCells]. *)
Definition copy_cells_row (srcRow srcColumn dstRow dstColumnBegin dstColumnEnd : Z) : M TextBuffer unit :=
  src ← GetRowByOffset isa srcRow;
  dst ← GetMutableRowByOffset isa dstRow;
  from_row src dst (fun source => writes (RowImages.CopyCells source srcColumn dstColumnBegin dstColumnEnd)).
Fixpoint copyBlockLoop (count : nat) (y step : Z) (srcRect dstRect : rect) : M TextBuffer unit :=
  match count with
  | O => mret tt
  | S count =>
      copy_cells_row (rc_top srcRect + y) (rc_left srcRect) (rc_top dstRect + y) (rc_left dstRect) (rc_right dstRect) ;;
      copyBlockLoop count (y + step) step srcRect dstRect
  end.
Definition CopyBlock (srcRect dstRect : rect) : M TextBuffer unit :=
  let height := rc_bottom srcRect - rc_top srcRect in
  if rc_top srcRect <? rc_top dstRect then copyBlockLoop (Z.to_nat height) (height - 1) (-1) srcRect dstRect
  else copyBlockLoop (Z.to_nat height) 0 1 srcRect dstRect.

Fixpoint eraseBlockLoop (count : nat) (y left right : Z) : M TextBuffer unit :=
  match count with
  | O => mret tt
  | S count =>
      r ← GetMutableRowByOffset isa y;
      on_phys r (writes (RowImages.EraseCells left right)) ;;
      eraseBlockLoop count (y + 1) left right
  end.
Definition EraseBlock (area : rect) : M TextBuffer unit :=
  eraseBlockLoop (Z.to_nat (rc_bottom area - rc_top area)) (rc_top area) (rc_left area) (rc_right area).

(** Each step but the first erases a whole row. *)
Fixpoint eraseCellsLoop (fuel : nat) (x y distanceRemaining : Z) : M TextBuffer unit :=
  match fuel with
  | O => outOfFuel
  | S fuel =>
      if distanceRemaining >? 0 then
        r ← GetMutableRowByOffset isa y;
        on_phys r (writes (RowImages.EraseCells x (x + distanceRemaining))) ;;
        columns ← on_phys r (gets size);
        eraseCellsLoop fuel 0 (y + 1) (distanceRemaining - (columns - x))
      else mret tt
  end.
Definition EraseCellsFrom (at_ : point) (distance : Z) : M TextBuffer unit :=
  eraseCellsLoop (S (S (Z.to_nat distance))) (pt_x at_) (pt_y at_) distance.
End writing.

Definition GraphemePrev (data : Z) (chars : wstring) (position : Z) (d : CodepointWidthDetector) : option (CodepointWidthDetector * Z) :=
  '(d, state, _) ← Graphemes.GraphemePrev (mkGraphemeState (data + position) 0 0 0 0) data chars d;
  Some (d, position - len state).
End TextBuffer.

(** ** Cells of the text buffer

    Single cells, read and written one at a time: [TextBuffer::GetCellDataAt]
    ([src/buffer/out/textBufferCellIterator.cpp]), an [OutputCellIterator] over one cell
    ([src/buffer/out/OutputCellIterator.cpp]), and how a rectangle is walked
    ([src/types/viewport.cpp]). *)

(** ** [Viewport]: walking the cells of a rectangle, given with exclusive ends. *)
Definition IsInBounds (view : rect) (pos : point) : bool :=
  (rc_left view <=? pt_x pos) && (pt_x pos <? rc_right view) && (rc_top view <=? pt_y pos) && (pt_y pos <? rc_bottom view).

(** The position after it, and whether it could be moved. *)
Definition WalkInBounds (view : rect) (delta : Z) (pos : point) : point * bool :=
  let w := Z.max 0 (rc_right view - rc_left view) in
  let h := Z.max 0 (rc_bottom view - rc_top view) in
  let off := w * (pt_y pos - rc_top view) + (pt_x pos - rc_left view) + delta in
  let offClamped := clamp off 0 (w * h - 1) in
  (mkPoint (Z.rem offClamped w + rc_left view) (Z.quot offClamped w + rc_top view), off =? offClamped).
Definition GetWalkOrigin (view : rect) (delta : Z) : point :=
  if delta >=? 0 then mkPoint (rc_left view) (rc_top view) else mkPoint (rc_right view - 1) (rc_bottom view - 1).
(** [operator<] of points. *)
Definition point_before (a b : point) : bool := (pt_y a <? pt_y b) || ((pt_y a =? pt_y b) && (pt_x a <? pt_x b)).
Definition DetermineWalkDirection (source target : rect) : Z :=
  if point_before (mkPoint (rc_left target) (rc_top target)) (mkPoint (rc_left source) (rc_top source)) then 1 else -1.

(** ** An [OutputCellIterator] over cells: those that are left, the last one that was read and how many have been. *)
Record CellRun := mkCellRun { run_cells : list OutputCellView; run_view : OutputCellView; run_pos : Z }.
Definition CellRun_ctor (cell : OutputCellView) : CellRun := mkCellRun [cell] cell 0.
#[export] Instance CellRun_iterator : CellIterator CellRun := {
  cell_valid run := match run_cells run with [] => false | _ => true end;
  cell_view := run_view;
  cell_next run := let cells := tail (run_cells run) in mkCellRun cells (default (run_view run) (head cells)) (run_pos run + 1);
  cell_position := run_pos
}.

Section cells.
Context `{VirtualMemory} `{Allocator} (isa : Intrinsics).

(** What [_GenerateView] reads from the row. *)
Definition _GenerateView (x : Z) (r : ROW) : option OutputCellView :=
  glyph ← GlyphAt x r;
  dbcs ← DbcsAttrAt x r;
  attr ← subscript 16 (_runs (_attr r)) begin_ x;
  Some (mkCellView glyph dbcs attr Stored).

Definition GetCellDataAt (at_ : point) : M TextBuffer OutputCellView :=
  r ← TextBuffer.GetRowByOffset isa (pt_y at_);
  inside ← gets (TextBuffer.in_bounds at_);
  if negb inside then throw else TextBuffer.on_phys r (reads (_GenerateView (pt_x at_))).

(** [WriteLine(OutputCellIterator({ &current, 1 }), target)]. *)
Definition WriteCell (current : OutputCellView) (target : point) : M TextBuffer unit :=
  _ ← TextBuffer.WriteLine isa (fun newIt givenIt => run_pos newIt - run_pos givenIt) (CellRun_ctor current) target None None;
  mret tt.
End cells.
