(* ===== verification/BufferStore.v ===== *)
(** * The storage of the text buffer

    The rows of [TextBuffer] are committed on demand and stored in a circle. [contents] is what
    that stands for: the rows from the top of the buffer to its bottom, where a row that is not
    committed yet is a blank one. Getting hold of a row does not change it,
    and where the text of a row is in memory makes no difference to copying it. *)

From stdpp Require Import gmap.
From S2P Require Import Prelude LineRenditions InputEvents TextAttributes Rle ImageSlice Graphemes Row Cursor RowImages RowSpec RowWrite RowInit TextBuffer.

Definition with_data v h := mkWriteHelper v (chars h) (colBeg h) (colLimit h) (colEnd h) (colBegDirty h) (colEndDirty h) (chBeg h) (chBegDirty h) (leadingSpaces h) (charsConsumed h).
Definition on_result {A B} (f : A -> B) (o : Outcome A) : Outcome B :=
  match o with Ret a => Ret (f a) | Throw => Throw | UB => UB | OutOfFuel => OutOfFuel end.

(** Evaluates the computations on both sides of an equation in step. *)
Ltac in_step :=
  cbv [mbind M_bind option_bind reads gets mret M_ret];
  repeat (match goal with |- context [match ?x with _ => _ end] => lazymatch x with context [match _ with _ => _ end] => fail | _ => destruct x end end;
          cbn [fst snd on_result]; try done).

Lemma bind_result {S A B C} (f : A -> B) (m : M S A) (m' : M S B) (k : A -> M S C) (k' : B -> M S C) s :
  m' s = (fst (m s), on_result f (snd (m s))) -> (forall a s, k' (f a) s = k a s) -> mbind k' m' s = mbind k m s.
Proof. intros Hm Hk. cbv [mbind M_bind]. rewrite Hm. destruct (m s) as [s' []]; cbn; [apply Hk|done..]. Qed.

Section address.
Context `{Allocator} (isa : Intrinsics).

Lemma finish_data v h r : Finish (with_data v h) r = (fst (Finish h r), on_result (with_data v) (snd (Finish h r))).
Proof.
  unfold Finish. cbv zeta. cbn [colEndDirty colEnd chBegDirty charsConsumed leadingSpaces chars chBeg colBegDirty with_data set_colEndDirty]. in_step.
Qed.

Lemma copy_text_data v offsets h r :
  WriteHelper_CopyTextFrom offsets (with_data v h) r = (fst (WriteHelper_CopyTextFrom offsets h r), on_result (with_data v) (snd (WriteHelper_CopyTextFrom offsets h r))).
Proof.
  unfold WriteHelper_CopyTextFrom. cbv zeta. cbn [colLimit colBeg chBeg colEnd with_data set_colEndDirty set_colEnd set_charsConsumed]. in_step.
Qed.

Lemma helper_data v b e data text r : WriteHelper_ctor b e v text r = with_data v <$> WriteHelper_ctor b e data text r.
Proof. unfold WriteHelper_ctor. cbv [mbind option_bind]. destruct (_uncheckedCharOffset _ r); [|done]. by destruct (_adjustBackward _ r). Qed.

Lemma source_text_data a1 a2 b e r : source_text a2 b e r = (fun '(o, data, text) => (o, if b <? e then a2 r + (data - a1 r) else data, text)) <$> source_text a1 b e r.
Proof.
  unfold source_text. destruct (b <? e); [|done]. cbv [mbind option_bind fmap option_fmap option_map].
  destruct (loads _ b _); [|done]. destruct (load l 0); [|done]. destruct (load l _); [|done]. destruct (loads _ _ _); [|done]. do 3 f_equal. lia.
Qed.

Lemma copy_text_address a1 a2 source state r : CopyTextFrom isa a2 source state r = CopyTextFrom isa a1 source state r.
Proof.
  unfold CopyTextFrom, or_reset, try_catch. rewrite !run_gets. set (src := source_row source r).
  match goal with |- match ?m1 r with _ => _ end = match ?m2 r with _ => _ end => assert (Heq : m1 r = m2 r); [|by rewrite Heq] end.
  eapply (bind_result (fun '(o, data, text) => (o, if _ <? _ then a2 src + (data - a1 src) else data, text))).
  - unfold reads. rewrite (source_text_data a1 a2). by destruct (source_text a1 _ _ src) as [[[? ?] ?]|].
  - intros [[offsets data] text] s. set (data' := if _ <? _ then _ else _). apply (bind_result (with_data data')).
    + unfold reads. rewrite (helper_data data' _ _ data). by destruct (WriteHelper_ctor _ _ data _ s).
    + intros h s'. change (IsValid (with_data data' h)) with (IsValid h). change (colBeg (with_data data' h)) with (colBeg h).
      destruct (_ || _); [done|]. apply (bind_result (with_data data')); [apply copy_text_data|]. intros h' s''. apply (bind_result (with_data data')); [apply finish_data|done].
Qed.

Lemma copy_from_address a1 a2 source r : CopyFrom isa a2 source r = CopyFrom isa a1 source r.
Proof.
  unfold CopyFrom. rewrite !run_gets, !run_modify, !run_gets. cbv [mbind M_bind]. by rewrite (copy_text_address a1 a2).
Qed.
End address.

(** ** The storage of the text buffer

    The rows of [TextBuffer] are committed on demand and stored in a circle. [contents] is what
    that stands for: the rows from the top of the buffer to its bottom, where a row that is not
    committed yet is a blank one. Getting hold of a row does not change it. *)

Implicit Types (tb : TextBuffer) (r : ROW).
Abbreviation buffer_height tb := (Z.to_nat (_height tb)).

Definition buffer_ok tb : Prop :=
  0 < _width tb <= 0x7fff /\ 0 < _height tb <= 0xffff /\ 0 <= _firstRow tb < _height tb /\ (length (_rows tb) <= S (buffer_height tb))%nat.

(** The place of a row in [contents], for any index. *)
Definition slot tb (y : Z) : nat := Z.to_nat (y mod _height tb).
(** Its place in memory. *)
Definition place tb (y : Z) : nat := S (rotate_nat_add (Z.to_nat (_firstRow tb)) (slot tb y) (buffer_height tb)).

Lemma slot_lt tb y : buffer_ok tb -> (slot tb y < buffer_height tb)%nat.
Proof. intros (_ & Hh & _). unfold slot. pose proof (Z.mod_pos_bound y (_height tb) ltac:(lia)). lia. Qed.

Lemma place_bounds tb y : buffer_ok tb -> (1 <= place tb y <= buffer_height tb)%nat.
Proof.
  intros Hok. pose proof Hok as (_ & Hh & _). unfold place. pose proof (rotate_nat_add_lt (Z.to_nat (_firstRow tb)) (slot tb y) (buffer_height tb) ltac:(lia)). lia.
Qed.

Lemma wrapped_place tb y : buffer_ok tb -> TextBuffer.wrapped y tb + 1 = Z.of_nat (place tb y).
Proof.
  intros (_ & Hh & Hf & _). unfold TextBuffer.wrapped, place, slot, rotate_nat_add.
  assert (Hm : (if Z.rem (_firstRow tb + y) (_height tb) <? 0 then Z.rem (_firstRow tb + y) (_height tb) + _height tb else Z.rem (_firstRow tb + y) (_height tb))
    = (_firstRow tb + y) mod _height tb).
  { set (a := _firstRow tb + y). pose proof (Z.quot_rem' a (_height tb)) as Hq. pose proof (Z.rem_bound_abs a (_height tb) ltac:(lia)) as Hb.
    destruct (Z.ltb_spec (Z.rem a (_height tb)) 0).
    - apply Z.mod_unique_pos with (Z.quot a (_height tb) - 1); [lia|]. rewrite Z.mul_sub_distr_l. lia.
    - apply Z.mod_unique_pos with (Z.quot a (_height tb)); lia. }
  rewrite Hm. pose proof (Z.mod_pos_bound y (_height tb) ltac:(lia)). rewrite !Z2Nat.id by lia. rewrite Zplus_mod_idemp_r.
  pose proof (Z.mod_pos_bound (_firstRow tb + y) (_height tb) ltac:(lia)). lia.
Qed.

Section store.
Context `{VirtualMemory} (isa : Intrinsics).

Definition blank_line tb : ROW := fst (TextBuffer.construct_at isa tb).
(** The row at a place in memory, committed or not. *)
Definition phys tb (n : nat) : ROW := default (blank_line tb) (_rows tb !! n).
Definition contents tb : list ROW := rotate (Z.to_nat (_firstRow tb)) (map (phys tb) (seq 1 (buffer_height tb))).
Definition scratchpad tb : ROW := phys tb 0.

Lemma length_contents tb : length (contents tb) = buffer_height tb.
Proof. unfold contents. by rewrite length_rotate, length_map, length_seq. Qed.

Lemma contents_lookup tb y : buffer_ok tb -> contents tb !! slot tb y = Some (phys tb (place tb y)).
Proof.
  intros Hok. pose proof (slot_lt tb y Hok) as Hs. pose proof (place_bounds tb y Hok) as Hp. unfold contents.
  rewrite lookup_rotate_r by (by rewrite length_map, length_seq). rewrite length_map, length_seq, list_lookup_fmap.
  rewrite lookup_seq_lt by (unfold place in Hp; lia). done.
Qed.

(** ** Committing rows *)
Lemma constructs tb : buffer_ok tb -> TextBuffer.construct_at isa tb = (blank_line tb, Ret tt).
Proof.
  intros (Hw & _). unfold blank_line, TextBuffer.construct_at.
  destruct (constructed_row_is_blank isa (replicate (buffer_length (_width tb)) 0) (replicate (buffer_length (_width tb)) 0) (_width tb) (_initialAttributes tb) Hw)
    as (r & Hrun & _); [by rewrite length_replicate..|].
  unfold buffer_length, CalculateCharOffsetsBufferSize, CalculateCharsBufferSize in *. by rewrite Hrun.
Qed.

Lemma construct_spec count tb : buffer_ok tb ->
  TextBuffer._construct isa count tb = (set_rows (_rows tb ++ replicate count (blank_line tb)) tb, Ret tt).
Proof.
  assert (Hgen : forall count rows, buffer_ok tb ->
    TextBuffer._construct isa count (set_rows rows tb) = (set_rows (rows ++ replicate count (blank_line tb)) tb, Ret tt)).
  { clear count. induction count as [|count IH]; intros rows Hok; [by rewrite app_nil_r|]. cbn [TextBuffer._construct].
    cbv [mbind M_bind]. change (TextBuffer.construct_at isa (set_rows rows tb)) with (TextBuffer.construct_at isa tb). rewrite constructs by done.
    cbn [modify]. unfold modify. change (set_rows (_rows (set_rows rows tb) ++ [blank_line tb]) (set_rows rows tb)) with (set_rows (rows ++ [blank_line tb]) tb).
    rewrite IH by done. by rewrite <- app_assoc. }
  intros Hok. rewrite <- Hgen by done. by destruct tb.
Qed.

(** More rows are committed, and nothing else has changed. *)
Definition grown tb tb' : Prop :=
  exists k, tb' = set_rows (_rows tb ++ replicate k (blank_line tb)) tb /\ (length (_rows tb) + k <= S (buffer_height tb))%nat.

Lemma grown_refl tb : buffer_ok tb -> grown tb tb.
Proof. intros (_ & _ & _ & Hl). exists 0%nat. split; [|lia]. cbn [replicate]. rewrite app_nil_r. by destruct tb. Qed.

Lemma grown_ok tb tb' : buffer_ok tb -> grown tb tb' -> buffer_ok tb'.
Proof. intros (Hw & Hh & Hf & _) (k & -> & Hk). split; [done|]. split; [done|]. split; [done|]. cbn. rewrite length_app, length_replicate. lia. Qed.

Lemma grown_phys tb tb' n : grown tb tb' -> phys tb' n = phys tb n.
Proof.
  intros (k & -> & _). unfold phys. change (blank_line (set_rows _ tb)) with (blank_line tb). cbn [_rows set_rows].
  destruct (decide (n < length (_rows tb))%nat) as [Hn|Hn]; [by rewrite lookup_app_l|]. rewrite lookup_app_r, (lookup_ge_None_2 (_rows tb)) by lia.
  destruct (replicate k (blank_line tb) !! _) as [r|] eqn:E; [|done]. by apply lookup_replicate in E as [-> _].
Qed.

Lemma grown_contents tb tb' : grown tb tb' -> contents tb' = contents tb /\ scratchpad tb' = scratchpad tb.
Proof.
  intros Hg. split; [|by apply grown_phys]. unfold contents. pose proof Hg as (k & -> & _). cbn [_firstRow _height set_rows]. f_equal. apply map_ext. intros n.
  by apply grown_phys.
Qed.

(** No memory to commit. *)
Definition no_memory : Prop := exists n, commits n = false.

Lemma direct_spec tb n : buffer_ok tb -> (n <= buffer_height tb)%nat ->
  (exists tb', TextBuffer._getRowByOffsetDirect isa (Z.of_nat n) tb = (tb', Ret n) /\ grown tb tb' /\ (n < length (_rows tb'))%nat) \/
  (TextBuffer._getRowByOffsetDirect isa (Z.of_nat n) tb = (tb, Throw) /\ no_memory).
Proof.
  intros Hok Hn. pose proof Hok as (_ & Hh & _ & Hl). unfold TextBuffer._getRowByOffsetDirect. rewrite run_gets, (proj2 (Z.ltb_ge _ _)), Z.geb_leb, (proj2 (Z.leb_gt _ _)) by lia.
  cbn [orb]. rewrite run_gets, Z.geb_leb. unfold TextBuffer._commitWatermark. destruct (Z.leb_spec (Z.of_nat (length (_rows tb))) (Z.of_nat n)) as [Hc|Hc].
  - set (count := Z.min (_height tb + 1 - Z.of_nat (length (_rows tb))) (Z.of_nat n + 1 - Z.of_nat (length (_rows tb)) + 128)).
    assert (Hrun : TextBuffer._commit isa (Z.of_nat n) tb = if commits count then TextBuffer._construct isa (Z.to_nat count) tb else (tb, Throw)).
    { unfold TextBuffer._commit. rewrite !run_gets. fold count. change (Z.min _ _) with count. by destruct (commits count). }
    destruct (commits count) eqn:Hm.
    + left. eexists. split; [|split].
      * erewrite run_bind; [|rewrite Hrun; by apply construct_spec]. by rewrite Nat2Z.id.
      * eexists. split; [done|]. subst count. lia.
      * cbn [_rows set_rows]. rewrite length_app, length_replicate. subst count. lia.
    + right. split; [|by exists count]. cbv [mbind M_bind]. by rewrite Hrun.
  - left. exists tb. split; [by rewrite run_ret, Nat2Z.id|]. split; [by apply grown_refl|lia].
Qed.

Lemma getRow_spec tb y : buffer_ok tb ->
  (exists tb', TextBuffer._getRow isa y tb = (tb', Ret (place tb y)) /\ grown tb tb' /\ (place tb y < length (_rows tb'))%nat) \/
  (TextBuffer._getRow isa y tb = (tb, Throw) /\ no_memory).
Proof.
  intros Hok. unfold TextBuffer._getRow. rewrite run_gets, wrapped_place by done. apply direct_spec; [done|]. apply (place_bounds tb y Hok).
Qed.

Lemma mutable_row_spec tb y : buffer_ok tb ->
  (exists tb', TextBuffer.GetMutableRowByOffset isa y tb = (tb', Ret (place tb y)) /\
     grown (set_lastMutationId (u64 (_lastMutationId tb + 1)) tb) tb' /\ (place tb y < length (_rows tb'))%nat) \/
  (TextBuffer.GetMutableRowByOffset isa y tb = (set_lastMutationId (u64 (_lastMutationId tb + 1)) tb, Throw) /\ no_memory).
Proof. intros Hok. unfold TextBuffer.GetMutableRowByOffset. rewrite run_modify. by apply (getRow_spec (set_lastMutationId _ tb)). Qed.

(** ** Changing rows *)
Lemma phys_stored tb n r m : (n < length (_rows tb))%nat ->
  phys (set_rows (<[n := r]> (_rows tb)) tb) m = if (m =? n)%nat then r else phys tb m.
Proof.
  intros Hn. unfold phys. change (blank_line (set_rows _ tb)) with (blank_line tb). cbn [_rows set_rows].
  destruct (Nat.eqb_spec m n) as [->|Hne]; [by rewrite list_lookup_insert_eq|by rewrite list_lookup_insert_ne].
Qed.

Lemma line_stored tb y r : buffer_ok tb -> (place tb y < length (_rows tb))%nat ->
  contents (set_rows (<[place tb y := r]> (_rows tb)) tb) = <[slot tb y := r]> (contents tb) /\
  scratchpad (set_rows (<[place tb y := r]> (_rows tb)) tb) = scratchpad tb.
Proof.
  intros Hok Hp. pose proof (place_bounds tb y Hok) as Hb. pose proof (slot_lt tb y Hok) as Hs. split.
  - unfold contents at 2. cbn [_firstRow _height set_rows]. rewrite <- rotate_insert_l by (by rewrite length_map, length_seq). unfold contents. cbn [_firstRow _height set_rows].
    f_equal. apply list_eq. intros i. rewrite list_lookup_fmap. rewrite length_map, length_seq. change (rotate_nat_add _ _ _) with (Nat.pred (place tb y)).
    destruct (decide (i < buffer_height tb)%nat) as [Hi|Hi].
    + rewrite lookup_seq_lt by done. cbn [fmap option_fmap option_map]. rewrite phys_stored by done. destruct (Nat.eqb_spec (1 + i) (place tb y)) as [He|He].
      * rewrite <- He. cbn [Nat.pred Nat.add]. by rewrite list_lookup_insert_eq by (by rewrite length_map, length_seq).
      * rewrite list_lookup_insert_ne by lia. by rewrite list_lookup_fmap, lookup_seq_lt.
    + rewrite lookup_seq_ge by lia. symmetry. apply lookup_ge_None_2. rewrite length_insert, length_map, length_seq. lia.
  - unfold scratchpad. rewrite phys_stored by done. by destruct (place tb y) eqn:E; [lia|].
Qed.

Lemma scratch_stored tb r : (0 < length (_rows tb))%nat ->
  contents (set_rows (<[0%nat := r]> (_rows tb)) tb) = contents tb /\ scratchpad (set_rows (<[0%nat := r]> (_rows tb)) tb) = r.
Proof.
  intros Hn. split; [|unfold scratchpad; by rewrite phys_stored]. unfold contents. cbn [_firstRow _height set_rows]. f_equal. apply list_eq. intros i. rewrite !list_lookup_fmap.
  destruct (decide (i < buffer_height tb)%nat) as [Hi|Hi]; [|by rewrite lookup_seq_ge by lia]. rewrite lookup_seq_lt by done. cbn [fmap option_fmap option_map]. by rewrite phys_stored.
Qed.

Lemma stored_ok tb n r : buffer_ok tb -> buffer_ok (set_rows (<[n := r]> (_rows tb)) tb).
Proof. intros (Hw & Hh & Hf & Hl). split; [done|]. split; [done|]. split; [done|]. cbn. by rewrite length_insert. Qed.

Lemma lookup_phys tb n : (n < length (_rows tb))%nat -> _rows tb !! n = Some (phys tb n).
Proof. intros Hn. unfold phys. by destruct (lookup_lt_is_Some_2 _ _ Hn) as [r ->]. Qed.
End store.
