(* ===== verification/BufferRefinement.v ===== *)
(** * The text buffer as a list of rows

    The specification of the storage: [plain], a list of rows and a scratchpad, where scrolling
    drops the first row and appends a blank one. Any sequence of operations on the circular,
    lazily committed buffer does what it does to the list. *)
From stdpp Require Import gmap.
From S2P Require Import Prelude LineRenditions Cursor InputEvents TextAttributes Rle ImageSlice Graphemes Row RowImages RowSpec RowInit BufferStore TextBuffer.

Implicit Types (tb : TextBuffer) (r : ROW).

Record plain := mkPlain { lines : list ROW; scratch : ROW; initial : TextAttribute; current : TextAttribute }.
Implicit Types (p : plain).
Definition set_lines l p := mkPlain l (scratch p) (initial p) (current p).
Definition at_line (y : Z) p : nat := Z.to_nat (y mod Z.of_nat (length (lines p))).

Section refinement.
Context `{VirtualMemory} `{Allocator} {D : Type} `{GraphemeDetector D} (isa : Intrinsics) (address : nat -> ROW -> Z).
(** The width of the buffer. *)
Context (w : Z).

Definition view tb : plain := mkPlain (contents isa tb) (scratchpad isa tb) (_initialAttributes tb) (_currentAttributes tb).
Definition store_ok tb : Prop := buffer_ok tb /\ _width tb = w.

(** What can be done. *)
Inductive buffer_op :=
| OpRow (y : Z) (m : M (ROW * D) unit)
| OpCopyRow (src dst : Z)
| OpScrollRows (firstRow size delta : Z)
| OpIncrement (fill : TextAttribute)
| OpScratchpad (attributes : TextAttribute)
| OpSetCurrentAttributes (attributes : TextAttribute)
| OpReset.

Definition run_op (op : buffer_op) : M (TextBuffer * D) unit :=
  match op with
  | OpRow y m => r ← TextBuffer.on_buffer (TextBuffer.GetMutableRowByOffset isa y); TextBuffer.on_phys_text r m
  | OpCopyRow src dst => TextBuffer.on_buffer (TextBuffer.CopyRow isa address src dst)
  | OpScrollRows firstRow size delta => TextBuffer.on_buffer (TextBuffer.ScrollRows isa address firstRow size delta)
  | OpIncrement fill => TextBuffer.on_buffer (TextBuffer.IncrementCircularBuffer isa fill)
  | OpScratchpad attributes => TextBuffer.on_buffer (_ ← TextBuffer.GetScratchpadRow_with isa attributes; mret tt)
  | OpSetCurrentAttributes attributes => TextBuffer.on_buffer (TextBuffer.SetCurrentAttributes attributes)
  | OpReset => TextBuffer.on_buffer TextBuffer.Reset
  end.

(** What is to happen. *)
Definition on_line {A} (y : Z) (m : M (ROW * D) A) : M (plain * D) A := fun s =>
  match lines (fst s) !! at_line y (fst s) with
  | Some r => let '((r', d), o) := m (r, snd s) in ((set_lines (<[at_line y (fst s) := r']> (lines (fst s))) (fst s), d), o)
  | None => (s, UB)
  end.
(** The address of the source does not matter ([BufferStore.copy_from_address]). *)
Definition copy_row (source : RowSource) : M ROW unit :=
  CopyFrom isa (fun _ => 0) source ;; modify (fun dst => RowImages.CopyRow (source_row source dst) dst).
Definition line_to_row {A} (m : M ROW A) : M (ROW * D) A := fun s => let '(r, o) := m (fst s) in ((r, snd s), o).

Definition copy_line (src dst : Z) : M (plain * D) unit := fun s =>
  let p := fst s in
  match (if (at_line src p =? at_line dst p)%nat then Some This else Other <$> lines p !! at_line src p) with
  | Some source => on_line dst (line_to_row (copy_row source)) s
  | None => (s, UB)
  end.
Fixpoint scroll_lines (count : nat) (y step delta : Z) : M (plain * D) unit :=
  match count with
  | O => mret tt
  | S count => copy_line y (y + delta) ;; scroll_lines count (y + step) step delta
  end.

Definition blank_row_of (attributes : TextAttribute) : ROW :=
  fst (ROW_ctor isa (replicate (buffer_length w) 0) (replicate (buffer_length w) 0) w attributes).

Definition spec_op (op : buffer_op) : M (plain * D) unit :=
  match op with
  | OpRow y m => on_line y m
  | OpCopyRow src dst => copy_line src dst
  | OpScrollRows firstRow size delta =>
      if delta =? 0 then mret tt
      else if delta <? 0 then scroll_lines (Z.to_nat size) firstRow 1 delta
      else scroll_lines (Z.to_nat size) (firstRow + Z.max 0 size - 1) (-1) delta
  | OpIncrement fill =>
      on_line 0 (line_to_row (Row.Reset isa fill)) ;;
      modify (fun s => (set_lines (tail (lines (fst s)) ++ take 1 (lines (fst s))) (fst s), snd s))
  | OpScratchpad attributes => fun s =>
      let '(r, o) := Row.Reset isa attributes (scratch (fst s)) in
      ((mkPlain (lines (fst s)) r (initial (fst s)) (current (fst s)), snd s), o)
  | OpSetCurrentAttributes attributes => modify (fun s => (mkPlain (lines (fst s)) (scratch (fst s)) (initial (fst s)) attributes, snd s))
  | OpReset => modify (fun s =>
      let p := fst s in
      (mkPlain (replicate (length (lines p)) (blank_row_of (current p))) (blank_row_of (current p)) (current p) (current p), snd s))
  end.

(** The buffer does what the list does, or there is no memory for another row. *)
Definition refines {A} (m : M (TextBuffer * D) A) (spec : M (plain * D) A) : Prop := forall tb d, store_ok tb ->
  let '((tb', d'), o) := m (tb, d) in
  store_ok tb' /\ (spec (view tb, d) = ((view tb', d'), o) \/ (o = Throw /\ no_memory)).

Lemma refines_bind {A B} (m : M (TextBuffer * D) A) (k : A -> M (TextBuffer * D) B) sm sk :
  refines m sm -> (forall a, refines (k a) (sk a)) -> refines (mbind k m) (mbind sk sm).
Proof.
  intros Hm Hk tb d Hok. specialize (Hm tb d Hok). cbv [mbind M_bind]. destruct (m (tb, d)) as [[tb' d'] o]. destruct Hm as [Hok' [Hspec|[-> Hno]]]; [|by split; [|right]].
  rewrite Hspec. destruct o as [a| | |]; [|by split; [|left]..]. specialize (Hk a tb' d' Hok'). by destruct (k a (tb', d')) as [[tb'' d''] o].
Qed.

Lemma refines_ret {A} (a : A) : refines (mret a) (mret a).
Proof. intros tb d Hok. split; [done|by left]. Qed.

Lemma refines_ext {A} (m : M (TextBuffer * D) A) s1 s2 : refines m s1 -> (forall s, s1 s = s2 s) -> refines m s2.
Proof. intros Hm He tb d Hok. specialize (Hm tb d Hok). destruct (m (tb, d)) as [[tb' d'] o]. by rewrite <- He. Qed.

(** ** One row *)
Lemma at_line_slot tb y : store_ok tb -> at_line y (view tb) = slot tb y.
Proof. intros [(_ & Hh & _) _]. unfold at_line, slot. cbn [lines view]. rewrite length_contents, Z2Nat.id by lia. done. Qed.

Lemma lines_lookup tb y : store_ok tb -> lines (view tb) !! at_line y (view tb) = Some (phys isa tb (place tb y)).
Proof. intros Hok. rewrite at_line_slot by done. apply contents_lookup, Hok. Qed.

Lemma grown_view tb tb' : store_ok tb -> grown isa tb tb' -> store_ok tb' /\ view tb' = view tb /\ forall y, place tb' y = place tb y.
Proof.
  intros [Hok Hw] Hg. pose proof (grown_ok isa tb tb' Hok Hg) as Hok'. destruct (grown_contents isa tb tb' Hg) as [Hc Hs]. destruct Hg as (k & -> & _).
  split; [done|]. split; [|done]. unfold view. by rewrite Hc, Hs.
Qed.

Lemma view_stored tb y r : store_ok tb -> (place tb y < length (_rows tb))%nat ->
  store_ok (set_rows (<[place tb y := r]> (_rows tb)) tb) /\
  view (set_rows (<[place tb y := r]> (_rows tb)) tb) = set_lines (<[at_line y (view tb) := r]> (lines (view tb))) (view tb).
Proof.
  intros Hst Hp. pose proof Hst as [Hok Hw]. split; [split; [by apply stored_ok|done]|]. destruct (line_stored isa tb y r Hok Hp) as [Hc Hs].
  rewrite at_line_slot by done. unfold view at 1. by rewrite Hc, Hs.
Qed.

(** A row is fetched: the rows are those before, and it is committed. *)
Lemma fetch_mutable tb y : store_ok tb ->
  exists tb' o, TextBuffer.GetMutableRowByOffset isa y tb = (tb', o) /\ store_ok tb' /\ view tb' = view tb /\ (forall z, place tb' z = place tb z) /\
    ((o = Ret (place tb y) /\ (place tb y < length (_rows tb'))%nat) \/ (o = Throw /\ no_memory)).
Proof.
  intros Hok. set (tb1 := set_lastMutationId (u64 (_lastMutationId tb + 1)) tb). assert (Hok1 : store_ok tb1) by done.
  destruct (mutable_row_spec isa tb y (proj1 Hok)) as [(tb' & Hrun & Hg & Hp)|[Hrun Hno]].
  - destruct (grown_view tb1 tb' Hok1 Hg) as (Hok' & Hv & Hpl). exists tb', (Ret (place tb y)). rewrite Hrun. split; [done|]. split; [done|]. split; [by rewrite Hv|]. split; [done|by left].
  - exists tb1, Throw. rewrite Hrun. split; [done|]. split; [done|]. split; [done|]. split; [done|by right].
Qed.

Lemma fetch_row tb y : store_ok tb ->
  exists tb' o, TextBuffer.GetRowByOffset isa y tb = (tb', o) /\ store_ok tb' /\ view tb' = view tb /\ (forall z, place tb' z = place tb z) /\
    (length (_rows tb) <= length (_rows tb'))%nat /\
    ((o = Ret (place tb y) /\ (place tb y < length (_rows tb'))%nat) \/ (o = Throw /\ no_memory)).
Proof.
  intros Hok. destruct (getRow_spec isa tb y (proj1 Hok)) as [(tb' & Hrun & Hg & Hp)|[Hrun Hno]].
  - destruct (grown_view tb tb' Hok Hg) as (Hok' & Hv & Hpl). exists tb', (Ret (place tb y)). split; [done|]. split; [done|]. split; [done|]. split; [done|]. split; [|by left].
    destruct Hg as (k & -> & _). cbn. rewrite length_app. lia.
  - exists tb, Throw. split; [done|]. split; [done|]. split; [done|]. split; [done|]. split; [lia|by right].
Qed.

Lemma refines_row y (m : M (ROW * D) unit) : refines (run_op (OpRow y m)) (on_line y m).
Proof.
  intros tb d Hok. cbn [run_op]. cbv [mbind M_bind]. unfold TextBuffer.on_buffer. cbn [fst snd].
  destruct (fetch_mutable tb y Hok) as (tb' & o & -> & Hok' & Hv & Hpl & [[-> Hp]|[-> Hno]]); [|by split; [|right]].
  unfold TextBuffer.on_phys_text. cbn [fst snd]. rewrite (lookup_phys isa tb') by done. unfold on_line. cbn [fst snd]. rewrite <- Hv, lines_lookup, Hpl by done.
  destruct (m (phys isa tb' (place tb y), d)) as [[r' d'] o]. rewrite <- (Hpl y) in Hp |- *. destruct (view_stored tb' y r' Hok' Hp) as [Hok2 Hv2]. split; [done|]. left. by rewrite Hv2.
Qed.

Lemma place_inj tb y z : store_ok tb -> place tb y = place tb z <-> slot tb y = slot tb z.
Proof.
  intros [Hok _]. split; [|unfold place; by intros ->]. intros He. apply Nat.succ_inj in He. apply (f_equal (fun i => rotate_nat_sub (Z.to_nat (_firstRow tb)) i (buffer_height tb))) in He.
  pose proof (slot_lt tb y Hok). pose proof (slot_lt tb z Hok). by rewrite !rotate_nat_sub_add in He.
Qed.

Lemma refines_phys tb d y (m : M ROW unit) : store_ok tb -> (place tb y < length (_rows tb))%nat ->
  let '(tb', o) := TextBuffer.on_phys (place tb y) m tb in
  store_ok tb' /\ on_line y (line_to_row m) (view tb, d) = ((view tb', d), o).
Proof.
  intros Hok Hp. unfold TextBuffer.on_phys, on_line, line_to_row. cbn [fst snd]. rewrite (lookup_phys isa tb), lines_lookup by done. destruct (m _) as [r o].
  destruct (view_stored tb y r Hok Hp) as [Hok2 Hv2]. split; [done|]. by rewrite Hv2.
Qed.

Lemma on_phys_ext {A} n (m m' : M ROW A) tb : (forall r, m r = m' r) -> TextBuffer.on_phys n m tb = TextBuffer.on_phys n m' tb.
Proof. intros He. unfold TextBuffer.on_phys. destruct (_rows tb !! n); [|done]. by rewrite He. Qed.

Lemma refines_copy src dst : refines (run_op (OpCopyRow src dst)) (copy_line src dst).
Proof.
  intros tb d Hok. cbn [run_op]. unfold TextBuffer.on_buffer, TextBuffer.CopyRow. cbn [fst snd]. unfold mbind at 1, M_bind at 1.
  destruct (fetch_mutable tb dst Hok) as (tb1 & o & -> & Hok1 & Hv1 & Hpl1 & [[-> Hp1]|[-> Hno]]); [|by split; [|right]]. unfold mbind at 1, M_bind at 1.
  destruct (fetch_row tb1 src Hok1) as (tb2 & o & -> & Hok2 & Hv2 & Hpl2 & Hlen & [[-> Hp2]|[-> Hno]]); [|by split; [|right]].
  assert (Hd : (place tb2 dst < length (_rows tb2))%nat) by (rewrite Hpl2, Hpl1; lia). rewrite <- Hv1, <- Hv2, <- !Hpl1, <- !Hpl2. rewrite <- Hpl2 in Hp2.
  unfold TextBuffer.from_row, copy_line. cbn [fst snd]. set (source := if (_ =? _)%nat then Some This else _).
  assert (Hsource : TextBuffer.copy_source (place tb2 src) (place tb2 dst) tb2 = source /\ source <> None).
  { subst source. unfold TextBuffer.copy_source. rewrite !at_line_slot by done. pose proof (place_inj tb2 src dst Hok2).
    destruct (Nat.eqb_spec (place tb2 src) (place tb2 dst)), (Nat.eqb_spec (slot tb2 src) (slot tb2 dst)); try tauto; [done|].
    rewrite (lookup_phys isa tb2), <- at_line_slot, lines_lookup by done. done. }
  destruct Hsource as [Hrun Hne]. destruct source as [source|]; [|done]. erewrite run_bind by (unfold reads; by rewrite Hrun).
  erewrite on_phys_ext; [|intros r; cbv [mbind M_bind]; by rewrite (copy_from_address isa (fun _ => 0))].
  pose proof (refines_phys tb2 d dst (copy_row source) Hok2 Hd) as Hgo. unfold copy_row in Hgo. cbv [mbind M_bind] in Hgo.
  destruct (TextBuffer.on_phys (place tb2 dst) _ tb2) as [tb3 o]. destruct Hgo as [Hok3 Hs]. split; [done|left]. exact Hs.
Qed.

Lemma refines_scroll count : forall y step delta,
  refines (TextBuffer.on_buffer (TextBuffer.scrollLoop isa address count y step delta)) (scroll_lines count y step delta).
Proof.
  induction count as [|count IH]; intros y step delta; [apply refines_ret|]. cbn [TextBuffer.scrollLoop scroll_lines].
  intros tb d Hok. pose proof (refines_bind _ (fun _ => TextBuffer.on_buffer (TextBuffer.scrollLoop isa address count (y + step) step delta)) _ _
    (refines_copy y (y + delta)) (fun _ => IH (y + step) step delta) tb d Hok) as Hb.
  cbn [run_op] in Hb. unfold TextBuffer.on_buffer in *. cbv [mbind M_bind] in *. cbn [fst snd] in *. destruct (TextBuffer.CopyRow _ _ _ _ tb) as [tb1 []]; exact Hb.
Qed.

(** ** Scrolling *)

(** Computations that leave the rows alone. *)
Definition quiet {A} (m : M TextBuffer A) : Prop := forall tb, store_ok tb ->
  let '(tb', o) := m tb in store_ok tb' /\ view tb' = view tb /\ ((exists a, o = Ret a) \/ (o = Throw /\ no_memory)).

Lemma quiet_bind {A B} (m : M TextBuffer A) (k : A -> M TextBuffer B) : quiet m -> (forall a, quiet (k a)) -> quiet (mbind k m).
Proof.
  intros Hm Hk tb Hok. specialize (Hm tb Hok). cbv [mbind M_bind]. destruct (m tb) as [tb' o]. destruct Hm as (Hok' & Hv & [[a ->]|[-> Hno]]); [|by split; [|split; [|right]]].
  specialize (Hk a tb' Hok'). destruct (k a tb') as [tb'' o]. destruct Hk as (? & Hv' & ?). split; [done|]. split; [by rewrite Hv'|done].
Qed.
Lemma quiet_ret {A} (a : A) : quiet (mret a).
Proof. intros tb Hok. split; [done|]. split; [done|]. left. by exists a. Qed.
Lemma quiet_gets {A} (f : TextBuffer -> A) : quiet (gets f).
Proof. intros tb Hok. split; [done|]. split; [done|]. left. by eexists. Qed.

Lemma quiet_ask {A} y (f : ROW -> A) : quiet (r ← TextBuffer.GetRowByOffset isa y; TextBuffer.on_phys r (gets f)).
Proof.
  intros tb Hok. cbv [mbind M_bind]. destruct (fetch_row tb y Hok) as (tb' & o & -> & Hok' & Hv & Hpl & _ & [[-> Hp]|[-> Hno]]); [|by split; [|split; [|right]]].
  unfold TextBuffer.on_phys, gets. rewrite (lookup_phys isa tb') by done. rewrite list_insert_id by (by apply lookup_phys).
  replace (set_rows (_rows tb') tb') with tb' by (by destruct tb'). split; [done|]. split; [done|]. left. by eexists.
Qed.

Lemma quiet_links m c i : quiet (modify (fun tb => set_hyperlinks (m tb) (c tb) (i tb) tb)).
Proof. intros tb Hok. split; [done|]. split; [done|]. left. by eexists. Qed.

Lemma quiet_remove ids : quiet (TextBuffer.removeLinks ids).
Proof. induction ids as [|id ids IH]; [apply quiet_ret|]. apply quiet_bind; [apply quiet_links|by intros _]. Qed.

Lemma quiet_pruneLoop count : forall i refs, quiet (TextBuffer.pruneLoop isa count i refs).
Proof.
  induction count as [|count IH]; intros i refs; [apply quiet_ret|]. cbn [TextBuffer.pruneLoop]. apply quiet_bind; [apply quiet_ask|]. intros found.
  destruct (decide _); [apply quiet_ret|apply IH].
Qed.

Lemma quiet_prune : quiet (TextBuffer._PruneHyperlinks isa).
Proof.
  apply quiet_bind; [apply quiet_ask|]. intros links. destruct links as [|id links]; [apply quiet_ret|]. apply quiet_bind; [apply quiet_gets|]. intros total.
  apply quiet_bind; [apply quiet_pruneLoop|]. intros refs. apply quiet_remove.
Qed.

Lemma quiet_refines {A B} (m : M TextBuffer A) (k : A -> M TextBuffer B) spec : quiet m -> (forall a, refines (TextBuffer.on_buffer (k a)) spec) ->
  refines (TextBuffer.on_buffer (mbind k m)) spec.
Proof.
  intros Hm Hk tb d Hok. specialize (Hm tb Hok). unfold TextBuffer.on_buffer in *. cbn [fst snd]. cbv [mbind M_bind]. destruct (m tb) as [tb' o].
  destruct Hm as (Hok' & Hv & [[a ->]|[-> Hno]]); [|by split; [|right]]. specialize (Hk a tb' d Hok'). cbn [fst snd] in Hk. by rewrite <- Hv.
Qed.

Lemma rotate_step {A} (l : list A) f : (f < length l)%nat ->
  rotate (if (length l <=? S f)%nat then 0 else S f) l = tail (rotate f l) ++ take 1 (rotate f l).
Proof.
  intros Hf. destruct (lookup_lt_is_Some_2 l f Hf) as [a Ha]. unfold rotate at 2 3. rewrite Nat.mod_small by done. rewrite (drop_S l a f Ha). cbn [app tail take].
  rewrite take_0, <- app_assoc, <- (take_S_r l f a Ha). destruct (Nat.leb_spec (length l) (S f)).
  - rewrite drop_ge, take_ge by lia. unfold rotate. rewrite Nat.Div0.mod_0_l. cbn. by rewrite app_nil_r.
  - unfold rotate. by rewrite Nat.mod_small by lia.
Qed.

Lemma refines_advance : refines (TextBuffer.on_buffer (modify (fun tb =>
    let firstRow := _firstRow tb + 1 in set_firstRow (if firstRow >=? _height tb then 0 else firstRow) tb)))
  (modify (fun s => (set_lines (tail (lines (fst s)) ++ take 1 (lines (fst s))) (fst s), snd s))).
Proof.
  intros tb d [Hok Hw]. pose proof Hok as (Hw' & Hh & Hf & Hl). unfold TextBuffer.on_buffer, modify. cbn [fst snd]. cbv zeta. rewrite Z.geb_leb. split.
  - split; [|done]. split; [done|]. split; [done|]. split; [|done]. cbn [_firstRow _height set_firstRow]. destruct (Z.leb_spec (_height tb) (_firstRow tb + 1)); lia.
  - left. set (f := if _ <=? _ then 0 else _).
    assert (Hc : contents isa (set_firstRow f tb) = tail (contents isa tb) ++ take 1 (contents isa tb)); [|unfold view, set_lines; cbn [lines scratch initial current]; by rewrite <- Hc].
    assert (Hlen : length (map (phys isa tb) (seq 1 (buffer_height tb))) = buffer_height tb) by (by rewrite length_map, length_seq).
    unfold contents at 2 3. rewrite <- rotate_step by (rewrite Hlen; lia). rewrite Hlen. unfold contents. cbn [_firstRow _height set_firstRow]. f_equal. subst f.
    destruct (Z.leb_spec (_height tb) (_firstRow tb + 1)), (Nat.leb_spec (buffer_height tb) (S (Z.to_nat (_firstRow tb)))); lia.
Qed.

Lemma refines_increment fill : refines (run_op (OpIncrement fill)) (spec_op (OpIncrement fill)).
Proof.
  cbn [run_op spec_op]. unfold TextBuffer.IncrementCircularBuffer. apply quiet_refines; [apply quiet_prune|]. intros _.
  pose proof (refines_bind _ _ _ _ (refines_row 0 (line_to_row (Row.Reset isa fill))) (fun _ => refines_advance)) as Hb.
  intros tb d Hok. specialize (Hb tb d Hok). cbn [run_op] in Hb. unfold TextBuffer.on_buffer, TextBuffer.on_phys_text, TextBuffer.on_phys, line_to_row in *.
  cbv [mbind M_bind] in *. cbn [fst snd] in *. destruct (TextBuffer.GetMutableRowByOffset isa 0 tb) as [tb1 []]; try exact Hb. cbn [fst snd] in *.
  destruct (_rows tb1 !! a) as [r|]; [|exact Hb]. cbn [fst snd] in *. by destruct (Row.Reset isa fill r) as [r' []].
Qed.

(** ** All operations *)
Lemma refines_scratchpad attributes : refines (run_op (OpScratchpad attributes)) (spec_op (OpScratchpad attributes)).
Proof.
  intros tb d [Hok Hw]. cbn [run_op spec_op]. unfold TextBuffer.on_buffer, TextBuffer.GetScratchpadRow_with. cbn [fst snd]. cbv [mbind M_bind].
  destruct (direct_spec isa tb 0 Hok ltac:(lia)) as [(tb' & Hrun & Hg & Hp)|[Hrun Hno]]; change (Z.of_nat 0) with 0 in Hrun; rewrite Hrun; [|by split; [|right]].
  destruct (grown_view tb tb' (conj Hok Hw) Hg) as ([Hok' Hw'] & Hv & _). unfold TextBuffer.on_phys. rewrite (lookup_phys isa tb') by done.
  rewrite <- Hv. change (scratch (view tb')) with (phys isa tb' 0). destruct (Row.Reset isa attributes (phys isa tb' 0)) as [r o].
  destruct (scratch_stored isa tb' r Hp) as [Hc Hs].
  assert (Hv2 : view (set_rows (<[0%nat := r]> (_rows tb')) tb') = mkPlain (lines (view tb')) r (initial (view tb')) (current (view tb'))) by (unfold view at 1; by rewrite Hc, Hs).
  destruct o as [[]| | |]; (split; [split; [by apply stored_ok|done]|left]; by rewrite Hv2).
Qed.

Lemma blank_contents tb : store_ok tb -> _rows tb = [] ->
  contents isa tb = replicate (buffer_height tb) (blank_row_of (_initialAttributes tb)) /\ scratchpad isa tb = blank_row_of (_initialAttributes tb).
Proof.
  intros [_ Hw] Hr. assert (Hb : blank_line isa tb = blank_row_of (_initialAttributes tb)) by (unfold blank_line, blank_row_of, TextBuffer.construct_at; by rewrite Hw).
  assert (Hp : forall n, phys isa tb n = blank_row_of (_initialAttributes tb)) by (intros n; unfold phys; by rewrite Hr, Hb). split; [|apply Hp].
  unfold contents. rewrite (map_ext _ (fun _ => blank_row_of (_initialAttributes tb)) Hp), <- (rotate_replicate (Z.to_nat (_firstRow tb)) (buffer_height tb)). f_equal.
  generalize 1%nat as start. induction (buffer_height tb) as [|n IH]; intros start; [done|]. cbn [seq map replicate]. by rewrite IH.
Qed.

Lemma refines_reset : refines (run_op OpReset) (spec_op OpReset).
Proof.
  intros tb d [Hok Hw]. pose proof Hok as (? & ? & ? & ?). cbn [run_op spec_op]. unfold TextBuffer.on_buffer, TextBuffer.Reset, TextBuffer._decommit. rewrite run_modify. unfold modify. cbn [fst snd].
  set (tb' := set_initialAttributes _ _). assert (Hok' : store_ok tb') by (split; [split; [done|]; split; [done|]; split; [done|cbn; lia]|done]).
  split; [done|left]. destruct (blank_contents tb' Hok' eq_refl) as [Hc Hs].
  assert (Hv : view tb' = mkPlain (replicate (buffer_height tb') (blank_row_of (_initialAttributes tb'))) (blank_row_of (_initialAttributes tb')) (_initialAttributes tb') (_currentAttributes tb')) by (unfold view; by rewrite Hc, Hs).
  rewrite Hv. cbn [lines current view]. by rewrite length_contents.
Qed.

Lemma op_refines op : refines (run_op op) (spec_op op).
Proof.
  destruct op as [y m|src dst|firstRow size delta|fill|attributes|attributes|].
  - apply refines_row.
  - apply refines_copy.
  - cbn [run_op spec_op]. unfold TextBuffer.ScrollRows. destruct (delta =? 0); [apply refines_ret|]. replace (Z.to_nat (Z.max 0 size)) with (Z.to_nat size) by lia.
    destruct (delta <? 0); apply refines_scroll.
  - apply refines_increment.
  - apply refines_scratchpad.
  - intros tb d Hok. split; [done|by left].
  - apply refines_reset.
Qed.

Fixpoint run_ops (ops : list buffer_op) : M (TextBuffer * D) unit := match ops with [] => mret tt | op :: ops => run_op op ;; run_ops ops end.
Fixpoint spec_ops (ops : list buffer_op) : M (plain * D) unit := match ops with [] => mret tt | op :: ops => spec_op op ;; spec_ops ops end.

Lemma ops_refine ops : refines (run_ops ops) (spec_ops ops).
Proof. induction ops as [|op ops IH]; [apply refines_ret|]. apply refines_bind; [apply op_refines|by intros _]. Qed.
End refinement.

(** The constructed buffer. *)
Lemma constructed_buffer width height attributes id cursorSize active renderer tb : width <= 0x7fff ->
  TextBuffer.TextBuffer_ctor width height attributes id cursorSize active renderer = (tb, Ret tt) ->
  buffer_ok tb /\ _width tb = Z.max width 1 /\ _height tb = Z.max height 1 /\ _rows tb = [] /\ _initialAttributes tb = attributes /\ _currentAttributes tb = attributes.
Proof.
  intros Hw. unfold TextBuffer.TextBuffer_ctor, TextBuffer._reserve. destruct (_ && _) eqn:E; [|done]. rewrite !andb_true_iff, !Z.leb_le in E. rewrite !run_modify. unfold modify. intros [= <-].
  split; [|done]. split; [cbn; lia|]. split; [cbn; lia|]. split; [cbn; lia|]. cbn. lia.
Qed.

Section plain.
Context `{VirtualMemory} `{Allocator} {D : Type} `{GraphemeDetector D} (isa : Intrinsics) (address : nat -> ROW -> Z).

(** A screen of blank rows. *)
Definition blank_screen (width height : Z) (attributes : TextAttribute) : plain :=
  let blank := blank_row_of isa (Z.max width 1) attributes in
  mkPlain (replicate (Z.to_nat (Z.max height 1)) blank) blank attributes attributes.

(** C23: A constructed text buffer, whatever sequence of calls follows, on its rows, copying and scrolling them, advancing the circular
    buffer, its scratchpad row and resets, does to its rows and returns what the same calls do on a plain list of rows, in which
    advancing drops the first row and appends a blank one: that rows are stored in a circle and committed only when they are needed cannot
    be seen; or the system has no memory for another row, and an exception says so. *)
Theorem buffer_refines_rows width height attributes id cursorSize active renderer tb (ops : list buffer_op) (d : D) : width <= 0x7fff ->
  TextBuffer.TextBuffer_ctor width height attributes id cursorSize active renderer = (tb, Ret tt) ->
  let '((tb', d'), o) := run_ops isa address ops (tb, d) in
  buffer_ok tb' /\
  (spec_ops isa (Z.max width 1) ops (blank_screen width height attributes, d) = ((view isa tb', d'), o) \/ (o = Throw /\ no_memory)).
Proof.
  intros Hw Hctor. destruct (constructed_buffer _ _ _ _ _ _ _ _ Hw Hctor) as (Hok & Htw & Hth & Hr & Hi & Hc). assert (Hst : store_ok (Z.max width 1) tb) by done.
  pose proof (ops_refine isa address (Z.max width 1) ops tb d Hst) as HR. destruct (run_ops isa address ops (tb, d)) as [[tb' d'] o]. destruct HR as [[Hok' _] HR].
  destruct (blank_contents isa (Z.max width 1) tb Hst Hr) as [Hcon Hscr]. split; [done|]. unfold view in HR at 1. rewrite Hcon, Hscr, Hth, Hi, Hc in HR. exact HR.
Qed.
End plain.
