(* ===== verification/BufferFill.v ===== *)
(** * Filling rectangles of the text buffer

    [FillRect], which every erasure goes through: in each row of the rectangle exactly its
    columns are filled, with the text and the attributes given. *)
From stdpp Require Import gmap.
From S2P Require Import Prelude LineRenditions Cursor InputEvents TextAttributes Rle RleRefinement ImageSlice RowImages Graphemes GraphemeTheorems Row RowSpec RowWrite RowInit RowReplace RowText RowJoin RowCopy RowQueries RowInvariant BufferStore TextBuffer BufferRefinement.

Implicit Types (G A B N : list glyph) (g : glyph) (r : ROW) (tb : TextBuffer).

Definition letter (c : wchar_t) : glyph := mkGlyph [c] 1.

(** ** Glyphs of one column *)
Lemma glyphs_ok_letters n c : glyphs_ok (replicate n (letter c)).
Proof. apply Forall_replicate. split; cbn; [done|lia]. Qed.

Lemma columns_letters n c : columns (replicate n (letter c)) = n.
Proof. induction n as [|n IH]; [done|]. cbn. by rewrite IH. Qed.

Lemma text_of_letters n c : text_of (replicate n (letter c)) = replicate n c.
Proof. induction n as [|n IH]; [done|]. cbn [replicate]. by rewrite text_of_cons, IH. Qed.

Lemma take_columns_letters n k c B : (n <= k)%nat -> take_columns n (replicate k (letter c) ++ B) = replicate n (letter c) ++ take_columns 0 (replicate (k - n) (letter c) ++ B).
Proof.
  revert k. induction n as [|n IH]; intros k Hk; [by rewrite Nat.sub_0_r|]. destruct k as [|k]; [lia|]. cbn [replicate app take_columns letter glyph_width Nat.leb].
  rewrite Nat.sub_succ, Nat.sub_0_r, IH by lia. done.
Qed.

(** The source of a fill: [n] copies of a letter after [b] columns. *)
Lemma copy_letters scr A B n c b e : glyphs_ok (A ++ replicate n (letter c) ++ B) -> columns A = b -> (b < e)%nat -> n = (e - b)%nat ->
  let GS := A ++ replicate n (letter c) ++ B in
  copies (Other scr) b e b (columns GS) GS = true /\ copy_columns b e b (columns GS) = n /\ copy_new b e b (columns GS) GS = replicate n (letter c).
Proof.
  intros Hok HA Hbe Hn GS. pose proof Hok as HA'. apply glyphs_ok_app in HA' as [HokA HokB].
  assert (HcG : columns GS = (b + n + columns B)%nat) by (unfold GS; rewrite !columns_app, columns_letters; lia).
  assert (Hdrop : drop_columns b GS = replicate n (letter c) ++ B) by (apply drop_columns_app; done).
  assert (Htake : forall k, (n <= k)%nat -> take_columns n (replicate n (letter c) ++ B) = replicate n (letter c)).
  { intros k _. rewrite take_columns_letters, Nat.sub_diag by lia. cbn [replicate app]. rewrite take_columns_0, app_nil_r; [done|]. by apply glyphs_ok_app in HokB as [_ ?]. }
  assert (Hcc : copy_columns b e b (columns GS) = n) by (unfold copy_columns; lia). split; [|split; [done|]].
  - unfold copies. rewrite !(proj2 (Nat.ltb_lt _ _)) by lia. cbn [andb]. unfold start_column, GS. rewrite (take_columns_app b) by done.
    rewrite take_columns_0 by done. rewrite app_nil_r, HA, Nat.eqb_refl. cbn [andb]. unfold copied_glyphs. fold GS. rewrite Hdrop. destruct n as [|n]; [lia|].
    cbn [replicate app take_columns letter glyph_width]. by rewrite (proj2 (Nat.leb_le _ _)) by lia.
  - unfold copy_new. rewrite Hcc, Hdrop. by apply (Htake n).
Qed.

(** A glyph of one column in place of another one. *)
Lemma overwrite_one A g g' B : glyphs_ok (A ++ g :: B) -> glyph_width g = 1%nat -> glyph_width g' = 1%nat ->
  overwrite (columns A) (columns A + 1) [g'] (A ++ g :: B) = A ++ g' :: B.
Proof.
  intros Hok Hg Hg'. pose proof Hok as HA. apply glyphs_ok_app in HA as [HA HB]. assert (HAg : glyphs_ok (A ++ [g])) by (apply glyphs_ok_app; split; [done|]; by inversion HB as [|? ? ? ?]; constructor).
  assert (Hdrop : drop_columns (columns A + 1) (A ++ g :: B) = B).
  { replace (A ++ g :: B) with ((A ++ [g]) ++ B) by (by rewrite <- app_assoc). apply drop_columns_app; [rewrite columns_app; cbn; lia|done]. }
  unfold overwrite, start_column, next_column. rewrite Hdrop, (take_columns_app (columns A)) by done. rewrite take_columns_0, app_nil_r, Nat.sub_diag by done. cbn [replicate app columns].
  rewrite columns_app. cbn [columns]. rewrite Hg, Hg'. replace (_ - _)%nat with 0%nat by lia. done.
Qed.

Section fill.
Context `{VirtualMemory} `{Allocator} {D : Type} `{GraphemeLaws D} (isa : Intrinsics) (address : nat -> ROW -> Z).

(** ** One row *)
Definition fill_row (scr : ROW) (left right : Z) (attr : TextAttribute) : M ROW RowCopyTextFromState :=
  state ← CopyTextFrom isa (fun _ => 0) (Other scr) (mkCopyState left right left CoordTypeMax 0 0 0 0);
  ReplaceAttributes left right attr ;;
  writes (EraseCells left right) ;;
  mret state.

(** What is left of a row: the columns of the rectangle show the letter, with the attributes and no image;
    all others what they showed. *)
Definition filled (cells : til_size) (left right : Z) (c : wchar_t) (attr : TextAttribute) r r' : Prop :=
  let b := clamped left r in
  let e := clamped right r in
  (forall G, shows r G -> shows r' (overwrite b e (replicate (e - b) (letter c)) G)) /\
  (forall l, attributes r l -> attributes r' (take b l ++ replicate (e - b) attr ++ drop e l)) /\
  (_lineRendition r' = _lineRendition r /\ _wrapForced r' = _wrapForced r /\ _promptData r' = _promptData r) /\
  image_ok cells r' /\
  forall k x y, in_size cells x y ->
    row_pixel r' k x y = if (Z.shiftl left (image_scale r) <=? k) && (k <? Z.shiftl right (image_scale r)) then 0 else row_pixel r k x y.

(** A row that can be filled: it is in order and has room for a letter in every column. *)
Definition fillable (cells : til_size) r : Prop := row_ok r /\ image_ok cells r /\ room r (_columnCount r).

Lemma clamped_lt left r : 0 <= left < _columnCount r -> clamped left r = Z.to_nat left.
Proof. intros Hl. unfold clamped. by rewrite clamp_id by lia. Qed.

Lemma fill_glyphs r G l cells scr A B c left right attr : shows r G -> attributes r l -> image_ok cells r -> room r (_columnCount r) ->
  0 <= left < right -> left < _columnCount r ->
  let b := clamped left r in
  let e := clamped right r in
  shows scr (A ++ replicate (e - b) (letter c) ++ B) -> columns A = b -> _columnCount scr = _columnCount r ->
  let '(r', o) := fill_row scr left right attr r in
  ((exists state, o = Ret state) /\ shows r' (overwrite b e (replicate (e - b) (letter c)) G) /\ attributes r' (take b l ++ replicate (e - b) attr ++ drop e l) /\
   (_lineRendition r' = _lineRendition r /\ _wrapForced r' = _wrapForced r /\ _promptData r' = _promptData r) /\ image_ok cells r' /\
   forall k x y, in_size cells x y ->
     row_pixel r' k x y = if (Z.shiftl left (image_scale r) <=? k) && (k <? Z.shiftl right (image_scale r)) then 0 else row_pixel r k x y) \/
  (o = Throw /\ is_reset r r' /\ exists n, allocate n = None).
Proof.
  intros Hs Ha Hi Hroom Hlr Hl b e HsS HA Hc. destruct (shows_columns r G Hs) as (H32 & HG & HcG & HmG). destruct (shows_columns _ _ HsS) as (_ & HGS & HcGS & _).
  unfold room in Hroom. rewrite (charSize_spec r G Hs) in Hroom. pose proof (clamped_le right r G Hs) as He. fold e in He.
  assert (Hb : b = Z.to_nat left) by (apply clamped_lt; lia).
  assert (Hbe : (b < e)%nat) by (unfold e, clamped; unfold clamp; destruct (Z.ltb_spec right 0), (Z.gtb_spec right (_columnCount r)); lia).
  set (GS := A ++ replicate (e - b) (letter c) ++ B) in *. destruct (copy_letters scr A B (e - b) c b e HGS HA Hbe eq_refl) as (Hcop & Hcc & Hnew). fold GS in Hcop, Hcc, Hnew.
  pose proof (copy_text_spec isa (fun _ => 0) r G l (Other scr) GS (mkCopyState left right left CoordTypeMax 0 0 0 0) Hs Ha HsS) as HR. cbv zeta in HR. cbn [copy_columnBegin copy_columnLimit sourceColumnBegin sourceColumnLimit source_row] in HR.
  assert (Hsb : clamped left scr = b) by (unfold b, clamped; by rewrite Hc). assert (Hsl : clamped CoordTypeMax scr = columns GS).
  { unfold clamped, clamp, CoordTypeMax. rewrite (proj2 (Z.ltb_ge _ _)), Z.gtb_ltb, (proj2 (Z.ltb_lt _ _)) by lia. lia. }
  fold b e in HR. rewrite Hsb, Hsl in HR. unfold copy_result, copy_state, copy_padded in HR. rewrite Hcop, Hcc, Hnew in HR. replace (b + (e - b))%nat with e in HR by lia.
  pose proof (overwrite_chars_le b e (replicate (e - b) (letter c)) G HG ltac:(rewrite columns_letters; lia) ltac:(lia) ltac:(rewrite columns_letters; lia)) as Hch.
  rewrite text_of_letters, length_replicate in Hch. specialize (HR ltac:(lia)). unfold fill_row. cbv [mbind M_bind].
  destruct (CopyTextFrom isa (fun _ => 0) (Other scr) (mkCopyState left right left CoordTypeMax 0 0 0 0) r) as [r1 o]. destruct HR as [(-> & Hs1 & Hf1 & _)|(-> & Hreset & Halloc)]; cbv beta iota; [|by right].
  pose proof (frame_attributes r r1 l Hf1 Ha) as Ha1. destruct (shows_columns r1 _ Hs1) as (H321 & _ & HcG1 & _). unfold frame in Hf1. injection Hf1 as Hat1 Hc1 Hl1 Hw1 Hp1 Hi1.
  unfold ReplaceAttributes. rewrite !run_gets, !clamped_column by done. assert (Hbb : clamped left r1 = b) by (unfold b, clamped; by rewrite Hc1). assert (Hee : clamped right r1 = e) by (unfold e, clamped; by rewrite Hc1).
  rewrite Hbb, Hee. destruct (replaceAttr_ok r1 _ l b e attr Hs1 Ha1 Hbe ltac:(lia)) as (a & -> & Ha2).
  destruct (erase_row_spec cells left right (set_attr a r1)) as (r' & Herase & Hi' & Hset & Hpix); [unfold image_ok in *; cbn; by rewrite Hi1|].
  unfold writes. rewrite Herase. cbv beta iota. left. assert (Hr' : r' = set_imageSlice (_imageSlice r') (set_attr a r1)) by (rewrite <- Hset; by destruct r').
  split; [by eexists|]. rewrite Hr' at 1 2. split; [exact Hs1|]. split; [exact Ha2|]. split.
  - rewrite Hr'. cbn. auto.
  - split; [done|]. intros k x y Hin. rewrite Hpix by done. unfold image_scale, GetLineRendition, row_pixel. cbn [_lineRendition _imageSlice set_attr]. by rewrite Hl1, Hi1.
Qed.

Lemma fill_row_spec r cells scr A B c left right attr : fillable cells r -> 0 <= left < right -> left < _columnCount r ->
  shows scr (A ++ replicate (clamped right r - clamped left r) (letter c) ++ B) -> columns A = clamped left r -> _columnCount scr = _columnCount r ->
  let '(r', o) := fill_row scr left right attr r in
  ((exists state, o = Ret state) /\ filled cells left right c attr r r') \/ (o = Throw /\ is_reset r r' /\ exists n, allocate n = None).
Proof.
  intros ((G & l & Hs & _ & Ha) & Hi & Hroom) Hlr Hl HsS HA Hc.
  assert (Hall : forall G l, shows r G -> attributes r l -> _) by (intros G' l' Hs' Ha'; exact (fill_glyphs r G' l' cells scr A B c left right attr Hs' Ha' Hi Hroom Hlr Hl HsS HA Hc)).
  pose proof (Hall G l Hs Ha) as Hone. destruct (fill_row scr left right attr r) as [r' o]. destruct Hone as [(Ho & _ & _ & Hflags & Hi' & Hpix)|Hthrow]; [left|by right].
  split; [done|]. destruct Ho as [state ->]. split; [|split; [|done]].
  - intros G' Hs'. destruct (Hall G' l Hs' Ha) as [(_ & ? & _)|[? _]]; done.
  - intros l' Ha'. destruct (Hall G l' Hs Ha') as [(_ & _ & ? & _)|[? _]]; done.
Qed.

(** ** The rows of the rectangle *)
Abbreviation stored n r tb := (set_rows (<[n := r]> (_rows tb)) tb).
(** What a computation goes on with. *)
Definition continue {T U} (K : T -> M TextBuffer U) (result : TextBuffer * Outcome T) : TextBuffer * Outcome U :=
  match result with
  | (tb, Ret a) => K a tb
  | (tb, Throw) => (tb, Throw)
  | (tb, UB) => (tb, UB)
  | (tb, OutOfFuel) => (tb, OutOfFuel)
  end.

Lemma run_on_phys {T} n (m : M ROW T) tb r : _rows tb !! n = Some r -> TextBuffer.on_phys n m tb = (stored n (fst (m r)) tb, snd (m r)).
Proof. intros Hr. unfold TextBuffer.on_phys. rewrite Hr. by destruct (m r). Qed.

Lemma stored_lookup n r r0 tb : _rows tb !! n = Some r0 -> _rows (stored n r tb) !! n = Some r.
Proof. intros Hr. cbn. apply list_lookup_insert_eq. by apply lookup_lt_Some in Hr. Qed.

Lemma stored_stored n r r' tb : stored n r' (stored n r tb) = stored n r' tb.
Proof. unfold set_rows. cbn. by rewrite list_insert_insert_eq. Qed.

Lemma fill_step {U} tb n r scr left right attr (K : RowCopyTextFromState -> M TextBuffer U) : _rows tb !! n = Some r -> _rows tb !! 0%nat = Some scr -> n <> 0%nat ->
  mbind (fun state => TextBuffer.on_phys n (ReplaceAttributes left right attr) ;; TextBuffer.on_phys n (writes (EraseCells left right)) ;; K state)
    (TextBuffer.from_row 0 n (fun source => CopyTextFrom isa (address 0%nat) source (mkCopyState left right left CoordTypeMax 0 0 0 0))) tb =
  continue K (let '(r', o) := fill_row scr left right attr r in (stored n r' tb, o)).
Proof.
  intros Hn H0' Hne. unfold TextBuffer.from_row. cbv [mbind M_bind]. unfold reads at 1, TextBuffer.copy_source. destruct n as [|n]; [done|]. cbn [Nat.eqb]. rewrite H0'. cbn [mbind option_bind].
  unfold fill_row. cbv [mbind M_bind]. rewrite (run_on_phys _ _ tb r Hn), (copy_text_address isa (fun _ => 0)).
  destruct (CopyTextFrom isa (fun _ => 0) (Other scr) _ r) as [r1 []]; cbn [fst snd]; try done.
  rewrite (run_on_phys _ _ _ r1 (stored_lookup _ _ _ _ Hn)). destruct (ReplaceAttributes left right attr r1) as [r2 []]; cbn [fst snd]; rewrite ?stored_stored; try done.
  rewrite (run_on_phys _ _ _ r2 (stored_lookup _ _ _ _ Hn)). destruct (writes (EraseCells left right) r2) as [r3 []]; cbn [fst snd]; rewrite ?stored_stored; done.
Qed.

Lemma quiet_redraw w region : quiet isa w (TextBuffer.TriggerRedraw region).
Proof.
  intros tb Hok. unfold TextBuffer.TriggerRedraw, modify, TextBuffer.notify. destruct (_isActiveBuffer tb); (split; [done|]; split; [done|left; by eexists]).
Qed.

(** The rows from [y] on, [count] of them, have changed as [P] says, and the others not. *)
Definition rows_changed (P : ROW -> ROW -> Prop) (y count : nat) (before after : list ROW) : Prop :=
  length after = length before /\
  forall j r, before !! j = Some r -> exists r', after !! j = Some r' /\ if (y <=? j)%nat && (j <? y + count)%nat then P r r' else r' = r.

Lemma rows_changed_step P y count (before mid after : list ROW) r r' : before !! y = Some r -> mid = <[y := r']> before -> P r r' ->
  rows_changed P (S y) count mid after -> rows_changed P y (S count) before after.
Proof.
  intros Hy -> HP [Hlen Hj]. rewrite length_insert in Hlen. split; [done|]. intros j r0 Hr0. destruct (decide (j = y)) as [->|Hne].
  - destruct (Hj y r') as (r1 & Hr1 & Heq); [apply list_lookup_insert_eq; by apply lookup_lt_Some in Hy|]. exists r1. split; [done|]. rewrite (proj2 (Nat.leb_gt _ _)) in Heq by lia. cbn [andb] in Heq.
    rewrite (proj2 (Nat.leb_le _ _)), (proj2 (Nat.ltb_lt _ _)) by lia. cbn [andb]. congruence.
  - destruct (Hj j r0) as (r1 & Hr1 & Hc); [by rewrite list_lookup_insert_ne|]. exists r1. split; [done|].
    destruct (Nat.leb_spec (S y) j), (Nat.leb_spec y j), (Nat.ltb_spec j (S y + count)), (Nat.ltb_spec j (y + S count)); cbn [andb] in *; (done || lia).
Qed.

Definition exhausted : Prop := no_memory \/ exists n, allocate n = None.

Section rows.
Context (w : Z) (cells : til_size) (left right : Z) (c : wchar_t) (attr : TextAttribute).
Context (Hlr : 0 <= left < right) (Hlw : left < w).
Let b := Z.to_nat left.
Let e := Z.to_nat (Z.min right w).

Lemma clamped_rect r : _columnCount r = w -> clamped left r = b /\ clamped right r = e.
Proof. intros Hc. unfold clamped, clamp, b, e. rewrite Hc. destruct (Z.ltb_spec left 0), (Z.gtb_spec left w), (Z.ltb_spec right 0), (Z.gtb_spec right w); lia. Qed.

Definition is_source scr : Prop := _columnCount scr = w /\ exists A B, shows scr (A ++ replicate (e - b) (letter c) ++ B) /\ columns A = b.

Lemma fillRows_spec count : forall y tb, store_ok w tb -> (0 < length (_rows tb))%nat -> is_source (scratchpad isa tb) -> (y + count <= buffer_height tb)%nat ->
  (forall j r, contents isa tb !! j = Some r -> (y <= j < y + count)%nat -> fillable cells r /\ _columnCount r = w) ->
  let '(tb', o) := TextBuffer.fillRows isa address count (Z.of_nat y) 0 left right attr tb in
  store_ok w tb' /\
  ((o = Ret tt /\ rows_changed (filled cells left right c attr) y count (contents isa tb) (contents isa tb')) \/ (o = Throw /\ exhausted)).
Proof.
  induction count as [|count IH]; intros y tb Hok Hrows Hsrc Hy Hfill.
  - cbn. split; [done|left]. split; [done|]. split; [done|]. intros j r Hr. exists r. split; [done|]. destruct (Nat.leb_spec y j), (Nat.ltb_spec j (y + 0)); cbn [andb]; (done || lia).
  - cbn [TextBuffer.fillRows]. unfold mbind at 1, M_bind at 1. destruct (fetch_mutable isa w tb (Z.of_nat y) Hok) as (tb1 & o & Hrun & Hok1 & Hv1 & Hpl & [[-> Hp]|[-> Hno]]);
      rewrite Hrun; [|by split; [|right; split; [|left]]]. clear Hrun.
    assert (Hc1 : contents isa tb1 = contents isa tb) by (by injection Hv1). assert (Hs1 : scratchpad isa tb1 = scratchpad isa tb) by (by injection Hv1).
    assert (Hh : buffer_height tb1 = buffer_height tb) by (by rewrite <- !(length_contents isa), Hc1). pose proof Hok as [Hbok Hw]. pose proof Hok1 as [Hbok1 _].
    pose proof (place_bounds tb1 (Z.of_nat y) Hbok1) as Hpb. rewrite Hpl in Hpb. set (n := place tb (Z.of_nat y)) in *. set (r := phys isa tb1 n).
    assert (Hslot : slot tb1 (Z.of_nat y) = y) by (unfold slot; destruct Hbok1 as (_ & ? & _); rewrite Z.mod_small by lia; lia).
    assert (Hr : contents isa tb !! y = Some r) by (rewrite <- Hc1, <- Hslot, contents_lookup by done; by rewrite Hpl).
    destruct (Hfill y r Hr ltac:(lia)) as [Hf Hcr]. destruct Hsrc as (Hcs & A & B & HsS & HA). rewrite <- Hs1 in Hcs, HsS. destruct (clamped_rect r Hcr) as [Hb He].
    rewrite (fill_step tb1 n r (scratchpad isa tb1)) by (done || (apply lookup_phys; lia) || lia).
    pose proof (fill_row_spec r cells (scratchpad isa tb1) A B c left right attr Hf Hlr ltac:(lia)) as HR. rewrite Hb, He in HR. specialize (HR HsS HA ltac:(congruence)).
    destruct (fill_row (scratchpad isa tb1) left right attr r) as [r' o]. destruct (view_stored isa w tb1 (Z.of_nat y) r' Hok1 ltac:(by rewrite Hpl)) as [Hok2 Hv2].
    rewrite Hpl in Hok2, Hv2. fold n in Hok2, Hv2. rewrite (at_line_slot isa w), Hslot in Hv2 by done. destruct HR as [([state ->] & Hfilled)|(-> & _ & Halloc)]; cbn [continue]; [|by split; [|right; split; [|right]]].
    set (tb2 := stored n r' tb1) in *. unfold mbind at 1, M_bind at 1.
    pose proof (quiet_redraw w (mkRect (copy_columnBeginDirty state) (Z.of_nat y) (copy_columnEndDirty state) (Z.of_nat y + 1)) tb2 Hok2) as Hq.
    assert (Hlen2 : forall i, _rows (TextBuffer.notify i tb2) = _rows tb2) by (intros i; unfold TextBuffer.notify; by destruct (_isActiveBuffer tb2)).
    unfold TextBuffer.TriggerRedraw, modify in *. set (tb3 := TextBuffer.notify _ tb2) in *. destruct Hq as (Hok3 & Hv3 & _). rewrite Hv2 in Hv3.
    assert (Hc3 : contents isa tb3 = <[y := r']> (contents isa tb)) by (rewrite <- Hc1; by injection Hv3). assert (Hs3 : scratchpad isa tb3 = scratchpad isa tb1) by (by injection Hv3).
    replace (Z.of_nat y + 1) with (Z.of_nat (S y)) by lia. assert (Hh3 : buffer_height tb3 = buffer_height tb) by (rewrite <- !(length_contents isa), Hc3; by rewrite length_insert).
    specialize (IH (S y) tb3 Hok3). destruct (TextBuffer.fillRows isa address count (Z.of_nat (S y)) 0 left right attr tb3) as [tb4 o]. destruct IH as [Hok4 Hres].
    + unfold tb3. rewrite Hlen2. cbn. rewrite length_insert. lia.
    + rewrite Hs3. split; [done|]. by exists A, B.
    + lia.
    + intros j r0 Hj Hjy. rewrite Hc3, list_lookup_insert_ne in Hj by lia. apply (Hfill j r0 Hj). lia.
    + split; [done|]. destruct Hres as [[-> Hch]|Hres]; [left|by right]. split; [done|]. by apply (rows_changed_step _ y count _ (contents isa tb3) _ r r').
Qed.
End rows.

(** ** The scratchpad row *)

(** One letter written into a row of letters. *)
Lemma write_letter n r A g B l d data c : shows r (A ++ g :: B) -> attributes r l -> detector_ok d -> units (A ++ g :: B) -> glyph_width g = 1%nat -> 0 <= c < 0x80 ->
  forall right, (columns A < clamped right r)%nat ->
  0 < address n r -> 0 < data -> data + 1 < address n r \/ address n r + chars_of (A ++ g :: B) < data -> chars_of (A ++ g :: B) + 4 <= CharOffsetsMask ->
  let '((r', d'), o) := ReplaceText isa (address n) (mkWriteState data [c] (Z.of_nat (columns A)) right 0 0 0) (r, d) in
  d' = d /\
  ((exists state, o = Ret state /\ Row.columnEnd state = Z.of_nat (columns A + 1)) /\ shows r' (A ++ letter c :: B) /\ attributes r' l /\ _columnCount r' = _columnCount r \/
   (o = Throw /\ exists n, allocate n = None)).
Proof.
  intros Hs Ha Hd HU Hg Hc right Hright Ha1 Ha2 Ha3 Hroom. set (G := A ++ g :: B) in *. destruct (shows_columns r G Hs) as (H32 & HG & HcG & HmG).
  assert (HcA : (columns A < columns G)%nat) by (unfold G; rewrite columns_app; cbn; lia).
  set (state := mkWriteState data [c] (Z.of_nat (columns A)) right 0 0 0). assert (Hb : clamped (columnBegin state) r = columns A) by (unfold clamped; cbn; rewrite clamp_id by lia; lia).
  destruct (replace_text_spec isa (address n) r G l d state Hs Ha Hd (units_text r G Hs HU)) as (d' & dirty & P & N & q & Hplan & _ & _ & _ & _ & HR).
  - split; [|cbn; lia]. repeat constructor; unfold is_wchar; lia.
  - done.
  - split; [done|]. split; [done|]. cbn. exact Ha3.
  - cbn. lia.
  - rewrite Hb. exact Hright.
  - rewrite Hb in Hplan. cbn [columnLimit textData text state] in *. unfold text_plan in Hplan. cbn [starts_ascii] in Hplan. rewrite (proj2 (Z.ltb_lt _ _)) in Hplan by lia.
    unfold text_glyphs in Hplan. replace (clamped right r - columns A)%nat with (S (clamped right r - columns A - 1)) in Hplan by lia. cbn [take forallb] in Hplan.
    rewrite (proj2 (Z.ltb_lt _ _)), take_nil in Hplan by lia. cbn [andb forallb mbind option_bind ascii_glyphs map length] in Hplan. injection Hplan as <- <- <- <- <-.
    destruct (ReplaceText isa (address n) state (r, d)) as [[r' d''] o]. destruct HR as [-> HR]. split; [done|].
    assert (HcW : columns (cut_before (columns A) G ++ [mkGlyph [c] 1]) = (columns A + 1)%nat) by (rewrite columns_app, columns_cut_before by (done || lia); done).
    destruct HR as [(-> & Hs' & Hf & _)|(-> & _ & Halloc)]; [left|by right]. split; [eexists; split; [done|]; cbn [drop planned_state Row.columnEnd]; by rewrite HcW|].
    unfold planned_row, plan_until in Hs'. cbn [length Nat.eqb] in Hs'. rewrite HcW, finished_overwrite in Hs' by (done || lia).
    unfold G in Hs'. rewrite overwrite_one in Hs' by done. split; [exact Hs'|]. split; [by apply (frame_attributes r)|]. by destruct (frame_parts _ _ Hf).
Qed.

Definition letters (b k n : nat) (c : wchar_t) : list glyph := replicate b space ++ replicate k (letter c) ++ replicate (n - b - k) space.

Lemma letters_next b k n c : (b + k < n)%nat ->
  letters b k n c = (replicate b space ++ replicate k (letter c)) ++ space :: replicate (n - b - S k) space /\
  letters b (S k) n c = (replicate b space ++ replicate k (letter c)) ++ letter c :: replicate (n - b - S k) space /\
  columns (replicate b space ++ replicate k (letter c)) = (b + k)%nat.
Proof.
  intros Hk. unfold letters. rewrite columns_app, columns_space, columns_letters. split; [|split; [|done]].
  - rewrite <- app_assoc. do 2 f_equal. by replace (n - b - k)%nat with (S (n - b - S k)) by lia.
  - rewrite replicate_S_end, <- !app_assoc. done.
Qed.

Lemma letters_text b k n c : (b + k <= n)%nat -> 0 <= c < 0x80 -> units (letters b k n c) /\ chars_of (letters b k n c) = Z.of_nat n.
Proof.
  intros Hk Hc. unfold letters. split.
  - apply units_app. split; [apply units_space|]. apply units_app. split; [|apply units_space]. unfold units. rewrite text_of_letters. apply Forall_replicate. unfold is_wchar. lia.
  - rewrite !chars_of_app, !text_of_space, text_of_letters, !length_replicate. lia.
Qed.

Section scratchpad.
Context (w : Z) (c data : Z) (right : Z) (b : nat).
Context (Hc : 0 <= c < 0x80) (Hw : w + 4 <= CharOffsetsMask) (Hdata : 0 < data) (Hright : right <= w).
(** The text is not in the memory of the scratchpad row. *)
Context (Happart : forall r, 0 < address 0%nat r /\ (data + 1 < address 0%nat r \/ address 0%nat r + w < data)).

Lemma fillLoop_spec fuel : forall k tb d r l, store_ok w tb -> detector_ok d -> _rows tb !! 0%nat = Some r -> _columnCount r = w ->
  shows r (letters b k (Z.to_nat w) c) -> attributes r l -> Z.of_nat (b + k) <= right -> right - Z.of_nat (b + k) < Z.of_nat fuel ->
  let '((tb', d'), o) := TextBuffer.fillLoop isa address fuel 0 data [c] right (Z.of_nat (b + k)) (tb, d) in
  store_ok w tb' /\ d' = d /\ contents isa tb' = contents isa tb /\
  ((o = Ret tt /\ exists r', _rows tb' !! 0%nat = Some r' /\ _columnCount r' = w /\ shows r' (letters b (Z.to_nat right - b) (Z.to_nat w) c)) \/
   (o = Throw /\ exists n, allocate n = None)).
Proof.
  induction fuel as [|fuel IH]; intros k tb d r l Hok Hd Hr Hcc Hs Ha Hk Hfuel; [lia|]. cbn [TextBuffer.fillLoop].
  destruct (Z.ltb_spec (Z.of_nat (b + k)) right) as [Hlt|Hge].
  - destruct (letters_next b k (Z.to_nat w) c ltac:(lia)) as (HG & HG' & HcA). destruct (letters_text b k (Z.to_nat w) c ltac:(lia) Hc) as [HU Hch]. rewrite HG in Hs, HU, Hch.
    set (A := replicate b space ++ replicate k (letter c)) in *. set (B := replicate (Z.to_nat w - b - S k) space) in *.
    destruct (Happart r) as [Ha1 Ha2]. pose proof (write_letter 0%nat r A space B l d data c Hs Ha Hd HU eq_refl Hc right) as HR. rewrite HcA in HR.
    assert (Hcl : clamped right r = Z.to_nat right) by (unfold clamped; rewrite clamp_id by lia; done). rewrite Hcl in HR. specialize (HR ltac:(lia) Ha1 Hdata ltac:(rewrite Hch; lia) ltac:(rewrite Hch; lia)).
    unfold TextBuffer.on_phys_text. unfold mbind at 1, M_bind at 1. cbn [fst snd]. rewrite Hr.
    destruct (ReplaceText isa (address 0%nat) (mkWriteState data [c] (Z.of_nat (b + k)) right 0 0 0) (r, d)) as [[r' d'] o]. destruct HR as [-> HR].
    assert (Hlen : (0 < length (_rows tb))%nat) by (by apply lookup_lt_Some in Hr). destruct (scratch_stored isa tb r' Hlen) as [Hcon _].
    assert (Hok' : store_ok w (stored 0%nat r' tb)) by (split; [by apply stored_ok, Hok|apply Hok]).
    destruct HR as [((state & -> & Hend) & Hs' & Ha' & Hc')|[-> Halloc]]; cbv beta iota; [|split; [done|split; [done|split; [done|by right]]]].
    rewrite Hend. replace (b + k + 1)%nat with (b + S k)%nat by lia. rewrite <- HG' in Hs'.
    specialize (IH (S k) (stored 0%nat r' tb) d r' l Hok' Hd (stored_lookup _ _ _ _ Hr) ltac:(congruence) Hs' Ha' ltac:(lia) ltac:(lia)).
    destruct (TextBuffer.fillLoop isa address fuel 0 data [c] right (Z.of_nat (b + S k)) _) as [[tb' d'] o]. destruct IH as (? & ? & Hcon' & ?). rewrite Hcon in Hcon'. done.
  - split; [done|]. split; [done|]. split; [done|]. left. split; [done|]. exists r. replace (Z.to_nat right - b)%nat with k by lia. done.
Qed.
End scratchpad.

Lemma scratchpad_blank w tb attr : store_ok w tb -> row_ok (scratchpad isa tb) -> _columnCount (scratchpad isa tb) = w ->
  (exists tb' r, TextBuffer.GetScratchpadRow_with isa attr tb = (tb', Ret 0%nat) /\ store_ok w tb' /\ contents isa tb' = contents isa tb /\
     _rows tb' !! 0%nat = Some r /\ _columnCount r = w /\ shows r (replicate (Z.to_nat w) space) /\ attributes r (replicate (Z.to_nat w) attr)) \/
  (TextBuffer.GetScratchpadRow_with isa attr tb = (tb, Throw) /\ no_memory).
Proof.
  intros Hok (G & l & Hs & _ & Ha) Hc. pose proof Hok as [Hb Hw]. unfold TextBuffer.GetScratchpadRow_with. cbv [mbind M_bind].
  destruct (direct_spec isa tb 0 Hb ltac:(lia)) as [(tb' & Hrun & Hg & Hp)|[Hrun Hno]]; change (Z.of_nat 0) with 0 in Hrun; rewrite Hrun; [left|by right].
  destruct (grown_view isa w tb tb' Hok Hg) as ([Hb' Hw'] & Hv & _). assert (Hscr : phys isa tb' 0 = scratchpad isa tb) by exact (f_equal scratch Hv).
  pose proof Hs as (Hl & _). pose proof Hl as (Hc' & _). destruct (attributes_runs _ l Ha ltac:(lia)) as [Hruns Htot].
  destruct (reset_spec isa attr _ Hl Hruns Htot) as (r & Hreset & Hs' & Hf & _). unfold frame in Hf. injection Hf as Hattr Hcc _ _ _ _.
  exists (stored 0%nat r tb'), r. rewrite (run_on_phys 0 _ tb' (scratchpad isa tb)) by (rewrite <- Hscr; by apply lookup_phys). rewrite Hreset. cbn [fst snd].
  destruct (scratch_stored isa tb' r Hp) as [Hcon _]. split; [done|]. split; [split; [by apply stored_ok|done]|]. split; [by rewrite Hcon; exact (f_equal lines Hv)|].
  split; [by apply (stored_lookup 0 r (scratchpad isa tb)); rewrite <- Hscr; apply lookup_phys|]. split; [congruence|]. rewrite <- Hc. split; [exact Hs'|].
  rewrite <- Hcc. apply value_attributes; [by rewrite Hcc|by rewrite Hattr, Hcc].
Qed.

Lemma letters_source w left right c r : 0 <= left < right -> left < w -> right <= w \/ c = 0x20 -> _columnCount r = w ->
  shows r (letters (Z.to_nat left) (Z.to_nat (Z.min right w) - Z.to_nat left) (Z.to_nat w) c) -> is_source w left right c r.
Proof. intros Hlr Hlw Hr Hc Hs. split; [done|]. eexists (replicate (Z.to_nat left) space), _. split; [exact Hs|apply columns_space]. Qed.

(** The rows of a screen that is blank can be filled. *)
Lemma blank_fillable w attr cells : 0 < w -> 2 * w + 3 <= CharOffsetsMask ->
  row_ok (blank_row_of isa w attr) /\ _columnCount (blank_row_of isa w attr) = w /\ fillable cells (blank_row_of isa w attr).
Proof.
  intros Hw Hm. unfold CharOffsetsMask in Hm. unfold blank_row_of.
  destruct (constructed_row_is_blank isa (replicate (buffer_length w) 0) (replicate (buffer_length w) 0) w attr ltac:(lia)) as (r & -> & Hs & Hf); [by rewrite length_replicate..|].
  unfold frame in Hf. injection Hf as Hattr Hcc _ _ _ Hi. cbn [fst].
  assert (Hok : row_ok r). { exists (replicate (Z.to_nat w) space), (replicate (Z.to_nat (_columnCount r)) attr). split; [done|]. split; [apply units_space|]. apply value_attributes; [lia|by rewrite Hattr, Hcc]. }
  split; [done|]. split; [done|]. split; [done|]. split; [unfold image_ok; by rewrite Hi|].
  unfold room. rewrite (charSize_spec r _ Hs), text_of_space, length_replicate, Hcc. unfold CharOffsetsMask. lia.
Qed.

(** ** The rectangle *)

(** C24: Filling a rectangle with a character of ASCII and an attribute ends, for a rectangle within the width of the buffer and for any with spaces. It leaves
    in every row of the rectangle, from its top to the one above its bottom, the character with the attribute in exactly the columns of the rectangle
    (halves of wide glyphs at its sides become spaces), without images there, and everything else in these rows and all other rows as they were;
    or there was no memory, and an exception says so. The buffer has the rows and columns it should have, those of the rectangle are well formed with room for a character in each column, and the
    text is not in the memory of the first row. Other characters are not spoken of; with one that joins the glyph before, as a combining mark does, the loop does not advance, and only an exception ends it. *)
Theorem fill_rect_fills fuel left top right bottom data c attr cells tb d :
  buffer_ok tb -> _width tb + 4 <= CharOffsetsMask -> detector_ok d -> 0 <= c < 0x80 ->
  0 <= left < right -> left < _width tb -> 0 <= top < bottom -> bottom <= _height tb -> right <= _width tb \/ c = 0x20 ->
  row_ok (scratchpad isa tb) -> _columnCount (scratchpad isa tb) = _width tb ->
  (forall j r, contents isa tb !! j = Some r -> top <= Z.of_nat j < bottom -> fillable cells r /\ _columnCount r = _width tb) ->
  0 < data -> (forall r, 0 < address 0%nat r /\ (data + 1 < address 0%nat r \/ address 0%nat r + _width tb < data)) ->
  right - left < Z.of_nat fuel ->
  let '((tb', d'), o) := TextBuffer.FillRect isa address fuel (mkRect left top right bottom) data [c] attr (tb, d) in
  buffer_ok tb' /\ d' = d /\
  ((o = Ret tt /\ rows_changed (filled cells left right c attr) (Z.to_nat top) (Z.to_nat (bottom - top)) (contents isa tb) (contents isa tb')) \/
   (o = Throw /\ exhausted)).
Proof.
  intros Hbok Hmax Hd Hc Hlr Hlw Htb Hbh Hrc Hrow Hcc Hfill Hdata Happart Hfuel. assert (Hok : store_ok (_width tb) tb) by done. set (w := _width tb) in *.
  unfold TextBuffer.FillRect, TextBuffer.rect_valid. cbn [rc_left rc_top rc_right rc_bottom]. rewrite !Z.geb_leb, !Z.gtb_ltb, !(proj2 (Z.leb_le _ _)), !(proj2 (Z.ltb_lt _ _)) by lia.
  cbn [negb andb orb]. unfold TextBuffer.on_buffer. unfold mbind at 1, M_bind at 1. cbn [fst snd].
  destruct (scratchpad_blank w tb attr Hok Hrow Hcc) as [(tb1 & r & -> & Hok1 & Hcon1 & Hr & Hc1 & Hs & Ha)|[-> Hno]]; [|split; [done|split; [done|right; split; [done|by left]]]].
  assert (Hfirst : let '((tb2, d2), o) := (if decide ([c] <> [0x20]) then TextBuffer.fillLoop isa address fuel 0 data [c] right left else mret tt) (tb1, d) in
    store_ok w tb2 /\ d2 = d /\ contents isa tb2 = contents isa tb1 /\
    ((o = Ret tt /\ exists r', _rows tb2 !! 0%nat = Some r' /\ is_source w left right c r') \/ (o = Throw /\ exists n, allocate n = None))).
  { destruct (decide ([c] <> [0x20])) as [Hne|Heq].
    - assert (Hrw : right <= w) by (destruct Hrc as [?| ->]; [lia|done]).
      pose proof (fillLoop_spec w c data right (Z.to_nat left) Hc Hmax Hdata Hrw Happart fuel 0 tb1 d r (replicate (Z.to_nat w) attr) Hok1 Hd Hr Hc1) as HR.
      rewrite Nat.add_0_r, Z2Nat.id in HR by lia. unfold letters in HR at 1. cbn [replicate app] in HR. rewrite <- replicate_add in HR.
      replace (Z.to_nat left + (Z.to_nat w - Z.to_nat left - 0))%nat with (Z.to_nat w) in HR by lia. specialize (HR Hs Ha ltac:(lia) ltac:(lia)).
      destruct (TextBuffer.fillLoop isa address fuel 0 data [c] right left (tb1, d)) as [[tb2 d2] o]. destruct HR as (? & ? & ? & HR). split; [done|]. split; [done|]. split; [done|].
      destruct HR as [(-> & r' & Hr' & Hcr' & Hs')|HR]; [left|by right]. split; [done|]. exists r'. split; [done|]. apply letters_source; [done..|]. by rewrite Z.min_l by lia.
    - assert (c = 0x20) as -> by (apply dec_stable in Heq; congruence). split; [done|]. split; [done|]. split; [done|]. left. split; [done|]. exists r. split; [done|].
      apply letters_source; [done|done|by right|done|]. unfold letters. change (letter 0x20) with space. rewrite <- !replicate_add.
      by replace (Z.to_nat left + _)%nat with (Z.to_nat w) by lia. }
  unfold mbind at 1, M_bind at 1. destruct (_ (tb1, d)) as [[tb2 d2] o]. destruct Hfirst as (Hok2 & -> & Hcon2 & [(-> & r' & Hr' & Hsrc)|[-> Halloc]]);
    [|split; [apply Hok2|split; [done|right; split; [done|by right]]]].
  cbn [fst snd]. assert (Hlen2 : (0 < length (_rows tb2))%nat) by (by apply lookup_lt_Some in Hr').
  assert (Hscr2 : scratchpad isa tb2 = r') by (unfold scratchpad; pose proof (lookup_phys isa tb2 0 Hlen2); congruence).
  pose proof (fillRows_spec w cells left right c attr Hlr Hlw (Z.to_nat (bottom - top)) (Z.to_nat top) tb2 Hok2 Hlen2) as HR. rewrite Hscr2, Hcon2, Hcon1, Z2Nat.id in HR by lia.
  assert (Hh : buffer_height tb2 = buffer_height tb) by (rewrite <- !(length_contents isa); congruence). specialize (HR Hsrc ltac:(lia)).
  destruct (TextBuffer.fillRows isa address (Z.to_nat (bottom - top)) top 0 left right attr tb2) as [tb3 o]. destruct HR as [[Hok3 _] HR].
  - intros j r0 Hj Hjt. apply (Hfill j r0 Hj). lia.
  - done.
Qed.
End fill.
