(* ===== verification/BufferExamples.v ===== *)
(** * Text buffers in the concrete

    Buffers that instantiate the theorems, and behaviour worth knowing. *)
From stdpp Require Import gmap.
From S2P Require Import Prelude LineRenditions Cursor InputEvents ColorTable TextColors TextAttributes Rle ImageSlice Graphemes GraphemeTheorems Row RowImages RowSpec RowInit RowText RowJoin RowExamples BufferStore TextBuffer BufferRefinement BufferFill.

#[local] Existing Instance unlimited.
#[local] Instance all_memory : VirtualMemory := fun _ => true.
Definition at_place (n : nat) (r : ROW) : Z := 4096 * (1 + Z.of_nat n).

Definition sample_buffer (width height : Z) : TextBuffer :=
  fst (TextBuffer.TextBuffer_ctor width height TextAttribute_ctor 0 25 true (Some [])).
Abbreviation sample_op := (buffer_op (D := CodepointWidthDetector)).
Definition put (y : Z) (c : wchar_t) : sample_op := OpRow y (on_row (ReplaceCharacters SSE2 0 1 64 [c])).
Definition run_sample (ops : list sample_op) (tb : TextBuffer) : TextBuffer := fst (fst (run_ops SSE2 at_place ops (tb, s_codepointWidthDetector))).
(** The first character of each row. *)
Definition first_chars (tb : TextBuffer) : list (option wstring) := map (GlyphAt 0) (contents SSE2 tb).

Definition sample_ops : list sample_op :=
  [put 0 0x61; put 1 0x62; put 2 0x63; OpIncrement TextAttribute_ctor; put 2 0x64; OpScrollRows 0 2 1; OpCopyRow 2 0; OpScratchpad TextAttribute_ctor].

Example sample_run : first_chars (run_sample sample_ops (sample_buffer 2 3)) = [Some [0x63]; Some [0x62]; Some [0x63]].
Proof. vm_compute. done. Qed.

Lemma buffer_refines_rows_witness :
  let '((tb', d'), o) := run_ops SSE2 at_place sample_ops (sample_buffer 2 3, s_codepointWidthDetector) in
  buffer_ok tb' /\
  (spec_ops SSE2 2 sample_ops (blank_screen SSE2 2 3 TextAttribute_ctor, s_codepointWidthDetector) = ((view SSE2 tb', d'), o) \/ (o = Throw /\ no_memory)).
Proof. apply (buffer_refines_rows SSE2 at_place 2 3 TextAttribute_ctor 0 25 true (Some []) (sample_buffer 2 3) sample_ops s_codepointWidthDetector); [lia|reflexivity]. Defined.

(** The two columns on the right of the last two of three rows. *)
Lemma fill_rect_fills_witness :
  let tb := sample_buffer 3 3 in
  let '((tb', d'), o) := TextBuffer.FillRect SSE2 at_place 9 (mkRect 1 1 3 3) 64 [0x78] TextAttribute_ctor (tb, s_codepointWidthDetector) in
  buffer_ok tb' /\ d' = s_codepointWidthDetector /\
  ((o = Ret tt /\ rows_changed (filled (mkSize 2 2) 1 3 0x78 TextAttribute_ctor) 1 2 (contents SSE2 tb) (contents SSE2 tb')) \/ (o = Throw /\ exhausted)).
Proof.
  cbv zeta. assert (Hctor : TextBuffer.TextBuffer_ctor 3 3 TextAttribute_ctor 0 25 true (Some []) = (sample_buffer 3 3, Ret tt)) by reflexivity.
  destruct (constructed_buffer 3 3 _ _ _ _ _ _ ltac:(lia) Hctor) as (Hok & Hw & Hh & Hr & _). destruct (blank_contents SSE2 3 _ (conj Hok Hw) Hr) as [Hcon Hscr].
  destruct (blank_fillable SSE2 3 TextAttribute_ctor (mkSize 2 2) ltac:(lia) ltac:(vm_compute; discriminate)) as (Hrow & Hcc & Hfill).
  apply (fill_rect_fills SSE2 at_place 9 1 1 3 3 64 0x78 TextAttribute_ctor (mkSize 2 2) (sample_buffer 3 3) s_codepointWidthDetector);
    try (cbn; lia); try done.
  - intros j r Hj _. rewrite Hcon in Hj. apply lookup_replicate in Hj as [-> _]. done.
  - intros r. unfold at_place. cbn. lia.
Defined.

Example fill_sample :
  let tb := fst (fst (TextBuffer.FillRect SSE2 at_place 9 (mkRect 1 1 3 3) 64 [0x78] TextAttribute_ctor (sample_buffer 3 3, s_codepointWidthDetector))) in
  map GetText (contents SSE2 tb) = [Some [0x20; 0x20; 0x20]; Some [0x20; 0x78; 0x78]; Some [0x20; 0x78; 0x78]].
Proof. vm_compute. done. Qed.

(** ** Findings *)

(** Four rows [a], [b], [c], [d] in a buffer that has advanced by one. Clearing the scrollback above the third is to leave [c] and [d]. *)
Definition advanced_buffer : TextBuffer :=
  run_sample [OpIncrement TextAttribute_ctor; put 0 0x61; put 1 0x62; put 2 0x63; put 3 0x64] (sample_buffer 2 4).
Example clear_scrollback_loses_row :
  first_chars advanced_buffer = [Some [0x61]; Some [0x62]; Some [0x63]; Some [0x64]] /\
  first_chars (fst (TextBuffer.ClearScrollback SSE2 at_place 2 2 advanced_buffer)) = [Some [0x63]; Some [0x63]; Some [0x20]; Some [0x20]].
Proof. vm_compute. done. Qed.

(** The last row of a region blinks. *)
Definition blinking : TextAttribute := TextAttribute.SetBlinking true TextAttribute_ctor.
Example blink_in_last_row_missed :
  snd (TextBuffer.ContainsBlinkAttributeInRegion SSE2 0 3 (run_sample [OpRow 3 (on_row (SetAttrToEnd 0 blinking))] (sample_buffer 2 4))) = Ret false /\
  snd (TextBuffer.ContainsBlinkAttributeInRegion SSE2 0 3 (run_sample [OpRow 2 (on_row (SetAttrToEnd 0 blinking)); put 3 0x61] (sample_buffer 2 4))) = Ret true.
Proof. vm_compute. done. Qed.

(** Nothing is committed but the first rows, and the last row is said to be. *)
Example last_row_counts_as_committed :
  let tb := run_sample [put 0 0x61] (sample_buffer 1 1000) in
  (TextBuffer._commitWatermark tb, TextBuffer._isRowCommitted 998 tb, TextBuffer._isRowCommitted 999 tb) = (130, false, true).
Proof. vm_compute. done. Qed.

(** Text in the last row of a buffer that has been reset after it had advanced is not found. *)
Definition reset_buffer : TextBuffer := run_sample [put 299 0x61] (run_sample [OpReset] (set_firstRow 150 (sample_buffer 1 300))).
Example last_text_missed :
  GlyphAt 0 <$> (contents SSE2 reset_buffer !! 299%nat) = Some (Some [0x61]) /\
  snd (TextBuffer.GetLastNonSpaceCharacter SSE2 0 299 reset_buffer) = Ret (mkPoint 0 0).
Proof. vm_compute. done. Qed.

(** A wide character in one column: two columns are reported, although the limit is one. *)
Example fit_exceeds_limit :
  option_map snd (TextBuffer.FitTextIntoColumns 64 [0x3042] 1 s_codepointWidthDetector) = Some 2.
Proof. vm_compute. done. Qed.

(** A combining mark that joins the letter before it leaves a run of length 0 in the attributes. *)
Definition joined_mark : TextBuffer :=
  fst (fst (TextBuffer.Replace SSE2 at_place 0 blinking (mkWriteState 64 [0x301] 1 2 0 0 0) (run_sample [put 0 0x61] (sample_buffer 2 1), s_codepointWidthDetector))).
Example mark_leaves_empty_run :
  map (fun r => (GlyphAt 0 r, map length_ (_runs (_attr r)))) (contents SSE2 joined_mark) = [(Some [0x61; 0x301], [1; 0; 1])].
Proof. vm_compute. done. Qed.

(** The link of the current attributes is forgotten when its first row leaves the buffer. *)
Definition linked : TextAttribute := TextAttribute.SetHyperlinkId 1 TextAttribute_ctor.
Example current_link_pruned :
  let tb := fst (TextBuffer.AddHyperlinkToMap (L "x") 1 (sample_buffer 2 2)) in
  let tb := run_sample [OpSetCurrentAttributes linked; OpRow 0 (on_row (SetAttrToEnd 0 linked)); OpIncrement TextAttribute_ctor] tb in
  (TextAttribute.GetHyperlinkId (_currentAttributes tb), TextBuffer.GetHyperlinkUriFromId 1 tb) = (1, Throw).
Proof. vm_compute. done. Qed.
