(* ===== verification/BufferFrame.v ===== *)
(** * What operations on rows leave alone

    Whatever is done to the rows of a text buffer, and whether or not it ends in an exception, the buffer keeps its size, its cursor
    and its current attributes, and stays well formed. *)
From stdpp Require Import gmap.
From S2P Require Import Prelude LineRenditions Cursor InputEvents TextAttributes Rle Graphemes ImageSlice Row RowImages TextBuffer BufferStore.

Implicit Types (tb : TextBuffer).

Definition kept tb tb' : Prop :=
  buffer_ok tb' /\ _width tb' = _width tb /\ _height tb' = _height tb /\ _cursor tb' = _cursor tb /\ _currentAttributes tb' = _currentAttributes tb.

Lemma kept_refl tb : buffer_ok tb -> kept tb tb.
Proof. done. Qed.
Lemma kept_trans tb1 tb2 tb3 : kept tb1 tb2 -> kept tb2 tb3 -> kept tb1 tb3.
Proof. intros (_ & ? & ? & ? & ?) (? & ? & ? & ? & ?). unfold kept. split; [done|]. split_and!; congruence. Qed.

Definition keeps {A} (m : M TextBuffer A) : Prop := forall tb, buffer_ok tb -> kept tb (fst (m tb)).
Definition keeps_text {D A} (m : M (TextBuffer * D) A) : Prop := forall tb d, buffer_ok tb -> kept tb (fst (fst (m (tb, d)))).

Create HintDb keeps.

Lemma buffer_keeps_bind {A B} (m : M TextBuffer A) (k : A -> M TextBuffer B) : keeps m -> (forall a, keeps (k a)) -> keeps (mbind k m).
Proof.
  intros Hm Hk tb Hok. specialize (Hm tb Hok). cbv [mbind M_bind]. destruct (m tb) as [tb' [a| | |]]; cbn in *; try done.
  apply (kept_trans _ tb'); [done|]. apply Hk, Hm.
Qed.
Lemma keeps_text_bind {D A B} (m : M (TextBuffer * D) A) (k : A -> M (TextBuffer * D) B) : keeps_text m -> (forall a, keeps_text (k a)) -> keeps_text (mbind k m).
Proof.
  intros Hm Hk tb d Hok. specialize (Hm tb d Hok). cbv [mbind M_bind]. destruct (m (tb, d)) as [[tb' d'] [a| | |]]; cbn in *; try done.
  apply (kept_trans _ tb'); [done|]. apply Hk, Hm.
Qed.
Lemma keeps_ret {A} (a : A) : keeps (mret a).
Proof. done. Qed.
Lemma keeps_text_ret {D A} (a : A) : keeps_text (D := D) (mret a).
Proof. done. Qed.
Lemma keeps_throw {A} : keeps (throw (A := A)).
Proof. done. Qed.
Lemma keeps_fuel {A} : keeps (outOfFuel (A := A)).
Proof. done. Qed.
Lemma keeps_text_fuel {D A} : keeps_text (D := D) (outOfFuel (A := A)).
Proof. done. Qed.
Lemma keeps_gets {A} (f : TextBuffer -> A) : keeps (gets f).
Proof. done. Qed.
Lemma keeps_reads {A} (f : TextBuffer -> option A) : keeps (reads f).
Proof. intros tb Hok. unfold reads. by destruct (f tb). Qed.
Lemma keeps_modify f : (forall tb, buffer_ok tb -> kept tb (f tb)) -> keeps (modify f).
Proof. intros Hf tb Hok. by apply Hf. Qed.
#[export] Hint Resolve keeps_ret keeps_text_ret keeps_throw keeps_fuel keeps_text_fuel keeps_gets keeps_reads : keeps.

Lemma keeps_notify i : keeps (modify (TextBuffer.notify i)).
Proof. apply keeps_modify. intros tb Hok. unfold TextBuffer.notify. by destruct (_isActiveBuffer tb). Qed.
Lemma keeps_redraw region : keeps (TextBuffer.TriggerRedraw region).
Proof. apply keeps_notify. Qed.
Lemma keeps_paint : keeps TextBuffer.NotifyPaintFrame.
Proof. apply keeps_notify. Qed.
Lemma keeps_scrolled delta : keeps (TextBuffer.TriggerScroll delta).
Proof. apply keeps_notify. Qed.
Lemma keeps_new_text text : keeps (TextBuffer.TriggerNewTextNotification text).
Proof. apply keeps_notify. Qed.
#[export] Hint Resolve keeps_notify keeps_redraw keeps_paint keeps_scrolled keeps_new_text : keeps.

Lemma keeps_on_phys {A} n (m : M ROW A) : keeps (TextBuffer.on_phys n m).
Proof. intros tb Hok. unfold TextBuffer.on_phys. destruct (_rows tb !! n); [|done]. destruct (m _). split; [by apply stored_ok|done]. Qed.
Lemma keeps_from_row {A} src dst (m : RowSource -> M ROW A) : keeps (TextBuffer.from_row src dst m).
Proof. unfold TextBuffer.from_row. apply buffer_keeps_bind; [apply keeps_reads|]. intros. apply keeps_on_phys. Qed.
Lemma keeps_on_phys_text {D A} n (m : M (ROW * D) A) : keeps_text (TextBuffer.on_phys_text n m).
Proof. intros tb d Hok. unfold TextBuffer.on_phys_text. cbn [fst snd]. destruct (_rows tb !! n); [|done]. destruct (m _) as [[? ?] ?]. split; [by apply stored_ok|done]. Qed.
Lemma keeps_on_buffer {D A} (m : M TextBuffer A) : keeps m -> keeps_text (D := D) (TextBuffer.on_buffer m).
Proof. intros Hm tb d Hok. specialize (Hm tb Hok). unfold TextBuffer.on_buffer. cbn [fst snd]. by destruct (m tb). Qed.
#[export] Hint Resolve keeps_on_phys keeps_from_row keeps_on_phys_text keeps_on_buffer : keeps.

(** Goes through a computation. *)
Ltac keep :=
  repeat first
    [ progress intros
    | solve [eauto with keeps]
    | match goal with
      | |- keeps (if ?b then _ else _) => destruct b
      | |- keeps_text (if ?b then _ else _) => destruct b
      | |- keeps (match ?x with _ => _ end) => destruct x
      | |- keeps_text (match ?x with _ => _ end) => destruct x
      | |- keeps (mbind _ _) => apply buffer_keeps_bind
      | |- keeps_text (mbind _ _) => apply keeps_text_bind
      | |- keeps_text (TextBuffer.on_buffer _) => apply keeps_on_buffer
      end ].

Section frame.
Context `{VirtualMemory} `{Allocator} {D : Type} `{GraphemeDetector D} (isa : Intrinsics) (address : nat -> ROW -> Z).

Lemma keeps_direct offset : keeps (TextBuffer._getRowByOffsetDirect isa offset).
Proof.
  intros tb Hok. destruct (decide (0 <= offset <= _height tb)) as [Hin|Hout].
  - replace offset with (Z.of_nat (Z.to_nat offset)) by lia.
    destruct (direct_spec isa tb (Z.to_nat offset) Hok ltac:(lia)) as [(tb' & -> & Hg & _)|[-> _]]; [|done].
    split; [by apply (grown_ok isa tb)|]. by destruct Hg as (k & -> & _).
  - unfold TextBuffer._getRowByOffsetDirect. rewrite run_gets. replace ((offset <? 0) || (offset >=? _height tb + 1)) with true; [done|].
    destruct (Z.ltb_spec offset 0), (Z.geb_spec offset (_height tb + 1)); cbn; (done || lia).
Qed.
Lemma keeps_getRow y : keeps (TextBuffer._getRow isa y).
Proof. unfold TextBuffer._getRow. apply buffer_keeps_bind; [apply keeps_gets|]. intros. apply keeps_direct. Qed.
Lemma keeps_row y : keeps (TextBuffer.GetRowByOffset isa y).
Proof. apply keeps_getRow. Qed.
Lemma keeps_mutable y : keeps (TextBuffer.GetMutableRowByOffset isa y).
Proof. unfold TextBuffer.GetMutableRowByOffset. apply buffer_keeps_bind; [by apply keeps_modify|]. intros. apply keeps_getRow. Qed.
Hint Resolve keeps_direct keeps_getRow keeps_row keeps_mutable : keeps.

Lemma keeps_scratchpad_with attributes : keeps (TextBuffer.GetScratchpadRow_with isa attributes).
Proof. unfold TextBuffer.GetScratchpadRow_with. keep. Qed.
Lemma keeps_scratchpad : keeps (TextBuffer.GetScratchpadRow isa).
Proof. unfold TextBuffer.GetScratchpadRow. apply buffer_keeps_bind; [apply keeps_gets|]. intros. apply keeps_scratchpad_with. Qed.
Hint Resolve keeps_scratchpad_with keeps_scratchpad : keeps.

(** Writing. *)
Lemma keeps_replace row attributes state : keeps_text (D := D) (TextBuffer.Replace isa address row attributes state).
Proof. unfold TextBuffer.Replace. keep. Qed.
Lemma keeps_narrow v : keeps (TextBuffer.narrow16 v).
Proof. unfold TextBuffer.narrow16. keep. Qed.
Hint Resolve keeps_narrow : keeps.
Lemma keeps_restoreCells r scratch a b c : keeps (TextBuffer.restoreCells r scratch a b c).
Proof. unfold TextBuffer.restoreCells. keep. Qed.
Hint Resolve keeps_restoreCells : keeps.
Lemma keeps_insert row attributes state : keeps_text (D := D) (TextBuffer.Insert isa address row attributes state).
Proof. unfold TextBuffer.Insert. keep. Qed.
Lemma keeps_fillLoop fuel scratchpad data fill right : forall columnEnd, keeps_text (D := D) (TextBuffer.fillLoop isa address fuel scratchpad data fill right columnEnd).
Proof. induction fuel as [|fuel IH]; intros columnEnd; cbn [TextBuffer.fillLoop]; keep. Qed.
Lemma keeps_fillRows count scratchpad left right attributes : forall y, keeps (TextBuffer.fillRows isa address count y scratchpad left right attributes).
Proof. induction count as [|count IH]; intros y; cbn [TextBuffer.fillRows]; keep. Qed.
Hint Resolve keeps_replace keeps_insert keeps_fillLoop keeps_fillRows : keeps.
Lemma keeps_fillRect fuel area data fill attributes : keeps_text (D := D) (TextBuffer.FillRect isa address fuel area data fill attributes).
Proof. unfold TextBuffer.FillRect. keep. Qed.

(** Moving rows and scrolling. *)
Lemma keeps_copyRow src dst : keeps (TextBuffer.CopyRow isa address src dst).
Proof. unfold TextBuffer.CopyRow. keep. Qed.
Hint Resolve keeps_copyRow : keeps.
Lemma keeps_scrollLoop count : forall y step delta, keeps (TextBuffer.scrollLoop isa address count y step delta).
Proof. induction count as [|count IH]; intros y step delta; cbn [TextBuffer.scrollLoop]; keep. Qed.
Hint Resolve keeps_scrollLoop : keeps.
Lemma keeps_scrollRows firstRow size delta : keeps (TextBuffer.ScrollRows isa address firstRow size delta).
Proof. unfold TextBuffer.ScrollRows. keep. Qed.

Lemma keeps_removeLink id : keeps (TextBuffer.RemoveHyperlinkFromMap id).
Proof. by apply keeps_modify. Qed.
Hint Resolve keeps_removeLink : keeps.
Lemma keeps_removeLinks ids : keeps (TextBuffer.removeLinks ids).
Proof. unfold TextBuffer.removeLinks. induction ids as [|id ids IH]; cbn [foldr]; keep. Qed.
Lemma keeps_linksAt y : keeps (TextBuffer.links_at isa y).
Proof. unfold TextBuffer.links_at. keep. Qed.
Hint Resolve keeps_removeLinks keeps_linksAt : keeps.
Lemma keeps_pruneLoop count : forall i refs, keeps (TextBuffer.pruneLoop isa count i refs).
Proof. induction count as [|count IH]; intros i refs; cbn [TextBuffer.pruneLoop]; keep. Qed.
Hint Resolve keeps_pruneLoop : keeps.
Lemma keeps_prune : keeps (TextBuffer._PruneHyperlinks isa).
Proof. unfold TextBuffer._PruneHyperlinks. keep. Qed.
Hint Resolve keeps_prune : keeps.
Lemma keeps_increment attributes : keeps (TextBuffer.IncrementCircularBuffer isa attributes).
Proof.
  unfold TextBuffer.IncrementCircularBuffer. keep. apply keeps_modify. intros tb (? & ? & ? & ?). split; [|done]. split; [done|]. split; [done|]. split; [|done].
  cbn. rewrite Z.geb_leb. destruct (Z.leb_spec (_height tb) (_firstRow tb + 1)); lia.
Qed.

(** Lines. *)
Lemma keeps_rendition y : keeps (TextBuffer.GetLineRendition isa y).
Proof. unfold TextBuffer.GetLineRendition. keep. Qed.
Hint Resolve keeps_rendition : keeps.
Lemma keeps_lineWidth y : keeps (TextBuffer.GetLineWidth isa y).
Proof. unfold TextBuffer.GetLineWidth, TextBuffer.IsDoubleWidthLine. keep. Qed.
Hint Resolve keeps_lineWidth : keeps.
Lemma keeps_clamp position : keeps (TextBuffer.ClampPositionWithinLine isa position).
Proof. unfold TextBuffer.ClampPositionWithinLine. keep. Qed.
Lemma keeps_resetRenditions count : forall y, keeps (TextBuffer.resetRenditions isa count y).
Proof. induction count as [|count IH]; intros y; cbn [TextBuffer.resetRenditions]; keep. Qed.
Lemma keeps_askRow {A} y (f : ROW -> option A) : keeps (TextBuffer.ask_row isa y f).
Proof. unfold TextBuffer.ask_row. keep. Qed.
Hint Resolve keeps_askRow keeps_resetRenditions : keeps.
Lemma keeps_resetRange first last : keeps (TextBuffer.ResetLineRenditionRange isa first last).
Proof. unfold TextBuffer.ResetLineRenditionRange. keep. Qed.
Lemma keeps_lastTextLoop fuel top : forall x y, keeps (TextBuffer.lastTextLoop isa fuel top x y).
Proof. induction fuel as [|fuel IH]; intros x y; cbn [TextBuffer.lastTextLoop]; keep. Qed.
Hint Resolve keeps_lastTextLoop : keeps.
Lemma keeps_lastText top bottom : keeps (TextBuffer.GetLastNonSpaceCharacter isa top bottom).
Proof. unfold TextBuffer.GetLastNonSpaceCharacter. keep. Qed.

(** Cells and images. *)
Lemma keeps_copyCells a b c e f : keeps (TextBuffer.copy_cells_row isa a b c e f).
Proof. unfold TextBuffer.copy_cells_row. keep. Qed.
Hint Resolve keeps_copyCells : keeps.
Lemma keeps_copyBlockLoop count : forall y step src dst, keeps (TextBuffer.copyBlockLoop isa count y step src dst).
Proof. induction count as [|count IH]; intros; cbn [TextBuffer.copyBlockLoop]; keep. Qed.
Hint Resolve keeps_copyBlockLoop : keeps.
Lemma keeps_copyBlock src dst : keeps (TextBuffer.CopyBlock isa src dst).
Proof. unfold TextBuffer.CopyBlock. keep. Qed.
Lemma keeps_cellData at_ : keeps (GetCellDataAt isa at_).
Proof. unfold GetCellDataAt. keep. Qed.
Lemma keeps_writeCell current target : keeps (WriteCell isa current target).
Proof. unfold WriteCell, TextBuffer.WriteLine. keep. Qed.

(** The scrollback. *)
Lemma keeps_clearMarksLoop count : forall y, keeps (TextBuffer.clearMarksLoop isa count y).
Proof. induction count as [|count IH]; intros; cbn [TextBuffer.clearMarksLoop]; keep. Qed.
Lemma keeps_resetRows count : forall y, keeps (TextBuffer.resetRows isa count y).
Proof. induction count as [|count IH]; intros; cbn [TextBuffer.resetRows]; keep. Qed.
Hint Resolve keeps_clearMarksLoop keeps_resetRows keeps_scrollRows : keeps.
Lemma keeps_firstRow : keeps (modify (set_firstRow 0)).
Proof. apply keeps_modify. intros tb (? & ? & ? & ?). split; [|done]. split; [done|]. split; [done|]. split; [cbn; lia|done]. Qed.
Lemma keeps_decommit : keeps TextBuffer._decommit.
Proof. apply keeps_modify. intros tb (? & ? & ? & ?). split; [|done]. split; [done|]. split; [done|]. split; [done|cbn; lia]. Qed.
Hint Resolve keeps_firstRow keeps_decommit : keeps.
Lemma keeps_clearScrollback first count : keeps (TextBuffer.ClearScrollback isa address first count).
Proof. unfold TextBuffer.ClearScrollback, TextBuffer.ClearMarksInRange. keep. Qed.

(** Rows from one buffer to another. *)
Lemma keeps_copyRowsLoop count : forall src dst tb1 tb2, buffer_ok tb1 -> buffer_ok tb2 ->
  let s := fst (TextBuffer.copyRowsLoop isa address count src dst (tb1, tb2)) in kept tb1 (fst s) /\ kept tb2 (snd s).
Proof.
  assert (Hone : forall src dst tb1 tb2, buffer_ok tb1 -> buffer_ok tb2 ->
    let s := fst (TextBuffer.CopyRow_to isa address src dst (tb1, tb2)) in kept tb1 (fst s) /\ kept tb2 (snd s)).
  { intros src dst tb1 tb2 Hb1 Hb2. unfold TextBuffer.CopyRow_to, TextBuffer.on_first, TextBuffer.on_second. cbv [mbind M_bind]. cbn [fst snd].
    pose proof (keeps_mutable dst tb2 Hb2) as Hd. destruct (TextBuffer.GetMutableRowByOffset isa dst tb2) as [tb2' [n| | |]]; cbn [fst snd] in *; try done.
    pose proof (keeps_row src tb1 Hb1) as Hs. destruct (TextBuffer.GetRowByOffset isa src tb1) as [tb1' [k| | |]]; cbn [fst snd] in *; try done.
    unfold reads. destruct (_rows tb1' !! k) as [source|]; cbn [fst snd]; [|done].
    pose proof (keeps_on_phys n (CopyFrom isa (address k) (Other source) ;; modify (RowImages.CopyRow source)) tb2' (proj1 Hd)) as Hk. cbv [mbind M_bind] in Hk.
    destruct (TextBuffer.on_phys n _ tb2') as [tb2'' o]. cbn [fst snd] in *. split; [done|]. by apply (kept_trans _ tb2'). }
  induction count as [|count IH]; intros src dst tb1 tb2 Hb1 Hb2; [done|]. cbn [TextBuffer.copyRowsLoop]. cbv [mbind M_bind]. specialize (Hone src dst tb1 tb2 Hb1 Hb2).
  destruct (TextBuffer.CopyRow_to isa address src dst (tb1, tb2)) as [[tb1' tb2'] [[]| | |]]; cbn [fst snd] in *; try done. destruct Hone as [Hk1 Hk2].
  specialize (IH (src + 1) (dst + 1) tb1' tb2' (proj1 Hk1) (proj1 Hk2)). destruct (TextBuffer.copyRowsLoop isa address count (src + 1) (dst + 1) (tb1', tb2')) as [[? ?] ?]. cbn [fst snd] in *.
  destruct IH. split; [by apply (kept_trans _ tb1')|by apply (kept_trans _ tb2')].
Qed.
End frame.

#[export] Hint Resolve keeps_direct keeps_getRow keeps_row keeps_mutable keeps_scratchpad_with keeps_scratchpad keeps_replace keeps_insert keeps_fillRect keeps_scrollRows
  keeps_increment keeps_rendition keeps_lineWidth keeps_clamp keeps_resetRange keeps_askRow keeps_lastText keeps_copyBlock keeps_cellData keeps_writeCell keeps_clearScrollback : keeps.
