(* ===== verification/Pages.v ===== *)
(** * Pages

    The pages of the terminal ([src/terminal/adapter/PageManager.cpp]), and what its owner provides
    for them: the part of [Terminal] ([src/cascadia/TerminalCore/TerminalApi.cpp], [Terminal.cpp])
    that keeps the buffers and the viewport. The visible page is in the buffer of the
    terminal, the others in buffers of their own. *)
From S2P Require Import Prelude LineRenditions Cursor InputEvents TextAttributes Graphemes ImageSlice Row RowImages StateMachine TextBuffer.

(** ** The terminal

    What it tells its own owner is recorded. Selection, scrollbars and patterns are not modelled. *)
Inductive TerminalCall := Response (response : wstring) | ScrollEvent | BufferRotation (delta : Z) | RedrawAll.

Record Terminal := mkTerminal {
  _mainBuffer : TextBuffer;
  _altBuffer : option TextBuffer;
  _altBufferSize : til_size;
  _mutableViewport : rect;
  _systemMode : enumset.t;
  _told : list TerminalCall
}.
Definition set_mainBuffer v tm := mkTerminal v (_altBuffer tm) (_altBufferSize tm) (_mutableViewport tm) (_systemMode tm) (_told tm).
Definition set_altBuffer v tm := mkTerminal (_mainBuffer tm) v (_altBufferSize tm) (_mutableViewport tm) (_systemMode tm) (_told tm).
Definition set_mutableViewport v tm := mkTerminal (_mainBuffer tm) (_altBuffer tm) (_altBufferSize tm) v (_systemMode tm) (_told tm).
Definition set_systemMode v tm := mkTerminal (_mainBuffer tm) (_altBuffer tm) (_altBufferSize tm) (_mutableViewport tm) v (_told tm).
Definition tell call tm := mkTerminal (_mainBuffer tm) (_altBuffer tm) (_altBufferSize tm) (_mutableViewport tm) (_systemMode tm) (_told tm ++ [call]).

(** [ITerminalApi::Mode]. *)
Module SystemMode.
Definition AutoWrap : Z := 0.
Definition LineFeed : Z := 1.
Definition BracketedPaste : Z := 2.
End SystemMode.

(** The UTF-8 code page of Windows. *)
Definition CP_UTF8 : Z := 65001.

Module Terminal.
Implicit Types (tm : Terminal).

Definition _inAltBuffer tm : bool := match _altBuffer tm with Some _ => true | None => false end.
Definition _activeBuffer tm : TextBuffer := default (_mainBuffer tm) (_altBuffer tm).
Definition set_activeBuffer tb tm : Terminal := match _altBuffer tm with Some _ => set_altBuffer (Some tb) tm | None => set_mainBuffer tb tm end.
Definition _GetMutableViewport tm : rect :=
  if _inAltBuffer tm then mkRect 0 0 (size_width (_altBufferSize tm)) (size_height (_altBufferSize tm)) else _mutableViewport tm.

Definition ReturnResponse (response : wstring) tm : Terminal := match response with [] => tm | _ => tell (Response response) tm end.
Definition SetViewportPosition (position : point) tm : Terminal :=
  if _inAltBuffer tm then tm
  else
    let view := _GetMutableViewport tm in
    let width := rc_right view - rc_left view in
    let height := rc_bottom view - rc_top view in
    let x := clamp (pt_x position) 0 (_width (_mainBuffer tm) - width) in
    let y := clamp (pt_y position) 0 (_height (_mainBuffer tm) - height) in
    tell ScrollEvent (set_mutableViewport (mkRect x y (x + width) (y + height)) tm).
Definition SetSystemMode (mode : Z) (enabled : bool) tm : Terminal := set_systemMode (enumset.set (_systemMode tm) mode enabled) tm.
(** The code page is always UTF-8. *)
Definition GetOutputCodePage (tm : Terminal) : Z := CP_UTF8.
Definition GetSystemMode (mode : Z) tm : bool := enumset.test (_systemMode tm) mode.
Definition NotifyBufferRotation (delta : Z) tm : Terminal := tell (BufferRotation delta) tm.
End Terminal.

(** ** Pages *)
Definition MAX_PAGES : Z := 6.

Record PageManager := mkPageManager { _api : Terminal; _activePageNumber : Z; _visiblePageNumber : Z; _buffers : list (option TextBuffer) }.
Implicit Types (pm : PageManager).
Definition set_api v pm := mkPageManager v (_activePageNumber pm) (_visiblePageNumber pm) (_buffers pm).
Definition set_activePageNumber v pm := mkPageManager (_api pm) v (_visiblePageNumber pm) (_buffers pm).
Definition set_visiblePageNumber v pm := mkPageManager (_api pm) (_activePageNumber pm) v (_buffers pm).
Definition set_buffers v pm := mkPageManager (_api pm) (_activePageNumber pm) (_visiblePageNumber pm) v.

(** A reference to a text buffer: that of the terminal, or that of a page. *)
Inductive BufferRef := Shown | Hidden (page : nat).
#[export] Instance BufferRef_eq_dec : EqDecision BufferRef.
Proof. solve_decision. Defined.

Record Page := mkPage { _buffer : BufferRef; _viewport : rect; _number : Z }.

Module PageManager.
Definition PageManager_ctor (api : Terminal) : PageManager := mkPageManager api 1 1 (replicate (Z.to_nat MAX_PAGES) None).

Definition buffer_at (ref : BufferRef) pm : option TextBuffer :=
  match ref with Shown => Some (Terminal._activeBuffer (_api pm)) | Hidden n => mjoin (_buffers pm !! n) end.
Definition put_buffer (ref : BufferRef) (tb : TextBuffer) pm : PageManager :=
  match ref with Shown => set_api (Terminal.set_activeBuffer tb (_api pm)) pm | Hidden n => set_buffers (<[n := Some tb]> (_buffers pm)) pm end.
(** A member function of a text buffer. *)
Definition on_ref {A} (ref : BufferRef) (m : M TextBuffer A) : M PageManager A := fun pm =>
  match buffer_at ref pm with
  | Some tb => let '(tb', o) := m tb in (put_buffer ref tb' pm, o)
  | None => (pm, UB)
  end.
(** A function of two buffers that are not the same. *)
Definition on_two {A} (first second : BufferRef) (m : M (TextBuffer * TextBuffer) A) : M PageManager A := fun pm =>
  match buffer_at first pm, buffer_at second pm with
  | Some tb1, Some tb2 => let '((tb1', tb2'), o) := m (tb1, tb2) in (put_buffer second tb2' (put_buffer first tb1' pm), o)
  | _, _ => (pm, UB)
  end.

Definition Reset pm : PageManager := mkPageManager (_api pm) 1 1 (replicate (Z.to_nat MAX_PAGES) None).

Section pages.
Context `{VirtualMemory} `{Allocator} (isa : Intrinsics) (address : nat -> ROW -> Z).
(** The counter from which new buffers take their first mutation. *)
Context (mutationId : Z).

Definition rect_width (r : rect) : Z := rc_right r - rc_left r.
Definition rect_height (r : rect) : Z := rc_bottom r - rc_top r.

Definition _getBuffer (pageNumber width height : Z) : M PageManager BufferRef :=
  let n := Z.to_nat (pageNumber - 1) in
  buffer ← gets (buffer_at (Hidden n));
  match buffer with
  | None => fun pm =>
      match TextBuffer.TextBuffer_ctor width height TextAttribute_ctor mutationId 0 false (_renderer (Terminal._activeBuffer (_api pm))) with
      | (tb, Ret _) => (put_buffer (Hidden n) tb pm, Ret (Hidden n))
      | (_, _) => (pm, Throw)
      end
  | Some tb =>
      (if (_width tb =? width) && (_height tb =? height) then mret tt
       else on_ref (Hidden n) (TextBuffer.ResizeTraditional isa address width height mutationId)) ;;
      mret (Hidden n)
  end.

Definition Get (pageNumber : Z) : M PageManager Page :=
  let requestedPageNumber := Z.min (Z.max pageNumber 1) MAX_PAGES in
  api ← gets _api;
  visible ← gets _visiblePageNumber;
  let visibleViewport := Terminal._GetMutableViewport api in
  if Terminal._inAltBuffer api then mret (mkPage Shown visibleViewport 1)
  else if requestedPageNumber =? visible then mret (mkPage Shown visibleViewport visible)
  else
    let width := rect_width visibleViewport in
    let height := rect_height visibleViewport in
    buffer ← _getBuffer requestedPageNumber width height;
    mret (mkPage buffer (mkRect 0 0 width height) requestedPageNumber).

Definition ActivePage : M PageManager Page := number ← gets _activePageNumber; Get number.
Definition VisiblePage : M PageManager Page := number ← gets _visiblePageNumber; Get number.

(** The rows of the page are swapped out, then those of the new page swapped in. *)
Definition swapPages (newBuffer saveBuffer : BufferRef) (visibleTop height : Z) : M PageManager unit :=
  on_two Shown saveBuffer (TextBuffer.copyRowsLoop isa address (Z.to_nat height) visibleTop 0) ;;
  on_two newBuffer Shown (TextBuffer.copyRowsLoop isa address (Z.to_nat height) 0 visibleTop).

(** The attributes and the cursor of one buffer for another. *)
Definition copyState (oldBuffer newBuffer : BufferRef) (oldTop newTop : Z) : M PageManager unit :=
  old ← reads (buffer_at oldBuffer);
  let position := Cursor.GetPosition (_cursor old) in
  let position := mkPoint (pt_x position) (pt_y position - oldTop + newTop) in
  on_ref newBuffer (TextBuffer.SetCurrentAttributes (TextBuffer.GetCurrentAttributes old)) ;;
  on_ref newBuffer (TextBuffer.CopyProperties old) ;;
  on_ref newBuffer (TextBuffer.on_cursor (Cursor.SetPosition position)).

Definition MoveTo (pageNumber : Z) (makeVisible : bool) : M PageManager unit :=
  api ← gets _api;
  if Terminal._inAltBuffer api then mret tt
  else
    let visibleViewport := Terminal._GetMutableViewport api in
    let width := rect_width visibleViewport in
    let height := rect_height visibleViewport in
    let visibleTop := rc_top visibleViewport in
    active ← gets _activePageNumber;
    visible ← gets _visiblePageNumber;
    let wasVisible := active =? visible in
    let newPageNumber := Z.min (Z.max pageNumber 1) MAX_PAGES in
    redrawRequired ← (if makeVisible && negb (visible =? newPageNumber) then
                        newBuffer ← _getBuffer newPageNumber width height;
                        saveBuffer ← _getBuffer visible width height;
                        swapPages newBuffer saveBuffer visibleTop height ;;
                        modify (set_visiblePageNumber newPageNumber) ;;
                        mret true
                      else mret false);
    visible ← gets _visiblePageNumber;
    let isVisible := newPageNumber =? visible in
    (if negb wasVisible || negb isVisible then
       oldBuffer ← (if wasVisible then mret Shown else _getBuffer active width height);
       newBuffer ← (if isVisible then mret Shown else _getBuffer newPageNumber width height);
       (if decide (oldBuffer = newBuffer) then mret tt
        else copyState oldBuffer newBuffer (if wasVisible then visibleTop else 0) (if isVisible then visibleTop else 0)) ;;
       (if wasVisible && negb isVisible then on_ref Shown (TextBuffer.on_cursor (Cursor.SetIsVisible false)) else mret tt)
     else mret tt) ;;
    modify (set_activePageNumber newPageNumber) ;;
    (if redrawRequired : bool then modify (fun pm => set_api (tell RedrawAll (_api pm)) pm) else mret tt).

Definition MoveRelative (pageCount : Z) (makeVisible : bool) : M PageManager unit :=
  active ← gets _activePageNumber;
  MoveTo (active + pageCount) makeVisible.
Definition MakeActivePageVisible : M PageManager unit :=
  active ← gets _activePageNumber;
  visible ← gets _visiblePageNumber;
  if negb (active =? visible) then MoveTo active true else mret tt.
End pages.
End PageManager.
