(* ===== verification/AdaptDispatch.v ===== *)
(** * The dispatcher: cursor, margins, tabs and pages

    [AdaptDispatch] ([src/terminal/adapter/adaptDispatch.cpp], [adaptDispatch.hpp]), the part that moves the
    cursor. The state of the grapheme detector goes along, for the functions that write.
    Coordinates stay far within 32 bits: parameters are at most 65535 and buffers smaller. *)
From stdpp Require Import gmap.
From S2P Require Import Prelude DispatchTypes StateMachine LineRenditions Cursor InputEvents TextAttributes Graphemes ImageSlice Row RowImages CharSets TerminalOutput TerminalInput TextBuffer Pages.
From S2P Require Import ITermDispatch.

(** [AdaptDispatch::Mode]. *)
Module AdaptMode.
Definition InsertReplace : Z := 0.
Definition Origin : Z := 1.
Definition Column : Z := 2.
Definition AllowDECCOLM : Z := 3.
Definition AllowDECSLRM : Z := 4.
Definition SixelDisplay : Z := 5.
Definition EraseColor : Z := 6.
Definition RectangularChangeExtent : Z := 7.
Definition PageCursorCoupling : Z := 8.
End AdaptMode.

Record CursorState := mkCursorState {
  saved_Row : Z; saved_Column : Z; saved_Page : Z; IsDelayedEOLWrap : bool; IsOriginModeRelative : bool;
  saved_Attributes : TextAttribute; saved_TermOutput : TerminalOutput
}.
Definition CursorState_ctor : CursorState := mkCursorState 1 1 1 false false TextAttribute_ctor (TerminalOutput.TerminalOutput_ctor false).

Record AdaptDispatch := mkAdapt {
  _tabStopColumns : list bool;
  _initDefaultTabStops : bool;
  _terminalInput : TerminalInput;
  _termOutput : TerminalOutput;
  _pages : PageManager;
  _savedCursorState : list CursorState;
  _usingAltBuffer : bool;
  _scrollMargins : rect;
  _modes : enumset.t
}.
Implicit Types (ad : AdaptDispatch).
Definition set_tabStops columns init ad := mkAdapt columns init (_terminalInput ad) (_termOutput ad) (_pages ad) (_savedCursorState ad) (_usingAltBuffer ad) (_scrollMargins ad) (_modes ad).
Definition set_termOutput v ad := mkAdapt (_tabStopColumns ad) (_initDefaultTabStops ad) (_terminalInput ad) v (_pages ad) (_savedCursorState ad) (_usingAltBuffer ad) (_scrollMargins ad) (_modes ad).
Definition set_pages v ad := mkAdapt (_tabStopColumns ad) (_initDefaultTabStops ad) (_terminalInput ad) (_termOutput ad) v (_savedCursorState ad) (_usingAltBuffer ad) (_scrollMargins ad) (_modes ad).
Definition set_savedCursorState v ad := mkAdapt (_tabStopColumns ad) (_initDefaultTabStops ad) (_terminalInput ad) (_termOutput ad) (_pages ad) v (_usingAltBuffer ad) (_scrollMargins ad) (_modes ad).
Definition set_scrollMargins v ad := mkAdapt (_tabStopColumns ad) (_initDefaultTabStops ad) (_terminalInput ad) (_termOutput ad) (_pages ad) (_savedCursorState ad) (_usingAltBuffer ad) v (_modes ad).
Definition set_modes v ad := mkAdapt (_tabStopColumns ad) (_initDefaultTabStops ad) (_terminalInput ad) (_termOutput ad) (_pages ad) (_savedCursorState ad) (_usingAltBuffer ad) (_scrollMargins ad) v.

(** [struct Offset]. *)
Record Offset := mkOffset { Value : Z; IsAbsolute : bool }.
Module Offset.
Definition Absolute (value : Z) : Offset := mkOffset (value - 1) true.
Definition Forward (value : Z) : Offset := mkOffset value false.
Definition Backward (value : Z) : Offset := mkOffset (- value) false.
Definition Unchanged : Offset := Forward 0.
End Offset.

Module AdaptDispatch.
Definition AdaptDispatch_ctor (api : Terminal) (terminalInput : TerminalInput) : AdaptDispatch :=
  mkAdapt [] true terminalInput (TerminalOutput.TerminalOutput_ctor false) (PageManager.PageManager_ctor api) [CursorState_ctor; CursorState_ctor] false
    (mkRect 0 0 0 0) (enumset.of_pos AdaptMode.PageCursorCoupling).

Section adapter.
Context `{VirtualMemory} `{Allocator} {D : Type} `{GraphemeDetector D} (isa : Intrinsics) (address : nat -> ROW -> Z) (mutationId : Z).

Abbreviation Adapt := (M (AdaptDispatch * D)).

(** Calls of the parts. *)
Definition asks {A} (f : AdaptDispatch -> A) : Adapt A := gets (fun s => f (fst s)).
Definition alter (f : AdaptDispatch -> AdaptDispatch) : Adapt unit := modify (fun s => (f (fst s), snd s)).
Definition on_pages {A} (m : M PageManager A) : Adapt A := fun s =>
  let '(pm, o) := m (_pages (fst s)) in ((set_pages pm (fst s), snd s), o).
Definition on_api (f : Terminal -> Terminal) : Adapt unit := on_pages (modify (fun pm => set_api (f (_api pm)) pm)).
Definition on_page {A} (page : Page) (m : M TextBuffer A) : Adapt A := on_pages (PageManager.on_ref (_buffer page) m).
Definition on_page_text {A} (page : Page) (m : M (TextBuffer * D) A) : Adapt A := fun s =>
  let ad := fst s in
  match PageManager.buffer_at (_buffer page) (_pages ad) with
  | Some tb => let '((tb', d), o) := m (tb, snd s) in ((set_pages (PageManager.put_buffer (_buffer page) tb' (_pages ad)) ad, d), o)
  | None => (s, UB)
  end.
Definition on_termOutput {A} (m : M TerminalOutput A) : Adapt A := fun s =>
  let '(t, o) := m (_termOutput (fst s)) in ((set_termOutput t (fst s), snd s), o).
Definition ActivePage : Adapt Page := on_pages (PageManager.ActivePage isa address mutationId).
Definition VisiblePage : Adapt Page := on_pages (PageManager.VisiblePage isa address mutationId).
Definition test_mode (mode : Z) : Adapt bool := asks (fun ad => enumset.test (_modes ad) mode).
Definition set_mode (mode : Z) (enable : bool) : Adapt unit := alter (fun ad => set_modes (enumset.set (_modes ad) mode enable) ad).
Definition GetSystemMode (mode : Z) : Adapt bool := asks (fun ad => Terminal.GetSystemMode mode (_api (_pages ad))).

(** [Page]: its extent, and calls of its buffer and cursor. *)
Definition Top (page : Page) : Z := rc_top (_viewport page).
Definition Bottom (page : Page) : Z := rc_bottom (_viewport page).
Definition Height (page : Page) : Z := Bottom page - Top page.
Definition XPanOffset (page : Page) : Z := rc_left (_viewport page).
Definition Width (page : Page) : Adapt Z := on_page page (gets _width).
Definition BufferHeight (page : Page) : Adapt Z := on_page page (gets _height).
Definition Attributes (page : Page) : Adapt TextAttribute := on_page page (gets TextBuffer.GetCurrentAttributes).
Definition SetAttributes (page : Page) (attr : TextAttribute) : Adapt unit := on_page page (TextBuffer.SetCurrentAttributes attr).
Definition GetCursor (page : Page) : Adapt Cursor := on_page page (gets _cursor).
Definition on_cursor (page : Page) (f : Cursor -> Cursor * bool) : Adapt unit := on_page page (TextBuffer.on_cursor f).
(** A function of the cursor that is not to be redrawn. *)
Definition quietly (f : Cursor -> Cursor) (c : Cursor) : Cursor * bool := (f c, false).
Definition position_of (page : Page) : Adapt point := c ← GetCursor page; mret (Cursor.GetPosition c).
Definition GetLineWidth (page : Page) (row : Z) : Adapt Z := on_page page (TextBuffer.GetLineWidth isa row).
Definition ClampPositionWithinLine (page : Page) (position : point) : Adapt point := on_page page (TextBuffer.ClampPositionWithinLine isa position).

(** ** Margins *)
Definition _GetVerticalMargins (page : Page) (absolute : bool) : Adapt (Z * Z) :=
  let bottommostRow := Height page - 1 in
  margins ← asks _scrollMargins;
  (if rc_top margins >=? bottommostRow then alter (set_scrollMargins (mkRect (rc_left margins) 0 (rc_right margins) 0)) else mret tt) ;;
  margins ← asks _scrollMargins;
  let marginsSet := rc_top margins <? rc_bottom margins in
  let topMargin := if marginsSet then rc_top margins else 0 in
  let bottomMargin := if marginsSet then rc_bottom margins else bottommostRow in
  let bottomMargin := Z.min bottomMargin bottommostRow in
  mret (if absolute then (topMargin + Top page, bottomMargin + Top page) else (topMargin, bottomMargin)).

Definition _GetHorizontalMargins (pageWidth : Z) : Adapt (Z * Z) :=
  let rightmostColumn := pageWidth - 1 in
  margins ← asks _scrollMargins;
  (if rc_left margins >=? rightmostColumn then alter (set_scrollMargins (mkRect 0 (rc_top margins) 0 (rc_bottom margins))) else mret tt) ;;
  margins ← asks _scrollMargins;
  let marginsSet := rc_left margins <? rc_right margins in
  let leftMargin := if marginsSet then rc_left margins else 0 in
  let rightMargin := if marginsSet then rc_right margins else rightmostColumn in
  mret (leftMargin, Z.min rightMargin rightmostColumn).

(** ** Moving the cursor *)

(** The row and column that are moved to, before they are clamped within the line. *)
Definition moved_to (rowOffset colOffset : Offset) (clampInMargins origin : bool) (cursorPosition : point) (top bottom pageWidth : Z) (vertical horizontal : Z * Z) : point :=
  let '(topMargin, bottomMargin) := vertical in
  let '(leftMargin, rightMargin) := horizontal in
  let row := if IsAbsolute rowOffset then if origin then topMargin else top else pt_y cursorPosition in
  let col := if IsAbsolute colOffset then if origin then leftMargin else 0 else pt_x cursorPosition in
  let row := clamp (row + Value rowOffset) top (bottom - 1) in
  let col := clamp (col + Value colOffset) 0 (pageWidth - 1) in
  if clampInMargins || origin then
    let row :=
      if (pt_x cursorPosition >=? leftMargin) && (pt_x cursorPosition <=? rightMargin) then
        let row := if pt_y cursorPosition >=? topMargin then Z.max row topMargin else row in
        if pt_y cursorPosition <=? bottomMargin then Z.min row bottomMargin else row
      else row in
    let col :=
      if (row >=? topMargin) && (row <=? bottomMargin) then
        let col := if pt_x cursorPosition >=? leftMargin then Z.max col leftMargin else col in
        if pt_x cursorPosition <=? rightMargin then Z.min col rightMargin else col
      else col in
    mkPoint col row
  else mkPoint col row.

Definition _CursorMovePosition (rowOffset colOffset : Offset) (clampInMargins : bool) : Adapt unit :=
  page ← ActivePage;
  pageWidth ← Width page;
  cursorPosition ← position_of page;
  vertical ← _GetVerticalMargins page true;
  horizontal ← _GetHorizontalMargins pageWidth;
  origin ← test_mode AdaptMode.Origin;
  position ← ClampPositionWithinLine page
    (moved_to rowOffset colOffset clampInMargins origin cursorPosition (Top page) (Bottom page) pageWidth vertical horizontal);
  on_cursor page (Cursor.SetPosition position).

Definition CursorUp (distance : Z) : Adapt unit := _CursorMovePosition (Offset.Backward distance) Offset.Unchanged true.
Definition CursorDown (distance : Z) : Adapt unit := _CursorMovePosition (Offset.Forward distance) Offset.Unchanged true.
Definition CursorForward (distance : Z) : Adapt unit := _CursorMovePosition Offset.Unchanged (Offset.Forward distance) true.
Definition CursorBackward (distance : Z) : Adapt unit := _CursorMovePosition Offset.Unchanged (Offset.Backward distance) true.
Definition CursorNextLine (distance : Z) : Adapt unit := _CursorMovePosition (Offset.Forward distance) (Offset.Absolute 1) true.
Definition CursorPrevLine (distance : Z) : Adapt unit := _CursorMovePosition (Offset.Backward distance) (Offset.Absolute 1) true.
Definition CursorHorizontalPositionAbsolute (column : Z) : Adapt unit := _CursorMovePosition Offset.Unchanged (Offset.Absolute column) false.
Definition VerticalLinePositionAbsolute (line : Z) : Adapt unit := _CursorMovePosition (Offset.Absolute line) Offset.Unchanged false.
Definition HorizontalPositionRelative (distance : Z) : Adapt unit := _CursorMovePosition Offset.Unchanged (Offset.Forward distance) false.
Definition VerticalPositionRelative (distance : Z) : Adapt unit := _CursorMovePosition (Offset.Forward distance) Offset.Unchanged false.
Definition CursorPosition (line column : Z) : Adapt unit := _CursorMovePosition (Offset.Absolute line) (Offset.Absolute column) false.
Definition CarriageReturn : Adapt unit := _CursorMovePosition Offset.Unchanged (Offset.Absolute 1) true.

(** ** Pages *)
Definition PagePositionAbsolute (page : Z) : Adapt unit := coupled ← test_mode AdaptMode.PageCursorCoupling; on_pages (PageManager.MoveTo isa address mutationId page coupled).
Definition PagePositionRelative (pageCount : Z) : Adapt unit := coupled ← test_mode AdaptMode.PageCursorCoupling; on_pages (PageManager.MoveRelative isa address mutationId pageCount coupled).
Definition PagePositionBack (pageCount : Z) : Adapt unit := coupled ← test_mode AdaptMode.PageCursorCoupling; on_pages (PageManager.MoveRelative isa address mutationId (- pageCount) coupled).
Definition NextPage (pageCount : Z) : Adapt unit := PagePositionRelative pageCount ;; CursorPosition 1 1.
Definition PrecedingPage (pageCount : Z) : Adapt unit := PagePositionBack pageCount ;; CursorPosition 1 1.

(** ** The saved state *)
Definition saved_index ad : nat := if _usingAltBuffer ad then 1 else 0.

Definition CursorSaveState : Adapt unit :=
  page ← ActivePage;
  cursorPosition ← position_of page;
  let cursorPosition := mkPoint (pt_x cursorPosition) (pt_y cursorPosition - Top page) in
  origin ← test_mode AdaptMode.Origin;
  cursorPosition ← (if origin : bool then
                      pageWidth ← Width page;
                      horizontal ← _GetHorizontalMargins pageWidth;
                      vertical ← _GetVerticalMargins page false;
                      mret (mkPoint (pt_x cursorPosition - fst horizontal) (pt_y cursorPosition - fst vertical))
                    else mret cursorPosition);
  cursor ← GetCursor page;
  attributes ← Attributes page;
  alter (fun ad =>
    set_savedCursorState (<[saved_index ad := mkCursorState (pt_y cursorPosition + 1) (pt_x cursorPosition + 1) (_number page)
      (match Cursor.GetDelayEOLWrap cursor with Some _ => true | None => false end) origin attributes (_termOutput ad)]> (_savedCursorState ad)) ad).

Definition CursorRestoreState : Adapt unit :=
  saved ← asks (fun ad => default CursorState_ctor (_savedCursorState ad !! saved_index ad));
  set_mode AdaptMode.Origin (IsOriginModeRelative saved) ;;
  PagePositionAbsolute (saved_Page saved) ;;
  CursorPosition (saved_Row saved) (saved_Column saved) ;;
  page ← ActivePage;
  (if IsDelayedEOLWrap saved then on_cursor page (quietly Cursor.DelayEOLWrap) else mret tt) ;;
  SetAttributes page (saved_Attributes saved) ;;
  alter (fun ad => set_termOutput (TerminalOutput.RestoreFrom (saved_TermOutput saved) (_termOutput ad)) ad).

(** ** Setting margins *)
Definition _DoSetTopBottomScrollingMargins (topMargin bottomMargin : Z) (homeCursor : bool) : Adapt unit :=
  page ← ActivePage;
  let pageHeight := Height page in
  let actualTop := if topMargin =? 0 then 1 else topMargin in
  let actualBottom := if bottomMargin =? 0 then pageHeight else bottomMargin in
  if (actualTop <? actualBottom) && (actualBottom <=? pageHeight) then
    let '(actualTop, actualBottom) := if (actualTop =? 1) && (actualBottom =? pageHeight) then (0, 0) else (actualTop - 1, actualBottom - 1) in
    alter (fun ad => set_scrollMargins (mkRect (rc_left (_scrollMargins ad)) actualTop (rc_right (_scrollMargins ad)) actualBottom) ad) ;;
    (if homeCursor then CursorPosition 1 1 else mret tt)
  else mret tt.
Definition SetTopBottomScrollingMargins (topMargin bottomMargin : Z) : Adapt unit := _DoSetTopBottomScrollingMargins topMargin bottomMargin true.

Definition _DoSetLeftRightScrollingMargins (leftMargin rightMargin : Z) (homeCursor : bool) : Adapt unit :=
  page ← ActivePage;
  pageWidth ← Width page;
  let actualLeft := if leftMargin =? 0 then 1 else leftMargin in
  let actualRight := if rightMargin =? 0 then pageWidth else rightMargin in
  if (actualLeft <? actualRight) && (actualRight <=? pageWidth) then
    let '(actualLeft, actualRight) := if (actualLeft =? 1) && (actualRight =? pageWidth) then (0, 0) else (actualLeft - 1, actualRight - 1) in
    alter (fun ad => set_scrollMargins (mkRect actualLeft (rc_top (_scrollMargins ad)) actualRight (rc_bottom (_scrollMargins ad))) ad) ;;
    (if homeCursor then CursorPosition 1 1 else mret tt)
  else mret tt.
Definition SetLeftRightScrollingMargins (leftMargin rightMargin : Z) : Adapt unit :=
  allowed ← test_mode AdaptMode.AllowDECSLRM;
  if (allowed : bool) then _DoSetLeftRightScrollingMargins leftMargin rightMargin true else CursorSaveState.

(** [DECOM_OriginMode] of [_ModeParamsHelper]. *)
Definition set_origin_mode (enable : bool) : Adapt unit := set_mode AdaptMode.Origin enable ;; CursorPosition 1 1.

(** ** Tabs *)

(** A new column has a stop when they are initialized and it is a multiple of 8; the old ones stay. *)
Definition _InitTabStopsForWidth (width : Z) : Adapt unit :=
  if width <? 0 then throw
  else
    alter (fun ad =>
      let initialWidth := length (_tabStopColumns ad) in
      let screenWidth := Z.to_nat width in
      if (initialWidth <? screenWidth)%nat then
        set_tabStops (_tabStopColumns ad ++ map (fun column => _initDefaultTabStops ad && (8 <=? column)%nat && (column mod 8 =? 0)%nat) (seq initialWidth (screenWidth - initialWidth)))
          (_initDefaultTabStops ad) ad
      else ad).

(** [_tabStopColumns.at(column) = value]. *)
Definition set_tab (column : Z) (value : bool) : Adapt unit :=
  columns ← asks _tabStopColumns;
  if (0 <=? column) && (column <? Z.of_nat (length columns)) then alter (fun ad => set_tabStops (<[Z.to_nat column := value]> columns) (_initDefaultTabStops ad) ad)
  else throw.
(** [til::at(_tabStopColumns, column)]. *)
Definition has_tab (column : Z) : Adapt bool := columns ← asks _tabStopColumns; match columns !! Z.to_nat column with Some tab => mret tab | None => ub end.

Definition HorizontalTabSet : Adapt unit :=
  page ← ActivePage;
  position ← position_of page;
  width ← Width page;
  _InitTabStopsForWidth width ;;
  set_tab (pt_x position) true.

(** At most one step for each column. *)
Fixpoint tabLoop (fuel : nat) (step limit : Z) (column tabsPerformed numTabs : Z) : Adapt Z :=
  match fuel with
  | O => outOfFuel
  | S fuel =>
      if (0 <? step * (limit - column)) && (tabsPerformed <? numTabs) then
        let column := column + step in
        tab ← has_tab column;
        tabLoop fuel step limit column (if tab : bool then tabsPerformed + 1 else tabsPerformed) numTabs
      else mret column
  end.

Definition ForwardTab (numTabs : Z) : Adapt unit :=
  page ← ActivePage;
  position ← position_of page;
  let column := pt_x position in
  let row := pt_y position in
  width ← GetLineWidth page row;
  '(topMargin, bottomMargin) ← _GetVerticalMargins page true;
  '(leftMargin, rightMargin) ← _GetHorizontalMargins width;
  let clampToMargin := (row >=? topMargin) && (row <=? bottomMargin) && (column <=? rightMargin) in
  let maxColumn := if clampToMargin then rightMargin else width - 1 in
  _InitTabStopsForWidth width ;;
  column ← tabLoop (S (Z.to_nat (maxColumn - column))) 1 maxColumn column 0 numTabs;
  cursor ← GetCursor page;
  on_cursor page (Cursor.SetXPosition column) ;;
  match Cursor.GetDelayEOLWrap cursor with Some _ => on_cursor page (quietly Cursor.DelayEOLWrap) | None => mret tt end.

Definition BackwardsTab (numTabs : Z) : Adapt unit :=
  page ← ActivePage;
  position ← position_of page;
  let column := pt_x position in
  let row := pt_y position in
  width ← GetLineWidth page row;
  '(topMargin, bottomMargin) ← _GetVerticalMargins page true;
  '(leftMargin, rightMargin) ← _GetHorizontalMargins width;
  let clampToMargin := (row >=? topMargin) && (row <=? bottomMargin) && (column >=? leftMargin) in
  let minColumn := if clampToMargin then leftMargin else 0 in
  _InitTabStopsForWidth width ;;
  column ← tabLoop (S (Z.to_nat (column - minColumn))) (-1) minColumn column 0 numTabs;
  on_cursor page (Cursor.SetXPosition column).

Definition _ClearSingleTabStop : Adapt unit :=
  page ← ActivePage;
  position ← position_of page;
  width ← Width page;
  _InitTabStopsForWidth width ;;
  set_tab (pt_x position) false.
Definition _ClearAllTabStops : Adapt unit := alter (set_tabStops [] false).
(** [DispatchTypes::TabClearType]: 0 is the current column, 3 are all. *)
Definition TabClear (clearType : Z) : Adapt unit :=
  if clearType =? 0 then _ClearSingleTabStop else if clearType =? 3 then _ClearAllTabStops else mret tt.
(** [None]: the parameter is omitted; 5 is [SetEvery8Columns]. *)
Definition TabSet (setType : VTParameter) : Adapt unit := if VTParameter.value_or setType 5 =? 5 then alter (set_tabStops [] true) else mret tt.

(** ** Reports *)
Definition _ReturnCsiResponse (response : wstring) : Adapt unit :=
  sendC1 ← asks (fun ad => GetInputMode InputMode.SendC1 (_terminalInput ad));
  on_api (Terminal.ReturnResponse ((if sendC1 : bool then [0x9b] else [0x1b; 0x5b]) ++ response)).

Definition _CursorPositionReport (extendedReport : bool) : Adapt unit :=
  page ← ActivePage;
  position ← position_of page;
  let position := mkPoint (pt_x position + 1) (pt_y position - Top page + 1) in
  origin ← test_mode AdaptMode.Origin;
  position ← (if origin : bool then
                width ← Width page;
                horizontal ← _GetHorizontalMargins width;
                vertical ← _GetVerticalMargins page false;
                mret (mkPoint (pt_x position - fst horizontal) (pt_y position - fst vertical))
              else mret position);
  let numbers := formatInt (pt_y position) ++ [0x3b] ++ formatInt (pt_x position) in
  _ReturnCsiResponse (if extendedReport then [0x3f] ++ numbers ++ [0x3b] ++ formatInt (_number page) ++ [0x52] else numbers ++ [0x52]).
End adapter.
End AdaptDispatch.
