(* ===== verification/AdaptScreen.v ===== *)
(** * The dispatcher: the screen

    [AdaptDispatch] ([src/terminal/adapter/adaptDispatch.cpp]), the part that writes: text, line feeds, scrolling, insertion and
    deletion, erasure and rectangular areas. *)
From stdpp Require Import gmap.
From S2P Require Import Prelude DispatchTypes StateMachine LineRenditions Cursor InputEvents ColorTable TextColors TextAttributes Rle Graphemes ImageSlice Row RowImages CharSets TerminalOutput TerminalInput Graphics TextBuffer Pages AdaptDispatch.
From S2P Require Import ITermDispatch.

(** [Page::MoveViewportDown]. *)
Definition MoveViewportDown (page : Page) : Page :=
  let v := _viewport page in mkPage (_buffer page) (mkRect (rc_left v) (rc_top v + 1) (rc_right v) (rc_bottom v + 1)) (_number page).

(** [struct ChangeOps]. *)
Record ChangeOps := mkChangeOps { andAttrMask : Z; xorAttrMask : Z; ops_foreground : option TextColor; ops_background : option TextColor; ops_underlineColor : option TextColor }.
Definition ChangeOps_default : ChangeOps := mkChangeOps CharacterAttributes.All CharacterAttributes.Normal None None None.

(** [DispatchTypes::EraseType]. *)
Definition EraseType_FromBeginning : Z := 1.
Definition EraseType_All : Z := 2.
Definition EraseType_Scrollback : Z := 3.

(** How many times the loops over text and over cells may be run. The code does not bound them; what is said of a run that ends is said for any number. *)
Class Turns : Type := turns : nat.

Module AdaptScreen.
Import AdaptDispatch.

Section screen.
Context `{VirtualMemory} `{Allocator} `{Turns} {D : Type} `{GraphemeDetector D} (isa : Intrinsics) (address : nat -> ROW -> Z) (mutationId : Z).
(** The address of the text that is written or filled with. *)
Context (textAddress : Z).
Abbreviation Adapt := (M (AdaptDispatch * D)).
Abbreviation Active := (ActivePage isa address mutationId).

Definition whitespace : wstring := [0x20].
Definition delayed_at (page : Page) : Adapt (option point) := c ← GetCursor page; mret (Cursor.GetDelayEOLWrap c).
Definition ResetDelayEOLWrap (page : Page) : Adapt unit := on_cursor page (quietly Cursor.ResetDelayEOLWrap).

Definition _GetEraseAttributes (page : Page) : Adapt TextAttribute :=
  eraseColor ← test_mode AdaptMode.EraseColor;
  if (eraseColor : bool) then mret TextAttribute_ctor else attributes ← Attributes page; mret (TextAttribute.SetStandardErase attributes).

Definition _FillRect (page : Page) (fillRect : rect) (fillChar : wstring) (fillAttrs : TextAttribute) : Adapt unit :=
  on_page_text page (TextBuffer.FillRect isa address turns fillRect textAddress fillChar fillAttrs).

(** ** Scrolling *)

(** The loop over the cells of the area. *)
Fixpoint moveCells (fuel : nat) (srcView dstView : rect) (walkDirection : Z) (srcPos dstPos : point) : M TextBuffer unit :=
  match fuel with
  | O => outOfFuel
  | S fuel =>
      current ← GetCellDataAt isa srcPos;
      WriteCell isa current dstPos ;;
      let srcPos := fst (WalkInBounds srcView walkDirection srcPos) in
      let '(dstPos, more) := WalkInBounds dstView walkDirection dstPos in
      if (more : bool) then moveCells fuel srcView dstView walkDirection srcPos dstPos else mret tt
  end.

Definition _ScrollRectVertically (page : Page) (scrollRect : rect) (delta : Z) : Adapt unit :=
  let rectHeight := rc_bottom scrollRect - rc_top scrollRect in
  let absoluteDelta := Z.min (Z.abs delta) rectHeight in
  (if absoluteDelta <? rectHeight then
     let top := if delta >? 0 then rc_top scrollRect else rc_top scrollRect + absoluteDelta in
     let width := rc_right scrollRect - rc_left scrollRect in
     let height := rectHeight - absoluteDelta in
     let actualDelta := if delta >? 0 then absoluteDelta else - absoluteDelta in
     pageWidth ← Width page;
     if width =? pageWidth then
       on_page page (TextBuffer.ScrollRows isa address top height actualDelta) ;;
       on_page page (TextBuffer.TriggerRedraw scrollRect)
     else
       let srcView := mkRect (rc_left scrollRect) top (rc_left scrollRect + width) (top + height) in
       let dstView := mkRect (rc_left scrollRect) (top + actualDelta) (rc_left scrollRect + width) (top + actualDelta + height) in
       let walkDirection := DetermineWalkDirection srcView dstView in
       on_page page (moveCells turns srcView dstView walkDirection (GetWalkOrigin srcView walkDirection) (GetWalkOrigin dstView walkDirection)) ;;
       on_page page (TextBuffer.CopyBlock isa srcView dstView)
   else mret tt) ;;
  let eraseTop := if delta >? 0 then rc_top scrollRect else rc_bottom scrollRect - absoluteDelta in
  let eraseRect := mkRect (rc_left scrollRect) eraseTop (rc_right scrollRect) (eraseTop + absoluteDelta) in
  eraseAttributes ← _GetEraseAttributes page;
  _FillRect page eraseRect whitespace eraseAttributes ;;
  on_page page (TextBuffer.ResetLineRenditionRange isa (rc_top eraseRect) (rc_bottom eraseRect)).

(** Two cells are read before one is written. *)
Fixpoint shiftCells (fuel : nat) (source target : rect) (walkDirection : Z) (next : OutputCellView) (sourcePos targetPos : point) : M TextBuffer unit :=
  match fuel with
  | O => outOfFuel
  | S fuel =>
      let current := next in
      let sourcePos := fst (WalkInBounds source walkDirection sourcePos) in
      next ← GetCellDataAt isa sourcePos;
      WriteCell isa current targetPos ;;
      let '(targetPos, more) := WalkInBounds target walkDirection targetPos in
      if (more : bool) then shiftCells fuel source target walkDirection next sourcePos targetPos else mret tt
  end.

Definition _ScrollRectHorizontally (page : Page) (scrollRect : rect) (delta : Z) : Adapt unit :=
  let rectWidth := rc_right scrollRect - rc_left scrollRect in
  let absoluteDelta := Z.min (Z.abs delta) rectWidth in
  (if absoluteDelta <? rectWidth then
     let left := if delta >? 0 then rc_left scrollRect else rc_left scrollRect + absoluteDelta in
     let top := rc_top scrollRect in
     let width := rectWidth - absoluteDelta in
     let height := rc_bottom scrollRect - rc_top scrollRect in
     let actualDelta := if delta >? 0 then absoluteDelta else - absoluteDelta in
     let source := mkRect left top (left + width) (top + height) in
     let target := mkRect (left + actualDelta) top (left + width + actualDelta) (top + height) in
     let walkDirection := DetermineWalkDirection source target in
     on_page page (
       let sourcePos := GetWalkOrigin source walkDirection in
       next ← GetCellDataAt isa sourcePos;
       shiftCells turns source target walkDirection next sourcePos (GetWalkOrigin target walkDirection) ;;
       TextBuffer.CopyBlock isa source target)
   else mret tt) ;;
  let eraseLeft := if delta >? 0 then rc_left scrollRect else rc_right scrollRect - absoluteDelta in
  let eraseRect := mkRect eraseLeft (rc_top scrollRect) (eraseLeft + absoluteDelta) (rc_bottom scrollRect) in
  eraseAttributes ← _GetEraseAttributes page;
  _FillRect page eraseRect whitespace eraseAttributes.

Definition _InsertDeleteCharacterHelper (delta : Z) : Adapt unit :=
  page ← Active;
  position ← position_of page;
  let row := pt_y position in
  let col := pt_x position in
  lineWidth ← GetLineWidth isa page row;
  '(topMargin, bottomMargin) ← _GetVerticalMargins page true;
  '(leftMargin, rightMargin) ← (if (row >=? topMargin) && (row <=? bottomMargin) then _GetHorizontalMargins lineWidth else mret (0, lineWidth - 1));
  if (col >=? leftMargin) && (col <=? rightMargin) then
    _ScrollRectHorizontally page (mkRect col row (rightMargin + 1) (row + 1)) delta ;;
    ResetDelayEOLWrap page
  else mret tt.
Definition InsertCharacter (count : Z) : Adapt unit := _InsertDeleteCharacterHelper count.
Definition DeleteCharacter (count : Z) : Adapt unit := _InsertDeleteCharacterHelper (- count).

Definition _ScrollMovement (delta : Z) : Adapt unit :=
  page ← Active;
  '(topMargin, bottomMargin) ← _GetVerticalMargins page true;
  width ← Width page;
  '(leftMargin, rightMargin) ← _GetHorizontalMargins width;
  _ScrollRectVertically page (mkRect leftMargin topMargin (rightMargin + 1) (bottomMargin + 1)) delta.
Definition ScrollUp (distance : Z) : Adapt unit := _ScrollMovement (- distance).
Definition ScrollDown (distance : Z) : Adapt unit := _ScrollMovement distance.

Definition _InsertDeleteLineHelper (delta : Z) : Adapt unit :=
  page ← Active;
  position ← position_of page;
  let col := pt_x position in
  let row := pt_y position in
  '(topMargin, bottomMargin) ← _GetVerticalMargins page true;
  width ← Width page;
  '(leftMargin, rightMargin) ← _GetHorizontalMargins width;
  if (row >=? topMargin) && (row <=? bottomMargin) && (col >=? leftMargin) && (col <=? rightMargin) then
    _ScrollRectVertically page (mkRect leftMargin row (rightMargin + 1) (bottomMargin + 1)) delta ;;
    on_cursor page (Cursor.SetXPosition leftMargin)
  else mret tt.
Definition InsertLine (distance : Z) : Adapt unit := _InsertDeleteLineHelper distance.
Definition DeleteLine (distance : Z) : Adapt unit := _InsertDeleteLineHelper (- distance).

Definition _InsertDeleteColumnHelper (delta : Z) : Adapt unit :=
  page ← Active;
  position ← position_of page;
  let col := pt_x position in
  let row := pt_y position in
  '(topMargin, bottomMargin) ← _GetVerticalMargins page true;
  width ← Width page;
  '(leftMargin, rightMargin) ← _GetHorizontalMargins width;
  if (row >=? topMargin) && (row <=? bottomMargin) && (col >=? leftMargin) && (col <=? rightMargin) then
    _ScrollRectHorizontally page (mkRect col topMargin (rightMargin + 1) (bottomMargin + 1)) delta
  else mret tt.
Definition InsertColumn (distance : Z) : Adapt unit := _InsertDeleteColumnHelper distance.
Definition DeleteColumn (distance : Z) : Adapt unit := _InsertDeleteColumnHelper (- distance).

(** ** Erasing *)
Definition EraseCharacters (numChars : Z) : Adapt unit :=
  page ← Active;
  position ← position_of page;
  let row := pt_y position in
  let startCol := pt_x position in
  lineWidth ← GetLineWidth isa page row;
  let endCol := Z.min (startCol + numChars) lineWidth in
  ResetDelayEOLWrap page ;;
  eraseAttributes ← _GetEraseAttributes page;
  _FillRect page (mkRect startCol row endCol (row + 1)) whitespace eraseAttributes.

Definition _EraseScrollback : Adapt unit :=
  page ← VisiblePage isa address mutationId;
  position ← position_of page;
  let row := pt_y position in
  on_page page (TextBuffer.ClearScrollback isa address (Top page) (Height page)) ;;
  on_api (Terminal.SetViewportPosition (mkPoint (XPanOffset page) 0)) ;;
  on_cursor page (Cursor.SetYPosition (row - Top page)).

Fixpoint increments (count : nat) : M TextBuffer unit :=
  match count with
  | O => mret tt
  | S count => TextBuffer.IncrementCircularBuffer isa TextAttribute_ctor ;; increments count
  end.

Definition _EraseAll : Adapt unit :=
  page ← Active;
  pageWidth ← Width page;
  let pageHeight := Height page in
  bufferHeight ← BufferHeight page;
  position ← position_of page;
  let row := pt_y position - Top page in
  lastChar ← on_page page (TextBuffer.GetLastNonSpaceCharacter isa 0 (bufferHeight - 1));
  let newPageTop := if decide (lastChar = mkPoint 0 0) then 0 else pt_y lastChar + 1 in
  let newPageBottom := newPageTop + pageHeight in
  let delta := newPageBottom - bufferHeight in
  (if delta >? 0 then
     on_page page (increments (Z.to_nat delta)) ;;
     on_api (Terminal.NotifyBufferRotation delta) ;;
     on_page page (TextBuffer.TriggerScroll (mkPoint 0 (- delta)))
   else mret tt) ;;
  let newPageTop := if delta >? 0 then newPageTop - delta else newPageTop in
  let newPageBottom := if delta >? 0 then newPageBottom - delta else newPageBottom in
  (if negb (newPageTop =? Top page) then on_api (Terminal.SetViewportPosition (mkPoint (XPanOffset page) newPageTop)) else mret tt) ;;
  on_cursor page (Cursor.SetYPosition (row + newPageTop)) ;;
  eraseAttributes ← _GetEraseAttributes page;
  _FillRect page (mkRect 0 newPageTop pageWidth newPageBottom) whitespace eraseAttributes ;;
  on_page page (TextBuffer.ResetLineRenditionRange isa newPageTop newPageBottom).

Definition EraseInDisplay (eraseType : Z) : Adapt unit :=
  if eraseType >? EraseType_Scrollback then mret tt
  else if eraseType =? EraseType_Scrollback then _EraseScrollback
  else if eraseType =? EraseType_All then _EraseAll
  else
    page ← Active;
    pageWidth ← Width page;
    position ← position_of page;
    let row := pt_y position in
    let col := pt_x position in
    ResetDelayEOLWrap page ;;
    eraseAttributes ← _GetEraseAttributes page;
    (if eraseType =? EraseType_FromBeginning then
       on_page page (TextBuffer.ResetLineRenditionRange isa (Top page) row) ;;
       _FillRect page (mkRect 0 (Top page) pageWidth row) whitespace eraseAttributes ;;
       _FillRect page (mkRect 0 row (col + 1) (row + 1)) whitespace eraseAttributes
     else mret tt) ;;
    (if eraseType =? EraseType_ToEnd then
       on_page page (TextBuffer.ResetLineRenditionRange isa (if col >? 0 then row + 1 else row) (Bottom page)) ;;
       _FillRect page (mkRect col row pageWidth (row + 1)) whitespace eraseAttributes ;;
       _FillRect page (mkRect 0 (row + 1) pageWidth (Bottom page)) whitespace eraseAttributes
     else mret tt).

Definition EraseInLine (eraseType : Z) : Adapt unit :=
  page ← Active;
  position ← position_of page;
  let row := pt_y position in
  let col := pt_x position in
  ResetDelayEOLWrap page ;;
  eraseAttributes ← _GetEraseAttributes page;
  if eraseType =? EraseType_FromBeginning then _FillRect page (mkRect 0 row (col + 1) (row + 1)) whitespace eraseAttributes
  else if eraseType =? EraseType_ToEnd then lineWidth ← GetLineWidth isa page row; _FillRect page (mkRect col row lineWidth (row + 1)) whitespace eraseAttributes
  else if eraseType =? EraseType_All then lineWidth ← GetLineWidth isa page row; _FillRect page (mkRect 0 row lineWidth (row + 1)) whitespace eraseAttributes
  else mret tt.

(** [rowBuffer.GetAttrByColumn(col)]. *)
Definition attr_at (r : nat) (col : Z) : M TextBuffer TextAttribute := TextBuffer.on_phys r (fun row => (row, GetAttrByColumn col row)).
Fixpoint eraseColumns (count : nat) (r : nat) (row col : Z) : M TextBuffer unit :=
  match count with
  | O => mret tt
  | S count =>
      attr ← attr_at r col;
      (if negb (TextAttribute.IsProtected attr) then
         TextBuffer.on_phys r (ClearCell isa col) ;;
         TextBuffer.on_phys r (writes (EraseCells col (col + 1))) ;;
         TextBuffer.TriggerRedraw (mkRect col row (col + 1) (row + 1))
       else mret tt) ;;
      eraseColumns count r row (col + 1)
  end.
Fixpoint eraseRows (count : nat) (row left right : Z) : M TextBuffer unit :=
  match count with
  | O => mret tt
  | S count =>
      r ← TextBuffer.GetMutableRowByOffset isa row;
      eraseColumns (Z.to_nat (right - left)) r row left ;;
      eraseRows count (row + 1) left right
  end.
Definition _SelectiveEraseRect (page : Page) (eraseRect : rect) : Adapt unit :=
  if TextBuffer.rect_valid eraseRect then on_page page (eraseRows (Z.to_nat (rc_bottom eraseRect - rc_top eraseRect)) (rc_top eraseRect) (rc_left eraseRect) (rc_right eraseRect)) else mret tt.

Definition SelectiveEraseInDisplay (eraseType : Z) : Adapt unit :=
  page ← Active;
  pageWidth ← Width page;
  position ← position_of page;
  let row := pt_y position in
  let col := pt_x position in
  ResetDelayEOLWrap page ;;
  if eraseType =? EraseType_FromBeginning then
    _SelectiveEraseRect page (mkRect 0 (Top page) pageWidth row) ;; _SelectiveEraseRect page (mkRect 0 row (col + 1) (row + 1))
  else if eraseType =? EraseType_ToEnd then
    _SelectiveEraseRect page (mkRect col row pageWidth (row + 1)) ;; _SelectiveEraseRect page (mkRect 0 (row + 1) pageWidth (Bottom page))
  else if eraseType =? EraseType_All then _SelectiveEraseRect page (mkRect 0 (Top page) pageWidth (Bottom page))
  else mret tt.

Definition SelectiveEraseInLine (eraseType : Z) : Adapt unit :=
  page ← Active;
  position ← position_of page;
  let row := pt_y position in
  let col := pt_x position in
  ResetDelayEOLWrap page ;;
  if eraseType =? EraseType_FromBeginning then _SelectiveEraseRect page (mkRect 0 row (col + 1) (row + 1))
  else if eraseType =? EraseType_ToEnd then lineWidth ← GetLineWidth isa page row; _SelectiveEraseRect page (mkRect col row lineWidth (row + 1))
  else if eraseType =? EraseType_All then lineWidth ← GetLineWidth isa page row; _SelectiveEraseRect page (mkRect 0 row lineWidth (row + 1))
  else mret tt.

(** ** Rectangular areas *)
Definition _CalculateRectArea (page : Page) (top left bottom right : Z) : Adapt rect :=
  pageWidth ← Width page;
  let pageHeight := Height page in
  '(topMargin, bottomMargin) ← _GetVerticalMargins page false;
  '(leftMargin, rightMargin) ← _GetHorizontalMargins pageWidth;
  origin ← test_mode AdaptMode.Origin;
  let yOffset := if origin : bool then topMargin else 0 in
  let yMaximum := if origin then bottomMargin + 1 else pageHeight in
  let xOffset := if origin then leftMargin else 0 in
  let xMaximum := if origin then rightMargin + 1 else pageWidth in
  let fillRight := if right =? 0 then xMaximum else right + xOffset in
  let fillBottom := if bottom =? 0 then yMaximum else bottom + yOffset in
  let fillLeft := Z.min (left + xOffset) xMaximum - 1 in
  let fillRight := Z.min fillRight xMaximum - 1 in
  let fillTop := Z.min (top + yOffset) yMaximum - 1 in
  let fillBottom := Z.min fillBottom yMaximum - 1 in
  mret (mkRect fillLeft (fillTop + Top page) (fillRight + 1) (fillBottom + Top page + 1)).

Definition changed_attr (changeOps : ChangeOps) (attr : TextAttribute) : TextAttribute :=
  let attr := TextAttribute.SetCharacterAttributes (Z.lxor (Z.land (TextAttribute.GetCharacterAttributes attr) (andAttrMask changeOps)) (xorAttrMask changeOps)) attr in
  let attr := match ops_foreground changeOps with Some c => TextAttribute.SetForeground c attr | None => attr end in
  let attr := match ops_background changeOps with Some c => TextAttribute.SetBackground c attr | None => attr end in
  match ops_underlineColor changeOps with Some c => TextAttribute.SetUnderlineColor c attr | None => attr end.
Fixpoint changeColumns (count : nat) (changeOps : ChangeOps) (r : nat) (col : Z) : M TextBuffer unit :=
  match count with
  | O => mret tt
  | S count =>
      attr ← attr_at r col;
      TextBuffer.on_phys r (ReplaceAttributes col (col + 1) (changed_attr changeOps attr)) ;;
      changeColumns count changeOps r (col + 1)
  end.
Fixpoint changeRows (count : nat) (changeOps : ChangeOps) (row left right : Z) : M TextBuffer unit :=
  match count with
  | O => mret tt
  | S count =>
      r ← TextBuffer.GetMutableRowByOffset isa row;
      changeColumns (Z.to_nat (right - left)) changeOps r left ;;
      changeRows count changeOps (row + 1) left right
  end.
Definition _ChangeRectAttributes (page : Page) (changeRect : rect) (changeOps : ChangeOps) : Adapt unit :=
  if TextBuffer.rect_valid changeRect then
    on_page page (changeRows (Z.to_nat (rc_bottom changeRect - rc_top changeRect)) changeOps (rc_top changeRect) (rc_left changeRect) (rc_right changeRect)) ;;
    on_page page (TextBuffer.TriggerRedraw changeRect)
  else mret tt.

Definition _ChangeRectOrStreamAttributes (changeArea : rect) (changeOps : ChangeOps) : Adapt unit :=
  page ← Active;
  changeRect ← _CalculateRectArea page (rc_top changeArea) (rc_left changeArea) (rc_bottom changeArea) (rc_right changeArea);
  let lineCount := rc_bottom changeRect - rc_top changeRect in
  rectangular ← test_mode AdaptMode.RectangularChangeExtent;
  if rectangular || (lineCount =? 1) then _ChangeRectAttributes page changeRect changeOps
  else if (lineCount >? 1) && (rc_right changeRect >? rc_left changeRect) then
    pageWidth ← Width page;
    _ChangeRectAttributes page (mkRect (rc_left changeRect) (rc_top changeRect) pageWidth (rc_top changeRect + 1)) changeOps ;;
    _ChangeRectAttributes page (mkRect 0 (rc_top changeRect + 1) pageWidth (rc_top changeRect + 1 + (lineCount - 2))) changeOps ;;
    _ChangeRectAttributes page (mkRect 0 (rc_bottom changeRect - 1) (rc_right changeRect) (rc_bottom changeRect)) changeOps
  else mret tt.

(** What the options do to an attribute without and with all renditions. *)
Definition change_ops (allAttrsOff allAttrsOn : TextAttribute) : ChangeOps :=
  let orAttrMask := TextAttribute.GetCharacterAttributes allAttrsOff in
  let andAttrMask := TextAttribute.GetCharacterAttributes allAttrsOn in
  let changed (color : TextAttribute -> TextColor) :=
    if negb (TextColor.IsDefault_ (color allAttrsOff)) || TextColor.IsDefault_ (color allAttrsOn) then Some (color allAttrsOff) else None in
  mkChangeOps (Z.ldiff andAttrMask orAttrMask) orAttrMask (changed TextAttribute.GetForeground) (changed TextAttribute.GetBackground) (changed TextAttribute.GetUnderlineColor).
Definition ChangeAttributesRectangularArea (top left bottom right : Z) (attrs : VTParameters) : Adapt unit :=
  allAttrsOff ← reads (fun _ => _ApplyGraphicsOptions attrs TextAttribute_ctor);
  allAttrsOn ← reads (fun _ => _ApplyGraphicsOptions attrs (TextAttribute.SetCharacterAttributes CharacterAttributes.All (TextAttribute_colors 0 0 0)));
  _ChangeRectOrStreamAttributes (mkRect left top right bottom) (change_ops allAttrsOff allAttrsOn).

(** Each option is at least one parameter. *)
Fixpoint reverseLoop (fuel : nat) (attrs : VTParameters) (i : nat) (reverseMask : Z) : option Z :=
  if (i <? VTParameters.size attrs)%nat then
    match fuel with
    | O => None
    | S fuel =>
        if VTParameter.value_or (VTParameters.at_ attrs i) 0 =? 0 then
          let singlyUnderlinedAttr := Z.shiftl SinglyUnderlined UNDERLINE_STYLE_SHIFT in
          reverseLoop fuel attrs (i + 1) (Z.lxor reverseMask (Z.lor (Z.ldiff CharacterAttributes.Rendition CharacterAttributes.UnderlineStyle) singlyUnderlinedAttr))
        else
          let '(consumed, allAttrsOff) := _ApplyGraphicsOption attrs i TextAttribute_ctor in
          reverseLoop fuel attrs (i + consumed) (Z.lxor reverseMask (TextAttribute.GetCharacterAttributes allAttrsOff))
    end
  else Some reverseMask.
Definition ReverseAttributesRectangularArea (top left bottom right : Z) (attrs : VTParameters) : Adapt unit :=
  reverseMask ← reads (fun _ => if VTParameters.empty attrs then Some CharacterAttributes.Normal else reverseLoop (VTParameters.size attrs) attrs 0 CharacterAttributes.Normal);
  if negb (reverseMask =? CharacterAttributes.Normal) then
    _ChangeRectOrStreamAttributes (mkRect left top right bottom) (mkChangeOps CharacterAttributes.All reverseMask None None None)
  else mret tt.

Definition FillRectangularArea (ch : VTParameter) (top left bottom right : Z) : Adapt unit :=
  page ← Active;
  fillRect ← _CalculateRectArea page top left bottom right;
  let charValue := let value := VTParameter.value_or ch 0 in if value =? 0 then 32 else value in
  let glChar := (charValue >=? 32) && (charValue <=? 126) in
  let grChar := (charValue >=? 160) && (charValue <=? 255) in
  codePage ← asks (fun ad => Terminal.GetOutputCodePage (_api (_pages ad)));
  let unicodeChar := (charValue >=? 256) && (charValue <=? 65535) && (codePage =? CP_UTF8) in
  if glChar || grChar || unicodeChar then
    fillChar ← on_termOutput (TerminalOutput.TranslateKey charValue);
    fillAttributes ← Attributes page;
    _FillRect page fillRect [fillChar] fillAttributes
  else mret tt.
Definition EraseRectangularArea (top left bottom right : Z) : Adapt unit :=
  page ← Active;
  eraseRect ← _CalculateRectArea page top left bottom right;
  eraseAttributes ← _GetEraseAttributes page;
  _FillRect page eraseRect whitespace eraseAttributes.
Definition SelectiveEraseRectangularArea (top left bottom right : Z) : Adapt unit :=
  page ← Active;
  eraseRect ← _CalculateRectArea page top left bottom right;
  _SelectiveEraseRect page eraseRect.
(** [DispatchTypes::ChangeExtent]: 0 and 1 are a stream, 2 is a rectangle. *)
Definition SelectAttributeChangeExtent (changeExtent : Z) : Adapt unit :=
  if (changeExtent =? 0) || (changeExtent =? 1) then set_mode AdaptMode.RectangularChangeExtent false
  else if changeExtent =? 2 then set_mode AdaptMode.RectangularChangeExtent true
  else mret tt.

Definition SetLineRendition (rendition : LineRendition) : Adapt unit :=
  allowed ← test_mode AdaptMode.AllowDECSLRM;
  if negb allowed then
    page ← Active;
    eraseAttributes ← _GetEraseAttributes page;
    on_page_text page (TextBuffer.SetCurrentLineRendition isa address textAddress rendition eraseAttributes) ;;
    ResetDelayEOLWrap page
  else mret tt.

Definition ScreenAlignmentPattern : Adapt unit :=
  page ← Active;
  width ← Width page;
  _FillRect page (mkRect 0 (Top page) width (Bottom page)) [0x45] TextAttribute_ctor ;;
  on_page page (TextBuffer.ResetLineRenditionRange isa (Top page) (Bottom page)) ;;
  attr ← Attributes page;
  SetAttributes page (TextAttribute.SetStandardErase attr) ;;
  set_mode AdaptMode.Origin false ;;
  set_mode AdaptMode.AllowDECSLRM false ;;
  _DoSetTopBottomScrollingMargins isa address mutationId 0 0 false ;;
  _DoSetLeftRightScrollingMargins isa address mutationId 0 0 false ;;
  CursorPosition isa address mutationId 1 1.

(** ** Line feeds *)
Definition _DoLineFeed (page : Page) (withReturn wrapForced : bool) : Adapt bool :=
  pageWidth ← Width page;
  bufferHeight ← BufferHeight page;
  '(topMargin, bottomMargin) ← _GetVerticalMargins page true;
  '(leftMargin, rightMargin) ← _GetHorizontalMargins pageWidth;
  currentPosition ← position_of page;
  on_page page (r ← TextBuffer.GetMutableRowByOffset isa (pt_y currentPosition); TextBuffer.on_phys r (modify (Row.SetWrapForced wrapForced))) ;;
  let x := if withReturn then
             if (pt_y currentPosition >=? topMargin) && (pt_y currentPosition <=? bottomMargin) && (pt_x currentPosition >=? leftMargin) then leftMargin else 0
           else pt_x currentPosition in
  let y := pt_y currentPosition in
  '(newPosition, viewportMoved) ←
    (if negb (y =? bottomMargin) || (x <? leftMargin) || (x >? rightMargin) then
       position ← ClampPositionWithinLine isa page (mkPoint x (Z.min (y + 1) (Bottom page - 1)));
       mret (position, false)
     else if (topMargin >? Top page) || (leftMargin >? 0) || (rightMargin <? pageWidth - 1) then
       _ScrollRectVertically page (mkRect leftMargin topMargin (rightMargin + 1) (bottomMargin + 1)) (-1) ;;
       mret (mkPoint x y, false)
     else if Bottom page <? bufferHeight then
       on_api (Terminal.SetViewportPosition (mkPoint (XPanOffset page) (Top page + 1))) ;;
       (if bottomMargin <? Bottom page - 1 then _ScrollRectVertically page (mkRect 0 (bottomMargin + 1) pageWidth (Bottom page + 1)) 1
        else
          eraseAttributes ← _GetEraseAttributes page;
          on_page page (r ← TextBuffer.GetMutableRowByOffset isa (y + 1); TextBuffer.on_phys r (Row.Reset isa eraseAttributes))) ;;
       mret (mkPoint x (y + 1), true)
     else
       eraseAttributes ← _GetEraseAttributes page;
       on_page page (TextBuffer.IncrementCircularBuffer isa eraseAttributes) ;;
       on_api (Terminal.NotifyBufferRotation 1) ;;
       on_page page (TextBuffer.TriggerScroll (mkPoint 0 (-1))) ;;
       (if bottomMargin <? Bottom page - 1 then _ScrollRectVertically page (mkRect 0 bottomMargin pageWidth bufferHeight) 1 else mret tt) ;;
       mret (mkPoint x y, false));
  on_cursor page (Cursor.SetPosition newPosition) ;;
  mret viewportMoved.

Definition LineFeed (lineFeedType : LineFeedType) : Adapt unit :=
  page ← Active;
  withReturn ← (match lineFeedType with DependsOnMode => GetSystemMode SystemMode.LineFeed | WithoutReturn => mret false | WithReturn => mret true end);
  _ ← _DoLineFeed page withReturn false;
  mret tt.

Definition ReverseLineFeed : Adapt unit :=
  page ← Active;
  cursorPosition ← position_of page;
  width ← Width page;
  '(leftMargin, rightMargin) ← _GetHorizontalMargins width;
  '(topMargin, bottomMargin) ← _GetVerticalMargins page true;
  if (pt_y cursorPosition =? topMargin) && (pt_x cursorPosition >=? leftMargin) && (pt_x cursorPosition <=? rightMargin) then
    _ScrollRectVertically page (mkRect leftMargin topMargin (rightMargin + 1) (bottomMargin + 1)) 1
  else if pt_y cursorPosition >? Top page then
    position ← ClampPositionWithinLine isa page (mkPoint (pt_x cursorPosition) (pt_y cursorPosition - 1));
    on_cursor page (Cursor.SetPosition position)
  else mret tt.

Definition BackIndex : Adapt unit :=
  page ← Active;
  cursorPosition ← position_of page;
  width ← Width page;
  '(leftMargin, rightMargin) ← _GetHorizontalMargins width;
  '(topMargin, bottomMargin) ← _GetVerticalMargins page true;
  if (pt_x cursorPosition =? leftMargin) && (pt_y cursorPosition >=? topMargin) && (pt_y cursorPosition <=? bottomMargin) then
    _ScrollRectHorizontally page (mkRect leftMargin topMargin (rightMargin + 1) (bottomMargin + 1)) 1
  else if pt_x cursorPosition >? 0 then on_cursor page (Cursor.SetXPosition (pt_x cursorPosition - 1))
  else mret tt.

Definition ForwardIndex : Adapt unit :=
  page ← Active;
  cursorPosition ← position_of page;
  width ← Width page;
  '(leftMargin, rightMargin) ← _GetHorizontalMargins width;
  '(topMargin, bottomMargin) ← _GetVerticalMargins page true;
  if (pt_x cursorPosition =? rightMargin) && (pt_y cursorPosition >=? topMargin) && (pt_y cursorPosition <=? bottomMargin) then
    _ScrollRectHorizontally page (mkRect leftMargin topMargin (rightMargin + 1) (bottomMargin + 1)) (-1)
  else
    lineWidth ← GetLineWidth isa page (pt_y cursorPosition);
    if pt_x cursorPosition <? lineWidth - 1 then on_cursor page (Cursor.SetXPosition (pt_x cursorPosition + 1)) else mret tt.

(** ** Text *)
Definition point_eqb (p q : point) : bool := (pt_x p =? pt_x q) && (pt_y p =? pt_y q).

(** [state.text.substr(textBuffer.GraphemeNext(state.text, 0))]. *)
Definition skip_grapheme (state : RowWriteState) : Adapt RowWriteState := fun s =>
  match TextBuffer.GraphemeNext (textData state) (text state) 0 (snd s) with
  | Some (d, n) =>
      ((fst s, d), Ret (mkWriteState (textData state + n) (drop (Z.to_nat n) (text state)) (columnBegin state) (columnLimit state) (columnEnd state) (columnBeginDirty state) (columnEndDirty state)))
  | None => (s, UB)
  end.

(** A wrap that is pending: the page, its margins, the cursor and the width of the line after it. *)
Definition wrapPending (page : Page) (wrapAtEOL : bool) (rightMargin : Z) (vertical : Z * Z) (cursorPosition : point) (columnLimit : Z) : Adapt (Page * (Z * Z) * point * Z) :=
  delayedCursorPosition ← delayed_at page;
  match delayedCursorPosition with
  | Some delayedCursorPosition =>
      if wrapAtEOL then
        ResetDelayEOLWrap page ;;
        if point_eqb delayedCursorPosition cursorPosition then
          moved ← _DoLineFeed page true true;
          let page := if moved : bool then MoveViewportDown page else page in
          vertical ← (if moved then _GetVerticalMargins page true else mret vertical);
          cursorPosition ← position_of page;
          lineWidth ← GetLineWidth isa page (pt_y cursorPosition);
          let lineWidth := if (pt_y cursorPosition >=? fst vertical) && (pt_y cursorPosition <=? snd vertical) then Z.min lineWidth (rightMargin + 1) else lineWidth in
          mret (page, vertical, cursorPosition, lineWidth)
        else mret (page, vertical, cursorPosition, columnLimit)
      else mret (page, vertical, cursorPosition, columnLimit)
  | None => mret (page, vertical, cursorPosition, columnLimit)
  end.

Definition write_row (page : Page) (row : Z) (state : RowWriteState) : Adapt RowWriteState :=
  attributes ← Attributes page;
  insert ← test_mode AdaptMode.InsertReplace;
  on_page_text page (if insert : bool then TextBuffer.Insert isa address row attributes state else TextBuffer.Replace isa address row attributes state).

Fixpoint writeLoop (fuel : nat) (page : Page) (wrapAtEOL : bool) (rightMargin : Z) (vertical : Z * Z) (cursorPosition : point) (state : RowWriteState) : Adapt Page :=
  match fuel with
  | O => outOfFuel
  | S fuel =>
      match text state with
      | [] => mret page
      | _ =>
          '(page, vertical, cursorPosition, limit) ← wrapPending page wrapAtEOL rightMargin vertical cursorPosition (columnLimit state);
          let before := textData state in
          state ← write_row page (pt_y cursorPosition) (mkWriteState (textData state) (text state) (pt_x cursorPosition) limit (columnEnd state) (columnBeginDirty state) (columnEndDirty state));
          let after := textData state in
          let isWrapping := columnEnd state >=? columnLimit state in
          let cursorPosition := mkPoint (if isWrapping then columnLimit state - 1 else columnEnd state) (pt_y cursorPosition) in
          on_cursor page (Cursor.SetPosition cursorPosition) ;;
          state ← (if isWrapping && (before =? after) && ((columnBegin state =? 0) || negb wrapAtEOL) then skip_grapheme state else mret state);
          (if isWrapping && wrapAtEOL then on_cursor page (quietly Cursor.DelayEOLWrap) else mret tt) ;;
          writeLoop fuel page wrapAtEOL rightMargin vertical cursorPosition state
      end
  end.

Definition _WriteToBuffer (string : wstring) : Adapt unit :=
  page ← Active;
  cursorPosition ← position_of page;
  wrapAtEOL ← GetSystemMode SystemMode.AutoWrap;
  vertical ← _GetVerticalMargins page true;
  pageWidth ← Width page;
  '(leftMargin, rightMargin) ← _GetHorizontalMargins pageWidth;
  lineWidth ← GetLineWidth isa page (pt_y cursorPosition);
  let lineWidth := if (pt_x cursorPosition <=? rightMargin) && (pt_y cursorPosition >=? fst vertical) && (pt_y cursorPosition <=? snd vertical) then Z.min lineWidth (rightMargin + 1) else lineWidth in
  page ← writeLoop turns page wrapAtEOL rightMargin vertical cursorPosition (mkWriteState textAddress string 0 lineWidth 0 0 0);
  on_page page (TextBuffer.TriggerNewTextNotification string).

Definition Print (wchPrintable : wchar_t) : Adapt unit :=
  wchTranslated ← on_termOutput (TerminalOutput.TranslateKey wchPrintable);
  if negb (wchTranslated =? 0x7f) then _WriteToBuffer [wchTranslated] else mret tt.
Definition PrintString (string : wstring) : Adapt unit :=
  translated ← on_termOutput (TerminalOutput.translateString string);
  _WriteToBuffer translated.

(** ** Renditions and character sets *)
Definition SetGraphicsRendition (options : VTParameters) : Adapt unit :=
  page ← Active;
  attr ← Attributes page;
  attr ← reads (fun _ => _ApplyGraphicsOptions options attr);
  SetAttributes page attr.
Definition SetCharacterProtectionAttribute (options : VTParameters) : Adapt unit :=
  page ← Active;
  attr ← Attributes page;
  SetAttributes page (fold_left (fun attr i => applyProtection (VTParameter.to_enum (VTParameters.at_ options i)) attr) (seq 0 (VTParameters.size options)) attr).
Definition Designate94Charset (gsetNumber charset : Z) : Adapt unit := on_termOutput (TerminalOutput.Designate94Charset (Z.to_nat gsetNumber) charset).
Definition Designate96Charset (gsetNumber charset : Z) : Adapt unit := on_termOutput (TerminalOutput.Designate96Charset (Z.to_nat gsetNumber) charset).
Definition LockingShift (gsetNumber : Z) : Adapt unit := on_termOutput (TerminalOutput.LockingShift (Z.to_nat gsetNumber)).
Definition LockingShiftRight (gsetNumber : Z) : Adapt unit := on_termOutput (TerminalOutput.LockingShiftRight (Z.to_nat gsetNumber)).
Definition SingleShift (gsetNumber : Z) : Adapt unit := on_termOutput (TerminalOutput.SingleShift (Z.to_nat gsetNumber)).
End screen.
End AdaptScreen.
