(* ===== verification/AdaptModes.v ===== *)
(** * The dispatcher: modes, resets and reports

    [AdaptDispatch] ([src/terminal/adapter/adaptDispatch.cpp]), the part that keeps the modes and reports the state. A function is an
    [option] where some of its cases concern what the dispatcher of this development does not have: the parser, the
    render settings, the sixel parser, the macros and the alternate buffer. *)
From stdpp Require Import gmap.
From S2P Require Import Prelude DispatchTypes StateMachine LineRenditions Cursor InputEvents TextAttributes Graphemes ImageSlice Row RowImages CharSets TerminalOutput TerminalInput Graphics TextBuffer Pages AdaptDispatch AdaptScreen.
From S2P Require Import ITermDispatch.

(** [DispatchTypes::ModeParams] and [ModeResponses]. *)
Module ModeParams.
Definition DECPrivateMode (n : Z) : Z := Z.lor n 0x01000000.
Definition IRM_InsertReplaceMode : Z := 4.
Definition LNM_LineFeedNewLineMode : Z := 20.
Definition DECCKM_CursorKeysMode : Z := DECPrivateMode 1.
Definition DECANM_AnsiMode : Z := DECPrivateMode 2.
Definition DECCOLM_SetNumberOfColumns : Z := DECPrivateMode 3.
Definition DECSCNM_ScreenMode : Z := DECPrivateMode 5.
Definition DECOM_OriginMode : Z := DECPrivateMode 6.
Definition DECAWM_AutoWrapMode : Z := DECPrivateMode 7.
Definition DECARM_AutoRepeatMode : Z := DECPrivateMode 8.
Definition ATT610_StartCursorBlink : Z := DECPrivateMode 12.
Definition DECTCEM_TextCursorEnableMode : Z := DECPrivateMode 25.
Definition XTERM_EnableDECCOLMSupport : Z := DECPrivateMode 40.
Definition DECPCCM_PageCursorCouplingMode : Z := DECPrivateMode 64.
Definition DECNKM_NumericKeypadMode : Z := DECPrivateMode 66.
Definition DECBKM_BackarrowKeyMode : Z := DECPrivateMode 67.
Definition DECLRMM_LeftRightMarginMode : Z := DECPrivateMode 69.
Definition DECSDM_SixelDisplayMode : Z := DECPrivateMode 80.
Definition DECECM_EraseColorMode : Z := DECPrivateMode 117.
Definition VT200_MOUSE_MODE : Z := DECPrivateMode 1000.
Definition BUTTON_EVENT_MOUSE_MODE : Z := DECPrivateMode 1002.
Definition ANY_EVENT_MOUSE_MODE : Z := DECPrivateMode 1003.
Definition FOCUS_EVENT_MODE : Z := DECPrivateMode 1004.
Definition UTF8_EXTENDED_MODE : Z := DECPrivateMode 1005.
Definition SGR_EXTENDED_MODE : Z := DECPrivateMode 1006.
Definition ALTERNATE_SCROLL : Z := DECPrivateMode 1007.
Definition ASB_AlternateScreenBuffer : Z := DECPrivateMode 1049.
Definition XTERM_BracketedPasteMode : Z := DECPrivateMode 2004.
Definition SO_SynchronizedOutput : Z := DECPrivateMode 2026.
Definition GCM_GraphemeClusterMode : Z := DECPrivateMode 2027.
Definition W32IM_Win32InputMode : Z := DECPrivateMode 9001.
End ModeParams.
Definition DECRPM_Unsupported : Z := 0.
Definition DECRPM_Enabled : Z := 1.
Definition DECRPM_Disabled : Z := 2.

Module AdaptModes.
Import AdaptDispatch AdaptScreen.
Definition set_terminalInput v ad := mkAdapt (_tabStopColumns ad) (_initDefaultTabStops ad) v (_termOutput ad) (_pages ad) (_savedCursorState ad) (_usingAltBuffer ad) (_scrollMargins ad) (_modes ad).

Section modes.
Context `{VirtualMemory} `{Allocator} `{Turns} {D : Type} `{GraphemeDetector D} (isa : Intrinsics) (address : nat -> ROW -> Z) (mutationId textAddress : Z).
Abbreviation Adapt := (M (AdaptDispatch * D)).
Abbreviation Active := (ActivePage isa address mutationId).

Definition on_input (f : TerminalInput -> TerminalInput) : Adapt unit := alter (fun ad => set_terminalInput (f (_terminalInput ad)) ad).
Definition set_input_mode (mode : Z) (enabled : bool) : Adapt unit := on_input (SetInputMode mode enabled).
Definition get_input_mode (mode : Z) : Adapt bool := asks (fun ad => GetInputMode mode (_terminalInput ad)).
Definition set_system_mode (mode : Z) (enabled : bool) : Adapt unit := on_api (Terminal.SetSystemMode mode enabled).

(** ** Setting and resetting modes *)
Definition _ModeParamsHelper (param : Z) (enable : bool) : option (Adapt unit) :=
  switch param
    [ (ModeParams.IRM_InsertReplaceMode, Some (set_mode AdaptMode.InsertReplace enable));
      (ModeParams.LNM_LineFeedNewLineMode, Some (
         system ← GetSystemMode SystemMode.LineFeed;
         input ← get_input_mode InputMode.LineFeed;
         if Bool.eqb system input then set_system_mode SystemMode.LineFeed enable ;; set_input_mode InputMode.LineFeed enable else mret tt));
      (ModeParams.DECCKM_CursorKeysMode, Some (set_input_mode InputMode.CursorKey enable));
      (ModeParams.DECANM_AnsiMode, None);
      (ModeParams.DECCOLM_SetNumberOfColumns, None);
      (ModeParams.DECSCNM_ScreenMode, None);
      (ModeParams.DECOM_OriginMode, Some (set_origin_mode isa address mutationId enable));
      (ModeParams.DECAWM_AutoWrapMode, Some (
         set_system_mode SystemMode.AutoWrap enable ;;
         (if negb enable then page ← Active; on_cursor page (quietly Cursor.ResetDelayEOLWrap) else mret tt)));
      (ModeParams.DECARM_AutoRepeatMode, Some (set_input_mode InputMode.AutoRepeat enable));
      (ModeParams.ATT610_StartCursorBlink, Some (page ← Active; on_cursor page (Cursor.SetIsBlinking enable)));
      (ModeParams.DECTCEM_TextCursorEnableMode, Some (page ← Active; on_cursor page (Cursor.SetIsVisible enable)));
      (ModeParams.XTERM_EnableDECCOLMSupport, Some (set_mode AdaptMode.AllowDECCOLM enable));
      (ModeParams.DECPCCM_PageCursorCouplingMode, Some (
         set_mode AdaptMode.PageCursorCoupling enable ;;
         (if enable then on_pages (PageManager.MakeActivePageVisible isa address mutationId) else mret tt)));
      (ModeParams.DECNKM_NumericKeypadMode, Some (set_input_mode InputMode.Keypad enable));
      (ModeParams.DECBKM_BackarrowKeyMode, Some (set_input_mode InputMode.BackarrowKey enable));
      (ModeParams.DECLRMM_LeftRightMarginMode, Some (
         set_mode AdaptMode.AllowDECSLRM enable ;;
         _DoSetLeftRightScrollingMargins isa address mutationId 0 0 false ;;
         (if enable then page ← Active; on_page page (TextBuffer.ResetLineRenditionRange isa (Top page) (Bottom page)) else mret tt)));
      (ModeParams.DECSDM_SixelDisplayMode, None);
      (ModeParams.DECECM_EraseColorMode, Some (set_mode AdaptMode.EraseColor enable));
      (ModeParams.VT200_MOUSE_MODE, Some (set_input_mode InputMode.DefaultMouseTracking enable));
      (ModeParams.BUTTON_EVENT_MOUSE_MODE, Some (set_input_mode InputMode.ButtonEventMouseTracking enable));
      (ModeParams.ANY_EVENT_MOUSE_MODE, Some (set_input_mode InputMode.AnyEventMouseTracking enable));
      (ModeParams.UTF8_EXTENDED_MODE, Some (set_input_mode InputMode.Utf8MouseEncoding enable));
      (ModeParams.SGR_EXTENDED_MODE, Some (set_input_mode InputMode.SgrMouseEncoding enable));
      (ModeParams.FOCUS_EVENT_MODE, if enable then Some (set_input_mode InputMode.FocusEvent enable) else None);
      (ModeParams.ALTERNATE_SCROLL, Some (set_input_mode InputMode.AlternateScroll enable));
      (ModeParams.ASB_AlternateScreenBuffer, None);
      (ModeParams.XTERM_BracketedPasteMode, Some (set_system_mode SystemMode.BracketedPaste enable));
      (ModeParams.SO_SynchronizedOutput, None);
      (ModeParams.GCM_GraphemeClusterMode, Some (mret tt));
      (ModeParams.W32IM_Win32InputMode, if enable then Some (set_input_mode InputMode.Win32 enable) else None) ]
    (Some (mret tt)).
Definition SetMode (param : Z) : option (Adapt unit) := _ModeParamsHelper param true.
Definition ResetMode (param : Z) : option (Adapt unit) := _ModeParamsHelper param false.

Definition mapTemp (b : bool) : Z := if b then DECRPM_Enabled else DECRPM_Disabled.
(** The mode that is tested. *)
Definition mode_state (param : Z) : option (Adapt Z) :=
  let temporary m := Some (state ← m; mret (mapTemp state)) in
  switch param
    [ (ModeParams.IRM_InsertReplaceMode, temporary (test_mode AdaptMode.InsertReplace));
      (ModeParams.LNM_LineFeedNewLineMode, Some (
         system ← GetSystemMode SystemMode.LineFeed;
         input ← get_input_mode InputMode.LineFeed;
         mret (if Bool.eqb system input then mapTemp input else DECRPM_Unsupported)));
      (ModeParams.DECCKM_CursorKeysMode, temporary (get_input_mode InputMode.CursorKey));
      (ModeParams.DECANM_AnsiMode, None);
      (ModeParams.DECCOLM_SetNumberOfColumns, temporary (test_mode AdaptMode.Column));
      (ModeParams.DECSCNM_ScreenMode, None);
      (ModeParams.DECOM_OriginMode, temporary (test_mode AdaptMode.Origin));
      (ModeParams.DECAWM_AutoWrapMode, temporary (GetSystemMode SystemMode.AutoWrap));
      (ModeParams.DECARM_AutoRepeatMode, temporary (get_input_mode InputMode.AutoRepeat));
      (ModeParams.ATT610_StartCursorBlink, temporary (page ← Active; c ← GetCursor page; mret (_isBlinking c)));
      (ModeParams.DECTCEM_TextCursorEnableMode, temporary (page ← Active; c ← GetCursor page; mret (_isVisible c)));
      (ModeParams.XTERM_EnableDECCOLMSupport, temporary (test_mode AdaptMode.AllowDECCOLM));
      (ModeParams.DECPCCM_PageCursorCouplingMode, temporary (test_mode AdaptMode.PageCursorCoupling));
      (ModeParams.DECNKM_NumericKeypadMode, temporary (get_input_mode InputMode.Keypad));
      (ModeParams.DECBKM_BackarrowKeyMode, temporary (get_input_mode InputMode.BackarrowKey));
      (ModeParams.DECLRMM_LeftRightMarginMode, temporary (test_mode AdaptMode.AllowDECSLRM));
      (ModeParams.DECSDM_SixelDisplayMode, temporary (test_mode AdaptMode.SixelDisplay));
      (ModeParams.DECECM_EraseColorMode, temporary (test_mode AdaptMode.EraseColor));
      (ModeParams.VT200_MOUSE_MODE, temporary (get_input_mode InputMode.DefaultMouseTracking));
      (ModeParams.BUTTON_EVENT_MOUSE_MODE, temporary (get_input_mode InputMode.ButtonEventMouseTracking));
      (ModeParams.ANY_EVENT_MOUSE_MODE, temporary (get_input_mode InputMode.AnyEventMouseTracking));
      (ModeParams.UTF8_EXTENDED_MODE, temporary (get_input_mode InputMode.Utf8MouseEncoding));
      (ModeParams.SGR_EXTENDED_MODE, temporary (get_input_mode InputMode.SgrMouseEncoding));
      (ModeParams.FOCUS_EVENT_MODE, temporary (get_input_mode InputMode.FocusEvent));
      (ModeParams.ALTERNATE_SCROLL, temporary (get_input_mode InputMode.AlternateScroll));
      (ModeParams.ASB_AlternateScreenBuffer, temporary (asks _usingAltBuffer));
      (ModeParams.XTERM_BracketedPasteMode, temporary (GetSystemMode SystemMode.BracketedPaste));
      (ModeParams.SO_SynchronizedOutput, None);
      (ModeParams.GCM_GraphemeClusterMode, None);
      (ModeParams.W32IM_Win32InputMode, temporary (get_input_mode InputMode.Win32)) ]
    (Some (mret DECRPM_Unsupported)).
(** The report of a mode. *)
Definition mode_report (param state : Z) : wstring :=
  let private := param >=? ModeParams.DECPrivateMode 0 in
  (if private then L "?" else []) ++ formatInt (if private then param - ModeParams.DECPrivateMode 0 else param) ++ L ";" ++ formatInt state ++ L "$y".
Definition RequestMode (param : Z) : option (Adapt unit) :=
  m ← mode_state param;
  Some (state ← m; _ReturnCsiResponse (mode_report param state)).

(** ** Input *)
Definition SetKeypadMode (fApplicationMode : bool) : Adapt unit := set_input_mode InputMode.Keypad fApplicationMode.
(** A terminal is not a ConPTY. *)
Definition SetKittyKeyboardProtocol (flags mode : VTParameter) : Adapt unit :=
  let kittyFlags := u8 (VTParameter.value_or flags 0) in
  switch (u8 (VTParameter.value_or mode 1))
    [ (1, on_input (TerminalInput.SetKittyKeyboardProtocol kittyFlags KittyReplace));
      (2, on_input (TerminalInput.SetKittyKeyboardProtocol kittyFlags KittySet));
      (3, on_input (TerminalInput.SetKittyKeyboardProtocol kittyFlags KittyReset)) ]
    (mret tt).
Definition PushKittyKeyboardProtocol (flags : VTParameter) : Adapt unit := on_input (PushKittyFlags (u8 (VTParameter.value_or flags 0))).
Definition PopKittyKeyboardProtocol (count : VTParameter) : Adapt unit := on_input (PopKittyFlags (Z.to_nat (VTParameter.value_or count 1))).
Definition QueryKittyKeyboardProtocol : Adapt unit :=
  flags ← asks (fun ad => GetKittyFlags (_terminalInput ad));
  _ReturnCsiResponse (L "?" ++ formatInt flags ++ L "u").

(** ** Character sets and resets *)
Definition AnnounceCodeStructure (ansiLevel : Z) : Adapt unit :=
  let level3 := Designate94Charset 0 (vtid "B") ;; LockingShift 0 in
  switch ansiLevel
    [ (1, Designate96Charset 1 (vtid "A") ;; LockingShiftRight 1 ;; level3);
      (2, Designate96Charset 1 (vtid "A") ;; LockingShiftRight 1 ;; level3);
      (3, level3) ]
    (mret tt).

(** Without a sixel parser. *)
Definition SoftReset : Adapt unit :=
  page ← Active;
  on_cursor page (Cursor.SetIsVisible true) ;;
  alter (fun ad => set_modes (enumset_reset (_modes ad) [AdaptMode.InsertReplace; AdaptMode.Origin; AdaptMode.AllowDECSLRM]) ad) ;;
  set_system_mode SystemMode.AutoWrap true ;;
  set_input_mode InputMode.CursorKey false ;;
  set_input_mode InputMode.Keypad false ;;
  _DoSetTopBottomScrollingMargins isa address mutationId 0 0 false ;;
  _DoSetLeftRightScrollingMargins isa address mutationId 0 0 false ;;
  alter (fun ad => set_termOutput (TerminalOutput.SoftReset (_termOutput ad)) ad) ;;
  SetGraphicsRendition isa address mutationId (VTParameters.of_params []) ;;
  SetCharacterProtectionAttribute isa address mutationId (VTParameters.of_params []) ;;
  alter (fun ad =>
    let saved := CursorState_ctor in
    set_savedCursorState (<[saved_index ad := mkCursorState (saved_Row saved) (saved_Column saved) (saved_Page saved) (IsDelayedEOLWrap saved) (IsOriginModeRelative saved) (saved_Attributes saved) (_termOutput ad)]> (_savedCursorState ad)) ad).

(** ** The style of the cursor

    That of the user is not modelled. *)
Definition SetCursorStyle (cursorStyle : Z) : option (Adapt unit) :=
  let set actualType fEnableBlinking := Some (page ← Active; on_cursor page (quietly (Cursor.SetType actualType)) ;; on_cursor page (Cursor.SetIsBlinking fEnableBlinking)) in
  switch cursorStyle
    [ (0, None); (1, set FullBox true); (2, set FullBox false); (3, set Underscore true); (4, set Underscore false); (5, set VerticalBar true); (6, set VerticalBar false) ]
    (Some (mret tt)).

(** ** Reports *)
Definition _ReturnDcsResponse (response : wstring) : Adapt unit :=
  sendC1 ← get_input_mode InputMode.SendC1;
  on_api (Terminal.ReturnResponse ((if sendC1 : bool then [0x90] else [0x1b; 0x50]) ++ response ++ (if sendC1 then [0x9c] else [0x1b; 0x5c]))).
Definition _DeviceStatusReport (parameters : wstring) : Adapt unit := _ReturnCsiResponse (parameters ++ L "n").
Definition DeviceStatusReport (statusType : Z) : option (Adapt unit) :=
  switch statusType
    [ (5, Some (_DeviceStatusReport (L "0")));
      (6, Some (_CursorPositionReport isa address mutationId false));
      (ModeParams.DECPrivateMode 6, Some (_CursorPositionReport isa address mutationId true));
      (ModeParams.DECPrivateMode 15, Some (_DeviceStatusReport (L "?13")));
      (ModeParams.DECPrivateMode 25, Some (_DeviceStatusReport (L "?23")));
      (ModeParams.DECPrivateMode 26, Some (_DeviceStatusReport (L "?27;0;0;5")));
      (ModeParams.DECPrivateMode 55, Some (_DeviceStatusReport (L "?53")));
      (ModeParams.DECPrivateMode 56, Some (_DeviceStatusReport (L "?57;0")));
      (ModeParams.DECPrivateMode 62, None);
      (ModeParams.DECPrivateMode 63, None);
      (ModeParams.DECPrivateMode 75, Some (_DeviceStatusReport (L "?70")));
      (ModeParams.DECPrivateMode 85, Some (_DeviceStatusReport (L "?83"))) ]
    (Some (mret tt)).
Definition SecondaryDeviceAttributes : Adapt unit := _ReturnCsiResponse (L ">0;10;1c").
Definition TertiaryDeviceAttributes : Adapt unit := _ReturnDcsResponse (L "!|00000000").
Definition Vt52DeviceAttributes : Adapt unit := on_api (Terminal.ReturnResponse (0x1b :: L "/Z")).
Definition RequestTerminalParameters (permission : Z) : Adapt unit :=
  switch permission [ (0, _ReturnCsiResponse (L "2;1;1;128;128;1;0x")); (1, _ReturnCsiResponse (L "3;1;1;128;128;1;0x")) ] (mret tt).
Definition YPanOffset : Z := 0.
Definition RequestDisplayedExtent : Adapt unit :=
  page ← VisiblePage isa address mutationId;
  let width := PageManager.rect_width (_viewport page) in
  let height := PageManager.rect_height (_viewport page) in
  let left := XPanOffset page + 1 in
  let top := YPanOffset + 1 in
  _ReturnCsiResponse (formatInt height ++ L ";" ++ formatInt width ++ L ";" ++ formatInt left ++ L ";" ++ formatInt top ++ L ";" ++ formatInt (_number page) ++ [0x22] ++ L "w").

(** Those of settings. *)
Definition _ReportDECSTBMSetting : Adapt unit :=
  page ← Active;
  '(marginTop, marginBottom) ← _GetVerticalMargins page false;
  _ReturnDcsResponse (L "1$r" ++ formatInt (marginTop + 1) ++ L ";" ++ formatInt (marginBottom + 1) ++ L "r").
Definition _ReportDECSLRMSetting : Adapt unit :=
  page ← Active;
  pageWidth ← Width page;
  '(marginLeft, marginRight) ← _GetHorizontalMargins pageWidth;
  _ReturnDcsResponse (L "1$r" ++ formatInt (marginLeft + 1) ++ L ";" ++ formatInt (marginRight + 1) ++ L "s").
Definition _ReportDECSCUSRSetting : Adapt unit :=
  page ← Active;
  cursor ← GetCursor page;
  let blinking := _isBlinking cursor in
  match _cursorType cursor with
  | FullBox => _ReturnDcsResponse (if blinking then L "1$r1 q" else L "1$r2 q")
  | Underscore => _ReturnDcsResponse (if blinking then L "1$r3 q" else L "1$r4 q")
  | VerticalBar => _ReturnDcsResponse (if blinking then L "1$r5 q" else L "1$r6 q")
  | _ => _ReturnDcsResponse (L "1$r0 q")
  end.
Definition _ReportDECSCASetting : Adapt unit :=
  page ← Active;
  attr ← Attributes page;
  _ReturnDcsResponse ((if TextAttribute.IsProtected attr then L "1$r1" else L "1$r0") ++ [0x22] ++ L "q").
Definition _ReportDECSACESetting : Adapt unit :=
  rectangularExtent ← test_mode AdaptMode.RectangularChangeExtent;
  _ReturnDcsResponse (if rectangularExtent : bool then L "1$r2*x" else L "1$r1*x").

(** ** Reports of tab stops, and their restoration *)
Fixpoint reportTabs (fuel : nat) (column width : Z) (need_separator : bool) : Adapt wstring :=
  if column <? width then
    match fuel with
    | O => outOfFuel
    | S fuel =>
        tab ← has_tab column;
        rest ← reportTabs fuel (column + 1) width (need_separator || tab);
        mret ((if tab : bool then (if need_separator then L "/" else []) ++ formatInt (column + 1) else []) ++ rest)
    end
  else mret [].
Definition _ReportTabStops : Adapt unit :=
  page ← Active;
  width ← Width page;
  _InitTabStopsForWidth width ;;
  stops ← reportTabs (Z.to_nat width) 0 width false;
  _ReturnDcsResponse (L "2$u" ++ stops).

(** The handler that restores them keeps the width and a column. *)
Record TabStopsHandler := mkTabStopsHandler { handler_width : Z; handler_column : Z }.
Definition _RestoreTabStops : Adapt TabStopsHandler :=
  page ← Active;
  width ← Width page;
  let width := Z.max width 132 in
  _ClearAllTabStops ;;
  _InitTabStopsForWidth width ;;
  mret (mkTabStopsHandler width 0).
Definition restoreTab (h : TabStopsHandler) (ch : wchar_t) : Adapt (TabStopsHandler * bool) :=
  if (ch >=? 0x30) && (ch <=? 0x39) then
    mret (mkTabStopsHandler (handler_width h) (Z.min (u64 (u64 (handler_column h * 10) + (ch - 0x30))) MAX_PARAMETER_VALUE), true)
  else if (ch =? 0x2f) || (ch =? 0x1b) then
    (if (handler_column h >? 1) && (handler_column h <=? handler_width h) then set_tab (handler_column h - 1) true else mret tt) ;;
    mret (mkTabStopsHandler (handler_width h) 0, negb (ch =? 0x1b))
  else mret (h, false).
(** A string for the handler, until it asks for no more. *)
Fixpoint restoreTabs (h : TabStopsHandler) (text : wstring) : Adapt unit :=
  match text with
  | [] => mret tt
  | ch :: text => '(h, continue) ← restoreTab h ch; if continue : bool then restoreTabs h text else mret tt
  end.
End modes.
End AdaptModes.
