(* ===== verification/PageTheorems.v ===== *)
(** * Pages: what holds of them

    While the size of the window does not change, the buffers of the pages that are not shown have the size of the viewport,
    and the page that is active can be asked for without an effect. *)
From stdpp Require Import gmap.
From S2P Require Import Prelude LineRenditions Cursor InputEvents TextAttributes Graphemes ImageSlice Row RowImages StateMachine TextBuffer BufferStore BufferFrame Pages.

Implicit Types (tb : TextBuffer) (pm : PageManager) (tm : Terminal) (page : Page).

Definition has_size (width height : Z) tb : Prop := _width tb = width /\ _height tb = height.
Definition cursor_in (top bottom width : Z) tb : Prop :=
  let p := Cursor.GetPosition (_cursor tb) in 0 <= pt_x p < width /\ top <= pt_y p < bottom.

(** The extent of the page that is shown. *)
Definition shown_view pm : rect := Terminal._GetMutableViewport (_api pm).
Definition shown pm : TextBuffer := Terminal._activeBuffer (_api pm).
Definition page_width pm : Z := PageManager.rect_width (shown_view pm).
Definition page_height pm : Z := PageManager.rect_height (shown_view pm).

Definition terminal_ok tm : Prop :=
  let view := Terminal._GetMutableViewport tm in
  buffer_ok (Terminal._activeBuffer tm) /\ rc_left view = 0 /\ rc_right view = _width (Terminal._activeBuffer tm) /\
  0 <= rc_top view < rc_bottom view /\ rc_bottom view <= _height (Terminal._activeBuffer tm) /\
  (Terminal._inAltBuffer tm = true -> rc_bottom view = _height (Terminal._activeBuffer tm)).

Definition is_page (n : Z) : Prop := 1 <= n <= MAX_PAGES.

(** The page that is active. *)
Definition in_background pm : bool := negb (Terminal._inAltBuffer (_api pm)) && negb (_activePageNumber pm =? _visiblePageNumber pm).
Definition active_page pm : Page :=
  if Terminal._inAltBuffer (_api pm) then mkPage Shown (shown_view pm) 1
  else if _activePageNumber pm =? _visiblePageNumber pm then mkPage Shown (shown_view pm) (_visiblePageNumber pm)
  else mkPage (Hidden (Z.to_nat (_activePageNumber pm - 1))) (mkRect 0 0 (page_width pm) (page_height pm)) (_activePageNumber pm).

Definition hidden_ok pm : Prop := forall n tb, _buffers pm !! n = Some (Some tb) -> buffer_ok tb /\ has_size (page_width pm) (page_height pm) tb.
Definition base_ok pm : Prop :=
  terminal_ok (_api pm) /\ (2 <= page_width pm /\ 2 <= page_height pm) /\ is_page (_activePageNumber pm) /\ is_page (_visiblePageNumber pm) /\
  length (_buffers pm) = Z.to_nat MAX_PAGES /\ (Terminal._inAltBuffer (_api pm) = true \/ hidden_ok pm).
Definition pages_ok pm : Prop :=
  base_ok pm /\
  (in_background pm = true -> exists tb, PageManager.buffer_at (Hidden (Z.to_nat (_activePageNumber pm - 1))) pm = Some tb).

(** The buffer of the active page. *)
Definition active_buffer pm : TextBuffer := default (shown pm) (PageManager.buffer_at (_buffer (active_page pm)) pm).

Lemma is_page_clamped n : is_page n -> Z.min (Z.max n 1) MAX_PAGES = n.
Proof. unfold is_page, MAX_PAGES. lia. Qed.
Lemma clamped_is_page n : is_page (Z.min (Z.max n 1) MAX_PAGES).
Proof. unfold is_page, MAX_PAGES. lia. Qed.

Lemma hidden_lookup n pm tb : PageManager.buffer_at (Hidden n) pm = Some tb <-> _buffers pm !! n = Some (Some tb).
Proof. cbn. destruct (_buffers pm !! n) as [[tb'|]|]; cbn; split; congruence. Qed.

(** What is known of the active page. *)
Lemma active_page_ok pm : pages_ok pm -> let page := active_page pm in
  PageManager.buffer_at (_buffer page) pm = Some (active_buffer pm) /\ buffer_ok (active_buffer pm) /\ _width (active_buffer pm) = page_width pm /\
  rc_left (_viewport page) = 0 /\ 0 <= rc_top (_viewport page) < rc_bottom (_viewport page) /\
  rc_bottom (_viewport page) <= _height (active_buffer pm) /\ rc_bottom (_viewport page) - rc_top (_viewport page) = page_height pm /\ is_page (_number page).
Proof.
  intros ((Hterm & Hw & Hact & Hvis & Hlen & Hhid) & Hback) page. pose proof Hterm as (Hb & Hleft & Hright & Hview & Hbot & _).
  assert (Hshown : let v := shown_view pm in PageManager.buffer_at Shown pm = Some (shown pm) /\ buffer_ok (shown pm) /\ _width (shown pm) = page_width pm /\
    rc_left v = 0 /\ 0 <= rc_top v < rc_bottom v /\ rc_bottom v <= _height (shown pm) /\ rc_bottom v - rc_top v = page_height pm).
  { unfold shown, page_width, page_height, shown_view, PageManager.rect_width, PageManager.rect_height in *. rewrite Hleft. split_and!; try done; lia. }
  unfold active_buffer. subst page. unfold active_page, in_background in *. destruct (Terminal._inAltBuffer (_api pm)) eqn:Halt; [|destruct (Z.eqb_spec (_activePageNumber pm) (_visiblePageNumber pm))]; cbn [_buffer _viewport _number].
  - destruct Hshown as (-> & ? & ? & ? & ? & ? & ?). cbn [default from_option id]. split_and!; try done; unfold is_page, MAX_PAGES; lia.
  - destruct Hshown as (-> & ? & ? & ? & ? & ? & ?). cbn [default from_option id]. split_and!; try done; try lia; apply Hvis.
  - destruct (Hback eq_refl) as [tb Htb]. rewrite Htb. cbn [default from_option id]. destruct Hhid as [|Hhid]; [congruence|].
    destruct (Hhid _ _ (proj1 (hidden_lookup _ _ _) Htb)) as [Hok [Hw' Hh']]. cbn [rc_left rc_top rc_right rc_bottom].
    assert (0 < page_height pm) by (unfold page_height, shown_view, PageManager.rect_height in *; lia). split_and!; try done; try lia; apply Hact.
Qed.

(** ** Changes of one buffer *)
Definition same_window pm pm' : Prop :=
  shown_view pm' = shown_view pm /\ Terminal._inAltBuffer (_api pm') = Terminal._inAltBuffer (_api pm) /\
  _activePageNumber pm' = _activePageNumber pm /\ _visiblePageNumber pm' = _visiblePageNumber pm.

Lemma same_window_refl pm : same_window pm pm.
Proof. done. Qed.
Lemma same_window_trans pm1 pm2 pm3 : same_window pm1 pm2 -> same_window pm2 pm3 -> same_window pm1 pm3.
Proof. intros (? & ? & ? & ?) (? & ? & ? & ?). unfold same_window. split_and!; congruence. Qed.

Lemma put_window ref tb pm : same_window pm (PageManager.put_buffer ref tb pm).
Proof.
  destruct ref; [|done]. unfold same_window, shown_view, PageManager.put_buffer, Terminal.set_activeBuffer, Terminal._GetMutableViewport, Terminal._inAltBuffer. cbn.
  by destruct (_altBuffer (_api pm)) eqn:E; cbn; rewrite ?E.
Qed.

Lemma put_buffer_at ref tb pm old ref' : length (_buffers pm) = Z.to_nat MAX_PAGES -> PageManager.buffer_at ref pm = Some old ->
  PageManager.buffer_at ref' (PageManager.put_buffer ref tb pm) = if decide (ref' = ref) then Some tb else PageManager.buffer_at ref' pm.
Proof.
  intros Hlen Hold. destruct ref as [|n], ref' as [|k]; cbn in *.
  - rewrite decide_True by done. unfold Terminal._activeBuffer, Terminal.set_activeBuffer. by destruct (_altBuffer (_api pm)) eqn:E; cbn; rewrite ?E.
  - by rewrite decide_False.
  - by rewrite decide_False.
  - destruct (decide (k = n)) as [->|Hne].
    + rewrite decide_True by done. assert (n < length (_buffers pm))%nat by (destruct (_buffers pm !! n) eqn:E; [by apply lookup_lt_Some in E|done]).
      by rewrite list_lookup_insert_eq.
    + rewrite decide_False by congruence. by rewrite list_lookup_insert_ne.
Qed.

Lemma put_base ref tb tb' pm : base_ok pm -> PageManager.buffer_at ref pm = Some tb -> buffer_ok tb' -> has_size (_width tb) (_height tb) tb' ->
  base_ok (PageManager.put_buffer ref tb' pm).
Proof.
  intros (Hterm & Hw & Hact & Hvis & Hlen & Hhid) Htb Hok [Hw' Hh']. pose proof (put_window ref tb' pm) as (Hview & Halt & Ha & Hv).
  unfold base_ok. unfold page_width, page_height in *. rewrite Hview, Ha, Hv, Halt.
  destruct ref as [|n].
  - injection Htb as <-. split; [|split; [done|]; split; [done|]; split; [done|]; split; [done|]].
    + unfold terminal_ok in *. unfold shown_view in Hview. rewrite Hview. assert (Hb : Terminal._activeBuffer (_api (PageManager.put_buffer Shown tb' pm)) = tb').
      { cbn. unfold Terminal._activeBuffer, Terminal.set_activeBuffer. by destruct (_altBuffer (_api pm)) eqn:E; cbn; rewrite ?E. }
      rewrite Hb, Hw', Hh', Halt. split; [done|]. apply Hterm.
    + destruct Hhid as [|Hhid]; [by left|right]. intros k x Hx. cbn in Hx. unfold page_width, page_height. rewrite Hview. by apply (Hhid k).
  - split; [done|]. split; [done|]. split; [done|]. split; [done|]. split; [cbn; by rewrite length_insert|]. destruct Hhid as [|Hhid]; [by left|right].
    intros k x Hx. cbn in Hx. apply hidden_lookup in Htb. destruct (decide (k = n)) as [->|Hne].
    + rewrite list_lookup_insert_eq in Hx by (by apply lookup_lt_Some in Htb). injection Hx as <-. split; [done|]. destruct (Hhid n tb Htb) as [_ [Hw0 Hh0]]. split; [rewrite Hw'; exact Hw0|rewrite Hh'; exact Hh0].
    + rewrite list_lookup_insert_ne in Hx by done. by apply (Hhid k).
Qed.

(** A change of the active buffer. *)
Lemma put_active pm tb' : pages_ok pm -> buffer_ok tb' -> has_size (_width (active_buffer pm)) (_height (active_buffer pm)) tb' ->
  let pm' := PageManager.put_buffer (_buffer (active_page pm)) tb' pm in
  pages_ok pm' /\ same_window pm pm' /\ active_page pm' = active_page pm /\ active_buffer pm' = tb'.
Proof.
  intros Hok Hok' Hsize pm'. destruct (active_page_ok pm Hok) as (Hat & _). pose proof Hok as [Hbase Hback]. pose proof Hbase as (_ & _ & _ & _ & Hlen & _).
  pose proof (put_window (_buffer (active_page pm)) tb' pm : same_window pm pm') as Hwin. pose proof Hwin as (Hview & Halt & Ha & Hv).
  assert (Hpage : active_page pm' = active_page pm) by (unfold active_page, page_width, page_height; by rewrite Hview, Halt, Ha, Hv).
  assert (Hat' : PageManager.buffer_at (_buffer (active_page pm)) pm' = Some tb').
  { subst pm'. rewrite (put_buffer_at _ _ _ (active_buffer pm)) by done. by rewrite decide_True. }
  split; [split|split; [done|split; [done|]]].
  - by apply (put_base _ (active_buffer pm)).
  - intros Hb. unfold in_background in *. rewrite Halt, Ha, Hv in Hb. specialize (Hback Hb). unfold active_page in Hat'. destruct (Terminal._inAltBuffer (_api pm)); [done|].
    destruct (_activePageNumber pm =? _visiblePageNumber pm); [done|]. rewrite Ha. by exists tb'.
  - unfold active_buffer. by rewrite Hpage, Hat'.
Qed.

Section pages.
Context `{VirtualMemory} `{Allocator} (isa : Intrinsics) (address : nat -> ROW -> Z) (mutationId : Z).

(** Asking for it has no effect. *)
Lemma active_page_spec pm : pages_ok pm -> PageManager.ActivePage isa address mutationId pm = (pm, Ret (active_page pm)).
Proof.
  intros Hok. pose proof Hok as ((Hterm & Hw & Hact & Hvis & Hlen & Hhid) & Hback). unfold PageManager.ActivePage, PageManager.Get. rewrite run_gets, is_page_clamped by done.
  rewrite !run_gets. unfold active_page, in_background, page_width, page_height, shown_view in *. destruct (Terminal._inAltBuffer (_api pm)) eqn:Halt; [done|].
  destruct (Z.eqb_spec (_activePageNumber pm) (_visiblePageNumber pm)) as [Heq|Hne]; [done|]. destruct (Hback eq_refl) as [tb Htb].
  unfold PageManager._getBuffer. cbv [mbind M_bind]. unfold gets. rewrite Htb. destruct Hhid as [|Hhid]; [congruence|].
  destruct (Hhid _ _ (proj1 (hidden_lookup _ _ _) Htb)) as [_ [-> ->]]. unfold page_width, page_height, shown_view. rewrite !Z.eqb_refl. done.
Qed.
End pages.

(** ** Moving to another page *)
Lemma put_hidden n tb' pm : base_ok pm -> (n < Z.to_nat MAX_PAGES)%nat -> buffer_ok tb' -> has_size (page_width pm) (page_height pm) tb' ->
  base_ok (PageManager.put_buffer (Hidden n) tb' pm) /\ PageManager.buffer_at (Hidden n) (PageManager.put_buffer (Hidden n) tb' pm) = Some tb'.
Proof.
  intros (Hterm & Hw & Hact & Hvis & Hlen & Hhid) Hn Hok Hsize. split; [|cbn; by rewrite list_lookup_insert_eq by (by rewrite Hlen)].
  split; [done|]. split; [done|]. split; [done|]. split; [done|]. split; [cbn; by rewrite length_insert|]. destruct Hhid as [|Hhid]; [by left|right].
  intros k x Hx. cbn in Hx. destruct (decide (k = n)) as [->|Hne].
  - rewrite list_lookup_insert_eq in Hx by (by rewrite Hlen). by injection Hx as <-.
  - rewrite list_lookup_insert_ne in Hx by done. by apply (Hhid k).
Qed.

Lemma buffer_ctor_spec width height attributes mutationId cursorSize active renderer : 0 < width <= 0x7fff -> 0 < height <= 0xffff ->
  exists tb, TextBuffer.TextBuffer_ctor width height attributes mutationId cursorSize active renderer = (tb, Ret tt) /\ buffer_ok tb /\ has_size width height tb.
Proof.
  intros Hw Hh. unfold TextBuffer.TextBuffer_ctor, TextBuffer._reserve. rewrite !Z.max_l by lia. rewrite !(proj2 (Z.leb_le _ _)) by lia. cbn [andb].
  eexists. rewrite !run_modify. split; [done|]. split; [|done]. split; [done|]. split; [done|]. split; cbn; lia.
Qed.

Lemma page_bounds pm : base_ok pm -> 0 < page_width pm <= 0x7fff /\ 0 < page_height pm <= 0xffff.
Proof.
  intros ((Hok & Hl & Hr & Hv & Hb & _) & Hw & _). unfold page_width, page_height, shown_view, PageManager.rect_width, PageManager.rect_height in *. destruct Hok as (? & ? & _). lia.
Qed.

(** A position of the cursor. *)
Lemma on_cursor_spec f tb : buffer_ok tb ->
  exists tb', TextBuffer.on_cursor f tb = (tb', Ret tt) /\ buffer_ok tb' /\ has_size (_width tb) (_height tb) tb' /\ _cursor tb' = fst (f (_cursor tb)) /\
    _currentAttributes tb' = _currentAttributes tb /\ _rows tb' = _rows tb /\ _firstRow tb' = _firstRow tb /\ _initialAttributes tb' = _initialAttributes tb.
Proof.
  intros Hok. unfold TextBuffer.on_cursor. rewrite run_gets, run_modify. destruct (f (_cursor tb)) as [c []]; cbn [fst snd].
  - unfold TextBuffer.NotifyPaintFrame, modify, TextBuffer.notify. cbn [_isActiveBuffer set_cursor]. destruct (_isActiveBuffer tb); eexists; done.
  - eexists. done.
Qed.
Lemma set_position_at p c : Cursor.GetPosition (fst (Cursor.SetPosition p c)) = p.
Proof. unfold Cursor.SetPosition. case_decide as Hp; [done|]. done. Qed.
Lemma set_visible_at b c : Cursor.GetPosition (fst (Cursor.SetIsVisible b c)) = Cursor.GetPosition c.
Proof. unfold Cursor.SetIsVisible. by destruct (Bool.eqb (_isVisible c) b). Qed.

Definition cursor_ok pm : Prop := let v := _viewport (active_page pm) in cursor_in (rc_top v) (rc_bottom v) (page_width pm) (active_buffer pm).
(** Buffers that are there stay. *)
Definition extends pm pm' : Prop := same_window pm pm' /\ _api pm' = _api pm /\ forall ref tb, PageManager.buffer_at ref pm = Some tb -> PageManager.buffer_at ref pm' = Some tb.

Section moving.
Context `{VirtualMemory} `{Allocator} (isa : Intrinsics) (address : nat -> ROW -> Z) (mutationId : Z).

Abbreviation hidden k := (Hidden (Z.to_nat (k - 1))).
Lemma hidden_inj j k : is_page j -> is_page k -> hidden j = hidden k -> j = k.
Proof. unfold is_page, MAX_PAGES. intros ? ? [= ?]. lia. Qed.

Lemma getBuffer_spec k pm : base_ok pm -> Terminal._inAltBuffer (_api pm) = false -> is_page k ->
  exists pm' tb, PageManager._getBuffer isa address mutationId k (page_width pm) (page_height pm) pm = (pm', Ret (hidden k)) /\
    base_ok pm' /\ extends pm pm' /\ PageManager.buffer_at (hidden k) pm' = Some tb.
Proof.
  intros Hok Halt Hk. unfold PageManager._getBuffer. rewrite run_gets. destruct (PageManager.buffer_at (hidden k) pm) as [tb|] eqn:Htb.
  - pose proof Hok as (_ & _ & _ & _ & _ & [?|Hhid]); [congruence|]. destruct (Hhid _ _ (proj1 (hidden_lookup _ _ _) Htb)) as [_ [-> ->]]. rewrite !Z.eqb_refl. cbn [andb].
    exists pm, tb. done.
  - pose proof (page_bounds pm Hok) as [Hw Hh]. destruct (buffer_ctor_spec (page_width pm) (page_height pm) TextAttribute_ctor mutationId 0 false (_renderer (Terminal._activeBuffer (_api pm))) Hw Hh) as (tb & -> & Hb & Hsize).
    destruct (put_hidden (Z.to_nat (k - 1)) tb pm Hok) as [Hok' Hat]; [unfold is_page, MAX_PAGES in *; lia|done|done|]. eexists _, tb. split; [done|]. split; [done|]. split; [|done].
    split; [done|]. split; [done|]. intros ref x Hx. destruct ref as [|n]; [done|]. cbn in *. destruct (decide (n = Z.to_nat (k - 1))) as [->|]; [congruence|]. by rewrite list_lookup_insert_ne.
Qed.

(** Two buffers. *)
Lemma on_two_spec count src dst first second tb1 tb2 pm : base_ok pm -> first <> second -> PageManager.buffer_at first pm = Some tb1 -> PageManager.buffer_at second pm = Some tb2 ->
  buffer_ok tb1 -> buffer_ok tb2 ->
  exists pm' tb1' tb2' o, PageManager.on_two first second (TextBuffer.copyRowsLoop isa address count src dst) pm = (pm', o) /\ base_ok pm' /\ same_window pm pm' /\
    kept tb1 tb1' /\ kept tb2 tb2' /\ PageManager.buffer_at first pm' = Some tb1' /\ PageManager.buffer_at second pm' = Some tb2' /\
    forall ref, ref <> first -> ref <> second -> PageManager.buffer_at ref pm' = PageManager.buffer_at ref pm.
Proof.
  intros Hok Hne H1 H2 Hb1 Hb2. unfold PageManager.on_two. rewrite H1, H2. pose proof (keeps_copyRowsLoop isa address count src dst tb1 tb2 Hb1 Hb2) as Hk.
  destruct (TextBuffer.copyRowsLoop isa address count src dst (tb1, tb2)) as [[tb1' tb2'] o]. cbn [fst snd] in Hk. destruct Hk as [Hk1 Hk2].
  pose proof Hok as (_ & _ & _ & _ & Hlen & _). set (pm1 := PageManager.put_buffer first tb1' pm).
  assert (Hok1 : base_ok pm1) by (apply (put_base _ tb1); [done|done|apply Hk1|split; apply Hk1]).
  assert (H21 : PageManager.buffer_at second pm1 = Some tb2) by (subst pm1; rewrite (put_buffer_at _ _ _ tb1) by done; by rewrite decide_False).
  pose proof Hok1 as (_ & _ & _ & _ & Hlen1 & _). exists (PageManager.put_buffer second tb2' pm1), tb1', tb2', o. split; [done|].
  split; [apply (put_base _ tb2); [done|done|apply Hk2|split; apply Hk2]|]. split; [apply (same_window_trans _ pm1); apply put_window|].
  split; [done|]. split; [done|]. split_and!.
  - rewrite (put_buffer_at _ _ _ tb2) by done. rewrite decide_False by done. subst pm1. rewrite (put_buffer_at _ _ _ tb1) by done. by rewrite decide_True.
  - rewrite (put_buffer_at _ _ _ tb2) by done. by rewrite decide_True.
  - intros ref Hr1 Hr2. rewrite (put_buffer_at _ _ _ tb2) by done. rewrite decide_False by done. subst pm1. rewrite (put_buffer_at _ _ _ tb1) by done. by rewrite decide_False.
Qed.

(** Buffers change only in their rows. *)
Definition evolves pm pm' : Prop := forall ref tb, PageManager.buffer_at ref pm = Some tb -> exists tb', PageManager.buffer_at ref pm' = Some tb' /\ kept tb tb'.

Lemma buffer_at_ok pm ref tb : base_ok pm -> Terminal._inAltBuffer (_api pm) = false -> PageManager.buffer_at ref pm = Some tb -> buffer_ok tb.
Proof.
  intros (Hterm & _ & _ & _ & _ & Hhid) Halt Htb. destruct ref as [|n]; [injection Htb as <-; apply Hterm|]. destruct Hhid as [|Hhid]; [congruence|].
  apply hidden_lookup in Htb. apply (Hhid _ _ Htb).
Qed.
Lemma extends_evolves pm pm' : base_ok pm -> Terminal._inAltBuffer (_api pm) = false -> extends pm pm' -> evolves pm pm'.
Proof. intros Hok Halt (_ & _ & He) ref tb Htb. exists tb. split; [by apply He|]. apply kept_refl. by apply (buffer_at_ok pm ref). Qed.
Lemma evolves_trans pm1 pm2 pm3 : evolves pm1 pm2 -> evolves pm2 pm3 -> evolves pm1 pm3.
Proof. intros H12 H23 ref tb Htb. destruct (H12 ref tb Htb) as (tb2 & Htb2 & Hk2). destruct (H23 ref tb2 Htb2) as (tb3 & Htb3 & Hk3). exists tb3. split; [done|]. by apply (kept_trans _ tb2). Qed.

Lemma two_evolve pm pm' first second tb1 tb2 tb1' tb2' : base_ok pm -> Terminal._inAltBuffer (_api pm) = false -> PageManager.buffer_at first pm = Some tb1 -> PageManager.buffer_at second pm = Some tb2 ->
  kept tb1 tb1' -> kept tb2 tb2' -> PageManager.buffer_at first pm' = Some tb1' -> PageManager.buffer_at second pm' = Some tb2' ->
  (forall ref, ref <> first -> ref <> second -> PageManager.buffer_at ref pm' = PageManager.buffer_at ref pm) -> evolves pm pm'.
Proof.
  intros Hok Halt H1 H2 Hk1 Hk2 H1' H2' Hrest ref tb Htb. destruct (decide (ref = first)) as [->|Hf]; [exists tb1'; split; [done|congruence]|].
  destruct (decide (ref = second)) as [->|Hs]; [exists tb2'; split; [done|congruence]|]. exists tb. rewrite Hrest by done. split; [done|]. apply kept_refl. by apply (buffer_at_ok pm ref).
Qed.

(** Unchanged page numbers: what holds of the active page still does. *)
Lemma evolved_ok pm pm' : pages_ok pm -> Terminal._inAltBuffer (_api pm) = false -> cursor_ok pm -> base_ok pm' -> same_window pm pm' -> evolves pm pm' -> pages_ok pm' /\ cursor_ok pm'.
Proof.
  intros Hok Halt Hc Hbase (Hview & Halt' & Ha & Hv) Hev. pose proof Hok as [_ Hback]. destruct (active_page_ok pm Hok) as (Hat & _). destruct (Hev _ _ Hat) as (tb' & Hat' & Hk).
  assert (Hpage : active_page pm' = active_page pm) by (unfold active_page, page_width, page_height; by rewrite Hview, Halt', Ha, Hv). split.
  - split; [done|]. intros Hb. unfold in_background in *. rewrite Halt', Ha, Hv in Hb. destruct (Hback Hb) as [tb Htb]. destruct (Hev _ _ Htb) as (x & Hx & _). rewrite Ha. by exists x.
  - unfold cursor_ok, page_width in *. rewrite Hview, Hpage. unfold active_buffer. rewrite Hpage, Hat'. cbn. destruct Hk as (_ & _ & _ & Hcur & _). unfold cursor_in in *. by rewrite Hcur.
Qed.

(** The active page has been swapped out or in. *)
Lemma swap_spec pm new : base_ok pm -> Terminal._inAltBuffer (_api pm) = false -> is_page new -> new <> _visiblePageNumber pm -> forall top,
  let '(pm', o) := (newBuffer ← PageManager._getBuffer isa address mutationId new (page_width pm) (page_height pm);
                    saveBuffer ← PageManager._getBuffer isa address mutationId (_visiblePageNumber pm) (page_width pm) (page_height pm);
                    PageManager.swapPages isa address newBuffer saveBuffer top (page_height pm) ;;
                    modify (set_visiblePageNumber new) ;;
                    mret true) pm in
  evolves pm pm' /\ exists pm0, base_ok pm0 /\ same_window pm pm0 /\
    ((o = Ret true /\ pm' = set_visiblePageNumber new pm0 /\ exists tb, PageManager.buffer_at (hidden (_visiblePageNumber pm)) pm' = Some tb) \/ ((forall a, o <> Ret a) /\ pm' = pm0)).
Proof.
  intros Hok Halt Hnew Hne top. pose proof Hok as (_ & _ & _ & Hvis & _). destruct (getBuffer_spec new pm Hok Halt Hnew) as (pm1 & tbN & Hrun1 & Hok1 & Hext1 & HatN). erewrite run_bind by exact Hrun1.
  pose proof Hext1 as ((Hview1 & Halt1 & Ha1 & Hv1) & _ & He1). assert (Halt1' : Terminal._inAltBuffer (_api pm1) = false) by congruence.
  assert (Hdim : page_width pm1 = page_width pm /\ page_height pm1 = page_height pm) by (unfold page_width, page_height; by rewrite Hview1). destruct Hdim as [Hw1 Hh1].
  destruct (getBuffer_spec (_visiblePageNumber pm) pm1 Hok1 Halt1' Hvis) as (pm2 & tbS & Hrun2 & Hok2 & Hext2 & HatS). rewrite Hw1, Hh1 in Hrun2. erewrite run_bind by exact Hrun2.
  pose proof Hext2 as (Hwin2 & _ & He2). assert (Halt2 : Terminal._inAltBuffer (_api pm2) = false) by (destruct Hwin2 as (_ & ? & _); congruence).
  assert (Hwin02 : same_window pm pm2) by (apply (same_window_trans _ pm1); [apply Hext1|done]).
  assert (Hev2 : evolves pm pm2) by (apply (evolves_trans _ pm1); by apply extends_evolves).
  assert (HneN : hidden new <> hidden (_visiblePageNumber pm)) by (intros Heq; by apply hidden_inj in Heq).
  unfold PageManager.swapPages. cbv [mbind M_bind].
  destruct (on_two_spec (Z.to_nat (page_height pm)) top 0 Shown (hidden (_visiblePageNumber pm)) (shown pm2) tbS pm2 Hok2 ltac:(done) eq_refl HatS) as (pm3 & t1 & t2 & o3 & -> & Hok3 & Hwin3 & Hk1 & Hk2 & Hat1 & Hat2 & Hrest3);
    [by apply (buffer_at_ok pm2 Shown)|by apply (buffer_at_ok pm2 (hidden (_visiblePageNumber pm)))|].
  assert (Hev3 : evolves pm pm3) by (apply (evolves_trans _ pm2); [done|]; by apply (two_evolve pm2 pm3 Shown (hidden (_visiblePageNumber pm)) (shown pm2) tbS t1 t2)).
  assert (Hwin03 : same_window pm pm3) by (by apply (same_window_trans _ pm2)). assert (Halt3 : Terminal._inAltBuffer (_api pm3) = false) by (destruct Hwin03 as (_ & ? & _); congruence).
  destruct o3 as [[]| | |]; try (split; [done|]; exists pm3; split; [done|]; split; [done|]; right; done).
  assert (HatN3 : PageManager.buffer_at (hidden new) pm3 = Some tbN) by (rewrite Hrest3 by done; by apply He2).
  destruct (on_two_spec (Z.to_nat (page_height pm)) 0 top (hidden new) Shown tbN t1 pm3 Hok3 ltac:(done) HatN3 Hat1) as (pm4 & t3 & t4 & o4 & -> & Hok4 & Hwin4 & Hk3 & Hk4 & Hat3 & Hat4 & Hrest4);
    [by apply (buffer_at_ok pm3 (hidden new))|apply Hk1|].
  assert (Hev4 : evolves pm pm4) by (apply (evolves_trans _ pm3); [done|]; by apply (two_evolve pm3 pm4 (hidden new) Shown tbN t1 t3 t4)).
  assert (Hwin04 : same_window pm pm4) by (by apply (same_window_trans _ pm3)).
  destruct o4 as [[]| | |]; try (split; [done|]; exists pm4; split; [done|]; split; [done|]; right; done).
  split; [done|]. exists pm4. split; [done|]. split; [done|]. left. split; [done|]. split; [done|]. exists t2. change (PageManager.buffer_at (hidden (_visiblePageNumber pm)) pm4 = Some t2). by rewrite Hrest4.
Qed.

Lemma copyState_spec pm old new tbO tbN oldTop newTop : base_ok pm -> Terminal._inAltBuffer (_api pm) = false -> PageManager.buffer_at old pm = Some tbO -> PageManager.buffer_at new pm = Some tbN ->
  exists pm' tb', PageManager.copyState old new oldTop newTop pm = (pm', Ret tt) /\ base_ok pm' /\ same_window pm pm' /\ PageManager.buffer_at new pm' = Some tb' /\
    Cursor.GetPosition (_cursor tb') = mkPoint (pt_x (Cursor.GetPosition (_cursor tbO))) (pt_y (Cursor.GetPosition (_cursor tbO)) - oldTop + newTop) /\
    forall ref, ref <> new -> PageManager.buffer_at ref pm' = PageManager.buffer_at ref pm.
Proof.
  intros Hok Halt HO HN. unfold PageManager.copyState. cbv [mbind M_bind]. unfold reads. rewrite HO. unfold PageManager.on_ref. rewrite HN.
  unfold TextBuffer.SetCurrentAttributes, TextBuffer.CopyProperties, modify. pose proof Hok as (_ & _ & _ & _ & Hlen & _). pose proof (buffer_at_ok pm new tbN Hok Halt HN) as HbN.
  set (t1 := set_currentAttributes _ tbN). set (pm1 := PageManager.put_buffer new t1 pm). assert (Hat1 : PageManager.buffer_at new pm1 = Some t1) by (subst pm1; rewrite (put_buffer_at _ _ _ tbN) by done; by rewrite decide_True).
  assert (Hok1 : base_ok pm1) by (by apply (put_base _ tbN)). pose proof Hok1 as (_ & _ & _ & _ & Hlen1 & _). rewrite Hat1. set (t2 := set_cursor _ t1). set (pm2 := PageManager.put_buffer new t2 pm1).
  assert (Hat2 : PageManager.buffer_at new pm2 = Some t2) by (subst pm2; rewrite (put_buffer_at _ _ _ t1) by done; by rewrite decide_True). rewrite Hat2.
  assert (Hok2 : base_ok pm2) by (by apply (put_base _ t1)). pose proof Hok2 as (_ & _ & _ & _ & Hlen2 & _).
  set (position := mkPoint _ _). destruct (on_cursor_spec (Cursor.SetPosition position) t2 HbN) as (t3 & -> & Hb3 & Hs3 & Hc3 & _). exists (PageManager.put_buffer new t3 pm2), t3.
  split; [done|]. split; [by apply (put_base _ t2)|]. split; [apply (same_window_trans _ pm2); [apply (same_window_trans _ pm1)|]; apply put_window|].
  split; [rewrite (put_buffer_at _ _ _ t2) by done; by rewrite decide_True|]. split; [rewrite Hc3; apply set_position_at|].
  intros ref Hne. rewrite (put_buffer_at _ _ _ t2) by done. rewrite decide_False by done. subst pm2. rewrite (put_buffer_at _ _ _ t1) by done. rewrite decide_False by done.
  subst pm1. rewrite (put_buffer_at _ _ _ tbN) by done. by rewrite decide_False.
Qed.

(** The page to be active has its cursor. *)
Lemma settle pm new tb : base_ok pm -> Terminal._inAltBuffer (_api pm) = false -> is_page new ->
  PageManager.buffer_at (if new =? _visiblePageNumber pm then Shown else hidden new) pm = Some tb ->
  cursor_in (if new =? _visiblePageNumber pm then rc_top (shown_view pm) else 0) (if new =? _visiblePageNumber pm then rc_bottom (shown_view pm) else page_height pm) (page_width pm) tb ->
  pages_ok (set_activePageNumber new pm) /\ cursor_ok (set_activePageNumber new pm).
Proof.
  intros (Hterm & Hw & _ & Hvis & Hlen & Hhid) Halt Hnew Htb Hc. assert (Hbase : base_ok (set_activePageNumber new pm)) by done.
  unfold pages_ok, cursor_ok, in_background, active_buffer, active_page, page_width, page_height, shown_view in *. cbn [_activePageNumber _visiblePageNumber _api set_activePageNumber] in *. rewrite Halt.
  destruct (Z.eqb_spec new (_visiblePageNumber pm)) as [Heq|Hne].
  - split; [split; [done|]; done|]. cbn [_viewport _buffer]. injection Htb as <-. done.
  - split; [split; [done|]; intros _; by exists tb|]. cbn [_viewport _buffer]. change (PageManager.buffer_at _ (set_activePageNumber new pm)) with (PageManager.buffer_at (hidden new) pm). rewrite Htb. cbn [default from_option id]. exact Hc.
Qed.

Definition moveTail (was : bool) (active new width height visibleTop : Z) (redraw : bool) : M PageManager unit :=
  visible ← gets _visiblePageNumber;
  let isVisible := new =? visible in
  (if negb was || negb isVisible then
     oldBuffer ← (if was then mret Shown else PageManager._getBuffer isa address mutationId active width height);
     newBuffer ← (if isVisible then mret Shown else PageManager._getBuffer isa address mutationId new width height);
     (if decide (oldBuffer = newBuffer) then mret tt
      else PageManager.copyState oldBuffer newBuffer (if was then visibleTop else 0) (if isVisible then visibleTop else 0)) ;;
     (if was && negb isVisible then PageManager.on_ref Shown (TextBuffer.on_cursor (Cursor.SetIsVisible false)) else mret tt)
   else mret tt) ;;
  modify (set_activePageNumber new) ;;
  (if redraw then modify (fun pm => set_api (tell RedrawAll (_api pm)) pm) else mret tt).

Lemma told_ok call pm : pages_ok pm -> cursor_ok pm -> pages_ok (set_api (tell call (_api pm)) pm) /\ cursor_ok (set_api (tell call (_api pm)) pm).
Proof. done. Qed.

(** The buffer from which the cursor comes, and that for which it is. *)
Lemma source_spec (was : bool) k pm : base_ok pm -> Terminal._inAltBuffer (_api pm) = false -> is_page k ->
  exists pm' tb, (if was then mret Shown else PageManager._getBuffer isa address mutationId k (page_width pm) (page_height pm)) pm = (pm', Ret (if was then Shown else hidden k)) /\
    base_ok pm' /\ extends pm pm' /\ PageManager.buffer_at (if was then Shown else hidden k) pm' = Some tb.
Proof. intros Hok Halt Hk. destruct was; [exists pm, (shown pm); done|]. by apply getBuffer_spec. Qed.

Lemma tail_spec (was : bool) new redraw pm tbO : base_ok pm -> Terminal._inAltBuffer (_api pm) = false -> is_page new -> let v := shown_view pm in
  PageManager.buffer_at (if was then Shown else hidden (_activePageNumber pm)) pm = Some tbO ->
  cursor_in (if was then rc_top v else 0) (if was then rc_bottom v else page_height pm) (page_width pm) tbO ->
  let '(pm', o) := moveTail was (_activePageNumber pm) new (page_width pm) (page_height pm) (rc_top v) redraw pm in
  o = Ret tt /\ pages_ok pm' /\ cursor_ok pm' /\ shown_view pm' = v /\ Terminal._inAltBuffer (_api pm') = false /\ _activePageNumber pm' = new.
Proof.
  intros Hok Halt Hnew v HO Hc. pose proof Hok as (Hterm & _ & Hact & Hvis & _). unfold moveTail. rewrite run_gets.
  assert (Hmid : let '(pm', o) := (if negb was || negb (new =? _visiblePageNumber pm) then
     oldBuffer ← (if was then mret Shown else PageManager._getBuffer isa address mutationId (_activePageNumber pm) (page_width pm) (page_height pm));
     newBuffer ← (if new =? _visiblePageNumber pm then mret Shown else PageManager._getBuffer isa address mutationId new (page_width pm) (page_height pm));
     (if decide (oldBuffer = newBuffer) then mret tt
      else PageManager.copyState oldBuffer newBuffer (if was then rc_top v else 0) (if new =? _visiblePageNumber pm then rc_top v else 0)) ;;
     (if was && negb (new =? _visiblePageNumber pm) then PageManager.on_ref Shown (TextBuffer.on_cursor (Cursor.SetIsVisible false)) else mret tt)
   else mret tt) pm in o = Ret tt /\ shown_view pm' = v /\ Terminal._inAltBuffer (_api pm') = false /\ pages_ok (set_activePageNumber new pm') /\ cursor_ok (set_activePageNumber new pm')).
  { assert (Hh : page_height pm = rc_bottom v - rc_top v) by done. destruct (Z.eqb_spec new (_visiblePageNumber pm)) as [Heq|Hne].
    - destruct was; cbn [negb orb andb].
      { injection HO as <-. split; [done|]. split; [done|]. split; [done|]. apply (settle pm new (shown pm)); rewrite ?Heq, ?Z.eqb_refl; try done; congruence. }
      destruct (source_spec false (_activePageNumber pm) pm Hok Halt Hact) as (pm1 & tb1 & Hrun & Hok1 & Hext & Hat). erewrite run_bind by exact Hrun. rewrite run_ret.
      rewrite decide_False by done. pose proof Hext as ((Hview & Halt1 & Ha1 & Hv1) & _ & He). pose proof (He _ _ HO) as HO1.
      destruct (copyState_spec pm1 (hidden (_activePageNumber pm)) Shown tbO (shown pm1) 0 (rc_top v) Hok1 ltac:(congruence) HO1 eq_refl) as (pm2 & tb2 & Hcopy & Hok2 & (Hview2 & Halt2 & _ & Hv2) & Hat2 & Hpos & _).
      erewrite run_bind by exact Hcopy. split; [done|]. split; [by rewrite Hview2, Hview|]. split; [congruence|]. apply (settle pm2 new tb2); [done|congruence|congruence|..]; rewrite Hv2, Hv1, Heq, Z.eqb_refl; [done|].
      unfold page_width. rewrite Hview2, Hview. unfold cursor_in in *. rewrite Hpos. cbn [pt_x pt_y]. fold v. unfold page_width in Hc. fold v in Hc. lia.
    - rewrite orb_true_r. destruct (source_spec was (_activePageNumber pm) pm Hok Halt Hact) as (pm1 & tb1 & Hrun & Hok1 & Hext & Hat). erewrite run_bind by exact Hrun.
      pose proof Hext as ((Hview & Halt1 & Ha1 & Hv1) & _ & He). pose proof (He _ _ HO) as HO1. assert (Hdim : page_width pm1 = page_width pm /\ page_height pm1 = page_height pm) by (unfold page_width, page_height; by rewrite Hview).
      destruct Hdim as [Hw1 Hh1]. destruct (getBuffer_spec new pm1 Hok1 ltac:(congruence) Hnew) as (pm2 & tbN & Hrun2 & Hok2 & Hext2 & HatN). rewrite Hw1, Hh1 in Hrun2. erewrite run_bind by exact Hrun2.
      pose proof Hext2 as ((Hview2 & Halt2 & Ha2 & Hv2) & _ & He2). pose proof (He2 _ _ HO1) as HO2.
      assert (Hcopied : exists pm3 tb3, (if decide ((if was then Shown else hidden (_activePageNumber pm)) = hidden new) then mret tt
          else PageManager.copyState (if was then Shown else hidden (_activePageNumber pm)) (hidden new) (if was then rc_top v else 0) 0) pm2 = (pm3, Ret tt) /\
        base_ok pm3 /\ same_window pm2 pm3 /\ PageManager.buffer_at (hidden new) pm3 = Some tb3 /\ cursor_in 0 (page_height pm) (page_width pm) tb3).
      { case_decide as Hsame.
        - exists pm2, tbO. rewrite <- Hsame. split; [done|]. split; [done|]. split; [done|]. split; [done|]. by destruct was.
        - destruct (copyState_spec pm2 (if was then Shown else hidden (_activePageNumber pm)) (hidden new) tbO tbN (if was then rc_top v else 0) 0 Hok2 ltac:(congruence) HO2 HatN) as (pm3 & tb3 & -> & Hok3 & Hwin3 & Hat3 & Hpos & _).
          exists pm3, tb3. split; [done|]. split; [done|]. split; [done|]. split; [done|]. unfold cursor_in in *. rewrite Hpos. cbn [pt_x pt_y]. destruct was; lia. }
      destruct Hcopied as (pm3 & tb3 & Hcp & Hok3 & (Hview3 & Halt3 & Ha3 & Hv3) & Hat3 & Hc3). erewrite run_bind by exact Hcp.
      assert (Hdone : forall pm4, base_ok pm4 -> same_window pm3 pm4 -> PageManager.buffer_at (hidden new) pm4 = Some tb3 ->
        shown_view pm4 = v /\ Terminal._inAltBuffer (_api pm4) = false /\ pages_ok (set_activePageNumber new pm4) /\ cursor_ok (set_activePageNumber new pm4)).
      { intros pm4 Hok4 (Hview4 & Halt4 & Ha4 & Hv4) Hat4. split; [by rewrite Hview4, Hview3, Hview2, Hview|]. split; [congruence|]. assert (Hvis4 : (new =? _visiblePageNumber pm4) = false) by (apply Z.eqb_neq; congruence).
        apply (settle pm4 new tb3); [done|congruence|done|..]; rewrite Hvis4; [done|]. unfold page_width, page_height in *. rewrite Hview4, Hview3, Hview2, Hview. exact Hc3. }
      destruct was; cbn [negb andb]; [|split; [done|]; by apply Hdone].
      unfold PageManager.on_ref. cbn [PageManager.buffer_at]. pose proof Hok3 as ((Hb3 & _) & _). destruct (on_cursor_spec (Cursor.SetIsVisible false) (Terminal._activeBuffer (_api pm3)) Hb3) as (t4 & -> & Hb4 & Hs4 & _).
      split; [done|]. apply Hdone; [by apply (put_base _ (shown pm3))|apply put_window|exact Hat3]. }
  match goal with |- context [mbind _ ?m pm] => set (mid := m) in * end. unfold mbind at 1, M_bind at 1. destruct (mid pm) as [pm1 o]. destruct Hmid as (-> & Hview & Halt1 & Hpages & Hcur). rewrite run_modify. destruct redraw; [|done]. unfold modify. done.
Qed.

(** Another page is active if the move returns, and it does unless rows have to be copied. *)
Definition brings_to_front n (makeVisible : bool) pm : bool := makeVisible && negb (Terminal._inAltBuffer (_api pm)) && negb (_visiblePageNumber pm =? Z.min (Z.max n 1) MAX_PAGES).
Lemma move_to_exact n makeVisible pm : pages_ok pm -> cursor_ok pm ->
  let '(pm', o) := PageManager.MoveTo isa address mutationId n makeVisible pm in
  (pages_ok pm' /\ cursor_ok pm' /\ shown_view pm' = shown_view pm /\ Terminal._inAltBuffer (_api pm') = Terminal._inAltBuffer (_api pm)) /\
  (o = Ret tt -> Terminal._inAltBuffer (_api pm) = false -> _activePageNumber pm' = Z.min (Z.max n 1) MAX_PAGES) /\
  (brings_to_front n makeVisible pm = false -> o = Ret tt).
Proof.
  intros Hok Hc. pose proof Hok as [Hbase Hback]. pose proof Hbase as (Hterm & _ & Hact & Hvis & _). unfold PageManager.MoveTo, brings_to_front. rewrite run_gets. destruct (Terminal._inAltBuffer (_api pm)) eqn:Halt; [by split_and!|]. cbn [negb]. rewrite andb_true_r.
  rewrite !run_gets. set (new := Z.min (Z.max n 1) MAX_PAGES). assert (Hnew : is_page new) by apply clamped_is_page. fold (shown_view pm). change (PageManager.rect_width (shown_view pm)) with (page_width pm). change (PageManager.rect_height (shown_view pm)) with (page_height pm).
  (* The source of the cursor. *)
  destruct (active_page_ok pm Hok) as (Hat & _). unfold cursor_ok, active_page in Hc. unfold active_page in Hat. rewrite Halt in Hc, Hat.
  set (was := _activePageNumber pm =? _visiblePageNumber pm) in *.
  assert (Hsrc : PageManager.buffer_at (if was then Shown else hidden (_activePageNumber pm)) pm = Some (active_buffer pm)) by (by destruct was).
  assert (Hcur : cursor_in (if was then rc_top (shown_view pm) else 0) (if was then rc_bottom (shown_view pm) else page_height pm) (page_width pm) (active_buffer pm)) by (by destruct was).
  assert (Hgo : forall (redraw : bool) pm1, base_ok pm1 -> Terminal._inAltBuffer (_api pm1) = false -> shown_view pm1 = shown_view pm -> _activePageNumber pm1 = _activePageNumber pm -> evolves pm pm1 ->
    let '(pm', o) := moveTail was (_activePageNumber pm) new (page_width pm) (page_height pm) (rc_top (shown_view pm)) redraw pm1 in
    (pages_ok pm' /\ cursor_ok pm' /\ shown_view pm' = shown_view pm /\ Terminal._inAltBuffer (_api pm') = false) /\ o = Ret tt /\ _activePageNumber pm' = new).
  { intros redraw pm1 Hok1 Halt1 Hview1 Ha1 Hev. destruct (Hev _ _ Hsrc) as (tb & Htb & _ & _ & _ & Hcu & _). pose proof (tail_spec was new redraw pm1 tb Hok1 Halt1 Hnew) as HR. cbv zeta in HR.
    unfold page_width, page_height in *. rewrite Hview1, Ha1 in HR. specialize (HR Htb). unfold cursor_in in *. rewrite Hcu in HR. specialize (HR Hcur).
    destruct (moveTail _ _ _ _ _ _ _ pm1) as [pm' o]. destruct HR as (? & ? & ? & ? & ? & ?). done. }
  assert (Hfinish : forall (redraw : bool) pm1 (b : bool), base_ok pm1 -> Terminal._inAltBuffer (_api pm1) = false -> shown_view pm1 = shown_view pm -> _activePageNumber pm1 = _activePageNumber pm -> evolves pm pm1 ->
    let '(pm', o) := moveTail was (_activePageNumber pm) new (page_width pm) (page_height pm) (rc_top (shown_view pm)) redraw pm1 in
    (pages_ok pm' /\ cursor_ok pm' /\ shown_view pm' = shown_view pm /\ Terminal._inAltBuffer (_api pm') = false) /\ (o = Ret tt -> false = false -> _activePageNumber pm' = new) /\ (b = false -> o = Ret tt)).
  { intros redraw pm1 b H1 H2 H3 H4 H5. specialize (Hgo redraw pm1 H1 H2 H3 H4 H5). destruct (moveTail _ _ _ _ _ _ _ pm1) as [pm' o]. by destruct Hgo as (? & -> & ?). }
  destruct (makeVisible && negb (_visiblePageNumber pm =? new)) eqn:Hswap.
  - apply andb_true_iff in Hswap as [_ Hne]. apply negb_true_iff, Z.eqb_neq in Hne. pose proof (swap_spec pm new Hbase Halt Hnew ltac:(congruence) (rc_top (shown_view pm))) as HR.
    match goal with |- context [mbind _ ?m pm] => set (swap := m) in * end. unfold mbind at 1, M_bind at 1. destruct (swap pm) as [pm1 o]. destruct HR as (Hev & pm0 & Hok0 & Hwin & [(-> & -> & _)|[Ho ->]]).
    + destruct Hwin as (Hview & Halt0 & Ha & Hv). apply (Hfinish true (set_visiblePageNumber new pm0) true); [|cbn; congruence|done|done|done]. destruct Hok0 as (? & ? & ? & ? & ? & ?). done.
    + destruct (evolved_ok pm pm0 Hok Halt ltac:(unfold cursor_ok, active_page; rewrite Halt; exact Hc) Hok0 Hwin Hev) as [Hp Hcc]. destruct Hwin as (Hview & Halt0 & _).
      destruct o as [a| | |]; [by destruct (Ho a)|split; [split; [done|]; split; [done|]; split; [done|congruence]|done]..].
  - rewrite run_ret. apply (Hfinish false pm false); try done. intros ref tb Htb. exists tb. split; [done|]. apply kept_refl. by apply (buffer_at_ok pm ref).
Qed.

Lemma move_to_spec n makeVisible pm : pages_ok pm -> cursor_ok pm ->
  let '(pm', o) := PageManager.MoveTo isa address mutationId n makeVisible pm in
  pages_ok pm' /\ cursor_ok pm' /\ shown_view pm' = shown_view pm /\ Terminal._inAltBuffer (_api pm') = Terminal._inAltBuffer (_api pm).
Proof. intros Hok Hc. pose proof (move_to_exact n makeVisible pm Hok Hc) as HR. destruct (PageManager.MoveTo _ _ _ _ _ pm) as [pm' o]. apply HR. Qed.
End moving.
