(* ===== verification/AdaptCursor.v ===== *)
(** * The cursor stays on the page

    What the functions of the dispatcher that move the cursor do, in terms of the buffer of the active page. *)
From stdpp Require Import gmap.
From S2P Require Import Prelude DispatchTypes StateMachine LineRenditions Cursor InputEvents TextAttributes Graphemes ImageSlice Row RowImages RowSpec RowWrite RowReplace RowInit CharSets TerminalOutput TerminalInput TextBuffer BufferStore BufferFrame BufferRefinement Pages AdaptDispatch PageTheorems.

Implicit Types (ad : AdaptDispatch) (tb : TextBuffer) (pm : PageManager).

(** ** Lines *)
Section lines.
Context `{VirtualMemory} (isa : Intrinsics).

Definition line_width tb (y : Z) : Z := Z.shiftr (_width tb) (line_scale (_lineRendition (phys isa tb (place tb y)))).

Lemma blank_rendition tb : buffer_ok tb -> _lineRendition (blank_line isa tb) = SingleWidth.
Proof.
  intros (Hw & _). unfold blank_line, TextBuffer.construct_at.
  destruct (constructed_row_is_blank isa (replicate (buffer_length (_width tb)) 0) (replicate (buffer_length (_width tb)) 0) (_width tb) (_initialAttributes tb) Hw)
    as (r & Hrun & _ & Hf); [by rewrite length_replicate..|].
  unfold buffer_length, CalculateCharOffsetsBufferSize, CalculateCharsBufferSize in *. rewrite Hrun. unfold frame in Hf. by injection Hf.
Qed.

(** A row that does not count as committed is not. *)
Lemma uncommitted_place tb y : buffer_ok tb -> TextBuffer._isRowCommitted y tb = false -> (length (_rows tb) <= place tb y)%nat.
Proof.
  intros Hok Hc. pose proof (wrapped_place tb y Hok) as Hp. pose proof Hok as (_ & Hh & Hf & _). pose proof (place_bounds tb y Hok) as Hb. unfold TextBuffer._isRowCommitted, TextBuffer.wrapped, TextBuffer._commitWatermark in *.
  set (a := _firstRow tb + y) in *. set (h := _height tb) in *.
  assert (Hmod : forall z, (if Z.rem z h <? 0 then Z.rem z h + h else Z.rem z h) = z mod h).
  { intros z. pose proof (Z.quot_rem' z h) as Hq. pose proof (Z.rem_bound_abs z h ltac:(lia)) as Hr. destruct (Z.ltb_spec (Z.rem z h) 0).
    - apply Z.mod_unique_pos with (Z.quot z h - 1); [lia|]. rewrite Z.mul_sub_distr_l. lia.
    - apply Z.mod_unique_pos with (Z.quot z h); lia. }
  rewrite Hmod in Hp, Hc. apply Z.ltb_ge in Hc. pose proof (Z.mod_pos_bound a h ltac:(lia)) as Ha. destruct (decide (a mod h = h - 1)) as [Hlast|Hlast].
  - assert ((a + 1) mod h = 0) as Hz. { replace (a + 1) with (0 + (a / h + 1) * h) by (pose proof (Z.div_mod a h ltac:(lia)); lia). rewrite Z.mod_add by lia. apply Z.mod_0_l. lia. } lia.
  - assert ((a + 1) mod h = a mod h + 1) as Hz. { pose proof (Z.div_mod a h ltac:(lia)). symmetry. apply Z.mod_unique_pos with (a / h); lia. } lia.
Qed.

Lemma lineWidth_spec tb y : buffer_ok tb ->
  (exists tb', TextBuffer.GetLineWidth isa y tb = (tb', Ret (line_width tb y)) /\ grown isa tb tb') \/ (TextBuffer.GetLineWidth isa y tb = (tb, Throw) /\ no_memory).
Proof.
  intros Hok. unfold TextBuffer.GetLineWidth, TextBuffer.IsDoubleWidthLine, TextBuffer.GetLineRendition, line_width. cbv [mbind M_bind].
  change (gets (TextBuffer._isRowCommitted y) tb) with (tb, Ret (TextBuffer._isRowCommitted y tb)). cbv beta iota.
  destruct (TextBuffer._isRowCommitted y tb) eqn:Hc; cbn [negb].
  - destruct (getRow_spec isa tb y Hok) as [(tb' & Hrun & Hg & Hp)|[Hrun Hno]]; unfold TextBuffer.GetRowByOffset; rewrite Hrun; cbv beta iota; [left|by right].
    unfold TextBuffer.on_phys, gets. rewrite (lookup_phys isa tb') by done. rewrite (grown_phys isa tb tb') by done.
    set (r := phys isa tb (place tb y)). rewrite list_insert_id by (subst r; rewrite <- (grown_phys isa tb tb') by done; by apply lookup_phys).
    replace (set_rows (_rows tb') tb') with tb' by (by destruct tb'). exists tb'. split; [|done]. unfold Row.GetLineRendition. destruct Hg as (k & -> & _). cbn [_width set_rows].
    by destruct (_lineRendition r).
  - left. exists tb. split; [|by apply grown_refl]. pose proof (uncommitted_place tb y Hok Hc) as Hp. unfold phys. rewrite lookup_ge_None_2 by done. cbn [default].
    change (from_option id (blank_line isa tb) None) with (blank_line isa tb). rewrite blank_rendition by done. done.
Qed.

Lemma line_width_bounds tb y : buffer_ok tb -> 2 <= _width tb -> 1 <= line_width tb y <= _width tb.
Proof.
  intros Hok Hw. unfold line_width. destruct (_lineRendition _); cbn [line_scale]; rewrite ?Z.shiftr_0_r; try lia; rewrite Z.shiftr_div_pow2 by lia; change (2 ^ 1) with 2;
    (split; [apply Z.div_le_lower_bound; lia|apply Z.div_le_upper_bound; lia]).
Qed.

(** Lines of buffers with the same rows, and of those that have grown. *)
Lemma same_line_width tb tb' y : _rows tb' = _rows tb -> _firstRow tb' = _firstRow tb -> _initialAttributes tb' = _initialAttributes tb -> has_size (_width tb) (_height tb) tb' ->
  line_width tb' y = line_width tb y.
Proof.
  intros Hr Hf Hi [Hw Hh]. unfold line_width, phys, place, slot, buffer_height, blank_line, TextBuffer.construct_at. by rewrite Hr, Hf, Hi, Hw, Hh.
Qed.
Lemma grown_line_width tb tb' y : grown isa tb tb' -> line_width tb' y = line_width tb y.
Proof.
  intros Hg. unfold line_width. rewrite (grown_phys isa tb tb') by done. by destruct Hg as (k & -> & _).
Qed.
End lines.

(** ** The state of the dispatcher

    Its pages are well formed, the cursor is on the active page and the margins do not begin before it. *)
Definition margins_ok (margins : rect) : Prop := 0 <= rc_left margins /\ 0 <= rc_top margins.
Definition adapt_ok ad : Prop := pages_ok (_pages ad) /\ cursor_ok (_pages ad) /\ margins_ok (_scrollMargins ad).
(** The active page is [page], and [width] columns wide. *)
Definition at_page (page : Page) (width : Z) ad : Prop := adapt_ok ad /\ active_page (_pages ad) = page /\ page_width (_pages ad) = width.
Definition on_screen (page : Page) (width : Z) (p : point) : Prop := 0 <= pt_x p < width /\ rc_top (_viewport page) <= pt_y p < rc_bottom (_viewport page).

(** Whatever its outcome, a computation keeps [I]; what it returns satisfies [Q]. *)
Definition ensures {D A} (I : AdaptDispatch -> Prop) (m : M (AdaptDispatch * D) A) (Q : A -> Prop) : Prop :=
  forall s, I (fst s) -> I (fst (fst (m s))) /\ forall a, snd (m s) = Ret a -> Q a.

Section ensuring.
Context {D : Type} (I : AdaptDispatch -> Prop).
Implicit Types (s : AdaptDispatch * D).

Lemma ensures_bind {A B} (m : M (AdaptDispatch * D) A) (k : A -> M (AdaptDispatch * D) B) Q R :
  ensures I m Q -> (forall a, Q a -> ensures I (k a) R) -> ensures I (mbind k m) R.
Proof.
  intros Hm Hk s Hs. destruct (Hm s Hs) as [HI HQ]. cbv [mbind M_bind]. destruct (m s) as [s' [a| | |]]; cbn in *; try done.
  by apply (Hk a); [apply HQ|].
Qed.
Lemma ensures_weaken {A} (m : M (AdaptDispatch * D) A) (Q R : A -> Prop) : ensures I m Q -> (forall a, Q a -> R a) -> ensures I m R.
Proof. intros Hm HQ s Hs. destruct (Hm s Hs) as [HI Ha]. split; [done|]. intros a Hr. by apply HQ, Ha. Qed.
Lemma ensures_ret {A} (a : A) (Q : A -> Prop) : Q a -> ensures I (mret a : M (AdaptDispatch * D) A) Q.
Proof. intros HQ s Hs. split; [done|]. by intros ? [= <-]. Qed.
Lemma ensures_throw {A} (Q : A -> Prop) : ensures I (throw : M (AdaptDispatch * D) A) Q.
Proof. done. Qed.
Lemma ensures_ub {A} (Q : A -> Prop) : ensures I (ub : M (AdaptDispatch * D) A) Q.
Proof. done. Qed.
Lemma ensures_fuel {A} (Q : A -> Prop) : ensures I (outOfFuel : M (AdaptDispatch * D) A) Q.
Proof. done. Qed.
Lemma ensures_asks {A} (f : AdaptDispatch -> A) (Q : A -> Prop) : (forall ad, I ad -> Q (f ad)) -> ensures I (AdaptDispatch.asks f : M (AdaptDispatch * D) A) Q.
Proof. intros HQ s Hs. split; [done|]. intros ? [= <-]. by apply HQ. Qed.
Lemma ensures_alter f : (forall ad, I ad -> I (f ad)) -> ensures I (AdaptDispatch.alter f : M (AdaptDispatch * D) unit) (fun _ => True).
Proof. intros Hf s Hs. split; [by apply Hf|done]. Qed.
End ensuring.

Create HintDb ensures.
#[export] Hint Resolve ensures_ret ensures_throw ensures_ub ensures_fuel : ensures.

Section page.
Context `{VirtualMemory} `{Allocator} {D : Type} `{GraphemeDetector D} (isa : Intrinsics) (address : nat -> ROW -> Z) (mutationId : Z).
Context (page : Page) (width : Z).
Abbreviation I := (at_page page width).
Abbreviation Adapt := (M (AdaptDispatch * D)).
Implicit Types (s : AdaptDispatch * D).

(** A computation on the buffer of the active page. *)
Lemma ensures_on_page {A} (m : M TextBuffer A) (Q : A -> Prop) :
  (forall tb, buffer_ok tb -> _width tb = width -> on_screen page width (Cursor.GetPosition (_cursor tb)) ->
     let '(tb', o) := m tb in buffer_ok tb' /\ has_size (_width tb) (_height tb) tb' /\ on_screen page width (Cursor.GetPosition (_cursor tb')) /\ forall a, o = Ret a -> Q a) ->
  ensures I (AdaptDispatch.on_page page m : Adapt A) Q.
Proof.
  intros Hm [ad d] ((Hp & Hc & Hmar) & Hpage & Hw). cbn [fst] in *. destruct (active_page_ok _ Hp) as (Hat & Hb & Hbw & _). rewrite Hpage in Hat.
  unfold AdaptDispatch.on_page, AdaptDispatch.on_pages, PageManager.on_ref. cbn [fst snd]. rewrite Hat. unfold cursor_ok in Hc. rewrite Hpage, Hw in Hc.
  specialize (Hm (active_buffer (_pages ad)) Hb ltac:(congruence) Hc). destruct (m _) as [tb' o]. destruct Hm as (Hb' & Hsize & Hc' & HQ). cbn [fst snd]. split; [|done].
  destruct (put_active (_pages ad) tb' Hp Hb' Hsize) as (Hp' & Hwin & Hpage' & Hab). rewrite Hpage in *. unfold at_page, adapt_ok. cbn [_pages set_pages _scrollMargins].
  assert (Hw' : page_width (PageManager.put_buffer (_buffer page) tb' (_pages ad)) = width) by (unfold page_width in *; destruct Hwin as (-> & _); done).
  split; [|done]. split; [done|]. split; [|done]. unfold cursor_ok. rewrite Hpage', Hab, Hw'. exact Hc'.
Qed.

Lemma ensures_reads {A} (f : TextBuffer -> A) (Q : A -> Prop) :
  (forall tb, buffer_ok tb -> _width tb = width -> on_screen page width (Cursor.GetPosition (_cursor tb)) -> Q (f tb)) -> ensures I (AdaptDispatch.on_page page (gets f) : Adapt A) Q.
Proof. intros HQ. apply ensures_on_page. intros tb Hb Hw Hc. cbn. split; [done|]. split; [done|]. split; [done|]. intros a [= <-]. by apply HQ. Qed.

Lemma ensures_active : ensures I (AdaptDispatch.ActivePage isa address mutationId : Adapt Page) (fun p => p = page).
Proof.
  intros [ad d] ((Hp & Hc & Hmar) & Hpage & Hw). unfold AdaptDispatch.ActivePage, AdaptDispatch.on_pages. cbn [fst snd]. rewrite active_page_spec by done. cbn [fst snd].
  destruct ad. split; [done|]. intros ? [= <-]. done.
Qed.
Lemma ensures_width : ensures I (AdaptDispatch.Width page : Adapt Z) (fun w => w = width).
Proof. by apply ensures_reads. Qed.
Lemma ensures_cursor : ensures I (AdaptDispatch.GetCursor page : Adapt Cursor) (fun c => on_screen page width (Cursor.GetPosition c)).
Proof. by apply ensures_reads. Qed.
Lemma ensures_position : ensures I (AdaptDispatch.position_of page : Adapt point) (on_screen page width).
Proof. eapply ensures_bind; [apply ensures_cursor|]. intros c Hc. by apply ensures_ret. Qed.
Lemma ensures_attributes : ensures I (AdaptDispatch.Attributes page : Adapt TextAttribute) (fun _ => True).
Proof. by apply ensures_reads. Qed.
Lemma ensures_set_attributes attr : ensures I (AdaptDispatch.SetAttributes page attr : Adapt unit) (fun _ => True).
Proof. apply ensures_on_page. intros tb Hb Hw Hc. cbn. done. Qed.
Lemma ensures_mode mode : ensures I (AdaptDispatch.test_mode mode : Adapt bool) (fun _ => True).
Proof. by apply ensures_asks. Qed.
Lemma ensures_on_cursor f : (forall c, on_screen page width (Cursor.GetPosition c) -> on_screen page width (Cursor.GetPosition (fst (f c)))) ->
  ensures I (AdaptDispatch.on_cursor page f : Adapt unit) (fun _ => True).
Proof.
  intros Hf. apply ensures_on_page. intros tb Hb Hw Hc. destruct (on_cursor_spec f tb Hb) as (tb' & -> & Hb' & Hs & Hcur & _).
  split; [done|]. split; [done|]. split; [|done]. rewrite Hcur. by apply Hf.
Qed.
End page.
#[export] Hint Resolve ensures_active ensures_width ensures_cursor ensures_position ensures_attributes ensures_set_attributes ensures_mode : ensures.

(** ** Functions on one page *)
Definition page_fits (page : Page) (width : Z) : Prop := 2 <= width /\ rc_top (_viewport page) + 1 < rc_bottom (_viewport page).

Section functions.
Context `{VirtualMemory} `{Allocator} {D : Type} `{GraphemeDetector D} (isa : Intrinsics) (address : nat -> ROW -> Z) (mutationId : Z).
Context (page : Page) (width : Z) (Hfits : page_fits page width).
Abbreviation I := (at_page page width).
Abbreviation Adapt := (M (AdaptDispatch * D)).
Abbreviation top := (rc_top (_viewport page)).
Abbreviation bottom := (rc_bottom (_viewport page)).

Lemma ensures_line_width row : ensures I (AdaptDispatch.GetLineWidth isa page row : Adapt Z) (fun w => 1 <= w <= width).
Proof.
  destruct Hfits as [Hw2 _]. apply ensures_on_page. intros tb Hb Hw Hc. destruct (lineWidth_spec isa tb row Hb) as [(tb' & -> & Hg)|[-> _]]; [|done].
  pose proof (grown_ok isa tb tb' Hb Hg) as Hb'. destruct Hg as (k & -> & _). split; [done|]. split; [done|]. split; [done|]. intros ? [= <-].
  pose proof (line_width_bounds isa tb row Hb). lia.
Qed.
Lemma ensures_clamped p : on_screen page width p -> ensures I (AdaptDispatch.ClampPositionWithinLine isa page p : Adapt point) (on_screen page width).
Proof.
  intros Hp. destruct Hfits as [Hw2 _]. apply ensures_on_page. intros tb Hb Hw Hc. unfold TextBuffer.ClampPositionWithinLine. cbv [mbind M_bind].
  destruct (lineWidth_spec isa tb (pt_y p) Hb) as [(tb' & -> & Hg)|[-> _]]; [|done]. pose proof (grown_ok isa tb tb' Hb Hg) as Hb'. destruct Hg as (k & -> & _).
  split; [done|]. split; [done|]. split; [done|]. intros ? [= <-]. pose proof (line_width_bounds isa tb (pt_y p) Hb). unfold on_screen in *. cbn [pt_x pt_y]. lia.
Qed.
Lemma ensures_set_position p : on_screen page width p -> ensures I (AdaptDispatch.on_cursor page (Cursor.SetPosition p) : Adapt unit) (fun _ => True).
Proof. intros Hp. apply ensures_on_cursor. intros c _. by rewrite set_position_at. Qed.

(** Margins are within the page. *)
Lemma at_page_margins margins ad : at_page page width ad -> margins_ok margins -> at_page page width (set_scrollMargins margins ad).
Proof. intros ((? & ? & ?) & ? & ?) Hm. done. Qed.

Lemma ensures_vertical absolute : ensures I (AdaptDispatch._GetVerticalMargins page absolute : Adapt (Z * Z))
  (fun m => (if absolute then top else 0) <= fst m < (if absolute then bottom else bottom - top) /\ (if absolute then top else 0) <= snd m < (if absolute then bottom else bottom - top)).
Proof.
  intros [ad d] Hs. pose proof Hs as ((Hp & Hc & Hl & Ht) & Hpage & Hw). destruct Hfits as [_ Hv]. cbn [fst snd] in *.
  unfold AdaptDispatch._GetVerticalMargins, AdaptDispatch.asks, AdaptDispatch.Height, AdaptDispatch.Top, AdaptDispatch.Bottom. rewrite run_gets. cbn [fst].
  destruct (Z.geb_spec (rc_top (_scrollMargins ad)) (bottom - top - 1)); cbv [mbind M_bind AdaptDispatch.alter modify mret M_ret gets]; cbn [fst snd _scrollMargins set_scrollMargins rc_top rc_bottom].
  - split; [by apply at_page_margins|]. intros ? [= <-]. destruct absolute; cbn [fst snd]; cbn; lia.
  - split; [done|]. intros ? [= <-]. destruct absolute, (Z.ltb_spec (rc_top (_scrollMargins ad)) (rc_bottom (_scrollMargins ad))); cbn [fst snd]; lia.
Qed.
Lemma ensures_horizontal w : 1 <= w <= width -> ensures I (AdaptDispatch._GetHorizontalMargins w : Adapt (Z * Z)) (fun m => 0 <= fst m < w /\ 0 <= snd m < w).
Proof.
  intros Hww [ad d] Hs. pose proof Hs as ((Hp & Hc & Hl & Ht) & Hpage & Hw). cbn [fst snd] in *.
  unfold AdaptDispatch._GetHorizontalMargins, AdaptDispatch.asks. rewrite run_gets. cbn [fst].
  destruct (Z.geb_spec (rc_left (_scrollMargins ad)) (w - 1)); cbv [mbind M_bind AdaptDispatch.alter modify mret M_ret gets]; cbn [fst snd _scrollMargins set_scrollMargins rc_left rc_right].
  - split; [by apply at_page_margins|]. intros ? [= <-]. cbn [fst snd]; cbn; lia.
  - split; [done|]. intros ? [= <-]. destruct (Z.ltb_spec (rc_left (_scrollMargins ad)) (rc_right (_scrollMargins ad))); cbn [fst snd]; lia.
Qed.

(** Moves. *)
Lemma moved_on_screen rows cols clampInMargins origin p vertical horizontal : on_screen page width p ->
  top <= fst vertical < bottom -> top <= snd vertical < bottom -> 0 <= fst horizontal < width -> 0 <= snd horizontal < width ->
  on_screen page width (AdaptDispatch.moved_to rows cols clampInMargins origin p top bottom width vertical horizontal).
Proof.
  intros Hp. destruct Hfits, vertical as [t b], horizontal as [l r]. cbn [fst snd]. unfold AdaptDispatch.moved_to, on_screen in *. intros.
  set (row := clamp (_ + Value rows) top (bottom - 1)). set (col := clamp (_ + Value cols) 0 (width - 1)).
  assert (top <= row <= bottom - 1) by (apply clamp_bounds; lia). assert (0 <= col <= width - 1) by (apply clamp_bounds; lia).
  destruct (clampInMargins || origin); cbn [pt_x pt_y]; [|lia]. clearbody row col.
  repeat (case_match; try lia).
Qed.

Lemma ensures_move rows cols clampInMargins : ensures I (AdaptDispatch._CursorMovePosition isa address mutationId rows cols clampInMargins : Adapt unit) (fun _ => True).
Proof.
  pose proof Hfits as [Hw2 _].
  eapply ensures_bind; [apply ensures_active|]. intros ? ->. eapply ensures_bind; [apply ensures_width|]. intros ? ->.
  eapply ensures_bind; [apply ensures_position|]. intros p Hp. eapply ensures_bind; [apply ensures_vertical|]. intros [t b] [Ht Hb].
  eapply ensures_bind; [apply ensures_horizontal; lia|]. intros [l r] [Hl Hr]. eapply ensures_bind; [apply ensures_mode|]. intros origin _.
  eapply ensures_bind; [|apply ensures_set_position]. apply ensures_clamped. by apply moved_on_screen.
Qed.

(** Tabs. *)
Lemma ensures_alters f : (forall ad, _pages (f ad) = _pages ad) -> (forall ad, margins_ok (_scrollMargins ad) -> margins_ok (_scrollMargins (f ad))) ->
  ensures I (AdaptDispatch.alter f : Adapt unit) (fun _ => True).
Proof. intros Hp Hm. apply ensures_alter. intros ad ((? & ? & ?) & ? & ?). unfold at_page, adapt_ok. rewrite Hp. by auto. Qed.
Lemma ensures_init_tabs w : ensures I (AdaptDispatch._InitTabStopsForWidth w : Adapt unit) (fun _ => True).
Proof. unfold AdaptDispatch._InitTabStopsForWidth. destruct (w <? 0); [apply ensures_throw|]. apply ensures_alters; intros ad; by case_match. Qed.
Lemma ensures_set_tab column value : ensures I (AdaptDispatch.set_tab column value : Adapt unit) (fun _ => True).
Proof. eapply ensures_bind; [by apply (ensures_asks _ _ (fun _ => True))|]. intros columns _. destruct (_ && _); [by apply ensures_alters|apply ensures_throw]. Qed.
Lemma ensures_has_tab column : ensures I (AdaptDispatch.has_tab column : Adapt bool) (fun _ => True).
Proof. eapply ensures_bind; [by apply (ensures_asks _ _ (fun _ => True))|]. intros columns _. case_match; [by apply ensures_ret|apply ensures_ub]. Qed.

Lemma ensures_tabLoop fuel step limit count : (step = 1 \/ step = -1) -> forall column done, ensures I (AdaptDispatch.tabLoop fuel step limit column done count : Adapt Z)
  (fun c => c = column \/ Z.min column limit <= c <= Z.max column limit).
Proof.
  intros Hstep. induction fuel as [|fuel IH]; intros column done; cbn [AdaptDispatch.tabLoop]; [apply ensures_fuel|].
  destruct (Z.ltb_spec 0 (step * (limit - column))); cbn [andb]; [|apply ensures_ret; by left]. destruct (done <? count); [|apply ensures_ret; by left].
  eapply ensures_bind; [apply ensures_has_tab|]. intros tab _. eapply ensures_weaken; [apply IH|]. intros c Hc. right. destruct Hstep as [-> | ->]; lia.
Qed.

Lemma ensures_set_x x : 0 <= x < width -> ensures I (AdaptDispatch.on_cursor page (Cursor.SetXPosition x) : Adapt unit) (fun _ => True).
Proof. intros Hx. apply ensures_on_cursor. intros c [Hcx Hcy]. unfold Cursor.SetXPosition. case_match; [by split|]. by split. Qed.
Lemma ensures_delay : ensures I (AdaptDispatch.on_cursor page (AdaptDispatch.quietly Cursor.DelayEOLWrap) : Adapt unit) (fun _ => True).
Proof. by apply ensures_on_cursor. Qed.

Lemma ensures_forward count : ensures I (AdaptDispatch.ForwardTab isa address mutationId count : Adapt unit) (fun _ => True).
Proof.
  eapply ensures_bind; [apply ensures_active|]. intros ? ->. eapply ensures_bind; [apply ensures_position|]. intros p [Hx Hy].
  eapply ensures_bind; [apply ensures_line_width|]. intros w Hw. eapply ensures_bind; [apply ensures_vertical|]. intros [t b] _.
  eapply ensures_bind; [by apply ensures_horizontal|]. intros [l r] [Hl Hr]. cbn [fst snd] in *. eapply ensures_bind; [apply ensures_init_tabs|]. intros _ _.
  eapply ensures_bind; [apply ensures_tabLoop; by left|]. intros c Hc. eapply ensures_bind; [apply ensures_cursor|]. intros cursor _.
  eapply ensures_bind; [apply ensures_set_x; repeat case_match; lia|]. intros _ _. destruct (Cursor.GetDelayEOLWrap cursor); [apply ensures_delay|by apply ensures_ret].
Qed.
Lemma ensures_backwards count : ensures I (AdaptDispatch.BackwardsTab isa address mutationId count : Adapt unit) (fun _ => True).
Proof.
  eapply ensures_bind; [apply ensures_active|]. intros ? ->. eapply ensures_bind; [apply ensures_position|]. intros p [Hx Hy].
  eapply ensures_bind; [apply ensures_line_width|]. intros w Hw. eapply ensures_bind; [apply ensures_vertical|]. intros [t b] _.
  eapply ensures_bind; [by apply ensures_horizontal|]. intros [l r] [Hl Hr]. cbn [fst snd] in *. eapply ensures_bind; [apply ensures_init_tabs|]. intros _ _.
  eapply ensures_bind; [apply ensures_tabLoop; by right|]. intros c Hc. apply ensures_set_x; repeat case_match; lia.
Qed.
Lemma ensures_tab_at value : ensures I ((page ← AdaptDispatch.ActivePage isa address mutationId; position ← AdaptDispatch.position_of page; width ← AdaptDispatch.Width page;
  AdaptDispatch._InitTabStopsForWidth width ;; AdaptDispatch.set_tab (pt_x position) value) : Adapt unit) (fun _ => True).
Proof.
  eapply ensures_bind; [apply ensures_active|]. intros ? ->. eapply ensures_bind; [apply ensures_position|]. intros p _. eapply ensures_bind; [apply ensures_width|]. intros ? ->.
  eapply ensures_bind; [apply ensures_init_tabs|]. intros _ _. apply ensures_set_tab.
Qed.

(** The position that is saved or reported is relative to the margins in origin mode. *)
Lemma ensures_relative (origin : bool) (p : point) : ensures I ((if origin then
    pageWidth ← AdaptDispatch.Width page; horizontal ← AdaptDispatch._GetHorizontalMargins pageWidth; vertical ← AdaptDispatch._GetVerticalMargins page false;
    mret (mkPoint (pt_x p - fst horizontal) (pt_y p - fst vertical)) else mret p) : Adapt point) (fun _ => True).
Proof.
  pose proof Hfits as [Hw2 _]. destruct origin; [|by apply ensures_ret]. eapply ensures_bind; [apply ensures_width|]. intros ? ->.
  eapply ensures_bind; [apply ensures_horizontal; lia|]. intros h _. eapply ensures_bind; [apply ensures_vertical|]. intros v _. by apply ensures_ret.
Qed.
Lemma ensures_save : ensures I (AdaptDispatch.CursorSaveState isa address mutationId : Adapt unit) (fun _ => True).
Proof.
  eapply ensures_bind; [apply ensures_active|]. intros ? ->. eapply ensures_bind; [apply ensures_position|]. intros p _. eapply ensures_bind; [apply ensures_mode|]. intros origin _.
  eapply ensures_bind; [apply ensures_relative|]. intros q _. eapply ensures_bind; [apply ensures_cursor|]. intros c _. eapply ensures_bind; [apply ensures_attributes|]. intros attr _.
  by apply ensures_alters.
Qed.
Lemma ensures_respond response : ensures I (AdaptDispatch._ReturnCsiResponse response : Adapt unit) (fun _ => True).
Proof.
  eapply ensures_bind; [by apply (ensures_asks _ _ (fun _ => True))|]. intros c1 _ [ad d] Hs. split; [|done]. destruct Hs as ((Hp & Hc & Hm) & Hpage & Hw).
  unfold AdaptDispatch.on_api, AdaptDispatch.on_pages, modify. cbn [fst snd]. unfold Terminal.ReturnResponse. by destruct c1.
Qed.
Lemma ensures_report extended : ensures I (AdaptDispatch._CursorPositionReport isa address mutationId extended : Adapt unit) (fun _ => True).
Proof.
  eapply ensures_bind; [apply ensures_active|]. intros ? ->. eapply ensures_bind; [apply ensures_position|]. intros p _. eapply ensures_bind; [apply ensures_mode|]. intros origin _.
  eapply ensures_bind; [apply (ensures_relative origin (mkPoint (pt_x p + 1) (pt_y p - top + 1)))|]. intros q _. apply ensures_respond.
Qed.

(** Margins that are set are those of the page. *)
Lemma ensures_top_bottom t b (home : bool) : 0 <= t -> ensures I (AdaptDispatch._DoSetTopBottomScrollingMargins isa address mutationId t b home : Adapt unit) (fun _ => True).
Proof.
  intros Ht. eapply ensures_bind; [apply ensures_active|]. intros ? ->. cbv zeta. match goal with |- context [if ?c then _ else mret tt] => destruct c eqn:Hset end; [|by apply ensures_ret]. apply andb_true_iff in Hset as [Hlt _].
  match goal with |- context [if ?c then (0, 0) else ?e] => assert (Hpos : 0 <= fst (if c then (0, 0) else e)) by (destruct c; cbn [fst]; repeat case_match; lia); destruct (if c then (0, 0) else e) as [x y] end.
  cbn [fst] in Hpos. eapply ensures_bind; [apply ensures_alters; [done|]; intros ad [Hl _]; by split|]. intros _ _. destruct home; [apply ensures_move|by apply ensures_ret].
Qed.
Lemma ensures_left_right l r (home : bool) : 0 <= l -> ensures I (AdaptDispatch._DoSetLeftRightScrollingMargins isa address mutationId l r home : Adapt unit) (fun _ => True).
Proof.
  intros Hl. eapply ensures_bind; [apply ensures_active|]. intros ? ->. eapply ensures_bind; [apply ensures_width|]. intros ? ->. cbv zeta. match goal with |- context [if ?c then _ else mret tt] => destruct c eqn:Hset end; [|by apply ensures_ret].
  match goal with |- context [if ?c then (0, 0) else ?e] => assert (Hpos : 0 <= fst (if c then (0, 0) else e)) by (destruct c; cbn [fst]; repeat case_match; lia); destruct (if c then (0, 0) else e) as [x y] end.
  cbn [fst] in Hpos. eapply ensures_bind; [apply ensures_alters; [done|]; intros ad [_ Ht]; by split|]. intros _ _. destruct home; [apply ensures_move|by apply ensures_ret].
Qed.
End functions.

(** ** Any page *)
Section any.
Context `{VirtualMemory} `{Allocator} {D : Type} `{GraphemeDetector D} (isa : Intrinsics) (address : nat -> ROW -> Z) (mutationId : Z).
Abbreviation Adapt := (M (AdaptDispatch * D)).
Import AdaptDispatch.

Lemma adapt_ok_page ad : adapt_ok ad -> at_page (active_page (_pages ad)) (page_width (_pages ad)) ad /\ page_fits (active_page (_pages ad)) (page_width (_pages ad)).
Proof.
  intros Hok. pose proof Hok as (Hp & _). split; [done|]. destruct (active_page_ok _ Hp) as (_ & _ & _ & _ & _ & _ & Hv & _). pose proof Hp as ((_ & [Hw Hh] & _) & _). split; [done|lia].
Qed.
(** A function that is right on any page. *)
Lemma ensures_any {A} (m : Adapt A) Q : (forall page width, page_fits page width -> ensures (at_page page width) m Q) -> ensures adapt_ok m Q.
Proof. intros Hm s Hs. destruct (adapt_ok_page _ Hs) as [Hat Hfits]. destruct (Hm _ _ Hfits s Hat) as [[Hok _] HQ]. done. Qed.

Lemma ensures_move_to m : (exists n visible, m = PageManager.MoveTo isa address mutationId n visible) -> ensures adapt_ok (on_pages m : Adapt unit) (fun _ => True).
Proof.
  intros (n & visible & ->) [ad d] (Hp & Hc & Hm). split; [|done]. pose proof (move_to_spec isa address mutationId n visible (_pages ad) Hp Hc) as HR. unfold on_pages. cbn [fst snd] in *.
  destruct (PageManager.MoveTo _ _ _ _ _ _) as [pm o]. destruct HR as (Hp' & Hc' & _). done.
Qed.
Lemma ensures_move_relative n visible : ensures adapt_ok (on_pages (PageManager.MoveRelative isa address mutationId n visible) : Adapt unit) (fun _ => True).
Proof.
  intros [ad d] Hok. change (on_pages _ (ad, d)) with (on_pages (PageManager.MoveTo isa address mutationId (_activePageNumber (_pages ad) + n) visible) (ad, d)).
  apply ensures_move_to; [|done]. by eexists _, _.
Qed.
Lemma ensures_position_home row column : ensures adapt_ok (CursorPosition isa address mutationId row column : Adapt unit) (fun _ => True).
Proof. apply ensures_any. intros. by apply ensures_move. Qed.
Lemma ensures_mode_ok mode : ensures adapt_ok (test_mode mode : Adapt bool) (fun _ => True).
Proof. by apply ensures_asks. Qed.
Lemma ensures_set_mode mode enable : ensures adapt_ok (set_mode mode enable : Adapt unit) (fun _ => True).
Proof. by apply ensures_alter. Qed.
Lemma ensures_page_position n : ensures adapt_ok (PagePositionAbsolute isa address mutationId n : Adapt unit) (fun _ => True).
Proof. eapply ensures_bind; [apply ensures_mode_ok|]. intros. apply ensures_move_to. by eexists _, _. Qed.
Lemma ensures_page_relative n : ensures adapt_ok (PagePositionRelative isa address mutationId n : Adapt unit) (fun _ => True).
Proof. eapply ensures_bind; [apply ensures_mode_ok|]. intros. apply ensures_move_relative. Qed.

Lemma ensures_restore : ensures adapt_ok (CursorRestoreState isa address mutationId : Adapt unit) (fun _ => True).
Proof.
  eapply ensures_bind; [by apply (ensures_asks _ _ (fun _ => True))|]. intros saved _. eapply ensures_bind; [apply ensures_set_mode|]. intros _ _. eapply ensures_bind; [apply ensures_page_position|]. intros _ _.
  eapply ensures_bind; [apply ensures_position_home|]. intros _ _. apply ensures_any. intros page width Hfits. eapply ensures_bind; [apply ensures_active|]. intros ? ->.
  eapply (ensures_bind _ _ _ (fun _ => True)); [destruct (IsDelayedEOLWrap saved); [by apply ensures_delay|by apply ensures_ret]|]. intros _ _. eapply ensures_bind; [apply ensures_set_attributes|]. intros _ _. by apply ensures_alters.
Qed.
End any.
