(* ===== verification/AdaptTheorems.v ===== *)
(** * What the dispatcher does

    Cursor positions and their reports, tabs and the saved state, from the source against definitions that say where the cursor is to go. *)
From stdpp Require Import gmap.
From S2P Require Import Prelude DispatchTypes StateMachine LineRenditions Cursor InputEvents TextAttributes Graphemes ImageSlice Row RowImages RowWrite RowReplace CharSets TerminalOutput TerminalInput InputInvariant TextBuffer BufferStore BufferFrame Pages AdaptDispatch PageTheorems AdaptCursor.

Implicit Types (ad : AdaptDispatch) (tb : TextBuffer) (pm : PageManager) (page : Page).

(** ** Functions run *)
Definition active ad : TextBuffer := active_buffer (_pages ad).
Definition with_buffer page tb ad : AdaptDispatch := set_pages (PageManager.put_buffer (_buffer page) tb (_pages ad)) ad.
Definition cursor_at ad : point := Cursor.GetPosition (_cursor (active ad)).

(** Margins that are beyond the page are dropped. *)
Definition settle_vertical page (m : rect) : rect := if rc_top m >=? rc_bottom (_viewport page) - rc_top (_viewport page) - 1 then mkRect (rc_left m) 0 (rc_right m) 0 else m.
Definition settle_horizontal (width : Z) (m : rect) : rect := if rc_left m >=? width - 1 then mkRect 0 (rc_top m) 0 (rc_bottom m) else m.
(** The rows and columns between margins. *)
Definition between (first last size : Z) : Z * Z := if first >=? size - 1 then (0, size - 1) else if first <? last then (first, Z.min last (size - 1)) else (0, size - 1).

Lemma settle_between page m : let size := rc_bottom (_viewport page) - rc_top (_viewport page) in
  between (rc_top (settle_vertical page m)) (rc_bottom (settle_vertical page m)) size = between (rc_top m) (rc_bottom m) size.
Proof.
  intros size. unfold settle_vertical, between. fold size. destruct (rc_top m >=? size - 1) eqn:E; cbn [rc_top rc_bottom]; rewrite ?E; [|done]. by destruct (0 >=? size - 1).
Qed.
Lemma settle_between_columns width m : between (rc_left (settle_horizontal width m)) (rc_right (settle_horizontal width m)) width = between (rc_left m) (rc_right m) width.
Proof. unfold settle_horizontal, between. destruct (rc_left m >=? width - 1) eqn:E; cbn [rc_left rc_right]; rewrite ?E; [|done]. by destruct (0 >=? width - 1). Qed.
Lemma between_bounds first last size : 0 <= first -> 1 <= size -> let b := between first last size in 0 <= fst b <= snd b /\ snd b < size.
Proof. intros Hf Hs. unfold between. destruct (Z.geb_spec first (size - 1)), (Z.ltb_spec first last); cbn [fst snd]; lia. Qed.

Section runs.
Context `{VirtualMemory} `{Allocator} {D : Type} `{GraphemeDetector D} (isa : Intrinsics) (address : nat -> ROW -> Z) (mutationId : Z).
Context (page : Page) (width : Z) {T : Type}.
Abbreviation Adapt := (M (AdaptDispatch * D)).
Implicit Types (d : D).

Lemma run_active ad d (k : Page -> Adapt T) : at_page page width ad -> mbind k (AdaptDispatch.ActivePage isa address mutationId) (ad, d) = k page (ad, d).
Proof.
  intros ((Hp & _) & Hpage & _). cbv [mbind M_bind]. unfold AdaptDispatch.ActivePage, AdaptDispatch.on_pages. cbn [fst snd]. rewrite active_page_spec by done. rewrite Hpage. by destruct ad.
Qed.
Lemma run_on_page {A} (m : M TextBuffer A) ad d : at_page page width ad -> AdaptDispatch.on_page page m (ad, d) = ((with_buffer page (fst (m (active ad))) ad, d), snd (m (active ad))).
Proof.
  intros ((Hp & _) & Hpage & _). unfold AdaptDispatch.on_page, AdaptDispatch.on_pages, PageManager.on_ref. cbn [fst snd]. destruct (active_page_ok _ Hp) as (Hat & _). rewrite Hpage in Hat. rewrite Hat.
  unfold active. by destruct (m _).
Qed.
Lemma with_same ad : at_page page width ad -> with_buffer page (active ad) ad = ad.
Proof.
  intros ((Hp & _) & Hpage & _). destruct (active_page_ok _ Hp) as (Hat & _). rewrite Hpage in Hat. unfold with_buffer, active. set (tb := active_buffer (_pages ad)) in *.
  assert (Hput : PageManager.put_buffer (_buffer page) tb (_pages ad) = _pages ad); [|rewrite Hput; by destruct ad].
  destruct (_pages ad) as [api a v bs]. destruct (_buffer page) as [|n]; cbn in *.
  - injection Hat as <-. destruct api as [mb [ab|] ? ? ? ?]; done.
  - unfold set_buffers. cbn. f_equal. apply list_insert_id. by destruct (bs !! n) as [[]|]; simplify_eq/=.
Qed.
Lemma run_read {A} (f : TextBuffer -> A) ad d (k : A -> Adapt T) : at_page page width ad -> mbind k (AdaptDispatch.on_page page (gets f)) (ad, d) = k (f (active ad)) (ad, d).
Proof. intros Hat. cbv [mbind M_bind]. rewrite run_on_page by done. cbn. by rewrite with_same. Qed.
Lemma run_width ad d (k : Z -> Adapt T) : at_page page width ad -> mbind k (AdaptDispatch.Width page) (ad, d) = k width (ad, d).
Proof. intros Hat. unfold AdaptDispatch.Width. rewrite run_read by done. destruct Hat as ((Hp & _) & _ & Hw). destruct (active_page_ok _ Hp) as (_ & _ & Hbw & _). unfold active. by rewrite Hbw, Hw. Qed.
Lemma run_position ad d (k : point -> Adapt T) : at_page page width ad -> mbind k (AdaptDispatch.position_of page) (ad, d) = k (cursor_at ad) (ad, d).
Proof.
  intros Hat. assert (Hrun : AdaptDispatch.position_of page (ad, d) = ((ad, d), Ret (cursor_at ad))); [|by apply run_bind].
  unfold AdaptDispatch.position_of, AdaptDispatch.GetCursor. cbv [mbind M_bind]. rewrite run_on_page by done. cbn. by rewrite with_same.
Qed.
Lemma run_test ad d mode (k : bool -> Adapt T) : mbind k (AdaptDispatch.test_mode mode) (ad, d) = k (enumset.test (_modes ad) mode) (ad, d).
Proof. done. Qed.
Lemma run_asks {A} ad d (f : AdaptDispatch -> A) (k : A -> Adapt T) : mbind k (AdaptDispatch.asks f) (ad, d) = k (f ad) (ad, d).
Proof. done. Qed.

Lemma run_vertical ad d absolute (k : Z * Z -> Adapt T) : let m := _scrollMargins ad in let size := rc_bottom (_viewport page) - rc_top (_viewport page) in
  let shift := if (absolute : bool) then rc_top (_viewport page) else 0 in let rows := between (rc_top m) (rc_bottom m) size in
  mbind k (AdaptDispatch._GetVerticalMargins page absolute) (ad, d) = k (fst rows + shift, snd rows + shift) (set_scrollMargins (settle_vertical page m) ad, d).
Proof.
  intros m size shift rows.
  assert (Hrun : AdaptDispatch._GetVerticalMargins page absolute (ad, d) = ((set_scrollMargins (settle_vertical page m) ad, d), Ret (fst rows + shift, snd rows + shift))); [|by apply run_bind].
  unfold AdaptDispatch._GetVerticalMargins, AdaptDispatch.Height, AdaptDispatch.Top, AdaptDispatch.Bottom, settle_vertical, between in *. subst rows shift. fold size.
  cbv [mbind M_bind AdaptDispatch.asks gets]. cbn [fst snd]. fold m. destruct (rc_top m >=? size - 1) eqn:Hbig; cbv [AdaptDispatch.alter modify mret M_ret]; cbn [fst snd _scrollMargins set_scrollMargins rc_top rc_bottom].
  - rewrite Z.ltb_irrefl. rewrite Z.min_id. destruct absolute; cbn [fst snd]; by rewrite ?Z.add_0_r.
  - replace (set_scrollMargins m ad) with ad by (by destruct ad). fold m. destruct (rc_top m <? rc_bottom m), absolute; cbn [fst snd]; by rewrite ?Z.min_id, ?Z.add_0_r.
Qed.
Lemma run_horizontal ad d w (k : Z * Z -> Adapt T) : let m := _scrollMargins ad in
  mbind k (AdaptDispatch._GetHorizontalMargins w) (ad, d) = k (between (rc_left m) (rc_right m) w) (set_scrollMargins (settle_horizontal w m) ad, d).
Proof.
  intros m. assert (Hrun : AdaptDispatch._GetHorizontalMargins w (ad, d) = ((set_scrollMargins (settle_horizontal w m) ad, d), Ret (between (rc_left m) (rc_right m) w))); [|by apply run_bind].
  unfold AdaptDispatch._GetHorizontalMargins, settle_horizontal, between. cbv [mbind M_bind AdaptDispatch.asks gets]. cbn [fst snd]. fold m.
  destruct (rc_left m >=? w - 1) eqn:Hbig; cbv [AdaptDispatch.alter modify mret M_ret]; cbn [fst snd _scrollMargins set_scrollMargins rc_left rc_right].
  - rewrite Z.ltb_irrefl. by rewrite Z.min_id.
  - replace (set_scrollMargins m ad) with ad by (by destruct ad). fold m. destruct (rc_left m <? rc_right m); by rewrite ?Z.min_id.
Qed.
End runs.

(** ** The cursor moves *)
Definition settled page width ad : AdaptDispatch := set_scrollMargins (settle_horizontal width (settle_vertical page (_scrollMargins ad))) ad.
Definition rows_between page ad : Z * Z := between (rc_top (_scrollMargins ad)) (rc_bottom (_scrollMargins ad)) (rc_bottom (_viewport page) - rc_top (_viewport page)).
Definition columns_between width ad : Z * Z := between (rc_left (_scrollMargins ad)) (rc_right (_scrollMargins ad)) width.
Definition origin_mode ad : bool := enumset.test (_modes ad) AdaptMode.Origin.

Section moves.
Context `{VirtualMemory} `{Allocator} {D : Type} `{GraphemeDetector D} (isa : Intrinsics) (address : nat -> ROW -> Z) (mutationId : Z).
Context (page : Page) (width : Z).
Abbreviation Adapt := (M (AdaptDispatch * D)).
Abbreviation top := (rc_top (_viewport page)).
Abbreviation bottom := (rc_bottom (_viewport page)).
Implicit Types (d : D).

Lemma with_at ad tb : at_page page width ad -> buffer_ok tb -> has_size (_width (active ad)) (_height (active ad)) tb -> on_screen page width (Cursor.GetPosition (_cursor tb)) ->
  at_page page width (with_buffer page tb ad) /\ active (with_buffer page tb ad) = tb.
Proof.
  intros ((Hp & Hc & Hm) & Hpage & Hw) Hb Hs Hcur. destruct (put_active (_pages ad) tb Hp Hb Hs) as (Hp' & (Hview & _) & Hpage' & Hact). rewrite Hpage in *.
  assert (Hw' : page_width (_pages (with_buffer page tb ad)) = width) by (unfold page_width in *; cbn [_pages with_buffer set_pages]; by rewrite Hview).
  split; [|done]. split; [|done]. split; [done|]. split; [|done]. unfold cursor_ok. rewrite Hw'. cbn [_pages with_buffer set_pages]. by rewrite Hpage', Hact.
Qed.
Lemma with_with ad tb tb' : with_buffer page tb' (with_buffer page tb ad) = with_buffer page tb' ad.
Proof.
  unfold with_buffer, set_pages. cbn. f_equal. destruct (_pages ad) as [[mb [ab|] ? ? ? ?] a v bs], (_buffer page) as [|n]; try done; unfold PageManager.put_buffer, set_buffers; cbn; f_equal; apply list_insert_insert_eq.
Qed.

Lemma settled_at ad : at_page page width ad -> at_page page width (settled page width ad).
Proof. intros Hat. pose proof Hat as ((_ & _ & Hl & Ht) & _). apply at_page_margins; [done|]. unfold settle_horizontal, settle_vertical. repeat case_match; done. Qed.
Lemma settled_rows ad : rows_between page (settled page width ad) = rows_between page ad.
Proof. unfold rows_between, settled. rewrite <- (settle_between page (_scrollMargins ad)). cbn [_scrollMargins set_scrollMargins]. unfold settle_horizontal. by case_match. Qed.
Lemma settled_columns ad : columns_between width (settled page width ad) = columns_between width ad.
Proof.
  unfold columns_between, settled. cbn [_scrollMargins set_scrollMargins]. rewrite settle_between_columns. unfold settle_vertical. by case_match.
Qed.
Definition target rows cols clampInMargins ad : point :=
  let r := rows_between page ad in
  AdaptDispatch.moved_to rows cols clampInMargins (origin_mode ad) (cursor_at ad) top bottom width (fst r + top, snd r + top) (columns_between width ad).

Lemma run_move rows cols clampInMargins ad d : at_page page width ad -> let p := target rows cols clampInMargins ad in
  let q := mkPoint (Z.min (pt_x p) (line_width isa (active ad) (pt_y p) - 1)) (pt_y p) in
  let '(s, o) := AdaptDispatch._CursorMovePosition isa address mutationId rows cols clampInMargins (ad, d) in
  (exists tb tb', o = Ret tt /\ s = (with_buffer page tb' (settled page width ad), d) /\ grown isa (active ad) tb /\ tb' = fst (TextBuffer.on_cursor (Cursor.SetPosition q) tb)) \/
  (o = Throw /\ no_memory).
Proof.
  intros Hat p q. unfold AdaptDispatch._CursorMovePosition. rewrite (run_active _ _ _ page width) by done. rewrite (run_width page width) by done. rewrite (run_position page width) by done.
  rewrite run_vertical, run_horizontal, run_test. cbn [_scrollMargins set_scrollMargins _modes].
  assert (Hcols : between (rc_left (settle_vertical page (_scrollMargins ad))) (rc_right (settle_vertical page (_scrollMargins ad))) width = columns_between width ad) by (unfold settle_vertical; by destruct (_ >=? _)).
  rewrite Hcols. change (set_scrollMargins _ (set_scrollMargins _ ad)) with (settled page width ad). pose proof (settled_at ad Hat) as Hat'.
  unfold AdaptDispatch.ClampPositionWithinLine. match goal with |- context [TextBuffer.ClampPositionWithinLine isa ?x] => change x with p end.
  unfold mbind at 1, M_bind at 1. rewrite (run_on_page page width) by done. change (active (settled page width ad)) with (active ad).
  unfold TextBuffer.ClampPositionWithinLine. cbv [mbind M_bind]. assert (Hb : buffer_ok (active ad)) by (destruct Hat as ((Hp & _) & _); by destruct (active_page_ok _ Hp) as (_ & ? & _)).
  destruct (lineWidth_spec isa (active ad) (pt_y p) Hb) as [(tb & -> & Hg)|[-> Hno]]; cbv [mret M_ret]; cbn [fst snd]; [|by right]. fold q.
  unfold AdaptDispatch.on_cursor. assert (Hs : has_size (_width (active ad)) (_height (active ad)) tb) by (by destruct Hg as (k & -> & _)).
  destruct (with_at (settled page width ad) tb Hat' (grown_ok isa _ _ Hb Hg) Hs) as [Hat2 Hact2].
  { destruct Hg as (k & -> & _). destruct Hat as ((_ & Hc & _) & Hpage & Hw). unfold cursor_ok in Hc. rewrite Hpage, Hw in Hc. exact Hc. }
  rewrite (run_on_page page width) by done. rewrite with_with, Hact2. destruct (on_cursor_spec (Cursor.SetPosition q) tb (grown_ok isa _ _ Hb Hg)) as (tb' & Hrun & _). rewrite Hrun.
  left. exists tb, tb'. by rewrite Hrun.
Qed.

(** Where the cursor is after a move. *)
Lemma moved_state rows cols clampInMargins ad d : at_page page width ad -> page_fits page width -> let p := target rows cols clampInMargins ad in
  let q := mkPoint (Z.min (pt_x p) (line_width isa (active ad) (pt_y p) - 1)) (pt_y p) in
  let '(s, o) := AdaptDispatch._CursorMovePosition isa address mutationId rows cols clampInMargins (ad, d) in
  (exists tb', o = Ret tt /\ s = (with_buffer page tb' (settled page width ad), d) /\ at_page page width (fst s) /\ active (fst s) = tb' /\ cursor_at (fst s) = q /\
     Cursor.GetDelayEOLWrap (_cursor tb') = None /\ (forall y, line_width isa tb' y = line_width isa (active ad) y)) \/
  (o = Throw /\ no_memory).
Proof.
  intros Hat Hfits p q. pose proof (run_move rows cols clampInMargins ad d Hat) as HR. cbv zeta in HR. fold p in HR. fold q in HR.
  pose proof (ensures_move isa address mutationId page width Hfits rows cols clampInMargins (ad, d) Hat) as [HI _].
  destruct (AdaptDispatch._CursorMovePosition _ _ _ _ _ _ _) as [s o]. destruct HR as [(tb & tb' & -> & -> & Hg & Htb)|HR]; [left|by right]. cbn [fst] in *.
  assert (Hb : buffer_ok (active ad)) by (destruct Hat as ((Hp & _) & _); by destruct (active_page_ok _ Hp) as (_ & ? & _)).
  destruct (on_cursor_spec (Cursor.SetPosition q) tb (grown_ok isa _ _ Hb Hg)) as (tb2 & Hrun & Hb2 & Hs2 & Hcur & _ & Hrows & Hfirst & Hinit). rewrite Hrun in Htb. cbn [fst] in Htb. subst tb2.
  assert (Hat2 : active (with_buffer page tb' (settled page width ad)) = tb').
  { unfold active, active_buffer. destruct HI as ((Hp' & _) & Hpage' & _). rewrite Hpage'. pose proof (settled_at ad Hat) as ((Hp & _) & Hpage & _). destruct (active_page_ok _ Hp) as (Hbat & _). rewrite Hpage in Hbat.
    cbn [_pages with_buffer set_pages]. destruct Hp as ((_ & _ & _ & _ & Hlen & _) & _). rewrite (put_buffer_at _ _ _ _ _ Hlen Hbat). by rewrite decide_True. }
  exists tb'. split; [done|]. split; [done|]. split; [done|]. split; [done|]. unfold cursor_at. rewrite Hat2, Hcur, set_position_at. split; [done|]. split; [unfold Cursor.SetPosition; by case_decide|].
  intros y. rewrite (same_line_width isa tb tb') by done. by apply grown_line_width.
Qed.
End moves.

(** ** Reports *)
Definition told ad : list TerminalCall := _told (_api (_pages ad)).
Definition csi ad : wstring := if GetInputMode InputMode.SendC1 (_terminalInput ad) then [0x9b] else [0x1b; 0x5b].
(** The rows and columns that can be addressed, from 0: those between the margins in origin mode, else the page. *)
Definition rows_addressed page ad : Z * Z := if origin_mode ad then rows_between page ad else (0, rc_bottom (_viewport page) - rc_top (_viewport page) - 1).
Definition columns_addressed width ad : Z * Z := if origin_mode ad then columns_between width ad else (0, width - 1).

Section reports.
Context `{VirtualMemory} `{Allocator} {D : Type} `{GraphemeDetector D} (isa : Intrinsics) (address : nat -> ROW -> Z) (mutationId : Z).
Context (page : Page) (width : Z).
Implicit Types (d : D).

Lemma told_with ad tb : told (with_buffer page tb ad) = told ad.
Proof. unfold told, with_buffer. cbn. destruct (_buffer page); cbn; [|done]. unfold Terminal.set_activeBuffer. by destruct (_altBuffer _). Qed.

Lemma run_respond ad d response : exists ad', AdaptDispatch._ReturnCsiResponse response (ad, d) = ((ad', d), Ret tt) /\ told ad' = told ad ++ [Response (csi ad ++ response)].
Proof.
  unfold AdaptDispatch._ReturnCsiResponse, AdaptDispatch.asks. rewrite run_gets. unfold AdaptDispatch.on_api, AdaptDispatch.on_pages, modify, told, csi. cbn [fst snd].
  eexists. split; [done|]. cbn [_pages set_pages _api set_api]. by destruct (GetInputMode _ _).
Qed.

(** The position that is reported, from 1. *)
Lemma run_report ad d : at_page page width ad -> let p := cursor_at ad in
  let row := pt_y p - rc_top (_viewport page) + 1 - fst (rows_addressed page ad) in let column := pt_x p + 1 - fst (columns_addressed width ad) in
  exists ad', AdaptDispatch._CursorPositionReport isa address mutationId false (ad, d) = ((ad', d), Ret tt) /\
    told ad' = told ad ++ [Response (csi ad ++ formatInt row ++ [0x3b] ++ formatInt column ++ [0x52])].
Proof.
  intros Hat p row column. unfold AdaptDispatch._CursorPositionReport. rewrite (run_active _ _ _ page width), (run_position page width), run_test by done.
  subst row column. unfold rows_addressed, columns_addressed. fold (origin_mode ad). unfold AdaptDispatch.Top. fold p. destruct (origin_mode ad); cbn [fst].
  - unfold mbind at 1, M_bind at 1. rewrite (run_width page width), run_horizontal, run_vertical by done. cbn [mret M_ret pt_x pt_y fst snd]. cbv [mret M_ret].
    set (ad2 := set_scrollMargins _ (set_scrollMargins _ ad)). destruct (run_respond ad2 d (formatInt (pt_y p - rc_top (_viewport page) + 1 - fst (rows_between page ad)) ++ [0x3b] ++ formatInt (pt_x p + 1 - fst (columns_between width ad)) ++ [0x52])) as (ad' & Hrun & Htold).
    exists ad'. split; [|exact Htold]. rewrite <- Hrun. cbn [_scrollMargins set_scrollMargins]. rewrite Z.add_0_r.
    assert (Hrows : between (rc_top (settle_horizontal width (_scrollMargins ad))) (rc_bottom (settle_horizontal width (_scrollMargins ad))) (rc_bottom (_viewport page) - rc_top (_viewport page)) = rows_between page ad)
      by (unfold settle_horizontal; by case_match).
    rewrite Hrows. by rewrite <- !app_assoc.
  - rewrite run_ret. cbn [pt_x pt_y]. rewrite !Z.sub_0_r. destruct (run_respond ad d (formatInt (pt_y p - rc_top (_viewport page) + 1) ++ [0x3b] ++ formatInt (pt_x p + 1) ++ [0x52])) as (ad' & Hrun & Htold).
    exists ad'. split; [|done]. rewrite <- Hrun. by rewrite <- !app_assoc.
Qed.
End reports.

Definition delayed tb : bool := match Cursor.GetDelayEOLWrap (_cursor tb) with Some _ => true | None => false end.


Section saved.
Context `{VirtualMemory} `{Allocator} {D : Type} `{GraphemeDetector D} (isa : Intrinsics) (address : nat -> ROW -> Z) (mutationId : Z).
Context (page : Page) (width : Z).
Implicit Types (d : D).




End saved.


Section restored.
Context `{VirtualMemory} `{Allocator} {D : Type} `{GraphemeDetector D} (isa : Intrinsics) (address : nat -> ROW -> Z) (mutationId : Z).
Implicit Types (d : D).




End restored.

(** ** Tabs *)

(** Whether there is a stop at a column: those that are not known yet have one at each multiple of 8, when they are initialized so. *)
Definition stop_at ad (column : Z) : bool := default (_initDefaultTabStops ad && (8 <=? Z.to_nat column)%nat && (Z.to_nat column mod 8 =? 0)%nat) (_tabStopColumns ad !! Z.to_nat column).
(** The stop that is [count] further right, or the limit; and further left. *)
Definition tab_right ad (column limit count : Z) : Z :=
  if count <=? 0 then column else default (Z.max column limit) (filter (fun c => stop_at ad c = true) (seqZ (column + 1) (limit - column)) !! Z.to_nat (count - 1)).
Definition tab_left ad (column limit count : Z) : Z :=
  if count <=? 0 then column else default (Z.min column limit) (filter (fun c => stop_at ad c = true) (reverse (seqZ limit (column - limit))) !! Z.to_nat (count - 1)).

Lemma stops_ext ad ad' (l : list Z) : (forall c, stop_at ad' c = stop_at ad c) -> filter (fun c => stop_at ad' c = true) l = filter (fun c => stop_at ad c = true) l.
Proof. intros Hs. apply list_filter_iff. intros c. by rewrite Hs. Qed.
Lemma tab_right_ext ad ad' column limit count : (forall c, stop_at ad' c = stop_at ad c) -> tab_right ad' column limit count = tab_right ad column limit count.
Proof. intros Hs. unfold tab_right. by rewrite (stops_ext ad ad'). Qed.
Lemma tab_left_ext ad ad' column limit count : (forall c, stop_at ad' c = stop_at ad c) -> tab_left ad' column limit count = tab_left ad column limit count.
Proof. intros Hs. unfold tab_left. by rewrite (stops_ext ad ad'). Qed.

Section tabs.
Context {D : Type}.
Abbreviation Adapt := (M (AdaptDispatch * D)).
Implicit Types (d : D).

(** The stops are known up to a width. *)
Definition known (width : Z) ad : Prop := width <= Z.of_nat (length (_tabStopColumns ad)).

Lemma run_init_tabs w ad d : 0 <= w -> exists columns, AdaptDispatch._InitTabStopsForWidth w (ad, d) = ((set_tabStops columns (_initDefaultTabStops ad) ad, d), Ret tt) /\
  known w (set_tabStops columns (_initDefaultTabStops ad) ad) /\ forall c, stop_at (set_tabStops columns (_initDefaultTabStops ad) ad) c = stop_at ad c.
Proof.
  intros Hw. unfold AdaptDispatch._InitTabStopsForWidth. rewrite (proj2 (Z.ltb_ge _ _) Hw). unfold AdaptDispatch.alter, modify. cbn [fst snd]. destruct (Nat.ltb_spec (length (_tabStopColumns ad)) (Z.to_nat w)) as [Hlt|Hge].
  - eexists. split; [done|]. split; [unfold known; cbn; rewrite length_app, length_map, length_seq; lia|]. intros c. unfold stop_at. cbn [_tabStopColumns _initDefaultTabStops set_tabStops].
    destruct (decide (Z.to_nat c < length (_tabStopColumns ad))%nat); [by rewrite lookup_app_l|]. rewrite lookup_app_r, (lookup_ge_None_2 (_tabStopColumns ad)) by lia. cbn [default from_option].
    rewrite list_lookup_fmap. destruct (seq _ _ !! _) as [x|] eqn:Hx; [|done]. apply lookup_seq in Hx as [-> _]. rewrite Nat.add_comm, Nat.sub_add by lia. done.
  - exists (_tabStopColumns ad). replace (set_tabStops (_tabStopColumns ad) (_initDefaultTabStops ad) ad) with ad by (by destruct ad). split; [done|]. split; [unfold known; lia|done].
Qed.
Lemma run_has_tab {T} column ad d (k : bool -> M (AdaptDispatch * D) T) : 0 <= column -> known (column + 1) ad -> mbind k (AdaptDispatch.has_tab column) (ad, d) = k (stop_at ad column) (ad, d).
Proof.
  intros Hc Hk. unfold known in Hk. assert (Hrun : AdaptDispatch.has_tab column (ad, d) = ((ad, d), Ret (stop_at ad column))); [|by apply run_bind].
  unfold AdaptDispatch.has_tab. rewrite run_asks. unfold stop_at. destruct (lookup_lt_is_Some_2 (_tabStopColumns ad) (Z.to_nat column)) as [x ->]; [lia|]. done.
Qed.

Lemma seqZ_cons' (m n : Z) : 0 < n -> seqZ m n = m :: seqZ (m + 1) (n - 1).
Proof. intros Hn. rewrite seqZ_cons by done. unfold Z.succ, Z.pred. by replace (n + -1) with (n - 1) by lia. Qed.

Lemma tabs_right fuel limit ad d : known (limit + 1) ad -> forall column performed count, 0 <= column -> Z.max 0 (limit - column) < Z.of_nat fuel ->
  AdaptDispatch.tabLoop fuel 1 limit column performed count (ad, d) = ((ad, d), Ret (tab_right ad column limit (count - performed))).
Proof.
  intros Hk. induction fuel as [|fuel IH]; intros column performed count Hc Hf; [lia|].
  cbn [AdaptDispatch.tabLoop]. rewrite Z.mul_1_l. unfold tab_right. destruct (Z.ltb_spec 0 (limit - column)) as [Hlt|Hge], (Z.ltb_spec performed count) as [Hp|Hp]; cbn [andb].
  - rewrite run_has_tab by (try lia; unfold known in *; lia). rewrite IH by lia. unfold tab_right. rewrite (seqZ_cons' (column + 1)) by lia.
    replace (limit - column - 1) with (limit - (column + 1)) by lia. rewrite filter_cons. rewrite (proj2 (Z.leb_gt (count - performed) 0)) by lia. rewrite !Z.max_r by lia.
    destruct (stop_at ad (column + 1)) eqn:Hs.
    + rewrite decide_True by done. destruct (Z.leb_spec (count - (performed + 1)) 0); [by replace (Z.to_nat (count - performed - 1)) with 0%nat by lia|].
      replace (Z.to_nat (count - performed - 1)) with (S (Z.to_nat (count - (performed + 1) - 1))) by lia. done.
    + rewrite decide_False by done. rewrite (proj2 (Z.leb_gt _ _)) by lia. done.
  - rewrite (proj2 (Z.leb_le _ _)) by lia. done.
  - rewrite (proj2 (Z.leb_gt _ _)) by lia. rewrite seqZ_nil by lia. cbn. by rewrite Z.max_l by lia.
  - rewrite (proj2 (Z.leb_le _ _)) by lia. done.
Qed.

Lemma tabs_left fuel limit ad d : 0 <= limit -> forall column performed count, known column ad -> Z.max 0 (column - limit) < Z.of_nat fuel ->
  AdaptDispatch.tabLoop fuel (-1) limit column performed count (ad, d) = ((ad, d), Ret (tab_left ad column limit (count - performed))).
Proof.
  intros Hl. induction fuel as [|fuel IH]; intros column performed count Hk Hf; [lia|].
  cbn [AdaptDispatch.tabLoop]. unfold tab_left. destruct (Z.ltb_spec 0 (-1 * (limit - column))) as [Hlt|Hge], (Z.ltb_spec performed count) as [Hp|Hp]; cbn [andb].
  - change (column + -1) with (column - 1). rewrite run_has_tab by (try lia; unfold known in *; lia). rewrite IH by (try lia; unfold known in *; lia). unfold tab_left.
    replace (column - limit) with ((column - 1 - limit) + 1) by lia. rewrite seqZ_app by lia. rewrite (seqZ_cons' (limit + (column - 1 - limit)) 1), (seqZ_nil _ (1 - 1)), reverse_snoc by lia.
    replace (limit + (column - 1 - limit)) with (column - 1) by lia. rewrite filter_cons. rewrite (proj2 (Z.leb_gt (count - performed) 0)) by lia. rewrite !Z.min_r by lia.
    destruct (stop_at ad (column - 1)) eqn:Hs.
    + rewrite decide_True by done. destruct (Z.leb_spec (count - (performed + 1)) 0); [by replace (Z.to_nat (count - performed - 1)) with 0%nat by lia|].
      replace (Z.to_nat (count - performed - 1)) with (S (Z.to_nat (count - (performed + 1) - 1))) by lia. done.
    + rewrite decide_False by done. rewrite (proj2 (Z.leb_gt _ _)) by lia. done.
  - rewrite (proj2 (Z.leb_le _ _)) by lia. done.
  - rewrite (proj2 (Z.leb_gt _ _)) by lia. rewrite seqZ_nil by lia. cbn. by rewrite Z.min_l by lia.
  - rewrite (proj2 (Z.leb_le _ _)) by lia. done.
Qed.
End tabs.

(** The cursor is put in another column, with what is pending of it. *)
Section column.
Context `{VirtualMemory} `{Allocator} {D : Type} `{GraphemeDetector D} (isa : Intrinsics) (address : nat -> ROW -> Z) (mutationId : Z).
Context (page : Page) (width : Z).
Implicit Types (d : D).

(** The width of the line of the cursor, with margins in its terms. *)
Definition measured ad (lw : Z) : AdaptDispatch := set_scrollMargins (settle_horizontal lw (settle_vertical page (_scrollMargins ad))) ad.

Lemma run_measure_line {T} row ad d (k : Z -> M (AdaptDispatch * D) T) : at_page page width ad -> let lw := line_width isa (active ad) row in
  (exists tb, grown isa (active ad) tb /\ at_page page width (with_buffer page tb ad) /\ active (with_buffer page tb ad) = tb /\
     mbind k (AdaptDispatch.GetLineWidth isa page row) (ad, d) = k lw (with_buffer page tb ad, d)) \/
  ((mbind k (AdaptDispatch.GetLineWidth isa page row) (ad, d)).2 = Throw /\ no_memory).
Proof.
  intros Hat lw. assert (Hb : buffer_ok (active ad)) by (destruct Hat as ((Hp & _) & _); by destruct (active_page_ok _ Hp) as (_ & ? & _)).
  unfold AdaptDispatch.GetLineWidth. cbv [mbind M_bind]. rewrite (run_on_page page width) by done.
  destruct (lineWidth_spec isa (active ad) row Hb) as [(tb & -> & Hg)|[-> Hno]]; cbn [fst snd]; [left|by right]. exists tb. split; [done|].
  destruct (with_at page width ad tb Hat (grown_ok isa _ _ Hb Hg)) as [Hat' Hact']; [by destruct Hg as (k' & -> & _)| |done].
  destruct Hg as (k' & -> & _). destruct Hat as ((_ & Hc & _) & Hpage & Hw). unfold cursor_ok in Hc. rewrite Hpage, Hw in Hc. exact Hc.
Qed.

Lemma measured_at ad lw : at_page page width ad -> at_page page width (measured ad lw).
Proof. intros Hat. pose proof Hat as ((_ & _ & Hl & Ht) & _). apply at_page_margins; [done|]. unfold settle_horizontal, settle_vertical. repeat case_match; done. Qed.

Lemma run_set_x {T} x ad d (k : unit -> M (AdaptDispatch * D) T) : at_page page width ad -> 0 <= x < width ->
  exists tb, mbind k (AdaptDispatch.on_cursor page (Cursor.SetXPosition x)) (ad, d) = k tt (with_buffer page tb ad, d) /\ at_page page width (with_buffer page tb ad) /\ active (with_buffer page tb ad) = tb /\
    Cursor.GetPosition (_cursor tb) = mkPoint x (pt_y (cursor_at ad)) /\ delayed tb = false.
Proof.
  intros Hat Hx. assert (Hb : buffer_ok (active ad)) by (destruct Hat as ((Hp & _) & _); by destruct (active_page_ok _ Hp) as (_ & ? & _)).
  unfold AdaptDispatch.on_cursor. cbv [mbind M_bind]. rewrite (run_on_page page width) by done. destruct (on_cursor_spec (Cursor.SetXPosition x) (active ad) Hb) as (tb & -> & Hb' & Hs & Hcur & _). cbn [fst snd].
  assert (Hpos : Cursor.GetPosition (_cursor tb) = mkPoint x (pt_y (cursor_at ad))).
  { rewrite Hcur. unfold Cursor.SetXPosition, cursor_at, Cursor.GetPosition, Cursor.ResetDelayEOLWrap. destruct (_cursor (active ad)) as [? [px py] ? ? ? ? ? ?]. cbn. destruct (Z.eqb_spec px x) as [->|]; done. }
  exists tb. split; [done|]. assert (Hdel : delayed tb = false) by (unfold delayed; rewrite Hcur; unfold Cursor.SetXPosition; by destruct (pt_x _ =? x)).
  destruct (with_at page width ad tb Hat Hb' Hs) as [Hat' Hact']; [|done]. rewrite Hpos. destruct Hat as ((_ & Hc & _) & Hpage & Hw). unfold cursor_ok in Hc. rewrite Hpage, Hw in Hc. split; [done|apply Hc].
Qed.
Lemma run_delay ad d : at_page page width ad -> exists tb, AdaptDispatch.on_cursor page (AdaptDispatch.quietly Cursor.DelayEOLWrap) (ad, d) = ((with_buffer page tb ad, d), Ret tt) /\
  active (with_buffer page tb ad) = tb /\ Cursor.GetPosition (_cursor tb) = cursor_at ad /\ delayed tb = true.
Proof.
  intros Hat. assert (Hb : buffer_ok (active ad)) by (destruct Hat as ((Hp & _) & _); by destruct (active_page_ok _ Hp) as (_ & ? & _)).
  unfold AdaptDispatch.on_cursor. rewrite (run_on_page page width) by done. destruct (on_cursor_spec (AdaptDispatch.quietly Cursor.DelayEOLWrap) (active ad) Hb) as (tb & -> & Hb' & Hs & Hcur & _). cbn [fst snd].
  exists tb. split; [done|]. assert (Hpos : Cursor.GetPosition (_cursor tb) = cursor_at ad) by (by rewrite Hcur). assert (Hdel : delayed tb = true) by (unfold delayed; by rewrite Hcur).
  destruct (with_at page width ad tb Hat Hb' Hs) as [_ Hact']; [|done]. rewrite Hpos. destruct Hat as ((_ & Hc & _) & Hpage & Hw). unfold cursor_ok in Hc. rewrite Hpage, Hw in Hc. done.
Qed.

(** Where tabs end: at the margin, for a cursor that is not beyond it in one of the rows between the margins, or at the end of the line. *)
Definition between_rows ad : bool := let rows := rows_between page ad in let y := pt_y (cursor_at ad) - rc_top (_viewport page) in (fst rows <=? y) && (y <=? snd rows).
Definition right_limit ad (lw : Z) : Z :=
  let columns := columns_between lw ad in if between_rows ad && (pt_x (cursor_at ad) <=? snd columns) then snd columns else lw - 1.
Definition left_limit ad (lw : Z) : Z :=
  let columns := columns_between lw ad in if between_rows ad && (fst columns <=? pt_x (cursor_at ad)) then fst columns else 0.

Lemma limits_bounds ad lw : at_page page width ad -> 1 <= lw -> 0 <= right_limit ad lw < lw /\ 0 <= left_limit ad lw < lw.
Proof.
  intros ((_ & _ & Hl & Ht) & _) Hlw. unfold right_limit, left_limit. pose proof (between_bounds _ (rc_right (_scrollMargins ad)) lw Hl Hlw) as Hb. fold (columns_between lw ad) in Hb. cbv zeta in Hb.
  destruct (_ && _), (_ && _); lia.
Qed.
Lemma settled_line_columns ad lw : between (rc_left (settle_vertical page (_scrollMargins ad))) (rc_right (settle_vertical page (_scrollMargins ad))) lw = columns_between lw ad.
Proof. unfold settle_vertical. by destruct (_ >=? _). Qed.
Lemma between_rows_of ad : let rows := rows_between page ad in let top := rc_top (_viewport page) in let y := pt_y (cursor_at ad) in
  (y >=? fst rows + top) && (y <=? snd rows + top) = between_rows ad.
Proof. intros rows top y. unfold between_rows. fold rows y top. rewrite Z.geb_leb. f_equal; apply eq_true_iff_eq; rewrite !Z.leb_le; lia. Qed.

Lemma tab_right_bounds ad x limit count : 0 <= x < width -> limit < width -> 0 <= tab_right ad x limit count < width.
Proof.
  intros Hx Hl. unfold tab_right. destruct (count <=? 0); [done|]. destruct (_ !! _) as [c|] eqn:Hc; cbn; [|lia].
  apply list_elem_of_lookup_2, list_elem_of_filter in Hc as [_ Hc]. apply elem_of_seqZ in Hc. lia.
Qed.
Lemma tab_left_bounds ad x limit count : 0 <= x < width -> 0 <= limit -> 0 <= tab_left ad x limit count < width.
Proof.
  intros Hx Hl. unfold tab_left. destruct (count <=? 0); [done|]. destruct (_ !! _) as [c|] eqn:Hc; cbn; [|lia].
  apply list_elem_of_lookup_2, list_elem_of_filter in Hc as [_ Hc]. apply elem_of_reverse, elem_of_seqZ in Hc. lia.
Qed.
End column.

Section tabbing.
Context `{VirtualMemory} `{Allocator} {D : Type} `{GraphemeDetector D} (isa : Intrinsics) (address : nat -> ROW -> Z) (mutationId : Z).
Context (page : Page) (width : Z).
Implicit Types (d : D).

Lemma run_last {S A} (m : M S A) s : mbind mret m s = m s.
Proof. cbv [mbind M_bind mret M_ret]. by destruct (m s) as [s' []]. Qed.
Lemma cursor_on_screen ad : at_page page width ad -> on_screen page width (cursor_at ad) /\ buffer_ok (active ad) /\ _width (active ad) = width.
Proof.
  intros ((Hp & Hc & _) & Hpage & Hw). unfold cursor_ok in Hc. rewrite Hpage, Hw in Hc. split; [exact Hc|]. destruct (active_page_ok _ Hp) as (_ & Hb & Hbw & _). split; [done|]. unfold active. congruence.
Qed.

Lemma run_forward ad d count : let x := pt_x (cursor_at ad) in let y := pt_y (cursor_at ad) in let lw := line_width isa (active ad) y in
  at_page page width ad -> page_fits page width -> x < lw ->
  let '(s, o) := AdaptDispatch.ForwardTab isa address mutationId count (ad, d) in
  (o = Ret tt /\ cursor_at (fst s) = mkPoint (tab_right ad x (right_limit page ad lw) count) y /\ delayed (active (fst s)) = delayed (active ad)) \/ (o = Throw /\ no_memory).
Proof.
  intros x y lw Hat [Hw2 _] Hx. destruct (cursor_on_screen ad Hat) as (Hon & Hb & Hbw). pose proof (line_width_bounds isa (active ad) y Hb ltac:(lia)) as Hlw. fold lw in Hlw.
  unfold AdaptDispatch.ForwardTab. rewrite (run_active _ _ _ page width), (run_position page width) by done. fold x y.
  match goal with |- context [mbind ?k (AdaptDispatch.GetLineWidth isa page y) (ad, d)] => destruct (run_measure_line isa page width y ad d k Hat) as [(tb & Hg & Hat1 & Hact1 & ->)|[Hno Hmem]] end;
    [|match type of Hno with snd ?e = _ => destruct e as [? ?] end; by right].
  fold lw. set (ad1 := with_buffer page tb ad) in *.
  assert (Hcur1 : cursor_at ad1 = cursor_at ad) by (unfold cursor_at; rewrite Hact1; by destruct Hg as (k & -> & _)).
  assert (Hdel1 : delayed (active ad1) = delayed (active ad)) by (unfold delayed; rewrite Hact1; by destruct Hg as (k & -> & _)).
  rewrite run_vertical. cbv beta iota. rewrite run_horizontal. cbn [_scrollMargins set_scrollMargins]. rewrite (settled_line_columns page ad1 lw). change (columns_between lw ad1) with (columns_between lw ad).
  change (between (rc_top (_scrollMargins ad1)) _ _) with (rows_between page ad). pose proof (between_rows_of page ad) as Hbr. cbv zeta in Hbr. fold y in Hbr. rewrite !Hbr. change (set_scrollMargins _ (set_scrollMargins _ ad1)) with (measured page ad1 lw).
  destruct (columns_between lw ad) as [l r] eqn:Hcols. pose proof (measured_at page width ad1 lw Hat1) as Hat2.
  destruct (run_init_tabs lw (measured page ad1 lw) d ltac:(lia)) as (stops & Hinit & Hknown & Hstops). erewrite run_bind by exact Hinit. set (ad3 := set_tabStops stops _ _) in *.
  assert (Hat3 : at_page page width ad3) by done. pose proof (limits_bounds page width ad lw Hat ltac:(lia)) as [Hrl Hll].
  assert (Hlim : (if between_rows page ad && (x <=? r) then r else lw - 1) = right_limit page ad lw) by (unfold right_limit; by rewrite Hcols). rewrite Hlim.
  erewrite run_bind by (apply tabs_right; [unfold known in *; lia|unfold on_screen in Hon; lia|lia]). rewrite Z.sub_0_r.
  assert (Htab : tab_right ad3 x (right_limit page ad lw) count = tab_right ad x (right_limit page ad lw) count) by (apply tab_right_ext; exact Hstops). rewrite Htab.
  unfold AdaptDispatch.GetCursor. rewrite (run_read page width) by done. change (active ad3) with (active ad1).
  match goal with |- context [mbind ?k (AdaptDispatch.on_cursor page (Cursor.SetXPosition ?c)) _] => destruct (run_set_x page width c ad3 d k Hat3) as (tb4 & -> & Hat4 & Hact4 & Hpos4 & Hdel4) end;
    [apply tab_right_bounds; [apply Hon|lia]|].
  change (cursor_at ad3) with (cursor_at ad1) in Hpos4. rewrite Hcur1 in Hpos4. fold y in Hpos4.
  unfold delayed in Hdel1. destruct (Cursor.GetDelayEOLWrap (_cursor (active ad1))).
  - destruct (run_delay page width (with_buffer page tb4 ad3) d Hat4) as (tb5 & Hrun5 & Hact5 & Hpos5 & Hdel5). rewrite Hrun5. left. split; [done|]. unfold cursor_at. cbn [fst]. rewrite Hact5, Hpos5, Hdel5. unfold cursor_at. rewrite Hact4.
    split; [done|]. unfold delayed. by rewrite <- Hdel1.
  - unfold mret, M_ret. left. split; [done|]. unfold cursor_at. cbn [fst]. rewrite Hact4, Hdel4. split; [done|]. unfold delayed. by rewrite <- Hdel1.
Qed.

Lemma run_backwards ad d count : let x := pt_x (cursor_at ad) in let y := pt_y (cursor_at ad) in let lw := line_width isa (active ad) y in
  at_page page width ad -> page_fits page width -> x < lw ->
  let '(s, o) := AdaptDispatch.BackwardsTab isa address mutationId count (ad, d) in
  (o = Ret tt /\ cursor_at (fst s) = mkPoint (tab_left ad x (left_limit page ad lw) count) y) \/ (o = Throw /\ no_memory).
Proof.
  intros x y lw Hat [Hw2 _] Hx. destruct (cursor_on_screen ad Hat) as (Hon & Hb & Hbw). pose proof (line_width_bounds isa (active ad) y Hb ltac:(lia)) as Hlw. fold lw in Hlw.
  unfold AdaptDispatch.BackwardsTab. rewrite (run_active _ _ _ page width), (run_position page width) by done. fold x y.
  match goal with |- context [mbind ?k (AdaptDispatch.GetLineWidth isa page y) (ad, d)] => destruct (run_measure_line isa page width y ad d k Hat) as [(tb & Hg & Hat1 & Hact1 & ->)|[Hno Hmem]] end;
    [|match type of Hno with snd ?e = _ => destruct e as [? ?] end; by right].
  fold lw. set (ad1 := with_buffer page tb ad) in *.
  assert (Hcur1 : cursor_at ad1 = cursor_at ad) by (unfold cursor_at; rewrite Hact1; by destruct Hg as (k & -> & _)).
  assert (Hdel1 : delayed (active ad1) = delayed (active ad)) by (unfold delayed; rewrite Hact1; by destruct Hg as (k & -> & _)).
  rewrite run_vertical. cbv beta iota. rewrite run_horizontal. cbn [_scrollMargins set_scrollMargins]. rewrite (settled_line_columns page ad1 lw). change (columns_between lw ad1) with (columns_between lw ad).
  change (between (rc_top (_scrollMargins ad1)) _ _) with (rows_between page ad). pose proof (between_rows_of page ad) as Hbr. cbv zeta in Hbr. fold y in Hbr. rewrite !Hbr. change (set_scrollMargins _ (set_scrollMargins _ ad1)) with (measured page ad1 lw).
  destruct (columns_between lw ad) as [l r] eqn:Hcols. pose proof (measured_at page width ad1 lw Hat1) as Hat2.
  destruct (run_init_tabs lw (measured page ad1 lw) d ltac:(lia)) as (stops & Hinit & Hknown & Hstops). erewrite run_bind by exact Hinit. set (ad3 := set_tabStops stops _ _) in *.
  assert (Hat3 : at_page page width ad3) by done. pose proof (limits_bounds page width ad lw Hat ltac:(lia)) as [Hrl Hll].
  assert (Hlim : (if between_rows page ad && (x >=? l) then l else 0) = left_limit page ad lw) by (unfold left_limit; rewrite Hcols; cbn [fst]; by rewrite Z.geb_leb). rewrite Hlim.
  erewrite run_bind by (apply tabs_left; [lia|unfold known in *; unfold on_screen in Hon; lia|lia]). rewrite Z.sub_0_r.
  assert (Htab : tab_left ad3 x (left_limit page ad lw) count = tab_left ad x (left_limit page ad lw) count) by (apply tab_left_ext; exact Hstops). rewrite Htab.
  destruct (run_set_x page width (tab_left ad x (left_limit page ad lw) count) ad3 d mret Hat3) as (tb4 & Hrun4 & Hat4 & Hact4 & Hpos4 & _); [apply tab_left_bounds; [apply Hon|lia]|].
  change (cursor_at ad3) with (cursor_at ad1) in Hpos4. rewrite Hcur1 in Hpos4. fold y in Hpos4. rewrite run_last in Hrun4. rewrite Hrun4. left. split; [done|]. unfold cursor_at. cbn [fst]. by rewrite Hact4.
Qed.
End tabbing.

(** ** Theorems *)
Section theorems.
Context `{VirtualMemory} `{Allocator} {D : Type} `{GraphemeDetector D} (isa : Intrinsics) (address : nat -> ROW -> Z) (mutationId : Z).
Implicit Types (d : D).

(** C18: CUP moves the cursor to the line and column asked for, or to the nearest that can be addressed: on the page, or between the margins in origin mode
    (for a cursor that is there), and no further right than the line has columns, half as many when it is of double width. The cursor
    position report then gives back line and column. *)
Theorem cup_is_reported ad d line column : let page := active_page (_pages ad) in let width := page_width (_pages ad) in
  let rows := rows_addressed page ad in let columns := columns_addressed width ad in let top := rc_top (_viewport page) in
  adapt_ok ad -> 1 <= line -> 1 <= column ->
  (origin_mode ad = true -> fst rows <= pt_y (cursor_at ad) - top <= snd rows /\ fst columns <= pt_x (cursor_at ad) <= snd columns) ->
  let y := fst rows + Z.min (line - 1) (snd rows - fst rows) in
  let x := Z.min (fst columns + Z.min (column - 1) (snd columns - fst columns)) (line_width isa (active ad) (top + y) - 1) in
  let '(s, o) := AdaptDispatch.CursorPosition isa address mutationId line column (ad, d) in
  (o = Ret tt /\ cursor_at (fst s) = mkPoint x (top + y) /\
     exists s', AdaptDispatch._CursorPositionReport isa address mutationId false s = (s', Ret tt) /\
       told (fst s') = told ad ++ [Response (csi ad ++ formatInt (y - fst rows + 1) ++ [0x3b] ++ formatInt (x - fst columns + 1) ++ [0x52])]) \/
  (o = Throw /\ no_memory).
Proof.
  intros page width rows columns top Hok Hline Hcolumn Hin y x. destruct (adapt_ok_page ad Hok) as [Hat Hfits]. fold page width in Hat, Hfits. unfold AdaptDispatch.CursorPosition.
  pose proof (moved_state isa address mutationId page width (Offset.Absolute line) (Offset.Absolute column) false ad d Hat Hfits) as HR. cbv zeta in HR.
  assert (Htarget : target page width (Offset.Absolute line) (Offset.Absolute column) false ad = mkPoint (fst columns + Z.min (column - 1) (snd columns - fst columns)) (top + y)).
  { subst x y rows columns. pose proof Hat as ((_ & _ & Hml & Hmt) & _). pose proof Hfits as [Hw2 Hv].
    pose proof (between_bounds _ (rc_bottom (_scrollMargins ad)) (rc_bottom (_viewport page) - rc_top (_viewport page)) Hmt ltac:(lia)) as Hrows. fold (rows_between page ad) in Hrows.
    pose proof (between_bounds _ (rc_right (_scrollMargins ad)) width Hml ltac:(lia)) as Hcols. fold (columns_between width ad) in Hcols. cbv zeta in Hrows, Hcols.
    unfold target, AdaptDispatch.moved_to, rows_addressed, columns_addressed in *. destruct (rows_between page ad) as [t b], (columns_between width ad) as [l r]. cbn [fst snd] in *.
    destruct (origin_mode ad); cbn [fst snd orb IsAbsolute Value Offset.Absolute] in *; unfold clamp.
    - specialize (Hin eq_refl). repeat (case_match; try lia). all: f_equal; lia.
    - repeat (case_match; try lia). all: f_equal; lia. }
  rewrite Htarget in HR. cbn [pt_x pt_y] in HR. fold x in HR.
  destruct (AdaptDispatch._CursorMovePosition _ _ _ _ _ _ _) as [s o]. destruct HR as [(tb' & -> & -> & Hat' & Hact & Hcur & _)|HR]; [left|by right]. cbn [fst] in *. split; [done|]. split; [done|].
  destruct (run_report isa address mutationId page width _ d Hat') as (ad' & Hrun & Htold). rewrite Hrun. eexists. split; [done|]. cbn [fst]. rewrite Htold, told_with, Hcur. cbn [pt_x pt_y].
  assert (Hr : rows_addressed page (with_buffer page tb' (settled page width ad)) = rows) by (subst rows; unfold rows_addressed; rewrite <- (settled_rows page width ad); done).
  assert (Hc : columns_addressed width (with_buffer page tb' (settled page width ad)) = columns) by (subst columns; unfold columns_addressed; rewrite <- (settled_columns page width ad); done).
  rewrite Hr, Hc. change (told (settled page width ad)) with (told ad). change (csi (with_buffer page tb' (settled page width ad))) with (csi ad).
  fold top. replace (top + y - top + 1 - fst rows) with (y - fst rows + 1) by lia. replace (x + 1 - fst columns) with (x - fst columns + 1) by lia. done.
Qed.


(** C19: CHT and CBT put the cursor at the tab stop as many stops to its right or left as asked for, among those that have been set or that are
    there by default (each eighth column), or at the limit when there are not so many: the margin when the cursor is between the margins, or the end of
    the line, which is half as long when it is of double width. CHT keeps a wrap that is pending, and neither moves the cursor off its row, also when
    CHT finds it in the last column. The cursor is asked to be within its line. *)
Theorem tabs_go_to_stops ad d count : let page := active_page (_pages ad) in let x := pt_x (cursor_at ad) in let y := pt_y (cursor_at ad) in
  let lw := line_width isa (active ad) y in
  adapt_ok ad -> x < lw ->
  (let '(s, o) := AdaptDispatch.ForwardTab isa address mutationId count (ad, d) in
   (o = Ret tt /\ cursor_at (fst s) = mkPoint (tab_right ad x (right_limit page ad lw) count) y /\ delayed (active (fst s)) = delayed (active ad)) \/ (o = Throw /\ no_memory)) /\
  (let '(s, o) := AdaptDispatch.BackwardsTab isa address mutationId count (ad, d) in
   (o = Ret tt /\ cursor_at (fst s) = mkPoint (tab_left ad x (left_limit page ad lw) count) y) \/ (o = Throw /\ no_memory)).
Proof.
  intros page x y lw Hok Hx. destruct (adapt_ok_page ad Hok) as [Hat Hfits]. fold page in Hat, Hfits. set (width := page_width (_pages ad)) in *.
  split; [by apply (run_forward isa address mutationId page width)|by apply (run_backwards isa address mutationId page width)].
Qed.
End theorems.
