(* ===== verification/AdaptFeeds.v ===== *)
(** * Writing, line feeds and the viewport

    What writes, scrolls, erases and moves the viewport leaves the pages well formed and the
    cursor on the active page, whatever its outcome. First a fact about rows: whatever a row
    holds, the column at which [ReplaceText] says that the text has ended is not negative. *)

From stdpp Require Import gmap.
From S2P Require Import Prelude LineRenditions InputEvents TextAttributes Graphemes ImageSlice Row RowImages TextBuffer DispatchTypes StateMachine Cursor ColorTable TextColors Rle CharSets TerminalOutput TerminalInput Graphics GraphicsTheorems BufferStore BufferFrame Pages AdaptDispatch AdaptScreen PageTheorems AdaptCursor ITermDispatch RowReplace AdaptTheorems.

(** What a computation returns satisfies [Q]. *)
Definition returns {S A} (m : M S A) (Q : A -> Prop) : Prop := forall s a, snd (m s) = Ret a -> Q a.

Section returning.
Context {S : Type}.
Lemma column_returns_bind {A B} (m : M S A) (k : A -> M S B) Q R : returns m Q -> (forall a, Q a -> returns (k a) R) -> returns (mbind k m) R.
Proof. intros Hm Hk s b. cbv [mbind M_bind]. specialize (Hm s). destruct (m s) as [s' [a| | |]]; try done. apply Hk. by apply Hm. Qed.
Lemma returns_ret {A} (a : A) (Q : A -> Prop) : Q a -> returns (mret a : M S A) Q.
Proof. by intros HQ s ? [= <-]. Qed.
Lemma returns_any {A} (m : M S A) : returns m (fun _ => True).
Proof. done. Qed.
Lemma returns_fuel {A} (Q : A -> Prop) : returns (outOfFuel : M S A) Q.
Proof. done. Qed.
Lemma returns_reads {A} (f : S -> option A) (Q : A -> Prop) : (forall s a, f s = Some a -> Q a) -> returns (reads f) Q.
Proof. intros Hf s a. unfold reads. destruct (f s) eqn:E; [|done]. intros [= <-]. by apply (Hf s). Qed.
Lemma returns_catch {A} (m h : M S A) Q : returns m Q -> returns h Q -> returns (try_catch m h) Q.
Proof. intros Hm Hh s a. unfold try_catch. specialize (Hm s). destruct (m s) as [s' [b| | |]]; try done; [apply Hm|apply Hh]. Qed.
End returning.

Section columns.
Context `{Allocator} {D : Type} `{GraphemeDetector D} (isa : Intrinsics) (charsAddress : ROW -> Z).
Implicit Types (h : WriteHelper).

Definition ends_at (h : WriteHelper) : Prop := 0 <= colEnd h /\ 0 <= colLimit h.

Lemma returns_on_row {A} (m : M ROW A) Q : returns m Q -> returns (on_row m : M (ROW * D) A) Q.
Proof. intros Hm [r d] a. unfold on_row. cbn [fst snd]. specialize (Hm r a). destruct (m r) as [? ?]. exact Hm. Qed.
Lemma fill_ends count offset : forall h, ends_at h -> returns (fillOffsets count offset h) ends_at.
Proof.
  induction count as [|count IH]; intros h Hh; cbn [fillOffsets]; [by apply returns_ret|]. eapply column_returns_bind; [apply returns_any|]. intros _ _. apply IH. split; [apply Z.mod_pos_bound; lia|apply Hh].
Qed.
Lemma glyph_ends ch new h : ends_at h -> returns (on_row (writeGlyph ch new h) : M (ROW * D) WriteHelper) ends_at.
Proof. intros Hh. apply returns_on_row. eapply column_returns_bind; [apply returns_any|]. intros _ _. apply fill_ends. split; [apply Z.mod_pos_bound; lia|apply Hh]. Qed.
Lemma cluster_ends fuel : forall ch it state h, ends_at h -> returns (clusterLoop fuel ch it state h : M (ROW * D) WriteHelper) ends_at.
Proof.
  induction fuel as [|fuel IH]; intros ch it state h Hh; cbn [clusterLoop]; [apply returns_fuel|]. eapply column_returns_bind; [apply returns_any|]. intros st _. cbv zeta. destruct (_ >? _); [by apply returns_ret|].
  eapply column_returns_bind; [by apply glyph_ends|]. intros h' Hh'. destruct (_ =? _); [by apply returns_ret|by apply IH].
Qed.
Lemma clusters_ends ch it h : ends_at h -> returns (clusters ch it h : M (ROW * D) WriteHelper) ends_at.
Proof. intros Hh. unfold clusters. destruct (_ =? _); [by apply returns_ret|by apply cluster_ends]. Qed.
Lemma previous_bounds fuel : forall c r p, 0 <= c -> previousLoop fuel c r = Some p -> 0 <= p.
Proof.
  induction fuel as [|fuel IH]; intros c r p Hc; cbn [previousLoop]; [done|]. destruct (Z.gtb_spec c 0); [|by intros [= <-]].
  destruct (_uncheckedIsTrailer (c - 1) r) as [[]|]; cbn; [apply IH; lia|intros [= <-]; lia|done].
Qed.
Lemma join_ends ch h : 0 <= colBeg h -> ends_at h -> returns (joinPrevious charsAddress ch h : M (ROW * D) WriteHelper) ends_at.
Proof.
  intros Hb Hh. unfold joinPrevious. eapply column_returns_bind; [apply returns_on_row, returns_reads; intros r p Hp; exact (previous_bounds _ _ _ _ Hb Hp)|]. intros p Hp.
  eapply column_returns_bind; [apply returns_any|]. intros ? _. eapply column_returns_bind; [apply returns_any|]. intros ? _. eapply column_returns_bind; [apply returns_any|]. intros ? _.
  eapply column_returns_bind; [apply returns_any|]. intros ? _. eapply column_returns_bind; [apply returns_any|]. intros ? _. destruct (_ >? 0); [|by apply clusters_ends]. cbv zeta.
  assert (Hh' : ends_at (set_colEnd p (set_colBegDirty p h))) by (split; [done|apply Hh]). destruct (_ >? _); [by apply returns_ret|]. eapply column_returns_bind; [by apply glyph_ends|]. intros. by apply clusters_ends.
Qed.
Lemma ascii_ends rest : forall ch it h, 0 <= colBeg h -> ends_at h -> returns (asciiLoop charsAddress rest ch it h : M (ROW * D) WriteHelper) ends_at.
Proof.
  induction rest as [|c rest IH]; intros ch it h Hb Hh; cbn [asciiLoop]; [by apply returns_ret|]. destruct (_ >=? _).
  - unfold _replaceTextUnicode. destruct (it =? 0); [by apply join_ends|]. apply clusters_ends. split; [apply Z.mod_pos_bound; lia|apply Hh].
  - eapply column_returns_bind; [apply returns_any|]. intros _ _. apply IH; [done|]. split; [apply Z.mod_pos_bound; lia|apply Hh].
Qed.
Lemma finish_ends h : returns (Finish h) (fun h' => colEnd h' = colEnd h /\ colLimit h' = colLimit h /\ charsConsumed h' = charsConsumed h).
Proof.
  unfold Finish. eapply column_returns_bind; [apply returns_any|]. intros ? _. cbv zeta. do 8 (eapply column_returns_bind; [apply returns_any|]; intros ? _). by apply returns_ret.
Qed.

Lemma replace_text_end state : returns (ReplaceText isa charsAddress state : M (ROW * D) RowWriteState) (fun st => 0 <= columnEnd st /\ columnLimit st = columnLimit state /\ columnBegin st = columnBegin state).
Proof.
  unfold ReplaceText. apply returns_catch; [|by eapply column_returns_bind; [apply returns_any|]].
  eapply (column_returns_bind _ _ (fun h => 0 <= colBeg h /\ ends_at h)).
  - apply returns_on_row, returns_reads. intros r h. unfold WriteHelper_ctor. intros Hh. simplify_option_eq. cbn. unfold ends_at. cbn. unfold _clampedColumnInclusive. repeat split; apply Z.mod_pos_bound; lia.
  - intros h [Hb Hh]. destruct (negb _); [by apply returns_ret|]. eapply column_returns_bind; [by apply ascii_ends|]. intros h1 H1. eapply column_returns_bind; [apply returns_on_row, finish_ends|]. intros h2 (He & Hl & _).
    apply returns_ret. cbn. split; [|done]. case_match; rewrite ?He, ?Hl; apply H1.
Qed.
End columns.

(** What [TextBuffer] says of it. *)
Section buffer.
Context `{VirtualMemory} `{Allocator} `{Turns} {D : Type} `{GraphemeDetector D} (isa : Intrinsics) (address : nat -> ROW -> Z).

Lemma returns_on_phys_text {A} n (m : M (ROW * D) A) Q : returns m Q -> returns (TextBuffer.on_phys_text n m) Q.
Proof. intros Hm [tb d] a. unfold TextBuffer.on_phys_text. cbn [fst snd]. destruct (_rows tb !! n) as [r|]; [|done]. specialize (Hm (r, d) a). destruct (m (r, d)) as [[? ?] ?]. exact Hm. Qed.
Lemma written_end (insert : bool) row attributes state :
  returns (if insert then TextBuffer.Insert isa address row attributes state else TextBuffer.Replace isa address row attributes state : M (TextBuffer * D) RowWriteState)
    (fun st => 0 <= columnEnd st /\ columnLimit st = columnLimit state /\ columnBegin st = columnBegin state).
Proof.
  destruct insert.
  - unfold TextBuffer.Insert. do 3 (eapply column_returns_bind; [apply returns_any|]; intros ? _). eapply column_returns_bind; [apply returns_on_phys_text, replace_text_end|]. intros st Hst.
    eapply column_returns_bind; [apply returns_any|]; intros ? _. eapply column_returns_bind; [apply returns_any|]; intros [data text] _. do 2 (eapply column_returns_bind; [apply returns_any|]; intros ? _). by apply returns_ret.
  - unfold TextBuffer.Replace. eapply column_returns_bind; [apply returns_any|]; intros ? _. eapply column_returns_bind; [apply returns_on_phys_text, replace_text_end|]. intros st Hst.
    eapply column_returns_bind; [apply returns_any|]; intros ? _. by apply returns_ret.
Qed.
End buffer.

(** ** Writing keeps the cursor on the page

    What writes, scrolls and erases leaves the pages well formed and the cursor on the active page, whatever its outcome. *)

Import AdaptScreen.

Implicit Types (ad : AdaptDispatch) (tb : TextBuffer) (pm : PageManager) (page : Page).

(** ** Loops over cells *)
Section cells.
Context `{VirtualMemory} `{Allocator} (isa : Intrinsics).

Lemma keeps_attr_at r col : keeps (AdaptScreen.attr_at r col).
Proof. apply keeps_on_phys. Qed.
Lemma keeps_moveCells fuel src dst dir : forall srcPos dstPos, keeps (moveCells isa fuel src dst dir srcPos dstPos).
Proof. induction fuel as [|fuel IH]; intros; cbn [moveCells]; [apply keeps_fuel|]. keep. Qed.
Lemma keeps_shiftCells fuel src dst dir : forall next srcPos dstPos, keeps (shiftCells isa fuel src dst dir next srcPos dstPos).
Proof. induction fuel as [|fuel IH]; intros; cbn [shiftCells]; [apply keeps_fuel|]. keep. Qed.
Lemma keeps_increments count : keeps (increments isa count).
Proof. induction count; cbn [increments]; keep. Qed.
Lemma keeps_eraseColumns count r row : forall col, keeps (eraseColumns isa count r row col).
Proof. induction count; intros; cbn [eraseColumns]; keep. Qed.
Hint Resolve keeps_eraseColumns : keeps.
Lemma keeps_eraseRows count left right : forall row, keeps (eraseRows isa count row left right).
Proof. induction count; intros; cbn [eraseRows]; keep. Qed.
Lemma keeps_changeColumns count ops r : forall col, keeps (changeColumns count ops r col).
Proof. induction count; intros; cbn [changeColumns]; keep. Qed.
Hint Resolve keeps_changeColumns : keeps.
Lemma keeps_changeRows count ops left right : forall row, keeps (changeRows isa count ops row left right).
Proof. induction count; intros; cbn [changeRows]; keep. Qed.
End cells.
#[export] Hint Resolve keeps_attr_at keeps_moveCells keeps_shiftCells keeps_increments keeps_eraseRows keeps_changeRows : keeps.

(** ** Functions that stay on the page *)
Section functions.
Context `{VirtualMemory} `{Allocator} `{Turns} {D : Type} `{GraphemeDetector D} (isa : Intrinsics) (address : nat -> ROW -> Z) (mutationId textAddress : Z).
Context (page : Page) (width : Z) (Hfits : page_fits page width).
Abbreviation I := (at_page page width).
Abbreviation Adapt := (M (AdaptDispatch * D)).
Abbreviation top := (rc_top (_viewport page)).
Abbreviation bottom := (rc_bottom (_viewport page)).

Lemma ensures_keeps {A} (m : M TextBuffer A) : keeps m -> ensures I (AdaptDispatch.on_page page m : Adapt A) (fun _ => True).
Proof. intros Hm. apply ensures_on_page. intros tb Hb Hw Hc. specialize (Hm tb Hb). destruct (m tb) as [tb' o]. destruct Hm as (? & ? & ? & Hcur & _). cbn [fst] in *. by rewrite Hcur. Qed.
Lemma ensures_keeps_text {A} (m : M (TextBuffer * D) A) (Q : A -> Prop) : keeps_text m -> (forall s a, snd (m s) = Ret a -> Q a) -> ensures I (AdaptDispatch.on_page_text page m : Adapt A) Q.
Proof.
  intros Hm HQ [ad d] ((Hp & Hc & Hmar) & Hpage & Hw). cbn [fst] in *. destruct (active_page_ok _ Hp) as (Hat & Hb & Hbw & _). rewrite Hpage in Hat.
  unfold AdaptDispatch.on_page_text. cbn [fst snd]. rewrite Hat. unfold cursor_ok in Hc. rewrite Hpage, Hw in Hc.
  specialize (Hm (active_buffer (_pages ad)) d Hb). specialize (HQ (active_buffer (_pages ad), d)). destruct (m _) as [[tb' d'] o]. cbn [fst snd] in *. destruct Hm as (Hb' & Hw' & Hh' & Hcur & _). split; [|exact HQ].
  destruct (put_active (_pages ad) tb' Hp Hb' (conj Hw' Hh')) as (Hp' & Hwin & Hpage' & Hab). rewrite Hpage in *. unfold at_page, adapt_ok. cbn [_pages set_pages _scrollMargins].
  assert (Hw2 : page_width (PageManager.put_buffer (_buffer page) tb' (_pages ad)) = width) by (unfold page_width in *; destruct Hwin as (-> & _); done).
  split; [|done]. split; [done|]. split; [|done]. unfold cursor_ok. rewrite Hpage', Hab, Hw2. unfold cursor_in in *. by rewrite Hcur.
Qed.
Lemma ensures_no_value (m : Adapt unit) (Q : unit -> Prop) : ensures I m Q -> ensures I m (fun _ => True).
Proof. intros Hm. by eapply ensures_weaken. Qed.
Lemma ensures_reset_delay : ensures I (ResetDelayEOLWrap page : Adapt unit) (fun _ => True).
Proof. by apply ensures_on_cursor. Qed.
Lemma ensures_erase_attributes : ensures I (_GetEraseAttributes page : Adapt TextAttribute) (fun _ => True).
Proof. eapply ensures_bind; [apply ensures_mode|]. intros [] _; [by apply ensures_ret|]. eapply ensures_bind; [apply ensures_attributes|]. intros. by apply ensures_ret. Qed.
Lemma ensures_fill area text attr : ensures I (_FillRect isa address textAddress page area text attr : Adapt unit) (fun _ => True).
Proof. apply ensures_keeps_text; [apply keeps_fillRect|done]. Qed.
Lemma ensures_buffer_height : ensures I (AdaptDispatch.BufferHeight page : Adapt Z) (fun _ => True).
Proof. by apply ensures_reads. Qed.
Hint Resolve ensures_reset_delay ensures_erase_attributes ensures_fill ensures_active ensures_width ensures_mode ensures_attributes ensures_set_attributes : ensures.

Lemma ensures_scroll_vertically r delta : ensures I (_ScrollRectVertically isa address textAddress page r delta : Adapt unit) (fun _ => True).
Proof.
  eapply (ensures_bind _ _ _ (fun _ => True)).
  - destruct (_ <? _); [|by apply ensures_ret]. eapply ensures_bind; [apply ensures_width|]. intros ? ->. destruct (_ =? _); (eapply ensures_bind; [apply ensures_keeps; eauto with keeps|]); intros _ _; apply ensures_keeps; eauto with keeps.
  - intros _ _. eapply ensures_bind; [apply ensures_erase_attributes|]. intros attr _. eapply ensures_bind; [apply ensures_fill|]. intros _ _. apply ensures_keeps; eauto with keeps.
Qed.
Lemma ensures_scroll_horizontally r delta : ensures I (_ScrollRectHorizontally isa address textAddress page r delta : Adapt unit) (fun _ => True).
Proof.
  eapply (ensures_bind _ _ _ (fun _ => True)).
  - destruct (_ <? _); [|by apply ensures_ret]. apply ensures_keeps. cbv zeta. keep.
  - intros _ _. eapply ensures_bind; [apply ensures_erase_attributes|]. intros attr _. apply ensures_fill.
Qed.
Lemma ensures_selective r : ensures I (_SelectiveEraseRect isa page r : Adapt unit) (fun _ => True).
Proof. unfold _SelectiveEraseRect. destruct (TextBuffer.rect_valid r); [|by apply ensures_ret]. apply ensures_keeps; eauto with keeps. Qed.
Lemma ensures_change r ops : ensures I (_ChangeRectAttributes isa page r ops : Adapt unit) (fun _ => True).
Proof.
  unfold _ChangeRectAttributes. destruct (TextBuffer.rect_valid r); [|by apply ensures_ret]. eapply ensures_bind; [apply ensures_keeps; eauto with keeps|]. intros _ _. apply ensures_keeps; eauto with keeps.
Qed.
Lemma ensures_term {A} (m : M TerminalOutput A) : ensures I (AdaptDispatch.on_termOutput m : Adapt A) (fun _ => True).
Proof. intros [ad d] Hs. unfold AdaptDispatch.on_termOutput. cbn [fst snd]. by destruct (m _). Qed.

(** The margins of the page, and of a line. *)
Lemma ensures_margins_width : ensures I (AdaptDispatch._GetHorizontalMargins width : Adapt (Z * Z)) (fun m => 0 <= fst m < width /\ 0 <= snd m < width).
Proof. destruct Hfits. apply ensures_horizontal. lia. Qed.

Lemma ensures_reads_any {A} (f : AdaptDispatch * D -> option A) : ensures I (reads f) (fun _ => True).
Proof. intros s Hs. unfold reads. by destruct (f s). Qed.

End functions.

(** A position on the page. *)
Ltac positioned := first [assumption | unfold on_screen, AdaptDispatch.Top, AdaptDispatch.Bottom in *; cbn [pt_x pt_y fst snd] in *; repeat case_match; lia].

(** Goes through a computation of which nothing is to be known. *)
Ltac ensure :=
  repeat first
    [ progress (intros; cbv beta zeta in *)
    | progress subst
    | match goal with
      | |- ensures _ (let '(_, _) := ?x in _) _ => destruct x
      | |- ensures _ (match ?x with (_, _) => _ end) _ => destruct x
      | |- ensures _ (if ?b then _ else _) _ => destruct b eqn:?
      | |- ensures _ (mret _) _ => apply ensures_ret; done
      | |- ensures _ (mbind _ (AdaptDispatch.ActivePage _ _ _)) _ => eapply ensures_bind; [apply ensures_active|]
      | |- ensures _ (mbind _ (AdaptDispatch.Width _)) _ => eapply ensures_bind; [apply ensures_width|]
      | |- ensures _ (mbind _ (AdaptDispatch.BufferHeight _)) _ => eapply ensures_bind; [apply ensures_buffer_height|]
      | |- ensures _ (mbind _ (AdaptDispatch.position_of _)) _ => eapply ensures_bind; [apply ensures_position|]
      | |- ensures _ (mbind _ (AdaptDispatch.Attributes _)) _ => eapply ensures_bind; [apply ensures_attributes|]
      | |- ensures _ (mbind _ (AdaptDispatch.test_mode _)) _ => eapply ensures_bind; [apply ensures_mode|]
      | |- ensures _ (mbind _ (AdaptDispatch.GetLineWidth _ _ _)) _ => eapply ensures_bind; [by apply ensures_line_width|]
      | |- ensures _ (mbind _ (AdaptDispatch._GetVerticalMargins _ _)) _ => eapply ensures_bind; [by apply ensures_vertical|]
      | |- ensures _ (mbind _ (AdaptDispatch._GetHorizontalMargins _)) _ => eapply ensures_bind; [by apply ensures_margins_width|]
      | |- ensures _ (mbind _ (_GetEraseAttributes _)) _ => eapply ensures_bind; [apply ensures_erase_attributes|]
      | |- ensures _ (mbind _ (AdaptDispatch.on_termOutput _)) _ => eapply ensures_bind; [apply ensures_term|]
      | |- ensures _ (mbind _ (AdaptDispatch.ClampPositionWithinLine _ _ _)) _ => eapply ensures_bind; [apply ensures_clamped; [assumption|positioned]|]
      | |- ensures _ (mbind _ _) _ => eapply (ensures_bind _ _ _ (fun _ => True))
      | |- ensures _ (AdaptDispatch.on_cursor _ (Cursor.SetPosition _)) _ => apply ensures_set_position; positioned
      | |- ensures _ (AdaptDispatch.on_cursor _ (Cursor.SetXPosition _)) _ => apply ensures_set_x; positioned
      | |- ensures _ (ResetDelayEOLWrap _) _ => apply ensures_reset_delay
      | |- ensures _ (_FillRect _ _ _ _ _ _ _) _ => apply ensures_fill
      | |- ensures _ (_ScrollRectVertically _ _ _ _ _ _) _ => apply ensures_scroll_vertically
      | |- ensures _ (_ScrollRectHorizontally _ _ _ _ _ _) _ => apply ensures_scroll_horizontally
      | |- ensures _ (_SelectiveEraseRect _ _ _) _ => apply ensures_selective
      | |- ensures _ (_ChangeRectAttributes _ _ _ _) _ => apply ensures_change
      | |- ensures _ (AdaptDispatch.SetAttributes _ _) _ => apply ensures_set_attributes
      | |- ensures _ (AdaptDispatch.on_page _ _) _ => apply ensures_keeps; solve [cbv zeta; keep]
      | |- ensures _ (AdaptDispatch.on_termOutput _) _ => apply ensures_term
      | |- ensures _ (reads _) _ => apply ensures_reads_any
      end ].

Section functions.
Context `{VirtualMemory} `{Allocator} `{Turns} {D : Type} `{GraphemeDetector D} (isa : Intrinsics) (address : nat -> ROW -> Z) (mutationId textAddress : Z).
Context (page : Page) (width : Z) (Hfits : page_fits page width).
Abbreviation I := (at_page page width).
Abbreviation Adapt := (M (AdaptDispatch * D)).
Abbreviation top := (rc_top (_viewport page)).
Abbreviation bottom := (rc_bottom (_viewport page)).

Lemma ensures_characters delta : ensures I (_InsertDeleteCharacterHelper isa address mutationId textAddress delta : Adapt unit) (fun _ => True).
Proof.
  unfold _InsertDeleteCharacterHelper. ensure. eapply ensures_weaken; [by apply ensures_horizontal|done].
Qed.
Lemma ensures_scroll delta : ensures I (_ScrollMovement isa address mutationId textAddress delta : Adapt unit) (fun _ => True).
Proof. unfold _ScrollMovement. ensure. Qed.
Lemma ensures_lines delta : ensures I (_InsertDeleteLineHelper isa address mutationId textAddress delta : Adapt unit) (fun _ => True).
Proof. unfold _InsertDeleteLineHelper. ensure. Qed.
Lemma ensures_columns delta : ensures I (_InsertDeleteColumnHelper isa address mutationId textAddress delta : Adapt unit) (fun _ => True).
Proof. unfold _InsertDeleteColumnHelper. ensure. Qed.
Lemma ensures_erase_characters n : ensures I (EraseCharacters isa address mutationId textAddress n : Adapt unit) (fun _ => True).
Proof. unfold EraseCharacters. ensure. Qed.
Lemma ensures_erase_line t : ensures I (EraseInLine isa address mutationId textAddress t : Adapt unit) (fun _ => True).
Proof. unfold EraseInLine. ensure. Qed.
Lemma ensures_selective_display t : ensures I (SelectiveEraseInDisplay isa address mutationId t : Adapt unit) (fun _ => True).
Proof. unfold SelectiveEraseInDisplay. ensure. Qed.
Lemma ensures_selective_line t : ensures I (SelectiveEraseInLine isa address mutationId t : Adapt unit) (fun _ => True).
Proof. unfold SelectiveEraseInLine. ensure. Qed.
Lemma ensures_area a b c d : ensures I (_CalculateRectArea page a b c d : Adapt rect) (fun _ => True).
Proof. unfold _CalculateRectArea. ensure. Qed.
Lemma ensures_change_area r ops : ensures I (_ChangeRectOrStreamAttributes isa address mutationId r ops : Adapt unit) (fun _ => True).
Proof. unfold _ChangeRectOrStreamAttributes. ensure. apply ensures_area. Qed.
Lemma ensures_change_attributes a b c d attrs : ensures I (ChangeAttributesRectangularArea isa address mutationId a b c d attrs : Adapt unit) (fun _ => True).
Proof. unfold ChangeAttributesRectangularArea. ensure. apply ensures_change_area. Qed.
(** The options are gone through to the last. *)
Lemma reverse_ends fuel attrs : forall i mask, (VTParameters.size attrs <= i + fuel)%nat -> is_Some (reverseLoop fuel attrs i mask).
Proof.
  induction fuel as [|fuel IH]; intros i mask Hf; cbn [reverseLoop]; destruct (Nat.ltb_spec i (VTParameters.size attrs)); [lia|by eexists| |by eexists].
  pose proof (consumes_one attrs i TextAttribute_ctor). destruct (_ =? 0); [apply IH; lia|]. destruct (_ApplyGraphicsOption attrs i TextAttribute_ctor) as [consumed attr]. apply IH. cbn in *. lia.
Qed.
Lemma ensures_reverse_attributes a b c d attrs : ensures I (ReverseAttributesRectangularArea isa address mutationId a b c d attrs : Adapt unit) (fun _ => True).
Proof. unfold ReverseAttributesRectangularArea. ensure. apply ensures_change_area. Qed.
Lemma ensures_fill_area ch a b c d : ensures I (FillRectangularArea isa address mutationId textAddress ch a b c d : Adapt unit) (fun _ => True).
Proof. unfold FillRectangularArea. ensure; [apply ensures_area|by apply ensures_asks]. Qed.
Lemma ensures_erase_area a b c d : ensures I (EraseRectangularArea isa address mutationId textAddress a b c d : Adapt unit) (fun _ => True).
Proof. unfold EraseRectangularArea. ensure. apply ensures_area. Qed.
Lemma ensures_selective_area a b c d : ensures I (SelectiveEraseRectangularArea isa address mutationId a b c d : Adapt unit) (fun _ => True).
Proof. unfold SelectiveEraseRectangularArea. ensure. apply ensures_area. Qed.
Lemma ensures_graphics options : ensures I (SetGraphicsRendition isa address mutationId options : Adapt unit) (fun _ => True).
Proof. unfold SetGraphicsRendition. ensure. Qed.
Lemma ensures_protection options : ensures I (SetCharacterProtectionAttribute isa address mutationId options : Adapt unit) (fun _ => True).
Proof. unfold SetCharacterProtectionAttribute. ensure. Qed.
Lemma ensures_reverse_feed : ensures I (ReverseLineFeed isa address mutationId textAddress : Adapt unit) (fun _ => True).
Proof.
  unfold ReverseLineFeed. ensure.
Qed.
Lemma ensures_back : ensures I (BackIndex isa address mutationId textAddress : Adapt unit) (fun _ => True).
Proof. unfold BackIndex. ensure. Qed.
Lemma ensures_forward_index : ensures I (ForwardIndex isa address mutationId textAddress : Adapt unit) (fun _ => True).
Proof. unfold ForwardIndex. ensure. Qed.

(** A computation on the buffer that may move the cursor within the page. *)
Definition places {A} (m : M (TextBuffer * D) A) (Q : A -> Prop) : Prop :=
  forall tb d, buffer_ok tb -> _width tb = width -> on_screen page width (Cursor.GetPosition (_cursor tb)) ->
    let r := m (tb, d) in buffer_ok (fst (fst r)) /\ has_size (_width tb) (_height tb) (fst (fst r)) /\ on_screen page width (Cursor.GetPosition (_cursor (fst (fst r)))) /\ forall a, snd r = Ret a -> Q a.
Lemma places_bind {A B} (m : M (TextBuffer * D) A) (k : A -> M (TextBuffer * D) B) Q R : places m Q -> (forall a, Q a -> places (k a) R) -> places (mbind k m) R.
Proof.
  intros Hm Hk tb d Hb Hw Hc. destruct (Hm tb d Hb Hw Hc) as (Hb' & [Hw' Hh'] & Hc' & HQ). cbv zeta. cbv [mbind M_bind]. destruct (m (tb, d)) as [[tb' d'] [a| | |]]; cbn [fst snd] in *; try done.
  destruct (Hk a (HQ a eq_refl) tb' d' Hb' ltac:(congruence) Hc') as (? & [? ?] & ? & ?). split; [done|]. split; [split; congruence|]. done.
Qed.
Lemma places_keeps {A} (m : M (TextBuffer * D) A) : keeps_text m -> places m (fun _ => True).
Proof. intros Hm tb d Hb Hw Hc. destruct (Hm tb d Hb) as (? & ? & ? & Hcur & _). cbv zeta. rewrite Hcur. done. Qed.
Lemma places_on_page {A} (m : M (TextBuffer * D) A) Q : places m Q -> ensures I (AdaptDispatch.on_page_text page m : Adapt A) Q.
Proof.
  intros Hm [ad d] ((Hp & Hc & Hmar) & Hpage & Hw). cbn [fst] in *. destruct (active_page_ok _ Hp) as (Hat & Hb & Hbw & _). rewrite Hpage in Hat.
  unfold AdaptDispatch.on_page_text. cbn [fst snd]. rewrite Hat. unfold cursor_ok in Hc. rewrite Hpage, Hw in Hc.
  destruct (Hm (active_buffer (_pages ad)) d Hb ltac:(congruence) Hc) as (Hb' & Hs' & Hc' & HQ). destruct (m _) as [[tb' d'] o]. cbn [fst snd] in *. split; [|exact HQ].
  destruct (put_active (_pages ad) tb' Hp Hb' Hs') as (Hp' & Hwin & Hpage' & Hab). rewrite Hpage in *. unfold at_page, adapt_ok. cbn [_pages set_pages _scrollMargins].
  assert (Hw2 : page_width (PageManager.put_buffer (_buffer page) tb' (_pages ad)) = width) by (unfold page_width in *; destruct Hwin as (-> & _); done).
  split; [|done]. split; [done|]. split; [|done]. unfold cursor_ok. rewrite Hpage', Hab, Hw2. exact Hc'.
Qed.

Lemma places_position : places (TextBuffer.on_buffer (gets (fun tb => Cursor.GetPosition (_cursor tb)))) (on_screen page width).
Proof. intros tb d Hb Hw Hc. cbn. split; [done|]. split; [done|]. split; [done|]. by intros ? [= <-]. Qed.
Lemma places_clamp p : on_screen page width p -> places (TextBuffer.on_buffer (position ← TextBuffer.ClampPositionWithinLine isa p; TextBuffer.on_cursor (Cursor.SetPosition position))) (fun _ => True).
Proof.
  intros Hp tb d Hb Hw Hc. destruct Hfits as [Hw2 _]. unfold TextBuffer.on_buffer, TextBuffer.ClampPositionWithinLine. cbv zeta. cbv [mbind M_bind]. cbn [fst snd].
  destruct (lineWidth_spec isa tb (pt_y p) Hb) as [(tb' & -> & Hg)|[-> _]]; [|done]. cbv [mret M_ret]. pose proof (line_width_bounds isa tb (pt_y p) Hb ltac:(lia)) as Hlw.
  destruct (on_cursor_spec (Cursor.SetPosition (mkPoint (Z.min (pt_x p) (line_width isa tb (pt_y p) - 1)) (pt_y p))) tb' (grown_ok isa _ _ Hb Hg)) as (tb2 & -> & Hb2 & Hs2 & Hcur & _). cbn [fst snd].
  split; [done|]. split; [by destruct Hg as (k & -> & _)|]. split; [|done]. rewrite Hcur, set_position_at. unfold on_screen in *. cbn [pt_x pt_y]. lia.
Qed.
Lemma ensures_line_rendition rendition : ensures I (SetLineRendition isa address mutationId textAddress rendition : Adapt unit) (fun _ => True).
Proof.
  unfold SetLineRendition. ensure. apply places_on_page. unfold TextBuffer.SetCurrentLineRendition. eapply places_bind; [apply places_position|]. intros p Hp. cbv beta zeta.
  eapply places_bind; [apply places_keeps; eauto with keeps|]. intros r _. eapply places_bind; [apply places_keeps; eauto with keeps|]. intros old _. case_decide; [|apply places_keeps; eauto with keeps].
  eapply places_bind; [apply places_keeps; keep|]. intros _ _.
  eapply (places_bind _ _ (fun _ => True)).
  - case_decide; [|apply places_keeps; eauto with keeps]. eapply places_bind; [apply places_keeps; eauto with keeps|]. intros offset _. eapply places_bind; [apply places_keeps; eauto with keeps|]. intros _ _. by apply places_clamp.
  - intros _ _. apply places_keeps. keep.
Qed.
Lemma ensures_set_mode_on mode enable : ensures I (AdaptDispatch.set_mode mode enable : Adapt unit) (fun _ => True).
Proof. by apply ensures_alters. Qed.
Lemma ensures_alignment : ensures I (ScreenAlignmentPattern isa address mutationId textAddress : Adapt unit) (fun _ => True).
Proof.
  unfold ScreenAlignmentPattern. ensure; [apply ensures_set_mode_on..|by apply ensures_top_bottom|by apply ensures_left_right|by apply ensures_move].
Qed.
End functions.

(** ** Line feeds, text and the viewport

    The functions that move the viewport, and the text they are called for. *)

(** ** The viewport moves *)
Definition moved_page page (y : Z) : Page :=
  let v := _viewport page in mkPage (_buffer page) (mkRect (rc_left v) y (rc_right v) (y + (rc_bottom v - rc_top v))) (_number page).
Definition viewed (y : Z) ad : AdaptDispatch := set_pages (set_api (Terminal.SetViewportPosition (mkPoint 0 y) (_api (_pages ad))) (_pages ad)) ad.

(** The main buffer is shown, and its page is active. *)
Definition main_shown ad : Prop := Terminal._inAltBuffer (_api (_pages ad)) = false /\ in_background (_pages ad) = false.

Section viewport.
Context (page : Page) (width : Z).

Lemma viewed_ok ad y : at_page page width ad -> main_shown ad -> 0 <= y -> y + (rc_bottom (_viewport page) - rc_top (_viewport page)) <= _height (active ad) ->
  pages_ok (_pages (viewed y ad)) /\ active_page (_pages (viewed y ad)) = moved_page page y /\ page_width (_pages (viewed y ad)) = width /\ active (viewed y ad) = active ad.
Proof.
  intros ((Hp & Hc & Hm) & Hpage & Hw) [Halt Hback] Hy Hbound. pose proof Hp as ((Hterm & [Hw2 Hh2] & Hact & Hvis & Hlen & Hhid) & Hex). pose proof Hterm as (Hb & Hl & Hr & Hv & Hbot & _).
  unfold in_background in Hback. rewrite Halt in Hback. cbn [negb andb] in Hback. apply negb_false_iff in Hback.
  assert (Hpg : page = mkPage Shown (shown_view (_pages ad)) (_visiblePageNumber (_pages ad))) by (rewrite <- Hpage; unfold active_page; by rewrite Halt, Hback).
  destruct page as [ref v num]. injection Hpg as -> -> ->. cbn [_viewport] in *. unfold active, active_buffer in Hbound. rewrite Hpage in Hbound. cbn [_buffer PageManager.buffer_at default from_option id] in Hbound.
  unfold viewed. cbn [_pages set_pages]. unfold Terminal.SetViewportPosition. rewrite Halt. cbn [pt_x pt_y].
  unfold page_width, page_height, shown_view, PageManager.rect_width, PageManager.rect_height in *. set (view := Terminal._GetMutableViewport (_api (_pages ad))) in *.
  assert (Hmain : _mainBuffer (_api (_pages ad)) = Terminal._activeBuffer (_api (_pages ad))).
  { unfold Terminal._inAltBuffer in Halt. unfold Terminal._activeBuffer. by destruct (_altBuffer (_api (_pages ad))). }
  rewrite Hmain. set (buffer := Terminal._activeBuffer (_api (_pages ad))) in *.
  assert (Hx : clamp 0 0 (_width buffer - (rc_right view - rc_left view)) = 0) by (unfold clamp; repeat case_match; lia). rewrite Hx.
  assert (Hcy : clamp y 0 (_height buffer - (rc_bottom view - rc_top view)) = y) by (unfold clamp; repeat case_match; lia). rewrite Hcy.
  set (tm := tell ScrollEvent _). assert (Halt' : Terminal._inAltBuffer tm = false) by done. assert (Hbuf : Terminal._activeBuffer tm = buffer) by done.
  assert (Hview' : Terminal._GetMutableViewport tm = mkRect 0 y (0 + (rc_right view - rc_left view)) (y + (rc_bottom view - rc_top view))) by (unfold Terminal._GetMutableViewport; by rewrite Halt').
  unfold pages_ok, base_ok, terminal_ok, hidden_ok, in_background, active, active_buffer, active_page, page_width, page_height, shown_view, PageManager.rect_width, PageManager.rect_height.
  cbn [_api set_api _activePageNumber _visiblePageNumber _buffers _pages set_pages]. rewrite Hview', Halt', Hbuf, Halt, Hback. cbn [rc_left rc_top rc_right rc_bottom negb andb _buffer _viewport PageManager.buffer_at default from_option id _api].
  fold buffer. split; [|split; [unfold moved_page; cbn; rewrite Hl; by f_equal; f_equal; lia|split; [lia|done]]].
  split; [|done]. split; [split; [done|]; split; [done|]; split; [lia|]; split; [lia|]; split; [lia|done]|]. split; [lia|]. split; [done|]. split; [done|]. split; [done|].
  destruct Hhid as [|Hhid]; [congruence|right]. intros n tb Hn. destruct (Hhid n tb Hn) as [Hok [Hw' Hh']]. split; [done|]. unfold page_width, page_height, shown_view, PageManager.rect_width, PageManager.rect_height in *. fold view in Hw', Hh'. split; lia.
Qed.

(** Below other pages there is nothing. *)
Lemma pannable ad : at_page page width ad -> rc_bottom (_viewport page) - rc_top (_viewport page) < _height (active ad) -> main_shown ad.
Proof.
  intros ((Hp & _) & Hpage & _) Hlt. pose proof Hp as ((Hterm & _ & _ & _ & _ & Hhid) & Hex). pose proof Hterm as (_ & _ & _ & _ & _ & Halt).
  unfold main_shown, active, active_buffer in *. rewrite Hpage in Hlt. unfold active_page, in_background in *. destruct (Terminal._inAltBuffer (_api (_pages ad))) eqn:Ha.
  - subst page. cbn in Hlt. unfold shown_view in Hlt. rewrite (Halt eq_refl) in Hlt. unfold Terminal._GetMutableViewport in Hlt. rewrite Ha in Hlt. cbn in Hlt. lia.
  - split; [done|]. cbn [negb andb] in *. destruct (_activePageNumber (_pages ad) =? _visiblePageNumber (_pages ad)); [done|]. exfalso. destruct (Hex eq_refl) as [tb Htb].
    subst page. cbn [_viewport rc_top rc_bottom _buffer] in Hlt. rewrite Htb in Hlt. cbn [default from_option id] in Hlt. destruct Hhid as [|Hhid]; [congruence|]. destruct (Hhid _ _ (proj1 (hidden_lookup _ _ _) Htb)) as [_ [_ Hh]]. lia.
Qed.
Lemma moved_one : moved_page page (rc_top (_viewport page) + 1) = MoveViewportDown page.
Proof. unfold moved_page, MoveViewportDown. f_equal. f_equal. lia. Qed.
End viewport.

(** ** Computations after which the page may be another *)
Definition leads {D A} (I : AdaptDispatch -> Prop) (m : M (AdaptDispatch * D) A) (Q : A -> AdaptDispatch -> Prop) : Prop :=
  forall s, I (fst s) -> match snd (m s) with Ret a => Q a (fst (fst (m s))) | _ => adapt_ok (fst (fst (m s))) end.

Section leading.
Context {D : Type}.
Implicit Types (s : AdaptDispatch * D).

Lemma leads_bind {A B} (I : AdaptDispatch -> Prop) (m : M (AdaptDispatch * D) A) (k : A -> M (AdaptDispatch * D) B) Q R :
  leads I m Q -> (forall a, leads (Q a) (k a) R) -> leads I (mbind k m) R.
Proof.
  intros Hm Hk s Hs. specialize (Hm s Hs). cbv [mbind M_bind]. destruct (m s) as [s' [a| | |]]; cbn [fst snd] in *; try done. by apply Hk.
Qed.
Lemma leads_ret {A} (I : AdaptDispatch -> Prop) (a : A) (Q : A -> AdaptDispatch -> Prop) : (forall ad, I ad -> Q a ad) -> leads I (mret a : M (AdaptDispatch * D) A) Q.
Proof. intros HQ s Hs. by apply HQ. Qed.
Lemma leads_ensures {A} page width (m : M (AdaptDispatch * D) A) (Q : A -> Prop) : ensures (at_page page width) m Q -> leads (at_page page width) m (fun a ad => at_page page width ad /\ Q a).
Proof. intros Hm s Hs. destruct (Hm s Hs) as [HI HQ]. destruct (m s) as [s' [a| | |]]; cbn [fst snd] in *; [split; [done|]; by apply HQ|apply HI..]. Qed.
Lemma leads_weaken {A} (I J : AdaptDispatch -> Prop) (m : M (AdaptDispatch * D) A) (Q R : A -> AdaptDispatch -> Prop) : (forall ad, J ad -> I ad) -> leads I m Q -> (forall a ad, Q a ad -> R a ad) -> leads J m R.
Proof. intros HJ Hm HQ s Hs. specialize (Hm s (HJ _ Hs)). destruct (m s) as [s' [a| | |]]; cbn [fst snd] in *; try done. by apply HQ. Qed.
Lemma leads_pure {A} (I : AdaptDispatch -> Prop) (P : Prop) (m : M (AdaptDispatch * D) A) Q : (P -> leads I m Q) -> leads (fun ad => I ad /\ P) m Q.
Proof. intros Hm s [Hs HP]. by apply Hm. Qed.
Lemma leads_ok {A} (I : AdaptDispatch -> Prop) (m : M (AdaptDispatch * D) A) : leads I m (fun _ => adapt_ok) -> forall s, I (fst s) -> adapt_ok (fst (fst (m s))).
Proof. intros Hm s Hs. specialize (Hm s Hs). by destruct (m s) as [s' [a| | |]]. Qed.
End leading.

(** ** Line feeds *)
Section feeds.
Context `{VirtualMemory} `{Allocator} `{Turns} {D : Type} `{GraphemeDetector D} (isa : Intrinsics) (address : nat -> ROW -> Z) (mutationId textAddress : Z).
Abbreviation Adapt := (M (AdaptDispatch * D)).

Lemma ensures_told page width call f : (forall tm, f tm = tell call tm) -> ensures (at_page page width) (AdaptDispatch.on_api f : Adapt unit) (fun _ => True).
Proof. intros Hf [ad d] Hs. split; [|done]. unfold AdaptDispatch.on_api, AdaptDispatch.on_pages, modify. cbn [fst snd]. rewrite Hf. done. Qed.

Context (page : Page) (width : Z) (Hfits : page_fits page width).
Abbreviation top := (rc_top (_viewport page)).
Abbreviation bottom := (rc_bottom (_viewport page)).
Definition page_after (moved : bool) : Page := if moved then MoveViewportDown page else page.

Lemma moved_fits (moved : bool) : page_fits (page_after moved) width.
Proof. destruct Hfits. destruct moved; [|done]. split; [done|]. cbn. lia. Qed.

(** What keeps the buffer keeps its height and its cursor. *)
Lemma leads_keeps {A} (m : M TextBuffer A) height y : keeps m ->
  leads (fun ad => (at_page page width ad /\ _height (active ad) = height) /\ pt_y (cursor_at ad) = y) (AdaptDispatch.on_page page m : Adapt A)
    (fun _ ad => (at_page page width ad /\ _height (active ad) = height) /\ pt_y (cursor_at ad) = y).
Proof.
  intros Hm [ad d] [[Hat Hh] Hy]. cbn [fst] in *. rewrite (run_on_page page width) by done. destruct (cursor_on_screen page width ad Hat) as (Hon & Hb & Hbw). specialize (Hm (active ad) Hb).
  destruct (m (active ad)) as [tb o]. cbn [fst snd] in *. pose proof Hm as (Hb' & Hw' & Hh' & Hcur & _). destruct (with_at page width ad tb Hat Hb' (conj Hw' Hh')) as [Hat' Hact']; [by rewrite Hcur|].
  destruct o; cbn [fst snd]; [|apply Hat'..]. unfold cursor_at in *. rewrite Hact', Hcur. split; [|done]. split; [done|]. congruence.
Qed.

(** The viewport pans down a row. *)
Lemma pan_leads height y : bottom < height -> top < y < bottom ->
  leads (fun ad => (at_page page width ad /\ _height (active ad) = height) /\ pt_y (cursor_at ad) = y)
    (AdaptDispatch.on_api (Terminal.SetViewportPosition (mkPoint (AdaptDispatch.XPanOffset page) (AdaptDispatch.Top page + 1))) : Adapt unit)
    (fun _ => at_page (MoveViewportDown page) width).
Proof.
  intros Hlt Hy [ad d] [[Hat Hh] Hcy]. cbn [fst] in *. unfold AdaptDispatch.on_api, AdaptDispatch.on_pages, modify, AdaptDispatch.XPanOffset, AdaptDispatch.Top. cbn [fst snd].
  pose proof Hat as ((Hp & Hc & Hm) & Hpage & Hw). destruct (active_page_ok _ Hp) as (_ & _ & _ & Hleft & Htop & _). rewrite Hpage in Hleft, Htop. rewrite Hleft.
  destruct (viewed_ok page width ad (top + 1) Hat (pannable page width ad Hat ltac:(lia)) ltac:(lia) ltac:(lia)) as (Hp' & Hpage' & Hw' & Hact'). rewrite moved_one in Hpage'. fold (viewed (top + 1) ad).
  split; [|done]. split; [done|]. split; [|done]. unfold cursor_ok. rewrite Hpage', Hw'. unfold active in Hact'. rewrite Hact'. unfold cursor_ok in Hc. rewrite Hpage, Hw in Hc. unfold cursor_in, cursor_at, active in *. cbn. lia.
Qed.

Lemma feed_leads (x y leftMargin rightMargin topMargin bottomMargin height : Z) : 0 <= x < width -> top <= y < bottom -> top < bottomMargin < bottom ->
  leads (fun ad => (at_page page width ad /\ _height (active ad) = height) /\ pt_y (cursor_at ad) = y)
    ((if negb (y =? bottomMargin) || (x <? leftMargin) || (x >? rightMargin) then
       position ← AdaptDispatch.ClampPositionWithinLine isa page (mkPoint x (Z.min (y + 1) (AdaptDispatch.Bottom page - 1)));
       mret (position, false)
     else if (topMargin >? AdaptDispatch.Top page) || (leftMargin >? 0) || (rightMargin <? width - 1) then
       _ScrollRectVertically isa address textAddress page (mkRect leftMargin topMargin (rightMargin + 1) (bottomMargin + 1)) (-1) ;;
       mret (mkPoint x y, false)
     else if AdaptDispatch.Bottom page <? height then
       AdaptDispatch.on_api (Terminal.SetViewportPosition (mkPoint (AdaptDispatch.XPanOffset page) (AdaptDispatch.Top page + 1))) ;;
       (if bottomMargin <? AdaptDispatch.Bottom page - 1 then _ScrollRectVertically isa address textAddress page (mkRect 0 (bottomMargin + 1) width (AdaptDispatch.Bottom page + 1)) 1
        else
          eraseAttributes ← _GetEraseAttributes page;
          AdaptDispatch.on_page page (r ← TextBuffer.GetMutableRowByOffset isa (y + 1); TextBuffer.on_phys r (Row.Reset isa eraseAttributes))) ;;
       mret (mkPoint x (y + 1), true)
     else
       eraseAttributes ← _GetEraseAttributes page;
       AdaptDispatch.on_page page (TextBuffer.IncrementCircularBuffer isa eraseAttributes) ;;
       AdaptDispatch.on_api (Terminal.NotifyBufferRotation 1) ;;
       AdaptDispatch.on_page page (TextBuffer.TriggerScroll (mkPoint 0 (-1))) ;;
       (if bottomMargin <? AdaptDispatch.Bottom page - 1 then _ScrollRectVertically isa address textAddress page (mkRect 0 bottomMargin width height) 1 else mret tt) ;;
       mret (mkPoint x y, false)) : Adapt (point * bool))
    (fun r ad => at_page (page_after (snd r)) width ad /\ on_screen (page_after (snd r)) width (fst r)).
Proof.
  intros Hx Hy Hbm. assert (Hstay : forall m : Adapt (point * bool), ensures (at_page page width) m (fun r => snd r = false /\ on_screen page width (fst r)) ->
    leads (fun ad => (at_page page width ad /\ _height (active ad) = height) /\ pt_y (cursor_at ad) = y) m (fun r ad => at_page (page_after (snd r)) width ad /\ on_screen (page_after (snd r)) width (fst r))).
  { intros m Hm. eapply leads_weaken; [|apply leads_ensures, Hm|]; [tauto|]. intros [p b] ad [Hat [Hb Hp]]. cbn [fst snd] in *. by subst b. }
  destruct (_ || _ || _) eqn:Hinside.
  - apply Hstay. eapply ensures_bind; [apply ensures_clamped; [done|]|intros p Hp; by apply ensures_ret]. unfold on_screen, AdaptDispatch.Bottom. cbn [pt_x pt_y]. lia.
  - apply orb_false_iff in Hinside as [Hinside _]. apply orb_false_iff in Hinside as [Hinside _]. apply negb_false_iff, Z.eqb_eq in Hinside. subst y.
    destruct (_ || _ || _); [apply Hstay; eapply ensures_bind; [apply ensures_scroll_vertically|]; intros _ _; by apply ensures_ret|]. unfold AdaptDispatch.Bottom at 1. destruct (Z.ltb_spec bottom height) as [Hlt|Hge].
    + eapply leads_bind; [apply pan_leads; lia|]. intros []. cbv beta.
      eapply (leads_weaken (at_page (page_after true) width)); [done|apply leads_ensures with (Q := fun r => r = (mkPoint x (bottomMargin + 1), true))|].
      * eapply (ensures_bind _ _ _ (fun _ => True)); [|intros; by apply ensures_ret]. destruct (bottomMargin <? _).
        -- change (_ScrollRectVertically isa address textAddress page) with (@_ScrollRectVertically _ _ _ D _ isa address textAddress (page_after true)). apply ensures_scroll_vertically.
        -- change (@_GetEraseAttributes D page) with (@_GetEraseAttributes D (page_after true)). eapply ensures_bind; [apply ensures_erase_attributes|]. intros attr _.
           change (@AdaptDispatch.on_page D unit page) with (@AdaptDispatch.on_page D unit (page_after true)). apply ensures_keeps. keep.
      * intros r ad [Hat ->]. split; [done|]. unfold on_screen. cbn. lia.
    + apply Hstay. eapply ensures_bind; [apply ensures_erase_attributes|]. intros attr _. eapply ensures_bind; [apply ensures_keeps; eauto with keeps|]. intros _ _.
      eapply ensures_bind; [by apply (ensures_told _ _ (BufferRotation 1))|]. intros _ _. eapply ensures_bind; [apply ensures_keeps; eauto with keeps|]. intros _ _.
      eapply (ensures_bind _ _ _ (fun _ => True)); [destruct (_ <? _); [apply ensures_scroll_vertically|by apply ensures_ret]|]. intros _ _. by apply ensures_ret.
Qed.

Lemma line_feed_leads withReturn wrapForced : leads (at_page page width) (_DoLineFeed isa address textAddress page withReturn wrapForced : Adapt bool) (fun moved => at_page (page_after moved) width).
Proof.
  intros [ad d] Hat. cbn [fst] in Hat. pose proof Hfits as [Hw2 Hh2]. unfold _DoLineFeed. rewrite (run_width page width) by done. unfold AdaptDispatch.BufferHeight. rewrite (run_read page width) by done.
  rewrite run_vertical. cbv beta iota. rewrite run_horizontal. cbv beta iota. set (height := _height (active ad)).
  set (ad1 := set_scrollMargins _ (set_scrollMargins _ ad)). assert (Hat1 : at_page page width ad1) by (apply (settled_at page width ad Hat)). assert (Hh1 : _height (active ad1) = height) by done.
  match goal with |- context [fst (between ?a ?b ?c) + ?e] => pose proof (between_bounds a b c) as Hrows; set (rows := between a b c) in * end.
  cbn [_scrollMargins set_scrollMargins] in *. destruct (between (rc_left _) _ width) as [leftMargin rightMargin] eqn:Hcols.
  assert (Hcol : 0 <= leftMargin < width).
  { pose proof (between_bounds (rc_left (settle_vertical page (_scrollMargins ad))) (rc_right (settle_vertical page (_scrollMargins ad))) width) as Hb. rewrite Hcols in Hb. cbn [fst snd] in Hb.
    pose proof Hat as ((_ & _ & Hl & _) & _). assert (0 <= rc_left (settle_vertical page (_scrollMargins ad))) by (unfold settle_vertical; by destruct (_ >=? _)). lia. }
  assert (Hrow : 0 <= fst rows <= snd rows /\ snd rows < bottom - top /\ 0 < snd rows).
  { pose proof Hat as ((_ & _ & _ & Ht) & _). specialize (Hrows Ht ltac:(lia)). split; [lia|]. split; [lia|]. subst rows. unfold between. destruct (Z.geb_spec (rc_top (_scrollMargins ad)) (bottom - top - 1)); cbn [snd]; [lia|].
    destruct (Z.ltb_spec (rc_top (_scrollMargins ad)) (rc_bottom (_scrollMargins ad))); cbn [snd]; lia. }
  rewrite (run_position page width) by done. destruct (cursor_on_screen page width ad1 Hat1) as (Hon & Hb1 & Hbw1). set (p := cursor_at ad1) in *.
  match goal with |- context [mbind ?k (AdaptDispatch.on_page page ?m) (ad1, d)] =>
    assert (Hgo : leads (fun ad => (at_page page width ad /\ _height (active ad) = height) /\ pt_y (cursor_at ad) = pt_y p) (mbind k (AdaptDispatch.on_page page m)) (fun moved => at_page (page_after moved) width))
  end; [|by apply (Hgo (ad1, d))].
  eapply leads_bind; [apply leads_keeps; keep|]. intros []. eapply leads_bind; [apply feed_leads|].
  - unfold on_screen in Hon. destruct withReturn; [destruct (_ && _)|]; lia.
  - apply Hon.
  - lia.
  - intros [newPosition moved]. cbn [fst snd]. apply leads_pure. intros Hnew. apply (leads_bind _ _ _ (fun _ => at_page (page_after moved) width)); [|intros []; apply leads_ret; done].
    apply (leads_weaken (at_page (page_after moved) width) _ _ (fun _ ad => at_page (page_after moved) width ad /\ True)); [done| |by intros a ad' [Hat' _]]. apply leads_ensures. destruct moved.
    + change (AdaptDispatch.on_cursor page) with (@AdaptDispatch.on_cursor D (page_after true)). by apply ensures_set_position.
    + by apply ensures_set_position.
Qed.
End feeds.

(** ** Erasing the page *)
Section erasing.
Context `{VirtualMemory} `{Allocator} `{Turns} {D : Type} `{GraphemeDetector D} (isa : Intrinsics) (address : nat -> ROW -> Z) (mutationId textAddress : Z).
Abbreviation Adapt := (M (AdaptDispatch * D)).

Lemma set_y_at y c : Cursor.GetPosition (fst (Cursor.SetYPosition y c)) = mkPoint (pt_x (Cursor.GetPosition c)) y.
Proof. unfold Cursor.SetYPosition, Cursor.GetPosition, Cursor.ResetDelayEOLWrap. destruct c as [? [px py] ? ? ? ? ? ?]. cbn. by destruct (Z.eqb_spec py y) as [->|]. Qed.
Lemma last_text_bounds fuel : forall x y, 0 <= y -> returns (TextBuffer.lastTextLoop isa fuel 0 x y) (fun p => 0 <= pt_y p <= y).
Proof.
  induction fuel as [|fuel IH]; intros x y Hy; cbn [TextBuffer.lastTextLoop]; [apply returns_fuel|]. destruct ((x <? 0) && (y >? 0)) eqn:E; [|apply returns_ret; cbn; lia].
  eapply column_returns_bind; [apply returns_any|]. intros right _. intros s p Hp. assert (0 <= pt_y p <= y - 1) by (eapply IH; [lia|exact Hp]). lia.
Qed.
Lemma last_character_bounds last : 0 <= last -> returns (TextBuffer.GetLastNonSpaceCharacter isa 0 last) (fun p => 0 <= pt_y p <= last).
Proof.
  intros Hl. eapply (column_returns_bind _ _ (fun y => 0 <= y <= last)). { intros tb y [= <-]. unfold TextBuffer._estimateOffsetOfLastCommittedRow. lia. }
  intros y Hy. eapply column_returns_bind; [apply returns_any|]. intros right _ s p Hp. assert (0 <= pt_y p <= y) by (eapply last_text_bounds; [|exact Hp]; lia). lia.
Qed.

Context (page : Page) (width : Z) (Hfits : page_fits page width).
Abbreviation top := (rc_top (_viewport page)).
Abbreviation bottom := (rc_bottom (_viewport page)).

Lemma leads_keeps_returns {A} (m : M TextBuffer A) height y (Q : A -> Prop) : keeps m -> returns m Q ->
  leads (fun ad => (at_page page width ad /\ _height (active ad) = height) /\ pt_y (cursor_at ad) = y) (AdaptDispatch.on_page page m : Adapt A)
    (fun a ad => ((at_page page width ad /\ _height (active ad) = height) /\ pt_y (cursor_at ad) = y) /\ Q a).
Proof.
  intros Hm HQ s Hs. pose proof (leads_keeps page width m height y Hm s Hs) as HR. destruct (AdaptDispatch.on_page page m s) as [s' [a| | |]] eqn:Hrun; cbn [fst snd] in *; try done. split; [done|].
  destruct s as [ad d]. rewrite (run_on_page page width) in Hrun by apply Hs. injection Hrun as _ Ho. by apply (HQ (active ad)).
Qed.

(** The viewport has moved; the cursor is to follow. *)
Lemma view_cursor height y newTop ad (d : D) : top <= y < bottom -> 0 <= newTop -> newTop + (bottom - top) <= height ->
  at_page page width ad -> _height (active ad) = height -> pt_y (cursor_at ad) = y -> main_shown ad ->
  let '(s, o) := AdaptDispatch.on_cursor page (Cursor.SetYPosition (y - top + newTop)) (viewed newTop ad, d) in o = Ret tt /\ at_page (moved_page page newTop) width (fst s).
Proof.
  intros Hy Hnew Hfit Hat Hh Hcy Hmain. pose proof Hat as ((Hp & Hc & Hm) & Hpage & Hw). destruct (cursor_on_screen page width ad Hat) as (Hon & Hb & _).
  destruct (viewed_ok page width ad newTop Hat Hmain Hnew ltac:(lia)) as (Hp' & Hpage' & Hw' & Hact').
  unfold AdaptDispatch.on_cursor, AdaptDispatch.on_page, AdaptDispatch.on_pages, PageManager.on_ref. cbn [fst snd].
  destruct (active_page_ok _ Hp') as (Hat' & _ & Hbw & _). rewrite Hpage' in Hat'. cbn [_buffer moved_page] in Hat'. rewrite Hat'. fold (active (viewed newTop ad)). rewrite Hact'.
  destruct (on_cursor_spec (Cursor.SetYPosition (y - top + newTop)) (active ad) Hb) as (tb & -> & Hb2 & Hs2 & Hcur & _). cbn [fst snd]. split; [done|].
  destruct (put_active (_pages (viewed newTop ad)) tb Hp' Hb2) as (Hp2 & Hwin & Hpage2 & Hact2); [fold (active (viewed newTop ad)); by rewrite Hact'|]. rewrite Hpage' in *. cbn [_buffer moved_page] in *.
  assert (Hw2 : page_width (PageManager.put_buffer (_buffer page) tb (_pages (viewed newTop ad))) = width) by (unfold page_width in *; destruct Hwin as (-> & _); done).
  split; [|done]. split; [done|]. split; [|done]. unfold cursor_ok. cbn [_pages set_pages]. rewrite Hpage2, Hact2, Hw2. unfold cursor_in. rewrite Hcur, set_y_at. fold (cursor_at ad). unfold on_screen in Hon. cbn. lia.
Qed.

(** The viewport moves, with the cursor. *)
Lemma move_view_leads height y newTop : top <= y < bottom -> 0 <= newTop -> newTop + (bottom - top) <= height ->
  leads (fun ad => (at_page page width ad /\ _height (active ad) = height) /\ pt_y (cursor_at ad) = y)
    ((if negb (newTop =? AdaptDispatch.Top page) then AdaptDispatch.on_api (Terminal.SetViewportPosition (mkPoint (AdaptDispatch.XPanOffset page) newTop)) else mret tt) ;;
     AdaptDispatch.on_cursor page (Cursor.SetYPosition (y - AdaptDispatch.Top page + newTop)) : Adapt unit)
    (fun _ => at_page (moved_page page newTop) width).
Proof.
  intros Hy Hnew Hfit [ad d] [[Hat Hh] Hcy]. cbn [fst] in *. unfold AdaptDispatch.Top. pose proof Hat as ((Hp & Hc & Hm) & Hpage & Hw). destruct (active_page_ok _ Hp) as (_ & _ & _ & Hleft & Htop & Hbot & Hsize & _). rewrite Hpage in Hleft, Htop, Hbot, Hsize. fold (active ad) in Hbot.
  destruct (cursor_on_screen page width ad Hat) as (Hon & Hb & _).
  destruct (Z.eqb_spec newTop top) as [Heq|Hne]; cbn [negb].
  - rewrite run_ret. subst newTop. assert (Hsame : moved_page page top = page) by (unfold moved_page; destruct page as [? [] ?]; cbn; f_equal; f_equal; lia). rewrite Hsame.
    assert (Hens : ensures (at_page page width) (AdaptDispatch.on_cursor page (Cursor.SetYPosition (y - top + top)) : Adapt unit) (fun _ => True)).
    { apply ensures_on_cursor. intros c [Hx1 Hy1]. rewrite set_y_at. unfold on_screen. cbn. lia. }
    destruct (Hens (ad, d) Hat) as [HI _]. destruct (AdaptDispatch.on_cursor _ _ _) as [? [[]| | |]]; [done|apply HI..].
  - unfold AdaptDispatch.XPanOffset. rewrite Hleft. assert (Hrun : AdaptDispatch.on_api (Terminal.SetViewportPosition (mkPoint 0 newTop)) (ad, d) = ((viewed newTop ad, d), Ret tt)) by done.
    erewrite run_bind by exact Hrun.
    pose proof (view_cursor height y newTop ad d Hy Hnew Hfit Hat Hh Hcy (pannable page width ad Hat ltac:(lia))) as HR. destruct (AdaptDispatch.on_cursor _ _ _) as [s o]. destruct HR as [-> HR]. exact HR.
Qed.

Lemma leads_adapt {A} page' (m : Adapt A) (Q : A -> Prop) : ensures (at_page page' width) m Q -> leads (at_page page' width) m (fun _ => adapt_ok).
Proof. intros Hm s Hs. destruct (Hm s Hs) as [[HI _] _]. by destruct (m s) as [s' [a| | |]]. Qed.

Lemma erase_all_leads : leads (at_page page width) (_EraseAll isa address mutationId textAddress : Adapt unit) (fun _ => adapt_ok).
Proof.
  intros [ad d] Hat. cbn [fst] in Hat. pose proof Hfits as [_ Hh2]. unfold _EraseAll. rewrite (run_active _ _ _ page width), (run_width page width) by done. unfold AdaptDispatch.BufferHeight. rewrite (run_read page width), (run_position page width) by done.
  cbv zeta. set (height := _height (active ad)). destruct (cursor_on_screen page width ad Hat) as (Hon & Hb & _). set (y := pt_y (cursor_at ad)).
  assert (Hsize : 0 <= bottom - top <= height). { destruct Hat as ((Hp & _) & Hpage & _). destruct (active_page_ok _ Hp) as (_ & _ & _ & _ & Htop & Hbot & _). rewrite Hpage in Htop, Hbot. fold (active ad) in Hbot. fold height in Hbot. lia. }
  match goal with |- match snd (?m (ad, d)) with _ => _ end => assert (Hgo : leads (fun ad => (at_page page width ad /\ _height (active ad) = height) /\ pt_y (cursor_at ad) = y) m (fun _ => adapt_ok)); [|by apply (Hgo (ad, d))] end.
  eapply leads_bind; [apply (leads_keeps_returns _ height y (fun p => 0 <= pt_y p <= height - 1)); [eauto with keeps|apply last_character_bounds; lia]|]. intros lastChar. apply leads_pure. intros Hlast. cbv beta in Hlast.
  set (newTop := if decide (lastChar = _) then 0 else pt_y lastChar + 1). assert (Hnew : 0 <= newTop <= height) by (subst newTop; case_decide; lia). unfold AdaptDispatch.Height, AdaptDispatch.Bottom, AdaptDispatch.Top.
  set (delta := newTop + (bottom - top) - height).
  eapply (leads_bind _ _ _ (fun _ ad => (at_page page width ad /\ _height (active ad) = height) /\ pt_y (cursor_at ad) = y)).
  { destruct (delta >? 0); [|by apply leads_ret]. eapply leads_bind; [apply leads_keeps; eauto with keeps|]. intros [].
    eapply (leads_bind _ _ _ (fun _ ad => (at_page page width ad /\ _height (active ad) = height) /\ pt_y (cursor_at ad) = y)); [|intros []; apply leads_keeps; eauto with keeps].
    intros [ad' d'] [[Hat' Hh'] Hy']. done. }
  intros []. set (finalTop := if delta >? 0 then newTop - delta else newTop). set (finalBottom := if delta >? 0 then newTop + (bottom - top) - delta else newTop + (bottom - top)).
  assert (Hfinal : 0 <= finalTop /\ finalTop + (bottom - top) <= height) by (subst finalTop delta; destruct (Z.gtb_spec (newTop + (bottom - top) - height) 0); lia).
  match goal with |- leads _ (mbind (fun _ => mbind ?k ?b) ?a) _ =>
    assert (Hassoc : leads (fun ad => (at_page page width ad /\ _height (active ad) = height) /\ pt_y (cursor_at ad) = y) (mbind k (mbind (fun _ => b) a)) (fun _ => adapt_ok)) end.
  - eapply leads_bind; [apply (move_view_leads height y finalTop); [apply Hon|lia|lia]|]. intros [].
    eapply leads_adapt. change (@_GetEraseAttributes D page) with (@_GetEraseAttributes D (moved_page page finalTop)). eapply ensures_bind; [apply ensures_erase_attributes|]. intros attr _.
    change (_FillRect isa address textAddress page) with (@_FillRect _ _ _ D _ isa address textAddress (moved_page page finalTop)). eapply ensures_bind; [apply ensures_fill|]. intros _ _.
    change (@AdaptDispatch.on_page D unit page) with (@AdaptDispatch.on_page D unit (moved_page page finalTop)). apply ensures_keeps. eauto with keeps.
  - intros s Hs. specialize (Hassoc s Hs). revert Hassoc. cbv [mbind M_bind]. destruct (_ s) as [s' [[]| | |]]; done.
Qed.

(** The scrollback is erased with the page in the foreground. *)
Lemma visible_spec pm : pages_ok pm -> in_background pm = false -> PageManager.VisiblePage isa address mutationId pm = (pm, Ret (active_page pm)).
Proof.
  intros ((_ & _ & _ & Hvis & _) & _) Hback. unfold PageManager.VisiblePage, PageManager.Get. rewrite run_gets, is_page_clamped by done. rewrite !run_gets. unfold active_page, in_background, shown_view in *.
  destruct (Terminal._inAltBuffer (_api pm)); [done|]. cbn [negb andb] in Hback. apply negb_false_iff in Hback. by rewrite Hback, Z.eqb_refl.
Qed.
Lemma scrollback_front_leads : leads (fun ad => at_page page width ad /\ in_background (_pages ad) = false) (_EraseScrollback isa address mutationId : Adapt unit) (fun _ => adapt_ok).
Proof.
  intros [ad d] [Hat Hfront]. cbn [fst] in *. unfold _EraseScrollback. pose proof Hat as ((Hp & _) & Hpage & _).
  assert (Hvis : AdaptDispatch.VisiblePage isa address mutationId (ad, d) = ((ad, d), Ret page)).
  { unfold AdaptDispatch.VisiblePage, AdaptDispatch.on_pages. cbn [fst snd]. rewrite visible_spec by done. rewrite Hpage. by destruct ad. }
  erewrite run_bind by exact Hvis. rewrite (run_position page width) by done. cbv zeta. set (height := _height (active ad)). destruct (cursor_on_screen page width ad Hat) as (Hon & Hb & _). set (y := pt_y (cursor_at ad)).
  assert (Hsize : rc_left (_viewport page) = 0 /\ 0 <= top /\ bottom - top <= height). { destruct (active_page_ok _ Hp) as (_ & _ & _ & Hl & Htop & Hbot & _). rewrite Hpage in Hl, Htop, Hbot. fold (active ad) in Hbot. fold height in Hbot. lia. }
  match goal with |- match snd (?m (ad, d)) with _ => _ end => assert (Hgo : leads (fun ad => (at_page page width ad /\ _height (active ad) = height) /\ pt_y (cursor_at ad) = y) m (fun _ => adapt_ok)); [|by apply (Hgo (ad, d))] end.
  eapply leads_bind; [apply leads_keeps; eauto with keeps|]. intros [] [ad' d'] [[Hat' Hh'] Hy']. cbn [fst] in *. unfold AdaptDispatch.XPanOffset, AdaptDispatch.Top. destruct Hsize as (-> & Htop & Hsize).
  assert (Hrun : AdaptDispatch.on_api (Terminal.SetViewportPosition (mkPoint 0 0)) (ad', d') = ((viewed 0 ad', d'), Ret tt)) by done. erewrite run_bind by exact Hrun.
  destruct (Terminal._inAltBuffer (_api (_pages ad'))) eqn:Halt.
  - assert (Hsame : viewed 0 ad' = ad') by (unfold viewed, Terminal.SetViewportPosition; rewrite Halt; destruct ad' as [? ? ? ? [] ? ? ? ?]; done). rewrite Hsame.
    assert (Htop0 : top = 0). { destruct Hat' as (_ & <- & _). unfold active_page, shown_view, Terminal._GetMutableViewport. by rewrite Halt. }
    assert (Hens : ensures (at_page page width) (AdaptDispatch.on_cursor page (Cursor.SetYPosition (y - top)) : Adapt unit) (fun _ => True)).
    { apply ensures_on_cursor. intros c [Hx1 Hy1]. rewrite set_y_at. unfold on_screen in *. cbn. lia. }
    destruct (Hens (ad', d') Hat') as [HI _]. destruct (AdaptDispatch.on_cursor _ _ _) as [? [[]| | |]]; apply HI.
  - assert (Hmain : main_shown ad').
    { split; [done|]. pose proof Hat as (_ & Hpg & _). pose proof Hat' as (_ & Hpg' & _). unfold in_background. rewrite Halt. cbn [negb andb]. unfold in_background, active_page in *.
      destruct (_activePageNumber (_pages ad') =? _visiblePageNumber (_pages ad')); [done|]. rewrite Halt in Hpg'. rewrite <- Hpg' in Hpg. destruct (Terminal._inAltBuffer (_api (_pages ad))); [done|]. cbn [negb andb] in Hfront. apply negb_false_iff in Hfront. by rewrite Hfront in Hpg. }
    pose proof (view_cursor height y 0 ad' d' ltac:(apply Hon) ltac:(lia) ltac:(lia) Hat' Hh' Hy' Hmain) as HR. rewrite Z.add_0_r in HR. destruct (AdaptDispatch.on_cursor _ _ _) as [s o]. destruct HR as [-> HR]. apply HR.
Qed.
End erasing.

(** ** With the page in the background *)
Definition background (view : rect) (width height : Z) ad : Prop :=
  adapt_ok ad /\ in_background (_pages ad) = true /\ shown_view (_pages ad) = view /\ has_size width height (shown (_pages ad)).

Section background.
Context `{VirtualMemory} `{Allocator} `{Turns} {D : Type} `{GraphemeDetector D} (isa : Intrinsics) (address : nat -> ROW -> Z) (mutationId : Z).
Context (view : rect) (width height : Z) (n : Z).
Abbreviation Adapt := (M (AdaptDispatch * D)).
Abbreviation front := (mkPage Shown view n).

Lemma background_page pm : in_background pm = true ->
  active_page pm = mkPage (Hidden (Z.to_nat (_activePageNumber pm - 1))) (mkRect 0 0 (page_width pm) (page_height pm)) (_activePageNumber pm) /\ Terminal._inAltBuffer (_api pm) = false.
Proof. unfold in_background, active_page. destruct (Terminal._inAltBuffer (_api pm)); [done|]. cbn [negb andb]. intros Hne%negb_true_iff. by rewrite Hne. Qed.

Lemma background_put ad tb : background view width height ad -> buffer_ok tb -> has_size width height tb -> background view width height (set_pages (PageManager.put_buffer Shown tb (_pages ad)) ad).
Proof.
  intros ((Hp & Hc & Hm) & Hback & Hview & Hsw & Hsh) Hb [Hw Hh]. pose proof Hp as [Hbase Hex]. pose proof (put_window Shown tb (_pages ad)) as (Hv' & Halt' & Ha' & Hvis').
  set (pm' := PageManager.put_buffer Shown tb (_pages ad)) in *. assert (Hback' : in_background pm' = true) by (unfold in_background in *; by rewrite Halt', Ha', Hvis').
  destruct (background_page _ Hback) as [Hpage _]. destruct (background_page _ Hback') as [Hpage' _].
  assert (Hsame : active_page pm' = active_page (_pages ad)) by (rewrite Hpage, Hpage'; unfold page_width, page_height; by rewrite Hv', Ha').
  assert (Hbuf : active_buffer pm' = active_buffer (_pages ad)).
  { unfold active_buffer. rewrite Hsame, Hpage. cbn [_buffer]. change (PageManager.buffer_at (Hidden _) pm') with (PageManager.buffer_at (Hidden (Z.to_nat (_activePageNumber (_pages ad) - 1))) (_pages ad)). destruct (Hex Hback) as [x ->]. done. }
  split; [|split; [done|split; [cbn [_pages set_pages]; congruence|]]].
  - split; [split|split; [|done]]; cbn [_pages set_pages].
    + apply (put_base Shown (shown (_pages ad))); [done|done|done|]. split; congruence.
    + intros _. rewrite Ha'. exact (Hex Hback).
    + unfold cursor_ok, page_width in *. by rewrite Hsame, Hbuf, Hv'.
  - unfold shown. cbn [_pages set_pages]. subst pm'. cbn. unfold Terminal._activeBuffer, Terminal.set_activeBuffer. by destruct (_altBuffer (_api (_pages ad))) eqn:E; cbn; rewrite ?E.
Qed.

Lemma background_on_page {A} (m : M TextBuffer A) : (forall tb, buffer_ok tb -> buffer_ok (fst (m tb)) /\ has_size (_width tb) (_height tb) (fst (m tb))) ->
  ensures (background view width height) (AdaptDispatch.on_page front m : Adapt A) (fun _ => True).
Proof.
  intros Hm [ad d] Hs. split; [|done]. unfold AdaptDispatch.on_page, AdaptDispatch.on_pages, PageManager.on_ref. cbn [fst snd _buffer PageManager.buffer_at]. fold (shown (_pages ad)).
  pose proof Hs as ((((Hterm & _) & _) & _) & _ & _ & [Hw Hh]). destruct (Hm (shown (_pages ad)) ltac:(apply Hterm)) as [Hb [Hw' Hh']]. destruct (m (shown (_pages ad))) as [tb o]. cbn [fst snd] in *.
  apply background_put; [done|done|]. split; congruence.
Qed.
Lemma background_keeps {A} (m : M TextBuffer A) : keeps m -> ensures (background view width height) (AdaptDispatch.on_page front m : Adapt A) (fun _ => True).
Proof. intros Hm. apply background_on_page. intros tb Hb. destruct (Hm tb Hb) as (? & ? & ? & _). done. Qed.
Lemma background_cursor f : ensures (background view width height) (AdaptDispatch.on_cursor front f : Adapt unit) (fun _ => True).
Proof. apply background_on_page. intros tb Hb. destruct (on_cursor_spec f tb Hb) as (tb' & -> & ? & ? & _). done. Qed.

(** The viewport goes to the top; the active page does not see it. *)
Lemma background_viewed ad : background view width height ad -> background (mkRect 0 0 (rc_right view) (rc_bottom view - rc_top view)) width height (viewed 0 ad).
Proof.
  intros ((Hp & Hc & Hm) & Hback & Hview & Hsize). pose proof Hp as ((Hterm & Hdim & Hact & Hvis & Hlen & Hhid) & Hex). pose proof Hterm as (Hb & Hl & Hr & Hv & Hbot & _).
  destruct (background_page _ Hback) as [Hpage Halt]. unfold shown_view in Hview. rewrite Hview in *.
  assert (Hmain : _mainBuffer (_api (_pages ad)) = shown (_pages ad)) by (unfold Terminal._inAltBuffer in Halt; unfold shown, Terminal._activeBuffer; by destruct (_altBuffer (_api (_pages ad)))).
  fold (shown (_pages ad)) in *.
  assert (Hapi : Terminal.SetViewportPosition (mkPoint 0 0) (_api (_pages ad)) = tell ScrollEvent (set_mutableViewport (mkRect 0 0 (rc_right view) (rc_bottom view - rc_top view)) (_api (_pages ad)))).
  { unfold Terminal.SetViewportPosition. rewrite Halt, Hview, Hmain, Hl, Hr. cbn [pt_x pt_y]. repeat f_equal; unfold clamp; repeat case_match; lia. }
  unfold viewed. rewrite Hapi. set (tm := tell ScrollEvent _). assert (Halt' : Terminal._inAltBuffer tm = false) by done.
  assert (Hview' : Terminal._GetMutableViewport tm = mkRect 0 0 (rc_right view) (rc_bottom view - rc_top view)) by (unfold Terminal._GetMutableViewport; by rewrite Halt').
  assert (Hshown : Terminal._activeBuffer tm = shown (_pages ad)) by done. set (pm' := set_api tm (_pages ad)). assert (Hback' : in_background pm' = true) by done.
  assert (Hw' : page_width pm' = page_width (_pages ad)) by (unfold page_width, shown_view, PageManager.rect_width; cbn [pm' _api set_api]; rewrite Hview', Hview; cbn; lia).
  assert (Hh' : page_height pm' = page_height (_pages ad)) by (unfold page_height, shown_view, PageManager.rect_height; cbn [pm' _api set_api]; rewrite Hview', Hview; cbn; lia).
  destruct (background_page _ Hback') as [Hpage' _]. assert (Hsame : active_page pm' = active_page (_pages ad)) by (rewrite Hpage, Hpage', Hw', Hh'; done).
  assert (Hbuf : active_buffer pm' = active_buffer (_pages ad)).
  { unfold active_buffer. rewrite Hsame, Hpage. cbn [_buffer]. change (PageManager.buffer_at (Hidden _) pm') with (PageManager.buffer_at (Hidden (Z.to_nat (_activePageNumber (_pages ad) - 1))) (_pages ad)). destruct (Hex Hback) as [x ->]. done. }
  split; [|split; [done|split; [done|done]]]. split; [split|split; [|done]]; cbn [_pages set_pages]; fold pm'.
  - split; [|split; [by rewrite Hw', Hh'|split; [done|split; [done|split; [done|]]]]].
    + unfold terminal_ok. change (_api pm') with tm. rewrite Hview', Hshown, Halt'. cbn. split; [done|]. split; [done|]. split; [done|]. split; [lia|]. split; [lia|done].
    + destruct Hhid as [|Hhid]; [congruence|right]. intros k tb Hk. rewrite Hw', Hh'. by apply (Hhid k).
  - intros _. exact (Hex Hback).
  - unfold cursor_ok in *. by rewrite Hsame, Hbuf, Hw'.
Qed.
End background.

(** The scrollback is erased, wherever the active page is. *)
Section scrollback.
Context `{VirtualMemory} `{Allocator} `{Turns} {D : Type} `{GraphemeDetector D} (isa : Intrinsics) (address : nat -> ROW -> Z) (mutationId : Z).
Abbreviation Adapt := (M (AdaptDispatch * D)).

Lemma visible_back pm : pages_ok pm -> in_background pm = true -> PageManager.VisiblePage isa address mutationId pm = (pm, Ret (mkPage Shown (shown_view pm) (_visiblePageNumber pm))).
Proof.
  intros ((_ & _ & _ & Hvis & _) & _) Hback. destruct (background_page _ Hback) as [_ Halt]. unfold PageManager.VisiblePage, PageManager.Get. rewrite run_gets, is_page_clamped by done. rewrite !run_gets, Halt, Z.eqb_refl. done.
Qed.

Lemma scrollback_back ad (d : D) : adapt_ok ad -> in_background (_pages ad) = true -> adapt_ok (fst (fst ((_EraseScrollback isa address mutationId : Adapt unit) (ad, d)))).
Proof.
  intros Hok Hback. set (view := shown_view (_pages ad)). set (width := _width (shown (_pages ad))). set (height := _height (shown (_pages ad))).
  assert (Hbg : background view width height ad) by done. pose proof Hok as (Hp & _). pose proof Hp as ((Hterm & _) & _). pose proof Hterm as (_ & Hl & _).
  unfold _EraseScrollback. assert (Hvis : AdaptDispatch.VisiblePage isa address mutationId (ad, d) = ((ad, d), Ret (mkPage Shown view (_visiblePageNumber (_pages ad))))).
  { unfold AdaptDispatch.VisiblePage, AdaptDispatch.on_pages. cbn [fst snd]. rewrite visible_back by done. by destruct ad. }
  erewrite run_bind by exact Hvis. set (front := mkPage Shown view (_visiblePageNumber (_pages ad))).
  match goal with |- adapt_ok (fst (fst (?m (ad, d)))) => assert (Hgo : leads (background view width height) m (fun _ => adapt_ok)); [|by apply (leads_ok _ _ Hgo)] end.
  assert (Hstep : forall A B (m : Adapt A) (k : A -> Adapt B), ensures (background view width height) m (fun _ => True) -> (forall a, leads (background view width height) (k a) (fun _ => adapt_ok)) -> leads (background view width height) (mbind k m) (fun _ => adapt_ok)).
  { intros A B m k Hm Hk. apply (leads_bind _ _ _ (fun _ => background view width height)); [|done]. intros s Hs. destruct (Hm s Hs) as [HI _]. by destruct (m s) as [s' [a| | |]]; [|apply HI..]. }
  apply Hstep; [eapply ensures_bind; [by apply background_on_page|]; intros; by apply ensures_ret|]. intros position. apply Hstep; [apply background_keeps; eauto with keeps|]. intros [].
  set (view' := mkRect 0 0 (rc_right view) (rc_bottom view - rc_top view)).
  apply (leads_bind _ _ _ (fun _ => background view' width height)).
  - intros [ad' d'] Hs. cbn [fst] in Hs. unfold AdaptDispatch.XPanOffset. cbn [front _viewport]. fold (shown_view (_pages ad)) in Hl. fold view in Hl. rewrite Hl. by apply background_viewed.
  - intros [] s Hs. change (AdaptDispatch.on_cursor front) with (@AdaptDispatch.on_cursor D (mkPage Shown view' (_visiblePageNumber (_pages ad)))).
    match goal with |- context [AdaptDispatch.on_cursor ?p ?f s] => destruct (background_cursor view' width height (_visiblePageNumber (_pages ad)) f s Hs) as [HI _]; destruct (AdaptDispatch.on_cursor p f s) as [s' [a| | |]]; apply HI end.
Qed.

Lemma scrollback_ok : ensures adapt_ok (_EraseScrollback isa address mutationId : Adapt unit) (fun _ => True).
Proof.
  intros [ad d] Hok. split; [|done]. cbn [fst] in Hok. destruct (in_background (_pages ad)) eqn:Hback; [by apply scrollback_back|]. destruct (adapt_ok_page _ Hok) as [Hat Hfits].
  by apply (leads_ok _ _ (scrollback_front_leads isa address mutationId _ _ Hfits)).
Qed.
End scrollback.

(** ** Text *)
Section text.
Context `{VirtualMemory} `{Allocator} `{Turns} {D : Type} `{GraphemeDetector D} (isa : Intrinsics) (address : nat -> ROW -> Z) (mutationId textAddress : Z).
Context (width : Z).
Abbreviation Adapt := (M (AdaptDispatch * D)).

(** The cursor of the loop is on the page. *)
Definition writing page (p : point) (limit : Z) : Prop := page_fits page width /\ on_screen page width p /\ 1 <= limit <= width.

Lemma wrap_leads page wrapAtEOL rightMargin vertical p limit : 0 <= rightMargin -> writing page p limit ->
  leads (at_page page width) (wrapPending isa address textAddress page wrapAtEOL rightMargin vertical p limit : Adapt (Page * (Z * Z) * point * Z))
    (fun '(page', _, p', limit') ad => at_page page' width ad /\ writing page' p' limit').
Proof.
  intros Hr Hw. pose proof Hw as (Hfits & Hp & Hlim). unfold wrapPending.
  assert (Hsame : leads (at_page page width) (mret (page, vertical, p, limit) : Adapt (Page * (Z * Z) * point * Z)) (fun '(page', _, p', limit') ad => at_page page' width ad /\ writing page' p' limit')).
  { apply leads_ret. intros ad Hat. by split. }
  eapply leads_bind.
  { apply leads_ensures with (Q := fun _ => True). eapply ensures_bind; [apply ensures_cursor|]. intros. by apply ensures_ret. }
  intros delayed. apply leads_pure. intros _. destruct delayed as [q|]; [|exact Hsame]. destruct wrapAtEOL; [|exact Hsame].
  eapply leads_bind; [apply leads_ensures, ensures_reset_delay|]. intros []. apply leads_pure. intros _. destruct (point_eqb q p); [|exact Hsame].
  eapply leads_bind; [by apply line_feed_leads|]. intros moved. cbv zeta. fold (page_after page moved). pose proof (moved_fits page width Hfits moved) as Hfits'.
  eapply (leads_bind _ _ _ (fun v ad => at_page (page_after page moved) width ad /\ True)).
  { apply leads_ensures. destruct moved; [eapply ensures_weaken; [by apply ensures_vertical|done]|by apply ensures_ret]. }
  intros v. apply leads_pure. intros _. eapply leads_bind; [apply leads_ensures, ensures_position|]. intros p'. apply leads_pure. intros Hp'.
  eapply leads_bind; [by apply leads_ensures, ensures_line_width|]. intros lw. apply leads_pure. intros Hlw. cbv beta in Hlw. apply leads_ret. intros ad Hat. split; [done|]. split; [done|]. split; [done|].
  destruct (_ && _); lia.
Qed.

Lemma write_row_ensures page row state : ensures (at_page page width) (write_row isa address page row state : Adapt RowWriteState)
  (fun st => 0 <= columnEnd st /\ columnLimit st = columnLimit state /\ columnBegin st = columnBegin state).
Proof.
  eapply ensures_bind; [apply ensures_attributes|]. intros attr _. eapply ensures_bind; [apply ensures_mode|]. intros insert _.
  apply ensures_keeps_text; [destruct insert; eauto with keeps|]. apply written_end.
Qed.
Lemma skip_ensures page state : ensures (at_page page width) (skip_grapheme state : Adapt RowWriteState) (fun st => columnLimit st = columnLimit state).
Proof. intros [ad d] Hat. unfold skip_grapheme. cbn [fst snd]. destruct (TextBuffer.GraphemeNext _ _ _ _) as [[d' n]|]; [|done]. cbn [fst snd]. split; [done|]. by intros ? [= <-]. Qed.

Lemma write_leads fuel wrapAtEOL rightMargin : 0 <= rightMargin -> forall page vertical p state, writing page p (columnLimit state) ->
  leads (at_page page width) (writeLoop isa address textAddress fuel page wrapAtEOL rightMargin vertical p state : Adapt Page) (fun page' ad => at_page page' width ad /\ page_fits page' width).
Proof.
  intros Hr. induction fuel as [|fuel IH]; intros page vertical p state Hw; cbn [writeLoop]; [intros s Hs; apply Hs|].
  assert (Hdone : leads (at_page page width) (mret page : Adapt Page) (fun page' ad => at_page page' width ad /\ page_fits page' width)) by (apply leads_ret; intros ad Hat; split; [done|apply Hw]).
  destruct (text state) eqn:Ht; [exact Hdone|]. rewrite <- Ht. clear Hdone. eapply leads_bind; [by apply wrap_leads|]. intros [[[page' v'] p'] limit']. cbv beta iota. apply leads_pure. intros (Hfits & Hp & Hlim).
  cbv zeta. eapply leads_bind; [apply leads_ensures, write_row_ensures|]. intros st. apply leads_pure. cbn [columnLimit columnBegin]. intros (He & Hl & _). rewrite Hl.
  set (q := mkPoint (if columnEnd st >=? limit' then limit' - 1 else columnEnd st) (pt_y p')).
  assert (Hq : on_screen page' width q) by (unfold on_screen in *; subst q; cbn [pt_x pt_y]; destruct (Z.geb_spec (columnEnd st) limit'); lia).
  eapply leads_bind; [apply leads_ensures; by apply ensures_set_position|]. intros []. apply leads_pure. intros _.
  eapply (leads_bind _ _ _ (fun st' ad => at_page page' width ad /\ columnLimit st' = limit')).
  { apply leads_ensures. destruct (_ && _ && _); [eapply ensures_weaken; [apply skip_ensures|]; intros; congruence|by apply ensures_ret]. }
  intros st'. apply leads_pure. intros Hl'. eapply (leads_bind _ _ _ (fun _ ad => at_page page' width ad /\ True)).
  { apply leads_ensures. destruct (_ && _); [apply ensures_delay|by apply ensures_ret]. }
  intros []. apply leads_pure. intros _. apply IH. rewrite Hl'. split; [done|]. split; [done|lia].
Qed.
End text.

(** ** The functions that move the viewport, on any page *)
Section moving.
Context `{VirtualMemory} `{Allocator} `{Turns} {D : Type} `{GraphemeDetector D} (isa : Intrinsics) (address : nat -> ROW -> Z) (mutationId textAddress : Z).
Abbreviation Adapt := (M (AdaptDispatch * D)).

Lemma leads_any {A} (m : Adapt A) : (forall page width, page_fits page width -> leads (at_page page width) m (fun _ => adapt_ok)) -> ensures adapt_ok m (fun _ => True).
Proof. intros Hm s Hs. split; [|done]. destruct (adapt_ok_page _ Hs) as [Hat Hfits]. by apply (leads_ok _ _ (Hm _ _ Hfits)). Qed.

(** A step on the page. *)
Lemma leads_step {A B} page width (m : Adapt A) (k : A -> Adapt B) (Q : A -> Prop) R :
  ensures (at_page page width) m Q -> (forall a, Q a -> leads (at_page page width) (k a) R) -> leads (at_page page width) (mbind k m) R.
Proof. intros Hm Hk. eapply leads_bind; [by apply leads_ensures|]. intros a. apply leads_pure. apply Hk. Qed.

Lemma feed_ok lineFeedType : ensures adapt_ok (LineFeed isa address mutationId textAddress lineFeedType : Adapt unit) (fun _ => True).
Proof.
  apply leads_any. intros page width Hfits. eapply leads_step; [apply ensures_active|]. intros ? ->.
  eapply (leads_step _ _ _ _ (fun _ => True)); [destruct lineFeedType; [by apply ensures_ret|by apply ensures_ret|by apply ensures_asks]|]. intros withReturn _.
  eapply leads_bind; [by apply line_feed_leads|]. intros moved. apply leads_ret. by intros ad [Hok _].
Qed.

Lemma write_ok string : ensures adapt_ok (_WriteToBuffer isa address mutationId textAddress string : Adapt unit) (fun _ => True).
Proof.
  apply leads_any. intros page width Hfits. pose proof Hfits as [Hw2 _]. eapply leads_step; [apply ensures_active|]. intros ? ->. eapply leads_step; [apply ensures_position|]. intros p Hp.
  eapply (leads_step _ _ _ _ (fun _ => True)); [by apply ensures_asks|]. intros wrap _. eapply leads_step; [by apply ensures_vertical|]. intros vertical _. eapply leads_step; [apply ensures_width|]. intros ? ->.
  eapply leads_step; [apply (ensures_horizontal page width); lia|]. intros [l r] [_ Hr]. cbn [snd] in Hr. eapply leads_step; [by apply ensures_line_width|]. intros lw Hlw. cbv beta in Hlw. cbv zeta.
  eapply leads_bind; [apply write_leads; [lia|]|].
  - split; [done|]. split; [done|]. cbn [columnLimit]. destruct (_ && _); lia.
  - intros page'. apply leads_pure. intros _. eapply leads_adapt. apply ensures_keeps. eauto with keeps.
Qed.
Lemma translate_ok {A} (m : M TerminalOutput A) : ensures adapt_ok (AdaptDispatch.on_termOutput m : Adapt A) (fun _ => True).
Proof. apply ensures_any. intros. apply ensures_term. Qed.
Lemma print_ok ch : ensures adapt_ok (Print isa address mutationId textAddress ch : Adapt unit) (fun _ => True).
Proof. eapply ensures_bind; [apply translate_ok|]. intros t _. destruct (negb _); [apply write_ok|by apply ensures_ret]. Qed.
Lemma print_string_ok string : ensures adapt_ok (PrintString isa address mutationId textAddress string : Adapt unit) (fun _ => True).
Proof. eapply ensures_bind; [apply translate_ok|]. intros t _. apply write_ok. Qed.
Lemma erase_display_ok t : ensures adapt_ok (EraseInDisplay isa address mutationId textAddress t : Adapt unit) (fun _ => True).
Proof.
  unfold EraseInDisplay. destruct (t >? EraseType_Scrollback); [by apply ensures_ret|]. destruct (t =? EraseType_Scrollback); [apply scrollback_ok|].
  destruct (t =? EraseType_All); [apply leads_any; intros; by apply erase_all_leads|]. apply ensures_any. intros page width Hfits. ensure.
Qed.
End moving.
