(* ===== verification/AdaptCalls.v ===== *)
(** * The calls the dispatcher executes

    What a call of [ITermDispatch] executes, for the calls that are modelled, and what any sequence of calls keeps. *)
From stdpp Require Import gmap.
From S2P Require Import Prelude DispatchTypes StateMachine LineRenditions Cursor InputEvents ColorTable TextColors TextAttributes Rle Graphemes ImageSlice Row RowImages CharSets TerminalOutput TerminalInput Graphics TextBuffer BufferStore BufferFrame Pages AdaptDispatch AdaptScreen AdaptModes PageTheorems AdaptCursor AdaptTheorems AdaptFeeds.
From S2P Require Import ITermDispatch.

Implicit Types (ad : AdaptDispatch).

(** ** Modes and reports *)
Lemma switch_all {A} (P : A -> Prop) value cases otherwise : Forall (fun '(_, body) => P body) cases -> P otherwise -> P (switch value cases otherwise).
Proof. intros Hc Ho. induction Hc as [|[label body] cases Hb _ IH]; cbn [switch]; [done|]. by destruct (value =? label). Qed.

Section modes.
Context `{VirtualMemory} `{Allocator} `{Turns} {D : Type} `{GraphemeDetector D} (isa : Intrinsics) (address : nat -> ROW -> Z) (mutationId textAddress : Z).
Abbreviation Adapt := (M (AdaptDispatch * D)).
Import AdaptDispatch AdaptScreen AdaptModes.

Definition safe (m : Adapt unit) : Prop := ensures adapt_ok m (fun _ => True).
Definition safe_case (o : option (Adapt unit)) : Prop := match o with Some m => safe m | None => True end.

Lemma safe_seq (m1 m2 : Adapt unit) : safe m1 -> safe m2 -> safe (m1 ;; m2).
Proof. intros H1' H2'. eapply ensures_bind; [exact H1'|]. by intros. Qed.
Lemma safe_bind {A} (m : Adapt A) (k : A -> Adapt unit) : ensures adapt_ok m (fun _ => True) -> (forall a, safe (k a)) -> safe (mbind k m).
Proof. intros Hm Hk. eapply ensures_bind; [exact Hm|]. intros a _. apply Hk. Qed.
Lemma safe_ret : safe (mret tt).
Proof. by apply ensures_ret. Qed.
Lemma safe_input mode enabled : safe (set_input_mode mode enabled).
Proof. by apply ensures_alter. Qed.
Lemma safe_on_input f : safe (on_input f).
Proof. by apply ensures_alter. Qed.
Lemma safe_mode mode enabled : safe (set_mode mode enabled).
Proof. by apply ensures_alter. Qed.
Lemma safe_system mode enabled : safe (set_system_mode mode enabled).
Proof. intros [ad d] Hs. done. Qed.
Lemma asks_ok {A} (f : AdaptDispatch -> A) : ensures adapt_ok (asks f : Adapt A) (fun _ => True).
Proof. by apply ensures_asks. Qed.
Lemma safe_tell response : safe (on_api (Terminal.ReturnResponse response)).
Proof. intros [ad d] Hs. split; [|done]. destruct Hs as (Hp & Hc & Hm). unfold on_api, on_pages, modify, Terminal.ReturnResponse. cbn [fst snd]. by destruct response. Qed.
Lemma safe_csi response : safe (_ReturnCsiResponse response).
Proof. apply safe_bind; [apply asks_ok|]. intros. apply safe_tell. Qed.
Lemma safe_dcs response : safe (_ReturnDcsResponse response).
Proof. apply safe_bind; [apply asks_ok|]. intros. apply safe_tell. Qed.
(** A change of the cursor that does not move it. *)
Lemma safe_cursor f : (forall c, Cursor.GetPosition (fst (f c)) = Cursor.GetPosition c) -> safe (page ← ActivePage isa address mutationId; on_cursor page f).
Proof. intros Hf. apply ensures_any. intros page width Hfits. eapply ensures_bind; [apply ensures_active|]. intros ? ->. apply ensures_on_cursor. intros c. by rewrite Hf. Qed.
Lemma blinking_at enable c : Cursor.GetPosition (fst (Cursor.SetIsBlinking enable c)) = Cursor.GetPosition c.
Proof. unfold Cursor.SetIsBlinking. by destruct (Bool.eqb _ _). Qed.
Lemma visible_at enable c : Cursor.GetPosition (fst (Cursor.SetIsVisible enable c)) = Cursor.GetPosition c.
Proof. unfold Cursor.SetIsVisible. by destruct (Bool.eqb _ _). Qed.
Lemma safe_top_bottom t b home : 0 <= t -> safe (_DoSetTopBottomScrollingMargins isa address mutationId t b home).
Proof. intros. apply ensures_any. intros. by apply ensures_top_bottom. Qed.
Lemma safe_left_right l r home : 0 <= l -> safe (_DoSetLeftRightScrollingMargins isa address mutationId l r home).
Proof. intros. apply ensures_any. intros. by apply ensures_left_right. Qed.
Lemma safe_visible_page {A} (k : Page -> Adapt A) : (forall page, ensures adapt_ok (k page) (fun _ => True)) -> ensures adapt_ok (page ← VisiblePage isa address mutationId; k page) (fun _ => True).
Proof.
  intros Hk [ad d] Hs. pose proof Hs as (Hp & _). unfold VisiblePage. cbv [mbind M_bind]. unfold on_pages at 1 2. cbn [fst snd] in *.
  destruct (in_background (_pages ad)) eqn:Hback; [rewrite visible_back by done|rewrite visible_spec by done]; replace (set_pages (_pages ad) ad) with ad by (by destruct ad); by apply Hk.
Qed.

(** The cases of a switch, one by one. *)
Ltac each_case :=
  repeat lazymatch goal with
  | |- Forall _ (_ :: _) => apply Forall_cons; split
  | |- Forall _ [] => apply Forall_nil; done
  | |- safe_case None => done
  | |- safe_case (Some ?m) => change (safe m)
  | |- safe (set_mode _ _) => apply safe_mode
  | |- safe (set_input_mode _ _) => apply safe_input
  | |- safe (set_system_mode _ _) => apply safe_system
  | |- safe (on_input _) => apply safe_on_input
  | |- safe (_ReturnCsiResponse _) => apply safe_csi
  | |- safe (_DeviceStatusReport _) => apply safe_csi
  | |- safe (mret tt) => apply safe_ret
  end.

Lemma safe_modes param enable : safe_case (_ModeParamsHelper isa address mutationId param enable).
Proof.
  unfold _ModeParamsHelper. apply switch_all; [|apply safe_ret]. each_case; try (apply safe_cursor; intros; first [apply blinking_at | apply visible_at]).
  - apply safe_bind; [apply asks_ok|]. intros system. apply safe_bind; [apply asks_ok|]. intros input. destruct (Bool.eqb system input); [|apply safe_ret]. apply safe_seq; [apply safe_system|apply safe_input].
  - apply safe_seq; [apply safe_mode|apply ensures_position_home].
  - apply safe_seq; [apply safe_system|]. destruct (negb enable); [|apply safe_ret]. by apply safe_cursor.
  - apply safe_seq; [apply safe_mode|]. destruct enable; [|apply safe_ret].
    intros [ad d] Hs. unfold PageManager.MakeActivePageVisible, on_pages. cbv [mbind M_bind gets]. cbn [fst snd]. destruct (negb _); [|by destruct ad].
    apply (ensures_move_to isa address mutationId (PageManager.MoveTo isa address mutationId (_activePageNumber (_pages ad)) true) ltac:(by eexists _, _) (ad, d) Hs).
  - apply safe_seq; [apply safe_mode|]. apply safe_seq; [by apply safe_left_right|]. destruct enable; [|apply safe_ret]. apply ensures_any. intros page width Hfits. ensure.
  - destruct enable; [apply safe_input|done].
  - destruct enable; [apply safe_input|done].
Qed.
Lemma state_ok param : match mode_state isa address mutationId param with Some m => ensures adapt_ok (m : Adapt Z) (fun _ => True) | None => True end.
Proof.
  assert (Htest : forall m : Adapt bool, ensures adapt_ok m (fun _ => True) -> ensures adapt_ok (state ← m; mret (mapTemp state)) (fun _ => True)).
  { intros m Hm. eapply ensures_bind; [exact Hm|]. intros. by apply ensures_ret. }
  assert (Hcursor : forall f : Cursor -> bool, ensures adapt_ok (page ← ActivePage isa address mutationId; c ← GetCursor page; mret (f c) : Adapt bool) (fun _ => True)).
  { intros f. apply ensures_any. intros page width Hfits. eapply ensures_bind; [apply ensures_active|]. intros ? ->. eapply ensures_bind; [apply ensures_cursor|]. intros. by apply ensures_ret. }
  unfold mode_state. cbv zeta. apply (switch_all (fun o => match o with Some m => ensures adapt_ok (m : Adapt Z) (fun _ => True) | None => True end)); [|by apply ensures_ret].
  repeat first [apply Forall_nil; done | apply Forall_cons; split]; cbv beta iota; try done; try (apply Htest; first [apply asks_ok | apply Hcursor]).
Qed.
Lemma safe_request param : safe_case (RequestMode isa address mutationId param).
Proof. unfold RequestMode. pose proof (state_ok param) as Hs. destruct (mode_state _ _ _ _) as [m|]; [|done]. apply safe_bind; [exact Hs|]. intros. apply safe_csi. Qed.
Lemma safe_position_report extended : safe (_CursorPositionReport isa address mutationId extended).
Proof. apply ensures_any. intros. by apply ensures_report. Qed.
Lemma safe_status type : safe_case (DeviceStatusReport isa address mutationId type).
Proof. unfold DeviceStatusReport. apply switch_all; [|apply safe_ret]. each_case; apply safe_position_report. Qed.
Lemma safe_parameters permission : safe (RequestTerminalParameters permission).
Proof. unfold RequestTerminalParameters. apply (switch_all safe); each_case. Qed.
Lemma safe_kitty flags mode : safe (AdaptModes.SetKittyKeyboardProtocol flags mode).
Proof. unfold AdaptModes.SetKittyKeyboardProtocol. cbv zeta. apply (switch_all safe); each_case. Qed.
Lemma safe_term m : safe (on_termOutput m).
Proof. apply translate_ok. Qed.
Lemma safe_announce level : safe (AnnounceCodeStructure level).
Proof. unfold AnnounceCodeStructure. cbv zeta. apply (switch_all safe); each_case; repeat (apply safe_seq; [apply safe_term|]); apply safe_term. Qed.
Lemma safe_extent : safe (RequestDisplayedExtent isa address mutationId).
Proof. apply safe_visible_page. intros page. apply safe_csi. Qed.
Lemma safe_style style : safe_case (SetCursorStyle isa address mutationId style).
Proof.
  assert (Hset : forall type blink, safe (page ← ActivePage isa address mutationId; on_cursor page (quietly (Cursor.SetType type)) ;; on_cursor page (Cursor.SetIsBlinking blink))).
  { intros type blink. apply ensures_any. intros page width Hfits. eapply ensures_bind; [apply ensures_active|]. intros ? ->.
    eapply ensures_bind; [by apply ensures_on_cursor|]. intros _ _. apply ensures_on_cursor. intros c. by rewrite blinking_at. }
  unfold SetCursorStyle. cbv zeta. apply switch_all; each_case; apply Hset.
Qed.
Lemma safe_soft_reset : safe (SoftReset isa address mutationId).
Proof.
  apply ensures_any. intros page width Hfits. unfold SoftReset. eapply ensures_bind; [apply ensures_active|]. intros ? ->.
  eapply ensures_bind; [apply ensures_on_cursor; intros c; by rewrite visible_at|]. intros _ _. eapply ensures_bind; [by apply ensures_alters|]. intros _ _.
  eapply (ensures_bind _ _ _ (fun _ => True)); [intros [ad d] Hs; done|]. intros _ _. eapply ensures_bind; [by apply ensures_alters|]. intros _ _. eapply ensures_bind; [by apply ensures_alters|]. intros _ _.
  eapply ensures_bind; [by apply ensures_top_bottom|]. intros _ _. eapply ensures_bind; [by apply ensures_left_right|]. intros _ _. eapply ensures_bind; [by apply ensures_alters|]. intros _ _.
  eapply ensures_bind; [by apply ensures_graphics|]. intros _ _. eapply ensures_bind; [by apply ensures_protection|]. intros _ _. by apply ensures_alters.
Qed.
End modes.

(** ** Calls *)
Section calls.
Context `{VirtualMemory} `{Allocator} `{Turns} {D : Type} `{GraphemeDetector D} (isa : Intrinsics) (address : nat -> ROW -> Z) (mutationId textAddress : Z).
Abbreviation Adapt := (M (AdaptDispatch * D)).
Import ITermDispatch.

(** A call of a function that is not modelled, or of a case of it that is not, has none. *)
Definition dispatch (c : Call) : option (Adapt unit) :=
  match c with
  | Print ch => Some (AdaptScreen.Print isa address mutationId textAddress ch)
  | PrintString string => Some (AdaptScreen.PrintString isa address mutationId textAddress string)
  | CursorUp n => Some (AdaptDispatch.CursorUp isa address mutationId n)
  | CursorDown n => Some (AdaptDispatch.CursorDown isa address mutationId n)
  | CursorForward n => Some (AdaptDispatch.CursorForward isa address mutationId n)
  | CursorBackward n => Some (AdaptDispatch.CursorBackward isa address mutationId n)
  | CursorNextLine n => Some (AdaptDispatch.CursorNextLine isa address mutationId n)
  | CursorPrevLine n => Some (AdaptDispatch.CursorPrevLine isa address mutationId n)
  | CursorHorizontalPositionAbsolute column => Some (AdaptDispatch.CursorHorizontalPositionAbsolute isa address mutationId column)
  | VerticalLinePositionAbsolute line => Some (AdaptDispatch.VerticalLinePositionAbsolute isa address mutationId line)
  | HorizontalPositionRelative n => Some (AdaptDispatch.HorizontalPositionRelative isa address mutationId n)
  | VerticalPositionRelative n => Some (AdaptDispatch.VerticalPositionRelative isa address mutationId n)
  | CursorPosition line column => Some (AdaptDispatch.CursorPosition isa address mutationId line column)
  | CursorSaveState => Some (AdaptDispatch.CursorSaveState isa address mutationId)
  | CursorRestoreState => Some (AdaptDispatch.CursorRestoreState isa address mutationId)
  | InsertCharacter n => Some (AdaptScreen.InsertCharacter isa address mutationId textAddress n)
  | DeleteCharacter n => Some (AdaptScreen.DeleteCharacter isa address mutationId textAddress n)
  | ScrollUp n => Some (AdaptScreen.ScrollUp isa address mutationId textAddress n)
  | ScrollDown n => Some (AdaptScreen.ScrollDown isa address mutationId textAddress n)
  | NextPage n => Some (AdaptDispatch.NextPage isa address mutationId n)
  | PrecedingPage n => Some (AdaptDispatch.PrecedingPage isa address mutationId n)
  | PagePositionAbsolute n => Some (AdaptDispatch.PagePositionAbsolute isa address mutationId n)
  | PagePositionRelative n => Some (AdaptDispatch.PagePositionRelative isa address mutationId n)
  | PagePositionBack n => Some (AdaptDispatch.PagePositionBack isa address mutationId n)
  | RequestDisplayedExtent => Some (AdaptModes.RequestDisplayedExtent isa address mutationId)
  | InsertLine n => Some (AdaptScreen.InsertLine isa address mutationId textAddress n)
  | DeleteLine n => Some (AdaptScreen.DeleteLine isa address mutationId textAddress n)
  | InsertColumn n => Some (AdaptScreen.InsertColumn isa address mutationId textAddress n)
  | DeleteColumn n => Some (AdaptScreen.DeleteColumn isa address mutationId textAddress n)
  | SetKeypadMode b => Some (AdaptModes.SetKeypadMode b)
  | SetKittyKeyboardProtocol flags mode => Some (AdaptModes.SetKittyKeyboardProtocol flags mode)
  | QueryKittyKeyboardProtocol => Some AdaptModes.QueryKittyKeyboardProtocol
  | PushKittyKeyboardProtocol flags => Some (AdaptModes.PushKittyKeyboardProtocol flags)
  | PopKittyKeyboardProtocol count => Some (AdaptModes.PopKittyKeyboardProtocol count)
  | SetTopBottomScrollingMargins t b => Some (AdaptDispatch.SetTopBottomScrollingMargins isa address mutationId t b)
  | SetLeftRightScrollingMargins l r => Some (AdaptDispatch.SetLeftRightScrollingMargins isa address mutationId l r)
  | CarriageReturn => Some (AdaptDispatch.CarriageReturn isa address mutationId)
  | LineFeed type => Some (AdaptScreen.LineFeed isa address mutationId textAddress type)
  | ReverseLineFeed => Some (AdaptScreen.ReverseLineFeed isa address mutationId textAddress)
  | BackIndex => Some (AdaptScreen.BackIndex isa address mutationId textAddress)
  | ForwardIndex => Some (AdaptScreen.ForwardIndex isa address mutationId textAddress)
  | HorizontalTabSet => Some (AdaptDispatch.HorizontalTabSet isa address mutationId)
  | ForwardTab n => Some (AdaptDispatch.ForwardTab isa address mutationId n)
  | BackwardsTab n => Some (AdaptDispatch.BackwardsTab isa address mutationId n)
  | TabClear type => Some (AdaptDispatch.TabClear isa address mutationId type)
  | TabSet type => Some (AdaptDispatch.TabSet type)
  | EraseInDisplay type => Some (AdaptScreen.EraseInDisplay isa address mutationId textAddress type)
  | EraseInLine type => Some (AdaptScreen.EraseInLine isa address mutationId textAddress type)
  | EraseCharacters n => Some (AdaptScreen.EraseCharacters isa address mutationId textAddress n)
  | SelectiveEraseInDisplay type => Some (AdaptScreen.SelectiveEraseInDisplay isa address mutationId type)
  | SelectiveEraseInLine type => Some (AdaptScreen.SelectiveEraseInLine isa address mutationId type)
  | ChangeAttributesRectangularArea t l b r attrs => Some (AdaptScreen.ChangeAttributesRectangularArea isa address mutationId t l b r attrs)
  | ReverseAttributesRectangularArea t l b r attrs => Some (AdaptScreen.ReverseAttributesRectangularArea isa address mutationId t l b r attrs)
  | FillRectangularArea ch t l b r => Some (AdaptScreen.FillRectangularArea isa address mutationId textAddress ch t l b r)
  | EraseRectangularArea t l b r => Some (AdaptScreen.EraseRectangularArea isa address mutationId textAddress t l b r)
  | SelectiveEraseRectangularArea t l b r => Some (AdaptScreen.SelectiveEraseRectangularArea isa address mutationId t l b r)
  | SelectAttributeChangeExtent extent => Some (AdaptScreen.SelectAttributeChangeExtent extent)
  | SetGraphicsRendition options => Some (AdaptScreen.SetGraphicsRendition isa address mutationId options)
  | SetLineRendition rendition => Some (AdaptScreen.SetLineRendition isa address mutationId textAddress rendition)
  | SetCharacterProtectionAttribute options => Some (AdaptScreen.SetCharacterProtectionAttribute isa address mutationId options)
  | SetMode param => AdaptModes.SetMode isa address mutationId param
  | ResetMode param => AdaptModes.ResetMode isa address mutationId param
  | RequestMode param => AdaptModes.RequestMode isa address mutationId param
  | DeviceStatusReport type _ => AdaptModes.DeviceStatusReport isa address mutationId type
  | SecondaryDeviceAttributes => Some AdaptModes.SecondaryDeviceAttributes
  | TertiaryDeviceAttributes => Some AdaptModes.TertiaryDeviceAttributes
  | Vt52DeviceAttributes => Some AdaptModes.Vt52DeviceAttributes
  | RequestTerminalParameters permission => Some (AdaptModes.RequestTerminalParameters permission)
  | Designate94Charset g charset => Some (AdaptScreen.Designate94Charset g charset)
  | Designate96Charset g charset => Some (AdaptScreen.Designate96Charset g charset)
  | LockingShift g => Some (AdaptScreen.LockingShift g)
  | LockingShiftRight g => Some (AdaptScreen.LockingShiftRight g)
  | SingleShift g => Some (AdaptScreen.SingleShift g)
  | AnnounceCodeStructure level => Some (AdaptModes.AnnounceCodeStructure level)
  | SoftReset => Some (AdaptModes.SoftReset isa address mutationId)
  | ScreenAlignmentPattern => Some (AdaptScreen.ScreenAlignmentPattern isa address mutationId textAddress)
  | SetCursorStyle style => AdaptModes.SetCursorStyle isa address mutationId style
  | _ => None
  end.

(** Calls one after the other. A call that throws has its effect up to there; its caller goes on with the next. After undefined behaviour, or a loop that has not ended,
    or a call that is not modelled, there is no state. *)
Definition run_call (c : Call) (s : AdaptDispatch * D) : option (AdaptDispatch * D) :=
  m ← dispatch c; match m s with (s, Ret _) | (s, Throw) => Some s | _ => None end.
Fixpoint run_calls (cs : list Call) (s : AdaptDispatch * D) : option (AdaptDispatch * D) := match cs with [] => Some s | c :: cs => s ← run_call c s; run_calls cs s end.

(** The parameters the output engine passes: margins are not negative. *)
Definition handled (c : Call) : Prop := match c with SetTopBottomScrollingMargins t _ => 0 <= t | SetLeftRightScrollingMargins l _ => 0 <= l | _ => True end.
End calls.



(** ** What calls keep *)
Section keeping.
Context `{VirtualMemory} `{Allocator} `{Turns} {D : Type} `{GraphemeDetector D} (isa : Intrinsics) (address : nat -> ROW -> Z) (mutationId textAddress : Z).
Abbreviation Adapt := (M (AdaptDispatch * D)).

Lemma back_ok n : safe (AdaptDispatch.PagePositionBack isa address mutationId n : Adapt unit).
Proof. apply safe_bind; [apply ensures_mode_ok|]. intros. apply ensures_move_relative. Qed.

(** The functions of which a lemma says all. *)
Ltac on_any_page lemma := apply ensures_any; intros ? ? ?; by apply lemma.
Ltac simplest :=
  lazymatch goal with
  | |- safe (AdaptDispatch._CursorMovePosition _ _ _ _ _ _) => on_any_page ensures_move
  | |- safe (AdaptDispatch.CursorSaveState _ _ _) => on_any_page ensures_save
  | |- safe (AdaptDispatch.CursorRestoreState _ _ _) => apply ensures_restore
  | |- safe (AdaptDispatch.PagePositionAbsolute _ _ _ _) => apply ensures_page_position
  | |- safe (AdaptDispatch.PagePositionRelative _ _ _ _) => apply ensures_page_relative
  | |- safe (AdaptDispatch.PagePositionBack _ _ _ _) => apply back_ok
  | |- safe (AdaptDispatch._DoSetTopBottomScrollingMargins _ _ _ _ _ _) => by apply safe_top_bottom
  | |- safe (AdaptDispatch.ForwardTab _ _ _ _) => on_any_page ensures_forward
  | |- safe (AdaptDispatch.BackwardsTab _ _ _ _) => on_any_page ensures_backwards
  | |- safe (AdaptDispatch.HorizontalTabSet _ _ _) => on_any_page ensures_tab_at
  | |- safe (AdaptScreen.Print _ _ _ _ _) => apply print_ok
  | |- safe (AdaptScreen.PrintString _ _ _ _ _) => apply print_string_ok
  | |- safe (AdaptScreen._InsertDeleteCharacterHelper _ _ _ _ _) => on_any_page ensures_characters
  | |- safe (AdaptScreen._ScrollMovement _ _ _ _ _) => on_any_page ensures_scroll
  | |- safe (AdaptScreen._InsertDeleteLineHelper _ _ _ _ _) => on_any_page ensures_lines
  | |- safe (AdaptScreen._InsertDeleteColumnHelper _ _ _ _ _) => on_any_page ensures_columns
  | |- safe (AdaptScreen.LineFeed _ _ _ _ _) => apply feed_ok
  | |- safe (AdaptScreen.ReverseLineFeed _ _ _ _) => on_any_page ensures_reverse_feed
  | |- safe (AdaptScreen.BackIndex _ _ _ _) => on_any_page ensures_back
  | |- safe (AdaptScreen.ForwardIndex _ _ _ _) => on_any_page ensures_forward_index
  | |- safe (AdaptScreen.EraseInDisplay _ _ _ _ _) => apply erase_display_ok
  | |- safe (AdaptScreen.EraseInLine _ _ _ _ _) => on_any_page ensures_erase_line
  | |- safe (AdaptScreen.EraseCharacters _ _ _ _ _) => on_any_page ensures_erase_characters
  | |- safe (AdaptScreen.SelectiveEraseInDisplay _ _ _ _) => on_any_page ensures_selective_display
  | |- safe (AdaptScreen.SelectiveEraseInLine _ _ _ _) => on_any_page ensures_selective_line
  | |- safe (AdaptScreen.ChangeAttributesRectangularArea _ _ _ _ _ _ _ _) => on_any_page ensures_change_attributes
  | |- safe (AdaptScreen.ReverseAttributesRectangularArea _ _ _ _ _ _ _ _) => on_any_page ensures_reverse_attributes
  | |- safe (AdaptScreen.FillRectangularArea _ _ _ _ _ _ _ _ _) => on_any_page ensures_fill_area
  | |- safe (AdaptScreen.EraseRectangularArea _ _ _ _ _ _ _ _) => on_any_page ensures_erase_area
  | |- safe (AdaptScreen.SelectiveEraseRectangularArea _ _ _ _ _ _ _) => on_any_page ensures_selective_area
  | |- safe (AdaptScreen.SetGraphicsRendition _ _ _ _) => on_any_page ensures_graphics
  | |- safe (AdaptScreen.SetLineRendition _ _ _ _ _) => on_any_page ensures_line_rendition
  | |- safe (AdaptScreen.SetCharacterProtectionAttribute _ _ _ _) => on_any_page ensures_protection
  | |- safe (AdaptScreen.ScreenAlignmentPattern _ _ _ _) => on_any_page ensures_alignment
  | |- safe (AdaptDispatch.on_termOutput _) => apply safe_term
  | |- safe (AdaptDispatch.on_api (Terminal.ReturnResponse _)) => apply safe_tell
  | |- safe (AdaptDispatch._ReturnCsiResponse _) => apply safe_csi
  | |- safe (AdaptModes._ReturnDcsResponse _) => apply safe_dcs
  | |- safe (AdaptModes.set_input_mode _ _) => apply safe_input
  | |- safe (AdaptModes.on_input _) => apply safe_on_input
  | |- safe (AdaptModes.SetKittyKeyboardProtocol _ _) => apply safe_kitty
  | |- safe (AdaptModes.RequestTerminalParameters _) => apply safe_parameters
  | |- safe (AdaptModes.RequestDisplayedExtent _ _ _) => apply safe_extent
  | |- safe (AdaptModes.AnnounceCodeStructure _) => apply safe_announce
  | |- safe (AdaptModes.SoftReset _ _ _) => apply safe_soft_reset
  | _ => idtac
  end.

Lemma dispatch_ok c (m : Adapt unit) : handled c -> dispatch isa address mutationId textAddress c = Some m -> safe m.
Proof.
  intros Hparam Hm. assert (Hcase : forall o, safe_case o -> o = Some m -> safe m) by (intros o Ho ->; exact Ho).
  destruct c; cbn [dispatch handled] in Hm, Hparam; try discriminate Hm;
    try (first [ apply (Hcase _ (safe_modes isa address mutationId _ _) Hm) | apply (Hcase _ (safe_request isa address mutationId _) Hm)
               | apply (Hcase _ (safe_status isa address mutationId _) Hm) | apply (Hcase _ (safe_style isa address mutationId _) Hm) ]; fail);
    injection Hm as <-; unfold AdaptDispatch.CursorUp, AdaptDispatch.CursorDown, AdaptDispatch.CursorForward, AdaptDispatch.CursorBackward, AdaptDispatch.CursorNextLine, AdaptDispatch.CursorPrevLine,
      AdaptDispatch.CursorHorizontalPositionAbsolute, AdaptDispatch.VerticalLinePositionAbsolute, AdaptDispatch.HorizontalPositionRelative, AdaptDispatch.VerticalPositionRelative, AdaptDispatch.CursorPosition,
      AdaptDispatch.CarriageReturn, AdaptScreen.InsertCharacter, AdaptScreen.DeleteCharacter, AdaptScreen.ScrollUp, AdaptScreen.ScrollDown, AdaptScreen.InsertLine, AdaptScreen.DeleteLine,
      AdaptScreen.InsertColumn, AdaptScreen.DeleteColumn, AdaptModes.SetKeypadMode, AdaptModes.PushKittyKeyboardProtocol, AdaptModes.PopKittyKeyboardProtocol,
      AdaptModes.SecondaryDeviceAttributes, AdaptModes.Vt52DeviceAttributes, AdaptModes.TertiaryDeviceAttributes, AdaptDispatch.SetTopBottomScrollingMargins,
      AdaptScreen.Designate94Charset, AdaptScreen.Designate96Charset, AdaptScreen.LockingShift, AdaptScreen.LockingShiftRight, AdaptScreen.SingleShift; simplest.
  - apply safe_seq; [apply ensures_page_relative|apply ensures_position_home].
  - apply safe_seq; [apply back_ok|apply ensures_position_home].
  - apply safe_bind; [apply asks_ok|]. intros. apply safe_csi.
  - apply safe_bind; [apply ensures_mode_ok|]. intros []; [by apply safe_left_right|apply ensures_any; intros; by apply ensures_save].
  - unfold AdaptDispatch.TabClear. destruct (_ =? 0); [apply ensures_any; intros; by apply ensures_tab_at|]. destruct (_ =? 3); [by apply ensures_alter|apply safe_ret].
  - unfold AdaptDispatch.TabSet. destruct (_ =? 5); [by apply ensures_alter|apply safe_ret].
  - unfold AdaptScreen.SelectAttributeChangeExtent. destruct (_ || _); [apply safe_mode|]. destruct (_ =? 2); [apply safe_mode|apply safe_ret].
Qed.
Lemma calls_keep cs : Forall handled cs -> forall s s' : AdaptDispatch * D, run_calls isa address mutationId textAddress cs s = Some s' -> adapt_ok (fst s) -> adapt_ok (fst s').
Proof.
  intros Hcs. induction Hcs as [|c cs Hc _ IH]; intros s s'; cbn [run_calls]; [by intros [= <-]|]. intros Hrun Hs. apply bind_Some in Hrun as (s1 & Hcall & Hrun). apply (IH s1 s' Hrun).
  apply bind_Some in Hcall as (m & Hm & Hout). pose proof (dispatch_ok c m Hc Hm s Hs) as [Hok _]. destruct (m s) as [s2 []]; by simplify_eq.
Qed.

Lemma constructed_adapt_ok api input : let view := Terminal._GetMutableViewport api in
  terminal_ok api -> 2 <= rc_right view - rc_left view -> 2 <= rc_bottom view - rc_top view -> cursor_in (rc_top view) (rc_bottom view) (rc_right view - rc_left view) (Terminal._activeBuffer api) ->
  adapt_ok (AdaptDispatch.AdaptDispatch_ctor api input).
Proof.
  intros view Hok Hw Hh Hc. split; [|split].
  - split; [|unfold in_background; cbn; rewrite andb_false_r; done]. split; [done|]. split; [done|]. split; [cbn; unfold is_page, MAX_PAGES; lia|]. split; [cbn; unfold is_page, MAX_PAGES; lia|]. split; [done|right].
    intros n tb Hn. unfold AdaptDispatch.AdaptDispatch_ctor, PageManager.PageManager_ctor in Hn. cbn [_pages _buffers] in Hn. by apply lookup_replicate in Hn as [? _].
  - unfold cursor_ok, active_buffer, active_page. cbn [_pages AdaptDispatch.AdaptDispatch_ctor _activePageNumber _visiblePageNumber PageManager.PageManager_ctor _api]. rewrite Z.eqb_refl. by destruct (Terminal._inAltBuffer api).
  - split; cbn; lia.
Qed.

(** C16: Take a newly constructed dispatcher of a terminal at least two columns and two rows large, and any text printed and any modelled calls of the output engine - cursor movements,
    line feeds, scrolling, insertion, erasure, rectangular areas, renditions, tabs, margins, modes, pages, resets, reports - in any order and any number, each of which returned or ended
    in an exception, however many turns its loops took. The active page can be asked for without effect, it is one of the six, its buffer has the rows and columns it should have,
    the cursor is in one of its columns and in one of the rows of the page, and the page is within its buffer. Nothing is said of a run once a call has undefined behaviour, as a tab backwards
    can have when a page took over a cursor that is beyond the end of its line, and nothing of a call whose loops have not ended: that they do is not part of this. *)
Theorem cursor_stays_on_page api input d cs s : let view := Terminal._GetMutableViewport api in
  terminal_ok api -> 2 <= rc_right view - rc_left view -> 2 <= rc_bottom view - rc_top view -> cursor_in (rc_top view) (rc_bottom view) (rc_right view - rc_left view) (Terminal._activeBuffer api) ->
  Forall handled cs -> run_calls isa address mutationId textAddress cs (AdaptDispatch.AdaptDispatch_ctor api input, d) = Some s ->
  let pm := _pages (fst s) in
  exists page tb, PageManager.ActivePage isa address mutationId pm = (pm, Ret page) /\ 1 <= _number page <= MAX_PAGES /\
    PageManager.buffer_at (_buffer page) pm = Some tb /\ buffer_ok tb /\
    0 <= pt_x (Cursor.GetPosition (_cursor tb)) < _width tb /\
    rc_top (_viewport page) <= pt_y (Cursor.GetPosition (_cursor tb)) < rc_bottom (_viewport page) /\ 0 <= rc_top (_viewport page) /\ rc_bottom (_viewport page) <= _height tb.
Proof.
  intros view Hok Hw Hh Hc Hcs Hrun pm. destruct (calls_keep cs Hcs _ s Hrun (constructed_adapt_ok api input Hok Hw Hh Hc)) as (Hp & Hcur & _).
  fold pm in Hp, Hcur. exists (active_page pm), (active_buffer pm). destruct (active_page_ok pm Hp) as (Hat & Hb & Hbw & _ & Hv & Hbot & _ & Hn). split; [by apply active_page_spec|].
  unfold cursor_ok, cursor_in in Hcur. rewrite Hbw. split_and!; try done; try lia; apply Hn.
Qed.
End keeping.
