(* ===== verification/AdaptReports.v ===== *)
(** * Reports

    What the dispatcher reports of its state, it takes back: tab stops ([_ReportTabStops], [_RestoreTabStops]) and modes ([SetMode],
    [ResetMode], [RequestMode]). *)
From stdpp Require Import gmap.
From S2P Require Import Prelude DispatchTypes StateMachine StateMachineGrammar InputInvariant LineRenditions Cursor InputEvents TextAttributes Graphemes ImageSlice Row RowImages CharSets TerminalOutput TerminalInput TextBuffer BufferStore BufferFrame Pages AdaptDispatch AdaptScreen AdaptModes PageTheorems AdaptCursor AdaptTheorems AdaptCalls.

Implicit Types (ad : AdaptDispatch).
Import AdaptModes.

(** The response of a report. *)
Definition dcs ad : wstring := if GetInputMode InputMode.SendC1 (_terminalInput ad) then [0x90] else [0x1b; 0x50].
Definition string_terminator ad : wstring := if GetInputMode InputMode.SendC1 (_terminalInput ad) then [0x9c] else [0x1b; 0x5c].

(** ** Tab stops *)
Fixpoint stops_text (need_separator : bool) (columns : list Z) : wstring :=
  match columns with
  | [] => []
  | column :: columns => (if need_separator then [0x2f] else []) ++ formatInt (column + 1) ++ stops_text true columns
  end.
Definition stops_between ad (first last : Z) : list Z := filter (fun c => stop_at ad c = true) (seqZ first (last - first)).

Lemma stops_after_first column columns : stops_text true (column :: columns) = 0x2f :: stops_text false (column :: columns).
Proof. done. Qed.

Section tabs.
Context `{VirtualMemory} `{Allocator} {D : Type} `{GraphemeDetector D} (isa : Intrinsics) (address : nat -> ROW -> Z) (mutationId : Z).
Abbreviation Adapt := (M (AdaptDispatch * D)).
Implicit Types (d : D).

Lemma run_dcs ad d response : exists ad', _ReturnDcsResponse response (ad, d) = ((ad', d), Ret tt) /\ told ad' = told ad ++ [Response (dcs ad ++ response ++ string_terminator ad)] /\
  _tabStopColumns ad' = _tabStopColumns ad /\ _initDefaultTabStops ad' = _initDefaultTabStops ad.
Proof.
  unfold _ReturnDcsResponse, get_input_mode, AdaptDispatch.asks. rewrite run_gets. unfold AdaptDispatch.on_api, AdaptDispatch.on_pages, modify, told, dcs, string_terminator. cbn [fst snd].
  eexists. split; [done|]. split; [|done]. cbn [_pages set_pages _api set_api]. by destruct (GetInputMode _ _).
Qed.

Lemma run_report_tabs width ad d fuel : known width ad -> forall column need_separator, 0 <= column -> Z.max 0 (width - column) <= Z.of_nat fuel ->
  (reportTabs fuel column width need_separator : Adapt wstring) (ad, d) = ((ad, d), Ret (stops_text need_separator (stops_between ad column width))).
Proof.
  intros Hk. unfold stops_between. induction fuel as [|fuel IH]; intros column sep Hc Hf; cbn [reportTabs]; (destruct (Z.ltb_spec column width) as [Hlt|Hge]; [|rewrite seqZ_nil by lia; done]); [lia|].
  rewrite run_has_tab by (unfold known in *; lia). erewrite run_bind by (apply IH; lia). rewrite (seqZ_cons' column (width - column)) by lia. rewrite filter_cons. replace (width - column - 1) with (width - (column + 1)) by lia.
  destruct (stop_at ad column) eqn:Hs; [rewrite decide_True by done|rewrite decide_False by congruence]; [|by rewrite orb_false_r]. rewrite orb_true_r. cbv [mret M_ret]. cbn [stops_text]. by rewrite <- app_assoc.
Qed.

(** The handler. *)
Lemma restore_digits width digits text s : Forall is_digit digits -> forall column, 0 <= column <= MAX_PARAMETER_VALUE ->
  (restoreTabs (mkTabStopsHandler width column) (digits ++ text) : Adapt unit) s = restoreTabs (mkTabStopsHandler width (fold_left saturate digits column)) text s.
Proof.
  intros Hd. induction Hd as [|ch digits Hch _ IH]; intros column Hc; [done|]. cbn [app restoreTabs fold_left]. unfold restoreTab. cbn [handler_width handler_column].
  assert (Hdig : 0x30 <= ch <= 0x39) by (unfold is_digit, _isNumericParamValue in Hch; lia). destruct (Z.geb_spec ch 0x30), (Z.leb_spec ch 0x39); try lia. cbn [andb]. rewrite run_ret.
  assert (Hval : Z.min (u64 (u64 (column * 10) + (ch - 0x30))) MAX_PARAMETER_VALUE = saturate column ch) by (unfold saturate, MAX_PARAMETER_VALUE in *; rewrite (wrap_small 64 (column * 10)) by lia; rewrite wrap_small by lia; apply Z.min_comm).
  rewrite Hval. apply IH. unfold saturate, MAX_PARAMETER_VALUE in *. lia.
Qed.

Definition put_stop (width column : Z) ad : AdaptDispatch :=
  if (0 <? column) && (column <? width) then set_tabStops (<[Z.to_nat column := true]> (_tabStopColumns ad)) (_initDefaultTabStops ad) ad else ad.
Lemma put_stop_length width column ad : length (_tabStopColumns (put_stop width column ad)) = length (_tabStopColumns ad).
Proof. unfold put_stop. destruct (_ && _); [|done]. cbn. apply length_insert. Qed.

(** The end of a number. *)
Lemma restore_end width column ch text ad d : Z.of_nat (length (_tabStopColumns ad)) = width -> 0 <= column -> ch = 0x2f \/ ch = 0x1b ->
  (restoreTabs (mkTabStopsHandler width (column + 1)) (ch :: text) : Adapt unit) (ad, d) =
  if ch =? 0x1b then ((put_stop width column ad, d), Ret tt) else restoreTabs (mkTabStopsHandler width 0) text (put_stop width column ad, d).
Proof.
  intros Hlen Hc Hch. cbn [restoreTabs]. unfold restoreTab. cbn [handler_width handler_column]. destruct (Z.geb_spec ch 0x30), (Z.leb_spec ch 0x39); try lia; cbn [andb].
  assert (Hend : (ch =? 0x2f) || (ch =? 0x1b) = true) by (destruct Hch as [-> | ->]; done). rewrite Hend.
  assert (Hput : ((if (column + 1 >? 1) && (column + 1 <=? width) then AdaptDispatch.set_tab (column + 1 - 1) true else mret tt) : Adapt unit) (ad, d) = ((put_stop width column ad, d), Ret tt)).
  { unfold put_stop. replace (column + 1 >? 1) with (0 <? column) by (destruct (Z.ltb_spec 0 column), (Z.gtb_spec (column + 1) 1); lia). replace (column + 1 <=? width) with (column <? width) by (destruct (Z.ltb_spec column width), (Z.leb_spec (column + 1) width); lia).
    destruct ((0 <? column) && (column <? width)) eqn:Hin; [|done]. unfold AdaptDispatch.set_tab. rewrite run_asks. replace (column + 1 - 1) with column by lia. rewrite (proj2 (Z.leb_le 0 column)), (proj2 (Z.ltb_lt column _)) by lia. done. }
  cbv [mbind M_bind] in *. rewrite Hput. cbv [mret M_ret]. destruct Hch as [-> | ->]; done.
Qed.

Lemma fold_saturate_format column : 0 <= column < MAX_PARAMETER_VALUE -> Forall is_digit (formatInt (column + 1)) /\ fold_left saturate (formatInt (column + 1)) 0 = column + 1.
Proof.
  unfold MAX_PARAMETER_VALUE. intros Hc. rewrite formatInt_nonneg by lia. destruct (formatUnsigned_spec (column + 1)) as (Hne & Hd & _); [lia|]. split; [done|]. rewrite fold_saturate_field by done. apply fieldValue_format. unfold is_parameter. lia.
Qed.

Lemma restore_text width columns d : Forall (fun column => 0 <= column < MAX_PARAMETER_VALUE) columns -> forall ad, Z.of_nat (length (_tabStopColumns ad)) = width ->
  (restoreTabs (mkTabStopsHandler width 0) (stops_text false columns ++ [0x1b]) : Adapt unit) (ad, d) = ((fold_left (fun ad column => put_stop width column ad) columns ad, d), Ret tt).
Proof.
  intros Hcs. induction Hcs as [|column columns Hc _ IH]; intros ad Hlen; [done|]. destruct (fold_saturate_format column Hc) as [Hd Hv]. cbn [stops_text app fold_left].
  rewrite <- app_assoc, restore_digits by (unfold MAX_PARAMETER_VALUE; done || lia). rewrite Hv. destruct columns as [|next columns].
  - cbn [stops_text app fold_left]. rewrite restore_end by (done || lia || by right). done.
  - rewrite stops_after_first. cbn [app]. rewrite restore_end by (done || lia || by left). cbn [Z.eqb]. apply IH. by rewrite put_stop_length.
Qed.

Lemma stop_put width column ad c : Z.of_nat (length (_tabStopColumns ad)) = width -> 0 <= c ->
  stop_at (put_stop width column ad) c = bool_decide (c = column /\ 0 < column < width) || stop_at ad c.
Proof.
  intros Hlen Hc. unfold put_stop. destruct ((0 <? column) && (column <? width)) eqn:Hin; [|rewrite bool_decide_eq_false_2 by lia; done]. unfold stop_at. cbn [_tabStopColumns set_tabStops _initDefaultTabStops].
  destruct (decide (c = column)) as [->|Hne]; [rewrite bool_decide_eq_true_2 by lia; rewrite list_lookup_insert_eq by lia; done|]. rewrite bool_decide_eq_false_2 by lia. rewrite list_lookup_insert_ne by lia. done.
Qed.
Lemma stops_put width columns c : 0 <= c -> forall ad, Z.of_nat (length (_tabStopColumns ad)) = width ->
  stop_at (fold_left (fun ad column => put_stop width column ad) columns ad) c = bool_decide (c ∈ columns /\ 0 < c < width) || stop_at ad c.
Proof.
  intros Hc. induction columns as [|column columns IH]; intros ad Hlen; cbn [fold_left]; [by rewrite bool_decide_eq_false_2 by (intros [Hin _]; by apply not_elem_of_nil in Hin)|].
  rewrite IH by (by rewrite put_stop_length). rewrite stop_put by done. rewrite orb_assoc. f_equal. apply eq_true_iff_eq. rewrite orb_true_iff, !bool_decide_eq_true, elem_of_cons. split; [intros [[Hin Hb]|[-> Hb]]|intros [[->|Hin] Hb]]; auto.
Qed.

(** A terminal without stops. *)
Lemma run_restore_start ad d : adapt_ok ad -> let width := Z.max (page_width (_pages ad)) 132 in
  exists ad', _RestoreTabStops isa address mutationId (ad, d) = ((ad', d), Ret (mkTabStopsHandler width 0)) /\ Z.of_nat (length (_tabStopColumns ad')) = width /\ forall c, stop_at ad' c = false.
Proof.
  intros Hok width. destruct (adapt_ok_page _ Hok) as [Hat _]. unfold _RestoreTabStops. rewrite (run_active _ _ _ _ _ _ _ _ Hat), (run_width _ _ _ _ _ Hat). fold width. set (ad1 := set_tabStops [] false ad).
  assert (Hclear : (AdaptDispatch._ClearAllTabStops : Adapt unit) (ad, d) = ((ad1, d), Ret tt)) by done. erewrite run_bind by exact Hclear. destruct (run_init_tabs width ad1 d ltac:(lia)) as (columns & Hrun & _ & Hstops).
  erewrite run_bind by exact Hrun. exists (set_tabStops columns (_initDefaultTabStops ad1) ad1). split; [done|]. split.
  - unfold AdaptDispatch._InitTabStopsForWidth in Hrun. rewrite (proj2 (Z.ltb_ge _ _)) in Hrun by lia. unfold AdaptDispatch.alter, modify in Hrun. cbn [fst snd ad1 set_tabStops _tabStopColumns length] in Hrun.
    destruct (Nat.ltb_spec 0 (Z.to_nat width)); [|lia]. injection Hrun as <-. cbn [_tabStopColumns set_tabStops app]. rewrite length_map, length_seq. lia.
  - intros c. rewrite Hstops. done.
Qed.

(** C20: Tab stops that are reported (DECTABSR) can be restored: the report ends without an exception, and its text, given to the handler of a restoration (DECRSPS) of any terminal,
    is accepted to its end. It leaves a stop in exactly those columns which had one in the terminal that reported and that are neither the first column (which
    counts as a stop anyway and is not recorded) nor beyond the width of the page that reported (beyond which nothing is reported), nor beyond the larger of 132 columns and the width
    of the page that restores (beyond which nothing is restored). *)
Theorem tab_stops_restored ad d ad2 d2 : adapt_ok ad -> adapt_ok ad2 ->
  exists s1 text, _ReportTabStops isa address mutationId (ad, d) = (s1, Ret tt) /\ told (fst s1) = told ad ++ [Response (dcs ad ++ L "2$u" ++ text ++ string_terminator ad)] /\
  exists s2 h s3, _RestoreTabStops isa address mutationId (ad2, d2) = (s2, Ret h) /\ restoreTabs h (text ++ [0x1b]) s2 = (s3, Ret tt) /\
    forall column, 0 <= column -> stop_at (fst s3) column = (0 <? column) && (column <? page_width (_pages ad)) && (column <? Z.max (page_width (_pages ad2)) 132) && stop_at ad column.
Proof.
  intros Hok Hok2. destruct (adapt_ok_page _ Hok) as [Hat _]. destruct (cursor_on_screen _ _ _ Hat) as (_ & Hb & Hw). set (width := page_width (_pages ad)) in *. pose proof Hb as ([Hw1 Hw2] & _). rewrite Hw in Hw1, Hw2.
  unfold _ReportTabStops. rewrite (run_active _ _ _ _ _ _ _ _ Hat), (run_width _ _ _ _ _ Hat). destruct (run_init_tabs width ad d ltac:(lia)) as (columns & Hrun & Hk & Hstops).
  set (ad1 := set_tabStops columns (_initDefaultTabStops ad) ad) in *. erewrite run_bind by exact Hrun. erewrite run_bind by (apply (run_report_tabs width ad1); [exact Hk|lia|lia]).
  set (text := stops_text false (stops_between ad1 0 width)). destruct (run_dcs ad1 d (L "2$u" ++ text)) as (ad' & Hdcs & Htold & _). exists (ad', d), text. split; [exact Hdcs|].
  split; [cbn [fst]; rewrite Htold, <- app_assoc; done|]. destruct (run_restore_start ad2 d2 Hok2) as (ad3 & Hstart & Hlen & Hnone). set (width2 := Z.max _ 132) in *.
  assert (Hcolumns : Forall (fun column => 0 <= column < MAX_PARAMETER_VALUE) (stops_between ad1 0 width)).
  { apply Forall_forall. intros c Hc. unfold stops_between in Hc. apply list_elem_of_filter in Hc as [_ Hc]. apply elem_of_seqZ in Hc. unfold MAX_PARAMETER_VALUE. lia. }
  exists (ad3, d2), (mkTabStopsHandler width2 0), (fold_left (fun ad column => put_stop width2 column ad) (stops_between ad1 0 width) ad3, d2). split; [exact Hstart|]. split; [by apply restore_text|].
  intros column Hc. cbn [fst]. rewrite (stops_put width2) by (done || lia). rewrite Hnone, orb_false_r. apply eq_true_iff_eq. rewrite bool_decide_eq_true, !andb_true_iff, !Z.ltb_lt. unfold stops_between. rewrite list_elem_of_filter, elem_of_seqZ, Hstops.
  split; [intros ([? ?] & ?)|intros [[[? ?] ?] ?]]; repeat split; try done; lia.
Qed.
End tabs.

(** ** Modes *)

(** Two switches over the same labels. *)
Lemma switch_both {A B} (R : Z -> A -> B -> Prop) v cases1 cases2 otherwise1 otherwise2 :
  Forall2 (fun c1 c2 => fst c1 = fst c2 /\ R (fst c1) (snd c1) (snd c2)) cases1 cases2 -> (v ∉ map fst cases1 -> R v otherwise1 otherwise2) ->
  R v (switch v cases1 otherwise1) (switch v cases2 otherwise2).
Proof.
  intros Hcs Ho. induction Hcs as [|[l1 b1] [l2 b2] cases1 cases2 [Hl HR] _ IH]; cbn [switch]; [apply Ho; apply not_elem_of_nil|]. cbn [fst snd] in *. subst l2.
  destruct (Z.eqb_spec v l1) as [->|Hne]; [done|]. apply IH. intros Hv. apply Ho. cbn [map fst]. by apply not_elem_of_cons.
Qed.

(** What a computation does not change of the dispatcher. *)
Definition fixes {D A B} (f : AdaptDispatch -> B) (m : M (AdaptDispatch * D) A) : Prop := forall s, f (fst (fst (m s))) = f (fst s).

Section fixing.
Context {D B : Type} (f : AdaptDispatch -> B).
Abbreviation Adapt := (M (AdaptDispatch * D)).
Lemma fixes_bind {A C} (m : Adapt A) (k : A -> Adapt C) : fixes f m -> (forall a, fixes f (k a)) -> fixes f (mbind k m).
Proof. intros Hm Hk s. specialize (Hm s). cbv [mbind M_bind]. destruct (m s) as [s' [a| | |]]; cbn [fst] in *; try done. by rewrite Hk. Qed.
Lemma fixes_ret {A} (a : A) : fixes f (mret a : Adapt A).
Proof. done. Qed.
Lemma fixes_asks {A} (g : AdaptDispatch -> A) : fixes f (AdaptDispatch.asks g : Adapt A).
Proof. done. Qed.
Lemma fixes_alter g : (forall ad, f (g ad) = f ad) -> fixes f (AdaptDispatch.alter g : Adapt unit).
Proof. intros Hg s. apply Hg. Qed.
End fixing.

Section frames.
Context `{VirtualMemory} `{Allocator} {D : Type} `{GraphemeDetector D} (isa : Intrinsics) (address : nat -> ROW -> Z) (mutationId : Z).
Abbreviation Adapt := (M (AdaptDispatch * D)).

Lemma fixes_pages {A} (m : M PageManager A) : fixes _modes (AdaptDispatch.on_pages m : Adapt A).
Proof. intros s. unfold AdaptDispatch.on_pages. by destruct (m _). Qed.
Lemma fixes_vertical page absolute : fixes _modes (AdaptDispatch._GetVerticalMargins page absolute : Adapt (Z * Z)).
Proof. intros [ad d]. unfold AdaptDispatch._GetVerticalMargins, AdaptDispatch.asks. rewrite run_gets. by destruct (_ >=? _). Qed.
Lemma fixes_horizontal width : fixes _modes (AdaptDispatch._GetHorizontalMargins width : Adapt (Z * Z)).
Proof. intros [ad d]. unfold AdaptDispatch._GetHorizontalMargins, AdaptDispatch.asks. rewrite run_gets. by destruct (_ >=? _). Qed.

Ltac fix_modes :=
  repeat first
    [ progress intros
    | match goal with
      | |- fixes _ (mbind _ _) => apply fixes_bind
      | |- fixes _ (mret _) => apply fixes_ret
      | |- fixes _ (AdaptDispatch.ActivePage _ _ _) => apply fixes_pages
      | |- fixes _ (AdaptDispatch.Width _) => apply fixes_pages
      | |- fixes _ (AdaptDispatch.GetCursor _) => apply fixes_pages
      | |- fixes _ (AdaptDispatch.position_of _) => unfold AdaptDispatch.position_of
      | |- fixes _ (AdaptDispatch._GetVerticalMargins _ _) => apply fixes_vertical
      | |- fixes _ (AdaptDispatch._GetHorizontalMargins _) => apply fixes_horizontal
      | |- fixes _ (AdaptDispatch.test_mode _) => apply fixes_asks
      | |- fixes _ (AdaptDispatch.ClampPositionWithinLine _ _ _) => apply fixes_pages
      | |- fixes _ (AdaptDispatch.on_cursor _ _) => apply fixes_pages
      | |- fixes _ (AdaptDispatch.on_page _ _) => apply fixes_pages
      | |- fixes _ (AdaptDispatch.on_pages _) => apply fixes_pages
      | |- fixes _ (let '(_, _) := ?x in _) => destruct x
      | |- fixes _ (if ?b then _ else _) => destruct b
      end ].
Lemma fixes_move rows cols clampInMargins : fixes _modes (AdaptDispatch._CursorMovePosition isa address mutationId rows cols clampInMargins : Adapt unit).
Proof. unfold AdaptDispatch._CursorMovePosition. fix_modes. Qed.
Lemma fixes_left_right l r home : fixes _modes (AdaptDispatch._DoSetLeftRightScrollingMargins isa address mutationId l r home : Adapt unit).
Proof. unfold AdaptDispatch._DoSetLeftRightScrollingMargins. cbv zeta. fix_modes; [by apply fixes_alter|apply fixes_move]. Qed.
Lemma fixes_wrap_reset page : fixes (fun ad => _systemMode (_api (_pages ad))) (AdaptDispatch.on_cursor page (AdaptDispatch.quietly Cursor.ResetDelayEOLWrap) : Adapt unit).
Proof.
  intros [ad d]. unfold AdaptDispatch.on_cursor, AdaptDispatch.on_page, AdaptDispatch.on_pages, PageManager.on_ref. cbn [fst snd]. destruct (PageManager.buffer_at _ _) as [tb|]; [|done].
  destruct (TextBuffer.on_cursor _ tb) as [tb' o]. cbn [fst]. destruct (_buffer page); [|done]. cbn. unfold Terminal.set_activeBuffer. by destruct (_altBuffer _).
Qed.
End frames.

(** The modes that are known, and whether the two line feed modes agree. *)
Definition known_modes : list Z :=
  [ ModeParams.IRM_InsertReplaceMode; ModeParams.DECCKM_CursorKeysMode; ModeParams.DECOM_OriginMode; ModeParams.DECAWM_AutoWrapMode; ModeParams.DECARM_AutoRepeatMode;
    ModeParams.ATT610_StartCursorBlink; ModeParams.DECTCEM_TextCursorEnableMode; ModeParams.XTERM_EnableDECCOLMSupport; ModeParams.DECPCCM_PageCursorCouplingMode; ModeParams.DECNKM_NumericKeypadMode;
    ModeParams.DECBKM_BackarrowKeyMode; ModeParams.DECLRMM_LeftRightMarginMode; ModeParams.DECECM_EraseColorMode; ModeParams.VT200_MOUSE_MODE; ModeParams.BUTTON_EVENT_MOUSE_MODE;
    ModeParams.ANY_EVENT_MOUSE_MODE; ModeParams.UTF8_EXTENDED_MODE; ModeParams.SGR_EXTENDED_MODE; ModeParams.FOCUS_EVENT_MODE; ModeParams.ALTERNATE_SCROLL; ModeParams.XTERM_BracketedPasteMode;
    ModeParams.W32IM_Win32InputMode ].
Definition line_feed_synced ad : bool := Bool.eqb (Terminal.GetSystemMode SystemMode.LineFeed (_api (_pages ad))) (GetInputMode InputMode.LineFeed (_terminalInput ad)).
Definition expected_state (param : Z) (enable : bool) ad : Z :=
  if (if param =? ModeParams.LNM_LineFeedNewLineMode then line_feed_synced ad else existsb (Z.eqb param) known_modes) then mapTemp enable else DECRPM_Unsupported.

Section modes.
Context `{VirtualMemory} `{Allocator} {D : Type} `{GraphemeDetector D} (isa : Intrinsics) (address : nat -> ROW -> Z) (mutationId : Z).
Abbreviation Adapt := (M (AdaptDispatch * D)).
Implicit Types (d : D) (s : AdaptDispatch * D).

(** After [set], [state] is what is expected. *)
Definition reads_back (ad : AdaptDispatch) (d : D) (v : Z) (set : option (Adapt unit)) (state : option (Adapt Z)) : Prop :=
  match set, state with Some set, Some state => forall s, set (ad, d) = (s, Ret tt) -> state s = (s, Ret v) | _, _ => True end.

Lemma asks_back {A} (f : AdaptDispatch -> A) s a : f (fst s) = a -> (AdaptDispatch.asks f : Adapt A) s = (s, Ret a).
Proof. by intros <-. Qed.
Lemma temporary_back (m : Adapt bool) s (b : bool) : m s = (s, Ret b) -> (state ← m; mret (mapTemp state) : Adapt Z) s = (s, Ret (mapTemp b)).
Proof. intros Hm. cbv [mbind M_bind]. by rewrite Hm. Qed.

Lemma reads_temporary ad d (enable : bool) set (m : Adapt bool) : (forall s, set (ad, d) = (s, Ret tt) -> m s = (s, Ret enable)) ->
  reads_back ad d (mapTemp enable) (Some set) (Some (state ← m; mret (mapTemp state))).
Proof. intros Hm s Hs. by apply temporary_back, Hm. Qed.

Lemma mode_back ad d mode enable : 0 <= mode -> forall s, AdaptDispatch.set_mode mode enable (ad, d) = (s, Ret tt) -> (AdaptDispatch.test_mode mode : Adapt bool) s = (s, Ret enable).
Proof. intros Hm s [= <-]. apply asks_back. cbn. by rewrite enumset_test_set, Z.eqb_refl. Qed.
Lemma input_back ad d mode enable : is_mode mode -> forall s, set_input_mode mode enable (ad, d) = (s, Ret tt) -> (get_input_mode mode : Adapt bool) s = (s, Ret enable).
Proof. intros Hm s [= <-]. apply asks_back. cbn. unfold GetInputMode. by rewrite test_SetInputMode, Z.eqb_refl. Qed.
Lemma system_back ad d mode enable : 0 <= mode -> forall s, set_system_mode mode enable (ad, d) = (s, Ret tt) -> (AdaptDispatch.GetSystemMode mode : Adapt bool) s = (s, Ret enable).
Proof. intros Hm s [= <-]. apply asks_back. cbn. unfold Terminal.GetSystemMode. cbn. by rewrite enumset_test_set, Z.eqb_refl. Qed.
(** A mode, then what does not change it. *)
Lemma mode_then_back ad d mode enable (rest : Adapt unit) : 0 <= mode -> fixes _modes rest -> forall s, (AdaptDispatch.set_mode mode enable ;; rest) (ad, d) = (s, Ret tt) -> (AdaptDispatch.test_mode mode : Adapt bool) s = (s, Ret enable).
Proof.
  intros Hm Hrest s Hs. apply asks_back. assert (Hset : AdaptDispatch.set_mode mode enable (ad, d) = ((set_modes (enumset.set (_modes ad) mode enable) ad, d), Ret tt)) by done.
  erewrite run_bind in Hs by exact Hset. specialize (Hrest (set_modes (enumset.set (_modes ad) mode enable) ad, d)). rewrite Hs in Hrest. cbn [fst] in Hrest. rewrite Hrest. cbn. by rewrite enumset_test_set, Z.eqb_refl.
Qed.

(** A property of the cursor. *)
Lemma cursor_back ad d (f : Cursor -> Cursor * bool) (g : Cursor -> bool) enable : adapt_ok ad -> (forall c, g (fst (f c)) = enable) -> (forall c, Cursor.GetPosition (fst (f c)) = Cursor.GetPosition c) ->
  forall s, (page ← AdaptDispatch.ActivePage isa address mutationId; AdaptDispatch.on_cursor page f : Adapt unit) (ad, d) = (s, Ret tt) ->
  (page ← AdaptDispatch.ActivePage isa address mutationId; c ← AdaptDispatch.GetCursor page; mret (g c) : Adapt bool) s = (s, Ret enable).
Proof.
  intros Hok Hg Hp s. destruct (adapt_ok_page _ Hok) as [Hat _]. set (page := active_page _) in *. set (width := page_width _) in *. rewrite (run_active _ _ _ page width) by done. unfold AdaptDispatch.on_cursor. rewrite (run_on_page page width) by done.
  destruct (cursor_on_screen page width ad Hat) as (Hon & Hb & Hw). destruct (on_cursor_spec f (active ad) Hb) as (tb & -> & Hb' & Hs' & Hcur & _). cbn [fst snd]. intros [= <-].
  destruct (with_at page width ad tb Hat Hb' Hs') as [Hat' Hact']; [by rewrite Hcur, Hp|]. rewrite (run_active _ _ _ page width) by done. unfold AdaptDispatch.GetCursor. rewrite (run_read page width) by done. rewrite Hact', Hcur. by rewrite Hg.
Qed.
Lemma blinks enable c : _isBlinking (fst (Cursor.SetIsBlinking enable c)) = enable.
Proof. unfold Cursor.SetIsBlinking. destruct (Bool.eqb (_isBlinking c) enable) eqn:E; [by apply eqb_prop in E|done]. Qed.
Lemma shows enable c : _isVisible (fst (Cursor.SetIsVisible enable c)) = enable.
Proof. unfold Cursor.SetIsVisible. destruct (Bool.eqb (_isVisible c) enable) eqn:E; [by apply eqb_prop in E|done]. Qed.
Lemma wrap_back ad d enable s : adapt_ok ad -> (set_system_mode SystemMode.AutoWrap enable ;;
    (if negb enable then page ← AdaptDispatch.ActivePage isa address mutationId; AdaptDispatch.on_cursor page (AdaptDispatch.quietly Cursor.ResetDelayEOLWrap) else mret tt) : Adapt unit) (ad, d) = (s, Ret tt) ->
  (AdaptDispatch.GetSystemMode SystemMode.AutoWrap : Adapt bool) s = (s, Ret enable).
Proof.
  intros Hok. assert (Hset : set_system_mode SystemMode.AutoWrap enable (ad, d) = ((set_pages (set_api (Terminal.SetSystemMode SystemMode.AutoWrap enable (_api (_pages ad))) (_pages ad)) ad, d), Ret tt)) by done.
  erewrite run_bind by exact Hset. set (ad1 := set_pages _ ad). assert (Htest : enumset.test (_systemMode (_api (_pages ad1))) SystemMode.AutoWrap = enable) by (cbn; by rewrite enumset_test_set, Z.eqb_refl).
  intros Hs. apply asks_back. unfold Terminal.GetSystemMode. destruct enable; cbn [negb] in Hs; [injection Hs as <-; exact Htest|].
  destruct (adapt_ok_page ad1 Hok) as [Hat _]. rewrite (run_active _ _ _ _ _ _ _ _ Hat) in Hs. pose proof (fixes_wrap_reset (active_page (_pages ad1)) (ad1, d)) as Hfix. rewrite Hs in Hfix. cbn [fst] in Hfix. by rewrite Hfix.
Qed.
Lemma line_feed_back ad d enable : reads_back ad d (expected_state ModeParams.LNM_LineFeedNewLineMode enable ad)
  (_ModeParamsHelper isa address mutationId ModeParams.LNM_LineFeedNewLineMode enable) (mode_state isa address mutationId ModeParams.LNM_LineFeedNewLineMode).
Proof.
  intros s. cbn [_ModeParamsHelper switch Z.eqb Pos.eqb ModeParams.IRM_InsertReplaceMode ModeParams.LNM_LineFeedNewLineMode]. unfold AdaptDispatch.GetSystemMode, get_input_mode. rewrite !run_asks.
  unfold expected_state, line_feed_synced. cbn [Z.eqb Pos.eqb ModeParams.LNM_LineFeedNewLineMode]. destruct (Bool.eqb _ _) eqn:Hsync; intros [= <-]; rewrite !run_asks; cbv [mret M_ret]; [|by rewrite Hsync].
  unfold set_input_mode, on_input, AdaptDispatch.alter, modify, set_system_mode, AdaptDispatch.on_api, AdaptDispatch.on_pages. cbn [fst snd]. unfold GetInputMode, Terminal.GetSystemMode. cbn.
  rewrite test_SetInputMode, enumset_test_set, !Z.eqb_refl by done. by rewrite eqb_reflx.
Qed.

Lemma modes_back ad d param enable : adapt_ok ad -> reads_back ad d (expected_state param enable ad) (_ModeParamsHelper isa address mutationId param enable) (mode_state isa address mutationId param).
Proof.
  intros Hok. unfold _ModeParamsHelper, mode_state. cbv zeta. pose proof (line_feed_back ad d enable) as Hlnm.
  apply (switch_both (fun label set state => reads_back ad d (expected_state label enable ad) set state)).
  - repeat first [apply Forall2_nil; done | apply Forall2_cons; split; [split; [reflexivity|]; cbn [fst snd]|]].
    all: lazymatch goal with
    | |- reads_back _ _ _ None _ => done
    | |- reads_back _ _ _ _ None => done
    | |- reads_back _ _ (expected_state ModeParams.LNM_LineFeedNewLineMode _ _) _ _ => exact Hlnm
    | |- reads_back _ _ ?v _ _ => change v with (mapTemp enable)
    end.
    all: lazymatch goal with
    | |- reads_back _ _ _ (Some (AdaptDispatch.set_mode _ _)) _ => by apply reads_temporary, mode_back
    | |- reads_back _ _ _ (Some (set_input_mode _ _)) _ => by apply reads_temporary, input_back
    | |- reads_back _ _ _ (Some (set_system_mode _ _)) _ => by apply reads_temporary, system_back
    | |- reads_back _ _ _ (if _ then _ else _) _ => destruct enable; [by apply reads_temporary, input_back|done]
    | _ => apply reads_temporary
    end.
    + by apply mode_then_back; [|apply fixes_move].
    + intros s. by apply wrap_back.
    + apply cursor_back; [done|apply blinks|apply blinking_at].
    + apply cursor_back; [done|apply shows|apply visible_at].
    + apply mode_then_back; [done|]. destruct enable; [apply fixes_pages|apply fixes_ret].
    + apply mode_then_back; [done|]. apply fixes_bind; [apply fixes_left_right|]. intros _. destruct enable; [|apply fixes_ret]. apply fixes_bind; intros; apply fixes_pages.
  - cbn [map fst]. intros Hv s [= <-]. unfold expected_state. match type of Hv with _ ∉ ?labels => assert (Hall : Forall (fun label => label ∈ labels) (ModeParams.LNM_LineFeedNewLineMode :: known_modes)) by by_decide end.
    rewrite Forall_forall in Hall. destruct (Z.eqb_spec param ModeParams.LNM_LineFeedNewLineMode) as [->|_]; [exfalso; by apply Hv, Hall, list_elem_of_here|].
    destruct (existsb (Z.eqb param) known_modes) eqn:Hin; [|done]. exfalso. apply existsb_exists in Hin as (label & Hlabel & Heq%Z.eqb_eq). apply Hv, Hall, list_elem_of_further, list_elem_of_In. by rewrite Heq.
Qed.

(** C21: A mode that is set or reset is reported so: whenever SetMode or ResetMode ends without an exception, RequestMode (DECRQM) answers with the number of the mode and enabled or disabled
    - the mouse modes, the modes of the cursor and those kept in three different places alike -, with unsupported for numbers that are not modes, and for LNM when the line feed modes of terminal and input disagree. *)
Theorem mode_is_reported ad d param enable set request s : adapt_ok ad -> _ModeParamsHelper isa address mutationId param enable = Some set -> RequestMode isa address mutationId param = Some request ->
  set (ad, d) = (s, Ret tt) ->
  exists s', request s = (s', Ret tt) /\ told (fst s') = told (fst s) ++ [Response (csi (fst s) ++ mode_report param (expected_state param enable ad))].
Proof.
  intros Hok Hset Hreq Hs. pose proof (modes_back ad d param enable Hok) as Hback. unfold reads_back in Hback. rewrite Hset in Hback. unfold RequestMode in Hreq.
  destruct (mode_state isa address mutationId param) as [state|]; [|done]. injection Hreq as <-. specialize (Hback s Hs). destruct s as [ad' d']. erewrite run_bind by exact Hback.
  destruct (run_respond ad' d' (mode_report param (expected_state param enable ad))) as (ad2 & -> & Htold). by exists (ad2, d').
Qed.
End modes.
