(* ===== verification/AdaptExamples.v ===== *)
(** * The dispatcher in the concrete

    States that instantiate the theorems about the dispatcher, and behaviour worth knowing. *)
From stdpp Require Import gmap.
From S2P Require Import Prelude DispatchTypes StateMachine LineRenditions Cursor InputEvents TextAttributes Graphemes ImageSlice Row RowImages RowText RowJoin RowExamples CharSets TerminalOutput TerminalInput TextBuffer BufferStore BufferExamples Pages AdaptDispatch AdaptScreen AdaptModes PageTheorems AdaptCursor AdaptTheorems AdaptCalls AdaptReports.
From S2P Require Import ITermDispatch.
Import ITermDispatch.

#[local] Existing Instance unlimited.
#[local] Existing Instance all_memory.
(** More turns than any loop below needs. *)
#[local] Instance enough : Turns := 1000%nat.

(** Bounds of numbers. *)
Ltac computed := vm_compute; repeat split; first [congruence | lia].

(** A terminal of 20 columns and 5 rows, below one row of scrollback. *)
Definition sample_terminal : Terminal :=
  mkTerminal (fst (TextBuffer.on_cursor (Cursor.SetPosition (mkPoint 0 1)) (sample_buffer 20 6))) None (mkSize 20 5) (mkRect 0 1 20 6) (enumset.of_pos SystemMode.AutoWrap) [].
Definition sample_adapter : AdaptDispatch := AdaptDispatch.AdaptDispatch_ctor sample_terminal TerminalInput_ctor.
Abbreviation run_all := (run_calls SSE2 at_place 0 0).
Definition state_after (cs : list Call) := default (sample_adapter, s_codepointWidthDetector) (run_all cs (sample_adapter, s_codepointWidthDetector)).
Definition after (cs : list Call) : AdaptDispatch := fst (state_after cs).
Definition ran (cs : list Call) : bool := match run_all cs (sample_adapter, s_codepointWidthDetector) with Some _ => true | None => false end.
Lemma ran_to cs : ran cs = true -> run_all cs (sample_adapter, s_codepointWidthDetector) = Some (state_after cs).
Proof. unfold ran, state_after. by destruct (run_all cs _). Qed.

(** The calls of a list are handled. *)
Ltac handled_all := repeat (apply Forall_cons; split; [first [exact I | cbn; lia]|]); apply Forall_nil; done.

Lemma sample_adapter_ok : adapt_ok sample_adapter.
Proof. apply constructed_adapt_ok; [|cbn; lia|cbn; lia|computed]. split; [|computed]. computed. Qed.
Lemma after_ok cs : Forall handled cs -> adapt_ok (after cs).
Proof.
  intros Hcs. unfold after, state_after. destruct (run_all cs _) as [s|] eqn:Hrun; [|exact sample_adapter_ok].
  exact (calls_keep SSE2 at_place 0 0 cs Hcs _ s Hrun sample_adapter_ok).
Qed.

(** Tabs, margins in origin mode, text, another page, the scrollback erased, and back. *)
Definition sample_calls : list Call := [CursorPosition 3 4; ForwardTab 1; CursorSaveState; SetTopBottomScrollingMargins 2 4; SetMode ModeParams.DECOM_OriginMode; CursorDown 9; PrintString (L "a b"); LineFeed WithReturn; Print 0x63; PagePositionAbsolute 2; BackwardsTab 1; EraseInDisplay 3; CursorRestoreState; CursorForward 99].
Example sample_cursor : ran sample_calls = true /\ cursor_at (after sample_calls) = mkPoint 19 2.
Proof. vm_compute. done. Qed.

Lemma cursor_stays_on_page_witness : let pm := _pages (after sample_calls) in
  exists page tb, PageManager.ActivePage SSE2 at_place 0 pm = (pm, Ret page) /\ 1 <= _number page <= MAX_PAGES /\
    PageManager.buffer_at (_buffer page) pm = Some tb /\ buffer_ok tb /\
    0 <= pt_x (Cursor.GetPosition (_cursor tb)) < _width tb /\
    rc_top (_viewport page) <= pt_y (Cursor.GetPosition (_cursor tb)) < rc_bottom (_viewport page) /\ 0 <= rc_top (_viewport page) /\ rc_bottom (_viewport page) <= _height tb.
Proof.
  apply (cursor_stays_on_page SSE2 at_place 0 0 sample_terminal TerminalInput_ctor s_codepointWidthDetector sample_calls (state_after sample_calls)).
  - split; [|computed]. computed.
  - vm_compute. congruence.
  - vm_compute. congruence.
  - computed.
  - handled_all.
  - apply ran_to. vm_compute. done.
Defined.

(** Between the margins of rows 2 to 4. *)
Definition sample_origin : AdaptDispatch := after [SetTopBottomScrollingMargins 2 4; SetMode ModeParams.DECOM_OriginMode].
Lemma cup_is_reported_witness :
  let '(s, o) := AdaptDispatch.CursorPosition SSE2 at_place 0 2 7 (sample_origin, s_codepointWidthDetector) in
  (o = Ret tt /\ cursor_at (fst s) = mkPoint 6 3 /\
     exists s', AdaptDispatch._CursorPositionReport SSE2 at_place 0 false s = (s', Ret tt) /\
       told (fst s') = told sample_origin ++ [Response [0x1b; 0x5b; 0x32; 0x3b; 0x37; 0x52]]) \/
  (o = Throw /\ no_memory).
Proof.
  apply (cup_is_reported SSE2 at_place 0 sample_origin s_codepointWidthDetector 2 7); [|lia|lia|intros _; computed].
  apply after_ok. handled_all.
Defined.

(** Between saving and restoring another page becomes active, and the cursor and the origin mode are changed. *)
Definition before_save : AdaptDispatch := after [CursorPosition 3 4].
Definition before_restore : AdaptDispatch :=
  after [CursorPosition 3 4; CursorSaveState; ResetMode ModeParams.DECPCCM_PageCursorCouplingMode; PagePositionAbsolute 3; SetMode ModeParams.DECOM_OriginMode; ForwardTab 1].
Example saved_sample :
  _savedCursorState before_restore = _savedCursorState (fst (fst (AdaptDispatch.CursorSaveState SSE2 at_place 0 (before_save, s_codepointWidthDetector)))) /\
  (cursor_at before_save, _number (active_page (_pages before_save))) = (mkPoint 3 3, 1) /\ (cursor_at before_restore, _number (active_page (_pages before_restore))) = (mkPoint 8 0, 3) /\
  let '(s, o) := AdaptDispatch.CursorRestoreState SSE2 at_place 0 (before_restore, s_codepointWidthDetector) in (cursor_at (fst s), _number (active_page (_pages (fst s))), o) = (mkPoint 3 3, 1, Ret tt).
Proof. vm_compute. done. Qed.

Lemma tabs_go_to_stops_witness :
  (let '(s, o) := AdaptDispatch.ForwardTab SSE2 at_place 0 2 (before_save, s_codepointWidthDetector) in
   (o = Ret tt /\ cursor_at (fst s) = mkPoint 16 3 /\ delayed (active (fst s)) = delayed (active before_save)) \/ (o = Throw /\ no_memory)) /\
  (let '(s, o) := AdaptDispatch.BackwardsTab SSE2 at_place 0 2 (before_save, s_codepointWidthDetector) in
   (o = Ret tt /\ cursor_at (fst s) = mkPoint 0 3) \/ (o = Throw /\ no_memory)).
Proof.
  apply (tabs_go_to_stops SSE2 at_place 0 before_save s_codepointWidthDetector 2); [|vm_compute; congruence]. apply after_ok. handled_all.
Defined.

(** Stops in columns 8 and 16, and one in column 3. *)
Definition with_stop : AdaptDispatch := after [CursorPosition 3 4; HorizontalTabSet].
Lemma tab_stops_restored_witness :
  exists s1 text, AdaptModes._ReportTabStops SSE2 at_place 0 (with_stop, s_codepointWidthDetector) = (s1, Ret tt) /\
    told (fst s1) = told with_stop ++ [Response (dcs with_stop ++ L "2$u" ++ text ++ string_terminator with_stop)] /\
  exists s2 h s3, AdaptModes._RestoreTabStops SSE2 at_place 0 (sample_adapter, s_codepointWidthDetector) = (s2, Ret h) /\ AdaptModes.restoreTabs h (text ++ [0x1b]) s2 = (s3, Ret tt) /\
    forall column, 0 <= column -> stop_at (fst s3) column = (0 <? column) && (column <? page_width (_pages with_stop)) && (column <? Z.max (page_width (_pages sample_adapter)) 132) && stop_at with_stop column.
Proof.
  apply (tab_stops_restored SSE2 at_place 0 with_stop s_codepointWidthDetector sample_adapter s_codepointWidthDetector); [|exact sample_adapter_ok]. apply after_ok. handled_all.
Defined.
Example reported_stops : told (fst (fst (AdaptModes._ReportTabStops SSE2 at_place 0 (with_stop, s_codepointWidthDetector)))) = [Response ([0x1b; 0x50] ++ L "2$u4/9/17" ++ [0x1b; 0x5c])].
Proof. vm_compute. done. Qed.

(** Mouse tracking of any event, where it was that of buttons. *)
Definition tracking : AdaptDispatch := after [SetMode ModeParams.BUTTON_EVENT_MOUSE_MODE].
Lemma mode_is_reported_witness :
  let s := fst (default (mret tt) (AdaptModes._ModeParamsHelper SSE2 at_place 0 ModeParams.ANY_EVENT_MOUSE_MODE true) (tracking, s_codepointWidthDetector)) in
  exists s', default (mret tt) (AdaptModes.RequestMode SSE2 at_place 0 ModeParams.ANY_EVENT_MOUSE_MODE) s = (s', Ret tt) /\
    told (fst s') = told (fst s) ++ [Response (csi (fst s) ++ AdaptModes.mode_report ModeParams.ANY_EVENT_MOUSE_MODE (expected_state ModeParams.ANY_EVENT_MOUSE_MODE true tracking))].
Proof.
  intros s. apply (mode_is_reported SSE2 at_place 0 tracking s_codepointWidthDetector ModeParams.ANY_EVENT_MOUSE_MODE true
    (default (mret tt) (AdaptModes._ModeParamsHelper SSE2 at_place 0 ModeParams.ANY_EVENT_MOUSE_MODE true))); [|done|done|done]. apply after_ok. handled_all.
Defined.
Example reported_mode : AdaptModes.mode_report ModeParams.ANY_EVENT_MOUSE_MODE (expected_state ModeParams.ANY_EVENT_MOUSE_MODE true tracking) = L "?1003;1$y".
Proof. vm_compute. done. Qed.

(** ** Behaviour worth knowing *)

(** A page takes over the cursor of another without regard to the width of the line it comes to. On a line of double width, a tab backwards from
    there looks for stops in columns for which none have been initialized. *)
Definition beyond_line : AdaptDispatch := after [PagePositionAbsolute 2; SetLineRendition DoubleWidth; PagePositionAbsolute 1; CursorPosition 1 16; PagePositionAbsolute 2].
Example tab_out_of_range : cursor_at beyond_line = mkPoint 15 1 /\ line_width SSE2 (active beyond_line) 1 = 10 /\ snd (AdaptDispatch.BackwardsTab SSE2 at_place 0 1 (beyond_line, s_codepointWidthDetector)) = UB.
Proof. vm_compute. done. Qed.

(** The states above are reached by calls that return. *)
Example samples_ran : forallb ran [[SetTopBottomScrollingMargins 2 4; SetMode ModeParams.DECOM_OriginMode]; [CursorPosition 3 4];
  [CursorPosition 3 4; CursorSaveState; ResetMode ModeParams.DECPCCM_PageCursorCouplingMode; PagePositionAbsolute 3; SetMode ModeParams.DECOM_OriginMode; ForwardTab 1];
  [CursorPosition 3 4; HorizontalTabSet]; [SetMode ModeParams.BUTTON_EVENT_MOUSE_MODE];
  [PagePositionAbsolute 2; SetLineRendition DoubleWidth; PagePositionAbsolute 1; CursorPosition 1 16; PagePositionAbsolute 2]] = true.
Proof. vm_compute. done. Qed.

(** CHT in the last column of a line: the cursor stays there. *)
Definition in_last_column : AdaptDispatch := after [CursorPosition 2 20].
Example tab_stays_in_last_column : cursor_at in_last_column = mkPoint 19 2 /\
  (let '(s, o) := AdaptDispatch.ForwardTab SSE2 at_place 0 1 (in_last_column, s_codepointWidthDetector) in (cursor_at (fst s), o)) = (mkPoint 19 2, Ret tt).
Proof. vm_compute. done. Qed.

(** A rectangle filled with a combining mark: each mark joins the one before, and the loop over the columns does not advance, here for 1000 turns. *)
Example mark_does_not_fill : snd (AdaptScreen.FillRectangularArea SSE2 at_place 0 0 0x301 1 1 2 5 (sample_adapter, s_codepointWidthDetector)) = OutOfFuel /\
  snd (AdaptScreen.FillRectangularArea SSE2 at_place 0 0 0xe9 1 1 2 5 (sample_adapter, s_codepointWidthDetector)) = Ret tt.
Proof. vm_compute. done. Qed.
